(* ===== verification/_CoqProject ===== *)
-Q . S2P
Prelude.v
Pipe.v
Paging.v
PagingAlloc.v
PagingTree.v
PagingMap.v
PagingCow.v
PagingUser.v
Calendar.v
Mem.v
Heap.v
Break.v
Path.v
Vfs.v
VfsWalk.v
VfsMount.v
Block.v
BlockDevice.v
Ramfs.v
RamfsData.v
RamfsTree.v
RamfsNames.v
RamfsDirs.v
RamfsCalls.v
Fat.v
FatDir.v
FatFile.v
FatName.v
FatDisk.v
FatRead.v
FatAlloc.v
Net.v
Arp.v
Ip.v
Udp.v
Datagram.v
Resolve.v
Socket.v
Task.v
Signal.v
Tty.v
TtyLine.v
Input.v
Console.v
Fbcon.v
FbconSafe.v
Fd.v
Sched.v
Elf.v
Exec.v
Syscalls.v
Interrupts.v
TaskTree.v
SchedTree.v
SchedLinks.v
SchedInv.v
SignalEnds.v
SchedFair.v
SignalReturn.v
Waitpid.v
FdCount.v
FdSched.v
FdRuns.v
FdCalls.v
ExecTree.v
SyscallInv.v
SyscallChecks.v
UserMem.v
ExecStack.v
ElfImage.v
Ports.v
Drivers.v
Rtl8139.v
Ata.v
AtaDisk.v
Glfs.v
Boot.v
Fnmatch.v
Libc.v
Userland.v
