(* ===== verification/Prelude.v ===== *)
(** * A verification library for the GlitchedOS kernel

    GlitchedOS is a small Unix-like kernel for x86-64 (src/kernel), with a C library,
    a shell and a few programs (src/libc, src/shell, src/binaries).  This library
    models the kernel's own logic, and the parts of the C library and the programs that
    have logic of their own, and proves what makes them correct.

    ** The parts and how they interact

    System calls and interrupts enter the kernel for the current task.  The
    scheduler (usermode/scheduler.c) keeps the tasks in a ring and a tree, delivers
    signals and switches between address spaces.  Each task has a table of
    descriptors (usermode/fd.c) that point to shared open files: files of a file
    system, reached through the mount tree (vfs.c), pipes (usermode/pipe.c) or UDP
    sockets (net).  The file systems sit on block devices (drivers/block.c and
    partitions.c), the sockets on UDP, IP, ARP, ethernet and the interfaces
    (drivers/net.c).  Underneath are the page tables (memory/paging.c) and the
    kernel heap (memory/mman.c).

    ** How code becomes definitions

    Each C function is a Definition or Fixpoint of the same name.  A function that
    changes state is a computation of the monad [K S A] = S -> outcome (A * S) of
    this file: [Done] with a result and the new state, [Panic] for panic(),
    [Fault] for an access C gives no meaning to (a NULL or dangling pointer, an
    index out of bounds), [OutOfFuel] when a loop that need not end was not given
    enough iterations.  Structs are records, arrays are lists or finite maps with
    a default, pointers to heap objects are keys of finite maps (0 is NULL).
    Machine integers are elements of Z; [u8], [u16], [u32], [u64] and [s32], [s64]
    wrap them where the code does.  Error results are negative numbers, as in the
    code.  The hardware is a state whose ports are read and written (the class [Ports]
    of Ports.v).  Code that is not in the repository (the glitchfs library) and, in the
    files that do not look into them, the other parts of the kernel (the terminals'
    host, the network cards, the disks) are parameters of the definitions, with what
    is relied on as a class or a hypothesis.

    ** The files

    - Prelude.v: the monad, [keeps] (an invariant is kept by a computation) with the
      tactics [keeps_step]/[keeps_tac], machine integers, lists, sums over maps.
    - Pipe.v (usermode/pipe.c, pipe.h): the ring buffer refines a queue.
    - Paging.v (memory/paging.c, paging.h), and its theory: PagingAlloc.v (page counts,
      first fit), PagingTree.v (page tables as a tree), PagingMap.v (alloc_region),
      PagingCow.v (copy on write), PagingUser.v (checks of user pointers).
    - Calendar.v (drivers/timer.c, rtc.c, the date words of fs/fat.c).
    - Mem.v and Heap.v (memory/mman.c): memory routines, kmalloc and kfree over the
      state of Paging.v.  Break.v (usermode/break.c).
    - Path.v, Vfs.v (vfs.c, the records of uapi/stat.h and dirent.h), VfsWalk.v (lookup
      follows names), VfsMount.v (the mount tree and the counts of open files).
    - Block.v (drivers/block.c, partitions.c, chrdev.c, nulldev.c), BlockDevice.v (a device
      is an array of bytes: the class [BlockDevice], with instances for drivers and
      partitions).
    - Ramfs.v (fs/ramfs.c, devfs.c); RamfsData.v (files are arrays of bytes), RamfsTree.v,
      RamfsNames.v, RamfsDirs.v and RamfsCalls.v (directories are maps from names).
    - Fat.v, FatDir.v, FatFile.v (fs/fat.c); FatName.v (names), FatDisk.v (the volume on
      its device), FatRead.v (reading), FatAlloc.v (the table and its copies, and runs on
      a small volume that show the faults).  Glfs.v (fs/glfs.c, the glue of glitchfs).
    - Net.v (drivers/net.c, net/ethernet.c), Arp.v, Ip.v (net/ip.c, icmp.c), Udp.v (net/udp.c,
      socket.c and reception); Datagram.v (checksums, delivery), Resolve.v (ARP and
      routes) and Socket.v hold their theory.
    - Tty.v (drivers/tty.c) over the class [TtyHost], TtyLine.v (the line editor); Input.v
      (drivers/ps2_keyboard.c, ps2_mouse.c); Console.v (console.c); Fbcon.v (fbcon.c) and
      FbconSafe.v.
    - Task.v (usermode/scheduler.h, fd.h, the frame of idt.h): the state [kernel] that the
      files below share; it contains the states of Paging.v, Vfs.v and Net.v, and
      [lift_tables], [lift_vfs], [lift_net] run their operations in it.
    - Signal.v, Sched.v (usermode/scheduler.c), Fd.v (usermode/fd.c, uapi/fd.h).
    - TaskTree.v, SchedTree.v, SchedLinks.v, SchedInv.v: the ring and the tree of tasks over
      all runs.  SignalEnds.v, SignalReturn.v: signals.  SchedFair.v: round
      robin.  Waitpid.v: exit statuses.
    - FdCount.v, FdSched.v, FdRuns.v: the counts of open files over all runs.  FdCalls.v: the
      results of the calls on descriptors.
    - Elf.v (usermode/elf.c), Exec.v (add_task, spawn, execve, scheduler_init and run_init of
      usermode/scheduler.c), Syscalls.v (usermode/syscalls.c), Interrupts.v (idt.c and
      io/8259pic.c); ExecTree.v and SyscallInv.v (the tables of tasks, and the masks and handlers of
      signals, over every entry of the kernel), SyscallChecks.v (bad pointers).
    - UserMem.v (user memory through page tables), ExecStack.v (what is on the stack of a new
      program), ElfImage.v (what the loader leaves in memory).
    - Ports.v (io/ports.h, 8259pic.c, pci.c, drivers/timer.c, rtc.c), Drivers.v
      (drivers/serial.c, fbdev.c, io/ps2.c and the initialisation of keyboard and mouse),
      Rtl8139.v (drivers/net/rtl8139.c), Ata.v (drivers/block/ata.c, atapi.c) and AtaDisk.v
      (the driver on a disk that behaves as the standard says).
    - Boot.v (main.c: the command line; gdt.c, idt.c: the descriptor tables; panic.c).
    - Outside of the kernel: Fnmatch.v (libc/platform/functions/fnmatch.c), Libc.v (realpath,
      buffers of streams, lines and signal sets of libc/platform), Userland.v (environment,
      search along PATH and glob of libc/platform, messages of binaries/dhcp-client.c).

    ** What the theorems show

    - Memory: alloc_region maps exactly the pages asked for to fresh frames; copy on
      write gives the faulting page a frame of its own with the same contents and
      changes no other translation; the allocator is first fit and never hands out
      a page in use; a range within a page that validate_user_pointer accepts is
      accessible from user mode; the regions of the heap tile it over any
      run of kmalloc, kcalloc, krealloc and kfree; sbrk stays within its bounds.
    - Pipes: reads and writes by any number of tasks are those of a bounded queue, and
      a blocking write returns when the other tasks let it.
    - Files: lookup resolves names as a walk over the mounts, the mount tree and the
      counts that keep a busy file system from being unmounted survive all calls,
      block reads and writes act on an array of bytes, and nothing is written outside
      a partition, for requests that end below 2^64 - 4096.  Files of ramfs are arrays of bytes and its directories
      maps from names to entries; on a device that does not fail reading a FAT file gives
      the bytes of its chain and the copies of the table agree, and names survive the 8.3 format.
    - Terminals and console: a terminal is a line editor with a queue, with the echo and
      the output of that editor; bytes written to
      the framebuffer console keep its cursor and its memory accesses within bounds;
      numbers in kernel messages read back.
    - Programs: from any entry of the kernel (system calls, faults, ticks, device
      interrupts) the tables of tasks stay well formed, but for an execve of init and a stop
      signal to a zombie; a system call with a pointer that the switch refuses
      fails and changes nothing; the loader leaves the segments of the file in memory with
      clear tails; argv, envp and their strings are on the stack where the program finds
      them.
    - Drivers: reading and writing sectors of an ATA disk with 48-bit addresses moves exactly
      the data of these sectors, with one failed access repaired; the scan of the PCI bus
      finds the functions that answer.
    - Network: a datagram sent by one host is delivered to the port of another byte by
      byte; all checksum loops compute one sum; the longest matching route is taken;
      an ARP request ends.
    - Tasks: every run of system calls, signals and ticks keeps ring and tree well formed;
      no entry of the kernel lets a task mask, catch or ignore SIGKILL; a fatal signal that
      is delivered ends the task; sigreturn restores what was interrupted; a ready task
      is not starved; waitpid reaps a child once with its status.
    - Descriptors: over every run the count of an open file is the number of
      descriptors that point to it, calls that fail take nothing, open returns the
      lowest free descriptor, and dup2 shares the position.

    - Above the kernel: fnmatch is the matching of pattern elements; glob reports only files
      that are there; realpath and the kernel agree on paths that stay below the root; the
      environment is a map, the search takes the directories of PATH in order; a flush loses
      no byte; getline gives the next line; the DHCP client reads the options a server wrote.

    Where the code does not do what it means to, the theorem states what holds and a
    lemma beside it shows the deviation on a concrete state (for example
    [Heap.kfree_zero_block_frees_neighbour], [Socket.recvfrom_never_consumes],
    [SchedInv.zombie_revived], [SignalEnds.handler_shields_from_sigkill],
    [Waitpid.wait_any_reports_twice], [BlockDevice.block_write_wraps],
    [AtaDisk.last_write_error_unseen], [Rtl8139.frame_across_shifted],
    [Libc.realpath_loses_root]).

    ** Bounds and fuel

    Loops over the ring of tasks, the siblings of a task or the list of mounts take
    as fuel the number of tasks or mounts, which bounds them when the lists are well
    formed (TaskTree.v, VfsMount.v).  switch_task calls itself when a signal ends the
    task it picked; it gets two more iterations than there are tasks, as each task
    ends once.  Loops over 64-bit sizes take the size itself.  Loops that wait for
    other tasks (reads, writes to a pipe, ARP) take the fuel, or the steps of the
    other tasks, as an argument.  The calendar loops end within the range of int,
    which is the bound of their theorems.  Loops that wait for a register have [patience]
    reads; AtaDisk.v shows that as many as the disk is busy are enough.

    ** Not modelled

    The C library (PDCLib, dlmalloc) but for its platform layer, the shell and the boot loader
    are third-party code; of the platform layer the stubs that only make a system call and
    set errno, and of src/binaries the tools that only call the C library, are left out.  Assembly stubs, the instructions that
    load descriptor tables and control registers, and the saving of the FPU state have no
    counterpart; kernel_main is the order in which the other parts are initialised.  The
    debugger at a breakpoint (breakpoint_debugger in idt.c) is a parameter of Interrupts.v.
    The glitchfs library is a submodule that is not part of the repository.  Hardware is as
    the ports show it: memory that a device writes by itself (the ring of the network
    card) may change between calls, not within one.  The timer preempts
    user mode and kernel workers only (irq0_handler in io/8259pic.c), so a system
    call runs to its end or to a point where it yields, and is one step of the
    model; that its first half may wake blocked tasks, or a card deliver a frame,
    in the middle of a call is not modelled. *)

From stdpp Require Export base numbers list option gmap.
From Stdlib Require Export ZArith Lia.

#[global] Open Scope Z_scope.

(** ** Error numbers of kernel/error.h *)

Definition EPERM : Z := 1.
Definition ENOENT : Z := 2.
Definition ESRCH : Z := 3.
Definition EINTR : Z := 4.
Definition EIO : Z := 5.
Definition ENOEXEC : Z := 8.
Definition EBADF : Z := 9.
Definition EAGAIN : Z := 11.
Definition EFAULT : Z := 14.
Definition ENOTBLK : Z := 15.
Definition EBUSY : Z := 16.
Definition EEXIST : Z := 17.
Definition EXDEV : Z := 18.
Definition ENODEV : Z := 19.
Definition ENOTDIR : Z := 20.
Definition EISDIR : Z := 21.
Definition EINVAL : Z := 22.
Definition ENFILE : Z := 23.
Definition EMFILE : Z := 24.
Definition ENOTTY : Z := 25.
Definition ENOSPC : Z := 28.
Definition ESPIPE : Z := 29.
Definition EROFS : Z := 30.
Definition EPIPE : Z := 32.
Definition ENAMETOOLONG : Z := 36.
Definition ENOSYS : Z := 38.
Definition ENOTEMPTY : Z := 39.
Definition EMSGSIZE : Z := 90.
Definition ETIMEDOUT : Z := 110.
Definition EHOSTUNREACH : Z := 113.

(** ** Machine integers: conversions to the C types of a given width *)

Definition u8 (z : Z) : Z := z mod 2 ^ 8.
Definition u16 (z : Z) : Z := z mod 2 ^ 16.
Definition u32 (z : Z) : Z := z mod 2 ^ 32.
Definition u64 (z : Z) : Z := z mod 2 ^ 64.
Definition s8 (z : Z) : Z := (z + 2 ^ 7) mod 2 ^ 8 - 2 ^ 7.
Definition s32 (z : Z) : Z := (z + 2 ^ 31) mod 2 ^ 32 - 2 ^ 31.
Definition s64 (z : Z) : Z := (z + 2 ^ 63) mod 2 ^ 64 - 2 ^ 63.
Definition INT_MAX : Z := 2 ^ 31 - 1.

(** A flag test [x & f] used as a C condition. *)
Definition has (x f : Z) : bool := negb (Z.land x f =? 0).

(** ** Outcomes and the kernel monad

    [Panic] is a call of panic(); [Fault] is an access C gives no meaning to
    (a dangling pointer, an index out of an array); [OutOfFuel] is a loop that
    used up the bound it was given. *)

Inductive outcome (A : Type) : Type :=
| Done (a : A)
| Panic
| Fault
| OutOfFuel.
Arguments Done {_} _.
Arguments Panic {_}.
Arguments Fault {_}.
Arguments OutOfFuel {_}.

Definition K (S A : Type) : Type := S → outcome (A * S).

#[global] Instance K_ret S : MRet (K S) := λ A a s, Done (a, s).
#[global] Instance K_bind S : MBind (K S) := λ A B f m s,
  match m s with
  | Done (a, s') => f a s'
  | Panic => Panic
  | Fault => Fault
  | OutOfFuel => OutOfFuel
  end.

Definition kget {S} : K S S := λ s, Done (s, s).
Definition kput {S} (s' : S) : K S unit := λ _, Done (tt, s').
Definition kgets {S A} (f : S → A) : K S A := λ s, Done (f s, s).
Definition kmodify {S} (f : S → S) : K S unit := λ s, Done (tt, f s).
Definition kpanic {S A} : K S A := λ _, Panic.
Definition kfault {S A} : K S A := λ _, Fault.
Definition kfuel {S A} : K S A := λ _, OutOfFuel.
(** A partial read: C would read through an invalid pointer or index. *)
Definition kopt {S A} (o : option A) : K S A :=
  match o with Some a => mret a | None => kfault end.

#[global] Arguments K_ret {_} _ _ _ /.
#[global] Arguments K_bind {_} _ _ _ _ _ /.

Lemma K_bind_Done {S A B} (m : K S A) (f : A → K S B) s b s'' :
  (m ≫= f) s = Done (b, s'') ↔
  ∃ a s', m s = Done (a, s') ∧ f a s' = Done (b, s'').
Proof.
  unfold mbind, K_bind. split.
  - destruct (m s) as [[a s']| | |]; naive_solver.
  - intros (a & s' & -> & ->); done.
Qed.

Lemma K_bind_step {S A B} (m : K S A) (f : A → K S B) s a s' :
  m s = Done (a, s') → (m ≫= f) s = f a s'.
Proof. unfold mbind, K_bind. by intros ->. Qed.

Lemma K_kopt_step {S A B} (o : option A) a (f : A → K S B) s :
  o = Some a → (kopt o ≫= f) s = f a s.
Proof. by intros ->. Qed.

(** Steps of a completed run: reading the state, changing it. *)
Ltac bind_get H :=
  let Hg := fresh "Hg" in apply K_bind_Done in H as (? & ? & Hg & H); unfold kget in Hg; injection Hg as <- <-.
Ltac bind_modify H s :=
  let Hg := fresh "Hg" in apply K_bind_Done in H as (? & s & Hg & H); unfold kmodify in Hg; injection Hg as _ <-.
(** Take a successful run of a bind apart. *)
Ltac inv_done :=
  repeat match goal with
  | H : (_ ≫= _) _ = Done _ |- _ =>
      apply K_bind_Done in H; destruct H as (? & ? & ? & ?)
  | H : mret _ _ = Done _ |- _ => unfold mret, K_ret in H; simplify_eq/=
  | H : kget _ = Done _ |- _ => unfold kget in H; simplify_eq/=
  | H : kput _ _ = Done _ |- _ => unfold kput in H; simplify_eq/=
  | H : kgets _ _ = Done _ |- _ => unfold kgets in H; simplify_eq/=
  | H : kmodify _ _ = Done _ |- _ => unfold kmodify in H; simplify_eq/=
  | H : kpanic _ = Done _ |- _ => discriminate H
  | H : kfault _ = Done _ |- _ => discriminate H
  | H : kfuel _ = Done _ |- _ => discriminate H
  end.

(** A run that completes on a concrete state is found by evaluation. *)
Definition completes {A} (o : outcome A) : bool :=
  match o with Done _ => true | _ => false end.
Lemma completes_Done {A} (o : outcome A) : completes o = true → ∃ a, o = Done a.
Proof. destruct o; naive_solver. Qed.

(** [safe m s]: the run neither faults nor exhausts its fuel; it completes or
    panics. *)
Definition safe {S A} (m : K S A) (s : S) : Prop := m s ≠ Fault ∧ m s ≠ OutOfFuel.

Lemma safe_cases {S A} (m : K S A) s :
  safe m s → (∃ a s', m s = Done (a, s')) ∨ m s = Panic.
Proof. intros [H1 H2]. destruct (m s) as [[a s']| | |]; naive_solver. Qed.
Lemma safe_bind {S A B} (m : K S A) (f : A → K S B) s :
  safe m s → (∀ a s', m s = Done (a, s') → safe (f a) s') → safe (m ≫= f) s.
Proof.
  unfold safe, mbind, K_bind. intros [H1 H2] Hf.
  destruct (m s) as [[a s']| | |]; try done. by apply Hf.
Qed.
Lemma safe_ret {S A} (a : A) (s : S) : safe (mret a) s.
Proof. done. Qed.
Lemma safe_gets {S A} (f : S → A) s : safe (kgets f) s.
Proof. done. Qed.
Lemma safe_modify {S} (f : S → S) s : safe (kmodify f) s.
Proof. done. Qed.
Lemma safe_panic {S A} (s : S) : safe (@kpanic S A) s.
Proof. done. Qed.
Lemma safe_Done {S A} (m : K S A) s a s' : m s = Done (a, s') → safe m s.
Proof. unfold safe. intros ->. done. Qed.

(** [wp m s Q]: the run of [m] from [s] panics, or completes with a result and a
    state in [Q]. *)
Definition wp {S A} (m : K S A) (s : S) (Q : A → S → Prop) : Prop :=
  match m s with
  | Done (a, s') => Q a s'
  | Panic => True
  | _ => False
  end.

Lemma wp_ret {S A} (a : A) (s : S) (Q : A → S → Prop) : Q a s → wp (mret a) s Q.
Proof. done. Qed.
Lemma wp_bind {S A B} (m : K S A) (f : A → K S B) s (R : A → S → Prop) (Q : B → S → Prop) :
  wp m s R → (∀ a s', R a s' → wp (f a) s' Q) → wp (m ≫= f) s Q.
Proof. unfold wp, mbind, K_bind. intros H Hf. destruct (m s) as [[a s']| | |]; [by apply Hf|done..]. Qed.
Lemma wp_mono {S A} (m : K S A) s (R Q : A → S → Prop) : wp m s R → (∀ a s', R a s' → Q a s') → wp m s Q.
Proof. unfold wp. destruct (m s) as [[a s']| | |]; auto. Qed.
Lemma wp_safe {S A} (m : K S A) s (Q : A → S → Prop) :
  safe m s → (∀ a s', m s = Done (a, s') → Q a s') → wp m s Q.
Proof. unfold wp. intros [H1 H2] HQ. destruct (m s) as [[a s']| | |]; [by apply HQ|done..]. Qed.
Lemma wp_Done {S A} (m : K S A) s a s' (Q : A → S → Prop) : m s = Done (a, s') → Q a s' → wp m s Q.
Proof. unfold wp. by intros ->. Qed.
Lemma wp_cases {S A} (m : K S A) s (Q : A → S → Prop) :
  wp m s Q → m s = Panic ∨ ∃ a s', m s = Done (a, s') ∧ Q a s'.
Proof. unfold wp. destruct (m s) as [[a s']| | |]; naive_solver. Qed.

(** [terminates m]: no run of [m] exhausts its fuel. *)
Definition terminates {S A} (m : K S A) : Prop := ∀ s, m s ≠ OutOfFuel.

Lemma terminates_bind {S A B} (m : K S A) (f : A → K S B) :
  terminates m → (∀ a, terminates (f a)) → terminates (m ≫= f).
Proof.
  intros Hm Hf s. unfold mbind, K_bind. specialize (Hm s).
  destruct (m s) as [[a s']| | |]; try done. apply Hf.
Qed.
Create HintDb terminates discriminated.
#[export] Hint Constants Opaque : terminates.
Ltac terminates_step :=
  lazymatch goal with
  | |- terminates (_ ≫= _) => apply terminates_bind; [|intros ?]
  | |- terminates (if ?b then _ else _) => destruct b
  | |- terminates (match ?o with _ => _ end) => destruct o
  | |- terminates (mret _) => by intros ?
  | |- terminates kget => by intros ?
  | |- terminates (kgets _) => by intros ?
  | |- terminates (kmodify _) => by intros ?
  | |- terminates (kput _) => by intros ?
  | |- terminates kpanic => by intros ?
  | |- terminates kfault => by intros ?
  | |- terminates (kopt ?o) => by destruct o
  | |- terminates (let _ := _ in _) => cbv zeta
  end.
Ltac terminates_tac := repeat terminates_step; auto with terminates nocore.

(** ** Invariants of monadic programs *)

(** [for (i = 0; i < n; i++) body(i)] *)
Fixpoint kfor {S} (l : list Z) (f : Z → K S unit) : K S unit :=
  match l with
  | [] => mret tt
  | i :: l => f i;; kfor l f
  end.

(** [keeps P m]: [P] survives every completed run of [m]. *)
Definition keeps {S A} (P : S → Prop) (m : K S A) : Prop :=
  ∀ s a s', P s → m s = Done (a, s') → P s'.

Lemma keeps_ret {S A} (P : S → Prop) (a : A) : keeps P (mret a).
Proof. intros s b s' HP H. unfold mret, K_ret in H. by simplify_eq. Qed.
Lemma keeps_bind {S A B} (P : S → Prop) (m : K S A) (f : A → K S B) :
  keeps P m → (∀ a, keeps P (f a)) → keeps P (m ≫= f).
Proof.
  intros Hm Hf s b s' HP H. apply K_bind_Done in H as (a & s1 & H1 & H2).
  eapply Hf; [|done]. by eapply Hm.
Qed.
Lemma keeps_gets {S A} (P : S → Prop) (f : S → A) : keeps P (kgets f).
Proof. intros s b s' HP H. unfold kgets in H. by simplify_eq. Qed.
Lemma keeps_get {S} (P : S → Prop) : keeps P kget.
Proof. intros s b s' HP H. unfold kget in H. by simplify_eq. Qed.
Lemma keeps_modify {S} (P : S → Prop) (f : S → S) :
  (∀ s, P s → P (f s)) → keeps P (kmodify f).
Proof. intros Hf s b s' HP H. unfold kmodify in H. simplify_eq. by apply Hf. Qed.
Lemma keeps_fail {S A} (P : S → Prop) : keeps P (@kpanic S A) ∧ keeps P (@kfault S A)
  ∧ keeps P (@kfuel S A).
Proof. split_and!; intros s b s' HP H; discriminate H. Qed.
Lemma keeps_opt {S A} (P : S → Prop) (o : option A) : keeps P (kopt o).
Proof. destruct o; [apply keeps_ret|apply keeps_fail]. Qed.
Lemma keeps_if {S A} (P : S → Prop) (b : bool) (m1 m2 : K S A) :
  keeps P m1 → keeps P m2 → keeps P (if b then m1 else m2).
Proof. by destruct b. Qed.
Lemma keeps_for {S} (P : S → Prop) l (f : Z → K S unit) :
  (∀ i, keeps P (f i)) → keeps P (kfor l f).
Proof.
  intros Hf. induction l as [|i l IH]; [apply keeps_ret|].
  apply keeps_bind; [apply Hf|intros _; apply IH].
Qed.

Create HintDb keeps discriminated.
#[export] Hint Constants Opaque : keeps.
#[export] Hint Resolve keeps_ret keeps_gets keeps_get keeps_if : keeps.

Ltac keeps_step :=
  lazymatch goal with
  | |- keeps _ (_ ≫= _) => apply keeps_bind; [|intros ?]
  | |- keeps _ (mret _) => apply keeps_ret
  | |- keeps _ (kgets _) => apply keeps_gets
  | |- keeps _ kget => apply keeps_get
  | |- keeps _ kpanic => apply keeps_fail
  | |- keeps _ kfault => apply keeps_fail
  | |- keeps _ kfuel => apply keeps_fail
  | |- keeps _ (kfor _ _) => apply keeps_for; intros ?
  | |- keeps _ (kopt _) => apply keeps_opt
  | |- keeps _ (if ?b then _ else _) => destruct b
  | |- keeps _ (match ?o with _ => _ end) => destruct o
  end.
(** Walk down a monadic body, leaving the primitive steps. *)
Ltac keeps_tac := repeat keeps_step; auto with keeps nocore.

(** ** Ranges of the machine integers *)

Create HintDb machine discriminated.
#[export] Hint Constants Opaque : machine.

Lemma u8_range z : 0 ≤ u8 z < 2 ^ 8.
Proof. unfold u8. apply Z.mod_pos_bound. lia. Qed.
Lemma u16_range z : 0 ≤ u16 z < 2 ^ 16.
Proof. unfold u16. apply Z.mod_pos_bound. lia. Qed.
Lemma u32_range z : 0 ≤ u32 z < 2 ^ 32.
Proof. unfold u32. apply Z.mod_pos_bound. lia. Qed.
Lemma u64_range z : 0 ≤ u64 z < 2 ^ 64.
Proof. unfold u64. apply Z.mod_pos_bound. lia. Qed.

Lemma u8_id z : 0 ≤ z < 2 ^ 8 → u8 z = z.
Proof. apply Z.mod_small. Qed.
Lemma u16_id z : 0 ≤ z < 2 ^ 16 → u16 z = z.
Proof. apply Z.mod_small. Qed.
Lemma u32_id z : 0 ≤ z < 2 ^ 32 → u32 z = z.
Proof. apply Z.mod_small. Qed.
Lemma u64_id z : 0 ≤ z < 2 ^ 64 → u64 z = z.
Proof. apply Z.mod_small. Qed.
Lemma s32_id z : - 2 ^ 31 ≤ z < 2 ^ 31 → s32 z = z.
Proof. intros. unfold s32. rewrite Z.mod_small; lia. Qed.
Lemma s64_id z : - 2 ^ 63 ≤ z < 2 ^ 63 → s64 z = z.
Proof. intros. unfold s64. rewrite Z.mod_small; lia. Qed.

#[export] Hint Resolve u8_range u16_range u32_range u64_range : machine.

(** Remove the conversions whose argument lia can see to be in range. *)
Ltac norm_int :=
  repeat match goal with
    | |- context [u8 ?x] => rewrite (u8_id x) by lia
    | |- context [u16 ?x] => rewrite (u16_id x) by lia
    | |- context [u32 ?x] => rewrite (u32_id x) by lia
    | |- context [u64 ?x] => rewrite (u64_id x) by lia
    | |- context [s32 ?x] => rewrite (s32_id x) by lia
    | |- context [s64 ?x] => rewrite (s64_id x) by lia
    end.

(** ** Bit fields *)

Lemma testbit_small n w k : 0 ≤ n < 2 ^ w → w ≤ k → Z.testbit n k = false.
Proof.
  intros Hn Hk. destruct (decide (0 ≤ w)) as [Hw|];
    [|rewrite Z.pow_neg_r in Hn by lia; lia].
  rewrite <-(Z.mod_small n (2 ^ w)) by done. by apply Z.mod_pow2_bits_high.
Qed.

(** Or-ing a small field below a shifted one is adding it. *)
Lemma lor_shiftl x y k :
  0 ≤ k → 0 ≤ y < 2 ^ k → Z.lor (Z.shiftl x k) y = x * 2 ^ k + y.
Proof.
  intros Hk Hy. apply Z.bits_inj'. intros n Hn.
  rewrite Z.lor_spec, Z.shiftl_spec by lia. destruct (Z.lt_ge_cases n k) as [Hlt|Hge].
  - rewrite (Z.testbit_neg_r x) by lia. simpl.
    rewrite <-(Z.mod_pow2_bits_low (x * 2 ^ k + y) k n) by lia.
    f_equal. rewrite Z.add_comm, Z.mod_add by lia. by rewrite Z.mod_small.
  - rewrite (testbit_small y k n), orb_false_r by lia.
    replace n with (n - k + k) at 2 by lia. rewrite <-Z.div_pow2_bits by lia.
    f_equal. rewrite Z.add_comm, Z.div_add by lia. by rewrite Z.div_small.
Qed.
Lemma land_low x k m : m = Z.ones k → 0 ≤ k → 0 ≤ x < 2 ^ k → Z.land x m = x.
Proof. intros -> ? ?. rewrite Z.land_ones by lia. by apply Z.mod_small. Qed.
(** A field read back: [(v >> k) & (2^w - 1)]. *)
Lemma field_div v k w m :
  m = Z.ones w → 0 ≤ k → 0 ≤ w → Z.land (Z.shiftr v k) m = v / 2 ^ k mod 2 ^ w.
Proof. intros -> ? ?. by rewrite Z.land_ones, Z.shiftr_div_pow2 by lia. Qed.

(** ** Lists indexed by Z, as C arrays are *)

Definition zlen {A} (l : list A) : Z := Z.of_nat (length l).
Definition znth {A} (l : list A) (i : Z) : option A :=
  if i <? 0 then None else l !! Z.to_nat i.
Definition ztake {A} (n : Z) (l : list A) : list A := take (Z.to_nat n) l.
Definition zdrop {A} (n : Z) (l : list A) : list A := drop (Z.to_nat n) l.
(** The bytes at [off, off+n). *)
Definition zslice {A} (off n : Z) (l : list A) : list A := ztake n (zdrop off l).
(** Overwrite the elements from [off] on with [src] (memcpy into an array). *)
Definition zsplice {A} (off : Z) (src l : list A) : list A :=
  ztake off l ++ src ++ zdrop (off + zlen src) l.

Lemma zlen_nonneg {A} (l : list A) : 0 ≤ zlen l.
Proof. unfold zlen. lia. Qed.
Lemma zlen_nil {A} : zlen (@nil A) = 0.
Proof. done. Qed.
Lemma zlen_app {A} (l k : list A) : zlen (l ++ k) = zlen l + zlen k.
Proof. unfold zlen. rewrite length_app. lia. Qed.
Lemma zlen_cons {A} (x : A) l : zlen (x :: l) = 1 + zlen l.
Proof. unfold zlen. simpl. lia. Qed.
Lemma zlen_ztake {A} n (l : list A) : zlen (ztake n l) = Z.min (Z.max 0 n) (zlen l).
Proof. unfold zlen, ztake. rewrite length_take. lia. Qed.
Lemma zlen_zdrop {A} n (l : list A) : zlen (zdrop n l) = Z.max 0 (zlen l - Z.max 0 n).
Proof. unfold zlen, zdrop. rewrite length_drop. lia. Qed.
Lemma zlen_zslice {A} off n (l : list A) :
  0 ≤ off → 0 ≤ n → off + n ≤ zlen l → zlen (zslice off n l) = n.
Proof. intros. unfold zslice. rewrite zlen_ztake, zlen_zdrop. lia. Qed.
Lemma zlen_zsplice {A} off (src l : list A) :
  0 ≤ off → off + zlen src ≤ zlen l → zlen (zsplice off src l) = zlen l.
Proof.
  intros. unfold zsplice. rewrite !zlen_app, zlen_ztake, zlen_zdrop.
  pose proof (zlen_nonneg src). lia.
Qed.

Lemma ztake_zdrop {A} n (l : list A) : ztake n l ++ zdrop n l = l.
Proof. apply take_drop. Qed.
Lemma zdrop_0 {A} (l : list A) : zdrop 0 l = l.
Proof. done. Qed.
Lemma ztake_all {A} n (l : list A) : zlen l ≤ n → ztake n l = l.
Proof. unfold zlen, ztake. intros. apply take_ge. lia. Qed.
Lemma zdrop_all {A} n (l : list A) : zlen l ≤ n → zdrop n l = [].
Proof. unfold zlen, zdrop. intros. apply drop_ge. lia. Qed.
Lemma ztake_le0 {A} n (l : list A) : n ≤ 0 → ztake n l = [].
Proof. intros. unfold ztake. replace (Z.to_nat n) with 0%nat by lia. done. Qed.
Lemma zdrop_le0 {A} n (l : list A) : n ≤ 0 → zdrop n l = l.
Proof. intros. unfold zdrop. replace (Z.to_nat n) with 0%nat by lia. done. Qed.
Lemma ztake_app_le {A} n (l k : list A) : n ≤ zlen l → ztake n (l ++ k) = ztake n l.
Proof. unfold zlen, ztake. intros. apply take_app_le. lia. Qed.
Lemma ztake_app_ge {A} n (l k : list A) :
  zlen l ≤ n → ztake n (l ++ k) = l ++ ztake (n - zlen l) k.
Proof.
  unfold zlen, ztake. intros. rewrite take_app_ge by lia. do 2 f_equal. lia.
Qed.
Lemma zdrop_app_le {A} n (l k : list A) :
  n ≤ zlen l → zdrop n (l ++ k) = zdrop n l ++ k.
Proof. unfold zlen, zdrop. intros. apply drop_app_le. lia. Qed.
Lemma zdrop_app_ge {A} n (l k : list A) :
  zlen l ≤ n → zdrop n (l ++ k) = zdrop (n - zlen l) k.
Proof.
  unfold zlen, zdrop. intros. rewrite drop_app_ge by lia. f_equal. lia.
Qed.
Lemma zdrop_zdrop {A} n m (l : list A) :
  0 ≤ n → 0 ≤ m → zdrop n (zdrop m l) = zdrop (m + n) l.
Proof. intros. unfold zdrop. rewrite drop_drop. f_equal. lia. Qed.
Lemma ztake_ztake {A} n m (l : list A) :
  ztake n (ztake m l) = ztake (Z.min n m) l.
Proof. unfold ztake. rewrite take_take. f_equal. lia. Qed.
Lemma zdrop_ztake {A} n m (l : list A) :
  0 ≤ n → zdrop n (ztake m l) = ztake (m - n) (zdrop n l).
Proof.
  intros. unfold zdrop, ztake. rewrite skipn_firstn_comm. f_equal. lia.
Qed.
Lemma ztake_app_split {A} a b (l : list A) :
  0 ≤ a → 0 ≤ b → ztake a l ++ ztake b (zdrop a l) = ztake (a + b) l.
Proof.
  intros. unfold ztake, zdrop.
  rewrite <-(take_drop (Z.to_nat a) (take (Z.to_nat (a + b)) l)).
  f_equal.
  - rewrite take_take. f_equal. lia.
  - rewrite skipn_firstn_comm. f_equal. lia.
Qed.

Create HintDb zlist.
#[export] Hint Rewrite @zlen_app @zlen_nil @zlen_cons @zlen_ztake @zlen_zdrop : zlist.

(** Replicated values (memset, zeroed memory). *)
Definition zrepeat {A} (n : Z) (x : A) : list A := replicate (Z.to_nat n) x.
Lemma zlen_zrepeat {A} n (x : A) : zlen (zrepeat n x) = Z.max 0 n.
Proof. unfold zlen, zrepeat. rewrite length_replicate. lia. Qed.
#[export] Hint Rewrite @zlen_zrepeat : zlist.

(** What a splice leaves alone and what it writes. *)
Lemma ztake_zsplice_before {A} a off (src l : list A) :
  a ≤ off → off ≤ zlen l → ztake a (zsplice off src l) = ztake a l.
Proof.
  intros. unfold zsplice. destruct (Z.le_gt_cases 0 a).
  - rewrite ztake_app_le by (rewrite zlen_ztake; lia).
    rewrite ztake_ztake. f_equal. lia.
  - by rewrite !ztake_le0 by lia.
Qed.
Lemma zdrop_zsplice_after {A} a off (src l : list A) :
  0 ≤ off → off + zlen src ≤ a → off + zlen src ≤ zlen l →
  zdrop a (zsplice off src l) = zdrop a l.
Proof.
  intros. pose proof (zlen_nonneg src). unfold zsplice.
  rewrite zdrop_app_ge by (rewrite zlen_ztake; lia).
  rewrite zlen_ztake, zdrop_app_ge by lia.
  rewrite zdrop_zdrop by lia. f_equal. lia.
Qed.
Lemma zdrop_zsplice_at {A} off (src l : list A) :
  0 ≤ off ≤ zlen l →
  zdrop off (zsplice off src l) = src ++ zdrop (off + zlen src) l.
Proof.
  intros. unfold zsplice.
  rewrite zdrop_app_ge by (rewrite zlen_ztake; lia).
  rewrite zlen_ztake, zdrop_le0 by lia. done.
Qed.
Lemma zslice_zsplice_grow {A} a off (src l : list A) :
  0 ≤ a ≤ off → off ≤ zlen l →
  zslice a (off + zlen src - a) (zsplice off src l) = zslice a (off - a) l ++ src.
Proof.
  intros. pose proof (zlen_nonneg src). unfold zslice, zsplice.
  rewrite zdrop_app_le by (rewrite zlen_ztake; lia).
  rewrite zdrop_ztake by lia. rewrite app_assoc.
  rewrite ztake_app_le by (rewrite zlen_app, zlen_ztake, zlen_zdrop; lia).
  apply ztake_all. rewrite zlen_app, zlen_ztake, zlen_zdrop. lia.
Qed.
Lemma ztake_zsplice_grow {A} off (src l : list A) :
  0 ≤ off ≤ zlen l → ztake (off + zlen src) (zsplice off src l) = ztake off l ++ src.
Proof.
  intros. pose proof (zslice_zsplice_grow 0 off src l) as Hg.
  rewrite !Z.sub_0_r in Hg. unfold zslice in Hg. rewrite !zdrop_0 in Hg. apply Hg; lia.
Qed.
Lemma zslice_zsplice_same {A} off (src l : list A) :
  0 ≤ off ≤ zlen l → zslice off (zlen src) (zsplice off src l) = src.
Proof. intros. unfold zslice. rewrite zdrop_zsplice_at, ztake_app_le by lia. by apply ztake_all. Qed.
Lemma zslice_zsplice_other {A} a n off (src l : list A) :
  0 ≤ a → 0 ≤ off → off + zlen src ≤ zlen l → a + n ≤ off ∨ off + zlen src ≤ a →
  zslice a n (zsplice off src l) = zslice a n l.
Proof.
  intros Ha Ho Hl [H|H]; pose proof (zlen_nonneg src); unfold zslice.
  - destruct (Z.le_gt_cases n 0); [by rewrite !ztake_le0 by lia|].
    replace (ztake n (zdrop a (zsplice off src l))) with (zdrop a (ztake (a + n) (zsplice off src l))).
    + rewrite ztake_zsplice_before by lia. rewrite zdrop_ztake by lia. f_equal. lia.
    + rewrite zdrop_ztake by lia. f_equal. lia.
  - by rewrite zdrop_zsplice_after by lia.
Qed.
Lemma zslice_app_split {A} a n m (l : list A) :
  0 ≤ a → 0 ≤ n → 0 ≤ m → zslice a n l ++ zslice (a + n) m l = zslice a (n + m) l.
Proof.
  intros. unfold zslice. rewrite <-zdrop_zdrop by lia. by apply ztake_app_split.
Qed.

(** Lengths by rewriting, then arithmetic. *)
Ltac zlia :=
  autorewrite with zlist;
  repeat match goal with
  | |- context [zlen ?l] =>
      lazymatch goal with
      | _ : 0 ≤ zlen l |- _ => fail
      | _ => pose proof (zlen_nonneg l)
      end
  end; lia.

(** Elements by index. *)
Lemma znth_app_l {A} (c k : list A) i : i < zlen c → znth (c ++ k) i = znth c i.
Proof.
  unfold znth, zlen. intros. destruct (Z.ltb_spec i 0); [done|]. apply lookup_app_l. lia.
Qed.
Lemma znth_app_r {A} (c k : list A) i : zlen c ≤ i → znth (c ++ k) i = znth k (i - zlen c).
Proof.
  unfold znth, zlen. intros. destruct (Z.ltb_spec i 0); [lia|].
  destruct (Z.ltb_spec (i - Z.of_nat (length c)) 0); [lia|].
  rewrite lookup_app_r by lia. f_equal. lia.
Qed.
Lemma znth_ztake {A} (c : list A) n i : i < n → znth (ztake n c) i = znth c i.
Proof.
  unfold znth, ztake. intros. destruct (Z.ltb_spec i 0); [done|]. apply lookup_take_lt. lia.
Qed.
Lemma znth_zdrop {A} (c : list A) n i : 0 ≤ n → 0 ≤ i → znth (zdrop n c) i = znth c (n + i).
Proof.
  unfold znth, zdrop. intros. destruct (Z.ltb_spec i 0); [lia|]. destruct (Z.ltb_spec (n + i) 0); [lia|].
  rewrite lookup_drop. f_equal. lia.
Qed.
Lemma znth_ge {A} (c : list A) i : zlen c ≤ i → znth c i = None.
Proof. unfold znth, zlen. intros. destruct (i <? 0); [done|]. apply lookup_ge_None. lia. Qed.
Lemma zslice_zslice {A} a n off len (c : list A) :
  0 ≤ a → 0 ≤ off → a + n ≤ len → zslice a n (zslice off len c) = zslice (off + a) n c.
Proof.
  intros. unfold zslice. rewrite zdrop_ztake, zdrop_zdrop, ztake_ztake by lia. f_equal. lia.
Qed.
Lemma zslice_zsplice_inner {A} off len a (src c : list A) :
  0 ≤ off → 0 ≤ a → a + zlen src ≤ len → off + len ≤ zlen c →
  zslice off len (zsplice (off + a) src c) = zsplice a src (zslice off len c).
Proof.
  intros. pose proof (zlen_nonneg src). unfold zslice, zsplice.
  rewrite zdrop_app_le by zlia. rewrite ztake_app_ge by zlia.
  rewrite ztake_app_ge by zlia. autorewrite with zlist.
  rewrite ztake_ztake, !zdrop_ztake, !zdrop_zdrop by lia.
  f_equal; [f_equal; lia|]. f_equal. f_equal; [lia|f_equal; lia].
Qed.
Lemma zsplice_grow {A} off (a b c : list A) :
  0 ≤ off → off + zlen a + zlen b ≤ zlen c →
  zsplice (off + zlen a) b (zsplice off a c) = zsplice off (a ++ b) c.
Proof.
  intros. pose proof (zlen_nonneg a). pose proof (zlen_nonneg b).
  unfold zsplice at 1. rewrite ztake_zsplice_grow by lia.
  rewrite zdrop_zsplice_after by lia. unfold zsplice. rewrite zlen_app, <-!app_assoc.
  by rewrite Z.add_assoc.
Qed.
(** Read a block, change a part of it, write it back. *)
Lemma zsplice_zslice {A} off len a (src c : list A) :
  0 ≤ off → 0 ≤ a → a + zlen src ≤ len → off + len ≤ zlen c →
  zsplice off (zsplice a src (zslice off len c)) c = zsplice (off + a) src c.
Proof.
  intros. pose proof (zlen_nonneg src).
  unfold zsplice at 1. rewrite zlen_zsplice by (rewrite ?zlen_zslice; lia).
  rewrite zlen_zslice by lia. unfold zsplice, zslice.
  rewrite ztake_ztake, zdrop_ztake, zdrop_zdrop by lia.
  rewrite <-!app_assoc, (Z.min_l a len), (app_assoc (ztake off c)) by lia.
  rewrite ztake_app_split by lia. do 2 f_equal. rewrite <-Z.add_assoc.
  replace (off + len) with (off + (a + zlen src) + (len - (a + zlen src))) by lia.
  rewrite <-(zdrop_zdrop (len - (a + zlen src))) by lia. by rewrite ztake_zdrop.
Qed.

(** A splice over the end of the first part. *)
Lemma zsplice_app {A} off (a r d x : list A) : 0 ≤ off → off + zlen a ≤ zlen d → (r ≠ [] → off + zlen a = zlen d) →
  zlen r ≤ zlen x → zsplice off (a ++ r) (d ++ x) = zsplice off a d ++ zsplice 0 r x.
Proof.
  intros Hoff Hle Hr Hx. pose proof (zlen_nonneg a). unfold zsplice. rewrite ztake_app_le by lia.
  rewrite zlen_app, (ztake_le0 0) by lia. rewrite <-!app_assoc. do 2 f_equal. cbn [app].
  destruct (decide (r = [])) as [->|Hne].
  - rewrite zlen_nil. cbn [app]. rewrite zdrop_app_le by lia. rewrite (zdrop_le0 (0 + 0)) by lia. do 3 f_equal. lia.
  - specialize (Hr Hne). rewrite zdrop_app_ge by (pose proof (zlen_nonneg r); lia).
    rewrite (zdrop_all (off + zlen a)) by lia. cbn [app]. do 2 f_equal. lia.
Qed.
Lemma zsplice_nil {A} (x : list A) : zsplice 0 [] x = x.
Proof. unfold zsplice. by rewrite ztake_le0 by lia. Qed.
Lemma zrepeat_app {A} (x : A) a b : 0 ≤ a → 0 ≤ b → zrepeat a x ++ zrepeat b x = zrepeat (a + b) x.
Proof. intros. unfold zrepeat. rewrite <-replicate_add. f_equal. lia. Qed.
Lemma zsplice_none {A} off (x : list A) : zsplice off [] x = x.
Proof. unfold zsplice. cbn [app]. change (zlen []) with 0. rewrite Z.add_0_r. apply ztake_zdrop. Qed.
Lemma zslice_app_r {A} bo w n (d x : list A) : 0 ≤ bo → 0 ≤ w → bo + w ≤ zlen d → 0 ≤ n → (0 < n → bo + w = zlen d) →
  zslice bo w d ++ zslice 0 n x = zslice bo (w + n) (d ++ x).
Proof.
  intros Hbo Hw Hle Hn Heq. unfold zslice. rewrite (zdrop_le0 0) by lia. rewrite (zdrop_app_le bo) by lia.
  destruct (decide (n = 0)) as [->|].
  - rewrite (ztake_le0 0) by lia. rewrite app_nil_r, Z.add_0_r. rewrite ztake_app_le; [done|]. rewrite zlen_zdrop. lia.
  - specialize (Heq ltac:(lia)). rewrite ztake_app_ge by (rewrite zlen_zdrop; lia).
    rewrite (ztake_all w) by (rewrite zlen_zdrop; lia). do 2 f_equal. rewrite zlen_zdrop. lia.
Qed.
Lemma zsplice_app_l {A} off (b d x : list A) : zlen d ≤ off → zsplice off b (d ++ x) = d ++ zsplice (off - zlen d) b x.
Proof.
  intros Hd. pose proof (zlen_nonneg b). unfold zsplice. rewrite ztake_app_ge by lia. rewrite zdrop_app_ge by lia.
  rewrite <-app_assoc. do 4 f_equal. lia.
Qed.
Lemma zslice_ztake {A} off n size (x : list A) : 0 ≤ off → 0 ≤ n → off ≤ size →
  zslice off n (ztake size x) = zslice off (if size <? off + n then size - off else n) x.
Proof.
  intros Ho Hn Hle. unfold zslice. rewrite zdrop_ztake, ztake_ztake by lia. f_equal.
  destruct (Z.ltb_spec size (off + n)); lia.
Qed.
(** The first [n] elements after a splice that may make them more. *)
Lemma splice_bytes {A} (c : list A) n off (buf : list A) : 0 ≤ n → n ≤ zlen c → 0 ≤ off → off + zlen buf ≤ zlen c →
  ztake (if n <? off + zlen buf then off + zlen buf else n) (zsplice off buf c) =
  ztake off (ztake n c) ++ zslice n (off - n) c ++ buf ++ zdrop (off + zlen buf) (ztake n c).
Proof.
  intros Hn Hnc Hoff Hfit. pose proof (zlen_nonneg buf) as Hb. unfold zsplice.
  set (m := if _ <? _ then _ else _). assert (Hm : off + zlen buf ≤ m) by (unfold m; destruct (Z.ltb_spec n (off + zlen buf)); lia).
  rewrite ztake_app_ge by (rewrite zlen_ztake; lia). rewrite zlen_ztake.
  rewrite ztake_app_ge by lia. rewrite (app_assoc (ztake off (ztake n c))). f_equal.
  - rewrite ztake_ztake. destruct (Z.le_gt_cases off n).
    + unfold zslice. rewrite (ztake_le0 (off - n)), app_nil_r by lia. f_equal. lia.
    + unfold zslice. transitivity (ztake (n + (off - n)) c); [f_equal; lia|]. rewrite <-ztake_app_split by lia. f_equal. f_equal. lia.
  - f_equal. rewrite zdrop_ztake by lia. replace (m - _ - zlen buf) with (m - (off + zlen buf)) by lia.
    unfold m. destruct (Z.ltb_spec n (off + zlen buf)); [|done]. by rewrite !ztake_le0 by lia.
Qed.
Lemma zdrop_zrepeat {A} n k (x : A) : 0 ≤ n → zdrop n (zrepeat k x) = zrepeat (k - n) x.
Proof. intros. unfold zdrop, zrepeat. rewrite drop_replicate. f_equal. lia. Qed.
Lemma ztake_zrepeat {A} n k (x : A) : n ≤ k → ztake n (zrepeat k x) = zrepeat n x.
Proof. intros. unfold ztake, zrepeat. rewrite take_replicate. f_equal. lia. Qed.
Lemma zrepeat_none {A} n (x : A) : n ≤ 0 → zrepeat n x = [].
Proof. intros H. unfold zrepeat. by replace (Z.to_nat n) with O by lia. Qed.
Lemma zrepeat_next {A} n (x : A) : 0 < n → zrepeat n x = x :: zrepeat (n - 1) x.
Proof. intros H. unfold zrepeat. by replace (Z.to_nat n) with (S (Z.to_nat (n - 1))) by lia. Qed.

(** ** Bytes in a buffer *)

(** The little-endian number in a list of bytes. *)
Fixpoint le (l : list Z) : Z :=
  match l with
  | [] => 0
  | b :: l => b + 256 * le l
  end.
(** A field of [n] bytes at [off]; reading past the buffer is a fault. *)
Definition field (off n : Z) (buffer : list Z) : option (list Z) :=
  if (0 <=? off) && (off + n <=? zlen buffer) then Some (zslice off n buffer) else None.

(** The difference of the first two bytes that differ. *)
Fixpoint memcmp_bytes (a b : list Z) : Z :=
  match a, b with
  | x :: a, y :: b => if x =? y then memcmp_bytes a b else x - y
  | _, _ => 0
  end.

(** A 16-bit word as the machine stores it, low byte first. *)
Definition put16 (v : Z) : list Z := [v mod 256; v / 256 mod 256].
Lemma le_put16 v : 0 ≤ v < 2 ^ 16 → le (put16 v) = v.
Proof. intros. cbn [le put16]. Z.div_mod_to_equations. lia. Qed.
Lemma zlen_put16 v : zlen (put16 v) = 2.
Proof. done. Qed.
Lemma field_zslice off n (c : list Z) :
  0 ≤ off → off + n ≤ zlen c → field off n c = Some (zslice off n c).
Proof.
  intros. unfold field. by rewrite (proj2 (Z.leb_le 0 off)), (proj2 (Z.leb_le (off + n) (zlen c))) by lia.
Qed.
Lemma memcmp_bytes_eq a b : zlen a = zlen b → memcmp_bytes a b = 0 ↔ a = b.
Proof.
  revert b. induction a as [|x a IH]; intros [|y b] Hl; rewrite ?zlen_cons, ?zlen_nil in Hl;
    cbn [memcmp_bytes]; try done.
  - pose proof (zlen_nonneg b). lia.
  - pose proof (zlen_nonneg a). lia.
  - destruct (Z.eqb_spec x y) as [->|Hne].
    + rewrite IH by lia. split; [by intros ->|by intros [= ->]].
    + split; [lia|congruence].
Qed.

(** A list without an element. *)
Definition without (c : Z) (l : list Z) : list Z := filter (λ x, x ≠ c) l.
Lemma without_id c l : c ∉ l → without c l = l.
Proof.
  intros Hn. unfold without. induction l as [|x l IH]; [done|].
  rewrite filter_cons_True by set_solver. f_equal. apply IH. set_solver.
Qed.
Lemma without_split c l1 l2 : c ∉ l1 → c ∉ l2 → without c (l1 ++ c :: l2) = l1 ++ l2.
Proof.
  intros H1 H2. unfold without. rewrite filter_app, filter_cons_False by naive_solver.
  f_equal; by apply without_id.
Qed.
Lemma elem_of_without c x l : x ∈ without c l ↔ x ∈ l ∧ x ≠ c.
Proof. unfold without. rewrite list_elem_of_filter. naive_solver. Qed.
Lemma without_nodup c l1 l2 : NoDup (l1 ++ c :: l2) → without c (l1 ++ c :: l2) = l1 ++ l2.
Proof.
  intros H. apply NoDup_app in H as (_ & H1 & H2). apply NoDup_cons in H2 as [H2 _].
  apply without_split; [|done]. set_solver.
Qed.

(** ** Sums over a map *)

Definition msum {A} (f : A → Z) (m : gmap Z A) : Z := map_fold (λ _ x a, f x + a) 0 m.
Section msum.
Context {A : Type} (f : A → Z).
Lemma msum_empty : msum f ∅ = 0.
Proof. done. Qed.
Lemma msum_insert_new m k x : m !! k = None → msum f (<[k := x]> m) = f x + msum f m.
Proof. intros Hk. unfold msum. apply (map_fold_insert_L (λ _ x a, f x + a)); [|done]. intros. lia. Qed.
Lemma msum_delete m k x : m !! k = Some x → msum f (delete k m) = msum f m - f x.
Proof. intros Hk. unfold msum. rewrite (map_fold_delete_L (λ _ x a, f x + a) _ k x m); [lia| |done]. intros. lia. Qed.
Lemma msum_insert m k x : msum f (<[k := x]> m) = msum f m - from_option f 0 (m !! k) + f x.
Proof.
  destruct (m !! k) as [y|] eqn:E; cbn.
  - rewrite <-insert_delete_eq, msum_insert_new by apply lookup_delete_eq. rewrite (msum_delete _ _ _ E). lia.
  - rewrite msum_insert_new by done. lia.
Qed.
Lemma msum_nonneg m : (∀ k x, m !! k = Some x → 0 ≤ f x) → 0 ≤ msum f m.
Proof.
  induction m as [|k x m Hk IH] using map_ind; [done|]. intros Hf. rewrite msum_insert_new by done.
  assert (0 ≤ f x) by (apply (Hf k); apply lookup_insert_eq). assert (0 ≤ msum f m); [|lia].
  apply IH. intros k' y Hy. apply (Hf k'). rewrite lookup_insert_ne; [done|congruence].
Qed.
Lemma msum_le m b : (∀ k x, m !! k = Some x → f x ≤ b) → msum f m ≤ b * Z.of_nat (size m).
Proof.
  induction m as [|k x m Hk IH] using map_ind; [rewrite msum_empty, map_size_empty; lia|]. intros Hf.
  rewrite msum_insert_new, map_size_insert_None by done.
  assert (f x ≤ b) by (apply (Hf k); apply lookup_insert_eq). assert (msum f m ≤ b * Z.of_nat (size m)); [|rewrite Nat2Z.inj_succ; lia].
  apply IH. intros k' y Hy. apply (Hf k'). rewrite lookup_insert_ne; [done|congruence].
Qed.
(** A member's share is at most the sum. *)
Lemma msum_member m k x : (∀ k x, m !! k = Some x → 0 ≤ f x) → m !! k = Some x → f x ≤ msum f m.
Proof.
  intros Hf Hk. pose proof (msum_delete _ _ _ Hk). assert (0 ≤ msum f (delete k m)); [|lia].
  apply msum_nonneg. intros k' y [_ Hy]%lookup_delete_Some. by apply (Hf k').
Qed.
Lemma msum_zero m : (∀ k x, m !! k = Some x → f x = 0) → msum f m = 0.
Proof.
  intros Hf. apply Z.le_antisymm; [|apply msum_nonneg; intros k x Hk; rewrite (Hf k x Hk); done].
  rewrite (msum_le m 0); [lia|]. intros k x Hk. by rewrite (Hf k x Hk).
Qed.
End msum.
