(* ===== verification/Pipe.v ===== *)
(** * kernel/usermode/pipe.c: the kernel pipe, a byte ring buffer

    [pipe_t] is the C struct; heads and counts are uint16_t, the buffer is a
    list of bytes.  [pipe_read] and [pipe_write] return the C result together
    with the new pipe (and, for a read, the bytes copied out).  A blocking
    write gives up the CPU with yield_current(): the other tasks are an
    explicit list of environment steps, each of which says whether a signal was
    pending when the writer was about to sleep and what the others did to the
    pipe while it slept.

    [contents] is the abstract queue the operations refine. *)

From S2P Require Import Prelude.

Definition PIPE_SIZE : Z := 8184.

Record pipe_t := mk_pipe {
  read_head : Z;
  write_head : Z;
  reader_count : Z;
  writer_count : Z;
  buffer : list Z;
}.

Definition set_read_head (h : Z) (p : pipe_t) : pipe_t :=
  mk_pipe (u16 h) (write_head p) (reader_count p) (writer_count p) (buffer p).
Definition set_write_head (h : Z) (p : pipe_t) : pipe_t :=
  mk_pipe (read_head p) (u16 h) (reader_count p) (writer_count p) (buffer p).
Definition set_buffer (b : list Z) (p : pipe_t) : pipe_t :=
  mk_pipe (read_head p) (write_head p) (reader_count p) (writer_count p) b.

(** kmalloc returns zeroed memory. *)
Definition create_pipe : pipe_t := mk_pipe 0 0 1 1 (zrepeat PIPE_SIZE 0).

(** The second component says whether the pipe was handed to kfree. *)
Definition remove_pipe_reader (p : pipe_t) : pipe_t * bool :=
  let p' := mk_pipe (read_head p) (write_head p) (u16 (reader_count p - 1))
              (writer_count p) (buffer p) in
  (p', (reader_count p' =? 0) && (writer_count p' =? 0)).

Definition remove_pipe_writer (p : pipe_t) : pipe_t * bool :=
  let p' := mk_pipe (read_head p) (write_head p) (reader_count p)
              (u16 (writer_count p - 1)) (buffer p) in
  (p', (reader_count p' =? 0) && (writer_count p' =? 0)).

(** Result, bytes copied to the caller's buffer, new pipe. *)
Definition pipe_read (p : pipe_t) (len : Z) : Z * list Z * pipe_t :=
  if read_head p <=? write_head p then
    if write_head p =? read_head p then
      if writer_count p =? 0 then (0, [], p) else (- EAGAIN, [], p)
    else
      let max_bytes := write_head p - read_head p in
      let len := if max_bytes <? len then max_bytes else len in
      (len, zslice (read_head p) len (buffer p),
       set_read_head (read_head p + len) p)
  else
    let max_bytes := Z.rem (PIPE_SIZE - read_head p + write_head p) PIPE_SIZE in
    let len := if max_bytes <? len then max_bytes else len in
    let first_part_length :=
      if len <? PIPE_SIZE - read_head p then len else PIPE_SIZE - read_head p in
    let first := zslice (read_head p) first_part_length (buffer p) in
    let p1 := set_read_head (Z.rem (read_head p + first_part_length) PIPE_SIZE) p in
    if first_part_length =? len then (len, first, p1)
    else
      let second := zslice 0 (len - first_part_length) (buffer p1) in
      let p2 := set_read_head
                  (Z.rem (read_head p1 + len - first_part_length) PIPE_SIZE) p1 in
      (len, first ++ second, p2).

(** What happens while a blocked writer waits: whether has_pending_signals()
    holds when it looks, and what the other tasks do to the pipe before it
    runs again. *)
Record env_step := mk_env_step {
  env_pending : bool;
  env_others : pipe_t → pipe_t;
}.

(** [int] subtraction of two uint16_t values, then C's remainder. *)
Definition available_space (p : pipe_t) : Z :=
  Z.rem (read_head p - write_head p - 1 + PIPE_SIZE) PIPE_SIZE.

(** One pass over the body of the loop that does not wait: copy a chunk. *)
Definition write_chunk (p : pipe_t) (src : list Z) (written : Z) (chunk : Z) : pipe_t :=
  let first := PIPE_SIZE - write_head p in
  let first := if chunk <? first then chunk else first in
  let b1 := zsplice (write_head p) (zslice written first src) (buffer p) in
  let b2 := if first <? chunk
            then zsplice 0 (zslice (written + first) (chunk - first) src) b1
            else b1 in
  set_write_head (Z.rem (write_head p + chunk) PIPE_SIZE) (set_buffer b2 p).

Fixpoint pipe_write_loop (fuel : nat) (env : list env_step) (p : pipe_t)
    (src : list Z) (written : Z) (blocking : bool) : outcome (Z * pipe_t) :=
  match fuel with
  | O => OutOfFuel
  | S fuel =>
    if zlen src <=? written then Done (written, p)
    else if reader_count p =? 0 then
      Done (if written =? 0 then - EPIPE else written, p)
    else
      let available := available_space p in
      if available =? 0 then
        if negb blocking then
          Done (if written =? 0 then - EAGAIN else written, p)
        else
          match env with
          | [] => OutOfFuel
          | e :: env =>
            if env_pending e then Done (- EINTR, p)
            else pipe_write_loop fuel env (env_others e p) src written blocking
          end
      else
        let chunk := zlen src - written in
        let chunk := if available <? chunk then available else chunk in
        pipe_write_loop fuel env (write_chunk p src written chunk) src
          (written + chunk) blocking
  end.

(** Each wait uses one environment step and is followed by at most one copy. *)
Definition pipe_write_fuel (env : list env_step) : nat := (2 * length env + 3)%nat.

Definition pipe_write (env : list env_step) (p : pipe_t) (src : list Z)
    (blocking : bool) : outcome (Z * pipe_t) :=
  if zlen src =? 0 then Done (0, p)
  else if reader_count p =? 0 then Done (- EPIPE, p)
  else pipe_write_loop (pipe_write_fuel env) env p src 0 blocking.

(** ** The abstract queue *)

Definition pipe_wf (p : pipe_t) : Prop :=
  0 ≤ read_head p < PIPE_SIZE ∧ 0 ≤ write_head p < PIPE_SIZE ∧
  zlen (buffer p) = PIPE_SIZE.

(** The bytes written and not yet read, oldest first. *)
Definition contents (p : pipe_t) : list Z :=
  if read_head p <=? write_head p
  then zslice (read_head p) (write_head p - read_head p) (buffer p)
  else zdrop (read_head p) (buffer p) ++ ztake (write_head p) (buffer p).

(** Only the heads and the buffer matter to the queue. *)
Definition same_ends (p q : pipe_t) : Prop :=
  reader_count p = reader_count q ∧ writer_count p = writer_count q.


#[export] Hint Unfold pipe_wf : machine.

Lemma contents_length p :
  pipe_wf p →
  zlen (contents p) =
    if read_head p <=? write_head p then write_head p - read_head p
    else PIPE_SIZE - read_head p + write_head p.
Proof.
  intros (? & ? & ?). unfold contents. case_match.
  - apply zlen_zslice; lia.
  - zlia.
Qed.

Lemma available_space_spec p :
  pipe_wf p → available_space p = PIPE_SIZE - 1 - zlen (contents p).
Proof.
  intros Hwf. pose proof (contents_length p Hwf) as Hc.
  destruct Hwf as (? & ? & ?). rewrite Hc. unfold available_space, PIPE_SIZE in *.
  destruct (Z.leb_spec (read_head p) (write_head p)).
  - rewrite Z.rem_mod_nonneg by lia. rewrite Z.mod_small; lia.
  - rewrite Z.rem_mod_nonneg by lia.
    replace (read_head p - write_head p - 1 + 8184)
      with (read_head p - write_head p - 1 + 1 * 8184) by lia.
    rewrite Z.mod_add by lia. rewrite Z.mod_small; lia.
Qed.

Lemma pipe_wf_create : pipe_wf create_pipe.
Proof. unfold pipe_wf, create_pipe, PIPE_SIZE; simpl. zlia. Qed.

(** ** Reading takes from the front of the queue *)

Lemma ztake_zslice {A} a n m (l : list A) :
  0 ≤ m ≤ n → ztake m (zslice a n l) = zslice a m l.
Proof. intros. unfold zslice. rewrite ztake_ztake. f_equal. lia. Qed.

Lemma zdrop_zslice {A} a n m (l : list A) :
  0 ≤ a → 0 ≤ m → zdrop m (zslice a n l) = zslice (a + m) (n - m) l.
Proof.
  intros. unfold zslice. rewrite zdrop_ztake by lia. rewrite zdrop_zdrop by lia.
  done.
Qed.

Lemma zslice_to_end {A} a n (l : list A) :
  0 ≤ n → zlen l - Z.max 0 a ≤ n → zslice a n l = zdrop a l.
Proof. intros. unfold zslice. apply ztake_all. zlia. Qed.

Lemma clamp_min a b : (if a <? b then a else b) = Z.min a b.
Proof. destruct (Z.ltb_spec a b); lia. Qed.

(** What a read does to the abstract queue. *)
Definition read_ok (p : pipe_t) (len : Z) (r : Z * list Z * pipe_t) : Prop :=
  let '(n, bytes, p') := r in
  pipe_wf p' ∧ same_ends p p' ∧
  (contents p = [] →
     n = (if writer_count p =? 0 then 0 else - EAGAIN) ∧ bytes = [] ∧ p' = p) ∧
  (contents p ≠ [] →
     n = Z.min len (zlen (contents p)) ∧ zlen bytes = n ∧
     contents p = bytes ++ contents p').

Lemma read_straight p len :
  pipe_wf p → 0 ≤ len → read_head p < write_head p →
  read_ok p len (pipe_read p len).
Proof.
  intros Hwf Hlen Hlt. pose proof (contents_length p Hwf) as Hc.
  destruct Hwf as (Hr & Hw & Hb). unfold PIPE_SIZE in *.
  unfold read_ok, pipe_read.
  rewrite (proj2 (Z.leb_le (read_head p) (write_head p))) in * by lia.
  destruct (Z.eqb_spec (write_head p) (read_head p)) as [|_]; [lia|].
  rewrite clamp_min. set (n := Z.min (write_head p - read_head p) len).
  assert (0 ≤ n ≤ write_head p - read_head p) by lia.
  split_and!.
  - unfold pipe_wf, set_read_head, PIPE_SIZE; simpl. norm_int. lia.
  - done.
  - intros H0. rewrite H0, zlen_nil in Hc. lia.
  - intros _. rewrite Hc. split; [lia|].
    split; [apply zlen_zslice; lia|].
    unfold contents at 2, set_read_head; simpl. norm_int.
    rewrite (proj2 (Z.leb_le (read_head p + n) (write_head p))) by lia.
    unfold contents. rewrite (proj2 (Z.leb_le (read_head p) (write_head p))) by lia.
    rewrite <-(ztake_zdrop n (zslice _ _ _)).
    rewrite ztake_zslice, zdrop_zslice by lia. do 2 f_equal. lia.
Qed.

Lemma read_wrapped p len :
  pipe_wf p → 0 ≤ len → write_head p < read_head p →
  read_ok p len (pipe_read p len).
Proof.
  intros Hwf Hlen Hlt. pose proof (contents_length p Hwf) as Hc.
  destruct Hwf as (Hr & Hw & Hb). unfold PIPE_SIZE in *.
  unfold read_ok, pipe_read.
  rewrite (proj2 (Z.leb_gt (read_head p) (write_head p))) in * by lia.
  assert (Hne : contents p ≠ []).
  { intros H0. rewrite H0, zlen_nil in Hc. lia. }
  unfold PIPE_SIZE. rewrite Z.rem_small by lia.
  rewrite !clamp_min. rewrite Hc.
  set (n := Z.min (8184 - read_head p + write_head p) len).
  set (f := Z.min n (8184 - read_head p)).
  assert (Hconts : contents p =
            zdrop (read_head p) (buffer p) ++ ztake (write_head p) (buffer p)).
  { unfold contents. by rewrite (proj2 (Z.leb_gt _ _)) by lia. }
  destruct (Z.eqb_spec f n) as [Hfn|Hfn].
  - (* the request ends before the end of the buffer *)
    assert (Hle : n ≤ 8184 - read_head p) by lia.
    assert (Hh : u16 (Z.rem (read_head p + f) 8184)
                 = if read_head p + n =? 8184 then 0 else read_head p + n).
    { rewrite Hfn. destruct (Z.eqb_spec (read_head p + n) 8184) as [->|].
      - done.
      - rewrite Z.rem_small by lia. norm_int. lia. }
    unfold set_read_head; simpl; rewrite Hh.
    split_and!; [|done|done|intros _; split_and!].
    + unfold pipe_wf, PIPE_SIZE; simpl. case_match; lia.
    + lia.
    + rewrite zlen_zslice; lia.
    + rewrite Hconts. unfold contents; simpl.
      destruct (Z.eqb_spec (read_head p + n) 8184) as [He|].
      * rewrite (proj2 (Z.leb_le 0 (write_head p))) by lia.
        rewrite zslice_to_end by lia.
        unfold zslice. rewrite zdrop_0, Z.sub_0_r. done.
      * rewrite (proj2 (Z.leb_gt (read_head p + n) (write_head p))) by lia.
        rewrite app_assoc. f_equal. rewrite Hfn. unfold zslice.
        rewrite <-(ztake_zdrop n (zdrop (read_head p) (buffer p))) at 1.
        rewrite zdrop_zdrop by lia. done.
  - (* two copies *)
    assert (Hf : f = 8184 - read_head p) by lia.
    assert (Hh1 : u16 (Z.rem (read_head p + f) 8184) = 0).
    { rewrite Hf. replace (read_head p + (8184 - read_head p)) with 8184 by lia. done. }
    unfold set_read_head; simpl; rewrite Hh1.
    assert (Hh2 : u16 (Z.rem (0 + n - f) 8184) = n - f).
    { rewrite Z.rem_small by lia. norm_int. lia. }
    rewrite Hh2.
    split_and!; [|done|done|intros _; split_and!].
    + unfold pipe_wf, PIPE_SIZE; simpl. lia.
    + lia.
    + rewrite zlen_app, !zlen_zslice; lia.
    + rewrite Hconts. unfold contents; simpl.
      rewrite (proj2 (Z.leb_le (n - f) (write_head p))) by lia.
      rewrite zslice_to_end by lia. rewrite <-app_assoc. f_equal.
      unfold zslice. rewrite zdrop_0.
      rewrite ztake_app_split by lia. f_equal. lia.
Qed.

Lemma contents_nil_eq p : pipe_wf p → contents p = [] → read_head p = write_head p.
Proof.
  intros Hwf H0. pose proof (contents_length p Hwf) as Hc.
  rewrite H0, zlen_nil in Hc. destruct Hwf as (? & ? & ?). unfold PIPE_SIZE in *.
  destruct (Z.leb_spec (read_head p) (write_head p)); lia.
Qed.

Lemma read_empty p len :
  pipe_wf p → read_head p = write_head p → read_ok p len (pipe_read p len).
Proof.
  intros Hwf He. unfold read_ok, pipe_read. rewrite He, Z.leb_refl, Z.eqb_refl.
  assert (Hc : contents p = []).
  { unfold contents. rewrite He, Z.leb_refl. unfold zslice.
    apply ztake_le0. lia. }
  rewrite Hc. destruct (writer_count p =? 0); split_and!; done.
Qed.

Lemma pipe_read_spec p len :
  pipe_wf p → 0 ≤ len → read_ok p len (pipe_read p len).
Proof.
  intros Hwf Hlen. destruct (Z.lt_trichotomy (read_head p) (write_head p)) as [|[|]].
  - by apply read_straight.
  - by apply read_empty.
  - by apply read_wrapped.
Qed.

(** ** Writing appends to the queue *)

Lemma write_chunk_spec p src w chunk :
  pipe_wf p → 0 ≤ w → w + chunk ≤ zlen src →
  0 < chunk ≤ PIPE_SIZE - 1 - zlen (contents p) →
  pipe_wf (write_chunk p src w chunk) ∧
  same_ends p (write_chunk p src w chunk) ∧
  contents (write_chunk p src w chunk) = contents p ++ zslice w chunk src.
Proof.
  intros Hwf Hw Hsrc Hch. rewrite contents_length in Hch by done.
  destruct Hwf as (Hr & Hwh & Hb). unfold PIPE_SIZE in *.
  unfold write_chunk, set_write_head, set_buffer, PIPE_SIZE; simpl.
  rewrite clamp_min. set (f := Z.min chunk (8184 - write_head p)).
  assert (Hs1 : zlen (zslice w f src) = f) by (apply zlen_zslice; lia).
  destruct (Z.leb_spec (read_head p) (write_head p)) as [Hle|Hgt].
  - destruct (Z.lt_trichotomy (write_head p + chunk) 8184) as [Hl|[He|Hg]].
    + assert (f = chunk) as -> by lia. rewrite Z.ltb_irrefl.
      rewrite Z.rem_small by lia. norm_int.
      split; [unfold pipe_wf, PIPE_SIZE; simpl; rewrite zlen_zsplice; lia|].
      split; [done|]. unfold contents; simpl.
      rewrite !(proj2 (Z.leb_le _ _)) by lia.
      rewrite <-Hs1 at 1. apply zslice_zsplice_grow; lia.
    + assert (f = chunk) as -> by lia. rewrite Z.ltb_irrefl.
      rewrite He. change (u16 (Z.rem 8184 8184)) with 0.
      split; [unfold pipe_wf, PIPE_SIZE; simpl; rewrite zlen_zsplice; lia|].
      split; [done|]. unfold contents; simpl.
      rewrite (proj2 (Z.leb_gt (read_head p) 0)) by lia.
      rewrite (proj2 (Z.leb_le _ _)) by lia.
      rewrite (ztake_le0 0) by lia. rewrite app_nil_r.
      rewrite <-zslice_zsplice_grow by lia.
      symmetry. apply zslice_to_end; rewrite ?zlen_zsplice; lia.
    + assert (f = 8184 - write_head p) as Hf by lia.
      rewrite (proj2 (Z.ltb_lt f chunk)) by lia.
      assert (Hs2 : zlen (zslice (w + f) (chunk - f) src) = chunk - f)
        by (apply zlen_zslice; lia).
      assert (Hh : u16 (Z.rem (write_head p + chunk) 8184) = chunk - f).
      { rewrite Z.rem_mod_nonneg by lia.
        replace (write_head p + chunk) with (chunk - f + 1 * 8184) by lia.
        rewrite Z.mod_add, Z.mod_small by lia. norm_int. lia. }
      rewrite Hh.
      set (b1 := zsplice _ (zslice w f src) _).
      assert (Hb1 : zlen b1 = 8184) by (unfold b1; rewrite zlen_zsplice; lia).
      split; [unfold pipe_wf, PIPE_SIZE; simpl; rewrite zlen_zsplice; lia|].
      split; [done|]. unfold contents; simpl.
      rewrite (proj2 (Z.leb_gt (read_head p) (chunk - f))) by lia.
      rewrite (proj2 (Z.leb_le (read_head p) (write_head p))) by lia.
      rewrite zdrop_zsplice_after by lia.
      replace (chunk - f) with (0 + zlen (zslice (w + f) (chunk - f) src)) at 1 by lia.
      rewrite ztake_zsplice_grow by lia. rewrite ztake_le0 by lia. simpl.
      replace (zslice w chunk src)
        with (zslice w f src ++ zslice (w + f) (chunk - f) src)
        by (rewrite zslice_app_split by lia; f_equal; lia).
      rewrite app_assoc. f_equal. unfold b1.
      rewrite <-zslice_zsplice_grow by lia.
      symmetry. apply zslice_to_end; rewrite ?zlen_zsplice; lia.
  - assert (f = chunk) as -> by lia. rewrite Z.ltb_irrefl.
    rewrite Z.rem_small by lia. norm_int.
    split; [unfold pipe_wf, PIPE_SIZE; simpl; rewrite zlen_zsplice; lia|].
    split; [done|]. unfold contents; simpl.
    rewrite !(proj2 (Z.leb_gt _ _)) by lia.
    rewrite zdrop_zsplice_after by lia. rewrite <-app_assoc. f_equal.
    rewrite <-Hs1 at 1. apply ztake_zsplice_grow; lia.
Qed.

(** Free space after a copy of [chunk] bytes. *)
Lemma write_chunk_space p src w chunk :
  pipe_wf p → 0 ≤ w → w + chunk ≤ zlen src →
  0 < chunk ≤ PIPE_SIZE - 1 - zlen (contents p) →
  available_space (write_chunk p src w chunk) = available_space p - chunk.
Proof.
  intros Hwf Hw Hsrc Hch.
  destruct (write_chunk_spec p src w chunk) as (Hwf' & _ & Hc); try done.
  rewrite !available_space_spec, Hc, zlen_app, zlen_zslice by (done || lia). lia.
Qed.

Lemma available_space_nonneg p : pipe_wf p → 0 ≤ available_space p < PIPE_SIZE.
Proof.
  intros Hwf. rewrite available_space_spec, contents_length by done.
  destruct Hwf as (? & ? & ?). unfold PIPE_SIZE in *.
  destruct (Z.leb_spec (read_head p) (write_head p)); lia.
Qed.

Lemma write_loop_nonblocking fuel env p src w :
  (3 ≤ fuel)%nat → pipe_wf p → reader_count p ≠ 0 → 0 ≤ w ≤ zlen src →
  let k := Z.min (zlen src - w) (available_space p) in
  ∃ p', pipe_write_loop fuel env p src w false
        = Done (if w + k =? 0 then (if zlen src =? 0 then 0 else - EAGAIN) else w + k, p') ∧
    pipe_wf p' ∧ same_ends p p' ∧ contents p' = contents p ++ zslice w k src.
Proof.
  intros Hfuel Hwf Hrd Hw k.
  destruct fuel as [|[|[|fuel]]]; try lia.
  pose proof (available_space_nonneg p Hwf) as Hav. simpl.
  destruct (Z.leb_spec (zlen src) w).
  { assert (k = 0) as -> by lia. exists p. split.
    - do 2 f_equal. destruct (Z.eqb_spec (w + 0) 0); [|lia].
      rewrite (proj2 (Z.eqb_eq (zlen src) 0)) by lia. lia.
    - split; [done|]. split; [done|]. unfold zslice. rewrite ztake_le0 by lia.
      by rewrite app_nil_r. }
  rewrite (proj2 (Z.eqb_neq (reader_count p) 0)) by done.
  destruct (Z.eqb_spec (available_space p) 0) as [H0|Hne]; simpl.
  { assert (k = 0) as -> by lia. exists p. rewrite Z.add_0_r.
    rewrite (proj2 (Z.eqb_neq (zlen src) 0)) by lia.
    split; [done|]. split; [done|]. split; [done|].
    unfold zslice. rewrite ztake_le0 by lia. by rewrite app_nil_r. }
  rewrite clamp_min.
  assert (Hk : Z.min (available_space p) (zlen src - w) = k) by lia. rewrite Hk.
  assert (Hc : 0 < k ≤ PIPE_SIZE - 1 - zlen (contents p)).
  { pose proof (available_space_spec p Hwf). lia. }
  destruct (write_chunk_spec p src w k) as (Hwf' & Hse & Hcont); [done|lia|lia|done|].
  pose proof (write_chunk_space p src w k Hwf ltac:(lia) ltac:(lia) Hc) as Hsp.
  exists (write_chunk p src w k). rewrite (proj2 (Z.eqb_neq (w + k) 0)) by lia.
  split; [|done].
  destruct (Z.leb_spec (zlen src) (w + k)); [done|].
  rewrite (proj2 (Z.eqb_eq (available_space _) 0)) by lia. simpl.
  done.
Qed.

(** What a non-blocking write does to the queue. *)
Lemma pipe_write_nonblocking_spec env p src :
  pipe_wf p → reader_count p ≠ 0 → src ≠ [] →
  let k := Z.min (zlen src) (PIPE_SIZE - 1 - zlen (contents p)) in
  ∃ p', pipe_write env p src false = Done (if k =? 0 then - EAGAIN else k, p') ∧
    pipe_wf p' ∧ same_ends p p' ∧ contents p' = contents p ++ ztake k src.
Proof.
  intros Hwf Hrd Hsrc k. unfold pipe_write.
  assert (Hlen : zlen src ≠ 0) by (destruct src; [done|rewrite zlen_cons; zlia]).
  rewrite (proj2 (Z.eqb_neq _ _)) by done. rewrite (proj2 (Z.eqb_neq _ _)) by done.
  destruct (write_loop_nonblocking (pipe_write_fuel env) env p src 0)
    as (p' & Hrun & Hwf' & Hse & Hc); [unfold pipe_write_fuel; lia|done|done|zlia|].
  rewrite Z.sub_0_r, available_space_spec in Hrun, Hc by done.
  exists p'. rewrite Hrun. simpl. rewrite (proj2 (Z.eqb_neq (zlen src) 0)) by done.
  done.
Qed.

(** A run of non-blocking operations: bytes accepted, bytes delivered. *)
Inductive pipe_op := OpWrite (data : list Z) | OpRead (len : Z).

Definition pipe_op_wf (o : pipe_op) : Prop :=
  match o with OpWrite _ => True | OpRead len => 0 ≤ len end.

Fixpoint run_ops (p : pipe_t) (ops : list pipe_op) : list Z * list Z * pipe_t :=
  match ops with
  | [] => ([], [], p)
  | OpWrite data :: ops =>
      match pipe_write [] p data false with
      | Done (n, p') =>
          let '(acc, del, q) := run_ops p' ops in (ztake n data ++ acc, del, q)
      | _ => ([], [], p)
      end
  | OpRead len :: ops =>
      let '(_, bytes, p') := pipe_read p len in
      let '(acc, del, q) := run_ops p' ops in (acc, bytes ++ del, q)
  end.

Lemma run_ops_fifo p ops acc del q :
  pipe_wf p → reader_count p ≠ 0 → Forall pipe_op_wf ops →
  run_ops p ops = (acc, del, q) →
  pipe_wf q ∧ contents p ++ acc = del ++ contents q.
Proof.
  intros Hwf Hrd Hops. revert p acc del q Hwf Hrd.
  induction Hops as [|o ops Ho Hops IH]; intros p acc del q Hwf Hrd Hrun.
  { simpl in Hrun. simplify_eq. by rewrite app_nil_r. }
  destruct o as [data|len]; simpl in Hrun.
  - destruct (decide (data = [])) as [->|Hne].
    { simpl in Hrun. destruct (run_ops p ops) as [[acc' del'] q'] eqn:Hr.
      simplify_eq. eapply IH; eauto. }
    destruct (pipe_write_nonblocking_spec [] p data Hwf Hrd Hne)
      as (p' & Hw & Hwf' & [Hse _] & Hc).
    rewrite Hw in Hrun. destruct (run_ops p' ops) as [[acc' del'] q'] eqn:Hr.
    simplify_eq. destruct (IH p' acc' del q) as [Hq He]; [done|congruence|done|].
    split; [done|]. rewrite <-He, Hc, <-app_assoc. do 2 f_equal.
    case_match eqn:Hz; [|done]. apply Z.eqb_eq in Hz. rewrite Hz.
    by rewrite !ztake_le0.
  - pose proof (pipe_read_spec p len Hwf Ho) as Hr.
    destruct (pipe_read p len) as [[n bytes] p'].
    destruct Hr as (Hwf' & [Hse _] & Hnil & Hcons).
    destruct (run_ops p' ops) as [[acc' del'] q'] eqn:Hr. simplify_eq.
    destruct (IH p' acc del' q) as [Hq He]; [done|congruence|done|].
    split; [done|]. destruct (decide (contents p = [])) as [H0|Hne].
    + destruct (Hnil H0) as (_ & -> & ->). done.
    + destruct (Hcons Hne) as (_ & _ & Hsplit).
      rewrite Hsplit, <-!app_assoc. f_equal. done.
Qed.

Lemma write_loop_blocking env : ∀ fuel p src w,
  (2 * length env + 3 ≤ fuel)%nat → pipe_wf p → 0 ≤ w ≤ zlen src →
  Forall (λ e, ∀ q, pipe_wf q → pipe_wf (env_others e q)) env →
  Exists (λ e, env_pending e = true) env →
  ∃ r p', pipe_write_loop fuel env p src w true = Done (r, p') ∧ pipe_wf p' ∧
    (r = zlen src ∨ r = - EINTR ∨ reader_count p' = 0).
Proof.
  induction env as [|e env IH]; intros fuel p src w Hfuel Hwf Hw Hall Hex.
  { by apply Exists_nil in Hex. }
  apply Forall_cons in Hall as [He Hall].
  (* a pass that finds the pipe full uses the first environment step *)
  assert (Hfull : ∀ fuel p, (2 * length env + 4 ≤ fuel)%nat → pipe_wf p →
    available_space p = 0 →
    ∃ r p', pipe_write_loop fuel (e :: env) p src w true = Done (r, p') ∧
      pipe_wf p' ∧ (r = zlen src ∨ r = - EINTR ∨ reader_count p' = 0)).
  { clear fuel p Hfuel Hwf. intros [|fuel] p Hfuel Hwf H0; [lia|]. simpl.
    destruct (Z.leb_spec (zlen src) w).
    { eexists _, p. split; [done|]. split; [done|]. left. lia. }
    destruct (Z.eqb_spec (reader_count p) 0); [eauto 10|].
    rewrite H0. simpl. destruct (env_pending e) eqn:Hp; [eauto 10|].
    apply IH; [lia|by apply He|lia|done|].
    apply Exists_cons in Hex as [|]; congruence. }
  destruct fuel as [|fuel]; [simpl in Hfuel; lia|].
  destruct (decide (available_space p = 0)) as [H0|Hne].
  { apply Hfull; [simpl in Hfuel; lia|done|done]. }
  clear Hfull. simpl.
  destruct (Z.leb_spec (zlen src) w).
  { eexists _, p. split; [done|]. split; [done|]. left. lia. }
  destruct (Z.eqb_spec (reader_count p) 0); [eauto 10|].
  rewrite (proj2 (Z.eqb_neq _ 0)) by done. rewrite clamp_min.
  pose proof (available_space_nonneg p Hwf) as Hav.
  set (k := Z.min (available_space p) (zlen src - w)).
  assert (Hc : 0 < k ≤ PIPE_SIZE - 1 - zlen (contents p)).
  { pose proof (available_space_spec p Hwf). lia. }
  destruct (write_chunk_spec p src w k) as (Hwf' & Hse & _); [done|lia|lia|done|].
  pose proof (write_chunk_space p src w k Hwf ltac:(lia) ltac:(lia) Hc) as Hsp.
  destruct fuel as [|fuel]; [simpl in Hfuel; lia|]. simpl.
  destruct (Z.leb_spec (zlen src) (w + k)).
  { eexists _, _. split; [done|]. split; [done|]. left. lia. }
  rewrite (proj2 (Z.eqb_neq (reader_count p) 0)) by done.
  rewrite (proj2 (Z.eqb_eq (available_space _) 0)) by lia. simpl.
  destruct (env_pending e) eqn:Hp; [eauto 10|].
  apply IH; [simpl in Hfuel; lia|by apply He|lia|done|].
  apply Exists_cons in Hex as [|]; congruence.
Qed.

(** ** Properties *)

(** C9: pipes are FIFO.  From any well-formed pipe with a reader, a sequence of
    non-blocking writes and reads of any sizes leaves the pipe well formed, and
    the bytes delivered to readers, followed by the bytes still buffered, are
    exactly the bytes buffered at the start followed by the bytes the writes
    accepted, in order: nothing is lost, duplicated or reordered when the heads
    wrap around. *)
Theorem pipe_fifo p ops acc del q :
  pipe_wf p → reader_count p ≠ 0 → Forall pipe_op_wf ops →
  run_ops p ops = (acc, del, q) →
  pipe_wf q ∧ contents p ++ acc = del ++ contents q.
Proof. apply run_ops_fifo. Qed.

Definition wrapped_pipe : pipe_t :=
  mk_pipe 8182 8182 1 1 (zrepeat PIPE_SIZE 7).

Lemma wrapped_pipe_wf : pipe_wf wrapped_pipe.
Proof. unfold pipe_wf, wrapped_pipe, PIPE_SIZE; simpl. zlia. Qed.

Lemma pipe_fifo_witness :
  let ops := [OpWrite [1; 2; 3]; OpRead 2; OpWrite [4]; OpRead 5] in
  run_ops wrapped_pipe ops
    = ([1; 2; 3; 4], [1; 2; 3; 4], snd (run_ops wrapped_pipe ops)) ∧
  pipe_wf (snd (run_ops wrapped_pipe ops)) ∧
  contents wrapped_pipe ++ [1; 2; 3; 4]
    = [1; 2; 3; 4] ++ contents (snd (run_ops wrapped_pipe ops)).
Proof.
  intros ops. assert (He : run_ops wrapped_pipe ops
    = ([1; 2; 3; 4], [1; 2; 3; 4], snd (run_ops wrapped_pipe ops))) by (by vm_compute).
  split; [exact He|]. apply (pipe_fifo wrapped_pipe ops).
  - apply wrapped_pipe_wf.
  - discriminate.
  - repeat constructor; simpl; lia.
  - exact He.
Defined.

(** pipe_read takes from the front of the queue.  On an empty pipe it
    returns 0 when no writer is left and -EAGAIN otherwise and changes nothing;
    on a non-empty pipe it returns min(len, buffered), copies out exactly that
    many of the oldest bytes, and leaves the rest in order. *)
Theorem pipe_read_refines p len :
  pipe_wf p → 0 ≤ len →
  let '(n, bytes, p') := pipe_read p len in
  pipe_wf p' ∧ same_ends p p' ∧
  (contents p = [] →
     n = (if writer_count p =? 0 then 0 else - EAGAIN) ∧ bytes = [] ∧ p' = p) ∧
  (contents p ≠ [] →
     n = Z.min len (zlen (contents p)) ∧ zlen bytes = n ∧
     contents p = bytes ++ contents p').
Proof. apply pipe_read_spec. Qed.

Lemma pipe_read_refines_witness :
  let p := mk_pipe 8182 1 1 1 (zsplice 8182 [5; 6] (zsplice 0 [9] (zrepeat PIPE_SIZE 0))) in
  contents p = [5; 6; 9] ∧
  let '(n, bytes, p') := pipe_read p 2 in
  n = 2 ∧ bytes = [5; 6] ∧ read_head p' = 0 ∧ contents p = bytes ++ contents p'.
Proof.
  set (p := mk_pipe _ _ _ _ _). intros. split; [by vm_compute|].
  assert (Hwf : pipe_wf p) by (unfold pipe_wf; split_and!; by vm_compute).
  pose proof (pipe_read_refines p 2 Hwf ltac:(lia)) as H.
  assert (Hc : contents p ≠ []) by (by vm_compute).
  assert (He : (pipe_read p 2).1 = (2, [5; 6])) by (by vm_compute).
  assert (Hh : read_head (pipe_read p 2).2 = 0) by (by vm_compute).
  destruct (pipe_read p 2) as [[n bytes] p']. simpl in He, Hh. simplify_eq.
  destruct H as (_ & _ & _ & H). destruct (H Hc) as (_ & _ & H').
  split_and!; done.
Defined.

(** C10: a blocking pipe_write terminates.  However often the writer has to
    wait, and whatever (well-formed) pipe the other tasks leave each time, the
    loop ends before its bound once a signal becomes pending, and the result is
    the full length, -EINTR, or the pipe has lost its last reader: a blocking
    write never returns a short count while readers exist. *)
Theorem pipe_blocking_write_returns env p src :
  pipe_wf p → src ≠ [] →
  Forall (λ e, ∀ q, pipe_wf q → pipe_wf (env_others e q)) env →
  Exists (λ e, env_pending e = true) env →
  ∃ r p', pipe_write env p src true = Done (r, p') ∧ pipe_wf p' ∧
    (r = zlen src ∨ r = - EINTR ∨ reader_count p' = 0).
Proof.
  intros Hwf Hsrc Hall Hex. unfold pipe_write.
  case_match eqn:Hz; [apply Z.eqb_eq in Hz; destruct src; [done|rewrite zlen_cons in Hz; zlia]|].
  case_match eqn:Hr; [apply Z.eqb_eq in Hr; eauto 10|].
  apply write_loop_blocking; [unfold pipe_write_fuel; lia|done|zlia|done|done].
Qed.

(** A reader drains the pipe while the writer waits, then a signal arrives. *)
Lemma pipe_blocking_write_returns_witness :
  let drain := λ q, (pipe_read q 8183).2 in
  let env := [mk_env_step false drain; mk_env_step false drain; mk_env_step true drain] in
  ∃ r p', pipe_write env create_pipe (zrepeat 9000 1) true = Done (r, p') ∧
    pipe_wf p' ∧ (r = 9000 ∨ r = - EINTR ∨ reader_count p' = 0).
Proof.
  intros drain env.
  apply (pipe_blocking_write_returns env create_pipe (zrepeat 9000 1)).
  - apply pipe_wf_create.
  - by vm_compute.
  - assert (Hd : ∀ q, pipe_wf q → pipe_wf (drain q)).
    { intros q Hq. pose proof (pipe_read_spec q 8183 Hq ltac:(lia)) as H.
      unfold drain. destruct (pipe_read q 8183) as [[n b] q']. apply H. }
    unfold env. rewrite !Forall_cons. split_and!; [exact Hd..|by apply Forall_nil].
  - apply Exists_cons; right. apply Exists_cons; right. by apply Exists_cons; left.
Defined.
