(* ===== verification/Paging.v ===== *)
(** * kernel/memory/paging.c: physical pages and four-level page tables

    Physical memory is a map from 64-bit word indices (physical address / 8) to
    words; an absent word is zero.  The direct map (hhdm_base) makes every
    physical word addressable, so a C pointer [add_hhdm_to(p)] is the physical
    address [p] here.  [bitmap] is the array memory_bitmap: one uint32_t count
    per page below [usable_page_count]; an access outside the array is a
    [Fault].  The TLB instructions have no counterpart: the model is the memory
    the MMU walks. *)

From S2P Require Import Prelude.

Definition PAGE_SIZE : Z := 4096.
Definition PAGE_MASK : Z := Z.lnot (PAGE_SIZE - 1).
Definition PAGE_ALIGN (addr : Z) : Z := Z.land (u64 (addr + PAGE_SIZE - 1)) PAGE_MASK.
Definition FLAGS_MASK : Z := 0xFFF0000000000FFF.
Definition FLAGS_PRESENT : Z := 0x1.
Definition FLAGS_RW : Z := 0x2.
Definition FLAGS_USER : Z := 0x4.
Definition FLAGS_COW : Z := 0x200.
Definition FLAGS_NX : Z := 0x8000000000000000.
Definition HIGHER_LEVEL_FLAGS : Z :=
  Z.lor (Z.lor FLAGS_PRESENT FLAGS_RW) FLAGS_USER.

Record page_address_t := mk_page_address {
  pml4_index : Z;
  pdpt_index : Z;
  pd_index : Z;
  pt_index : Z;
}.

Record paging := mk_paging {
  pm : gmap Z Z;
  bitmap : gmap Z Z;
  first_usable : Z;
  usable_page_count : Z;
  zero_page : Z;
  pml4_physical : Z;
}.

Definition set_pm (m : gmap Z Z) (s : paging) : paging :=
  mk_paging m (bitmap s) (first_usable s) (usable_page_count s) (zero_page s)
    (pml4_physical s).
Definition set_bitmap (b : gmap Z Z) (s : paging) : paging :=
  mk_paging (pm s) b (first_usable s) (usable_page_count s) (zero_page s)
    (pml4_physical s).
Definition set_first_usable (f : Z) (s : paging) : paging :=
  mk_paging (pm s) (bitmap s) f (usable_page_count s) (zero_page s)
    (pml4_physical s).
Definition set_zero_page (z : Z) (s : paging) : paging :=
  mk_paging (pm s) (bitmap s) (first_usable s) (usable_page_count s) z
    (pml4_physical s).
(** The macro change_pml4: load cr3 and remember it. *)
Definition change_pml4 (p : Z) (s : paging) : paging :=
  mk_paging (pm s) (bitmap s) (first_usable s) (usable_page_count s) (zero_page s) p.

(** A 64-bit word of physical memory, and entry [i] of the table at [t]. *)
Definition word (m : gmap Z Z) (w : Z) : Z := default 0 (m !! w).
Definition entry (s : paging) (t i : Z) : Z := word (pm s) (t / 8 + i).
Definition set_entry (t i v : Z) (s : paging) : paging :=
  set_pm (<[t / 8 + i := v]> (pm s)) s.

Definition page_table_to_address (e : Z) : Z := Z.land e (Z.lnot FLAGS_MASK).

Definition get_page_entry (addr : Z) : page_address_t :=
  mk_page_address
    (Z.land (Z.shiftr addr 39) 0x1FF)
    (Z.land (Z.shiftr addr 30) 0x1FF)
    (Z.land (Z.shiftr addr 21) 0x1FF)
    (Z.land (Z.shiftr addr 12) 0x1FF).

(** The next table (or frame) behind entry [i] of the table at [t]. *)
Definition next_table (s : paging) (t i : Z) : option Z :=
  let e := entry s t i in
  if has e FLAGS_PRESENT then Some (page_table_to_address e) else None.

(** 0 stands for "not mapped", as in the C code. *)
Definition get_physical_address (s : paging) (virtual_address : Z) : Z :=
  let e := get_page_entry virtual_address in
  match next_table s (pml4_physical s) (pml4_index e) with
  | None => 0
  | Some pdpt =>
    match next_table s pdpt (pdpt_index e) with
    | None => 0
    | Some pd =>
      match next_table s pd (pd_index e) with
      | None => 0
      | Some pt =>
        match next_table s pt (pt_index e) with
        | None => 0
        | Some phys => phys
        end
      end
    end
  end.

(** ** The page counts *)

Definition get_count (page : Z) : K paging Z :=
  s ← kget; kopt (bitmap s !! page).
Definition put_count (page n : Z) : K paging unit :=
  _ ← get_count page;
  kmodify (λ s, set_bitmap (<[page := n]> (bitmap s)) s).
(** memory_bitmap[page]++ *)
Definition inc_count (page : Z) : K paging unit :=
  n ← get_count page; put_count page (u32 (n + 1)).
(** The two statements every release of a page runs. *)
Definition release_page (page : Z) : K paging unit :=
  n ← get_count page;
  (if 0 <? n then put_count page (n - 1) else mret tt);;
  n ← get_count page;
  s ← kget;
  if (n =? 0) && (page <? first_usable s)
  then kmodify (set_first_usable page) else mret tt.

(** The search of get_available_address: [n] iterations are left. *)
Fixpoint find_available (n : nat) (i : Z) : K paging Z :=
  match n with
  | O => kpanic
  | S n =>
    c ← get_count i;
    if c =? 0 then
      kmodify (set_first_usable (i + 1));; mret (i * PAGE_SIZE)
    else find_available n (i + 1)
  end.

Definition get_available_address : K paging Z :=
  s ← kget;
  find_available (Z.to_nat (usable_page_count s - first_usable s)) (first_usable s).

(** memset of whole words, and the word copy of memcpy between two pages. *)
Fixpoint fill_words (n : nat) (w v : Z) (m : gmap Z Z) : gmap Z Z :=
  match n with
  | O => m
  | S n => fill_words n (w + 1) v (<[w := v]> m)
  end.
Fixpoint copy_words (n : nat) (dst src : Z) (m : gmap Z Z) : gmap Z Z :=
  match n with
  | O => m
  | S n => copy_words n (dst + 1) (src + 1) (<[dst := word m src]> m)
  end.
#[global] Arguments fill_words : simpl never.
#[global] Arguments copy_words : simpl never.
Definition zero_page_at (p : Z) (s : paging) : paging :=
  set_pm (fill_words 512 (p / 8) 0 (pm s)) s.
Definition copy_page (dst src : Z) (s : paging) : paging :=
  set_pm (copy_words 512 (dst / 8) (src / 8) (pm s)) s.

Definition allocate_physical_page : K paging Z :=
  addr ← get_available_address;
  inc_count (addr / PAGE_SIZE);;
  kmodify (zero_page_at addr);;
  mret addr.

(** ** Mapping regions

    The three region functions share one loop and differ in the leaf. *)

(** Entry [i] of table [t], with a new table allocated when it is absent. *)
Definition ensure_table (t i : Z) : K paging Z :=
  e ← kgets (λ s, entry s t i);
  (if has e FLAGS_PRESENT then mret tt
   else
     new ← allocate_physical_page;
     (if new =? 0 then kpanic else mret tt);;
     kmodify (zero_page_at new);;
     kmodify (set_entry t i (Z.lor (Z.land new PAGE_MASK) HIGHER_LEVEL_FLAGS)));;
  e ← kgets (λ s, entry s t i);
  mret (page_table_to_address e).

(** The locals of the loop: indices, "changed" flags and cached tables. *)
Record walk_state := mk_walk {
  w_idx : page_address_t;
  pml4_changed : bool;
  pdpt_changed : bool;
  pd_changed : bool;
  w_pdpt : Z;
  w_pd : Z;
  w_pt : Z;
}.

Definition or_entry (t i f : Z) : K paging unit :=
  kmodify (λ s, set_entry t i (Z.lor (entry s t i) f) s).

(** The body up to the PT level: returns the page table of this page. *)
Definition walk_tables (w : walk_state) : K paging walk_state :=
  s ← kget;
  let pml4 := pml4_physical s in
  let idx := w_idx w in
  pdpt ← (if pml4_changed w then ensure_table pml4 (pml4_index idx) else mret (w_pdpt w));
  pd ← (if pdpt_changed w then ensure_table pdpt (pdpt_index idx) else mret (w_pd w));
  pt ← (if pd_changed w then ensure_table pd (pd_index idx) else mret (w_pt w));
  or_entry pml4 (pml4_index idx) HIGHER_LEVEL_FLAGS;;
  or_entry pdpt (pdpt_index idx) HIGHER_LEVEL_FLAGS;;
  or_entry pd (pd_index idx) HIGHER_LEVEL_FLAGS;;
  mret (mk_walk idx false false false pdpt pd pt).

(** The index increments at the end of the body (uint16_t fields). *)
Definition walk_advance (w : walk_state) : walk_state :=
  let i := w_idx w in
  let pt' := u16 (pt_index i + 1) in
  if pt' <? 512 then
    mk_walk (mk_page_address (pml4_index i) (pdpt_index i) (pd_index i) pt')
      (pml4_changed w) (pdpt_changed w) (pd_changed w) (w_pdpt w) (w_pd w) (w_pt w)
  else
  let pd' := u16 (pd_index i + 1) in
  if pd' <? 512 then
    mk_walk (mk_page_address (pml4_index i) (pdpt_index i) pd' 0)
      (pml4_changed w) (pdpt_changed w) true (w_pdpt w) (w_pd w) (w_pt w)
  else
  let pdpt' := u16 (pdpt_index i + 1) in
  if pdpt' <? 512 then
    mk_walk (mk_page_address (pml4_index i) pdpt' 0 0)
      (pml4_changed w) true true (w_pdpt w) (w_pd w) (w_pt w)
  else
    mk_walk (mk_page_address (u16 (pml4_index i + 1)) 0 0 0)
      true true true (w_pdpt w) (w_pd w) (w_pt w).

(** [leaf i pt index] fills the entry for the page at virtual address [i]. *)
Definition region_leaf : Type := Z → Z → Z → K paging unit.

Fixpoint region_loop (fuel : nat) (leaf : region_leaf) (i stop : Z)
    (w : walk_state) : K paging unit :=
  if negb (i <? stop) then mret tt
  else match fuel with
  | O => kfuel
  | S fuel =>
    w ← walk_tables w;
    leaf i (w_pt w) (pt_index (w_idx w));;
    region_loop fuel leaf (u64 (i + PAGE_SIZE)) stop (walk_advance w)
  end.

Definition region_fuel (vaddr stop : Z) : nat :=
  Z.to_nat ((stop - vaddr) / PAGE_SIZE + 1).

Definition map_region (leaf : region_leaf) (vaddr size : Z) : K paging Z :=
  let stop := PAGE_ALIGN (u64 (vaddr + size)) in
  region_loop (region_fuel vaddr stop) leaf vaddr stop
    (mk_walk (get_page_entry vaddr) true true true 0 0 0);;
  mret vaddr.

Definition check_unmapped (pt i : Z) : K paging unit :=
  e ← kgets (λ s, entry s pt i);
  if has e FLAGS_PRESENT then kpanic else mret tt.

Definition alloc_leaf (flags : Z) : region_leaf := λ _ pt i,
  check_unmapped pt i;;
  phys ← get_available_address;
  kmodify (set_entry pt i
    (Z.lor (Z.lor (Z.land phys PAGE_MASK) flags) FLAGS_PRESENT));;
  inc_count (phys / PAGE_SIZE).

Definition alloc_region (vaddr size flags : Z) : K paging Z :=
  map_region (alloc_leaf flags) vaddr size.

Definition mmio_leaf (vaddr paddr flags : Z) : region_leaf := λ va pt i,
  check_unmapped pt i;;
  let phys := u64 (paddr + u64 (va - vaddr)) in
  kmodify (set_entry pt i
    (Z.lor (Z.lor (Z.land phys PAGE_MASK) flags) FLAGS_PRESENT));;
  inc_count (phys / PAGE_SIZE).

Definition alloc_mmio_region (vaddr paddr size flags : Z) : K paging Z :=
  map_region (mmio_leaf vaddr paddr flags) vaddr size.

Definition zero_leaf (flags : Z) : region_leaf := λ _ pt i,
  check_unmapped pt i;;
  zp ← kgets zero_page;
  kmodify (set_entry pt i
    (Z.lor (Z.lor (Z.lor (Z.land zp PAGE_MASK) (Z.land flags (Z.lnot FLAGS_RW)))
       FLAGS_PRESENT)
       (if has flags FLAGS_RW then FLAGS_COW else 0)));;
  inc_count (zp / PAGE_SIZE).

Definition alloc_zero_region (vaddr size flags : Z) : K paging Z :=
  map_region (zero_leaf flags) vaddr size.

(** ** Freeing *)

Definition indices : list Z := seqZ 0 512.
Definition table_empty (s : paging) (t : Z) : bool :=
  forallb (λ i, negb (has (entry s t i) FLAGS_PRESENT)) indices.

(** Drop the table behind entry [i] of [parent] when the table [t] is empty. *)
Definition free_table_if_empty (t parent i : Z) : K paging unit :=
  empty ← kgets (λ s, table_empty s t);
  if (empty : bool) then
    e ← kgets (λ s, entry s parent i);
    release_page (page_table_to_address e / PAGE_SIZE);;
    kmodify (set_entry parent i 0)
  else mret tt.

Definition free_page (page : Z) : K paging Z :=
  if page =? 0 then mret (-1) else
  let e := get_page_entry page in
  s ← kget;
  let pml4 := pml4_physical s in
  match next_table s pml4 (pml4_index e) with
  | None => mret (-1)
  | Some pdpt =>
    match next_table s pdpt (pdpt_index e) with
    | None => mret (-1)
    | Some pd =>
      match next_table s pd (pd_index e) with
      | None => mret (-1)
      | Some pt =>
        match next_table s pt (pt_index e) with
        | None => mret (-1)
        | Some phys =>
          kmodify (set_entry pt (pt_index e) 0);;
          release_page (phys / PAGE_SIZE);;
          free_table_if_empty pt pd (pd_index e);;
          free_table_if_empty pd pdpt (pdpt_index e);;
          free_table_if_empty pdpt pml4 (pml4_index e);;
          mret 0
        end
      end
    end
  end.

Fixpoint free_region_loop (fuel : nat) (i stop : Z) : K paging unit :=
  if negb (i <? stop) then mret tt
  else match fuel with
  | O => kfuel
  | S fuel => free_page i;; free_region_loop fuel (u64 (i + PAGE_SIZE)) stop
  end.

Definition free_region (vaddr size : Z) : K paging unit :=
  let stop := PAGE_ALIGN (u64 (vaddr + size)) in
  free_region_loop (region_fuel vaddr stop) vaddr stop.

(** ** Address spaces: clone and free *)

(** The leaf entry of a clone: both sides lose RW and gain COW. *)
Definition clone_pte (pt new_pt l : Z) : K paging unit :=
  e ← kgets (λ s, entry s pt l);
  if has e FLAGS_PRESENT then
    let phys := page_table_to_address e in
    (if has e FLAGS_RW then
       kmodify (set_entry pt l (Z.lor (Z.land e (Z.lnot FLAGS_RW)) FLAGS_COW))
     else mret tt);;
    inc_count (phys / PAGE_SIZE);;
    e ← kgets (λ s, entry s pt l);
    kmodify (set_entry new_pt l (Z.lor phys (Z.land e FLAGS_MASK)))
  else mret tt.

(** One level of the clone: copy the subtree behind entry [i]. *)
Definition clone_level (sub : Z → Z → K paging unit) (t new_t i : Z) : K paging unit :=
  e ← kgets (λ s, entry s t i);
  if has e FLAGS_PRESENT then
    new_sub ← allocate_physical_page;
    sub (page_table_to_address e) new_sub;;
    kmodify (set_entry new_t i
      (Z.lor (Z.land new_sub PAGE_MASK) (Z.land e HIGHER_LEVEL_FLAGS)))
  else mret tt.

Definition clone_pt (pt new_pt : Z) : K paging unit :=
  kfor indices (clone_pte pt new_pt).
Definition clone_pd (pd new_pd : Z) : K paging unit :=
  kfor indices (clone_level clone_pt pd new_pd).
Definition clone_pdpt (pdpt new_pdpt : Z) : K paging unit :=
  kfor indices (clone_level clone_pd pdpt new_pdpt).

Definition clone_page_tables (pml4_addr : Z) : K paging Z :=
  new_pml4 ← allocate_physical_page;
  kfor indices (λ i,
    if 256 <=? i then
      pml4e ← kgets (λ s, entry s pml4_addr i);
      kmodify (set_entry new_pml4 i pml4e)
    else clone_level clone_pdpt pml4_addr new_pml4 i);;
  mret new_pml4.

Definition free_level (sub : Z → K paging unit) (t i : Z) : K paging unit :=
  e ← kgets (λ s, entry s t i);
  if has e FLAGS_PRESENT then
    sub (page_table_to_address e);;
    release_page (page_table_to_address e / PAGE_SIZE)
  else mret tt.

Definition free_pt (pt : Z) : K paging unit :=
  kfor indices (free_level (λ _, mret tt) pt).
Definition free_pd (pd : Z) : K paging unit :=
  kfor indices (free_level free_pt pd).
Definition free_pdpt (pdpt : Z) : K paging unit :=
  kfor indices (free_level free_pd pdpt).

Definition free_page_tables (pml4_addr : Z) : K paging unit :=
  kfor (seqZ 0 256) (free_level free_pdpt pml4_addr);;
  release_page (pml4_addr / PAGE_SIZE).

(** ** Copy on write *)

Definition cow_handler (faulting_address : Z) : K paging Z :=
  let e := get_page_entry faulting_address in
  s ← kget;
  match next_table s (pml4_physical s) (pml4_index e) with
  | None => mret 0
  | Some pdpt =>
    match next_table s pdpt (pdpt_index e) with
    | None => mret 0
    | Some pd =>
      match next_table s pd (pd_index e) with
      | None => mret 0
      | Some pt =>
        let pte := entry s pt (pt_index e) in
        if negb (has pte FLAGS_PRESENT) then mret 0 else
        let phys := page_table_to_address pte in
        if has pte FLAGS_COW then
          n ← get_count (phys / PAGE_SIZE);
          (if 1 <? n then
             new_phys ← get_available_address;
             n ← get_count (phys / PAGE_SIZE);
             put_count (phys / PAGE_SIZE) (u32 (n - 1));;
             put_count (new_phys / PAGE_SIZE) 1;;
             kmodify (copy_page new_phys phys);;
             e1 ← kgets (λ s, entry s pt (pt_index e));
             kmodify (set_entry pt (pt_index e)
               (Z.lor (Z.lor (Z.land new_phys PAGE_MASK)
                  (Z.land (Z.land e1 (Z.lnot FLAGS_COW)) FLAGS_MASK)) FLAGS_RW))
           else
             kmodify (λ s, set_entry pt (pt_index e)
               (Z.land (entry s pt (pt_index e)) (Z.lnot FLAGS_COW)) s);;
             or_entry pt (pt_index e) FLAGS_RW);;
          mret 1
        else mret 0
      end
    end
  end.

(** ** Validating user memory *)

Definition USER_TOP : Z := 0x00007FFFFFFFFFFF.

(** An entry that is present and open to user mode. *)
Definition user_table (s : paging) (t i : Z) : option Z :=
  let e := entry s t i in
  if negb (has e FLAGS_PRESENT) || negb (has e FLAGS_USER) then None
  else Some (page_table_to_address e).

(** The body of the page loop. *)
Definition validate_page (addr : Z) (write : bool) : K paging Z :=
  let e := get_page_entry addr in
  s ← kget;
  match user_table s (pml4_physical s) (pml4_index e) with
  | None => mret (- EFAULT)
  | Some pdpt =>
    match user_table s pdpt (pdpt_index e) with
    | None => mret (- EFAULT)
    | Some pd =>
      match user_table s pd (pd_index e) with
      | None => mret (- EFAULT)
      | Some pt =>
        match user_table s pt (pt_index e) with
        | None => mret (- EFAULT)
        | Some _ =>
          let pte := entry s pt (pt_index e) in
          if write && negb (has pte FLAGS_RW) then
            if has pte FLAGS_COW then
              r ← cow_handler addr;
              mret (if r =? 0 then - EFAULT else 0)
            else mret (- EFAULT)
          else mret 0
        end
      end
    end
  end.

Fixpoint validate_pages (fuel : nat) (addr stop : Z) (write : bool) : K paging Z :=
  if negb (addr <? stop) then mret 0
  else match fuel with
  | O => kfuel
  | S fuel =>
    r ← validate_page addr write;
    if r <? 0 then mret r
    else validate_pages fuel (u64 (addr + PAGE_SIZE)) stop write
  end.

Definition validate_user_pointer (ptr len : Z) (write : bool) : K paging Z :=
  if len =? 0 then mret 0
  else if ptr =? 0 then mret (- EFAULT)
  else if USER_TOP <? ptr then mret (- EFAULT)
  else if USER_TOP - ptr <? u64 (len - 1) then mret (- EFAULT)
  else validate_pages (Z.to_nat (len / PAGE_SIZE + 1)) ptr (u64 (ptr + len)) write.

(** A byte at a virtual address, as the MMU reads it: a fault when the page is
    not mapped. *)
Definition translate (s : paging) (va : Z) : option Z :=
  let e := get_page_entry va in
  pdpt ← next_table s (pml4_physical s) (pml4_index e);
  pd ← next_table s pdpt (pdpt_index e);
  pt ← next_table s pd (pd_index e);
  next_table s pt (pt_index e).

Definition byte_at (s : paging) (va : Z) : option Z :=
  frame ← translate s va;
  let pa := frame + Z.land va (PAGE_SIZE - 1) in
  Some (Z.land (Z.shiftr (word (pm s) (pa / 8)) (8 * (pa mod 8))) 0xFF).

Definition load_byte (va : Z) : K paging Z :=
  s ← kget; kopt (byte_at s va).

(** The inner scan for the terminator: true when one of [n] bytes is zero. *)
Fixpoint scan_nul (n : nat) (va : Z) : K paging bool :=
  match n with
  | O => mret false
  | S n =>
    c ← load_byte va;
    if c =? 0 then mret true else scan_nul n (u64 (va + 1))
  end.

Fixpoint validate_string_loop (fuel : nat) (str i max_len : Z) : K paging Z :=
  if negb (i <? max_len) then mret (- ENAMETOOLONG)
  else match fuel with
  | O => kfuel
  | S fuel =>
    let page_remaining := PAGE_SIZE - Z.land (u64 (str + i)) (PAGE_SIZE - 1) in
    let n := if max_len - i <? page_remaining then max_len - i else page_remaining in
    res ← validate_user_pointer (u64 (str + i)) n false;
    if res <? 0 then mret res
    else
      found ← scan_nul (Z.to_nat n) (u64 (str + i));
      if (found : bool) then mret 0
      else validate_string_loop fuel str (u64 (i + n)) max_len
  end.

Definition validate_user_string (str max_len : Z) : K paging Z :=
  if str =? 0 then mret (- EFAULT)
  else validate_string_loop (Z.to_nat (max_len / PAGE_SIZE + 2)) str 0 max_len.

(** ** Boot: init_paging *)

Definition LIMINE_MEMMAP_USABLE : Z := 0.
Record memmap_entry := mk_memmap_entry {
  me_base : Z;
  me_length : Z;
  me_type : Z;
}.

Definition usable_entry (e : memmap_entry) : bool := me_type e =? LIMINE_MEMMAP_USABLE.

Definition highest_usable (memmap : list memmap_entry) : Z :=
  foldl (λ highest e,
    if usable_entry e then
      let stop := u64 (me_base e + me_length e) in
      if highest <? stop then stop else highest
    else highest) 0 memmap.

Definition find_bitmap (memmap : list memmap_entry) (size : Z) : Z :=
  match list_find (λ e, Is_true (usable_entry e && (size <=? me_length e))) memmap with
  | Some (_, e) => me_base e
  | None => 0
  end.

(** memory_bitmap[j] = v for j in [start, start + n). *)
Fixpoint mark_pages (n : nat) (start v : Z) : K paging unit :=
  match n with
  | O => mret tt
  | S n => put_count start v;; mark_pages n (start + 1) v
  end.

Fixpoint mark_usable (memmap : list memmap_entry) : K paging unit :=
  match memmap with
  | [] => mret tt
  | e :: memmap =>
    (if usable_entry e then
       let start := me_base e / PAGE_SIZE in
       let stop := u64 (me_base e + me_length e) / PAGE_SIZE in
       mark_pages (Z.to_nat (stop - start)) start 0
     else mret tt);;
    mark_usable memmap
  end.

Fixpoint mark_bitmap_pages (fuel : nat) (addr stop : Z) : K paging unit :=
  if negb (addr <? stop) then mret tt
  else match fuel with
  | O => kfuel
  | S fuel =>
    put_count (addr / PAGE_SIZE) 1;;
    mark_bitmap_pages fuel (u64 (addr + PAGE_SIZE)) stop
  end.

(** The array of counts, all 1 ("used"). *)
Definition all_used (n : Z) : gmap Z Z :=
  list_to_map ((λ i, (i, 1)) <$> seqZ 0 n).

Definition init_paging (cr3 : Z) (memmap : list memmap_entry) : K paging unit :=
  (if cr3 =? 0 then kpanic else mret tt);;
  let pages := highest_usable memmap / PAGE_SIZE in
  let memory_bitmap_size := u64 (pages * 4) in
  let bitmap_phys := find_bitmap memmap memory_bitmap_size in
  (if bitmap_phys =? 0 then kpanic else mret tt);;
  kmodify (λ s, mk_paging (pm s) (all_used pages) (first_usable s) pages
                  (zero_page s) cr3);;
  mark_usable memmap;;
  mark_bitmap_pages (Z.to_nat (memory_bitmap_size / PAGE_SIZE + 1))
    bitmap_phys (u64 (bitmap_phys + memory_bitmap_size));;
  zp ← get_available_address;
  kmodify (set_zero_page zp);;
  kmodify (zero_page_at zp);;
  put_count (zp / PAGE_SIZE) 1.
