(* ===== verification/PagingAlloc.v ===== *)
(** * The physical page allocator: first fit over the page counts

    [alloc_inv] is the invariant of memory_bitmap and first_usable: the array
    covers exactly the usable pages and no page below [first_usable] is free.
    Every operation of the component keeps it (first_usable only ever skips
    pages in use), so the search finds the lowest free page and panics only
    when there is none. *)

From S2P Require Import Prelude Paging.

Definition used (s : paging) (page : Z) : Prop :=
  ∃ n, bitmap s !! page = Some n ∧ 0 < n.
Definition free (s : paging) (page : Z) : Prop := bitmap s !! page = Some 0.

Record counts_wf (s : paging) : Prop := {
  cw_dom : ∀ i, is_Some (bitmap s !! i) ↔ 0 ≤ i < usable_page_count s;
  cw_range : ∀ i n, bitmap s !! i = Some n → 0 ≤ n < 2 ^ 32;
  cw_count : 0 ≤ usable_page_count s ≤ 2 ^ 40;
  cw_first : 0 ≤ first_usable s ≤ usable_page_count s;
}.

(** [alloc_inv_but f]: the page [f], just handed out, may still be free. *)
Definition alloc_inv_but (s : paging) (hole : Z → Prop) : Prop :=
  counts_wf s ∧ ∀ i, 0 ≤ i < first_usable s → ¬ hole i → used s i.
Definition alloc_inv (s : paging) : Prop := alloc_inv_but s (λ _, False).

Lemma page_div p : p * PAGE_SIZE / PAGE_SIZE = p.
Proof. unfold PAGE_SIZE. apply Z.div_mul. lia. Qed.

(** ** The count primitives *)

Lemma get_count_Done page s n s' :
  get_count page s = Done (n, s') ↔ s' = s ∧ bitmap s !! page = Some n.
Proof.
  unfold get_count, kget, mbind, K_bind, kopt, mret, K_ret, kfault.
  destruct (bitmap s !! page); naive_solver.
Qed.

Lemma put_count_Done page n s u s' :
  put_count page n s = Done (u, s') ↔
  u = tt ∧ is_Some (bitmap s !! page) ∧ s' = set_bitmap (<[page := n]> (bitmap s)) s.
Proof.
  unfold put_count, get_count, kget, kopt, mbind, K_bind, mret, K_ret, kmodify, kfault.
  destruct u, (bitmap s !! page); naive_solver.
Qed.

Lemma inc_count_Done page s u s' :
  inc_count page s = Done (u, s') ↔
  ∃ n, bitmap s !! page = Some n ∧
       s' = set_bitmap (<[page := u32 (n + 1)]> (bitmap s)) s.
Proof.
  unfold inc_count. rewrite K_bind_Done. setoid_rewrite get_count_Done.
  setoid_rewrite put_count_Done. destruct u. naive_solver.
Qed.

(** Changing one count keeps the shape of the array. *)
Lemma counts_wf_put s page n :
  counts_wf s → is_Some (bitmap s !! page) → 0 ≤ n < 2 ^ 32 →
  counts_wf (set_bitmap (<[page := n]> (bitmap s)) s).
Proof.
  intros [Hd Hr Hc Hf] Hp Hn. split; simpl; try done.
  - intros i. rewrite <-Hd. destruct (decide (page = i)) as [->|].
    + rewrite lookup_insert_eq. naive_solver.
    + by rewrite lookup_insert_ne.
  - intros i m. rewrite lookup_insert_Some. naive_solver.
Qed.

Lemma counts_wf_first s f :
  counts_wf s → 0 ≤ f ≤ usable_page_count s → counts_wf (set_first_usable f s).
Proof. intros [Hd Hr Hc Hf] ?. by split. Qed.

Lemma counts_wf_pm s m : counts_wf s → counts_wf (set_pm m s).
Proof. intros [Hd Hr Hc Hf]. by split. Qed.

Lemma alloc_inv_pm s m h : alloc_inv_but s h → alloc_inv_but (set_pm m s) h.
Proof. intros [? ?]. split; [by apply counts_wf_pm|done]. Qed.

Lemma used_put_pos s page n i :
  0 < n → used s i → used (set_bitmap (<[page := n]> (bitmap s)) s) i.
Proof.
  intros Hn (m & Hm & ?). unfold used; simpl.
  destruct (decide (page = i)) as [->|].
  - rewrite lookup_insert_eq. eauto.
  - rewrite lookup_insert_ne by done. eauto.
Qed.

(** Counting a page up fills the hole, unless the 32-bit count wraps. *)
Lemma alloc_inv_inc s page u s' :
  alloc_inv_but s (eq page) → inc_count page s = Done (u, s') →
  (∀ n, bitmap s !! page = Some n → n < 2 ^ 32 - 1) → alloc_inv s'.
Proof.
  intros [Hwf Hinv] Hinc Hbound. apply inc_count_Done in Hinc as (n & Hn & ->).
  pose proof (cw_range _ Hwf _ _ Hn) as Hr. specialize (Hbound _ Hn).
  rewrite u32_id by lia. split.
  - apply counts_wf_put; [done|by rewrite Hn|lia].
  - simpl. intros i Hi _. unfold used; simpl. destruct (decide (page = i)) as [->|].
    + rewrite lookup_insert_eq. eexists. split; [done|]. lia.
    + rewrite lookup_insert_ne by done. by apply Hinv.
Qed.

Lemma alloc_inv_weaken s (h h' : Z → Prop) :
  (∀ i, h i → h' i) → alloc_inv_but s h → alloc_inv_but s h'.
Proof. intros Hh [? Hinv]. split; [done|]. naive_solver. Qed.

(** ** The search *)

Lemma find_available_Done n i s a s' :
  find_available n i s = Done (a, s') →
  ∃ p, i ≤ p < i + Z.of_nat n ∧ a = p * PAGE_SIZE ∧
       s' = set_first_usable (p + 1) s ∧ free s p ∧
       (∀ j, i ≤ j < p → ∃ c, bitmap s !! j = Some c ∧ c ≠ 0).
Proof.
  revert i. induction n as [|n IH]; intros i H; [discriminate H|].
  cbn [find_available] in H. apply K_bind_Done in H as (c & s1 & Hc & H).
  apply get_count_Done in Hc as [-> Hc].
  destruct (Z.eqb_spec c 0) as [->|Hne].
  - unfold kmodify, mret, K_ret, mbind, K_bind in H. simplify_eq.
    exists i. split_and!; try done; try lia; intros; lia.
  - apply IH in H as (p & ? & ? & ? & ? & Hj).
    exists p. split_and!; try done; try lia.
    intros j Hji. destruct (decide (j = i)) as [->|]; [eauto|]. apply Hj. lia.
Qed.

Lemma find_available_total n i s :
  (∀ j, i ≤ j < i + Z.of_nat n → is_Some (bitmap s !! j)) →
  (∃ a s', find_available n i s = Done (a, s')) ∨
  (find_available n i s = Panic ∧
   ∀ j, i ≤ j < i + Z.of_nat n → ¬ free s j).
Proof.
  revert i. induction n as [|n IH]; intros i H.
  { right. split; [done|]. intros; lia. }
  simpl. destruct (H i) as [c Hc]; [lia|].
  unfold mbind, K_bind. rewrite (proj2 (get_count_Done i s c s)) by done.
  destruct (Z.eqb_spec c 0) as [->|Hne].
  { left. unfold kmodify, mret, K_ret. eauto. }
  destruct (IH (i + 1)) as [?|[HP Hj]]; [intros; apply H; lia|by left|].
  right. split; [done|]. intros j Hji Hf.
  destruct (decide (j = i)) as [->|]; [unfold free in Hf; congruence|].
  apply (Hj j); [lia|done].
Qed.

Lemma get_available_Done s a s' :
  alloc_inv s → get_available_address s = Done (a, s') →
  ∃ p, a = p * PAGE_SIZE ∧ 0 ≤ p < usable_page_count s ∧
       s' = set_first_usable (p + 1) s ∧ free s p ∧
       (∀ j, 0 ≤ j < p → used s j).
Proof.
  intros [Hwf Hinv] H. unfold get_available_address, kget, mbind, K_bind in H.
  apply find_available_Done in H as (p & Hp & -> & -> & Hf & Hj).
  pose proof (cw_first _ Hwf) as Hfu.
  exists p. split_and!; try done; [lia|lia|].
  intros j Hjp. destruct (decide (j < first_usable s)); [apply Hinv; [lia|tauto]|].
  destruct (Hj j) as (c & Hc & Hne); [lia|]. exists c. split; [done|].
  pose proof (cw_range _ Hwf _ _ Hc). lia.
Qed.

Lemma get_available_hole s a s' :
  alloc_inv s → get_available_address s = Done (a, s') →
  alloc_inv_but s' (eq (a / PAGE_SIZE)).
Proof.
  intros Hinv H. destruct (get_available_Done s a s' Hinv H) as (p & -> & Hp & -> & Hf & Hj).
  destruct Hinv as [Hwf _]. rewrite page_div.
  split; [apply counts_wf_first; [done|lia]|].
  simpl. intros i Hi Hne. apply Hj. lia.
Qed.

(** ** Every operation keeps the invariant *)

Notation keeps_inv := (keeps alloc_inv).

Lemma keeps_set_entry t i v : keeps_inv (kmodify (set_entry t i v)).
Proof. apply keeps_modify. intros s Hs. by apply alloc_inv_pm. Qed.
Lemma keeps_or_entry t i f : keeps_inv (or_entry t i f).
Proof. apply keeps_modify. intros s Hs. by apply alloc_inv_pm. Qed.
Lemma keeps_zero_page p : keeps_inv (kmodify (zero_page_at p)).
Proof. apply keeps_modify. intros s Hs. by apply alloc_inv_pm. Qed.
Lemma keeps_get_count p : keeps_inv (get_count p).
Proof. intros s a s' Hs H. apply get_count_Done in H. naive_solver. Qed.
#[export] Hint Resolve keeps_set_entry keeps_or_entry keeps_zero_page keeps_get_count : keeps.

(** A page taken by the search and then counted, with a memory write between. *)
Lemma keeps_take (f : Z → gmap Z Z → gmap Z Z) {A} (k : Z → K paging A) :
  (∀ a, keeps_inv (k a)) →
  keeps_inv (phys ← get_available_address;
             kmodify (λ s, set_pm (f phys (pm s)) s);;
             inc_count (phys / PAGE_SIZE);; k phys).
Proof.
  intros Hk s r s' Hs H. apply K_bind_Done in H as (a & s1 & Ha & H).
  pose proof (get_available_hole _ _ _ Hs Ha) as Hhole.
  apply (get_available_Done s a s1 Hs) in Ha as (p & -> & Hp & -> & Hf & _).
  inv_done. eapply Hk; [|eassumption].
  eapply (alloc_inv_inc _ (p * PAGE_SIZE / PAGE_SIZE)); [by apply alloc_inv_pm|eassumption|].
  simpl. intros n Hn. rewrite page_div in Hn.
  unfold free in Hf. simplify_eq. lia.
Qed.

Lemma keeps_take_page {A} (k : Z → K paging A) :
  (∀ a, keeps_inv (k a)) →
  keeps_inv (phys ← get_available_address; inc_count (phys / PAGE_SIZE);; k phys).
Proof.
  intros Hk s r s' Hs H. eapply (keeps_take (λ _ m, m) k Hk s r s' Hs).
  rewrite K_bind_Done in H |- *. destruct H as (a & s1 & Ha & H).
  exists a, s1. split; [done|]. rewrite K_bind_Done. exists tt, s1.
  split; [by destruct s1|done].
Qed.

Lemma keeps_allocate_physical_page : keeps_inv allocate_physical_page.
Proof. apply keeps_take_page. intros a. keeps_tac. Qed.
#[export] Hint Resolve keeps_allocate_physical_page : keeps.

Lemma keeps_release_page p : keeps_inv (release_page p).
Proof.
  intros s u s' [Hwf Hinv] H. unfold release_page in H.
  apply K_bind_Done in H as (n & s1 & Hn & H). apply get_count_Done in Hn as [-> Hn].
  pose proof (cw_range _ Hwf _ _ Hn) as Hr.
  (* after the decrement the only possible hole below first_usable is [p] *)
  assert (Hdec : ∀ u s1, (if 0 <? n then put_count p (n - 1) else mret tt) s = Done (u, s1) →
    alloc_inv_but s1 (eq p) ∧ first_usable s1 = first_usable s ∧
    usable_page_count s1 = usable_page_count s).
  { clear H u s'. intros u s1 H. destruct (Z.ltb_spec 0 n).
    - apply put_count_Done in H as (_ & Hp & ->). split_and!; try done.
      split; [apply counts_wf_put; [done|done|lia]|]. simpl. intros i Hi Hne.
      destruct (Hinv i Hi ltac:(tauto)) as (m & Hm & ?). exists m. simpl.
      by rewrite lookup_insert_ne.
    - unfold mret, K_ret in H. simplify_eq. split_and!; try done.
      apply (alloc_inv_weaken _ (λ _, False)); [done|by split]. }
  apply K_bind_Done in H as (u1 & s1 & H1 & H). apply Hdec in H1 as ([Hwf1 Hinv1] & Hf1 & Hc1).
  apply K_bind_Done in H as (m & s2 & Hm & H). apply get_count_Done in Hm as [-> Hm].
  apply K_bind_Done in H as (s3 & s4 & Hg & H). unfold kget in Hg. simplify_eq.
  pose proof (cw_range _ Hwf1 _ _ Hm) as Hr1.
  assert (Hp : 0 ≤ p < usable_page_count s4) by (apply (cw_dom _ Hwf1); by rewrite Hm).
  destruct (Z.eqb_spec m 0) as [->|Hne]; simpl in H.
  - destruct (Z.ltb_spec p (first_usable s4)).
    + unfold kmodify in H. simplify_eq. split; [apply counts_wf_first; [done|lia]|].
      simpl. intros i Hi _. apply Hinv1; lia.
    + unfold mret, K_ret in H. simplify_eq. split; [done|].
      intros i Hi _. apply Hinv1; lia.
  - unfold mret, K_ret in H. simplify_eq. split; [done|]. intros i Hi _.
    destruct (decide (i = p)) as [->|]; [exists m; split; [done|lia]|].
    apply Hinv1; congruence || lia.
Qed.
#[export] Hint Resolve keeps_release_page : keeps.

Lemma keeps_ensure_table t i : keeps_inv (ensure_table t i).
Proof. unfold ensure_table. keeps_tac. Qed.
#[export] Hint Resolve keeps_ensure_table : keeps.

Lemma keeps_walk_tables w : keeps_inv (walk_tables w).
Proof. unfold walk_tables. keeps_tac. Qed.
#[export] Hint Resolve keeps_walk_tables : keeps.

Lemma keeps_alloc_leaf flags i pt j : keeps_inv (alloc_leaf flags i pt j).
Proof.
  unfold alloc_leaf. apply keeps_bind; [unfold check_unmapped; keeps_tac|intros _].
  intros s r s' Hs H.
  pose proof (keeps_take (λ phys m, <[pt / 8 + j := Z.lor (Z.lor (Z.land phys PAGE_MASK) flags)
                                   FLAGS_PRESENT]> m) (λ _, mret tt)) as Hk.
  eapply Hk; [intros; apply keeps_ret|exact Hs|]. clear Hk.
  rewrite K_bind_Done in H |- *. destruct H as (a & s1 & Ha & H). exists a, s1.
  split; [done|]. rewrite K_bind_Done in H |- *. destruct H as (u & s2 & Hu & H).
  exists u, s2. split; [done|]. rewrite K_bind_Done. exists r, s'.
  split; [done|]. by destruct r.
Qed.
#[export] Hint Resolve keeps_alloc_leaf : keeps.

Lemma keeps_region_loop fuel leaf i stop w :
  (∀ i pt j, keeps_inv (leaf i pt j)) → keeps_inv (region_loop fuel leaf i stop w).
Proof.
  intros Hl. revert i w. induction fuel as [|fuel IH]; intros i w; simpl;
    destruct (negb (i <? stop)); try apply keeps_ret; [apply keeps_fail|].
  apply keeps_bind; [apply keeps_walk_tables|intros w'].
  apply keeps_bind; [apply Hl|intros _; apply IH].
Qed.

Lemma keeps_alloc_region va size flags : keeps_inv (alloc_region va size flags).
Proof.
  unfold alloc_region, map_region. apply keeps_bind; [|intros; keeps_tac].
  apply keeps_region_loop. apply keeps_alloc_leaf.
Qed.

Lemma keeps_free_table t parent i : keeps_inv (free_table_if_empty t parent i).
Proof. unfold free_table_if_empty. keeps_tac. Qed.
#[export] Hint Resolve keeps_free_table : keeps.

Lemma keeps_free_page va : keeps_inv (free_page va).
Proof. unfold free_page. keeps_tac. Qed.
#[export] Hint Resolve keeps_free_page : keeps.

Lemma keeps_free_region_loop fuel i stop : keeps_inv (free_region_loop fuel i stop).
Proof.
  revert i. induction fuel as [|fuel IH]; intros i; simpl; case_match;
    try apply keeps_ret; [apply keeps_fail|].
  apply keeps_bind; [apply keeps_free_page|intros _; apply IH].
Qed.

Lemma keeps_free_region va size : keeps_inv (free_region va size).
Proof. apply keeps_free_region_loop. Qed.

Lemma keeps_free_level sub t i :
  (∀ t, keeps_inv (sub t)) → keeps_inv (free_level sub t i).
Proof. intros Hs. unfold free_level. keeps_tac. Qed.

Lemma keeps_free_page_tables p : keeps_inv (free_page_tables p).
Proof.
  unfold free_page_tables. apply keeps_bind; [|intros _; apply keeps_release_page].
  apply keeps_for. intros i. apply keeps_free_level. intros t1.
  apply keeps_for. intros j. apply keeps_free_level. intros t2.
  apply keeps_for. intros k. apply keeps_free_level. intros t3.
  apply keeps_for. intros l. apply keeps_free_level. intros t4. apply keeps_ret.
Qed.

(** ** Copy on write and validation *)

Lemma keeps_cow_copy phys pt i :
  keeps_inv (
    n ← get_count (phys / PAGE_SIZE);
    if 1 <? n then
      new_phys ← get_available_address;
      n ← get_count (phys / PAGE_SIZE);
      put_count (phys / PAGE_SIZE) (u32 (n - 1));;
      put_count (new_phys / PAGE_SIZE) 1;;
      kmodify (copy_page new_phys phys);;
      e1 ← kgets (λ s, entry s pt i);
      kmodify (set_entry pt i
        (Z.lor (Z.lor (Z.land new_phys PAGE_MASK)
           (Z.land (Z.land e1 (Z.lnot FLAGS_COW)) FLAGS_MASK)) FLAGS_RW))
    else mret tt).
Proof.
  intros s r s' Hs H. apply K_bind_Done in H as (n & s0 & Hn & H).
  apply get_count_Done in Hn as [-> Hn].
  destruct (Z.ltb_spec 1 n); [|unfold mret, K_ret in H; by simplify_eq].
  apply K_bind_Done in H as (a & s1 & Ha & H).
  pose proof (get_available_hole _ _ _ Hs Ha) as [Hwf1 Hinv1].
  pose proof (get_available_Done s a s1 Hs Ha) as (p & -> & Hp & -> & Hf & _).
  rewrite page_div in Hinv1.
  apply K_bind_Done in H as (n' & s2 & Hn' & H). apply get_count_Done in Hn' as [-> Hn'].
  simpl in Hn'. simplify_eq. pose proof (cw_range _ Hwf1 _ _ Hn) as Hr.
  apply K_bind_Done in H as (u1 & s2 & H1 & H). apply put_count_Done in H1 as (_ & _ & ->).
  apply K_bind_Done in H as (u2 & s3 & H2 & H). apply put_count_Done in H2 as (_ & Hp2 & ->).
  rewrite u32_id in Hp2, H by lia.
  inv_done. unfold kmodify in *. simplify_eq. apply alloc_inv_pm, alloc_inv_pm.
  rewrite page_div in Hp2 |- *.
  assert (Hwf2 : counts_wf (set_bitmap (<[phys / PAGE_SIZE := n - 1]> (bitmap s))
                              (set_first_usable (p + 1) s))).
  { apply (counts_wf_put (set_first_usable (p + 1) s)); [done|by exists n|lia]. }
  split.
  - apply (counts_wf_put _ _ 1 Hwf2 Hp2). lia.
  - simpl. intros i0 Hi _. unfold used; simpl.
    destruct (decide (p = i0)) as [->|]; [rewrite lookup_insert_eq; eexists; split; [done|lia]|].
    rewrite lookup_insert_ne by done.
    destruct (decide (phys / PAGE_SIZE = i0)) as [<-|].
    + rewrite lookup_insert_eq. eexists; split; [done|lia].
    + rewrite lookup_insert_ne by done. by apply Hinv1.
Qed.

Lemma keeps_cow_handler va : keeps_inv (cow_handler va).
Proof.
  unfold cow_handler. apply keeps_bind; [apply keeps_get|intros s0].
  repeat (case_match; try apply keeps_ret).
  intros s r s' Hs Hrun. apply K_bind_Done in Hrun as (n & s1 & Hn & Hrun).
  destruct (1 <? n) eqn:Hlt.
  - (* the shared frame: run the copy, then return *)
    apply K_bind_Done in Hrun as (u & s2 & Hc & Hrun).
    unfold mret, K_ret in Hrun. simplify_eq.
    eapply (keeps_cow_copy _ _ _ s u s' Hs). apply K_bind_Done. exists n, s1.
    split; [exact Hn|]. rewrite Hlt. exact Hc.
  - apply get_count_Done in Hn as [-> _]. revert Hrun.
    match goal with |- ?m s = _ → _ => intros Hrun; refine ((_ : keeps_inv m) s r s' Hs Hrun) end.
    repeat (apply keeps_bind; [|intros ?]); try apply keeps_ret; try apply keeps_or_entry.
    apply keeps_modify. intros s2 Hs2. by apply alloc_inv_pm.
Qed.
#[export] Hint Resolve keeps_cow_handler : keeps.

Lemma keeps_validate_page addr w : keeps_inv (validate_page addr w).
Proof. unfold validate_page. keeps_tac. Qed.
#[export] Hint Resolve keeps_validate_page : keeps.

Lemma keeps_validate_pages fuel addr stop w : keeps_inv (validate_pages fuel addr stop w).
Proof.
  revert addr. induction fuel as [|fuel IH]; intros addr; simpl; case_match;
    try apply keeps_ret; [apply keeps_fail|].
  apply keeps_bind; [apply keeps_validate_page|intros r].
  case_match; [apply keeps_ret|apply IH].
Qed.

Lemma keeps_validate_user_pointer ptr len w : keeps_inv (validate_user_pointer ptr len w).
Proof.
  unfold validate_user_pointer. repeat (case_match; try apply keeps_ret).
  apply keeps_validate_pages.
Qed.

(** ** Sequences of operations *)

Inductive paging_op :=
| OpAllocatePage
| OpAllocRegion (vaddr size flags : Z)
| OpFreePage (vaddr : Z)
| OpFreeRegion (vaddr size : Z)
| OpFreePageTables (pml4 : Z)
| OpCow (fault : Z)
| OpValidate (ptr len : Z) (write : bool).

Definition run_paging_op (o : paging_op) : K paging unit :=
  match o with
  | OpAllocatePage => allocate_physical_page;; mret tt
  | OpAllocRegion v n f => alloc_region v n f;; mret tt
  | OpFreePage v => free_page v;; mret tt
  | OpFreeRegion v n => free_region v n
  | OpFreePageTables p => free_page_tables p
  | OpCow a => cow_handler a;; mret tt
  | OpValidate p n w => validate_user_pointer p n w;; mret tt
  end.

Fixpoint run_paging_ops (ops : list paging_op) : K paging unit :=
  match ops with
  | [] => mret tt
  | o :: ops => run_paging_op o;; run_paging_ops ops
  end.

Lemma keeps_paging_ops ops : keeps_inv (run_paging_ops ops).
Proof.
  induction ops as [|o ops IH]; [apply keeps_ret|].
  apply keeps_bind; [|intros _; apply IH].
  destruct o; simpl; try (apply keeps_bind; [|intros ?; apply keeps_ret]).
  - apply keeps_allocate_physical_page.
  - apply keeps_alloc_region.
  - apply keeps_free_page.
  - apply keeps_free_region.
  - apply keeps_free_page_tables.
  - apply keeps_cow_handler.
  - apply keeps_validate_user_pointer.
Qed.

Lemma get_available_cases s :
  alloc_inv s →
  (∃ p, get_available_address s = Done (p * PAGE_SIZE, set_first_usable (p + 1) s) ∧
        0 ≤ p < usable_page_count s ∧ free s p ∧ ∀ j, 0 ≤ j < p → used s j) ∨
  (get_available_address s = Panic ∧ ∀ j, ¬ free s j).
Proof.
  intros Hs.
  destruct Hs as [Hwf Hinv]. pose proof (cw_first _ Hwf) as Hfu.
  destruct (find_available_total (Z.to_nat (usable_page_count s - first_usable s))
              (first_usable s) s) as [(a & s' & Ha)|[HP Hj]].
  - intros j Hj. apply (cw_dom _ Hwf). lia.
  - left. pose proof (get_available_Done s a s' (conj Hwf Hinv) Ha)
      as (p & -> & ? & -> & ? & ?). exists p. split; [exact Ha|done].
  - right. split; [exact HP|]. intros j Hf.
    assert (0 ≤ j < usable_page_count s) by (apply (cw_dom _ Hwf); by exists 0).
    destruct (decide (j < first_usable s)).
    + destruct (Hinv j) as (n & Hn & ?); [lia|tauto|].
      unfold free in Hf. simplify_eq. lia.
    + apply (Hj j); [lia|done].
Qed.

(** C7: the physical page allocator is first fit and complete.  Whatever
    sequence of allocations, mappings, frees, address-space teardowns,
    copy-on-write faults and pointer checks ran before (starting from a state
    where every page below first_usable is in use), get_available_address either
    returns the address of the lowest-numbered page of the whole memory whose
    count is 0, moving first_usable just past it, or panics and then no page at
    all is free. *)
Theorem get_available_address_first_fit s0 ops u s :
  alloc_inv s0 → run_paging_ops ops s0 = Done (u, s) →
  (∃ p, get_available_address s = Done (p * PAGE_SIZE, set_first_usable (p + 1) s) ∧
        free s p ∧ ∀ j, 0 ≤ j < p → used s j) ∨
  (get_available_address s = Panic ∧ ∀ j, ¬ free s j).
Proof.
  intros Hs0 Hrun.
  destruct (get_available_cases s (keeps_paging_ops ops _ _ _ Hs0 Hrun))
    as [(p & ? & _ & ? & ?)|?]; [left; by exists p|by right].
Qed.

(** A machine of [n] pages of which the first [k] are in use; page 1 holds an
    empty pml4. *)
Definition boot_state (n k : Z) : paging :=
  mk_paging ∅ (list_to_map ((λ i, (i, if i <? k then 1 else 0)) <$> seqZ 0 n))
    k n 0 4096.

Lemma boot_state_lookup n k i :
  bitmap (boot_state n k) !! i =
    if (0 <=? i) && (i <? n) then Some (if i <? k then 1 else 0) else None.
Proof.
  unfold boot_state; simpl.
  assert (HN : NoDup ((((λ i, (i, if i <? k then 1 else 0)) <$> seqZ 0 n)).*1)).
  { rewrite <-list_fmap_compose. simpl. rewrite list_fmap_id. apply NoDup_seqZ. }
  destruct (Z.leb_spec 0 i), (Z.ltb_spec i n); simpl;
    try (apply not_elem_of_list_to_map; rewrite <-list_fmap_compose; simpl;
         rewrite list_fmap_id, elem_of_seqZ; lia).
  apply elem_of_list_to_map; [done|]. apply list_elem_of_fmap. exists i.
  split; [done|]. apply elem_of_seqZ. lia.
Qed.

Lemma boot_state_inv n k : 0 ≤ k ≤ n → n ≤ 2 ^ 40 → alloc_inv (boot_state n k).
Proof.
  intros Hk Hn. split; [split|].
  - intros i. rewrite boot_state_lookup. simpl.
    destruct (Z.leb_spec 0 i), (Z.ltb_spec i n); simpl;
      (split; [intros [? ?]; (lia || done)|intros ?; (by eexists) || lia]).
  - intros i m. rewrite boot_state_lookup. repeat case_match; intros [= <-]; lia.
  - simpl. lia.
  - simpl. lia.
  - simpl. intros i Hi _. unfold used. rewrite boot_state_lookup.
    rewrite (proj2 (Z.leb_le 0 i)), (proj2 (Z.ltb_lt i n)), (proj2 (Z.ltb_lt i k)) by lia.
    exists 1. done.
Qed.

Lemma get_available_address_first_fit_witness :
  let ops := [OpAllocRegion 0x400000 8192 6; OpAllocatePage; OpFreePage 0x400000] in
  ∃ s, run_paging_ops ops (boot_state 16 2) = Done (tt, s) ∧
    ((∃ p, get_available_address s = Done (p * PAGE_SIZE, set_first_usable (p + 1) s) ∧
           free s p ∧ ∀ j, 0 ≤ j < p → used s j) ∨
     (get_available_address s = Panic ∧ ∀ j, ¬ free s j)).
Proof.
  intros ops.
  destruct (completes_Done (run_paging_ops ops (boot_state 16 2))) as [[[] s] Hrun];
    [vm_compute; reflexivity|].
  exists s. split; [done|].
  apply (get_available_address_first_fit (boot_state 16 2) ops tt s).
  - apply boot_state_inv; lia.
  - exact Hrun.
Defined.
