(* ===== verification/PagingTree.v ===== *)
(** * Page tables as a tree, and what mapping a region does to it

    [table s p] follows the indices of [p] (innermost first) from the pml4: a
    path of length 1..3 names a table, a path of length 4 the frame of a page.
    [tree_wf] says that different paths reach different tables and that every
    table sits in a page that is in use.  Under it a write to one entry changes
    the translations through that entry and no other, which is what makes
    alloc_region map exactly the pages it was asked for. *)

From S2P Require Import Prelude Paging PagingAlloc.

(** ** Bits of an entry *)

Lemma testbit_flags_mask k :
  0 ≤ k → Z.testbit FLAGS_MASK k = (k <? 12) || ((52 <=? k) && (k <? 64)).
Proof.
  intros Hk. change FLAGS_MASK with (Z.lor (Z.ones 12) (Z.shiftl (Z.ones 12) 52)).
  rewrite Z.lor_spec, Z.shiftl_spec, Z.testbit_ones_nonneg by lia.
  destruct (Z.leb_spec 52 k); simpl.
  - rewrite Z.testbit_ones_nonneg by lia. f_equal.
    destruct (Z.ltb_spec (k - 52) 12), (Z.ltb_spec k 64); lia.
  - rewrite (Z.testbit_neg_r _ (k - 52)) by lia. done.
Qed.

Lemma has_bit e n : 0 ≤ n → has e (2 ^ n) = Z.testbit e n.
Proof.
  intros Hn. unfold has. destruct (Z.testbit e n) eqn:Hb.
  - apply negb_true_iff, Z.eqb_neq. intros H.
    assert (Z.testbit (Z.land e (2 ^ n)) n = false) by (by rewrite H, Z.bits_0).
    rewrite Z.land_spec, Hb, Z.pow2_bits_true in H0 by lia. done.
  - apply negb_false_iff, Z.eqb_eq. apply Z.bits_inj'. intros k Hk.
    rewrite Z.land_spec, Z.pow2_bits_eqb, Z.bits_0 by lia.
    destruct (Z.eqb_spec n k) as [->|]; [by rewrite Hb|apply andb_false_r].
Qed.

Lemma has_present_bit e : has e FLAGS_PRESENT = Z.testbit e 0.
Proof. apply (has_bit e 0). lia. Qed.
Lemma has_user_bit e : has e FLAGS_USER = Z.testbit e 2.
Proof. apply (has_bit e 2). lia. Qed.
Lemma has_rw_bit e : has e FLAGS_RW = Z.testbit e 1.
Proof. apply (has_bit e 1). lia. Qed.
Lemma has_cow_bit e : has e FLAGS_COW = Z.testbit e 9.
Proof. apply (has_bit e 9). lia. Qed.

Lemma testbit_page n k :
  0 ≤ k → Z.testbit (n * PAGE_SIZE) k = negb (k <? 12) && Z.testbit n (k - 12).
Proof.
  intros. unfold PAGE_SIZE. change 4096 with (2 ^ 12).
  rewrite <-Z.shiftl_mul_pow2, Z.shiftl_spec by lia.
  destruct (Z.ltb_spec k 12); simpl; [|done]. apply Z.testbit_neg_r. lia.
Qed.

(** Flag bits never reach the address part. *)
Definition flag_bits (f : Z) : Prop := page_table_to_address f = 0.

Lemma pta_lor a f : page_table_to_address (Z.lor a f)
  = Z.lor (page_table_to_address a) (page_table_to_address f).
Proof. unfold page_table_to_address. apply Z.land_lor_distr_l. Qed.

Lemma pta_page n :
  0 ≤ n < 2 ^ 40 → page_table_to_address (Z.land (n * PAGE_SIZE) PAGE_MASK) = n * PAGE_SIZE.
Proof.
  intros Hn. apply Z.bits_inj'. intros k Hk.
  unfold page_table_to_address. rewrite !Z.land_spec, Z.lnot_spec, testbit_flags_mask by lia.
  unfold PAGE_MASK. change (PAGE_SIZE - 1) with (Z.ones 12).
  rewrite Z.lnot_spec, Z.testbit_ones_nonneg, testbit_page by lia.
  destruct (Z.ltb_spec k 12); simpl; [done|].
  destruct (Z.leb_spec 52 k); simpl; [|by rewrite !andb_true_r].
  rewrite (testbit_small n 40) by lia. done.
Qed.

Lemma pta_entry n f :
  0 ≤ n < 2 ^ 40 → flag_bits f →
  page_table_to_address (Z.lor (Z.land (n * PAGE_SIZE) PAGE_MASK) f) = n * PAGE_SIZE.
Proof. intros Hn Hf. rewrite pta_lor, pta_page, Hf by done. apply Z.lor_0_r. Qed.

Lemma pta_aligned e : page_table_to_address e mod PAGE_SIZE = 0.
Proof.
  unfold PAGE_SIZE. change 4096 with (2 ^ 12). rewrite <-Z.land_ones by lia.
  apply Z.bits_inj'. intros k Hk. unfold page_table_to_address.
  rewrite !Z.land_spec, Z.lnot_spec, testbit_flags_mask, Z.testbit_ones_nonneg, Z.bits_0 by lia.
  destruct (Z.ltb_spec k 12); simpl; [by rewrite andb_false_r|apply andb_false_r].
Qed.

Lemma flag_bits_lor f g : flag_bits f → flag_bits g → flag_bits (Z.lor f g).
Proof. unfold flag_bits. rewrite pta_lor. intros -> ->. done. Qed.
Lemma flag_bits_higher : flag_bits HIGHER_LEVEL_FLAGS.
Proof. done. Qed.
Lemma flag_bits_present : flag_bits FLAGS_PRESENT.
Proof. done. Qed.

(** ** The tree *)

Fixpoint table (s : paging) (p : list Z) : option Z :=
  match p with
  | [] => Some (pml4_physical s)
  | i :: p => match table s p with Some t => next_table s t i | None => None end
  end.

Definition path_of (va : Z) : list Z :=
  let e := get_page_entry va in
  [pt_index e; pd_index e; pdpt_index e; pml4_index e].

Lemma translate_table s va : translate s va = table s (path_of va).
Proof.
  unfold translate, path_of. simpl. unfold mbind, option_bind.
  repeat (destruct (next_table s _ _); [|done]). done.
Qed.

Definition valid_path (p : list Z) : Prop := Forall (λ i, 0 ≤ i < 512) p.

Lemma index_range va n : 0 ≤ Z.land (Z.shiftr va n) 0x1FF < 512.
Proof.
  change 0x1FF with (Z.ones 9). rewrite Z.land_ones by lia.
  apply Z.mod_pos_bound. lia.
Qed.

Lemma valid_path_of va : valid_path (path_of va).
Proof. unfold valid_path, path_of; simpl. repeat constructor; apply index_range. Qed.

Record tree_wf (s : paging) : Prop := {
  tw_inj : ∀ p q t, (length p ≤ 3)%nat → (length q ≤ 3)%nat →
    valid_path p → valid_path q → table s p = Some t → table s q = Some t → p = q;
  tw_page : ∀ p t, (length p ≤ 3)%nat → valid_path p → table s p = Some t →
    t mod PAGE_SIZE = 0 ∧ used s (t / PAGE_SIZE);
}.

(** [table] reads memory and the root only. *)
Lemma table_ext s s' p :
  pm s = pm s' → pml4_physical s = pml4_physical s' → table s p = table s' p.
Proof.
  intros Hm Hr. induction p as [|i p IH]; simpl; [by rewrite Hr|].
  rewrite IH. destruct (table s' p); [|done].
  unfold next_table, entry. by rewrite Hm.
Qed.

Lemma word_key_inj t i t' i' :
  t mod PAGE_SIZE = 0 → t' mod PAGE_SIZE = 0 → 0 ≤ i < 512 → 0 ≤ i' < 512 →
  t / 8 + i = t' / 8 + i' → t = t' ∧ i = i'.
Proof. unfold PAGE_SIZE. intros. Z.div_mod_to_equations. lia. Qed.

Lemma entry_set_eq t i v s : entry (set_entry t i v s) t i = v.
Proof. unfold entry, set_entry, word; simpl. by rewrite lookup_insert_eq. Qed.

Lemma entry_set_ne t i v s t' i' :
  t mod PAGE_SIZE = 0 → t' mod PAGE_SIZE = 0 → 0 ≤ i < 512 → 0 ≤ i' < 512 →
  (t, i) ≠ (t', i') → entry (set_entry t i v s) t' i' = entry s t' i'.
Proof.
  intros. unfold entry, set_entry, word; simpl.
  rewrite lookup_insert_ne; [done|]. intros He.
  apply word_key_inj in He as [-> ->]; done.
Qed.

(** Writing entry [i] of the table at path [p] only matters to paths through it. *)
Lemma table_set_entry_other s p t i v q :
  tree_wf s → table s p = Some t → (length p ≤ 3)%nat → valid_path (i :: p) →
  (length q ≤ 4)%nat → valid_path q → ¬ (i :: p) `suffix_of` q →
  table (set_entry t i v s) q = table s q.
Proof.
  intros Hwf Ht Hp Hv Hq Hvq Hns. apply Forall_cons in Hv as [Hi Hvp].
  induction q as [|j q IH]; [done|]. simpl.
  apply Forall_cons in Hvq as [Hj Hvq]. simpl in Hq.
  rewrite IH; [|lia|done|intros Hs; apply Hns; by apply suffix_cons_r].
  destruct (table s q) as [t'|] eqn:Ht'; [|done].
  destruct (tw_page _ Hwf p t) as [Hal _]; [lia|done|done|].
  destruct (tw_page _ Hwf q t') as [Hal' _]; [lia|done|done|].
  unfold next_table. rewrite entry_set_ne; try done.
  intros [= -> ->]. apply Hns.
  rewrite (tw_inj _ Hwf q p t'); try done; lia.
Qed.

Lemma table_set_entry_at s p t i v :
  tree_wf s → table s p = Some t → (length p ≤ 3)%nat → valid_path (i :: p) →
  table (set_entry t i v s) (i :: p) =
    if has v FLAGS_PRESENT then Some (page_table_to_address v) else None.
Proof.
  intros Hwf Ht Hp Hv. pose proof Hv as Hv'. apply Forall_cons in Hv as [Hi Hvp]. simpl.
  rewrite (table_set_entry_other s p t i v p); try done; [|lia|].
  - rewrite Ht. unfold next_table. by rewrite entry_set_eq.
  - intros Hs. apply suffix_length in Hs. simpl in Hs. lia.
Qed.

(** ** Clearing a free page changes no table *)

Lemma fill_words_lookup n w v m k :
  fill_words n w v m !! k =
    if (w <=? k) && (k <? w + Z.of_nat n) then Some v else m !! k.
Proof.
  revert w m. induction n as [|n IH]; intros w m; unfold fill_words; fold fill_words.
  - destruct (Z.leb_spec w k), (Z.ltb_spec k (w + Z.of_nat 0)); simpl; done || lia.
  - rewrite IH. destruct (Z.leb_spec (w + 1) k), (Z.ltb_spec k (w + 1 + Z.of_nat n)),
      (Z.leb_spec w k), (Z.ltb_spec k (w + Z.of_nat (S n))); simpl; try lia; try done;
      first [ by rewrite lookup_insert_ne by lia
            | assert (k = w) as -> by lia; by rewrite lookup_insert_eq ].
Qed.

Lemma entry_zero_other a s t i :
  a mod PAGE_SIZE = 0 → t mod PAGE_SIZE = 0 → 0 ≤ i < 512 → t ≠ a →
  entry (zero_page_at a s) t i = entry s t i.
Proof.
  intros Ha Ht Hi Hne. unfold entry, zero_page_at, word; cbn [set_pm pm]. rewrite fill_words_lookup.
  replace (_ && _) with false; [done|]. symmetry. unfold PAGE_SIZE in *.
  apply andb_false_iff. rewrite Z.leb_gt, Z.ltb_ge.
  Z.div_mod_to_equations. lia.
Qed.

Lemma entry_zero_same a s i : 0 ≤ i < 512 → entry (zero_page_at a s) a i = 0.
Proof.
  intros Hi. unfold entry, zero_page_at, word; cbn [set_pm pm]. rewrite fill_words_lookup.
  rewrite (proj2 (Z.leb_le _ _)), (proj2 (Z.ltb_lt _ _)) by lia. done.
Qed.

Definition not_a_table (s : paging) (a : Z) : Prop :=
  ∀ q t, (length q ≤ 3)%nat → valid_path q → table s q = Some t → t ≠ a.

Lemma not_a_table_free s a :
  tree_wf s → ¬ used s (a / PAGE_SIZE) → not_a_table s a.
Proof. intros Hwf Hn q t Hq Hv Ht ->. by destruct (tw_page _ Hwf q a Hq Hv Ht). Qed.

Lemma table_zero_page s a q :
  tree_wf s → a mod PAGE_SIZE = 0 → not_a_table s a →
  (length q ≤ 4)%nat → valid_path q →
  table (zero_page_at a s) q = table s q.
Proof.
  intros Hwf Ha Hna. induction q as [|j q IH]; [done|]. intros Hq Hv. simpl.
  apply Forall_cons in Hv as [Hj Hv]. simpl in Hq. rewrite IH by (done || lia).
  destruct (table s q) as [t|] eqn:Ht; [|done].
  destruct (tw_page _ Hwf q t) as [Hal Hu]; [lia|done|done|].
  unfold next_table. rewrite entry_zero_other; try done. apply (Hna q); done || lia.
Qed.

(** Rewriting an entry with the same target changes no table. *)
Lemma table_set_entry_same s p t i v q :
  tree_wf s → table s p = Some t → (length p ≤ 3)%nat → valid_path (i :: p) →
  next_table s t i = (if has v FLAGS_PRESENT then Some (page_table_to_address v) else None) →
  (length q ≤ 4)%nat → valid_path q →
  table (set_entry t i v s) q = table s q.
Proof.
  intros Hwf Ht Hp Hv Hsame. apply Forall_cons in Hv as [Hi Hvp].
  induction q as [|j q IH]; [done|]. intros Hq Hvq. simpl.
  apply Forall_cons in Hvq as [Hj Hvq]. simpl in Hq. rewrite IH by (done || lia).
  destruct (table s q) as [t'|] eqn:Ht'; [|done].
  destruct (tw_page _ Hwf p t) as [Hal _]; [lia|done|done|].
  destruct (tw_page _ Hwf q t') as [Hal' _]; [lia|done|done|].
  destruct (decide ((t, i) = (t', j))) as [[= -> ->]|Hne].
  - rewrite Hsame. unfold next_table. by rewrite entry_set_eq.
  - unfold next_table. by rewrite entry_set_ne.
Qed.

Lemma table_none_suffix s p q : table s p = None → p `suffix_of` q → table s q = None.
Proof.
  intros Hn [r ->]. induction r as [|j r IH]; [done|]. simpl. by rewrite IH.
Qed.

Definition paging_wf (s : paging) : Prop := alloc_inv s ∧ tree_wf s.

(** From [s] to [s'] tables were only added: every translation and every count
    of a page in use is as before. *)
Record grows (s s' : paging) : Prop := {
  gr_root : pml4_physical s' = pml4_physical s;
  gr_size : usable_page_count s' = usable_page_count s;
  gr_tables : ∀ q t, (length q ≤ 3)%nat → valid_path q →
    table s q = Some t → table s' q = Some t;
  gr_leaf : ∀ q, length q = 4%nat → valid_path q → table s' q = table s q;
  gr_used : ∀ pg n, bitmap s !! pg = Some n → n ≠ 0 → bitmap s' !! pg = Some n;
  gr_free : ∀ pg, free s' pg → free s pg;
}.

Lemma grows_refl s : grows s s.
Proof. by split. Qed.
Lemma grows_trans s1 s2 s3 : grows s1 s2 → grows s2 s3 → grows s1 s3.
Proof.
  intros [R1 C1 T1 L1 U1 F1] [R2 C2 T2 L2 U2 F2]. split; try congruence; auto.
  intros q Hq Hv. rewrite L2, L1; done.
Qed.

Lemma grows_used s s' pg : grows s s' → used s pg → used s' pg.
Proof. intros Hg (n & Hn & ?). exists n. split; [|done]. eapply gr_used; [done..|lia]. Qed.

(** A frame that is in use and holds no table, and a step that leaves the contents
    of all of them alone. *)
Record data_page (s : paging) (f : Z) : Prop := {
  dp_aligned : f mod PAGE_SIZE = 0;
  dp_used : used s (f / PAGE_SIZE);
  dp_no_table : not_a_table s f;
}.
Definition same_data (s s' : paging) : Prop :=
  ∀ f, data_page s f → data_page s' f ∧ ∀ j, 0 ≤ j < 512 → entry s' f j = entry s f j.

Lemma same_data_refl s : same_data s s.
Proof. by intros f Hf. Qed.
Lemma same_data_trans s1 s2 s3 : same_data s1 s2 → same_data s2 s3 → same_data s1 s3.
Proof.
  intros H1 H2 f Hf. destruct (H1 f Hf) as [Hf2 E1]. destruct (H2 f Hf2) as [Hf3 E2].
  split; [done|]. intros j Hj. by rewrite E2, E1.
Qed.
(** The usual case: the tables are the same and only other frames were written. *)
Lemma same_data_tables s s' :
  (∀ q, (length q ≤ 3)%nat → valid_path q → table s' q = table s q) →
  (∀ pg, used s pg → used s' pg) →
  (∀ f j, data_page s f → 0 ≤ j < 512 → entry s' f j = entry s f j) → same_data s s'.
Proof.
  intros Ht Hu He f Hf. split; [|intros; by apply He]. split; [apply Hf|apply Hu, Hf|].
  intros q t Hq Hv Hqt. rewrite Ht in Hqt by done. by apply (dp_no_table _ _ Hf q).
Qed.

(** The page tables of the last level keep their entries. *)
Definition same_leaves (s s' : paging) : Prop :=
  ∀ q pt, length q = 3%nat → valid_path q → table s q = Some pt →
    table s' q = Some pt ∧ ∀ j, 0 ≤ j < 512 → entry s' pt j = entry s pt j.
Definition same_user (s s' : paging) : Prop := same_data s s' ∧ same_leaves s s'.
Lemma same_user_refl s : same_user s s.
Proof. split; [apply same_data_refl|by intros q pt]. Qed.
Lemma same_user_trans s1 s2 s3 : same_user s1 s2 → same_user s2 s3 → same_user s1 s3.
Proof.
  intros [D1 L1] [D2 L2]. split; [by eapply same_data_trans|]. intros q pt Hq Hv Ht.
  destruct (L1 q pt Hq Hv Ht) as [T1 E1]. destruct (L2 q pt Hq Hv T1) as [T2 E2].
  split; [done|]. intros j Hj. by rewrite E2, E1.
Qed.

(** A step that touches neither root nor counts and keeps every table. *)
Lemma tree_wf_same s s' :
  (∀ q, (length q ≤ 4)%nat → valid_path q → table s' q = table s q) →
  (∀ pg, used s pg → used s' pg) → tree_wf s → tree_wf s'.
Proof.
  intros Ht Hu Hwf. split.
  - intros p q t Hp Hq Hvp Hvq. rewrite !Ht by (done || lia). apply (tw_inj _ Hwf); done.
  - intros p t Hp Hv. rewrite Ht by (done || lia). intros H.
    destruct (tw_page _ Hwf p t Hp Hv H). auto.
Qed.

Lemma allocate_physical_page_spec s a s' :
  alloc_inv s → allocate_physical_page s = Done (a, s') →
  ∃ pg, a = pg * PAGE_SIZE ∧ free s pg ∧ 0 ≤ pg < usable_page_count s ∧
    s' = zero_page_at a (set_bitmap (<[pg := 1]> (bitmap s)) (set_first_usable (pg + 1) s)).
Proof.
  intros Hs H. unfold allocate_physical_page in H.
  apply K_bind_Done in H as (a1 & s1 & Ha & H).
  apply (get_available_Done s a1 s1 Hs) in Ha as (pg & -> & Hpg & -> & Hf & _).
  apply K_bind_Done in H as (u & s2 & H2 & H).
  apply inc_count_Done in H2 as (n & Hn & ->). rewrite page_div in *. simpl in Hn.
  unfold free in Hf. simplify_eq. inv_done. exists pg. done.
Qed.

Lemma free_not_used s pg : free s pg → ¬ used s pg.
Proof. intros Hf (n & Hn & ?). unfold free in Hf. simplify_eq. lia. Qed.

Lemma page_mod pg : pg * PAGE_SIZE mod PAGE_SIZE = 0.
Proof. unfold PAGE_SIZE. apply Z.mod_mul. lia. Qed.

(** Taking a page keeps the tree: the page was free, so it is no table. *)
Lemma take_page_spec s a s' :
  paging_wf s → allocate_physical_page s = Done (a, s') →
  ∃ pg, a = pg * PAGE_SIZE ∧ free s pg ∧ 0 ≤ pg < 2 ^ 40 ∧ paging_wf s' ∧
    grows s s' ∧ not_a_table s' a ∧ used s' pg ∧
    (∀ q, (length q ≤ 4)%nat → valid_path q → table s' q = table s q) ∧
    (∀ i, 0 ≤ i < 512 → entry s' a i = 0) ∧ same_user s s'.
Proof.
  intros [Hs Hwf] H.
  pose proof (keeps_allocate_physical_page _ _ _ Hs H) as Hs'.
  destruct (allocate_physical_page_spec s a s' Hs H) as (pg & -> & Hf & Hpg & ->).
  pose proof (free_not_used _ _ Hf) as Hnu.
  set (s1 := set_bitmap _ _) in *.
  assert (Hna : not_a_table s (pg * PAGE_SIZE)).
  { apply not_a_table_free; [done|]. by rewrite page_div. }
  assert (Ht1 : ∀ q, table s1 q = table s q) by (intros; by apply table_ext).
  assert (Hu1 : ∀ k, used s k → used s1 k) 
    by (intros k Hk; apply (used_put_pos (set_first_usable (pg + 1) s)); [lia|exact Hk]).
  assert (Hwf1 : tree_wf s1) by (by eapply tree_wf_same; [|exact Hu1|exact Hwf]).
  assert (Ht : ∀ q, (length q ≤ 4)%nat → valid_path q →
            table (zero_page_at (pg * PAGE_SIZE) s1) q = table s q).
  { intros q Hq Hv. rewrite table_zero_page; [by apply Ht1|done|apply page_mod| |done|done].
    intros q' t' ? ? Hq'. rewrite Ht1 in Hq'. by apply (Hna q'). }
  destruct Hs as [Hcw _]. pose proof (cw_count _ Hcw).
  exists pg. split_and!; try done; try lia.
  - split; [done|]. by eapply tree_wf_same; [exact Ht|exact Hu1|].
  - split; try done.
    + intros q t Hq Hv Hqt. rewrite Ht; [done|lia|done].
    + intros q Hq Hv. apply Ht; [lia|done].
    + simpl. intros k n Hk Hn. rewrite lookup_insert_ne; [done|].
      intros <-. unfold free in Hf. simplify_eq.
    + intros k Hk. unfold free in Hk; simpl in Hk.
      apply lookup_insert_Some in Hk as [[_ ?]|[_ ?]]; [lia|done].
  - intros q t Hq Hv Hqt. rewrite Ht in Hqt by (done || lia). by apply (Hna q).
  - exists 1. simpl. by rewrite lookup_insert_eq.
  - intros i Hi. by apply entry_zero_same.
  - assert (He : ∀ f j, f mod PAGE_SIZE = 0 → used s (f / PAGE_SIZE) → 0 ≤ j < 512 →
      entry (zero_page_at (pg * PAGE_SIZE) s1) f j = entry s f j).
    { intros f j Hal Hu Hj. unfold s1. rewrite entry_zero_other; [done|apply page_mod|done|done|].
      intros ->. by rewrite page_div in Hu. }
    split; [apply same_data_tables; [intros; apply Ht; [lia|done]|exact Hu1|]|].
    + intros f j Hf' Hj. apply He; [apply Hf'|apply Hf'|done].
    + intros q pt Hq Hv Hpt. rewrite Ht by (done || lia). split; [done|]. intros j Hj.
      destruct (tw_page _ Hwf q pt ltac:(lia) Hv Hpt). by apply He.
Qed.
