(* ===== verification/PagingMap.v ===== *)
(** * What alloc_region does: exactly the requested pages get fresh frames

    The loop of alloc_region is followed page by page: [loop_inv] says that the
    cached table pointers are those of the current page, [maps] is the relation
    between the address spaces before and after. *)

From S2P Require Import Prelude Paging PagingAlloc PagingTree.

(** ** One level of the walk *)

Lemma install_table s t i p pg :
  paging_wf s → table s p = Some t → (length p ≤ 2)%nat → valid_path (i :: p) →
  next_table s t i = None → 0 ≤ pg < 2 ^ 40 →
  not_a_table s (pg * PAGE_SIZE) → used s pg →
  (∀ j, 0 ≤ j < 512 → entry s (pg * PAGE_SIZE) j = 0) →
  let s' := set_entry t i (Z.lor (Z.land (pg * PAGE_SIZE) PAGE_MASK) HIGHER_LEVEL_FLAGS) s in
  paging_wf s' ∧ grows s s' ∧ table s' (i :: p) = Some (pg * PAGE_SIZE) ∧
  (∀ q, (length q ≤ 4)%nat → valid_path q → q ≠ i :: p → table s' q = table s q).
Proof.
  intros [Hs Hwf] Ht Hp Hv Hnone Hpg Hna Hu Hz s'.
  set (v := Z.lor _ _) in s'.
  assert (Hpv : has v FLAGS_PRESENT = true).
  { unfold v. rewrite has_present_bit, Z.lor_spec. apply orb_true_r. }
  assert (Hav : page_table_to_address v = pg * PAGE_SIZE) by (by apply pta_entry).
  pose proof Hv as Hv'. apply Forall_cons in Hv' as [Hi Hvp].
  assert (Hat : table s' (i :: p) = Some (pg * PAGE_SIZE)).
  { unfold s'. rewrite table_set_entry_at by (done || lia). by rewrite Hpv, Hav. }
  assert (Hold : table s (i :: p) = None) by (simpl; by rewrite Ht).
  assert (Hother : ∀ q, (length q ≤ 4)%nat → valid_path q → ¬ (i :: p) `suffix_of` q →
            table s' q = table s q).
  { intros q Hq Hvq Hns. eapply table_set_entry_other; [exact Hwf|exact Ht|..]; try done; lia. }
  (* below the new table everything is absent *)
  assert (Hne : t ≠ pg * PAGE_SIZE) by (apply (Hna p); done || lia).
  assert (Hbelow : ∀ r j, valid_path (j :: r ++ i :: p) → table s' (j :: r ++ i :: p) = None).
  { intros r. induction r as [|k r IH]; intros j Hvr; apply Forall_cons in Hvr as [Hj Hvr].
    - cbn [app]. cbn [table]. cbn [table] in Hat. rewrite Hat. unfold next_table.
      destruct (tw_page _ Hwf p t) as [Hal _]; [lia|done|done|].
      unfold s'. rewrite entry_set_ne; [by rewrite Hz|done|apply page_mod|done|done|congruence].
    - cbn [app] in *. cbn [table] in *. by rewrite IH. }
  (* hence every path: through the new table, or as before *)
  assert (Hcases : ∀ q, (length q ≤ 4)%nat → valid_path q →
    (q = i :: p ∧ table s' q = Some (pg * PAGE_SIZE) ∧ table s q = None) ∨
    (q ≠ i :: p ∧ table s' q = table s q)).
  { intros q Hq Hvq. destruct (decide ((i :: p) `suffix_of` q)) as [Hsuf|Hns].
    - pose proof (table_none_suffix s _ _ Hold Hsuf) as Hn. destruct Hsuf as [[|j r] ->].
      + left. done.
      + right. split; [|rewrite Hn; by apply Hbelow].
        intros He%(f_equal length). rewrite length_app in He. simpl in He. lia.
    - right. split; [intros ->; by apply Hns|by apply Hother]. }
  split_and!; [split; [by apply alloc_inv_pm|]| |done|].
  3: { intros q Hq Hvq Hqi. by destruct (Hcases q Hq Hvq) as [(-> & _)|[_ ?]]. }
  - split.
    + intros q1 q2 t' H1 H2 Hv1 Hv2 Ht1 Ht2.
      destruct (Hcases q1) as [(-> & E1 & _)|(N1 & E1)]; [lia|done| |];
        destruct (Hcases q2) as [(-> & E2 & _)|(N2 & E2)]; try lia; try done.
      * rewrite E1 in Ht1. simplify_eq. rewrite E2 in Ht2. by destruct (Hna q2 _ H2 Hv2 Ht2).
      * rewrite E2 in Ht2. simplify_eq. rewrite E1 in Ht1. by destruct (Hna q1 _ H1 Hv1 Ht1).
      * rewrite E1 in Ht1. rewrite E2 in Ht2. by apply (tw_inj _ Hwf q1 q2 t').
    + intros q t' H1 Hv1 Ht1. destruct (Hcases q) as [(-> & E1 & _)|(N1 & E1)]; [lia|done| |].
      * rewrite E1 in Ht1. simplify_eq. split; [apply page_mod|by rewrite page_div].
      * rewrite E1 in Ht1. by apply (tw_page _ Hwf q).
  - split; try done.
    + intros q t' H1 Hv1 Ht1. destruct (Hcases q) as [(-> & E1 & E2)|(N1 & E1)]; [lia|done| |].
      * by rewrite E2 in Ht1.
      * by rewrite E1.
    + intros q H1 Hv1. destruct (Hcases q) as [(-> & _)|(N1 & E1)]; [lia|done| |done].
      simpl in H1. lia.
Qed.

Lemma grows_zero s a :
  paging_wf s → a mod PAGE_SIZE = 0 → not_a_table s a → grows s (zero_page_at a s).
Proof.
  intros [_ Hwf] Ha Hna. split; [reflexivity|reflexivity| | |by intros|by intros].
  - intros q t Hq Hv Ht. rewrite table_zero_page; [exact Ht|exact Hwf|exact Ha|exact Hna|lia|done].
  - intros q Hq Hv. apply table_zero_page; [exact Hwf|exact Ha|exact Hna|lia|done].
Qed.

(** The entry-present / entry-absent cases of a level together. *)
Lemma ensure_table_spec s t i p t' s' :
  paging_wf s → table s p = Some t → (length p ≤ 2)%nat → valid_path (i :: p) →
  ensure_table t i s = Done (t', s') →
  paging_wf s' ∧ grows s s' ∧ table s' (i :: p) = Some t' ∧ same_user s s'.
Proof.
  intros Hwf Ht Hp Hv H. unfold ensure_table in H.
  apply K_bind_Done in H as (e & s0 & He & H). unfold kgets in He. simplify_eq.
  apply K_bind_Done in H as (u & s1 & H1 & H).
  apply K_bind_Done in H as (e & s2 & He & H). unfold kgets in He.
  unfold mret, K_ret in H. simplify_eq.
  destruct (has (entry s0 t i) FLAGS_PRESENT) eqn:Hpres.
  - unfold mret, K_ret in H1. simplify_eq. split_and!; [done|apply grows_refl| |apply same_user_refl].
    simpl. rewrite Ht. unfold next_table. by rewrite Hpres.
  - apply K_bind_Done in H1 as (a & s2 & Ha & H1).
    destruct (take_page_spec _ _ _ Hwf Ha)
      as (pg & -> & Hf & Hpg & Hwf2 & Hg2 & Hna & Hu & Htab & Hz & Hd2).
    apply K_bind_Done in H1 as (u1 & s3 & Hnz & H1).
    assert (s3 = s2) as -> by (case_match; inv_done; done).
    apply K_bind_Done in H1 as (u2 & s3 & Hzero & H1). unfold kmodify in Hzero, H1.
    injection Hzero as _ <-. injection H1 as _ <-.
    (* the second clearing changes nothing *)
    set (s3 := zero_page_at _ s2).
    assert (Hwf3 : paging_wf s3).
    { destruct Hwf2 as [Hi2 Ht2]. split; [by apply alloc_inv_pm|].
      apply (tree_wf_same s2 s3); [|done|done].
      intros q Hq Hvq. apply table_zero_page; try done. apply page_mod. }
    assert (Htab3 : ∀ q, (length q ≤ 4)%nat → valid_path q → table s3 q = table s0 q).
    { intros q Hq Hvq. unfold s3. rewrite table_zero_page; try done; [by apply Htab|apply Hwf2|].
      apply page_mod. }
    pose proof Hv as Hv'. apply Forall_cons in Hv' as [Hi Hvp].
    assert (Ht3 : table s3 p = Some t) by (rewrite Htab3 by (done || lia); done).
    assert (Hnone : next_table s3 t i = None).
    { pose proof (Htab3 (i :: p) ltac:(simpl; lia) Hv) as Hn. simpl in Hn.
      rewrite Ht3, Ht in Hn. rewrite Hn. unfold next_table. by rewrite Hpres. }
    destruct (install_table s3 t i p pg Hwf3 Ht3 Hp Hv Hnone Hpg) as (Hwf4 & Hg4 & Hat & Hrest);
      [|exact Hu| |].
    + intros q t' Hq Hvq Hqt. rewrite Htab3 in Hqt by (done || lia).
      apply (Hna q); [done..|]. rewrite Htab; [done|lia|done].
    + intros j Hj. by apply entry_zero_same.
    + split; [done|]. split_and!.
      * eapply grows_trans; [exact Hg2|]. eapply grows_trans; [|exact Hg4].
        apply grows_zero; [exact Hwf2|apply page_mod|exact Hna].
      * rewrite Hat. cbn [table] in Hat.
        destruct Hg4 as [_ _ Htabs _ _ _]. rewrite (Htabs p t) in Hat; [|lia|done|done].
        unfold next_table in Hat. destruct (has _ _) eqn:E in Hat; [|done]. by injection Hat as ->.
      * destruct Hd2 as [Hd2 Hl2]. set (s4 := set_entry _ _ _ _) in *.
        assert (He : ∀ f j, f mod PAGE_SIZE = 0 → f ≠ pg * PAGE_SIZE → f ≠ t → 0 ≤ j < 512 →
          entry s4 f j = entry s2 f j).
        { intros f j Hal Hf1 Hf2 Hj. unfold s4. rewrite entry_set_ne;
            [|exact (proj1 (tw_page _ (proj2 Hwf) p t ltac:(lia) Hvp Ht))|done|done|done|congruence].
          unfold s3. rewrite entry_zero_other; [done|apply page_mod|done|done|done]. }
        assert (Hu0 : ∀ f, used s0 (f / PAGE_SIZE) → f ≠ pg * PAGE_SIZE).
        { intros f Hfu ->. apply (free_not_used _ _ Hf). by rewrite page_div in Hfu. }
        split.
        -- intros f Hf0. destruct (Hd2 f Hf0) as [Hf2 E2]. pose proof (Hu0 f (dp_used _ _ Hf0)) as Hne.
           assert (Hft : f ≠ t) by (intros ->; exact (dp_no_table _ _ Hf0 p t ltac:(lia) Hvp Ht eq_refl)).
           split; [split; [apply Hf0|eapply grows_used; [exact Hg4|apply Hf2]|]|].
           ++ intros q t1 Hq Hvq Hqt ->. destruct (decide (q = i :: p)) as [->|Hqi]; [congruence|].
              rewrite Hrest, Htab3 in Hqt by (done || lia). exact (dp_no_table _ _ Hf0 q _ Hq Hvq Hqt eq_refl).
           ++ intros j Hj. rewrite He by (done || apply Hf0). by apply E2.
        -- intros q pt Hq Hvq Hqt. destruct (Hl2 q pt Hq Hvq Hqt) as [_ E2].
           destruct (tw_page _ (proj2 Hwf) q pt ltac:(lia) Hvq Hqt) as [Hal Hu1]. split.
           ++ rewrite Hrest, Htab3; try done; [lia|lia|]. intros ->. simpl in Hqt. rewrite Ht in Hqt.
              unfold next_table in Hqt. by rewrite Hpres in Hqt.
           ++ intros j Hj. rewrite He; [by apply E2|done|by apply Hu0| |done]. intros ->.
              pose proof (tw_inj _ (proj2 Hwf) q p t ltac:(lia) ltac:(lia) Hvq Hvp Hqt Ht). subst q. lia.
Qed.

Lemma or_entry_spec s t i p f u s' :
  paging_wf s → table s p = Some t → (length p ≤ 2)%nat → valid_path (i :: p) →
  has (entry s t i) FLAGS_PRESENT = true → flag_bits f →
  or_entry t i f s = Done (u, s') →
  paging_wf s' ∧ grows s s' ∧
  (∀ q, (length q ≤ 4)%nat → valid_path q → table s' q = table s q) ∧ same_user s s'.
Proof.
  intros [Hs Hwf] Ht Hp Hv Hpres Hf H. unfold or_entry, kmodify in H. injection H as _ <-.
  set (s' := set_entry _ _ _ s).
  assert (Hsame : ∀ q, (length q ≤ 4)%nat → valid_path q → table s' q = table s q).
  { intros q Hq Hvq. eapply table_set_entry_same; [exact Hwf|exact Ht|lia|done| |done|done].
    unfold next_table. rewrite Hpres. rewrite has_present_bit in Hpres |- *.
    rewrite Z.lor_spec, Hpres. simpl. by rewrite pta_lor, Hf, Z.lor_0_r. }
  split_and!; [split; [by apply alloc_inv_pm|]| |done|].
  - by eapply tree_wf_same; [exact Hsame|intros|].
  - split; try done; intros; rewrite Hsame; done || lia.
  - apply Forall_cons in Hv as [Hi Hvp]. pose proof (proj1 (tw_page _ Hwf p t ltac:(lia) Hvp Ht)) as Hal. split.
    + apply same_data_tables; [intros; apply Hsame; [lia|done]|done|]. intros f0 j Hfd Hj.
      apply entry_set_ne; [done|apply Hfd|done|done|].
      intros [= <- _]. exact (dp_no_table _ _ Hfd p t ltac:(lia) Hvp Ht eq_refl).
    + intros q pt Hq Hvq Hqt. rewrite Hsame by (done || lia). split; [done|]. intros j Hj.
      apply entry_set_ne; [done| |done|done|].
      * exact (proj1 (tw_page _ Hwf q pt ltac:(lia) Hvq Hqt)).
      * intros [= <- _]. pose proof (tw_inj _ Hwf q p t ltac:(lia) ltac:(lia) Hvq Hvp Hqt Ht). subst q. lia.
Qed.

(** ** Paths of page numbers *)

Definition ppath (n : Z) : list Z :=
  [n mod 512; (n / 512) mod 512; (n / 2 ^ 18) mod 512; (n / 2 ^ 27) mod 512].

Lemma index_div va k : 0 ≤ k → Z.land (Z.shiftr va (12 + k)) 0x1FF
  = (va / PAGE_SIZE / 2 ^ k) mod 512.
Proof.
  intros. change 0x1FF with (Z.ones 9). rewrite Z.land_ones, Z.shiftr_div_pow2 by lia.
  unfold PAGE_SIZE. change 4096 with (2 ^ 12).
  rewrite Z.pow_add_r, <-Z.div_div by lia. done.
Qed.

Lemma path_of_page va : path_of va = ppath (va / PAGE_SIZE).
Proof.
  unfold path_of, ppath, get_page_entry; simpl.
  pose proof (index_div va 0 ltac:(lia)) as H0. pose proof (index_div va 9 ltac:(lia)) as H1.
  pose proof (index_div va 18 ltac:(lia)) as H2. pose proof (index_div va 27 ltac:(lia)) as H3.
  change (12 + 0) with 12 in H0. change (12 + 9) with 21 in H1.
  change (12 + 18) with 30 in H2. change (12 + 27) with 39 in H3.
  change (2 ^ 0) with 1 in H0. change (2 ^ 9) with 512 in H1.
  rewrite Z.div_1_r in H0. by rewrite H0, H1, H2, H3.
Qed.

Lemma ppath_inj n m : n / 2 ^ 36 = m / 2 ^ 36 → ppath n = ppath m → n = m.
Proof. unfold ppath. intros ? [=]. Z.div_mod_to_equations. lia. Qed.

Lemma ppath_valid n : valid_path (ppath n).
Proof. repeat constructor; apply Z.mod_pos_bound; lia. Qed.

(** ** The loop state *)

Definition idx_path (i : page_address_t) : list Z :=
  [pt_index i; pd_index i; pdpt_index i; pml4_index i].

(** At page [n] the cached tables are those the flags say are up to date. *)
Record walk_inv (s : paging) (n : Z) (w : walk_state) : Prop := {
  wi_idx : idx_path (w_idx w) = ppath n;
  wi_pdpt : pml4_changed w = false → table s [pml4_index (w_idx w)] = Some (w_pdpt w);
  wi_pd : pdpt_changed w = false →
    table s [pdpt_index (w_idx w); pml4_index (w_idx w)] = Some (w_pd w);
  wi_pt : pd_changed w = false →
    table s [pd_index (w_idx w); pdpt_index (w_idx w); pml4_index (w_idx w)]
    = Some (w_pt w);
}.

Lemma table_present s p i t t' :
  table s p = Some t → table s (i :: p) = Some t' → has (entry s t i) FLAGS_PRESENT = true.
Proof. simpl. intros ->. unfold next_table. by destruct (has _ _). Qed.

(** One level: the cached table, or the one that is there or gets installed. *)
Lemma cached_table_spec (b : bool) s t i p c t' s' :
  paging_wf s → table s p = Some t → (length p ≤ 2)%nat → valid_path (i :: p) →
  (b = false → table s (i :: p) = Some c) →
  (if b then ensure_table t i else mret c) s = Done (t', s') →
  paging_wf s' ∧ grows s s' ∧ table s' (i :: p) = Some t' ∧ same_user s s'.
Proof.
  intros Hwf Ht Hp Hv Hc H. destruct b; [by eapply ensure_table_spec|].
  unfold mret, K_ret in H. simplify_eq. split_and!; [done|apply grows_refl|auto|apply same_user_refl].
Qed.

Lemma walk_tables_spec s n w w' s' :
  paging_wf s → walk_inv s n w → walk_tables w s = Done (w', s') →
  paging_wf s' ∧ grows s s' ∧ walk_inv s' n w' ∧ w_idx w' = w_idx w ∧
  pml4_changed w' = false ∧ pdpt_changed w' = false ∧ pd_changed w' = false ∧ same_user s s'.
Proof.
  intros Hwf [Hidx Hc1 Hc2 Hc3] H. unfold walk_tables in H.
  pose proof (ppath_valid n) as Hv. rewrite <-Hidx in Hv.
  apply Forall_cons in Hv as [_ Hv3]. pose proof Hv3 as Hv2.
  apply Forall_cons in Hv2 as [_ Hv2]. pose proof Hv2 as Hv1.
  apply Forall_cons in Hv1 as [_ Hv1].
  apply K_bind_Done in H as (sx & s0 & Hg & H). unfold kget in Hg. injection Hg as <- <-.
  apply K_bind_Done in H as (pdpt & s1 & H1 & H).
  destruct (cached_table_spec _ s _ _ [] _ _ _ Hwf eq_refl ltac:(simpl; lia) Hv1 Hc1 H1)
    as (Hwf1 & G1 & T1 & D1).
  apply K_bind_Done in H as (pd & s2 & H2 & H).
  destruct (cached_table_spec _ s1 _ _ _ _ _ _ Hwf1 T1 ltac:(simpl; lia) Hv2
    (λ h, gr_tables _ _ G1 [_; _] _ ltac:(simpl; lia) Hv2 (Hc2 h)) H2) as (Hwf2 & G2 & T2 & D2).
  apply K_bind_Done in H as (pt & s3 & H3 & H).
  pose proof (grows_trans _ _ _ G1 G2) as G12.
  destruct (cached_table_spec _ s2 _ _ _ _ _ _ Hwf2 T2 ltac:(simpl; lia) Hv3
    (λ h, gr_tables _ _ G12 [_; _; _] _ ltac:(simpl; lia) Hv3 (Hc3 h)) H3) as (Hwf3 & G3 & T3 & D3).
  assert (T2' : table s3 [pdpt_index (w_idx w); pml4_index (w_idx w)] = Some pd)
    by (apply (gr_tables _ _ G3); [simpl; lia|done|done]).
  assert (T1' : table s3 [pml4_index (w_idx w)] = Some pdpt)
    by (apply (gr_tables _ _ (grows_trans _ _ _ G2 G3)); [simpl; lia|done|done]).
  assert (T0' : pml4_physical s = pml4_physical s3).
  { symmetry. apply (gr_root _ _ (grows_trans _ _ _ G12 G3)). }
  apply K_bind_Done in H as (u1 & s4 & H4 & H). rewrite T0' in H4.
  destruct (or_entry_spec s3 (pml4_physical s3) _ [] _ u1 s4 Hwf3 eq_refl ltac:(simpl; lia) Hv1
    (table_present s3 [] _ _ _ eq_refl T1') flag_bits_higher H4) as (Hwf4 & G4 & S4 & D4).
  apply K_bind_Done in H as (u2 & s5 & H5 & H).
  pose proof (S4 [_] ltac:(simpl; lia) Hv1) as E1. rewrite T1' in E1.
  pose proof (S4 [_; _] ltac:(simpl; lia) Hv2) as E2. rewrite T2' in E2.
  destruct (or_entry_spec s4 pdpt _ [_] _ u2 s5 Hwf4 E1 ltac:(simpl; lia) Hv2
    (table_present s4 _ _ _ _ E1 E2) flag_bits_higher H5) as (Hwf5 & G5 & S5 & D5).
  apply K_bind_Done in H as (u3 & s6 & H6 & H).
  pose proof (S5 [_; _] ltac:(simpl; lia) Hv2) as E2'. rewrite E2 in E2'.
  pose proof (S5 [_; _; _] ltac:(simpl; lia) Hv3) as E3. rewrite S4, T3 in E3 by (done || simpl; lia).
  destruct (or_entry_spec s5 pd _ [_; _] _ u3 s6 Hwf5 E2' ltac:(simpl; lia) Hv3
    (table_present s5 _ _ _ _ E2' E3) flag_bits_higher H6) as (Hwf6 & G6 & S6 & D6).
  unfold mret, K_ret in H. simplify_eq. cbn [w_idx pml4_changed pdpt_changed pd_changed].
  split_and!; try done.
  - repeat (eapply grows_trans; [eassumption|]). apply grows_refl.
  - split; cbn [w_idx w_pdpt w_pd w_pt]; [done|intros _..].
    + rewrite S6, S5, S4; try done; simpl; lia.
    + rewrite S6, S5, S4; try done; simpl; lia.
    + rewrite S6, S5, S4; try done; simpl; lia.
  - repeat (eapply same_user_trans; [eassumption|]). apply same_user_refl.
Qed.

(** Counting up in base 512, the digits of a page number. *)
Lemma succ_digit x :
  (x mod 512 + 1 < 512 ∧ (x + 1) mod 512 = x mod 512 + 1 ∧ (x + 1) / 512 = x / 512) ∨
  (x mod 512 = 511 ∧ (x + 1) mod 512 = 0 ∧ (x + 1) / 512 = x / 512 + 1).
Proof. Z.div_mod_to_equations. lia. Qed.

Lemma digit_div n :
  n / 2 ^ 18 = n / 512 / 512 ∧ n / 2 ^ 27 = n / 512 / 512 / 512 ∧
  n / 2 ^ 36 = n / 512 / 512 / 512 / 512.
Proof. rewrite !Z.div_div by lia. done. Qed.

Lemma walk_advance_spec s n w :
  walk_inv s n w → pml4_changed w = false → pdpt_changed w = false →
  pd_changed w = false → (n + 1) / 2 ^ 36 = n / 2 ^ 36 →
  walk_inv s (n + 1) (walk_advance w).
Proof.
  intros [Hidx Hc1 Hc2 Hc3] B1 B2 B3 Hblk. unfold idx_path, ppath in Hidx.
  injection Hidx as I1 I2 I3 I4.
  destruct (digit_div n) as (D1 & D2 & D3). destruct (digit_div (n + 1)) as (D1' & D2' & D3').
  rewrite D3, D3' in Hblk. rewrite D1 in I3. rewrite D2 in I4.
  assert (R : ∀ k, 0 ≤ k mod 512 < 512) by (intros; apply Z.mod_pos_bound; lia).
  pose proof (R n). pose proof (R (n / 512)). pose proof (R (n / 512 / 512)).
  pose proof (R (n / 512 / 512 / 512)).
  unfold walk_advance. rewrite !u16_id by lia. rewrite I1, I2, I3, I4.
  assert (P : ∀ a b c d, ppath (n + 1) = [a; b; c; d] ↔
    a = (n + 1) mod 512 ∧ b = ((n + 1) / 512) mod 512 ∧
    c = ((n + 1) / 512 / 512) mod 512 ∧ d = ((n + 1) / 512 / 512 / 512) mod 512).
  { intros. unfold ppath. rewrite D1', D2'. naive_solver. }
  destruct (succ_digit n) as [(L0 & M0 & V0)|(L0 & M0 & V0)];
    [rewrite (proj2 (Z.ltb_lt _ _)) by lia|rewrite (proj2 (Z.ltb_ge _ _)) by lia;
     destruct (succ_digit (n / 512)) as [(L1 & M1 & V1)|(L1 & M1 & V1)];
     [rewrite (proj2 (Z.ltb_lt _ _)) by lia|rewrite (proj2 (Z.ltb_ge _ _)) by lia;
      destruct (succ_digit (n / 512 / 512)) as [(L2 & M2 & V2)|(L2 & M2 & V2)];
      [rewrite (proj2 (Z.ltb_lt _ _)) by lia|rewrite (proj2 (Z.ltb_ge _ _)) by lia;
       destruct (succ_digit (n / 512 / 512 / 512)) as [(L3 & M3 & V3)|(L3 & M3 & V3)]]]];
    try (exfalso; rewrite V0, V1, V2, V3 in Hblk; lia);
    (split; cbn [w_idx pml4_changed pdpt_changed pd_changed w_pdpt w_pd w_pt idx_path
       pml4_index pdpt_index pd_index pt_index];
     [symmetry; apply P; rewrite ?M0, ?V0, ?M1, ?V1, ?M2, ?V2, ?M3, ?V3; split_and!; first [reflexivity|simpl; lia]
     |try discriminate; rewrite <-?I1, <-?I2, <-?I3, <-?I4; assumption..]).
Qed.

(** ** The leaf *)

(** From [s] to [s'] exactly the pages [lo, hi) were mapped, each to a frame of
    its own that was free. *)
Record maps (s s' : paging) (lo hi : Z) : Prop := {
  mp_root : pml4_physical s' = pml4_physical s;
  mp_tables : ∀ q t, (length q ≤ 3)%nat → valid_path q →
    table s q = Some t → table s' q = Some t;
  mp_fresh : ∀ n, lo ≤ n < hi → ∃ pg, table s' (ppath n) = Some (pg * PAGE_SIZE) ∧
    free s pg ∧ bitmap s' !! pg = Some 1;
  mp_distinct : ∀ n m, lo ≤ n < hi → lo ≤ m < hi →
    table s' (ppath n) = table s' (ppath m) → n = m;
  mp_other : ∀ q, length q = 4%nat → valid_path q →
    (∀ n, lo ≤ n < hi → q ≠ ppath n) → table s' q = table s q;
  mp_used : ∀ pg n, bitmap s !! pg = Some n → n ≠ 0 → bitmap s' !! pg = Some n;
  mp_free : ∀ pg, free s' pg → free s pg;
}.

Lemma maps_nil s lo hi : hi ≤ lo → maps s s lo hi.
Proof. intros. split; try done; intros; lia. Qed.

Lemma grows_maps s1 s2 s3 lo hi : grows s1 s2 → maps s2 s3 lo hi → maps s1 s3 lo hi.
Proof.
  intros [R1 C1 T1 L1 U1 F1] [R2 T2 N2 D2 O2 U2 F2]. split; try done; auto; [congruence|..].
  - intros n Hn. destruct (N2 n Hn) as (pg & ? & ? & ?). eauto.
  - intros q Hq Hv Hne. by rewrite O2, L1.
Qed.

Lemma maps_app s1 s2 s3 lo mid hi :
  lo ≤ mid ≤ hi → lo / 2 ^ 36 = (hi - 1) / 2 ^ 36 →
  maps s1 s2 lo mid → maps s2 s3 mid hi → maps s1 s3 lo hi.
Proof.
  intros Hmid Hblk [R1 T1 N1 D1 O1 U1 F1] [R2 T2 N2 D2 O2 U2 F2].
  assert (Hinj : ∀ n m, lo ≤ n < hi → lo ≤ m < hi → ppath n = ppath m → n = m).
  { intros n m Hn Hm. apply ppath_inj. Z.div_mod_to_equations. lia. }
  assert (Hold : ∀ n, lo ≤ n < mid → table s3 (ppath n) = table s2 (ppath n)).
  { intros n Hn. apply O2; [done|apply ppath_valid|]. intros m Hm He.
    apply Hinj in He; lia. }
  (* a frame of the first part is used when the second part starts *)
  assert (Hcross : ∀ n m, lo ≤ n < mid → mid ≤ m < hi →
            table s3 (ppath n) ≠ table s3 (ppath m)).
  { intros n m Hn Hm He. destruct (N1 n Hn) as (pg & H1 & _ & Hc).
    destruct (N2 m Hm) as (pg' & H2 & Hf & _). rewrite Hold, H1, H2 in He by lia.
    assert (pg = pg') as -> by (unfold PAGE_SIZE in *; injection He; lia).
    unfold free in Hf. congruence. }
  split; auto; [congruence|..].
  - intros n Hn. destruct (decide (n < mid)).
    + destruct (N1 n) as (pg & ? & ? & ?); [lia|]. exists pg. rewrite Hold by lia.
      split_and!; try done. by apply (U2 _ 1).
    + destruct (N2 n) as (pg & ? & ? & ?); [lia|]. exists pg. auto.
  - intros n m Hn Hm He. destruct (decide (n < mid)), (decide (m < mid)).
    + apply D1; [lia..|]. by rewrite <-!Hold by lia.
    + destruct (Hcross n m); [lia..|done].
    + destruct (Hcross m n); [lia..|done].
    + apply D2; [lia..|done].
  - intros q Hq Hv Hne. rewrite O2, O1; auto; intros n Hn; apply Hne; lia.
Qed.

Lemma check_unmapped_Done pt i s u s' :
  check_unmapped pt i s = Done (u, s') → s' = s ∧ next_table s pt i = None.
Proof.
  unfold check_unmapped, next_table. intros H.
  apply K_bind_Done in H as (e & s1 & He & H). unfold kgets in He. simplify_eq.
  destruct (has _ _); [discriminate H|]. unfold mret, K_ret in H. by simplify_eq.
Qed.

Lemma alloc_leaf_spec s n flags va pt i p u s' :
  paging_wf s → ppath n = i :: p → table s p = Some pt → flag_bits flags →
  alloc_leaf flags va pt i s = Done (u, s') →
  paging_wf s' ∧ maps s s' n (n + 1).
Proof.
  intros [Hs Hwf] Hpath Hpt Hflags H.
  pose proof (keeps_alloc_leaf flags va pt i s u s' Hs H) as Hs'.
  unfold alloc_leaf in H. apply K_bind_Done in H as (u1 & s1 & Hc & H).
  apply check_unmapped_Done in Hc as [-> Hun].
  apply K_bind_Done in H as (a & s1 & Ha & H).
  destruct (get_available_Done s a s1 Hs Ha) as (pg & -> & Hpg & -> & Hf & _).
  apply K_bind_Done in H as (u2 & s1 & Hm & H). unfold kmodify in Hm. injection Hm as _ <-.
  apply inc_count_Done in H as (c & Hc & ->). rewrite page_div in *. cbn [bitmap set_entry
    set_pm set_first_usable] in Hc. unfold free in Hf. rewrite Hf in Hc. injection Hc as <-.
  change (u32 (0 + 1)) with 1 in *.
  set (v := Z.lor _ FLAGS_PRESENT) in *. set (s2 := set_entry pt i v _) in *.
  set (s' := set_bitmap _ s2) in *.
  assert (Hlen : length p = 3%nat) by (apply (f_equal length) in Hpath; injection Hpath; lia).
  pose proof (ppath_valid n) as Hv. rewrite Hpath in Hv.
  assert (Hwf1 : tree_wf (set_first_usable (pg + 1) s))
    by (apply (tree_wf_same s); [intros; by apply table_ext|done|done]).
  assert (Hpt1 : table (set_first_usable (pg + 1) s) p = Some pt)
    by (rewrite <-Hpt; by apply table_ext).
  destruct Hs as [Hcw _]. pose proof (cw_count _ Hcw) as Hcount.
  assert (Hat : table s' (i :: p) = Some (pg * PAGE_SIZE)).
  { rewrite (table_ext s' s2) by done. unfold s2.
    rewrite table_set_entry_at by (done || lia).
    unfold v. rewrite has_present_bit, Z.lor_spec, orb_true_r.
    rewrite !pta_lor, pta_page, Hflags by lia. by rewrite !Z.lor_0_r. }
  assert (Hother : ∀ q, (length q ≤ 4)%nat → valid_path q → q ≠ i :: p →
            table s' q = table s q).
  { intros q Hq Hvq Hne. rewrite (table_ext s' s2) by done. unfold s2.
    rewrite (table_set_entry_other _ p pt); [by apply table_ext|done|done|lia|done..|].
    intros [[|j r] ->]; [done|]. rewrite length_app in Hq. cbn [length] in Hq. lia. }
  assert (Hsmall : ∀ q, (length q ≤ 3)%nat → q ≠ i :: p)
    by (intros q Hq ->; cbn [length] in Hq; lia).
  split; [split; [done|]|].
  - assert (Huse : ∀ k, used s k → used s' k)
      by (intros k Hk; apply (used_put_pos s2); [lia|exact Hk]).
    split.
    + intros q1 q2 t H1 H2 V1 V2. rewrite !Hother by (auto || lia).
      by apply (tw_inj _ Hwf).
    + intros q t H1 V1. rewrite Hother by (auto || lia). intros Ht.
      destruct (tw_page _ Hwf q t H1 V1 Ht). auto.
  - split; [done|..].
    + intros q t Hq Hvq Ht. by rewrite Hother by (auto || lia).
    + intros m Hm. assert (m = n) as -> by lia. exists pg. rewrite Hpath, Hat.
      split_and!; try done. apply lookup_insert_eq.
    + intros; lia.
    + intros q Hq Hvq Hne. apply Hother; [lia|done|]. rewrite <-Hpath. apply Hne. lia.
    + intros k m Hk Hm. cbn. rewrite lookup_insert_ne; [done|]. intros ->. congruence.
    + intros k Hk. unfold free in Hk; cbn in Hk.
      apply lookup_insert_Some in Hk as [[_ ?]|[_ ?]]; [lia|done].
Qed.

(** ** The loop *)

Lemma region_loop_spec fuel flags i stop w s u s' :
  paging_wf s → flag_bits flags → walk_inv s (i / PAGE_SIZE) w →
  0 ≤ i → stop mod PAGE_SIZE = 0 → stop + PAGE_SIZE ≤ 2 ^ 64 →
  i / PAGE_SIZE / 2 ^ 36 = stop / PAGE_SIZE / 2 ^ 36 →
  region_loop fuel (alloc_leaf flags) i stop w s = Done (u, s') →
  paging_wf s' ∧ maps s s' (i / PAGE_SIZE) (stop / PAGE_SIZE).
Proof.
  intros Hwf Hfl Hw Hi Hal Hstop Hblk. revert i w s Hwf Hw Hi Hblk.
  induction fuel as [|fuel IH]; intros i w s Hwf Hw Hi Hblk H; cbn [region_loop] in H;
    (destruct (Z.ltb_spec i stop); cbn [negb] in H;
     [|unfold mret, K_ret in H; injection H as _ <-; split; [done|];
       apply maps_nil, Z.div_le_mono; [done|lia]]); [discriminate H|].
  assert (Hpages : i / PAGE_SIZE < stop / PAGE_SIZE)
    by (unfold PAGE_SIZE in *; Z.div_mod_to_equations; lia).
  assert (Hnext : (i + PAGE_SIZE) / PAGE_SIZE = i / PAGE_SIZE + 1)
    by (unfold PAGE_SIZE; Z.div_mod_to_equations; lia).
  assert (Hblk1 : (i / PAGE_SIZE + 1) / 2 ^ 36 = i / PAGE_SIZE / 2 ^ 36)
    by (clear -Hblk Hpages; Z.div_mod_to_equations; lia).
  apply K_bind_Done in H as (w' & s1 & Hwalk & H).
  destruct (walk_tables_spec _ _ _ _ _ Hwf Hw Hwalk) as (Hwf1 & G1 & Hw1 & Eidx & B1 & B2 & B3 & _).
  apply K_bind_Done in H as (u1 & s2 & Hleaf & H).
  destruct (alloc_leaf_spec s1 (i / PAGE_SIZE) _ _ _ _ _ _ _ Hwf1
    (eq_sym (wi_idx _ _ _ Hw1)) (wi_pt _ _ _ Hw1 B3) Hfl Hleaf) as (Hwf2 & M1).
  rewrite u64_id in H by (unfold PAGE_SIZE in *; lia).
  assert (Hw2 : walk_inv s2 ((i + PAGE_SIZE) / PAGE_SIZE) (walk_advance w')).
  { rewrite Hnext. apply walk_advance_spec; try done.
    pose proof (ppath_valid (i / PAGE_SIZE)) as Hv. rewrite <-(wi_idx _ _ _ Hw1) in Hv.
    do 3 (apply Forall_cons in Hv as [? Hv]; pose proof Hv).
    split; [apply (wi_idx _ _ _ Hw1)|..]; intros _;
      (apply (mp_tables _ _ _ _ M1); [simpl; lia|done|]);
      [apply (wi_pdpt _ _ _ Hw1 B1)|apply (wi_pd _ _ _ Hw1 B2)|apply (wi_pt _ _ _ Hw1 B3)]. }
  destruct (IH _ _ _ Hwf2 Hw2 ltac:(unfold PAGE_SIZE; lia) ltac:(rewrite Hnext; lia) H)
    as (Hwf3 & M2).
  split; [done|]. rewrite Hnext in M2. eapply grows_maps; [exact G1|].
  eapply maps_app; [..|exact M1|exact M2]; [lia|].
  clear -Hblk Hpages. Z.div_mod_to_equations. lia.
Qed.

Lemma walk_inv_start s va :
  walk_inv s (va / PAGE_SIZE) (mk_walk (get_page_entry va) true true true 0 0 0).
Proof. split; [|done..]. apply (path_of_page va). Qed.

(** ** It completes or panics *)

Lemma safe_get_available s : alloc_inv s → safe get_available_address s.
Proof.
  intros [Hcw _]. pose proof (cw_first _ Hcw) as Hf.
  unfold get_available_address. apply safe_bind; [done|]. unfold kget.
  intros s0 s' [= <- <-].
  destruct (find_available_total (Z.to_nat (usable_page_count s - first_usable s))
    (first_usable s) s) as [(a & s' & H)|[H _]].
  - intros j Hj. apply (cw_dom _ Hcw). lia.
  - by eapply safe_Done.
  - unfold safe. by rewrite H.
Qed.

Lemma safe_inc_count s p : is_Some (bitmap s !! p) → safe (inc_count p) s.
Proof.
  intros [n Hn]. refine (safe_Done _ _ tt _ _). apply inc_count_Done. by exists n.
Qed.

Lemma safe_take_page s : alloc_inv s → safe allocate_physical_page s.
Proof.
  intros Hs. apply safe_bind; [by apply safe_get_available|]. intros a s1 Ha.
  destruct (get_available_Done s a s1 Hs Ha) as (pg & -> & _ & -> & Hf & _).
  apply safe_bind; [|done]. apply safe_inc_count. rewrite page_div. simpl. by rewrite Hf.
Qed.

Lemma safe_ensure_table s t i : alloc_inv s → safe (ensure_table t i) s.
Proof.
  intros Hs. unfold ensure_table. apply safe_bind; [done|]. intros e s1 H1.
  unfold kgets in H1. injection H1 as <- <-. apply safe_bind; [|done].
  destruct (has _ _); [done|]. apply safe_bind; [by apply safe_take_page|].
  intros a s1 _. apply safe_bind; [by destruct (_ =? _)|done].
Qed.

Lemma safe_walk_tables s w : alloc_inv s → safe (walk_tables w) s.
Proof.
  assert (Hc : ∀ (b : bool) t i c s, alloc_inv s →
    safe (if b then ensure_table t i else mret c) s ∧
    ∀ x s', (if b then ensure_table t i else mret c) s = Done (x, s') → alloc_inv s').
  { intros b t i c s0 H0. split; [destruct b; [by apply safe_ensure_table|done]|].
    intros x s' H. refine ((_ : keeps alloc_inv _) s0 x s' H0 H). keeps_tac. }
  intros Hs. unfold walk_tables. apply safe_bind; [done|]. unfold kget.
  intros s0 s0' [= <- <-].
  apply safe_bind; [by apply Hc|]. intros pdpt s1 H1. apply Hc in H1; [|done].
  apply safe_bind; [by apply Hc|]. intros pd s2 H2. apply Hc in H2; [|done].
  apply safe_bind; [by apply Hc|]. intros pt s3 H3. done.
Qed.

Lemma safe_alloc_leaf s flags va pt i : alloc_inv s → safe (alloc_leaf flags va pt i) s.
Proof.
  intros Hs. unfold alloc_leaf. apply safe_bind.
  { unfold check_unmapped. apply safe_bind; [done|]. intros e s1 _. by destruct (has _ _). }
  intros u s1 H1. apply check_unmapped_Done in H1 as [-> _].
  apply safe_bind; [by apply safe_get_available|]. intros a s2 Ha.
  destruct (get_available_Done s a s2 Hs Ha) as (pg & -> & _ & -> & Hf & _).
  apply safe_bind; [done|]. unfold kmodify. intros u1 s3 [= _ <-].
  apply safe_inc_count. rewrite page_div. simpl. by rewrite Hf.
Qed.

Lemma safe_region_loop fuel flags i stop w s :
  alloc_inv s → 0 ≤ i → stop + PAGE_SIZE ≤ 2 ^ 64 →
  stop - i < PAGE_SIZE * Z.of_nat fuel →
  safe (region_loop fuel (alloc_leaf flags) i stop w) s.
Proof.
  intros Hs Hi Hstop. revert i w s Hs Hi.
  induction fuel as [|fuel IH]; intros i w s Hs Hi Hf; cbn [region_loop];
    (destruct (Z.ltb_spec i stop); cbn [negb]; [|done]); [unfold PAGE_SIZE in *; lia|].
  apply safe_bind; [by apply safe_walk_tables|]. intros w' s1 H1.
  apply keeps_walk_tables in H1; [|done].
  apply safe_bind; [by apply safe_alloc_leaf|]. intros u s2 H2.
  apply keeps_alloc_leaf in H2; [|done].
  rewrite u64_id by (unfold PAGE_SIZE in *; lia).
  apply IH; [done|unfold PAGE_SIZE in *; lia..].
Qed.

(** ** The theorem *)

Lemma page_mask_land x : Z.land x PAGE_MASK = x / PAGE_SIZE * PAGE_SIZE.
Proof.
  unfold PAGE_MASK. change (PAGE_SIZE - 1) with (Z.ones 12).
  rewrite <-Z.ldiff_land, Z.ldiff_ones_r, Z.shiftl_mul_pow2, Z.shiftr_div_pow2 by lia.
  done.
Qed.

Lemma page_align_spec x :
  0 < x → x + PAGE_SIZE ≤ 2 ^ 64 →
  PAGE_ALIGN x = ((x - 1) / PAGE_SIZE + 1) * PAGE_SIZE.
Proof.
  intros. unfold PAGE_ALIGN. rewrite u64_id by (unfold PAGE_SIZE in *; lia).
  rewrite page_mask_land. unfold PAGE_SIZE. Z.div_mod_to_equations. lia.
Qed.

Lemma ppath_outside vaddr va lo hi :
  va / 2 ^ 48 = vaddr / 2 ^ 48 → lo = vaddr / PAGE_SIZE →
  (hi - 1) / 2 ^ 36 = lo / 2 ^ 36 → ¬ (lo ≤ va / PAGE_SIZE < hi) →
  ∀ n, lo ≤ n < hi → path_of va ≠ ppath n.
Proof.
  intros Hva -> Hhi Hout n Hn He. apply Hout. rewrite path_of_page in He.
  assert (E : ∀ x, x / PAGE_SIZE / 2 ^ 36 = x / 2 ^ 48).
  { intros x. unfold PAGE_SIZE. rewrite Z.div_div by lia. done. }
  apply ppath_inj in He; [lia|]. rewrite E, Hva, <-E.
  pose proof (Z.div_le_mono (vaddr / PAGE_SIZE) n (2 ^ 36)).
  pose proof (Z.div_le_mono n (hi - 1) (2 ^ 36)). lia.
Qed.

(** C5: alloc_region maps exactly the pages of [vaddr, vaddr+size).  Inside one
    2^48-byte block of addresses, and for flags that stay out of the address
    bits, it never reads outside its tables and never loops forever: it panics
    (no page left, or a page of the range already mapped) or completes.  When it
    completes every address of those pages translates to a frame that was free
    before and is now counted once, two different pages get different frames,
    every other address of the block translates as before, the count of every
    page that was in use is unchanged, and the page tables are well formed
    again. *)
Theorem alloc_region_maps s vaddr size flags :
  paging_wf s → flag_bits flags → 0 ≤ vaddr → 0 < size →
  vaddr + size + PAGE_SIZE ≤ (vaddr / 2 ^ 48 + 1) * 2 ^ 48 ≤ 2 ^ 64 →
  let mapped va := vaddr / PAGE_SIZE ≤ va / PAGE_SIZE ≤ (vaddr + size - 1) / PAGE_SIZE in
  alloc_region vaddr size flags s = Panic ∨
  ∃ s', alloc_region vaddr size flags s = Done (vaddr, s') ∧ paging_wf s' ∧
    (∀ va, mapped va → ∃ pg, translate s' va = Some (pg * PAGE_SIZE) ∧
       free s pg ∧ bitmap s' !! pg = Some 1) ∧
    (∀ va va', mapped va → mapped va' → translate s' va = translate s' va' →
       va / PAGE_SIZE = va' / PAGE_SIZE) ∧
    (∀ va, va / 2 ^ 48 = vaddr / 2 ^ 48 → ¬ mapped va →
       translate s' va = translate s va) ∧
    (∀ pg n, bitmap s !! pg = Some n → n ≠ 0 → bitmap s' !! pg = Some n).
Proof.
  intros Hwf Hfl Hv Hsz Hblk mapped.
  assert (Hstop : PAGE_ALIGN (u64 (vaddr + size)) =
    ((vaddr + size - 1) / PAGE_SIZE + 1) * PAGE_SIZE).
  { rewrite u64_id by (unfold PAGE_SIZE in *; lia).
    apply page_align_spec; unfold PAGE_SIZE in *; lia. }
  unfold alloc_region, map_region. rewrite Hstop.
  set (hi := (vaddr + size - 1) / PAGE_SIZE + 1) in *.
  assert (Hhi : hi * PAGE_SIZE + PAGE_SIZE ≤ 2 ^ 64 ∧
      vaddr / PAGE_SIZE / 2 ^ 36 = hi / 2 ^ 36 ∧
      (hi - 1) / 2 ^ 36 = vaddr / PAGE_SIZE / 2 ^ 36 ∧
      hi * PAGE_SIZE - vaddr < PAGE_SIZE * ((hi * PAGE_SIZE - vaddr) / PAGE_SIZE + 1) ∧
      0 ≤ (hi * PAGE_SIZE - vaddr) / PAGE_SIZE + 1).
  { unfold hi, PAGE_SIZE in *. clear -Hblk Hv Hsz. Z.div_mod_to_equations. lia. }
  destruct Hhi as (Hh1 & Hh2 & Hh3 & Hh4 & Hh5).
  assert (Hsafe : safe (region_loop (region_fuel vaddr (hi * PAGE_SIZE)) (alloc_leaf flags)
      vaddr (hi * PAGE_SIZE) (mk_walk (get_page_entry vaddr) true true true 0 0 0)) s).
  { apply safe_region_loop; try done; [apply Hwf|]. unfold region_fuel.
    rewrite Z2Nat.id by exact Hh5. exact Hh4. }
  unfold mbind, K_bind. destruct (safe_cases _ _ Hsafe) as [(u & s' & H)|H]; rewrite H;
    [right|by left].
  exists s'. split; [done|].
  destruct (region_loop_spec _ _ _ _ _ _ _ _ Hwf Hfl (walk_inv_start s vaddr) Hv
    (page_mod hi) Hh1 ltac:(rewrite page_div; exact Hh2) H) as (Hwf' & M).
  rewrite page_div in M. destruct M as [_ _ N D O U _].
  split; [done|]. setoid_rewrite translate_table. setoid_rewrite path_of_page.
  split_and!.
  - intros va Hva. apply N. unfold mapped in Hva. lia.
  - intros va va' Hva Hva'. apply D; unfold mapped in *; lia.
  - intros va Hva Hout. apply O; [done|apply ppath_valid|]. rewrite <-path_of_page.
    eapply ppath_outside; [exact Hva|done|exact Hh3|]. unfold mapped in Hout. lia.
  - exact U.
Qed.

Lemma boot_state_table n k p : p ≠ [] → table (boot_state n k) p = None.
Proof.
  induction p as [|i p IH]; [done|]. intros _. simpl. destruct p as [|j p]; [done|].
  by rewrite IH.
Qed.

Lemma boot_state_wf n k : 2 ≤ k ≤ n → n ≤ 2 ^ 40 → paging_wf (boot_state n k).
Proof.
  intros Hk Hn. split; [apply boot_state_inv; lia|]. split.
  - intros [|i p] [|j q] t _ _ _ _; [done|..];
      repeat match goal with
      | |- context [table _ (?a :: ?l)] => rewrite (boot_state_table n k (a :: l)) by done
      end; done.
  - intros [|i p] t _ _; rewrite ?boot_state_table by done; [|done]. simpl.
    intros [= <-]. split; [done|]. exists 1. rewrite boot_state_lookup.
    change (4096 / PAGE_SIZE) with 1.
    by rewrite (proj2 (Z.ltb_lt 1 k)), (proj2 (Z.ltb_lt 1 n)) by lia.
Qed.

Lemma alloc_region_maps_witness :
  ∃ s', alloc_region 0x1FF800 8192 FLAGS_RW (boot_state 16 2) = Done (0x1FF800, s') ∧
    ∃ pg, translate s' 0x200000 = Some (pg * PAGE_SIZE) ∧ bitmap s' !! pg = Some 1.
Proof.
  destruct (completes_Done (alloc_region 0x1FF800 8192 FLAGS_RW (boot_state 16 2)))
    as [r Hr]; [vm_compute; reflexivity|].
  destruct (alloc_region_maps (boot_state 16 2) 0x1FF800 8192 FLAGS_RW) as [H|(s' & H & _ & N & _)].
  - apply boot_state_wf; lia.
  - reflexivity.
  - lia.
  - lia.
  - unfold PAGE_SIZE. vm_compute. split; discriminate.
  - exfalso. rewrite H in Hr; discriminate Hr.
  - exists s'. split; [exact H|].
    destruct (N 0x200000) as (pg & H1 & _ & H2); [vm_compute; split; discriminate|].
    exists pg. split; [exact H1|exact H2].
Defined.
