(* ===== verification/PagingCow.v ===== *)
(** * Copy on write

    [cow_handler] gives the faulting page a frame of its own: the proof follows
    its words through the page copy and the rewritten entry. *)

From S2P Require Import Prelude Paging PagingAlloc PagingTree PagingMap.

(** ** Copying a page *)

Lemma copy_words_lookup n dst src m k :
  dst + Z.of_nat n ≤ src ∨ src + Z.of_nat n ≤ dst →
  copy_words n dst src m !! k =
    if (dst <=? k) && (k <? dst + Z.of_nat n) then Some (word m (src + (k - dst)))
    else m !! k.
Proof.
  revert dst src m. induction n as [|n IH]; intros dst src m Hd;
    unfold copy_words; fold copy_words.
  - destruct (Z.leb_spec dst k), (Z.ltb_spec k (dst + Z.of_nat 0)); simpl; done || lia.
  - rewrite IH by lia.
    destruct (Z.leb_spec (dst + 1) k), (Z.ltb_spec k (dst + 1 + Z.of_nat n)),
      (Z.leb_spec dst k), (Z.ltb_spec k (dst + Z.of_nat (S n))); cbn [andb]; try lia; try done.
    + unfold word. rewrite lookup_insert_ne by lia. do 3 f_equal. lia.
    + by rewrite lookup_insert_ne by lia.
    + assert (k = dst) as -> by lia. rewrite lookup_insert_eq. do 2 f_equal. lia.
    + by rewrite lookup_insert_ne by lia.
Qed.

Lemma aligned_apart a b :
  a mod PAGE_SIZE = 0 → b mod PAGE_SIZE = 0 → a ≠ b → a / 8 + 512 ≤ b / 8 ∨ b / 8 + 512 ≤ a / 8.
Proof. unfold PAGE_SIZE. intros. Z.div_mod_to_equations. lia. Qed.

Lemma entry_copy_page dst src s t i :
  dst mod PAGE_SIZE = 0 → src mod PAGE_SIZE = 0 → t mod PAGE_SIZE = 0 → dst ≠ src →
  0 ≤ i < 512 →
  entry (copy_page dst src s) t i = if decide (t = dst) then entry s src i else entry s t i.
Proof.
  intros Hd Hs Ht Hne Hi. unfold entry, copy_page; cbn [set_pm pm].
  unfold word at 1. rewrite copy_words_lookup
    by (destruct (aligned_apart dst src Hd Hs Hne); lia).
  case_decide as Heq.
  - subst t. rewrite (proj2 (Z.leb_le _ _)), (proj2 (Z.ltb_lt _ _)) by lia.
    simpl. f_equal. lia.
  - destruct (aligned_apart t dst Ht Hd Heq);
      [rewrite (proj2 (Z.leb_gt _ _)) by lia|rewrite (proj2 (Z.ltb_ge _ (_ + _))), andb_false_r by lia];
      done.
Qed.

(** Writing inside a page that is no table changes no table. *)
Lemma table_page_write s s' a q :
  tree_wf s → not_a_table s a → pml4_physical s' = pml4_physical s →
  (∀ t i, t mod PAGE_SIZE = 0 → t ≠ a → 0 ≤ i < 512 → entry s' t i = entry s t i) →
  (length q ≤ 4)%nat → valid_path q → table s' q = table s q.
Proof.
  intros Hwf Hna Hroot He. induction q as [|j q IH]; [by simpl; rewrite Hroot|]. intros Hq Hv. simpl.
  apply Forall_cons in Hv as [Hj Hv]. simpl in Hq. rewrite IH by (done || lia).
  destruct (table s q) as [t|] eqn:Ht; [|done].
  destruct (tw_page _ Hwf q t) as [Hal Hu]; [lia|done|done|].
  unfold next_table. rewrite He; try done. apply (Hna q); done || lia.
Qed.

(** ** The entry of a page *)

Definition pt_path (va : Z) : list Z :=
  let e := get_page_entry va in [pd_index e; pdpt_index e; pml4_index e].
(** The page table of [va] and its entry for it. *)
Definition pte_of (s : paging) (va : Z) : option (Z * Z) :=
  pt ← table s (pt_path va); Some (pt, entry s pt (pt_index (get_page_entry va))).

Lemma pt_path_valid va : valid_path (pt_path va).
Proof. pose proof (valid_path_of va) as H. by apply Forall_cons in H as [_ H]. Qed.
Lemma pt_index_range va : 0 ≤ pt_index (get_page_entry va) < 512.
Proof. apply index_range. Qed.

Lemma pte_of_table s va pt e :
  pte_of s va = Some (pt, e) →
  table s (pt_path va) = Some pt ∧ e = entry s pt (pt_index (get_page_entry va)).
Proof. unfold pte_of. destruct (table s (pt_path va)); simpl; naive_solver. Qed.

Lemma translate_pte s va :
  translate s va = match pte_of s va with
    | Some (_, e) => if has e FLAGS_PRESENT then Some (page_table_to_address e) else None
    | None => None end.
Proof.
  rewrite translate_table. unfold pte_of.
  change (table s (path_of va)) with
    (match table s (pt_path va) with
     | Some t => next_table s t (pt_index (get_page_entry va)) | None => None end).
  by destruct (table s (pt_path va)).
Qed.

(** The walk of the handler, as one read. *)
Lemma cow_handler_unfold va s :
  cow_handler va s =
  match pte_of s va with
  | None => Done (0, s)
  | Some (pt, pte) =>
    if negb (has pte FLAGS_PRESENT) then Done (0, s)
    else if negb (has pte FLAGS_COW) then Done (0, s)
    else
      (let i := pt_index (get_page_entry va) in
       let phys := page_table_to_address pte in
       n ← get_count (phys / PAGE_SIZE);
       (if 1 <? n then
          new_phys ← get_available_address;
          n ← get_count (phys / PAGE_SIZE);
          put_count (phys / PAGE_SIZE) (u32 (n - 1));;
          put_count (new_phys / PAGE_SIZE) 1;;
          kmodify (copy_page new_phys phys);;
          e1 ← kgets (λ s, entry s pt i);
          kmodify (set_entry pt i
            (Z.lor (Z.lor (Z.land new_phys PAGE_MASK)
               (Z.land (Z.land e1 (Z.lnot FLAGS_COW)) FLAGS_MASK)) FLAGS_RW))
        else
          kmodify (λ s, set_entry pt i (Z.land (entry s pt i) (Z.lnot FLAGS_COW)) s);;
          or_entry pt i FLAGS_RW);;
       mret 1) s
  end.
Proof.
  unfold cow_handler, pte_of, pt_path. simpl. unfold kget. unfold mbind at 1, K_bind at 1.
  repeat (destruct (next_table s _ _); [|done]). simpl.
  destruct (has _ FLAGS_PRESENT); [|done]. by destruct (has _ FLAGS_COW).
Qed.

Definition old_flags (e : Z) : Z :=
  Z.lor (Z.land (Z.land e (Z.lnot FLAGS_COW)) FLAGS_MASK) FLAGS_RW.

(** What the handler promises about the page of [va]; [pg] is its frame after. *)
Record cow_done (s s' : paging) (va e pg : Z) : Prop := {
  cd_wf : paging_wf s';
  cd_root : pml4_physical s' = pml4_physical s;
  cd_pte : ∃ pt e', pte_of s' va = Some (pt, e') ∧ page_table_to_address e' = pg * PAGE_SIZE ∧
    (∀ k, 0 ≤ k → Z.testbit FLAGS_MASK k = true → k ≠ 1 → k ≠ 9 →
       Z.testbit e' k = Z.testbit e k) ∧
    has e' FLAGS_RW = true ∧ has e' FLAGS_COW = false;
  cd_content : not_a_table s (page_table_to_address e) → ∀ w, 0 ≤ w < 512 →
    entry s' (pg * PAGE_SIZE) w = entry s (page_table_to_address e) w;
  cd_others : ∀ va', path_of va' ≠ path_of va → translate s' va' = translate s va';
  cd_entries : ∀ q t j, (length q ≤ 3)%nat → valid_path (j :: q) → table s q = Some t →
    j :: q ≠ path_of va → entry s' t j = entry s t j ∧ table s' q = Some t;
  cd_tables : ∀ q, (length q ≤ 3)%nat → valid_path q → table s' q = table s q;
  cd_data : same_data s s';
}.

Lemma testbit_lnot_pow2 e b k :
  0 ≤ k → 0 ≤ b → Z.testbit (Z.land e (Z.lnot (2 ^ b))) k = Z.testbit e k && negb (k =? b).
Proof.
  intros. rewrite Z.land_spec, Z.lnot_spec by lia. f_equal. f_equal.
  rewrite Z.pow2_bits_eqb by lia. destruct (Z.eqb_spec b k), (Z.eqb_spec k b); lia.
Qed.

(** The entry either branch writes: RW for COW, everything else as it was. *)
Lemma cow_entry_bits a f e :
  (∀ k, 0 ≤ k → Z.testbit FLAGS_MASK k = true → Z.testbit a k = false) →
  f = Z.land (Z.land e (Z.lnot FLAGS_COW)) FLAGS_MASK →
  let e' := Z.lor (Z.lor a f) FLAGS_RW in
  (∀ k, 0 ≤ k → Z.testbit FLAGS_MASK k = true → k ≠ 1 → k ≠ 9 →
     Z.testbit e' k = Z.testbit e k) ∧
  has e' FLAGS_RW = true ∧ has e' FLAGS_COW = false ∧
  page_table_to_address e' = page_table_to_address a.
Proof.
  intros Ha -> e'.
  assert (Hb : ∀ k, 0 ≤ k → Z.testbit e' k =
    Z.testbit a k || (Z.testbit e k && negb (k =? 9)) && Z.testbit FLAGS_MASK k || (k =? 1)).
  { intros k Hk. unfold e'. rewrite !Z.lor_spec, (Z.land_spec _ FLAGS_MASK).
    rewrite (testbit_lnot_pow2 e 9) by lia. f_equal.
    change FLAGS_RW with (2 ^ 1). rewrite Z.pow2_bits_eqb by lia.
    destruct (Z.eqb_spec 1 k), (Z.eqb_spec k 1); lia. }
  split_and!.
  - intros k Hk Hm H1 H9. rewrite Hb, Hm, Ha by done.
    rewrite (proj2 (Z.eqb_neq k 1)), (proj2 (Z.eqb_neq k 9)) by done.
    simpl. by rewrite !andb_true_r, orb_false_r.
  - rewrite has_rw_bit, Hb by lia. apply orb_true_r.
  - rewrite has_cow_bit, Hb, (Ha 9) by (lia || done). simpl. by rewrite !andb_false_r.
  - unfold page_table_to_address. apply Z.bits_inj'. intros k Hk.
    rewrite !Z.land_spec, Z.lnot_spec, Hb by lia.
    destruct (Z.testbit FLAGS_MASK k) eqn:Hm; [by rewrite !andb_false_r|].
    destruct (Z.eqb_spec k 1) as [->|]; [discriminate Hm|].
    by rewrite !andb_false_r, !orb_false_r.
Qed.

(** Rewriting the leaf entry of [va] leaves every other path alone. *)
Lemma leaf_write s va pt v :
  tree_wf s → table s (pt_path va) = Some pt →
  let s' := set_entry pt (pt_index (get_page_entry va)) v s in
  tree_wf s' ∧ pte_of s' va = Some (pt, v) ∧
  (∀ q, (length q ≤ 4)%nat → valid_path q → q ≠ path_of va → table s' q = table s q) ∧
  (∀ q t j, (length q ≤ 3)%nat → valid_path (j :: q) → table s q = Some t →
    j :: q ≠ path_of va → entry s' t j = entry s t j ∧ table s' q = Some t).
Proof.
  intros Hwf Hpt s'.
  assert (Ho : ∀ q, (length q ≤ 4)%nat → valid_path q → q ≠ path_of va →
      table s' q = table s q).
  { intros q Hq Hv Hne. apply (table_set_entry_other s (pt_path va) pt);
      [done|done|simpl; lia|apply valid_path_of|done|done|].
    intros [[|j r] ->]; [by apply Hne|]. rewrite length_app in Hq. simpl in Hq. lia. }
  assert (Hs : ∀ q, (length q ≤ 3)%nat → valid_path q → table s' q = table s q).
  { intros q Hq Hv. apply Ho; [lia|done|]. intros ->. simpl in Hq. lia. }
  split_and!; [|unfold pte_of|exact Ho|].
  - split.
    + intros p q t Hp Hq Hvp Hvq. rewrite !Hs by done. by apply (tw_inj _ Hwf).
    + intros p t Hp Hv. rewrite Hs by done. apply (tw_page _ Hwf p t Hp Hv).
  - rewrite Hs, Hpt by (apply pt_path_valid || (simpl; lia)). simpl.
    unfold s'. by rewrite entry_set_eq.
  - intros q t j Hq Hv Hqt Hne. pose proof Hv as Hv'. apply Forall_cons in Hv' as [Hj Hvq].
    split; [|by rewrite Hs]. 
    destruct (tw_page _ Hwf q t Hq Hvq Hqt) as [Hal _].
    destruct (tw_page _ Hwf (pt_path va) pt ltac:(simpl; lia) (pt_path_valid va) Hpt) as [Hal' _].
    apply entry_set_ne; [exact Hal'|exact Hal|apply pt_index_range|exact Hj|].
    intros [= <- <-]. apply Hne.
    rewrite (tw_inj _ Hwf q (pt_path va) pt Hq ltac:(simpl; lia) Hvq (pt_path_valid va) Hqt Hpt).
    done.
Qed.

Lemma pta_flagless a k :
  page_table_to_address a = a → 0 ≤ k → Z.testbit FLAGS_MASK k = true → Z.testbit a k = false.
Proof.
  intros <- Hk Hm. unfold page_table_to_address. rewrite Z.land_spec, Z.lnot_spec, Hm by lia.
  apply andb_false_r.
Qed.

Lemma page_mask_page n : Z.land (n * PAGE_SIZE) PAGE_MASK = n * PAGE_SIZE.
Proof. rewrite page_mask_land, page_div. done. Qed.

Lemma pta_split e :
  Z.land e (Z.lnot FLAGS_COW) =
  Z.lor (page_table_to_address e) (Z.land (Z.land e (Z.lnot FLAGS_COW)) FLAGS_MASK).
Proof.
  apply Z.bits_inj'. intros k Hk.
  rewrite Z.lor_spec, (Z.land_spec _ FLAGS_MASK), (testbit_lnot_pow2 e 9) by lia.
  unfold page_table_to_address. rewrite Z.land_spec, Z.lnot_spec by lia.
  destruct (Z.testbit FLAGS_MASK k) eqn:Hm; simpl.
  - by rewrite andb_false_r, andb_true_r.
  - rewrite andb_true_r, andb_false_r, orb_false_r.
    destruct (Z.eqb_spec k 9) as [->|]; [discriminate Hm|apply andb_true_r].
Qed.

Lemma pta_idem e : page_table_to_address (page_table_to_address e) = page_table_to_address e.
Proof. unfold page_table_to_address. rewrite <-Z.land_assoc. f_equal. Qed.

Lemma pta_frame e : page_table_to_address e / PAGE_SIZE * PAGE_SIZE = page_table_to_address e.
Proof.
  pose proof (pta_aligned e) as H. unfold PAGE_SIZE in *. Z.div_mod_to_equations. lia.
Qed.

(** The frame has this one user: the entry is made writable in place. *)
Lemma cow_sole_spec s va pt e :
  paging_wf s → pte_of s va = Some (pt, e) →
  let i := pt_index (get_page_entry va) in
  let s' := set_entry pt i (Z.lor (Z.land e (Z.lnot FLAGS_COW)) FLAGS_RW) s in
  cow_done s s' va e (page_table_to_address e / PAGE_SIZE) ∧ bitmap s' = bitmap s.
Proof.
  intros [Hs Hwf] Hpte i s'. destruct (pte_of_table _ _ _ _ Hpte) as [Hpt He].
  destruct (leaf_write s va pt (Z.lor (Z.land e (Z.lnot FLAGS_COW)) FLAGS_RW) Hwf Hpt)
    as (Hwf' & Hpte' & Ho & Hent).
  split; [|done].
  destruct (cow_entry_bits (page_table_to_address e) _ e
    (λ k, pta_flagless _ k (pta_idem e)) eq_refl) as (B1 & B2 & B3 & B4).
  rewrite <-pta_split in B1, B2, B3, B4.
  split; [split; [by apply alloc_inv_pm|done]|done|..].
  - exists pt. eexists. split; [exact Hpte'|]. rewrite B4, pta_idem, pta_frame. done.
  - intros Hna w Hw. rewrite pta_frame. unfold s'.
    destruct (tw_page _ Hwf (pt_path va) _ ltac:(simpl; lia) (pt_path_valid va) Hpt) as [Hal _].
    apply entry_set_ne; [done|apply pta_aligned|apply pt_index_range|done|].
    intros [= Heq _]. by apply (Hna (pt_path va) pt); [simpl; lia|apply pt_path_valid|..].
  - intros va' Hne. rewrite !translate_table. apply Ho; [simpl; lia|apply valid_path_of|done].
  - exact Hent.
  - intros q Hq Hv. apply Ho; [lia|done|]. intros ->. simpl in Hq. lia.
  - apply same_data_tables; [|done|].
    + intros q Hq Hv. apply Ho; [lia|done|]. intros ->. simpl in Hq. lia.
    + intros f j Hf Hj.
      destruct (tw_page _ Hwf (pt_path va) _ ltac:(simpl; lia) (pt_path_valid va) Hpt) as [Hal _].
      apply entry_set_ne; [done|apply Hf|apply pt_index_range|done|]. intros [= <- _].
      exact (dp_no_table _ _ Hf (pt_path va) pt ltac:(simpl; lia) (pt_path_valid va) Hpt eq_refl).
Qed.

(** The frame is shared: [pg] was free and becomes a private copy. *)
Lemma cow_copy_spec s va pt e n pg :
  paging_wf s → pte_of s va = Some (pt, e) → has e FLAGS_PRESENT = true →
  let i := pt_index (get_page_entry va) in
  let frame := page_table_to_address e in
  bitmap s !! (frame / PAGE_SIZE) = Some n → 1 < n → free s pg → 0 ≤ pg < 2 ^ 40 →
  let s2 := copy_page (pg * PAGE_SIZE) frame
    (set_bitmap (<[pg := 1]> (<[frame / PAGE_SIZE := n - 1]> (bitmap s)))
       (set_first_usable (pg + 1) s)) in
  let e' := Z.lor (Z.lor (pg * PAGE_SIZE)
               (Z.land (Z.land (entry s2 pt i) (Z.lnot FLAGS_COW)) FLAGS_MASK)) FLAGS_RW in
  alloc_inv (set_entry pt i e' s2) →
  cow_done s (set_entry pt i e' s2) va e pg.
Proof.
  intros [Hs Hwf] Hpte Hpres i frame Hn Hn1 Hf Hpg s2 e' Hinv.
  destruct (pte_of_table _ _ _ _ Hpte) as [Hpt He].
  destruct (tw_page _ Hwf (pt_path va) _ ltac:(simpl; lia) (pt_path_valid va) Hpt) as [Hal Hupt].
  pose proof (free_not_used _ _ Hf) as Hnu.
  assert (Hna : not_a_table s (pg * PAGE_SIZE))
    by (apply not_a_table_free; [done|]; by rewrite page_div).
  assert (Hne : pg * PAGE_SIZE ≠ frame).
  { intros Heq. apply Hnu. exists n. rewrite <-(page_div pg), Heq. split; [done|lia]. }
  assert (Hent : ∀ t j, t mod PAGE_SIZE = 0 → 0 ≤ j < 512 → entry s2 t j =
      if decide (t = pg * PAGE_SIZE) then entry s frame j else entry s t j).
  { intros t j Ht Hj. unfold s2. rewrite entry_copy_page; try done;
      [apply page_mod|apply pta_aligned]. }
  assert (Htab : ∀ q, (length q ≤ 4)%nat → valid_path q → table s2 q = table s q).
  { intros q Hq Hv. apply (table_page_write s s2 (pg * PAGE_SIZE)); try done.
    intros t j Ht Hta Hj. rewrite Hent by done. by rewrite decide_False. }
  assert (Huse : ∀ k, used s k → used s2 k).
  { intros k (m & Hm & Hm0). unfold used.
    assert (bitmap s2 = <[pg := 1]> (<[frame / PAGE_SIZE := n - 1]> (bitmap s))) as ->
      by reflexivity.
    destruct (decide (pg = k)) as [<-|]; [exists 1; by rewrite lookup_insert_eq|].
    rewrite lookup_insert_ne by done.
    destruct (decide (frame / PAGE_SIZE = k)) as [<-|].
    - exists (n - 1). rewrite lookup_insert_eq. split; [done|lia].
    - exists m. by rewrite lookup_insert_ne. }
  assert (Hwf2 : tree_wf s2) by (by apply (tree_wf_same s)).
  assert (Hroot : pml4_physical s2 = pml4_physical s) by reflexivity. clearbody s2.
  assert (Hpt2 : table s2 (pt_path va) = Some pt)
    by (rewrite Htab; [done|simpl; lia|apply pt_path_valid]).
  destruct (leaf_write s2 va pt e' Hwf2 Hpt2) as (Hwf' & Hpte' & Ho & Hent'). fold i in Hwf', Hpte', Ho, Hent'.
  assert (Hpt_ne : pt ≠ pg * PAGE_SIZE)
    by (apply (Hna (pt_path va)); [simpl; lia|apply pt_path_valid|done]).
  assert (Hee : entry s2 pt i = e).
  { rewrite Hent by (done || apply pt_index_range). by rewrite decide_False. }
  assert (Hpta : page_table_to_address (pg * PAGE_SIZE) = pg * PAGE_SIZE)
    by (rewrite <-(page_mask_page pg); rewrite pta_page by lia; symmetry; apply page_mask_page).
  unfold e' in *. rewrite Hee in *. 
  destruct (cow_entry_bits (pg * PAGE_SIZE) _ e (λ k, pta_flagless _ k Hpta) eq_refl)
    as (B1 & B2 & B3 & B4).
  split; [split; done|exact Hroot|..].
  - exists pt. eexists. split; [exact Hpte'|]. rewrite B4, Hpta. done.
  - intros _ w Hw. rewrite entry_set_ne;
      [|exact Hal|apply page_mod|apply pt_index_range|exact Hw|intros [= Hq _]; by apply Hpt_ne].
    rewrite Hent; [by rewrite decide_True|apply page_mod|exact Hw].
  - intros va' Hva. rewrite !translate_table, Ho; [|simpl; lia|apply valid_path_of|done].
    apply Htab; [simpl; lia|apply valid_path_of].
  - intros q t j Hq Hv Hqt Hne'. pose proof Hv as Hv'. apply Forall_cons in Hv' as [Hj Hvq].
    destruct (Hent' q t j Hq Hv) as [E1 E2]; [rewrite Htab; [done|lia|done]|done|].
    split; [|exact E2]. rewrite E1.
    destruct (tw_page _ Hwf q t Hq Hvq Hqt) as [Hal' _].
    rewrite Hent by done. rewrite decide_False; [done|]. by apply (Hna q).
  - intros q Hq Hv. rewrite Ho, Htab; [done|lia|done|lia|done|]. intros ->. simpl in Hq. lia.
  - apply same_data_tables; [| exact Huse|].
    + intros q Hq Hv. rewrite Ho, Htab; [done|lia|done|lia|done|]. intros ->. simpl in Hq. lia.
    + intros f j Hfd Hj. rewrite entry_set_ne; [|exact Hal|apply Hfd|apply pt_index_range|exact Hj|].
      * rewrite Hent; [|apply Hfd|exact Hj]. rewrite decide_False; [done|]. intros ->. apply Hnu.
        rewrite <-(page_div pg). apply Hfd.
      * intros [= <- _].
        exact (dp_no_table _ _ Hfd (pt_path va) pt ltac:(simpl; lia) (pt_path_valid va) Hpt eq_refl).
Qed.

Lemma cow_copy_run s frame pt i pg n :
  get_available_address s = Done (pg * PAGE_SIZE, set_first_usable (pg + 1) s) →
  bitmap s !! (frame / PAGE_SIZE) = Some n → is_Some (bitmap s !! pg) → 1 < n < 2 ^ 32 →
  let s2 := copy_page (pg * PAGE_SIZE) frame
    (set_bitmap (<[pg := 1]> (<[frame / PAGE_SIZE := n - 1]> (bitmap s)))
       (set_first_usable (pg + 1) s)) in
  (new_phys ← get_available_address;
   n ← get_count (frame / PAGE_SIZE);
   put_count (frame / PAGE_SIZE) (u32 (n - 1));;
   put_count (new_phys / PAGE_SIZE) 1;;
   kmodify (copy_page new_phys frame);;
   e1 ← kgets (λ s, entry s pt i);
   kmodify (set_entry pt i
     (Z.lor (Z.lor (Z.land new_phys PAGE_MASK)
        (Z.land (Z.land e1 (Z.lnot FLAGS_COW)) FLAGS_MASK)) FLAGS_RW))) s
  = Done (tt, set_entry pt i (Z.lor (Z.lor (pg * PAGE_SIZE)
               (Z.land (Z.land (entry s2 pt i) (Z.lnot FLAGS_COW)) FLAGS_MASK)) FLAGS_RW) s2).
Proof.
  intros Ha Hn Hpg Hr s2. apply K_bind_Done. do 2 eexists. split; [exact Ha|].
  set (s1 := set_first_usable (pg + 1) s) in *.
  apply K_bind_Done. exists n, s1. split; [by apply get_count_Done|].
  rewrite u32_id by lia. rewrite page_div, page_mask_page.
  set (s3 := set_bitmap (<[frame / PAGE_SIZE := n - 1]> (bitmap s)) s1).
  apply K_bind_Done. exists tt, s3. split.
  { apply put_count_Done. split_and!; [done|by exists n|done]. }
  apply K_bind_Done. exists tt, (set_bitmap (<[pg := 1]> (bitmap s3)) s3). split.
  { apply put_count_Done. split_and!; [done| |done]. apply lookup_insert_is_Some'. by right. }
  apply K_bind_Done. exists tt, s2. split; [done|].
  apply K_bind_Done. do 2 eexists. split; done.
Qed.

Lemma set_entry_twice t i v v' s : set_entry t i v (set_entry t i v' s) = set_entry t i v s.
Proof. unfold set_entry, set_pm; simpl. by rewrite insert_insert_eq. Qed.

Lemma cow_handler_spec s va :
  paging_wf s →
  match pte_of s va with
  | Some (_, e) =>
    if has e FLAGS_PRESENT && has e FLAGS_COW then
      ∀ n, bitmap s !! (page_table_to_address e / PAGE_SIZE) = Some n →
      (1 < n ∧ cow_handler va s = Panic ∧ ∀ j, ¬ free s j) ∨
      ∃ s' pg, cow_handler va s = Done (1, s') ∧ cow_done s s' va e pg ∧
        if 1 <? n
        then free s pg ∧ bitmap s' =
          <[pg := 1]> (<[page_table_to_address e / PAGE_SIZE := n - 1]> (bitmap s))
        else pg = page_table_to_address e / PAGE_SIZE ∧ bitmap s' = bitmap s
    else cow_handler va s = Done (0, s)
  | None => cow_handler va s = Done (0, s)
  end.
Proof.
  intros Hwf. pose proof (keeps_cow_handler va s) as Hkeep. rewrite cow_handler_unfold in *.
  destruct (pte_of s va) as [[pt e]|] eqn:Hpte; [|done].
  destruct (has e FLAGS_PRESENT) eqn:Hpres; [|done]. destruct (has e FLAGS_COW) eqn:Hcow; [|done].
  cbn [andb negb] in *. intros n Hn. destruct (pte_of_table _ _ _ _ Hpte) as [Hpt He].
  cbv zeta in *. set (i := pt_index (get_page_entry va)) in *.
  set (frame := page_table_to_address e) in *.
  pose proof (proj2 (get_count_Done _ s n s) (conj eq_refl Hn)) as Hget.
  setoid_rewrite (K_bind_step _ _ _ _ _ Hget). setoid_rewrite (K_bind_step _ _ _ _ _ Hget) in Hkeep.
  destruct Hwf as [Hs Ht]. pose proof (cw_count _ (proj1 Hs)) as Hcount.
  pose proof (cw_range _ (proj1 Hs) _ _ Hn) as Hr.
  destruct (Z.ltb_spec 1 n) as [Hn1|Hn1].
  - destruct (get_available_cases s Hs) as [(pg & Ha & Hpg & Hf & _)|[HP Hno]].
    + right. pose proof (cow_copy_run s frame pt i pg n Ha Hn ltac:(by rewrite Hf) ltac:(lia))
        as Hrun. cbv zeta in Hrun.
      match type of Hrun with _ = Done (tt, ?x) => exists x, pg end.
      pose proof (K_bind_step _ (λ _, mret 1) _ _ _ Hrun) as Hrun1.
      split_and!; [exact Hrun1| |done|done].
      apply (cow_copy_spec s va pt e n pg (conj Hs Ht) Hpte Hpres Hn Hn1 Hf ltac:(lia)).
      exact (Hkeep _ _ Hs Hrun1).
    + left. split_and!; [done| |done]. unfold mbind, K_bind. by rewrite HP.
  - right. destruct (cow_sole_spec s va pt e (conj Hs Ht) Hpte) as [Hd Hb].
    do 2 eexists. split_and!; [|exact Hd|done|exact Hb].
    fold i. unfold mbind, K_bind, or_entry, kmodify, mret, K_ret. rewrite <-He.
    rewrite entry_set_eq, set_entry_twice. done.
Qed.


Lemma cow_handler_Done s va r s' :
  paging_wf s → cow_handler va s = Done (r, s') →
  (r = 0 ∧ s' = s) ∨
  (r = 1 ∧ ∃ pt e pg, pte_of s va = Some (pt, e) ∧ cow_done s s' va e pg).
Proof.
  intros Hwf H. pose proof (cow_handler_spec s va Hwf) as Hspec.
  destruct (pte_of s va) as [[pt e]|] eqn:Hpte; [|rewrite Hspec in H; naive_solver].
  destruct (has e FLAGS_PRESENT && has e FLAGS_COW) eqn:Hb; [|rewrite Hspec in H; naive_solver].
  assert (is_Some (bitmap s !! (page_table_to_address e / PAGE_SIZE))) as [n Hn].
  { rewrite cow_handler_unfold, Hpte in H. apply andb_true_iff in Hb as [Hb1 Hb2].
    rewrite Hb1, Hb2 in H. cbn [negb] in H. apply K_bind_Done in H as (n & s1 & Hn & _).
    apply get_count_Done in Hn as [_ Hn]. by exists n. }
  destruct (Hspec n Hn) as [(_ & HP & _)|(s1 & pg & Hr & Hd & _)]; [by rewrite HP in H|].
  rewrite Hr in H. injection H as <- <-. right. split; [done|]. by exists pt, e, pg.
Qed.

(** C6: the copy-on-write handler.  An address that has no present COW entry is
    none of its business: it returns 0 and changes nothing.  Otherwise let n be
    the count of the frame behind the entry.  If n > 1 the handler either panics
    because no page is free, or gives the page a frame that was free (count 1),
    takes one off the old frame's count and copies all 512 words; if n <= 1 it
    keeps the frame and the counts.  In both cases it returns 1, the entry is now
    writable and not COW, its other flags and its contents are unchanged, every
    other page translates as before and the tables stay well formed. *)
Theorem cow_handler_correct s va :
  paging_wf s →
  match pte_of s va with
  | Some (_, e) =>
    if has e FLAGS_PRESENT && has e FLAGS_COW then
      ∀ n, bitmap s !! (page_table_to_address e / PAGE_SIZE) = Some n →
      (1 < n ∧ cow_handler va s = Panic ∧ ∀ j, ¬ free s j) ∨
      ∃ s' pg, cow_handler va s = Done (1, s') ∧ cow_done s s' va e pg ∧
        if 1 <? n
        then free s pg ∧ bitmap s' =
          <[pg := 1]> (<[page_table_to_address e / PAGE_SIZE := n - 1]> (bitmap s))
        else pg = page_table_to_address e / PAGE_SIZE ∧ bitmap s' = bitmap s
    else cow_handler va s = Done (0, s)
  | None => cow_handler va s = Done (0, s)
  end.
Proof. apply cow_handler_spec. Qed.

(** A page at 0x400000 whose frame, page 5, is shared by two users. *)
Definition cow_example : paging :=
  match alloc_region 0x400000 4096 FLAGS_USER (boot_state 16 2) with
  | Done (_, s) => set_bitmap (<[5 := 2]> (bitmap s)) (set_entry 0x4000 0 0x5205 s)
  | _ => boot_state 16 2
  end.

Lemma alloc_region_wf s vaddr size flags r s' :
  paging_wf s → flag_bits flags → 0 ≤ vaddr → 0 < size →
  vaddr + size + PAGE_SIZE ≤ (vaddr / 2 ^ 48 + 1) * 2 ^ 48 ≤ 2 ^ 64 →
  alloc_region vaddr size flags s = Done (r, s') → paging_wf s'.
Proof.
  intros Hwf Hfl Hv Hsz Hblk H. unfold alloc_region, map_region in H.
  apply K_bind_Done in H as (u & s1 & H & Hr). unfold mret, K_ret in Hr. simplify_eq.
  rewrite u64_id, page_align_spec in H by (unfold PAGE_SIZE in *; lia).
  refine (proj1 (region_loop_spec _ _ _ _ _ _ _ _ Hwf Hfl (walk_inv_start s r) Hv
    (page_mod _) _ _ H)); unfold PAGE_SIZE in *; clear H; Z.div_mod_to_equations; lia.
Qed.

Lemma cow_example_wf : paging_wf cow_example.
Proof.
  unfold cow_example.
  destruct (completes_Done (alloc_region 0x400000 4096 FLAGS_USER (boot_state 16 2)))
    as [[r s] Hr]; [vm_compute; reflexivity|].
  assert (Hpt : table s (pt_path 0x400000) = Some 0x4000 ∧ bitmap s !! 5 = Some 1).
  { assert (match alloc_region 0x400000 4096 FLAGS_USER (boot_state 16 2) with
      | Done (_, s) => bool_decide (table s (pt_path 0x400000) = Some 0x4000 ∧
                                    bitmap s !! 5 = Some 1)
      | _ => false end = true) as Hc by (vm_compute; reflexivity).
    rewrite Hr in Hc. by apply bool_decide_eq_true in Hc. }
  rewrite Hr. destruct Hpt as [Hpt H5].
  apply alloc_region_wf in Hr as [[Hcw Hinv] Hwf];
    [|apply boot_state_wf; lia|reflexivity|lia|lia|vm_compute; split; discriminate].
  destruct (leaf_write s 0x400000 0x4000 0x5205 Hwf Hpt) as (Hwf' & _ & _ & _).
  change (pt_index (get_page_entry 0x400000)) with 0 in Hwf'.
  set (s1 := set_entry 0x4000 0 0x5205 s) in *.
  assert (Huse : ∀ k, used s k → used (set_bitmap (<[5:=2]> (bitmap s)) s1) k)
    by (intros k Hk; apply (used_put_pos s); [lia|exact Hk]).
  split; [split|].
  - apply (counts_wf_put s1); [by apply counts_wf_pm|exists 1; exact H5|lia].
  - intros k Hk _. apply Huse, Hinv; [exact Hk|tauto].
  - apply (tree_wf_same s1); [intros; by apply table_ext|exact Huse|exact Hwf'].
Qed.

Lemma cow_handler_correct_witness :
  ∃ s' pg, cow_handler 0x400123 cow_example = Done (1, s') ∧
    cow_done cow_example s' 0x400123 0x5205 pg ∧ free cow_example pg.
Proof.
  pose proof (cow_handler_correct cow_example 0x400123 cow_example_wf) as H.
  assert (Hp : pte_of cow_example 0x400123 = Some (0x4000, 0x5205)) by (vm_compute; reflexivity).
  assert (Hn : bitmap cow_example !! (page_table_to_address 0x5205 / PAGE_SIZE) = Some 2)
    by (vm_compute; reflexivity).
  rewrite Hp in H. destruct (H 2 Hn) as [(_ & HP & _)|(s' & pg & H1 & H2 & H3)].
  - exfalso. assert (completes (cow_handler 0x400123 cow_example) = true) as Hc
      by (vm_compute; reflexivity).
    rewrite HP in Hc. discriminate Hc.
  - exists s', pg. split_and!; [exact H1|exact H2|exact (proj1 H3)].
Defined.
