(* ===== verification/PagingUser.v ===== *)
(** * Validating user memory

    [user_ok s va w] is what the MMU demands of a user access to [va]: present
    and open to user mode at all four levels, and writable for a write. *)

From S2P Require Import Prelude Paging PagingAlloc PagingTree PagingMap PagingCow.

(** The tables on the way down, as long as user mode may pass. *)
Fixpoint utable (s : paging) (p : list Z) : option Z :=
  match p with
  | [] => Some (pml4_physical s)
  | i :: p => match utable s p with Some t => user_table s t i | None => None end
  end.

Definition user_ok (s : paging) (va : Z) (w : bool) : bool :=
  match utable s (pt_path va) with
  | Some pt =>
    let e := entry s pt (pt_index (get_page_entry va)) in
    has e FLAGS_PRESENT && has e FLAGS_USER && (negb w || has e FLAGS_RW)
  | None => false
  end.

Lemma utable_table s p t : utable s p = Some t → table s p = Some t.
Proof.
  revert t. induction p as [|i p IH]; [done|]. intros t. simpl.
  destruct (utable s p) as [t'|]; [|done]. rewrite (IH _ eq_refl).
  unfold user_table, next_table. destruct (has _ _), (has _ _); done.
Qed.

Lemma validate_page_unfold va w s :
  validate_page va w s =
  match utable s (pt_path va) with
  | None => Done (- EFAULT, s)
  | Some pt =>
    let pte := entry s pt (pt_index (get_page_entry va)) in
    if negb (has pte FLAGS_PRESENT) || negb (has pte FLAGS_USER) then Done (- EFAULT, s)
    else if w && negb (has pte FLAGS_RW) then
      if has pte FLAGS_COW then
        (r ← cow_handler va; mret (if r =? 0 then - EFAULT else 0)) s
      else Done (- EFAULT, s)
    else Done (0, s)
  end.
Proof.
  unfold validate_page, pt_path. simpl. unfold kget. unfold mbind at 1, K_bind at 1.
  do 3 (destruct (user_table s _ _); [|reflexivity]).
  unfold user_table at 1. destruct (_ || _); [reflexivity|].
  destruct (w && _); [|reflexivity]. destruct (has _ FLAGS_COW); reflexivity.
Qed.

Lemma terminates_find n i : terminates (find_available n i).
Proof.
  revert i. induction n as [|n IH]; intros i; simpl; [done|].
  unfold get_count. terminates_tac; apply IH.
Qed.
#[export] Hint Resolve terminates_find : terminates.

Lemma terminates_cow va : terminates (cow_handler va).
Proof.
  unfold cow_handler, or_entry, put_count, get_count, get_available_address. terminates_tac.
Qed.
#[export] Hint Resolve terminates_cow : terminates.

Lemma terminates_validate_page va w : terminates (validate_page va w).
Proof. unfold validate_page. terminates_tac. Qed.

(** ** A fault handled for one address keeps what others were granted *)

Lemma utable_keep s s' va e pg q t :
  cow_done s s' va e pg → (length q ≤ 3)%nat → valid_path q → utable s q = Some t → utable s' q = Some t.
Proof.
  intros Hd. pose proof (cd_root _ _ _ _ _ Hd) as Hroot. revert t. induction q as [|j q IH]; intros t Hq Hv H.
  { simpl in *. by rewrite Hroot. }
  pose proof Hv as Hv'. apply Forall_cons in Hv' as [Hj Hvq]. simpl in *.
  destruct (utable s q) as [t'|] eqn:Ht; [|done].
  rewrite (IH t') by (done || lia). unfold user_table in *.
  destruct (cd_entries _ _ _ _ _ Hd q t' j) as [-> _]; [lia|done|by apply utable_table| |done].
  intros He%(f_equal length). simpl in He. lia.
Qed.

Lemma testbit_has_keep e e' b k :
  b = 2 ^ k → 0 ≤ k → Z.testbit e' k = Z.testbit e k → has e' b = has e b.
Proof. intros -> Hk H. by rewrite !has_bit, H by lia. Qed.

Lemma user_ok_keep s s' va pt e pg b w :
  pte_of s va = Some (pt, e) → cow_done s s' va e pg →
  user_ok s b w = true → user_ok s' b w = true.
Proof.
  intros Hpte Hd. unfold user_ok.
  destruct (utable s (pt_path b)) as [t|] eqn:Ht; [|done].
  rewrite (utable_keep _ _ _ _ _ (pt_path b) _ Hd ltac:(simpl; lia) (pt_path_valid b) Ht). cbv zeta.
  destruct (decide (path_of b = path_of va)) as [Heq|Hne].
  - pose proof (f_equal tail Heq : pt_path b = pt_path va) as Ep.
    assert (E1 : pt_index (get_page_entry b) = pt_index (get_page_entry va))
      by (pose proof (f_equal head Heq) as Hh; by injection Hh).
    destruct (pte_of_table _ _ _ _ Hpte) as [Hpt He].
    apply utable_table in Ht as Ht2. rewrite Ep, Hpt in Ht2. injection Ht2 as <-. rewrite E1, <-He.
    destruct (cd_pte _ _ _ _ _ Hd) as (pt' & e' & Hpte' & _ & Hbits & Hrw & _).
    destruct (pte_of_table _ _ _ _ Hpte') as [Hpt' He'].
    pose proof (utable_keep _ _ _ _ _ (pt_path b) _ Hd ltac:(simpl; lia) (pt_path_valid b) Ht) as Ht'.
    apply utable_table in Ht'. rewrite Ep, Hpt' in Ht'. injection Ht' as ->. rewrite <-He'.
    rewrite (testbit_has_keep e e' FLAGS_PRESENT 0), (testbit_has_keep e e' FLAGS_USER 2), Hrw
      by (done || lia || (apply Hbits; done || lia)).
    destruct (has e FLAGS_PRESENT), (has e FLAGS_USER); try done. by rewrite orb_true_r.
  - destruct (cd_entries _ _ _ _ _ Hd (pt_path b) t (pt_index (get_page_entry b)))
      as [-> _]; [simpl; lia|apply valid_path_of|by apply utable_table|exact Hne|done].
Qed.

Ltac refused :=
  intros [= <- <-]; split_and!;
  [assumption|intros; split; [reflexivity|split; discriminate]|by right|discriminate|auto].

Lemma validate_page_spec s va w r s' :
  paging_wf s → validate_page va w s = Done (r, s') →
  paging_wf s' ∧ (w = false → s' = s ∧ (r = 0 ↔ user_ok s va w = true)) ∧
  (r = 0 ∨ r = - EFAULT) ∧ (r = 0 → user_ok s' va w = true) ∧
  (∀ b v, user_ok s b v = true → user_ok s' b v = true).
Proof.
  intros Hwf. rewrite validate_page_unfold.
  destruct (utable s (pt_path va)) as [pt|] eqn:Ht; [|unfold user_ok at 1; rewrite Ht; refused].
  cbv zeta. set (pte := entry s pt _).
  assert (Hok : ∀ v, user_ok s va v =
      has pte FLAGS_PRESENT && has pte FLAGS_USER && (negb v || has pte FLAGS_RW))
    by (intros v; unfold user_ok; by rewrite Ht).
  rewrite Hok.
  destruct (has pte FLAGS_PRESENT) eqn:Hp, (has pte FLAGS_USER) eqn:Hu; cbn [negb orb andb] in *;
    try refused.
  destruct w; cbn [negb andb orb] in *.
  - destruct (has pte FLAGS_RW) eqn:Hrw; cbn [negb]; [|destruct (has pte FLAGS_COW); [|refused]].
    + intros [= <- <-]. split_and!; auto; done.
    + intros H. apply K_bind_Done in H as (c & s1 & Hc & H). unfold mret, K_ret in H.
      injection H as <- <-.
      destruct (cow_handler_Done _ _ _ _ Hwf Hc) as [[-> ->]|(-> & pt' & e & pg & Hpte & Hd)];
        cbn [Z.eqb]; [split_and!; auto; done|].
      pose proof (user_ok_keep s s1 va pt' e pg) as Hkeep.
      split_and!; [apply Hd|done|by left| |intros b v; by apply Hkeep].
      intros _. (* readable before, and the fault made the entry writable *)
      pose proof (Hkeep va false Hpte Hd (Hok false)) as Hread. unfold user_ok in Hread |- *.
      destruct (cd_pte _ _ _ _ _ Hd) as (pt1 & e1 & Hpte1 & _ & _ & Hrw1 & _).
      destruct (pte_of_table _ _ _ _ Hpte1) as [Hpt1 He1].
      destruct (utable s1 (pt_path va)) as [t|] eqn:Ht1; [|done].
      apply utable_table in Ht1. rewrite Hpt1 in Ht1. injection Ht1 as <-.
      rewrite <-He1 in *. rewrite Hrw1. by rewrite andb_true_r in Hread |- *.
  - intros [= <- <-]. split_and!; auto; done.
Qed.

Lemma validate_pages_spec fuel addr stop w s r s' :
  paging_wf s → 0 ≤ addr → stop + PAGE_SIZE ≤ 2 ^ 64 →
  validate_pages fuel addr stop w s = Done (r, s') →
  paging_wf s' ∧ (r = 0 ∨ r = - EFAULT) ∧
  (r = 0 → ∀ k, 0 ≤ k → addr + k * PAGE_SIZE < stop →
     user_ok s' (addr + k * PAGE_SIZE) w = true) ∧
  (∀ b v, user_ok s b v = true → user_ok s' b v = true) ∧
  (w = false → s' = s ∧ (r = 0 ↔ ∀ k, 0 ≤ k → addr + k * PAGE_SIZE < stop →
     user_ok s (addr + k * PAGE_SIZE) false = true)).
Proof.
  intros Hwf Ha Hstop. revert addr s Hwf Ha.
  induction fuel as [|fuel IH]; intros addr s Hwf Ha H; cbn [validate_pages] in H;
    (destruct (Z.ltb_spec addr stop); cbn [negb] in H;
     [|unfold mret, K_ret in H; injection H as <- <-;
       split_and!; auto; [intros _ k ? ?; unfold PAGE_SIZE in *; lia|];
       intros ->; split; [done|]; split; [intros _ k ? ?; unfold PAGE_SIZE in *; lia|done]]);
    [discriminate H|].
  apply K_bind_Done in H as (r1 & s1 & H1 & H).
  destruct (validate_page_spec _ _ _ _ _ Hwf H1) as (Hwf1 & Hro & Hr1 & Hok & Hkeep).
  destruct Hr1 as [Er|Er]; subst r1.
  - cbn [Z.ltb Z.compare] in H.
    rewrite u64_id in H by (unfold PAGE_SIZE in *; lia).
    destruct (IH (addr + PAGE_SIZE) s1 Hwf1 ltac:(unfold PAGE_SIZE in *; lia) H) as (Hwf2 & Hr & Hpages & Hkeep2 & Hro2).
    split_and!; auto.
    + intros Hr0 k Hk Hlt. destruct (decide (k = 0)) as [->|].
      * rewrite Z.mul_0_l, Z.add_0_r. auto.
      * replace (addr + k * PAGE_SIZE) with (addr + PAGE_SIZE + (k - 1) * PAGE_SIZE) by lia.
        apply Hpages; lia.
    + intros ->. destruct (Hro eq_refl) as [-> Hiff]. destruct (Hro2 eq_refl) as [-> Hiff2].
      split; [done|]. rewrite Hiff2. split; intros Hall k Hk Hlt.
      * destruct (decide (k = 0)) as [->|]; [rewrite Z.mul_0_l, Z.add_0_r; by apply Hiff|].
        replace (addr + k * PAGE_SIZE) with (addr + PAGE_SIZE + (k - 1) * PAGE_SIZE) by lia.
        apply Hall; lia.
      * replace (addr + PAGE_SIZE + k * PAGE_SIZE) with (addr + (k + 1) * PAGE_SIZE) by lia.
        apply Hall; lia.
  - change (- EFAULT <? 0) with true in H. cbv iota in H. unfold mret, K_ret in H.
    injection H as <- <-. split_and!; auto; try done.
    intros ->. destruct (Hro eq_refl) as [-> Hiff]. split; [done|]. split; [done|].
    intros Hall. apply Hiff. specialize (Hall 0 ltac:(lia)).
    rewrite Z.mul_0_l, Z.add_0_r in Hall. auto.
Qed.

Lemma terminates_validate_pages fuel addr stop w s :
  0 ≤ addr → stop + PAGE_SIZE ≤ 2 ^ 64 → stop - addr ≤ PAGE_SIZE * Z.of_nat fuel →
  validate_pages fuel addr stop w s ≠ OutOfFuel.
Proof.
  intros Ha Hstop. revert addr s Ha.
  induction fuel as [|fuel IH]; intros addr s Ha Hf; cbn [validate_pages];
    (destruct (Z.ltb_spec addr stop); cbn [negb]; [|done]); [unfold PAGE_SIZE in *; lia|].
  unfold mbind, K_bind. pose proof (terminates_validate_page addr w s).
  destruct (validate_page addr w s) as [[r s1]| | |]; try done.
  destruct (r <? 0); [done|]. rewrite u64_id by (unfold PAGE_SIZE in *; lia).
  apply IH; unfold PAGE_SIZE in *; lia.
Qed.

(** User permissions are per page. *)
Lemma user_ok_page s a b w : a / PAGE_SIZE = b / PAGE_SIZE → user_ok s a w = user_ok s b w.
Proof.
  intros H. pose proof (path_of_page a) as Ha. pose proof (path_of_page b) as Hb.
  rewrite H, <-Hb in Ha. pose proof (f_equal tail Ha : pt_path a = pt_path b) as Ep.
  assert (E1 : pt_index (get_page_entry a) = pt_index (get_page_entry b))
    by (pose proof (f_equal head Ha) as Hh; by injection Hh).
  unfold user_ok. by rewrite Ep, E1.
Qed.

(** C8: validate_user_pointer always ends, and is sound on the pages it looks at.
    It answers 0 or -EFAULT.  After 0 the range lies between 1 and the top of
    user space, and each byte of it that is in the page of ptr, or any byte of it
    when ptr is page aligned, may be accessed from user mode (written, for
    write; a COW page has been given its own frame by then).  A check for
    reading changes nothing and answers 0 exactly when all of ptr, ptr + 4096,
    ... below ptr + len pass. *)
Theorem validate_user_pointer_sound s ptr len w :
  paging_wf s → 0 ≤ ptr < 2 ^ 64 → 0 ≤ len < 2 ^ 64 →
  validate_user_pointer ptr len w s ≠ OutOfFuel ∧
  ∀ r s', validate_user_pointer ptr len w s = Done (r, s') →
    paging_wf s' ∧ (r = 0 ∨ r = - EFAULT) ∧
    (r = 0 → ∀ a, ptr ≤ a < ptr + len → ptr mod PAGE_SIZE = 0 ∨ a / PAGE_SIZE = ptr / PAGE_SIZE →
       0 < a ≤ USER_TOP ∧ user_ok s' a w = true) ∧
    (w = false → s' = s ∧
       (r = 0 ↔ len = 0 ∨ (0 < ptr ∧ ptr + len - 1 ≤ USER_TOP ∧
          ∀ k, 0 ≤ k → k * PAGE_SIZE < len → user_ok s (ptr + k * PAGE_SIZE) false = true))).
Proof.
  intros Hwf Hp Hl. unfold validate_user_pointer.
  destruct (Z.eqb_spec len 0) as [->|Hl0].
  { split; [done|]. intros r s' [= <- <-]. split_and!; auto; [intros; lia|].
    intros _. split; [done|]. by split; auto. }
  assert (Hbad : ∀ r s', (mret (- EFAULT) : K paging Z) s = Done (r, s') → (¬ (0 < ptr ∧ ptr + len - 1 ≤ USER_TOP)) →
    paging_wf s' ∧ (r = 0 ∨ r = - EFAULT) ∧
    (r = 0 → ∀ a, ptr ≤ a < ptr + len → ptr mod PAGE_SIZE = 0 ∨ a / PAGE_SIZE = ptr / PAGE_SIZE →
       0 < a ≤ USER_TOP ∧ user_ok s' a w = true) ∧
    (w = false → s' = s ∧
       (r = 0 ↔ len = 0 ∨ (0 < ptr ∧ ptr + len - 1 ≤ USER_TOP ∧
          ∀ k, 0 ≤ k → k * PAGE_SIZE < len → user_ok s (ptr + k * PAGE_SIZE) false = true)))).
  { intros r s' [= <- <-] Hn. split_and!; auto; [done|]. intros _. split; [done|].
    split; [done|]. intros [?|(? & ? & _)]; [done|]. by destruct Hn. }
  rewrite (u64_id (len - 1)) by lia.
  destruct (Z.eqb_spec ptr 0) as [Hp0|Hp0];
    [split; [done|]; intros r s' H; apply Hbad; [done|lia]|].
  destruct (Z.ltb_spec USER_TOP ptr) as [Ht|Ht];
    [split; [done|]; intros r s' H; apply Hbad; [done|lia]|].
  destruct (Z.ltb_spec (USER_TOP - ptr) (len - 1)) as [Ht'|Ht'];
    [split; [done|]; intros r s' H; apply Hbad; [done|lia]|].
  clear Hbad. rewrite u64_id by (unfold USER_TOP in *; lia). split.
  { apply terminates_validate_pages; unfold USER_TOP, PAGE_SIZE in *; [lia..|].
    rewrite Z2Nat.id by (Z.div_mod_to_equations; lia). Z.div_mod_to_equations. lia. }
  intros r s' H.
  assert (Hst : ptr + len + PAGE_SIZE ≤ 2 ^ 64) by (unfold USER_TOP, PAGE_SIZE in *; lia).
  destruct (validate_pages_spec _ _ _ _ _ _ _ Hwf (proj1 Hp) Hst H) as (Hwf' & Hr & Hpages & _ & Hro).
  split_and!; [done|done|..].
  - intros Hr0 a Ha Hor. split; [lia|].
    set (k := (a - ptr) / PAGE_SIZE).
    assert (0 ≤ k ∧ ptr + k * PAGE_SIZE ≤ a ∧
      a / PAGE_SIZE = (ptr + k * PAGE_SIZE) / PAGE_SIZE) as (Hk & Hka & Hpg).
    { unfold k. clear -Ha Hor. unfold PAGE_SIZE in *. Z.div_mod_to_equations. lia. }
    rewrite (user_ok_page _ _ _ _ Hpg). apply Hpages; [done|done|lia].
  - intros ->. destruct (Hro eq_refl) as [-> Hiff]. split; [done|]. rewrite Hiff. split.
    + intros Hall. right. split_and!; [lia|lia|]. intros k Hk Hlt. apply Hall; lia.
    + intros [?|(_ & _ & Hall)] k Hk Hlt; [lia|]. apply Hall; lia.
Qed.

(** A user page at 0x400000, nothing at 0x401000. *)
Definition user_example : paging :=
  match alloc_region 0x400000 4096 (Z.lor FLAGS_USER FLAGS_RW) (boot_state 16 2) with
  | Done (_, s) => s
  | _ => boot_state 16 2
  end.

Lemma user_example_wf : paging_wf user_example.
Proof.
  unfold user_example.
  destruct (completes_Done (alloc_region 0x400000 4096 (Z.lor FLAGS_USER FLAGS_RW)
    (boot_state 16 2))) as [[r s] Hr]; [vm_compute; reflexivity|].
  rewrite Hr. eapply alloc_region_wf; [..|exact Hr];
    [apply boot_state_wf; lia|reflexivity|lia|lia|vm_compute; split; discriminate].
Qed.

Lemma validate_user_pointer_sound_witness :
  ∃ s', validate_user_pointer 0x400010 16 true user_example = Done (0, s') ∧
    user_ok s' 0x40001F true = true.
Proof.
  destruct (validate_user_pointer_sound user_example 0x400010 16 true user_example_wf)
    as [_ H]; [lia|lia|].
  destruct (completes_Done (validate_user_pointer 0x400010 16 true user_example))
    as [[r s'] Hr]; [vm_compute; reflexivity|].
  assert (r = 0) as ->.
  { assert (match validate_user_pointer 0x400010 16 true user_example with
            | Done (r, _) => r =? 0 | _ => false end = true) as Hz by (vm_compute; reflexivity).
    rewrite Hr in Hz. by apply Z.eqb_eq in Hz. }
  exists s'. split; [exact Hr|].
  destruct (H 0 s' Hr) as (_ & _ & Ha & _). apply (Ha eq_refl); [lia|right; reflexivity].
Defined.

(** The loop steps by a page from an unaligned address, so the page of the last
    byte is not always one it looks at: here the second byte is in a page that
    is not mapped at all and the answer is 0. *)
Lemma validate_user_pointer_skips_last_page :
  match validate_user_pointer 0x400FFF 2 true user_example with
  | Done (r, s') => r = 0 ∧ translate s' 0x401000 = None
  | _ => False
  end.
Proof. vm_compute. split; reflexivity. Qed.
