(* ===== verification/Calendar.v ===== *)
(** * kernel/drivers/timer.c and rtc.c: calendar dates and the unix time

    The conversions of timer.c, the FAT date words built on them (fs/fat.c) and
    the decoding of the CMOS clock (drivers/rtc.c).  [None] is an access C gives
    no meaning to: an index past [mdays], or an int year past INT_MAX. *)

From S2P Require Import Prelude.


Record datetime_t := mk_datetime {
  second : Z;
  minute : Z;
  hour : Z;
  day : Z;
  month : Z;
  year : Z;
}.

Definition is_leap (year : Z) : bool :=
  (Z.rem year 4 =? 0) && (negb (Z.rem year 100 =? 0) || (Z.rem year 400 =? 0)).

Definition mdays : list Z := [31; 28; 31; 30; 31; 30; 31; 31; 30; 31; 30; 31].

Definition days_in_year (y : Z) : Z := if is_leap y then 366 else 365.

(** The loop [for (int y = 1970; y < dt.year; y++)], [n] iterations left. *)
Fixpoint add_years (n : nat) (y days : Z) : Z :=
  match n with
  | O => days
  | S n => add_years n (y + 1) (u64 (days + days_in_year y))
  end.

(** The loop [for (int m = 1; m < dt.month; m++)]. *)
Fixpoint add_months (n : nat) (m : Z) (leap : bool) (days : Z) : option Z :=
  match n with
  | O => Some days
  | S n =>
    d ← znth mdays (m - 1);
    let days := u64 (days + d) in
    add_months n (m + 1) leap (if (m =? 2) && leap then u64 (days + 1) else days)
  end.

Definition to_unix_timestamp (dt : datetime_t) : option Z :=
  if INT_MAX <? year dt then None
  else
    let days := add_years (Z.to_nat (year dt - 1970)) 1970 0 in
    days ← add_months (Z.to_nat (month dt - 1)) 1 (is_leap (s32 (year dt))) days;
    let days := u64 (days + u32 (day dt - 1)) in
    Some (u64 (days * 86400 + hour dt * 3600 + minute dt * 60 + second dt)).

(** [while (1)]: whole years off [days]; [None] when the int year overflows. *)
Fixpoint split_years (fuel : nat) (year days : Z) : option (Z * Z) :=
  match fuel with
  | O => None
  | S fuel =>
    if INT_MAX <? year then None
    else if days <? days_in_year year then Some (year, days)
    else split_years fuel (year + 1) (days - days_in_year year)
  end.

Definition days_in_month (month : Z) (leap : bool) : option Z :=
  d ← znth mdays month;
  Some (if (month =? 1) && leap then d + 1 else d).

(** [while (1)]: whole months off [days]; months count from 0. *)
Fixpoint split_months (fuel : nat) (month days : Z) (leap : bool) : option (Z * Z) :=
  match fuel with
  | O => None
  | S fuel =>
    d ← days_in_month month leap;
    if days <? d then Some (month, days)
    else split_months fuel (month + 1) (days - d) leap
  end.

Definition to_datetime (timestamp : Z) : option datetime_t :=
  let days := timestamp / 86400 in
  let seconds := timestamp mod 86400 in
  yd ← split_years (Z.to_nat (days / 365 + 1)) 1970 days;
  let '(year, days) := yd in
  md ← split_months 13 0 days (is_leap year);
  let '(month, days) := md in
  Some (mk_datetime (seconds mod 3600 mod 60) (seconds mod 3600 / 60) (seconds / 3600)
          (u32 (days + 1)) (month + 1) year).

(** ** Reference: a date is a day of the proleptic Gregorian calendar *)

(** Days before January 1st of year [y], counted from 1970. *)
Definition days_before_year (y : Z) : Z :=
  365 * (y - 1970) + ((y - 1) / 4 - 492) - ((y - 1) / 100 - 19) + ((y - 1) / 400 - 4).
(** Days before the first of month [m] (1..12) in a year. *)
Definition days_before_month (m : Z) (leap : bool) : Z :=
  nth (Z.to_nat (m - 1)) [0; 31; 59; 90; 120; 151; 181; 212; 243; 273; 304; 334] 0
  + (if (2 <? m) && leap then 1 else 0).
Definition month_length (m : Z) (leap : bool) : Z :=
  nth (Z.to_nat (m - 1)) mdays 0 + (if (m =? 2) && leap then 1 else 0).

Definition unix_of (dt : datetime_t) : Z :=
  (days_before_year (year dt) + days_before_month (month dt) (is_leap (year dt)) + (day dt - 1))
    * 86400 + hour dt * 3600 + minute dt * 60 + second dt.

Record valid_datetime (dt : datetime_t) : Prop := {
  vd_second : 0 ≤ second dt < 60;
  vd_minute : 0 ≤ minute dt < 60;
  vd_hour : 0 ≤ hour dt < 24;
  vd_month : 1 ≤ month dt ≤ 12;
  vd_day : 1 ≤ day dt ≤ month_length (month dt) (is_leap (year dt));
  vd_year : 1970 ≤ year dt ≤ INT_MAX;
}.

Lemma is_leap_mod y :
  0 ≤ y → is_leap y = (y mod 4 =? 0) && (negb (y mod 100 =? 0) || (y mod 400 =? 0)).
Proof. intros. unfold is_leap. by rewrite !Z.rem_mod_nonneg by lia. Qed.

Lemma days_before_year_succ y :
  1 ≤ y → days_before_year (y + 1) = days_before_year y + days_in_year y.
Proof.
  intros. unfold days_before_year, days_in_year. rewrite is_leap_mod by lia.
  replace (y + 1 - 1) with y by lia.
  destruct (Z.eqb_spec (y mod 4) 0), (Z.eqb_spec (y mod 100) 0), (Z.eqb_spec (y mod 400) 0);
    cbn [andb orb negb]; Z.div_mod_to_equations; lia.
Qed.

Lemma days_in_year_cases y : days_in_year y = 365 ∨ days_in_year y = 366.
Proof. unfold days_in_year. destruct (is_leap y); auto. Qed.

Lemma days_before_year_bounds y :
  1970 ≤ y → 365 * (y - 1970) ≤ days_before_year y ≤ 366 * (y - 1970).
Proof. intros. unfold days_before_year. Z.div_mod_to_equations. lia. Qed.

Lemma days_before_year_mono y z :
  1970 ≤ y → y < z → days_before_year y + days_in_year y ≤ days_before_year z.
Proof.
  intros Hy Hz. rewrite <-days_before_year_succ by lia.
  unfold days_before_year. Z.div_mod_to_equations. lia.
Qed.

(** ** To the unix time *)

Lemma add_years_spec n y days :
  1970 ≤ y → y + Z.of_nat n ≤ 2 ^ 31 → 0 ≤ days ≤ 2 ^ 62 - 366 * (2 ^ 31 - y) →
  add_years n y days = days + (days_before_year (y + Z.of_nat n) - days_before_year y).
Proof.
  revert y days. induction n as [|n IH]; intros y days Hy Hn Hd; cbn [add_years].
  - rewrite Z.add_0_r. lia.
  - destruct (days_in_year_cases y); rewrite u64_id by lia;
      (rewrite IH by lia; replace (y + 1 + Z.of_nat n) with (y + Z.of_nat (S n)) by lia;
       rewrite days_before_year_succ by lia; lia).
Qed.

(** A month number by cases. *)
Lemma month_cases (P : Z → Prop) :
  Forall P [1; 2; 3; 4; 5; 6; 7; 8; 9; 10; 11; 12] → ∀ m, 1 ≤ m ≤ 12 → P m.
Proof.
  intros HF m Hm. rewrite Forall_forall in HF. apply HF.
  assert (m = 1 ∨ m = 2 ∨ m = 3 ∨ m = 4 ∨ m = 5 ∨ m = 6 ∨ m = 7 ∨ m = 8 ∨ m = 9 ∨ m = 10 ∨
          m = 11 ∨ m = 12) as Hor by lia.
  set_unfold. naive_solver.
Qed.

Lemma mdays_range i d : znth mdays i = Some d → 28 ≤ d ≤ 31.
Proof.
  unfold znth. destruct (i <? 0); [done|]. intros H.
  assert (HF : Forall (λ d, 28 ≤ d ≤ 31) mdays) by (unfold mdays; rewrite !Forall_cons, Forall_nil; lia).
  rewrite Forall_lookup in HF. eauto.
Qed.

Lemma add_months_shift n m leap days a k :
  0 ≤ days ≤ 2 ^ 62 → 0 ≤ a → a + 32 * Z.of_nat n ≤ 2 ^ 62 →
  add_months n m leap a = Some k → add_months n m leap (days + a) = Some (days + k).
Proof.
  intros Hd. revert m a. induction n as [|n IH]; intros m a Ha Hn H; cbn [add_months] in *;
    [by simplify_eq|].
  destruct (znth mdays (m - 1)) as [d|] eqn:Hm; [|done]. cbn [mbind option_bind] in *.
  apply mdays_range in Hm. rewrite (u64_id (a + d)) in H by lia. rewrite (u64_id (days + a + d)) by lia.
  destruct ((m =? 2) && leap).
  - rewrite u64_id in H |- * by lia.
    replace (days + a + d + 1) with (days + (a + d + 1)) by lia. apply IH; [lia..|done].
  - replace (days + a + d) with (days + (a + d)) by lia. apply IH; [lia..|done].
Qed.

Lemma add_months_spec m leap days :
  1 ≤ m ≤ 12 → 0 ≤ days ≤ 2 ^ 62 →
  add_months (Z.to_nat (m - 1)) 1 leap days = Some (days + days_before_month m leap).
Proof.
  intros Hm Hd. rewrite <-(Z.add_0_r days) at 1. apply add_months_shift; [done|lia|lia|].
  revert m Hm. apply month_cases. rewrite !Forall_cons, Forall_nil.
  split_and!; try done; by destruct leap.
Qed.

Lemma days_before_month_bounds m leap :
  1 ≤ m ≤ 12 → 0 ≤ days_before_month m leap ∧ 28 ≤ month_length m leap ≤ 31 ∧
  days_before_month m leap + month_length m leap ≤ (if leap then 366 else 365).
Proof.
  revert m. apply month_cases.
  rewrite !Forall_cons, Forall_nil.
  split_and!; try done; destruct leap; vm_compute; discriminate.
Qed.

Lemma to_unix_spec dt : valid_datetime dt → to_unix_timestamp dt = Some (unix_of dt).
Proof.
  intros [Hs Hmi Hh Hmo Hd Hy]. unfold to_unix_timestamp, unix_of.
  rewrite (proj2 (Z.ltb_ge _ _)) by lia. unfold INT_MAX in *.
  rewrite s32_id by lia.
  pose proof (days_before_year_bounds (year dt) ltac:(lia)) as Hb.
  destruct (days_before_month_bounds (month dt) (is_leap (year dt)) Hmo) as (? & ? & ?).
  rewrite add_years_spec by lia. rewrite Z2Nat.id by lia.
  replace (1970 + (year dt - 1970)) with (year dt) by lia.
  change (days_before_year 1970) with 0. rewrite Z.sub_0_r, Z.add_0_l.
  rewrite add_months_spec by lia. cbn [mbind option_bind].
  rewrite u32_id by lia.
  assert ((if is_leap (year dt) then 366 else 365) ≤ 366) by (destruct (is_leap _); lia).
  by norm_int.
Qed.

(** ** From the unix time *)

Lemma split_years_spec fuel y days :
  1970 ≤ y → 0 ≤ days → days < 365 * Z.of_nat fuel → y + days / 365 ≤ INT_MAX →
  ∃ z r, split_years fuel y days = Some (z, r) ∧ y ≤ z ≤ INT_MAX ∧
    0 ≤ r < days_in_year z ∧ days_before_year z + r = days_before_year y + days.
Proof.
  revert y days. induction fuel as [|fuel IH]; intros y days Hy Hd Hf Hmax; [lia|].
  cbn [split_years]. destruct (Z.ltb_spec INT_MAX y); [Z.div_mod_to_equations; lia|].
  destruct (Z.ltb_spec days (days_in_year y)); [by exists y, days; repeat split; lia|].
  destruct (days_in_year_cases y) as [E|E];
    (destruct (IH (y + 1) (days - days_in_year y)) as (z & r & Hs & Hz & Hr & He);
     [lia|lia|lia|Z.div_mod_to_equations; lia|];
     exists z, r; rewrite Hs; rewrite (days_before_year_succ y) in He by lia;
     split_and!; (reflexivity || lia)).
Qed.

Lemma split_months_spec (days : Z) (leap : bool) :
  0 ≤ days < (if leap then 366 else 365) →
  ∃ m r, split_months 13 0 days leap = Some (m, r) ∧ 0 ≤ m ≤ 11 ∧
    0 ≤ r < month_length (m + 1) leap ∧ days_before_month (m + 1) leap + r = days.
Proof.
  intros Hd.
  assert (Hall : forallb (λ d, match split_months 13 0 d leap with
    | Some (m, r) => (0 <=? m) && (m <=? 11) && (0 <=? r) && (r <? month_length (m + 1) leap) &&
                     (days_before_month (m + 1) leap + r =? d)
    | None => false end) (seqZ 0 (if leap then 366 else 365)) = true)
    by (destruct leap; vm_compute; reflexivity).
  rewrite forallb_forall in Hall.
  specialize (Hall days). rewrite <-list_elem_of_In, elem_of_seqZ in Hall.
  specialize (Hall ltac:(lia)).
  destruct (split_months 13 0 days leap) as [[m r]|]; [|done].
  exists m, r. rewrite !andb_true_iff, !Z.leb_le, !Z.ltb_lt, Z.eqb_eq in Hall.
  destruct Hall as ((((? & ?) & ?) & ?) & ?). split_and!; (reflexivity || lia).
Qed.

Lemma to_datetime_spec t :
  0 ≤ t → 1970 + t / 86400 / 365 ≤ INT_MAX →
  ∃ dt, to_datetime t = Some dt ∧ valid_datetime dt ∧ unix_of dt = t.
Proof.
  intros Ht Hmax. unfold to_datetime.
  destruct (split_years_spec (Z.to_nat (t / 86400 / 365 + 1)) 1970 (t / 86400))
    as (y & r & -> & Hy & Hr & He); [lia|Z.div_mod_to_equations; lia| |lia|].
  { rewrite Z2Nat.id by (Z.div_mod_to_equations; lia). Z.div_mod_to_equations; lia. }
  cbn [mbind option_bind].
  destruct (split_months_spec r (is_leap y)) as (m & q & -> & Hm & Hq & Hmq);
    [unfold days_in_year in Hr; lia|].
  cbn [mbind option_bind]. change (days_before_year 1970) with 0 in He.
  pose proof (days_before_month_bounds (m + 1) (is_leap y) ltac:(lia)) as (? & ? & ?).
  rewrite u32_id by lia. eexists. split; [done|]. split.
  - split; cbn; try lia; Z.div_mod_to_equations; lia.
  - unfold unix_of; cbn. rewrite Z.add_simpl_r. Z.div_mod_to_equations; lia.
Qed.

(** A valid date is determined by its unix time. *)
Lemma days_before_month_mono m n leap :
  1 ≤ m → m < n ≤ 12 → days_before_month m leap + month_length m leap ≤ days_before_month n leap.
Proof.
  intros Hm Hn. assert (Hall : forallb (λ m, forallb (λ n, negb (m <? n) ||
      (days_before_month m leap + month_length m leap <=? days_before_month n leap))
      (seqZ 1 12)) (seqZ 1 12) = true) by (destruct leap; vm_compute; reflexivity).
  rewrite forallb_forall in Hall. setoid_rewrite forallb_forall in Hall.
  setoid_rewrite <-list_elem_of_In in Hall.
  specialize (Hall m ltac:(apply elem_of_seqZ; lia) n ltac:(apply elem_of_seqZ; lia)).
  rewrite (proj2 (Z.ltb_lt _ _)) in Hall by lia. by apply Z.leb_le.
Qed.

Lemma unix_of_inj dt dt' :
  valid_datetime dt → valid_datetime dt' → unix_of dt = unix_of dt' → dt = dt'.
Proof.
  destruct dt as [s mi h d m y], dt' as [s' mi' h' d' m' y'].
  intros [Hs Hmi Hh Hm Hd Hy] [Hs' Hmi' Hh' Hm' Hd' Hy']. unfold unix_of. cbn in *. intros H.
  assert (s = s' ∧ mi = mi' ∧ h = h' ∧
    days_before_year y + days_before_month m (is_leap y) + (d - 1) =
    days_before_year y' + days_before_month m' (is_leap y') + (d' - 1)) as (-> & -> & -> & HD)
    by lia.
  assert (Hin : ∀ y m d, 1 ≤ m ≤ 12 → 1 ≤ d ≤ month_length m (is_leap y) →
    0 ≤ days_before_month m (is_leap y) + (d - 1) < days_in_year y).
  { intros y0 m0 d0 Hm0 Hd0. unfold days_in_year.
    destruct (days_before_month_bounds m0 (is_leap y0) Hm0) as (? & ? & ?). lia. }
  pose proof (Hin y m d Hm Hd). pose proof (Hin y' m' d' Hm' Hd').
  destruct (Z.lt_trichotomy y y') as [Hlt|[->|Hlt]];
    [pose proof (days_before_year_mono y y' ltac:(lia) Hlt); lia| |
     pose proof (days_before_year_mono y' y ltac:(lia) Hlt); lia].
  destruct (Z.lt_trichotomy m m') as [Hlt|[->|Hlt]];
    [pose proof (days_before_month_mono m m' (is_leap y') ltac:(lia) ltac:(lia)); lia| |
     pose proof (days_before_month_mono m' m (is_leap y') ltac:(lia) ltac:(lia)); lia].
  f_equal. lia.
Qed.

Lemma to_datetime_unix_of dt :
  valid_datetime dt → year dt ≤ 2000000000 → to_datetime (unix_of dt) = Some dt.
Proof.
  intros Hv Hy.
  destruct (days_before_month_bounds (month dt) (is_leap (year dt)) (vd_month _ Hv)) as (? & ? & ?).
  pose proof (days_before_year_bounds (year dt) ltac:(apply Hv)) as Hb.
  destruct (to_datetime_spec (unix_of dt)) as (dt' & -> & Hv' & He);
    [destruct Hv; unfold unix_of; lia| |by rewrite (unix_of_inj dt' dt)].
  destruct Hv. unfold unix_of, INT_MAX.
  assert ((if is_leap (year dt) then 366 else 365) ≤ 366) by (destruct (is_leap _); lia).
  Z.div_mod_to_equations; lia.
Qed.

(** C14: the calendar conversions are inverse to each other and agree with the
    Gregorian calendar.  Every unix time whose year fits an int becomes a valid
    date (seconds, minutes, hours, day of the month and month in range) whose day
    number, counted with the leap-year formula, gives the time back, also through
    to_unix_timestamp; and every valid date up to the year 2,000,000,000 becomes
    that time and is found again by to_datetime. *)
Theorem calendar_round_trip :
  (∀ t, 0 ≤ t → 1970 + t / 86400 / 365 ≤ INT_MAX →
     ∃ dt, to_datetime t = Some dt ∧ valid_datetime dt ∧ unix_of dt = t ∧
       to_unix_timestamp dt = Some t) ∧
  (∀ dt, valid_datetime dt → year dt ≤ 2000000000 →
     to_unix_timestamp dt = Some (unix_of dt) ∧ to_datetime (unix_of dt) = Some dt).
Proof.
  split.
  - intros t Ht Hmax. destruct (to_datetime_spec t Ht Hmax) as (dt & H & Hv & <-).
    exists dt. by rewrite to_unix_spec.
  - intros dt Hv Hy. split; [by apply to_unix_spec|by apply to_datetime_unix_of].
Qed.

Lemma calendar_round_trip_witness :
  to_datetime 951782400 = Some (mk_datetime 0 0 0 29 2 2000) ∧
  to_unix_timestamp (mk_datetime 0 0 0 29 2 2000) = Some 951782400.
Proof.
  destruct calendar_round_trip as [H _].
  destruct (H 951782400) as (dt & H1 & _ & _ & H2); [lia|vm_compute; discriminate|].
  assert (to_datetime 951782400 = Some (mk_datetime 0 0 0 29 2 2000)) as E
    by (vm_compute; reflexivity).
  rewrite E in H1. injection H1 as <-. split; [exact E|exact H2].
Defined.

(** ** FAT date words (fs/fat.c) *)

Definition fat_timestamp_to_unix (fat_date fat_time : Z) : option Z :=
  to_unix_timestamp (mk_datetime
    (Z.land fat_time 0x1F * 2)
    (Z.land (Z.shiftr fat_time 5) 0x3F)
    (Z.land (Z.shiftr fat_time 11) 0x1F)
    (Z.land fat_date 0x1F)
    (Z.land (Z.shiftr fat_date 5) 0x0F)
    (Z.land (Z.shiftr fat_date 9) 0x7F + 1980)).

Definition unix_to_fat_timestamp (timestamp : Z) : option (Z * Z) :=
  dt ← to_datetime timestamp;
  let year := if year dt <? 1980 then 1980 else year dt in
  let year_since_1980 := s32 (year - 1980) in
  let fat_date :=
    Z.lor (Z.lor (Z.shiftl (Z.land year_since_1980 0x7F) 9)
             (Z.shiftl (Z.land (month dt) 0x0F) 5))
      (Z.land (day dt) 0x1F) in
  let fat_time :=
    Z.lor (Z.lor (Z.shiftl (Z.land (hour dt) 0x1F) 11)
             (Z.shiftl (Z.land (minute dt) 0x3F) 5))
      (Z.land (second dt / 2) 0x1F) in
  Some (u16 fat_date, u16 fat_time).

(** Packing three fields, as both words do. *)
Lemma pack_fields x y z b c :
  0 ≤ b → 0 ≤ c → 0 ≤ y < 2 ^ b → 0 ≤ z < 2 ^ c →
  Z.lor (Z.lor (Z.shiftl x (b + c)) (Z.shiftl y c)) z = (x * 2 ^ b + y) * 2 ^ c + z.
Proof.
  intros. rewrite <-Z.shiftl_shiftl, <-Z.shiftl_lor by lia.
  by rewrite !lor_shiftl by lia.
Qed.

Lemma unix_to_fat_words dt :
  valid_datetime dt → 1980 ≤ year dt ≤ 2107 → to_datetime (unix_of dt) = Some dt →
  unix_to_fat_timestamp (unix_of dt) =
    Some (((year dt - 1980) * 16 + month dt) * 32 + day dt,
          (hour dt * 64 + minute dt) * 32 + second dt / 2).
Proof.
  intros [Hs Hmi Hh Hmo Hd _] Hy Hdt. unfold unix_to_fat_timestamp. rewrite Hdt.
  cbn [mbind option_bind]. rewrite (proj2 (Z.ltb_ge _ _)) by lia.
  destruct (days_before_month_bounds (month dt) (is_leap (year dt)) Hmo) as (? & ? & ?).
  rewrite s32_id by lia.
  assert (0 ≤ second dt / 2 < 30) by (Z.div_mod_to_equations; lia).
  rewrite (land_low (year dt - 1980) 7), (land_low (month dt) 4), (land_low (day dt) 5),
    (land_low (hour dt) 5), (land_low (minute dt) 6), (land_low (second dt / 2) 5) by (done || lia).
  rewrite (pack_fields _ _ _ 4 5), (pack_fields _ _ _ 6 5) by lia.
  by rewrite !u16_id by lia.
Qed.

Lemma fat_to_unix_words y mo d h mi s2 :
  0 ≤ y < 128 → 0 ≤ mo < 16 → 0 ≤ d < 32 → 0 ≤ h < 32 → 0 ≤ mi < 64 → 0 ≤ s2 < 32 →
  fat_timestamp_to_unix ((y * 16 + mo) * 32 + d) ((h * 64 + mi) * 32 + s2) =
    to_unix_timestamp (mk_datetime (s2 * 2) mi h d mo (y + 1980)).
Proof.
  intros. unfold fat_timestamp_to_unix.
  assert (F0 : ∀ v m w, m = Z.ones w → 0 ≤ w → Z.land v m = v mod 2 ^ w)
    by (intros v m w -> ?; by rewrite Z.land_ones by lia).
  rewrite !(F0 _ 0x1F 5), (F0 _ 0x3F 6), (F0 _ 0x0F 4), (F0 _ 0x7F 7) by (done || lia).
  rewrite !Z.shiftr_div_pow2 by lia.
  f_equal. f_equal; Z.div_mod_to_equations; lia.
Qed.

(** FAT timestamps.  A time of the years 1980 to 2107 is stored in the date
    and time words and read back as itself rounded down to an even second, the
    resolution of the format. *)
Theorem fat_timestamp_round_trip dt :
  valid_datetime dt → 1980 ≤ year dt ≤ 2107 →
  ∃ d t, unix_to_fat_timestamp (unix_of dt) = Some (d, t) ∧
    0 ≤ d < 2 ^ 16 ∧ 0 ≤ t < 2 ^ 16 ∧
    fat_timestamp_to_unix d t = Some (unix_of dt - unix_of dt mod 2).
Proof.
  intros Hv Hy. do 2 eexists. split; [apply unix_to_fat_words; [done|done|]|].
  { by apply to_datetime_unix_of; [|lia]. }
  pose proof Hv as [Hs Hmi Hh Hmo Hd _].
  destruct (days_before_month_bounds (month dt) (is_leap (year dt)) Hmo) as (? & ? & ?).
  split_and!; [lia|lia|Z.div_mod_to_equations; lia..|].
  rewrite fat_to_unix_words by (lia || (Z.div_mod_to_equations; lia)).
  rewrite to_unix_spec.
  - f_equal. unfold unix_of; cbn. rewrite Z.sub_add. clear.
    generalize (days_before_year (year dt) + days_before_month (month dt) (is_leap (year dt))
                + (day dt - 1)). intros D.
    rewrite (Zmod_eq_full _ 2) by lia.
    replace (D * 86400 + hour dt * 3600 + minute dt * 60 + second dt)
      with (second dt + (D * 43200 + hour dt * 1800 + minute dt * 30) * 2) by lia.
    rewrite Z.div_add by lia. lia.
  - split; unfold INT_MAX; cbn; try lia; rewrite ?Z.sub_add; Z.div_mod_to_equations; lia.
Qed.

Lemma fat_timestamp_round_trip_witness :
  ∃ d t, unix_to_fat_timestamp (unix_of (mk_datetime 59 59 23 31 12 2024)) = Some (d, t) ∧
    fat_timestamp_to_unix d t = Some (unix_of (mk_datetime 58 59 23 31 12 2024)).
Proof.
  destruct (fat_timestamp_round_trip (mk_datetime 59 59 23 31 12 2024))
    as (d & t & H1 & _ & _ & H2); [|vm_compute; split; discriminate|].
  - split; vm_compute; split; discriminate || reflexivity.
  - exists d, t. split; [exact H1|exact H2].
Defined.

(** An entry without a date has the word 0, whose day field is 0: the unsigned
    [dt.day - 1] wraps and the time is about 11.7 million years ahead. *)
Lemma fat_zero_date : fat_timestamp_to_unix 0 0 = Some ((3652 + (2 ^ 32 - 1)) * 86400).
Proof. vm_compute. reflexivity. Qed.

(** Months 14 and 15 of a date word index past [mdays]. *)
Lemma fat_month_14 : fat_timestamp_to_unix (14 * 32 + 1) 0 = None.
Proof. vm_compute. reflexivity. Qed.

(** ** The CMOS clock (drivers/rtc.c) *)

Definition bcd_to_bin (val : Z) : Z := u8 (Z.land val 0x0F + Z.shiftr val 4 * 10).

(** rtc_get_timestamp after the two waits for the update flag: [rtc_read] gives
    the registers. *)
Definition rtc_get_timestamp (rtc_read : Z → Z) : option Z :=
  let dt := mk_datetime (rtc_read 0x00) (rtc_read 0x02) (rtc_read 0x04) (rtc_read 0x07)
              (rtc_read 0x08) (rtc_read 0x09) in
  let status := rtc_read 0x0b in
  let pm := has (hour dt) 0x80 in
  let hour1 := Z.land (hour dt) 0x7f in
  let dt :=
    if negb (has status 0x04)
    then mk_datetime (bcd_to_bin (second dt)) (bcd_to_bin (minute dt)) (bcd_to_bin hour1)
           (bcd_to_bin (day dt)) (bcd_to_bin (month dt)) (bcd_to_bin (year dt))
    else mk_datetime (second dt) (minute dt) hour1 (day dt) (month dt) (year dt) in
  let hour2 :=
    if negb (has status 0x02)
    then hour dt mod 12 + (if pm then 12 else 0)
    else hour dt in
  to_unix_timestamp (mk_datetime (second dt) (minute dt) hour2 (day dt) (month dt)
                       (u32 (year dt + 2000))).

(** What the chip holds for a date, in the mode its status register B tells. *)
Definition to_bcd (n : Z) : Z := n / 10 * 16 + n mod 10.
Definition rtc_registers (bcd h12 : bool) (dt : datetime_t) (reg : Z) : Z :=
  let f n := if bcd then to_bcd n else n in
  if reg =? 0x00 then f (second dt) else if reg =? 0x02 then f (minute dt)
  else if reg =? 0x04 then
    if h12 then f (if hour dt mod 12 =? 0 then 12 else hour dt mod 12)
                + (if 12 <=? hour dt then 0x80 else 0)
    else f (hour dt)
  else if reg =? 0x07 then f (day dt) else if reg =? 0x08 then f (month dt)
  else if reg =? 0x09 then f (year dt - 2000)
  else if reg =? 0x0b then (if bcd then 0 else 0x04) + (if h12 then 0 else 0x02)
  else 0.

Lemma bcd_round_trip n : 0 ≤ n < 100 → bcd_to_bin (to_bcd n) = n.
Proof.
  intros Hn. unfold bcd_to_bin, to_bcd.
  change 0x0F with (Z.ones 4). rewrite Z.land_ones, Z.shiftr_div_pow2 by lia.
  rewrite u8_id; Z.div_mod_to_equations; lia.
Qed.

(** The hour register, decoded in any of the four modes. *)
Definition rtc_hour (bcd h12 : bool) (r : Z) : Z :=
  let h := if bcd then bcd_to_bin (Z.land r 0x7f) else Z.land r 0x7f in
  if h12 then h mod 12 + (if has r 0x80 then 12 else 0) else h.
Lemma rtc_hour_spec bcd h12 dt :
  0 ≤ hour dt < 24 → rtc_hour bcd h12 (rtc_registers bcd h12 dt 0x04) = hour dt.
Proof.
  intros Hh. unfold rtc_registers; cbn [Z.eqb Pos.eqb].
  assert (Hall : forallb (λ h, rtc_hour bcd h12
     (let f n := if bcd then to_bcd n else n in
      if h12 then f (if h mod 12 =? 0 then 12 else h mod 12) + (if 12 <=? h then 0x80 else 0)
      else f h) =? h) (seqZ 0 24) = true)
    by (destruct bcd, h12; vm_compute; reflexivity).
  rewrite forallb_forall in Hall. apply Z.eqb_eq, Hall.
  apply list_elem_of_In, elem_of_seqZ. lia.
Qed.

(** the CMOS clock is read right in all its modes.  Whether the chip counts
    in BCD or binary, with a 12-hour or a 24-hour clock, the registers that hold a
    date of the years 2000 to 2099 decode to the unix time of that date. *)
Theorem rtc_decodes bcd h12 dt :
  valid_datetime dt → 2000 ≤ year dt ≤ 2099 →
  rtc_get_timestamp (rtc_registers bcd h12 dt) = Some (unix_of dt).
Proof.
  intros Hv Hy. pose proof Hv as [Hs Hmi Hh Hmo Hd _].
  destruct (days_before_month_bounds (month dt) (is_leap (year dt)) Hmo) as (? & ? & ?).
  assert (to_unix_timestamp (mk_datetime (second dt) (minute dt)
      (rtc_hour bcd h12 (rtc_registers bcd h12 dt 0x04)) (day dt) (month dt)
      (u32 (year dt - 2000 + 2000))) = Some (unix_of dt)) as <-.
  { rewrite rtc_hour_spec by done. rewrite Z.sub_add, u32_id by lia.
    rewrite <-to_unix_spec by done. by destruct dt. }
  unfold rtc_get_timestamp, rtc_hour.
  assert (Hreg : ∀ n, 0 ≤ n < 100 → (if bcd then bcd_to_bin (if bcd then to_bcd n else n) else
     (if bcd then to_bcd n else n)) = n)
    by (intros n Hn; destruct bcd; [by apply bcd_round_trip|done]).
  cbn [second minute hour day month year].
  assert (rtc_registers bcd h12 dt 0x0b = (if bcd then 0 else 0x04) + (if h12 then 0 else 0x02))
    as -> by reflexivity.
  set (r := rtc_registers bcd h12 dt 0x04).
  unfold rtc_registers; cbn [Z.eqb Pos.eqb].
  destruct bcd, h12; cbn [negb Z.add has Z.land Z.eqb Pos.land Pos.eqb N.succ_double N.double
    second minute hour day month year]; try rewrite !bcd_round_trip by lia; done.
Qed.

Lemma rtc_decodes_witness :
  rtc_get_timestamp (rtc_registers true true (mk_datetime 7 30 0 29 2 2024))
  = Some (unix_of (mk_datetime 7 30 0 29 2 2024)).
Proof.
  apply (rtc_decodes true true (mk_datetime 7 30 0 29 2 2024)).
  - split; vm_compute; split; discriminate || reflexivity.
  - vm_compute. split; discriminate.
Defined.

(** ** kernel/drivers/timer.c: the clock

    The page that the kernel shares with user programs (uapi/vvar.h) holds the
    time of the start, set from the CMOS clock, and the milliseconds since. *)


Record vvar_t := mk_vvar {
  boot_time : Z;
  uptime_ms : Z;
}.
Definition pit_tick (v : vvar_t) : vvar_t := mk_vvar (boot_time v) (u64 (uptime_ms v + 1)).
Definition get_time (v : vvar_t) : Z := u64 (boot_time v + uptime_ms v / 1000).
Definition get_uptime_seconds (v : vvar_t) : Z := uptime_ms v / 1000.
Definition get_uptime_milliseconds (v : vvar_t) : Z := uptime_ms v.
