(* ===== verification/Mem.v ===== *)
(** * kernel/memory/mman.c: memcpy, memmove, memset, memcmp

    Memory is a total function from addresses to bytes.  The word loops move
    eight bytes at a time through [load64] and [store64] (little endian), as the
    uint64_t accesses of the code do. *)

From S2P Require Import Prelude.

Definition mem : Type := Z → Z.
Definition mem_wf (m : mem) : Prop := ∀ a, 0 ≤ m a < 256.

Definition upd (m : mem) (a v : Z) : mem := λ x, if x =? a then v else m x.

(** [n] bytes from [a] on, as a little-endian number, and back. *)
Fixpoint load_le (n : nat) (m : mem) (a : Z) : Z :=
  match n with
  | O => 0
  | S n => Z.lor (m a) (Z.shiftl (load_le n m (a + 1)) 8)
  end.
Fixpoint store_le (n : nat) (m : mem) (a v : Z) : mem :=
  match n with
  | O => m
  | S n => store_le n (upd m a (Z.land v 0xFF)) (a + 1) (Z.shiftr v 8)
  end.
Definition load64 : mem → Z → Z := load_le 8.
Definition store64 : mem → Z → Z → mem := store_le 8.

(** ** memcmp *)

Fixpoint memcmp_loop (n : nat) (m : mem) (ptr1 ptr2 i : Z) : Z :=
  match n with
  | O => 0
  | S n =>
    if negb (m (ptr1 + i) =? m (ptr2 + i)) then m (ptr1 + i) - m (ptr2 + i)
    else memcmp_loop n m ptr1 ptr2 (i + 1)
  end.
Definition memcmp (m : mem) (ptr1 ptr2 n : Z) : Z := memcmp_loop (Z.to_nat n) m ptr1 ptr2 0.

(** ** memcpy: bytes up to an aligned destination, words, bytes *)

(** [while (n && (d & mask)) *d++ = *s++; n--] *)
Fixpoint copy_head (n : nat) (m : mem) (d s : Z) : mem * Z * Z * nat :=
  match n with
  | O => (m, d, s, O)
  | S n' =>
    if has d 7 then copy_head n' (upd m d (m s)) (d + 1) (s + 1) else (m, d, s, n)
  end.
(** [while (n >= 8)], [k] words. *)
Fixpoint copy_words64 (k : nat) (m : mem) (d s : Z) : mem :=
  match k with
  | O => m
  | S k => copy_words64 k (store64 m d (load64 m s)) (d + 8) (s + 8)
  end.
Fixpoint copy_tail (n : nat) (m : mem) (d s : Z) : mem :=
  match n with
  | O => m
  | S n => copy_tail n (upd m d (m s)) (d + 1) (s + 1)
  end.
Definition memcpy (m : mem) (dest src n : Z) : mem :=
  let '(m, d, s, n) := copy_head (Z.to_nat n) m dest src in
  let k := (n / 8)%nat in
  let m := copy_words64 k m d s in
  copy_tail (n - 8 * k) m (d + 8 * Z.of_nat k) (s + 8 * Z.of_nat k).

(** ** memset *)

(** The mask of the code is [sizeof((uintptr_t) - 1)], which is 8, not 7. *)
Fixpoint set_head (n : nat) (m : mem) (p c : Z) : mem * Z * nat :=
  match n with
  | O => (m, p, O)
  | S n' => if has p 8 then set_head n' (upd m p c) (p + 1) c else (m, p, n)
  end.
Fixpoint splat (i : nat) (word c : Z) : Z :=
  match i with
  | O => word
  | S i => splat i (u64 (Z.lor (Z.shiftl word 8) c)) c
  end.
Fixpoint set_words (k : nat) (m : mem) (p word : Z) : mem :=
  match k with
  | O => m
  | S k => set_words k (store64 m p word) (p + 8) word
  end.
Fixpoint set_tail (n : nat) (m : mem) (p c : Z) : mem :=
  match n with
  | O => m
  | S n => set_tail n (upd m p c) (p + 1) c
  end.
Definition memset (m : mem) (ptr value n : Z) : mem :=
  let c := u8 value in
  let '(m, p, n) := set_head (Z.to_nat n) m ptr c in
  let word := splat 8 0 c in
  let k := (n / 8)%nat in
  let m := set_words k m p word in
  set_tail (n - 8 * k) m (p + 8 * Z.of_nat k) c.

(** ** memmove *)

(** [for (i = n; i > 0; i--) d[i-1] = s[i-1]] *)
Fixpoint copy_back (i : nat) (m : mem) (d s : Z) : mem :=
  match i with
  | O => m
  | S i => copy_back i (upd m (d + Z.of_nat i) (m (s + Z.of_nat i))) d s
  end.
Definition memmove (m : mem) (dest src n : Z) : mem :=
  if (dest <? src) || (src + n <=? dest) then memcpy m dest src n
  else copy_back (Z.to_nat n) m dest src.

(** ** What they do, byte by byte *)

Definition copied (m : mem) (d s n : Z) : mem :=
  λ x, if (d <=? x) && (x <? d + n) then m (s + (x - d)) else m x.
Definition filled (m : mem) (p c n : Z) : mem :=
  λ x, if (p <=? x) && (x <? p + n) then c else m x.

Lemma upd_eq m a v x : x = a → upd m a v x = v.
Proof. intros ->. unfold upd. by rewrite Z.eqb_refl. Qed.
Lemma upd_ne m a v x : x ≠ a → upd m a v x = m x.
Proof. intros. unfold upd. by rewrite (proj2 (Z.eqb_neq x a)). Qed.

(** Case analysis on the range tests of a goal. *)
Ltac range_cases :=
  repeat match goal with
  | |- context [?a <=? ?b] => destruct (Z.leb_spec a b)
  | |- context [?a <? ?b] => destruct (Z.ltb_spec a b)
  | |- context [?a =? ?b] => destruct (Z.eqb_spec a b)
  end; cbn [andb orb negb].

Lemma load_le_range n m a : mem_wf m → 0 ≤ load_le n m a < 2 ^ (8 * Z.of_nat n).
Proof.
  intros Hm. revert a. induction n as [|n IH]; intros a; cbn [load_le]; [lia|].
  specialize (IH (a + 1)). specialize (Hm a).
  rewrite Z.lor_comm, lor_shiftl by lia.
  replace (8 * Z.of_nat (S n)) with (8 * Z.of_nat n + 8) by lia. rewrite Z.pow_add_r by lia. nia.
Qed.

Lemma store_le_spec n m a v x :
  0 ≤ v →
  store_le n m a v x =
    if (a <=? x) && (x <? a + Z.of_nat n) then v / 2 ^ (8 * (x - a)) mod 256 else m x.
Proof.
  revert m a v. induction n as [|n IH]; intros m a v Hv; cbn [store_le].
  - range_cases; done || lia.
  - rewrite IH by (by apply Z.shiftr_nonneg). rewrite Z.shiftr_div_pow2 by lia.
    change 0xFF with (Z.ones 8). rewrite Z.land_ones by lia.
    unfold upd. range_cases; try lia; try done.
    + rewrite Z.div_div, <-Z.pow_add_r by lia. do 3 f_equal. lia.
    + subst x. by rewrite Z.sub_diag, Z.div_1_r.
Qed.

Lemma load_le_byte n m a i :
  mem_wf m → 0 ≤ i < Z.of_nat n → load_le n m a / 2 ^ (8 * i) mod 256 = m (a + i).
Proof.
  intros Hm. revert a i. induction n as [|n IH]; intros a i Hi; [lia|]. cbn [load_le].
  pose proof (Hm a) as Ha. pose proof (load_le_range n m (a + 1) Hm) as Hr.
  rewrite Z.lor_comm, lor_shiftl by lia.
  destruct (decide (i = 0)) as [->|].
  - rewrite Z.div_1_r, Z.add_0_r. rewrite Z.add_comm, Z.mod_add by lia.
    by apply Z.mod_small.
  - replace (8 * i) with (8 + 8 * (i - 1)) by lia. rewrite Z.pow_add_r by lia.
    rewrite <-Z.div_div by lia. rewrite Z.add_comm, Z.div_add by lia.
    rewrite (Z.div_small (m a)) by lia. rewrite Z.add_0_l, IH by lia. f_equal. lia.
Qed.

Lemma store64_load64 m d s x :
  mem_wf m → store64 m d (load64 m s) x = copied m d s 8 x.
Proof.
  intros Hm. unfold store64, load64, copied.
  rewrite store_le_spec by (apply (load_le_range 8); done).
  change (Z.of_nat 8) with 8. range_cases; try done. by rewrite load_le_byte by (done || lia).
Qed.

(** ** The copy loops *)

(** A forward copy is right when the destination is below the source or past it. *)
Definition forward_ok (d s n : Z) : Prop := d ≤ s ∨ s + n ≤ d.

Lemma mem_wf_ext m m' : (∀ x, m x = m' x) → mem_wf m' → mem_wf m.
Proof. intros H Hm a. rewrite H. apply Hm. Qed.
Lemma copied_wf m d s n : mem_wf m → mem_wf (copied m d s n).
Proof. intros Hm a. unfold copied. range_cases; apply Hm. Qed.

(** Copying [a] bytes and then [b] more. *)
Lemma copied_app m m1 m2 d s a b :
  0 ≤ a → 0 ≤ b → forward_ok d s (a + b) →
  (∀ x, m1 x = copied m d s a x) → (∀ x, m2 x = copied m1 (d + a) (s + a) b x) →
  ∀ x, m2 x = copied m d s (a + b) x.
Proof.
  intros Ha Hb Hf H1 H2 x. rewrite H2. unfold copied at 1.
  rewrite !H1. unfold forward_ok, copied in *. range_cases; try lia; try done; f_equal; lia.
Qed.

Lemma copy_tail_spec n m d s :
  forward_ok d s (Z.of_nat n) → ∀ x, copy_tail n m d s x = copied m d s (Z.of_nat n) x.
Proof.
  revert m d s. induction n as [|n IH]; intros m d s Hf x; cbn [copy_tail].
  - unfold copied. range_cases; done || lia.
  - replace (Z.of_nat (S n)) with (1 + Z.of_nat n) in * by lia.
    revert x. eapply (copied_app m (upd m d (m s))); [lia|lia|done| |].
    + intros x. unfold upd, copied. range_cases; try lia; try done. f_equal. lia.
    + apply IH. unfold forward_ok in *. lia.
Qed.

Lemma copy_words64_spec k m d s :
  mem_wf m → forward_ok d s (8 * Z.of_nat k) →
  ∀ x, copy_words64 k m d s x = copied m d s (8 * Z.of_nat k) x.
Proof.
  revert m d s. induction k as [|k IH]; intros m d s Hm Hf x; cbn [copy_words64].
  - unfold copied. range_cases; done || lia.
  - replace (8 * Z.of_nat (S k)) with (8 + 8 * Z.of_nat k) in * by lia.
    revert x. eapply (copied_app m (store64 m d (load64 m s))); [lia|lia|done| |].
    + intros x. by apply store64_load64.
    + apply IH; [|unfold forward_ok in *; lia].
      eapply mem_wf_ext; [intros z; by apply store64_load64|by apply copied_wf].
Qed.

Lemma copy_head_spec n m d s m' d' s' n' :
  forward_ok d s (Z.of_nat n) → copy_head n m d s = (m', d', s', n') →
  ∃ a, 0 ≤ a ∧ d' = d + a ∧ s' = s + a ∧ Z.of_nat n = a + Z.of_nat n' ∧
    ∀ x, m' x = copied m d s a x.
Proof.
  revert m d s. induction n as [|n IH]; intros m d s Hf H; cbn [copy_head] in H.
  - injection H as <- <- <- <-. exists 0. split_and!; try lia.
    intros x. unfold copied. range_cases; done || lia.
  - destruct (has d 7).
    + apply IH in H as (a & Ha & -> & -> & Hn & Hm); [|unfold forward_ok in *; lia].
      exists (1 + a). split_and!; try lia.
      apply (copied_app m (upd m d (m s))); [lia|lia|unfold forward_ok in *; lia| |exact Hm].
      intros x. unfold upd, copied. range_cases; try lia; try done. f_equal. lia.
    + injection H as <- <- <- <-. exists 0. split_and!; try lia.
      intros x. unfold copied. range_cases; done || lia.
Qed.

Lemma memcpy_spec m d s n :
  mem_wf m → 0 ≤ n → forward_ok d s n → ∀ x, memcpy m d s n x = copied m d s n x.
Proof.
  intros Hm Hn Hf. unfold memcpy.
  destruct (copy_head (Z.to_nat n) m d s) as [[[m1 d1] s1] n1] eqn:Hh.
  apply copy_head_spec in Hh as (a & Ha & -> & -> & Hn1 & H1); [|by rewrite Z2Nat.id].
  rewrite Z2Nat.id in Hn1 by done. subst n. set (k := (n1 / 8)%nat).
  assert (Hk : (8 * k ≤ n1)%nat) by (apply Nat.Div0.mul_div_le).
  assert (Hm1 : mem_wf m1) by (eapply mem_wf_ext; [exact H1|by apply copied_wf]).
  apply (copied_app m m1); [lia|lia|done|exact H1|].
  replace (Z.of_nat n1) with (8 * Z.of_nat k + Z.of_nat (n1 - 8 * k)) by lia.
  apply (copied_app m1 (copy_words64 k m1 (d + a) (s + a)));
    [lia|lia|unfold forward_ok in *; lia| |].
  - apply copy_words64_spec; [done|unfold forward_ok in *; lia].
  - apply copy_tail_spec. unfold forward_ok in *; lia.
Qed.

Lemma copy_back_spec n m d s :
  s ≤ d → ∀ x, copy_back n m d s x = copied m d s (Z.of_nat n) x.
Proof.
  intros Hd. revert m. induction n as [|n IH]; intros m x; cbn [copy_back].
  - unfold copied. range_cases; done || lia.
  - rewrite IH. unfold copied, upd. range_cases; try lia; try done; f_equal; lia.
Qed.

(** memmove copies any block, overlapping or not: afterwards byte i of the
    destination is what byte i of the source was before, and nothing else has
    changed.  memcpy does the same whenever the blocks do not overlap, and also
    when they do and the destination starts first. *)
Theorem memmove_correct m dest src n :
  mem_wf m → 0 ≤ n →
  (∀ x, memmove m dest src n x =
     if (dest <=? x) && (x <? dest + n) then m (src + (x - dest)) else m x) ∧
  (dest ≤ src ∨ src + n ≤ dest → ∀ x, memcpy m dest src n x = memmove m dest src n x).
Proof.
  intros Hm Hn.
  assert (Hmove : ∀ x, memmove m dest src n x = copied m dest src n x).
  { unfold memmove. intros x. destruct (Z.ltb_spec dest src), (Z.leb_spec (src + n) dest);
      cbn [orb]; try (apply memcpy_spec; [done|done|unfold forward_ok; lia]).
    rewrite copy_back_spec by lia. by rewrite Z2Nat.id by done. }
  split; [exact Hmove|]. intros Hf x. by rewrite Hmove, memcpy_spec.
Qed.

Definition mem_example : mem := λ a, Z.land a 0xFF.
Lemma mem_example_wf : mem_wf mem_example.
Proof.
  intros a. unfold mem_example. change 0xFF with (Z.ones 8).
  rewrite Z.land_ones by lia. apply Z.mod_pos_bound. lia.
Qed.

Lemma memmove_correct_witness :
  memmove mem_example 1003 1000 20 1010 = 239 ∧ memmove mem_example 1000 1003 20 1000 = 235 ∧
  memcpy mem_example 1000 1003 20 1000 = memmove mem_example 1000 1003 20 1000.
Proof.
  destruct (memmove_correct mem_example 1003 1000 20 mem_example_wf) as [H1 _]; [lia|].
  destruct (memmove_correct mem_example 1000 1003 20 mem_example_wf) as [H2 H3]; [lia|].
  rewrite H1, H2. split_and!; [reflexivity|reflexivity|].
  rewrite H3 by (left; lia). apply H2.
Defined.

(** ** memset *)

Lemma splat_byte c i : 0 ≤ c < 256 → 0 ≤ i < 8 → splat 8 0 c / 2 ^ (8 * i) mod 256 = c.
Proof.
  intros Hc Hi.
  assert (Hall : forallb (λ c, forallb (λ i, splat 8 0 c / 2 ^ (8 * i) mod 256 =? c) (seqZ 0 8))
    (seqZ 0 256) = true) by (vm_compute; reflexivity).
  rewrite forallb_forall in Hall. setoid_rewrite forallb_forall in Hall.
  setoid_rewrite <-list_elem_of_In in Hall.
  specialize (Hall c ltac:(apply elem_of_seqZ; lia) i ltac:(apply elem_of_seqZ; lia)).
  by apply Z.eqb_eq.
Qed.
Lemma splat_nonneg c : 0 ≤ splat 8 0 c.
Proof. cbn [splat]. apply u64_range. Qed.

Lemma filled_app m m1 m2 p c a b :
  0 ≤ a → 0 ≤ b → (∀ x, m1 x = filled m p c a x) → (∀ x, m2 x = filled m1 (p + a) c b x) →
  ∀ x, m2 x = filled m p c (a + b) x.
Proof.
  intros Ha Hb H1 H2 x. rewrite H2. unfold filled at 1. rewrite H1.
  unfold filled. range_cases; done || lia.
Qed.

Lemma set_tail_spec n m p c : ∀ x, set_tail n m p c x = filled m p c (Z.of_nat n) x.
Proof.
  revert m p. induction n as [|n IH]; intros m p x; cbn [set_tail].
  - unfold filled. range_cases; done || lia.
  - rewrite IH. unfold filled, upd. range_cases; done || lia.
Qed.

Lemma set_words_spec k m p c :
  0 ≤ c < 256 → ∀ x, set_words k m p (splat 8 0 c) x = filled m p c (8 * Z.of_nat k) x.
Proof.
  intros Hc. revert m p. induction k as [|k IH]; intros m p x; cbn [set_words].
  - unfold filled. range_cases; done || lia.
  - rewrite IH. unfold filled, store64. rewrite store_le_spec by apply splat_nonneg.
    change (Z.of_nat 8) with 8. range_cases; try lia; try done.
    by apply splat_byte; [|lia].
Qed.

Lemma set_head_spec n m p c m' p' n' :
  set_head n m p c = (m', p', n') →
  ∃ a, 0 ≤ a ∧ p' = p + a ∧ Z.of_nat n = a + Z.of_nat n' ∧ ∀ x, m' x = filled m p c a x.
Proof.
  assert (H0 : ∀ m p c x, m x = filled m p c 0 x)
    by (intros; unfold filled; range_cases; done || lia).
  revert m p. induction n as [|n IH]; intros m p H; cbn [set_head] in H.
  - injection H as <- <- <-. exists 0. split_and!; try lia. apply H0.
  - destruct (has p 8).
    + apply IH in H as (a & Ha & -> & Hn & Hm). exists (1 + a). split_and!; try lia.
      intros x. rewrite Hm. unfold filled, upd. range_cases; done || lia.
    + injection H as <- <- <-. exists 0. split_and!; try lia. apply H0.
Qed.

Lemma memset_spec m ptr value n :
  0 ≤ n → ∀ x, memset m ptr value n x =
    if (ptr <=? x) && (x <? ptr + n) then value mod 256 else m x.
Proof.
  intros Hn. change (∀ x, memset m ptr value n x = filled m ptr (u8 value) n x). unfold memset.
  destruct (set_head (Z.to_nat n) m ptr (u8 value)) as [[m1 p1] n1] eqn:Hh.
  apply set_head_spec in Hh as (a & Ha & -> & Hn1 & H1).
  rewrite Z2Nat.id in Hn1 by done. subst n. set (k := (n1 / 8)%nat).
  assert (Hk : (8 * k ≤ n1)%nat) by (apply Nat.Div0.mul_div_le).
  apply (filled_app m m1); [lia|lia|exact H1|].
  replace (Z.of_nat n1) with (8 * Z.of_nat k + Z.of_nat (n1 - 8 * k)) by lia.
  apply (filled_app m1 (set_words k m1 (ptr + a) (splat 8 0 (u8 value)))); [lia|lia| |].
  - apply set_words_spec, u8_range.
  - apply set_tail_spec.
Qed.

(** memset sets exactly the n bytes from ptr on to the low byte of its
    argument, whatever the alignment of ptr (the alignment mask of its first loop
    is 8, not 7, which costs alignment but never a byte). *)
Theorem memset_correct m ptr value n :
  0 ≤ n → ∀ x, memset m ptr value n x =
    if (ptr <=? x) && (x <? ptr + n) then value mod 256 else m x.
Proof. apply memset_spec. Qed.

Lemma memset_correct_witness :
  memset mem_example 1003 (-1) 21 1023 = 255 ∧ memset mem_example 1003 (-1) 21 1024 = 0.
Proof.
  split; rewrite (memset_correct mem_example 1003 (-1) 21) by lia; reflexivity.
Defined.

(** ** memcmp *)

Lemma memcmp_loop_spec n m p q i :
  (memcmp_loop n m p q i = 0 ∧ ∀ j, i ≤ j < i + Z.of_nat n → m (p + j) = m (q + j)) ∨
  ∃ j, i ≤ j < i + Z.of_nat n ∧ m (p + j) ≠ m (q + j) ∧
    (∀ k, i ≤ k < j → m (p + k) = m (q + k)) ∧
    memcmp_loop n m p q i = m (p + j) - m (q + j).
Proof.
  revert i. induction n as [|n IH]; intros i; cbn [memcmp_loop]; [left; split; [done|lia]|].
  destruct (Z.eqb_spec (m (p + i)) (m (q + i))) as [He|Hne]; cbn [negb].
  - destruct (IH (i + 1)) as [[-> H]|(j & Hj & Hne & Hk & ->)].
    + left. split; [done|]. intros j Hj. destruct (decide (j = i)) as [->|]; [done|].
      apply H. lia.
    + right. exists j. split_and!; try done; try lia. intros k Hki.
      destruct (decide (k = i)) as [->|]; [done|]. apply Hk. lia.
  - right. exists i. split_and!; try done; lia.
Qed.

(** memcmp compares lexicographically.  It is 0 exactly when the two blocks
    are equal; otherwise its sign is that of the first pair of different
    bytes. *)
Theorem memcmp_correct m p q n :
  mem_wf m → 0 ≤ n →
  (memcmp m p q n = 0 ↔ ∀ j, 0 ≤ j < n → m (p + j) = m (q + j)) ∧
  (memcmp m p q n < 0 ↔
     ∃ j, 0 ≤ j < n ∧ m (p + j) < m (q + j) ∧ ∀ k, 0 ≤ k < j → m (p + k) = m (q + k)).
Proof.
  intros Hm Hn. unfold memcmp.
  destruct (memcmp_loop_spec (Z.to_nat n) m p q 0) as [[-> H]|(j & Hj & Hne & Hk & ->)];
    rewrite Z.add_0_l, Z2Nat.id in * by done.
  - split; [done|]. split; [lia|]. intros (j & Hj & Hlt & _). rewrite H in Hlt by lia. lia.
  - split; [split; [lia|]; intros H; by destruct Hne; apply H|]. split.
    + intros Hlt. exists j. split_and!; try lia. done.
    + intros (i & Hi & Hlt & Hki). destruct (Z.lt_trichotomy i j) as [?|[->|?]]; [|lia|].
      * rewrite Hk in Hlt by lia. lia.
      * rewrite Hki in Hne by lia. done.
Qed.

Lemma memcmp_correct_witness :
  memcmp mem_example 0 256 100 = 0 ∧ memcmp mem_example 10 11 1 < 0.
Proof.
  destruct (memcmp_correct mem_example 0 256 100 mem_example_wf) as [[_ H] _]; [lia|].
  destruct (memcmp_correct mem_example 10 11 1 mem_example_wf) as [_ [_ H']]; [lia|].
  split.
  - apply H. intros j Hj. unfold mem_example. change 0xFF with (Z.ones 8).
    rewrite !Z.land_ones by lia.
    replace (256 + j) with (0 + j + 1 * 2 ^ 8) by lia. by rewrite Z.mod_add by lia.
  - apply H'. exists 0. split_and!; [lia|lia|reflexivity|intros; lia].
Defined.
