(* ===== verification/Heap.v ===== *)
(** * kernel/memory/mman.c: the kernel heap

    The array [map] is the list of its first [map_index] entries.  The bytes of
    the heap are a memory of their own (kernel addresses mean the same in every
    address space); the pages behind them are the state of Paging. *)

From S2P Require Import Prelude Paging PagingAlloc PagingMap Mem.

Definition ALLOC_MAP_SIZE : Z := 1024.

Record mapped_region := mk_region {
  start : Z;
  pages : Z;
  rfree : bool;
}.

Record kheap := mk_kheap {
  kernel_heap_start : Z;
  map : list mapped_region;
  pg : paging;
  bytes : mem;
}.

Definition set_map (m : list mapped_region) (s : kheap) : kheap :=
  mk_kheap (kernel_heap_start s) m (pg s) (bytes s).
Definition set_pg (p : paging) (s : kheap) : kheap :=
  mk_kheap (kernel_heap_start s) (map s) p (bytes s).
Definition set_bytes (b : mem) (s : kheap) : kheap :=
  mk_kheap (kernel_heap_start s) (map s) (pg s) b.

(** Run an operation of the page tables. *)
Definition lift_pg {A} (m : K paging A) : K kheap A := λ s,
  match m (pg s) with
  | Done (a, p) => Done (a, set_pg p s)
  | Panic => Panic
  | Fault => Fault
  | OutOfFuel => OutOfFuel
  end.

(** [pages] is an int: the 64-bit difference wraps and is cut to 32 bits. *)
Definition init_mman (executable_size : Z) : K kheap unit :=
  let st := PAGE_ALIGN (u64 (0xFFFFFFFF80000000 + executable_size)) in
  kmodify (λ s, mk_kheap st [mk_region st (s32 (u64 (0xFFFFFFFFF - st / PAGE_SIZE))) true]
                  (pg s) (bytes s)).

(** The first entry that is free and large enough. *)
Definition fits (size : Z) (r : mapped_region) : bool := rfree r && (size <=? u64 (pages r)).
Fixpoint find_fit (l : list mapped_region) (size : Z) : option (nat * mapped_region) :=
  match l with
  | [] => None
  | r :: l =>
    if fits size r then Some (O, r)
    else match find_fit l size with Some (i, r) => Some (S i, r) | None => None end
  end.

Definition find_available_va (size : Z) : K kheap Z :=
  s ← kget;
  match find_fit (map s) size with
  | None => kpanic
  | Some (i, r) =>
    (if size <? u64 (pages r) then
       kmodify (λ s, set_map (map s ++
         [mk_region (u64 (start r + size * PAGE_SIZE)) (s32 (pages r - size)) true]) s);;
       s ← kget;
       if ALLOC_MAP_SIZE <=? zlen (map s) then kpanic else mret tt
     else mret tt);;
    kmodify (λ s, set_map (<[i := mk_region (start r) (s32 size) false]> (map s)) s);;
    mret (start r)
  end.

(** The scan of kfree: the last entry that starts at [address]. *)
Fixpoint find_last (l : list mapped_region) (address : Z) (i : nat) (found : nat * Z) : nat * Z :=
  match l with
  | [] => found
  | r :: l =>
    find_last l address (S i)
      (if start r =? address then (i, pages r * PAGE_SIZE) else found)
  end.

Fixpoint free_pages_loop (n : nat) (address : Z) : K kheap unit :=
  match n with
  | O => mret tt
  | S n => lift_pg (free_page address);; free_pages_loop n (u64 (address + PAGE_SIZE))
  end.

(** The int product [map[i].pages * PAGE_SIZE] must not overflow. *)
Definition kfree (ptr : Z) : K kheap unit :=
  s ← kget;
  if ptr <? kernel_heap_start s then mret tt
  else
    let '(pointer_map_index, size) := find_last (map s) ptr 0 (O, 0) in
    (if INT_MAX <? size then kfault else mret tt);;
    free_pages_loop (Z.to_nat (size / PAGE_SIZE)) ptr;;
    kmodify (λ s, set_map (alter (λ r, mk_region (start r) (pages r) true)
                             pointer_map_index (map s)) s).

Definition kmalloc (size : Z) : K kheap Z :=
  ptr ← find_available_va (PAGE_ALIGN size / PAGE_SIZE);
  lift_pg (alloc_region ptr size (Z.lor FLAGS_PRESENT FLAGS_RW));;
  kmodify (λ s, set_bytes (memset (bytes s) ptr 0 size) s);;
  mret ptr.

Definition kcalloc (num size_per_element : Z) : K kheap Z :=
  kmalloc (u64 (num * size_per_element)).

Definition krealloc (ptr old_size new_size : Z) : K kheap Z :=
  if ptr =? 0 then kmalloc new_size
  else if new_size =? 0 then kfree ptr;; mret 0
  else
    new_ptr ← kmalloc new_size;
    if new_ptr =? 0 then mret 0
    else
      kmodify (λ s, set_bytes (memcpy (bytes s) new_ptr ptr
                     (if old_size <? new_size then old_size else new_size)) s);;
      kfree ptr;;
      mret new_ptr.

(** ** The invariant: the regions tile the heap *)

Definition heap_end : Z := 0xFFFFFFFFFFFFF000.
Definition rend (r : mapped_region) : Z := start r + pages r * PAGE_SIZE.
Definition apart (r q : mapped_region) : Prop := rend r ≤ start q ∨ rend q ≤ start r.
Definition total_pages (l : list mapped_region) : Z := foldr (λ r n, pages r + n) 0 l.

Record heap_wf (s : kheap) : Prop := {
  hw_start : 0 ≤ kernel_heap_start s ≤ heap_end ∧ kernel_heap_start s mod PAGE_SIZE = 0;
  hw_size : (heap_end - kernel_heap_start s) / PAGE_SIZE < 2 ^ 19;
  hw_len : 1 ≤ zlen (map s) < ALLOC_MAP_SIZE;
  hw_region : ∀ i r, map s !! i = Some r →
    0 ≤ pages r ∧ start r mod PAGE_SIZE = 0 ∧ kernel_heap_start s ≤ start r ∧ rend r ≤ heap_end;
  hw_apart : ∀ i j r q, map s !! i = Some r → map s !! j = Some q → i ≠ j → apart r q;
  hw_total : total_pages (map s) = (heap_end - kernel_heap_start s) / PAGE_SIZE;
}.

Lemma hw_pages s i r : heap_wf s → map s !! i = Some r → 0 ≤ pages r < 2 ^ 19.
Proof.
  intros Hwf Hi. destruct (hw_region _ Hwf i r Hi) as (Hp & Ha & Hs & He).
  pose proof (hw_size _ Hwf). unfold rend, PAGE_SIZE in *. split; [done|].
  Z.div_mod_to_equations. lia.
Qed.

Lemma find_fit_Some l size i r :
  find_fit l size = Some (i, r) → l !! i = Some r ∧ fits size r = true.
Proof.
  revert i. induction l as [|q l IH]; intros i H; [done|]. cbn [find_fit] in H.
  destruct (fits size q) eqn:Hf; [by simplify_eq|].
  destruct (find_fit l size) as [[k r']|]; [|done]. simplify_eq. by apply IH.
Qed.
Lemma find_fit_None l size : find_fit l size = None → Forall (λ r, fits size r = false) l.
Proof.
  induction l as [|q l IH]; intros H; [done|]. cbn [find_fit] in H.
  destruct (fits size q) eqn:Hf; [done|]. destruct (find_fit l size) as [[]|]; [done|].
  constructor; auto.
Qed.

Lemma total_pages_app l k : total_pages (l ++ k) = total_pages l + total_pages k.
Proof. induction l as [|r l IH]; simpl; [done|]. rewrite IH. lia. Qed.
Lemma total_pages_insert l i r q :
  l !! i = Some r → total_pages (<[i := q]> l) = total_pages l - pages r + pages q.
Proof.
  revert i. induction l as [|p l IH]; intros [|i] H; simplify_eq/=; [lia|].
  rewrite IH by done. lia.
Qed.

(** Same places, other flags. *)
Lemma heap_wf_flags s l :
  heap_wf s → ((λ r, (start r, pages r)) <$> l = (λ r, (start r, pages r)) <$> map s) →
  ∀ p b, heap_wf (mk_kheap (kernel_heap_start s) l p b).
Proof.
  intros Hwf Heq p b.
  assert (Hlook : ∀ i r, l !! i = Some r → ∃ q, map s !! i = Some q ∧
            start q = start r ∧ pages q = pages r).
  { intros i r Hi. assert (Hm : (λ r, (start r, pages r)) <$> l !! i = Some (start r, pages r))
      by by rewrite Hi.
    rewrite <-list_lookup_fmap, Heq, list_lookup_fmap in Hm.
    destruct (map s !! i) as [q|]; [|done]. simpl in Hm. simplify_eq. by exists q. }
  destruct Hwf as [H1 H2 H3 H4 H5 H6]. split; cbn; try done.
  - apply (f_equal length) in Heq. rewrite !length_fmap in Heq. unfold zlen in *. by rewrite Heq.
  - intros i r Hi. destruct (Hlook i r Hi) as (q & Hq & E1 & E2).
    unfold rend. rewrite <-E1, <-E2. by apply (H4 i).
  - intros i j r q Hi Hj Hne. destruct (Hlook i r Hi) as (r' & Hr' & E1 & E2).
    destruct (Hlook j q Hj) as (q' & Hq' & E3 & E4).
    unfold apart, rend. rewrite <-E1, <-E2, <-E3, <-E4. by apply (H5 i j).
  - rewrite <-H6. clear -Heq. revert Heq. generalize (map s). induction l as [|r l IH];
      intros [|q k] Heq; simplify_eq/=; [done|]. rewrite (IH k) by done. lia.
Qed.

(** Cutting a region in two pieces, the first in its place, the second appended. *)
Lemma split_wf s i r n b1 b2 :
  heap_wf s → map s !! i = Some r → 0 ≤ n ≤ pages r → zlen (map s) + 1 < ALLOC_MAP_SIZE →
  heap_wf (set_map (<[i := mk_region (start r) n b1]>
    (map s ++ [mk_region (start r + n * PAGE_SIZE) (pages r - n) b2])) s).
Proof.
  intros [H1 H2 H3 H4 H5 H6] Hi Hn Hlen.
  set (r1 := mk_region (start r) n b1). set (r2 := mk_region _ (pages r - n) b2).
  destruct (H4 i r Hi) as (Hp & Ha & Hs & He). unfold rend in He.
  assert (Hi' : (i < length (map s))%nat) by (by eapply lookup_lt_Some).
  rewrite insert_app_l by done.
  (* an entry of the new list is one of three *)
  assert (Hcases : ∀ k q, (<[i:=r1]> (map s) ++ [r2]) !! k = Some q →
    (k = i ∧ q = r1) ∨ (k = length (map s) ∧ q = r2) ∨
    (k ≠ i ∧ (k < length (map s))%nat ∧ map s !! k = Some q)).
  { intros k q Hk. apply lookup_app_Some in Hk as [Hk|[Hge Hk]].
    - apply list_lookup_insert_Some in Hk as [(-> & -> & _)|[Hne Hk]]; [by left|].
      right; right. split_and!; [congruence|by eapply lookup_lt_Some|done].
    - rewrite length_insert in Hge, Hk.
      apply list_lookup_singleton_Some in Hk as [Hk <-]. right; left. split; [lia|done]. }
  assert (Hin : ∀ q, q = r1 ∨ q = r2 → start r ≤ start q ∧ rend q ≤ start r + pages r * PAGE_SIZE)
    by (intros q [->| ->]; unfold rend, r1, r2, PAGE_SIZE in *; cbn; lia).
  assert (Hother : ∀ k q p, k ≠ i → map s !! k = Some q → (p = r1 ∨ p = r2) →
            apart q p ∧ apart p q).
  { intros k q p Hne Hk Hpr. apply Hin in Hpr. unfold apart.
    destruct (H5 k i q r Hk Hi Hne) as [Hap|Hap]; unfold rend in *; lia. }
  split; cbn [set_map map kernel_heap_start]; try done.
  - autorewrite with zlist. unfold zlen in *. rewrite length_insert. lia.
  - intros k q Hk. destruct (Hcases k q Hk) as [[-> ->]|[[-> ->]|(_ & _ & Hk')]]; [| |by apply (H4 k)];
      unfold rend, r1, r2, PAGE_SIZE in *; cbn; split_and!; try lia;
      Z.div_mod_to_equations; lia.
  - intros j k q p Hj Hk Hne.
    destruct (Hcases j q Hj) as [[-> ->]|[[-> ->]|(N1 & _ & Hj')]];
      destruct (Hcases k p Hk) as [[-> ->]|[[-> ->]|(N2 & _ & Hk')]]; try done.
    + left. unfold rend, r1, r2; cbn. lia.
    + apply (Hother k p r1); auto.
    + right. unfold rend, r1, r2; cbn. lia.
    + apply (Hother k p r2); auto.
    + apply (Hother j q r1); auto.
    + apply (Hother j q r2); auto.
    + by apply (H5 j k).
  - rewrite total_pages_app, (total_pages_insert _ _ r) by done. unfold r1, r2; cbn. lia.
Qed.

Definition take_result (s : kheap) (i : nat) (r : mapped_region) (n : Z) : list mapped_region :=
  if n <? pages r
  then <[i := mk_region (start r) n false]>
         (map s ++ [mk_region (start r + n * PAGE_SIZE) (pages r - n) true])
  else <[i := mk_region (start r) n false]> (map s).

Lemma find_available_Done' s n ptr s' :
  heap_wf s → 0 ≤ n → find_available_va n s = Done (ptr, s') →
  ∃ i r, map s !! i = Some r ∧ rfree r = true ∧ n ≤ pages r ∧ ptr = start r ∧
    s' = set_map (take_result s i r n) s ∧ heap_wf s'.
Proof.
  intros Hwf Hn H. unfold find_available_va in H.
  apply K_bind_Done in H as (sx & s0 & Hg & H). unfold kget in Hg. injection Hg as <- <-.
  destruct (find_fit (map s) n) as [[i r]|] eqn:Hfit; [|discriminate H].
  apply find_fit_Some in Hfit as [Hi Hf]. unfold fits in Hf.
  apply andb_true_iff in Hf as [Hfree Hsize]. apply Z.leb_le in Hsize.
  pose proof (hw_pages _ _ _ Hwf Hi) as Hp. rewrite u64_id in H, Hsize by lia.
  destruct (hw_region _ Hwf i r Hi) as (_ & Ha & Hs & He).
  destruct (hw_start _ Hwf) as [Hhs _].
  exists i, r. apply K_bind_Done in H as (u & s1 & H1 & H).
  apply K_bind_Done in H as (u2 & s2 & H2 & H). unfold mret, K_ret in H.
  unfold kmodify in H2. injection H2 as _ <-. injection H as <- <-.
  rewrite s32_id by lia. unfold take_result. destruct (Z.ltb_spec n (pages r)).
  - apply K_bind_Done in H1 as (u3 & s3 & H3 & H1). unfold kmodify in H3. injection H3 as _ <-.
    apply K_bind_Done in H1 as (sx & s3 & Hg & H1). unfold kget in Hg. injection Hg as <- <-.
    rewrite u64_id in H1 by (unfold rend, heap_end, PAGE_SIZE in *; lia).
    rewrite s32_id in H1 by lia. cbn [set_map map] in H1.
    rewrite zlen_app in H1. change (zlen [_]) with 1 in H1.
    destruct (Z.leb_spec ALLOC_MAP_SIZE (zlen (map s) + 1)); [discriminate H1|].
    unfold mret, K_ret in H1. injection H1 as _ <-. cbn [set_map map].
    split_and!; try done. apply (split_wf s i r n false true); done || lia.
  - unfold mret, K_ret in H1. injection H1 as _ <-.
    assert (n = pages r) as -> by lia.
    split_and!; try done. apply heap_wf_flags; [done|].
    apply list_eq. intros k. rewrite !list_lookup_fmap.
    destruct (decide (k = i)) as [->|].
    + rewrite list_lookup_insert_eq by (by eapply lookup_lt_Some). by rewrite Hi.
    + by rewrite list_lookup_insert_ne.
Qed.

(** ** Every operation keeps it *)

Lemma heap_wf_set_pg p s : heap_wf s → heap_wf (set_pg p s).
Proof. intros H. by apply (heap_wf_flags s (map s)). Qed.
Lemma heap_wf_set_bytes b s : heap_wf s → heap_wf (set_bytes b s).
Proof. intros H. by apply (heap_wf_flags s (map s)). Qed.

Lemma keeps_lift_pg {A} (m : K paging A) : keeps heap_wf (lift_pg m).
Proof.
  intros s a s' Hs H. unfold lift_pg in H. destruct (m (pg s)) as [[a' p]| | |]; simplify_eq.
  by apply heap_wf_set_pg.
Qed.
Lemma keeps_find_available_va n : 0 ≤ n → keeps heap_wf (find_available_va n).
Proof. intros Hn s a s' Hs H.
  apply find_available_Done' in H as (i & r & ? & ? & ? & ? & ? & ?); done.
Qed.
Lemma keeps_bytes f : keeps heap_wf (kmodify (λ s, set_bytes (f s) s)).
Proof. apply keeps_modify. intros s. apply heap_wf_set_bytes. Qed.
Lemma keeps_free_pages n a : keeps heap_wf (free_pages_loop n a).
Proof.
  revert a. induction n as [|n IH]; intros a; [apply keeps_ret|].
  apply keeps_bind; [apply keeps_lift_pg|intros _; apply IH].
Qed.
#[export] Hint Resolve keeps_lift_pg keeps_bytes keeps_free_pages : keeps.

Lemma keeps_mark_free i :
  keeps heap_wf (kmodify (λ s, set_map (alter (λ r, mk_region (start r) (pages r) true) i (map s)) s)).
Proof.
  apply keeps_modify. intros s Hs. apply heap_wf_flags; [done|].
  apply list_eq. intros k. rewrite !list_lookup_fmap.
  destruct (decide (k = i)) as [->|]; [|by rewrite list_lookup_alter_ne].
  rewrite list_lookup_alter_eq. by destruct (map s !! i).
Qed.
#[export] Hint Resolve keeps_mark_free : keeps.

Lemma keeps_kfree ptr : keeps heap_wf (kfree ptr).
Proof. unfold kfree. keeps_tac. Qed.

Lemma page_count_nonneg size : 0 ≤ PAGE_ALIGN size / PAGE_SIZE.
Proof.
  apply Z.div_pos; [|done]. unfold PAGE_ALIGN. apply Z.land_nonneg. left. apply u64_range.
Qed.

Lemma keeps_kmalloc size : keeps heap_wf (kmalloc size).
Proof.
  unfold kmalloc. apply keeps_bind; [apply keeps_find_available_va, page_count_nonneg|intros ptr].
  keeps_tac.
Qed.
#[export] Hint Resolve keeps_kfree keeps_kmalloc : keeps.

Lemma keeps_krealloc ptr old new : keeps heap_wf (krealloc ptr old new).
Proof. unfold krealloc. keeps_tac. Qed.

Inductive heap_op := HMalloc (size : Z) | HCalloc (n size : Z) | HRealloc (p old new : Z) | HFree (p : Z).
Definition run_heap_op (o : heap_op) : K kheap Z :=
  match o with
  | HMalloc n => kmalloc n
  | HCalloc n m => kcalloc n m
  | HRealloc p a b => krealloc p a b
  | HFree p => kfree p;; mret 0
  end.
Fixpoint run_heap_ops (l : list heap_op) : K kheap unit :=
  match l with
  | [] => mret tt
  | o :: l => run_heap_op o;; run_heap_ops l
  end.

Lemma keeps_heap_ops l : keeps heap_wf (run_heap_ops l).
Proof.
  induction l as [|o l IH]; [apply keeps_ret|].
  apply keeps_bind; [|intros _; apply IH].
  destruct o; cbn [run_heap_op]; unfold kcalloc;
    auto using keeps_kmalloc, keeps_krealloc.
  keeps_tac.
Qed.

(** No operation moves the heap. *)
Section keeps_start.
Context (h : Z).
Notation at_h := (λ s : kheap, kernel_heap_start s = h).

Lemma keeps_start_lift {A} (m : K paging A) : keeps at_h (lift_pg m).
Proof.
  intros s a s' Hs H. unfold lift_pg in H. by destruct (m (pg s)) as [[a' p]| | |]; simplify_eq.
Qed.
Lemma keeps_start_modify (f : kheap → kheap) :
  (∀ s, kernel_heap_start (f s) = kernel_heap_start s) → keeps at_h (kmodify f).
Proof. intros Hf. apply keeps_modify. intros s Hs. by rewrite Hf. Qed.
Lemma keeps_start_free n a : keeps at_h (free_pages_loop n a).
Proof.
  revert a. induction n as [|n IH]; intros a; [apply keeps_ret|].
  apply keeps_bind; [apply keeps_start_lift|intros _; apply IH].
Qed.
Hint Resolve keeps_start_lift keeps_start_free : keeps.
Ltac start_tac := keeps_tac; try (apply keeps_start_modify; done).

Lemma keeps_start_kfree p : keeps at_h (kfree p).
Proof. unfold kfree. start_tac. Qed.
Lemma keeps_start_find n : keeps at_h (find_available_va n).
Proof. unfold find_available_va. start_tac. Qed.
Hint Resolve keeps_start_kfree keeps_start_find : keeps.
Lemma keeps_start_kmalloc n : keeps at_h (kmalloc n).
Proof. unfold kmalloc. start_tac. Qed.
Hint Resolve keeps_start_kmalloc : keeps.
Lemma keeps_start_krealloc p a b : keeps at_h (krealloc p a b).
Proof. unfold krealloc. start_tac. Qed.
Hint Resolve keeps_start_krealloc : keeps.
Lemma keeps_start_ops l : keeps at_h (run_heap_ops l).
Proof.
  induction l as [|o l IH]; [apply keeps_ret|].
  apply keeps_bind; [|intros _; apply IH].
  destruct o; cbn [run_heap_op]; unfold kcalloc; start_tac.
Qed.
End keeps_start.

(** The heap of a kernel image of [exec] bytes: page counts up to 0x7FFFF, so the
    int arithmetic on them is exact. *)
Lemma init_mman_wf exec s s' :
  0 ≤ exec ≤ 2 ^ 31 - 2 ^ 13 → init_mman exec s = Done (tt, s') →
  heap_wf s' ∧ ∃ r, map s' = [r] ∧ start r = kernel_heap_start s' ∧ rend r = heap_end ∧ rfree r = true.
Proof.
  intros He H. unfold init_mman, kmodify in H. injection H as <-.
  rewrite (u64_id (0xFFFFFFFF80000000 + exec)) by lia.
  rewrite page_align_spec by (unfold PAGE_SIZE; lia).
  set (k := (0xFFFFFFFF80000000 + exec - 1) / PAGE_SIZE + 1).
  assert (Hk : 0xFFFFFFFF80000 ≤ k ≤ 0xFFFFFFFFFFFFF - 1)
    by (unfold k, PAGE_SIZE; Z.div_mod_to_equations; lia).
  rewrite page_div.
  assert (s32 (u64 (0xFFFFFFFFF - k)) = 0xFFFFFFFFFFFFF - k) as ->
    by (unfold s32, u64; Z.div_mod_to_equations; lia).
  assert (Hend : heap_end = 0xFFFFFFFFFFFFF * PAGE_SIZE) by reflexivity.
  assert (Htot : (heap_end - k * PAGE_SIZE) / PAGE_SIZE = 0xFFFFFFFFFFFFF - k)
    by (rewrite Hend, <-Z.mul_sub_distr_r; apply page_div).
  split.
  - split; cbn; rewrite ?Htot; try lia; try (split; done).
    + rewrite Hend. unfold PAGE_SIZE in *. split; [lia|]. by apply Z.mod_mul.
    + intros [|i] r Hr; simplify_eq/=. unfold rend; cbn. rewrite Hend.
      unfold PAGE_SIZE in *. split_and!; try lia. by apply Z.mod_mul.
    + intros [|i] [|j] r q Hr Hq; simplify_eq/=; done.
  - eexists. split; [done|]. cbn. split_and!; [done| |done]. unfold rend; cbn.
    rewrite Hend. lia.
Qed.

(** C11: the regions of the kernel heap tile it.  From init_mman on, with any kernel
    image below 2 GiB, every sequence of kmalloc, kcalloc, krealloc and kfree that
    completes, with whatever sizes and pointers (also pointers that were never
    allocated, or were freed before), leaves a map of fewer than 1024 regions that are
    page aligned, pairwise disjoint and together exactly the heap up to the last page
    of the address space.  (This is about the regions, not about who uses them: a block
    of 0 bytes has the address of the block behind it, which its kfree frees,
    [kfree_zero_block_frees_neighbour].) *)
Theorem heap_regions_tile exec ops s0 s1 s2 u :
  0 ≤ exec ≤ 2 ^ 31 - 2 ^ 13 → init_mman exec s0 = Done (tt, s1) →
  run_heap_ops ops s1 = Done (u, s2) →
  heap_wf s2 ∧ kernel_heap_start s2 = kernel_heap_start s1.
Proof.
  intros He Hinit Hrun. destruct (init_mman_wf _ _ _ He Hinit) as [Hwf _].
  split; [by apply (keeps_heap_ops ops _ _ _ Hwf Hrun)|].
  by apply (keeps_start_ops (kernel_heap_start s1) ops _ _ _ eq_refl Hrun).
Qed.

(** An empty machine, before init_mman. *)
Definition heap_boot : kheap := mk_kheap 0 [] (boot_state 16 2) (λ _, 0xAA).

Definition heap_at (exec : Z) : kheap :=
  match init_mman exec heap_boot with Done (_, s) => s | _ => heap_boot end.

Lemma heap_regions_tile_witness :
  ∃ s2, run_heap_ops [HMalloc 100; HFree 0xFFFFFFFF80002000; HRealloc 0 0 5000] (heap_at 0x1234)
      = Done (tt, s2) ∧ heap_wf s2.
Proof.
  destruct (completes_Done (run_heap_ops [HMalloc 100; HFree 0xFFFFFFFF80002000; HRealloc 0 0 5000]
    (heap_at 0x1234))) as [[[] s2] Hr]; [vm_compute; reflexivity|].
  exists s2. split; [exact Hr|].
  apply (heap_regions_tile 0x1234 [HMalloc 100; HFree 0xFFFFFFFF80002000; HRealloc 0 0 5000]
    heap_boot (heap_at 0x1234) s2 tt); [lia|reflexivity|exact Hr].
Defined.

(** ** kmalloc and kfree *)

Lemma lift_pg_Done {A} (m : K paging A) s a s' :
  lift_pg m s = Done (a, s') → ∃ p, s' = set_pg p s.
Proof. unfold lift_pg. destruct (m (pg s)) as [[b p]| | |]; naive_solver. Qed.

Lemma take_result_lookup s i r n :
  map s !! i = Some r →
  take_result s i r n !! i = Some (mk_region (start r) n false) ∧
  ∀ j q, j ≠ i → map s !! j = Some q → take_result s i r n !! j = Some q.
Proof.
  intros Hi. pose proof (lookup_lt_Some _ _ _ Hi) as Hlt. unfold take_result.
  destruct (n <? pages r).
  - split; [apply list_lookup_insert_eq; rewrite length_app; lia|].
    intros j q Hne Hj. rewrite list_lookup_insert_ne by done.
    rewrite lookup_app_l; [done|by eapply lookup_lt_Some].
  - split; [by apply list_lookup_insert_eq|].
    intros j q Hne Hj. by rewrite list_lookup_insert_ne.
Qed.

(** kmalloc returns fresh, zeroed memory.  When it completes, the block is
    the start of a region that was free, now marked in use and at least [size]
    bytes long; no other region of the map has changed, every other region is
    disjoint from it, its [size] bytes are 0 and no other byte of the heap has
    changed. *)
Theorem kmalloc_fresh s size ptr s' :
  heap_wf s → 0 ≤ size < 2 ^ 63 → kmalloc size s = Done (ptr, s') →
  heap_wf s' ∧ ∃ i r n,
    map s !! i = Some r ∧ rfree r = true ∧ start r = ptr ∧
    map s' !! i = Some (mk_region ptr n false) ∧ size ≤ n * PAGE_SIZE ∧
    (∀ j q, j ≠ i → map s !! j = Some q → map s' !! j = Some q) ∧
    (∀ j q, j ≠ i → map s' !! j = Some q →
       rend q ≤ ptr ∨ ptr + n * PAGE_SIZE ≤ start q) ∧
    (∀ x, ptr ≤ x < ptr + size → bytes s' x = 0) ∧
    (∀ x, ¬ (ptr ≤ x < ptr + size) → bytes s' x = bytes s x).
Proof.
  intros Hwf Hsize H. pose proof (keeps_kmalloc size _ _ _ Hwf H) as Hwf'. split; [exact Hwf'|].
  unfold kmalloc in H. apply K_bind_Done in H as (p & s1 & H1 & H).
  destruct (find_available_Done' _ _ _ _ Hwf (page_count_nonneg size) H1)
    as (i & r & Hi & Hf & Hn & -> & -> & Hwf1).
  apply K_bind_Done in H as (u & s2 & H2 & H). apply lift_pg_Done in H2 as [p ->].
  apply K_bind_Done in H as (u2 & s3 & H3 & H). unfold kmodify in H3. injection H3 as _ <-.
  unfold mret, K_ret in H. injection H as <- <-.
  set (n := PAGE_ALIGN size / PAGE_SIZE) in *.
  destruct (take_result_lookup s i r n Hi) as [Hi' Hother].
  exists i, r, n. cbn [set_bytes set_pg set_map map bytes] in *.
  assert (size ≤ n * PAGE_SIZE).
  { unfold n. unfold PAGE_ALIGN. rewrite u64_id, page_mask_land, page_div by (unfold PAGE_SIZE; lia).
    unfold PAGE_SIZE. Z.div_mod_to_equations. lia. }
  split_and!; try done.
  - intros j q Hne Hj. pose proof (hw_apart _ Hwf' j i q _ Hj Hi' Hne) as Hap.
    unfold apart, rend in Hap. cbn in Hap. unfold rend. lia.
  - intros x Hx. rewrite memset_spec by lia.
    by rewrite (proj2 (Z.leb_le _ _)), (proj2 (Z.ltb_lt _ _)) by lia.
  - intros x Hx. rewrite memset_spec by lia.
    destruct (Z.leb_spec (start r) x), (Z.ltb_spec x (start r + size)); done || lia.
Qed.

Lemma kmalloc_fresh_witness :
  ∃ ptr s', kmalloc 100 (heap_at 0x1234) = Done (ptr, s') ∧ bytes s' ptr = 0 ∧
    bytes s' (ptr + 100) = 0xAA.
Proof.
  destruct (completes_Done (kmalloc 100 (heap_at 0x1234))) as [[ptr s'] Hr];
    [vm_compute; reflexivity|].
  exists ptr, s'. split; [exact Hr|].
  destruct (kmalloc_fresh (heap_at 0x1234) 100 ptr s') as (_ & i & r & n & _ & _ & _ & _ & _ & _ & _ & Hz & Ho).
  - apply (init_mman_wf 0x1234 heap_boot); [lia|reflexivity].
  - lia.
  - exact Hr.
  - split; [apply Hz; lia|]. rewrite Ho by lia. reflexivity.
Defined.

(** A block of 0 bytes shares its address with the next block: freeing it
    releases the other one, which is still in use. *)
Lemma kfree_zero_block_frees_neighbour :
  match (p ← kmalloc 0; q ← kmalloc 100; kfree p;; r ← kmalloc 100; mret (p, q, r))
          (heap_at 0x1234) with
  | Done ((p, q, r), _) => p = q ∧ q = r
  | _ => False
  end.
Proof. vm_compute. split; reflexivity. Qed.
