(* ===== verification/Break.v ===== *)
(** * kernel/usermode/break.c: the program break

    The break of the current task, and the page tables that back it. *)

From S2P Require Import Prelude Paging PagingAlloc.

Definition USER_MAX : Z := 0x00007FFFFFFFFFFF.
Definition NULL : Z := 0.
Definition MINUS_ONE : Z := 2 ^ 64 - 1.

(** The two fields of current_task the file uses; [None] is a NULL task. *)
Record task_break := mk_break {
  brk : Z;
  initial_brk : Z;
}.
Record brk_state := mk_brk_state {
  current_task : option task_break;
  tables : paging;
}.

Definition lift_tables {A} (m : K paging A) : K brk_state A := λ s,
  match m (tables s) with
  | Done (a, p) => Done (a, mk_brk_state (current_task s) p)
  | Panic => Panic
  | Fault => Fault
  | OutOfFuel => OutOfFuel
  end.

Definition page_align_up (addr : Z) : Z := Z.land (u64 (addr + 0xFFF)) PAGE_MASK.

(** memset on user memory: each byte through the page tables. *)
Definition store_byte (va v : Z) : K paging unit :=
  s ← kget;
  frame ← kopt (translate s va);
  let pa := frame + Z.land va (PAGE_SIZE - 1) in
  let sh := 8 * (pa mod 8) in
  let w := word (pm s) (pa / 8) in
  kput (set_pm (<[pa / 8 := Z.lor (Z.land w (Z.lnot (Z.shiftl 0xFF sh))) (Z.shiftl v sh)]> (pm s)) s).
Fixpoint user_memset (n : nat) (va v : Z) : K paging unit :=
  match n with
  | O => mret tt
  | S n => store_byte va v;; user_memset n (u64 (va + 1)) v
  end.

Definition set_brk (addr : Z) : K brk_state Z :=
  s ← kget;
  match current_task s with
  | None => mret NULL
  | Some t =>
    if addr =? NULL then mret (brk t)
    else
      let old_brk := brk t in
      let new_brk := addr in
      if new_brk <? initial_brk t then mret NULL
      else if USER_MAX <? new_brk then mret NULL
      else if old_brk <? initial_brk t then mret NULL
      else
        let old_page_end := page_align_up old_brk in
        let new_page_end := page_align_up new_brk in
        (if old_page_end <? new_page_end then
           lift_tables (alloc_region old_page_end (new_page_end - old_page_end)
                          (Z.lor FLAGS_USER FLAGS_RW));;
           lift_tables (user_memset (Z.to_nat (new_page_end - old_page_end)) old_page_end 0)
         else if new_page_end <? old_page_end then
           lift_tables (free_region new_page_end (old_page_end - new_page_end))
         else mret tt);;
        kmodify (λ s, mk_brk_state
          ((λ t, mk_break addr (initial_brk t)) <$> current_task s) (tables s));;
        mret addr
  end.

Definition sbrk (increment : Z) : K brk_state Z :=
  s ← kget;
  match current_task s with
  | None => mret MINUS_ONE
  | Some t =>
    if brk t =? NULL then mret MINUS_ONE
    else
      let old_brk := brk t in
      if 0 <? increment then
        let amount := increment in
        if u64 (2 ^ 64 - 1 - old_brk) <? amount then mret MINUS_ONE
        else
          let new_brk := u64 (old_brk + amount) in
          if USER_MAX <? new_brk then mret MINUS_ONE
          else
            r ← set_brk new_brk;
            if r =? NULL then mret MINUS_ONE else mret old_brk
      else if increment <? 0 then
        let amount := u64 (s64 (- (s64 (increment + 1))) + 1) in
        if (old_brk <? initial_brk t) || (u64 (old_brk - initial_brk t) <? amount)
        then mret MINUS_ONE
        else
          let new_brk := u64 (old_brk - amount) in
          r ← set_brk new_brk;
          if r =? NULL then mret MINUS_ONE else mret old_brk
      else mret old_brk
  end.

(** ** The break stays in range *)

Definition brk_ok (t : task_break) : Prop := 0 < initial_brk t ∧ initial_brk t ≤ brk t ≤ USER_MAX.

Lemma lift_tables_task {A} (m : K paging A) s a s' :
  lift_tables m s = Done (a, s') → current_task s' = current_task s.
Proof. unfold lift_tables. destruct (m (tables s)) as [[b p]| | |]; naive_solver. Qed.

Lemma set_brk_spec addr s t r s' :
  current_task s = Some t → brk_ok t → 0 < addr < 2 ^ 64 → set_brk addr s = Done (r, s') →
  if (initial_brk t <=? addr) && (addr <=? USER_MAX)
  then r = addr ∧ current_task s' = Some (mk_break addr (initial_brk t))
  else r = NULL ∧ s' = s.
Proof.
  intros Ht [Hi Hb] Ha H. unfold set_brk in H.
  apply K_bind_Done in H as (sx & s0 & Hg & H). unfold kget in Hg. injection Hg as <- <-.
  rewrite Ht in H. destruct (Z.eqb_spec addr NULL) as [Hn|_]; [unfold NULL in Hn; lia|].
  destruct (Z.ltb_spec addr (initial_brk t)), (Z.leb_spec (initial_brk t) addr);
    cbn [andb]; try lia; [unfold mret, K_ret in H; by simplify_eq|].
  destruct (Z.ltb_spec USER_MAX addr), (Z.leb_spec addr USER_MAX); try lia;
    [unfold mret, K_ret in H; by simplify_eq|].
  destruct (Z.ltb_spec (brk t) (initial_brk t)); [lia|].
  apply K_bind_Done in H as (u & s1 & Hrun & H).
  assert (Hs1 : current_task s1 = Some t).
  { rewrite <-Ht. destruct (_ <? _).
    - apply K_bind_Done in Hrun as (v & s2 & Hr1 & Hr2).
      apply lift_tables_task in Hr1, Hr2. congruence.
    - destruct (_ <? _); [by apply lift_tables_task in Hrun|].
      unfold mret, K_ret in Hrun. by simplify_eq. }
  apply K_bind_Done in H as (v & s2 & Hm & H). unfold kmodify in Hm. injection Hm as _ <-.
  unfold mret, K_ret in H. injection H as <- <-. cbn. by rewrite Hs1.
Qed.

(** C12: sbrk moves the break exactly when it may.  For a task whose break is
    between its initial break and the top of user space, and for every signed
    64-bit increment (the smallest one included: no step of the arithmetic wraps),
    a call that completes either finds the new break inside the same bounds,
    returns the old break and moves it by the increment, or returns -1 and changes
    nothing at all. *)
Theorem sbrk_correct increment s t r s' :
  current_task s = Some t → brk_ok t → - 2 ^ 63 ≤ increment < 2 ^ 63 →
  sbrk increment s = Done (r, s') →
  if (initial_brk t <=? brk t + increment) && (brk t + increment <=? USER_MAX)
  then r = brk t ∧ current_task s' = Some (mk_break (brk t + increment) (initial_brk t))
  else r = MINUS_ONE ∧ s' = s.
Proof.
  intros Ht [Hi Hb] Hinc H. unfold sbrk in H. pose proof (conj Hi Hb : brk_ok t) as Hok.
  apply K_bind_Done in H as (sx & s0 & Hg & H). unfold kget in Hg. injection Hg as <- <-.
  rewrite Ht in H. assert (HU : USER_MAX < 2 ^ 47) by reflexivity.
  destruct (Z.eqb_spec (brk t) NULL) as [Hn|_]; [unfold NULL in Hn; lia|].
  assert (Hset : ∀ n, n = brk t + increment → 0 < n < 2 ^ 64 →
    (r ← set_brk n; if r =? NULL then mret MINUS_ONE else mret (brk t)) s = Done (r, s') →
    if (initial_brk t <=? brk t + increment) && (brk t + increment <=? USER_MAX)
    then r = brk t ∧ current_task s' = Some (mk_break (brk t + increment) (initial_brk t))
    else r = MINUS_ONE ∧ s' = s).
  { intros n -> Hn Hr. apply K_bind_Done in Hr as (q & s1 & Hq & Hr).
    pose proof (set_brk_spec _ _ _ _ _ Ht Hok Hn Hq) as Hspec.
    destruct (_ && _); destruct Hspec as [-> Hs].
    - rewrite (proj2 (Z.eqb_neq _ _)) in Hr by (unfold NULL; lia).
      unfold mret, K_ret in Hr. by simplify_eq.
    - subst s1. cbn in Hr. unfold mret, K_ret in Hr. by simplify_eq. }
  destruct (Z.ltb_spec 0 increment).
  - rewrite (u64_id (2 ^ 64 - 1 - brk t)) in H by lia.
    destruct (Z.ltb_spec (2 ^ 64 - 1 - brk t) increment); [lia|].
    rewrite (u64_id (brk t + increment)) in H by lia.
    destruct (Z.ltb_spec USER_MAX (brk t + increment)).
    + rewrite (proj2 (Z.leb_gt (brk t + increment) USER_MAX)), andb_false_r by lia.
      unfold mret, K_ret in H. by simplify_eq.
    + apply (Hset _ eq_refl); [lia|exact H].
  - destruct (Z.ltb_spec increment 0).
    + rewrite (s64_id (increment + 1)), (s64_id (- (increment + 1))),
        (u64_id (- (increment + 1) + 1)) in H by lia.
      rewrite (u64_id (brk t - initial_brk t)) in H by lia.
      rewrite (proj2 (Z.ltb_ge (brk t) (initial_brk t))) in H by lia. cbn [orb] in H.
      destruct (Z.ltb_spec (brk t - initial_brk t) (- (increment + 1) + 1)).
      * rewrite (proj2 (Z.leb_gt (initial_brk t) _)) by lia. unfold mret, K_ret in H. by simplify_eq.
      * rewrite u64_id in H by lia. apply (Hset (brk t - (- (increment + 1) + 1))); [lia|lia|exact H].
    + assert (increment = 0) as -> by lia. unfold mret, K_ret in H. injection H as <- <-.
      rewrite Z.add_0_r. rewrite (proj2 (Z.leb_le _ _)), (proj2 (Z.leb_le _ _)) by lia.
      split; [done|]. by destruct t.
Qed.

Lemma sbrk_correct_witness :
  ∃ s', sbrk 4097 (mk_brk_state (Some (mk_break 0x400010 0x400000)) (boot_state 16 2))
      = Done (0x400010, s') ∧ current_task s' = Some (mk_break 0x401011 0x400000).
Proof.
  set (s := mk_brk_state _ _).
  destruct (completes_Done (sbrk 4097 s)) as [[r s'] Hr]; [vm_compute; reflexivity|].
  pose proof (sbrk_correct 4097 s (mk_break 0x400010 0x400000) r s'
    eq_refl ltac:(split; [reflexivity|split; discriminate]) ltac:(lia) Hr) as Hc.
  destruct Hc as [-> Hc]. exists s'. split; [exact Hr|exact Hc].
Defined.
