(* ===== verification/Path.v ===== *)
(** * kernel/vfs.c: path strings

    A C string is the list of its bytes before the terminating 0; a buffer of
    MAX_PATH bytes holds at most MAX_PATH - 1 of them.  [resolve_path] keeps its
    output buffer as the reversed list [r], so that [out[len - 1]] is its head. *)

From S2P Require Import Prelude.

Definition MAX_PATH : Z := 4096.
Definition SLASH : Z := 47.
Definition DOT : Z := 46.

Definition is_slash (c : Z) : bool := c =? SLASH.

(** ** String functions of vfs.c *)

Fixpoint strcmp (s1 s2 : list Z) : Z :=
  match s1, s2 with
  | c1 :: t1, c2 :: t2 => if c1 =? c2 then strcmp t1 t2 else c1 - c2
  | c1 :: _, [] => c1
  | [], c2 :: _ => - c2
  | [], [] => 0
  end.

(** [strncpy(dest, src, n)] into a zeroed or later terminated buffer. *)
Definition strncpy (src : list Z) (n : Z) : list Z := ztake n src.

(** Writing past the end of out[MAX_PATH] is a [Fault] ([None]). *)
Definition make_absolute (wd path : list Z) : option (list Z) :=
  if bool_decide (head path = Some SLASH) then Some (strncpy path (MAX_PATH - 1))
  else
    let out := ztake (MAX_PATH - 1) wd in
    let out := if bool_decide (last out = Some SLASH) then out else out ++ [SLASH] in
    let out := out ++ ztake (MAX_PATH - 1 - zlen out) path in
    if zlen out <? MAX_PATH then Some out else None.

Fixpoint skip_slashes (p : list Z) : list Z :=
  match p with
  | c :: q => if is_slash c then skip_slashes q else p
  | [] => []
  end.

(** [path[0] == '.' && (path[1] == '/' || path[1] == '\0')] *)
Definition is_dot (p : list Z) : bool :=
  match p with
  | c :: q => (c =? DOT) && match q with [] => true | d :: _ => is_slash d end
  | [] => false
  end.
Definition is_dotdot (p : list Z) : bool :=
  match p with
  | c :: q => (c =? DOT) && is_dot q
  | [] => false
  end.

(** [while (len > 1 && out[len - 1] != '/') len--] *)
Fixpoint backtrack (r : list Z) : list Z :=
  match r with
  | c :: ((_ :: _) as q) => if is_slash c then r else backtrack q
  | _ => r
  end.

Definition last_is_slash (r : list Z) : bool :=
  match r with c :: _ => is_slash c | [] => false end.

(** Copy up to the next slash, or until the buffer is full. *)
Fixpoint copy_component (p r : list Z) : list Z * list Z :=
  match p with
  | c :: q =>
    if negb (is_slash c) && (zlen r <? MAX_PATH - 1) then copy_component q (c :: r)
    else (p, r)
  | [] => ([], r)
  end.

Fixpoint resolve_loop (fuel : nat) (p r : list Z) : option (list Z) :=
  if bool_decide (p = []) || (MAX_PATH - 1 <=? zlen r) then Some r
  else match fuel with
  | O => None
  | S fuel =>
    if is_dot p then resolve_loop fuel (tail p) r
    else if is_dotdot p then
      let r :=
        if 1 <? zlen r then backtrack (if last_is_slash r then tail r else r) else r in
      let p := drop 2 p in
      resolve_loop fuel (if last_is_slash p then tail p else p) r
    else
      let r := if last_is_slash r then r else SLASH :: r in
      let '(p, r) := copy_component p r in
      resolve_loop fuel (skip_slashes p) r
  end.

Definition resolve_path (path : list Z) : option (list Z) :=
  match path with
  | [] => Some [SLASH]
  | _ =>
    r ← resolve_loop (S (length path)) (skip_slashes path) [SLASH];
    Some (reverse r)
  end.

(** dir[MAX_PATH] and filename[MAX_PATH]; the negative result is -ENAMETOOLONG. *)
Fixpoint last_slash (p : list Z) (i : Z) (found : option Z) : option Z :=
  match p with
  | c :: q => last_slash q (i + 1) (if is_slash c then Some i else found)
  | [] => found
  end.
Definition split_path (path : list Z) : Z * list Z * list Z :=
  if MAX_PATH <=? zlen path then (- ENAMETOOLONG, [], [])
  else
    match last_slash path 0 None with
    | None => (0, [], path)
    | Some slash =>
      let dir_length := if slash =? 0 then 1 else slash in
      (0, ztake dir_length path, zdrop (slash + 1) path)
    end.

(** ** Reference: paths as lists of components *)

Fixpoint split_slash (p : list Z) : list (list Z) :=
  match p with
  | [] => [[]]
  | c :: q =>
    if is_slash c then [] :: split_slash q
    else match split_slash q with
         | w :: ws => (c :: w) :: ws
         | [] => [[c]]
         end
  end.
Fixpoint drop_empty (l : list (list Z)) : list (list Z) :=
  match l with
  | [] => []
  | [] :: l => drop_empty l
  | w :: l => w :: drop_empty l
  end.
Definition components (p : list Z) : list (list Z) := drop_empty (split_slash p).

(** The directory reached by a list of names; the stack is innermost first. *)
Fixpoint walk_names (st : list (list Z)) (names : list (list Z)) : list (list Z) :=
  match names with
  | [] => st
  | w :: names =>
    if bool_decide (w = [DOT]) then walk_names st names
    else if bool_decide (w = [DOT; DOT]) then walk_names (tail st) names
    else walk_names (w :: st) names
  end.
Definition canonical (p : list Z) : list (list Z) := reverse (walk_names [] (components p)).

Definition no_slash (w : list Z) : Prop := Forall (λ c, is_slash c = false) w.
Definition at_end (q : list Z) : Prop := q = [] ∨ ∃ t, q = SLASH :: t.

Lemma split_slash_app w q :
  no_slash w → split_slash (w ++ q) =
    match split_slash q with v :: vs => (w ++ v) :: vs | [] => [w] end.
Proof.
  induction w as [|c w IH]; intros Hw; simpl.
  - destruct (split_slash q) eqn:Hq; [|done]. by destruct q as [|c q]; simpl in Hq; repeat case_match.
  - apply Forall_cons in Hw as [Hc Hw]. rewrite Hc, IH by done. by destruct (split_slash q).
Qed.

Lemma components_app w q :
  no_slash w → at_end q →
  components (w ++ q) = (if bool_decide (w = []) then [] else [w]) ++ components q.
Proof.
  intros Hw Hq. unfold components. rewrite split_slash_app by done.
  destruct Hq as [->|[t ->]]; simpl.
  - rewrite app_nil_r. by destruct w.
  - change (is_slash SLASH) with true. cbn. rewrite app_nil_r. by destruct w.
Qed.

Lemma components_slash t : components (SLASH :: t) = components t.
Proof. done. Qed.

Lemma components_skip p : components (skip_slashes p) = components p.
Proof.
  induction p as [|c p IH]; [done|]. simpl. destruct (is_slash c) eqn:Hc; [|done].
  unfold is_slash in Hc. apply Z.eqb_eq in Hc as ->. rewrite IH. done.
Qed.

(** ** The output buffer as a stack of components *)

(** The reversed buffer holding the components [st], without a trailing slash. *)
Fixpoint rendered (st : list (list Z)) : list Z :=
  match st with
  | [] => []
  | c :: st => reverse c ++ SLASH :: rendered st
  end.
Definition good_name (w : list Z) : Prop :=
  no_slash w ∧ w ≠ [] ∧ w ≠ [DOT] ∧ w ≠ [DOT; DOT].

(** The buffer shows the components [st]; with or without a trailing slash. *)
Inductive shows : list Z → list (list Z) → Prop :=
| shows_slash st : shows (SLASH :: rendered st) st
| shows_name c st : shows (rendered (c :: st)) (c :: st).

Lemma split_slash_join x y : split_slash (x ++ SLASH :: y) = split_slash x ++ split_slash y.
Proof.
  induction x as [|c x IH]; [done|]. simpl. rewrite IH. destruct (is_slash c); [done|].
  destruct (split_slash x) eqn:Hx; [|done]. by destruct x as [|d x]; simpl in Hx; repeat case_match.
Qed.
Lemma drop_empty_app l k : drop_empty (l ++ k) = drop_empty l ++ drop_empty k.
Proof. induction l as [|[|c w] l IH]; simpl; [done|done|by rewrite IH]. Qed.
Lemma components_join x y : components (x ++ SLASH :: y) = components x ++ components y.
Proof. unfold components. by rewrite split_slash_join, drop_empty_app. Qed.
Lemma components_name w : no_slash w → w ≠ [] → components w = [w].
Proof.
  intros Hw Hne. rewrite <-(app_nil_r w) at 1. rewrite components_app; [|done|by left].
  by rewrite bool_decide_eq_false_2.
Qed.

Lemma components_rendered st :
  Forall good_name st → components (reverse (rendered st)) = reverse st.
Proof.
  induction st as [|c st IH]; intros Hst; [done|].
  apply Forall_cons in Hst as [(Hc & Hne & _) Hst].
  cbn [rendered]. rewrite reverse_app, reverse_cons, reverse_involutive, <-app_assoc. cbn [app].
  rewrite components_join, IH, components_name by done. by rewrite reverse_cons.
Qed.

Lemma components_shows r st : shows r st → Forall good_name st → components (reverse r) = reverse st.
Proof.
  intros [st'|c st'] Hst; [|by apply components_rendered].
  rewrite reverse_cons. change [SLASH] with (SLASH :: @nil Z).
  rewrite components_join, components_rendered by done. apply app_nil_r.
Qed.

Lemma copy_component_spec p r :
  ∃ w q, p = w ++ q ∧ no_slash w ∧ copy_component p r = (q, reverse w ++ r) ∧
    (at_end q ∨ MAX_PATH - 1 ≤ zlen (reverse w ++ r)) ∧
    (w = [] ∨ zlen (reverse w ++ r) ≤ MAX_PATH - 1).
Proof.
  revert r. induction p as [|c p IH]; intros r; cbn [copy_component].
  - exists [], []. split_and!; [done|constructor|done|left; by left|by left].
  - destruct (is_slash c) eqn:Hc; cbn [negb andb].
    + exists [], (c :: p). split_and!; [done|constructor|done|left; right|by left].
      unfold is_slash in Hc. apply Z.eqb_eq in Hc as ->. eauto.
    + destruct (Z.ltb_spec (zlen r) (MAX_PATH - 1)).
      * destruct (IH (c :: r)) as (w & q & -> & Hw & -> & Hend & Hroom).
        exists (c :: w), q. rewrite reverse_cons, <-app_assoc. cbn [app].
        split_and!; [done|by constructor|done|done|right].
        destruct Hroom as [->|?]; [|done]. change (zlen (c :: r) ≤ MAX_PATH - 1). zlia.
      * exists [], (c :: p). split_and!; [done|constructor|done|right; done|by left].
Qed.

Lemma zlen_reverse {A} (l : list A) : zlen (reverse l) = zlen l.
Proof. unfold zlen. by rewrite length_reverse. Qed.
Lemma skip_slashes_len p : (length (skip_slashes p) ≤ length p)%nat.
Proof. induction p as [|c p IH]; simpl; [done|]. destruct (is_slash c); simpl; lia. Qed.

Lemma backtrack_suffix r : r ≠ [] → backtrack r ≠ [] ∧ ∃ w, r = w ++ backtrack r.
Proof.
  induction r as [|c r IH]; [done|]. intros _. destruct r as [|d r].
  - split; [done|]. by exists [].
  - change (backtrack (c :: d :: r)) with (if is_slash c then c :: d :: r else backtrack (d :: r)).
    destruct (is_slash c); [split; [done|]; by exists []|].
    destruct IH as [Hne [w Hw]]; [done|]. split; [done|]. exists (c :: w). by rewrite Hw at 1.
Qed.

(** It ends, inside the buffer, and out[0] stays the slash. *)
Lemma resolve_loop_total fuel p r :
  (length p < fuel)%nat → last r = Some SLASH → zlen r ≤ MAX_PATH - 1 →
  ∃ r', resolve_loop fuel p r = Some r' ∧ last r' = Some SLASH ∧ zlen r' ≤ MAX_PATH - 1.
Proof.
  revert p r. induction fuel as [|fuel IH]; intros p r Hf Hlast Hlen; [lia|]. cbn [resolve_loop].
  destruct (bool_decide (p = [])) eqn:Hp; [by exists r|]. apply bool_decide_eq_false in Hp.
  destruct (Z.leb_spec (MAX_PATH - 1) (zlen r)); [by exists r|]. cbn [orb].
  destruct (is_dot p) eqn:Hd.
  { apply IH; [destruct p; [done|]; simpl in *; lia|done|done]. }
  destruct (is_dotdot p) eqn:Hdd.
  { destruct p as [|c [|d p]]; try done; [by destruct (c =? DOT) eqn:E; simpl in Hdd; rewrite ?E in Hdd|].
    cbn [drop].
    assert (Hp' : (length (if last_is_slash p then tail p else p) < fuel)%nat).
    { assert (length (if last_is_slash p then tail p else p) ≤ length p)%nat
        by (destruct (last_is_slash p); [destruct p; simpl; lia|lia]).
      simpl in Hf. lia. }
    destruct (Z.ltb_spec 1 (zlen r)) as [H1|]; [|by apply IH].
    destruct r as [|e r]; [done|]. rewrite zlen_cons in *.
    assert (Hr : ∃ r0, (if last_is_slash (e :: r) then tail (e :: r) else e :: r) = r0 ∧ r0 ≠ [] ∧
              (∃ w, e :: r = w ++ r0)).
    { eexists. split; [done|]. destruct (last_is_slash (e :: r)); cbn [tail].
      - split; [intros ->; rewrite zlen_nil in H1; lia|]. by exists [e].
      - split; [done|]. by exists []. }
    destruct Hr as (r0 & -> & Hne & w & Hw). destruct (backtrack_suffix r0 Hne) as [Hb [v Hv]].
    rewrite Hv in Hw. apply IH; [done| |].
    - rewrite Hw, app_assoc, last_app in Hlast.
      destruct (last (backtrack r0)) eqn:Hl; [done|]. by apply last_None in Hl.
    - assert (zlen (e :: r) = zlen (w ++ v ++ backtrack r0)) as Hz by (by rewrite Hw).
      rewrite !zlen_app, zlen_cons in Hz. pose proof (zlen_nonneg w). pose proof (zlen_nonneg v). lia. }
  set (r1 := if last_is_slash r then r else SLASH :: r).
  assert (Hr1 : last r1 = Some SLASH ∧ zlen r1 ≤ MAX_PATH - 1).
  { unfold r1. destruct (last_is_slash r); [done|]. rewrite zlen_cons.
    split; [|lia]. destruct r; [done|exact Hlast]. }
  destruct Hr1 as [Hl1 Hz1].
  destruct (copy_component_spec p r1) as (w & q & -> & Hw & -> & Hend & Hroom).
  assert (Hz2 : zlen (reverse w ++ r1) ≤ MAX_PATH - 1) by (destruct Hroom as [->|]; done).
  assert (Hl2 : last (reverse w ++ r1) = Some SLASH) by (by rewrite last_app, Hl1).
  destruct (decide (MAX_PATH - 1 ≤ zlen (reverse w ++ r1))) as [Hfull|Hnf].
  - exists (reverse w ++ r1). split; [|done].
    destruct fuel as [|fuel]; cbn [resolve_loop]; rewrite (proj2 (Z.leb_le _ _) Hfull), orb_true_r; done.
  - destruct Hend as [Hq|]; [|lia]. apply IH; try done.
    destruct Hq as [->|[t ->]]; [simpl; destruct w; [done|simpl in Hf; rewrite length_app in Hf; simpl in *; lia]|].
    change (skip_slashes (SLASH :: t)) with (skip_slashes t).
    pose proof (skip_slashes_len t). rewrite length_app in Hf. simpl in Hf. lia.
Qed.

Lemma backtrack_name w t : no_slash w → backtrack (w ++ SLASH :: t) = SLASH :: t.
Proof.
  induction w as [|c w IH]; intros Hw; [by destruct t|].
  apply Forall_cons in Hw as [Hc Hw]. cbn [app].
  destruct w as [|d w]; cbn [app] in *; cbn [backtrack]; rewrite Hc; by apply IH.
Qed.

Lemma good_last c t : no_slash c → c ≠ [] → last_is_slash (reverse c ++ t) = false.
Proof.
  intros Hc Hne. destruct c as [|x c _] using rev_ind; [done|].
  rewrite reverse_snoc. apply Forall_app in Hc as [_ Hx]. by apply Forall_cons in Hx as [Hx _].
Qed.

Lemma is_dot_spec p : is_dot p = true ↔ ∃ q, p = DOT :: q ∧ at_end q.
Proof.
  destruct p as [|c q]; [split; [done|by intros (? & ? & _)]|]. cbn [is_dot].
  rewrite andb_true_iff, Z.eqb_eq. split.
  - intros [-> Hq]. exists q. split; [done|]. destruct q as [|d q]; [by left|right].
    unfold is_slash in Hq. apply Z.eqb_eq in Hq as ->. eauto.
  - intros (q' & [= -> ->] & [->|[t ->]]); done.
Qed.
Lemma is_dotdot_spec p : is_dotdot p = true ↔ ∃ q, p = DOT :: DOT :: q ∧ at_end q.
Proof.
  destruct p as [|c q]; [split; [done|by intros (? & ? & _)]|]. cbn [is_dotdot].
  rewrite andb_true_iff, Z.eqb_eq, is_dot_spec. naive_solver.
Qed.

Lemma components_skip1 q : components (if last_is_slash q then tail q else q) = components q.
Proof.
  destruct q as [|c q]; [done|]. cbn [last_is_slash tail].
  destruct (is_slash c) eqn:Hc; [|done]. unfold is_slash in Hc. by apply Z.eqb_eq in Hc as ->.
Qed.
Lemma skip1_len q : zlen (if last_is_slash q then tail q else q) ≤ zlen q.
Proof. destruct q as [|c q]; [done|]. cbn [last_is_slash tail]. destruct (is_slash c); zlia. Qed.

(** Room for the rest of the path, and for a slash that may have to be added. *)
Definition room (p r : list Z) : Prop :=
  zlen r + zlen p + (if last_is_slash r || bool_decide (p = []) then 0 else 1) ≤ MAX_PATH - 1.

Lemma resolve_dotdot r st :
  shows r st → Forall good_name st →
  let r' := if 1 <? zlen r then backtrack (if last_is_slash r then tail r else r) else r in
  shows r' (tail st) ∧ last_is_slash r' = true ∧ zlen r' ≤ zlen r.
Proof.
  intros Hs Hst r'.
  assert (Hpop : ∀ c st, good_name c → backtrack (rendered (c :: st)) = SLASH :: rendered st)
    by (intros c st0 (Hc & _); apply backtrack_name, Forall_reverse, Hc).
  destruct Hs as [[|c st]|c st].
  - split; [apply shows_slash|done].
  - apply Forall_cons in Hst as [Hc _]. unfold r'. cbn [last_is_slash tail].
    change (is_slash SLASH) with true. cbv iota. rewrite Hpop by done.
    rewrite zlen_cons. pose proof Hc as (_ & Hne & _). cbn [rendered].
    rewrite zlen_app, zlen_reverse, zlen_cons.
    destruct (Z.ltb_spec 1 (1 + (zlen c + (1 + zlen (rendered st))))); [|zlia].
    split; [apply shows_slash|split; [done|zlia]].
  - apply Forall_cons in Hst as [Hc _]. unfold r'.
    pose proof Hc as (Hn & Hne & _). cbn [rendered].
    rewrite good_last by done. cbn [rendered tail].
    rewrite backtrack_name by (apply Forall_reverse, Hn).
    rewrite zlen_app, zlen_reverse, zlen_cons. destruct c as [|x c]; [done|]. rewrite zlen_cons.
    destruct (Z.ltb_spec 1 (1 + zlen c + (1 + zlen (rendered st)))); [|zlia].
    split; [apply shows_slash|split; [done|zlia]].
Qed.

Lemma resolve_loop_exact fuel p r st :
  (length p < fuel)%nat → shows r st → Forall good_name st → room p r →
  ∃ r' st', resolve_loop fuel p r = Some r' ∧ shows r' st' ∧ Forall good_name st' ∧
    st' = walk_names st (components p).
Proof.
  revert p r st. induction fuel as [|fuel IH]; intros p r st Hf Hs Hst Hroom; [lia|].
  cbn [resolve_loop].
  destruct (bool_decide (p = [])) eqn:Hp; [apply bool_decide_eq_true in Hp as ->; by exists r, st|].
  apply bool_decide_eq_false in Hp.
  unfold room in Hroom. rewrite (bool_decide_eq_false_2 (p = [])), orb_false_r in Hroom by done.
  assert (Hp1 : 1 ≤ zlen p) by (destruct p; [done|zlia]).
  destruct (Z.leb_spec (MAX_PATH - 1) (zlen r)); [destruct (last_is_slash r); lia|]. cbn [orb].
  destruct (is_dot p) eqn:Hd.
  { apply is_dot_spec in Hd as (q & -> & Hq). cbn [tail]. rewrite zlen_cons in Hroom. simpl in Hf.
    destruct (IH q r st) as (r' & st' & -> & Hs' & Hg & ->); [lia|done|done| |].
    { unfold room. destruct (last_is_slash r), (bool_decide (q = [])); cbn [orb]; lia. }
    exists r', (walk_names st (components q)). split_and!; try done.
    change (DOT :: q) with ([DOT] ++ q). rewrite components_app; [|by repeat constructor|done]. done. }
  destruct (is_dotdot p) eqn:Hdd.
  { apply is_dotdot_spec in Hdd as (q & -> & Hq). change (drop 2 (DOT :: DOT :: q)) with q.
    rewrite !zlen_cons in Hroom. simpl in Hf.
    destruct (resolve_dotdot r st Hs Hst) as (Hs1 & Hl1 & Hz1). set (r1 := if 1 <? _ then _ else _) in *.
    pose proof (skip1_len q) as Hq1.
    destruct (IH (if last_is_slash q then tail q else q) r1 (tail st))
      as (r' & st' & -> & Hs' & Hg & ->); [unfold zlen in *; lia|done| | |].
    { destruct st; [done|]. by apply Forall_cons in Hst as [_ Hst]. }
    { unfold room. rewrite Hl1. cbn [orb]. destruct (last_is_slash r); lia. }
    rewrite components_skip1 in Hg, Hs'. do 2 eexists. split_and!; [done|exact Hs'|done|].
    change (DOT :: DOT :: q) with ([DOT; DOT] ++ q).
    rewrite components_app; [|by repeat constructor|done]. done. }
  set (r1 := if last_is_slash r then r else SLASH :: r).
  assert (Hr1 : r1 = SLASH :: rendered st ∧ zlen r1 + zlen p ≤ MAX_PATH - 1).
  { unfold r1. destruct Hs as [st|c st]; [split; [done|]; cbn in Hroom |- *; lia|].
    apply Forall_cons in Hst as [(Hc & Hne & _) _]. cbn [rendered] in *.
    rewrite good_last in * by done. split; [done|]. rewrite zlen_cons. lia. }
  destruct Hr1 as [Hr1 Hz1].
  destruct (copy_component_spec p r1) as (w & q & -> & Hw & -> & Hend & _).
  rewrite ?zlen_app, ?zlen_reverse in *.
  assert (Hq : at_end q).
  { destruct Hend as [?|Hfull]; [done|]. left. destruct q; [done|].
    rewrite zlen_cons in Hz1. exfalso. pose proof (zlen_nonneg q). lia. }
  clear Hend. rewrite Hr1 in *.
  assert (Hnext : ∃ st1, shows (reverse w ++ SLASH :: rendered st) st1 ∧ Forall good_name st1 ∧
    ∀ names, walk_names st1 names = walk_names st ((if bool_decide (w = []) then [] else [w]) ++ names)).
  { destruct (decide (w = [])) as [->|Hne]; [by exists st; split_and!; [constructor|..]|].
    exists (w :: st). split; [apply (shows_name w st)|]. rewrite bool_decide_eq_false_2 by done.
    assert (Hgood : good_name w).
    { split_and!; try done; intros ->.
      - assert (is_dot ([DOT] ++ q) = true) by (apply is_dot_spec; by exists q). congruence.
      - assert (is_dotdot ([DOT; DOT] ++ q) = true) by (apply is_dotdot_spec; by exists q). congruence. }
    split; [by constructor|]. intros names. cbn [app walk_names].
    destruct Hgood as (_ & _ & H1 & H2). by rewrite !bool_decide_eq_false_2 by done. }
  destruct Hnext as (st1 & Hs1 & Hg1 & Hwalk).
  pose proof (skip_slashes_len q) as Hlen.
  destruct (IH (skip_slashes q) (reverse w ++ SLASH :: rendered st) st1)
    as (r' & st' & -> & Hs' & Hg & ->).
  - rewrite length_app in Hf. destruct Hq as [->|[t ->]].
    + destruct w; [done|]. simpl in *. lia.
    + change (skip_slashes (SLASH :: t)) with (skip_slashes t). pose proof (skip_slashes_len t).
      simpl in Hf. lia.
  - done.
  - done.
  - unfold room. rewrite zlen_app, zlen_reverse. destruct Hq as [->|[t ->]].
    + cbn [skip_slashes]. rewrite bool_decide_eq_true_2, orb_true_r by done. lia.
    + change (skip_slashes (SLASH :: t)) with (skip_slashes t). pose proof (skip_slashes_len t).
      rewrite !zlen_cons in *. unfold zlen in *. destruct (_ || _); lia.
  - exists r', (walk_names st1 (components (skip_slashes q))). split_and!; try done.
    by rewrite Hwalk, components_skip, components_app.
Qed.

Lemma resolve_path_spec path :
  ∃ out, resolve_path path = Some out ∧ head out = Some SLASH ∧ zlen out ≤ MAX_PATH - 1 ∧
    (zlen path ≤ MAX_PATH - 2 →
     components out = canonical path ∧ Forall good_name (canonical path)).
Proof.
  assert (Hnil : ∀ path, components path = [] →
     canonical path = [] ∧ components [SLASH] = []) by (intros p Hp; unfold canonical; by rewrite Hp).
  unfold resolve_path. destruct path as [|c path]; [by exists [SLASH]|].
  set (p := c :: path). assert (Hlen : (length (skip_slashes p) < S (length p))%nat)
    by (pose proof (skip_slashes_len p); lia).
  destruct (resolve_loop_total (S (length p)) (skip_slashes p) [SLASH] Hlen eq_refl)
    as (r & Hr & Hlast & Hz); [done|].
  rewrite Hr. cbn [mbind option_bind]. exists (reverse r). split_and!; [done| |by rewrite zlen_reverse|].
  - destruct r as [|x r _] using rev_ind; [done|]. rewrite last_snoc in Hlast.
    rewrite reverse_snoc. exact Hlast.
  - intros Hp. destruct (resolve_loop_exact (S (length p)) (skip_slashes p) [SLASH] [] Hlen)
      as (r' & st' & Hr' & Hs & Hg & ->); [apply (shows_slash [])|constructor| |].
    + unfold room. cbn [last_is_slash]. change (is_slash SLASH) with true. cbn [orb].
      change (zlen [SLASH]) with 1. unfold zlen in *. lia.
    + rewrite Hr in Hr'. injection Hr' as <-. rewrite components_skip in *.
      split; [by apply components_shows|]. by apply Forall_reverse.
Qed.

(** C15: resolve_path computes the canonical path.  It always ends, its result
    starts with a slash and fits the MAX_PATH buffer with its terminator, also
    when the input does not.  When the input is at most 4094 bytes long, the
    names along the result are exactly those left after dropping empty names and
    ".", and letting each ".." remove the name before it (and nothing at the
    root); none of them is ".", ".." or contains a slash. *)
Theorem resolve_path_correct path :
  ∃ out, resolve_path path = Some out ∧ head out = Some SLASH ∧ zlen out ≤ MAX_PATH - 1 ∧
    (zlen path ≤ MAX_PATH - 2 →
     components out = canonical path ∧ Forall good_name (canonical path)).
Proof. apply resolve_path_spec. Qed.

(** "/a/./b//../c/" *)
Definition path_example : list Z := [47; 97; 47; 46; 47; 98; 47; 47; 46; 46; 47; 99; 47].
Lemma resolve_path_example : resolve_path path_example = Some [47; 97; 47; 99].
Proof. reflexivity. Qed.

(** ** make_absolute and split_path *)

Lemma make_absolute_spec wd path :
  head wd = Some SLASH → zlen wd + zlen path ≤ MAX_PATH - 2 →
  ∃ out, make_absolute wd path = Some out ∧ zlen out ≤ zlen wd + zlen path + 1 ∧
    components out =
      (if bool_decide (head path = Some SLASH) then [] else components wd) ++ components path.
Proof.
  intros Hwd Hlen. pose proof (zlen_nonneg wd). pose proof (zlen_nonneg path).
  unfold make_absolute, strncpy. case_bool_decide as Hp.
  - eexists. split; [done|]. rewrite ztake_all by lia. split; [lia|done].
  - rewrite (ztake_all _ wd) by lia.
    set (out := if bool_decide (last wd = Some SLASH) then wd else wd ++ [SLASH]).
    assert (Hout : zlen out ≤ zlen wd + 1 ∧ components (out ++ path) = components wd ++ components path).
    { unfold out. case_bool_decide as Hl.
      - split; [lia|]. destruct wd as [|x wd _] using rev_ind; [done|].
        rewrite last_snoc in Hl. injection Hl as ->.
        rewrite <-app_assoc. cbn [app]. rewrite components_join.
        change [SLASH] with (SLASH :: @nil Z). rewrite components_join. by rewrite app_nil_r.
      - rewrite zlen_app. change (zlen [SLASH]) with 1. split; [lia|].
        rewrite <-app_assoc. cbn [app]. apply components_join. }
    destruct Hout as [Hz Hc]. rewrite (ztake_all _ path) by lia.
    rewrite (proj2 (Z.ltb_lt _ _)) by (rewrite zlen_app; lia).
    eexists. split; [done|]. rewrite zlen_app. split; [lia|exact Hc].
Qed.

(** A working directory of 4095 bytes, which chdir can store, leaves no room for
    the slash make_absolute adds: it writes out[4096]. *)
Lemma make_absolute_overflow :
  make_absolute (SLASH :: zrepeat 4094 97) [98] = None.
Proof. vm_compute. reflexivity. Qed.

Lemma last_slash_spec p i found :
  match last_slash p i found with
  | Some j => (∃ d f, p = d ++ SLASH :: f ∧ no_slash f ∧ j = i + zlen d) ∨ (no_slash p ∧ found = Some j)
  | None => no_slash p ∧ found = None
  end.
Proof.
  revert i found. induction p as [|c p IH]; intros i found; cbn [last_slash].
  - destruct found; [right|]; (split; [constructor|done]).
  - specialize (IH (i + 1) (if is_slash c then Some i else found)).
    destruct (last_slash p (i + 1) _) as [j|].
    + destruct IH as [(d & f & -> & Hf & ->)|[Hp Hfound]].
      * left. exists (c :: d), f. split_and!; [done|done|rewrite zlen_cons; lia].
      * destruct (is_slash c) eqn:Hc.
        -- left. exists [], p. unfold is_slash in Hc. apply Z.eqb_eq in Hc as ->.
           split_and!; [done|done|]. injection Hfound as <-. rewrite zlen_nil. lia.
        -- right. split; [by constructor|done].
    + destruct IH as [Hp Hfound]. destruct (is_slash c) eqn:Hc; [done|]. split; [by constructor|done].
Qed.

(** split_path takes a path apart without losing anything.  It refuses
    exactly the paths that fill the buffers (-ENAMETOOLONG); otherwise the file
    name contains no slash, the directory is empty only for a path without any
    slash, both fit their buffers, and the names of the directory followed by the
    name of the file are the names of the path. *)
Theorem split_path_correct path :
  let '(res, dir, filename) := split_path path in
  (res < 0 ↔ MAX_PATH ≤ zlen path) ∧ (res = 0 ∨ res = - ENAMETOOLONG) ∧
  (res = 0 → no_slash filename ∧ zlen dir < MAX_PATH ∧ zlen filename < MAX_PATH ∧
     components dir ++ components filename = components path ∧
     (dir = [] ↔ no_slash path)).
Proof.
  unfold split_path. destruct (Z.leb_spec MAX_PATH (zlen path)) as [Hlen|Hlen].
  { unfold ENAMETOOLONG. split_and!; auto; lia. }
  pose proof (last_slash_spec path 0 None) as Hs. destruct (last_slash path 0 None) as [j|].
  - destruct Hs as [(d & f & -> & Hf & ->)|[_ ?]]; [|done].
    split_and!; [lia|by left|]. intros _. rewrite Z.add_0_l. rewrite zlen_app, zlen_cons in Hlen.
    replace (d ++ SLASH :: f) with ((d ++ [SLASH]) ++ f) by (by rewrite <-app_assoc).
    rewrite zdrop_app_ge by (rewrite zlen_app; change (zlen [SLASH]) with 1; lia).
    replace (zlen d + 1 - zlen (d ++ [SLASH])) with 0
      by (rewrite zlen_app; change (zlen [SLASH]) with 1; lia).
    rewrite zdrop_0. rewrite <-app_assoc. cbn [app]. rewrite components_join.
    destruct (Z.eqb_spec (zlen d) 0) as [Hd|Hd].
    + destruct d; [|rewrite zlen_cons in Hd; pose proof (zlen_nonneg d); lia].
      cbn [app]. split_and!; try done; try zlia. split; [done|].
      intros Hn. apply Forall_cons in Hn as [Hn _]. done.
    + rewrite ztake_app_le, ztake_all by lia. pose proof (zlen_nonneg f). pose proof (zlen_nonneg d).
      split_and!; try done; try lia. split; [by intros ->|].
      intros Hn. apply Forall_app in Hn as [_ Hn]. by apply Forall_cons in Hn as [Hn _].
  - destruct Hs as [Hn _]. split_and!; [lia|by left|]. intros _.
    split_and!; try done. 
Qed.
