(* ===== verification/Vfs.v ===== *)
(** * kernel/vfs.c: mount points and dispatch to file systems

    The file systems are a table of records of operations over one state [FS]
    (the globals of all drivers); a NULL entry is [None].  A mountpoint_t* is a
    key of [mounts] (0 is NULL); kmalloc of a node is a fresh key. *)

From S2P Require Import Prelude Path.

Definition DT_FILE : Z := 1.
Definition DT_DIR : Z := 2.
Definition DT_BLOCK : Z := 3.
Definition DT_CHAR : Z := 4.
Definition S_IFREG : Z := 0x8000.
Definition S_IFBLK : Z := 0x6000.
Definition S_IFDIR : Z := 0x4000.
Definition S_IFCHR : Z := 0x2000.
Definition MODE_ALL : Z := 0x1FF.
Definition MAX_FILESYSTEMS : Z := 24.

Record stat_t := mk_stat {
  st_size : Z;
  st_ctime : Z;
  st_mtime : Z;
  st_btime : Z;
  st_rdev : Z;
  st_mode : Z;
  st_type : Z;
}.
Definition stat_zero : stat_t := mk_stat 0 0 0 0 0 0 0.

Record dirent_t := mk_dirent {
  d_name : list Z;
  d_type : Z;
}.

Record block_device_t := mk_block_device {
  major_number : Z;
  minor_number : Z;
  dev_name : option (list Z);
  is_partition : bool;
}.
(** [(block_device_t){.major_number = .., .minor_number = ..}] *)
Definition device_of (major minor : Z) : block_device_t := mk_block_device major minor None false.

Definition makedev (major minor : Z) : Z := Z.lor (Z.shiftl major 32) minor.
Definition major (device : Z) : Z := u32 (Z.shiftr device 32).
Definition minor (device : Z) : Z := u32 (Z.land device 0xffffffff).

Record filesystem_t (FS : Type) := mk_filesystem {
  fs_name : list Z;
  fs_case_sensitive : bool;
  fs_requires_backing : bool;
  fs_check : option (block_device_t → K FS Z);
  fs_mount : block_device_t → Z → K FS Z;
  fs_unmount : option (Z → K FS Z);
  fs_select : Z → K FS unit;
  fs_get_root : K FS Z;
  fs_lookup : list Z → Z → K FS (Z * Z);
  fs_open : option (Z → K FS Z);
  fs_close : option (Z → K FS Z);
  fs_readdir : option (Z → Z → K FS (Z * dirent_t));
  fs_read : option (Z → Z → Z → K FS (Z * list Z));
  fs_write : option (Z → list Z → Z → K FS Z);
  fs_stat : option (Z → K FS (Z * stat_t));
  fs_mknod : option (list Z → Z → Z → K FS Z);
  fs_create_file : option (list Z → K FS Z);
  fs_create_directory : option (list Z → K FS Z);
  fs_remove : option (list Z → K FS Z);
  fs_rename : option (list Z → list Z → K FS Z);
  fs_link : option (Z → list Z → K FS Z);
  fs_truncate : option (Z → Z → K FS Z);
}.
Arguments fs_name {_}. Arguments fs_case_sensitive {_}. Arguments fs_requires_backing {_}.
Arguments fs_check {_}. Arguments fs_mount {_}. Arguments fs_unmount {_}.
Arguments fs_select {_}. Arguments fs_get_root {_}. Arguments fs_lookup {_}.
Arguments fs_open {_}. Arguments fs_close {_}. Arguments fs_readdir {_}.
Arguments fs_read {_}. Arguments fs_write {_}. Arguments fs_stat {_}.
Arguments fs_mknod {_}. Arguments fs_create_file {_}. Arguments fs_create_directory {_}.
Arguments fs_remove {_}. Arguments fs_rename {_}. Arguments fs_link {_}.
Arguments fs_truncate {_}.

Record mountpoint_t := mk_mountpoint {
  mp_handle : Z;
  mp_type : Z;
  refcount : Z;
  mp_data : Z;
  parent : Z;
  next : Z;
  children : Z;
}.

Definition mp_set_refcount (n : Z) (m : mountpoint_t) : mountpoint_t :=
  mk_mountpoint (mp_handle m) (mp_type m) n (mp_data m) (parent m) (next m) (children m).
Definition mp_set_next (p : Z) (m : mountpoint_t) : mountpoint_t :=
  mk_mountpoint (mp_handle m) (mp_type m) (refcount m) (mp_data m) (parent m) p (children m).
Definition mp_set_children (p : Z) (m : mountpoint_t) : mountpoint_t :=
  mk_mountpoint (mp_handle m) (mp_type m) (refcount m) (mp_data m) (parent m) (next m) p.

Record file_handle_t := mk_file_handle {
  fh_mount : Z;
  fh_handle : Z;
}.

Section vfs.
Context {FS : Type}.

Record vfs := mk_vfs {
  filesystems : list (filesystem_t FS);
  mounts : gmap Z mountpoint_t;
  next_mount : Z;
  root : Z;
  fs_state : FS;
  wd : list Z;
}.

Definition set_mounts (m : gmap Z mountpoint_t) (s : vfs) : vfs :=
  mk_vfs (filesystems s) m (next_mount s) (root s) (fs_state s) (wd s).
Definition set_fs_state (f : FS) (s : vfs) : vfs :=
  mk_vfs (filesystems s) (mounts s) (next_mount s) (root s) f (wd s).
Definition set_root (r : Z) (s : vfs) : vfs :=
  mk_vfs (filesystems s) (mounts s) (next_mount s) r (fs_state s) (wd s).
Definition set_wd (w : list Z) (s : vfs) : vfs :=
  mk_vfs (filesystems s) (mounts s) (next_mount s) (root s) (fs_state s) w.

(** A call into a file system. *)
Definition lift_fs {A} (m : K FS A) : K vfs A := λ s,
  match m (fs_state s) with
  | Done (a, f) => Done (a, set_fs_state f s)
  | Panic => Panic
  | Fault => Fault
  | OutOfFuel => OutOfFuel
  end.

(** A call through an operation pointer that is not tested for NULL. *)
Definition call_fs {A B} (op : option A) (k : A → K FS B) : K vfs B :=
  f ← kopt op; lift_fs (k f).

Definition deref (p : Z) : K vfs mountpoint_t := s ← kget; kopt (mounts s !! p).
Definition update_mount (p : Z) (f : mountpoint_t → mountpoint_t) : K vfs unit :=
  m ← deref p; kmodify (λ s, set_mounts (<[p := f m]> (mounts s)) s).
Definition filesystem (i : Z) : K vfs (filesystem_t FS) :=
  s ← kget; kopt (znth (filesystems s) i).

(** [fs = &filesystems[m->type]; fs->select(m->fs_data)] *)
Definition select_fs (p : Z) : K vfs (filesystem_t FS) :=
  m ← deref p;
  fs ← filesystem (mp_type m);
  lift_fs (fs_select fs (mp_data m));;
  mret fs.

Definition register_filesystem (fs : filesystem_t FS) : K vfs Z :=
  s ← kget;
  if MAX_FILESYSTEMS <=? zlen (filesystems s) then mret (- ENOSPC)
  else
    kmodify (λ s, mk_vfs (filesystems s ++ [fs]) (mounts s) (next_mount s) (root s)
                    (fs_state s) (wd s));;
    mret 0.

(** make_absolute then resolve_path, as find_mountpoint and chdir do. *)
Definition absolute_resolved (path : list Z) : K vfs (list Z) :=
  s ← kget;
  a ← kopt (make_absolute (wd s) path);
  kopt (resolve_path a).

(** ** find_mountpoint *)

(** Read one component into subdir[256]; the terminator of a name of 256 bytes
    does not fit ([None]). *)
Fixpoint take_subdir (path : list Z) (count : Z) : option (list Z * list Z) :=
  match path with
  | c :: q =>
    if negb (is_slash c) && (count <? 256) then
      r ← take_subdir q (count + 1);
      let '(w, rest) := r in Some (c :: w, rest)
    else if count <? 256 then Some ([], path) else None
  | [] => if count <? 256 then Some ([], []) else None
  end.

(** The search of the children ring for a mount on [handle]. *)
Fixpoint find_child (fuel : nat) (m first handle : Z) : K vfs (option Z) :=
  match fuel with
  | O => kfuel
  | S fuel =>
    mp ← deref m;
    if mp_handle mp =? handle then mret (Some m)
    else if (next mp =? 0) || (next mp =? first) then mret None
    else find_child fuel (next mp) first handle
  end.

(** Cross into a mount on [handle], if the current mount has one. *)
Definition cross_mount (current handle : Z) (fs : filesystem_t FS) (path remaining : list Z)
    : K vfs (Z * Z * filesystem_t FS * list Z) :=
  cur ← deref current;
  s ← kget;
  if children cur =? 0 then mret (current, handle, fs, remaining)
  else
    r ← find_child (size (mounts s)) (children cur) (children cur) handle;
    match r with
    | None => mret (current, handle, fs, remaining)
    | Some m =>
      fs ← select_fs m;
      handle ← lift_fs (fs_get_root fs);
      mret (m, handle, fs, path)
    end.

(** The component loop.  The result is the mount (0 on failure), the handle or
    the error number, and the path inside the mount. *)
Fixpoint find_loop (fuel : nat) (path : list Z) (current handle : Z) (fs : filesystem_t FS)
    (remaining : list Z) : K vfs (Z * Z * list Z) :=
  match path with
  | [] => mret (current, handle, remaining)
  | _ =>
    match fuel with
    | O => kfuel
    | S fuel =>
      r ← kopt (take_subdir path 0);
      let '(subdir, path) := r in
      if bool_decide (subdir = []) then
        find_loop fuel (if last_is_slash path then tail path else path) current handle fs remaining
      else
        r ← lift_fs (fs_lookup fs subdir handle);
        let '(res, next) := r in
        if res <? 0 then mret (0, - res, remaining)
        else
          r ← cross_mount current next fs path remaining;
          let '(current, handle, fs, remaining) := r in
          find_loop fuel path current handle fs remaining
    end
  end.

Definition find_mountpoint (path : list Z) : K vfs (Z * Z * list Z) :=
  resolved ← absolute_resolved path;
  s ← kget;
  fs ← select_fs (root s);
  handle ← lift_fs (fs_get_root fs);
  let path := skip_slashes resolved in
  find_loop (S (length path)) path (root s) handle fs resolved.

Definition vfs_lookup (path : list Z) : K vfs (Z * file_handle_t) :=
  r ← find_mountpoint path;
  let '(mountpoint, handle, _) := r in
  if mountpoint =? 0 then mret (- handle, mk_file_handle 0 0)
  else mret (0, mk_file_handle mountpoint handle).

(** ** stat *)

Definition with_mode (st : stat_t) : stat_t :=
  let m :=
    if st_type st =? DT_FILE then Z.lor S_IFREG MODE_ALL
    else if st_type st =? DT_DIR then Z.lor S_IFDIR MODE_ALL
    else if st_type st =? DT_BLOCK then Z.lor S_IFBLK MODE_ALL
    else if st_type st =? DT_CHAR then Z.lor S_IFCHR MODE_ALL
    else st_mode st in
  mk_stat (st_size st) (st_ctime st) (st_mtime st) (st_btime st) (st_rdev st) m (st_type st).

Definition stat_on (mount handle : Z) : K vfs (Z * stat_t) :=
  fs ← select_fs mount;
  match fs_stat fs with
  | None => mret (- ENOSYS, stat_zero)
  | Some f =>
    r ← lift_fs (f handle);
    let '(res, st) := r in
    if res <? 0 then mret (res, st) else mret (res, with_mode st)
  end.
Definition stat_handle (file : file_handle_t) : K vfs (Z * stat_t) :=
  stat_on (fh_mount file) (fh_handle file).
Definition vfs_stat (path : list Z) : K vfs (Z * stat_t) :=
  r ← find_mountpoint path;
  let '(mount, handle, _) := r in
  if mount =? 0 then mret (- handle, stat_zero) else stat_on mount handle.

(** ** Mounting *)

Definition find_type (l : list (filesystem_t FS)) (type : list Z) : option nat :=
  fst <$> list_find (λ fs, strcmp (fs_name fs) type = 0) l.

(** The first file system that backs onto a device and recognises [dev]. *)
Fixpoint probe (l : list (filesystem_t FS)) (i : Z) (dev : block_device_t) : K vfs Z :=
  match l with
  | [] => mret (-1)
  | fs :: l =>
    match fs_requires_backing fs, fs_check fs with
    | true, Some check =>
      r ← lift_fs (check dev);
      if r =? 0 then probe l (i + 1) dev else mret i
    | _, _ => probe l (i + 1) dev
    end
  end.

(** stat the source and take its device number: a negative error or the device. *)
Definition source_device (source : option (list Z)) : K vfs (Z + block_device_t) :=
  match source with
  | None => mret (inl (- EINVAL))
  | Some source =>
    r ← vfs_stat source;
    let '(res, st) := r in
    if res <? 0 then mret (inl res)
    else if negb (st_type st =? DT_BLOCK) then mret (inl (- ENOTBLK))
    else mret (inr (device_of (major (st_rdev st)) (minor (st_rdev st))))
  end.

(** The file system and device of a mount request. *)
Definition mount_type (source type : option (list Z)) : K vfs (Z + Z * block_device_t) :=
  s ← kget;
  match type with
  | Some type =>
    match find_type (filesystems s) type with
    | None => mret (inl (- ENOSYS))
    | Some i =>
      fs ← filesystem (Z.of_nat i);
      if fs_requires_backing fs then
        d ← source_device source;
        match d with
        | inl e => mret (inl e)
        | inr dev => mret (inr (Z.of_nat i, dev))
        end
      else mret (inr (Z.of_nat i, device_of 0 0))
    end
  | None =>
    d ← source_device source;
    match d with
    | inl e => mret (inl e)
    | inr dev =>
      i ← probe (filesystems s) 0 dev;
      if i =? -1 then mret (inl (- ENOSYS)) else mret (inr (i, dev))
    end
  end.

Definition mount_filesystem (source : option (list Z)) (target : list Z)
    (type : option (list Z)) (flags : Z) : K vfs Z :=
  s ← kget;
  if zlen (filesystems s) =? 0 then mret (- ENOENT)
  else
    t ← mount_type source type;
    match t with
    | inl e => mret e
    | inr (fs_index, dev) =>
      r ← find_mountpoint target;
      let '(mountpoint, handle, _) := r in
      if mountpoint =? 0 then mret (- handle)
      else
        fs ← select_fs mountpoint;
        root_handle ← lift_fs (fs_get_root fs);
        if handle =? root_handle then mret (- EBUSY)
        else
          new_fs ← filesystem fs_index;
          data ← lift_fs (fs_mount new_fs dev flags);
          if data =? 0 then mret (- EIO)
          else
            m ← deref mountpoint;
            kmodify (λ s,
              let new_mount := next_mount s in
              mk_vfs (filesystems s)
                (<[new_mount := mk_mountpoint handle fs_index 0 data mountpoint (children m) 0]>
                   (<[mountpoint := mp_set_children new_mount m]> (mounts s)))
                (new_mount + 1) (root s) (fs_state s) (wd s));;
            mret 0
    end.

(** The predecessor of [mount] in its parent's list of children. *)
Fixpoint find_sibling (fuel : nat) (sibling mount : Z) : K vfs Z :=
  if sibling =? 0 then mret 0
  else match fuel with
  | O => kfuel
  | S fuel =>
    m ← deref sibling;
    if next m =? mount then mret sibling else find_sibling fuel (next m) mount
  end.

Definition unlink_mount (mount : Z) : K vfs unit :=
  m ← deref mount;
  p ← deref (parent m);
  if children p =? mount then update_mount (parent m) (mp_set_children (next m))
  else
    s ← kget;
    sibling ← find_sibling (S (size (mounts s))) (children p) mount;
    if sibling =? 0 then mret tt else update_mount sibling (mp_set_next (next m)).

Definition unmount_filesystem (path : list Z) : K vfs Z :=
  r ← vfs_lookup path;
  let '(res, file) := r in
  if res <? 0 then mret res
  else
    let mount := fh_mount file in
    s ← kget;
    if mount =? root s then mret (- EINVAL)
    else
      m ← deref mount;
      if (0 <? refcount m) || negb (children m =? 0) then mret (- EBUSY)
      else
        unlink_mount mount;;
        fs ← filesystem (mp_type m);
        match fs_unmount fs with
        | Some f =>
          res ← lift_fs (f (mp_data m));
          if res <? 0 then mret res
          else kmodify (λ s, set_mounts (delete mount (mounts s)) s);; mret 0
        | None => kmodify (λ s, set_mounts (delete mount (mounts s)) s);; mret 0
        end.

(** ** Files *)

Definition add_refcount (mount n : Z) : K vfs unit :=
  update_mount mount (λ m, mp_set_refcount (s32 (refcount m + n)) m).

Definition vfs_open (path : list Z) : K vfs (Z * file_handle_t) :=
  r ← vfs_lookup path;
  let '(res, file) := r in
  if res <? 0 then mret (res, file)
  else
    fs ← select_fs (fh_mount file);
    res ← match fs_open fs with
          | Some f => lift_fs (f (fh_handle file))
          | None => mret 0
          end;
    if res <? 0 then mret (res, file)
    else add_refcount (fh_mount file) 1;; mret (0, file).

Definition clone_file_handle (file : file_handle_t) : K vfs Z :=
  fs ← select_fs (fh_mount file);
  res ← match fs_open fs with
        | Some f => lift_fs (f (fh_handle file))
        | None => mret 0
        end;
  if res <? 0 then mret res else add_refcount (fh_mount file) 1;; mret 0.

Definition vfs_close (file : file_handle_t) : K vfs Z :=
  fs ← select_fs (fh_mount file);
  res ← match fs_close fs with
        | Some f => lift_fs (f (fh_handle file))
        | None => mret 0
        end;
  if res <? 0 then mret res else add_refcount (fh_mount file) (-1);; mret 0.

(** The stat that guards readdir, read_file and write_file. *)
Definition guard_stat (fs : filesystem_t FS) (handle : Z) : K vfs (option stat_t) :=
  match fs_stat fs with
  | None => mret None
  | Some f =>
    r ← lift_fs (f handle);
    let '(res, st) := r in mret (if res <? 0 then None else Some st)
  end.

Definition readdir (file : file_handle_t) (index : Z) : K vfs (Z * dirent_t) :=
  let none := mk_dirent [] 0 in
  fs ← select_fs (fh_mount file);
  match fs_readdir fs with
  | None => mret (- ENOSYS, none)
  | Some f =>
    st ← guard_stat fs (fh_handle file);
    match st with
    | None => mret (- ENOENT, none)
    | Some st =>
      if negb (st_type st =? DT_DIR) then mret (- ENOTDIR, none)
      else if index =? 0 then mret (1, mk_dirent [DOT] DT_DIR)
      else if index =? 1 then mret (1, mk_dirent [DOT; DOT] DT_DIR)
      else lift_fs (f (fh_handle file) (s32 (index - 2)))
    end
  end.

Definition read_file (file : file_handle_t) (offset size : Z) : K vfs (Z * list Z) :=
  fs ← select_fs (fh_mount file);
  match fs_read fs with
  | None => mret (- EINVAL, [])
  | Some f =>
    st ← guard_stat fs (fh_handle file);
    match st with
    | None => mret (- ENOENT, [])
    | Some st =>
      if st_type st =? DT_DIR then mret (- EISDIR, [])
      else lift_fs (f (fh_handle file) offset size)
    end
  end.

(** The test is on fs->read; fs->write is called without one. *)
Definition write_file (file : file_handle_t) (buffer : list Z) (offset : Z) : K vfs Z :=
  fs ← select_fs (fh_mount file);
  match fs_read fs with
  | None => mret (- EINVAL)
  | Some _ =>
    st ← guard_stat fs (fh_handle file);
    match st with
    | None => mret (- ENOENT)
    | Some st =>
      if st_type st =? DT_DIR then mret (- EISDIR)
      else call_fs (fs_write fs) (λ f, f (fh_handle file) buffer offset)
    end
  end.

Definition vfs_truncate (file : file_handle_t) (new_size : Z) : K vfs Z :=
  fs ← select_fs (fh_mount file);
  match fs_truncate fs with
  | None => mret (- ENOSYS)
  | Some f => lift_fs (f (fh_handle file) new_size)
  end.

(** ** Paths *)

Definition remove_file (path : list Z) : K vfs Z :=
  r ← find_mountpoint path;
  let '(mount, handle, remaining_path) := r in
  if mount =? 0 then mret (- handle)
  else if bool_decide (remaining_path = []) then mret (- EBUSY)
  else
    fs ← select_fs mount;
    r ← call_fs (fs_stat fs) (λ f, f handle);
    let '(res, st) := r in
    if res <? 0 then mret res
    else
      busy ← (if st_type st =? DT_DIR
              then r ← call_fs (fs_readdir fs) (λ f, f handle 0); mret (negb (fst r =? 0))
              else mret false);
      if (busy : bool) then mret (- ENOTEMPTY)
      else match fs_remove fs with
           | None => mret (- ENOSYS)
           | Some f => lift_fs (f remaining_path)
           end.

Definition rename_file (old_path new_path : list Z) : K vfs Z :=
  r ← find_mountpoint old_path;
  let '(old_mount, old_err, old_remaining_path) := r in
  r ← find_mountpoint new_path;
  let '(new_mount, new_err, new_remaining_path) := r in
  if old_mount =? 0 then mret (- old_err)
  else if new_mount =? 0 then mret (- new_err)
  else if bool_decide (old_remaining_path = []) then mret (- EBUSY)
  else if negb (old_mount =? new_mount) then mret (- EXDEV)
  else
    fs ← select_fs old_mount;
    match fs_rename fs with
    | None => mret (- ENOSYS)
    | Some f => lift_fs (f old_remaining_path new_remaining_path)
    end.

(** remaining_dir + "/" + filename, in a buffer of MAX_PATH bytes. *)
Definition join_remaining (remaining_dir filename : list Z) : list Z :=
  remaining_dir ++ SLASH :: ztake (MAX_PATH - zlen remaining_dir - 2) filename.

(** The directory part of create_file, create_directory and mknod. *)
Definition create_with {A} (path : list Z) (op : filesystem_t FS → option A)
    (k : A → list Z → K FS Z) : K vfs Z :=
  let '(res, dirname, filename) := split_path path in
  if res <? 0 then mret res
  else
    r ← find_mountpoint dirname;
    let '(mount, err, remaining_dir) := r in
    if mount =? 0 then mret (- err)
    else
      fs ← select_fs mount;
      match op fs with
      | None => mret (- ENOSYS)
      | Some f => lift_fs (k f (join_remaining remaining_dir filename))
      end.

Definition create_file (path : list Z) : K vfs Z :=
  create_with path fs_create_file (λ f p, f p).
Definition create_directory (path : list Z) : K vfs Z :=
  create_with path fs_create_directory (λ f p, f p).
Definition mknod (path : list Z) (type dev : Z) : K vfs Z :=
  create_with path fs_mknod (λ f p, f p type dev).

(** The result of split_path is not looked at: on an error the two buffers are
    read uninitialised. *)
Definition vfs_link (file link : list Z) : K vfs Z :=
  r ← find_mountpoint file;
  let '(mount, handle, _) := r in
  if mount =? 0 then mret (- handle)
  else
    let '(res, ln_dirname, ln_filename) := split_path link in
    (if res <? 0 then kfault else mret tt);;
    r ← find_mountpoint ln_dirname;
    let '(ln_mount, ln_err, remaining_link_path) := r in
    if ln_mount =? 0 then mret (- ln_err)
    else if negb (mount =? ln_mount) then mret (- EXDEV)
    else
      fs ← select_fs mount;
      match fs_link fs with
      | None => mret (- ENOSYS)
      | Some f => lift_fs (f handle (join_remaining remaining_link_path ln_filename))
      end.

Definition getcwd (len : Z) : K vfs (list Z) := kgets (λ s, strncpy (wd s) (len - 1)).

Definition chdir (path : list Z) : K vfs Z :=
  resolved ← absolute_resolved path;
  r ← vfs_stat resolved;
  let '(res, st) := r in
  if res <? 0 then mret res
  else if negb (st_type st =? DT_DIR) then mret (- ENOTDIR)
  else kmodify (set_wd (strncpy resolved (MAX_PATH - 1)));; mret 0.

(** ** Devices: these three go to devfs without a mount *)

Fixpoint device_loop (devfs : filesystem_t FS) (fuel : nat) (path : list Z) (handle : Z)
    : K vfs (Z * Z) :=
  match path with
  | [] => mret (0, handle)
  | _ =>
    match fuel with
    | O => kfuel
    | S fuel =>
      r ← kopt (take_subdir path 0);
      let '(subdir, path) := r in
      if bool_decide (subdir = []) then
        device_loop devfs fuel (if last_is_slash path then tail path else path) handle
      else
        r ← lift_fs (fs_lookup devfs subdir handle);
        let '(res, next) := r in
        if res <? 0 then mret (res, 0) else device_loop devfs fuel path next
    end
  end.
Definition lookup_device (devfs : filesystem_t FS) (path : list Z) : K vfs (Z * Z) :=
  resolved ← absolute_resolved path;
  handle ← lift_fs (fs_get_root devfs);
  let path := skip_slashes resolved in
  device_loop devfs (S (length path)) path handle.

(** The result of mount() is not tested. *)
Definition mount_root_filesystem (devfs : filesystem_t FS) (device : option (list Z))
    (flags : Z) : K vfs Z :=
  s ← kget;
  if zlen (filesystems s) =? 0 then mret (- ENOENT)
  else
    match device with
    | None => mret (- EINVAL)
    | Some device =>
      r ← lookup_device devfs device;
      let '(res, handle) := r in
      if res <? 0 then mret res
      else
        r ← call_fs (fs_stat devfs) (λ f, f handle);
        let '(res, st) := r in
        if res <? 0 then mret res
        else if negb (st_type st =? DT_BLOCK) then mret (- ENOTBLK)
        else
          let dev := device_of (major (st_rdev st)) (minor (st_rdev st)) in
          i ← probe (filesystems s) 0 dev;
          if i =? -1 then mret (- ENOSYS)
          else
            fs ← filesystem i;
            data ← lift_fs (fs_mount fs dev flags);
            kmodify (λ s,
              mk_vfs (filesystems s)
                (<[next_mount s := mk_mountpoint 0 i 0 data 0 0 0]> (mounts s))
                (next_mount s + 1) (next_mount s) (fs_state s) (wd s));;
            mret 0
    end.

Definition ioctl (block_ioctl char_ioctl : block_device_t → Z → Z → K FS Z)
    (file : file_handle_t) (request arg : Z) : K vfs Z :=
  r ← stat_handle file;
  let '(res, st) := r in
  if res <? 0 then mret res
  else
    let dev := device_of (major (st_rdev st)) (minor (st_rdev st)) in
    if st_type st =? DT_BLOCK then lift_fs (block_ioctl dev request arg)
    else if st_type st =? DT_CHAR then lift_fs (char_ioctl dev request arg)
    else mret (- ENOTTY).

End vfs.
Arguments vfs _ : clear implicits.

Lemma makedev_major_minor ma mi :
  0 ≤ ma < 2 ^ 32 → 0 ≤ mi < 2 ^ 32 → major (makedev ma mi) = ma ∧ minor (makedev ma mi) = mi.
Proof.
  intros Hma Hmi. unfold makedev, major, minor. rewrite lor_shiftl by lia.
  change 0xffffffff with (Z.ones 32). rewrite Z.land_ones, Z.shiftr_div_pow2 by lia.
  unfold u32. split; Z.div_mod_to_equations; lia.
Qed.
