(* ===== verification/VfsWalk.v ===== *)
(** * Path lookup follows names, not characters

    [walk] is lookup at the level of names; the character loop of
    find_mountpoint runs it on the canonical names of the path. *)

From S2P Require Import Prelude Path Vfs.

Section walk.
Context {FS : Type}.
Implicit Types (s : vfs FS) (fs : filesystem_t FS).

(** Look the names up one after the other, crossing into mounts; the path
    inside the mount is left out. *)
Fixpoint walk (names : list (list Z)) (current handle : Z) (fs : filesystem_t FS)
    : K (vfs FS) (Z * Z) :=
  match names with
  | [] => mret (current, handle)
  | w :: names =>
    r ← lift_fs (fs_lookup fs w handle);
    let '(res, next) := r in
    if res <? 0 then mret (0, - res)
    else
      r ← cross_mount current next fs [] [];
      let '(current, handle, fs, _) := r in
      walk names current handle fs
  end.

Definition walk_root (names : list (list Z)) : K (vfs FS) (Z * Z) :=
  s ← kget;
  fs ← select_fs (root s);
  handle ← lift_fs (fs_get_root fs);
  walk names (root s) handle fs.

(** Equality of runs, composed through binds. *)
Definition run_eq {A} (m n : K (vfs FS) A) : Prop := ∀ s, m s = n s.
#[local] Infix "≡ₖ" := run_eq (at level 70).

#[export] Instance run_eq_equivalence {A} : Equivalence (@run_eq A).
Proof. split; [by intros m s|by intros m n H s|by intros m n k H1 H2 s; rewrite H1]. Qed.
#[export] Instance bind_proper {A B} :
  Proper (run_eq ==> pointwise_relation A run_eq ==> run_eq) (λ m f, m ≫= f : K (vfs FS) B).
Proof.
  intros m n Hm f g Hf s. unfold mbind, K_bind. rewrite Hm.
  destruct (n s) as [[a s']| | |]; [apply Hf|done..].
Qed.
Lemma bind_assoc {A B C} (m : K (vfs FS) A) (f : A → K (vfs FS) B) (g : B → K (vfs FS) C) :
  (m ≫= f) ≫= g ≡ₖ m ≫= λ a, f a ≫= g.
Proof. intros s. unfold mbind, K_bind. by destruct (m s) as [[a s']| | |]. Qed.
Lemma bind_cong {A B} (m : K (vfs FS) A) (f g : A → K (vfs FS) B) :
  (∀ a, f a ≡ₖ g a) → m ≫= f ≡ₖ m ≫= g.
Proof. intros Hf s. unfold mbind, K_bind. by destruct (m s) as [[a s']| | |]; [apply Hf|..]. Qed.
Lemma bind_ret_l {A B} (a : A) (f : A → K (vfs FS) B) : mret a ≫= f ≡ₖ f a.
Proof. done. Qed.

(** ** Cutting off the first name *)

Lemma take_subdir_spec w q count :
  no_slash w → at_end q → 0 ≤ count → count + zlen w < 256 → take_subdir (w ++ q) count = Some (w, q).
Proof.
  revert count. induction w as [|c w IH]; intros count Hw Hq Hc Hlen.
  - rewrite zlen_nil in Hlen. destruct Hq as [->|[t ->]]; cbn [app take_subdir];
      rewrite (proj2 (Z.ltb_lt count 256)) by lia; done.
  - apply Forall_cons in Hw as [Hs Hw]. rewrite zlen_cons in Hlen. pose proof (zlen_nonneg w).
    cbn [app take_subdir]. rewrite Hs, (proj2 (Z.ltb_lt count 256)) by lia. cbn [negb andb].
    by rewrite IH by (done || lia).
Qed.

(** Every path is a name, possibly empty, before a slash or the end. *)
Lemma first_name p : ∃ w q, p = w ++ q ∧ no_slash w ∧ at_end q.
Proof.
  induction p as [|c p (w & q & -> & Hw & Hq)]; [by exists [], []; repeat constructor|].
  destruct (is_slash c) eqn:Hc.
  - exists [], (c :: w ++ q). unfold is_slash in Hc. apply Z.eqb_eq in Hc as ->.
    split_and!; [done|constructor|right; eauto].
  - exists (c :: w), q. split_and!; [done|by constructor|done].
Qed.

(** [cross_mount] uses the two paths only to return them. *)
Lemma cross_mount_paths current handle fs p rem {A} (k k' : Z * Z * filesystem_t FS * list Z → K (vfs FS) A) :
  (∀ c h fs r r', k (c, h, fs, r) ≡ₖ k' (c, h, fs, r')) →
  cross_mount current handle fs p rem ≫= k ≡ₖ cross_mount current handle fs [] [] ≫= k'.
Proof.
  intros Hk. unfold cross_mount. rewrite !bind_assoc. apply bind_cong. intros cur.
  rewrite !bind_assoc. apply bind_cong. intros s. destruct (children cur =? 0); [apply Hk|].
  rewrite !bind_assoc. apply bind_cong. intros [m|]; [|apply Hk].
  rewrite !bind_assoc. apply bind_cong. intros fs'. rewrite !bind_assoc. apply bind_cong.
  intros h. apply Hk.
Qed.

Lemma find_loop_walk fuel p current handle fs rem :
  (length p < fuel)%nat → Forall (λ w, zlen w < 256) (components p) →
  (r ← find_loop fuel p current handle fs rem; mret (fst r)) ≡ₖ
  walk (components p) current handle fs.
Proof.
  revert p current handle fs rem. induction fuel as [|fuel IH]; intros p current handle fs rem Hf Hn;
    [lia|].
  destruct (first_name p) as (w & q & -> & Hw & Hq).
  rewrite components_app in * by done.
  destruct (decide (w = [])) as [->|Hne].
  - cbn [app] in *. destruct Hq as [->|[t ->]]; [by intros s|].
    rewrite bool_decide_eq_true_2 in Hn by done. simpl in Hf.
    exact (IH t current handle fs rem ltac:(lia) Hn).
  - rewrite bool_decide_eq_false_2 in * by done. cbn [app] in Hn.
    apply Forall_cons in Hn as [Hlen Hn]. cbn [app walk].
    destruct w as [|c w]; [done|]. cbn [app find_loop]. 
    change (c :: w ++ q) with ((c :: w) ++ q).
    rewrite take_subdir_spec by (done || lia). cbn [kopt].
    intros s.
    transitivity ((r ← lift_fs (fs_lookup fs (c :: w) handle);
      let '(res, next) := r in
      if res <? 0 then mret (0, - res) else
      r ← cross_mount current next fs q rem;
      (let '(current, handle, fs, remaining) := r in
       r ← find_loop fuel q current handle fs remaining; mret (fst r))) s).
    { unfold mbind, mret, K_bind, K_ret. rewrite bool_decide_eq_false_2 by done.
      destruct (lift_fs _ s) as [[[res nx] s1]| | |]; try done.
      destruct (res <? 0); [done|].
      destruct (cross_mount _ _ _ _ _ s1) as [[[[[c1 h1] f1] r1] s2]| | |]; done. }
    apply bind_cong. intros [res nx]. destruct (res <? 0); [done|].
    apply cross_mount_paths. intros c1 h1 f1 r1 _. apply IH; [|done].
    simpl in Hf. rewrite length_app in Hf. lia.
Qed.

(** The names a path stands for, seen from the working directory. *)
Definition names_from (wd path : list Z) : list (list Z) :=
  reverse (walk_names []
    ((if bool_decide (head path = Some SLASH) then [] else components wd) ++ components path)).

Lemma absolute_resolved_spec path s :
  head (wd s) = Some SLASH → zlen (wd s) + zlen path ≤ MAX_PATH - 3 →
  ∃ out, absolute_resolved path s = Done (out, s) ∧ components out = names_from (wd s) path.
Proof.
  intros Hwd Hlen.
  destruct (make_absolute_spec (wd s) path Hwd ltac:(lia)) as (a & Ha & Hza & Hca).
  destruct (resolve_path_spec a) as (out & Hout & _ & _ & Hex).
  destruct Hex as [Hc _]; [lia|].
  exists out. split.
  - unfold absolute_resolved, kget, mbind, K_bind. rewrite Ha. cbn [kopt mret K_ret]. by rewrite Hout.
  - rewrite Hc. unfold canonical. by rewrite Hca.
Qed.

(** C16: a path means its canonical names.  As long as the working directory and
    the path fit the path buffer together and every name is shorter than 256
    bytes, find_mountpoint ends on exactly the mount and handle (or the error)
    that looking up the canonical names one by one gives, with the same effect on
    the file systems: empty names and "." cost nothing, ".." removes a name, and
    after each name the lookup crosses into a mount sitting on it. *)
Theorem find_mountpoint_names path s :
  head (wd s) = Some SLASH → zlen (wd s) + zlen path ≤ MAX_PATH - 3 →
  Forall (λ w, zlen w < 256) (names_from (wd s) path) →
  (r ← find_mountpoint path; mret (fst r)) s = walk_root (names_from (wd s) path) s.
Proof.
  intros Hwd Hlen Hn. destruct (absolute_resolved_spec path s Hwd Hlen) as (out & Hout & Hc).
  unfold find_mountpoint, walk_root.
  transitivity ((fs ← select_fs (root s); handle ← lift_fs (fs_get_root fs);
    (r ← find_loop (S (length (skip_slashes out))) (skip_slashes out) (root s) handle fs out;
     mret (fst r))) s).
  { unfold mbind, K_bind, kget. rewrite Hout.
    destruct (select_fs (root s) s) as [[fs s1]| | |]; try done.
    by destruct (lift_fs (fs_get_root fs) s1) as [[h s2]| | |]. }
  unfold kget, mbind at 4, K_bind at 4.
  apply bind_cong. intros fs. apply bind_cong. intros handle.
  intros s'. rewrite <-Hc, <-components_skip. apply find_loop_walk; [lia|].
  by rewrite components_skip, Hc.
Qed.

(** A new name for rename_file must already exist: its own lookup has to succeed
    before the file system is asked. *)
Lemma rename_needs_target old new s m e rem s1 h err rem2 s2 :
  find_mountpoint old s = Done ((m, e, rem), s1) → m ≠ 0 →
  find_mountpoint new s1 = Done ((h, err, rem2), s2) → h = 0 →
  rename_file old new s = Done (- err, s2).
Proof.
  intros H1 Hm H2 ->. unfold rename_file. rewrite (K_bind_step _ _ _ _ _ H1).
  rewrite (K_bind_step _ _ _ _ _ H2). by rewrite (proj2 (Z.eqb_neq m 0)).
Qed.

End walk.

(** ** A concrete instance

    A file system without state: every directory holds, for each n from 1 to 15,
    the directory of all names of n characters, whose handle is the parent's
    handle times 16 plus n. *)
Definition length_fs : filesystem_t unit :=
  mk_filesystem unit [76] true false None
    (λ _ _, mret 1) None (λ _, mret tt) (mret 1)
    (λ w h, mret (if zlen w <? 16 then (0, 16 * h + zlen w) else (- ENOENT, 0)))
    None None None None None
    (Some (λ h, mret (0, mk_stat 0 0 0 0 0 0 DT_DIR)))
    None None None None None None None.
(** It is the root and is mounted a second time on the directory 16 + 3. *)
Definition length_vfs : vfs unit :=
  mk_vfs [length_fs]
    {[ 1 := mk_mountpoint 0 0 0 1 0 0 2; 2 := mk_mountpoint 19 0 0 1 1 0 0 ]}
    3 1 tt [SLASH].
(** "/abc/./zz/../w" crosses into the second mount at "abc". *)
Definition crossing_path : list Z := [47;97;98;99;47;46;47;122;122;47;46;46;47;119].

Lemma find_mountpoint_names_witness :
  names_from [SLASH] crossing_path = [[97; 98; 99]; [119]] ∧
  (r ← find_mountpoint crossing_path; mret (fst r)) length_vfs = Done ((2, 17), length_vfs) ∧
  (r ← find_mountpoint crossing_path; mret (fst r)) length_vfs =
    walk_root (names_from (wd length_vfs) crossing_path) length_vfs.
Proof.
  split; [vm_compute; reflexivity|]. split; [vm_compute; reflexivity|].
  apply (find_mountpoint_names crossing_path length_vfs); [reflexivity|vm_compute; discriminate|].
  assert (E : names_from (wd length_vfs) crossing_path = [[97; 98; 99]; [119]]) by (vm_compute; reflexivity).
  rewrite E. repeat constructor.
Defined.
