(* ===== verification/VfsMount.v ===== *)
(** * The mount tree and the open files

    [mount_chain m p l] reads the linked list of mountpoints from [p]; [mount_tree]
    says that every children list is such a list, with parent pointers to match;
    [files_ok] that each mount counts the open files on it. *)

From S2P Require Import Prelude Path Vfs VfsWalk PagingAlloc.

Inductive mount_chain (m : gmap Z mountpoint_t) : Z → list Z → Prop :=
| mount_chain_nil : mount_chain m 0 []
| mount_chain_cons p mp l : p ≠ 0 → m !! p = Some mp → mount_chain m (next mp) l → mount_chain m p (p :: l).

(** Only the [next] fields of the members matter. *)
Lemma mount_chain_ext m m' p l :
  (∀ q mq, q ∈ l → m !! q = Some mq → ∃ mq', m' !! q = Some mq' ∧ next mq' = next mq) →
  mount_chain m p l → mount_chain m' p l.
Proof.
  intros Hext H. induction H as [|p mp l Hp Hm H IH]; [constructor|].
  destruct (Hext p mp) as (mp' & Hm' & Hn); [by left|done|].
  apply (mount_chain_cons _ p mp'); [done|done|]. rewrite Hn. apply IH.
  intros q mq Hq. apply Hext. by right.
Qed.

Lemma mount_chain_head m p l : mount_chain m p l → (p = 0 ∧ l = []) ∨ (p ≠ 0 ∧ ∃ l', l = p :: l').
Proof. intros []; [by left|right]. eauto. Qed.

Lemma mount_chain_member m p l q : mount_chain m p l → q ∈ l → q ≠ 0 ∧ is_Some (m !! q).
Proof. intros H. induction H as [|p mp l Hp Hm H IH]; set_solver. Qed.

(** Linking past a member. *)
Lemma mount_chain_unlink m p l1 sib c l2 msib mc :
  mount_chain m p (l1 ++ sib :: c :: l2) → NoDup (l1 ++ sib :: c :: l2) →
  m !! sib = Some msib → m !! c = Some mc →
  mount_chain (<[sib := mp_set_next (next mc) msib]> m) p (l1 ++ sib :: l2).
Proof.
  revert p. induction l1 as [|q l1 IH]; intros p H Hnd Hs Hc; cbn [app] in *.
  - inversion H as [|p' mp l' Hp Hm Hch]; simplify_eq.
    inversion Hch as [|p' mp' l' Hp' Hm' Hch']; simplify_eq.
    apply NoDup_cons in Hnd as [Hn1 _].
    apply (mount_chain_cons _ sib (mp_set_next (next mc) msib)); [done|apply lookup_insert_eq|].
    cbn [mp_set_next next]. eapply mount_chain_ext; [|exact Hch'].
    intros q mq Hq Hmq. exists mq. split; [|done]. rewrite lookup_insert_ne; [done|].
    intros <-. apply Hn1. by right.
  - inversion H as [|p' mp l' Hp Hm Hch]; simplify_eq.
    apply NoDup_cons in Hnd as [Hn1 Hnd].
    apply (mount_chain_cons _ q mp); [done| |by apply IH].
    rewrite lookup_insert_ne; [done|]. intros ->. apply Hn1. set_solver.
Qed.

Section mounts.
Context {FS : Type}.
Implicit Types (s : vfs FS).

Record mount_tree (s : vfs FS) (kids : Z → list Z) : Prop := {
  mt_fresh : ∀ p, is_Some (mounts s !! p) → 0 < p < next_mount s;
  mt_root : is_Some (mounts s !! root s);
  mt_kids : ∀ p mp, mounts s !! p = Some mp → mount_chain (mounts s) (children mp) (kids p);
  mt_nodup : ∀ p, NoDup (kids p);
  mt_parent : ∀ p c, c ∈ kids p → ∃ mc, mounts s !! c = Some mc ∧ parent mc = p;
  mt_none : ∀ p, mounts s !! p = None → kids p = [];
}.

(** ** The unlinking loop *)

Lemma deref_Done p s m s' : deref p s = Done (m, s') ↔ s' = s ∧ mounts s !! p = Some m.
Proof.
  unfold deref, kget, mbind, K_bind, kopt, mret, K_ret, kfault.
  destruct (mounts s !! p); naive_solver.
Qed.
Lemma update_mount_Done p f s u s' :
  update_mount p f s = Done (u, s') ↔
  ∃ m, mounts s !! p = Some m ∧ s' = set_mounts (<[p := f m]> (mounts s)) s.
Proof.
  unfold update_mount. rewrite K_bind_Done. setoid_rewrite deref_Done. unfold kmodify. destruct u.
  naive_solver.
Qed.

Lemma find_sibling_Done fuel sib mount l s r s' :
  mount_chain (mounts s) sib l → mount ≠ 0 → find_sibling fuel sib mount s = Done (r, s') →
  s' = s ∧
  ((r = 0 ∧ (∀ l1 x l2, l ≠ l1 ++ x :: mount :: l2)) ∨
   ∃ l1 l2 m, l = l1 ++ r :: mount :: l2 ∧ mounts s !! r = Some m).
Proof.
  intros H Hne. revert fuel. induction H as [|p mp l Hp Hm H IH]; intros fuel Hf.
  - destruct fuel; cbn in Hf; unfold mret, K_ret in Hf; simplify_eq;
      (split; [done|]; left; split; [done|]; by intros [|??]).
  - destruct fuel as [|fuel]; cbn [find_sibling] in Hf;
      rewrite (proj2 (Z.eqb_neq p 0) Hp) in Hf; [discriminate Hf|].
    apply K_bind_Done in Hf as (m & s1 & Hd & Hf). apply deref_Done in Hd as [-> Hd].
    assert (m = mp) as -> by congruence.
    destruct (Z.eqb_spec (next mp) mount) as [He|Hn].
    + unfold mret, K_ret in Hf. simplify_eq. split; [done|]. right.
      destruct (mount_chain_head _ _ _ H) as [[? _]|[_ [l' ->]]]; [done|].
      by exists [], l', mp.
    + destruct (IH _ Hf) as [-> [[-> Hno]|(l1 & l2 & m & -> & Hr)]]; (split; [done|]).
      * left. split; [done|]. intros [|y l1] x l2 [= -> Heq]; [|by apply (Hno l1 x l2)].
        subst l. inversion H; simplify_eq.
      * right. by exists (p :: l1), l2, m.
Qed.

(** What may change in a node when [c] leaves the children of [p]. *)
Definition node_kept (mq mq' : mountpoint_t) : Prop :=
  refcount mq' = refcount mq ∧ parent mq' = parent mq ∧ mp_type mq' = mp_type mq ∧
  mp_data mq' = mp_data mq.

Definition kids_without (c p : Z) (kids : Z → list Z) (q : Z) : list Z :=
  if decide (q = p) then without c (kids q) else kids q.

Record unlinked (s s' : vfs FS) (c p : Z) : Prop := {
  ul_root : root s' = root s;
  ul_next : next_mount s' = next_mount s;
  ul_fs : filesystems s' = filesystems s;
  ul_dom : ∀ q, is_Some (mounts s' !! q) ↔ is_Some (mounts s !! q);
  ul_node : ∀ q mq, mounts s !! q = Some mq → ∃ mq', mounts s' !! q = Some mq' ∧
    node_kept mq mq' ∧ (q ≠ p → children mq' = children mq);
}.

(** Rewriting one node [x]: a child of [p], or [p] itself. *)
Lemma relink s kids c p x mx mx' :
  mount_tree s kids → mounts s !! x = Some mx → node_kept mx mx' →
  (x ≠ p → children mx' = children mx) → (x ∉ kids p → next mx' = next mx) →
  let s' := set_mounts (<[x := mx']> (mounts s)) s in
  (∀ mp', mounts s' !! p = Some mp' → mount_chain (mounts s') (children mp') (without c (kids p))) →
  mount_tree s' (kids_without c p kids) ∧ unlinked s s' c p.
Proof.
  intros Ht Hx Hkept Hch Hnx s' Hpc.
  assert (Hlook : ∀ q mq, mounts s !! q = Some mq → ∃ mq', mounts s' !! q = Some mq' ∧
      node_kept mq mq' ∧ (q ≠ p → children mq' = children mq) ∧ (q ∉ kids p → next mq' = next mq)).
  { intros q mq Hq. cbn. destruct (decide (x = q)) as [->|].
    - exists mx'. rewrite lookup_insert_eq. assert (mq = mx) as -> by congruence. done.
    - exists mq. by rewrite lookup_insert_ne. }
  assert (Hdom : ∀ q, is_Some (mounts s' !! q) ↔ is_Some (mounts s !! q)).
  { intros q. cbn. destruct (decide (x = q)) as [->|]; [|by rewrite lookup_insert_ne].
    rewrite lookup_insert_eq, Hx. naive_solver. }
  assert (Hin : ∀ q y, y ∈ kids_without c p kids q → y ∈ kids q).
  { intros q y. unfold kids_without, without. case_decide; [|done].
    rewrite list_elem_of_filter. tauto. }
  split; [split|split]; try done.
  - intros q Hq. apply (mt_fresh _ _ Ht), Hdom, Hq.
  - apply Hdom, (mt_root _ _ Ht).
  - intros q mq' Hq. unfold kids_without. case_decide as Hqp; [subst q; by apply Hpc|].
    destruct (mounts s !! q) as [mq|] eqn:Hmq;
      [|apply mk_is_Some, Hdom in Hq; rewrite Hmq in Hq; by destruct Hq].
    destruct (Hlook q mq Hmq) as (mq2 & Hq2 & _ & Hchq & _).
    assert (mq2 = mq') as -> by congruence. rewrite Hchq by done.
    eapply mount_chain_ext; [|by apply (mt_kids _ _ Ht)].
    intros y my Hy Hmy. destruct (Hlook y my Hmy) as (my' & Hy' & _ & _ & Hny).
    exists my'. split; [done|]. apply Hny. intros Hyp.
    destruct (mt_parent _ _ Ht _ _ Hy) as (a & Ha & Hpa).
    destruct (mt_parent _ _ Ht _ _ Hyp) as (b & Hb & Hpb). congruence.
  - intros q. unfold kids_without. case_decide; [|apply (mt_nodup _ _ Ht)].
    apply NoDup_filter, (mt_nodup _ _ Ht).
  - intros q y Hy. destruct (mt_parent _ _ Ht _ _ (Hin _ _ Hy)) as (my & Hmy & Hpy).
    destruct (Hlook y my Hmy) as (my' & Hy' & (_ & E & _) & _). exists my'. split; [done|congruence].
  - intros q Hq. assert (Hmq : mounts s !! q = None).
    { destruct (mounts s !! q) eqn:E; [|done]. exfalso.
      destruct (proj2 (Hdom q)) as [? ?]; [by rewrite E|congruence]. }
    unfold kids_without. rewrite (mt_none _ _ Ht q Hmq). by case_decide.
  - intros q mq Hq. destruct (Hlook q mq Hq) as (mq' & ? & ? & ? & _). by exists mq'.
Qed.

Lemma unlink_first s kids c mc p mp :
  mount_tree s kids → mounts s !! c = Some mc → mounts s !! p = Some mp → children mp = c → c ≠ 0 →
  let s' := set_mounts (<[p := mp_set_children (next mc) mp]> (mounts s)) s in
  mount_tree s' (kids_without c p kids) ∧ unlinked s s' c p.
Proof.
  intros Ht Hc Hp He Hc0 s'. apply (relink s kids c p p mp); try done.
  cbn. rewrite lookup_insert_eq. intros mp' [= <-]. cbn.
  pose proof (mt_kids _ _ Ht p mp Hp) as Hch. pose proof (mt_nodup _ _ Ht p) as Hnd.
  rewrite He in Hch. destruct (mount_chain_head _ _ _ Hch) as [[? _]|[_ [l Hl]]]; [done|].
  rewrite Hl in *. inversion Hch as [|c' mc' l' Hc' Hmc' Hl']; subst. simplify_eq.
  change (children mp :: l) with ([] ++ children mp :: l). rewrite without_nodup by done. cbn [app].
  eapply mount_chain_ext; [|exact Hl']. intros q mq Hq Hmq.
  destruct (decide (p = q)) as [<-|]; [|exists mq; by rewrite lookup_insert_ne].
  eexists. rewrite lookup_insert_eq. split; [done|]. by simplify_eq.
Qed.

Lemma unlink_later s kids c mc p mp sib ms l1 l2 :
  mount_tree s kids → mounts s !! c = Some mc → mounts s !! p = Some mp →
  kids p = l1 ++ sib :: c :: l2 → mounts s !! sib = Some ms →
  let s' := set_mounts (<[sib := mp_set_next (next mc) ms]> (mounts s)) s in
  mount_tree s' (kids_without c p kids) ∧ unlinked s s' c p.
Proof.
  intros Ht Hc Hp Hl Hs s'. apply (relink s kids c p sib ms); try done.
  { intros Hnk. exfalso. apply Hnk. rewrite Hl. set_solver. }
  intros mp' Hmp'. pose proof (mt_kids _ _ Ht p mp Hp) as Hch.
  pose proof (mt_nodup _ _ Ht p) as Hnd. rewrite Hl in Hnd, Hch |- *.
  assert (children mp' = children mp) as ->.
  { cbn in Hmp'. destruct (decide (sib = p)) as [->|].
    - rewrite lookup_insert_eq in Hmp'. injection Hmp' as <-. cbn. congruence.
    - rewrite lookup_insert_ne in Hmp' by done. congruence. }
  replace (l1 ++ sib :: c :: l2) with ((l1 ++ [sib]) ++ c :: l2) by (by rewrite <-app_assoc).
  rewrite without_nodup by (by rewrite <-app_assoc). rewrite <-app_assoc. cbn [app].
  eapply mount_chain_unlink; done.
Qed.

Lemma unlink_mount_spec s kids c mc u s' :
  mount_tree s kids → mounts s !! c = Some mc → unlink_mount c s = Done (u, s') →
  mount_tree s' (kids_without c (parent mc) kids) ∧ unlinked s s' c (parent mc).
Proof.
  intros Ht Hc H. unfold unlink_mount in H.
  apply K_bind_Done in H as (m0 & s0 & Hd & H). apply deref_Done in Hd as [-> Hd].
  assert (m0 = mc) as -> by congruence. clear Hd.
  apply K_bind_Done in H as (mp & s0 & Hd & H). apply deref_Done in Hd as [-> Hp].
  pose proof (mt_kids _ _ Ht _ mp Hp) as Hch.
  assert (Hc0 : c ≠ 0) by (pose proof (mt_fresh _ _ Ht c ltac:(by rewrite Hc)); lia).
  destruct (Z.eqb_spec (children mp) c) as [He|Hne].
  - apply update_mount_Done in H as (mp2 & Hp2 & ->). assert (mp2 = mp) as -> by congruence.
    by apply unlink_first.
  - apply K_bind_Done in H as (sx & s1 & Hg & H). unfold kget in Hg. injection Hg as <- <-.
    apply K_bind_Done in H as (sib & s1 & Hf & H).
    destruct (find_sibling_Done _ _ _ _ _ _ _ Hch Hc0 Hf) as [-> [[-> Hno]|(l1 & l2 & ms & Hl & Hs)]].
    + cbn in H. unfold mret, K_ret in H. simplify_eq.
      assert (Hnot : c ∉ kids (parent mc)).
      { intros Hin. apply list_elem_of_split in Hin as (l1 & l2 & Hl).
        destruct l1 as [|x l1 _] using rev_ind; [|by apply (Hno l1 x l2); rewrite Hl, <-app_assoc].
        rewrite Hl in Hch. destruct (mount_chain_head _ _ _ Hch) as [[_ ?]|[_ [l' Heq]]]; [done|].
        cbn in Heq. congruence. }
      assert (Heq : s' = set_mounts (<[c := mc]> (mounts s')) s')
        by (rewrite insert_id by done; by destruct s').
      rewrite Heq at 1 3. apply (relink s' kids c (parent mc) c mc mc); try done.
      cbn. rewrite insert_id by done. intros mp' Hmp'. assert (mp' = mp) as -> by congruence.
      by rewrite without_id.
    + assert (Hsib0 : sib ≠ 0).
      { apply (mount_chain_member _ _ _ sib Hch). rewrite Hl. set_solver. }
      rewrite (proj2 (Z.eqb_neq sib 0) Hsib0) in H.
      apply update_mount_Done in H as (ms2 & Hs2 & ->). assert (ms2 = ms) as -> by congruence.
      by eapply unlink_later.
Qed.

(** ** Operations that leave the tree alone *)

Definition tree_of (s : vfs FS) : gmap Z mountpoint_t * Z * Z * list (filesystem_t FS) :=
  (mounts s, next_mount s, root s, filesystems s).
Notation keeps_tree t := (keeps (λ s : vfs FS, tree_of s = t)).

Lemma keeps_tree_lift t {A} (m : K FS A) : keeps_tree t (lift_fs m).
Proof.
  intros s a s' Hs H. unfold lift_fs in H. by destruct (m (fs_state s)) as [[b f]| | |]; simplify_eq.
Qed.
Lemma keeps_tree_opt t {A} (o : option A) : keeps_tree t (kopt o).
Proof. destruct o; [apply keeps_ret|apply keeps_fail]. Qed.
Lemma keeps_tree_modify t (f : vfs FS → vfs FS) :
  (∀ s, tree_of (f s) = tree_of s) → keeps_tree t (kmodify f).
Proof. intros Hf. apply keeps_modify. intros s Hs. by rewrite Hf. Qed.
#[local] Hint Resolve keeps_tree_lift keeps_tree_opt : keeps.

Lemma keeps_tree_deref t p : keeps_tree t (deref p).
Proof. unfold deref. keeps_tac. Qed.
Lemma keeps_tree_filesystem t i : keeps_tree t (filesystem i).
Proof. unfold filesystem. keeps_tac. Qed.
#[local] Hint Resolve keeps_tree_deref keeps_tree_filesystem : keeps.
Lemma keeps_tree_select t p : keeps_tree t (select_fs p).
Proof. unfold select_fs. keeps_tac. Qed.
Lemma keeps_tree_absolute t path : keeps_tree t (absolute_resolved path).
Proof. unfold absolute_resolved. keeps_tac. Qed.
#[local] Hint Resolve keeps_tree_select keeps_tree_absolute : keeps.
Lemma keeps_tree_find_child t fuel m first h : keeps_tree t (find_child fuel m first h).
Proof.
  revert m. induction fuel as [|fuel IH]; intros m; cbn [find_child]; [apply keeps_fail|].
  keeps_tac; apply IH.
Qed.
#[local] Hint Resolve keeps_tree_find_child : keeps.
Lemma keeps_tree_cross t c h fs p r : keeps_tree t (cross_mount c h fs p r).
Proof. unfold cross_mount. keeps_tac. Qed.
#[local] Hint Resolve keeps_tree_cross : keeps.
Lemma keeps_tree_find_loop t fuel p c h fs r : keeps_tree t (find_loop fuel p c h fs r).
Proof.
  revert p c h fs r. induction fuel as [|fuel IH]; intros p c h fs r; cbn [find_loop];
    (destruct p; [apply keeps_ret|]); [apply keeps_fail|].
  keeps_tac; apply IH.
Qed.
#[local] Hint Resolve keeps_tree_find_loop : keeps.
Lemma keeps_tree_find t path : keeps_tree t (find_mountpoint path).
Proof. unfold find_mountpoint. keeps_tac. Qed.
#[local] Hint Resolve keeps_tree_find : keeps.
Lemma keeps_tree_stat_on t m h : keeps_tree t (stat_on m h).
Proof. unfold stat_on. keeps_tac. Qed.
#[local] Hint Resolve keeps_tree_stat_on : keeps.
Lemma keeps_tree_lookup t path : keeps_tree t (vfs_lookup path).
Proof. unfold vfs_lookup. keeps_tac. Qed.
Lemma keeps_tree_stat t path : keeps_tree t (vfs_stat path).
Proof. unfold vfs_stat. keeps_tac. Qed.
#[local] Hint Resolve keeps_tree_lookup keeps_tree_stat : keeps.
Lemma keeps_tree_probe t l i d : keeps_tree t (probe l i d).
Proof. revert i. induction l as [|fs l IH]; intros i; cbn [probe]; keeps_tac; apply IH. Qed.
#[local] Hint Resolve keeps_tree_probe : keeps.
Lemma keeps_tree_source t o : keeps_tree t (source_device o).
Proof. unfold source_device. keeps_tac. Qed.
#[local] Hint Resolve keeps_tree_source : keeps.
Lemma keeps_tree_mount_type t o p : keeps_tree t (mount_type o p).
Proof. unfold mount_type. keeps_tac. Qed.
Lemma keeps_tree_guard t fs h : keeps_tree t (guard_stat fs h).
Proof. unfold guard_stat. keeps_tac. Qed.
Lemma keeps_tree_call t {A B} (o : option A) (k : A → K FS B) : keeps_tree t (call_fs o k).
Proof. unfold call_fs. keeps_tac. Qed.
#[local] Hint Resolve keeps_tree_mount_type keeps_tree_guard keeps_tree_call : keeps.
Lemma keeps_tree_create t {A} p (op : filesystem_t FS → option A) k :
  keeps_tree t (create_with p op k).
Proof. unfold create_with. keeps_tac. Qed.
#[local] Hint Resolve keeps_tree_create : keeps.

(** ** Open files *)

Definition opened_on (p : Z) (hs : list file_handle_t) : Z :=
  zlen (filter (λ h, fh_mount h = p) hs).

Record files_ok (s : vfs FS) (hs : list file_handle_t) : Prop := {
  fo_tree : ∃ kids, mount_tree s kids;
  fo_alive : ∀ h, h ∈ hs → is_Some (mounts s !! fh_mount h);
  fo_count : ∀ p m, mounts s !! p = Some m → refcount m = opened_on p hs;
}.

Lemma opened_on_cons p h hs :
  opened_on p (h :: hs) = (if decide (fh_mount h = p) then 1 else 0) + opened_on p hs.
Proof.
  unfold opened_on. destruct (decide (fh_mount h = p)).
  - rewrite filter_cons_True by done. apply zlen_cons.
  - rewrite filter_cons_False by done. lia.
Qed.
Lemma opened_on_range p hs : 0 ≤ opened_on p hs ≤ zlen hs.
Proof. unfold opened_on, zlen. pose proof (length_filter (λ h, fh_mount h = p) hs). lia. Qed.
Lemma opened_on_delete p i h hs :
  hs !! i = Some h →
  opened_on p (delete i hs) = opened_on p hs - (if decide (fh_mount h = p) then 1 else 0).
Proof.
  revert i. induction hs as [|x hs IH]; intros [|i] H; simplify_eq/=.
  - rewrite opened_on_cons. lia.
  - rewrite !opened_on_cons, (IH i) by done. lia.
Qed.
Lemma opened_on_none p hs : (∀ h, h ∈ hs → fh_mount h ≠ p) → opened_on p hs = 0.
Proof.
  induction hs as [|h hs IH]; intros H; [done|]. rewrite opened_on_cons.
  rewrite decide_False by (apply H; by left). rewrite IH; [done|]. intros x Hx. apply H. by right.
Qed.
Lemma opened_on_zero p hs h : opened_on p hs = 0 → h ∈ hs → fh_mount h ≠ p.
Proof.
  induction hs as [|x hs IH]; intros H Hh; [by apply not_elem_of_nil in Hh|].
  rewrite opened_on_cons in H. pose proof (opened_on_range p hs).
  apply elem_of_cons in Hh as [->|Hh]; [|apply IH; [|done]]; destruct (decide _); lia || done.
Qed.

Lemma files_ok_tree s s' hs : tree_of s' = tree_of s → files_ok s hs → files_ok s' hs.
Proof.
  unfold tree_of. intros [= E1 E2 E3 _] [[kids [T1 T2 T3 T4 T5 T6]] H2 H3].
  split; [exists kids; split|..]; rewrite ?E1, ?E2, ?E3; done.
Qed.

(** A change of one reference count, with the handle that pays for it. *)
Lemma files_ok_refcount s hs hs' p n u s' :
  files_ok s hs → add_refcount p n s = Done (u, s') →
  (∀ q, opened_on q hs' = opened_on q hs + (if decide (p = q) then n else 0)) →
  (∀ h, h ∈ hs' → h ∈ hs ∨ fh_mount h = p) → zlen hs' ≤ INT_MAX → files_ok s' hs'.
Proof.
  intros [[kids Ht] Ha Hc] H Hcount Hin Hlen. apply update_mount_Done in H as (m & Hm & ->).
  pose proof (opened_on_range p hs') as Hr. pose proof (Hcount p) as Hp. rewrite decide_True in Hp by done.
  assert (Hdom : ∀ q, is_Some (mounts s !! q) → is_Some (<[p := mp_set_refcount (s32 (refcount m + n)) m]> (mounts s) !! q)).
  { intros q Hq. destruct (decide (p = q)) as [->|]; [by rewrite lookup_insert_eq|by rewrite lookup_insert_ne]. }
  split.
  - exists kids. destruct Ht as [T1 T2 T3 T4 T5 T6].
    assert (Hext : ∀ r l, mount_chain (mounts s) r l →
        mount_chain (<[p := mp_set_refcount (s32 (refcount m + n)) m]> (mounts s)) r l).
    { intros r l. apply mount_chain_ext. intros q mq _ Hq. destruct (decide (p = q)) as [<-|].
      - rewrite lookup_insert_eq. eexists. split; [done|]. cbn. congruence.
      - rewrite lookup_insert_ne by done. eauto. }
    split; cbn; try done.
    + intros q Hq. apply T1. destruct (decide (p = q)) as [<-|]; [by rewrite Hm|].
      by rewrite lookup_insert_ne in Hq.
    + by apply Hdom.
    + intros q mq Hq. apply Hext. destruct (decide (p = q)) as [<-|].
      * rewrite lookup_insert_eq in Hq. injection Hq as <-. cbn. by apply T3.
      * rewrite lookup_insert_ne in Hq by done. by apply T3.
    + intros q c Hq. destruct (T5 q c Hq) as (mc & Hmc & Hpc). destruct (decide (p = c)) as [<-|].
      * rewrite lookup_insert_eq. eexists. split; [done|]. cbn. congruence.
      * rewrite lookup_insert_ne by done. eauto.
    + intros q Hq. apply T6. destruct (decide (p = q)) as [<-|]; [by rewrite lookup_insert_eq in Hq|].
      by rewrite lookup_insert_ne in Hq.
  - intros h Hh. cbn. apply Hdom. destruct (Hin h Hh) as [?| ->]; [auto|by rewrite Hm].
  - intros q mq Hq. cbn in Hq. rewrite Hcount. destruct (decide (p = q)) as [<-|].
    + rewrite lookup_insert_eq in Hq. injection Hq as <-. cbn. rewrite (Hc p m Hm).
      apply s32_id. unfold INT_MAX in Hlen. lia.
    + rewrite lookup_insert_ne in Hq by done. rewrite (Hc q mq Hq). lia.
Qed.

(** ** Mounting and unmounting *)

Lemma keeps_tree_Done {A} (m : K (vfs FS) A) s a s' :
  keeps_tree (tree_of s) m → m s = Done (a, s') → tree_of s' = tree_of s.
Proof. intros Hm H. by apply (Hm s a s'). Qed.

(** A new first child [n] of [p]. *)
Lemma files_ok_add s hs p m i h data :
  files_ok s hs → mounts s !! p = Some m →
  let n := next_mount s in
  files_ok (mk_vfs (filesystems s)
    (<[n := mk_mountpoint h i 0 data p (children m) 0]>
       (<[p := mp_set_children n m]> (mounts s))) (n + 1) (root s) (fs_state s) (wd s)) hs.
Proof.
  intros [[kids Ht] Ha Hc] Hm n.
  assert (Hn : mounts s !! n = None).
  { destruct (mounts s !! n) eqn:E; [|done]. pose proof (mt_fresh _ _ Ht n ltac:(by rewrite E)).
    unfold n in *. lia. }
  assert (Hpn : p ≠ n) by congruence. pose proof (mt_fresh _ _ Ht p ltac:(by rewrite Hm)) as Hpr.
  set (M := <[n := _]> _).
  assert (Hlook : ∀ q, q ≠ n → q ≠ p → M !! q = mounts s !! q)
    by (intros q H1 H2; unfold M; by rewrite !lookup_insert_ne by congruence).
  assert (HMp : M !! p = Some (mp_set_children n m))
    by (unfold M; rewrite lookup_insert_ne by congruence; apply lookup_insert_eq).
  assert (HMn : M !! n = Some (mk_mountpoint h i 0 data p (children m) 0)) by apply lookup_insert_eq.
  assert (Hext : ∀ r l, mount_chain (mounts s) r l → mount_chain M r l).
  { intros r l Hch. eapply mount_chain_ext; [|exact Hch]. intros q mq Hq Hmq.
    destruct (decide (q = n)) as [->|]; [congruence|].
    destruct (decide (q = p)) as [->|]; [|exists mq; by rewrite Hlook].
    exists (mp_set_children n m). split; [done|]. cbn. congruence. }
  destruct Ht as [T1 T2 T3 T4 T5 T6].
  assert (Hdom : ∀ q, is_Some (mounts s !! q) → is_Some (M !! q)).
  { intros q Hq. destruct (decide (q = n)) as [->|]; [by rewrite HMn|].
    destruct (decide (q = p)) as [->|]; [by rewrite HMp|by rewrite Hlook]. }
  split; [exists (λ q, if decide (q = p) then n :: kids p else kids q); split|..]; cbn;
    change (<[n := _]> _) with M.
  - intros q Hq. destruct (decide (q = n)) as [->|]; [unfold n in *; lia|].
    assert (is_Some (mounts s !! q)) as Hq'.
    { destruct (decide (q = p)) as [->|]; [by rewrite Hm|by rewrite <-Hlook]. }
    apply T1 in Hq'. unfold n. lia.
  - by apply Hdom.
  - intros q mq Hq. destruct (decide (q = p)) as [->|].
    + rewrite HMp in Hq. injection Hq as <-. cbn.
      apply (mount_chain_cons _ n _ _ ltac:(unfold n in *; lia) HMn). cbn. apply Hext. by apply T3.
    + destruct (decide (q = n)) as [->|].
      * rewrite HMn in Hq. injection Hq as <-. cbn. rewrite T6 by done. constructor.
      * rewrite Hlook in Hq by done. apply Hext. by apply T3.
  - intros q. case_decide; [|apply T4]. apply NoDup_cons. split; [|apply T4].
    intros Hin. destruct (T5 _ _ Hin) as (mc & Hmc & _). congruence.
  - intros q c Hq. assert (Hor : (q = p ∧ c = n) ∨ c ∈ kids q).
    { case_decide; [subst q; apply elem_of_cons in Hq as [->|?]; auto|by right]. }
    destruct Hor as [[-> ->]|Hin]; [rewrite HMn; by eexists|].
    destruct (T5 _ _ Hin) as (mc & Hmc & Hpc). destruct (decide (c = n)) as [->|]; [congruence|].
    destruct (decide (c = p)) as [->|].
    + rewrite HMp. eexists. split; [done|]. cbn. congruence.
    + rewrite Hlook by done. eauto.
  - intros q Hq. destruct (decide (q = n)) as [->|]; [congruence|].
    destruct (decide (q = p)) as [->|]; [congruence|]. apply T6. by rewrite <-Hlook.
  - intros x Hx. by apply Hdom, Ha.
  - intros q mq Hq. destruct (decide (q = n)) as [->|].
    + rewrite HMn in Hq. injection Hq as <-. cbn. symmetry. apply opened_on_none.
      intros x Hx He. destruct (Ha x Hx) as [? ?]. congruence.
    + destruct (decide (q = p)) as [->|].
      * rewrite HMp in Hq. injection Hq as <-. cbn. by apply Hc.
      * rewrite Hlook in Hq by done. by apply Hc.
Qed.

Lemma files_ok_mount source target type flags s hs r s' :
  files_ok s hs → mount_filesystem source target type flags s = Done (r, s') → files_ok s' hs.
Proof.
  intros Hok H. unfold mount_filesystem in H.
  apply K_bind_Done in H as (sx & s0 & Hg & H). unfold kget in Hg. injection Hg as -> ->.
  destruct (_ =? 0); [unfold mret, K_ret in H; by simplify_eq|].
  apply K_bind_Done in H as (t & s1 & H1 & H).
  apply keeps_tree_Done in H1; [|apply keeps_tree_mount_type].
  assert (Hok1 : files_ok s1 hs) by (by eapply files_ok_tree). clear H1 Hok.
  destruct t as [e|[i dev]]; [unfold mret, K_ret in H; by simplify_eq|].
  apply K_bind_Done in H as ([[p h] rem] & s2 & H2 & H).
  apply keeps_tree_Done in H2; [|apply keeps_tree_find].
  assert (Hok2 : files_ok s2 hs) by (by eapply files_ok_tree). clear H2 Hok1.
  destruct (p =? 0); [unfold mret, K_ret in H; by simplify_eq|].
  apply K_bind_Done in H as (fs & s3 & H3 & H).
  apply keeps_tree_Done in H3; [|apply keeps_tree_select].
  apply K_bind_Done in H as (rh & s4 & H4 & H).
  apply keeps_tree_Done in H4; [|apply keeps_tree_lift]. rewrite H3 in H4.
  assert (Hok4 : files_ok s4 hs) by (by eapply files_ok_tree). clear H3 H4 Hok2.
  destruct (h =? rh); [unfold mret, K_ret in H; by simplify_eq|].
  apply K_bind_Done in H as (nf & s5 & H5 & H).
  apply keeps_tree_Done in H5; [|apply keeps_tree_filesystem].
  apply K_bind_Done in H as (data & s6 & H6 & H).
  apply keeps_tree_Done in H6; [|apply keeps_tree_lift]. rewrite H5 in H6.
  assert (Hok6 : files_ok s6 hs) by (by eapply files_ok_tree). clear H5 H6 Hok4.
  destruct (data =? 0); [unfold mret, K_ret in H; by simplify_eq|].
  apply K_bind_Done in H as (m & s7 & H7 & H). apply deref_Done in H7 as [-> Hm].
  apply K_bind_Done in H as (u & s8 & H8 & H). unfold kmodify in H8. injection H8 as _ <-.
  unfold mret, K_ret in H. injection H as _ <-. by apply files_ok_add.
Qed.

(** Deleting a node without children, once it is out of its parent's list. *)
Lemma files_ok_delete s hs kids c p :
  mount_tree s (kids_without c p kids) → files_ok s hs → (∀ q, c ∈ kids q → q = p) →
  kids c = [] → c ≠ root s → opened_on c hs = 0 →
  files_ok (set_mounts (delete c (mounts s)) s) hs.
Proof.
  intros Ht [_ Ha Hc] Honly Hnil Hroot Hzero.
  assert (Hnot : ∀ q, c ∉ kids_without c p kids q).
  { intros q Hin. unfold kids_without, without in Hin. case_decide as Hq.
    - apply list_elem_of_filter in Hin as [? _]. done.
    - by apply Hq, Honly. }
  destruct Ht as [T1 T2 T3 T4 T5 T6].
  split; [exists (kids_without c p kids); split|..]; cbn.
  - intros q [? Hq]. apply lookup_delete_Some in Hq as [_ Hq]. apply T1. by rewrite Hq.
  - by rewrite lookup_delete_ne.
  - intros q mq Hq. apply lookup_delete_Some in Hq as [_ Hq].
    eapply mount_chain_ext; [|by apply T3]. intros x mx Hx Hmx. exists mx.
    split; [|done]. rewrite lookup_delete_ne; [done|]. intros ->. by apply (Hnot q).
  - exact T4.
  - intros q x Hx. destruct (T5 q x Hx) as (mx & Hmx & Hpx). exists mx. split; [|done].
    rewrite lookup_delete_ne; [done|]. intros ->. by apply (Hnot q).
  - intros q Hq. apply lookup_delete_None in Hq as [<-|Hq]; [|by apply T6].
    unfold kids_without. rewrite Hnil. by case_decide.
  - intros h Hh. rewrite lookup_delete_ne; [by apply Ha|]. intros ->.
    by apply (opened_on_zero (fh_mount h) hs h).
  - intros q mq Hq. apply lookup_delete_Some in Hq as [_ Hq]. by apply Hc.
Qed.

Lemma files_ok_unlinked s s' hs c p kids :
  files_ok s hs → mount_tree s' kids → unlinked s s' c p → files_ok s' hs.
Proof.
  intros [_ Ha Hc] Ht [U1 U2 U3 U4 U5]. split; [by exists kids|..].
  - intros h Hh. by apply U4, Ha.
  - intros q mq' Hq. destruct (mounts s !! q) as [mq|] eqn:Hmq.
    + destruct (U5 q mq Hmq) as (mq2 & Hq2 & (E & _) & _).
      assert (mq2 = mq') as -> by congruence. rewrite E. by apply Hc.
    + apply mk_is_Some, U4 in Hq. rewrite Hmq in Hq. by destruct Hq.
Qed.

Lemma files_ok_unmount path s hs r s' :
  files_ok s hs → unmount_filesystem path s = Done (r, s') → files_ok s' hs.
Proof.
  intros Hok H. unfold unmount_filesystem in H.
  apply K_bind_Done in H as ([res file] & s1 & H1 & H).
  apply keeps_tree_Done in H1; [|apply keeps_tree_lookup].
  assert (Hok1 : files_ok s1 hs) by (by eapply files_ok_tree). clear H1 Hok.
  destruct (res <? 0); [unfold mret, K_ret in H; by simplify_eq|]. set (c := fh_mount file) in *.
  apply K_bind_Done in H as (sx & s2 & Hg & H). unfold kget in Hg. injection Hg as -> ->.
  destruct (Z.eqb_spec c (root s2)) as [|Hroot]; [unfold mret, K_ret in H; by simplify_eq|].
  apply K_bind_Done in H as (m & s3 & H3 & H). apply deref_Done in H3 as [-> Hm].
  destruct (Z.ltb_spec 0 (refcount m)); cbn [orb] in H; [unfold mret, K_ret in H; by simplify_eq|].
  destruct (Z.eqb_spec (children m) 0) as [Hch|]; cbn [negb] in H; [|unfold mret, K_ret in H; by simplify_eq].
  apply K_bind_Done in H as (u & s3 & H3 & H).
  pose proof Hok1 as [[kids Ht] _ Hc].
  destruct (unlink_mount_spec _ _ _ _ _ _ Ht Hm H3) as [Ht3 Hu].
  pose proof (files_ok_unlinked _ _ _ _ _ _ Hok1 Ht3 Hu) as Hok3.
  assert (Hzero : opened_on c hs = 0).
  { pose proof (opened_on_range c hs). rewrite <-(Hc c m Hm) in *. lia. }
  assert (Hnil : kids c = []).
  { pose proof (mt_kids _ _ Ht c m Hm) as Hk. rewrite Hch in Hk. by inversion Hk. }
  assert (Honly : ∀ q, c ∈ kids q → q = parent m).
  { intros q Hq. destruct (mt_parent _ _ Ht _ _ Hq) as (mc & Hmc & <-). congruence. }
  apply K_bind_Done in H as (fs & s4 & H4 & H).
  apply keeps_tree_Done in H4; [|apply keeps_tree_filesystem].
  assert (Hdel : ∀ s5, tree_of s5 = tree_of s3 → files_ok (set_mounts (delete c (mounts s5)) s5) hs).
  { intros s5 H5. assert (Hok5 : files_ok s5 hs) by (by eapply files_ok_tree).
    destruct Ht3 as [T1 T2 T3 T4 T5 T6]. unfold tree_of in H5. injection H5 as E1 E2 E3 _.
    apply (files_ok_delete s5 hs kids c (parent m)); try done.
    - split; rewrite ?E1, ?E2, ?E3; done.
    - rewrite E3, (ul_root _ _ _ _ Hu). done. }
  destruct (fs_unmount fs) as [f|].
  - apply K_bind_Done in H as (e & s5 & H5 & H).
    apply keeps_tree_Done in H5; [|apply keeps_tree_lift]. rewrite H4 in H5.
    destruct (e <? 0).
    + unfold mret, K_ret in H. injection H as _ <-. by eapply files_ok_tree.
    + apply K_bind_Done in H as (u2 & s6 & H6 & H). unfold kmodify in H6. injection H6 as _ <-.
      unfold mret, K_ret in H. injection H as _ <-. by apply Hdel.
  - apply K_bind_Done in H as (u2 & s6 & H6 & H). unfold kmodify in H6. injection H6 as _ <-.
    unfold mret, K_ret in H. injection H as _ <-. by apply Hdel.
Qed.

(** ** Histories of open files *)

Inductive file_op :=
| FOpen (path : list Z)
| FClone (i : nat)
| FClose (i : nat)
| FMount (source : option (list Z)) (target : list Z) (type : option (list Z)) (flags : Z)
| FUnmount (path : list Z)
| FCreate (path : list Z)
| FRemove (path : list Z)
| FRename (old new : list Z).

(** The files that are open go along with the state; a call on an index that is
    not open is skipped. *)
Definition run_file_op (o : file_op) (hs : list file_handle_t) : K (vfs FS) (list file_handle_t) :=
  match o with
  | FOpen path => r ← vfs_open path; let '(res, h) := r in mret (if res <? 0 then hs else h :: hs)
  | FClone i =>
    match hs !! i with
    | Some h => res ← clone_file_handle h; mret (if res <? 0 then hs else h :: hs)
    | None => mret hs
    end
  | FClose i =>
    match hs !! i with
    | Some h => res ← vfs_close h; mret (if res <? 0 then hs else delete i hs)
    | None => mret hs
    end
  | FMount source target type flags => mount_filesystem source target type flags;; mret hs
  | FUnmount path => unmount_filesystem path;; mret hs
  | FCreate path => create_file path;; mret hs
  | FRemove path => remove_file path;; mret hs
  | FRename old new => rename_file old new;; mret hs
  end.
Fixpoint run_file_ops (l : list file_op) (hs : list file_handle_t) : K (vfs FS) (list file_handle_t) :=
  match l with
  | [] => mret hs
  | o :: l => hs ← run_file_op o hs; run_file_ops l hs
  end.

Lemma files_ok_open path s hs res h s' :
  files_ok s hs → zlen hs < INT_MAX → vfs_open path s = Done ((res, h), s') →
  files_ok s' (if res <? 0 then hs else h :: hs).
Proof.
  intros Hok Hlen H. unfold vfs_open in H.
  apply K_bind_Done in H as ([e f] & s1 & H1 & H).
  apply keeps_tree_Done in H1; [|apply keeps_tree_lookup].
  assert (Hok1 : files_ok s1 hs) by (by eapply files_ok_tree). clear H1 Hok.
  destruct (e <? 0) eqn:He; [injection H as <- _ <-; by rewrite He|].
  apply K_bind_Done in H as (fs & s2 & H2 & H).
  apply keeps_tree_Done in H2; [|apply keeps_tree_select].
  apply K_bind_Done in H as (e2 & s3 & H3 & H).
  apply keeps_tree_Done in H3; [|destruct (fs_open fs); [apply keeps_tree_lift|apply keeps_ret]].
  rewrite H2 in H3. assert (Hok3 : files_ok s3 hs) by (by eapply files_ok_tree).
  destruct (e2 <? 0) eqn:He2; [injection H as <- _ <-; by rewrite He2|].
  apply K_bind_Done in H as (u & s4 & H4 & H). unfold mret, K_ret in H. simplify_eq.
  change (0 <? 0) with false. cbv iota.
  apply (files_ok_refcount _ _ _ _ _ _ _ Hok3 H4).
  - intros q. rewrite opened_on_cons. lia.
  - intros x Hx. apply elem_of_cons in Hx as [->|?]; auto.
  - rewrite zlen_cons. lia.
Qed.

Lemma files_ok_clone h s hs res s' :
  files_ok s hs → h ∈ hs → zlen hs < INT_MAX → clone_file_handle h s = Done (res, s') →
  files_ok s' (if res <? 0 then hs else h :: hs).
Proof.
  intros Hok Hin Hlen H. unfold clone_file_handle in H.
  apply K_bind_Done in H as (fs & s2 & H2 & H).
  apply keeps_tree_Done in H2; [|apply keeps_tree_select].
  apply K_bind_Done in H as (e2 & s3 & H3 & H).
  apply keeps_tree_Done in H3; [|destruct (fs_open fs); [apply keeps_tree_lift|apply keeps_ret]].
  rewrite H2 in H3. assert (Hok3 : files_ok s3 hs) by (by eapply files_ok_tree).
  destruct (e2 <? 0) eqn:He2; [injection H as <- <-; by rewrite He2|].
  apply K_bind_Done in H as (u & s4 & H4 & H). unfold mret, K_ret in H. simplify_eq.
  change (0 <? 0) with false. cbv iota.
  apply (files_ok_refcount _ _ _ _ _ _ _ Hok3 H4).
  - intros q. rewrite opened_on_cons. lia.
  - intros x Hx. apply elem_of_cons in Hx as [->|?]; auto.
  - rewrite zlen_cons. lia.
Qed.

Lemma files_ok_close i h s hs res s' :
  files_ok s hs → hs !! i = Some h → zlen hs ≤ INT_MAX → vfs_close h s = Done (res, s') →
  files_ok s' (if res <? 0 then hs else delete i hs).
Proof.
  intros Hok Hi Hlen H. unfold vfs_close in H.
  apply K_bind_Done in H as (fs & s2 & H2 & H).
  apply keeps_tree_Done in H2; [|apply keeps_tree_select].
  apply K_bind_Done in H as (e2 & s3 & H3 & H).
  apply keeps_tree_Done in H3; [|destruct (fs_close fs); [apply keeps_tree_lift|apply keeps_ret]].
  rewrite H2 in H3. assert (Hok3 : files_ok s3 hs) by (by eapply files_ok_tree).
  destruct (e2 <? 0) eqn:He2; [injection H as <- <-; by rewrite He2|].
  apply K_bind_Done in H as (u & s4 & H4 & H). unfold mret, K_ret in H. simplify_eq.
  change (0 <? 0) with false. cbv iota.
  apply (files_ok_refcount _ _ _ _ _ _ _ Hok3 H4).
  - intros q. rewrite (opened_on_delete q i h) by done. destruct (decide _); lia.
  - intros x Hx. left. apply (sublist_delete hs i) in Hx || (eapply elem_of_submseteq;
      [exact Hx|apply sublist_submseteq, sublist_delete]). 
  - unfold zlen in *. rewrite length_delete by (by rewrite Hi). lia.
Qed.

Lemma run_file_op_ok o hs s hs' s' :
  files_ok s hs → zlen hs < INT_MAX → run_file_op o hs s = Done (hs', s') →
  files_ok s' hs' ∧ zlen hs' ≤ zlen hs + 1.
Proof.
  intros Hok Hlen H. assert (Hz : ∀ i, zlen (delete i hs) ≤ zlen hs).
  { intros i. unfold zlen. pose proof (sublist_length _ _ (sublist_delete hs i)). lia. }
  assert (Hkeep : ∀ (m : K (vfs FS) Z), keeps_tree (tree_of s) m → (m;; mret hs) s = Done (hs', s') →
    files_ok s' hs' ∧ zlen hs' ≤ zlen hs + 1).
  { intros m Hm Hr. apply K_bind_Done in Hr as (r & s1 & H1 & Hr). unfold mret, K_ret in Hr.
    simplify_eq. apply keeps_tree_Done in H1; [|done]. split; [by eapply files_ok_tree|lia]. }
  destruct o as [path|i|i|source target type flags|path|path|path|old new]; cbn [run_file_op] in H.
  - apply K_bind_Done in H as ([res h] & s1 & H1 & H). unfold mret, K_ret in H. simplify_eq.
    split; [by eapply files_ok_open|]. destruct (res <? 0); rewrite ?zlen_cons; lia.
  - destruct (hs !! i) as [h|] eqn:Hi; [|unfold mret, K_ret in H; simplify_eq; split; [done|lia]].
    apply K_bind_Done in H as (res & s1 & H1 & H). unfold mret, K_ret in H. simplify_eq.
    split; [eapply files_ok_clone; try done; by eapply list_elem_of_lookup_2|].
    destruct (res <? 0); rewrite ?zlen_cons; lia.
  - destruct (hs !! i) as [h|] eqn:Hi; [|unfold mret, K_ret in H; simplify_eq; split; [done|lia]].
    apply K_bind_Done in H as (res & s1 & H1 & H). unfold mret, K_ret in H. simplify_eq.
    split; [by eapply files_ok_close; [..|lia|]|]. specialize (Hz i). destruct (res <? 0); lia.
  - apply K_bind_Done in H as (r & s1 & H1 & H). unfold mret, K_ret in H. simplify_eq.
    split; [by eapply files_ok_mount|lia].
  - apply K_bind_Done in H as (r & s1 & H1 & H). unfold mret, K_ret in H. simplify_eq.
    split; [by eapply files_ok_unmount|lia].
  - eapply Hkeep, H. apply keeps_tree_create.
  - eapply Hkeep, H. unfold remove_file. keeps_tac.
  - eapply Hkeep, H. unfold rename_file. keeps_tac.
Qed.

Lemma run_file_ops_ok l hs s hs' s' :
  files_ok s hs → zlen hs + zlen l < INT_MAX → run_file_ops l hs s = Done (hs', s') →
  files_ok s' hs'.
Proof.
  revert hs s. induction l as [|o l IH]; intros hs s Hok Hlen H; cbn [run_file_ops] in H.
  - unfold mret, K_ret in H. by simplify_eq.
  - apply K_bind_Done in H as (hs1 & s1 & H1 & H). rewrite zlen_cons in Hlen.
    pose proof (zlen_nonneg l).
    destruct (run_file_op_ok o hs s hs1 s1 Hok ltac:(lia) H1) as [Hok1 Hz].
    apply (IH hs1 s1); [done|lia|done].
Qed.

(** The state after mount_root_filesystem: one mount, no open file. *)
Definition fresh_vfs (fss : list (filesystem_t FS)) (type data : Z) (f : FS) : vfs FS :=
  mk_vfs fss {[ 1 := mk_mountpoint 0 type 0 data 0 0 0 ]} 2 1 f [SLASH].

Lemma fresh_vfs_ok fss type data f : files_ok (fresh_vfs fss type data f) [].
Proof.
  split; [exists (λ _, []); split|..]; cbn.
  - intros p [m Hp]. apply lookup_singleton_Some in Hp as [<- _]. lia.
  - by rewrite lookup_singleton_eq.
  - intros p mp Hp. apply lookup_singleton_Some in Hp as [<- <-]. constructor.
  - intros _. constructor.
  - intros p c Hc. by apply not_elem_of_nil in Hc.
  - done.
  - intros h Hh. by apply not_elem_of_nil in Hh.
  - intros p m Hp. by apply lookup_singleton_Some in Hp as [<- <-].
Qed.

(** C17: an open file never loses its mount.  Start with a root mount and no open
    file, over any table of file systems, and let any history of opening, cloning,
    closing, mounting, unmounting, creating, removing and renaming run (fewer than
    2^31 - 1 calls, successful or not).  Then the mount of every open file still
    exists, each mount's reference count is exactly the number of files open on
    it, and the mountpoints still form a tree: every list of children is a
    duplicate-free linked list of existing nodes whose parent is that node. *)
Theorem open_files_keep_mounts fss type data f ops hs s :
  zlen ops < INT_MAX → run_file_ops ops [] (fresh_vfs fss type data f) = Done (hs, s) →
  (∀ h, h ∈ hs → is_Some (mounts s !! fh_mount h)) ∧
  (∀ p m, mounts s !! p = Some m → refcount m = opened_on p hs) ∧
  ∃ kids, mount_tree s kids.
Proof.
  intros Hlen H. destruct (run_file_ops_ok ops [] _ hs s (fresh_vfs_ok fss type data f)) as [H1 H2 H3];
    [rewrite zlen_nil; lia|exact H|]. done.
Qed.

End mounts.

(** Mount the file system on "/abc", open a file in the mount twice, close one of
    the two; unmounting fails with EBUSY as long as the other is open. *)
Definition mount_history : list file_op :=
  [FMount None [47;97;98;99] (Some [76]) 0; FOpen [47;97;98;99;47;119]; FClone 0; FClose 1;
   FUnmount [47;97;98;99]].
Lemma open_files_keep_mounts_witness :
  ∃ s, run_file_ops mount_history [] (fresh_vfs [length_fs] 0 1 tt) =
    Done ([mk_file_handle 2 17], s) ∧ is_Some (mounts s !! 2).
Proof.
  assert (H : ∃ s, run_file_ops mount_history [] (fresh_vfs [length_fs] 0 1 tt) =
    Done ([mk_file_handle 2 17], s)) by (eexists; vm_compute; reflexivity).
  destruct H as [s H]. exists s. split; [exact H|].
  destruct (open_files_keep_mounts [length_fs] 0 1 tt mount_history _ s
    ltac:(vm_compute; reflexivity) H) as (Hm & _).
  apply (Hm (mk_file_handle 2 17)). apply elem_of_cons. by left.
Defined.
