(* ===== verification/Block.v ===== *)
(** * kernel/drivers/block.c, partitions.c, chrdev.c and nulldev.c: devices and partitions

    The state [D] holds the disks and everything else the drivers act on.
    Entry k + 1 of the driver table is element k of [block_drivers]; the
    partition driver is an entry of its own, because it calls back into the
    table it sits in.  The character devices come last. *)

From S2P Require Import Prelude Path Vfs.


Definition MAX_DRIVERS : Z := 127.
Definition MAX_PARTITIONS : Z := 256.
Definition SECTOR_BUFFER : Z := 4096.

Record block_driver_t (D : Type) := mk_block_driver {
  read_sectors_op : Z → Z → Z → K D (Z * list Z);
  write_sectors_op : Z → Z → list Z → Z → K D Z;
  ioctl_op : option (Z → Z → Z → K D Z);
  get_blockdev_size_op : Z → K D Z;
  get_sector_size_op : Z → K D Z;
}.
Arguments read_sectors_op {_}. Arguments write_sectors_op {_}. Arguments ioctl_op {_}.
Arguments get_blockdev_size_op {_}. Arguments get_sector_size_op {_}.

(** [Partition_driver] is the driver that partition_init registers. *)
Inductive block_driver (D : Type) :=
| Native (d : block_driver_t D)
| Partition_driver.
Arguments Native {_}. Arguments Partition_driver {_}.

Record partition_t := mk_partition {
  blockdev : block_device_t;
  part_start : Z;
  part_size : Z;
}.
Definition zero_partition : partition_t := mk_partition (device_of 0 0) 0 0.

Definition EFI_PART : list Z := [69; 70; 73; 32; 80; 65; 82; 84].

Section block.
Context {D : Type}.
Implicit Types (dev : block_device_t).

Record blk := mk_blk {
  block_drivers : list (block_driver D);
  partitions : list partition_t;
  partition_driver_index : Z;
  disks : D;
}.
Definition set_disks (d : D) (s : blk) : blk :=
  mk_blk (block_drivers s) (partitions s) (partition_driver_index s) d.

Definition lift_disk {A} (m : K D A) : K blk A := λ s,
  match m (disks s) with
  | Done (a, d) => Done (a, set_disks d s)
  | Panic => Panic
  | Fault => Fault
  | OutOfFuel => OutOfFuel
  end.

(** [block_drivers[major]]: an entry that is not present reads as [None], an
    index past the array is a fault. *)
Definition driver_of (major : Z) : K blk (option (block_driver D)) :=
  s ← kget;
  if major =? 0 then mret None
  else if MAX_DRIVERS <? major then kfault
  else mret (znth (block_drivers s) (major - 1)).

(** [partitions[i]]: the entries that are not in use are zero. *)
Definition partition_at (i : Z) : K blk partition_t :=
  s ← kget;
  if (0 <=? i) && (i <? MAX_PARTITIONS) then mret (default zero_partition (znth (partitions s) i))
  else kfault.

(** ** Calls into a driver *)

(** The request is outside the partition. *)
Definition out_of_partition (part : partition_t) (lba count : Z) : bool :=
  let adjusted_lba := u64 (part_start part + lba) in
  (adjusted_lba <? u64 (part_start part)) ||
  (u64 (part_start part + part_size part) <? u64 (adjusted_lba + count)).

(** A partition calls back into the table; [depth] bounds how deep partitions
    may nest. *)
Fixpoint read_sectors_at (depth : nat) dev (lba count : Z) : K blk (Z * list Z) :=
  d ← driver_of (major_number dev);
  match d with
  | None => mret (- ENODEV, [])
  | Some (Native d) => lift_disk (read_sectors_op d (s32 (minor_number dev)) lba count)
  | Some Partition_driver =>
    match depth with
    | O => kfuel
    | S depth =>
      part ← partition_at (s32 (minor_number dev));
      if out_of_partition part lba count then mret (- EINVAL, [])
      else read_sectors_at depth (blockdev part) (u64 (part_start part + lba)) count
    end
  end.
Fixpoint write_sectors_at (depth : nat) dev (lba : Z) (buffer : list Z) (count : Z) : K blk Z :=
  d ← driver_of (major_number dev);
  match d with
  | None => mret (- ENODEV)
  | Some (Native d) => lift_disk (write_sectors_op d (s32 (minor_number dev)) lba buffer count)
  | Some Partition_driver =>
    match depth with
    | O => kfuel
    | S depth =>
      part ← partition_at (s32 (minor_number dev));
      if out_of_partition part lba count then mret (- EINVAL)
      else write_sectors_at depth (blockdev part) (u64 (part_start part + lba)) buffer count
    end
  end.
Fixpoint get_sector_size_at (depth : nat) dev : K blk Z :=
  d ← driver_of (major_number dev);
  match d with
  | None => mret (- ENODEV)
  | Some (Native d) => lift_disk (get_sector_size_op d (s32 (minor_number dev)))
  | Some Partition_driver =>
    match depth with
    | O => kfuel
    | S depth =>
      part ← partition_at (s32 (minor_number dev));
      get_sector_size_at depth (blockdev part)
    end
  end.

(** The device of a partition is never a partition: one level is enough. *)
Definition DEPTH : nat := 1.
Definition read_sectors dev lba count := read_sectors_at DEPTH dev lba count.
Definition write_sectors dev lba buffer count := write_sectors_at DEPTH dev lba buffer count.
Definition get_sector_size dev := get_sector_size_at DEPTH dev.

Definition get_device_size dev : K blk Z :=
  d ← driver_of (major_number dev);
  match d with
  | None => mret (- ENODEV)
  | Some (Native d) => lift_disk (get_blockdev_size_op d (s32 (minor_number dev)))
  | Some Partition_driver =>
    part ← partition_at (s32 (minor_number dev));
    n ← get_sector_size (blockdev part);
    mret (s64 (part_size part * n))
  end.

Definition block_ioctl dev (request arg : Z) : K blk Z :=
  d ← driver_of (major_number dev);
  match d with
  | None => mret (- ENODEV)
  | Some (Native d) =>
    match ioctl_op d with
    | None => mret (- ENOTTY)
    | Some f => lift_disk (f (s32 (minor_number dev)) request arg)
    end
  | Some Partition_driver => mret (- ENOTTY)
  end.

(** The driver fills the sector buffer on the stack. *)
Definition fill_buffer (capacity : Z) dev (lba count : Z) : K blk (Z * list Z) :=
  r ← read_sectors dev lba count;
  let '(res, data) := r in
  if capacity <? zlen data then kfault else mret (res, data).

(** ** block_read and block_write *)

(** The part of sector [s] that the request covers: from, to. *)
Definition sector_part (sector_size offset size s done : Z) : Z * Z :=
  let sector_start := u64 (s * sector_size) in
  let from := if sector_start <? offset then offset - sector_start else 0 in
  (from, if size <? u64 (done + (sector_size - from)) then u64 (from + (size - done)) else sector_size).

Fixpoint read_loop (n : nat) dev (sector_size offset size s end_sector : Z) (out : list Z)
    : K blk (Z * list Z) :=
  if end_sector <? s then mret (s32 size, out)
  else match n with
  | O => kfuel
  | S n =>
    r ← fill_buffer SECTOR_BUFFER dev s 1;
    let '(res, sector) := r in
    if res <? 0 then mret (res, out)
    else
      let '(from, to) := sector_part sector_size offset size s (zlen out) in
      bytes ← kopt (field from (to - from) sector);
      read_loop n dev sector_size offset size (s + 1) end_sector (out ++ bytes)
  end.
(** A sector size of 0 divides by zero. *)
Definition block_read dev (offset size : Z) : K blk (Z * list Z) :=
  d ← driver_of (major_number dev);
  match d with
  | None => mret (- ENODEV, [])
  | Some _ =>
    n ← get_sector_size dev;
    let sector_size := u64 n in
    if sector_size =? 0 then kfault
    else
      let start_sector := offset / sector_size in
      let end_sector := u64 (offset + size - 1) / sector_size in
      read_loop (Z.to_nat (end_sector - start_sector + 1)) dev sector_size offset size
        start_sector end_sector []
  end.

Fixpoint write_loop (n : nat) dev (sector_size offset : Z) (buffer : list Z) (s end_sector in_off : Z)
    : K blk Z :=
  if end_sector <? s then mret (s32 (zlen buffer))
  else match n with
  | O => kfuel
  | S n =>
    r ← fill_buffer SECTOR_BUFFER dev s 1;
    let '(res, sector) := r in
    if res <? 0 then mret res
    else
      let '(from, to) := sector_part sector_size offset (zlen buffer) s in_off in
      bytes ← kopt (field in_off (to - from) buffer);
      if zlen sector <? to then kfault
      else
        res ← write_sectors dev s (zsplice from bytes sector) 1;
        if res <? 0 then mret res
        else write_loop n dev sector_size offset buffer (s + 1) end_sector (in_off + (to - from))
  end.
Definition block_write dev (offset : Z) (buffer : list Z) : K blk Z :=
  d ← driver_of (major_number dev);
  match d with
  | None => mret (- ENODEV)
  | Some _ =>
    n ← get_sector_size dev;
    let sector_size := u64 n in
    if sector_size =? 0 then kfault
    else
      let start_sector := offset / sector_size in
      let end_sector := u64 (offset + zlen buffer - 1) / sector_size in
      write_loop (Z.to_nat (end_sector - start_sector + 1)) dev sector_size offset buffer
        start_sector end_sector 0
  end.

(** ** Registration *)

Definition register_block_driver (driver : block_driver D) : K blk Z :=
  s ← kget;
  if MAX_DRIVERS <=? zlen (block_drivers s) then mret (- ENOSPC)
  else
    kmodify (λ s, mk_blk (block_drivers s ++ [driver]) (partitions s) (partition_driver_index s) (disks s));;
    mret (zlen (block_drivers s) + 1).

Definition partition_init : K blk unit :=
  i ← register_block_driver Partition_driver;
  kmodify (λ s, mk_blk (block_drivers s) (partitions s) (if i <? 0 then 0 else i) (disks s)).

(** devfs_mknod, which lives with the file systems. *)
Context (devfs_mknod : list Z → Z → Z → K D Z).

(** register_block_device, over the detection it starts for a whole disk. *)
Definition register_with (detect : block_device_t → K blk Z) dev : K blk Z :=
  (if is_partition dev then mret tt else detect dev;; mret tt);;
  match dev_name dev with
  | Some name =>
    lift_disk (devfs_mknod name DT_BLOCK (makedev (major_number dev) (minor_number dev)));; mret 0
  | None => mret 0
  end.

(** ** Names of partitions *)

Fixpoint digits_loop (fuel : nat) (v d : Z) : Z :=
  match fuel with
  | O => d
  | S fuel => if v <? 10 then d else digits_loop fuel (v / 10) (d + 1)
  end.
(** A 64-bit number has at most 20 digits. *)
Definition digits_u64 (v : Z) : Z := digits_loop 20 v 1.
Fixpoint itoa_loop (len : nat) (value : Z) (acc : list Z) : list Z :=
  match len with
  | O => acc
  | S len => itoa_loop len (value / 10) (48 + value mod 10 :: acc)
  end.
Definition itoa (value : Z) : list Z := itoa_loop (Z.to_nat (digits_u64 value)) value [].

Definition is_digit (c : Z) : bool := (48 <=? c) && (c <=? 57).
(** The parent's name, a "p" after a digit, and the number.  A device without a
    name is read through NULL and an empty name before its first byte: [None]. *)
Definition partition_name (name : option (list Z)) (number : Z) : option (list Z) :=
  name ← name;
  let base := strncpy name 244 in
  c ← last base;
  Some (base ++ (if is_digit c then [112] else []) ++ itoa number).

(** Add a partition of [dev] to the table and publish it. *)
Definition add_partition dev (start size number : Z) : K blk unit :=
  s ← kget;
  (if MAX_PARTITIONS <=? zlen (partitions s) then kfault else mret tt);;
  kmodify (λ s, mk_blk (block_drivers s) (partitions s ++ [mk_partition dev start size])
                  (partition_driver_index s) (disks s));;
  name ← kopt (partition_name (dev_name dev) number);
  register_with (λ _, kfuel)
    (mk_block_device (partition_driver_index s) (zlen (partitions s)) (Some name) true);;
  mret tt.

(** ** Master boot records *)

Definition has_mbr dev : K blk Z :=
  r ← fill_buffer 1024 dev 0 2;
  let '(res, buffer) := r in
  if res <? 0 then mret res
  else
    mbr ← kopt (field 510 2 buffer);
    gpt ← kopt (field 512 8 buffer);
    if u8 (memcmp_bytes gpt EFI_PART) =? 0 then mret 0
    else mret (if u8 (memcmp_bytes mbr [85; 170]) =? 0 then 1 else 0).

Fixpoint mbr_loop (n : nat) dev (buffer : list Z) (i found : Z) : K blk Z :=
  match n with
  | O => mret found
  | S n =>
    entry ← kopt (field (446 + i * 16) 16 buffer);
    let partition_type := le (zslice 4 1 entry) in
    if (partition_type =? 0) || (partition_type =? 5) || (partition_type =? 15)
    then mbr_loop n dev buffer (i + 1) found
    else
      add_partition dev (le (zslice 8 4 entry)) (le (zslice 12 4 entry)) (i + 1);;
      mbr_loop n dev buffer (i + 1) (found + 1)
  end.
Definition mbr_detect_partitions dev : K blk Z :=
  m ← has_mbr dev;
  if m =? 0 then mret 0
  else
    r ← fill_buffer 512 dev 0 1;
    let '(res, buffer) := r in
    if res <? 0 then mret res else mbr_loop 4 dev buffer 0 0.

(** ** GUID partition tables *)

Definition has_gpt dev : K blk Z :=
  r ← fill_buffer 1024 dev 0 2;
  let '(res, buffer) := r in
  if res <? 0 then mret res
  else
    gpt ← kopt (field 512 8 buffer);
    mret (if memcmp_bytes gpt EFI_PART =? 0 then 1 else 0).

(** Whether the type GUID is zero; the loop stops at the first other byte. *)
Fixpoint guid_empty (n : nat) (off : Z) (buffer : list Z) : option bool :=
  match n with
  | O => Some true
  | S n => c ← znth buffer off; if c =? 0 then guid_empty n (off + 1) buffer else Some false
  end.

(** The entries of one sector: an error to return, or the number found. *)
Fixpoint gpt_entries (n : nat) dev (buffer : list Z) (entry_size entry_index found : Z) : K blk (Z + Z) :=
  match n with
  | O => mret (inr found)
  | S n =>
    let ptr := u32 (entry_index * entry_size) in
    empty ← kopt (guid_empty 16 ptr buffer);
    if (empty : bool) then gpt_entries n dev buffer entry_size (entry_index + 1) found
    else
      starting_lba ← kopt (le <$> field (ptr + 32) 8 buffer);
      ending_lba ← kopt (le <$> field (ptr + 40) 8 buffer);
      if (starting_lba =? 0) || (ending_lba <? starting_lba)
      then gpt_entries n dev buffer entry_size (entry_index + 1) found
      else
        s ← kget;
        if MAX_PARTITIONS <=? zlen (partitions s) then mret (inl (- ENOSPC))
        else
          add_partition dev (s64 starting_lba) (s64 (ending_lba - starting_lba + 1)) (found + 1);;
          gpt_entries n dev buffer entry_size (entry_index + 1) (found + 1)
  end.
Fixpoint gpt_sectors (n : nat) dev (entry_lba entry_size per_sector total sector_index found : Z) : K blk Z :=
  match n with
  | O => mret found
  | S n =>
    r ← fill_buffer 512 dev (u64 (entry_lba + sector_index)) 1;
    let '(res, buffer) := r in
    if res <? 0 then mret res
    else
      let entries_this_sector :=
        if total <? u32 ((sector_index + 1) * per_sector)
        then u32 (total - sector_index * per_sector) else per_sector in
      r ← gpt_entries (Z.to_nat entries_this_sector) dev buffer entry_size 0 found;
      match r with
      | inl e => mret e
      | inr found => gpt_sectors n dev entry_lba entry_size per_sector total (sector_index + 1) found
      end
  end.
Definition gpt_detect_partitions dev : K blk Z :=
  g ← has_gpt dev;
  if g =? 0 then mret 0
  else
    r ← fill_buffer 512 dev 1 1;
    let '(res, header) := r in
    if res <? 0 then mret res
    else
      signature ← kopt (field 0 8 header);
      entry_lba ← kopt (le <$> field 72 8 header);
      total ← kopt (le <$> field 80 4 header);
      entry_size ← kopt (le <$> field 84 4 header);
      if negb (memcmp_bytes signature EFI_PART =? 0) then mret 0
      else if (entry_size =? 0) || (total =? 0) then mret 0
      else
        let per_sector := 512 / entry_size in
        if per_sector =? 0 then mret 0
        else
          let sectors := u32 (total + per_sector - 1) / per_sector in
          gpt_sectors (Z.to_nat sectors) dev entry_lba entry_size per_sector total 0 0.

Definition detect_partitions dev : K blk Z :=
  g ← has_gpt dev;
  if negb (g =? 0) then gpt_detect_partitions dev
  else
    m ← has_mbr dev;
    if negb (m =? 0) then mbr_detect_partitions dev else mret 0.

Definition register_block_device dev : K blk Z := register_with detect_partitions dev.

End block.
Arguments blk _ : clear implicits.

(** ** kernel/drivers/chrdev.c and nulldev.c: character devices

    Entry k + 1 of the driver table is element k of [char_drivers]; [D] is the
    state the drivers act on. *)


Definition MAX_CHAR_DRIVERS : Z := 127.

Record char_driver_t (D : Type) := mk_char_driver {
  char_read_op : option (Z → Z → Z → K D (Z * list Z));
  char_write_op : option (Z → Z → list Z → K D Z);
  char_ioctl_op : option (Z → Z → Z → K D Z);
}.
Arguments char_read_op {_}. Arguments char_write_op {_}. Arguments char_ioctl_op {_}.

Record char_device_t := mk_char_device {
  char_major : Z;
  char_minor : Z;
}.

Section chrdev.
Context {D : Type}.

Record chr := mk_chr {
  char_drivers : list (char_driver_t D);
  chr_state : D;
}.
Definition lift_chr {A} (m : K D A) : K chr A := λ s,
  match m (chr_state s) with
  | Done (a, d) => Done (a, mk_chr (char_drivers s) d)
  | Panic => Panic
  | Fault => Fault
  | OutOfFuel => OutOfFuel
  end.

Definition register_char_driver (driver : char_driver_t D) : K chr Z :=
  s ← kget;
  if MAX_CHAR_DRIVERS <=? zlen (char_drivers s) then mret (- ENOSPC)
  else
    kmodify (λ s, mk_chr (char_drivers s ++ [driver]) (chr_state s));;
    mret (zlen (char_drivers s) + 1).

Definition char_driver_of (major : Z) : K chr (option (char_driver_t D)) :=
  s ← kget;
  if major =? 0 then mret None
  else if MAX_CHAR_DRIVERS <? major then kfault
  else mret (znth (char_drivers s) (major - 1)).

Definition char_read (device : char_device_t) (offset size : Z) : K chr (Z * list Z) :=
  d ← char_driver_of (char_major device);
  match d with
  | None => mret (- ENODEV, [])
  | Some d =>
    match char_read_op d with
    | None => mret (- ENOSYS, [])
    | Some f => lift_chr (f (s32 (char_minor device)) offset size)
    end
  end.
Definition char_write (device : char_device_t) (offset : Z) (buffer : list Z) : K chr Z :=
  d ← char_driver_of (char_major device);
  match d with
  | None => mret (- ENODEV)
  | Some d =>
    match char_write_op d with
    | None => mret (- ENOSYS)
    | Some f => lift_chr (f (s32 (char_minor device)) offset buffer)
    end
  end.
Definition char_ioctl (device : char_device_t) (request arg : Z) : K chr Z :=
  d ← char_driver_of (char_major device);
  match d with
  | None => mret (- ENODEV)
  | Some d =>
    match char_ioctl_op d with
    | None => mret (- ENOTTY)
    | Some f => lift_chr (f (s32 (char_minor device)) request arg)
    end
  end.

(** ** /dev/null and /dev/zero *)

Definition null_write (minor_number offset : Z) (buffer : list Z) : K D Z :=
  if (minor_number <? 0) || (1 <? minor_number) then mret (- ENODEV) else mret (s64 (zlen buffer)).
Definition _zero_read (size : Z) : K D (Z * list Z) := mret (s64 size, zrepeat size 0).
Definition null_read (minor_number offset size : Z) : K D (Z * list Z) :=
  if minor_number =? 0 then mret (0, [])
  else if minor_number =? 1 then _zero_read size
  else mret (- ENODEV, []).

(** devfs_mknod, which lives with the file systems. *)
Context (devfs_mknod : list Z → Z → Z → K D Z).

Definition null_driver : char_driver_t D :=
  mk_char_driver D (Some null_read) (Some null_write) None.
Definition register_null_devices : K chr Z :=
  driver ← register_char_driver null_driver;
  if driver <? 0 then mret driver
  else if driver =? 0 then mret (-1)
  else
    lift_chr (devfs_mknod [110; 117; 108; 108] DT_CHAR (makedev driver 0));;
    lift_chr (devfs_mknod [122; 101; 114; 111] DT_CHAR (makedev driver 1));;
    mret 0.

(** A registered driver is found under the number that was returned. *)
Lemma register_char_driver_found driver s n s' :
  register_char_driver driver s = Done (n, s') → 0 ≤ n →
  char_driver_of n s' = Done (Some driver, s') ∧
  ∀ m d, char_driver_of m s = Done (Some d, s) → char_driver_of m s' = Done (Some d, s').
Proof.
  unfold register_char_driver, char_driver_of, MAX_CHAR_DRIVERS, kget, kmodify, mbind, K_bind, mret, K_ret.
  destruct (Z.leb_spec 127 (zlen (char_drivers s))); intros [= <- <-] Hn; [unfold ENOSPC in Hn; lia|].
  cbn [char_drivers chr_state]. pose proof (zlen_nonneg (char_drivers s)).
  rewrite (proj2 (Z.eqb_neq (zlen (char_drivers s) + 1) 0)) by lia.
  rewrite (proj2 (Z.ltb_ge 127 (zlen (char_drivers s) + 1))) by lia.
  split.
  - rewrite Z.add_simpl_r. unfold znth, zlen. destruct (Z.ltb_spec (Z.of_nat (length (char_drivers s))) 0); [lia|].
    rewrite Nat2Z.id, lookup_app_r, Nat.sub_diag by lia. done.
  - intros m d. destruct (m =? 0); [done|]. destruct (127 <? m); [done|].
    intros [= E]. unfold znth in *. destruct (m - 1 <? 0); [done|].
    by rewrite (lookup_app_l_Some _ _ _ _ E).
Qed.

End chrdev.
Arguments chr _ : clear implicits.
