(* ===== verification/BlockDevice.v ===== *)
(** * Block devices as byte arrays

    [BlockDevice dev] is what the block layer promises to the file systems: the
    device is an array of bytes read and written in whole sectors.  A native
    driver that keeps the promise gives an instance; every partition of a device
    that keeps it keeps it as well. *)

From S2P Require Import Prelude Path Vfs Block.

Section device.
Context {D : Type}.
Implicit Types (dev : block_device_t) (s : blk D) (c : list Z).

(** Outside [a, b) the two contents agree. *)
Definition same_outside (a b : Z) c c' : Prop :=
  zlen c' = zlen c ∧ ∀ i, i < a ∨ b ≤ i → znth c' i = znth c i.

(** The driver and partition tables. *)
Definition tables (s : blk D) := (block_drivers s, partitions s, partition_driver_index s).

Class BlockDevice dev := {
  sector_size : Z;
  device_ok : blk D → Prop;
  contents : blk D → list Z;
  sector_size_range : 1 ≤ sector_size ≤ SECTOR_BUFFER;
  contents_range s : device_ok s → zlen (contents s) < 2 ^ 63;
  device_present s : device_ok s → ∃ d, driver_of (major_number dev) s = Done (Some d, s);
  sector_size_law s : device_ok s → get_sector_size dev s = Done (sector_size, s);
  read_law s lba count :
    device_ok s → 0 ≤ lba < 2 ^ 64 → 0 < count < 2 ^ 32 →
    ∃ res data s', read_sectors dev lba count s = Done ((res, data), s') ∧
      device_ok s' ∧ tables s' = tables s ∧ contents s' = contents s ∧ zlen data ≤ count * sector_size ∧
      (0 ≤ res → (lba + count) * sector_size ≤ zlen (contents s) ∧
                 data = zslice (lba * sector_size) (count * sector_size) (contents s));
  (** A failed write may leave the sectors it was for in any state. *)
  write_law s lba count buffer :
    device_ok s → 0 ≤ lba < 2 ^ 64 → 0 < count < 2 ^ 32 → zlen buffer = count * sector_size →
    ∃ res s', write_sectors dev lba buffer count s = Done (res, s') ∧
      device_ok s' ∧ tables s' = tables s ∧
      same_outside (lba * sector_size) ((lba + count) * sector_size) (contents s) (contents s') ∧
      (0 ≤ res → (lba + count) * sector_size ≤ zlen (contents s) ∧
                 contents s' = zsplice (lba * sector_size) buffer (contents s));
}.
End device.
Arguments BlockDevice _ _ : clear implicits.

(** ** Lists of bytes, changed in one place *)

Section outside.
Context {D : Type}.
Implicit Types (c : list Z).

Lemma same_outside_refl a b c : same_outside a b c c.
Proof. done. Qed.
Lemma same_outside_trans a b c1 c2 c3 :
  same_outside a b c1 c2 → same_outside a b c2 c3 → same_outside a b c1 c3.
Proof. intros [L1 H1] [L2 H2]. split; [congruence|]. intros i Hi. rewrite H2 by done. auto. Qed.
Lemma same_outside_mono a b a' b' c c' :
  a' ≤ a → b ≤ b' → same_outside a b c c' → same_outside a' b' c c'.
Proof. intros ? ? [L H]. split; [done|]. intros i Hi. apply H. lia. Qed.

Lemma same_outside_zsplice off src c :
  0 ≤ off → off + zlen src ≤ zlen c → same_outside off (off + zlen src) c (zsplice off src c).
Proof.
  intros. pose proof (zlen_nonneg src). split; [by apply zlen_zsplice|].
  intros i Hi. unfold zsplice. destruct (Z.lt_ge_cases i off).
  - rewrite znth_app_l by zlia. by apply znth_ztake.
  - rewrite znth_app_r by zlia. rewrite znth_app_r by zlia. rewrite znth_zdrop by zlia.
    f_equal. zlia.
Qed.

(** A part of the array, as seen from the part and from the whole. *)
Lemma same_outside_zslice a n off len c c' :
  0 ≤ off → 0 ≤ len → off + len ≤ zlen c → 0 ≤ a →
  same_outside (off + a) (off + a + n) c c' →
  same_outside a (a + n) (zslice off len c) (zslice off len c').
Proof.
  intros ? ? ? ? [L H]. split; [rewrite !zlen_zslice by lia; done|].
  intros i Hi. destruct (Z.lt_ge_cases i 0); [by unfold znth; rewrite (proj2 (Z.ltb_lt i 0))|].
  unfold zslice. destruct (Z.lt_ge_cases i len).
  - rewrite !znth_ztake, !znth_zdrop by lia. apply H. lia.
  - rewrite !znth_ge; [done|zlia..].
Qed.

End outside.

(** ** block_read and block_write on any device *)

(** The part of sector [k] that belongs to the request, where the request has
    reached [k]. *)
Definition reached (ss offset size k : Z) : Z := Z.max 0 (Z.min size (k * ss - offset)).

Lemma sector_part_spec ss offset size k :
  1 ≤ ss ≤ SECTOR_BUFFER → 0 ≤ offset → 1 ≤ size → offset + size ≤ 2 ^ 64 - SECTOR_BUFFER →
  offset / ss ≤ k ≤ (offset + size - 1) / ss →
  ∃ from to, sector_part ss offset size k (reached ss offset size k) = (from, to) ∧
    0 ≤ from < to ∧ to ≤ ss ∧ k * ss + from = offset + reached ss offset size k ∧
    reached ss offset size (k + 1) = reached ss offset size k + (to - from).
Proof.
  unfold SECTOR_BUFFER. intros Hss Ho Hs Hmax [Hlo Hhi].
  assert (H1 : k * ss ≤ offset + size - 1).
  { etrans; [apply Z.mul_le_mono_nonneg_r; [lia|exact Hhi]|]. rewrite Z.mul_comm. apply Z.mul_div_le. lia. }
  assert (H2 : offset < (k + 1) * ss).
  { assert (offset / ss + 1 ≤ k + 1) by lia.
    eapply Z.lt_le_trans; [|apply Z.mul_le_mono_nonneg_r; [lia|eassumption]].
    rewrite Z.mul_comm, Z.add_1_r. apply Z.mul_succ_div_gt. lia. }
  assert (H3 : 0 ≤ k * ss) by (pose proof (Z.div_pos offset ss); nia).
  unfold reached, sector_part. rewrite Z.mul_add_distr_r in *. rewrite Z.mul_1_l in *.
  generalize dependent (k * ss). intros a Ha H2 H3. rewrite (u64_id a) by lia.
  eexists _, _. split; [reflexivity|].
  set (from := if a <? offset then offset - a else 0).
  assert (Hf : from = Z.max 0 (offset - a)) by (unfold from; destruct (Z.ltb_spec a offset); lia).
  clearbody from. rewrite (u64_id (_ + (ss - from))) by lia.
  destruct (Z.ltb_spec size (Z.max 0 (Z.min size (a - offset)) + (ss - from))); norm_int; lia.
Qed.

Lemma reached_range ss offset size k : 1 ≤ size → 0 ≤ reached ss offset size k ≤ size.
Proof. unfold reached. lia. Qed.
Lemma reached_start ss offset size :
  1 ≤ ss → 0 ≤ offset → reached ss offset size (offset / ss) = 0.
Proof.
  intros. unfold reached. pose proof (Z.mul_div_le offset ss). lia.
Qed.
Lemma reached_end ss offset size :
  1 ≤ ss → 0 ≤ offset → 1 ≤ size → reached ss offset size ((offset + size - 1) / ss + 1) = size.
Proof.
  intros. unfold reached. pose proof (Z.mul_succ_div_gt (offset + size - 1) ss).
  rewrite <-Z.add_1_r in *. lia.
Qed.

Section transfer.
Context {D : Type} {dev : block_device_t} `{P : !BlockDevice D dev}.
Implicit Types (s : blk D).

(** One sector, read whole. *)
Lemma fill_buffer_law s k :
  device_ok s → 0 ≤ k < 2 ^ 64 →
  ∃ res data s', fill_buffer SECTOR_BUFFER dev k 1 s = Done ((res, data), s') ∧
    device_ok s' ∧ tables s' = tables s ∧ contents s' = contents s ∧
    (0 ≤ res → (k + 1) * sector_size ≤ zlen (contents s) ∧
               data = zslice (k * sector_size) sector_size (contents s)).
Proof.
  intros Hok Hk.
  destruct (read_law s k 1 Hok Hk ltac:(lia)) as (res & data & s' & E & H1 & H2 & H3 & H4 & H5).
  pose proof (sector_size_range (dev := dev)). rewrite Z.mul_1_l in H4, H5.
  exists res, data, s'. split; [|done].
  unfold fill_buffer. rewrite (K_bind_step _ _ _ _ _ E).
  by rewrite (proj2 (Z.ltb_ge SECTOR_BUFFER (zlen data))) by lia.
Qed.

(** A request the device accepts: the sum does not come near 2^64 and the count
    fits the int that is returned. *)
Definition request (offset size : Z) : Prop :=
  0 ≤ offset ∧ 1 ≤ size < 2 ^ 31 ∧ offset + size ≤ 2 ^ 64 - SECTOR_BUFFER.

Lemma request_sector offset size k :
  request offset size → offset / sector_size ≤ k ≤ (offset + size - 1) / sector_size →
  0 ≤ k < 2 ^ 64.
Proof.
  intros (? & ? & ?) [? ?]. pose proof (sector_size_range (dev := dev)).
  assert (0 ≤ offset / sector_size) by (apply Z.div_pos; lia).
  assert ((offset + size - 1) / sector_size ≤ offset + size - 1) by (apply Z.div_le_upper_bound; nia).
  unfold SECTOR_BUFFER in *. lia.
Qed.

Lemma read_loop_spec offset size n k s out :
  request offset size → device_ok s →
  offset / sector_size ≤ k → k + Z.of_nat n = (offset + size - 1) / sector_size + 1 →
  zlen out = reached sector_size offset size k → offset + zlen out ≤ Z.max offset (zlen (contents s)) →
  out = zslice offset (zlen out) (contents s) →
  ∃ res data s',
    read_loop n dev sector_size offset size k ((offset + size - 1) / sector_size) out s =
      Done ((res, data), s') ∧
    device_ok s' ∧ tables s' = tables s ∧ contents s' = contents s ∧
    (res < 0 ∨ res = size ∧ offset + size ≤ zlen (contents s) ∧
               data = zslice offset size (contents s)).
Proof.
  intros Hr. pose proof Hr as (Ho & Hs & Hmax). pose proof (sector_size_range (dev := dev)) as Hss.
  revert k s out. induction n as [|n IH]; intros k s out Hok Hlo Hk Hlen Hin Hout; cbn [read_loop].
  - rewrite (proj2 (Z.ltb_lt _ k)) by lia. exists (s32 size), out, s. split_and!; try done. right.
    replace k with ((offset + size - 1) / sector_size + 1) in Hlen by lia.
    rewrite reached_end in Hlen by lia. rewrite s32_id, Hlen in * by lia.
    split_and!; [done|lia|done].
  - rewrite (proj2 (Z.ltb_ge _ k)) by lia.
    destruct (fill_buffer_law s k Hok) as (res & sector & s1 & E & Hok1 & Ht & Hc & Hd);
      [apply (request_sector offset size); [done|lia]|].
    rewrite (K_bind_step _ _ _ _ _ E).
    destruct (Z.ltb_spec res 0) as [Hres|Hres]; [exists res, out, s1; auto 10|].
    destruct (Hd Hres) as [Hfit Hsec].
    destruct (sector_part_spec sector_size offset size k) as (from & to & Ep & Hft & Hto & Hpos & Hnext);
      [lia..|]. rewrite Hlen, Ep.
    assert (Hk0 : 0 ≤ k * sector_size).
    { assert (0 ≤ offset / sector_size) by (apply Z.div_pos; lia). nia. }
    rewrite Z.mul_add_distr_r, Z.mul_1_l in Hfit.
    rewrite field_zslice by (rewrite ?Hsec, ?zlen_zslice; lia). cbn [kopt].
    unfold mbind at 1, K_bind at 1, mret, K_ret.
    rewrite Hsec, zslice_zslice, Hpos, <-Hlen by lia.
    assert (Hz : zlen (zslice (offset + zlen out) (to - from) (contents s)) = to - from)
      by (apply zlen_zslice; pose proof (zlen_nonneg out); lia).
    destruct (IH (k + 1) s1 (out ++ zslice (offset + zlen out) (to - from) (contents s)))
      as (res' & data & s2 & E2 & Hok2 & Ht2 & Hc2 & Hfin); try done; try lia.
    + rewrite zlen_app, Hz. lia.
    + rewrite zlen_app, Hz, Hc. lia.
    + rewrite zlen_app, Hz, Hc. rewrite Hout at 1. pose proof (zlen_nonneg out).
      apply zslice_app_split; lia.
    + rewrite Hc in *. exists res', data, s2. split_and!; try done. congruence.
Qed.

Lemma block_read_spec offset size s :
  request offset size → device_ok s →
  ∃ res data s', block_read dev offset size s = Done ((res, data), s') ∧
    device_ok s' ∧ tables s' = tables s ∧ contents s' = contents s ∧
    (res < 0 ∨ res = size ∧ offset + size ≤ zlen (contents s) ∧
               data = zslice offset size (contents s)).
Proof.
  intros Hr Hok. pose proof Hr as (Ho & Hs & Hmax). unfold SECTOR_BUFFER in Hmax.
  destruct (device_present s Hok) as [d Hd]. pose proof (sector_size_range (dev := dev)) as Hss.
  unfold SECTOR_BUFFER in Hss.
  unfold block_read. rewrite (K_bind_step _ _ _ _ _ Hd).
  rewrite (K_bind_step _ _ _ _ _ (sector_size_law s Hok)), (u64_id sector_size) by lia.
  rewrite (proj2 (Z.eqb_neq sector_size 0)), u64_id by lia.
  assert (offset / sector_size ≤ (offset + size - 1) / sector_size) by (apply Z.div_le_mono; lia).
  apply read_loop_spec; try done; rewrite ?zlen_nil; try lia. symmetry. apply reached_start; lia.
Qed.

(** The first [n] bytes of [buffer] have arrived at [offset]. *)
Definition written (offset : Z) (buffer : list Z) (n : Z) (c : list Z) : list Z :=
  zsplice offset (ztake n buffer) c.

Lemma written_step offset buffer c k from to d :
  0 ≤ offset → 0 ≤ k → 0 ≤ from ≤ to → to ≤ sector_size → k * sector_size + from = offset + d →
  0 ≤ d → d + (to - from) ≤ zlen buffer → (k + 1) * sector_size ≤ zlen c →
  let c1 := written offset buffer d c in
  zsplice (k * sector_size)
    (zsplice from (zslice d (to - from) buffer) (zslice (k * sector_size) sector_size c1)) c1 =
  written offset buffer (d + (to - from)) c.
Proof.
  intros Ho Hk Hft Hto Hpos Hd Hb Hc c1.
  assert (Hk0 : 0 ≤ k * sector_size) by nia. rewrite Z.mul_add_distr_r, Z.mul_1_l in Hc.
  assert (Ht : zlen (ztake d buffer) = d) by (rewrite zlen_ztake; lia).
  assert (Hc1 : zlen c1 = zlen c) by (apply zlen_zsplice; lia).
  assert (Hs : zlen (zslice d (to - from) buffer) = to - from) by (apply zlen_zslice; lia).
  rewrite zsplice_zslice by (rewrite ?Hs, ?Hc1; lia).
  unfold c1, written. replace (k * sector_size + from) with (offset + zlen (ztake d buffer)) by (rewrite Ht; lia).
  rewrite zsplice_grow by (rewrite ?Ht, ?Hs; lia).
  f_equal. apply ztake_app_split; lia.
Qed.

Definition touched (offset size : Z) (c c' : list Z) : Prop :=
  same_outside (offset / sector_size * sector_size)
    (((offset + size - 1) / sector_size + 1) * sector_size) c c'.

Lemma write_loop_spec offset buffer c n k s :
  request offset (zlen buffer) → device_ok s →
  offset / sector_size ≤ k → k + Z.of_nat n = (offset + zlen buffer - 1) / sector_size + 1 →
  let done := reached sector_size offset (zlen buffer) k in
  offset + done ≤ Z.max offset (zlen c) → contents s = written offset buffer done c →
  touched offset (zlen buffer) c (contents s) →
  ∃ res s',
    write_loop n dev sector_size offset buffer k ((offset + zlen buffer - 1) / sector_size) done s =
      Done (res, s') ∧
    device_ok s' ∧ tables s' = tables s ∧ touched offset (zlen buffer) c (contents s') ∧
    (res < 0 ∨ res = zlen buffer ∧ offset + zlen buffer ≤ zlen c ∧ contents s' = zsplice offset buffer c).
Proof.
  intros Hr. pose proof Hr as (Ho & Hs & Hmax). pose proof (sector_size_range (dev := dev)) as Hss.
  revert k s. induction n as [|n IH]; intros k s Hok Hlo Hk d Hin Hc Ht; cbn [write_loop].
  - rewrite (proj2 (Z.ltb_lt _ k)) by lia. exists (s32 (zlen buffer)), s. split_and!; try done. right.
    unfold d in *. replace k with ((offset + zlen buffer - 1) / sector_size + 1) in * by lia.
    rewrite reached_end in * by lia. unfold written in Hc. rewrite ztake_all in Hc by lia.
    rewrite s32_id by lia. split_and!; [done|lia|done].
  - rewrite (proj2 (Z.ltb_ge _ k)) by lia.
    assert (Hkr : 0 ≤ k < 2 ^ 64) by (apply (request_sector offset (zlen buffer)); [done|lia]).
    destruct (fill_buffer_law s k Hok Hkr) as (res & sector & s1 & E & Hok1 & Ht1 & Hc1 & Hd).
    rewrite (K_bind_step _ _ _ _ _ E).
    destruct (Z.ltb_spec res 0) as [Hres|Hres]; [exists res, s1; rewrite Hc1; auto 10|].
    destruct (Hd Hres) as [Hfit Hsec]. clear Hd E.
    assert (Hlen : zlen (contents s) = zlen c) by apply Ht.
    destruct (sector_part_spec sector_size offset (zlen buffer) k) as (from & to & Ep & Hft & Hto & Hpos & Hnext);
      [lia..|]. fold d in Ep, Hpos, Hnext. rewrite Ep.
    assert (Hdr : 0 ≤ d) by (apply reached_range; lia).
    assert (Hdn : d + (to - from) ≤ zlen buffer) by (rewrite <-Hnext; apply reached_range; lia).
    rewrite field_zslice by lia. cbn [kopt]. unfold mbind at 1, K_bind at 1, mret at 1, K_ret at 1.
    assert (Hk0 : 0 ≤ k * sector_size) by nia.
    assert (Hsz : zlen sector = sector_size) by (rewrite Hsec; apply zlen_zslice; lia).
    rewrite (proj2 (Z.ltb_ge (zlen sector) to)) by lia.
    set (bytes := zslice d (to - from) buffer).
    assert (Hbl : zlen bytes = to - from) by (apply zlen_zslice; lia).
    destruct (write_law s1 k 1 (zsplice from bytes sector) Hok1 Hkr ltac:(lia))
      as (res2 & s2 & E2 & Hok2 & Ht2 & Hout & Hw).
    { rewrite zlen_zsplice; lia. }
    rewrite (K_bind_step _ _ _ _ _ E2). rewrite Hc1 in Hout, Hw.
    assert (Htouch : touched offset (zlen buffer) c (contents s2)).
    { eapply same_outside_trans; [exact Ht|]. eapply same_outside_mono; [..|exact Hout]; nia. }
    destruct (Z.ltb_spec res2 0) as [Hres2|Hres2]; [exists res2, s2; split_and!; auto; congruence|].
    destruct (Hw Hres2) as [_ Hcs].
    destruct (IH (k + 1) s2 Hok2) as (res3 & s3 & E3 & Hok3 & Ht3 & Htc & Hfin); try done; try lia.
    + rewrite Hnext, Hcs, Hsec, Hc. unfold bytes. apply written_step; lia.
    + rewrite Hnext in E3. exists res3, s3. split_and!; try done. congruence.
Qed.

Lemma block_write_spec offset buffer s :
  request offset (zlen buffer) → device_ok s →
  ∃ res s', block_write dev offset buffer s = Done (res, s') ∧
    device_ok s' ∧ tables s' = tables s ∧ touched offset (zlen buffer) (contents s) (contents s') ∧
    (res < 0 ∨ res = zlen buffer ∧ offset + zlen buffer ≤ zlen (contents s) ∧
               contents s' = zsplice offset buffer (contents s)).
Proof.
  intros Hr Hok. pose proof Hr as (Ho & Hs & Hmax). unfold SECTOR_BUFFER in Hmax.
  destruct (device_present s Hok) as [d Hd]. pose proof (sector_size_range (dev := dev)) as Hss.
  unfold SECTOR_BUFFER in Hss.
  unfold block_write. rewrite (K_bind_step _ _ _ _ _ Hd).
  rewrite (K_bind_step _ _ _ _ _ (sector_size_law s Hok)), (u64_id sector_size) by lia.
  rewrite (proj2 (Z.eqb_neq sector_size 0)), u64_id by lia.
  assert (offset / sector_size ≤ (offset + zlen buffer - 1) / sector_size) by (apply Z.div_le_mono; lia).
  assert (E : reached sector_size offset (zlen buffer) (offset / sector_size) = 0) by (apply reached_start; lia).
  pose proof (write_loop_spec offset buffer (contents s)
    (Z.to_nat ((offset + zlen buffer - 1) / sector_size - offset / sector_size + 1))
    (offset / sector_size) s Hr Hok) as Hspec.
  cbv zeta in Hspec. rewrite E in Hspec. apply Hspec; try lia; [|done].
  unfold written, zsplice. rewrite (ztake_le0 0) by lia. rewrite zlen_nil, Z.add_0_r. symmetry. apply ztake_zdrop.
Qed.

(** A request that ends behind 2^64: the last sector is computed before the first one, no
    sector is visited, and the call reports success. *)
Definition wraps (offset size : Z) : Prop := 0 ≤ offset < 2 ^ 64 ∧ 1 ≤ size < 2 ^ 31 ∧ 2 ^ 64 < offset + size.
Lemma wrapped_sectors offset size : wraps offset size →
  u64 (offset + size - 1) / sector_size < offset / sector_size.
Proof.
  intros (Ho & Hs & Hw). pose proof (sector_size_range (dev := dev)) as Hss. unfold SECTOR_BUFFER in Hss.
  assert (u64 (offset + size - 1) = offset + size - 1 - 2 ^ 64) as ->.
  { unfold u64. rewrite <-(Z.mod_add _ (-1)) by lia. apply Z.mod_small. lia. }
  apply Z.div_lt_upper_bound; [lia|].
  assert (offset - sector_size < sector_size * (offset / sector_size)) by (pose proof (Z.div_mod offset sector_size); pose proof (Z.mod_pos_bound offset sector_size); lia).
  lia.
Qed.
Lemma block_write_wraps offset buffer s : wraps offset (zlen buffer) → device_ok s →
  block_write dev offset buffer s = Done (zlen buffer, s).
Proof.
  intros Hw Hok. pose proof (wrapped_sectors _ _ Hw) as Hlt. destruct Hw as (Ho & Hs & Hw).
  destruct (device_present s Hok) as [d Hd]. pose proof (sector_size_range (dev := dev)) as Hss. unfold SECTOR_BUFFER in Hss.
  unfold block_write. rewrite (K_bind_step _ _ _ _ _ Hd), (K_bind_step _ _ _ _ _ (sector_size_law s Hok)), (u64_id sector_size) by lia.
  rewrite (proj2 (Z.eqb_neq sector_size 0)) by lia. destruct (Z.to_nat _); cbn [write_loop];
    rewrite (proj2 (Z.ltb_lt _ _)), s32_id by lia; done.
Qed.
Lemma block_read_wraps offset size s : wraps offset size → device_ok s →
  block_read dev offset size s = Done ((size, []), s).
Proof.
  intros Hw Hok. pose proof (wrapped_sectors _ _ Hw) as Hlt. destruct Hw as (Ho & Hs & Hw).
  destruct (device_present s Hok) as [d Hd]. pose proof (sector_size_range (dev := dev)) as Hss. unfold SECTOR_BUFFER in Hss.
  unfold block_read. rewrite (K_bind_step _ _ _ _ _ Hd), (K_bind_step _ _ _ _ _ (sector_size_law s Hok)), (u64_id sector_size) by lia.
  rewrite (proj2 (Z.eqb_neq sector_size 0)) by lia. destruct (Z.to_nat _); cbn [read_loop];
    rewrite (proj2 (Z.ltb_lt _ _)), s32_id by lia; done.
Qed.

End transfer.

(** ** Partitions *)

Section partition.
Context {D : Type}.
Implicit Types (s : blk D).

(** [dev] names partition [i], which lies on [parent]. *)
Definition names_partition (s : blk D) (dev : block_device_t) (part : partition_t) : Prop :=
  driver_of (major_number dev) s = Done (Some Partition_driver, s) ∧
  partition_at (s32 (minor_number dev)) s = Done (part, s).
Definition inside (part : partition_t) (ss n : Z) : Prop :=
  0 ≤ part_start part ∧ 0 ≤ part_size part ∧ (part_start part + part_size part) * ss ≤ n.

(** The request that passes the bounds check is inside, or so far outside that
    the parent has no such sector. *)
Lemma out_of_partition_false part ss n lba count :
  inside part ss n → 1 ≤ ss → n < 2 ^ 63 → 0 ≤ lba < 2 ^ 64 → 0 < count < 2 ^ 32 →
  out_of_partition part lba count = false →
  u64 (part_start part + lba) = part_start part + lba ∧
  (lba + count ≤ part_size part ∨ 2 ^ 63 ≤ part_start part + lba).
Proof.
  intros (H1 & H2 & H3) Hss Hn Hlba Hc. unfold out_of_partition.
  assert (part_start part + part_size part < 2 ^ 63) by nia.
  rewrite (u64_id (part_start part)), (u64_id (part_start part + part_size part)) by lia.
  intros Hf. apply orb_false_iff in Hf as [Ha Hb]. apply Z.ltb_ge in Ha, Hb.
  assert (E : u64 (part_start part + lba) = part_start part + lba).
  { unfold u64 in *. destruct (Z.lt_ge_cases (part_start part + lba) (2 ^ 64)); [rewrite Z.mod_small; lia|].
    exfalso. revert Ha. rewrite <-(Z.mod_add (part_start part + lba) (-1)) by lia.
    rewrite Z.mod_small by lia. lia. }
  split; [done|]. rewrite E in Hb.
  destruct (Z.lt_ge_cases (part_start part + lba) (2 ^ 63)); [left|by right].
  rewrite u64_id in Hb by lia. lia.
Qed.

Lemma driver_of_tables s s' major d :
  tables s' = tables s → driver_of major s = Done (d, s) → driver_of major s' = Done (d, s').
Proof.
  unfold tables. intros [= E1 E2 E3]. unfold driver_of, kget, mbind, K_bind.
  rewrite E1. destruct (major =? 0); [by intros [= <-]|]. destruct (MAX_DRIVERS <? major); [done|].
  unfold mret, K_ret. by intros [= <-].
Qed.
Lemma partition_at_tables s s' i p :
  tables s' = tables s → partition_at i s = Done (p, s) → partition_at i s' = Done (p, s').
Proof.
  unfold tables. intros [= E1 E2 E3]. unfold partition_at, kget, mbind, K_bind.
  rewrite E2. destruct (_ && _); [|done]. unfold mret, K_ret. by intros [= <-].
Qed.
Lemma names_partition_tables s s' dev part :
  tables s' = tables s → names_partition s dev part → names_partition s' dev part.
Proof. intros E [H1 H2]. split; [by eapply driver_of_tables|by eapply partition_at_tables]. Qed.

(** A device of a native driver: calls do not depend on the nesting allowed. *)
Definition is_native s (dev : block_device_t) : Prop :=
  ∃ d, driver_of (major_number dev) s = Done (Some (Native d), s).
Lemma is_native_tables s s' dev : tables s' = tables s → is_native s dev → is_native s' dev.
Proof. intros E [d H]. exists d. by eapply driver_of_tables. Qed.
Lemma read_native s dev n lba count :
  is_native s dev → read_sectors_at n dev lba count s = read_sectors dev lba count s.
Proof.
  intros [d H]. unfold read_sectors, DEPTH.
  destruct n; cbn [read_sectors_at]; by rewrite !(K_bind_step _ _ _ _ _ H).
Qed.
Lemma write_native s dev n lba b count :
  is_native s dev → write_sectors_at n dev lba b count s = write_sectors dev lba b count s.
Proof.
  intros [d H]. unfold write_sectors, DEPTH.
  destruct n; cbn [write_sectors_at]; by rewrite !(K_bind_step _ _ _ _ _ H).
Qed.
Lemma sector_size_native s dev n :
  is_native s dev → get_sector_size_at n dev s = get_sector_size dev s.
Proof.
  intros [d H]. unfold get_sector_size, DEPTH.
  destruct n; cbn [get_sector_size_at]; by rewrite !(K_bind_step _ _ _ _ _ H).
Qed.

Section on_parent.
Context (dev : block_device_t) (part : partition_t) `{P : !BlockDevice D (blockdev part)}.
(** What the parent held at some point before. *)
Context (before : list Z).

Definition partition_ok (s : blk D) : Prop :=
  device_ok (dev := blockdev part) s ∧ names_partition s dev part ∧ is_native s (blockdev part) ∧
  inside part (sector_size (dev := blockdev part)) (zlen (contents (dev := blockdev part) s)) ∧
  same_outside (part_start part * sector_size (dev := blockdev part))
    ((part_start part + part_size part) * sector_size (dev := blockdev part))
    before (contents (dev := blockdev part) s).
Definition partition_bytes (s : blk D) : list Z :=
  zslice (part_start part * sector_size (dev := blockdev part))
    (part_size part * sector_size (dev := blockdev part)) (contents (dev := blockdev part) s).

#[local] Notation ss := (sector_size (dev := blockdev part)).

Lemma partition_bytes_len s : partition_ok s → zlen (partition_bytes s) = part_size part * ss.
Proof.
  intros (_ & _ & _ & (H1 & H2 & H3) & _). pose proof (sector_size_range (dev := blockdev part)).
  apply zlen_zslice; nia.
Qed.

Lemma partition_read s lba count :
  partition_ok s → 
  read_sectors dev lba count s =
    if out_of_partition part lba count then Done ((- EINVAL, []), s)
    else read_sectors (blockdev part) (u64 (part_start part + lba)) count s.
Proof.
  intros (_ & [H1 H2] & Hn & _ & _). unfold read_sectors at 1, DEPTH. cbn [read_sectors_at].
  rewrite (K_bind_step _ _ _ _ _ H1), (K_bind_step _ _ _ _ _ H2).
  destruct (out_of_partition _ _ _); [done|]. by apply (read_native s (blockdev part) 0).
Qed.
Lemma partition_write s lba b count :
  partition_ok s → 
  write_sectors dev lba b count s =
    if out_of_partition part lba count then Done (- EINVAL, s)
    else write_sectors (blockdev part) (u64 (part_start part + lba)) b count s.
Proof.
  intros (_ & [H1 H2] & Hn & _ & _). unfold write_sectors at 1, DEPTH. cbn [write_sectors_at].
  rewrite (K_bind_step _ _ _ _ _ H1), (K_bind_step _ _ _ _ _ H2).
  destruct (out_of_partition _ _ _); [done|]. by apply (write_native s (blockdev part) 0).
Qed.

Lemma partition_ok_step s s' :
  partition_ok s → tables s' = tables s → device_ok (dev := blockdev part) s' →
  same_outside (part_start part * ss) ((part_start part + part_size part) * ss)
    (contents (dev := blockdev part) s) (contents (dev := blockdev part) s') →
  partition_ok s'.
Proof.
  intros (H1 & H2 & H3 & H4 & H5) Ht Hok Hsame.
  split_and!; [done|by eapply names_partition_tables|by eapply is_native_tables|..].
  - by rewrite (proj1 Hsame).
  - by eapply same_outside_trans.
Qed.

(** A request that passed the check changes nothing outside the partition. *)
Lemma accepted_outside lba count c c' :
  inside part ss (zlen c) → zlen c < 2 ^ 63 → 0 ≤ lba → 0 < count →
  lba + count ≤ part_size part ∨ 2 ^ 63 ≤ part_start part + lba →
  same_outside ((part_start part + lba) * ss) ((part_start part + lba + count) * ss) c c' →
  same_outside (part_start part * ss) ((part_start part + part_size part) * ss) c c'.
Proof.
  intros (I1 & I2 & I3) Hmax Hl Hc [Hin|Hout] Hs; pose proof (sector_size_range (dev := blockdev part)).
  - eapply same_outside_mono; [..|exact Hs]; nia.
  - destruct Hs as [HL Hs]. split; [done|]. intros i _.
    destruct (Z.lt_ge_cases i (zlen c)); [apply Hs; nia|]. by rewrite !znth_ge by lia.
Qed.

Lemma partition_read_law s lba count :
  partition_ok s → 0 ≤ lba < 2 ^ 64 → 0 < count < 2 ^ 32 →
  ∃ res data s', read_sectors dev lba count s = Done ((res, data), s') ∧
    partition_ok s' ∧ tables s' = tables s ∧ partition_bytes s' = partition_bytes s ∧
    zlen data ≤ count * ss ∧
    (0 ≤ res → (lba + count) * ss ≤ zlen (partition_bytes s) ∧
               data = zslice (lba * ss) (count * ss) (partition_bytes s)).
Proof.
  intros Hok Hl Hc. pose proof Hok as (Hp & Hn & Hnat & Hin & Hsame).
  pose proof (sector_size_range (dev := blockdev part)) as Hss.
  rewrite partition_read by done. destruct (out_of_partition part lba count) eqn:Eo.
  { exists (- EINVAL), [], s. split_and!; try done. rewrite zlen_nil. lia. }
  pose proof (contents_range s Hp) as Hmax.
  destruct (out_of_partition_false part ss _ lba count Hin ltac:(lia) Hmax Hl Hc Eo) as [E Hcase].
  pose proof Hin as (I1 & I2 & I3).
  destruct (read_law s (part_start part + lba) count Hp) as (res & data & s' & ER & H1 & H2 & H3 & H4 & H5);
    [rewrite <-E; apply u64_range|done|].
  exists res, data, s'. rewrite E. split_and!; try done.
  - eapply partition_ok_step; try done. by rewrite H3.
  - unfold partition_bytes. by rewrite H3.
  - intros Hres. destruct (H5 Hres) as [Hfit Hd]. rewrite partition_bytes_len by done.
    destruct Hcase as [Hcase|Hcase]; [|exfalso; nia].
    split; [nia|]. rewrite Hd. unfold partition_bytes. rewrite zslice_zslice by nia.
    f_equal. lia.
Qed.

Lemma partition_write_law s lba count buffer :
  partition_ok s → 0 ≤ lba < 2 ^ 64 → 0 < count < 2 ^ 32 → zlen buffer = count * ss →
  ∃ res s', write_sectors dev lba buffer count s = Done (res, s') ∧ partition_ok s' ∧
    tables s' = tables s ∧
    same_outside (lba * ss) ((lba + count) * ss) (partition_bytes s) (partition_bytes s') ∧
    (0 ≤ res → (lba + count) * ss ≤ zlen (partition_bytes s) ∧
               partition_bytes s' = zsplice (lba * ss) buffer (partition_bytes s)).
Proof.
  intros Hok Hl Hc Hb. pose proof Hok as (Hp & Hn & Hnat & Hin & Hsame).
  pose proof (sector_size_range (dev := blockdev part)) as Hss.
  rewrite partition_write by done. destruct (out_of_partition part lba count) eqn:Eo.
  { exists (- EINVAL), s. by split_and!. }
  pose proof (contents_range s Hp) as Hmax.
  destruct (out_of_partition_false part ss _ lba count Hin ltac:(lia) Hmax Hl Hc Eo) as [E Hcase].
  pose proof Hin as (I1 & I2 & I3).
  destruct (write_law s (part_start part + lba) count buffer Hp) as (res & s' & ER & H1 & H2 & H3 & H4);
    [rewrite <-E; apply u64_range|done..|].
  exists res, s'. rewrite E. split_and!; try done.
  - eapply partition_ok_step; try done. apply (accepted_outside lba count); [done|lia|lia|lia|done|done].
  - replace ((lba + count) * ss) with (lba * ss + count * ss) by lia.
    apply same_outside_zslice; [nia|nia|nia|nia|].
    replace (part_start part * ss + lba * ss) with ((part_start part + lba) * ss) by lia.
    replace ((part_start part + lba) * ss + count * ss) with ((part_start part + lba + count) * ss) by lia.
    exact H3.
  - intros Hres. destruct (H4 Hres) as [Hfit Hd]. rewrite partition_bytes_len by done.
    destruct Hcase as [Hcase|Hcase]; [|exfalso; nia].
    split; [nia|]. unfold partition_bytes. rewrite Hd, Z.mul_add_distr_r.
    apply zslice_zsplice_inner; nia.
Qed.

#[export] Instance partition_device : BlockDevice D dev.
Proof.
  refine {| sector_size := ss; device_ok := partition_ok; contents := partition_bytes |}.
  - apply sector_size_range.
  - intros s Hok. rewrite partition_bytes_len by done. destruct Hok as (Hp & _ & _ & (H1 & H2 & H3) & _).
    pose proof (contents_range s Hp). pose proof (sector_size_range (dev := blockdev part)). nia.
  - intros s (_ & [H _] & _). eauto.
  - intros s (Hp & [H1 H2] & Hn & _). unfold get_sector_size at 1, DEPTH. cbn [get_sector_size_at].
    rewrite (K_bind_step _ _ _ _ _ H1), (K_bind_step _ _ _ _ _ H2).
    etrans; [exact (sector_size_native s (blockdev part) 0 Hn)|by apply sector_size_law].
  - exact partition_read_law.
  - exact partition_write_law.
Defined.

End on_parent.
End partition.

(** ** Native drivers *)

(** What a driver promises for one of its disks. *)
Class DiskDriver {D : Type} (d : block_driver_t D) (minor : Z) := {
  disk_sector_size : Z;
  disk_ok : D → Prop;
  disk_bytes : D → list Z;
  disk_sector_size_range : 1 ≤ disk_sector_size ≤ SECTOR_BUFFER;
  disk_range x : disk_ok x → zlen (disk_bytes x) < 2 ^ 63;
  disk_sector_size_law x : disk_ok x → get_sector_size_op d minor x = Done (disk_sector_size, x);
  disk_read_law x lba count : disk_ok x → 0 ≤ lba < 2 ^ 64 → 0 < count < 2 ^ 32 →
    ∃ res data x', read_sectors_op d minor lba count x = Done ((res, data), x') ∧
      disk_ok x' ∧ disk_bytes x' = disk_bytes x ∧ zlen data ≤ count * disk_sector_size ∧
      (0 ≤ res → (lba + count) * disk_sector_size ≤ zlen (disk_bytes x) ∧
         data = zslice (lba * disk_sector_size) (count * disk_sector_size) (disk_bytes x));
  disk_write_law x lba count buffer : disk_ok x → 0 ≤ lba < 2 ^ 64 → 0 < count < 2 ^ 32 →
    zlen buffer = count * disk_sector_size →
    ∃ res x', write_sectors_op d minor lba buffer count x = Done (res, x') ∧ disk_ok x' ∧
      same_outside (lba * disk_sector_size) ((lba + count) * disk_sector_size) (disk_bytes x) (disk_bytes x') ∧
      (0 ≤ res → (lba + count) * disk_sector_size ≤ zlen (disk_bytes x) ∧
         disk_bytes x' = zsplice (lba * disk_sector_size) buffer (disk_bytes x));
}.

Section native.
Context {D : Type} (d : block_driver_t D) (dev : block_device_t)
  `{P : !DiskDriver d (s32 (minor_number dev))}.

Lemma lift_disk_Done {A} (m : K D A) s a x :
  m (disks s) = Done (a, x) → lift_disk m s = Done (a, set_disks x s).
Proof. unfold lift_disk. by intros ->. Qed.

Definition native_ok (s : blk D) : Prop :=
  driver_of (major_number dev) s = Done (Some (Native d), s) ∧ disk_ok (disks s).

Lemma native_ok_step s x : native_ok s → disk_ok x → native_ok (set_disks x s).
Proof. intros [H _] Hx. split; [|done]. by apply (driver_of_tables s). Qed.

#[export] Instance native_device : BlockDevice D dev.
Proof.
  refine {| sector_size := disk_sector_size; device_ok := native_ok;
            contents s := disk_bytes (disks s) |}.
  - apply disk_sector_size_range.
  - intros s [_ H]. by apply disk_range.
  - intros s [H _]. eauto.
  - intros s [H Hx]. unfold get_sector_size, DEPTH. cbn [get_sector_size_at].
    rewrite (K_bind_step _ _ _ _ _ H). pose proof (disk_sector_size_law _ Hx) as E.
    rewrite (lift_disk_Done _ _ _ _ E). by destruct s.
  - intros s lba count [H Hx] Hl Hc.
    destruct (disk_read_law _ lba count Hx Hl Hc) as (res & data & x' & E & H1 & H2 & H3 & H4).
    exists res, data, (set_disks x' s). split; [|by split; [apply native_ok_step|]].
    unfold read_sectors, DEPTH. cbn [read_sectors_at]. rewrite (K_bind_step _ _ _ _ _ H).
    by apply lift_disk_Done.
  - intros s lba count b [H Hx] Hl Hc Hb.
    destruct (disk_write_law _ lba count b Hx Hl Hc Hb) as (res & x' & E & H1 & H2 & H3).
    exists res, (set_disks x' s). split; [|by split; [apply native_ok_step|]].
    unfold write_sectors, DEPTH. cbn [write_sectors_at]. rewrite (K_bind_step _ _ _ _ _ H).
    by apply lift_disk_Done.
Defined.

End native.

(** ** The contract of the block layer *)

Section contract.
Context {D : Type}.

(** block_read reads a device as an array of bytes.  On any device that reads
    and writes whole sectors, a request of 1 to 2^31 - 1 bytes, aligned or not, that ends
    at least 4096 bytes before 2^64 returns without a fault: either a negative error, or the
    request lies inside the device and the buffer holds exactly its bytes.  The
    device and the tables are as before. *)
Theorem block_read_correct dev `{!BlockDevice D dev} offset size s :
  request offset size → device_ok s →
  ∃ res data s', block_read dev offset size s = Done ((res, data), s') ∧
    device_ok s' ∧ tables s' = tables s ∧ contents s' = contents s ∧
    (res < 0 ∨ res = size ∧ offset + size ≤ zlen (contents s) ∧
               data = zslice offset size (contents s)).
Proof. apply block_read_spec. Qed.

(** C21: block_write writes a device as an array of bytes.  Let reading and writing whole
    sectors of the device obey the class BlockDevice.  A request of 1 to 2^31 - 1 bytes
    that ends at least 4096 bytes before 2^64 returns without a fault; on success the
    bytes of the request are replaced and no other, although whole sectors are written;
    on an error, also in the middle of the request, no byte outside the sectors of the
    request has changed.  (A request that runs over 2^64 reports success and writes
    nothing: [block_write_wraps].) *)
Theorem block_write_correct dev `{!BlockDevice D dev} offset buffer s :
  request offset (zlen buffer) → device_ok s →
  ∃ res s', block_write dev offset buffer s = Done (res, s') ∧
    device_ok s' ∧ tables s' = tables s ∧ touched offset (zlen buffer) (contents s) (contents s') ∧
    (res < 0 ∨ res = zlen buffer ∧ offset + zlen buffer ≤ zlen (contents s) ∧
               contents s' = zsplice offset buffer (contents s)).
Proof. apply block_write_spec. Qed.

(** C18: partitions are isolated.  Let [dev] name a partition that lies within a disk whose
    driver reads and writes exactly the sectors it is asked for (the class BlockDevice).
    A write of 1 to 2^31 - 1 bytes to the partition that ends at least 4096 bytes before
    2^64, also behind the end of the partition, changes no byte of the disk outside the
    partition, whether it succeeds or fails; and when it succeeds the partition's own
    bytes are the ones asked for. *)
Theorem partition_isolated dev part `{P : !BlockDevice D (blockdev part)} offset buffer s :
  let ss := sector_size (dev := blockdev part) in
  let disk := contents (dev := blockdev part) in
  let bytes s := zslice (part_start part * ss) (part_size part * ss) (disk s) in
  device_ok (dev := blockdev part) s → names_partition s dev part → is_native s (blockdev part) →
  inside part ss (zlen (disk s)) → request offset (zlen buffer) →
  ∃ res s', block_write dev offset buffer s = Done (res, s') ∧
    same_outside (part_start part * ss) ((part_start part + part_size part) * ss) (disk s) (disk s') ∧
    (res < 0 ∨ res = zlen buffer ∧ bytes s' = zsplice offset buffer (bytes s)).
Proof.
  intros ss disk bytes Hp Hn Hnat Hin Hr.
  assert (Hok : partition_ok dev part (disk s) s) by (split_and!; done).
  pose (I := partition_device dev part (disk s)).
  destruct (block_write_spec (P := I) offset buffer s Hr Hok) as (res & s' & E & Hok' & _ & _ & H).
  exists res, s'. split_and!; [done|apply Hok'|].
  destruct H as [H|(H1 & _ & H2)]; [by left|right]. split; [done|exact H2].
Qed.

End contract.

(** ** A disk in memory

    A driver whose disks are lists of bytes, in sectors of four. *)
Definition ram_driver : block_driver_t (list Z) :=
  mk_block_driver (list Z)
    (λ _ lba count, c ← kget;
       mret (if (lba + count) * 4 <=? zlen c then (0, zslice (lba * 4) (count * 4) c) else (- EIO, [])))
    (λ _ lba b count, c ← kget;
       if (lba + count) * 4 <=? zlen c then kput (zsplice (lba * 4) b c);; mret 0 else mret (- EIO))
    None (λ _, kgets zlen) (λ _, mret 4).

#[export] Instance ram_disk minor : DiskDriver ram_driver minor.
Proof.
  refine {| disk_sector_size := 4; disk_ok c := zlen c < 2 ^ 63; disk_bytes c := c |};
    unfold SECTOR_BUFFER; [lia|done|done|..].
  - intros c lba count Hc Hl Hn. cbn [read_sectors_op ram_driver].
    unfold kget, mbind, K_bind, mret, K_ret.
    destruct (Z.leb_spec ((lba + count) * 4) (zlen c)); eexists _, _, _; (split; [reflexivity|]).
    + split_and!; try done. rewrite zlen_zslice; lia.
    + split_and!; try done. rewrite zlen_nil. lia.
  - intros c lba count b Hc Hl Hn Hb. cbn [write_sectors_op ram_driver].
    unfold kget, kput, mbind, K_bind, mret, K_ret.
    destruct (Z.leb_spec ((lba + count) * 4) (zlen c)); eexists _, _; (split; [reflexivity|]).
    + split_and!; [rewrite zlen_zsplice; lia| |done].
      replace ((lba + count) * 4) with (lba * 4 + zlen b) by lia. apply same_outside_zsplice; lia.
    + by split_and!.
Defined.

(** Eight sectors, of which the partition has four from the third on. *)
Definition ram_dev : block_device_t := device_of 1 0.
Definition ram_part : partition_t := mk_partition ram_dev 2 4.
Definition part_dev : block_device_t := device_of 2 0.
Definition ram_state : blk (list Z) :=
  mk_blk [Native ram_driver; Partition_driver] [ram_part] 2 (seqZ 0 32).

Lemma ram_state_ok : device_ok (dev := ram_dev) ram_state.
Proof. split; [reflexivity|]. vm_compute. reflexivity. Qed.

Lemma block_read_correct_witness :
  request 6 7 ∧ ∃ s', block_read ram_dev 6 7 ram_state = Done ((7, [6; 7; 8; 9; 10; 11; 12]), s') ∧
    contents (dev := ram_dev) s' = seqZ 0 32.
Proof.
  assert (Hr : request 6 7) by (unfold request, SECTOR_BUFFER; lia). split; [exact Hr|].
  destruct (block_read_correct ram_dev 6 7 ram_state Hr ram_state_ok) as (res & data & s' & E & _ & _ & Hc & _).
  exists s'. split; [|exact Hc]. rewrite E. f_equal. f_equal.
  assert (H : fst <$> (match block_read ram_dev 6 7 ram_state with Done r => Some r | _ => None end) =
    Some (7, [6; 7; 8; 9; 10; 11; 12])) by (vm_compute; reflexivity).
  rewrite E in H. injection H as -> ->. reflexivity.
Defined.

Lemma block_write_correct_witness :
  request 6 3 ∧ ∃ s', block_write ram_dev 6 [100; 101; 102] ram_state = Done (3, s') ∧
    contents (dev := ram_dev) s' = zsplice 6 [100; 101; 102] (seqZ 0 32).
Proof.
  assert (Hr : request 6 3) by (unfold request, SECTOR_BUFFER; lia). split; [exact Hr|].
  destruct (block_write_correct ram_dev 6 [100; 101; 102] ram_state Hr ram_state_ok)
    as (res & s' & E & _ & _ & _ & H).
  assert (Hres : fst <$> (match block_write ram_dev 6 [100; 101; 102] ram_state with Done r => Some r | _ => None end) =
    Some 3) by (vm_compute; reflexivity).
  rewrite E in Hres. injection Hres as ->. exists s'. split; [exact E|].
  destruct H as [H|(_ & _ & H)]; [discriminate H|exact H].
Defined.

(** A write that runs over the end of the partition fails in its second sector. *)
Lemma partition_isolated_witness :
  request 13 6 ∧ ∃ s', block_write part_dev 13 (zrepeat 6 200) ram_state = Done (- EINVAL, s') ∧
    same_outside 8 24 (seqZ 0 32) (contents (dev := ram_dev) s').
Proof.
  assert (Hr : request 13 (zlen (zrepeat 6 200))) by (unfold request, SECTOR_BUFFER; vm_compute; intuition discriminate).
  split; [exact Hr|].
  destruct (partition_isolated (P := native_device ram_driver ram_dev) part_dev ram_part 13 (zrepeat 6 200) ram_state)
    as (res & s' & E & H & _).
  - exact ram_state_ok.
  - split; reflexivity.
  - exists ram_driver. reflexivity.
  - vm_compute. intuition discriminate.
  - exact Hr.
  - assert (Hres : fst <$> (match block_write part_dev 13 (zrepeat 6 200) ram_state with Done r => Some r | _ => None end) =
      Some (- EINVAL)) by (vm_compute; reflexivity).
    rewrite E in Hres. injection Hres as ->. exists s'. split; [exact E|exact H].
Defined.
(** Two bytes at the end of the address range are written nowhere, with success. *)
Lemma write_at_end_lost : block_write ram_dev (2 ^ 64 - 1) [1; 2] ram_state = Done (2, ram_state).
Proof. apply (block_write_wraps (dev := ram_dev)); [unfold wraps; change (zlen [1; 2]) with 2; lia|exact ram_state_ok]. Qed.
