(* ===== verification/Ramfs.v ===== *)
(** * kernel/fs/ramfs.c: the in-memory file system

    Directory entries and data blocks are heap objects: keys of [dirents] and
    [blocks], 0 is NULL, kmalloc gives a fresh key with zeroed contents and kfree
    removes it.  The root entry is the first field of ramfs_mount_t, so its key is
    that of the mount; [read_only] holds the other field.  Special files lead to the
    block layer and the character devices (Block.v), whose states are
    part of the state, as is the variable of devfs.c (at the end). *)

From S2P Require Import Prelude Calendar Path Vfs Block.


Definition RAMFS_BLOCK_SIZE : Z := 4096 - 8.
Definition FLAG_READ_ONLY : Z := 1.
Definition NAME_SIZE : Z := 256.

Record ramfs_data_t := mk_data {
  data : list Z;
  data_next : Z;
}.
Definition set_data (d : list Z) (b : ramfs_data_t) : ramfs_data_t := mk_data d (data_next b).
Definition set_data_next (p : Z) (b : ramfs_data_t) : ramfs_data_t := mk_data (data b) p.
Definition zero_data : ramfs_data_t := mk_data (zrepeat RAMFS_BLOCK_SIZE 0) 0.

Record ramfs_dirent_t := mk_rdirent {
  rd_name : list Z;
  rd_type : Z;
  rd_device : Z;
  rd_file_size : Z;
  rd_open_count : Z;
  rd_mtime : Z;
  rd_ctime : Z;
  rd_btime : Z;
  rd_to_delete : bool;
  rd_first_block : Z;
  rd_previous : Z;
  rd_next : Z;
  rd_parent : Z;
  rd_child : Z;
}.
Definition zero_dirent : ramfs_dirent_t := mk_rdirent [] 0 0 0 0 0 0 0 false 0 0 0 0 0.
Definition rd_set_name n d := mk_rdirent n (rd_type d) (rd_device d) (rd_file_size d) (rd_open_count d) (rd_mtime d) (rd_ctime d) (rd_btime d) (rd_to_delete d) (rd_first_block d) (rd_previous d) (rd_next d) (rd_parent d) (rd_child d).
Definition rd_set_type t v d := mk_rdirent (rd_name d) t v (rd_file_size d) (rd_open_count d) (rd_mtime d) (rd_ctime d) (rd_btime d) (rd_to_delete d) (rd_first_block d) (rd_previous d) (rd_next d) (rd_parent d) (rd_child d).
Definition rd_set_file_size n d := mk_rdirent (rd_name d) (rd_type d) (rd_device d) n (rd_open_count d) (rd_mtime d) (rd_ctime d) (rd_btime d) (rd_to_delete d) (rd_first_block d) (rd_previous d) (rd_next d) (rd_parent d) (rd_child d).
Definition rd_set_open_count n d := mk_rdirent (rd_name d) (rd_type d) (rd_device d) (rd_file_size d) n (rd_mtime d) (rd_ctime d) (rd_btime d) (rd_to_delete d) (rd_first_block d) (rd_previous d) (rd_next d) (rd_parent d) (rd_child d).
Definition rd_set_times m c b d := mk_rdirent (rd_name d) (rd_type d) (rd_device d) (rd_file_size d) (rd_open_count d) m c b (rd_to_delete d) (rd_first_block d) (rd_previous d) (rd_next d) (rd_parent d) (rd_child d).
Definition rd_set_to_delete d := mk_rdirent (rd_name d) (rd_type d) (rd_device d) (rd_file_size d) (rd_open_count d) (rd_mtime d) (rd_ctime d) (rd_btime d) true (rd_first_block d) (rd_previous d) (rd_next d) (rd_parent d) (rd_child d).
Definition rd_set_first_block p d := mk_rdirent (rd_name d) (rd_type d) (rd_device d) (rd_file_size d) (rd_open_count d) (rd_mtime d) (rd_ctime d) (rd_btime d) (rd_to_delete d) p (rd_previous d) (rd_next d) (rd_parent d) (rd_child d).
Definition rd_set_links pr nx pa ch d := mk_rdirent (rd_name d) (rd_type d) (rd_device d) (rd_file_size d) (rd_open_count d) (rd_mtime d) (rd_ctime d) (rd_btime d) (rd_to_delete d) (rd_first_block d) pr nx pa ch.
Definition rd_set_previous p d := rd_set_links p (rd_next d) (rd_parent d) (rd_child d) d.
Definition rd_set_next p d := rd_set_links (rd_previous d) p (rd_parent d) (rd_child d) d.
Definition rd_set_child p d := rd_set_links (rd_previous d) (rd_next d) (rd_parent d) p d.
Definition rd_set_mtime m d := rd_set_times m (rd_ctime d) (rd_btime d) d.
Definition rd_set_ctime c d := rd_set_times (rd_mtime d) c (rd_btime d) d.

Record ramfs D C := mk_ramfs {
  dirents : gmap Z ramfs_dirent_t;
  blocks : gmap Z ramfs_data_t;
  read_only : gmap Z bool;
  mount : Z;
  next_object : Z;
  blockdevs : Block.blk D;
  chardevs : Block.chr C;
  vvar : vvar_t;
  ramfs_instance : Z;
}.
Arguments mk_ramfs {_ _}. Arguments dirents {_ _}. Arguments blocks {_ _}. Arguments read_only {_ _}.
Arguments mount {_ _}. Arguments next_object {_ _}. Arguments blockdevs {_ _}. Arguments chardevs {_ _}.
Arguments vvar {_ _}. Arguments ramfs_instance {_ _}.

(** At most [n] characters are compared; a name ends where its list does. *)
Fixpoint strncmp (s1 s2 : list Z) (n : nat) : Z :=
  match n with
  | O => 0
  | S n =>
    let c1 := default 0 (head s1) in
    let c2 := default 0 (head s2) in
    if negb (c1 =? c2) then c1 - c2
    else if c1 =? 0 then 0
    else strncmp (tail s1) (tail s2) n
  end.

(** ** The end of a path

    [len] without trailing slashes, then the position behind the last slash. *)
Fixpoint strip_slashes (path : list Z) (len : nat) : nat :=
  match len with
  | O => O
  | S k => if is_slash (nth k path 0) then strip_slashes path k else S k
  end.
Fixpoint last_slash (path : list Z) (slash : nat) : nat :=
  match slash with
  | O => O
  | S k => if is_slash (nth k path 0) then S k else last_slash path k
  end.
(** dirname[256] and filename[256]; a part that does not fit with its terminator is
    written past the end of its buffer ([None]). *)
Definition split_name (path : list Z) : option (list Z * list Z) :=
  let len := strip_slashes path (length path) in
  let slash := last_slash path len in
  let dirname := take (slash - 1) path in
  let filename := take (len - slash) (drop slash path) in
  if (zlen dirname <? NAME_SIZE) && (zlen filename <? NAME_SIZE)
  then Some (dirname, filename) else None.

Section ramfs.
Context {D C : Type}.
#[local] Notation ramfs := (ramfs D C).
Implicit Types (s : ramfs).

Definition set_dirents x s : ramfs := mk_ramfs x (blocks s) (read_only s) (mount s) (next_object s) (blockdevs s) (chardevs s) (vvar s) (ramfs_instance s).
Definition set_blocks x s : ramfs := mk_ramfs (dirents s) x (read_only s) (mount s) (next_object s) (blockdevs s) (chardevs s) (vvar s) (ramfs_instance s).
Definition set_read_only x s : ramfs := mk_ramfs (dirents s) (blocks s) x (mount s) (next_object s) (blockdevs s) (chardevs s) (vvar s) (ramfs_instance s).
Definition set_mount x s : ramfs := mk_ramfs (dirents s) (blocks s) (read_only s) x (next_object s) (blockdevs s) (chardevs s) (vvar s) (ramfs_instance s).
Definition set_next_object x s : ramfs := mk_ramfs (dirents s) (blocks s) (read_only s) (mount s) x (blockdevs s) (chardevs s) (vvar s) (ramfs_instance s).
Definition set_blockdevs x s : ramfs := mk_ramfs (dirents s) (blocks s) (read_only s) (mount s) (next_object s) x (chardevs s) (vvar s) (ramfs_instance s).
Definition set_chardevs x s : ramfs := mk_ramfs (dirents s) (blocks s) (read_only s) (mount s) (next_object s) (blockdevs s) x (vvar s) (ramfs_instance s).

Definition lift_block {A} (m : K (Block.blk D) A) : K ramfs A := λ s,
  match m (blockdevs s) with
  | Done (a, d) => Done (a, set_blockdevs d s)
  | Panic => Panic
  | Fault => Fault
  | OutOfFuel => OutOfFuel
  end.
Definition lift_char {A} (m : K (Block.chr C) A) : K ramfs A := λ s,
  match m (chardevs s) with
  | Done (a, d) => Done (a, set_chardevs d s)
  | Panic => Panic
  | Fault => Fault
  | OutOfFuel => OutOfFuel
  end.
Definition time : K ramfs Z := s ← kget; mret (get_time (vvar s)).
Definition dirent (p : Z) : K ramfs ramfs_dirent_t := s ← kget; kopt (dirents s !! p).
Definition update_dirent (p : Z) (f : ramfs_dirent_t → ramfs_dirent_t) : K ramfs unit :=
  d ← dirent p; kmodify (λ s, set_dirents (<[p := f d]> (dirents s)) s).
Definition block (p : Z) : K ramfs ramfs_data_t := s ← kget; kopt (blocks s !! p).
Definition update_block (p : Z) (f : ramfs_data_t → ramfs_data_t) : K ramfs unit :=
  b ← block p; kmodify (λ s, set_blocks (<[p := f b]> (blocks s)) s).
Definition fresh_object : K ramfs Z :=
  s ← kget; kmodify (set_next_object (next_object s + 1));; mret (next_object s).
(** kmalloc of a data block, and kfree of one (of NULL it does nothing). *)
Definition new_block : K ramfs Z :=
  p ← fresh_object; kmodify (λ s, set_blocks (<[p := zero_data]> (blocks s)) s);; mret p.
Definition free_block (p : Z) : K ramfs unit := kmodify (λ s, set_blocks (delete p (blocks s)) s).

(** ** Paths and entries *)

(** The entry named [name] in the list from [p] on; 0 if there is none. *)
Fixpoint find_name (fuel : nat) (name : list Z) (p : Z) : K ramfs Z :=
  if p =? 0 then mret 0
  else match fuel with
  | O => kfuel
  | S fuel =>
    d ← dirent p;
    if strncmp name (rd_name d) 256 =? 0 then mret p else find_name fuel name (rd_next d)
  end.
Definition search (name : list Z) (p : Z) : K ramfs Z :=
  s ← kget; find_name (size (dirents s)) name p.

Fixpoint get_dirent_loop (fuel : nat) (path : list Z) (current : Z) : K ramfs (Z * Z) :=
  match path with
  | [] => mret (0, current)
  | _ =>
    match fuel with
    | O => kfuel
    | S fuel =>
      r ← kopt (take_subdir path 0);
      let '(subdir, path) := r in
      if bool_decide (subdir = []) then
        get_dirent_loop fuel (if bool_decide (head path = Some SLASH) then tail path else path) current
      else
        d ← dirent current;
        if negb (rd_type d =? DT_DIR) then mret (- ENOENT, 0)
        else
          next ← search subdir (rd_child d);
          if next =? 0 then mret (- ENOENT, 0) else get_dirent_loop fuel path next
    end
  end.
Definition ramfs_get_dirent (path : list Z) : K ramfs (Z * Z) :=
  s ← kget;
  let path := skip_slashes path in
  get_dirent_loop (S (length path)) path (mount s).

(** The pointers to the first [n] blocks from [p] on, up to the first NULL. *)
Fixpoint data_pointers (n : nat) (p : Z) : K ramfs (list Z) :=
  match n with
  | O => mret []
  | S O => mret [p]
  | S n => if p =? 0 then mret [p] else b ← block p; l ← data_pointers n (data_next b); mret (p :: l)
  end.
Fixpoint free_all (l : list Z) : K ramfs unit :=
  match l with [] => mret tt | p :: l => free_all l;; free_block p end.
Definition unlink_dirent (p : Z) : K ramfs unit :=
  d ← dirent p;
  (if rd_previous d =? 0 then mret tt else update_dirent (rd_previous d) (rd_set_next (rd_next d)));;
  q ← dirent (rd_parent d);
  (if rd_child q =? p then update_dirent (rd_parent d) (rd_set_child (rd_next d)) else mret tt);;
  (if rd_next d =? 0 then mret tt else update_dirent (rd_next d) (rd_set_previous (rd_previous d))).
(** An array of zero or fewer pointers has no meaning in C. *)
Definition ramfs_free_dirent (p : Z) : K ramfs Z :=
  unlink_dirent p;;
  d ← dirent p;
  let data_pointer_count := s32 (rd_file_size d / RAMFS_BLOCK_SIZE + 1) in
  (if data_pointer_count <=? 0 then kfault else mret tt);;
  l ← data_pointers (Z.to_nat data_pointer_count) (rd_first_block d);
  free_all l;;
  kmodify (λ s, set_dirents (delete p (dirents s)) s);;
  mret 0.

Definition ramfs_get_root : K ramfs Z := s ← kget; mret (mount s).
Definition ramfs_lookup (name : list Z) (parent : Z) : K ramfs (Z * Z) :=
  d ← dirent parent;
  if negb (rd_type d =? DT_DIR) then mret (- ENOTDIR, 0)
  else
    p ← search name (rd_child d);
    mret (if p =? 0 then (- ENOENT, 0) else (0, p)).
Definition ramfs_open (handle : Z) : K ramfs Z :=
  update_dirent handle (λ d, rd_set_open_count (u64 (rd_open_count d + 1)) d);; mret 0.
Definition ramfs_close (handle : Z) : K ramfs Z :=
  update_dirent handle (λ d, rd_set_open_count (u64 (rd_open_count d - 1)) d);;
  d ← dirent handle;
  if (rd_open_count d =? 0) && rd_to_delete d then ramfs_free_dirent handle else mret 0.

Fixpoint readdir_loop (fuel : nat) (p i index : Z) : K ramfs (Z * dirent_t) :=
  if p =? 0 then mret (0, mk_dirent [] 0)
  else match fuel with
  | O => kfuel
  | S fuel =>
    d ← dirent p;
    if rd_to_delete d then readdir_loop fuel (rd_next d) i index
    else if i =? index then mret (1, mk_dirent (rd_name d) (rd_type d))
    else readdir_loop fuel (rd_next d) (i + 1) index
  end.
Definition ramfs_readdir (handle index : Z) : K ramfs (Z * dirent_t) :=
  d ← dirent handle;
  if negb (rd_type d =? DT_DIR) then mret (- ENOTDIR, mk_dirent [] 0)
  else s ← kget; readdir_loop (size (dirents s)) (rd_child d) 0 index.

(** ** Data *)

Definition block_of (d : ramfs_dirent_t) : block_device_t :=
  device_of (major (rd_device d)) (minor (rd_device d)).
Definition char_of (d : ramfs_dirent_t) : char_device_t :=
  mk_char_device (major (rd_device d)) (minor (rd_device d)).
Fixpoint skip_blocks (n : nat) (p : Z) : K ramfs Z :=
  match n with O => mret p | S n => b ← block p; skip_blocks n (data_next b) end.
(** Each turn but the first reads a whole block, so [fuel] is a bound. *)
Fixpoint read_loop (fuel : nat) (p bytes_read block_offset size : Z) : K ramfs (list Z) :=
  if (bytes_read <? size) && negb (p =? 0) then
    match fuel with
    | O => kfuel
    | S fuel =>
      b ← block p;
      let to_read := RAMFS_BLOCK_SIZE - block_offset in
      let to_read := if size - bytes_read <? to_read then size - bytes_read else to_read in
      rest ← read_loop fuel (data_next b) (bytes_read + to_read) 0 size;
      mret (zslice block_offset to_read (data b) ++ rest)
    end
  else mret [].
Definition loop_fuel (size : Z) : nat := Z.to_nat (size / RAMFS_BLOCK_SIZE + 2).
Definition ramfs_read (handle offset size : Z) : K ramfs (Z * list Z) :=
  d ← dirent handle;
  if rd_type d =? DT_DIR then mret (- EISDIR, [])
  else if rd_type d =? DT_BLOCK then lift_block (block_read (block_of d) offset size)
  else if rd_type d =? DT_CHAR then lift_char (char_read (char_of d) offset size)
  else if rd_file_size d <=? offset then mret (0, [])
  else
    let size := if rd_file_size d <? u64 (offset + size) then rd_file_size d - offset else size in
    current ← skip_blocks (Z.to_nat (offset / RAMFS_BLOCK_SIZE)) (rd_first_block d);
    bytes ← read_loop (loop_fuel size) current 0 (offset mod RAMFS_BLOCK_SIZE) size;
    mret (zlen bytes, bytes).

(** [if (!current->next) current->next = kmalloc(...)], and on to the next block. *)
Definition next_or_new (p : Z) : K ramfs Z :=
  b ← block p;
  if data_next b =? 0 then
    q ← new_block; update_block p (set_data_next q);; mret q
  else mret (data_next b).
Fixpoint extend_blocks (n : nat) (p : Z) : K ramfs Z :=
  match n with O => mret p | S n => q ← next_or_new p; extend_blocks n q end.
Fixpoint write_loop (fuel : nat) (p block_offset : Z) (buffer : list Z) : K ramfs unit :=
  match buffer with
  | [] => mret tt
  | _ =>
    match fuel with
    | O => kfuel
    | S fuel =>
      let to_write := RAMFS_BLOCK_SIZE - block_offset in
      let to_write := if zlen buffer <? to_write then zlen buffer else to_write in
      update_block p (λ b, set_data (zsplice block_offset (ztake to_write buffer) (data b)) b);;
      q ← next_or_new p;
      write_loop fuel q 0 (zdrop to_write buffer)
    end
  end.
(** [buffer] is the [size] bytes to write. *)
Definition write_data (handle : Z) (buffer : list Z) (offset : Z) : K ramfs Z :=
  d ← dirent handle;
  (if rd_first_block d =? 0 then p ← new_block; update_dirent handle (rd_set_first_block p) else mret tt);;
  d ← dirent handle;
  current ← extend_blocks (Z.to_nat (offset / RAMFS_BLOCK_SIZE)) (rd_first_block d);
  write_loop (loop_fuel (zlen buffer)) current (offset mod RAMFS_BLOCK_SIZE) buffer;;
  now ← time;
  update_dirent handle (rd_set_mtime now);;
  update_dirent handle (λ d,
    if rd_file_size d <? u64 (offset + zlen buffer) then rd_set_file_size (u64 (offset + zlen buffer)) d else d);;
  mret (zlen buffer).
Definition is_read_only : K ramfs bool := s ← kget; kopt (read_only s !! mount s).
Definition ramfs_write (handle : Z) (buffer : list Z) (offset : Z) : K ramfs Z :=
  ro ← is_read_only;
  if (ro : bool) then mret (- EROFS)
  else
    d ← dirent handle;
    if rd_type d =? DT_DIR then mret (- EISDIR)
    else if rd_type d =? DT_BLOCK then lift_block (block_write (block_of d) offset buffer)
    else if rd_type d =? DT_CHAR then lift_char (char_write (char_of d) offset buffer)
    else write_data handle buffer offset.

Definition ramfs_stat (handle : Z) : K ramfs (Z * stat_t) :=
  d ← dirent handle;
  mret (0, mk_stat (rd_file_size d) (rd_ctime d) (rd_mtime d) (rd_btime d) (rd_device d) 0 (rd_type d)).

(** *** truncate *)

Definition block_count (size : Z) : Z := u64 (size + RAMFS_BLOCK_SIZE - 1) / RAMFS_BLOCK_SIZE.
Fixpoint last_block (fuel : nat) (p : Z) : K ramfs Z :=
  match fuel with
  | O => kfuel
  | S fuel => b ← block p; if data_next b =? 0 then mret p else last_block fuel (data_next b)
  end.
Fixpoint append_blocks (n : nat) (p : Z) : K ramfs unit :=
  match n with
  | O => mret tt
  | S n => q ← new_block; update_block p (set_data_next q);; append_blocks n q
  end.
(** The last [difference + 1] blocks go around the array last_blocks. *)
Fixpoint last_blocks_loop (fuel : nat) (last_blocks : list Z) (head difference : Z) : K ramfs (list Z * Z) :=
  match fuel with
  | O => kfuel
  | S fuel =>
    p ← kopt (znth last_blocks head);
    b ← block p;
    if data_next b =? 0 then mret (last_blocks, head)
    else
      let head := (head + 1) mod (difference + 1) in
      last_blocks_loop fuel (<[Z.to_nat head := data_next b]> last_blocks) head difference
  end.
Fixpoint free_last (n : nat) (last_blocks : list Z) (head difference : Z) : K ramfs unit :=
  match n with
  | O => mret tt
  | S n =>
    p ← kopt (znth last_blocks head);
    free_block p;;
    free_last n last_blocks ((head + difference) mod (difference + 1)) difference
  end.
Definition grow (handle difference : Z) : K ramfs unit :=
  d ← dirent handle;
  difference ← (if rd_first_block d =? 0 then
                  p ← new_block; update_dirent handle (rd_set_first_block p);; mret (difference - 1)
                else mret difference);
  d ← dirent handle;
  s ← kget;
  p ← last_block (size (blocks s)) (rd_first_block d);
  append_blocks (Z.to_nat difference) p.
Definition shrink (handle difference new_size : Z) : K ramfs unit :=
  d ← dirent handle;
  s ← kget;
  r ← last_blocks_loop (size (blocks s)) (rd_first_block d :: zrepeat difference 0) 0 difference;
  let '(last_blocks, head) := r in
  new_end ← kopt (znth last_blocks ((head + 1) mod (difference + 1)));
  (if new_end =? 0 then update_dirent handle (rd_set_first_block 0)
   else
     update_block new_end (set_data_next 0);;
     let tail := new_size mod RAMFS_BLOCK_SIZE in
     if tail =? 0 then mret tt
     else update_block new_end (λ b,
       set_data (ztake tail (data b) ++ zrepeat (RAMFS_BLOCK_SIZE - tail) 0) b));;
  free_last (Z.to_nat difference) last_blocks head difference.
Definition ramfs_truncate (handle new_size : Z) : K ramfs Z :=
  d ← dirent handle;
  let original_block_count := block_count (rd_file_size d) in
  let required_block_count := block_count new_size in
  update_dirent handle (rd_set_file_size new_size);;
  now ← time;
  update_dirent handle (rd_set_ctime now);;
  now ← time;
  update_dirent handle (rd_set_mtime now);;
  (if original_block_count <? required_block_count
   then grow handle (required_block_count - original_block_count)
   else if required_block_count <? original_block_count
   then shrink handle (original_block_count - required_block_count) new_size
   else mret tt);;
  mret 0.

(** ** Creating, renaming and removing entries *)

Definition ramfs_add_dirent (path : list Z) (p : Z) : K ramfs Z :=
  ro ← is_read_only;
  if (ro : bool) then mret (- EROFS)
  else
    r ← ramfs_get_dirent path;
    let '(res, parent_dir) := r in
    if res <? 0 then mret res
    else
      q ← dirent parent_dir;
      if negb (rd_type q =? DT_DIR) then mret (- ENOTDIR)
      else
        mtime ← time;
        ctime ← time;
        btime ← time;
        update_dirent p (rd_set_times mtime ctime btime);;
        q ← dirent parent_dir;
        update_dirent p (λ d, rd_set_links (rd_previous d) (rd_child q) parent_dir (rd_child d) d);;
        update_dirent parent_dir (rd_set_child p);;
        d ← dirent p;
        (if rd_next d =? 0 then mret tt else update_dirent (rd_next d) (rd_set_previous p));;
        update_dirent p (λ d, rd_set_links 0 (rd_next d) (rd_parent d) 0 d);;
        mret 0.
(** What the three functions that create entries share. *)
Definition create (path : list Z) (type device : Z) : K ramfs Z :=
  r ← ramfs_get_dirent path;
  if 0 <=? r.1 then mret (- EEXIST)
  else
    n ← kopt (split_name path);
    let '(dirname, filename) := n in
    p ← fresh_object;
    kmodify (λ s, set_dirents (<[p := rd_set_name filename (rd_set_type type device zero_dirent)]> (dirents s)) s);;
    ramfs_add_dirent dirname p.
Definition unless_read_only (m : K ramfs Z) : K ramfs Z :=
  ro ← is_read_only; if (ro : bool) then mret (- EROFS) else m.
Definition ramfs_mknod (path : list Z) (type dev : Z) : K ramfs Z :=
  unless_read_only
    (if negb (type =? DT_BLOCK) && negb (type =? DT_CHAR) then mret (- EINVAL)
     else create path type dev).
Definition ramfs_create_file (path : list Z) : K ramfs Z := unless_read_only (create path DT_FILE 0).
Definition ramfs_create_directory (path : list Z) : K ramfs Z := unless_read_only (create path DT_DIR 0).

Definition ramfs_delete (path : list Z) : K ramfs Z :=
  unless_read_only
    (r ← ramfs_get_dirent path;
     let '(res, p) := r in
     if res <? 0 then mret res
     else
       update_dirent p rd_set_to_delete;;
       d ← dirent p;
       if 0 <? rd_open_count d then mret 0 else ramfs_free_dirent p).

(** The entry is taken out and renamed before the new directory is looked up. *)
Definition ramfs_rename (old_path new_path : list Z) : K ramfs Z :=
  unless_read_only
    (r ← ramfs_get_dirent old_path;
     let '(res, p) := r in
     if res <? 0 then mret res
     else
       unlink_dirent p;;
       n ← kopt (split_name new_path);
       let '(dirname, filename) := n in
       update_dirent p (rd_set_name filename);;
       ramfs_add_dirent dirname p).

(** ** Mounting *)

Definition ramfs_mount (device : block_device_t) (flags : Z) : K ramfs Z :=
  p ← fresh_object;
  kmodify (set_mount p);;
  mtime ← time;
  ctime ← time;
  btime ← time;
  kmodify (λ s, set_dirents (<[p := rd_set_times mtime ctime btime (rd_set_type DT_DIR 0 zero_dirent)]> (dirents s)) s);;
  kmodify (λ s, set_read_only (<[p := has flags FLAG_READ_ONLY]> (read_only s)) s);;
  mret p.
Definition ramfs_select (mount_data : Z) : K ramfs unit := kmodify (set_mount mount_data).

(** The list from [p] on, each entry deleted with what is below it. *)
Fixpoint delete_list (delete_one : Z → K ramfs unit) (fuel : nat) (p : Z) : K ramfs unit :=
  if p =? 0 then mret tt
  else match fuel with
  | O => kfuel
  | S fuel => d ← dirent p; delete_one p;; delete_list delete_one fuel (rd_next d)
  end.
(** [depth] bounds how deep directories are nested, [n] how long they are. *)
Fixpoint ramfs_recursive_delete (depth n : nat) (p : Z) : K ramfs unit :=
  match depth with
  | O => kfuel
  | S depth =>
    d ← dirent p;
    delete_list (ramfs_recursive_delete depth n) n (rd_child d);;
    ramfs_free_dirent p;; mret tt
  end.
Definition ramfs_unmount (mount_data : Z) : K ramfs Z :=
  kmodify (set_mount mount_data);;
  s ← kget;
  d ← dirent mount_data;
  let n := size (dirents s) in
  delete_list (ramfs_recursive_delete n n) n (rd_child d);;
  kmodify (λ s, set_dirents (delete mount_data (dirents s)) s);;
  kmodify (λ s, set_read_only (delete mount_data (read_only s)) s);;
  mret 0.
Definition ramfs_check (device : block_device_t) : K ramfs Z := mret 1.

(** The entry of the table of file systems. *)
Definition ramfs_register : filesystem_t ramfs :=
  mk_filesystem ramfs [114; 97; 109; 102; 115] true false
    (Some ramfs_check) ramfs_mount (Some ramfs_unmount) ramfs_select ramfs_get_root
    ramfs_lookup (Some ramfs_open) (Some ramfs_close) (Some ramfs_readdir) (Some ramfs_read)
    (Some ramfs_write) (Some ramfs_stat) (Some ramfs_mknod) (Some ramfs_create_file)
    (Some ramfs_create_directory) (Some ramfs_delete) (Some ramfs_rename) None (Some ramfs_truncate).
End ramfs.

(** ** kernel/fs/devfs.c: the device file system

    One ramfs instance, made when the file system is registered, that every
    mount shows.  Each operation selects the instance and calls that of ramfs. *)


Section devfs.
Context {D C : Type}.
#[local] Notation ramfs := (ramfs D C).

Definition set_ramfs_instance x (s : ramfs) : ramfs :=
  mk_ramfs (dirents s) (blocks s) (read_only s) (mount s) (next_object s) (blockdevs s) (chardevs s) (vvar s) x.
(** [ramfs_select(ramfs_instance)] before the operation. *)
Definition on_instance {A} (m : K ramfs A) : K ramfs A :=
  s ← kget; ramfs_select (ramfs_instance s);; m.

Definition devfs_get_root : K ramfs Z := on_instance ramfs_get_root.
Definition devfs_lookup (name : list Z) (parent : Z) : K ramfs (Z * Z) := on_instance (ramfs_lookup name parent).
Definition devfs_open (handle : Z) : K ramfs Z := on_instance (ramfs_open handle).
Definition devfs_close (handle : Z) : K ramfs Z := on_instance (ramfs_close handle).
Definition devfs_readdir (handle index : Z) : K ramfs (Z * dirent_t) := on_instance (ramfs_readdir handle index).
Definition devfs_read (handle offset size : Z) : K ramfs (Z * list Z) := on_instance (ramfs_read handle offset size).
Definition devfs_delete (path : list Z) : K ramfs Z := on_instance (ramfs_delete path).
Definition devfs_create_file (path : list Z) : K ramfs Z := on_instance (ramfs_create_file path).
Definition devfs_create_directory (path : list Z) : K ramfs Z := on_instance (ramfs_create_directory path).
Definition devfs_write (handle : Z) (buffer : list Z) (offset : Z) : K ramfs Z := on_instance (ramfs_write handle buffer offset).
Definition devfs_rename (old_path new_path : list Z) : K ramfs Z := on_instance (ramfs_rename old_path new_path).
Definition devfs_stat (handle : Z) : K ramfs (Z * stat_t) := on_instance (ramfs_stat handle).
Definition devfs_mknod (path : list Z) (type dev : Z) : K ramfs Z := on_instance (ramfs_mknod path type dev).
Definition devfs_truncate (handle new_size : Z) : K ramfs Z := on_instance (ramfs_truncate handle new_size).
Definition devfs_check (device : block_device_t) : K ramfs Z := mret 1.
Definition devfs_mount (device : block_device_t) (flags : Z) : K ramfs Z := s ← kget; mret (ramfs_instance s).
Definition devfs_unmount (mount_data : Z) : K ramfs Z := mret 0.
Definition devfs_select (mount_data : Z) : K ramfs unit := mret tt.

(** Registering makes the instance; the entry of the table of file systems. *)
Definition devfs_register : K ramfs (filesystem_t ramfs) :=
  p ← ramfs_mount (device_of 0 0) 0;
  kmodify (set_ramfs_instance p);;
  mret (mk_filesystem ramfs [100; 101; 118; 102; 115] true false
    (Some devfs_check) devfs_mount (Some devfs_unmount) devfs_select devfs_get_root
    devfs_lookup (Some devfs_open) (Some devfs_close) (Some devfs_readdir) (Some devfs_read)
    (Some devfs_write) (Some devfs_stat) (Some devfs_mknod) (Some devfs_create_file)
    (Some devfs_create_directory) (Some devfs_delete) (Some devfs_rename) None (Some devfs_truncate)).
End devfs.
