(* ===== verification/RamfsData.v ===== *)
(** * The files of ramfs are byte arrays

    [chain m p l]: the blocks from [p] on are those of [l].  Reading and writing
    go along the chain; what they do to the bytes in it is a slice and a splice. *)

From S2P Require Import Prelude Calendar Path Vfs Block Ramfs.

Lemma BS_pos : 0 < RAMFS_BLOCK_SIZE.
Proof. done. Qed.
#[local] Opaque RAMFS_BLOCK_SIZE.
#[local] Notation BS := RAMFS_BLOCK_SIZE.

Fixpoint chain (m : gmap Z ramfs_data_t) (p : Z) (l : list Z) : Prop :=
  match l with
  | [] => p = 0
  | q :: l => p = q ∧ ∃ b, m !! q = Some b ∧ zlen (data b) = BS ∧ chain m (data_next b) l
  end.
Definition block_data (m : gmap Z ramfs_data_t) (q : Z) : list Z := default [] (data <$> m !! q).
Definition contents (m : gmap Z ramfs_data_t) (l : list Z) : list Z := concat (block_data m <$> l).

Lemma blocks_chain_ext m m' l : ∀ p, (∀ k, k ∈ l → m' !! k = m !! k) → chain m p l → chain m' p l.
Proof.
  induction l as [|q l IH]; intros p Hm; [done|]. intros (-> & b & Hb & Hz & Hc). split; [done|].
  exists b. rewrite Hm by set_solver. split_and!; [done|done|]. apply IH; [set_solver|done].
Qed.
Lemma contents_ext m m' l : (∀ k, k ∈ l → m' !! k = m !! k) → contents m' l = contents m l.
Proof.
  intros Hm. unfold contents. f_equal. apply list_fmap_ext. intros i k Hk%list_elem_of_lookup_2.
  unfold block_data. by rewrite Hm.
Qed.
Lemma contents_cons m q l : contents m (q :: l) = block_data m q ++ contents m l.
Proof. done. Qed.
Lemma chain_zlen m l : ∀ p, chain m p l → zlen (contents m l) = BS * zlen l.
Proof.
  induction l as [|q l IH]; intros p; [intros _; change (0 = BS * 0); lia|].
  intros (-> & b & Hb & Hz & Hc). rewrite contents_cons, zlen_app, zlen_cons, (IH _ Hc).
  unfold block_data. rewrite Hb. cbn. lia.
Qed.
Lemma chain_in m l : ∀ p k, chain m p l → k ∈ l → is_Some (m !! k).
Proof.
  induction l as [|q l IH]; intros p k; [set_solver|]. intros (-> & b & Hb & _ & Hc) [->|Hk]%elem_of_cons; [by eexists|].
  by eapply IH.
Qed.
Lemma chain_drop m l : ∀ p n, chain m p l → ∃ q, chain m q (drop n l).
Proof.
  induction l as [|q l IH]; intros p [|n] Hc; [by exists p|by exists p|by exists p|].
  destruct Hc as (-> & b & _ & _ & Hc). cbn. by eapply IH.
Qed.

Section data.
Context {D C : Type}.
#[local] Notation ramfs := (ramfs D C).
Implicit Types (s : ramfs).

(** Pointers are positive and below the next one. *)
Definition fresh_blocks s : Prop := 0 < next_object s ∧ ∀ k, is_Some (blocks s !! k) → 0 < k < next_object s.

(** From [s] to [s'] the chain [l] from [p] became [l'], which has the bytes [c]; nothing
    but the blocks of the chain and new ones is different. *)
Record grown s s' (p : Z) (l l' c : list Z) : Prop := {
  gr_state : s' = set_next_object (next_object s') (set_blocks (blocks s') s);
  gr_chain : chain (blocks s') p l';
  gr_contents : contents (blocks s') l' = c;
  gr_nodup : NoDup l';
  gr_prefix : ∃ new, l' = l ++ new ∧ ∀ k, k ∈ new → next_object s ≤ k;
  gr_frame : ∀ k, k ∉ l → k < next_object s → blocks s' !! k = blocks s !! k;
  gr_next : next_object s ≤ next_object s';
  gr_fresh : fresh_blocks s';
}.
Lemma grown_refl s p l : fresh_blocks s → chain (blocks s) p l → NoDup l → grown s s p l l (contents (blocks s) l).
Proof. intros Hf Hc Hd. split; try done. - by destruct s. - exists []. rewrite app_nil_r. split; [done|]. intros k Hk. by apply elem_of_nil in Hk. Qed.
Lemma chain_fresh s p l k : fresh_blocks s → chain (blocks s) p l → k ∈ l → 0 < k < next_object s.
Proof. intros [_ Hf] Hc Hk. apply Hf. by eapply chain_in. Qed.

(** The first block stays, the rest grows. *)
Lemma grown_cons s s' s'' p q l l1 l2 b c b0 :
  fresh_blocks s → chain (blocks s) p (p :: l) → NoDup (p :: l) →
  s' = set_next_object (next_object s') (set_blocks (blocks s') s) →
  (∀ k, k ∉ p :: l → k < next_object s → blocks s' !! k = blocks s !! k) →
  next_object s ≤ next_object s' →
  (∃ new, l1 = l ++ new ∧ (∀ k, k ∈ new → next_object s ≤ k) ∧ p ∉ l1) →
  blocks s' !! p = Some b → b0 = data b → zlen (data b) = BS → data_next b = q →
  grown s' s'' q l1 l2 c → grown s s'' p (p :: l) (p :: l2) (b0 ++ c).
Proof.
  intros Hf Hc Hd Hs Hfr Hn (new & -> & Hnew & Hp) Hb -> Hz Hq [G1 G2 G3 G4 (new2 & -> & Hnew2) G6 G7 G8].
  assert (Hpn : p < next_object s) by (apply (chain_fresh s p (p :: l)); [done|done|set_solver]).
  assert (Hp2 : p ∉ (l ++ new) ++ new2).
  { rewrite elem_of_app. intros [?|Hin]; [done|]. apply Hnew2 in Hin. lia. }
  assert (Hb2 : blocks s'' !! p = Some b) by (rewrite G6; [done|done|lia]).
  split; try done.
  - rewrite G1 at 1. rewrite Hs at 1. done.
  - split; [done|]. exists b. split; [done|]. split; [done|]. by rewrite Hq.
  - rewrite contents_cons, G3. unfold block_data. by rewrite Hb2.
  - by constructor.
  - exists (new ++ new2). split; [by rewrite <-app_assoc|]. intros k [Hk|Hk]%elem_of_app; [by apply Hnew|]. apply Hnew2 in Hk. lia.
  - intros k Hk Hkn. rewrite G6; [by apply Hfr| |lia]. intros [?|Hin]%elem_of_app; [set_solver|]. apply Hnew in Hin. lia.
  - lia.
Qed.

Lemma grown_trans s s1 s2 p l l1 l2 c1 c2 : next_object s ≤ next_object s1 →
  grown s s1 p l l1 c1 → grown s1 s2 p l1 l2 c2 → grown s s2 p l l2 c2.
Proof.
  intros Hn [A1 A2 A3 A4 (n1 & -> & A5) A6 A7 A8] [B1 B2 B3 B4 (n2 & -> & B5) B6 B7 B8]. split; try done.
  - rewrite B1 at 1. rewrite A1 at 1. done.
  - exists (n1 ++ n2). split; [by rewrite <-app_assoc|]. intros k [Hk|Hk]%elem_of_app; [by apply A5|]. apply B5 in Hk. lia.
  - intros k Hk Hkn. rewrite B6; [by apply A6| |lia]. intros [?|Hin]%elem_of_app; [done|]. apply A5 in Hin. lia.
  - lia.
Qed.
(** A chain that ends in a part that grows. *)
Lemma grown_app s s' q l l' c : ∀ l1 p, fresh_blocks s → chain (blocks s) p (l1 ++ l) → NoDup (l1 ++ l) → chain (blocks s) q l →
  grown s s' q l l' c → grown s s' p (l1 ++ l) (l1 ++ l') (contents (blocks s) l1 ++ c).
Proof.
  intros l1. induction l1 as [|p l1 IH]; intros p' Hf Hc Hd Hq HG.
  - cbn [app] in *. assert (p' = q) as ->.
    { destruct l as [|x l]; cbn in Hc, Hq; [congruence|]. destruct Hc as (-> & _), Hq as (-> & _). done. }
    exact HG.
  - cbn [app] in *. pose proof Hc as (-> & b & Hb & Hz & Hc'). apply NoDup_cons in Hd as [Hp Hd].
    rewrite contents_cons, <-app_assoc. assert (block_data (blocks s) p = data b) as -> by (unfold block_data; by rewrite Hb).
    eapply (grown_cons s s s' p (data_next b) (l1 ++ l) (l1 ++ l)); try done.
    + by constructor.
    + by destruct s.
    + exists []. rewrite app_nil_r. split; [done|]. split; [set_solver|done].
    + by apply IH.
Qed.

(** ** Single steps *)

Lemma block_run s p b : blocks s !! p = Some b → block p s = Done (b, s).
Proof. intros E. unfold block, mbind, K_bind, kget. by rewrite E. Qed.
Lemma update_block_run s p b f : blocks s !! p = Some b →
  update_block p f s = Done (tt, set_blocks (<[p := f b]> (blocks s)) s).
Proof. intros E. unfold update_block. by rewrite (K_bind_step _ _ _ _ _ (block_run s p b E)). Qed.
Lemma dirent_run s p d : dirents s !! p = Some d → dirent p s = Done (d, s).
Proof. intros E. unfold dirent, mbind, K_bind, kget. by rewrite E. Qed.
Lemma update_dirent_run s p d f : dirents s !! p = Some d →
  update_dirent p f s = Done (tt, set_dirents (<[p := f d]> (dirents s)) s).
Proof. intros E. unfold update_dirent. by rewrite (K_bind_step _ _ _ _ _ (dirent_run s p d E)). Qed.
Definition with_new_block s : ramfs :=
  set_blocks (<[next_object s := zero_data]> (blocks s)) (set_next_object (next_object s + 1) s).
Lemma new_block_run s : new_block s = Done (next_object s, with_new_block s).
Proof. done. Qed.
Lemma zlen_zero_data : zlen (data zero_data) = BS.
Proof. cbn. rewrite zlen_zrepeat. pose proof BS_pos. lia. Qed.
Lemma fresh_new s : fresh_blocks s → fresh_blocks (with_new_block s) ∧ blocks s !! next_object s = None.
Proof.
  intros [Hn Hf]. split.
  - split; [cbn; lia|]. intros k Hk. cbn in Hk. destruct (decide (k = next_object s)) as [->|].
    + cbn. lia.
    + rewrite lookup_insert_ne in Hk by done. apply Hf in Hk. cbn. lia.
  - destruct (blocks s !! next_object s) eqn:E; [|done]. specialize (Hf (next_object s) ltac:(by eexists)). lia.
Qed.

(** The next block, which is allocated if the chain ends here. *)
Record next_step s s' p q l l1 k : Prop := {
  ns_state : s' = set_next_object (next_object s') (set_blocks (blocks s') s);
  ns_chain : chain (blocks s') q l1;
  ns_contents : contents (blocks s') l1 = contents (blocks s) l ++ zrepeat k 0;
  ns_k : 0 ≤ k;
  ns_nodup : NoDup l1;
  ns_nonempty : l1 ≠ [];
  ns_new : ∃ new, l1 = l ++ new ∧ (∀ k, k ∈ new → next_object s ≤ k) ∧ p ∉ l1;
  ns_here : ∃ b, blocks s' !! p = Some b ∧ data b = block_data (blocks s) p ∧ zlen (data b) = BS ∧ data_next b = q;
  ns_frame : ∀ k, k ∉ p :: l → k < next_object s → blocks s' !! k = blocks s !! k;
  ns_next : next_object s ≤ next_object s';
  ns_fresh : fresh_blocks s';
}.
Lemma next_or_new_spec s p l : fresh_blocks s → chain (blocks s) p (p :: l) → NoDup (p :: l) →
  ∃ s' q l1 k, next_or_new p s = Done (q, s') ∧ next_step s s' p q l l1 k.
Proof.
  intros Hf Hc Hd. pose proof (chain_fresh s p (p :: l) p Hf Hc ltac:(set_solver)) as Hp.
  pose proof Hc as (_ & b & Hb & Hz & Hl). pose proof Hd as [Hpl Hdl]%NoDup_cons. unfold next_or_new.
  rewrite (K_bind_step _ _ _ _ _ (block_run s p b Hb)). destruct (Z.eqb_spec (data_next b) 0) as [E|E].
  - assert (l = []) as ->.
    { destruct l as [|x l]; [done|]. pose proof (chain_fresh s p (p :: x :: l) x Hf Hc ltac:(set_solver)). destruct Hl as (Hx & _). lia. }
    rewrite (K_bind_step _ _ _ _ _ (new_block_run s)). destruct (fresh_new s Hf) as [Hf1 Hnone].
    set (q := next_object s) in *. assert (Hb1 : blocks (with_new_block s) !! p = Some b).
    { cbn. rewrite lookup_insert_ne by (fold q; lia). done. }
    rewrite (K_bind_step _ _ _ _ _ (update_block_run _ p b _ Hb1)).
    eexists _, q, [q], BS. split; [reflexivity|]. cbn. fold q. pose proof BS_pos.
    assert (Hq : <[p:=set_data_next q b]> (<[q:=zero_data]> (blocks s)) !! q = Some zero_data)
      by (rewrite lookup_insert_ne by lia; by rewrite lookup_insert_eq).
    split; cbn; try done; try lia.
    + split; [done|]. exists zero_data. split; [exact Hq|]. split; [apply zlen_zero_data|done].
    + unfold contents. cbn. unfold block_data. rewrite Hq. cbn. by rewrite app_nil_r.
    + apply NoDup_singleton.
    + exists [q]. split; [done|]. split; [intros x ->%list_elem_of_singleton; unfold q; lia|].
      intros ->%list_elem_of_singleton. lia.
    + exists (set_data_next q b). rewrite lookup_insert_eq. unfold block_data. by rewrite Hb.
    + intros x Hx Hxn. rewrite !lookup_insert_ne; [done|unfold q; lia|set_solver].
    + destruct Hf1 as [A B]. split; [exact A|]. intros x Hx. cbn in Hx. apply B. cbn.
      destruct (decide (x = p)) as [->|]; [fold q; by rewrite lookup_insert_ne by lia|]. by rewrite lookup_insert_ne in Hx.
  - exists s, (data_next b), l, 0. split; [done|]. change (zrepeat 0 0) with (@nil Z). split; try done.
    + by destruct s.
    + by rewrite app_nil_r.
    + intros ->. done.
    + exists []. rewrite app_nil_r. split; [done|]. split; [set_solver|done].
    + exists b. unfold block_data. by rewrite Hb.
Qed.

(** ** The loops *)

Lemma head_chain (m : gmap Z ramfs_data_t) p l : chain m p l → l ≠ [] → ∃ l1, l = p :: l1.
Proof. destruct l as [|q l]; [done|]. intros (-> & _) _. by exists l. Qed.

(** One block is passed and the rest grows. *)
Lemma next_grown s s1 s2 p q l l1 l2 k c : fresh_blocks s → chain (blocks s) p (p :: l) → NoDup (p :: l) →
  next_step s s1 p q l l1 k → grown s1 s2 q l1 l2 c → grown s s2 p (p :: l) (p :: l2) (block_data (blocks s) p ++ c).
Proof.
  intros Hf Hc Hd [N1 N2 N3 N4 N5 N6 N7 (b & N8 & N9 & N10 & N11) N12 N13 N14] HG.
  eapply (grown_cons s s1 s2 p q l l1 l2 b); done.
Qed.
Lemma extend_spec n : ∀ s p l, fresh_blocks s → chain (blocks s) p l → l ≠ [] → NoDup l →
  ∃ s' q l' k, extend_blocks n p s = Done (q, s') ∧ 0 ≤ k ∧ grown s s' p l l' (contents (blocks s) l ++ zrepeat k 0) ∧
    (n < length l')%nat ∧ chain (blocks s') q (drop n l').
Proof.
  induction n as [|n IH]; intros s p l Hf Hc Hne Hd.
  - exists s, p, l, 0. split; [done|]. split; [lia|]. change (zrepeat 0 0) with (@nil Z). rewrite app_nil_r.
    split; [by apply grown_refl|]. split; [destruct l; [done|cbn; lia]|done].
  - destruct (head_chain _ _ _ Hc Hne) as [l0 ->]. cbn [extend_blocks].
    destruct (next_or_new_spec s p l0 Hf Hc Hd) as (s1 & q & l1 & k1 & H1 & HN). rewrite (K_bind_step _ _ _ _ _ H1).
    pose proof HN as [_ N2 N3 N4 N5 N6 _ _ _ _ N14].
    destruct (IH s1 q l1 N14 N2 N6 N5) as (s2 & q2 & l2 & k2 & H2 & Hk2 & HG & Hlen & Hdrop).
    exists s2, q2, (p :: l2), (k1 + k2). split; [done|]. split; [lia|].
    split; [|split; [cbn; lia|done]]. rewrite <-zrepeat_app by lia. rewrite contents_cons, <-!app_assoc.
    rewrite N3, <-app_assoc in HG. eapply next_grown; done.
Qed.

Lemma set_block_chain m p b d l : m !! p = Some b → p ∉ l → zlen (data b) = BS → zlen d = BS →
  chain m p (p :: l) → chain (<[p := set_data d b]> m) p (p :: l).
Proof.
  intros Hb Hp Hz Hd (_ & b' & Hb' & _ & Hl). assert (b' = b) as -> by congruence.
  split; [done|]. exists (set_data d b). rewrite lookup_insert_eq. split_and!; [done|done|].
  eapply blocks_chain_ext; [|exact Hl]. intros k Hk. rewrite lookup_insert_ne; [done|]. intros ->. done.
Qed.
Lemma contents_insert m p b d l : p ∉ l → contents (<[p := set_data d b]> m) (p :: l) = d ++ contents m l.
Proof.
  intros Hp. rewrite contents_cons. unfold block_data at 1. rewrite lookup_insert_eq. cbn. f_equal.
  apply contents_ext. intros k Hk. rewrite lookup_insert_ne; [done|]. intros ->. done.
Qed.
(** Only the bytes of the first block differ. *)
Lemma grown_set s p b d l s2 l' c : blocks s !! p = Some b → p ∉ l → fresh_blocks s → NoDup (p :: l) →
  grown (set_blocks (<[p := set_data d b]> (blocks s)) s) s2 p (p :: l) l' c → grown s s2 p (p :: l) l' c.
Proof.
  intros Hb Hp Hf Hd [B1 B2 B3 B4 B5 B6 B7 B8]. split; try done.
  intros k Hk Hkn. rewrite B6 by done. cbn. rewrite lookup_insert_ne; [done|]. set_solver.
Qed.
Lemma write_blocks_spec fuel : ∀ s p l bo buf, fresh_blocks s → chain (blocks s) p l → l ≠ [] → NoDup l →
  0 ≤ bo < BS → bo + zlen buf ≤ BS * Z.of_nat fuel →
  ∃ s' l' k, write_loop fuel p bo buf s = Done (tt, s') ∧ 0 ≤ k ∧ (buf ≠ [] → bo + zlen buf ≤ zlen (contents (blocks s) l) + k) ∧
    grown s s' p l l' (zsplice bo buf (contents (blocks s) l ++ zrepeat k 0)).
Proof.
  induction fuel as [|fuel IH]; intros s p l bo buf Hf Hc Hne Hd Hbo Hfuel; pose proof (zlen_nonneg buf) as Hz0;
    (destruct (decide (buf = [])) as [->|Hb];
      [exists s, l, 0; rewrite zsplice_none; change (zrepeat 0 0) with (@nil Z); rewrite app_nil_r;
       split; [done|]; split; [lia|]; split; [done|by apply grown_refl]|]).
  { destruct buf; [done|]. rewrite zlen_cons in Hfuel. pose proof (zlen_nonneg buf). lia. }
  destruct (head_chain _ _ _ Hc Hne) as [l0 ->]. pose proof Hc as (_ & b & Eb & Hz & Hl). pose proof Hd as [Hp Hd0]%NoDup_cons.
  destruct buf as [|c0 buf0]; [done|]. cbn [write_loop]. set (buf := c0 :: buf0) in *. cbv zeta.
  set (w := if zlen buf <? BS - bo then zlen buf else BS - bo).
  assert (Hw : 0 < w ≤ BS - bo ∧ w ≤ zlen buf ∧ (w < zlen buf → w = BS - bo)).
  { assert (0 < zlen buf) by (unfold buf; rewrite zlen_cons; pose proof (zlen_nonneg buf0); lia).
    unfold w. destruct (Z.ltb_spec (zlen buf) (BS - bo)); lia. }
  rewrite (K_bind_step _ _ _ _ _ (update_block_run s p b _ Eb)).
  set (d := zsplice bo (ztake w buf) (data b)). set (s1 := set_blocks _ s).
  assert (Hd1 : zlen d = BS). { unfold d. rewrite zlen_zsplice; [done|lia|]. rewrite zlen_ztake. lia. }
  assert (Hf1 : fresh_blocks s1).
  { destruct Hf as [A B]. split; [exact A|]. intros k Hk. cbn in Hk. apply B. destruct (decide (k = p)) as [->|]; [by eexists|].
    by rewrite lookup_insert_ne in Hk. }
  assert (Hc1 : chain (blocks s1) p (p :: l0)) by (by apply set_block_chain).
  destruct (next_or_new_spec s1 p l0 Hf1 Hc1 Hd) as (s2 & q & l1 & k1 & H1 & HN). rewrite (K_bind_step _ _ _ _ _ H1).
  pose proof HN as [_ N2 N3 N4 N5 N6 _ _ _ _ N11].
  assert (Hl0 : contents (blocks s1) l0 = contents (blocks s) l0).
  { apply contents_ext. intros k Hk. cbn. rewrite lookup_insert_ne; [done|]. intros ->. done. }
  destruct (IH s2 q l1 0 (zdrop w buf) N11 N2 N6 N5) as (s3 & l2 & k2 & H2 & Hk2 & Hfit & HG); [lia| |].
  { rewrite zlen_zdrop. destruct (Z.le_gt_cases (zlen buf) w); [nia|]. destruct Hw as (_ & _ & Hw). specialize (Hw ltac:(lia)). nia. }
  exists s3, (p :: l2), (k1 + k2). split; [done|]. split; [lia|].
  assert (Hz1 : zlen (contents (blocks s) (p :: l0)) = BS + BS * zlen l0) by (rewrite (chain_zlen _ _ _ Hc), zlen_cons; lia).
  assert (Hz2 : zlen (contents (blocks s) l0) = BS * zlen l0) by (by rewrite (chain_zlen _ _ _ Hl)).
  rewrite N3, Hl0 in HG, Hfit. rewrite zlen_app, zlen_zrepeat, Hz2 in Hfit. rewrite zlen_zdrop in Hfit.
  assert (Hrest : zdrop w buf ≠ [] → w < zlen buf).
  { intros Hr. destruct (Z.le_gt_cases (zlen buf) w); [|lia]. by rewrite zdrop_all in Hr. }
  assert (Hnil : zlen buf ≤ w → zdrop w buf = []) by (intros; by apply zdrop_all).
  split.
  { intros _. rewrite Hz1. pose proof (zlen_nonneg l0). destruct (decide (zdrop w buf = [])) as [E|E].
    - assert (zlen (zdrop w buf) = 0) as E0 by (by rewrite E). rewrite zlen_zdrop in E0. nia.
    - specialize (Hfit E). specialize (Hrest E). lia. }
  eapply (grown_set s p b d); [done|done|done|done|].
  match goal with |- grown _ _ _ _ _ ?c => assert (c = block_data (blocks s1) p ++ zsplice 0 (zdrop w buf) ((contents (blocks s) l0 ++ zrepeat k1 0) ++ zrepeat k2 0)) as -> end.
  { rewrite contents_cons. unfold block_data. rewrite Eb. cbn [blocks s1 set_blocks fmap option_fmap option_map from_option default].
    unfold s1. cbn [blocks set_blocks]. rewrite lookup_insert_eq. cbn [fmap option_fmap option_map default from_option data set_data id].
    rewrite <-!app_assoc. rewrite zrepeat_app by lia. unfold d.
    rewrite <-(ztake_zdrop w buf) at 1. apply zsplice_app; [lia| | |].
    - rewrite zlen_ztake. lia.
    - intros E%Hrest. rewrite zlen_ztake. lia.
    - rewrite zlen_zdrop, zlen_app, zlen_zrepeat, Hz2. pose proof (zlen_nonneg l0).
      destruct (decide (zdrop w buf = [])) as [E|E].
      + assert (zlen (zdrop w buf) = 0) as E0 by (by rewrite E). rewrite zlen_zdrop in E0. nia.
      + specialize (Hfit E). lia. }
  eapply next_grown; done.
Qed.

Lemma skip_blocks_spec s n : ∀ p l, chain (blocks s) p l → (n ≤ length l)%nat →
  ∃ q, skip_blocks n p s = Done (q, s) ∧ chain (blocks s) q (drop n l).
Proof.
  induction n as [|n IH]; intros p l Hc Hn; [by exists p|]. destruct l as [|x l]; cbn in Hn; [lia|].
  destruct Hc as (-> & b & Hb & _ & Hc). cbn [skip_blocks drop]. rewrite (K_bind_step _ _ _ _ _ (block_run s x b Hb)).
  apply IH; [done|lia].
Qed.
Lemma read_blocks_spec s fuel : ∀ p l bo done size, (∀ k, k ∈ l → 0 < k) → chain (blocks s) p l → 0 ≤ bo < BS → 0 ≤ done ≤ size →
  bo + (size - done) ≤ BS * Z.of_nat fuel → bo + (size - done) ≤ zlen (contents (blocks s) l) ∨ done = size →
  read_loop fuel p done bo size s = Done (zslice bo (size - done) (contents (blocks s) l), s).
Proof.
  induction fuel as [|fuel IH]; intros p l bo done size Hpos Hc Hbo Hds Hfuel Hfit.
  all: destruct (Z.ltb_spec done size) as [Hlt|]; [|assert (size - done = 0) as -> by lia; cbn [read_loop];
    rewrite (proj2 (Z.ltb_ge done size)) by lia; cbn [andb]; unfold zslice; by rewrite ztake_le0 by lia].
  { lia. }
  destruct Hfit as [Hfit|]; [|lia]. destruct l as [|x l]; [change (zlen (contents (blocks s) [])) with 0 in Hfit; lia|].
  destruct Hc as (-> & b & Hb & Hz & Hc). cbn [read_loop]. specialize (Hpos x ltac:(set_solver)) as Hx.
  rewrite (proj2 (Z.ltb_lt done size)), (proj2 (Z.eqb_neq x 0)) by lia. cbn [andb negb].
  rewrite (K_bind_step _ _ _ _ _ (block_run s x b Hb)). cbv zeta.
  set (w := if size - done <? BS - bo then size - done else BS - bo).
  assert (Hw : 0 < w ≤ BS - bo ∧ w ≤ size - done ∧ (done + w < size → w = BS - bo)).
  { unfold w. destruct (Z.ltb_spec (size - done) (BS - bo)); lia. }
  assert (Hcont : contents (blocks s) (x :: l) = data b ++ contents (blocks s) l).
  { rewrite contents_cons. unfold block_data. by rewrite Hb. }
  rewrite Hcont, zlen_app, Hz in Hfit. rewrite Hcont.
  erewrite K_bind_step; [|apply (IH _ l); [intros; apply Hpos; set_solver|done|lia|lia| |]].
  - unfold mret, K_ret. do 3 f_equal. rewrite zslice_app_r; [f_equal; lia|lia|lia|lia|lia|lia].
  - destruct (Z.lt_ge_cases (done + w) size); [|nia]. destruct Hw as (_ & _ & Hw). specialize (Hw ltac:(lia)). nia.
  - destruct (Z.lt_ge_cases (done + w) size); [|lia]. left. destruct Hw as (_ & _ & Hw). specialize (Hw ltac:(lia)). lia.
Qed.

Lemma contents_app m l1 l2 : contents m (l1 ++ l2) = contents m l1 ++ contents m l2.
Proof. unfold contents. by rewrite fmap_app, concat_app. Qed.
(** The blocks up to [off] exist, then the bytes go in. *)
Lemma write_chain s p l off buf : fresh_blocks s → chain (blocks s) p l → l ≠ [] → NoDup l → 0 ≤ off →
  ∃ s' l' k, (q ← extend_blocks (Z.to_nat (off / BS)) p; write_loop (loop_fuel (zlen buf)) q (off mod BS) buf) s = Done (tt, s') ∧
    0 ≤ k ∧ off + zlen buf ≤ zlen (contents (blocks s) l) + k ∧
    grown s s' p l l' (zsplice off buf (contents (blocks s) l ++ zrepeat k 0)).
Proof.
  intros Hf Hc Hne Hd Hoff. pose proof BS_pos as HBS. pose proof (zlen_nonneg buf) as Hbuf.
  destruct (extend_spec (Z.to_nat (off / BS)) s p l Hf Hc Hne Hd) as (s1 & q & l1 & k1 & H1 & Hk1 & HG1 & Hlen & Hq).
  rewrite (K_bind_step _ _ _ _ _ H1). set (n := Z.to_nat (off / BS)) in *.
  pose proof (Z.div_mod off BS ltac:(lia)) as Hdm. pose proof (Z.mod_pos_bound off BS HBS) as Hm.
  pose proof (Z.div_pos off BS Hoff HBS). assert (Hn : BS * Z.of_nat n + off mod BS = off) by (unfold n; lia).
  pose proof HG1 as [_ Hc1 Hcont1 Hd1 _ _ Hn1 Hf1].
  assert (Hne1 : drop n l1 ≠ []) by (intros E%(f_equal length); rewrite length_drop in E; cbn in E; lia).
  assert (Hd1' : NoDup (drop n l1)) by (rewrite <-(take_drop n l1) in Hd1; by apply NoDup_app in Hd1 as (_ & _ & ?)).
  destruct (write_blocks_spec (loop_fuel (zlen buf)) s1 q (drop n l1) (off mod BS) buf) as (s2 & l2 & k2 & H2 & Hk2 & Hfit & HG2); try done.
  { unfold loop_fuel. rewrite Z2Nat.id by (pose proof (Z.div_pos (zlen buf) BS Hbuf HBS); lia).
    pose proof (Z.div_mod (zlen buf) BS ltac:(lia)). pose proof (Z.mod_pos_bound (zlen buf) BS HBS). nia. }
  assert (Hsplit : contents (blocks s1) l1 = contents (blocks s1) (take n l1) ++ contents (blocks s1) (drop n l1))
    by (rewrite <-contents_app, take_drop; done).
  assert (Hzt : zlen (contents (blocks s1) (take n l1)) = BS * Z.of_nat n).
  { pose proof (chain_zlen _ _ _ Hc1) as H3. rewrite Hsplit, zlen_app, (chain_zlen _ _ _ Hq) in H3.
    unfold zlen in H3 |- *. rewrite length_drop in H3. lia. }
  assert (Hzl : zlen (contents (blocks s) l) + k1 = zlen (contents (blocks s1) l1)) by (rewrite Hcont1, zlen_app, zlen_zrepeat; lia).
  assert (Hzd : 0 < zlen (drop n l1)) by (unfold zlen; rewrite length_drop; lia).
  exists s2, (take n l1 ++ l2), (k1 + k2). split; [exact H2|]. split; [lia|]. split.
  { rewrite Z.add_assoc, Hzl, Hsplit, zlen_app, Hzt. destruct (decide (buf = [])) as [->|E].
    - change (zlen []) with 0. rewrite (chain_zlen _ _ _ Hq). nia.
    - specialize (Hfit E). lia. }
  eapply grown_trans; [exact Hn1|exact HG1|].
  rewrite <-zrepeat_app, (app_assoc (contents _ l)), <-Hcont1, Hsplit, <-app_assoc by lia.
  rewrite zsplice_app_l, Hzt by lia. replace (off - BS * Z.of_nat n) with (off mod BS) by lia.
  rewrite <-(take_drop n l1) at 1. eapply grown_app; [done| | |exact Hq|exact HG2]; by rewrite take_drop.
Qed.

(** ** The files of a state *)

Record file s (h : Z) (d : ramfs_dirent_t) (l : list Z) : Prop := {
  fi_entry : dirents s !! h = Some d;
  fi_chain : chain (blocks s) (rd_first_block d) l;
  fi_nodup : NoDup l;
  fi_size : 0 ≤ rd_file_size d ≤ zlen (contents (blocks s) l);
}.
Record files_ok s : Prop := {
  fo_fresh : fresh_blocks s;
  fo_file : ∀ h d, dirents s !! h = Some d → ∃ l, file s h d l;
  fo_disjoint : ∀ h h' d d' l l', h ≠ h' → file s h d l → file s h' d' l' → l ## l';
}.
Definition regular (d : ramfs_dirent_t) : Prop := rd_type d ≠ DT_DIR ∧ rd_type d ≠ DT_BLOCK ∧ rd_type d ≠ DT_CHAR.
(** The bytes of a file, and whether the rest of its blocks is zero. *)
Definition file_bytes s (h : Z) (v : list Z) : Prop :=
  ∃ d l, file s h d l ∧ regular d ∧ v = ztake (rd_file_size d) (contents (blocks s) l).
Definition clean s (h : Z) : Prop :=
  ∀ d l, file s h d l → ∃ k, zdrop (rd_file_size d) (contents (blocks s) l) = zrepeat k 0.

Lemma chain_unique s l : ∀ p l', fresh_blocks s → chain (blocks s) p l → chain (blocks s) p l' → l = l'.
Proof.
  induction l as [|x l IH]; intros p l' Hf Hc Hc'.
  - destruct l' as [|y l']; [done|]. pose proof (chain_fresh s p (y :: l') y Hf Hc' ltac:(set_solver)).
    cbn in Hc, Hc'. destruct Hc' as (? & _). lia.
  - pose proof (chain_fresh s p (x :: l) x Hf Hc ltac:(set_solver)) as Hx. destruct Hc as (-> & b & Hb & _ & Hc).
    destruct l' as [|y l']; [cbn in Hc'; lia|]. destruct Hc' as (<- & b' & Hb' & _ & Hc').
    assert (b' = b) as -> by congruence. f_equal. by eapply IH.
Qed.
Lemma file_unique s h d d' l l' : fresh_blocks s → file s h d l → file s h d' l' → d' = d ∧ l' = l.
Proof.
  intros Hf [A1 A2 _ _] [B1 B2 _ _]. assert (d' = d) as -> by congruence. split; [done|]. by eapply chain_unique.
Qed.

(** Another file, while the blocks of one grow and entry [h] changes. *)
Lemma file_frame s s' h d p l l' c h' d' l1 : h' ≠ h → fresh_blocks s → grown s s' p l l' c → l ## l1 →
  file s h' d' l1 → file (set_dirents (<[h := d]> (dirents s)) s') h' d' l1.
Proof.
  intros Hne Hf [G1 _ _ _ _ G6 _ _] Hdis [F1 F2 F3 F4].
  assert (Heq : ∀ k, k ∈ l1 → blocks s' !! k = blocks s !! k).
  { intros k Hk. apply G6; [set_solver|]. by apply (chain_fresh s (rd_first_block d') l1). }
  split; cbn; [by rewrite lookup_insert_ne|by eapply blocks_chain_ext|done|by rewrite (contents_ext _ _ _ Heq)].
Qed.
Lemma file_frame_inv s s' h d p l l' c h' d' l1 : h' ≠ h → files_ok s → dirents s' = dirents s → grown s s' p l l' c →
  (∃ d0, file s h d0 l) → file (set_dirents (<[h := d]> (dirents s)) s') h' d' l1 → file s h' d' l1.
Proof.
  intros Hne [Hf Hok Hdis] Hs HG [d0 Hd0] HF. pose proof HF as [F1 _ _ _]. cbn in F1. rewrite lookup_insert_ne in F1 by done.
  destruct (Hok _ _ F1) as [l2 H2].
  pose proof (file_frame s s' h d p l l' c h' d' l2 Hne Hf HG (Hdis h h' _ _ _ _ (not_eq_sym Hne) Hd0 H2) H2) as H3.
  assert (Hf' : fresh_blocks (set_dirents (<[h:=d]> (dirents s)) s')) by (destruct HG as [_ _ _ _ _ _ _ G8]; exact G8).
  destruct (file_unique _ _ _ _ _ _ Hf' H3 HF) as [_ ->]. done.
Qed.

(** ** Writing *)

Lemma grown_dirents s s2 x p l l' c : grown (set_dirents x s) s2 p l l' c → grown s (set_dirents (dirents s) s2) p l l' c.
Proof. intros [G1 G2 G3 G4 G5 G6 G7 G8]. split; try done. rewrite G1. by destruct s. Qed.
Lemma grown_same_dirents s s' p l l' c : grown s s' p l l' c → dirents s' = dirents s ∧ vvar s' = vvar s ∧
  read_only s' = read_only s ∧ mount s' = mount s.
Proof. intros [G1 _ _ _ _ _ _ _]. rewrite G1. done. Qed.
Lemma grown_first s : fresh_blocks s → grown s (with_new_block s) (next_object s) [] [next_object s] (zrepeat BS 0).
Proof.
  intros Hf. destruct (fresh_new s Hf) as [Hf1 Hn]. split; try done.
  - split; [done|]. exists zero_data. cbn. rewrite lookup_insert_eq. split; [done|]. split; [apply zlen_zero_data|done].
  - unfold contents. cbn. unfold block_data. rewrite lookup_insert_eq. cbn. by rewrite app_nil_r.
  - apply NoDup_singleton.
  - exists [next_object s]. split; [done|]. intros k ->%list_elem_of_singleton. lia.
  - intros k _ Hk. cbn. rewrite lookup_insert_ne; [done|lia].
  - cbn. lia.
Qed.
(** The first block, made if there is none. *)
Definition ensure_first (h : Z) (d : ramfs_dirent_t) : K ramfs unit :=
  if rd_first_block d =? 0 then p ← new_block; update_dirent h (rd_set_first_block p) else mret tt.
Lemma ensure_first_spec s h d l : fresh_blocks s → file s h d l → ∃ s1 l1 k p,
  ensure_first h d s = Done (tt, set_dirents (<[h := rd_set_first_block p d]> (dirents s)) s1) ∧ 0 ≤ k ∧ l1 ≠ [] ∧
  grown s s1 p l l1 (contents (blocks s) l ++ zrepeat k 0).
Proof.
  intros Hf [F1 F2 F3 F4]. unfold ensure_first. destruct (Z.eqb_spec (rd_first_block d) 0) as [E|E].
  - assert (l = []) as ->.
    { destruct l as [|x l]; [done|]. pose proof (chain_fresh s _ (x :: l) x Hf F2 ltac:(set_solver)). destruct F2 as (? & _). lia. }
    rewrite (K_bind_step _ _ _ _ _ (new_block_run s)). rewrite (update_dirent_run _ _ d) by done.
    exists (with_new_block s), [next_object s], BS, (next_object s). pose proof BS_pos.
    split; [done|]. split; [lia|]. split; [done|]. by apply grown_first.
  - exists s, l, 0, (rd_first_block d). change (zrepeat 0 0) with (@nil Z). rewrite app_nil_r.
    assert (rd_set_first_block (rd_first_block d) d = d) as -> by (by destruct d).
    rewrite insert_id by done. split; [by destruct s|]. split; [lia|]. split; [intros ->; done|]. by apply grown_refl.
Qed.
Lemma write_data_spec s h d l off buf : fresh_blocks s → file s h d l → 0 ≤ off →
  ∃ s2 l2 k p, let size := if rd_file_size d <? u64 (off + zlen buf) then u64 (off + zlen buf) else rd_file_size d in
    write_data h buf off s = Done (zlen buf, set_dirents (<[h := rd_set_file_size size
      (rd_set_mtime (get_time (vvar s)) (rd_set_first_block p d))]> (dirents s)) s2) ∧
    0 ≤ k ∧ off + zlen buf ≤ zlen (contents (blocks s) l) + k ∧
    grown s s2 p l l2 (zsplice off buf (contents (blocks s) l ++ zrepeat k 0)).
Proof.
  intros Hf HF Hoff. destruct (ensure_first_spec s h d l Hf HF) as (s1 & l1 & k1 & p & H1 & Hk1 & Hne & HG1).
  pose proof HF as [F1 _ _ _]. unfold write_data. rewrite (K_bind_step _ _ _ _ _ (dirent_run s h d F1)).
  fold (ensure_first h d). rewrite (K_bind_step _ _ _ _ _ H1). set (d1 := rd_set_first_block p d) in *.
  set (x := <[h := d1]> (dirents s)). erewrite K_bind_step; [|apply dirent_run; cbn; apply lookup_insert_eq].
  pose proof HG1 as [_ G2 G3 G4 _ _ G7 G8].
  destruct (write_chain (set_dirents x s1) p l1 off buf G8 G2 Hne G4 Hoff) as (s2 & l2 & k2 & H2 & Hk2 & Hfit & HG2).
  destruct (grown_same_dirents _ _ _ _ _ _ HG1) as (Ed1 & Ev1 & _).
  destruct (grown_same_dirents _ _ _ _ _ _ HG2) as (Ed2 & Ev2 & _). cbn in Ed2, Ev2.
  cbn [blocks set_dirents] in HG2, Hfit. rewrite G3, <-app_assoc, zrepeat_app in HG2 by lia.
  rewrite G3, zlen_app, zlen_zrepeat in Hfit.
  apply grown_dirents in HG2. pose proof (grown_trans _ _ _ _ _ _ _ _ _ G7 HG1 HG2) as HG.
  apply K_bind_Done in H2 as (q & sa & Ha & Hb). change (rd_first_block d1) with p.
  rewrite (K_bind_step _ _ _ _ _ Ha), (K_bind_step _ _ _ _ _ Hb).
  unfold time. rewrite (K_bind_step _ _ s2 (get_time (vvar s)) s2) by (unfold mbind, K_bind, kget; by rewrite Ev2, Ev1).
  erewrite K_bind_step; [|apply (update_dirent_run _ _ d1); rewrite Ed2; apply lookup_insert_eq].
  erewrite K_bind_step; [|apply update_dirent_run; cbn; apply lookup_insert_eq].
  exists (set_dirents (dirents s1) s2), l2, (k1 + k2), p. cbv zeta. split; [|split; [lia|split; [lia|exact HG]]].
  unfold mret, K_ret. do 2 f_equal. cbn. rewrite Ed2. unfold x. rewrite !insert_insert_eq.
  set (n := u64 _). unfold d1. cbn. by destruct (rd_file_size d <? n).
Qed.

(** ** Reading *)

Lemma contents_drop s p l n : chain (blocks s) p l → (n ≤ length l)%nat →
  contents (blocks s) (drop n l) = zdrop (BS * Z.of_nat n) (contents (blocks s) l).
Proof.
  intros Hc Hn. destruct (chain_drop _ _ _ n Hc) as [q Hq].
  assert (zlen (contents (blocks s) (take n l)) = BS * Z.of_nat n) as Hz.
  { pose proof (chain_zlen _ _ _ Hc) as H. rewrite <-(take_drop n l) in H at 1. rewrite contents_app, zlen_app, (chain_zlen _ _ _ Hq) in H.
    unfold zlen in H |- *. rewrite length_drop, Nat2Z.inj_sub, Z.mul_sub_distr_l in H by done. lia. }
  rewrite <-(take_drop n l) at 2. rewrite contents_app, zdrop_app_ge by lia. by rewrite Hz, Z.sub_diag, zdrop_0.
Qed.
Lemma ramfs_read_spec s h d l off n : fresh_blocks s → file s h d l → regular d → 0 ≤ off → 0 ≤ n → off + n < 2 ^ 64 →
  let v := ztake (rd_file_size d) (contents (blocks s) l) in
  ramfs_read h off n s = Done ((zlen (zslice off n v), zslice off n v), s).
Proof.
  intros Hf [F1 F2 F3 F4] (R1 & R2 & R3) Hoff Hn Hb v. unfold ramfs_read. rewrite (K_bind_step _ _ _ _ _ (dirent_run s h d F1)).
  apply Z.eqb_neq in R1, R2, R3. rewrite R1, R2, R3. pose proof BS_pos as HBS.
  destruct (Z.leb_spec (rd_file_size d) off) as [|Hlt].
  - assert (zslice off n v = []) as ->; [|done]. unfold zslice, v. rewrite zdrop_all; [unfold ztake; apply take_nil|]. rewrite zlen_ztake. lia.
  - assert (u64 (off + n) = off + n) as -> by (apply Z.mod_small; lia). set (n' := if _ <? _ then _ else _).
    assert (Hv : zslice off n v = zslice off n' (contents (blocks s) l)) by (apply zslice_ztake; lia).
    assert (Hn' : 0 ≤ n' ∧ off + n' ≤ rd_file_size d) by (unfold n'; destruct (Z.ltb_spec (rd_file_size d) (off + n)); lia).
    pose proof (Z.div_mod off BS ltac:(lia)) as Hdm. pose proof (Z.mod_pos_bound off BS HBS) as Hm.
    pose proof (Z.div_pos off BS Hoff HBS) as Hdp. set (k := Z.to_nat (off / BS)). assert (Hk : BS * Z.of_nat k + off mod BS = off) by (unfold k; lia).
    assert (Hkl : (k ≤ length l)%nat) by (rewrite (chain_zlen _ _ _ F2) in F4; unfold zlen in F4; nia).
    destruct (skip_blocks_spec s k _ _ F2 Hkl) as (q & H1 & Hq). rewrite (K_bind_step _ _ _ _ _ H1).
    erewrite K_bind_step; [|apply (read_blocks_spec s _ q (drop k l))]; try done; try lia.
    + rewrite (contents_drop _ _ _ _ F2 Hkl). unfold mret, K_ret. rewrite Hv.
      assert (zslice (off mod BS) (n' - 0) (zdrop (BS * Z.of_nat k) (contents (blocks s) l)) = zslice off n' (contents (blocks s) l)) as ->.
      { unfold zslice. rewrite zdrop_zdrop by lia. do 2 f_equal; lia. }
      done.
    + intros x Hx. apply (chain_fresh s _ l x Hf F2). rewrite <-(take_drop k l). set_solver.
    + unfold loop_fuel. pose proof (Z.div_pos n' BS ltac:(lia) HBS). rewrite Z2Nat.id by lia.
      pose proof (Z.div_mod n' BS ltac:(lia)). pose proof (Z.mod_pos_bound n' BS HBS). nia.
    + left. rewrite (contents_drop _ _ _ _ F2 Hkl), zlen_zdrop. lia.
Qed.


(** After a write to [h] the files are those of before, but for [h] itself. *)
Lemma written_ok s s2 h d d2 p l l2 c : files_ok s → file s h d l → grown s s2 p l l2 c →
  rd_first_block d2 = p → 0 ≤ rd_file_size d2 ≤ zlen c → let s' := set_dirents (<[h := d2]> (dirents s)) s2 in
  files_ok s' ∧ file s' h d2 l2 ∧ ∀ h' d' l', h' ≠ h → file s h' d' l' → file s' h' d' l'.
Proof.
  intros Hok HF HG Hp Hsz s'. pose proof Hok as [Hf Hfile Hdis]. destruct (grown_same_dirents _ _ _ _ _ _ HG) as (Hd & _).
  pose proof HG as [G1 G2 G3 G4 (new & Hl2 & Hnew) G6 G7 G8].
  assert (HF2 : file s' h d2 l2).
  { split; cbn; [apply lookup_insert_eq|by rewrite Hp|done|by rewrite G3]. }
  assert (Hother : ∀ h' d' l', h' ≠ h → file s h' d' l' → file s' h' d' l').
  { intros h' d' l' Hne HF'. eapply file_frame; [done|done|exact HG| |done]. by eapply (Hdis h h'). }
  assert (Hback : ∀ h' d' l', h' ≠ h → file s' h' d' l' → file s h' d' l').
  { intros h' d' l' Hne HF'. eapply file_frame_inv; [done|done|done|exact HG|by exists d|exact HF']. }
  assert (Hhl : ∀ h' d' l', h' ≠ h → file s' h' d' l' → l2 ## l').
  { intros h' d' l' Hne HF'%Hback; [|done]. intros k Hk Hk'. pose proof (chain_fresh s _ l' k Hf (fi_chain _ _ _ _ HF') Hk') as Hkn.
    rewrite Hl2 in Hk. apply elem_of_app in Hk as [Hk|Hk%Hnew]; [|lia]. by eapply (Hdis h h'); [|exact HF|exact HF'| |]. }
  split; [|done]. split; [exact G8| |].
  - intros h' d' Hd'. cbn in Hd'. destruct (decide (h' = h)) as [->|Hne].
    + rewrite lookup_insert_eq in Hd'. injection Hd' as <-. by exists l2.
    + rewrite lookup_insert_ne in Hd' by done. destruct (Hfile _ _ Hd') as [l' ?]. exists l'. by apply Hother.
  - intros h1 h2 d1 d2' l1 l2' Hne H1 H2. destruct (decide (h1 = h)) as [->|E1]; [|destruct (decide (h2 = h)) as [->|E2]].
    + destruct (file_unique s' _ _ _ _ _ G8 HF2 H1) as [_ ->]. by eapply Hhl.
    + destruct (file_unique s' _ _ _ _ _ G8 HF2 H2) as [_ ->]. intros k Hk1 Hk2. by eapply (Hhl h1).
    + eapply (Hdis h1 h2); [done|by eapply Hback|by eapply Hback].
Qed.
Lemma write_spec s h v off buf : files_ok s → file_bytes s h v → read_only s !! mount s = Some false → 0 ≤ off → off + zlen buf < 2 ^ 64 →
  ∃ s' gap, ramfs_write h buf off s = Done (zlen buf, s') ∧ files_ok s' ∧
    file_bytes s' h (ztake off v ++ gap ++ buf ++ zdrop (off + zlen buf) v) ∧ zlen gap = Z.max 0 (off - zlen v) ∧
    (clean s h → gap = zrepeat (off - zlen v) 0 ∧ clean s' h) ∧
    (∀ h' v', h' ≠ h → file_bytes s h' v' → file_bytes s' h' v').
Proof.
  intros Hok (d & l & HF & (R1 & R2 & R3) & ->) Hro Hoff Hb. pose proof (fo_fresh _ Hok) as Hf.
  pose proof (zlen_nonneg buf) as Hlen. pose proof HF as [F1 F2 F3 F4].
  destruct (write_data_spec s h d l off buf Hf HF Hoff) as (s2 & l2 & k & p & H & Hk & Hfit & HG).
  assert (u64 (off + zlen buf) = off + zlen buf) as Hu by (apply Z.mod_small; lia). rewrite Hu in H.
  set (n := rd_file_size d) in *. set (n' := if n <? off + zlen buf then _ else n) in H. set (c := contents (blocks s) l) in *.
  set (c2 := c ++ zrepeat k 0) in *. assert (Hc2 : zlen c2 = zlen c + k) by (unfold c2; rewrite zlen_app, zlen_zrepeat; lia).
  assert (Hn' : n ≤ n' ≤ zlen c2 ∧ off + zlen buf ≤ n') by (unfold n'; destruct (Z.ltb_spec n (off + zlen buf)); lia).
  set (d2 := rd_set_file_size n' _) in H.
  assert (Hzs : zlen (zsplice off buf c2) = zlen c2) by (apply zlen_zsplice; lia).
  destruct (written_ok s s2 h d d2 p l l2 _ Hok HF HG eq_refl) as (Hok' & HF' & Hother); [rewrite Hzs; cbn; lia|].
  set (s' := set_dirents _ s2) in *. pose proof (gr_contents _ _ _ _ _ _ HG) as Hcont.
  assert (Hn2 : ztake n c2 = ztake n c) by (apply ztake_app_le; lia).
  exists s', (zslice n (off - n) c2). split.
  { unfold ramfs_write. rewrite (K_bind_step _ _ s false s) by (unfold is_read_only, mbind, K_bind, kget; by rewrite Hro).
    rewrite (K_bind_step _ _ _ _ _ (dirent_run s h d F1)). apply Z.eqb_neq in R1, R2, R3. by rewrite R1, R2, R3. }
  split; [exact Hok'|]. split.
  { exists d2, l2. split; [exact HF'|]. split; [by split_and!|]. change (blocks s') with (blocks s2). rewrite Hcont.
    change (rd_file_size d2) with n'. unfold n'. rewrite splice_bytes by lia. by rewrite Hn2. }
  assert (Hzn : zlen (ztake n c) = n) by (rewrite zlen_ztake; lia). rewrite Hzn. split.
  { unfold zslice. rewrite zlen_ztake, zlen_zdrop. lia. }
  split.
  - intros Hcl. destruct (Hcl d l HF) as [k0 Hk0]. fold n in Hk0. fold c in Hk0.
    assert (Hkz : zdrop n c2 = zrepeat (Z.max 0 k0 + k) 0).
    { unfold c2. rewrite zdrop_app_le by lia. rewrite Hk0, <-zrepeat_app by lia. f_equal. unfold zrepeat. f_equal. lia. }
    assert (Hkk : Z.max 0 k0 + k = zlen c2 - n).
    { apply (f_equal zlen) in Hkz. rewrite zlen_zdrop, zlen_zrepeat in Hkz. lia. }
    split.
    + unfold zslice. rewrite Hkz. apply ztake_zrepeat. lia.
    + intros d' l' HF2. destruct (file_unique _ _ _ _ _ _ (fo_fresh _ Hok') HF' HF2) as [-> ->].
      exists (zlen c2 - n'). change (blocks s') with (blocks s2). rewrite Hcont. change (rd_file_size d2) with n'.
      rewrite zdrop_zsplice_after by lia. replace n' with (n + (n' - n)) at 1 by lia. rewrite <-zdrop_zdrop by lia.
      rewrite Hkz, zdrop_zrepeat by lia. f_equal. lia.
  - intros h' v' Hne (d' & l' & HF2 & Hr & ->). exists d', l'. split; [by apply Hother|]. split; [done|].
    f_equal. symmetry. apply contents_ext. intros x Hx. apply (gr_frame _ _ _ _ _ _ HG).
    + intros Hxl. by eapply (fo_disjoint _ Hok h h'); [|exact HF|exact HF2| |].
    + apply (chain_fresh s _ l' x Hf (fi_chain _ _ _ _ HF2) Hx).
Qed.

(** C33: The files of ramfs are arrays of bytes.  When the chains of blocks of the files
    are disjoint, each as long as its file, reading returns the bytes asked for as
    far as the file goes.  On a mount that is not read-only, writing stores the
    bytes at the offset, overwriting or extending the file; a gap up to the offset
    is filled, with zeros if the unused end of the last blocks is zero, which then
    stays so.  All other files keep their bytes, and the chains stay disjoint. *)
Theorem ramfs_files_are_byte_arrays s h v : files_ok s → file_bytes s h v →
  (∀ off n, 0 ≤ off → 0 ≤ n → off + n < 2 ^ 64 →
    ramfs_read h off n s = Done ((zlen (zslice off n v), zslice off n v), s)) ∧
  (∀ off buf, read_only s !! mount s = Some false → 0 ≤ off → off + zlen buf < 2 ^ 64 →
    ∃ s' gap, ramfs_write h buf off s = Done (zlen buf, s') ∧ files_ok s' ∧
      file_bytes s' h (ztake off v ++ gap ++ buf ++ zdrop (off + zlen buf) v) ∧ zlen gap = Z.max 0 (off - zlen v) ∧
      (clean s h → gap = zrepeat (off - zlen v) 0 ∧ clean s' h) ∧
      (∀ h' v', h' ≠ h → file_bytes s h' v' → file_bytes s' h' v')).
Proof.
  intros Hok Hv. split.
  - intros off n Hoff Hn Hb. destruct Hv as (d & l & HF & Hr & ->). by apply ramfs_read_spec; [apply fo_fresh| | | | |].
  - intros off buf. by apply write_spec.
Qed.

(** Without blocks all files are empty. *)
Lemma empty_files_ok s : 0 < next_object s → blocks s = ∅ →
  (∀ h d, dirents s !! h = Some d → rd_first_block d = 0 ∧ rd_file_size d = 0) → files_ok s.
Proof.
  intros Hn Hb Hd. assert (Hl : ∀ h d l, file s h d l → l = []).
  { intros h d [|x l] [_ F2 _ _]; [done|]. destruct F2 as (_ & b & E & _). by rewrite Hb, lookup_empty in E. }
  split.
  - split; [done|]. intros k [b Hk]. by rewrite Hb, lookup_empty in Hk.
  - intros h d E. destruct (Hd h d E) as [E1 E2]. exists []. split; [done|done|constructor|]. rewrite E2. done.
  - intros h h' d d' l l' _ H1%Hl H2%Hl. subst. set_solver.
Qed.
End data.

(** A mount with the empty file "a". *)
Definition one_file : ramfs unit unit :=
  mk_ramfs {[ 1 := rd_set_child 2 (rd_set_type DT_DIR 0 zero_dirent);
              2 := rd_set_links 0 0 1 0 (rd_set_name [97] (rd_set_type DT_FILE 0 zero_dirent)) ]}
    ∅ {[ 1 := false ]} 1 3 (mk_blk [] [] 0 tt) (mk_chr [] tt) (mk_vvar 0 0) 0.
Lemma one_file_ok : files_ok one_file.
Proof.
  apply empty_files_ok; [done|done|]. intros h d H. cbn in H.
  apply lookup_insert_Some in H as [[_ <-]|[_ H]]; [done|]. apply lookup_singleton_Some in H as [_ <-]. done.
Qed.
Lemma one_file_empty : file_bytes one_file 2 [] ∧ clean one_file 2.
Proof.
  assert (HF : file one_file 2 (rd_set_links 0 0 1 0 (rd_set_name [97] (rd_set_type DT_FILE 0 zero_dirent))) []).
  { split; [done|done|constructor|done]. }
  split; [eexists _, []; split; [exact HF|]; by split_and!|].
  intros d l H2. destruct (file_unique one_file 2 _ _ _ _ (fo_fresh _ one_file_ok) HF H2) as [-> ->]. by exists 0.
Qed.
Lemma ramfs_files_are_byte_arrays_witness : ∃ s', ramfs_write 2 [1; 2; 3] 5000 one_file = Done (3, s') ∧
  file_bytes s' 2 (zrepeat 5000 0 ++ [1; 2; 3]).
Proof.
  destruct (ramfs_files_are_byte_arrays one_file 2 [] one_file_ok (proj1 one_file_empty)) as [_ H].
  destruct (H 5000 [1; 2; 3]) as (s' & gap & H1 & _ & H2 & _ & H3 & _); [reflexivity|lia|reflexivity|].
  exists s'. split; [exact H1|]. destruct (H3 (proj2 one_file_empty)) as [-> _]. exact H2.
Defined.

(** A file that is cut to nothing and grows again shows bytes it had before. *)
Lemma truncate_keeps_bytes :
  match (ramfs_write 2 [7] 0;; ramfs_truncate 2 0;; ramfs_truncate 2 1;; ramfs_read 2 0 1) one_file with
  | Done (r, _) => r = (1, [7])
  | _ => False
  end.
Proof. vm_compute. reflexivity. Qed.
