(* ===== verification/RamfsTree.v ===== *)
(** * The directories of ramfs are maps from names to entries

    The list fields of the entries as a map of their own, the doubly linked lists
    of the directories, and what linking and unlinking an entry does to them. *)

From S2P Require Import Prelude Path Vfs.

Record tnode := mk_tnode {
  n_name : list Z;
  n_type : Z;
  n_prev : Z;
  n_next : Z;
  n_parent : Z;
  n_child : Z;
}.
Definition tn_set_prev p n := mk_tnode (n_name n) (n_type n) p (n_next n) (n_parent n) (n_child n).
Definition tn_set_next p n := mk_tnode (n_name n) (n_type n) (n_prev n) p (n_parent n) (n_child n).
Definition tn_set_child p n := mk_tnode (n_name n) (n_type n) (n_prev n) (n_next n) (n_parent n) p.
(** What a list of siblings depends on: all but the type and the children. *)
Definition lnode (n : tnode) : list Z * Z * Z * Z := (n_name n, n_prev n, n_next n, n_parent n).

(** Names as they occur in a path. *)
Definition good (w : list Z) : Prop := w ≠ [] ∧ zlen w < 256 ∧ Forall (λ c, c ≠ 0) w.

Implicit Types (M : gmap Z tnode) (T : gmap Z (gmap (list Z) Z)).

(** The entries of directory [p] from pointer [c] on up to pointer [c']; [a] and [a']
    are the entries before. *)
Fixpoint seg M (p a c : Z) (l : list Z) (a' c' : Z) : Prop :=
  match l with
  | [] => a = a' ∧ c = c'
  | q :: l => c = q ∧ q ≠ 0 ∧ q ≠ p ∧ ∃ n, M !! q = Some n ∧ n_prev n = a ∧ n_parent n = p ∧ good (n_name n) ∧
      seg M p q (n_next n) l a' c'
  end.
Definition name_of M (q : Z) : list Z := default [] (n_name <$> M !! q).
Definition dir M (p : Z) (m : gmap (list Z) Z) : Prop := ∃ n l e, M !! p = Some n ∧ n_type n = DT_DIR ∧
  seg M p 0 (n_child n) l e 0 ∧ NoDup (name_of M <$> l) ∧ m = list_to_map (zip (name_of M <$> l) l).

Record tree M T (root next : Z) : Prop := {
  tr_dir : ∀ p m, T !! p = Some m → dir M p m;
  tr_child : ∀ p m w q, T !! p = Some m → m !! w = Some q →
    ∃ n, M !! q = Some n ∧ n_name n = w ∧ n_parent n = p ∧ q ≠ p ∧ (n_type n = DT_DIR ↔ is_Some (T !! q));
  tr_root : is_Some (T !! root);
  tr_top : ∀ n, M !! root = Some n → n_parent n = 0;
  tr_next : 0 < next;
  tr_keys : ∀ p, is_Some (M !! p) → 0 < p < next;
}.

(** ** Segments *)

Lemma seg_app M p l1 : ∀ a c l2 a' c', seg M p a c (l1 ++ l2) a' c' ↔
  ∃ b d, seg M p a c l1 b d ∧ seg M p b d l2 a' c'.
Proof.
  induction l1 as [|q l1 IH]; intros a c l2 a' c'; cbn [app seg].
  - split; [intros H; by exists a, c|]. intros (b & d & [-> ->] & H). done.
  - split.
    + intros (-> & H0 & Hp & n & Hn & Ha & Hpa & Hg & H). apply IH in H as (b & d & H1 & H2).
      exists b, d. split; [|done]. split_and!; try done. by exists n.
    + intros (b & d & (-> & H0 & Hp & n & Hn & Ha & Hpa & Hg & H1) & H2). split_and!; try done.
      exists n. split_and!; try done. apply IH. by exists b, d.
Qed.
Lemma seg_elem M p l : ∀ a c a' c' q, seg M p a c l a' c' → q ∈ l →
  q ≠ 0 ∧ q ≠ p ∧ ∃ n, M !! q = Some n ∧ n_parent n = p ∧ good (n_name n).
Proof.
  induction l as [|x l IH]; intros a c a' c' q; [set_solver|].
  intros (-> & H0 & Hp & n & Hn & Ha & Hpa & Hg & H) [->|Hq]%elem_of_cons; [|by eapply IH].
  split_and!; try done. by exists n.
Qed.
Lemma seg_ext M M' p l : ∀ a c a' c', (∀ q, q ∈ l → lnode <$> M' !! q = lnode <$> M !! q) →
  seg M p a c l a' c' → seg M' p a c l a' c'.
Proof.
  induction l as [|q l IH]; intros a c a' c' He; [done|].
  intros (-> & H0 & Hp & n & Hn & Ha & Hpa & Hg & H). split_and!; try done.
  pose proof (He q ltac:(set_solver)) as Hq. rewrite Hn in Hq. destruct (M' !! q) as [n'|]; [|done].
  unfold lnode in Hq. cbn in Hq. injection Hq as E1 E2 E3 E4. exists n'. split_and!; [done|congruence|congruence|by rewrite E1|].
  rewrite E3. apply IH; [set_solver|done].
Qed.
(** Where a segment ends depends on its last entry alone. *)
Lemma seg_last M p l : ∀ a c a' c', seg M p a c l a' c' → l ≠ [] → last l = Some a'.
Proof.
  induction l as [|q l IH]; intros a c a' c' H Hne; [done|]. destruct H as (-> & _ & _ & n & _ & _ & _ & _ & H).
  destruct l as [|x l]; [by destruct H as [-> _]|]. rewrite last_cons_cons. by eapply IH.
Qed.
Lemma seg_head M p l a c a' : seg M p a c l a' 0 → c = default 0 (head l).
Proof. destruct l as [|q l]; [by intros [_ ->]|by intros (-> & _)]. Qed.
(** A new last pointer. *)
Lemma seg_end M p q n c' l : ∀ a c, seg M p a c (l ++ [q]) q c' → NoDup (l ++ [q]) → M !! q = Some n →
  ∀ x M', (∀ y, y ∈ l → lnode <$> M' !! y = lnode <$> M !! y) → lnode <$> M' !! q = Some (lnode (tn_set_next x n)) →
  seg M' p a c (l ++ [q]) q x.
Proof.
  intros a c H Hd Hn x M' He Hq. apply seg_app in H as (b & d & H1 & H2). apply seg_app. exists b, d.
  split; [by eapply seg_ext|]. destruct H2 as (-> & H0 & Hp & n' & Hn' & Ha & Hpa & Hg & H2).
  assert (n' = n) as -> by congruence. split_and!; try done.
  destruct (M' !! q) as [n1|]; [|done]. unfold lnode in Hq. cbn in Hq. injection Hq as E1 E2 E3 E4.
  exists n1. split_and!; [done|congruence|congruence|by rewrite E1|]. cbn. by rewrite E3.
Qed.
(** A new entry before the first. *)
Lemma seg_begin M p l a c e : seg M p a c l e 0 → ∀ b M', (∀ y, y ∈ tail l → lnode <$> M' !! y = lnode <$> M !! y) →
  (∀ q n, head l = Some q → M !! q = Some n → lnode <$> M' !! q = Some (lnode (tn_set_prev b n))) →
  ∃ e', seg M' p b c l e' 0.
Proof.
  destruct l as [|q l]; intros H b M' He Hq; [destruct H as [_ ->]; by exists b|].
  destruct H as (-> & H0 & Hp & n & Hn & Ha & Hpa & Hg & H). specialize (Hq q n eq_refl Hn).
  destruct (M' !! q) as [n1|] eqn:E; [|done]. unfold lnode in Hq. cbn in Hq. injection Hq as E1 E2 E3 E4.
  exists e. split_and!; try done. exists n1. split_and!; [done|congruence|congruence|by rewrite E1|].
  rewrite E3. by eapply seg_ext.
Qed.
Lemma names_ext M M' (l : list Z) : (∀ q, q ∈ l → lnode <$> M' !! q = lnode <$> M !! q) → name_of M' <$> l = name_of M <$> l.
Proof.
  intros He. apply list_fmap_ext. intros i q Hq%list_elem_of_lookup_2. specialize (He q Hq). unfold name_of.
  destruct (M' !! q), (M !! q); try done. unfold lnode in He. cbn in He |- *. by injection He as ->.
Qed.
(** A directory none of whose entries changes. *)
Lemma dir_ext M M' p m : (∀ q, (∃ n, M !! q = Some n ∧ n_parent n = p) → lnode <$> M' !! q = lnode <$> M !! q) →
  (∀ n, M !! p = Some n → ∃ n', M' !! p = Some n' ∧ n_type n' = n_type n ∧ n_child n' = n_child n) → dir M p m → dir M' p m.
Proof.
  intros He Hp (n & l & e & Hn & Ht & Hs & Hd & ->). destruct (Hp n Hn) as (n' & Hn' & Ht' & Hc').
  assert (Hl : ∀ q, q ∈ l → lnode <$> M' !! q = lnode <$> M !! q).
  { intros q Hq. destruct (seg_elem _ _ _ _ _ _ _ _ Hs Hq) as (_ & _ & nq & Eq & Epa & _). apply He. by exists nq. }
  exists n', l, e. rewrite (names_ext _ _ _ Hl), Hc'. split_and!; [done|congruence|by eapply seg_ext|done|done].
Qed.

(** Entries that are in no directory do no harm. *)
Lemma tree_extra M T root next p n next' : tree M T root next → M !! p = None → 0 < p < next' → next ≤ next' →
  tree (<[p := n]> M) T root next'.
Proof.
  intros [R1 R2 R3 R4 R5 R6] Hp Hn Hn'. assert (HT : ∀ q mq, T !! q = Some mq → q ≠ p).
  { intros q mq Hq ->. destruct (R1 _ _ Hq) as (? & _ & _ & E & _). congruence. }
  split; [| |done| |lia|].
  - intros q mq Hq. pose proof (HT _ _ Hq). apply (dir_ext M); [| |by apply R1].
    + intros x (nx & Hx & _). rewrite lookup_insert_ne; [done|congruence].
    + intros nq Hnq. exists nq. by rewrite lookup_insert_ne.
  - intros q mq w x Hq Hx. destruct (R2 _ _ _ _ Hq Hx) as (nx & E & H). exists nx.
    rewrite lookup_insert_ne; [done|congruence].
  - destruct R3 as [mr Hr]. intros nr. rewrite lookup_insert_ne; [apply R4|]. intros ->. by eapply HT.
  - intros q [<-|[_ ?]]%lookup_insert_is_Some; [lia|]. pose proof (R6 q ltac:(done)). lia.
Qed.

(** ** A new entry at the head of a directory *)

Definition link M (dirp p : Z) (w : list Z) (ty : Z) : gmap Z tnode :=
  let h := default 0 (n_child <$> M !! dirp) in
  <[p := mk_tnode w ty 0 h dirp 0]> (alter (tn_set_prev p) h (alter (tn_set_child p) dirp M)).
Definition link_names T (dirp p : Z) (w : list Z) (ty : Z) : gmap Z (gmap (list Z) Z) :=
  let T' := <[dirp := <[w := p]> (default ∅ (T !! dirp))]> T in
  if ty =? DT_DIR then <[p := ∅]> T' else T'.

Lemma lookup_zip_names M (l : list Z) w q : NoDup (name_of M <$> l) →
  (list_to_map (zip (name_of M <$> l) l) : gmap (list Z) Z) !! w = Some q ↔ q ∈ l ∧ name_of M q = w.
Proof.
  intros Hd. rewrite <-elem_of_list_to_map by (rewrite fst_zip; [done|by rewrite length_fmap]).
  rewrite list_elem_of_lookup. setoid_rewrite lookup_zip_Some. setoid_rewrite list_lookup_fmap. split.
  - intros (i & H1 & H2). cbn in H1, H2. rewrite H2 in H1. cbn in H1. split; [by eapply list_elem_of_lookup_2|congruence].
  - intros [(i & Hi)%list_elem_of_lookup <-]. exists i. cbn. by rewrite Hi.
Qed.
Lemma dir_lookup M p m w q : dir M p m → m !! w = Some q → ∃ n, M !! q = Some n ∧ n_name n = w ∧ n_parent n = p ∧ q ≠ 0 ∧ q ≠ p ∧ good w.
Proof.
  intros (n & l & e & Hn & Ht & Hs & Hd & ->) [Hq Hw]%lookup_zip_names; [|done].
  destruct (seg_elem _ _ _ _ _ _ _ _ Hs Hq) as (H0 & Hp & nq & Eq & Epa & Hg). exists nq. unfold name_of in Hw. rewrite Eq in Hw. cbn in Hw.
  subst w. done.
Qed.

Section link.
Context M T root next (HT : tree M T root next) (dirp : Z) (m : gmap (list Z) Z) (Hm : T !! dirp = Some m).
Context (w : list Z) (Hw : m !! w = None) (Hg : good w) (ty : Z).
Context (k next' : Z) (Hk : M !! k = None) (Hk' : 0 < k < next') (Hle : next ≤ next').
#[local] Notation M' := (link M dirp k w ty).

Lemma link_null : M !! 0 = None.
Proof using HT Hk. destruct (M !! 0) eqn:E; [|done]. pose proof (tr_keys _ _ _ _ HT 0 ltac:(by eexists)). lia. Qed.
Lemma link_dirs p : is_Some (T !! p) → p ≠ k ∧ is_Some (M !! p).
Proof using HT Hk.
  intros [mp Hp]. destruct (tr_dir _ _ _ _ HT _ _ Hp) as (n & _ & _ & Hn & _). split; [|by eexists].
  intros ->. by rewrite Hk in Hn.
Qed.
(** Entries outside the directory keep their list fields. *)
Lemma link_other q n : M !! q = Some n → n_parent n ≠ dirp → lnode <$> M' !! q = lnode <$> M !! q.
Proof using HT Hm Hk.
  intros Hn Hp. unfold link. destruct (tr_dir _ _ _ _ HT _ _ Hm) as (nd & l & e & Hnd & _ & Hs & _). rewrite Hnd. cbn.
  assert (q ≠ k) by (intros ->; by rewrite Hk in Hn). rewrite lookup_insert_ne by done.
  assert (q ≠ n_child nd).
  { intros ->. destruct l as [|x l]; [destruct Hs as [_ E]; rewrite E, link_null in Hn; done|].
    destruct Hs as (E & _ & _ & nx & Hnx & _ & Hpx & _). rewrite E in Hn. congruence. }
  rewrite lookup_alter_ne by done. destruct (decide (q = dirp)) as [->|]; [|by rewrite lookup_alter_ne].
  rewrite lookup_alter_eq, Hn. done.
Qed.
Lemma link_node q n : M !! q = Some n → ∃ n', M' !! q = Some n' ∧ n_name n' = n_name n ∧ n_type n' = n_type n ∧ n_parent n' = n_parent n ∧
  (q ≠ dirp → n_child n' = n_child n).
Proof using HT Hk.
  intros Hn. unfold link. assert (q ≠ k) by (intros ->; by rewrite Hk in Hn). rewrite lookup_insert_ne by done.
  generalize (default 0 (n_child <$> M !! dirp)). intros h.
  assert (∃ n1, alter (tn_set_child k) dirp M !! q = Some n1 ∧ n_name n1 = n_name n ∧ n_type n1 = n_type n ∧
    n_parent n1 = n_parent n ∧ (q ≠ dirp → n_child n1 = n_child n)) as (n1 & E1 & H1).
  { destruct (decide (q = dirp)) as [->|]; [rewrite lookup_alter_eq|rewrite lookup_alter_ne by done]; rewrite Hn; by eexists. }
  destruct (decide (q = h)) as [->|]; [rewrite lookup_alter_eq|rewrite lookup_alter_ne by done]; rewrite E1; by eexists.
Qed.
Lemma link_dir : dir M' dirp (<[w := k]> m).
Proof using All.
  destruct (tr_dir _ _ _ _ HT _ _ Hm) as (nd & l & e & Hnd & Ht & Hs & Hd & Em).
  destruct (link_dirs dirp ltac:(by eexists)) as [Hne _]. 
  assert (HM : M' = <[k := mk_tnode w ty 0 (n_child nd) dirp 0]> (alter (tn_set_prev k) (n_child nd) (alter (tn_set_child k) dirp M)))
    by (unfold link; by rewrite Hnd).
  assert (Hl : ∀ q, q ∈ l → q ≠ k ∧ q ≠ dirp ∧ q ≠ 0).
  { intros q Hq. destruct (seg_elem _ _ _ _ _ _ _ _ Hs Hq) as (H0 & Hp & nq & Eq & _). split_and!; try done. intros ->. congruence. }
  pose proof (seg_head _ _ _ _ _ _ Hs) as Hh.
  assert (Hhd : n_child nd ≠ dirp).
  { rewrite Hh. destruct l as [|x l]; cbn; [|by apply Hl; left]. intros E. rewrite <-E in Hnd. by rewrite link_null in Hnd. }
  assert (Hndl : NoDup l) by (by eapply NoDup_fmap_1).
  assert (Htail : ∀ y, y ∈ tail l → lnode <$> M' !! y = lnode <$> M !! y).
  { intros y Hy. destruct l as [|x l]; [by apply elem_of_nil in Hy|]. cbn in Hy, Hh. destruct (Hl y ltac:(set_solver)) as (? & ? & ?).
    rewrite HM, lookup_insert_ne by done. rewrite lookup_alter_ne, lookup_alter_ne; [done|done|].
    rewrite Hh. intros ->. by apply NoDup_cons in Hndl as [? _]. }
  assert (Hhead : ∀ q n, head l = Some q → M !! q = Some n → M' !! q = Some (tn_set_prev k n)).
  { intros q n Hq Hn. destruct l as [|x l]; [done|]. injection Hq as ->. cbn in Hh. destruct (Hl q ltac:(set_solver)) as (? & ? & ?).
    rewrite HM, lookup_insert_ne, Hh, lookup_alter_eq, lookup_alter_ne, Hn by done. done. }
  destruct (seg_begin _ _ _ _ _ _ Hs k M' Htail) as [e' Hs'].
  { intros q n Hq Hn. by rewrite (Hhead q n Hq Hn). }
  assert (Hnames : name_of M' <$> l = name_of M <$> l).
  { apply list_fmap_ext. intros i q Hq%list_elem_of_lookup_2. destruct (seg_elem _ _ _ _ _ _ _ _ Hs Hq) as (_ & _ & nq & Eq & _).
    destruct (link_node q nq Eq) as (n' & En' & E & _). unfold name_of. rewrite Eq, En'. cbn. congruence. }
  assert (Hself : M' !! k = Some (mk_tnode w ty 0 (n_child nd) dirp 0)) by (rewrite HM; apply lookup_insert_eq).
  assert (Hnext : name_of M' k = w) by (unfold name_of; by rewrite Hself).
  exists (tn_set_child k nd), (k :: l), e'. split_and!; try done.
  - rewrite HM, lookup_insert_ne, lookup_alter_ne, lookup_alter_eq, Hnd by done. done.
  - cbn [seg n_child tn_set_child]. split_and!; [done| |done|].
    + lia.
    + eexists. split; [exact Hself|]. split_and!; try done.
  - rewrite fmap_cons, Hnames, Hnext. apply NoDup_cons. split; [|done].
    intros (q & Hq & Hin)%list_elem_of_fmap. assert (m !! w = Some q) as E by (rewrite Em; by apply lookup_zip_names). congruence.
  - rewrite fmap_cons, Hnames, Hnext, Em. done.
Qed.

Lemma link_names_dom q : q ≠ k → is_Some (link_names T dirp k w ty !! q) ↔ is_Some (T !! q).
Proof using HT Hm Hk.
  intros Hq. unfold link_names. destruct (ty =? DT_DIR); [rewrite lookup_insert_ne by done|];
    (destruct (decide (q = dirp)) as [->|]; [rewrite lookup_insert_eq, Hm; split; by eexists|by rewrite lookup_insert_ne]).
Qed.
Lemma link_names_lookup p mp : link_names T dirp k w ty !! p = Some mp →
  (ty = DT_DIR ∧ p = k ∧ mp = ∅) ∨ (p ≠ k ∧ p = dirp ∧ mp = <[w := k]> m) ∨ (p ≠ k ∧ p ≠ dirp ∧ T !! p = Some mp).
Proof using HT Hm Hk.
  intros H. unfold link_names in H. rewrite Hm in H. cbn [default from_option id] in H.
  destruct (link_dirs dirp ltac:(by eexists)) as [Hd _].
  assert (H2 : <[dirp := <[w := k]> m]> T !! p = Some mp →
    (p ≠ k ∧ p = dirp ∧ mp = <[w := k]> m) ∨ (p ≠ k ∧ p ≠ dirp ∧ T !! p = Some mp)).
  { intros [[<- <-]|[Hne Hp]]%lookup_insert_Some; [by left|]. right. split; [|done]. by apply (link_dirs p ltac:(by eexists)). }
  destruct (Z.eqb_spec ty DT_DIR) as [E|E]; [|right; by apply H2].
  apply lookup_insert_Some in H as [[<- <-]|[Hne H]]; [by left|right; by apply H2].
Qed.
Lemma tree_link : tree M' (link_names T dirp k w ty) root next'.
Proof using All.
  destruct (link_dirs dirp ltac:(by eexists)) as [Hdn [nd Hnd]].
  assert (Hself : ∃ h, M' !! k = Some (mk_tnode w ty 0 h dirp 0)) by (eexists; apply lookup_insert_eq).
  assert (Hold : ∀ p mp w' q, T !! p = Some mp → mp !! w' = Some q → ∃ n, M' !! q = Some n ∧ n_name n = w' ∧ n_parent n = p ∧ q ≠ p ∧
    (n_type n = DT_DIR ↔ is_Some (link_names T dirp k w ty !! q))).
  { intros p mp w' q Hp Hq. destruct (tr_child _ _ _ _ HT _ _ _ _ Hp Hq) as (n & Hn & E1 & E2 & Hqp & Ht).
    assert (q ≠ k) by (intros ->; rewrite Hk in Hn; done).
    destruct (link_node q n Hn) as (n' & Hn' & F1 & F2 & F3 & _). exists n'. rewrite link_names_dom by done.
    split_and!; [done|congruence|congruence|done|by rewrite F2]. }
  split.
  - intros p mp [(E & -> & ->)|[(Hn & -> & ->)|(Hn & Hd & Hp)]]%link_names_lookup.
    + destruct Hself as [h Hh]. exists (mk_tnode w ty 0 h dirp 0), [], 0. split_and!; [done|done|by split|constructor|done].
    + apply link_dir.
    + apply (dir_ext M); [|intros n Hn'; destruct (link_node p n Hn') as (n' & ? & ? & ? & ? & Hc); exists n'; by rewrite Hc|by apply (tr_dir _ _ _ _ HT)].
      intros q (n & Hq & Hpa). apply (link_other q n); [done|congruence].
  - intros p mp w' q [(E & -> & ->)|[(Hn & -> & ->)|(Hn & Hd & Hp)]]%link_names_lookup Hq.
    + by rewrite lookup_empty in Hq.
    + apply lookup_insert_Some in Hq as [[<- <-]|[Hne Hq]]; [|by eapply Hold].
      destruct Hself as [h Hh]. eexists. split; [exact Hh|]. split_and!; [done|done|done|split].
      * cbn. intros E. unfold link_names. rewrite E, Z.eqb_refl, lookup_insert_eq. by eexists.
      * cbn. unfold link_names. destruct (Z.eqb_spec ty DT_DIR); [done|]. rewrite lookup_insert_ne by done.
        intros Hi%link_dirs. by destruct Hi.
    + by eapply Hold.
  - destruct (tr_root _ _ _ _ HT) as [mr Hr]. destruct (link_dirs root ltac:(by eexists)) as [? _]. apply link_names_dom; [done|by eexists].
  - intros n' Hn'. destruct (tr_root _ _ _ _ HT) as [mr Hr]. destruct (link_dirs root ltac:(by eexists)) as [_ [n Hn]].
    destruct (link_node root n Hn) as (n1 & E1 & _ & _ & E2 & _). assert (n' = n1) as -> by congruence.
    rewrite E2. by apply (tr_top _ _ _ _ HT).
  - lia.
  - intros q Hq. destruct (decide (q = k)) as [->|Hne]; [lia|].
    unfold link in Hq. rewrite lookup_insert_ne, !lookup_alter_is_Some in Hq by done. apply (tr_keys _ _ _ _ HT) in Hq. lia.
Qed.
End link.

(** ** An entry is taken out of its directory *)

Definition unlink M (p : Z) (n : tnode) : gmap Z tnode :=
  alter (tn_set_prev (n_prev n)) (n_next n)
    (alter (λ d, if n_child d =? p then tn_set_child (n_next n) d else d) (n_parent n)
      (alter (tn_set_next (n_next n)) (n_prev n) M)).

Lemma alter_at {A} (f : A → A) (m : gmap Z A) i j x : m !! j = Some x → alter f i m !! j = Some (if decide (j = i) then f x else x).
Proof. intros H. rewrite lookup_alter. repeat case_decide; simplify_eq; by rewrite ?H. Qed.

Section unlink.
Context M T root next (HT : tree M T root next) (dirp : Z) (m : gmap (list Z) Z) (Hm : T !! dirp = Some m).
Context (w : list Z) (p : Z) (Hw : m !! w = Some p) (n : tnode) (Hn : M !! p = Some n).
#[local] Notation M' := (delete p (unlink M p n)).

Lemma unlink_parent : n_parent n = dirp ∧ n_name n = w ∧ p ≠ dirp ∧ 0 < dirp.
Proof using All.
  destruct (tr_child _ _ _ _ HT _ _ _ _ Hm Hw) as (n' & Hn' & E1 & E2 & Hne & _). assert (n' = n) as -> by congruence.
  split_and!; try done. destruct (tr_dir _ _ _ _ HT _ _ Hm) as (nd & _ & _ & Hnd & _).
  pose proof (tr_keys _ _ _ _ HT dirp ltac:(by eexists)). lia.
Qed.
Lemma unlink_lookup q nq : M !! q = Some nq → q ≠ p → ∃ n', M' !! q = Some n' ∧ n_name n' = n_name nq ∧
  n_type n' = n_type nq ∧ n_parent n' = n_parent nq ∧
  n_next n' = (if decide (q = n_prev n) then n_next n else n_next nq) ∧
  n_prev n' = (if decide (q = n_next n) then n_prev n else n_prev nq) ∧
  n_child n' = (if decide (q = n_parent n ∧ n_child nq = p) then n_next n else n_child nq).
Proof using.
  intros Hq Hne. rewrite lookup_delete_ne by done. unfold unlink.
  eexists. split; [exact (alter_at _ _ _ _ _ (alter_at _ _ _ _ _ (alter_at _ _ _ _ _ Hq)))|].
  destruct (decide (q = n_next n)), (decide (q = n_parent n)), (decide (q = n_prev n)); cbn;
    try destruct (Z.eqb_spec (n_child nq) p); cbn; repeat case_decide; split_and!; (done || tauto).
Qed.
(** Entries of other directories keep their list fields. *)
Lemma unlink_null : M !! 0 = None.
Proof using HT. destruct (M !! 0) eqn:E; [|done]. pose proof (tr_keys _ _ _ _ HT 0 ltac:(by eexists)). lia. Qed.
(** The list of the directory around the entry. *)
Lemma unlink_split : ∃ nd l1 l2 e, M !! dirp = Some nd ∧ n_type nd = DT_DIR ∧
  seg M dirp 0 (n_child nd) l1 (n_prev n) p ∧ seg M dirp p (n_next n) l2 e 0 ∧
  NoDup (name_of M <$> (l1 ++ p :: l2)) ∧ m = list_to_map (zip (name_of M <$> (l1 ++ p :: l2)) (l1 ++ p :: l2)).
Proof using All.
  destruct (tr_dir _ _ _ _ HT _ _ Hm) as (nd & l & e & Hnd & Ht & Hs & Hd & Em).
  assert (p ∈ l) as (l1 & l2 & ->)%list_elem_of_split by (rewrite Em in Hw; apply lookup_zip_names in Hw as [? _]; done).
  pose proof Hs as (a & c & H1 & H2)%seg_app. destruct H2 as (-> & _ & _ & n' & Hn' & <- & _ & _ & H2).
  assert (n' = n) as -> by congruence. by exists nd, l1, l2, e.
Qed.
Lemma seg_prev_in q a l c : seg M dirp 0 c l q a → q = 0 ∨ q ∈ l.
Proof using.
  intros Hs. destruct l as [|x l]; [destruct Hs as [<- _]; by left|]. right.
  apply last_Some_elem_of. by eapply seg_last.
Qed.
Lemma unlink_other q nq : M !! q = Some nq → n_parent nq ≠ dirp → lnode <$> M' !! q = lnode <$> M !! q.
Proof using All.
  intros Hq Hpa. destruct unlink_parent as (Hpn & _). assert (q ≠ p) by (intros ->; congruence).
  destruct unlink_split as (nd & l1 & l2 & e & Hnd & _ & H1 & H2 & _).
  destruct (unlink_lookup q nq Hq ltac:(done)) as (n' & Hn' & E1 & _ & E3 & E4 & E5 & _). rewrite Hn', Hq. cbn. unfold lnode.
  assert (q ≠ n_prev n).
  { intros E. destruct (seg_prev_in _ _ _ _ H1) as [E0|Hin]; [rewrite E, E0, unlink_null in Hq; done|].
    destruct (seg_elem _ _ _ _ _ _ _ _ H1 Hin) as (_ & _ & nx & Ex & Epx & _). congruence. }
  assert (q ≠ n_next n).
  { intros E. pose proof (seg_head _ _ _ _ _ _ H2) as Eh. destruct l2 as [|x l2]; cbn in Eh; [rewrite E, Eh, unlink_null in Hq; done|].
    destruct (seg_elem _ _ _ _ _ _ _ x H2 ltac:(set_solver)) as (_ & _ & nx & Ex & Epx & _). congruence. }
  rewrite E1, E3, E4, E5. by repeat case_decide.
Qed.
Lemma unlink_same q nq : M !! q = Some nq → q ≠ p → q ≠ n_prev n → q ≠ n_next n → lnode <$> M' !! q = lnode <$> M !! q.
Proof using.
  intros Hq Hp H1 H2. destruct (unlink_lookup q nq Hq Hp) as (n' & Hn' & E1 & _ & E3 & E4 & E5 & _). rewrite Hn', Hq. cbn. unfold lnode.
  rewrite E1, E3, E4, E5. by repeat case_decide.
Qed.
Lemma unlink_segs l1 l2 e nd : M !! dirp = Some nd → seg M dirp 0 (n_child nd) l1 (n_prev n) p → seg M dirp p (n_next n) l2 e 0 →
  NoDup (l1 ++ p :: l2) → ∃ nd' e', M' !! dirp = Some nd' ∧ n_type nd' = n_type nd ∧ seg M' dirp 0 (n_child nd') (l1 ++ l2) e' 0.
Proof using All.
  intros Hnd H1 H2 Hd. destruct unlink_parent as (Hpn & _ & Hpd & _). pose proof (seg_head _ _ _ _ _ _ H2) as Hh.
  apply NoDup_app in Hd as (Hd1 & Hdis & [Hp2 Hd2]%NoDup_cons).
  assert (Hp1 : p ∉ l1) by (intros Hin; apply (Hdis p Hin); set_solver).
  assert (Hnx : ∀ q, q ∈ l1 → q ≠ n_next n).
  { intros q Hq E. destruct l2 as [|x l2]; cbn in Hh; [|apply (Hdis q Hq); rewrite E, Hh; set_solver].
    destruct (seg_elem _ _ _ _ _ _ _ _ H1 Hq) as (H0 & _). congruence. }
  assert (Hpv : ∀ q, q ∈ l2 → q ≠ n_prev n).
  { intros q Hq E. destruct (seg_prev_in _ _ _ _ H1) as [E0|Hin]; [|apply (Hdis _ Hin); rewrite <-E; set_solver].
    destruct (seg_elem _ _ _ _ _ _ _ _ H2 Hq) as (H0 & _). congruence. }
  destruct (unlink_lookup dirp nd Hnd ltac:(done)) as (nd' & Hnd' & _ & Ht & _ & _ & _ & Hc). rewrite Hpn in Hc.
  destruct (seg_begin _ _ _ _ _ _ H2 (n_prev n) M') as [e' H2'].
  { intros y Hy. assert (y ∈ l2) as Hy2 by (destruct l2; [done|by right]). destruct (seg_elem _ _ _ _ _ _ _ _ H2 Hy2) as (_ & _ & ny & Ey & _).
    apply (unlink_same y ny); [done|set_solver|by apply Hpv|]. destruct l2 as [|x l2]; [by apply elem_of_nil in Hy|]. cbn in Hh, Hy.
    rewrite Hh. intros ->. by apply NoDup_cons in Hd2 as [? _]. }
  { intros q nq Hq Hnq. assert (q ∈ l2) as Hq2 by (destruct l2; [done|injection Hq as ->; by left]).
    assert (q = n_next n) as Eq by (rewrite Hh; by rewrite Hq).
    destruct (unlink_lookup q nq Hnq ltac:(intros ->; done)) as (n' & Hn' & E1 & _ & E3 & E4 & E5 & _). rewrite Hn'. cbn. unfold lnode. cbn.
    rewrite E1, E3, E4, E5. rewrite decide_True by done. rewrite decide_False by (by apply Hpv). done. }
  exists nd', e'. split; [done|]. split; [done|]. apply seg_app. exists (n_prev n), (n_next n). split; [|exact H2'].
  destruct l1 as [|x l1' _] using rev_ind.
  - destruct H1 as [E1 E2]. rewrite Hc, decide_True by done. by split.
  - assert (n_prev n = x) as Ex.
    { apply (seg_last _ _ _ _ _ _ _) in H1; [|by destruct l1']. rewrite last_snoc in H1. congruence. }
    rewrite Hc, decide_False.
    2:{ intros [_ E]. pose proof H1 as H1c. destruct (l1' ++ [x]) as [|y l] eqn:El; [by destruct l1'|].
        destruct H1c as (Ey & _). apply Hp1. rewrite <-E, Ey. set_solver. }
    rewrite Ex in *. destruct (seg_elem _ _ _ _ _ _ _ x H1 ltac:(set_solver)) as (Hx0 & Hxd & nx & Enx & _).
    assert (Hseg : seg M dirp 0 (n_child nd) (l1' ++ [x]) x p) by exact H1. clear H1.
    assert (Hsp : ∃ b d, seg M dirp 0 (n_child nd) l1' b d ∧ seg M dirp b d [x] x p) by (by apply seg_app).
    apply (seg_end M dirp x nx p l1' 0 (n_child nd) Hseg Hd1 Enx).
    + intros y Hy. destruct (seg_elem _ _ _ _ _ _ _ y Hseg ltac:(set_solver)) as (_ & _ & ny & Ey & _).
      apply (unlink_same y ny); [done|set_solver| |apply Hnx; set_solver]. rewrite Ex. intros ->.
      apply NoDup_app in Hd1 as (_ & Hd1 & _). apply (Hd1 x Hy). set_solver.
    + destruct (unlink_lookup x nx Enx ltac:(set_solver)) as (n' & Hn' & E1 & _ & E3 & E4 & E5 & _). rewrite Hn'. cbn. unfold lnode. cbn.
      rewrite E1, E3, E4, E5. rewrite decide_False by (apply Hnx; set_solver). rewrite decide_True by done. done.
Qed.
Lemma unlink_name q nq : M !! q = Some nq → q ≠ p → name_of M' q = name_of M q.
Proof using.
  intros Hq Hne. destruct (unlink_lookup q nq Hq Hne) as (n' & Hn' & E & _). unfold name_of. rewrite Hn', Hq. cbn. congruence.
Qed.
Lemma unlink_dir : dir M' dirp (delete w m).
Proof using All.
  destruct unlink_split as (nd & l1 & l2 & e & Hnd & Hty & H1 & H2 & Hdn & Em). destruct unlink_parent as (Hpn & Hnw & Hpd & _).
  assert (Hd : NoDup (l1 ++ p :: l2)) by (by eapply NoDup_fmap_1).
  destruct (unlink_segs l1 l2 e nd Hnd H1 H2 Hd) as (nd' & e' & Hnd' & Hty' & Hs').
  assert (Hp : p ∉ l1 ++ l2).
  { apply NoDup_app in Hd as (_ & Hdis & [Hp2 _]%NoDup_cons). intros [Hp1|?]%elem_of_app; [|done]. apply (Hdis p Hp1). set_solver. }
  assert (Hin : ∀ q, q ∈ l1 ++ l2 → ∃ nq, M !! q = Some nq).
  { intros q [Hq|Hq]%elem_of_app; [destruct (seg_elem _ _ _ _ _ _ _ _ H1 Hq) as (_ & _ & nq & ? & _)|
      destruct (seg_elem _ _ _ _ _ _ _ _ H2 Hq) as (_ & _ & nq & ? & _)]; by exists nq. }
  assert (Hnames : name_of M' <$> (l1 ++ l2) = name_of M <$> (l1 ++ l2)).
  { apply list_fmap_ext. intros i q Hq%list_elem_of_lookup_2. destruct (Hin q Hq) as [nq Enq]. apply (unlink_name q nq Enq). intros ->. done. }
  assert (Hw' : name_of M p = w) by (unfold name_of; by rewrite Hn).
  assert (Hperm : NoDup (name_of M <$> (l1 ++ l2)) ∧ w ∉ name_of M <$> (l1 ++ l2)).
  { rewrite fmap_app, fmap_cons, Hw' in Hdn. rewrite fmap_app. rewrite <-Permutation_middle in Hdn. by apply NoDup_cons in Hdn as [? ?]. }
  destruct Hperm as [Hnd2 Hwn].
  exists nd', (l1 ++ l2), e'. split_and!; [done|congruence|done|by rewrite Hnames|].
  rewrite Hnames. apply map_eq. intros w'. apply option_eq. intros q. rewrite lookup_delete_Some, Em, !lookup_zip_names by done.
  split.
  - intros (Hne & Hq & Hqw). split; [|done]. apply elem_of_app. apply elem_of_app in Hq as [?|[->|?]%elem_of_cons]; [by left|congruence|by right].
  - intros [Hq Hqw]. split; [|split; [set_solver|done]]. intros ->. apply Hwn. rewrite <-Hqw. by apply list_elem_of_fmap_2.
Qed.
Lemma tree_unlink : tree M' (delete p (<[dirp := delete w m]> T)) root next.
Proof using All.
  destruct unlink_parent as (Hpn & Hnw & Hpd & Hd0). pose proof HT as [R1 R2 R3 R4 R5 R6].
  assert (Hroot : root ≠ p) by (intros E; rewrite <-E in Hn; specialize (R4 n Hn); lia).
  assert (HT' : ∀ q, q ≠ p → is_Some (delete p (<[dirp := delete w m]> T) !! q) ↔ is_Some (T !! q)).
  { intros q Hq. rewrite lookup_delete_ne by done. destruct (decide (q = dirp)) as [->|]; [|by rewrite lookup_insert_ne].
    rewrite lookup_insert_eq, Hm. split; by eexists. }
  assert (Hold : ∀ p0 mp w' q, T !! p0 = Some mp → mp !! w' = Some q → q ≠ p → ∃ n', M' !! q = Some n' ∧ n_name n' = w' ∧ n_parent n' = p0 ∧
    q ≠ p0 ∧ (n_type n' = DT_DIR ↔ is_Some (delete p (<[dirp := delete w m]> T) !! q))).
  { intros p0 mp w' q Hp Hq Hne. destruct (R2 _ _ _ _ Hp Hq) as (nq & Hnq & E1 & E2 & Hqp & Ht).
    destruct (unlink_lookup q nq Hnq Hne) as (n' & Hn' & F1 & F2 & F3 & _). exists n'. rewrite HT' by done.
    split_and!; [done|congruence|congruence|done|by rewrite F2]. }
  split.
  - intros p0 mp [Hne Hp]%lookup_delete_Some. apply lookup_insert_Some in Hp as [[<- <-]|[Hnd Hp]]; [apply unlink_dir|].
    apply (dir_ext M); [| |by apply R1].
    + intros q (nq & Hnq & Hpa). apply (unlink_other q nq Hnq). congruence.
    + intros n0 Hn0. destruct (unlink_lookup p0 n0 Hn0 ltac:(done)) as (n' & ? & _ & ? & _ & _ & _ & Hc). exists n'.
      rewrite Hc, decide_False by (intros [E _]; congruence). done.
  - intros p0 mp w' q [Hne Hp]%lookup_delete_Some Hq. apply lookup_insert_Some in Hp as [[<- <-]|[Hnd Hp]].
    + apply lookup_delete_Some in Hq as [Hw' Hq]. eapply Hold; [exact Hm|exact Hq|]. intros ->.
      destruct (R2 _ _ _ _ Hm Hq) as (n' & Hn' & E1 & _). congruence.
    + eapply Hold; [exact Hp|exact Hq|]. intros ->. destruct (R2 _ _ _ _ Hp Hq) as (n' & Hn' & _ & E2 & _). congruence.
  - by apply HT'.
  - intros n' Hn'. destruct R3 as [mr Hr]. destruct (R1 _ _ Hr) as (nr & _ & _ & Hnr & _).
    destruct (unlink_lookup root nr Hnr Hroot) as (n1 & E1 & _ & _ & E2 & _). assert (n' = n1) as -> by congruence. rewrite E2. by apply R4.
  - done.
  - intros q [nq [Hne Hq]%lookup_delete_Some]. apply R6. unfold unlink in Hq.
    assert (is_Some (unlink M p n !! q)) as Hs by (by eexists). unfold unlink in Hs. by rewrite !lookup_alter_is_Some in Hs.
Qed.
End unlink.
