(* ===== verification/RamfsNames.v ===== *)
(** * Paths in ramfs

    [links s] is the state of RamfsTree.v behind a state of the file system.
    Looking up a path goes along the maps, creating adds a name to one of them
    and deleting removes it. *)

From S2P Require Import Prelude Calendar Path Vfs VfsWalk Block Ramfs RamfsData RamfsTree.


(** ** Names *)

Lemma strncmp_eq n : ∀ a b, Forall (λ c, c ≠ 0) a → Forall (λ c, c ≠ 0) b → (length a < n)%nat →
  (strncmp a b n =? 0) = bool_decide (a = b).
Proof.
  induction n as [|n IH]; intros a b Ha Hb Hn; [lia|]. cbn [strncmp].
  destruct a as [|x a], b as [|y b]; cbn [head tail default from_option id].
  - done.
  - apply Forall_cons in Hb as [Hy _]. rewrite (proj2 (Z.eqb_neq 0 y)) by lia. cbn [negb].
    rewrite bool_decide_eq_false_2 by done. apply Z.eqb_neq. lia.
  - apply Forall_cons in Ha as [Hx _]. rewrite (proj2 (Z.eqb_neq x 0)) by lia. cbn [negb].
    rewrite bool_decide_eq_false_2 by done. apply Z.eqb_neq. lia.
  - apply Forall_cons in Ha as [Hx Ha], Hb as [Hy Hb]. destruct (Z.eqb_spec x y) as [->|Hne]; cbn [negb].
    + rewrite (proj2 (Z.eqb_neq y 0)) by lia. rewrite IH by (done || (cbn in Hn; lia)).
      destruct (decide (a = b)) as [->|]; [by rewrite !bool_decide_eq_true_2|by rewrite !bool_decide_eq_false_2 by congruence].
    + rewrite bool_decide_eq_false_2 by congruence. apply Z.eqb_neq. lia.
Qed.
Lemma strncmp_good a b : good a → good b → (strncmp a b 256 =? 0) = bool_decide (a = b).
Proof. intros (_ & Hl & Ha) (_ & _ & Hb). apply strncmp_eq; [done|done|]. unfold zlen in Hl. lia. Qed.

(** Following names through the maps. *)
Fixpoint resolve (T : gmap Z (gmap (list Z) Z)) (names : list (list Z)) (p : Z) : option Z :=
  match names with
  | [] => Some p
  | w :: names => m ← T !! p; q ← m !! w; resolve T names q
  end.
Lemma resolve_app T ns1 ns2 : ∀ p, resolve T (ns1 ++ ns2) p = q ← resolve T ns1 p; resolve T ns2 q.
Proof.
  induction ns1 as [|w ns1 IH]; intros p; [done|]. cbn. destruct (T !! p) as [m|]; [|done]. cbn.
  destruct (m !! w) as [q|]; [|done]. cbn. apply IH.
Qed.

Definition node_of (d : ramfs_dirent_t) : tnode :=
  mk_tnode (rd_name d) (rd_type d) (rd_previous d) (rd_next d) (rd_parent d) (rd_child d).

Section names.
Context {D C : Type}.
#[local] Notation ramfs := (ramfs D C).
Implicit Types (s : ramfs) (T : gmap Z (gmap (list Z) Z)).

Definition links s : gmap Z tnode := node_of <$> dirents s.
Definition names_ok s (T : gmap Z (gmap (list Z) Z)) : Prop := tree (links s) T (mount s) (next_object s).

Lemma links_lookup s p n : links s !! p = Some n → ∃ d, dirents s !! p = Some d ∧ node_of d = n.
Proof. unfold links. rewrite lookup_fmap. destruct (dirents s !! p) as [d|]; [|done]. intros [= <-]. by exists d. Qed.
(** A list of [n] entries is searched to its end within the number of entries. *)
Lemma find_name_spec s p w l : good w → ∀ fuel a c e, seg (links s) p a c l e 0 → (length l ≤ fuel)%nat →
  find_name fuel w c s = Done (default 0 (snd <$> list_find (λ q, name_of (links s) q = w) l), s).
Proof.
  intros Hw. induction l as [|q l IH]; intros fuel a c e H Hf.
  - destruct H as [_ ->]. by destruct fuel.
  - destruct H as (-> & H0 & _ & n & Hn & _ & _ & Hg & H). destruct fuel as [|fuel]; [cbn in Hf; lia|].
    cbn [find_name]. rewrite (proj2 (Z.eqb_neq q 0)) by done. destruct (links_lookup s q n Hn) as (d & Hd & <-).
    rewrite (K_bind_step _ _ _ _ _ (dirent_run s q d Hd)). cbn in Hg. rewrite strncmp_good by done.
    cbn [list_find]. assert (name_of (links s) q = rd_name d) as -> by (unfold name_of; by rewrite Hn).
    destruct (decide (rd_name d = w)) as [->|Hne]; [by rewrite bool_decide_eq_true_2|].
    rewrite bool_decide_eq_false_2 by congruence. erewrite IH; [|exact H|cbn in Hf; lia]. cbn in H |- *.
    by destruct (list_find _ l) as [[i x]|].
Qed.
Lemma seg_length (M : gmap Z tnode) p a c l e : seg M p a c l e 0 → NoDup l → (length l ≤ size M)%nat.
Proof.
  intros H Hd. rewrite <-size_dom, <-(size_list_to_set (C:=gset Z) l Hd). apply subseteq_size.
  intros q Hq%elem_of_list_to_set. destruct (seg_elem _ _ _ _ _ _ _ _ H Hq) as (_ & _ & n & Hn & _). apply elem_of_dom. by eexists.
Qed.
(** Searching a directory is looking its map up. *)
Lemma search_spec s T p m d w : names_ok s T → T !! p = Some m → dirents s !! p = Some d → good w →
  search w (rd_child d) s = Done (default 0 (m !! w), s).
Proof.
  intros HT Hm Hd Hw. destruct (tr_dir _ _ _ _ HT _ _ Hm) as (n & l & e & Hn & _ & Hs & Hnd & ->).
  destruct (links_lookup s p n Hn) as (d' & Hd' & <-). assert (d' = d) as -> by congruence. cbn in Hs.
  unfold search. rewrite (K_bind_step _ _ s s s) by done.
  rewrite (find_name_spec s p w l Hw _ _ _ _ Hs).
  2:{ etrans; [eapply seg_length; [exact Hs|by eapply NoDup_fmap_1]|]. unfold links. by rewrite map_size_fmap. }
  do 2 f_equal. destruct (list_find _ l) as [[i q]|] eqn:E.
  - apply list_find_Some in E as (Hi & Hq & _). cbn. symmetry.
    assert (list_to_map (zip (name_of (links s) <$> l) l) !! w = Some q) as ->; [|done].
    apply lookup_zip_names; [done|]. split; [by eapply list_elem_of_lookup_2|done].
  - destruct (list_to_map _ !! w) as [q|] eqn:Eq; [|done]. apply lookup_zip_names in Eq as [Hq Hqw]; [|done].
    apply list_find_None in E. rewrite Forall_forall in E. by destruct (E q).
Qed.
Lemma dir_entry s T p m : names_ok s T → T !! p = Some m → ∃ d, dirents s !! p = Some d ∧ rd_type d = DT_DIR.
Proof.
  intros HT Hm. destruct (tr_dir _ _ _ _ HT _ _ Hm) as (n & l & e & Hn & Ht & _).
  destruct (links_lookup s p n Hn) as (d & Hd & <-). by exists d.
Qed.
(** What the maps know of is an entry, and a directory just if it has a map. *)
Definition known s (T : gmap Z (gmap (list Z) Z)) p : Prop := ∃ d, dirents s !! p = Some d ∧ (rd_type d = DT_DIR ↔ is_Some (T !! p)).
Lemma known_root s T : names_ok s T → known s T (mount s).
Proof.
  intros HT. destruct (tr_root _ _ _ _ HT) as [m Hm]. destruct (dir_entry s T _ _ HT Hm) as (d & Hd & Ht).
  exists d. split; [done|]. split; [by eexists|done].
Qed.
Lemma known_child s T p m w q : names_ok s T → T !! p = Some m → m !! w = Some q → known s T q.
Proof.
  intros HT Hm Hq. destruct (tr_child _ _ _ _ HT _ _ _ _ Hm Hq) as (n & Hn & _ & _ & _ & Ht).
  destruct (links_lookup s q n Hn) as (d & Hd & <-). by exists d.
Qed.

(** ** ramfs_get_dirent *)

Lemma get_dirent_loop_spec s T : names_ok s T → ∀ fuel path p, (length path < fuel)%nat → known s T p →
  Forall good (components path) →
  get_dirent_loop fuel path p s = Done (match resolve T (components path) p with Some q => (0, q) | None => (- ENOENT, 0) end, s).
Proof.
  intros HT. induction fuel as [|fuel IH]; intros path p Hf Hk Hg; [lia|].
  destruct (first_name path) as (w & q & -> & Hw & Hq). rewrite components_app in * by done.
  destruct (w ++ q) as [|c cs] eqn:Ewq; [by apply app_eq_nil in Ewq as [-> ->]|]. cbn [get_dirent_loop]. rewrite <-Ewq in *.
  destruct (decide (w = [])) as [->|Hne].
  - rewrite bool_decide_eq_true_2 in * by done. cbn [app] in *. destruct Hq as [->|[t ->]]; [done|].
    cbn [take_subdir kopt]. change (negb (is_slash SLASH) && (0 <? 256)) with false. cbn [Z.ltb Z.compare kopt].
    erewrite K_bind_step; [|done]. cbv zeta. cbn [tail head].
    rewrite (components_slash t) in *. apply IH; [cbn in Hf; lia|done|done].
  - rewrite (bool_decide_eq_false_2 (w = [])) in * by done. cbn [app] in *. apply Forall_cons in Hg as [Hg0 Hg].
    rewrite take_subdir_spec by (done || (destruct Hg0 as (_ & ? & _); lia)). cbn [kopt].
    rewrite (K_bind_step _ _ s (w, q) s) by done. rewrite (bool_decide_eq_false_2 (w = [])) by done. cbn [resolve].
    destruct Hk as (d & Hd & Ht). rewrite (K_bind_step _ _ _ _ _ (dirent_run s p d Hd)).
    destruct (T !! p) as [m|] eqn:Em; cbn.
    + rewrite (proj2 (Z.eqb_eq (rd_type d) DT_DIR)) by (apply Ht; by eexists). cbn [negb].
      rewrite (K_bind_step _ _ _ _ _ (search_spec s T p m d w HT Em Hd Hg0)).
      destruct (m !! w) as [x|] eqn:Ex; cbn [default from_option id]; [|done].
      destruct (dir_lookup _ _ _ _ _ (tr_dir _ _ _ _ HT _ _ Em) Ex) as (n & _ & _ & _ & H0 & _).
      rewrite (proj2 (Z.eqb_neq x 0)) by done. apply IH; [rewrite length_app in Hf; destruct w; [done|cbn in Hf; lia]| |done].
      by eapply known_child.
    + destruct (Z.eqb_spec (rd_type d) DT_DIR) as [E|E]; [|done]. apply Ht in E as [? E]. done.
Qed.
Lemma get_dirent_spec s T path : names_ok s T → Forall good (components path) →
  ramfs_get_dirent path s = Done (match resolve T (components path) (mount s) with Some q => (0, q) | None => (- ENOENT, 0) end, s).
Proof.
  intros HT Hg. unfold ramfs_get_dirent. erewrite K_bind_step; [|done]. cbv zeta.
  rewrite get_dirent_loop_spec with (T := T); [by rewrite components_skip|done|lia|by apply known_root|by rewrite components_skip].
Qed.
End names.

(** ** The last name of a path in ramfs

    The functions of ramfs that create entries cut a path into the directory and
    the name themselves, between the last slashes. *)


Definition slashes (t : list Z) : Prop := Forall (λ c, is_slash c = true) t.

Lemma components_slashes b t : slashes t → components (b ++ t) = components b.
Proof.
  destruct t as [|c t]; [by rewrite app_nil_r|]. intros [Hc Ht]%Forall_cons.
  unfold is_slash in Hc. apply Z.eqb_eq in Hc as ->. rewrite components_join.
  replace (components t) with (@nil (list Z)); [by rewrite app_nil_r|].
  induction t as [|c t IH]; [done|]. apply Forall_cons in Ht as [Hc Ht].
  unfold is_slash in Hc. apply Z.eqb_eq in Hc as ->. rewrite components_slash. by apply IH.
Qed.
Lemma nth_take_S path n : (n < length path)%nat → take (S n) path = take n path ++ [nth n path 0].
Proof. intros Hn. apply take_S_r. destruct (lookup_lt_is_Some_2 path n Hn) as [c Hc]. by rewrite Hc, (nth_lookup_Some _ _ _ _ Hc). Qed.
(** [strip_slashes] leaves the path up to its last character that is no slash. *)
Lemma strip_slashes_spec path : ∀ n, (n ≤ length path)%nat →
  (strip_slashes path n ≤ n)%nat ∧ (∃ t, take n path = take (strip_slashes path n) path ++ t ∧ slashes t) ∧
  (strip_slashes path n = O ∨ ∃ b c, take (strip_slashes path n) path = b ++ [c] ∧ is_slash c = false).
Proof.
  induction n as [|n IH]; intros Hn; cbn [strip_slashes].
  { split; [lia|]. split; [by exists []; repeat constructor|by left]. }
  destruct (is_slash (nth n path 0)) eqn:Hc.
  - destruct (IH ltac:(lia)) as (H1 & (t & H2 & H3) & H4). split; [lia|]. split; [|done].
    exists (t ++ [nth n path 0]). rewrite nth_take_S, H2, <-app_assoc by lia. split; [done|].
    apply Forall_app. by repeat constructor.
  - split; [lia|]. split; [exists []; by rewrite app_nil_r; repeat constructor|]. right. rewrite nth_take_S by lia. by eexists _, _.
Qed.
Lemma last_slash_cut path : ∀ n, (n ≤ length path)%nat →
  let k := Ramfs.last_slash path n in
  (k ≤ n)%nat ∧ (∃ f, take n path = take k path ++ f ∧ no_slash f) ∧ (k = O ∨ take k path = take (k - 1) path ++ [SLASH]).
Proof.
  induction n as [|n IH]; intros Hn; cbn [Ramfs.last_slash]; cbv zeta in *.
  { split; [lia|]. split; [by exists []; repeat constructor|by left]. }
  destruct (is_slash (nth n path 0)) eqn:Hc.
  - split; [lia|]. split; [exists []; by rewrite app_nil_r; repeat constructor|]. right.
    rewrite nth_take_S by lia. unfold is_slash in Hc. apply Z.eqb_eq in Hc as ->. by replace (S n - 1)%nat with n by lia.
  - destruct (IH ltac:(lia)) as (H1 & (f & H2 & H3) & H4). split; [lia|]. split; [|done].
    exists (f ++ [nth n path 0]). rewrite nth_take_S, H2, <-app_assoc by lia. split; [done|].
    apply Forall_app. by repeat constructor.
Qed.

(** Paths that fit the buffers with their terminator. *)
Definition fits (path : list Z) : Prop := Forall (λ c, c ≠ 0) path ∧ zlen path < NAME_SIZE.

Lemma components_good path : fits path → Forall good (components path).
Proof.
  intros [Hz Hl]. unfold NAME_SIZE in Hl. remember (length path) as n eqn:En. assert (length path ≤ n)%nat by lia. clear En.
  revert path Hz Hl H. induction n as [|n IH]; intros path Hz Hl Hn; [by destruct path; [constructor|cbn in Hn; lia]|].
  destruct (first_name path) as (w & q & -> & Hw & Hq). rewrite components_app by done.
  apply Forall_app in Hz as [Hzw Hzq]. rewrite zlen_app in Hl. pose proof (zlen_nonneg w). pose proof (zlen_nonneg q).
  apply Forall_app. split.
  - case_bool_decide; [constructor|]. constructor; [|constructor]. split_and!; [done|lia|done].
  - destruct Hq as [->|[t ->]]; [constructor|]. rewrite components_slash. apply IH.
    + by apply Forall_cons in Hzq as [_ ?].
    + rewrite zlen_cons in *. lia.
    + rewrite length_app in Hn. cbn in Hn. lia.
Qed.
Lemma split_name_spec path : fits path → components path ≠ [] → ∃ dirname filename,
  split_name path = Some (dirname, filename) ∧ components path = components dirname ++ [filename] ∧ good filename ∧ fits dirname.
Proof.
  intros [Hz Hl] Hne. unfold NAME_SIZE in Hl. unfold split_name. cbv zeta.
  destruct (strip_slashes_spec path (length path) ltac:(lia)) as (H1 & (t & H2 & H3) & H4).
  set (len := strip_slashes path (length path)) in *. rewrite firstn_all in H2.
  destruct (last_slash_cut path len H1) as (K1 & (f & K2 & K3) & K4).
  set (k := Ramfs.last_slash path len) in *.
  assert (Hf : take (len - k) (drop k path) = f).
  { rewrite <-skipn_firstn_comm, K2, drop_app_length'; [done|]. rewrite length_take. lia. }
  assert (Hc : components path = components (take (k - 1) path) ++ components f).
  { rewrite H2 at 1; rewrite components_slashes, K2 by done. destruct K4 as [Ek|Ek]; rewrite Ek; [done|]. rewrite <-app_assoc. apply components_join. }
  assert (Hfne : f ≠ []).
  { destruct H4 as [E|(b & c & E & Hs)].
    - exfalso. apply Hne. rewrite H2, components_slashes, E by done. done.
    - intros ->. rewrite app_nil_r in K2. destruct K4 as [E0|E1]; [rewrite E0 in K2; rewrite K2 in E; by destruct b|].
      rewrite K2, E1 in E. apply app_inj_tail in E as [_ Ex]. by rewrite <-Ex in Hs. }
  assert (Hsub : ∀ n, zlen (take n path) ≤ zlen path) by (intros n; unfold zlen; rewrite length_take; lia).
  assert (Hfl : zlen f ≤ zlen path) by (rewrite <-Hf; unfold zlen; rewrite length_take, length_drop; lia).
  rewrite Hf. pose proof (Hsub (k - 1)%nat). unfold NAME_SIZE. rewrite (proj2 (Z.ltb_lt (zlen f) 256)), (proj2 (Z.ltb_lt (zlen (take (k - 1) path)) 256)) by lia.
  eexists _, _. split; [done|]. rewrite (components_name f) in Hc by done. split; [done|].
  split; [split_and!; [done|lia|]|split; [by apply Forall_take|unfold NAME_SIZE; lia]].
  rewrite <-Hf. by apply Forall_take, Forall_drop.
Qed.
