(* ===== verification/RamfsDirs.v ===== *)
(** * Creating, renaming and deleting in ramfs

    What the operations on names do to the maps of RamfsNames.v, and that they leave
    the contents of the files (RamfsData.v) alone. *)

From S2P Require Import Prelude Calendar Path Vfs VfsWalk Block Ramfs RamfsData RamfsTree RamfsNames.


(** The fields that the contents of a file depend on. *)
Definition dnode (d : ramfs_dirent_t) : Z * Z * Z := (rd_type d, rd_file_size d, rd_first_block d).

Section dirs.
Context {D C : Type}.
#[local] Notation ramfs := (ramfs D C).
Implicit Types (s : ramfs) (T : gmap Z (gmap (list Z) Z)).

Definition dnodes s : gmap Z (Z * Z * Z) := dnode <$> dirents s.
Definition alter_dirent (p : Z) (f : ramfs_dirent_t → ramfs_dirent_t) s : ramfs :=
  set_dirents (alter f p (dirents s)) s.

Lemma update_alter s p d f : dirents s !! p = Some d → update_dirent p f s = Done (tt, alter_dirent p f s).
Proof.
  intros Hd. rewrite (update_dirent_run s p d f Hd). unfold alter_dirent. do 3 f_equal. apply map_eq. intros q.
  destruct (decide (q = p)) as [->|]; [by rewrite lookup_insert_eq, lookup_alter_eq, Hd|by rewrite lookup_insert_ne, lookup_alter_ne].
Qed.
Lemma links_alter s p f g : (∀ d, node_of (f d) = g (node_of d)) → links (alter_dirent p f s) = alter g p (links s).
Proof.
  intros H. apply map_eq. intros q. unfold links, alter_dirent. cbn. destruct (decide (q = p)) as [->|].
  - rewrite lookup_fmap, !lookup_alter_eq, lookup_fmap. destruct (dirents s !! p); cbn; [by rewrite H|done].
  - by rewrite lookup_fmap, !lookup_alter_ne, lookup_fmap.
Qed.
Lemma alter_same_id {A} (m : gmap Z A) p : alter id p m = m.
Proof.
  apply map_eq. intros q. destruct (decide (q = p)) as [->|]; [rewrite lookup_alter_eq|by rewrite lookup_alter_ne].
  by destruct (m !! p).
Qed.
Lemma links_alter_same s p f : (∀ d, node_of (f d) = node_of d) → links (alter_dirent p f s) = links s.
Proof. intros H. rewrite (links_alter s p f id) by done. apply alter_same_id. Qed.
Lemma dnodes_alter s p f : (∀ d, dnode (f d) = dnode d) → dnodes (alter_dirent p f s) = dnodes s.
Proof.
  intros H. apply map_eq. intros q. unfold dnodes, alter_dirent. cbn. destruct (decide (q = p)) as [->|].
  - rewrite !lookup_fmap, lookup_alter_eq. destruct (dirents s !! p); cbn; [by rewrite H|done].
  - by rewrite !lookup_fmap, lookup_alter_ne.
Qed.
Lemma dirent_alter s p d f : dirents s !! p = Some d → dirents (alter_dirent p f s) !! p = Some (f d).
Proof. intros H. unfold alter_dirent. cbn. by rewrite lookup_alter_eq, H. Qed.
Lemma dirent_alter_ne s p q f : q ≠ p → dirents (alter_dirent p f s) !! q = dirents s !! q.
Proof. intros H. unfold alter_dirent. cbn. by rewrite lookup_alter_ne. Qed.
Lemma links_dirent s p n : links s !! p = Some n ↔ ∃ d, dirents s !! p = Some d ∧ node_of d = n.
Proof.
  split; [apply links_lookup|]. intros (d & Hd & <-). unfold links. by rewrite lookup_fmap, Hd.
Qed.
(** Only the entries change. *)
Definition same_rest s s' : Prop := blocks s' = blocks s ∧ read_only s' = read_only s ∧ mount s' = mount s ∧
  next_object s' = next_object s ∧ blockdevs s' = blockdevs s ∧ chardevs s' = chardevs s ∧ vvar s' = vvar s.
#[global] Instance same_rest_preorder : PreOrder same_rest.
Proof. split; [by intros s|]. intros s1 s2 s3 (?&?&?&?&?&?&?) (?&?&?&?&?&?&?). split_and!; congruence. Qed.
Lemma same_alter s p f : same_rest s (alter_dirent p f s).
Proof. done. Qed.

(** ** The files are left alone *)

Lemma dnodes_entry s s' h d : dnodes s' !! h = dnodes s !! h → dirents s' !! h = Some d →
  ∃ d0, dirents s !! h = Some d0 ∧ dnode d0 = dnode d.
Proof.
  intros He Hd. unfold dnodes in He. rewrite !lookup_fmap, Hd in He. destruct (dirents s !! h) as [d0|]; [|done].
  exists d0. split; [done|]. cbn in He. congruence.
Qed.
Lemma file_same s s' h d d' l : file s h d l → dirents s' !! h = Some d' → dnode d' = dnode d →
  (∀ k, k ∈ l → blocks s' !! k = blocks s !! k) → file s' h d' l.
Proof.
  intros [F1 F2 F3 F4] Hd [= E1 E2 E3] Hb. split; [done| |done|].
  - rewrite E3. by eapply blocks_chain_ext.
  - rewrite E2. by rewrite (contents_ext (blocks s) (blocks s')).
Qed.
(** An entry may come or go with its chain. *)
Section frame.
Context s s' (p : Z) (l : list Z) (Hok : files_ok s) (Hnext : next_object s ≤ next_object s').
Context (Hd : ∀ h, h ≠ p → dnodes s' !! h = dnodes s !! h).
Context (Hp : ∀ d, dirents s' !! p = Some d → dirents s !! p = None ∧ rd_first_block d = 0 ∧ rd_file_size d = 0).
Context (Hb : ∀ k, k ∉ l → blocks s' !! k = blocks s !! k) (Hk : ∀ k, is_Some (blocks s' !! k) → is_Some (blocks s !! k)).
Context (Hl : ∀ h d l', h ≠ p → file s h d l' → l ## l').

Lemma frame_file h d l' : h ≠ p → file s h d l' → ∃ d', file s' h d' l' ∧ dnode d' = dnode d.
Proof using Hd Hb Hl.
  intros Hne HF. pose proof (fi_entry _ _ _ _ HF) as He. destruct (dnodes_entry s' s h d) as (d' & E & Ed); [by rewrite Hd|done|].
  exists d'. split; [|done]. eapply file_same; [exact HF|done|done|]. intros k Hin. apply Hb. intros Hin2. by eapply Hl.
Qed.
Lemma frame_files : files_ok s' ∧ ∀ h v, h ≠ p → file_bytes s h v → file_bytes s' h v.
Proof using All.
  assert (Hbk : ∀ h d' l', h ≠ p → file s' h d' l' → ∃ d, file s h d l').
  { intros h d' l' Hne HF'. destruct (dnodes_entry s s' h d') as (d & E & Ed); [by apply Hd|apply (fi_entry _ _ _ _ HF')|].
    destruct (fo_file _ Hok _ _ E) as [l0 HF]. destruct (frame_file h d l0 Hne HF) as (d1 & HF1 & E1).
    exists d. replace l' with l0; [done|]. pose proof (fi_entry _ _ _ _ HF1). pose proof (fi_entry _ _ _ _ HF'). assert (d1 = d') as -> by congruence.
    destruct (fo_fresh _ Hok). assert (fresh_blocks s') as Hfr.
    { split; [lia|]. intros k [x Hx]. destruct (fo_fresh _ Hok) as [_ Hf]. specialize (Hf k (Hk k ltac:(by eexists))). lia. }
    by destruct (file_unique s' h _ _ _ _ Hfr HF1 HF') as [_ ->]. }
  assert (Hfr : fresh_blocks s').
  { destruct (fo_fresh _ Hok) as [H0 Hf]. split; [lia|]. intros k Hx. specialize (Hf k (Hk k Hx)). lia. }
  assert (Hnew : ∀ d l', file s' p d l' → l' = []).
  { intros d l' HF. destruct (Hp d (fi_entry _ _ _ _ HF)) as (_ & E & _). pose proof (fi_chain _ _ _ _ HF) as Hc. rewrite E in Hc.
    by apply (chain_unique s' l' 0 [] Hfr Hc). }
  split; [split; [done| |]|].
  - intros h d' Hd'. destruct (decide (h = p)) as [->|Hne].
    + destruct (Hp d' Hd') as (_ & E1 & E2). exists []. split; [done|by rewrite E1|constructor|by rewrite E2].
    + destruct (dnodes_entry s s' h d') as (d & E & Ed); [by apply Hd|done|]. destruct (fo_file _ Hok _ _ E) as [l0 HF].
      destruct (frame_file h d l0 Hne HF) as (d1 & HF1 & E1). exists l0. by assert (d1 = d') as -> by (pose proof (fi_entry _ _ _ _ HF1); congruence).
  - intros h h' d d' l1 l2 Hne HF1 HF2.
    destruct (decide (h = p)) as [->|H1]; [rewrite (Hnew _ _ HF1); set_solver|].
    destruct (decide (h' = p)) as [->|H2]; [rewrite (Hnew _ _ HF2); set_solver|].
    destruct (Hbk _ _ _ H1 HF1) as [e1 G1], (Hbk _ _ _ H2 HF2) as [e2 G2]. by eapply (fo_disjoint _ Hok h h').
  - intros h v Hne (d & l0 & HF & Hr & ->). destruct (frame_file h d l0 Hne HF) as (d' & HF' & E).
    exists d', l0. split; [done|]. injection E as E1 E2 E3. unfold regular in *. rewrite E1, E2. split; [done|].
    f_equal. symmetry. apply contents_ext. intros k Hin. apply Hb. intros Hin2. by eapply Hl.
Qed.
End frame.

(** ** ramfs_add_dirent *)

Lemma time_run s : time s = Done (get_time (vvar s), s).
Proof. done. Qed.
Lemma is_read_only_run s b : read_only s !! mount s = Some b → is_read_only s = Done (b, s).
Proof. intros H. unfold is_read_only. rewrite (K_bind_step _ _ s s s) by done. by rewrite H. Qed.
Lemma ret_run {A} (a : A) s : (mret a : K ramfs A) s = Done (a, s).
Proof. done. Qed.
Lemma alter_none {A} (f : A → A) (m : gmap Z A) p : m !! p = None → alter f p m = m.
Proof.
  intros H. apply map_eq. intros q. destruct (decide (q = p)) as [->|]; [by rewrite lookup_alter_eq, H|by rewrite lookup_alter_ne].
Qed.
(** An entry that is in no directory yet. *)
Record loose s T (p : Z) (d : ramfs_dirent_t) : Prop := {
  lo_entry : dirents s !! p = Some d;
  lo_key : 0 < p < next_object s;
  lo_tree : tree (delete p (links s)) T (mount s) (next_object s);
}.
Lemma loose_names s T p d : loose s T p d → names_ok s T.
Proof.
  intros [H1 H2 H3]. unfold names_ok. rewrite <-(insert_delete_id (links s) p (node_of d)).
  - by apply (tree_extra _ _ _ (next_object s)); [|apply lookup_delete_eq|..].
  - apply links_dirent. by exists d.
Qed.
(** The stores of ramfs_add_dirent; [h] is the first entry of the directory. *)
Definition linked (dirp p h mt ct bt : Z) s : ramfs :=
  let s := alter_dirent p (rd_set_times mt ct bt) s in
  let s := alter_dirent p (λ d, rd_set_links (rd_previous d) h dirp (rd_child d) d) s in
  let s := alter_dirent dirp (rd_set_child p) s in
  let s := if h =? 0 then s else alter_dirent h (rd_set_previous p) s in
  alter_dirent p (λ d, rd_set_links 0 (rd_next d) (rd_parent d) 0 d) s.
Lemma linked_same dirp p h mt ct bt s : same_rest s (linked dirp p h mt ct bt s) ∧ dnodes (linked dirp p h mt ct bt s) = dnodes s.
Proof.
  unfold linked. cbv zeta. destruct (h =? 0); (split; [done|]); by rewrite !dnodes_alter.
Qed.
Lemma linked_links s T p d dirp q mt ct bt : loose s T p d → dirents s !! dirp = Some q → dirp ≠ p →
  (∀ h, h = rd_child q → h ≠ p ∧ h ≠ dirp) →
  links (linked dirp p (rd_child q) mt ct bt s) = link (delete p (links s)) dirp p (rd_name d) (rd_type d).
Proof.
  intros HL Hq Hne Hh. destruct (Hh _ eq_refl) as [Hhp Hhd]. clear Hh. set (h := rd_child q) in *.
  assert (H0 : links s !! 0 = None).
  { destruct (links s !! 0) eqn:E; [|done]. pose proof (tr_keys _ _ _ _ (loose_names _ _ _ _ HL) 0 ltac:(by eexists)). lia. }
  assert (Hp : links s !! p = Some (node_of d)) by (apply links_dirent; exists d; split; [apply (lo_entry _ _ _ _ HL)|done]).
  assert (Hd : links s !! dirp = Some (node_of q)) by (apply links_dirent; by exists q).
  set (g1 n := mk_tnode (n_name n) (n_type n) (n_prev n) h dirp (n_child n)).
  set (g2 n := mk_tnode (n_name n) (n_type n) 0 (n_next n) (n_parent n) 0).
  assert (E : links (linked dirp p h mt ct bt s) =
    alter g2 p (alter (tn_set_prev p) h (alter (tn_set_child p) dirp (alter g1 p (links s))))).
  { unfold linked. cbv zeta. rewrite (links_alter _ p _ g2) by done. f_equal. destruct (Z.eqb_spec h 0) as [Eh|Eh].
    - rewrite (alter_none (tn_set_prev p)).
      2:{ rewrite Eh. rewrite lookup_alter_ne by congruence. rewrite lookup_alter_ne by (pose proof (lo_key _ _ _ _ HL); lia). done. }
      rewrite (links_alter _ dirp _ (tn_set_child p)), (links_alter _ p _ g1), links_alter_same by done. done.
    - by rewrite (links_alter _ h _ (tn_set_prev p)), (links_alter _ dirp _ (tn_set_child p)), (links_alter _ p _ g1), links_alter_same by done. }
  rewrite E. unfold link. rewrite lookup_delete_ne, Hd by done. cbn. fold h.
  apply map_eq. intros x. destruct (decide (x = p)) as [->|Hx].
  - rewrite lookup_alter_eq, lookup_alter_ne, lookup_alter_ne, lookup_alter_eq, Hp, lookup_insert_eq by done. done.
  - rewrite lookup_insert_ne, lookup_alter_ne by done.
    assert (Ha : alter (tn_set_child p) dirp (alter g1 p (links s)) !! x = alter (tn_set_child p) dirp (delete p (links s)) !! x).
    { destruct (decide (x = dirp)) as [->|]; [rewrite !lookup_alter_eq|rewrite (lookup_alter_ne _ _ dirp), (lookup_alter_ne _ _ dirp) by done];
        by rewrite lookup_alter_ne, lookup_delete_ne by done. }
    destruct (decide (x = h)) as [->|]; [by rewrite !lookup_alter_eq, Ha|by rewrite !(lookup_alter_ne _ _ h) by done].
Qed.
Lemma if_step {A} (b : bool) (m1 m2 : K ramfs A) (f : A → K ramfs A) s : (if b then m1 else m2) s = (if b then m1 s else m2 s).
Proof. by destruct b. Qed.
(** A directory's first entry is an entry, and not the directory. *)
Lemma first_entry s T dirp m q : names_ok s T → T !! dirp = Some m → dirents s !! dirp = Some q → rd_child q ≠ 0 →
  rd_child q ≠ dirp ∧ is_Some (dirents s !! rd_child q) ∧ ∃ w, m !! w = Some (rd_child q).
Proof.
  intros HT Hm Hq H0. destruct (tr_dir _ _ _ _ HT _ _ Hm) as (n & l & e & Hn & _ & Hs & Hnd & ->).
  apply links_dirent in Hn as (d & Hd & <-). assert (d = q) as -> by congruence. cbn in Hs.
  destruct l as [|x l]; [destruct Hs as [_ E]; congruence|]. pose proof Hs as (E & _ & Hne & n & Hn & _).
  rewrite E. apply links_dirent in Hn as (d & Hd' & Ed). split; [done|]. split; [by eexists|].
  exists (name_of (links s) x). apply lookup_zip_names; [done|]. split; [by left|done].
Qed.
Lemma add_dirent_run s T path p d dirp m : loose s T p d → read_only s !! mount s = Some false →
  Forall good (components path) → resolve T (components path) (mount s) = Some dirp → T !! dirp = Some m →
  m !! rd_name d = None → good (rd_name d) →
  ∃ s', ramfs_add_dirent path p s = Done (0, s') ∧ same_rest s s' ∧ dnodes s' = dnodes s ∧
    names_ok s' (link_names T dirp p (rd_name d) (rd_type d)).
Proof.
  intros HL Hro Hg Hr Hm Hw Hgw. pose proof (loose_names _ _ _ _ HL) as HT. destruct HL as [L1 L2 L3].
  destruct (dir_entry s T dirp m HT Hm) as (q & Hq & Htq).
  assert (Hne : dirp ≠ p).
  { intros ->. destruct (tr_dir _ _ _ _ L3 _ _ Hm) as (n & _ & _ & E & _). by rewrite lookup_delete_eq in E. }
  assert (Hh : ∀ h, h = rd_child q → h ≠ p ∧ h ≠ dirp).
  { intros h ->. destruct (decide (rd_child q = 0)) as [->|H0]; [split; [lia|]|].
    - destruct (tr_keys _ _ _ _ HT dirp); [|lia]. exists (node_of q). apply links_dirent. by exists q.
    - destruct (first_entry s T dirp m q HT Hm Hq H0) as (Hd & _ & w & Hw'). split; [|done]. intros E. rewrite E in Hw'.
      destruct (tr_child _ _ _ _ L3 _ _ _ _ Hm Hw') as (n & E' & _). by rewrite lookup_delete_eq in E'. }
  destruct (Hh _ eq_refl) as [Hh1 Hh2].
  set (t := get_time (vvar s)). destruct (linked_same dirp p (rd_child q) t t t s) as [HR HN].
  exists (linked dirp p (rd_child q) t t t s). split; [|split; [done|split; [done|]]].
  - unfold ramfs_add_dirent. rewrite (K_bind_step _ _ _ _ _ (is_read_only_run s false Hro)).
    rewrite (K_bind_step _ _ _ _ _ (get_dirent_spec s T path HT Hg)), Hr. cbn [Z.ltb Z.compare].
    rewrite (K_bind_step _ _ _ _ _ (dirent_run s dirp q Hq)), Htq. cbn [negb Z.eqb Pos.eqb DT_DIR].
    rewrite !(K_bind_step _ _ _ _ _ (time_run s)). fold t. unfold linked. cbv zeta.
    rewrite (K_bind_step _ _ _ _ _ (update_alter s p d _ L1)).
    set (s1 := alter_dirent p (rd_set_times t t t) s).
    assert (Hd1 : dirents s1 !! p = Some (rd_set_times t t t d)) by (by apply dirent_alter).
    rewrite (K_bind_step _ _ _ _ _ (dirent_run s1 dirp q ltac:(by unfold s1; rewrite dirent_alter_ne))).
    rewrite (K_bind_step _ _ _ _ _ (update_alter s1 p _ _ Hd1)). set (s2 := alter_dirent p _ s1).
    pose proof (dirent_alter s1 p _ (λ d, rd_set_links (rd_previous d) (rd_child q) dirp (rd_child d) d) Hd1) as Hd2.
    fold s2 in Hd2. assert (Hq2 : dirents s2 !! dirp = Some q) by (by unfold s2, s1; rewrite !dirent_alter_ne).
    rewrite (K_bind_step _ _ _ _ _ (update_alter s2 dirp _ _ Hq2)). set (s3 := alter_dirent dirp _ s2).
    assert (Hd3 : dirents s3 !! p = dirents s2 !! p) by (unfold s3; by rewrite dirent_alter_ne). rewrite Hd2 in Hd3.
    rewrite (K_bind_step _ _ _ _ _ (dirent_run s3 p _ Hd3)). cbn [rd_next rd_set_links].
    destruct (Z.eqb_spec (rd_child q) 0) as [E0|E0].
    + rewrite (K_bind_step _ _ _ _ _ (ret_run tt s3)), (K_bind_step _ _ _ _ _ (update_alter s3 p _ _ Hd3)). done.
    + destruct (first_entry s T dirp m q HT Hm Hq E0) as (_ & [dh Hdh] & _).
      assert (Hdh3 : dirents s3 !! rd_child q = Some dh) by (unfold s3, s2, s1; by rewrite !dirent_alter_ne).
      rewrite (K_bind_step _ _ _ _ _ (update_alter s3 (rd_child q) _ _ Hdh3)). set (s4 := alter_dirent (rd_child q) _ s3).
      assert (Hd4 : dirents s4 !! p = dirents s3 !! p) by (unfold s4; by rewrite dirent_alter_ne). rewrite Hd3 in Hd4.
      rewrite (K_bind_step _ _ _ _ _ (update_alter s4 p _ _ Hd4)). done.
  - unfold names_ok. destruct HR as (_ & _ & -> & -> & _).
    rewrite (linked_links s T p d dirp q t t t (Build_loose _ _ _ _ L1 L2 L3) Hq Hne Hh).
    apply (tree_link _ _ _ (next_object s)) with (m := m); try done; apply lookup_delete_eq.
Qed.
Lemma add_dirent_fails s T path p d r : loose s T p d → read_only s !! mount s = Some false → Forall good (components path) →
  (resolve T (components path) (mount s) = None ∧ r = - ENOENT) ∨
  (∃ q, resolve T (components path) (mount s) = Some q ∧ T !! q = None ∧ known s T q ∧ r = - ENOTDIR) →
  ramfs_add_dirent path p s = Done (r, s).
Proof.
  intros HL Hro Hg Hr. unfold ramfs_add_dirent. rewrite (K_bind_step _ _ _ _ _ (is_read_only_run s false Hro)).
  rewrite (K_bind_step _ _ _ _ _ (get_dirent_spec s T path (loose_names _ _ _ _ HL) Hg)).
  destruct Hr as [[-> ->]|(q & -> & Hq & (dq & Hdq & Ht) & ->)]; [done|]. cbn [Z.ltb Z.compare].
  rewrite (K_bind_step _ _ _ _ _ (dirent_run s q dq Hdq)).
  destruct (Z.eqb_spec (rd_type dq) DT_DIR) as [E|E]; [|done]. apply Ht in E as [? E]. congruence.
Qed.
Lemma resolve_known s T : names_ok s T → ∀ names p q, known s T p → resolve T names p = Some q → known s T q.
Proof.
  intros HT names. induction names as [|w names IH]; intros p q Hp; cbn; [by intros [= <-]|].
  destruct (T !! p) as [m|] eqn:Em; [|done]. cbn. destruct (m !! w) as [x|] eqn:Ex; [|done]. cbn.
  apply IH. by eapply known_child.
Qed.

(** ** Creating an entry *)

(** The specification: the result and the new maps when entry [p] is to be put
    under a path, and when it is created there. *)
Definition place_names (T : gmap Z (gmap (list Z) Z)) (root p : Z) (names : list (list Z)) (ty : Z) : Z * gmap Z (gmap (list Z) Z) :=
  match resolve T (removelast names) root with
  | None => (- ENOENT, T)
  | Some dirp =>
    if decide (is_Some (T !! dirp)) then (0, link_names T dirp p (default [] (last names)) ty) else (- ENOTDIR, T)
  end.
Definition create_names (T : gmap Z (gmap (list Z) Z)) (root p : Z) (names : list (list Z)) (ty : Z) : Z * gmap Z (gmap (list Z) Z) :=
  match resolve T names root with
  | Some _ => (- EEXIST, T)
  | None => place_names T root p names ty
  end.
Definition same_mount s s' : Prop := read_only s' = read_only s ∧ mount s' = mount s.
Lemma add_dirent_spec s T path p d : loose s T p d → read_only s !! mount s = Some false → Forall good (components path) →
  good (rd_name d) → resolve T (components path ++ [rd_name d]) (mount s) = None →
  let '(r, T') := place_names T (mount s) p (components path ++ [rd_name d]) (rd_type d) in
  ∃ s', ramfs_add_dirent path p s = Done (r, s') ∧ names_ok s' T' ∧ same_rest s s' ∧ dnodes s' = dnodes s.
Proof.
  intros HL Hro Hg Hw Hr. unfold place_names. rewrite removelast_last, last_snoc. cbn [default from_option id].
  rewrite resolve_app in Hr. pose proof (loose_names _ _ _ _ HL) as HT.
  destruct (resolve T (components path) (mount s)) as [dirp|] eqn:Ep; cbn in Hr.
  2:{ exists s. split; [|done]. apply (add_dirent_fails s T _ _ d _ HL Hro Hg). by left. }
  destruct (decide _) as [[m Hm]|Hd].
  - destruct (add_dirent_run s T path p d dirp m HL Hro Hg Ep Hm) as (s' & H1 & H2 & H3 & H4); [|done|by exists s'].
    rewrite Hm in Hr. cbn in Hr. by destruct (m !! rd_name d).
  - exists s. split; [|done]. apply (add_dirent_fails s T _ _ d _ HL Hro Hg). right. exists dirp. split; [done|].
    split; [by apply eq_None_not_Some|]. split; [|done]. eapply (resolve_known s T HT); [|exact Ep]. by apply known_root.
Qed.
Definition with_entry (w : list Z) (ty dev : Z) s : ramfs :=
  set_dirents (<[next_object s := rd_set_name w (rd_set_type ty dev zero_dirent)]> (dirents s)) (set_next_object (next_object s + 1) s).
Lemma with_entry_loose s T w ty dev : names_ok s T → loose (with_entry w ty dev s) T (next_object s) (rd_set_name w (rd_set_type ty dev zero_dirent)).
Proof.
  intros HT. pose proof (tr_next _ _ _ _ HT). split; [by apply lookup_insert_eq|cbn; lia|].
  assert (Hf : links s !! next_object s = None).
  { destruct (links s !! next_object s) eqn:E; [|done]. pose proof (tr_keys _ _ _ _ HT (next_object s) ltac:(by eexists)). lia. }
  unfold with_entry, links. cbn. rewrite fmap_insert, delete_insert_id by done.
  destruct HT as [R1 R2 R3 R4 R5 R6]. split; try done; [lia|]. intros q Hq. specialize (R6 q Hq). lia.
Qed.
(** The new entry is empty. *)
Lemma with_entry_files s w ty dev s' T : names_ok s T → files_ok s → same_rest (with_entry w ty dev s) s' →
  dnodes s' = dnodes (with_entry w ty dev s) → files_ok s' ∧ (∀ h v, file_bytes s h v → file_bytes s' h v).
Proof.
  intros HT Hok (HB & _ & _ & HN & _) HD. cbn in HB, HN.
  assert (Hf : dirents s !! next_object s = None).
  { destruct (dirents s !! next_object s) as [d|] eqn:E; [|done]. pose proof (tr_keys _ _ _ _ HT (next_object s)).
    destruct H; [|lia]. exists (node_of d). apply links_dirent. by exists d. }
  assert (HD' : dnodes s' = <[next_object s := (ty, 0, 0)]> (dnodes s)) by (rewrite HD; unfold dnodes, with_entry; cbn [dirents set_dirents]; by rewrite fmap_insert).
  destruct (frame_files s s' (next_object s) [] Hok) as [H1 H2].
  - lia.
  - intros h Hh. by rewrite HD', lookup_insert_ne.
  - intros d Hd. split; [done|]. assert (dnodes s' !! next_object s = Some (dnode d)) as E by (unfold dnodes; by rewrite lookup_fmap, Hd).
    rewrite HD', lookup_insert_eq in E. by injection E.
  - intros k _. by rewrite HB.
  - intros k. by rewrite HB.
  - set_solver.
  - split; [done|]. intros h v Hv. apply H2; [|done]. intros ->. destruct Hv as (d & l & [E _ _ _] & _). congruence.
Qed.
Lemma create_spec s T path ty dev : names_ok s T → files_ok s → read_only s !! mount s = Some false → fits path →
  let '(r, T') := create_names T (mount s) (next_object s) (components path) ty in
  ∃ s', create path ty dev s = Done (r, s') ∧ names_ok s' T' ∧ files_ok s' ∧ same_mount s s' ∧
    (∀ h v, file_bytes s h v → file_bytes s' h v).
Proof.
  intros HT Hok Hro Hfit. pose proof (components_good path Hfit) as Hg. unfold create, create_names.
  rewrite (K_bind_step _ _ _ _ _ (get_dirent_spec s T path HT Hg)).
  destruct (resolve T (components path) (mount s)) as [q|] eqn:Er; [by exists s|].
  assert (Hne : components path ≠ []) by (intros E; by rewrite E in Er).
  destruct (split_name_spec path Hfit Hne) as (dn & w & -> & Ec & Hw & Hdn). rewrite Ec in *.
  set (d := rd_set_name w (rd_set_type ty dev zero_dirent)). set (s1 := with_entry w ty dev s).
  pose proof (with_entry_loose s T w ty dev HT) as HL. fold s1 d in HL.
  pose proof (add_dirent_spec s1 T dn _ d HL Hro (components_good dn Hdn) Hw Er) as Ha.
  change (mount s1) with (mount s) in Ha. cbn [rd_name rd_type d rd_set_name rd_set_type] in Ha.
  destruct (place_names T (mount s) (next_object s) (components dn ++ [w]) ty) as [r T'].
  destruct Ha as (s' & H1 & H2 & H3 & H4). exists s'. split; [exact H1|]. split; [done|].
  destruct (with_entry_files s w ty dev s' T HT Hok H3 H4) as [K1 K2]. split; [done|]. split; [|done].
  destruct H3 as (_ & E1 & E2 & _). by split.
Qed.
End dirs.

(** ** Deleting and renaming in ramfs

    Entries leave their directory by unlink_dirent; deleting frees them with their
    blocks, renaming puts them under another name. *)


Section move.
Context {D C : Type}.
#[local] Notation ramfs := (ramfs D C).
Implicit Types (s : ramfs) (T : gmap Z (gmap (list Z) Z)).

(** ** unlink_dirent *)

Lemma around s T dirp m w p d : names_ok s T → T !! dirp = Some m → m !! w = Some p → dirents s !! p = Some d →
  rd_parent d = dirp ∧ rd_name d = w ∧ p ≠ dirp ∧ 0 < dirp ∧ 0 < p < next_object s ∧
  (rd_previous d = 0 ∨ rd_previous d ≠ p ∧ is_Some (dirents s !! rd_previous d)) ∧
  (rd_next d = 0 ∨ rd_next d ≠ p ∧ is_Some (dirents s !! rd_next d)).
Proof.
  intros HT Hm Hw Hd. assert (Hn : links s !! p = Some (node_of d)) by (apply links_dirent; by exists d).
  destruct (unlink_parent _ _ _ _ HT _ _ Hm _ _ Hw _ Hn) as (E1 & E2 & E3 & E4).
  destruct (unlink_split _ _ _ _ HT _ _ Hm _ _ Hw _ Hn) as (nd & l1 & l2 & e & _ & _ & H1 & H2 & Hdup & _).
  apply NoDup_fmap_1, NoDup_app in Hdup as (_ & Hdis & [Hp2 _]%NoDup_cons). cbn in *.
  assert (Hin : ∀ a c l a' c' q, seg (links s) dirp a c l a' c' → q ∈ l → is_Some (dirents s !! q)).
  { intros a c l a' c' q Hs Hq. destruct (seg_elem _ _ _ _ _ _ _ _ Hs Hq) as (_ & _ & n & Hnq & _).
    apply links_dirent in Hnq as (dq & ? & _). by eexists. }
  split_and!; try done.
  - apply (tr_keys _ _ _ _ HT p). by eexists.
  - apply (tr_keys _ _ _ _ HT p). by eexists.
  - destruct (seg_prev_in _ _ _ _ _ _ H1) as [->|Hq]; [by left|right].
    split; [|exact (Hin _ _ _ _ _ _ H1 Hq)]. intros E. rewrite E in Hq. apply (Hdis p Hq). set_solver.
  - pose proof (seg_head _ _ _ _ _ _ H2) as ->. destruct l2 as [|x l2]; [by left|right]. cbn.
    split; [set_solver|]. eapply Hin; [exact H2|]. set_solver.
Qed.
Lemma alter_or_skip s p f (b : bool) : (b = false → is_Some (dirents s !! p)) →
  (if b then mret tt else update_dirent p f) s = Done (tt, if b then s else alter_dirent p f s).
Proof. destruct b; [done|]. intros H. destruct (H eq_refl) as [d Hd]. by rewrite (update_alter s p d). Qed.
(** What an optional store does to the list fields. *)
Lemma links_step s p f g (b : bool) : (∀ d, node_of (f d) = g (node_of d)) → (b = true → links s !! p = None) →
  links (if b then s else alter_dirent p f s) = alter g p (links s).
Proof. intros Hf Hb. destruct b; [by rewrite alter_none by auto|by apply links_alter]. Qed.

Section unlinking.
Context s T dirp m w p d (HT : names_ok s T) (Hm : T !! dirp = Some m) (Hw : m !! w = Some p) (Hd : dirents s !! p = Some d).
#[local] Notation step1 := (if rd_previous d =? 0 then s else alter_dirent (rd_previous d) (rd_set_next (rd_next d)) s).
Definition unlinked (b : bool) : ramfs :=
  let s := step1 in
  let s := if b then alter_dirent dirp (rd_set_child (rd_next d)) s else s in
  if rd_next d =? 0 then s else alter_dirent (rd_next d) (rd_set_previous (rd_previous d)) s.
Lemma unlinked_same b : same_rest s (unlinked b) ∧ dnodes (unlinked b) = dnodes s.
Proof using.
  unfold unlinked. cbv zeta. destruct (rd_previous d =? 0), b, (rd_next d =? 0); (split; [done|]); by rewrite ?dnodes_alter.
Qed.
Lemma unlinked_links q b : dirents step1 !! dirp = Some q → b = (rd_child q =? p) →
  links (unlinked b) = unlink (links s) p (node_of d).
Proof using All.
  intros Hq Hb. destruct (around s T dirp m w p d HT Hm Hw Hd) as (E1 & E2 & E3 & E4 & E5 & _).
  assert (H0 : links s !! 0 = None).
  { destruct (links s !! 0) eqn:E; [|done]. pose proof (tr_keys _ _ _ _ HT 0 ltac:(by eexists)). lia. }
  assert (F1 : links step1 = alter (tn_set_next (rd_next d)) (rd_previous d) (links s)).
  { apply links_step; [done|]. intros E%Z.eqb_eq. by rewrite E. }
  assert (Fq : links step1 !! dirp = Some (node_of q)) by (apply links_dirent; by exists q).
  set (g n := if n_child n =? p then tn_set_child (rd_next d) n else n).
  assert (F2 : links (if b then alter_dirent dirp (rd_set_child (rd_next d)) step1 else step1) = alter g dirp (links step1)).
  { destruct b.
    - rewrite (links_alter _ _ _ (tn_set_child (rd_next d))) by done. apply alter_ext. intros n Hn.
      assert (n = node_of q) as -> by congruence. unfold g. cbn. by rewrite <-Hb.
    - symmetry. apply alter_id. intros n Hn. assert (n = node_of q) as -> by congruence. unfold g. cbn. by rewrite <-Hb. }
  unfold unlinked. cbv zeta. rewrite (links_step _ _ _ (tn_set_prev (rd_previous d))), F2, F1; [|done|].
  - unfold unlink. cbn. by rewrite E1.
  - intros E%Z.eqb_eq. rewrite F2, F1, E. rewrite lookup_alter_ne by lia.
    destruct (decide (rd_previous d = 0)) as [->|]; [by rewrite lookup_alter_eq, H0|by rewrite lookup_alter_ne].
Qed.
Lemma unlink_dirent_spec : ∃ s', unlink_dirent p s = Done (tt, s') ∧ same_rest s s' ∧ dnodes s' = dnodes s ∧
  dirents s' !! p = Some d ∧ links s' = unlink (links s) p (node_of d).
Proof using All.
  destruct (around s T dirp m w p d HT Hm Hw Hd) as (E1 & E2 & E3 & E4 & E5 & Hp & Hn).
  destruct (dir_entry s T dirp m HT Hm) as (q0 & Hq0 & _).
  assert (Hq : ∃ q, dirents step1 !! dirp = Some q).
  { destruct (rd_previous d =? 0); [by exists q0|]. destruct (decide (dirp = rd_previous d)) as [E|].
    - rewrite E in Hq0 |- *. eexists. by apply dirent_alter.
    - exists q0. by rewrite dirent_alter_ne. }
  destruct Hq as [q Hq]. set (b := rd_child q =? p). exists (unlinked b). destruct (unlinked_same b) as [HR HN].
  split; [|split; [done|split; [done|split; [|by eapply unlinked_links]]]].
  - unfold unlink_dirent. rewrite (K_bind_step _ _ _ _ _ (dirent_run s p d Hd)).
    assert (Hp' : (rd_previous d =? 0) = false → is_Some (dirents s !! rd_previous d)) by (intros E%Z.eqb_neq; by destruct Hp as [?|[_ ?]]).
    rewrite (K_bind_step _ _ _ _ _ (alter_or_skip s (rd_previous d) _ _ Hp')).
    rewrite E1, (K_bind_step _ _ _ _ _ (dirent_run step1 dirp q Hq)). fold b.
    assert (Hb : (if b then update_dirent dirp (rd_set_child (rd_next d)) else mret tt) step1 =
      Done (tt, if b then alter_dirent dirp (rd_set_child (rd_next d)) step1 else step1)).
    { destruct b; [by apply (update_alter _ _ q)|done]. }
    rewrite (K_bind_step _ _ _ _ _ Hb). rewrite alter_or_skip; [done|]. intros E%Z.eqb_neq.
    destruct Hn as [?|[_ Hn]]; [done|]. clear -Hn. unfold alter_dirent.
    destruct (rd_previous d =? 0), b; cbn; by rewrite ?lookup_alter_is_Some.
  - assert (Np : rd_previous d ≠ 0 → p ≠ rd_previous d) by (intros ?; destruct Hp as [?|[? _]]; [done|congruence]).
    assert (Nn : rd_next d ≠ 0 → p ≠ rd_next d) by (intros ?; destruct Hn as [?|[? _]]; [done|congruence]).
    unfold unlinked. cbv zeta. assert (F1 : dirents step1 !! p = Some d).
    { destruct (Z.eqb_spec (rd_previous d) 0); [done|]. by rewrite dirent_alter_ne by auto. }
    assert (F2 : dirents (if b then alter_dirent dirp (rd_set_child (rd_next d)) step1 else step1) !! p = Some d).
    { destruct b; [by rewrite dirent_alter_ne|done]. }
    destruct (Z.eqb_spec (rd_next d) 0); [exact F2|]. by rewrite dirent_alter_ne by auto.
Qed.
End unlinking.

(** ** ramfs_free_dirent *)

Lemma data_pointers_run s n : ∀ q l, chain (blocks s) q l →
  ∃ l', data_pointers n q s = Done (l', s) ∧ ∀ k, k ∈ l' → k = 0 ∨ k ∈ l.
Proof.
  induction n as [|n IH]; intros q l Hc; [by exists []; split; [done|set_solver]|].
  assert (Hq : q = 0 ∨ q ∈ l) by (destruct l as [|x l]; [by left|destruct Hc as [-> _]; right; by left]).
  destruct n as [|n]; [exists [q]; split; [done|set_solver]|]. cbn [data_pointers].
  destruct (Z.eqb_spec q 0) as [E|E]; [exists [q]; split; [done|set_solver]|].
  destruct l as [|x l]; [by destruct E|]. destruct Hc as (-> & b & Hb & _ & Hc). destruct (IH _ _ Hc) as (l' & Hl' & Hin).
  exists (x :: l'). rewrite (K_bind_step _ _ _ _ _ (block_run s x b Hb)), (K_bind_step _ _ _ _ _ Hl'). split; [done|].
  intros k [->|Hk]%elem_of_cons; [right; by left|]. destruct (Hin k Hk); [by left|right; by right].
Qed.
Lemma free_all_run l : ∀ s, ∃ bl, free_all l s = Done (tt, set_blocks bl s) ∧
  (∀ k, k ∉ l → bl !! k = blocks s !! k) ∧ (∀ k, is_Some (bl !! k) → is_Some (blocks s !! k)).
Proof.
  induction l as [|p l IH]; intros s; [exists (blocks s); by destruct s|]. destruct (IH s) as (bl & H & H1 & H2).
  exists (delete p bl). cbn [free_all]. rewrite (K_bind_step _ _ _ _ _ H). split; [done|]. split.
  - intros k [Hp Hk]%not_elem_of_cons. rewrite lookup_delete_ne by done. by apply H1.
  - intros k [x [_ Hk]%lookup_delete_Some]. apply H2. by eexists.
Qed.
(** Files small enough for the counter of blocks. *)
Definition countable_size (d : ramfs_dirent_t) : Prop := rd_file_size d < (2 ^ 31 - 1) * RAMFS_BLOCK_SIZE.
Lemma block_counter n : 0 ≤ n < (2 ^ 31 - 1) * RAMFS_BLOCK_SIZE → (s32 (n / RAMFS_BLOCK_SIZE + 1) <=? 0) = false.
Proof.
  intros [Hn Hb]. pose proof BS_pos. assert (n / RAMFS_BLOCK_SIZE < 2 ^ 31 - 1) by (apply Z.div_lt_upper_bound; lia).
  pose proof (Z.div_pos n RAMFS_BLOCK_SIZE Hn ltac:(done)). norm_int. apply Z.leb_gt. lia.
Qed.
Lemma free_files s s1 p d (l l' : list Z) (bl : gmap Z ramfs_data_t) : files_ok s → file s p d l → same_rest s s1 → dnodes s1 = dnodes s →
  (∀ k, k ∈ l' → k = 0 ∨ k ∈ l) → (∀ k, k ∉ l' → bl !! k = blocks s1 !! k) → (∀ k, is_Some (bl !! k) → is_Some (blocks s1 !! k)) →
  let s' := set_dirents (delete p (dirents s1)) (set_blocks bl s1) in
  files_ok s' ∧ ∀ h v, h ≠ p → file_bytes s h v → file_bytes s' h v.
Proof.
  intros Hok HF (RB & _ & _ & RN & _) HN Hin B1 B2 s'. apply (frame_files s s' p l'); [done|cbn; lia|..].
  - intros h Hh. rewrite <-HN. unfold dnodes. cbn. by rewrite !lookup_fmap, lookup_delete_ne.
  - intros d'. cbn. by rewrite lookup_delete_eq.
  - intros k Hk. cbn. by rewrite B1, RB.
  - intros k Hk. rewrite <-RB. by apply B2.
  - intros h d2 l2 Hh HF2 k Hk Hk2. destruct (Hin k Hk) as [->|Hkl].
    + pose proof (chain_fresh s _ _ _ (fo_fresh _ Hok) (fi_chain _ _ _ _ HF2) Hk2). lia.
    + by eapply (fo_disjoint _ Hok h p d2 d l2 l).
Qed.
Lemma free_dirent_spec s T dirp m w p d : names_ok s T → files_ok s → T !! dirp = Some m → m !! w = Some p →
  dirents s !! p = Some d → countable_size d →
  ∃ s', ramfs_free_dirent p s = Done (0, s') ∧ names_ok s' (delete p (<[dirp := delete w m]> T)) ∧ files_ok s' ∧
    read_only s' = read_only s ∧ mount s' = mount s ∧ ∀ h v, h ≠ p → file_bytes s h v → file_bytes s' h v.
Proof.
  intros HT Hok Hm Hw Hd Hsz. destruct (unlink_dirent_spec s T dirp m w p d HT Hm Hw Hd) as (s1 & H1 & HR & HN & Hd1 & HL).
  destruct (fo_file _ Hok _ _ Hd) as [l HF]. pose proof HR as (RB & RO & RM & RN & _).
  destruct (data_pointers_run s1 (Z.to_nat (s32 (rd_file_size d / RAMFS_BLOCK_SIZE + 1))) (rd_first_block d) l) as (l' & Hl' & Hin).
  { rewrite RB. apply (fi_chain _ _ _ _ HF). }
  destruct (free_all_run l' s1) as (bl & Hbl & B1 & B2).
  exists (set_dirents (delete p (dirents s1)) (set_blocks bl s1)). split.
  - unfold ramfs_free_dirent. rewrite (K_bind_step _ _ _ _ _ H1), (K_bind_step _ _ _ _ _ (dirent_run s1 p d Hd1)).
    cbv zeta. rewrite block_counter by (destruct (fi_size _ _ _ _ HF); unfold countable_size in Hsz; lia).
    rewrite (K_bind_step _ _ _ _ _ (ret_run tt s1)), (K_bind_step _ _ _ _ _ Hl'), (K_bind_step _ _ _ _ _ Hbl). done.
  - split; [|split; [|split; [done|split; [done|]]]]; [|apply (free_files s s1 p d l l' bl)..]; try done.
    unfold names_ok. cbn [mount next_object set_dirents set_blocks]. rewrite RM, RN.
    assert (links (set_dirents (delete p (dirents s1)) (set_blocks bl s1)) = delete p (unlink (links s) p (node_of d))) as ->
      by (rewrite <-HL; unfold links; cbn; apply fmap_delete).
    apply tree_unlink; try done. apply links_dirent. by exists d.
Qed.
End move.
