(* ===== verification/RamfsCalls.v ===== *)
(** * The operations on names in ramfs refine maps from names to entries

    The abstract state is a map from directories to maps from names; the
    specification says what each call returns and does to it. *)

From S2P Require Import Prelude Calendar Path Vfs VfsWalk Block Ramfs RamfsData RamfsTree RamfsNames RamfsDirs.

Inductive name_call :=
| CreateFile (path : list Z)
| CreateDirectory (path : list Z)
| MakeNode (path : list Z) (ty dev : Z)
| Delete (path : list Z)
| Rename (old_path new_path : list Z).

(** The entry of a path that does not lead to the root is taken out. *)
Definition remove_names (T : gmap Z (gmap (list Z) Z)) (root p : Z) (names : list (list Z)) : gmap Z (gmap (list Z) Z) :=
  match resolve T (removelast names) root with
  | Some dirp => delete p (<[dirp := delete (default [] (last names)) (default ∅ (T !! dirp))]> T)
  | None => T
  end.

Section calls.
Context {D C : Type}.
#[local] Notation ramfs := (ramfs D C).
Implicit Types (s : ramfs) (T : gmap Z (gmap (list Z) Z)).

Definition run_name_call (c : name_call) : K ramfs Z :=
  match c with
  | CreateFile path => ramfs_create_file path
  | CreateDirectory path => ramfs_create_directory path
  | MakeNode path ty dev => ramfs_mknod path ty dev
  | Delete path => ramfs_delete path
  | Rename old_path new_path => ramfs_rename old_path new_path
  end.

Definition open_count s (p : Z) : Z := default 0 (rd_open_count <$> dirents s !! p).
Definition type_of s (p : Z) : Z := default 0 (rd_type <$> dirents s !! p).
(** The result of a call and the maps after it.  An open file that is deleted keeps
    its name; an entry that is renamed loses the old name first. *)
Definition spec_name_call s T (c : name_call) : Z * gmap Z (gmap (list Z) Z) :=
  match c with
  | CreateFile path => create_names T (mount s) (next_object s) (components path) DT_FILE
  | CreateDirectory path => create_names T (mount s) (next_object s) (components path) DT_DIR
  | MakeNode path ty _ =>
    if (ty =? DT_BLOCK) || (ty =? DT_CHAR) then create_names T (mount s) (next_object s) (components path) ty
    else (- EINVAL, T)
  | Delete path =>
    match resolve T (components path) (mount s) with
    | None => (- ENOENT, T)
    | Some p => (0, if 0 <? open_count s p then T else remove_names T (mount s) p (components path))
    end
  | Rename old_path new_path =>
    match resolve T (components old_path) (mount s) with
    | None => (- ENOENT, T)
    | Some p =>
      place_names (remove_names T (mount s) p (components old_path)) (mount s) p (components new_path) (type_of s p)
    end
  end.
(** Paths fit their buffers, the root stays, files that are deleted have fewer than
    2^31 - 1 blocks, and a new name is not in use. *)
Definition admissible s T (c : name_call) : Prop :=
  match c with
  | CreateFile path | CreateDirectory path | MakeNode path _ _ => fits path
  | Delete path => fits path ∧ components path ≠ [] ∧
    ∀ p d, resolve T (components path) (mount s) = Some p → dirents s !! p = Some d → countable_size d
  | Rename old_path new_path => fits old_path ∧ fits new_path ∧ components old_path ≠ [] ∧ components new_path ≠ [] ∧
    ∀ p, resolve T (components old_path) (mount s) = Some p →
      resolve (remove_names T (mount s) p (components old_path)) (components new_path) (mount s) = None
  end.
(** The entry a call frees. *)
Definition freed s T (c : name_call) : option Z :=
  match c with
  | Delete path => p ← resolve T (components path) (mount s); if 0 <? open_count s p then None else Some p
  | _ => None
  end.
(** What all calls keep: the maps, the files, a mount that can be written. *)
Definition ramfs_ok s T : Prop := names_ok s T ∧ files_ok s ∧ read_only s !! mount s = Some false.
Definition keeps_files (s s' : ramfs) (p : option Z) : Prop :=
  same_mount s s' ∧ ∀ h v, p ≠ Some h → file_bytes s h v → file_bytes s' h v.

Lemma unless_read_only_run s m : read_only s !! mount s = Some false → unless_read_only m s = m s.
Proof. intros H. unfold unless_read_only. by rewrite (K_bind_step _ _ _ _ _ (is_read_only_run s false H)). Qed.
Lemma ok_same_mount s s' T : names_ok s' T → files_ok s' → same_mount s s' → read_only s !! mount s = Some false → ramfs_ok s' T.
Proof. intros H1 H2 [E1 E2] H3. split_and!; [done|done|by rewrite E1, E2]. Qed.
(** The directory and the name at the end of a path. *)
Lemma resolve_last T root names p : names ≠ [] → resolve T names root = Some p → ∃ dirp m w,
  resolve T (removelast names) root = Some dirp ∧ T !! dirp = Some m ∧ m !! w = Some p ∧ last names = Some w.
Proof.
  intros Hne Hr. destruct (exists_last Hne) as (ns & w & ->). rewrite removelast_last, last_snoc. rewrite resolve_app in Hr.
  destruct (resolve T ns root) as [dirp|]; [|done]. cbn in Hr. destruct (T !! dirp) as [m|] eqn:Em; [|done]. cbn in Hr.
  destruct (m !! w) as [q|] eqn:Eq; [|done]. injection Hr as ->. by exists dirp, m, w.
Qed.
Lemma same_files s s' : files_ok s → same_rest s s' → dnodes s' = dnodes s →
  files_ok s' ∧ ∀ h v, file_bytes s h v → file_bytes s' h v.
Proof.
  intros Hok (RB & _ & _ & RN & _) HN. set (p := fresh (dom (dirents s))).
  assert (Hp : dirents s !! p = None) by (apply not_elem_of_dom; apply is_fresh).
  destruct (frame_files s s' p [] Hok) as [H1 H2].
  - lia.
  - intros h _. by rewrite HN.
  - intros d Hd. exfalso. assert (dnodes s' !! p = Some (dnode d)) as E by (unfold dnodes; by rewrite lookup_fmap, Hd).
    rewrite HN in E. unfold dnodes in E. by rewrite lookup_fmap, Hp in E.
  - intros k _. by rewrite RB.
  - intros k. by rewrite RB.
  - set_solver.
  - split; [done|]. intros h v Hv. apply H2; [|done]. intros ->. destruct Hv as (d & l & [E _ _ _] & _). congruence.
Qed.
Lemma same_rest_mount s s' : same_rest s s' → same_mount s s'.
Proof. intros (_ & ? & ? & _). by split. Qed.

Lemma create_call s T path ty dev : ramfs_ok s T → fits path →
  let '(r, T') := create_names T (mount s) (next_object s) (components path) ty in
  ∃ s', unless_read_only (create path ty dev) s = Done (r, s') ∧ ramfs_ok s' T' ∧ keeps_files s s' None.
Proof.
  intros (HT & Hok & Hro) Hfit. rewrite unless_read_only_run by done. pose proof (create_spec s T path ty dev HT Hok Hro Hfit) as H.
  destruct (create_names _ _ _ _ _) as [r T']. destruct H as (s' & H1 & H2 & H3 & H4 & H5). exists s'. split; [done|].
  split; [by eapply ok_same_mount|]. split; [done|]. intros h v _. by apply H5.
Qed.
Lemma mknod_call s T path ty dev : ramfs_ok s T → fits path →
  let '(r, T') := spec_name_call s T (MakeNode path ty dev) in
  ∃ s', ramfs_mknod path ty dev s = Done (r, s') ∧ ramfs_ok s' T' ∧ keeps_files s s' None.
Proof.
  intros Hok Hfit. cbn [spec_name_call]. unfold ramfs_mknod. rewrite <-negb_orb.
  destruct ((ty =? DT_BLOCK) || (ty =? DT_CHAR)); cbn [negb]; [by apply create_call|].
  exists s. rewrite unless_read_only_run by apply Hok. by split_and!.
Qed.
Lemma delete_call s T path : ramfs_ok s T → admissible s T (Delete path) →
  let '(r, T') := spec_name_call s T (Delete path) in
  ∃ s', ramfs_delete path s = Done (r, s') ∧ ramfs_ok s' T' ∧ keeps_files s s' (freed s T (Delete path)).
Proof.
  intros (HT & Hok & Hro) (Hfit & Hne & Hsz). cbn [spec_name_call freed]. unfold ramfs_delete. rewrite unless_read_only_run by done.
  rewrite (K_bind_step _ _ _ _ _ (get_dirent_spec s T path HT (components_good path Hfit))).
  destruct (resolve T (components path) (mount s)) as [p|] eqn:Er; [|exists s; by split_and!]. cbn [Z.ltb Z.compare mbind option_bind].
  destruct (resolve_last T _ _ p Hne Er) as (dirp & m & w & E1 & E2 & E3 & E4).
  destruct (tr_child _ _ _ _ HT _ _ _ _ E2 E3) as (n & Hn & _). apply links_dirent in Hn as (d & Hd & _).
  rewrite (K_bind_step _ _ _ _ _ (update_alter s p d _ Hd)). set (s1 := alter_dirent p rd_set_to_delete s).
  assert (Hd1 : dirents s1 !! p = Some (rd_set_to_delete d)) by (by apply dirent_alter).
  assert (HT1 : names_ok s1 T) by (unfold names_ok, s1; by rewrite links_alter_same).
  destruct (same_files s s1 Hok) as [Hok1 Hb1]; [done|by apply dnodes_alter|].
  rewrite (K_bind_step _ _ _ _ _ (dirent_run s1 p _ Hd1)). unfold open_count. rewrite Hd. cbn [fmap option_fmap option_map default from_option id rd_open_count rd_set_to_delete].
  destruct (0 <? rd_open_count d).
  - exists s1. split; [done|]. split; [by split|]. split; [done|]. intros h v _. apply Hb1.
  - destruct (free_dirent_spec s1 T dirp m w p _ HT1 Hok1 E2 E3 Hd1 (Hsz p d eq_refl Hd)) as (s' & H1 & H2 & H3 & H4 & H5 & H6).
    exists s'. split; [done|]. split.
    + split; [|split; [done|by rewrite H4, H5]]. unfold remove_names. by rewrite E1, E2, E4.
    + split; [by split|]. intros h v Hh Hv. apply H6; [congruence|by apply Hb1].
Qed.
Lemma rename_call s T old_path new_path : ramfs_ok s T → admissible s T (Rename old_path new_path) →
  let '(r, T') := spec_name_call s T (Rename old_path new_path) in
  ∃ s', ramfs_rename old_path new_path s = Done (r, s') ∧ ramfs_ok s' T' ∧ keeps_files s s' None.
Proof.
  intros (HT & Hok & Hro) (Hfit & Hfit' & Hne & Hne' & Hfree). cbn [spec_name_call]. unfold ramfs_rename. rewrite unless_read_only_run by done.
  rewrite (K_bind_step _ _ _ _ _ (get_dirent_spec s T old_path HT (components_good old_path Hfit))).
  destruct (resolve T (components old_path) (mount s)) as [p|] eqn:Er; [|exists s; by split_and!]. cbn [Z.ltb Z.compare].
  specialize (Hfree p eq_refl). destruct (resolve_last T _ _ p Hne Er) as (dirp & m & w & E1 & E2 & E3 & E4).
  destruct (tr_child _ _ _ _ HT _ _ _ _ E2 E3) as (n & Hn & _). apply links_dirent in Hn as (d & Hd & _).
  destruct (unlink_dirent_spec s T dirp m w p d HT E2 E3 Hd) as (s1 & H1 & HR & HN & Hd1 & HL).
  rewrite (K_bind_step _ _ _ _ _ H1).
  destruct (split_name_spec new_path Hfit' Hne') as (dn & w' & -> & Ec & Hw & Hdn). rewrite Ec in *. cbn [kopt].
  rewrite (K_bind_step _ _ s1 (dn, w') s1) by done. rewrite (K_bind_step _ _ _ _ _ (update_alter s1 p d _ Hd1)).
  set (s2 := alter_dirent p (rd_set_name w') s1). pose proof HR as (_ & RO & RM & RN & _).
  assert (ET : remove_names T (mount s) p (components old_path) = delete p (<[dirp := delete w m]> T))
    by (unfold remove_names; by rewrite E1, E2, E4). rewrite ET in *.
  assert (HLo : loose s2 (delete p (<[dirp := delete w m]> T)) p (rd_set_name w' d)).
  { split; [by apply dirent_alter| |].
    - destruct (around s T dirp m w p d HT E2 E3 Hd) as (_ & _ & _ & _ & Hk & _). cbn. by rewrite RN.
    - cbn. rewrite RM, RN. replace (delete p (links s2)) with (delete p (unlink (links s) p (node_of d))).
      + apply tree_unlink; try done. apply links_dirent. by exists d.
      + rewrite <-HL. unfold s2, links, alter_dirent. cbn. rewrite <-!fmap_delete. f_equal.
        apply map_eq. intros q. destruct (decide (q = p)) as [->|]; [by rewrite !lookup_delete_eq|].
        by rewrite !lookup_delete_ne, lookup_alter_ne. }
  pose proof (add_dirent_spec s2 _ dn p _ HLo ltac:(cbn; by rewrite RO, RM) (components_good dn Hdn) Hw
    ltac:(change (mount s2) with (mount s1); rewrite RM; exact Hfree)) as Ha.
  change (mount s2) with (mount s1) in Ha. rewrite RM in Ha. cbn [rd_name rd_type rd_set_name] in Ha.
  replace (type_of s p) with (rd_type d) by (unfold type_of; by rewrite Hd).
  destruct (place_names _ _ _ _ _) as [r T']. destruct Ha as (s' & K1 & K2 & K3 & K4). exists s'.
  assert (HR' : same_rest s s') by (transitivity s1; [done|exact K3]).
  assert (HN' : dnodes s' = dnodes s) by (rewrite K4; unfold s2; by rewrite dnodes_alter).
  destruct (same_files s s' Hok HR' HN') as [Hok' Hb]. pose proof (same_rest_mount s s' HR') as Hsm.
  split; [exact K1|]. split; [by eapply ok_same_mount|]. split; [done|]. intros h v _. apply Hb.
Qed.

(** C34: The directories of ramfs are maps from names to entries.  Let the entries form
    such maps and the files have disjoint chains of blocks.  Looking up a path follows
    its names through the maps.  And for each admissible call of create file, create
    directory, mknod, delete and rename the result is that of the specification and
    the maps change as it says: a new name appears in one directory, a deleted one
    disappears unless the file is open, a renamed one moves (a directory, which loses
    its entries, and a file whose new directory is missing included); all files but a
    freed one keep their bytes, and both invariants are kept.  The mount
    can be written, and a call is admissible if its paths are shorter than the buffer
    of a name; if it does not delete the root, nor rename it or to it; if the
    blocks of a deleted file can be counted; and if the new name of a rename is not in
    use once the old one is gone: otherwise the directory has two entries of
    one name (rename_duplicates_name). *)
Theorem ramfs_directories_are_maps s T c : ramfs_ok s T → admissible s T c →
  (∀ path, fits path → ramfs_get_dirent path s =
    Done (match resolve T (components path) (mount s) with Some p => (0, p) | None => (- ENOENT, 0) end, s)) ∧
  let '(r, T') := spec_name_call s T c in
  ∃ s', run_name_call c s = Done (r, s') ∧ ramfs_ok s' T' ∧ keeps_files s s' (freed s T c).
Proof.
  intros Hok Ha. split; [intros path Hp; apply get_dirent_spec; [apply Hok|by apply components_good]|].
  destruct c as [path|path|path ty dev|path|old new]; [by apply create_call..|by apply mknod_call|by apply delete_call|by apply rename_call].
Qed.
End calls.

(** *** Runs from a mount with the empty file "a" *)

Definition one_names : gmap Z (gmap (list Z) Z) := {[ 1 := {[ [97] := 2 ]} ]}.
Lemma one_file_names : ramfs_ok one_file one_names.
Proof.
  assert (Hone : ∀ p m, one_names !! p = Some m → p = 1 ∧ m = {[ [97] := 2 ]}) by (unfold one_names; intros p m [<- <-]%lookup_singleton_Some; done).
  split; [|split; [apply one_file_ok|done]]. split.
  - intros p m [-> ->]%Hone. exists (mk_tnode [] DT_DIR 0 0 0 2), [2], 2.
    split; [done|]. split; [done|]. split; [|split; [apply NoDup_singleton|done]].
    split; [done|]. split; [done|]. split; [done|]. exists (mk_tnode [97] DT_FILE 0 0 1 0).
    split; [done|]. split; [done|]. split; [done|]. split; [|done]. split; [done|]. split; [done|by repeat constructor].
  - intros p m w q [-> ->]%Hone [<- <-]%lookup_singleton_Some. exists (mk_tnode [97] DT_FILE 0 0 1 0).
    split_and!; try done. split; [done|]. intros [? E]. done.
  - by eexists.
  - intros n E. change (Some (mk_tnode [] DT_DIR 0 0 0 2) = Some n) in E. by injection E as <-.
  - done.
  - intros p. unfold links. cbn [one_file dirents]. rewrite fmap_insert, map_fmap_singleton. cbn [next_object].
    intros [<-|[_ [n [<- _]%lookup_singleton_Some]]]%lookup_insert_is_Some; cbn; lia.
Qed.
Lemma ramfs_directories_are_maps_witness : ∃ s', ramfs_create_directory [47; 98] one_file = Done (0, s') ∧
  ramfs_ok s' {[ 1 := {[ [97] := 2; [98] := 3 ]}; 3 := ∅ ]}.
Proof.
  destruct (ramfs_directories_are_maps one_file one_names (CreateDirectory [47; 98]) one_file_names) as [_ (s' & H1 & H2 & _)].
  - split; [repeat constructor; discriminate|reflexivity].
  - exists s'. split; [exact H1|]. replace ({[ 1 := {[ [97] := 2; [98] := 3 ]}; 3 := ∅ ]} : gmap Z (gmap (list Z) Z))
      with (spec_name_call one_file one_names (CreateDirectory [47; 98])).2; [exact H2|]. vm_compute. reflexivity.
Defined.

(** *** What the specification shows of renaming and deleting *)

(** A directory that is renamed loses its entries. *)
Lemma rename_empties_directory :
  match (ramfs_create_directory [98];; ramfs_create_file [98; 47; 99];; ramfs_rename [98] [100];; ramfs_get_dirent [100; 47; 99]) one_file with
  | Done (r, _) => r = (- ENOENT, 0)
  | _ => False
  end.
Proof. vm_compute. reflexivity. Qed.
(** A rename that fails loses the file. *)
Lemma rename_loses_file :
  match (r ← ramfs_rename [97] [120; 47; 97]; f ← ramfs_get_dirent [97]; mret (r, f)) one_file with
  | Done (r, _) => r = (- ENOENT, (- ENOENT, 0))
  | _ => False
  end.
Proof. vm_compute. reflexivity. Qed.
(** A rename to a name in use leaves two entries of that name. *)
Lemma rename_duplicates_name :
  match (ramfs_create_file [98];; ramfs_rename [97] [98];; e0 ← ramfs_readdir 1 0; e1 ← ramfs_readdir 1 1; mret (e0, e1)) one_file with
  | Done ((e0, e1), _) => e0 = (1, mk_dirent [98] DT_FILE) ∧ e1 = e0
  | _ => False
  end.
Proof. vm_compute. split; reflexivity. Qed.
(** The name of a deleted file cannot be used again while the file is open. *)
Lemma deleted_name_stays :
  match (ramfs_open 2;; ramfs_delete [97];; e ← ramfs_readdir 1 0; r ← ramfs_create_file [97]; mret (e.1, r)) one_file with
  | Done (r, _) => r = (0, - EEXIST)
  | _ => False
  end.
Proof. vm_compute. reflexivity. Qed.
