(* ===== verification/Fat.v ===== *)
(** * kernel/fs/fat.c: the FAT file system, its data and its table

    The packed structures of the disk are lists of bytes with a function per field.
    The mounts are heap objects, keys of [fat_mounts]; [data] is the selected one
    (0 is NULL).  The copy of the table in memory is the list of bytes at data->fat.
    A buffer on the stack starts with arbitrary bytes, taken from [junk]: element
    [junk_used] is the next.  Sectors go through the block layer of Block.v. *)

From S2P Require Import Prelude Calendar Path Vfs Block.

Definition CLUSTER_CHAIN_END : Z := 0x0FFFFFF8.
Definition CLUSTER_FREE : Z := 0.
Definition DIRENT_VOLUME_LABEL : Z := 0x08.
Definition DIRENT_DIRECTORY : Z := 0x10.
Definition DIRENT_END : Z := 0x00.
Definition DIRENT_DELETED : Z := 0xE5.
Definition DIRENT_SIZE : Z := 32.
Definition NPATH : Z := 512.

(** Bytes of a packed structure, and a 32-bit word as bytes. *)
Definition le_at (off n : Z) (b : list Z) : Z := le (zslice off n b).
Definition put32 (v : Z) : list Z := put16 (v mod 65536) ++ put16 (v / 65536).

(** bpb_t *)
Definition bytes_per_sector (b : list Z) : Z := le_at 11 2 b.
Definition sectors_per_cluster (b : list Z) : Z := le_at 13 1 b.
Definition reserved_sectors (b : list Z) : Z := le_at 14 2 b.
Definition num_fats (b : list Z) : Z := le_at 16 1 b.
Definition total_sectors_16 (b : list Z) : Z := le_at 19 2 b.
Definition fat_size_16 (b : list Z) : Z := le_at 22 2 b.
Definition total_sectors_32 (b : list Z) : Z := le_at 32 4 b.
Definition fat_size_32 (b : list Z) : Z := le_at 36 4 b.
Definition root_cluster (b : list Z) : Z := le_at 44 4 b.
Definition fs_info (b : list Z) : Z := le_at 48 2 b.
Definition file_system_type (b : list Z) : list Z := zslice 82 8 b.
(** fsinfo_t *)
Definition next_free_cluster (b : list Z) : Z := le_at 492 4 b.

Record fat_dirent_t := mk_fat_dirent {
  de_name : list Z;
  attributes : Z;
  de_reserved : Z;
  creation_time_tenth : Z;
  creation_time : Z;
  creation_date : Z;
  last_access_date : Z;
  first_cluster_high : Z;
  last_modification_time : Z;
  last_modification_date : Z;
  first_cluster_low : Z;
  de_file_size : Z;
}.
Definition get_dirent (b : list Z) : fat_dirent_t :=
  mk_fat_dirent (zslice 0 11 b) (le_at 11 1 b) (le_at 12 1 b) (le_at 13 1 b) (le_at 14 2 b) (le_at 16 2 b)
    (le_at 18 2 b) (le_at 20 2 b) (le_at 22 2 b) (le_at 24 2 b) (le_at 26 2 b) (le_at 28 4 b).
Definition put_dirent (d : fat_dirent_t) : list Z :=
  de_name d ++ [attributes d; de_reserved d; creation_time_tenth d] ++ put16 (creation_time d) ++
  put16 (creation_date d) ++ put16 (last_access_date d) ++ put16 (first_cluster_high d) ++
  put16 (last_modification_time d) ++ put16 (last_modification_date d) ++ put16 (first_cluster_low d) ++
  put32 (de_file_size d).
Definition zero_fat_dirent : fat_dirent_t := mk_fat_dirent (zrepeat 11 0) 0 0 0 0 0 0 0 0 0 0 0.
Definition set_name (n : list Z) d := mk_fat_dirent n (attributes d) (de_reserved d) (creation_time_tenth d) (creation_time d) (creation_date d) (last_access_date d) (first_cluster_high d) (last_modification_time d) (last_modification_date d) (first_cluster_low d) (de_file_size d).
Definition set_attributes a d := mk_fat_dirent (de_name d) a (de_reserved d) (creation_time_tenth d) (creation_time d) (creation_date d) (last_access_date d) (first_cluster_high d) (last_modification_time d) (last_modification_date d) (first_cluster_low d) (de_file_size d).
Definition set_created date time d := mk_fat_dirent (de_name d) (attributes d) (de_reserved d) (creation_time_tenth d) time date (last_access_date d) (first_cluster_high d) (last_modification_time d) (last_modification_date d) (first_cluster_low d) (de_file_size d).
Definition set_modified date time d := mk_fat_dirent (de_name d) (attributes d) (de_reserved d) (creation_time_tenth d) (creation_time d) (creation_date d) (last_access_date d) (first_cluster_high d) time date (first_cluster_low d) (de_file_size d).
Definition set_cluster_words high low d := mk_fat_dirent (de_name d) (attributes d) (de_reserved d) (creation_time_tenth d) (creation_time d) (creation_date d) (last_access_date d) high (last_modification_time d) (last_modification_date d) low (de_file_size d).
Definition set_file_size n d := mk_fat_dirent (de_name d) (attributes d) (de_reserved d) (creation_time_tenth d) (creation_time d) (creation_date d) (last_access_date d) (first_cluster_high d) (last_modification_time d) (last_modification_date d) (first_cluster_low d) n.
(** The cluster number in an entry, split into two words. *)
Definition dirent_cluster (d : fat_dirent_t) : Z := Z.lor (Z.shiftl (first_cluster_high d) 16) (first_cluster_low d).
Definition set_cluster (c : Z) (d : fat_dirent_t) : fat_dirent_t :=
  set_cluster_words (Z.land (Z.shiftr c 16) 0xFFFF) (Z.land c 0xFFFF) d.
(** The first byte of the name. *)
Definition name_0 (d : fat_dirent_t) : Z := default 0 (head (de_name d)).
(** The entry at an offset of a buffer. *)
Definition dirent_at (off : Z) (buffer : list Z) : option fat_dirent_t := get_dirent <$> field off DIRENT_SIZE buffer.
(** A copy into a buffer; past its end is a fault. *)
Definition store (off : Z) (bytes buffer : list Z) : option (list Z) :=
  if (0 <=? off) && (off + zlen bytes <=? zlen buffer) then Some (zsplice off bytes buffer) else None.

Record fat_data_t := mk_fat_data {
  backing : block_device_t;
  bpb : list Z;
  fat : list Z;
  fsinfo : list Z;
  read_only : bool;
  fat_size : Z;
  last_free : Z;
}.
Definition set_fat x d := mk_fat_data (backing d) (bpb d) x (fsinfo d) (read_only d) (fat_size d) (last_free d).
Definition set_last_free x d := mk_fat_data (backing d) (bpb d) (fat d) (fsinfo d) (read_only d) (fat_size d) x.
Definition bytes_per_cluster (d : fat_data_t) : Z := sectors_per_cluster (bpb d) * bytes_per_sector (bpb d).

Record fatfs D := mk_fatfs {
  fat_mounts : gmap Z fat_data_t;
  data : Z;
  fat_next : Z;
  fat_block : Block.blk D;
  fat_vvar : vvar_t;
  junk : Z → Z;
  junk_used : Z;
}.
Arguments mk_fatfs {_}. Arguments fat_mounts {_}. Arguments data {_}. Arguments fat_next {_}. Arguments fat_block {_}.
Arguments fat_vvar {_}. Arguments junk {_}. Arguments junk_used {_}.

(** ** Names *)

Fixpoint normalize_loop (input_path output : list Z) : list Z :=
  match input_path with
  | [] => output
  | c :: input_path =>
    let c := if (97 <=? c) && (c <=? 122) then c - 32 else c in
    if (c =? SLASH) && bool_decide (head output = Some SLASH) then normalize_loop input_path output
    else normalize_loop input_path (c :: output)
  end.
(** The output is built from its end; [j > 0] and the last character tested. *)
Definition normalize_fat_path (input_path : list Z) : list Z :=
  let output := normalize_loop (skip_slashes input_path) [] in
  reverse (if bool_decide (head output = Some SLASH) then tail output else output).
(** Into a buffer of [capacity] bytes, with the terminator. *)
Definition normalized (capacity : Z) (path : list Z) : option (list Z) :=
  let npath := normalize_fat_path path in
  if zlen npath <? capacity then Some npath else None.

Fixpoint until (stops : list Z) (path : list Z) : list Z * list Z :=
  match path with
  | [] => ([], [])
  | c :: q => if bool_decide (c ∈ stops) then ([], path) else let '(w, rest) := until stops q in (c :: w, rest)
  end.
Definition padded (n : Z) (w : list Z) : list Z := ztake n w ++ zrepeat (n - zlen w) 32.
(** [path] has 12 bytes.  A name that fills them without a dot makes the code look
    at a byte behind them; whether it is a dot or not, the extension stays blank. *)
Definition readable_to_8d3 (path : list Z) : list Z :=
  let '(name, rest) := until [46; 32; 0] path in
  let ext := match rest with c :: q => if c =? 46 then fst (until [32; 0] q) else [] | [] => [] end in
  padded 8 name ++ padded 3 ext ++ zdrop 11 path.

Definition not_spaces (l : list Z) : list Z := filter (λ c, c ≠ 32) l.
Definition f8d3_to_readable (path : list Z) : list Z :=
  let name := not_spaces (ztake 8 path) in
  let ext := not_spaces (zslice 8 3 path) in
  let temp := name ++ (if 0 <? zlen ext then 46 :: ext else []) in
  temp ++ zrepeat (12 - zlen temp) 0.
(** The string in a buffer. *)
Definition c_string (buffer : list Z) : list Z := fst (until [0] buffer).

(** Up to 12 characters of a name, in 12 blanks. *)
Fixpoint take_component (n : nat) (stop : Z → bool) (path : list Z) : list Z * list Z :=
  match n, path with
  | S n, c :: q => if stop c then ([], path) else let '(w, rest) := take_component n stop q in (c :: w, rest)
  | _, _ => ([], path)
  end.
Definition component_of (w : list Z) : list Z := readable_to_8d3 (w ++ zrepeat (12 - zlen w) 32).

(** dirname[256] with the last slash; filename[12] is filled without a terminator. *)
Fixpoint slash_before (path : list Z) (n : nat) : nat :=
  match n with
  | O => O
  | S k => if is_slash (nth k path 0) then S k else slash_before path k
  end.
Definition separate_dirname_filename (path filename : list Z) : option (list Z * list Z) :=
  let i := slash_before path (length path) in
  let dirname := take i path in
  let name := take 12 (drop i path) in
  if zlen dirname <? 256 then Some (dirname, name ++ drop (length name) filename) else None.

Section fat.
Context {D : Type}.
#[local] Notation fatfs := (fatfs D).
Implicit Types (s : fatfs).

Definition set_fat_mounts x s : fatfs := mk_fatfs x (data s) (fat_next s) (fat_block s) (fat_vvar s) (junk s) (junk_used s).
Definition set_data x s : fatfs := mk_fatfs (fat_mounts s) x (fat_next s) (fat_block s) (fat_vvar s) (junk s) (junk_used s).
Definition set_fat_next x s : fatfs := mk_fatfs (fat_mounts s) (data s) x (fat_block s) (fat_vvar s) (junk s) (junk_used s).
Definition set_fat_block x s : fatfs := mk_fatfs (fat_mounts s) (data s) (fat_next s) x (fat_vvar s) (junk s) (junk_used s).
Definition set_junk_used x s : fatfs := mk_fatfs (fat_mounts s) (data s) (fat_next s) (fat_block s) (fat_vvar s) (junk s) x.

Definition lift_block {A} (m : K (Block.blk D) A) : K fatfs A := λ s,
  match m (fat_block s) with
  | Done (a, b) => Done (a, set_fat_block b s)
  | Panic => Panic
  | Fault => Fault
  | OutOfFuel => OutOfFuel
  end.
Definition fat_data : K fatfs fat_data_t := s ← kget; kopt (fat_mounts s !! data s).
Definition update_data (f : fat_data_t → fat_data_t) : K fatfs unit :=
  d ← fat_data; kmodify (λ s, set_fat_mounts (<[data s := f d]> (fat_mounts s)) s).
(** A buffer of [n] bytes on the stack. *)
Definition uninit (n : Z) : K fatfs (list Z) :=
  s ← kget;
  kmodify (set_junk_used (junk_used s + n));;
  mret ((λ i, u8 (junk s i)) <$> seqZ (junk_used s) n).
Definition now : K fatfs (Z * Z) := s ← kget; kopt (unix_to_fat_timestamp (get_time (fat_vvar s))).

(** [read_sectors(data->backing, lba, buffer, count)]: what the driver stored, then
    the rest of the buffer. *)
Definition read_into (buffer : list Z) (lba count : Z) : K fatfs (Z * list Z) :=
  d ← fat_data;
  r ← lift_block (read_sectors (backing d) lba count);
  let '(res, bytes) := r in
  if zlen buffer <? zlen bytes then kfault else mret (res, bytes ++ zdrop (zlen bytes) buffer).
Definition write_out (lba : Z) (buffer : list Z) (count : Z) : K fatfs Z :=
  d ← fat_data; lift_block (write_sectors (backing d) lba buffer count).
Definition sector_buffer (lba : Z) : K fatfs (list Z) :=
  b ← uninit 512; r ← read_into b lba 1; mret (snd r).

(** ** Mounting *)

Definition fat_check (device : block_device_t) : K fatfs Z :=
  b ← uninit 512;
  r ← lift_block (read_sectors device 0 1);
  if 512 <? zlen (snd r) then kfault
  else
    let bpb := snd r ++ zdrop (zlen (snd r)) b in
    mret (Z.b2z (memcmp_bytes (file_system_type bpb) [70; 65; 84; 51; 50; 32; 32; 32] =? 0)).
Definition fat_get_bpb : K fatfs (list Z) := sector_buffer 0.
Definition fat_get_fsinfo : K fatfs (list Z) := d ← fat_data; sector_buffer (fs_info (bpb d)).
Definition total_sectors (b : list Z) : Z :=
  if negb (total_sectors_16 b =? 0) then total_sectors_16 b else total_sectors_32 b.
Definition fat_sectors (b : list Z) : Z :=
  if negb (fat_size_16 b =? 0) then fat_size_16 b else fat_size_32 b.
(** [data] stays at the freed object when the table cannot be read. *)
Definition fat_mount (device : block_device_t) (flags : Z) : K fatfs Z :=
  s ← kget;
  let p := fat_next s in
  let set d := kmodify (λ s, set_fat_mounts (<[p := d]> (fat_mounts s)) s) in
  kmodify (λ s, set_data p (set_fat_next (p + 1) s));;
  set (mk_fat_data device (zrepeat 512 0) [] (zrepeat 512 0) false 0 0);;
  b ← fat_get_bpb;
  set (mk_fat_data device b [] (zrepeat 512 0) false 0 0);;
  info ← fat_get_fsinfo;
  let n := fat_sectors b in
  let data_sectors := u32 (total_sectors b - u32 (reserved_sectors b + u32 (num_fats b * n))) in
  if sectors_per_cluster b =? 0 then kfault
  else
    let max_clusters := data_sectors / sectors_per_cluster b in
    let last_free := if (2 <=? next_free_cluster info) && (next_free_cluster info <? max_clusters)
                     then next_free_cluster info else 2 in
    set (mk_fat_data device b (zrepeat (u32 (n * bytes_per_sector b)) 0) info (has flags 1) n last_free);;
    r ← read_into (zrepeat (u32 (n * bytes_per_sector b)) 0) (reserved_sectors b) n;
    let '(res, table) := r in
    if res <? 0 then
      kmodify (λ s, set_fat_mounts (delete p (fat_mounts s)) s);; mret 0
    else update_data (set_fat table);; mret p.
Definition fat_select (p_data : Z) : K fatfs unit := kmodify (set_data p_data).

(** ** The table *)

Definition read_fat (cluster : Z) : K fatfs Z :=
  d ← fat_data; b ← kopt (field (4 * cluster) 4 (fat d)); mret (le b).
Fixpoint write_fat_copies (n : nat) (sector ent_offset content : Z) : K fatfs unit :=
  match n with
  | O => mret tt
  | S n =>
    d ← fat_data;
    sector_buf ← sector_buffer sector;
    old ← kopt (field ent_offset 4 sector_buf);
    let newval := Z.lor (Z.land (le old) 0xF0000000) (Z.land content 0x0FFFFFFF) in
    buf ← kopt (store ent_offset (put32 newval) sector_buf);
    write_out sector buf 1;;
    write_fat_copies n (u32 (sector + fat_size d)) ent_offset content
  end.
Definition write_fat (cluster content : Z) : K fatfs unit :=
  d ← fat_data;
  table ← kopt (store (4 * cluster) (put32 content) (fat d));
  update_data (set_fat table);;
  let fat_offset := u32 (cluster * 4) in
  if bytes_per_sector (bpb d) =? 0 then kfault
  else
    write_fat_copies (Z.to_nat (num_fats (bpb d)))
      (u32 (reserved_sectors (bpb d) + fat_offset / bytes_per_sector (bpb d)))
      (fat_offset mod bytes_per_sector (bpb d)) content.
Definition next_cluster (current_cluster : Z) : K fatfs Z :=
  n ← read_fat current_cluster; mret (Z.land n 0x0FFFFFFF).

Definition first_data_sector (d : fat_data_t) : Z :=
  u32 (reserved_sectors (bpb d) + u32 (num_fats (bpb d) * fat_size d)).
Definition get_first_cluster_sector (d : fat_data_t) (cluster : Z) : Z :=
  u32 (u32 (u32 (cluster - 2) * sectors_per_cluster (bpb d)) + first_data_sector d).
Definition read_cluster (buffer : list Z) (cluster : Z) : K fatfs (Z * list Z) :=
  d ← fat_data; read_into buffer (get_first_cluster_sector d cluster) (sectors_per_cluster (bpb d)).
Definition write_cluster (cluster : Z) (buffer : list Z) : K fatfs Z :=
  d ← fat_data; write_out (get_first_cluster_sector d cluster) buffer (sectors_per_cluster (bpb d)).

(** One sector of the table: nothing, or the result with which the search ends. *)
Fixpoint scan_entries (n : nat) (cluster total_clusters : Z) (entries : list Z) : option (option Z) :=
  match n with
  | O => Some None
  | S n =>
    if cluster <? 2 then scan_entries n (u32 (cluster + 1)) total_clusters (zdrop 4 entries)
    else if u32 (total_clusters + 2) <=? cluster then Some (Some 0)
    else
      e ← field 0 4 entries;
      if Z.land (le e) 0x0FFFFFFF =? CLUSTER_FREE then Some (Some cluster)
      else scan_entries n (u32 (cluster + 1)) total_clusters (zdrop 4 entries)
  end.
Fixpoint scan_sectors (n : nat) (sector entries_per_sector total_clusters : Z) : K fatfs (option Z) :=
  match n with
  | O => mret None
  | S n =>
    d ← fat_data;
    b ← uninit 512;
    r ← read_into b (u32 (reserved_sectors (bpb d) + sector)) 1;
    if fst r <? 0 then mret (Some 0)
    else
      o ← kopt (scan_entries (Z.to_nat entries_per_sector) (u32 (sector * entries_per_sector)) total_clusters (snd r));
      match o with
      | Some c => mret (Some c)
      | None => scan_sectors n (sector + 1) entries_per_sector total_clusters
      end
  end.
Definition total_clusters (d : fat_data_t) : Z :=
  u32 (total_sectors (bpb d) - first_data_sector d) / sectors_per_cluster (bpb d).
Definition fat_compute_free_cluster : K fatfs Z :=
  d ← fat_data;
  if (sectors_per_cluster (bpb d) =? 0) || (bytes_per_sector (bpb d) =? 0) then kfault
  else
    let total_clusters := total_clusters d in
    let entries_per_sector := bytes_per_sector (bpb d) / 4 in
    let start_cluster :=
      if (last_free d <? 2) || (u32 (total_clusters + 2) <=? last_free d) then 2 else last_free d in
    let start_sector := u32 (start_cluster * 4) / bytes_per_sector (bpb d) in
    o ← scan_sectors (Z.to_nat (fat_size d - start_sector)) start_sector entries_per_sector total_clusters;
    o ← match o with
        | Some c => mret (Some c)
        | None => scan_sectors (Z.to_nat start_sector) 0 entries_per_sector total_clusters
        end;
    match o with
    | None => mret 0
    | Some c => (if c =? 0 then mret tt else update_data (set_last_free c));; mret c
    end.
End fat.
