(* ===== verification/FatDir.v ===== *)
(** * kernel/fs/fat.c: directories

    Looking entries up, listing, deleting and creating them.  The searches follow
    chains of clusters; their fuel is the number of entries that the clusters of the
    table can hold, which a chain without a cycle never exceeds. *)

From S2P Require Import Prelude Calendar Path Vfs Block Fat.

Record fat_dirent_ref_t := mk_ref {
  ref_dirent : fat_dirent_t;
  found : bool;
  ref_cluster : Z;
  position_sector : Z;
  position_offset : Z;
}.
(** The handle of a position on the disk. *)
Definition handle_of (sector offset : Z) : Z := Z.lor (Z.shiftl sector 32) offset.
Definition handle_sector (handle : Z) : Z := u32 (Z.shiftr handle 32).
Definition handle_offset (handle : Z) : Z := Z.land handle 0xffffffff.
(** An entry that the searches pass over. *)
Definition hidden (d : fat_dirent_t) : bool := (name_0 d =? DIRENT_DELETED) || has (attributes d) DIRENT_VOLUME_LABEL.
Definition dead (d : fat_dirent_t) : bool := (name_0 d =? DIRENT_DELETED) || (name_0 d =? DIRENT_END).
Definition DOT_NAME : list Z := 46 :: zrepeat 10 32.
Definition DOTDOT_NAME : list Z := 46 :: 46 :: zrepeat 9 32.

Section dir.
Context {D : Type}.
#[local] Notation fatfs := (fatfs D).
Implicit Types (s : fatfs).

(** ** Looking up *)

Definition chain_fuel (d : fat_data_t) : nat := Z.to_nat (zlen (fat d) / 4 + 1).
Definition entries_fuel (d : fat_data_t) : nat :=
  Z.to_nat ((zlen (fat d) / 4 + 1) * (bytes_per_cluster d / DIRENT_SIZE + 1)).
Fixpoint search_loop (fuel : nat) (component : list Z) (cluster : Z) (buffer : list Z) (offset : Z)
    : K fatfs (option (Z * Z * fat_dirent_t)) :=
  match fuel with
  | O => kfuel
  | S fuel =>
    d ← fat_data;
    o ← (if bytes_per_cluster d <=? offset then
           cluster ← next_cluster cluster;
           if CLUSTER_CHAIN_END <=? cluster then mret None
           else r ← read_cluster buffer cluster; mret (Some (cluster, snd r, 0))
         else mret (Some (cluster, buffer, offset)));
    match o with
    | None => mret None
    | Some (cluster, buffer, offset) =>
      e ← kopt (dirent_at offset buffer);
      if name_0 e =? DIRENT_END then mret None
      else if hidden e then search_loop fuel component cluster buffer (offset + DIRENT_SIZE)
      else if memcmp_bytes (de_name e) component =? 0 then mret (Some (cluster, offset, e))
      else search_loop fuel component cluster buffer (offset + DIRENT_SIZE)
    end
  end.
(** The entry of a name, with its cluster and offset. *)
Definition search (component : list Z) (cluster : Z) (buffer : list Z) : K fatfs (option (Z * Z * fat_dirent_t)) :=
  d ← fat_data; search_loop (entries_fuel d) (ztake 11 component) cluster buffer 0.
Definition first_buffer (cluster : Z) : K fatfs (list Z) :=
  d ← fat_data; b ← uninit (bytes_per_cluster d); r ← read_cluster b cluster; mret (snd r).

Definition not_found (ref : fat_dirent_ref_t) : fat_dirent_ref_t :=
  mk_ref zero_fat_dirent false 0 (position_sector ref) (position_offset ref).
(** A name of more than 12 characters is cut into several components. *)
Fixpoint ref_loop (fuel : nat) (path : list Z) (ref : fat_dirent_ref_t) : K fatfs fat_dirent_ref_t :=
  match path with
  | [] => mret ref
  | _ =>
    match fuel with
    | O => kfuel
    | S fuel =>
      if negb (has (attributes (ref_dirent ref)) DIRENT_DIRECTORY) then mret (not_found ref)
      else
        d ← fat_data;
        buffer ← first_buffer (ref_cluster ref);
        let '(w, path) := take_component 12 is_slash path in
        let path := if bool_decide (head path = Some SLASH) then tail path else path in
        o ← search (component_of w) (ref_cluster ref) buffer;
        match o with
        | None => mret (not_found ref)
        | Some (cluster, offset, e) =>
          ref_loop fuel path (mk_ref e true (dirent_cluster e)
            (u32 (get_first_cluster_sector d cluster + offset / 512)) (offset mod 512))
        end
    end
  end.
Definition root_dirent (d : fat_data_t) (e : fat_dirent_t) : fat_dirent_t :=
  set_attributes DIRENT_DIRECTORY (set_cluster (root_cluster (bpb d)) e).
Definition fat_get_dirent_ref (path : list Z) : K fatfs fat_dirent_ref_t :=
  d ← fat_data;
  npath ← kopt (normalized NPATH path);
  ref_loop (length npath) npath (mk_ref (root_dirent d zero_fat_dirent) true (root_cluster (bpb d)) 0 0).

(** Only four letters of the name of the root are written. *)
Definition fat_read_dirent (handle : Z) : K fatfs fat_dirent_t :=
  if handle =? 0 then
    d ← fat_data;
    e ← uninit DIRENT_SIZE;
    mret (root_dirent d (set_name ([82; 79; 79; 84] ++ zslice 4 7 e) (get_dirent e)))
  else
    b ← sector_buffer (handle_sector handle);
    kopt (dirent_at (handle_offset handle) b).
Definition fat_get_root : K fatfs Z := mret 0.
Definition fat_lookup (name : list Z) (parent : Z) : K fatfs (Z * Z) :=
  dirent ← fat_read_dirent parent;
  if negb (has (attributes dirent) DIRENT_DIRECTORY) then mret (- ENOTDIR, 0)
  else
    d ← fat_data;
    buffer ← first_buffer (dirent_cluster dirent);
    n_name ← kopt (normalized NPATH name);
    let '(w, _) := take_component 12 (λ _, false) n_name in
    o ← search (component_of w) (dirent_cluster dirent) buffer;
    match o with
    | None => mret (- ENOENT, 0)
    | Some (cluster, offset, _) =>
      mret (0, handle_of (u32 (get_first_cluster_sector d cluster + offset / 512)) (offset mod 512))
    end.
Definition fat_lookup_path (path : list Z) : K fatfs (Z * Z) :=
  ref ← fat_get_dirent_ref path;
  if negb (found ref) then mret (- ENOENT, 0)
  else mret (0, handle_of (position_sector ref) (position_offset ref)).

(** ** Listing *)

(** The entries of one cluster: the one asked for, or the count behind it. *)
Fixpoint readdir_cluster (n : nat) (buffer : list Z) (bytes_per_cluster offset current_index index : Z)
    : option (fat_dirent_t + Z) :=
  if bytes_per_cluster <=? offset then Some (inr current_index)
  else match n with
  | O => None
  | S n =>
    e ← dirent_at offset buffer;
    if name_0 e =? DIRENT_END then Some (inr current_index)
    else if hidden e || bool_decide (de_name e = DOT_NAME) || bool_decide (de_name e = DOTDOT_NAME)
    then readdir_cluster n buffer bytes_per_cluster (offset + DIRENT_SIZE) current_index index
    else if current_index =? index then Some (inl e)
    else readdir_cluster n buffer bytes_per_cluster (offset + DIRENT_SIZE) (current_index + 1) index
  end.
(** The name is copied with the byte behind it, the attributes. *)
Definition readdir_entry (e : fat_dirent_t) : dirent_t :=
  mk_dirent (c_string (f8d3_to_readable (de_name e ++ [attributes e])))
    (if has (attributes e) DIRENT_DIRECTORY then DT_DIR else DT_FILE).
Fixpoint readdir_loop (fuel : nat) (cluster current_index index : Z) : K fatfs (Z * dirent_t) :=
  if CLUSTER_CHAIN_END <=? cluster then mret (0, mk_dirent [] 0)
  else match fuel with
  | O => kfuel
  | S fuel =>
    d ← fat_data;
    buffer ← first_buffer cluster;
    r ← kopt (readdir_cluster (Z.to_nat (bytes_per_cluster d / DIRENT_SIZE + 1)) buffer (bytes_per_cluster d) 0 current_index index);
    match r with
    | inl e => mret (1, readdir_entry e)
    | inr current_index => cluster ← next_cluster cluster; readdir_loop fuel cluster current_index index
    end
  end.
Definition fat_readdir (handle index : Z) : K fatfs (Z * dirent_t) :=
  directory ← fat_read_dirent handle;
  if dead directory then mret (- ENOENT, mk_dirent [] 0)
  else d ← fat_data; readdir_loop (chain_fuel d) (dirent_cluster directory) 0 (u64 index).

(** ** Deleting *)

Definition is_read_only : K fatfs bool := d ← fat_data; mret (read_only d).
Definition mark_deleted (sector offset : Z) : K fatfs unit :=
  b ← sector_buffer sector;
  b ← kopt (store offset [DIRENT_DELETED] b);
  write_out sector b 1;; mret tt.
Fixpoint free_chain (fuel : nat) (cluster : Z) : K fatfs unit :=
  if CLUSTER_CHAIN_END <=? cluster then mret tt
  else match fuel with
  | O => kfuel
  | S fuel =>
    next ← next_cluster cluster;
    write_fat cluster CLUSTER_FREE;;
    free_chain fuel next
  end.
Definition fat_delete (path : list Z) : K fatfs Z :=
  ro ← is_read_only;
  if (ro : bool) then mret (- EROFS)
  else
    npath ← kopt (normalized NPATH path);
    ref ← fat_get_dirent_ref npath;
    if negb (found ref) then mret (- ENOENT)
    else
      mark_deleted (position_sector ref) (position_offset ref);;
      d ← fat_data;
      free_chain (chain_fuel d) (dirent_cluster (ref_dirent ref));;
      mret 0.

(** ** Creating *)

(** The offset of a free entry in a cluster. *)
Fixpoint free_entry (n : nat) (buffer : list Z) (bytes_per_cluster offset : Z) : option (option Z) :=
  if bytes_per_cluster <=? offset then Some None
  else match n with
  | O => None
  | S n =>
    e ← dirent_at offset buffer;
    if dead e then Some (Some offset) else free_entry n buffer bytes_per_cluster (offset + DIRENT_SIZE)
  end.
Definition clear_cluster (cluster size : Z) : K fatfs Z := write_cluster cluster (zrepeat size 0).
Fixpoint add_loop (fuel : nat) (cluster : Z) (dirent : fat_dirent_t) : K fatfs Z :=
  match fuel with
  | O => kfuel
  | S fuel =>
    d ← fat_data;
    buffer ← first_buffer cluster;
    o ← kopt (free_entry (Z.to_nat (bytes_per_cluster d / DIRENT_SIZE + 1)) buffer (bytes_per_cluster d) 0);
    match o with
    | Some offset =>
      b ← kopt (store offset (put_dirent dirent) buffer);
      write_cluster cluster b;; mret 0
    | None =>
      next ← next_cluster cluster;
      if CLUSTER_CHAIN_END <=? next then
        free_cluster ← fat_compute_free_cluster;
        if free_cluster =? 0 then mret (- ENOSPC)
        else
          write_fat cluster (Z.land free_cluster 0x0FFFFFFF);;
          write_fat free_cluster CLUSTER_CHAIN_END;;
          clear_cluster free_cluster (bytes_per_cluster d);;
          add_loop fuel free_cluster dirent
      else add_loop fuel next dirent
    end
  end.
(** One more cluster than the chain has. *)
Definition fat_add_dirent (path : list Z) (dirent : fat_dirent_t) : K fatfs Z :=
  ro ← is_read_only;
  if (ro : bool) then mret (- EROFS)
  else
    npath ← kopt (normalized NPATH path);
    parent ← fat_get_dirent_ref npath;
    if negb (found parent) then mret (- ENOENT)
    else if negb (has (attributes (ref_dirent parent)) DIRENT_DIRECTORY) then mret (- ENOTDIR)
    else d ← fat_data; add_loop (S (chain_fuel d)) (ref_cluster parent) dirent.

(** The normalised path, when nothing has this name yet. *)
Definition unless_exists (path : list Z) (k : list Z → K fatfs Z) : K fatfs Z :=
  npath ← kopt (normalized NPATH path);
  ro ← is_read_only;
  if (ro : bool) then mret (- EROFS)
  else
    r ← fat_lookup_path npath;
    if fst r =? 0 then mret (- EEXIST) else k npath.
Definition fat_create_file (path : list Z) : K fatfs Z :=
  unless_exists path (λ path,
    t ← now;
    let '(fat_date, fat_time) := t in
    n ← kopt (separate_dirname_filename path (zrepeat 12 0));
    let '(dirname, filename) := n in
    fat_add_dirent dirname
      (set_name (ztake 11 (readable_to_8d3 filename))
        (set_created fat_date fat_time (set_modified fat_date fat_time zero_fat_dirent)))).

(** The first two entries of a directory; the rest of the sector is what the stack
    held, up to an end mark. *)
Definition dot_entries (self : Z) (parent : fat_dirent_t) (fat_date fat_time : Z) (b : list Z) : list Z :=
  let common name e := set_name name (set_attributes DIRENT_DIRECTORY
                         (set_created fat_date fat_time (set_modified fat_date fat_time e))) in
  let e0 := common DOT_NAME (set_cluster self (get_dirent (zslice 0 32 b))) in
  let e1 := common DOTDOT_NAME (set_cluster_words (first_cluster_high parent) (first_cluster_low parent)
                                 (get_dirent (zslice 32 32 b))) in
  put_dirent e0 ++ put_dirent e1 ++ [DIRENT_END] ++ zdrop 65 b.
Definition fat_create_directory (path : list Z) : K fatfs Z :=
  unless_exists path (λ path,
    t ← now;
    let '(fat_date, fat_time) := t in
    free_cluster ← fat_compute_free_cluster;
    if free_cluster =? 0 then mret (- ENOSPC)
    else
      write_fat free_cluster CLUSTER_CHAIN_END;;
      d ← fat_data;
      clear_cluster free_cluster (bytes_per_cluster d);;
      n ← kopt (separate_dirname_filename path (zrepeat 12 0));
      let '(dirname, filename) := n in
      res ← fat_add_dirent dirname
        (set_name (ztake 11 (readable_to_8d3 filename))
          (set_cluster_words (u16 (Z.shiftr free_cluster 16)) (Z.land free_cluster 0xFFFF)
            (set_attributes DIRENT_DIRECTORY
              (set_created fat_date fat_time (set_modified fat_date fat_time zero_fat_dirent)))));
      if res <? 0 then mret res
      else
        b ← uninit 512;
        parent ← fat_get_dirent_ref dirname;
        res ← write_out (get_first_cluster_sector d free_cluster)
                (dot_entries free_cluster (ref_dirent parent) fat_date fat_time b) 1;
        mret (if res <? 0 then res else 0)).

Definition fat_rename (old_path new_path : list Z) : K fatfs Z :=
  ro ← is_read_only;
  if (ro : bool) then mret (- EROFS)
  else
    old_path ← kopt (normalized MAX_PATH old_path);
    new_path ← kopt (normalized MAX_PATH new_path);
    old ← fat_get_dirent_ref old_path;
    if negb (found old) then mret (- ENOENT)
    else
      r ← fat_lookup_path new_path;
      res ← (if fst r =? 0 then fat_delete new_path else mret 0);
      if res <? 0 then mret res
      else
        new_filename ← uninit 12;
        n ← kopt (separate_dirname_filename new_path new_filename);
        let '(new_dirname, new_filename) := n in
        res ← fat_add_dirent new_dirname (set_name (ztake 11 (readable_to_8d3 new_filename)) (ref_dirent old));
        if negb (res =? 0) then mret res
        else mark_deleted (position_sector old) (position_offset old);; mret 0.
End dir.
