(* ===== verification/FatFile.v ===== *)
(** * kernel/fs/fat.c: the contents of files

    Reading, writing and truncating along the chain of clusters of a file, its
    times and size, and the entry of the table of file systems. *)

From S2P Require Import Prelude Calendar Path Vfs Block Fat FatDir.

Section file.
Context {D : Type}.
#[local] Notation fatfs := (fatfs D).
Implicit Types (s : fatfs).

(** ** Reading *)

(** The cluster of an offset, and the offset in it. *)
Fixpoint skip_clusters (fuel : nat) (current_cluster offset cluster_size : Z) : K fatfs (option (Z * Z)) :=
  if offset <? cluster_size then mret (Some (current_cluster, offset))
  else match fuel with
  | O => kfuel
  | S fuel =>
    current_cluster ← next_cluster current_cluster;
    if CLUSTER_CHAIN_END <=? current_cluster then mret None
    else skip_clusters fuel current_cluster (offset - cluster_size) cluster_size
  end.
Definition skip_fuel (offset cluster_size : Z) : nat := Z.to_nat (offset / cluster_size + 1).
(** The bytes that the loop stores, one cluster a turn. *)
Fixpoint read_loop (fuel : nat) (current_cluster cluster_offset left cluster_size : Z) : K fatfs (list Z) :=
  if left <=? 0 then mret []
  else match fuel with
  | O => kfuel
  | S fuel =>
    buffer ← first_buffer current_cluster;
    let chunk := zslice cluster_offset (Z.min left (cluster_size - cluster_offset)) buffer in
    if zlen chunk <? left then
      current_cluster ← next_cluster current_cluster;
      if CLUSTER_CHAIN_END <=? current_cluster then mret chunk
      else rest ← read_loop fuel current_cluster 0 (left - zlen chunk) cluster_size; mret (chunk ++ rest)
    else mret chunk
  end.
Definition fat_read (handle offset size : Z) : K fatfs (Z * list Z) :=
  dirent ← fat_read_dirent handle;
  if dead dirent then mret (- ENOENT, [])
  else
    let file_size := de_file_size dirent in
    if file_size <=? offset then mret (0, [])
    else
      let size := if file_size <? u64 (offset + size) then file_size - offset else size in
      d ← fat_data;
      let cluster_size := bytes_per_cluster d in
      o ← skip_clusters (skip_fuel offset cluster_size) (dirent_cluster dirent) offset cluster_size;
      match o with
      | None => mret (-3, [])
      | Some (cluster, cluster_offset) =>
        bytes ← read_loop (skip_fuel size cluster_size + 1) cluster cluster_offset size cluster_size;
        mret (zlen bytes, bytes)
      end.

(** ** Writing *)

(** A cluster at the end of the chain; the result is an error or the cluster. *)
Definition append_cluster (previous_cluster : Z) (clear : bool) : K fatfs (Z + Z) :=
  d ← fat_data;
  free_cluster ← fat_compute_free_cluster;
  if free_cluster =? 0 then mret (inl (- ENOSPC))
  else
    res ← (if clear then clear_cluster free_cluster (sectors_per_cluster (bpb d) * 512) else mret 0);
    if res <? 0 then mret (inl res)
    else
      write_fat previous_cluster (Z.land free_cluster 0x0FFFFFFF);;
      write_fat free_cluster CLUSTER_CHAIN_END;;
      mret (inr free_cluster).
(** The previous cluster, the cluster and the offset in it, or an error. *)
Fixpoint extend_loop (fuel : nat) (previous_cluster current_cluster offset cluster_size : Z) : K fatfs (Z + Z * Z * Z) :=
  if offset <? cluster_size then mret (inr (previous_cluster, current_cluster, offset))
  else match fuel with
  | O => kfuel
  | S fuel =>
    if CLUSTER_CHAIN_END <=? current_cluster then
      r ← append_cluster previous_cluster true;
      match r with
      | inl res => mret (inl res)
      | inr free_cluster => extend_loop fuel previous_cluster free_cluster (offset - cluster_size) cluster_size
      end
    else
      next ← next_cluster current_cluster;
      extend_loop fuel current_cluster next (offset - cluster_size) cluster_size
  end.
(** The buffer a cluster is built in: read when the write starts inside of it,
    cleared when it ends there, otherwise what the stack holds. *)
Definition cluster_buffer (cluster cluster_offset left : Z) : K fatfs (Z * list Z) :=
  d ← fat_data;
  b ← uninit (bytes_per_cluster d);
  let n := sectors_per_cluster (bpb d) * 512 in
  if negb (cluster_offset =? 0) then read_cluster b cluster
  else if left <? n then b ← kopt (store 0 (zrepeat n 0) b); mret (0, b)
  else mret (0, b).
Fixpoint write_loop (fuel : nat) (previous_cluster current_cluster cluster_offset cluster_size : Z) (buffer : list Z)
    : K fatfs (option Z) :=
  match buffer with
  | [] => mret None
  | _ =>
    match fuel with
    | O => kfuel
    | S fuel =>
      r ← (if CLUSTER_CHAIN_END <=? current_cluster then append_cluster previous_cluster false
           else mret (inr current_cluster));
      match r with
      | inl res => mret (Some res)
      | inr current_cluster =>
        r ← cluster_buffer current_cluster cluster_offset (zlen buffer);
        let '(res, cluster_buffer) := r in
        if res <? 0 then mret (Some res)
        else
          let chunk := ztake (cluster_size - cluster_offset) buffer in
          write_cluster current_cluster (zsplice cluster_offset chunk cluster_buffer);;
          let buffer := zdrop (zlen chunk) buffer in
          next ← (if bool_decide (buffer = []) then mret current_cluster else next_cluster current_cluster);
          write_loop fuel current_cluster next 0 cluster_size buffer
      end
    end
  end.
(** The entry goes back to its sector. *)
Definition write_dirent (handle : Z) (dirent : fat_dirent_t) : K fatfs unit :=
  b ← sector_buffer (handle_sector handle);
  b ← kopt (store (handle_offset handle) (put_dirent dirent) b);
  write_out (handle_sector handle) b 1;; mret tt.
Definition fat_write_to_file (handle : Z) (buffer : list Z) (offset : Z) : K fatfs Z :=
  ro ← is_read_only;
  if (ro : bool) then mret (- EROFS)
  else
    dirent ← fat_read_dirent handle;
    if dead dirent then mret (- ENOENT)
    else
      d ← fat_data;
      let cluster_size := bytes_per_cluster d in
      dirent' ← (if first_cluster_low dirent =? 0 then
                   free_cluster ← fat_compute_free_cluster;
                   write_fat free_cluster CLUSTER_CHAIN_END;;
                   mret (set_cluster free_cluster dirent)
                 else mret dirent);
      r ← extend_loop (skip_fuel offset cluster_size) 0 (dirent_cluster dirent') offset cluster_size;
      match r with
      | inl res => mret res
      | inr (previous_cluster, current_cluster, cluster_offset) =>
        e ← write_loop (skip_fuel (zlen buffer) cluster_size + 1) previous_cluster current_cluster cluster_offset
              cluster_size buffer;
        match e with
        | Some res => mret res
        | None =>
          let size := u64 (offset + zlen buffer) in
          let dirent' := if de_file_size dirent <? size then set_file_size (u32 size) dirent' else dirent' in
          t ← now;
          let '(fat_date, fat_time) := t in
          write_dirent handle (set_modified fat_date fat_time dirent');;
          mret (zlen buffer)
        end
      end.

(** ** Times and size *)

(** The fields that fat_stat does not set keep what [out] held. *)
Definition fat_stat (handle : Z) (out : stat_t) : K fatfs (Z * stat_t) :=
  dirent ← fat_read_dirent handle;
  if dead dirent then mret (- ENOENT, out)
  else
    ctime ← kopt (fat_timestamp_to_unix (creation_date dirent) (creation_time dirent));
    mtime ← kopt (fat_timestamp_to_unix (last_modification_date dirent) (last_modification_time dirent));
    mret (0, mk_stat (de_file_size dirent) ctime mtime ctime (st_rdev out) (st_mode out)
               (if has (attributes dirent) DIRENT_DIRECTORY then DT_DIR else DT_FILE)).
Definition fat_get_creation_time (path : list Z) : K fatfs (Z * Z) :=
  ref ← fat_get_dirent_ref path;
  if negb (found ref) then mret (- ENOENT, 0)
  else t ← kopt (fat_timestamp_to_unix (creation_date (ref_dirent ref)) (creation_time (ref_dirent ref))); mret (0, t).
Definition fat_get_last_modification_time (path : list Z) : K fatfs (Z * Z) :=
  ref ← fat_get_dirent_ref path;
  if negb (found ref) then mret (- ENOENT, 0)
  else
    t ← kopt (fat_timestamp_to_unix (last_modification_date (ref_dirent ref)) (last_modification_time (ref_dirent ref)));
    mret (0, t).

(** *** truncate *)

(** The walk to the end does not mask the entries, unlike [next_cluster]. *)
Fixpoint last_cluster (fuel : nat) (cluster : Z) : K fatfs Z :=
  match fuel with
  | O => kfuel
  | S fuel =>
    next ← read_fat cluster;
    if CLUSTER_CHAIN_END <=? next then mret cluster else last_cluster fuel next
  end.
(** The new last cluster, or an error. *)
Fixpoint append_clusters (n : nat) (last_cluster size : Z) : K fatfs (Z + Z) :=
  match n with
  | O => mret (inr last_cluster)
  | S n =>
    free_cluster ← fat_compute_free_cluster;
    if free_cluster =? 0 then mret (inl (- ENOSPC))
    else
      res ← clear_cluster free_cluster size;
      if res <? 0 then mret (inl res)
      else write_fat last_cluster (Z.land free_cluster 0x0FFFFFFF);; append_clusters n free_cluster size
  end.
Fixpoint last_clusters_loop (fuel : nat) (last_clusters : list Z) (head difference : Z) : K fatfs (list Z * Z) :=
  match fuel with
  | O => kfuel
  | S fuel =>
    c ← kopt (znth last_clusters head);
    next ← read_fat c;
    if CLUSTER_CHAIN_END <=? next then mret (last_clusters, head)
    else
      let head := (head + 1) mod (difference + 1) in
      last_clusters_loop fuel (<[Z.to_nat head := next]> last_clusters) head difference
  end.
Fixpoint free_last (n : nat) (last_clusters : list Z) (head difference : Z) : K fatfs unit :=
  match n with
  | O => mret tt
  | S n =>
    c ← kopt (znth last_clusters head);
    write_fat c CLUSTER_FREE;;
    free_last n last_clusters ((head + difference) mod (difference + 1)) difference
  end.
(** The entry with its first cluster and the clusters left to add, or an error. *)
Definition first_of (dirent : fat_dirent_t) (difference size : Z) : K fatfs (Z + fat_dirent_t * Z) :=
  if (first_cluster_high dirent =? 0) && (first_cluster_low dirent =? 0) then
    free_cluster ← fat_compute_free_cluster;
    if free_cluster =? 0 then mret (inl (- ENOSPC))
    else
      res ← clear_cluster free_cluster size;
      if res <? 0 then mret (inl res)
      else
        write_fat free_cluster CLUSTER_CHAIN_END;;
        mret (inr (set_cluster free_cluster dirent, difference - 1))
  else mret (inr (dirent, difference)).
Definition grow (dirent : fat_dirent_t) (difference size : Z) : K fatfs (Z + fat_dirent_t) :=
  r ← first_of dirent difference size;
  match r with
  | inl res => mret (inl res)
  | inr (dirent, difference) =>
    d ← fat_data;
    c ← last_cluster (chain_fuel d) (dirent_cluster dirent);
    r ← append_clusters (Z.to_nat difference) c size;
    match r with
    | inl res => mret (inl res)
    | inr c => write_fat c CLUSTER_CHAIN_END;; mret (inr dirent)
    end
  end.
Definition shrink (dirent : fat_dirent_t) (difference new_size size : Z) : K fatfs fat_dirent_t :=
  d ← fat_data;
  r ← last_clusters_loop (chain_fuel d) (dirent_cluster dirent :: zrepeat difference 0) 0 difference;
  let '(last_clusters, head) := r in
  new_end ← kopt (znth last_clusters ((head + 1) mod (difference + 1)));
  dirent ← (if new_end =? 0 then mret (set_cluster_words 0 0 dirent)
            else
              write_fat new_end CLUSTER_CHAIN_END;;
              (if new_size mod size =? 0 then mret tt
               else
                 b ← uninit size;
                 r ← read_cluster b new_end;
                 b ← kopt (store (new_size mod size) (zrepeat (size - new_size mod size) 0) (snd r));
                 write_cluster new_end b;; mret tt);;
              mret dirent);
  free_last (Z.to_nat difference) last_clusters head difference;;
  mret dirent.
Definition fat_truncate (handle new_size : Z) : K fatfs Z :=
  ro ← is_read_only;
  if (ro : bool) then mret (- EROFS)
  else
    dirent ← fat_read_dirent handle;
    if dead dirent then mret (- ENOENT)
    else
      d ← fat_data;
      let size := sectors_per_cluster (bpb d) * 512 in
      if size =? 0 then kfault
      else
        let original_cluster_count := u32 (de_file_size dirent + size - 1) / size in
        let required_cluster_count := u64 (new_size + size - 1) / size in
        t ← now;
        let '(fat_date, fat_time) := t in
        let dirent := set_modified fat_date fat_time (set_file_size (u32 new_size) dirent) in
        r ← (if original_cluster_count <? required_cluster_count
             then grow dirent (required_cluster_count - original_cluster_count) size
             else if required_cluster_count <? original_cluster_count
             then dirent ← shrink dirent (original_cluster_count - required_cluster_count) new_size size; mret (inr dirent)
             else mret (inr dirent));
        match r with
        | inl res => mret res
        | inr dirent => write_dirent handle dirent;; mret 0
        end.

(** The entry of the table of file systems; the caller of stat supplies [out]. *)
Definition fat_register (out : stat_t) : filesystem_t fatfs :=
  mk_filesystem fatfs [102; 97; 116] false true
    (Some fat_check) fat_mount None fat_select fat_get_root
    fat_lookup None None (Some fat_readdir) (Some fat_read)
    (Some fat_write_to_file) (Some (λ handle, fat_stat handle out)) None (Some fat_create_file)
    (Some fat_create_directory) (Some fat_delete) (Some fat_rename) None (Some fat_truncate).
End file.
