(* ===== verification/FatName.v ===== *)
(** * Names of the FAT file system

    Paths are brought into one form, upper case with single slashes, and the 8.3
    names of the disk are read back as they were written. *)

From S2P Require Import Prelude Calendar Path Vfs VfsWalk Block Fat FatDir.


(** ** normalize_fat_path *)


(** ** 8.3 names *)


Lemma until_stop stops w c q : Forall (λ x, x ∉ stops) w → c ∈ stops → until stops (w ++ c :: q) = (w, c :: q).
Proof.
  intros Hw Hc. induction w as [|x w IH]; cbn [app until]; [by rewrite bool_decide_eq_true_2|].
  apply Forall_cons in Hw as [Hx Hw]. rewrite bool_decide_eq_false_2 by done. by rewrite IH.
Qed.
Lemma until_end stops w : Forall (λ x, x ∉ stops) w → until stops w = (w, []).
Proof.
  intros Hw. induction w as [|x w IH]; cbn [until]; [done|].
  apply Forall_cons in Hw as [Hx Hw]. rewrite bool_decide_eq_false_2 by done. by rewrite IH.
Qed.
Lemma until_blanks stops w n : Forall (λ x, x ∉ stops) w → 32 ∈ stops → fst (until stops (w ++ zrepeat n 32)) = w.
Proof.
  intros Hw Hs. destruct (Z.le_gt_cases n 0) as [Hn|Hn].
  - rewrite zrepeat_none by done. rewrite app_nil_r. by rewrite until_end.
  - rewrite zrepeat_next by lia. by rewrite until_stop.
Qed.
(** The eleven bytes of a name: eight for the stem and three for the extension,
    filled with blanks. *)
Definition disk_name (stem ext : list Z) : list Z :=
  stem ++ replicate (8 - length stem) 32 ++ ext ++ replicate (3 - length ext) 32.

(** ** The name at the end of a path *)

(** fat_rename passes a buffer that is not cleared: with 67 ("C") on the stack the
    file renamed to "AB" is called "ABCCCCCC". *)
Lemma rename_keeps_stack_bytes :
  (λ n, ztake 11 (readable_to_8d3 n.2)) <$> separate_dirname_filename [65; 66] (zrepeat 12 67) =
    Some [65; 66; 67; 67; 67; 67; 67; 67; 32; 32; 32] ∧
  disk_name [65; 66] [] = [65; 66; 32; 32; 32; 32; 32; 32; 32; 32; 32].
Proof. vm_compute. by split. Qed.

