(* ===== verification/FatDisk.v ===== *)
(** * The FAT file system on a device

    A mount whose numbers describe a device that is big enough, on a device that
    does not fail: what the accesses to sectors, clusters and the table do. *)

From S2P Require Import Prelude Calendar Path Vfs Block BlockDevice Fat FatDir FatFile.


(** A device on which requests inside of it succeed. *)
Class ReliableDevice {D : Type} (dev : block_device_t) `{!BlockDevice D dev} := {
  read_succeeds s lba count res bytes s' : device_ok s → 0 ≤ lba → 0 < count < 2 ^ 32 →
    (lba + count) * sector_size ≤ zlen (contents s) → read_sectors dev lba count s = Done ((res, bytes), s') → 0 ≤ res;
  write_succeeds s lba count buffer res s' : device_ok s → 0 ≤ lba → 0 < count < 2 ^ 32 →
    (lba + count) * sector_size ≤ zlen (contents s) → zlen buffer = count * sector_size →
    write_sectors dev lba buffer count s = Done (res, s') → 0 ≤ res;
}.

(** The numbers of the boot sector describe [n] bytes. *)
Record geometry (d : fat_data_t) (n : Z) : Prop := {
  ge_sector : bytes_per_sector (bpb d) = 512;
  ge_cluster : 1 ≤ sectors_per_cluster (bpb d) < 2 ^ 8;
  ge_reserved : 1 ≤ reserved_sectors (bpb d) < 2 ^ 16;
  ge_fats : 1 ≤ num_fats (bpb d) < 2 ^ 8;
  ge_size : 0 ≤ fat_size d;
  ge_first : reserved_sectors (bpb d) + num_fats (bpb d) * fat_size d < 2 ^ 32;
  ge_table : zlen (fat d) = fat_size d * 512;
  ge_entries : 0 ≤ total_clusters d ∧ (total_clusters d + 2) * 4 ≤ fat_size d * 512;
  ge_fits : (first_data_sector d + total_clusters d * sectors_per_cluster (bpb d)) * 512 ≤ n;
  ge_max : total_clusters d + 2 ≤ 0x0FFFFFF7;
  ge_words : first_data_sector d + total_clusters d * sectors_per_cluster (bpb d) < 2 ^ 32;
}.
(** The clusters of a volume; FAT32 has no more than those below the mark of bad
    clusters. *)
Definition valid_cluster (d : fat_data_t) (c : Z) : Prop := 2 ≤ c < total_clusters d + 2.
Definition entry (table : list Z) (c : Z) : Z := le (zslice (4 * c) 4 table).
Definition entry28 (table : list Z) (c : Z) : Z := Z.land (entry table c) 0x0FFFFFFF.

Lemma first_sector d n : geometry d n →
  first_data_sector d = reserved_sectors (bpb d) + num_fats (bpb d) * fat_size d.
Proof.
  intros G. destruct G. unfold first_data_sector. assert (0 ≤ num_fats (bpb d) * fat_size d) by nia.
  rewrite (u32_id (num_fats (bpb d) * fat_size d)) by lia. apply u32_id. lia.
Qed.
Lemma valid_below d n c : geometry d n → valid_cluster d c → c < CLUSTER_CHAIN_END.
Proof. intros [] [_ Hc]. unfold CLUSTER_CHAIN_END. lia. Qed.
Lemma cluster_sector d n c : geometry d n → valid_cluster d c →
  get_first_cluster_sector d c = first_data_sector d + (c - 2) * sectors_per_cluster (bpb d) ∧
  0 ≤ get_first_cluster_sector d c ∧
  (get_first_cluster_sector d c + sectors_per_cluster (bpb d)) * 512 ≤ n.
Proof.
  intros G [H1 H2]. pose proof (first_sector d n G) as Hf. destruct G. unfold get_first_cluster_sector.
  assert (0 ≤ num_fats (bpb d) * fat_size d) by nia.
  assert (E : (c - 2) * sectors_per_cluster (bpb d) + sectors_per_cluster (bpb d) ≤ total_clusters d * sectors_per_cluster (bpb d)) by nia.
  assert (0 ≤ (c - 2) * sectors_per_cluster (bpb d)) by nia.
  assert (c - 2 ≤ (c - 2) * sectors_per_cluster (bpb d)) by nia.
  rewrite (u32_id (c - 2)) by lia. rewrite (u32_id ((c - 2) * _)) by lia.
  rewrite u32_id by lia. lia.
Qed.

Section disk.
Context {D : Type} (dev : block_device_t) `{!BlockDevice D dev, !ReliableDevice dev}.
Context (Hss : sector_size (dev := dev) = 512).
#[local] Notation fatfs := (fatfs D).
Implicit Types (s : fatfs) (d : fat_data_t).

Definition disk s : list Z := contents (dev := dev) (fat_block s).
(** From [s] to [s'] nothing changes but the stack, and the bytes of the device
    become [c]. *)
Record goes s (c : list Z) s' : Prop := {
  go_mounts : fat_mounts s' = fat_mounts s;
  go_data : data s' = data s;
  go_next : fat_next s' = fat_next s;
  go_vvar : fat_vvar s' = fat_vvar s;
  go_junk : junk s' = junk s;
  go_ok : device_ok (dev := dev) (fat_block s');
  go_disk : disk s' = c;
}.
Definition quiet s s' : Prop := goes s (disk s) s'.
Record fat_ok s d : Prop := {
  fo_data : fat_mounts s !! data s = Some d;
  fo_dev : backing d = dev;
  fo_device : device_ok (dev := dev) (fat_block s);
  fo_geometry : geometry d (zlen (disk s));
}.
Lemma goes_ok s c s' d : fat_ok s d → goes s c s' → zlen c = zlen (disk s) → fat_ok s' d.
Proof. intros [F1 F2 F3 F4] [G1 G2 G3 G4 G5 G6 G7] Hc. split; [congruence|done|done|]. by rewrite G7, Hc. Qed.
Lemma quiet_refl s : device_ok (dev := dev) (fat_block s) → quiet s s.
Proof. by split. Qed.
Lemma goes_trans s1 c1 s2 c2 s3 : goes s1 c1 s2 → goes s2 c2 s3 → goes s1 c2 s3.
Proof. intros [] []. split; congruence. Qed.
Lemma quiet_goes s1 s2 c s3 : quiet s1 s2 → goes s2 c s3 → goes s1 c s3.
Proof. apply goes_trans. Qed.
Lemma goes_quiet s1 c s2 s3 : goes s1 c s2 → quiet s2 s3 → goes s1 c s3.
Proof. intros H1 H2. pose proof (goes_trans _ _ _ _ _ H1 H2) as H. by rewrite (go_disk _ _ _ H1) in H. Qed.
Lemma quiet_trans s1 s2 s3 : quiet s1 s2 → quiet s2 s3 → quiet s1 s3.
Proof. apply goes_quiet. Qed.
Lemma quiet_ok s s' d : fat_ok s d → quiet s s' → fat_ok s' d.
Proof. intros H1 H2. by eapply goes_ok. Qed.
Lemma quiet_disk s s' : quiet s s' → disk s' = disk s.
Proof. apply go_disk. Qed.

(** ** Sectors *)

Lemma fat_data_run s d : fat_ok s d → fat_data s = Done (d, s).
Proof. intros H. unfold fat_data. rewrite (K_bind_step _ _ s s s) by done. by rewrite (fo_data _ _ H). Qed.
Lemma uninit_run s n : device_ok (dev := dev) (fat_block s) → 0 ≤ n →
  ∃ b s', uninit n s = Done (b, s') ∧ zlen b = n ∧ quiet s s'.
Proof.
  intros Hok Hn. exists ((λ i, u8 (junk s i)) <$> seqZ (junk_used s) n), (set_junk_used (junk_used s + n) s).
  split; [done|]. split; [unfold zlen; rewrite length_fmap, length_seqZ; lia|by split].
Qed.
Lemma lift_block_run {A} (m : K (Block.blk D) A) s a b : m (fat_block s) = Done (a, b) → lift_block m s = Done (a, set_fat_block b s).
Proof. unfold lift_block. by intros ->. Qed.
Lemma read_into_run s d buffer lba count : fat_ok s d → 0 ≤ lba → 0 < count < 2 ^ 32 →
  (lba + count) * 512 ≤ zlen (disk s) → zlen buffer = count * 512 →
  ∃ res s', read_into buffer lba count s = Done ((res, zslice (lba * 512) (count * 512) (disk s)), s') ∧ 0 ≤ res ∧ quiet s s'.
Proof.
  intros Hok Hl Hc Hin Hb. pose proof (fo_device _ _ Hok) as Hd. pose proof (contents_range _ Hd) as Hr. fold (disk s) in Hr.
  destruct (read_law (fat_block s) lba count Hd ltac:(lia) Hc) as (res & bytes & b & E & H1 & H2 & H3 & H4 & H5).
  assert (Hres : 0 ≤ res) by (eapply (read_succeeds (fat_block s)); [done|done|done|by rewrite Hss|done]).
  destruct (H5 Hres) as [_ H6]. rewrite Hss in H6.
  exists res, (set_fat_block b s). split; [|split; [done|by split]].
  unfold read_into. rewrite (K_bind_step _ _ _ _ _ (fat_data_run s d Hok)), (fo_dev _ _ Hok).
  rewrite (K_bind_step _ _ _ _ _ (lift_block_run _ s _ _ E)).
  assert (Hlen : zlen bytes = count * 512) by (rewrite H6; fold (disk s); apply zlen_zslice; lia).
  rewrite (proj2 (Z.ltb_ge _ _)) by lia. rewrite zdrop_all by lia. by rewrite app_nil_r, H6.
Qed.
Lemma write_out_run s d buffer lba count : fat_ok s d → 0 ≤ lba → 0 < count < 2 ^ 32 →
  (lba + count) * 512 ≤ zlen (disk s) → zlen buffer = count * 512 →
  ∃ res s', write_out lba buffer count s = Done (res, s') ∧ 0 ≤ res ∧ goes s (zsplice (lba * 512) buffer (disk s)) s'.
Proof.
  intros Hok Hl Hc Hin Hb. pose proof (fo_device _ _ Hok) as Hd. pose proof (contents_range _ Hd) as Hr. fold (disk s) in Hr.
  destruct (write_law (fat_block s) lba count buffer Hd ltac:(lia) Hc) as (res & b & E & H1 & H2 & H3 & H4); [by rewrite Hss|].
  assert (Hres : 0 ≤ res) by (eapply (write_succeeds (fat_block s)); [done|done|exact Hc|by rewrite Hss|by rewrite Hss|done]).
  destruct (H4 Hres) as [_ H6]. rewrite Hss in H6.
  exists res, (set_fat_block b s). split; [|split; [done|by split]].
  unfold write_out. rewrite (K_bind_step _ _ _ _ _ (fat_data_run s d Hok)), (fo_dev _ _ Hok).
  by rewrite (lift_block_run _ s _ _ E).
Qed.
Lemma sector_buffer_run s d lba : fat_ok s d → 0 ≤ lba → (lba + 1) * 512 ≤ zlen (disk s) →
  ∃ s', sector_buffer lba s = Done (zslice (lba * 512) 512 (disk s), s') ∧ quiet s s'.
Proof.
  intros Hok Hl Hin. destruct (uninit_run s 512 (fo_device _ _ Hok)) as (b & s1 & E1 & Hb & Q1); [done|].
  destruct (read_into_run s1 d b lba 1) as (res & s2 & E2 & _ & Q2);
    [by eapply quiet_ok|done|lia|by rewrite (quiet_disk _ _ Q1)|done|].
  exists s2. split; [|by eapply quiet_trans]. unfold sector_buffer.
  rewrite (K_bind_step _ _ _ _ _ E1), (K_bind_step _ _ _ _ _ E2). by rewrite (quiet_disk _ _ Q1).
Qed.

(** ** Clusters *)

Definition cluster_bytes s d (c : Z) : list Z := zslice (get_first_cluster_sector d c * 512) (bytes_per_cluster d) (disk s).
Lemma cluster_size d n : geometry d n → bytes_per_cluster d = sectors_per_cluster (bpb d) * 512 ∧ 0 < bytes_per_cluster d.
Proof. intros []. unfold bytes_per_cluster. lia. Qed.
Lemma zlen_cluster s d c : fat_ok s d → valid_cluster d c → zlen (cluster_bytes s d c) = bytes_per_cluster d.
Proof.
  intros Hok Hc. destruct (cluster_size d _ (fo_geometry _ _ Hok)) as [E ?].
  destruct (cluster_sector d _ c (fo_geometry _ _ Hok) Hc) as (_ & H1 & H2). apply zlen_zslice; lia.
Qed.
Lemma read_cluster_run s d c buffer : fat_ok s d → valid_cluster d c → zlen buffer = bytes_per_cluster d →
  ∃ res s', read_cluster buffer c s = Done ((res, cluster_bytes s d c), s') ∧ 0 ≤ res ∧ quiet s s'.
Proof.
  intros Hok Hc Hb. pose proof (fo_geometry _ _ Hok) as G. destruct (cluster_size d _ G) as [E Hp].
  destruct (cluster_sector d _ c G Hc) as (_ & H1 & H2). pose proof (ge_cluster _ _ G).
  unfold read_cluster. rewrite (K_bind_step _ _ _ _ _ (fat_data_run s d Hok)).
  unfold cluster_bytes. rewrite E. apply (read_into_run s d); [done|done|lia|lia|lia].
Qed.
Lemma write_cluster_run s d c buffer : fat_ok s d → valid_cluster d c → zlen buffer = bytes_per_cluster d →
  ∃ res s', write_cluster c buffer s = Done (res, s') ∧ 0 ≤ res ∧
    goes s (zsplice (get_first_cluster_sector d c * 512) buffer (disk s)) s'.
Proof.
  intros Hok Hc Hb. pose proof (fo_geometry _ _ Hok) as G. destruct (cluster_size d _ G) as [E Hp].
  destruct (cluster_sector d _ c G Hc) as (_ & H1 & H2). pose proof (ge_cluster _ _ G).
  unfold write_cluster. rewrite (K_bind_step _ _ _ _ _ (fat_data_run s d Hok)).
  apply (write_out_run s d); [done|done|lia|lia|lia].
Qed.
Lemma first_buffer_run s d c : fat_ok s d → valid_cluster d c →
  ∃ s', first_buffer c s = Done (cluster_bytes s d c, s') ∧ quiet s s'.
Proof.
  intros Hok Hc. destruct (cluster_size d _ (fo_geometry _ _ Hok)) as [E Hp].
  destruct (uninit_run s (bytes_per_cluster d) (fo_device _ _ Hok)) as (b & s1 & E1 & Hb & Q1); [lia|].
  destruct (read_cluster_run s1 d c b) as (res & s2 & E2 & _ & Q2); [by eapply quiet_ok|done|done|].
  exists s2. split; [|by eapply quiet_trans]. unfold first_buffer.
  rewrite (K_bind_step _ _ _ _ _ (fat_data_run s d Hok)), (K_bind_step _ _ _ _ _ E1), (K_bind_step _ _ _ _ _ E2).
  unfold cluster_bytes. by rewrite (quiet_disk _ _ Q1).
Qed.

(** ** The table in memory *)

Lemma entry_in d n c : geometry d n → 0 ≤ c < total_clusters d + 2 → 0 ≤ 4 * c ∧ 4 * c + 4 ≤ zlen (fat d).
Proof. intros [] Hc. rewrite ge_table0. lia. Qed.
Lemma read_fat_run s d c : fat_ok s d → 0 ≤ c < total_clusters d + 2 → read_fat c s = Done (entry (fat d) c, s).
Proof.
  intros Hok Hc. destruct (entry_in d _ c (fo_geometry _ _ Hok) Hc). unfold read_fat.
  rewrite (K_bind_step _ _ _ _ _ (fat_data_run s d Hok)). by rewrite field_zslice by lia.
Qed.
Lemma next_cluster_run s d c : fat_ok s d → 0 ≤ c < total_clusters d + 2 → next_cluster c s = Done (entry28 (fat d) c, s).
Proof. intros Hok Hc. unfold next_cluster. by rewrite (K_bind_step _ _ _ _ _ (read_fat_run s d c Hok Hc)). Qed.
(** The clusters from [c] on. *)
Fixpoint chain d (c : Z) (l : list Z) : Prop :=
  match l with
  | [] => CLUSTER_CHAIN_END ≤ c
  | x :: l => c = x ∧ valid_cluster d x ∧ chain d (entry28 (fat d) x) l
  end.
Definition chain_bytes s d (l : list Z) : list Z := concat (cluster_bytes s d <$> l).
End disk.

(** ** A small FAT volume in memory

    Thirteen sectors: the boot sector, two copies of the table and ten clusters of
    one sector; the root directory holds the file A.TXT of 600 bytes.  The device
    keeps the contracts of BlockDevice.v and FatDisk.v. *)


(** ** Disks in memory with sectors of 512 bytes *)

Definition memory_driver : block_driver_t (list Z) :=
  mk_block_driver (list Z)
    (λ _ lba count, c ← kget;
       mret (if (lba + count) * 512 <=? zlen c then (0, zslice (lba * 512) (count * 512) c) else (- EIO, [])))
    (λ _ lba b count, c ← kget;
       if (lba + count) * 512 <=? zlen c then kput (zsplice (lba * 512) b c);; mret 0 else mret (- EIO))
    None (λ _, kgets zlen) (λ _, mret 512).

#[export] Instance memory_disk minor : DiskDriver memory_driver minor.
Proof.
  refine {| disk_sector_size := 512; disk_ok c := zlen c < 2 ^ 63; disk_bytes c := c |};
    unfold SECTOR_BUFFER; [lia|done|done|..].
  - intros c lba count Hc Hl Hn. cbn [read_sectors_op memory_driver].
    unfold kget, mbind, K_bind, mret, K_ret.
    destruct (Z.leb_spec ((lba + count) * 512) (zlen c)); eexists _, _, _; (split; [reflexivity|]).
    + split_and!; try done. rewrite zlen_zslice; lia.
    + split_and!; try done. rewrite zlen_nil. lia.
  - intros c lba count b Hc Hl Hn Hb. cbn [write_sectors_op memory_driver].
    unfold kget, kput, mbind, K_bind, mret, K_ret.
    destruct (Z.leb_spec ((lba + count) * 512) (zlen c)); eexists _, _; (split; [reflexivity|]).
    + split_and!; [rewrite zlen_zsplice; lia| |done].
      replace ((lba + count) * 512) with (lba * 512 + zlen b) by lia. apply same_outside_zsplice; lia.
    + by split_and!.
Defined.
Lemma memory_reads (s : blk (list Z)) dev lba count : native_ok memory_driver dev s →
  read_sectors dev lba count s = Done (if (lba + count) * 512 <=? zlen (disks s) then (0, zslice (lba * 512) (count * 512) (disks s)) else (- EIO, []), s).
Proof.
  intros [H _]. unfold read_sectors, DEPTH. cbn [read_sectors_at]. rewrite (K_bind_step _ _ _ _ _ H). by destruct s.
Qed.
Lemma memory_writes (s : blk (list Z)) dev lba b count : native_ok memory_driver dev s →
  (lba + count) * 512 ≤ zlen (disks s) → ∃ s', write_sectors dev lba b count s = Done (0, s').
Proof.
  intros [H _] Hin. unfold write_sectors, DEPTH. cbn [write_sectors_at]. rewrite (K_bind_step _ _ _ _ _ H).
  unfold lift_disk. cbn [write_sectors_op memory_driver]. unfold kget, kput, mbind, K_bind, mret, K_ret.
  rewrite (proj2 (Z.leb_le _ _)) by lia. by eexists.
Qed.
#[export] Instance memory_reliable dev : ReliableDevice dev (BlockDevice0 := native_device memory_driver dev).
Proof.
  split.
  - intros s lba count res bytes s' Hok Hl Hc Hin. rewrite (memory_reads s dev lba count Hok).
    rewrite (proj2 (Z.leb_le _ _)) by done. by intros [= <- _ _].
  - intros s lba count b res s' Hok Hl Hc Hin Hb. destruct (memory_writes s dev lba b count Hok Hin) as [s1 E].
    rewrite E. by intros [= <- _].
Qed.

(** ** The volume *)

Definition vol_dev : block_device_t := device_of 1 0.
Definition boot_sector : list Z :=
  zrepeat 11 0 ++ put16 512 ++ [1] ++ put16 1 ++ [2] ++ put16 0 ++ put16 13 ++ [0] ++ put16 1 ++ zrepeat 20 0 ++
  put32 2 ++ zrepeat 464 0.
Definition table_sector (l : list Z) : list Z := concat (put32 <$> l) ++ zrepeat (512 - 4 * zlen l) 0.
Definition vol_table : list Z := table_sector [0x0FFFFFF8; 0x0FFFFFFF; CLUSTER_CHAIN_END; 4; CLUSTER_CHAIN_END].
Definition file_a : fat_dirent_t :=
  set_file_size 600 (set_cluster 3 (set_name [65; 32; 32; 32; 32; 32; 32; 32; 84; 88; 84] zero_fat_dirent)).
Definition vol_bytes (table root : list Z) : list Z :=
  boot_sector ++ table ++ table ++ root ++ zrepeat 512 7 ++ zrepeat 512 9 ++ zrepeat 3584 1.
Definition root_sector (l : list fat_dirent_t) : list Z := concat (put_dirent <$> l) ++ zrepeat (512 - 32 * zlen l) 0.
Definition vol_data (table : list Z) : fat_data_t := mk_fat_data vol_dev boot_sector table (zrepeat 512 0) false 1 2.
Definition volume_of (table root : list Z) : fatfs (list Z) :=
  mk_fatfs {[ 1 := vol_data table ]} 1 2
    (mk_blk [Native memory_driver] [] 0 (vol_bytes table root)) (mk_vvar 1700000000 0) (λ _, 170) 0.
Definition volume : fatfs (list Z) := volume_of vol_table (root_sector [file_a]).
Definition handle_a : Z := handle_of 3 0.

Lemma vol_geometry : geometry (vol_data vol_table) (zlen (vol_bytes vol_table (root_sector [file_a]))).
Proof. split; vm_compute; intuition discriminate. Qed.
Lemma volume_ok : fat_ok vol_dev volume (vol_data vol_table).
Proof.
  split; [reflexivity|reflexivity|split; [reflexivity|vm_compute; reflexivity]|exact vol_geometry].
Qed.
Lemma vol_sector : sector_size (dev := vol_dev) = 512.
Proof. reflexivity. Qed.
