(* ===== verification/FatRead.v ===== *)
(** * Reading files of the FAT file system

    A file is the chain of its clusters, cut to its size. *)

From S2P Require Import Prelude Calendar Path Vfs Block BlockDevice Fat FatDir FatFile FatDisk.

Section read.
Context {D : Type} (dev : block_device_t) `{!BlockDevice D dev, !ReliableDevice dev}.
Context (Hss : sector_size (dev := dev) = 512).
#[local] Notation fatfs := (fatfs D).
#[local] Notation disk := (disk dev).
#[local] Notation quiet := (quiet dev).
#[local] Notation goes := (goes dev).
#[local] Notation fat_ok := (fat_ok dev).
#[local] Notation chain_bytes := (chain_bytes dev).
#[local] Notation cluster_bytes := (cluster_bytes dev).
Implicit Types (s : fatfs) (d : fat_data_t).

(** ** Entries *)

(** A handle that names an entry of the device. *)
Record valid_handle s (h : Z) : Prop := {
  vh_root : h ≠ 0;
  vh_sector : 0 ≤ handle_sector h ∧ (handle_sector h + 1) * 512 ≤ zlen (disk s);
  vh_offset : 0 ≤ handle_offset h ∧ handle_offset h + DIRENT_SIZE ≤ 512;
}.
Definition handle_position (h : Z) : Z := handle_sector h * 512 + handle_offset h.
Definition dirent_of s (h : Z) : fat_dirent_t := get_dirent (zslice (handle_position h) DIRENT_SIZE (disk s)).

Lemma read_dirent_run s d h : fat_ok s d → valid_handle s h →
  ∃ s', fat_read_dirent h s = Done (dirent_of s h, s') ∧ quiet s s'.
Proof.
  intros Hok [H0 [Hs1 Hs2] [Ho1 Ho2]]. destruct (sector_buffer_run dev Hss s d (handle_sector h) Hok Hs1 Hs2) as (s' & E & Q).
  exists s'. split; [|done]. unfold fat_read_dirent. rewrite (proj2 (Z.eqb_neq h 0)) by done.
  rewrite (K_bind_step _ _ _ _ _ E). unfold dirent_at, DIRENT_SIZE in *. rewrite field_zslice; [|lia|rewrite zlen_zslice; lia].
  cbn [fmap option_fmap option_map]. rewrite zslice_zslice by lia. done.
Qed.

(** ** Along the chain *)

Lemma valid_range d c : valid_cluster d c → 0 ≤ c < total_clusters d + 2.
Proof. unfold valid_cluster. lia. Qed.
Lemma skip_clusters_run s d cs : fat_ok s d → 0 < cs → ∀ fuel c off l, chain d c l → 0 ≤ off →
  off / cs < zlen l → off / cs ≤ Z.of_nat fuel → ∃ x,
    skip_clusters fuel c off cs s = Done (Some (x, off mod cs), s) ∧ chain d x (zdrop (off / cs) l).
Proof.
  intros Hok Hcs. induction fuel as [|fuel IH]; intros c off l Hc Hoff Hl Hf.
  - assert (off < cs).
    { pose proof (Z.div_pos off cs Hoff Hcs). assert (off / cs = 0) as E by lia. apply Z.div_small_iff in E; lia. }
    exists c. cbn [skip_clusters]. rewrite (proj2 (Z.ltb_lt off cs)), Z.mod_small, Z.div_small, zdrop_0 by lia. done.
  - cbn [skip_clusters]. destruct (Z.ltb_spec off cs) as [Hlt|Hge].
    + exists c. rewrite Z.mod_small, Z.div_small, zdrop_0 by lia. done.
    + assert (Hdiv : off / cs = (off - cs) / cs + 1).
      { replace off with ((off - cs) + 1 * cs) at 1 by lia. rewrite Z.div_add by lia. done. }
      pose proof (Z.div_pos (off - cs) cs ltac:(lia) Hcs).
      destruct l as [|y l]; [rewrite zlen_nil in Hl; lia|]. destruct Hc as (-> & Hv & Hc). rewrite zlen_cons in Hl.
      rewrite (K_bind_step _ _ _ _ _ (next_cluster_run dev s d y Hok (valid_range d y Hv))).
      destruct l as [|z l]; [rewrite zlen_nil in Hl; lia|]. pose proof Hc as (E & Hvz & _). pose proof (valid_below _ _ _ (fo_geometry _ _ _ Hok) Hvz) as Hz.
      rewrite E in Hc |- *. rewrite (proj2 (Z.leb_gt CLUSTER_CHAIN_END z)) by lia.
      destruct (IH z (off - cs) (z :: l) Hc ltac:(lia) ltac:(lia) ltac:(lia)) as (x & E' & Hx).
      exists x. rewrite E', Hdiv. split; [do 3 f_equal|].
      * replace off with ((off - cs) + 1 * cs) at 2 by lia. by rewrite Z.mod_add by lia.
      * change (y :: z :: l) with ([y] ++ (z :: l)). rewrite zdrop_app_ge by (change (zlen [y]) with 1; lia).
        change (zlen [y]) with 1. by replace ((off - cs) / cs + 1 - 1) with ((off - cs) / cs) by lia.
Qed.
Lemma chain_bytes_cons s d x l : chain_bytes s d (x :: l) = cluster_bytes s d x ++ chain_bytes s d l.
Proof. done. Qed.
Lemma quiet_chain s s' d l : quiet s s' → chain_bytes s' d l = chain_bytes s d l.
Proof. intros Q. unfold FatDisk.chain_bytes, FatDisk.cluster_bytes. by rewrite (quiet_disk _ _ _ Q). Qed.
Lemma chain_all d l : ∀ c, chain d c l → Forall (valid_cluster d) l.
Proof. induction l as [|x l IH]; intros c Hc; [constructor|]. destruct Hc as (-> & Hv & Hc). constructor; [done|by eapply IH]. Qed.
Lemma zlen_clusters s d l : fat_ok s d → Forall (valid_cluster d) l → zlen (chain_bytes s d l) = bytes_per_cluster d * zlen l.
Proof.
  intros Hok. induction 1 as [|x l Hx _ IH]; [change (chain_bytes s d []) with (@nil Z); rewrite !zlen_nil; lia|].
  rewrite chain_bytes_cons, zlen_app, zlen_cons, (zlen_cluster dev) by done. lia.
Qed.
Lemma zlen_chain_bytes s d l c : fat_ok s d → chain d c l → zlen (chain_bytes s d l) = bytes_per_cluster d * zlen l.
Proof. intros Hok Hc. apply zlen_clusters; [done|by eapply chain_all]. Qed.
Lemma chain_bytes_drop s d l k n m : fat_ok s d → Forall (valid_cluster d) l → 0 ≤ k ≤ zlen l → 0 ≤ n →
  zslice n m (chain_bytes s d (zdrop k l)) = zslice (bytes_per_cluster d * k + n) m (chain_bytes s d l).
Proof.
  intros Hok Hl Hk Hn. destruct (cluster_size d _ (fo_geometry _ _ _ Hok)) as [_ Hcs].
  rewrite <-(ztake_zdrop k l) at 2. unfold FatDisk.chain_bytes at 2. rewrite fmap_app, concat_app.
  fold (chain_bytes s d (ztake k l)) (chain_bytes s d (zdrop k l)).
  assert (Hz : zlen (chain_bytes s d (ztake k l)) = bytes_per_cluster d * k).
  { rewrite zlen_clusters; [|done|by apply Forall_take]. rewrite zlen_ztake. f_equal. lia. }
  unfold zslice. rewrite (zdrop_app_ge (_ + n)) by nia. do 2 f_equal. lia.
Qed.
Lemma read_loop_run d fuel : ∀ s c co left l, fat_ok s d → chain d c l → 0 ≤ co < bytes_per_cluster d → 0 ≤ left →
  co + left ≤ bytes_per_cluster d * zlen l → co + left ≤ bytes_per_cluster d * Z.of_nat fuel →
  ∃ s', read_loop fuel c co left (bytes_per_cluster d) s = Done (zslice co left (chain_bytes s d l), s') ∧ quiet s s'.
Proof.
  induction fuel as [|fuel IH]; intros s c co left l Hok Hc Hco Hleft Hfit Hf; cbn [read_loop].
  all: destruct (Z.leb_spec left 0) as [H0|H0].
  1,3: exists s; replace left with 0 by lia; unfold zslice; rewrite ztake_le0 by lia; split; [done|apply quiet_refl, (fo_device _ _ _ Hok)].
  { lia. }
  destruct l as [|x l]; [rewrite zlen_nil in Hfit; lia|]. destruct Hc as (-> & Hv & Hc).
  destruct (first_buffer_run dev Hss s d x Hok Hv) as (s1 & E1 & Q1). rewrite (K_bind_step _ _ _ _ _ E1). cbv zeta.
  pose proof (zlen_cluster dev s d x Hok Hv) as Hcl. set (cs := bytes_per_cluster d) in *.
  rewrite zlen_zslice by lia. rewrite zlen_cons in Hfit. rewrite chain_bytes_cons.
  destruct (Z.ltb_spec (Z.min left (cs - co)) left) as [Hlt|Hge].
  - rewrite Z.min_r by lia. pose proof (quiet_ok dev _ _ _ Hok Q1) as Hok1.
    rewrite (K_bind_step _ _ _ _ _ (next_cluster_run dev s1 d x Hok1 (valid_range d x Hv))).
    destruct l as [|z l]; [rewrite zlen_nil in Hfit; lia|]. pose proof Hc as (E & Hvz & _). pose proof (valid_below _ _ _ (fo_geometry _ _ _ Hok) Hvz) as Hz.
    rewrite E in Hc |- *. rewrite (proj2 (Z.leb_gt CLUSTER_CHAIN_END z)) by lia.
    destruct (IH s1 z 0 (left - (cs - co)) (z :: l) Hok1 Hc ltac:(lia) ltac:(lia) ltac:(lia) ltac:(lia)) as (s2 & E2 & Q2).
    exists s2. split; [|by eapply quiet_trans]. rewrite (K_bind_step _ _ _ _ _ E2). rewrite (quiet_chain _ _ _ _ Q1).
    unfold mret, K_ret. rewrite zslice_app_r by lia. do 3 f_equal. lia.
  - exists s1. split; [|done]. rewrite Z.min_l by lia. do 2 f_equal. unfold zslice.
    rewrite zdrop_app_le by lia. rewrite ztake_app_le by (rewrite zlen_zdrop; lia). done.
Qed.

(** The file behind a handle: its entry, the clusters of its chain and its bytes. *)
Record file s d (h : Z) (l : list Z) : Prop := {
  fi_handle : valid_handle s h;
  fi_live : dead (dirent_of s h) = false;
  fi_chain : chain d (dirent_cluster (dirent_of s h)) l;
  fi_size : 0 ≤ de_file_size (dirent_of s h) ≤ bytes_per_cluster d * zlen l;
}.
Definition file_bytes s d (h : Z) (l : list Z) : list Z := ztake (de_file_size (dirent_of s h)) (chain_bytes s d l).

Lemma read_spec s d h l off n : fat_ok s d → file s d h l → 0 ≤ off → 0 ≤ n → off + n < 2 ^ 64 →
  ∃ s', fat_read h off n s = Done ((zlen (zslice off n (file_bytes s d h l)), zslice off n (file_bytes s d h l)), s') ∧ quiet s s'.
Proof.
  intros Hok [Hh Hlive Hc Hsz] Hoff Hn Hmax. destruct (read_dirent_run s d h Hok Hh) as (s1 & E1 & Q1).
  unfold fat_read. rewrite (K_bind_step _ _ _ _ _ E1), Hlive. cbv zeta.
  set (e := dirent_of s h) in *. pose proof (quiet_ok dev _ _ _ Hok Q1) as Hok1.
  destruct (cluster_size d _ (fo_geometry _ _ _ Hok)) as [_ Hcs]. pose proof (zlen_chain_bytes s d l _ Hok Hc) as Hlen.
  destruct (Z.leb_spec (de_file_size e) off) as [Hend|Hin].
  { exists s1. split; [|done]. unfold file_bytes. fold e. unfold zslice. rewrite zdrop_all by (rewrite zlen_ztake; lia).
    by destruct (Z.to_nat n) eqn:En; unfold ztake; rewrite En. }
  rewrite u64_id by lia. set (size := if _ <? _ then _ else _).
  assert (Hsize : 0 ≤ size ∧ off + size ≤ de_file_size e) by (unfold size; destruct (Z.ltb_spec (de_file_size e) (off + n)); lia).
  rewrite (K_bind_step _ _ _ _ _ (fat_data_run dev s1 d Hok1)). set (cs := bytes_per_cluster d) in *.
  assert (Hidx : off / cs < zlen l) by (apply Z.div_lt_upper_bound; lia). pose proof (Z.div_pos off cs Hoff Hcs).
  destruct (skip_clusters_run s1 d cs Hok1 Hcs (skip_fuel off cs) (dirent_cluster e) off l Hc Hoff Hidx) as (x & E2 & Hx).
  { unfold skip_fuel. lia. }
  rewrite (K_bind_step _ _ _ _ _ E2). pose proof (Z.mod_pos_bound off cs Hcs). pose proof (Z.div_mod off cs ltac:(lia)) as Hdm.
  destruct (read_loop_run d (skip_fuel size cs + 1) s1 x (off mod cs) size _ Hok1 Hx) as (s2 & E3 & Q2); fold cs; try lia.
  { rewrite zlen_zdrop. nia. }
  { unfold skip_fuel. pose proof (Z.div_pos size cs ltac:(lia) Hcs). pose proof (Z.mul_succ_div_gt size cs Hcs). nia. }
  rewrite (K_bind_step _ _ _ _ _ E3). exists s2. split; [|by eapply quiet_trans].
  assert (Heq : zslice (off mod cs) size (chain_bytes s1 d (zdrop (off / cs) l)) = zslice off n (file_bytes s d h l)).
  { rewrite (quiet_chain _ _ _ _ Q1). unfold file_bytes. fold e. rewrite zslice_ztake by lia. fold size.
    rewrite chain_bytes_drop by (done || (by eapply chain_all) || lia). fold cs. f_equal. lia. }
  by rewrite Heq.
Qed.

(** C35: Reading a FAT file returns its bytes.  The file is the chain of clusters that
    its entry starts, cut to the size in the entry.  On a volume whose numbers
    describe the device, and a device that does not fail, a read at any offset
    returns the bytes asked for as far as the file goes, with their number, and
    changes neither the mount nor the device. *)
Theorem fat_read_correct s d h l off n : fat_ok s d → file s d h l → 0 ≤ off → 0 ≤ n → off + n < 2 ^ 64 →
  ∃ s', fat_read h off n s = Done ((zlen (zslice off n (file_bytes s d h l)), zslice off n (file_bytes s d h l)), s') ∧ quiet s s'.
Proof. apply read_spec. Qed.
End read.

Lemma file_a_ok : file vol_dev volume (vol_data vol_table) handle_a [3; 4].
Proof.
  split; [split; [|vm_compute; intuition discriminate..]| | |]; [discriminate|reflexivity| |vm_compute; intuition discriminate].
  cbn [chain]. split; [reflexivity|]. split; [vm_compute; intuition discriminate|].
  split; [reflexivity|]. split; [vm_compute; intuition discriminate|]. vm_compute. discriminate.
Qed.
(** A read over the border of two clusters. *)
Lemma fat_read_correct_witness : ∃ s', fat_read handle_a 510 4 volume = Done ((4, [7; 7; 9; 9]), s') ∧ quiet vol_dev volume s'.
Proof.
  destruct (fat_read_correct vol_dev vol_sector volume (vol_data vol_table) handle_a [3; 4] 510 4 volume_ok file_a_ok)
    as (s' & E & Q); [lia|lia|reflexivity|].
  exists s'. split; [|exact Q]. rewrite E.
  assert (H : zslice 510 4 (file_bytes vol_dev volume (vol_data vol_table) handle_a [3; 4]) = [7; 7; 9; 9]) by (vm_compute; reflexivity).
  rewrite H. reflexivity.
Defined.
