(* ===== verification/FatAlloc.v ===== *)
(** * The table of the FAT file system

    Every copy of the table on the device says what the copy in memory says; free
    clusters are found on the device. *)

From S2P Require Import Prelude Calendar Path Vfs Block BlockDevice Fat FatDir FatFile FatDisk.


(** ** Words of the table *)

Lemma le_put32 v : le (put32 v) = v mod 2 ^ 32.
Proof. cbn [le put32 put16 app]. Z.div_mod_to_equations. lia. Qed.
Lemma zlen_put32 v : zlen (put32 v) = 4.
Proof. done. Qed.
Lemma zslice_put32 off v l : 0 ≤ off ≤ zlen l → zslice off 4 (zsplice off (put32 v) l) = put32 v.
Proof. apply (zslice_zsplice_same off (put32 v)). Qed.
Lemma land_mod32 v : Z.land (v mod 2 ^ 32) 0x0FFFFFFF = Z.land v 0x0FFFFFFF.
Proof. rewrite <-Z.land_ones by lia. rewrite <-Z.land_assoc. f_equal. Qed.
Lemma keep_high old v : Z.land (Z.lor (Z.land old 0xF0000000) (Z.land v 0x0FFFFFFF)) 0x0FFFFFFF = Z.land v 0x0FFFFFFF.
Proof. rewrite Z.land_lor_distr_l, <-!Z.land_assoc. cbn [Z.land Pos.land]. by rewrite Z.land_0_r, Z.lor_0_l. Qed.
Definition set_entry (table : list Z) (c v : Z) : list Z := zsplice (4 * c) (put32 v) table.
Lemma entry28_set table c v c' : 0 ≤ c → 0 ≤ c' → 4 * c + 4 ≤ zlen table →
  entry28 (set_entry table c v) c' = if decide (c' = c) then Z.land v 0x0FFFFFFF else entry28 table c'.
Proof.
  intros H0 H0' Hc. unfold entry28, entry, set_entry. case_decide as E.
  - subst c'. rewrite zslice_put32 by lia. by rewrite le_put32, land_mod32.
  - rewrite zslice_zsplice_other; [done|lia|lia|by rewrite zlen_put32|]. rewrite zlen_put32. lia.
Qed.

(** ** The copies on the device *)

(** Where the entry of cluster [c] is in copy [i]. *)
Definition copy_position (d : fat_data_t) (i c : Z) : Z := (reserved_sectors (bpb d) + i * fat_size d) * 512 + 4 * c.
Definition copy_entry (d : fat_data_t) (bytes : list Z) (i c : Z) : Z := Z.land (le (zslice (copy_position d i c) 4 bytes)) 0x0FFFFFFF.
Definition mirrored (d : fat_data_t) (bytes : list Z) : Prop :=
  ∀ i c, 0 ≤ i < num_fats (bpb d) → 0 ≤ c < total_clusters d + 2 → copy_entry d bytes i c = entry28 (fat d) c.
(** What write_fat stores in one copy, and in the copies from [i] on. *)
Definition put_copy (d : fat_data_t) (bytes : list Z) (i c v : Z) : list Z :=
  zsplice (copy_position d i c)
    (put32 (Z.lor (Z.land (le (zslice (copy_position d i c) 4 bytes)) 0xF0000000) (Z.land v 0x0FFFFFFF))) bytes.
Fixpoint put_copies (d : fat_data_t) (n : nat) (i c v : Z) (bytes : list Z) : list Z :=
  match n with O => bytes | S n => put_copies d n (i + 1) c v (put_copy d bytes i c v) end.

Lemma put_copies_fat d table n : ∀ i c v bytes, put_copies (set_fat table d) n i c v bytes = put_copies d n i c v bytes.
Proof. induction n as [|n IH]; intros i c v bytes; [done|]. cbn [put_copies]. by rewrite IH. Qed.
Section copies.
Context (d : fat_data_t) (n : Z) (G : geometry d n).
Lemma copy_in i c : 0 ≤ i < num_fats (bpb d) → 0 ≤ c < total_clusters d + 2 →
  reserved_sectors (bpb d) * 512 ≤ copy_position d i c ∧ copy_position d i c + 4 ≤ first_data_sector d * 512 ∧
  0 ≤ copy_position d i c ∧ copy_position d i c + 4 ≤ n.
Proof using G.
  intros Hi Hc. pose proof (first_sector d n G) as Hf. destruct G. unfold copy_position. rewrite Hf in *.
  assert (0 ≤ i * fat_size d) by nia. assert (i * fat_size d + fat_size d ≤ num_fats (bpb d) * fat_size d) by nia.
  assert (0 ≤ total_clusters d * sectors_per_cluster (bpb d)) by nia. lia.
Qed.
(** The sector of an entry in copy [i]. *)
Definition copy_sector (i c : Z) : Z := reserved_sectors (bpb d) + i * fat_size d + 4 * c / 512.
Lemma copy_sector_in i c : 0 ≤ i < num_fats (bpb d) → 0 ≤ c < total_clusters d + 2 →
  0 ≤ copy_sector i c < 2 ^ 32 ∧ (copy_sector i c + 1) * 512 ≤ n ∧
  copy_position d i c = copy_sector i c * 512 + 4 * c mod 512 ∧ 0 ≤ 4 * c mod 512 ∧ 4 * c mod 512 + 4 ≤ 512.
Proof using G.
  intros Hi Hc. destruct (copy_in i c Hi Hc) as (K1 & K2 & _). pose proof (first_sector d n G) as Hf.
  assert (Hp : copy_position d i c = copy_sector i c * 512 + 4 * c mod 512) by (unfold copy_position, copy_sector; Z.div_mod_to_equations; lia).
  assert (H1 : 0 ≤ 4 * c mod 512) by (Z.div_mod_to_equations; lia).
  assert (H2 : 4 * c mod 512 + 4 ≤ 512) by (Z.div_mod_to_equations; lia).
  assert (H3 : 0 ≤ copy_sector i c).
  { pose proof (ge_size _ _ G). pose proof (ge_reserved _ _ G). unfold copy_sector. assert (0 ≤ i * fat_size d) by nia.
    pose proof (Z.div_pos (4 * c) 512). lia. }
  assert (H4 : copy_sector i c < first_data_sector d) by lia.
  pose proof (ge_first _ _ G). pose proof (ge_fits _ _ G) as Hfit. pose proof (ge_cluster _ _ G). destruct (ge_entries _ _ G) as [He _].
  assert (0 ≤ total_clusters d * sectors_per_cluster (bpb d)) by nia. clear -Hp H1 H2 H3 H4 Hf H Hfit H5. lia.
Qed.
Lemma copies_apart i c i' c' : 0 ≤ i → 0 ≤ i' → 0 ≤ c < total_clusters d + 2 → 0 ≤ c' < total_clusters d + 2 →
  i ≠ i' ∨ c ≠ c' → copy_position d i c + 4 ≤ copy_position d i' c' ∨ copy_position d i' c' + 4 ≤ copy_position d i c.
Proof using G.
  intros Hi Hi' Hc Hc' Hne. destruct G. unfold copy_position.
  destruct (Z.lt_trichotomy i i') as [H|[->|H]]; [|lia|].
  - assert (i * fat_size d + fat_size d ≤ i' * fat_size d) by nia. lia.
  - assert (i' * fat_size d + fat_size d ≤ i * fat_size d) by nia. lia.
Qed.
Context (c v : Z) (Hc : 0 ≤ c < total_clusters d + 2).
Lemma put_copy_len bytes i : zlen bytes = n → 0 ≤ i < num_fats (bpb d) → zlen (put_copy d bytes i c v) = n.
Proof using G Hc. intros Hb Hi. destruct (copy_in i c Hi Hc) as (_ & _ & H1 & H2). unfold put_copy. rewrite zlen_zsplice; rewrite ?zlen_put32; lia. Qed.
Lemma put_copy_other bytes i a m : zlen bytes = n → 0 ≤ i < num_fats (bpb d) → 0 ≤ a →
  a + m ≤ copy_position d i c ∨ copy_position d i c + 4 ≤ a → zslice a m (put_copy d bytes i c v) = zslice a m bytes.
Proof using G Hc.
  intros Hb Hi Ha Ho. destruct (copy_in i c Hi Hc) as (_ & _ & H1 & H2). unfold put_copy.
  apply zslice_zsplice_other; rewrite ?zlen_put32; lia.
Qed.
Lemma put_copy_entry bytes i i' c' : zlen bytes = n → 0 ≤ i < num_fats (bpb d) → 0 ≤ i' → 0 ≤ c' < total_clusters d + 2 →
  copy_entry d (put_copy d bytes i c v) i' c' =
    if decide (i' = i ∧ c' = c) then Z.land v 0x0FFFFFFF else copy_entry d bytes i' c'.
Proof using G Hc.
  intros Hb Hi Hi' Hc'. unfold copy_entry. case_decide as E.
  - destruct E as [-> ->]. destruct (copy_in i c Hi Hc) as (_ & _ & H1 & H2). unfold put_copy.
    rewrite zslice_put32 by lia. rewrite le_put32, land_mod32. apply keep_high.
  - rewrite put_copy_other; [done|done|done| |].
    + destruct G. unfold copy_position. nia.
    + destruct (copies_apart i' c' i c) as [H|H]; [done|lia|done|done|lia|by left|by right].
Qed.
Lemma put_copies_spec k : ∀ i bytes, zlen bytes = n → 0 ≤ i → i + Z.of_nat k = num_fats (bpb d) →
  zlen (put_copies d k i c v bytes) = n ∧
  (∀ i' c', 0 ≤ i' < num_fats (bpb d) → 0 ≤ c' < total_clusters d + 2 → copy_entry d (put_copies d k i c v bytes) i' c' =
    if decide (i ≤ i' ∧ c' = c) then Z.land v 0x0FFFFFFF else copy_entry d bytes i' c') ∧
  (∀ a m, 0 ≤ a → a + m ≤ reserved_sectors (bpb d) * 512 ∨ first_data_sector d * 512 ≤ a →
    zslice a m (put_copies d k i c v bytes) = zslice a m bytes).
Proof using G Hc.
  induction k as [|k IH]; intros i bytes Hb Hi Hk; cbn [put_copies].
  - split; [done|]. split; [|done]. intros i' c' Hi' Hc'. rewrite decide_False; [done|]. lia.
  - assert (Hin : 0 ≤ i < num_fats (bpb d)) by lia.
    destruct (IH (i + 1) (put_copy d bytes i c v)) as (H1 & H2 & H3); [by apply put_copy_len|lia|lia|].
    split; [done|]. split.
    + intros i' c' Hi' Hc'. rewrite H2, put_copy_entry by (done || lia). repeat case_decide; try done; lia.
    + intros a m Ha Ho. rewrite H3 by done. destruct (copy_in i c Hin Hc) as (K1 & K2 & _). apply put_copy_other; [done|done|done|lia].
Qed.
End copies.

(** ** Scanning for a free entry *)

Definition free_word (entries : list Z) (k : Z) : Prop := Z.land (le (zslice (4 * k) 4 entries)) 0x0FFFFFFF = 0.
Lemma free_word_shift entries k : 1 ≤ k → free_word (zdrop 4 entries) (k - 1) ↔ free_word entries k.
Proof. intros Hk. unfold free_word, zslice. rewrite zdrop_zdrop by lia. by replace (4 + 4 * (k - 1)) with (4 * k) by lia. Qed.
(** What the search of [n] words, for the clusters from [first] on, says of all but
    the first two clusters below [limit]. *)
Definition scanned (free : Z → Prop) (first n limit : Z) (o : option Z) : Prop :=
  match o with
  | None => (n ≤ 0 ∨ first + n ≤ limit) ∧ ∀ c, 2 ≤ c < limit → first ≤ c < first + n → ¬ free c
  | Some c => (c = 0 ∧ limit < first + n ∧ ∀ c, 2 ≤ c < limit → first ≤ c → ¬ free c) ∨ (2 ≤ c < limit ∧ first ≤ c < first + n ∧ free c)
  end.
Lemma scan_entries_spec n : ∀ first limit entries, 4 * Z.of_nat n ≤ zlen entries → 0 ≤ first → 2 ≤ limit → limit < 2 ^ 32 →
  first ≤ limit → first + Z.of_nat n < 2 ^ 32 →
  ∃ o, scan_entries n first (limit - 2) entries = Some o ∧ scanned (λ c, free_word entries (c - first)) first (Z.of_nat n) limit o.
Proof.
  induction n as [|n IH]; intros first limit entries Hlen H0 H2 Hmax Hle Hsum.
  - exists None. split; [done|]. split; [by left|]. intros c _ ?. lia.
  - cbn [scan_entries]. rewrite (u32_id (limit - 2 + 2)) by lia. replace (limit - 2 + 2) with limit by lia.
    destruct (decide (first = limit)) as [->|Hne].
    { rewrite (proj2 (Z.ltb_ge limit 2)), (proj2 (Z.leb_le limit limit)) by lia. exists (Some 0). split; [done|]. left. split; [done|].
      split; [lia|]. intros c ? ?. lia. }
    rewrite (u32_id (first + 1)) by lia.
    destruct (IH (first + 1) limit (zdrop 4 entries)) as (o & Eo & Ho); [rewrite zlen_zdrop; lia|lia|lia|lia|lia|lia|].
    assert (Hsh : ∀ c, first + 1 ≤ c → free_word (zdrop 4 entries) (c - (first + 1)) ↔ free_word entries (c - first)).
    { intros c Hc. rewrite <-(free_word_shift entries (c - first)) by lia. by replace (c - first - 1) with (c - (first + 1)) by lia. }
    assert (Hnext : (2 ≤ first → ¬ free_word entries 0) →
      scanned (λ c, free_word entries (c - first)) first (Z.of_nat (S n)) limit o).
    { intros Hf. assert (Hc0 : ∀ c, 2 ≤ c < limit → first ≤ c → (first + 1 ≤ c → ¬ free_word entries (c - first)) → ¬ free_word entries (c - first)).
      { intros c Hc Hge Hr. destruct (decide (c = first)) as [->|]; [rewrite Z.sub_diag; apply Hf; lia|apply Hr; lia]. }
      destruct o as [c|]; cbn [scanned] in Ho |- *.
      - destruct Ho as [(-> & Hlim & Ho)|(K1 & K2 & K3)]; [left|right].
        + split; [done|]. split; [lia|]. intros c Hc Hge. apply Hc0; [done|done|]. intros Hge'. rewrite <-Hsh by done. by apply Ho.
        + split; [done|]. split; [lia|]. apply Hsh in K3; [done|lia].
      - destruct Ho as [K1 K2]. split; [right; lia|]. intros c Hc Hge. apply Hc0; [done|lia|]. intros Hge'. rewrite <-Hsh by done. apply K2; [done|lia]. }
    destruct (Z.ltb_spec first 2) as [Hlt|Hge]; [exists o; split; [done|apply Hnext; lia]|].
    rewrite (proj2 (Z.leb_gt limit first)) by lia. rewrite field_zslice by lia. cbn [mbind option_bind].
    destruct (Z.eqb_spec (Z.land (le (zslice 0 4 entries)) 0x0FFFFFFF) CLUSTER_FREE) as [E|E].
    + exists (Some first). split; [done|]. right. split; [lia|]. split; [lia|]. by rewrite Z.sub_diag.
    + exists o. split; [done|]. apply Hnext. intros _ Hf. by apply E.
Qed.

Section alloc.
Context {D : Type} (dev : block_device_t) `{!BlockDevice D dev, !ReliableDevice dev}.
Context (Hss : sector_size (dev := dev) = 512).
#[local] Notation fatfs := (fatfs D).
#[local] Notation disk := (disk dev).
#[local] Notation quiet := (quiet dev).
#[local] Notation goes := (goes dev).
#[local] Notation fat_ok := (fat_ok dev).
Implicit Types (s : fatfs) (d : fat_data_t).

(** The mount becomes [d'] and the bytes of the device [c]. *)
Record moves s d' (c : list Z) s' : Prop := {
  mo_mounts : fat_mounts s' = <[data s := d']> (fat_mounts s);
  mo_data : data s' = data s;
  mo_next : fat_next s' = fat_next s;
  mo_vvar : fat_vvar s' = fat_vvar s;
  mo_junk : junk s' = junk s;
  mo_ok : device_ok (dev := dev) (fat_block s');
  mo_disk : disk s' = c;
}.
Lemma moves_ok s d d' c s' : fat_ok s d → moves s d' c s' → backing d' = backing d → geometry d' (zlen c) → fat_ok s' d'.
Proof.
  intros [F1 F2 F3 F4] [M1 M2 M3 M4 M5 M6 M7] Hb Hg. split; [by rewrite M1, M2, lookup_insert_eq|congruence|done|by rewrite M7].
Qed.
Lemma moves_goes s d' c s1 c' s2 : moves s d' c s1 → goes s1 c' s2 → moves s d' c' s2.
Proof. intros [] []. split; congruence. Qed.
Lemma moves_trans s d1 c1 s1 d2 c2 s2 : moves s d1 c1 s1 → moves s1 d2 c2 s2 → moves s d2 c2 s2.
Proof.
  intros [M1 M2 M3 M4 M5 M6 M7] [N1 N2 N3 N4 N5 N6 N7]. split; try congruence. by rewrite N1, M2, M1, insert_insert_eq.
Qed.
Lemma goes_moves s d c s1 d2 c2 s2 : goes s c s1 → moves s1 d2 c2 s2 → moves s d2 c2 s2.
Proof. intros [] []. split; congruence. Qed.
Lemma goes_as_moves s d c s1 : fat_ok s d → goes s c s1 → moves s d c s1.
Proof. intros [F1 _ _ _] []. split; try congruence. by rewrite insert_id by congruence. Qed.
Lemma update_data_run s d f : fat_ok s d → ∃ s', update_data f s = Done (tt, s') ∧ moves s (f d) (disk s) s'.
Proof.
  intros Hok. exists (set_fat_mounts (<[data s := f d]> (fat_mounts s)) s). split.
  - unfold update_data. by rewrite (K_bind_step _ _ _ _ _ (fat_data_run dev s d Hok)).
  - split; try done. apply (fo_device _ _ _ Hok).
Qed.

(** ** write_fat *)

Lemma geometry_fat d n table : geometry d n → zlen table = zlen (fat d) → geometry (set_fat table d) n.
Proof. intros [] Ht. split; try done. cbn. by rewrite Ht. Qed.
Lemma geometry_free d n c : geometry d n → geometry (set_last_free c d) n.
Proof. by intros []. Qed.
Lemma store_run off bytes buffer : 0 ≤ off → off + zlen bytes ≤ zlen buffer → store off bytes buffer = Some (zsplice off bytes buffer).
Proof. intros. unfold store. by rewrite (proj2 (Z.leb_le 0 off)), (proj2 (Z.leb_le _ (zlen buffer))) by lia. Qed.
Lemma write_copies_run d c v k : ∀ s i sector, fat_ok s d → 0 ≤ c < total_clusters d + 2 → 0 ≤ i →
  i + Z.of_nat k = num_fats (bpb d) →
  k = O ∨ sector = reserved_sectors (bpb d) + i * fat_size d + 4 * c / 512 →
  ∃ s', write_fat_copies k sector (4 * c mod 512) v s = Done (tt, s') ∧ goes s (put_copies d k i c v (disk s)) s'.
Proof.
  induction k as [|k IH]; intros s i sector Hok Hc Hi Hk Hs.
  - exists s. split; [done|]. apply quiet_refl, (fo_device _ _ _ Hok).
  - destruct Hs as [?|Hs]; [done|]. pose proof (fo_geometry _ _ _ Hok) as G. assert (Hin : 0 ≤ i < num_fats (bpb d)) by lia.
    fold (copy_sector d i c) in Hs. subst sector.
    destruct (copy_sector_in d _ G i c Hin Hc) as (Hs0 & Hs1 & Hpos & Hmb & Hal). set (sector := copy_sector d i c) in *.
    pose proof (copy_in d _ G i c Hin Hc) as (_ & _ & K3 & K4).
    destruct (sector_buffer_run dev Hss s d sector Hok (proj1 Hs0) Hs1) as (s1 & E1 & Q1).
    pose proof (quiet_ok dev _ _ _ Hok Q1) as Hok1. pose proof (quiet_disk dev _ _ Q1) as D1.
    set (w := Z.lor (Z.land (le (zslice (copy_position d i c) 4 (disk s))) 0xF0000000) (Z.land v 0x0FFFFFFF)).
    assert (Hzl : zlen (zslice (sector * 512) 512 (disk s)) = 512) by (apply zlen_zslice; lia).
    destruct (write_out_run dev Hss s1 d (zsplice (4 * c mod 512) (put32 w) (zslice (sector * 512) 512 (disk s))) sector 1)
      as (res & s2 & E2 & _ & Q2); [done|lia|lia|by rewrite D1|rewrite zlen_zsplice; rewrite ?zlen_put32, ?Hzl; lia|].
    rewrite D1, zsplice_zslice, <-Hpos in Q2 by (rewrite ?zlen_put32; lia). fold (put_copy d (disk s) i c v) in Q2.
    pose proof (put_copy_len d _ G c v Hc (disk s) i eq_refl Hin) as Hlen.
    destruct (IH s2 (i + 1) (u32 (sector + fat_size d))) as (s3 & E3 & Q3).
    { eapply goes_ok; [exact Hok1|exact Q2|]. rewrite D1. exact Hlen. } { done. } { lia. } { lia. }
    { destruct k as [|k]; [by left|right]. fold (copy_sector d (i + 1) c).
      destruct (copy_sector_in d _ G (i + 1) c ltac:(lia) Hc) as (Hs2 & _).
      assert (E : copy_sector d (i + 1) c = sector + fat_size d) by (unfold sector, copy_sector; lia).
      rewrite E in Hs2 |- *. by apply u32_id. }
    exists s3. split.
    + cbn [write_fat_copies]. rewrite (K_bind_step _ _ _ _ _ (fat_data_run dev s d Hok)), (K_bind_step _ _ _ _ _ E1).
      rewrite field_zslice by lia. rewrite zslice_zslice, <-Hpos by lia. cbn [kopt].
      rewrite (K_bind_step _ _ s1 _ s1) by done. cbv zeta. fold w. rewrite store_run by (rewrite ?zlen_put32; lia). cbn [kopt].
      rewrite (K_bind_step _ _ s1 _ s1) by done. rewrite (K_bind_step _ _ _ _ _ E2). exact E3.
    + cbn [put_copies]. eapply quiet_goes; [exact Q1|]. eapply goes_trans; [exact Q2|]. by rewrite (go_disk _ _ _ _ Q2) in Q3.
Qed.
Lemma write_fat_run s d c v : fat_ok s d → 0 ≤ c < total_clusters d + 2 →
  ∃ s', write_fat c v s = Done (tt, s') ∧
    moves s (set_fat (set_entry (fat d) c v) d) (put_copies d (Z.to_nat (num_fats (bpb d))) 0 c v (disk s)) s' ∧
    fat_ok s' (set_fat (set_entry (fat d) c v) d).
Proof.
  intros Hok Hc. pose proof (fo_geometry _ _ _ Hok) as G. pose proof (ge_max _ _ G) as Hmax. destruct (entry_in d _ c G Hc) as [He1 He2].
  set (d' := set_fat (set_entry (fat d) c v) d).
  destruct (update_data_run s d (set_fat (set_entry (fat d) c v)) Hok) as (s1 & E1 & M1).
  assert (Hlen : zlen (set_entry (fat d) c v) = zlen (fat d)) by (apply zlen_zsplice; rewrite ?zlen_put32; lia).
  pose proof (moves_ok _ _ _ _ _ Hok M1 eq_refl (geometry_fat _ _ _ G Hlen)) as Hok1. fold d' in Hok1.
  destruct (write_copies_run d' c v (Z.to_nat (num_fats (bpb d))) s1 0
    (u32 (reserved_sectors (bpb d) + u32 (c * 4) / bytes_per_sector (bpb d)))) as (s2 & E2 & Q2); [done|done|lia|destruct G; cbn; lia|right|].
  { rewrite (ge_sector _ _ G), (u32_id (c * 4)) by lia. rewrite (Z.mul_comm c 4).
    destruct (copy_sector_in d _ G 0 c ltac:(pose proof (ge_fats _ _ G); lia) Hc) as (Hs & _).
    unfold copy_sector in Hs. change (fat_size d') with (fat_size d). change (bpb d') with (bpb d).
    rewrite Z.mul_0_l, Z.add_0_r in Hs |- *. by apply u32_id. }
  unfold d' in Q2. rewrite (mo_disk _ _ _ _ M1), put_copies_fat in Q2. fold d' in Q2. exists s2. split; [|split].
  - unfold write_fat. rewrite (K_bind_step _ _ _ _ _ (fat_data_run dev s d Hok)). rewrite store_run by (rewrite ?zlen_put32; lia).
    cbn [kopt]. rewrite (K_bind_step _ _ s _ s) by done. fold (set_entry (fat d) c v). rewrite (K_bind_step _ _ _ _ _ E1). cbv zeta.
    assert ((bytes_per_sector (bpb d) =? 0) = false) as -> by (by rewrite (ge_sector _ _ G)).
    assert (u32 (c * 4) mod bytes_per_sector (bpb d) = 4 * c mod 512) as -> by (rewrite (ge_sector _ _ G), u32_id by lia; f_equal; lia).
    exact E2.
  - by eapply moves_goes.
  - eapply goes_ok; [exact Hok1|exact Q2|]. rewrite (mo_disk _ _ _ _ M1).
    destruct (put_copies_spec d _ G c v Hc (Z.to_nat (num_fats (bpb d))) 0 (disk s) eq_refl ltac:(lia)) as (H & _); [destruct G; lia|].
    exact H.
Qed.

(** ** fat_compute_free_cluster *)

Lemma scan_sectors_run d k : ∀ s sector, fat_ok s d → 0 ≤ sector → sector + Z.of_nat k ≤ fat_size d →
  128 * sector ≤ total_clusters d + 2 →
  ∃ o s', scan_sectors k sector 128 (total_clusters d) s = Done (o, s') ∧ quiet s s' ∧
    scanned (λ c, copy_entry d (disk s) 0 c = 0) (128 * sector) (128 * Z.of_nat k) (total_clusters d + 2) o.
Proof.
  induction k as [|k IH]; intros s sector Hok H0 Hk Hle.
  - exists None, s. split; [done|]. split; [apply quiet_refl, (fo_device _ _ _ Hok)|]. split; [left; lia|]. intros c _ ?. lia.
  - pose proof (fo_geometry _ _ _ Hok) as G. pose proof (ge_max _ _ G) as Hmax. pose proof (ge_fits _ _ G) as Hfit.
    pose proof (first_sector d _ G) as Hf. pose proof (ge_fats _ _ G). pose proof (ge_reserved _ _ G). pose proof (ge_first _ _ G).
    destruct (ge_entries _ _ G) as [He _]. pose proof (ge_cluster _ _ G). assert (0 ≤ total_clusters d * sectors_per_cluster (bpb d)) by nia.
    assert (fat_size d ≤ num_fats (bpb d) * fat_size d) by nia.
    destruct (uninit_run dev s 512 (fo_device _ _ _ Hok)) as (b & s1 & E1 & Hb & Q1); [done|]. pose proof (quiet_disk dev _ _ Q1) as D1.
    destruct (read_into_run dev Hss s1 d b (reserved_sectors (bpb d) + sector) 1) as (res & s2 & E2 & Hres & Q2);
      [by eapply quiet_ok|lia|lia|rewrite D1; lia|done|].
    rewrite D1 in E2. set (words := zslice ((reserved_sectors (bpb d) + sector) * 512) (1 * 512) (disk s)) in *.
    assert (Hwl : zlen words = 512) by (apply zlen_zslice; lia).
    assert (Hfree : ∀ c, 128 * sector ≤ c → c < 128 * sector + 128 → free_word words (c - 128 * sector) ↔ copy_entry d (disk s) 0 c = 0).
    { intros c Hc1 Hc2. unfold free_word, copy_entry, words. rewrite zslice_zslice by lia.
      replace (copy_position d 0 c) with ((reserved_sectors (bpb d) + sector) * 512 + 4 * (c - 128 * sector)) by (unfold copy_position; lia). done. }
    destruct (scan_entries_spec (Z.to_nat 128) (128 * sector) (total_clusters d + 2) words) as (o & Eo & Ho); [lia..|].
    replace (total_clusters d + 2 - 2) with (total_clusters d) in Eo by lia. change (Z.of_nat (Z.to_nat 128)) with 128 in Ho.
    assert (Hrun : ∀ o' s', match o with Some c => mret (Some c) | None => scan_sectors k (sector + 1) 128 (total_clusters d) end s2 = Done (o', s') →
      scan_sectors (S k) sector 128 (total_clusters d) s = Done (o', s')).
    { intros o' s' Hr. cbn [scan_sectors]. rewrite (K_bind_step _ _ _ _ _ (fat_data_run dev s d Hok)), (K_bind_step _ _ _ _ _ E1).
      rewrite (u32_id (reserved_sectors (bpb d) + sector)) by lia. rewrite (K_bind_step _ _ _ _ _ E2). cbn [fst snd]. rewrite (proj2 (Z.ltb_ge res 0)) by lia.
      rewrite (u32_id (sector * 128)) by lia. rewrite (Z.mul_comm sector 128), Eo. cbn [kopt]. by rewrite (K_bind_step _ _ s2 o s2) by done. }
    assert (Q : quiet s s2) by (by eapply quiet_trans). destruct o as [c|].
    + exists (Some c), s2. split; [by apply Hrun|]. split; [done|]. cbn [scanned] in Ho |- *.
      destruct Ho as [(-> & Hlim & Ho)|(K1 & K2 & K3)]; [left|right].
      * split; [done|]. split; [lia|]. intros c Hc Hge. rewrite <-Hfree by lia. by apply Ho.
      * split; [done|]. split; [lia|]. apply Hfree; [lia|lia|done].
    + destruct Ho as [Hlim Hnone]. destruct (IH s2 (sector + 1)) as (o & s3 & E3 & Q3 & Hr3); [by eapply quiet_ok|lia|lia|lia|].
      rewrite (quiet_disk dev _ _ Q) in Hr3.
      exists o, s3. split; [by apply Hrun|]. split; [by eapply quiet_trans|].
      assert (Hin : ∀ c, 2 ≤ c < total_clusters d + 2 → 128 * sector ≤ c < 128 * sector + 128 → copy_entry d (disk s) 0 c ≠ 0).
      { intros c Hc Hr E. apply (Hnone c Hc Hr). by apply Hfree; [lia|lia|]. }
      destruct o as [c|]; cbn [scanned] in Hr3 |- *.
      * destruct Hr3 as [(-> & Hlim3 & Hr3)|(K1 & K2 & K3)]; [left|right; split; [done|split; [lia|done]]].
        split; [done|]. split; [lia|]. intros c Hc Hge. destruct (decide (c < 128 * sector + 128)); [apply Hin; lia|apply Hr3; lia].
      * destruct Hr3 as [K1 K2]. split; [right; lia|]. intros c Hc Hr.
        destruct (decide (c < 128 * sector + 128)); [apply Hin; lia|apply K2; lia].
Qed.
(** Where the search starts, a cluster at the border of a sector of the table. *)
Definition search_start d : Z :=
  128 * ((if (last_free d <? 2) || (total_clusters d + 2 <=? last_free d) then 2 else last_free d) / 128).
Lemma free_cluster_run s d : fat_ok s d → ∃ r s', fat_compute_free_cluster s = Done (r, s') ∧
  ((r = 0 ∧ quiet s s' ∧ ∀ c, valid_cluster d c → search_start d ≤ c → copy_entry d (disk s) 0 c ≠ 0) ∨
   (valid_cluster d r ∧ copy_entry d (disk s) 0 r = 0 ∧ moves s (set_last_free r d) (disk s) s')).
Proof.
  intros Hok. pose proof (fo_geometry _ _ _ Hok) as G. pose proof (ge_max _ _ G) as Hmax. destruct (ge_entries _ _ G) as [He1 He2].
  pose proof (ge_cluster _ _ G). pose proof (ge_sector _ _ G) as Hsec.
  set (st := if (last_free d <? 2) || (total_clusters d + 2 <=? last_free d) then 2 else last_free d).
  assert (Hst : 2 ≤ st ≤ Z.max 2 (total_clusters d + 1)).
  { unfold st. destruct (Z.ltb_spec (last_free d) 2), (Z.leb_spec (total_clusters d + 2) (last_free d)); cbn; lia. }
  assert (Hq : 0 ≤ st / 128 ∧ 128 * (st / 128) ≤ st) by (split; [apply Z.div_pos; lia|apply Z.mul_div_le; lia]).
  destruct (scan_sectors_run d (Z.to_nat (fat_size d - st / 128)) s (st / 128)) as (o1 & s1 & E1 & Q1 & H1); [done|lia|lia|lia|].
  destruct (scan_sectors_run d (Z.to_nat (st / 128)) s1 0) as (o2 & s2 & E2 & Q2 & H2); [by eapply quiet_ok|lia|lia|lia|].
  rewrite (quiet_disk dev _ _ Q1) in H2.
  set (finish o := match o with None => mret 0 | Some c => (if c =? 0 then mret tt else update_data (set_last_free c));; mret c end : K fatfs Z).
  assert (Hrun : fat_compute_free_cluster s =
    ((o ← match o1 with Some c => mret (Some c) | None => scan_sectors (Z.to_nat (st / 128)) 0 128 (total_clusters d) end; finish o) s1)).
  { unfold fat_compute_free_cluster. rewrite (K_bind_step _ _ _ _ _ (fat_data_run dev s d Hok)).
    rewrite Hsec, (proj2 (Z.eqb_neq (sectors_per_cluster (bpb d)) 0)) by lia. cbn [orb Z.eqb]. cbv zeta. rewrite (u32_id (total_clusters d + 2)) by lia.
    fold st. rewrite (u32_id (st * 4)) by lia. replace (st * 4 / 512) with (st / 128) by (Z.div_mod_to_equations; lia).
    change (512 / 4) with 128. by rewrite (K_bind_step _ _ _ _ _ E1). }
  assert (Hfound : ∀ c sx, valid_cluster d c → copy_entry d (disk s) 0 c = 0 → quiet s sx →
    ∃ s', finish (Some c) sx = Done (c, s') ∧ moves s (set_last_free c d) (disk s) s').
  { intros c sx Hv Hf Q. destruct (update_data_run sx d (set_last_free c) (quiet_ok dev _ _ _ Hok Q)) as (s' & E & M).
    exists s'. unfold finish. destruct Hv as [Hv _]. rewrite (proj2 (Z.eqb_neq c 0)), (K_bind_step _ _ _ _ _ E) by lia. split; [done|].
    rewrite (quiet_disk dev _ _ Q) in M. by eapply goes_moves. }
  assert (Hnone : ∀ sx, quiet s sx → (∀ c, valid_cluster d c → search_start d ≤ c → copy_entry d (disk s) 0 c ≠ 0) →
    ∃ r s', Done (0, sx) = Done (r, s') ∧ (r = 0 ∧ quiet s s' ∧ (∀ c, valid_cluster d c → search_start d ≤ c → copy_entry d (disk s) 0 c ≠ 0) ∨
      valid_cluster d r ∧ copy_entry d (disk s) 0 r = 0 ∧ moves s (set_last_free r d) (disk s) s')) by (intros sx Q Hn; exists 0, sx; split; [done|by left]).
  rewrite Hrun. unfold search_start in *. fold st in Hnone |- *. destruct o1 as [c|]; cbn [scanned] in H1.
  - rewrite (K_bind_step _ _ s1 (Some c) s1) by done. destruct H1 as [(-> & _ & H1)|(K1 & _ & K3)].
    + apply Hnone; [done|]. intros c Hv Hge. by apply H1.
    + destruct (Hfound c s1 K1 K3 Q1) as (s' & E & M). exists c, s'. split; [exact E|by right].
  - rewrite (K_bind_step _ _ _ _ _ E2). destruct H1 as [Hlim H1].
    assert (Hall : ∀ c, valid_cluster d c → 128 * (st / 128) ≤ c → copy_entry d (disk s) 0 c ≠ 0).
    { intros c Hv Hge. apply H1; [done|]. destruct Hv. lia. }
    assert (Q : quiet s s2) by (by eapply quiet_trans). destruct o2 as [c|]; cbn [scanned] in H2; [|by apply Hnone].
    destruct H2 as [(-> & _)|(K1 & _ & K3)]; [by apply Hnone|]. destruct (Hfound c s2 K1 K3 Q) as (s' & E & M).
    exists c, s'. split; [exact E|by right].
Qed.

(** C36: The copies of the FAT table agree, on a device that does not fail.  The device
    serves every request inside of it (ReliableDevice) and the numbers of the mounted
    volume describe it (fat_ok).  While every copy of the table on the device has the
    same entries as the copy in memory, write_fat sets one entry in all of them,
    leaves all other entries and every byte outside of the tables as they were, and
    the copies still agree; a cluster that is chosen for use is one of the volume and
    free in all of them, and none is chosen only when no cluster from the sector of
    the last choice on is free.  (With a device that fails neither holds: a failed
    read ends the search, and write_fat does not look at the results.) *)
Theorem fat_copies_agree s d : fat_ok s d → mirrored d (disk s) →
  (∀ c v, 0 ≤ c < total_clusters d + 2 → ∃ s' d', write_fat c v s = Done (tt, s') ∧ fat_ok s' d' ∧ mirrored d' (disk s') ∧
    (∀ c', 0 ≤ c' < total_clusters d + 2 → entry28 (fat d') c' = if decide (c' = c) then Z.land v 0x0FFFFFFF else entry28 (fat d) c') ∧
    (∀ a m, 0 ≤ a → a + m ≤ reserved_sectors (bpb d) * 512 ∨ first_data_sector d * 512 ≤ a →
      zslice a m (disk s') = zslice a m (disk s))) ∧
  (∃ r s', fat_compute_free_cluster s = Done (r, s') ∧ disk s' = disk s ∧
    ((r = 0 ∧ ∀ c, valid_cluster d c → search_start d ≤ c → entry28 (fat d) c ≠ 0) ∨
     (valid_cluster d r ∧ entry28 (fat d) r = 0 ∧ fat_ok s' (set_last_free r d)))).
Proof.
  intros Hok Hm. pose proof (fo_geometry _ _ _ Hok) as G. pose proof (ge_fats _ _ G). split.
  - intros c v Hc. destruct (write_fat_run s d c v Hok Hc) as (s' & E & M & Hok'). exists s', (set_fat (set_entry (fat d) c v) d).
    destruct (entry_in d _ c G Hc) as [He1 He2]. pose proof (mo_disk _ _ _ _ M) as Hdisk.
    destruct (put_copies_spec d _ G c v Hc (Z.to_nat (num_fats (bpb d))) 0 (disk s) eq_refl ltac:(lia) ltac:(lia)) as (_ & P2 & P3).
    assert (Hent : ∀ c', 0 ≤ c' < total_clusters d + 2 → entry28 (set_entry (fat d) c v) c' = if decide (c' = c) then Z.land v 0x0FFFFFFF else entry28 (fat d) c')
      by (intros c' Hc'; apply entry28_set; lia).
    split; [done|]. split; [done|]. split; [|split; [done|by rewrite Hdisk]].
    intros i c' Hi Hc'. rewrite Hdisk. etrans; [exact (P2 i c' Hi Hc')|]. cbn [fat set_fat]. rewrite (Hent c' Hc').
    repeat case_decide; try done; [lia|tauto|by apply Hm].
  - destruct (free_cluster_run s d Hok) as (r & s' & E & Hr). exists r, s'. split; [done|].
    assert (Hcopy : ∀ c, valid_cluster d c → copy_entry d (disk s) 0 c = entry28 (fat d) c).
    { intros c [Hv1 Hv2]. apply Hm; lia. }
    destruct Hr as [(-> & Q & Hn)|(Hv & Hf & M)].
    + split; [by apply quiet_disk|]. left. split; [done|]. intros c Hv Hge. rewrite <-Hcopy by done. by apply Hn.
    + split; [apply (mo_disk _ _ _ _ M)|]. right. split; [done|]. split; [by rewrite <-Hcopy|].
      apply (moves_ok _ _ _ _ _ Hok M eq_refl). by apply geometry_free.
Qed.
End alloc.

Lemma vol_mirrored : mirrored (vol_data vol_table) (disk vol_dev volume).
Proof.
  intros i c Hi Hc. change (num_fats (bpb (vol_data vol_table))) with 2 in Hi. change (total_clusters (vol_data vol_table)) with 10 in Hc.
  assert (i = 0 ∨ i = 1) as [-> | ->] by lia;
    assert (Hin : c ∈ seqZ 0 12) by (apply elem_of_seqZ; lia);
    repeat (apply elem_of_cons in Hin as [-> |Hin]; [vm_compute; reflexivity|]); by apply elem_of_nil in Hin.
Qed.
(** Cluster 5 is taken and becomes the end of the chain 3, 4. *)
Lemma fat_copies_agree_witness : ∃ s1 s2 d, fat_compute_free_cluster volume = Done (5, s1) ∧
  write_fat 4 5 volume = Done (tt, s2) ∧ mirrored d (disk vol_dev s2) ∧ entry28 (fat d) 4 = 5.
Proof.
  destruct (fat_copies_agree vol_dev vol_sector volume (vol_data vol_table) volume_ok vol_mirrored) as [H1 (r & s1 & E1 & _)].
  destruct (H1 4 5) as (s2 & d & E2 & _ & H2 & H3 & _); [vm_compute; intuition discriminate|].
  exists s1, s2, d. split; [|split; [exact E2|split; [exact H2|]]].
  - rewrite E1. f_equal. f_equal. assert (H : match fat_compute_free_cluster volume with Done (r, _) => r = 5 | _ => False end) by (vm_compute; reflexivity).
    rewrite E1 in H. exact H.
  - rewrite H3 by (vm_compute; intuition discriminate). reflexivity.
Defined.

(** ** What the FAT file system does on small volumes

    Runs of the operations on the volume of FatDisk.v and others like it, and
    what they show of the code. *)


(** ** A chain that leads to cluster 0 is never freed to its end

    A file without clusters has 0 as its first cluster.  Deleting it clears the entry
    of cluster 0, which then leads to itself. *)
Section free_chain.
Context {D : Type} (dev : block_device_t) `{!BlockDevice D dev, !ReliableDevice dev}.
Context (Hss : sector_size (dev := dev) = 512).
Implicit Types (s : fatfs D).

Lemma free_chain_zero_never_ends fuel : ∀ s d, fat_ok dev s d → entry28 (fat d) 0 = 0 → free_chain fuel 0 s = OutOfFuel.
Proof.
  induction fuel as [|fuel IH]; intros s d Hok H0; [done|]. cbn [free_chain]. change (CLUSTER_CHAIN_END <=? 0) with false. cbn iota.
  pose proof (fo_geometry _ _ _ Hok) as G. destruct (ge_entries _ _ G) as [He1 He2]. assert (Hc : 0 ≤ 0 < total_clusters d + 2) by lia.
  rewrite (K_bind_step _ _ _ _ _ (next_cluster_run dev s d 0 Hok Hc)), H0.
  destruct (write_fat_run dev Hss s d 0 CLUSTER_FREE Hok Hc) as (s' & E & _ & Hok'). rewrite (K_bind_step _ _ _ _ _ E).
  apply (IH s' _ Hok'). cbn [fat set_fat]. destruct (entry_in d _ 0 G Hc). by rewrite entry28_set by lia.
Qed.
End free_chain.

Definition empty_file (c : Z) : fat_dirent_t := set_name (c :: zrepeat 10 32) zero_fat_dirent.
Definition volume_e : fatfs (list Z) := volume_of vol_table (root_sector [file_a; empty_file 69; empty_file 70]).
Lemma delete_empty_file_twice :
  match fat_delete [69] volume_e with
  | Done (r, s) => r = 0 ∧ entry28 (default [] (fat <$> fat_mounts s !! data s)) 0 = 0 ∧ fat_delete [70] s = OutOfFuel
  | _ => False
  end.
Proof. vm_compute. auto. Qed.

(** ** Writing *)

(** One byte at the start of a file clears the rest of its cluster. *)
Lemma write_clears_cluster :
  match (fat_write_to_file handle_a [1] 0;; fat_read handle_a 0 514) volume with
  | Done (r, _) => r = (514, 1 :: zrepeat 511 0 ++ [9; 9])
  | _ => False
  end.
Proof. vm_compute. reflexivity. Qed.

(** Growing a file by two clusters links one: the entry of the first stays free until
    the end, so the search for the second finds it again. *)
Lemma truncate_links_one_cluster :
  match (r ← fat_truncate handle_a 2048; a ← next_cluster 4; b ← next_cluster 5; l ← fat_read handle_a 0 2048; mret (r, a, b, fst l)) volume with
  | Done (r, _) => r = (0, 5, CLUSTER_CHAIN_END, 1536)
  | _ => False
  end.
Proof. vm_compute. reflexivity. Qed.

(** ** Free clusters before the sector of the last choice are not found

    140 clusters; all from 128 on are taken, the last choice was 130. *)
Definition big_table : list Z := concat (put32 <$> zrepeat 128 0) ++ concat (put32 <$> zrepeat 14 CLUSTER_CHAIN_END) ++ zrepeat 456 0.
Definition big_boot : list Z :=
  zrepeat 11 0 ++ put16 512 ++ [1] ++ put16 1 ++ [1] ++ put16 0 ++ put16 143 ++ [0] ++ put16 2 ++ zrepeat 20 0 ++
  put32 2 ++ zrepeat 464 0.
Definition big_volume : fatfs (list Z) :=
  mk_fatfs {[ 1 := mk_fat_data vol_dev big_boot big_table (zrepeat 512 0) false 2 130 ]} 1 2
    (mk_blk [Native memory_driver] [] 0 (big_boot ++ big_table ++ zrepeat 71680 0)) (mk_vvar 1700000000 0) (λ _, 170) 0.
Lemma free_clusters_not_found :
  entry28 big_table 5 = 0 ∧ match fat_compute_free_cluster big_volume with Done (r, _) => r = 0 | _ => False end.
Proof. vm_compute. auto. Qed.

(** ** Renaming and directories *)

(** A file renamed to its own name is gone, and its clusters are free. *)
Lemma rename_to_itself_deletes :
  match (r ← fat_rename [65; 46; 84; 88; 84] [97; 46; 116; 120; 116]; l ← fat_lookup_path [65; 46; 84; 88; 84]; c ← next_cluster 3; mret (r, fst l, c)) volume with
  | Done (r, _) => r = (0, - ENOENT, 0)
  | _ => False
  end.
Proof. vm_compute. reflexivity. Qed.
(** The first sector of a new directory holds what was on the stack behind its two
    entries: a file that takes the place of the end mark uncovers it. *)
Definition volume_j : fatfs (list Z) :=
  mk_fatfs (fat_mounts volume) 1 2 (fat_block volume) (mk_vvar 1700000000 0) (λ _, 65) 0.
Lemma directory_shows_stack :
  match (fat_create_directory [68];; fat_create_file [68; 47; 88];; l ← fat_lookup_path [68]; fat_readdir (snd l) 1) volume_j with
  | Done (r, _) => r = (1, mk_dirent (zrepeat 8 65 ++ 46 :: zrepeat 3 65) DT_FILE)
  | _ => False
  end.
Proof. vm_compute. reflexivity. Qed.
(** A name of more than twelve characters is looked up as several names. *)
Lemma long_name_is_cut :
  take_component 12 is_slash [75; 69; 82; 78; 69; 76; 73; 77; 65; 71; 69; 83; 50] = ([75; 69; 82; 78; 69; 76; 73; 77; 65; 71; 69; 83], [50]).
Proof. reflexivity. Qed.
