(* ===== verification/Net.v ===== *)
(** * kernel/drivers/net.c, net/ethernet.c: network interfaces and frames

    [net] holds the globals of the whole network stack; its last field is the
    state [E] of the cards, the clock and the other tasks.  Addresses and packets
    are lists of bytes. *)

From S2P Require Import Prelude Vfs.

Definition MAX_INTERFACES : Z := 10.
Definition MAX_NET_DRIVERS : Z := 10.

Record net_if_t := mk_net_if {
  if_mac : list Z;
  if_driver : Z;
  driver_local_index : Z;
  if_ip : list Z;
  if_subnet : list Z;
}.
Record net_driver_t (E : Type) := mk_net_driver {
  send_packet_op : option (Z → list Z → Z → K E unit);
  read_packet_op : option (Z → K E (Z * list Z));
  get_mac_address_op : option (Z → K E (option (list Z)));
}.
Arguments send_packet_op {_}. Arguments read_packet_op {_}. Arguments get_mac_address_op {_}.

Record arp_entry_t := mk_arp_entry {
  arp_ip : list Z;
  arp_mac : list Z;
}.
Record route_t := mk_route {
  dest_ips : list Z;
  gateway : list Z;
  netmask : list Z;
  card : Z;
}.

(** The entries of the cache and of the packet buffer that are absent are zero. *)
Record arp_state := mk_arp {
  arp_cache : gmap Z arp_entry_t;
  waiting_for_reply : bool;
}.
Record ip_state := mk_ip {
  routes : list route_t;
  identification : Z;
  broadcast_card : Z;
  ids : list Z;
  fragment_storage : gmap Z (list Z);
  icmp_error_packet : option (list Z);
}.
Record icmp_state := mk_icmp {
  pinging : Z;
  icmp_identifier : Z;
}.
Record udp_state := mk_udp {
  udp_packet_buffer : gmap Z (list Z);
  udp_ports_open : gset Z;
}.
Record if_table (E : Type) := mk_ifs {
  net_interfaces : list net_if_t;
  net_drivers : list (net_driver_t E);
  net_driver_index : Z;
}.
Arguments mk_ifs {_}. Arguments net_interfaces {_}. Arguments net_drivers {_}.
Arguments net_driver_index {_}.
Record net (E : Type) := mk_net {
  ifs : if_table E;
  arp : arp_state;
  ip : ip_state;
  icmp : icmp_state;
  udp : udp_state;
  env : E;
}.
Arguments mk_net {_}. Arguments ifs {_}. Arguments arp {_}. Arguments ip {_}.
Arguments icmp {_}. Arguments udp {_}. Arguments env {_}.

(** ** Byte order *)

Definition htons (val : Z) : Z := u16 (Z.lor (Z.shiftr val 8) (Z.shiftl val 8)).
Definition ntohs (val : Z) : Z := u16 (Z.lor (Z.shiftr val 8) (Z.shiftl val 8)).
Definition htonl (val : Z) : Z :=
  Z.lor (Z.lor (Z.lor (Z.land (Z.shiftr val 24) 0xFF) (Z.land (Z.shiftr val 8) 0xFF00))
    (Z.land (Z.shiftl val 8) 0xFF0000)) (Z.land (Z.shiftl val 24) 0xFF000000).
Definition ntohl (val : Z) : Z :=
  Z.lor (Z.lor (Z.lor (Z.land (Z.shiftr val 24) 0xFF) (Z.land (Z.shiftr val 8) 0xFF00))
    (Z.land (Z.shiftl val 8) 0xFF0000)) (Z.land (Z.shiftl val 24) 0xFF000000).

(** A 16-bit field read from a buffer: [*(uint16_t* )(buffer + off)]. *)
Definition get16 (off : Z) (buffer : list Z) : option Z := le <$> field off 2 buffer.
Definition get8 (off : Z) (buffer : list Z) : option Z := znth buffer off.

(** ** The Internet checksum

    [while (sum >> 16) sum = (sum & 0xFFFF) + (sum >> 16);] on a 32-bit sum is
    done after three rounds. *)
Fixpoint fold_carry (fuel : nat) (sum : Z) : Z :=
  match fuel with
  | O => sum
  | S fuel =>
    if Z.shiftr sum 16 =? 0 then sum
    else fold_carry fuel (u32 (Z.land sum 0xFFFF + Z.shiftr sum 16))
  end.
(** [htons(~sum)] *)
Definition finish_checksum (sum : Z) : Z := htons (u16 (Z.lnot (fold_carry 3 sum))).

(** The sum of [n] words of a buffer, each through ntohs. *)
Fixpoint sum_words (n : nat) (buffer : list Z) (sum : Z) : option Z :=
  match n with
  | O => Some sum
  | S n =>
    match buffer with
    | a :: b :: buffer => sum_words n buffer (u32 (sum + ntohs (a + 256 * b)))
    | _ => None
    end
  end.

Section net.
Context {E : Type}.

Definition set_ifs (i : if_table E) (s : net E) : net E := mk_net i (arp s) (ip s) (icmp s) (udp s) (env s).
Definition set_arp (a : arp_state) (s : net E) : net E := mk_net (ifs s) a (ip s) (icmp s) (udp s) (env s).
Definition set_ip (i : ip_state) (s : net E) : net E := mk_net (ifs s) (arp s) i (icmp s) (udp s) (env s).
Definition set_icmp (i : icmp_state) (s : net E) : net E := mk_net (ifs s) (arp s) (ip s) i (udp s) (env s).
Definition set_udp (u : udp_state) (s : net E) : net E := mk_net (ifs s) (arp s) (ip s) (icmp s) u (env s).
Definition set_env (e : E) (s : net E) : net E := mk_net (ifs s) (arp s) (ip s) (icmp s) (udp s) e.

(** A call into a driver, the clock or another part of the kernel. *)
Definition lift_env {A} (m : K E A) : K (net E) A := λ s,
  match m (env s) with
  | Done (a, e) => Done (a, set_env e s)
  | Panic => Panic
  | Fault => Fault
  | OutOfFuel => OutOfFuel
  end.

(** ** drivers/net.c *)

(** [None] is the error -ENODEV of an index out of range. *)
Definition interface (if_index : Z) : K (net E) (option net_if_t) :=
  kgets (λ s, znth (net_interfaces (ifs s)) if_index).

Fixpoint find_if (l : list net_if_t) (driver local i : Z) : Z :=
  match l with
  | [] => - ENODEV
  | f :: l =>
    if (if_driver f =? driver) && (driver_local_index f =? local) then i
    else find_if l driver local (i + 1)
  end.
Definition get_global_if_index (driver local : Z) : K (net E) Z :=
  kgets (λ s, find_if (net_interfaces (ifs s)) driver local 0).
Definition net_get_interface_count : K (net E) Z := kgets (λ s, zlen (net_interfaces (ifs s))).
Definition does_exist (if_index : Z) : K (net E) bool :=
  kgets (λ s, (0 <=? if_index) && (if_index <? zlen (net_interfaces (ifs s)))).

Definition get_ip (if_index : Z) : K (net E) (option (list Z)) :=
  f ← interface if_index; mret (if_ip <$> f).
Definition get_subnet (if_index : Z) : K (net E) (option (list Z)) :=
  f ← interface if_index; mret (if_subnet <$> f).
Definition get_mac (if_index : Z) : K (net E) (option (list Z)) :=
  f ← interface if_index; mret (if_mac <$> f).

Definition update_if (if_index : Z) (f : net_if_t → net_if_t) : K (net E) unit :=
  kmodify (λ s, set_ifs (mk_ifs (alter f (Z.to_nat if_index) (net_interfaces (ifs s)))
                           (net_drivers (ifs s)) (net_driver_index (ifs s))) s).
Definition configure_network_interface_static (index : Z) (ip subnet : list Z) : K (net E) Z :=
  f ← interface index;
  match f with
  | None => mret (- ENODEV)
  | Some _ =>
    update_if index (λ f, mk_net_if (if_mac f) (if_driver f) (driver_local_index f) ip subnet);;
    mret 0
  end.

(** The driver of an interface: an error, or the driver and the card's number. *)
Definition driver_of_if (if_index : Z) : K (net E) (Z + net_driver_t E * Z) :=
  f ← interface if_index;
  match f with
  | None => mret (inl (- ENODEV))
  | Some f =>
    s ← kget;
    match znth (net_drivers (ifs s)) (if_driver f) with
    | None => mret (inl (- ENODEV))
    | Some d => mret (inr (d, driver_local_index f))
    end
  end.
Definition send_packet (if_index : Z) (data : list Z) (length : Z) : K (net E) Z :=
  r ← driver_of_if if_index;
  match r with
  | inl e => mret e
  | inr (d, local) =>
    match send_packet_op d with
    | None => mret (- ENOSYS)
    | Some f => lift_env (f local data length);; mret 0
    end
  end.
Definition receive_packet (if_index : Z) : K (net E) (Z * list Z) :=
  r ← driver_of_if if_index;
  match r with
  | inl e => mret (e, [])
  | inr (d, local) =>
    match read_packet_op d with
    | None => mret (- ENOSYS, [])
    | Some f => lift_env (f local)
    end
  end.

Definition register_net_driver (driver : net_driver_t E) : K (net E) Z :=
  s ← kget;
  if MAX_NET_DRIVERS <=? zlen (net_drivers (ifs s)) then mret (- ENOSPC)
  else
    kmodify (λ s, set_ifs (mk_ifs (net_interfaces (ifs s)) (net_drivers (ifs s) ++ [driver])
                             (net_driver_index (ifs s))) s);;
    mret (zlen (net_drivers (ifs s))).

(** "net/eth0" to "net/eth9" *)
Definition interface_name (i : Z) : list Z := [110; 101; 116; 47; 101; 116; 104; 48 + i].

(** devfs, which lives with the file systems; its results are not looked at. *)
Context (devfs_create_directory : list Z → K E Z) (devfs_mknod : list Z → Z → Z → K E Z).

(** The MAC address the driver reports, zeros when there is none. *)
Definition card_mac (driver local : Z) : K (net E) (list Z) :=
  s ← kget;
  d ← kopt (znth (net_drivers (ifs s)) driver);
  match get_mac_address_op d with
  | None => mret (zrepeat 6 0)
  | Some f => m ← lift_env (f local); mret (match m with Some m => ztake 6 m | None => zrepeat 6 0 end)
  end.
Definition register_net_interface (driver local : Z) : K (net E) Z :=
  s ← kget;
  let n := zlen (net_interfaces (ifs s)) in
  if MAX_INTERFACES <=? n then mret (- ENOSPC)
  else if (driver <? 0) || (zlen (net_drivers (ifs s)) <=? driver) then mret (- ENODEV)
  else
    lift_env (devfs_create_directory [110; 101; 116]);;
    lift_env (devfs_mknod (interface_name n) DT_CHAR (makedev (net_driver_index (ifs s)) n));;
    mac ← card_mac driver local;
    kmodify (λ s, set_ifs (mk_ifs (net_interfaces (ifs s) ++
                                   [mk_net_if mac driver local (zrepeat 4 0) (zrepeat 4 0)])
                             (net_drivers (ifs s)) (net_driver_index (ifs s))) s);;
    mret n.

(** The user's if_info_t: checked for access, then read or written. *)
Context (validate_user_pointer : Z → Z → bool → K E Z).
Context (load_info : Z → K E (list Z * list Z)) (store_info : Z → list Z → list Z → list Z → K E unit).

Definition IF_GET_INFO : Z := 8.
Definition IF_CONFIGURE : Z := 9.
Definition IF_INFO_SIZE : Z := 14.

Definition net_ioctl (if_index request arg : Z) : K (net E) Z :=
  f ← interface if_index;
  match f with
  | None => mret (- ENODEV)
  | Some f =>
    if request =? IF_GET_INFO then
      res ← lift_env (validate_user_pointer arg IF_INFO_SIZE true);
      if res <? 0 then mret res
      else lift_env (store_info arg (if_mac f) (if_ip f) (if_subnet f));; mret 0
    else if request =? IF_CONFIGURE then
      res ← lift_env (validate_user_pointer arg IF_INFO_SIZE false);
      if res <? 0 then mret res
      else
        r ← lift_env (load_info arg);
        let '(ip, subnet) := r in
        update_if if_index (λ f, mk_net_if (if_mac f) (if_driver f) (driver_local_index f) ip subnet);;
        mret 0
    else mret (- ENOTTY)
  end.

(** ** net/ethernet.c *)

Definition BROADCAST_MAC : list Z := [255; 255; 255; 255; 255; 255].
Definition MAX_PAYLOAD : Z := 1792.
Definition MIN_FRAME : Z := 60.

(** The frame: both addresses, the type, the payload, and zeros up to 60 bytes. *)
Definition ethernet_frame (src_mac dst_mac : list Z) (ethertype : Z) (payload : list Z) : list Z :=
  let header := dst_mac ++ src_mac ++
    [Z.land (Z.shiftr ethertype 8) 0xFF; Z.land ethertype 0xFF] in
  header ++ payload ++ zrepeat (MIN_FRAME - 14 - zlen payload) 0.
(** The result of send_packet is not looked at. *)
Definition send_ethernet (src_mac dst_mac : list Z) (ethertype : Z) (payload : list Z) (card : Z)
    : K (net E) Z :=
  let frame_length := Z.max MIN_FRAME (14 + zlen payload) in
  if MAX_PAYLOAD <? zlen payload then mret (- EMSGSIZE)
  else
    send_packet card (ethernet_frame src_mac dst_mac ethertype payload) frame_length;;
    mret 0.

End net.
