(* ===== verification/Arp.v ===== *)
(** * kernel/net/arp.c: address resolution

    A request waits for its reply with yield_current(); what the interrupt
    handler and the other tasks do meanwhile is the parameter [yield_current]. *)

From S2P Require Import Prelude Vfs Net.

Definition ARP_HTYPE_ETHERNET : Z := 1.
Definition ARP_PTYPE_IPV4 : Z := 0x0800.
Definition ARP_ETHERTYPE : Z := 0x0806.
Definition ARP_HLEN_ETHERNET : Z := 6.
Definition ARP_PLEN_IPV4 : Z := 4.
Definition ARP_OPCODE_REQUEST : Z := 1.
Definition ARP_OPCODE_REPLY : Z := 2.
Definition ARP_CACHE_SIZE : nat := 1024.

(** The 16-bit fields hold what is stored in memory, that is after htons. *)
Record arp_packet_t := mk_arp_packet {
  htype : Z;
  ptype : Z;
  hlen : Z;
  plen : Z;
  opcode : Z;
  sender_mac : list Z;
  sender_ip : list Z;
  target_mac : list Z;
  target_ip : list Z;
}.
Definition arp_bytes (p : arp_packet_t) : list Z :=
  put16 (htype p) ++ put16 (ptype p) ++ [hlen p; plen p] ++ put16 (opcode p) ++
  sender_mac p ++ sender_ip p ++ target_mac p ++ target_ip p.
(** The packet at the head of a buffer; a shorter buffer is read past its end. *)
Definition arp_parse (buffer : list Z) : option arp_packet_t :=
  htype ← get16 0 buffer;
  ptype ← get16 2 buffer;
  hlen ← get8 4 buffer;
  plen ← get8 5 buffer;
  opcode ← get16 6 buffer;
  sender_mac ← field 8 6 buffer;
  sender_ip ← field 14 4 buffer;
  target_mac ← field 18 6 buffer;
  target_ip ← field 24 4 buffer;
  Some (mk_arp_packet htype ptype hlen plen opcode sender_mac sender_ip target_mac target_ip).

Definition ZERO_IP : list Z := [0; 0; 0; 0].
Definition zero_arp_entry : arp_entry_t := mk_arp_entry ZERO_IP (zrepeat 6 0).
Definition arp_entry (a : arp_state) (i : Z) : arp_entry_t := default zero_arp_entry (arp_cache a !! i).

Section arp.
Context {E : Type}.

(** The first [n] entries from [i] on whose address is [ip]. *)
Fixpoint arp_find (n : nat) (a : arp_state) (ip : list Z) (i : Z) : option Z :=
  match n with
  | O => None
  | S n =>
    if memcmp_bytes (arp_ip (arp_entry a i)) ip =? 0 then Some i else arp_find n a ip (i + 1)
  end.

(** Put an address pair into the first entry that is zero; a full cache is left
    as it is. *)
Definition arp_insert (ip mac : list Z) (a : arp_state) : arp_state :=
  match arp_find ARP_CACHE_SIZE a ZERO_IP 0 with
  | None => a
  | Some i => mk_arp (<[i := mk_arp_entry ip mac]> (arp_cache a)) (waiting_for_reply a)
  end.
Definition stop_waiting (a : arp_state) : arp_state := mk_arp (arp_cache a) false.
Definition start_waiting (a : arp_state) : arp_state := mk_arp (arp_cache a) true.
Definition update_arp (f : arp_state → arp_state) : K (net E) unit :=
  kmodify (λ s, set_arp (f (arp s)) s).

(** Frames of type ARP come here.  An address that get_ip did not fill in is read
    uninitialised. *)
Definition arp_reply (request_frame : list Z) (card : Z) : K (net E) unit :=
  request ← kopt (arp_parse request_frame);
  ip ← get_ip card;
  our_mac ← get_mac card;
  s ← kget;
  (if waiting_for_reply (arp s) && (ntohs (opcode request) =? ARP_OPCODE_REPLY) then
     ip ← kopt ip;
     if memcmp_bytes ip (target_ip request) =? 0 then
       update_arp (arp_insert (sender_ip request) (sender_mac request));;
       update_arp stop_waiting
     else mret tt
   else mret tt);;
  if negb (ntohs (opcode request) =? ARP_OPCODE_REQUEST) then mret tt
  else
    ip ← kopt ip;
    if negb (memcmp_bytes (target_ip request) ip =? 0) then mret tt
    else
      our_mac ← kopt our_mac;
      let reply := mk_arp_packet (htons ARP_HTYPE_ETHERNET) (htons ARP_PTYPE_IPV4)
        ARP_HLEN_ETHERNET ARP_PLEN_IPV4 (htons ARP_OPCODE_REPLY)
        our_mac (target_ip request) (sender_mac request) (sender_ip request) in
      send_ethernet (sender_mac reply) (target_mac reply) ARP_ETHERTYPE (arp_bytes reply) card;;
      mret tt.

(** The clock, the signals of the current task and the rest of the system while
    it waits. *)
Context (get_uptime_milliseconds : K E Z) (has_pending_signals : K E bool)
  (yield_current : K (net E) unit).

(** [while (waiting && uptime - start_time < 1000)]; start_time is an int. *)
Fixpoint arp_wait (fuel : nat) (start_time : Z) : K (net E) Z :=
  s ← kget;
  if negb (waiting_for_reply (arp s)) then mret 0
  else
    now ← lift_env get_uptime_milliseconds;
    if negb (u64 (now - start_time) <? 1000) then mret 0
    else match fuel with
    | O => kfuel
    | S fuel =>
      p ← lift_env has_pending_signals;
      if (p : bool) then update_arp stop_waiting;; mret (- EINTR)
      else yield_current;; arp_wait fuel start_time
    end.

Fixpoint arp_tries (n fuel : nat) (our_mac frame : list Z) (card : Z) : K (net E) Z :=
  match n with
  | O => mret 0
  | S n =>
    start ← lift_env get_uptime_milliseconds;
    res ← send_ethernet our_mac BROADCAST_MAC ARP_ETHERTYPE frame card;
    if res <? 0 then mret res
    else
      res ← arp_wait fuel (s32 start);
      if res <? 0 then mret res
      else
        s ← kget;
        if negb (waiting_for_reply (arp s)) then mret 0 else arp_tries n fuel our_mac frame card
  end.

(** The result, and what was copied to the caller's MAC buffer. *)
Definition arp_request (fuel : nat) (target_ip : list Z) (card : Z) : K (net E) (Z * option (list Z)) :=
  s ← kget;
  match arp_find ARP_CACHE_SIZE (arp s) target_ip 0 with
  | Some i => mret (0, Some (arp_mac (arp_entry (arp s) i)))
  | None =>
    our_mac ← get_mac card;
    ip ← get_ip card;
    our_mac ← kopt our_mac;
    ip ← kopt ip;
    let request := mk_arp_packet (htons ARP_HTYPE_ETHERNET) (htons ARP_PTYPE_IPV4)
      ARP_HLEN_ETHERNET ARP_PLEN_IPV4 (htons ARP_OPCODE_REQUEST)
      our_mac ip (zrepeat 6 0) target_ip in
    update_arp start_waiting;;
    res ← arp_tries 3 fuel our_mac (arp_bytes request ++ zrepeat 18 0) card;
    if res <? 0 then mret (res, None)
    else
      s ← kget;
      if waiting_for_reply (arp s) then
        update_arp stop_waiting;; mret (- EHOSTUNREACH, None)
      else
        match arp_find ARP_CACHE_SIZE (arp s) target_ip 0 with
        | Some i => mret (0, Some (arp_mac (arp_entry (arp s) i)))
        | None => mret (-1, Some (zrepeat 6 0))
        end
  end.

End arp.
