(* ===== verification/Ip.v ===== *)
(** * kernel/net/ip.c and icmp.c: routing, sending, and control messages *)

From S2P Require Import Prelude Vfs Net Arp.

Definition IP_PROTO_ICMP : Z := 1.
Definition IP_PROTO_TCP : Z := 6.
Definition IP_PROTO_UDP : Z := 17.
Definition IPV4_HEADER_LEN : Z := 20.
Definition IP_BROADCAST_ADDR : list Z := [255; 255; 255; 255].
Definition IP_DEFAULT_TTL : Z := 128.
Definition IP_FRAGMENT_OFFSET_MASK : Z := 0x1FFF.
Definition IP_FLAG_DF : Z := 0x4000.
Definition IP_FLAG_MF : Z := 0x2000.
Definition MAX_ROUTES : Z := 16.
Definition MTU : Z := 1500.
Definition FRAGMENT : Z := 1480.

(** The 16-bit fields hold what is stored in memory, that is after htons. *)
Record ipv4_header_t := mk_ipv4_header {
  version_ihl : Z;
  tos : Z;
  total_length : Z;
  ip_identification : Z;
  flags_fragment_offset : Z;
  ttl : Z;
  protocol : Z;
  header_checksum : Z;
  src_ip : list Z;
  dst_ip : list Z;
}.
Definition ip_header_bytes (h : ipv4_header_t) : list Z :=
  [version_ihl h; tos h] ++ put16 (total_length h) ++ put16 (ip_identification h) ++
  put16 (flags_fragment_offset h) ++ [ttl h; protocol h] ++ put16 (header_checksum h) ++
  src_ip h ++ dst_ip h.
Definition set_header_checksum (c : Z) (h : ipv4_header_t) : ipv4_header_t :=
  mk_ipv4_header (version_ihl h) (tos h) (total_length h) (ip_identification h)
    (flags_fragment_offset h) (ttl h) (protocol h) c (src_ip h) (dst_ip h).

(** The checksum of a header whose checksum field is zero. *)
Definition header_sum (words : Z) (header : list Z) : option Z :=
  finish_checksum <$> sum_words (Z.to_nat words) header 0.

Definition IP_ZERO : list Z := [0; 0; 0; 0].

Fixpoint popcount_loop (fuel : nat) (x count : Z) : Z :=
  match fuel with
  | O => count
  | S fuel => if x =? 0 then count else popcount_loop fuel (Z.land x (x - 1)) (count + 1)
  end.
(** A 64-bit word has at most 64 bits set. *)
Definition popcount (x : Z) : Z := popcount_loop 64 x 0.

(** Byte by byte: [(dst & mask) == (dest & mask)]. *)
Fixpoint masked_match (dst dest mask : list Z) : bool :=
  match dst, dest, mask with
  | a :: dst, b :: dest, m :: mask =>
    if Z.land a m =? Z.land b m then masked_match dst dest mask else false
  | _, _, _ => true
  end.
Definition prefix_length (mask : list Z) : Z := foldl (λ n b, n + popcount b) 0 mask.
(** The loop over the routes keeps the first of the longest matching prefixes. *)
Fixpoint best_route (l : list route_t) (dst_ip : list Z) (best : option route_t) (best_prefix : Z)
    : option route_t :=
  match l with
  | [] => best
  | r :: l =>
    if masked_match dst_ip (dest_ips r) (netmask r) then
      let prefix := prefix_length (netmask r) in
      if best_prefix <? prefix then best_route l dst_ip (Some r) prefix
      else best_route l dst_ip best best_prefix
    else best_route l dst_ip best best_prefix
  end.

Section ip.
Context {E : Type}.
Context (get_uptime_milliseconds : K E Z) (has_pending_signals : K E bool)
  (yield_current : K (net E) unit).

Definition update_ip (f : ip_state → ip_state) : K (net E) unit :=
  kmodify (λ s, set_ip (f (ip s)) s).
(** [identification++] *)
Definition next_identification : K (net E) Z :=
  s ← kget;
  update_ip (λ i, mk_ip (routes i) (u16 (identification i + 1)) (broadcast_card i) (ids i)
                    (fragment_storage i) (icmp_error_packet i));;
  mret (identification (ip s)).

(** The header with its checksum filled in. *)
Definition with_checksum (h : ipv4_header_t) : option ipv4_header_t :=
  c ← header_sum (IPV4_HEADER_LEN / 2) (ip_header_bytes (set_header_checksum 0 h));
  Some (set_header_checksum c h).

(** [for (uint16_t i = 0; i < payload_length; i += 1480)] *)
Fixpoint send_fragments (fuel : nat) (h : ipv4_header_t) (dst_mac payload : list Z) (card i : Z)
    : K (net E) Z :=
  if zlen payload <=? i then mret 0
  else match fuel with
  | O => kfuel
  | S fuel =>
    let fragment_size := if FRAGMENT <? zlen payload - i then FRAGMENT else zlen payload - i in
    let offset := i / 8 in
    let more := if i + fragment_size <? zlen payload then IP_FLAG_MF else 0 in
    h ← kopt (with_checksum (mk_ipv4_header (version_ihl h) (tos h)
      (htons (u16 (IPV4_HEADER_LEN + fragment_size))) (ip_identification h)
      (htons (Z.lor offset more)) (ttl h) (protocol h) 0 (src_ip h) (dst_ip h)));
    our_mac ← get_mac card;
    our_mac ← kopt our_mac;
    res ← send_ethernet our_mac dst_mac 0x0800
      (ip_header_bytes h ++ zslice i fragment_size payload) card;
    if res <? 0 then mret res
    else send_fragments fuel h dst_mac payload card (u16 (i + FRAGMENT))
  end.

(** Where a packet goes: an error, or the card, the host whose MAC address is
    needed (None for a broadcast). *)
Definition next_hop (dst_ip : list Z) : K (net E) (Z + Z * option (list Z)) :=
  s ← kget;
  let best := best_route (routes (ip s)) dst_ip None (-1) in
  if memcmp_bytes dst_ip IP_BROADCAST_ADDR =? 0 then mret (inr (broadcast_card (ip s), None))
  else match best with
  | None => mret (inl (- EHOSTUNREACH))
  | Some r =>
    mret (inr (card r,
      Some (if negb (memcmp_bytes (gateway r) IP_ZERO =? 0) then gateway r else dst_ip)))
  end.

Definition ip_send (fuel : nat) (dst_ip : list Z) (protocol : Z) (payload : list Z) : K (net E) Z :=
  hop ← next_hop dst_ip;
  match hop with
  | inl e => mret e
  | inr (card, host) =>
    ip ← get_ip card;
    mac ← match host with
          | None => mret (0, Some BROADCAST_MAC)
          | Some host =>
            arp_request get_uptime_milliseconds has_pending_signals yield_current fuel host card
          end;
    let '(res, dst_mac) := mac in
    if res <? 0 then mret res
    else
      dst_mac ← kopt dst_mac;
      id ← next_identification;
      ip ← kopt ip;
      let total_length := u16 (IPV4_HEADER_LEN + zlen payload) in
      h ← kopt (with_checksum (mk_ipv4_header (Z.lor (Z.shiftl 4 4) (IPV4_HEADER_LEN / 4)) 0
        (htons total_length) (htons id) (htons IP_FLAG_DF) IP_DEFAULT_TTL protocol 0 ip dst_ip));
      if MTU <? zlen payload then
        send_fragments (Z.to_nat (zlen payload / FRAGMENT + 1)) h dst_mac payload card 0
      else
        our_mac ← get_mac card;
        our_mac ← kopt our_mac;
        send_ethernet our_mac dst_mac 0x0800 (ip_header_bytes h ++ payload) card
  end.

(** The address in network order as one number; 0 without a route. *)
Definition get_source_ip_for (dest_ip : list Z) : K (net E) (list Z) :=
  s ← kget;
  match best_route (routes (ip s)) dest_ip None (-1) with
  | None => mret IP_ZERO
  | Some r => ip ← get_ip (card r); kopt ip
  end.

(** stat() of the interface's device file: its device number. *)
Context (stat_rdev : list Z → K E Z).
Definition add_route (dest_ip gateway netmask interface : list Z) : K (net E) unit :=
  s ← kget;
  if MAX_ROUTES <=? zlen (routes (ip s)) then mret tt
  else
    rdev ← lift_env (stat_rdev interface);
    if negb (major rdev =? u32 (net_driver_index (ifs s))) then mret tt
    else
      update_ip (λ i, mk_ip (routes i ++ [mk_route dest_ip gateway netmask (s32 (minor rdev))])
                        (identification i) (broadcast_card i) (ids i) (fragment_storage i)
                        (icmp_error_packet i)).

Fixpoint remove_first (l : list route_t) (dest_ip mask : list Z) : list route_t :=
  match l with
  | [] => []
  | r :: l =>
    if (memcmp_bytes (dest_ips r) dest_ip =? 0) && (memcmp_bytes (netmask r) mask =? 0) then l
    else r :: remove_first l dest_ip mask
  end.
Definition remove_route (dest_ip mask : list Z) : K (net E) unit :=
  update_ip (λ i, mk_ip (remove_first (routes i) dest_ip mask) (identification i) (broadcast_card i)
                    (ids i) (fragment_storage i) (icmp_error_packet i)).

(** ** icmp.c *)

Definition ICMP_ECHO_REPLY : Z := 0.
Definition ICMP_DEST_UNREACHABLE : Z := 3.
Definition ICMP_ECHO_REQUEST : Z := 8.

(** Big-endian words, an odd last byte being the high byte of a word. *)
Fixpoint icmp_sum (fuel : nat) (data : list Z) (i len sum : Z) : option Z :=
  if len <=? i then Some sum
  else match fuel with
  | O => None
  | S fuel =>
    a ← znth data i;
    b ← (if i + 1 <? len then znth data (i + 1) else Some 0);
    icmp_sum fuel data (i + 2) len (u32 (sum + Z.lor (Z.shiftl a 8) b))
  end.
Definition icmp_checksum (data : list Z) (len : Z) : option Z :=
  finish_checksum <$> icmp_sum (Z.to_nat len) data 0 len 0.

Definition update_icmp (f : icmp_state → icmp_state) : K (net E) unit :=
  kmodify (λ s, set_icmp (f (icmp s)) s).
Definition set_pinging (p : Z) : K (net E) unit :=
  update_icmp (λ i, mk_icmp p (icmp_identifier i)).

(** The checksum is at offset 2. *)
Definition icmp_received (fuel : nat) (packet sender : list Z) (len : Z) : K (net E) unit :=
  received_checksum ← kopt (get16 2 packet);
  calculated ← kopt (icmp_checksum (zsplice 2 (put16 0) packet) len);
  if negb (received_checksum =? calculated) then mret tt
  else
    type ← kopt (get8 0 packet);
    if type =? ICMP_ECHO_REQUEST then
      let packet := zsplice 2 (put16 0) (zsplice 0 [ICMP_ECHO_REPLY] packet) in
      c ← kopt (icmp_checksum packet len);
      ip_send fuel sender IP_PROTO_ICMP (ztake len (zsplice 2 (put16 c) packet));;
      mret tt
    else if type =? ICMP_ECHO_REPLY then set_pinging 0
    else if type =? ICMP_DEST_UNREACHABLE then
      s ← kget;
      if negb (pinging (icmp s) =? 0) then set_pinging (-1) else mret tt
    else mret tt.

Definition icmp_send (fuel : nat) (dest_ip : list Z) (type code sequence_number : Z) (data : list Z)
    : K (net E) Z :=
  s ← kget;
  let id := icmp_identifier (icmp s) in
  update_icmp (λ i, mk_icmp (pinging i) (u16 (icmp_identifier i + 1)));;
  let packet := [type; code] ++ put16 0 ++ put16 (htons id) ++ put16 (htons sequence_number) ++ data in
  c ← kopt (icmp_checksum packet (zlen packet));
  ip_send fuel dest_ip IP_PROTO_ICMP (zsplice 2 (put16 c) packet).

Definition send_unreachable (fuel : nat) (dest_ip : list Z) (code : Z) (original : list Z)
    : K (net E) unit :=
  icmp_send fuel dest_ip ICMP_DEST_UNREACHABLE code 0 original;; mret tt.

(** [while (pinging)]: wait for another ping to be done. *)
Fixpoint ping_turn (fuel : nat) : K (net E) Z :=
  s ← kget;
  if pinging (icmp s) =? 0 then mret 0
  else match fuel with
  | O => kfuel
  | S fuel =>
    p ← lift_env has_pending_signals;
    if (p : bool) then mret (- EINTR) else yield_current;; ping_turn fuel
  end.
Fixpoint ping_wait (fuel : nat) (start timeout : Z) : K (net E) Z :=
  s ← kget;
  if negb (pinging (icmp s) =? 1) then mret 0
  else
    now ← lift_env get_uptime_milliseconds;
    if negb (u64 (now - start) <? u64 timeout) then mret 0
    else match fuel with
    | O => kfuel
    | S fuel =>
      p ← lift_env has_pending_signals;
      if (p : bool) then set_pinging 0;; mret (- EINTR) else yield_current;; ping_wait fuel start timeout
    end.
Definition ping (fuel : nat) (dest_ip : list Z) (timeout : Z) : K (net E) Z :=
  res ← ping_turn fuel;
  if res <? 0 then mret res
  else
    set_pinging 1;;
    icmp_send fuel dest_ip ICMP_ECHO_REQUEST 0 0 (zrepeat 56 97);;
    start ← lift_env get_uptime_milliseconds;
    res ← ping_wait fuel start timeout;
    if res <? 0 then mret res
    else
      s ← kget;
      if pinging (icmp s) =? 0 then
        now ← lift_env get_uptime_milliseconds; mret (u16 (now - start))
      else if pinging (icmp s) <? 0 then set_pinging 0;; mret (- EHOSTUNREACH)
      else set_pinging 0;; mret (- ETIMEDOUT).

(** The packet that is answered is the one received last, whole.  Reading more
    than was received is a fault. *)
Definition ip_send_dest_unreachable (fuel : nat) (dest_ip : list Z) (code : Z) : K (net E) unit :=
  s ← kget;
  match icmp_error_packet (ip s) with
  | None => mret tt
  | Some packet =>
    len ← kopt (get16 2 packet);
    original ← kopt (field 0 (ntohs len) packet);
    send_unreachable fuel dest_ip code original
  end.

End ip.
