(* ===== verification/Udp.v ===== *)
(** * kernel/net/udp.c, socket.c, and the receiving half of ip.c and ethernet.c

    A frame is the driver's buffer from the first byte on; the code never learns
    how long it is beyond what the headers claim, so reading past the list is a
    fault. *)

From S2P Require Import Prelude Vfs Net Arp Ip.

Definition UDP_HEADER_SIZE : Z := 8.
Definition UDP_MAX_DATA_SIZE : Z := 1472.
Definition UDP_BUFFER_SIZE : nat := 1024.
Definition UDP_SLOT : Z := 1484.
Definition AF_INET : Z := 1.
Definition SOCK_DGRAM : Z := 1.
Definition IPPROTO_UDP : Z := 1.
Definition MSG_PEEK : Z := 1.
Definition FRAGMENT_SLOTS : Z := 12.
Definition FRAGMENT_SLOT_SIZE : Z := 0xFFFF.

Record sockaddr_in_t := mk_sockaddr {
  sa_type : Z;
  sa_ip : list Z;
  sa_port : Z;
}.
Record socket_t := mk_socket {
  sk_domain : Z;
  sk_type : Z;
  sk_protocol : Z;
  bind_addr : sockaddr_in_t;
}.
Definition no_addr : sockaddr_in_t := mk_sockaddr 0 IP_ZERO 0.

(** The 16-bit fields hold what is stored in memory, that is after htons. *)
Record udp_header_t := mk_udp_header {
  src_port : Z;
  dest_port : Z;
  udp_length : Z;
  udp_check : Z;
}.
Definition udp_header_bytes (h : udp_header_t) : list Z :=
  put16 (src_port h) ++ put16 (dest_port h) ++ put16 (udp_length h) ++ put16 (udp_check h).

(** Pseudo header, then the packet; an odd packet is read one byte past its end. *)
Definition pseudo_header (src_ip dest_ip : list Z) (len : Z) : list Z :=
  src_ip ++ dest_ip ++ [0; 17] ++ put16 (htons (u16 len)).
Definition udp_checksum (src_ip dest_ip udp_packet : list Z) (len : Z) : option Z :=
  sum ← sum_words 6 (pseudo_header src_ip dest_ip len) 0;
  sum ← sum_words (Z.to_nat ((len + 1) / 2)) udp_packet sum;
  Some (finish_checksum sum).

Section udp.
Context {E : Type}.
Context (get_uptime_milliseconds : K E Z) (has_pending_signals : K E bool)
  (yield_current : K (net E) unit).
#[local] Notation ip_send := (ip_send get_uptime_milliseconds has_pending_signals yield_current).
#[local] Notation icmp_received :=
  (icmp_received get_uptime_milliseconds has_pending_signals yield_current).
#[local] Notation send_unreachable :=
  (send_unreachable get_uptime_milliseconds has_pending_signals yield_current).
#[local] Notation ip_send_dest_unreachable :=
  (ip_send_dest_unreachable get_uptime_milliseconds has_pending_signals yield_current).

(** The packet that udp_send builds. An odd one is summed up together with [behind],
    the byte of the page behind it, which kmalloc does not clear. *)
Definition udp_packet_of (src_ip dest_ip : list Z) (src dest : Z) (data : list Z) (behind : Z)
    : option (list Z) :=
  let size := UDP_HEADER_SIZE + zlen data in
  let h := mk_udp_header (htons src) (htons dest) (htons (u16 size)) 0 in
  c ← udp_checksum src_ip dest_ip (udp_header_bytes h ++ data ++ [behind]) size;
  Some (udp_header_bytes (mk_udp_header (src_port h) (dest_port h) (udp_length h) c) ++ data).
(** What the memory behind a new allocation holds. *)
Context (byte_behind : K E Z).
(** The length is truncated to an int. *)
Definition udp_send (fuel : nat) (dest_ip : list Z) (src dest : Z) (data : list Z) : K (net E) Z :=
  ip ← get_source_ip_for dest_ip;
  let data_len := s32 (zlen data) in
  if UDP_MAX_DATA_SIZE <? data_len then mret (- EMSGSIZE)
  else if data_len <? 0 then kfault
  else
    behind ← lift_env byte_behind;
    packet ← kopt (udp_packet_of ip dest_ip src dest (ztake data_len data) behind);
    ip_send fuel dest_ip IP_PROTO_UDP packet.

(** ** The packet buffer: sender, then the packet *)

Definition udp_slot (u : udp_state) (i : Z) : list Z :=
  default (zrepeat UDP_SLOT 0) (udp_packet_buffer u !! i).
Definition slot_length (slot : list Z) : Z := le (zslice 8 2 slot).
Definition slot_port (slot : list Z) : Z := ntohs (le (zslice 6 2 slot)).
Definition set_slot (i : Z) (slot : list Z) : K (net E) unit :=
  kmodify (λ s, set_udp (mk_udp (<[i := slot]> (udp_packet_buffer (udp s))) (udp_ports_open (udp s))) s).

Fixpoint find_slot (n : nat) (u : udp_state) (p : list Z → bool) (i : Z) : option Z :=
  match n with
  | O => None
  | S n => if p (udp_slot u i) then Some i else find_slot n u p (i + 1)
  end.

(** The packet lies in the frame that icmp_error_packet points to, at [offset],
    unless it was reassembled: clearing its checksum field shows there too. *)
Definition clear_checksum (offset : option Z) : K (net E) unit :=
  match offset with
  | None => mret tt
  | Some off =>
    update_ip (λ i, mk_ip (routes i) (identification i) (broadcast_card i) (ids i)
      (fragment_storage i) (zsplice (off + 6) (put16 0) <$> icmp_error_packet i))
  end.

Definition udp_received (fuel : nat) (packet sender dest : list Z) (len : Z) (offset : option Z)
    : K (net E) unit :=
  if len <? UDP_HEADER_SIZE then mret tt
  else
    length ← kopt (get16 4 packet);
    if negb (ntohs length =? len) then mret tt
    else
      received_checksum ← kopt (get16 6 packet);
      let packet := zsplice 6 (put16 0) packet in
      clear_checksum offset;;
      calculated ← kopt (udp_checksum sender dest packet len);
      if negb (received_checksum =? calculated) then mret tt
      else
        port ← kopt (get16 2 packet);
        s ← kget;
        if bool_decide (ntohs port ∈ udp_ports_open (udp s)) then
          match find_slot UDP_BUFFER_SIZE (udp s) (λ slot, slot_length slot =? 0) 0 with
          | None => mret tt
          | Some i =>
            if UDP_SLOT <? 4 + len then kfault
            else
              bytes ← kopt (field 0 len packet);
              set_slot i (zsplice 4 bytes (zsplice 0 sender (udp_slot (udp s) i)))
          end
        else ip_send_dest_unreachable fuel sender 3.

(** The result, the payload and the sender. *)
Definition udp_get_packet (port len : Z) (peek : bool) : K (net E) (Z * list Z * sockaddr_in_t) :=
  s ← kget;
  match find_slot UDP_BUFFER_SIZE (udp s)
          (λ slot, negb (slot_length slot =? 0) && (slot_port slot =? port)) 0 with
  | None => mret (- EAGAIN, [], no_addr)
  | Some i =>
    let slot := udp_slot (udp s) i in
    let size := u64 (ntohs (slot_length slot) - 8) in
    let size := if len <? size then len else size in
    payload ← kopt (field 12 size slot);
    (if peek then mret tt else set_slot i (zsplice 8 (put16 0) slot));;
    mret (s64 size, payload, mk_sockaddr AF_INET (zslice 0 4 slot) (ntohs (le (zslice 4 2 slot))))
  end.

Definition update_ports (f : gset Z → gset Z) : K (net E) unit :=
  kmodify (λ s, set_udp (mk_udp (udp_packet_buffer (udp s)) (f (udp_ports_open (udp s)))) s).
Definition udp_open (port_number : Z) : K (net E) Z :=
  s ← kget;
  if bool_decide (port_number ∈ udp_ports_open (udp s)) then mret (- EBUSY)
  else update_ports ({[ port_number ]} ∪.);; mret 0.
Definition udp_close (port_number : Z) : K (net E) unit :=
  update_ports (.∖ {[ port_number ]}).

(** ** ip_received *)

Definition fragment_slot (i : ip_state) (k : Z) : list Z :=
  default (zrepeat FRAGMENT_SLOT_SIZE 0) (fragment_storage i !! k).
(** The first slot that is free or holds the same identification. *)
Fixpoint find_fragment (l : list Z) (id k : Z) : option Z :=
  match l with
  | [] => None
  | x :: l => if (x =? id) || (x =? 0) then Some k else find_fragment l id (k + 1)
  end.
(** Store a fragment: the reassembled data with the last one, None before. *)
Definition store_fragment (id flags_offset : Z) (payload : list Z) (payload_length : Z)
    : K (net E) (option (list Z * bool)) :=
  s ← kget;
  match find_fragment (ids (ip s)) id 0 with
  | None => mret (Some (payload, false))
  | Some k =>
    let at_byte := Z.land flags_offset IP_FRAGMENT_OFFSET_MASK * 8 in
    if (payload_length <? 0) || (FRAGMENT_SLOT_SIZE <? at_byte + payload_length) then kfault
    else
      bytes ← kopt (field 0 payload_length payload);
      let slot := zsplice at_byte bytes (fragment_slot (ip s) k) in
      let last := Z.land flags_offset IP_FLAG_MF =? 0 in
      update_ip (λ i, mk_ip (routes i) (identification i) (broadcast_card i)
        (<[Z.to_nat k := if last then 0 else id]> (ids i))
        (<[k := slot]> (fragment_storage i)) (icmp_error_packet i));;
      mret (if last then Some (slot, true) else None)
  end.

Definition handle_packet (fuel : nat) (frame payload : list Z) (reassembled : bool)
    (header_length payload_length : Z) : K (net E) unit :=
  update_ip (λ i, mk_ip (routes i) (identification i) (broadcast_card i) (ids i)
    (fragment_storage i) (Some frame));;
  proto ← kopt (get8 9 frame);
  src ← kopt (field 12 4 frame);
  dst ← kopt (field 16 4 frame);
  total ← kopt (get16 2 frame);
  if proto =? IP_PROTO_ICMP then
    icmp_received fuel payload src payload_length
  else if proto =? IP_PROTO_UDP then
    udp_received fuel payload src dst payload_length (if reassembled then None else Some header_length)
  else
    original ← kopt (field 0 (if 20 + 64 <? ntohs total then 20 + 64 else ntohs total) frame);
    send_unreachable fuel src 2 original.

Definition ip_received (fuel : nat) (frame : list Z) (card : Z) : K (net E) unit :=
  ip ← get_ip card;
  version_ihl ← kopt (get8 0 frame);
  let ihl := Z.land version_ihl 0x0F in
  if negb (Z.shiftr version_ihl 4 =? 4) || (ihl <? 5) then mret tt
  else
    dst ← kopt (field 16 4 frame);
    ip ← kopt ip;
    if negb (memcmp_bytes dst ip =? 0) && negb (memcmp_bytes dst IP_BROADCAST_ADDR =? 0) then mret tt
    else
      received_checksum ← kopt (get16 10 frame);
      calculated ← kopt (header_sum (ihl * 2) (zsplice 10 (put16 0) frame));
      if negb (received_checksum =? calculated) then mret tt
      else
        let header_length := ihl * 4 in
        total ← kopt (get16 2 frame);
        let payload_length := ntohs total - header_length in
        let payload := zdrop header_length frame in
        flags ← kopt (get16 6 frame);
        let flags_offset := ntohs flags in
        if Z.land flags_offset IP_FLAG_DF =? 0 then
          id ← kopt (get16 4 frame);
          r ← store_fragment (ntohs id) flags_offset payload payload_length;
          match r with
          | None => mret tt
          | Some (payload, reassembled) =>
            handle_packet fuel frame payload reassembled header_length payload_length
          end
        else handle_packet fuel frame payload false header_length payload_length.

Definition frame_received (fuel : nat) (card : Z) : K (net E) unit :=
  r ← receive_packet card;
  let '(frame_length, frame) := r in
  if frame_length <=? 0 then mret tt
  else
    hi ← kopt (get8 12 frame);
    lo ← kopt (get8 13 frame);
    let ethertype := Z.lor (Z.shiftl hi 8) lo in
    if ethertype =? 0x0800 then ip_received fuel (zdrop 14 frame) card
    else if ethertype =? ARP_ETHERTYPE then arp_reply (zdrop 14 frame) card
    else mret tt.

(** ** Sockets *)

Definition socket (domain type protocol : Z) : Z + socket_t :=
  if negb (domain =? AF_INET) then inl (- EINVAL)
  else if negb (type =? SOCK_DGRAM) then inl (- EINVAL)
  else if negb (protocol =? IPPROTO_UDP) then inl (- EINVAL)
  else inr (mk_socket domain type protocol no_addr).

Definition is_udp (sk : socket_t) : bool :=
  (sk_domain sk =? AF_INET) && (sk_type sk =? SOCK_DGRAM) && (sk_protocol sk =? IPPROTO_UDP).
Definition bound (sk : socket_t) : bool := negb (sa_type (bind_addr sk) =? 0).
Definition set_addr (a : sockaddr_in_t) (sk : socket_t) : socket_t :=
  mk_socket (sk_domain sk) (sk_type sk) (sk_protocol sk) a.

Definition unbind (sk : socket_t) : K (net E) Z :=
  if negb (is_udp sk) then mret (- EINVAL)
  else (if bound sk then udp_close (sa_port (bind_addr sk)) else mret tt);; mret 0.
(** The result of udp_open is not looked at. *)
Definition bind (sk : socket_t) (addr : option sockaddr_in_t) : K (net E) (Z * socket_t) :=
  if negb (is_udp sk) then mret (- EINVAL, sk)
  else match addr with
  | None => mret (- EINVAL, sk)
  | Some addr =>
    (if bound sk then unbind sk;; mret tt else mret tt);;
    udp_open (sa_port addr);;
    mret (0, set_addr addr sk)
  end.

(** The first port from [i] on that udp_open takes. *)
Fixpoint bind_free (n : nat) (sk : socket_t) (i : Z) : K (net E) socket_t :=
  match n with
  | O => mret sk
  | S n =>
    r ← udp_open i;
    if r <? 0 then bind_free n sk (i + 1)
    else mret (set_addr (mk_sockaddr AF_INET IP_ZERO i) sk)
  end.
Definition auto_bind (sk : socket_t) : K (net E) socket_t :=
  if bound sk then mret sk else bind_free (Z.to_nat (65535 - 40000)) sk 40000.

(** [flags | MSG_PEEK] is never zero. *)
Definition recvfrom (sk : socket_t) (len flags : Z)
    : K (net E) (Z * list Z * sockaddr_in_t * socket_t) :=
  if negb (is_udp sk) then mret (- EINVAL, [], no_addr, sk)
  else
    sk ← auto_bind sk;
    r ← udp_get_packet (sa_port (bind_addr sk)) len (negb (Z.lor flags MSG_PEEK =? 0));
    mret (r, sk).
Definition sendto (fuel : nat) (sk : socket_t) (buffer : list Z) (flags : Z) (addr : sockaddr_in_t)
    : K (net E) (Z * socket_t) :=
  if negb (is_udp sk) then mret (- EINVAL, sk)
  else
    sk ← auto_bind sk;
    r ← udp_send fuel (sa_ip addr) (sa_port (bind_addr sk)) (sa_port addr) buffer;
    mret (r, sk).
Definition socket_close (sk : socket_t) : K (net E) Z :=
  if negb (is_udp sk) then mret (- EINVAL)
  else (if bound sk then udp_close (sa_port (bind_addr sk)) else mret tt);; mret 0.

End udp.
