(* ===== verification/Datagram.v ===== *)
(** * Checksums, and a datagram from one host to another

    [Sender] describes a host that has a route and a cached MAC address for the
    destination, [Receiver] one that owns the address and has the port open.  The
    frame the first hands to its card is decoded by the second to the same data. *)

From S2P Require Import Prelude Vfs Net Arp Ip Udp.

(** ** The Internet checksum

    The three checksum loops of the network stack against one definition,
    the complement of the one's-complement sum of the big-endian words. *)


Definition is_bytes (l : list Z) : Prop := Forall (λ b, 0 ≤ b < 256) l.

(** The sum of the big-endian words; an odd last byte is the high byte of one. *)
Fixpoint be_sum (l : list Z) : Z :=
  match l with
  | [] => 0
  | [a] => 256 * a
  | a :: b :: l => 256 * a + b + be_sum l
  end.
(** The one's-complement sum: the residue modulo 65535 that is 0 only for 0. *)
Definition ones_sum (s : Z) : Z := if s =? 0 then 0 else (s - 1) mod 65535 + 1.
Definition inet_checksum (l : list Z) : Z := 65535 - ones_sum (be_sum l).

Ltac is_bytes_tac :=
  repeat (apply Forall_nil_2 || apply Forall_cons_2); try (Z.div_mod_to_equations; lia).

(** Induction two bytes at a time. *)
Lemma pairs_ind (P : list Z → Prop) :
  P [] → (∀ a, P [a]) → (∀ a b l, P l → P (a :: b :: l)) → ∀ l, P l.
Proof.
  intros H0 H1 H2. assert (H : ∀ n l, (length l ≤ n)%nat → P l).
  { intros n. induction n as [|n IH]; intros [|a [|b l]] Hl; simpl in Hl; auto; try lia.
    apply H2, IH. lia. }
  intros l. by apply (H (length l)).
Qed.

Lemma even_add2 n : Z.even (n + 2) = Z.even n.
Proof. rewrite Z.even_add. by destruct (Z.even n). Qed.

(** ** Byte order *)

Lemma htons_spec v : 0 ≤ v < 2 ^ 16 → htons v = v / 256 + 256 * (v mod 256).
Proof.
  intros Hv. unfold htons, u16. rewrite Z.lor_comm, Z.shiftr_div_pow2 by lia.
  rewrite lor_shiftl by (Z.div_mod_to_equations; lia).
  change (2 ^ 8) with 256. change (2 ^ 16) with 65536 in *.
  Z.div_mod_to_equations. lia.
Qed.
Lemma ntohs_htons v : ntohs v = htons v.
Proof. done. Qed.
Lemma htons_range v : 0 ≤ htons v < 2 ^ 16.
Proof. apply u16_range. Qed.
Lemma htons_involutive v : 0 ≤ v < 2 ^ 16 → htons (htons v) = v.
Proof.
  intros Hv. rewrite (htons_spec (htons v)) by apply htons_range. rewrite (htons_spec v) by done.
  Z.div_mod_to_equations. lia.
Qed.
Lemma put16_htons v : 0 ≤ v < 2 ^ 16 → put16 (htons v) = [v / 256; v mod 256].
Proof.
  intros Hv. rewrite htons_spec by done. unfold put16.
  f_equal; [Z.div_mod_to_equations; lia|]. f_equal. Z.div_mod_to_equations. lia.
Qed.
Lemma ntohs_bytes a b : 0 ≤ a < 256 → 0 ≤ b < 256 → ntohs (a + 256 * b) = 256 * a + b.
Proof. intros. rewrite ntohs_htons, htons_spec by lia. Z.div_mod_to_equations. lia. Qed.

(** ** Folding the carries *)

Lemma ones_sum_fold s : 65536 ≤ s → ones_sum (s mod 65536 + s / 65536) = ones_sum s.
Proof.
  intros Hs. unfold ones_sum.
  rewrite !(proj2 (Z.eqb_neq _ 0)) by (Z.div_mod_to_equations; lia).
  f_equal. rewrite <-(Z.mod_add (s mod 65536 + s / 65536 - 1) (s / 65536)) by lia.
  f_equal. pose proof (Z.div_mod s 65536). lia.
Qed.
Lemma ones_sum_small s : 0 ≤ s < 65536 → ones_sum s = s.
Proof. intros. unfold ones_sum. destruct (Z.eqb_spec s 0); [done|]. rewrite Z.mod_small; lia. Qed.
Lemma ones_sum_range s : 0 ≤ s → 0 ≤ ones_sum s < 65536.
Proof. intros. unfold ones_sum. destruct (s =? 0); [lia|]. pose proof (Z.mod_pos_bound (s - 1) 65535). lia. Qed.

Lemma fold_step s :
  0 ≤ s < 2 ^ 32 → u32 (Z.land s 0xFFFF + Z.shiftr s 16) = s mod 65536 + s / 65536.
Proof.
  intros. change 0xFFFF with (Z.ones 16). rewrite Z.land_ones, Z.shiftr_div_pow2 by lia.
  change (2 ^ 16) with 65536. apply u32_id. Z.div_mod_to_equations. lia.
Qed.
Lemma fold_carry_small fuel s : 0 ≤ s < 65536 → fold_carry fuel s = s.
Proof.
  intros. destruct fuel; [done|]. cbn [fold_carry]. rewrite Z.shiftr_div_pow2 by lia.
  by rewrite Z.div_small by done.
Qed.
Lemma fold_carry_step fuel s :
  65536 ≤ s < 2 ^ 32 → fold_carry (S fuel) s = fold_carry fuel (s mod 65536 + s / 65536).
Proof.
  intros. cbn [fold_carry]. rewrite fold_step by lia.
  rewrite (proj2 (Z.eqb_neq (Z.shiftr s 16) 0)); [done|].
  rewrite Z.shiftr_div_pow2 by lia. change (2 ^ 16) with 65536. Z.div_mod_to_equations. lia.
Qed.

(** Three rounds are enough: what is left has no carry, and is the
    one's-complement sum. *)
Lemma fold_carry_spec s : 0 ≤ s < 2 ^ 32 → fold_carry 3 s = ones_sum s.
Proof.
  intros Hs. assert (H2 : ∀ s, 0 ≤ s ≤ 131070 → fold_carry 2 s = ones_sum s).
  { intros t Ht. destruct (Z.lt_ge_cases t 65536);
      [by rewrite fold_carry_small, ones_sum_small by lia|].
    rewrite fold_carry_step, <-ones_sum_fold by lia.
    rewrite fold_carry_small, ones_sum_small by (Z.div_mod_to_equations; lia). done. }
  destruct (Z.lt_ge_cases s 65536); [by rewrite fold_carry_small, ones_sum_small by lia|].
  rewrite fold_carry_step, <-ones_sum_fold by lia. apply H2. Z.div_mod_to_equations. lia.
Qed.

Lemma finish_checksum_spec s :
  0 ≤ s < 2 ^ 32 → finish_checksum s = htons (65535 - ones_sum s).
Proof.
  intros Hs. unfold finish_checksum. rewrite fold_carry_spec by done.
  pose proof (ones_sum_range s ltac:(lia)). f_equal. unfold u16, Z.lnot.
  change (2 ^ 16) with 65536. Z.div_mod_to_equations. lia.
Qed.

(** ** The loops *)

Lemma be_sum_range l : is_bytes l → 0 ≤ be_sum l ∧ 2 * be_sum l ≤ 65535 * (zlen l + 1).
Proof.
  revert l. apply (pairs_ind (λ l, is_bytes l → 0 ≤ be_sum l ∧ 2 * be_sum l ≤ 65535 * (zlen l + 1))).
  - by split.
  - intros a Ha. apply Forall_cons in Ha as [Ha _].
    cbn [be_sum]. rewrite zlen_cons, (zlen_nil (A:=Z)). lia.
  - intros a b l IH Hl. apply Forall_cons in Hl as [Ha Hl]. apply Forall_cons in Hl as [Hb Hl].
    specialize (IH Hl). cbn [be_sum]. rewrite !zlen_cons. lia.
Qed.
Lemma be_sum_app l k : Z.even (zlen l) = true → be_sum (l ++ k) = be_sum l + be_sum k.
Proof.
  revert l. apply (pairs_ind (λ l, Z.even (zlen l) = true → be_sum (l ++ k) = be_sum l + be_sum k)).
  - done.
  - done.
  - intros a b l IH He. cbn [app be_sum]. rewrite IH; [lia|].
    rewrite !zlen_cons in He. rewrite <-He. replace (1 + (1 + zlen l)) with (zlen l + 2) by lia.
    by rewrite even_add2.
Qed.

Lemma sum_words_spec l rest s :
  is_bytes l → Z.even (zlen l) = true → 0 ≤ s → s + be_sum l < 2 ^ 32 →
  sum_words (Z.to_nat (zlen l / 2)) (l ++ rest) s = Some (s + be_sum l).
Proof.
  revert l s. apply (pairs_ind (λ l, ∀ s, is_bytes l → Z.even (zlen l) = true → 0 ≤ s →
    s + be_sum l < 2 ^ 32 → sum_words (Z.to_nat (zlen l / 2)) (l ++ rest) s = Some (s + be_sum l))).
  - intros s _ _ _ _. cbn. f_equal. lia.
  - done.
  - intros a b l IH s Hl He H0 Hs. apply Forall_cons in Hl as [Ha Hl]. apply Forall_cons in Hl as [Hb Hl].
    pose proof (be_sum_range l Hl). cbn [be_sum] in Hs.
    assert (E : zlen (a :: b :: l) = zlen l + 1 * 2) by (rewrite !zlen_cons; lia).
    rewrite E in *. rewrite Z.div_add by lia. pose proof (zlen_nonneg l).
    replace (Z.to_nat (zlen l / 2 + 1)) with (S (Z.to_nat (zlen l / 2))) by (Z.div_mod_to_equations; lia).
    cbn [app sum_words be_sum]. rewrite ntohs_bytes by done. rewrite u32_id by lia.
    rewrite IH; [f_equal; lia|done| |lia|lia].
    by rewrite <-even_add2.
Qed.

Lemma header_sum_spec words l rest :
  is_bytes l → zlen l = 2 * words → zlen l < 65536 →
  header_sum words (l ++ rest) = Some (htons (inet_checksum l)).
Proof.
  intros Hl Hw Hlen. unfold header_sum.
  replace words with (zlen l / 2) by (rewrite Hw; Z.div_mod_to_equations; lia).
  pose proof (be_sum_range l Hl).
  rewrite sum_words_spec; [|done|rewrite Hw; apply Z.even_mul|lia|lia].
  cbn. by rewrite Z.add_0_l, finish_checksum_spec by lia.
Qed.

Lemma znth_app_at (pre : list Z) a l : znth (pre ++ a :: l) (zlen pre) = Some a.
Proof. rewrite znth_app_r, Z.sub_diag by lia. done. Qed.
Lemma znth_app_at1 (pre : list Z) a b l : znth (pre ++ a :: b :: l) (zlen pre + 1) = Some b.
Proof. rewrite znth_app_r by lia. replace (zlen pre + 1 - zlen pre) with 1 by lia. done. Qed.

Lemma icmp_sum_spec fuel pre l s :
  is_bytes l → zlen l ≤ Z.of_nat fuel → 0 ≤ s → s + be_sum l < 2 ^ 32 →
  icmp_sum fuel (pre ++ l) (zlen pre) (zlen pre + zlen l) s = Some (s + be_sum l).
Proof.
  revert fuel pre s. revert l.
  apply (pairs_ind (λ l, ∀ fuel pre s, is_bytes l → zlen l ≤ Z.of_nat fuel → 0 ≤ s →
    s + be_sum l < 2 ^ 32 →
    icmp_sum fuel (pre ++ l) (zlen pre) (zlen pre + zlen l) s = Some (s + be_sum l))).
  - intros fuel pre s _ _ _ _. rewrite (zlen_nil (A:=Z)), Z.add_0_r. cbn [be_sum].
    destruct fuel; cbn [icmp_sum]; rewrite Z.leb_refl; f_equal; lia.
  - intros a fuel pre s Ha Hf H0 Hs. apply Forall_cons in Ha as [Ha _].
    rewrite zlen_cons, (zlen_nil (A:=Z)), Z.add_0_r in *. destruct fuel as [|fuel]; [lia|].
    cbn [icmp_sum]. rewrite (proj2 (Z.leb_gt _ _)) by lia.
    rewrite znth_app_at, Z.ltb_irrefl. cbn [mbind option_bind].
    rewrite lor_shiftl by lia. cbn [be_sum] in *. rewrite u32_id by lia.
    destruct fuel; cbn [icmp_sum]; rewrite (proj2 (Z.leb_le _ _)) by lia; f_equal; lia.
  - intros a b l IH fuel pre s Hl Hf H0 Hs.
    apply Forall_cons in Hl as [Ha Hl]. apply Forall_cons in Hl as [Hb Hl].
    pose proof (be_sum_range l Hl). cbn [be_sum] in *. rewrite !zlen_cons in *. pose proof (zlen_nonneg l).
    destruct fuel as [|fuel]; [lia|]. cbn [icmp_sum].
    rewrite (proj2 (Z.leb_gt _ _)), (proj2 (Z.ltb_lt _ _)), znth_app_at, znth_app_at1 by lia.
    cbn [mbind option_bind].
    rewrite lor_shiftl by lia. rewrite u32_id by lia.
    specialize (IH fuel (pre ++ [a; b]) (s + (a * 2 ^ 8 + b)) Hl ltac:(lia) ltac:(lia) ltac:(lia)).
    rewrite <-app_assoc, zlen_app in IH. cbn [app] in IH.
    change (zlen [a; b]) with 2 in IH.
    replace (zlen pre + (1 + (1 + zlen l))) with (zlen pre + 2 + zlen l) by lia.
    rewrite IH. f_equal. lia.
Qed.

Lemma icmp_checksum_spec l :
  is_bytes l → zlen l < 65536 → icmp_checksum l (zlen l) = Some (htons (inet_checksum l)).
Proof.
  intros Hl Hlen. unfold icmp_checksum. pose proof (be_sum_range l Hl). pose proof (zlen_nonneg l).
  pose proof (icmp_sum_spec (Z.to_nat (zlen l)) [] l 0 Hl ltac:(lia) ltac:(lia) ltac:(lia)) as E.
  cbn [app] in E. rewrite (zlen_nil (A:=Z)), !Z.add_0_l in E. rewrite E. cbn.
  by rewrite finish_checksum_spec by lia.
Qed.

Lemma is_bytes_put16 v : is_bytes (put16 v).
Proof. unfold put16. is_bytes_tac. Qed.

Lemma udp_checksum_spec src dest packet rest :
  is_bytes src → is_bytes dest → zlen src = 4 → zlen dest = 4 →
  is_bytes packet → Z.even (zlen packet) = true → zlen packet < 65536 →
  udp_checksum src dest (packet ++ rest) (zlen packet) =
    Some (htons (inet_checksum (pseudo_header src dest (zlen packet) ++ packet))).
Proof.
  intros Hs Hd Ls Ld Hp He Hlen. unfold udp_checksum. set (ph := pseudo_header src dest (zlen packet)).
  assert (Lph : zlen ph = 12) by (unfold ph, pseudo_header; rewrite !zlen_app, Ls, Ld; done).
  assert (Hph : is_bytes ph).
  { unfold ph, pseudo_header, is_bytes. rewrite !Forall_app.
    split_and!; [done|done|is_bytes_tac|apply is_bytes_put16]. }
  pose proof (be_sum_range ph Hph). pose proof (be_sum_range packet Hp). pose proof (zlen_nonneg packet).
  pose proof (sum_words_spec ph [] 0 Hph) as E1. rewrite app_nil_r, Lph in E1.
  change 6%nat with (Z.to_nat (12 / 2)). rewrite E1 by (done || lia). cbn [mbind option_bind].
  assert (Hhalf : (zlen packet + 1) / 2 = zlen packet / 2).
  { apply Z.even_spec in He as [k Hk]. rewrite Hk. Z.div_mod_to_equations. lia. }
  rewrite Hhalf, sum_words_spec by (done || lia). cbn [mbind option_bind].
  unfold inet_checksum. rewrite be_sum_app by (by rewrite Lph).
  by rewrite Z.add_0_l, finish_checksum_spec by lia.
Qed.

(** ** What the checksum detects *)

(** With its checksum in place the sum has all bits set. *)
Lemma ones_sum_complement s : 0 ≤ s → ones_sum (s + (65535 - ones_sum s)) = 65535.
Proof.
  intros Hs. unfold ones_sum. destruct (Z.eqb_spec s 0) as [->|Hne]; [done|].
  pose proof (Z.mod_pos_bound (s - 1) 65535).
  rewrite (proj2 (Z.eqb_neq _ 0)) by lia.
  rewrite (Z.mod_eq (s - 1) 65535) by lia.
  replace (s + (65535 - (s - 1 - 65535 * ((s - 1) / 65535) + 1)) - 1)
    with (65534 + ((s - 1) / 65535) * 65535) by lia.
  by rewrite Z.mod_add by lia.
Qed.
Lemma ones_sum_inj s t : 0 ≤ s → 0 ≤ t → ones_sum s = ones_sum t → (s - t) mod 65535 = 0.
Proof.
  intros Hs Ht. unfold ones_sum.
  destruct (Z.eqb_spec s 0) as [->|], (Z.eqb_spec t 0) as [->|]; intros E; [done|..].
  - pose proof (Z.mod_pos_bound (t - 1) 65535). lia.
  - pose proof (Z.mod_pos_bound (s - 1) 65535). lia.
  - replace (s - t) with ((s - 1) - (t - 1)) by lia. rewrite Zminus_mod.
    replace ((s - 1) mod 65535) with ((t - 1) mod 65535) by lia. by rewrite Z.sub_diag.
Qed.

(** C23: the three checksum routines compute the Internet checksum of RFC 1071.
    On any bytes (fewer than 2^16; an even number for UDP, whose loop reads words)
    the loop of ip.c over a header, the loop of icmp.c over a message and the loop
    of udp.c over pseudo header and packet all return, in network order, the
    complement of the one's-complement sum of the big-endian words.  Data with its
    checksum in place sum to 0xFFFF, which is what other hosts test; and two data
    that differ in one word only have different checksums, unless the two words
    are 0x0000 and 0xFFFF. *)
Theorem checksums_agree :
  (∀ l rest, is_bytes l → Z.even (zlen l) = true → zlen l < 65536 →
     header_sum (zlen l / 2) (l ++ rest) = Some (htons (inet_checksum l))) ∧
  (∀ l, is_bytes l → zlen l < 65536 → icmp_checksum l (zlen l) = Some (htons (inet_checksum l))) ∧
  (∀ src dest l rest, is_bytes src → is_bytes dest → zlen src = 4 → zlen dest = 4 →
     is_bytes l → Z.even (zlen l) = true → zlen l < 65536 →
     udp_checksum src dest (l ++ rest) (zlen l) =
       Some (htons (inet_checksum (pseudo_header src dest (zlen l) ++ l)))) ∧
  (∀ l, is_bytes l → ones_sum (be_sum l + inet_checksum l) = 65535) ∧
  (∀ l k a b a' b', is_bytes (l ++ a :: b :: k) → is_bytes (l ++ a' :: b' :: k) →
     Z.even (zlen l) = true → inet_checksum (l ++ a :: b :: k) = inet_checksum (l ++ a' :: b' :: k) →
     (a, b) = (a', b') ∨ (a, b) = (0, 0) ∧ (a', b') = (255, 255) ∨
     (a, b) = (255, 255) ∧ (a', b') = (0, 0)).
Proof.
  split_and!.
  - intros l rest Hl He Hlen. apply header_sum_spec; [done| |done].
    apply Z.even_spec in He as [k Hk]. rewrite Hk. Z.div_mod_to_equations. lia.
  - exact icmp_checksum_spec.
  - exact udp_checksum_spec.
  - intros l Hl. apply ones_sum_complement. by apply be_sum_range.
  - intros l k a b a' b' H1 H2 He E. unfold inet_checksum in E.
    pose proof (be_sum_range _ H1). pose proof (be_sum_range _ H2).
    assert (Hm : (be_sum (l ++ a :: b :: k) - be_sum (l ++ a' :: b' :: k)) mod 65535 = 0)
      by (apply ones_sum_inj; lia).
    rewrite !be_sum_app in Hm by done. cbn [be_sum] in Hm.
    apply Forall_app in H1 as [_ H1]. apply Forall_cons in H1 as [Ha H1]. apply Forall_cons in H1 as [Hb _].
    apply Forall_app in H2 as [_ H2]. apply Forall_cons in H2 as [Ha' H2]. apply Forall_cons in H2 as [Hb' _].
    assert (D : 256 * a + b - (256 * a' + b') = 0 ∨ 256 * a + b - (256 * a' + b') = 65535 ∨
                256 * a + b - (256 * a' + b') = - 65535) by (Z.div_mod_to_equations; lia).
    destruct D as [D|[D|D]]; [left|right; right|right; left];
      repeat split; f_equal; lia.
Qed.

(** The header of a UDP packet from 192.168.0.1 to 192.168.0.199. *)
Definition header_example : list Z :=
  [69; 0; 0; 115; 0; 0; 64; 0; 64; 17; 0; 0; 192; 168; 0; 1; 192; 168; 0; 199].
Lemma checksums_agree_witness :
  header_sum 10 header_example = Some (htons 0xb861) ∧
  header_sum 10 header_example = Some (htons (inet_checksum header_example)).
Proof.
  split; [vm_compute; reflexivity|].
  destruct checksums_agree as [H _]. specialize (H header_example []).
  rewrite app_nil_r in H. apply H; [|reflexivity|vm_compute; reflexivity].
  unfold header_example. is_bytes_tac.
Defined.



(** ** Reading from the front of a buffer *)

Lemma field_app_l off n (l rest : list Z) :
  0 ≤ off → 0 ≤ n → off + n ≤ zlen l → field off n (l ++ rest) = field off n l.
Proof.
  intros. pose proof (zlen_nonneg rest). rewrite !field_zslice by (rewrite ?zlen_app; lia).
  unfold zslice. rewrite zdrop_app_le, ztake_app_le by (rewrite ?zlen_zdrop; lia). done.
Qed.
Lemma get16_app_l off (l rest : list Z) :
  0 ≤ off → off + 2 ≤ zlen l → get16 off (l ++ rest) = get16 off l.
Proof. intros. unfold get16. by rewrite field_app_l by lia. Qed.
Lemma get8_app_l off (l rest : list Z) : off < zlen l → get8 off (l ++ rest) = get8 off l.
Proof. apply znth_app_l. Qed.
Lemma zsplice_behind {A} off (src l rest : list A) :
  0 ≤ off → off + zlen src ≤ zlen l → zsplice off src (l ++ rest) = zsplice off src l ++ rest.
Proof.
  intros. pose proof (zlen_nonneg src). unfold zsplice.
  rewrite ztake_app_le, zdrop_app_le by lia. by rewrite <-!app_assoc.
Qed.
Lemma sum_words_app n l rest s r : sum_words n l s = Some r → sum_words n (l ++ rest) s = Some r.
Proof.
  revert l s. induction n as [|n IH]; intros l s; cbn [sum_words]; [done|].
  destruct l as [|a [|b l]]; try done. cbn [app sum_words]. apply IH.
Qed.
Lemma header_sum_app words l rest c :
  header_sum words l = Some c → header_sum words (l ++ rest) = Some c.
Proof.
  unfold header_sum. destruct (sum_words _ l 0) eqn:E; [|done].
  by rewrite (sum_words_app _ _ _ _ _ E).
Qed.

(** A list of four bytes, written out. *)
Lemma four_bytes (l : list Z) : zlen l = 4 → ∃ a b c d, l = [a; b; c; d].
Proof.
  unfold zlen. destruct l as [|a [|b [|c [|d [|e l]]]]]; cbn [length]; intros H; try lia.
  by exists a, b, c, d.
Qed.

(** ** The IP header on the wire *)

Definition word_ok (v : Z) : Prop := 0 ≤ v < 2 ^ 16.

Section header.
Context (h : ipv4_header_t) (Hsrc : zlen (src_ip h) = 4) (Hdst : zlen (dst_ip h) = 4).

Lemma ip_header_len : zlen (ip_header_bytes h) = 20.
Proof. unfold ip_header_bytes. rewrite !zlen_app, Hsrc, Hdst. done. Qed.

Lemma ip_header_get8 rest :
  get8 0 (ip_header_bytes h ++ rest) = Some (version_ihl h) ∧
  get8 9 (ip_header_bytes h ++ rest) = Some (protocol h).
Proof. rewrite !(get8_app_l _ (ip_header_bytes h)) by (rewrite ip_header_len; lia). done. Qed.

Lemma ip_header_get16 rest :
  word_ok (total_length h) → word_ok (flags_fragment_offset h) → word_ok (header_checksum h) →
  get16 2 (ip_header_bytes h ++ rest) = Some (total_length h) ∧
  get16 6 (ip_header_bytes h ++ rest) = Some (flags_fragment_offset h) ∧
  get16 10 (ip_header_bytes h ++ rest) = Some (header_checksum h).
Proof.
  intros Ht Hf Hc. rewrite !(get16_app_l _ (ip_header_bytes h)) by (rewrite ?ip_header_len; lia).
  unfold get16. destruct (four_bytes _ Hsrc) as (a & b & c & d & E1).
  destruct (four_bytes _ Hdst) as (a' & b' & c' & d' & E2).
  unfold ip_header_bytes. rewrite E1, E2. split_and!.
  - change (field 2 2 _) with (Some (put16 (total_length h))). cbn [fmap option_fmap option_map].
    by rewrite le_put16.
  - change (field 6 2 _) with (Some (put16 (flags_fragment_offset h))). cbn [fmap option_fmap option_map].
    by rewrite le_put16.
  - change (field 10 2 _) with (Some (put16 (header_checksum h))). cbn [fmap option_fmap option_map].
    by rewrite le_put16.
Qed.

Lemma ip_header_addresses rest :
  field 12 4 (ip_header_bytes h ++ rest) = Some (src_ip h) ∧
  field 16 4 (ip_header_bytes h ++ rest) = Some (dst_ip h).
Proof.
  rewrite !(field_app_l _ _ (ip_header_bytes h)) by (rewrite ?ip_header_len; lia).
  destruct (four_bytes _ Hsrc) as (a & b & c & d & E1).
  destruct (four_bytes _ Hdst) as (a' & b' & c' & d' & E2).
  unfold ip_header_bytes. by rewrite E1, E2.
Qed.

(** The receiver's clearing of the checksum field undoes the sender's filling in. *)
Lemma ip_header_clear rest :
  zsplice 10 (put16 0) (ip_header_bytes h ++ rest) =
    ip_header_bytes (set_header_checksum 0 h) ++ rest.
Proof.
  rewrite (zsplice_behind _ _ (ip_header_bytes h)) by (rewrite ?zlen_put16, ?ip_header_len; lia).
  f_equal.
Qed.

Lemma with_checksum_spec :
  ∃ c, with_checksum h = Some (set_header_checksum c h) ∧ word_ok c ∧
    header_sum 10 (ip_header_bytes (set_header_checksum 0 h)) = Some c.
Proof.
  unfold with_checksum. change (IPV4_HEADER_LEN / 2) with 10.
  destruct (four_bytes _ Hsrc) as (a & b & c & d & E1).
  destruct (four_bytes _ Hdst) as (a' & b' & c' & d' & E2).
  assert (Hs : ∃ r, header_sum 10 (ip_header_bytes (set_header_checksum 0 h)) = Some (htons r)).
  { unfold ip_header_bytes. cbn [set_header_checksum src_ip dst_ip]. rewrite E1, E2.
    eexists. unfold header_sum, finish_checksum. cbn [sum_words Z.to_nat Pos.to_nat]. reflexivity. }
  destruct Hs as [r Hr]. exists (htons r). rewrite Hr. split_and!; [done|apply htons_range|done].
Qed.
End header.

(** ** The UDP packet on the wire *)

Definition sent_udp (sport dport len c : Z) : udp_header_t :=
  mk_udp_header (htons sport) (htons dport) (htons (8 + len)) c.

Section udp_header.
Context (h : udp_header_t).
Lemma udp_header_len : zlen (udp_header_bytes h) = 8.
Proof. done. Qed.
Lemma udp_header_get16 rest :
  word_ok (dest_port h) → word_ok (udp_length h) → word_ok (udp_check h) →
  get16 2 (udp_header_bytes h ++ rest) = Some (dest_port h) ∧
  get16 4 (udp_header_bytes h ++ rest) = Some (udp_length h) ∧
  get16 6 (udp_header_bytes h ++ rest) = Some (udp_check h).
Proof.
  intros Hd Hl Hc. rewrite !(get16_app_l _ (udp_header_bytes h)) by (rewrite ?udp_header_len; lia).
  unfold get16.
  change (field 2 2 _) with (Some (put16 (dest_port h))).
  change (field 4 2 _) with (Some (put16 (udp_length h))).
  change (field 6 2 _) with (Some (put16 (udp_check h))).
  cbn [fmap option_fmap option_map]. by rewrite !le_put16.
Qed.
Lemma udp_header_clear rest :
  zsplice 6 (put16 0) (udp_header_bytes h ++ rest) =
    udp_header_bytes (mk_udp_header (src_port h) (dest_port h) (udp_length h) 0) ++ rest.
Proof. by rewrite (zsplice_behind _ _ (udp_header_bytes h)). Qed.
Lemma is_bytes_udp_header : is_bytes (udp_header_bytes h).
Proof. unfold udp_header_bytes, is_bytes. rewrite !Forall_app. split_and!; apply is_bytes_put16. Qed.
End udp_header.

Definition data_ok (data : list Z) : Prop :=
  is_bytes data ∧ Z.even (zlen data) = true ∧ zlen data ≤ UDP_MAX_DATA_SIZE.

Lemma udp_packet_spec src dst sport dport data behind :
  zlen src = 4 → is_bytes src → zlen dst = 4 → is_bytes dst → data_ok data →
  ∃ c, word_ok c ∧
    udp_packet_of src dst sport dport data behind =
      Some (udp_header_bytes (sent_udp sport dport (zlen data) c) ++ data) ∧
    ∀ rest, udp_checksum src dst (udp_header_bytes (sent_udp sport dport (zlen data) 0) ++ data ++ rest)
              (8 + zlen data) = Some c.
Proof.
  intros Ls Bs Ld Bd (Hb & He & Hlen). unfold UDP_MAX_DATA_SIZE in Hlen. pose proof (zlen_nonneg data).
  set (h0 := udp_header_bytes (sent_udp sport dport (zlen data) 0)).
  assert (Hl : zlen (h0 ++ data) = 8 + zlen data) by (by rewrite zlen_app).
  assert (Hsum : ∀ rest, udp_checksum src dst ((h0 ++ data) ++ rest) (zlen (h0 ++ data)) =
    Some (htons (inet_checksum (pseudo_header src dst (zlen (h0 ++ data)) ++ (h0 ++ data))))).
  { intros rest. apply udp_checksum_spec; try done.
    - apply Forall_app. split; [apply is_bytes_udp_header|done].
    - rewrite Hl, Z.even_add, He. done.
    - lia. }
  rewrite Hl in Hsum. eexists. split; [apply htons_range|]. split.
  - unfold udp_packet_of, UDP_HEADER_SIZE. rewrite (u16_id (8 + zlen data)) by lia.
    fold (sent_udp sport dport (zlen data) 0). fold h0. rewrite app_assoc, Hsum. done.
  - intros rest. rewrite app_assoc. apply Hsum.
Qed.

(** ** The packet buffer *)

Lemma find_slot_Some n u p i k :
  find_slot n u p i = Some k ↔
  i ≤ k < i + Z.of_nat n ∧ p (udp_slot u k) = true ∧ ∀ j, i ≤ j < k → p (udp_slot u j) = false.
Proof.
  revert i. induction n as [|n IH]; intros i; cbn [find_slot].
  - split; [done|lia].
  - destruct (p (udp_slot u i)) eqn:E.
    + split; [intros [= <-]; split_and!; [lia|lia|done|intros j Hj; lia]|].
      intros (H1 & H2 & H3). destruct (decide (i = k)) as [->|]; [done|].
      rewrite (H3 i) in E by lia. done.
    + rewrite IH. split; intros (H1 & H2 & H3); split_and!; try done; try lia.
      * intros j Hj. destruct (decide (j = i)) as [->|]; [done|]. apply H3. lia.
      * destruct (decide (i = k)) as [->|]; [congruence|lia].
      * intros j Hj. apply H3. lia.
Qed.

Lemma udp_slot_insert u i j slot :
  udp_slot (mk_udp (<[i := slot]> (udp_packet_buffer u)) (udp_ports_open u)) j =
    if decide (i = j) then slot else udp_slot u j.
Proof.
  unfold udp_slot. cbn. destruct (decide (i = j)) as [->|Hne];
    [by rewrite lookup_insert_eq|by rewrite lookup_insert_ne].
Qed.

(** What a slot holds after a packet was stored in it. *)
Definition stored (src : list Z) (packet slot : list Z) : list Z := zsplice 4 packet (zsplice 0 src slot).

Lemma stored_spec src sport dport data slot :
  zlen src = 4 → word_ok sport → word_ok dport → zlen data ≤ UDP_MAX_DATA_SIZE → zlen slot = UDP_SLOT →
  let s := stored src (udp_header_bytes (sent_udp sport dport (zlen data) 0) ++ data) slot in
  slot_length s = htons (8 + zlen data) ∧ slot_port s = dport ∧ field 12 (zlen data) s = Some data ∧
  zslice 0 4 s = src ∧ ntohs (le (zslice 4 2 s)) = sport ∧ zlen s = UDP_SLOT.
Proof.
  intros Ls Hs Hd Hlen Hslot. unfold UDP_SLOT, UDP_MAX_DATA_SIZE in *. pose proof (zlen_nonneg data).
  cbv zeta. set (h := udp_header_bytes _). assert (Hh : zlen h = 8) by done.
  assert (E : stored src (h ++ data) slot = src ++ h ++ data ++ zdrop (12 + zlen data) slot).
  { unfold stored, zsplice at 1.
    assert (E0 : zsplice 0 src slot = src ++ zdrop 4 slot) by (unfold zsplice; by rewrite Ls).
    rewrite E0, ztake_app_ge, ztake_le0, app_nil_r by lia. rewrite zlen_app, Hh.
    rewrite zdrop_app_ge, zdrop_zdrop by lia. rewrite <-app_assoc. do 4 f_equal. lia. }
  rewrite E. destruct (four_bytes _ Ls) as (a & b & c & d & ->).
  unfold slot_length, slot_port.
  change (zslice 8 2 _) with (put16 (htons (8 + zlen data))).
  change (zslice 6 2 _) with (put16 (htons dport)). change (zslice 4 2 _) with (put16 (htons sport)).
  rewrite !le_put16 by apply htons_range. change ntohs with htons. rewrite !htons_involutive by done.
  split_and!; try done.
  - rewrite field_zslice; [|lia|].
    + change (zslice 12 (zlen data) _) with (ztake (zlen data) (data ++ zdrop (12 + zlen data) slot)).
      by rewrite ztake_app_le, ztake_all by lia.
    + rewrite !zlen_app, Hh, zlen_zdrop. change (zlen [a; b; c; d]) with 4. lia.
  - rewrite !zlen_app, Hh, zlen_zdrop. change (zlen [a; b; c; d]) with 4. lia.
Qed.

(** ** The sending host *)

Section send.
Context {E : Type}.
Context (get_uptime_milliseconds : K E Z) (has_pending_signals : K E bool)
  (yield_current : K (net E) unit) (byte_behind : K E Z).
Implicit Types (s t : net E).
#[local] Notation udp_send :=
  (udp_send get_uptime_milliseconds has_pending_signals yield_current byte_behind).
#[local] Notation frame_received :=
  (frame_received get_uptime_milliseconds has_pending_signals yield_current).
#[local] Notation ip_received :=
  (ip_received get_uptime_milliseconds has_pending_signals yield_current).

(** [s] sends to [dst] through route [r] and card [card r]; the MAC address of the
    next host is cached. *)
Record Sender s (dst : list Z) (r : route_t) (i : net_if_t) (mac : list Z) := {
  snd_dst : zlen dst = 4 ∧ is_bytes dst ∧ dst ≠ IP_BROADCAST_ADDR;
  snd_route : best_route (routes (ip s)) dst None (-1) = Some r;
  snd_card : znth (net_interfaces (ifs s)) (card r) = Some i;
  snd_if : zlen (if_ip i) = 4 ∧ is_bytes (if_ip i) ∧ zlen (if_mac i) = 6;
  snd_arp : let host := if negb (memcmp_bytes (gateway r) IP_ZERO =? 0) then gateway r else dst in
    ∃ k, arp_find ARP_CACHE_SIZE (arp s) host 0 = Some k ∧ arp_mac (arp_entry (arp s) k) = mac;
  snd_mac : zlen mac = 6;
  snd_id : word_ok (identification (ip s));
}.

Definition bump_id s : net E :=
  set_ip (mk_ip (routes (ip s)) (u16 (identification (ip s) + 1)) (broadcast_card (ip s)) (ids (ip s))
            (fragment_storage (ip s)) (icmp_error_packet (ip s))) s.
(** The header that ip_send builds for an unfragmented packet. *)
Definition sent_header (src dst : list Z) (proto id len : Z) : ipv4_header_t :=
  mk_ipv4_header 69 0 (htons (20 + len)) (htons id) (htons IP_FLAG_DF) IP_DEFAULT_TTL proto 0 src dst.

Lemma ip_send_spec fuel s dst r i mac proto payload :
  Sender s dst r i mac → zlen payload ≤ MTU →
  ∃ h, with_checksum (sent_header (if_ip i) dst proto (identification (ip s)) (zlen payload)) = Some h ∧
    ip_send get_uptime_milliseconds has_pending_signals yield_current fuel dst proto payload s =
      send_ethernet (if_mac i) mac 0x0800 (ip_header_bytes h ++ payload) (card r) (bump_id s).
Proof.
  intros [(Hl & Hb & Hbc) Hroute Hcard (Hip & _) (k & Harp & Hmac) _ Hid] Hlen.
  unfold MTU in Hlen. pose proof (zlen_nonneg payload).
  destruct (with_checksum_spec (sent_header (if_ip i) dst proto (identification (ip s)) (zlen payload)) Hip Hl)
    as (c & Hc & _). eexists. split; [exact Hc|].
  unfold ip_send, next_hop, kget, mbind, K_bind. rewrite Hroute.
  destruct (Z.eqb_spec (memcmp_bytes dst IP_BROADCAST_ADDR) 0) as [He|_];
    [by apply memcmp_bytes_eq in He|].
  unfold get_ip, interface, kgets, mbind, K_bind, mret, K_ret. rewrite Hcard. cbn [fmap option_fmap option_map].
  unfold arp_request, kget, mbind, K_bind. rewrite Harp, Hmac. unfold mret, K_ret.
  change (0 <? 0) with false. cbn [kopt]. unfold next_identification, update_ip, kget, kmodify, mbind, K_bind, mret, K_ret.
  change (Z.lor (Z.shiftl 4 4) (IPV4_HEADER_LEN / 4)) with 69. unfold IPV4_HEADER_LEN.
  rewrite (u16_id (20 + zlen payload)) by lia. fold (sent_header (if_ip i) dst proto (identification (ip s)) (zlen payload)).
  rewrite Hc. cbn [kopt]. unfold mret, K_ret, MTU. rewrite (proj2 (Z.ltb_ge _ _)) by lia.
  unfold get_mac, interface, kgets, mbind, K_bind, mret, K_ret. cbn [ifs set_ip]. rewrite Hcard.
  cbn [fmap option_fmap option_map kopt]. done.
Qed.

(** ** The receiving host *)

(** [t] owns [dst] on card [c] and has [dport] open, with room for a packet and no
    packet waiting for the port. *)
Record Receiver t (c : Z) (dst : list Z) (dport : Z) := {
  rcv_if : ∃ i, znth (net_interfaces (ifs t)) c = Some i ∧ if_ip i = dst;
  rcv_open : dport ∈ udp_ports_open (udp t);
  rcv_slots : ∀ k, zlen (udp_slot (udp t) k) = UDP_SLOT;
  rcv_free : ∃ k, 0 ≤ k < 1024 ∧ slot_length (udp_slot (udp t) k) = 0;
  rcv_none : ∀ k, slot_port (udp_slot (udp t) k) = dport → slot_length (udp_slot (udp t) k) = 0;
}.

(** The first slot that is free. *)
Lemma first_free u :
  (∃ k, 0 ≤ k < 1024 ∧ slot_length (udp_slot u k) = 0) →
  ∃ k, find_slot UDP_BUFFER_SIZE u (λ slot, slot_length slot =? 0) 0 = Some k.
Proof.
  intros (k & Hk & Hz). destruct (find_slot _ _ _ _) eqn:Ef; [eauto|exfalso].
  assert (H : ∀ n i, i ≤ k < i + Z.of_nat n → find_slot n u (λ slot, slot_length slot =? 0) i ≠ None).
  { intros n. induction n as [|n IH]; intros j Hj; [lia|]. cbn [find_slot].
    destruct (Z.eqb_spec (slot_length (udp_slot u j)) 0) as [|Hne]; [done|].
    apply IH. destruct (decide (j = k)) as [->|]; [done|lia]. }
  by apply (H UDP_BUFFER_SIZE 0 ltac:(unfold UDP_BUFFER_SIZE; lia)).
Qed.

Lemma clear_checksum_Done off t : ∃ t', clear_checksum off t = Done (tt, t') ∧ udp t' = udp t.
Proof. destruct off; eexists; split; reflexivity. Qed.

Lemma udp_received_spec fuel t sport dport src dst data c rest off :
  zlen src = 4 → data_ok data → word_ok c →
  (∀ rest, udp_checksum src dst (udp_header_bytes (sent_udp sport dport (zlen data) 0) ++ data ++ rest)
              (8 + zlen data) = Some c) →
  word_ok dport → dport ∈ udp_ports_open (udp t) →
  (∃ k, 0 ≤ k < 1024 ∧ slot_length (udp_slot (udp t) k) = 0) →
  let h c := udp_header_bytes (sent_udp sport dport (zlen data) c) in
  ∃ k t', find_slot UDP_BUFFER_SIZE (udp t) (λ slot, slot_length slot =? 0) 0 = Some k ∧
    udp_received get_uptime_milliseconds has_pending_signals yield_current fuel
      (h c ++ data ++ rest) src dst (8 + zlen data) off t = Done (tt, t') ∧
    udp t' = mk_udp (<[k := stored src (h 0 ++ data) (udp_slot (udp t) k)]> (udp_packet_buffer (udp t)))
               (udp_ports_open (udp t)).
Proof.
  intros Ls (Hb & He & Hlen) Hc Hsum Hd Hopen Hfree h. unfold UDP_MAX_DATA_SIZE in Hlen.
  pose proof (zlen_nonneg data). destruct (first_free _ Hfree) as [k Hk].
  destruct (clear_checksum_Done off t) as (t1 & E1 & Hu).
  destruct (udp_header_get16 (sent_udp sport dport (zlen data) c) (data ++ rest)) as (G2 & G4 & G6);
    [apply htons_range|apply htons_range|done|].
  cbn [dest_port udp_length udp_check sent_udp] in *. fold (h c) in *.
  eexists k, _. split; [done|]. split.
  - unfold udp_received, UDP_HEADER_SIZE. rewrite (proj2 (Z.ltb_ge _ _)) by lia.
    rewrite G4. cbn [kopt]. unfold mbind, K_bind, mret, K_ret. change ntohs with htons.
    rewrite htons_involutive by (unfold word_ok; lia). rewrite Z.eqb_refl. cbn [negb].
    rewrite G6. cbn [kopt]. unfold mret, K_ret. rewrite E1. unfold h. rewrite udp_header_clear.
    cbn [src_port dest_port udp_length sent_udp]. fold (sent_udp sport dport (zlen data) 0). fold (h 0).
    rewrite Hsum. cbn [kopt]. unfold mret, K_ret. rewrite Z.eqb_refl. cbn [negb].
    destruct (udp_header_get16 (sent_udp sport dport (zlen data) 0) (data ++ rest)) as (G2' & _);
      [apply htons_range|apply htons_range|done|]. fold (h 0) in G2'. rewrite G2'.
    cbn [kopt dest_port sent_udp]. unfold mret, K_ret, kget. rewrite htons_involutive by done.
    rewrite Hu, bool_decide_eq_true_2 by done. rewrite Hk. unfold UDP_SLOT.
    rewrite (proj2 (Z.ltb_ge _ _)) by lia. rewrite app_assoc.
    assert (Hl : zlen (h 0 ++ data) = 8 + zlen data) by (by rewrite zlen_app).
    rewrite field_app_l, field_zslice by lia. unfold zslice. rewrite zdrop_0, ztake_all by lia.
    cbn [kopt]. unfold mret, K_ret, set_slot, kmodify. rewrite Hu. reflexivity.
  - reflexivity.
Qed.

Lemma udp_get_stored t k src sport dport data slot :
  zlen src = 4 → word_ok sport → word_ok dport → data_ok data → zlen slot = UDP_SLOT → 0 ≤ k < 1024 →
  udp_slot (udp t) k = stored src (udp_header_bytes (sent_udp sport dport (zlen data) 0) ++ data) slot →
  (∀ j, j ≠ k → slot_port (udp_slot (udp t) j) = dport → slot_length (udp_slot (udp t) j) = 0) →
  ∃ t', udp_get_packet dport (zlen data) false t =
    Done ((zlen data, data, mk_sockaddr AF_INET src sport), t').
Proof.
  intros Ls Hs Hd (Hb & He & Hlen) Hslot Hk Hst Hother. unfold UDP_MAX_DATA_SIZE in Hlen.
  pose proof (zlen_nonneg data).
  destruct (stored_spec src sport dport data slot Ls Hs Hd Hlen Hslot) as (S1 & S2 & S3 & S4 & S5 & S6).
  rewrite <-Hst in *.
  assert (Hnz : htons (8 + zlen data) ≠ 0).
  { intros Hz. pose proof (htons_involutive (8 + zlen data) ltac:(unfold word_ok; lia)) as Hi.
    rewrite Hz in Hi. change (htons 0) with 0 in Hi. lia. }
  eexists. unfold udp_get_packet, kget, mbind, K_bind.
  rewrite (proj2 (find_slot_Some _ _ _ _ k)).
  2:{ split_and!; [lia|unfold UDP_BUFFER_SIZE; lia| |].
      - rewrite S1, S2, Z.eqb_refl, (proj2 (Z.eqb_neq _ 0)) by done. done.
      - intros j Hj. destruct (Z.eqb_spec (slot_port (udp_slot (udp t) j)) dport) as [Hp|]; [|apply andb_false_r].
        by rewrite Hother by (done || lia). }
  rewrite S1. change ntohs with htons in *. rewrite htons_involutive by (unfold word_ok; lia).
  replace (8 + zlen data - 8) with (zlen data) by lia. rewrite u64_id, Z.ltb_irrefl by lia.
  rewrite S3. cbn [kopt]. unfold mret, K_ret, set_slot, kmodify. rewrite s64_id, S4, S5 by lia. reflexivity.
Qed.

Lemma ip_received_spec fuel t c src dst sport dport id data chk rest h :
  zlen src = 4 → zlen dst = 4 → data_ok data → word_ok sport → word_ok dport → word_ok chk →
  let packet c := udp_header_bytes (sent_udp sport dport (zlen data) c) ++ data in
  (∀ rest, udp_checksum src dst (packet 0 ++ rest) (8 + zlen data) = Some chk) →
  with_checksum (sent_header src dst IP_PROTO_UDP id (zlen (packet chk))) = Some h →
  Receiver t c dst dport →
  ∃ t', ip_received fuel (ip_header_bytes h ++ packet chk ++ rest) c t = Done (tt, t') ∧
    ∃ t'', udp_get_packet dport (zlen data) false t' =
      Done ((zlen data, data, mk_sockaddr AF_INET src sport), t'').
Proof.
  intros Ls Ld Hdata Hs Hd Hchk packet Hsum Hh [(i & Hi & Hip) Hopen Hslots Hfree Hnone].
  pose proof Hdata as (Hb & He & Hlen). unfold UDP_MAX_DATA_SIZE in Hlen. pose proof (zlen_nonneg data).
  assert (Hpl : zlen (packet chk) = 8 + zlen data) by (unfold packet; by rewrite zlen_app).
  destruct (with_checksum_spec (sent_header src dst IP_PROTO_UDP id (zlen (packet chk))) Ls Ld)
    as (ck & Eck & Hck & Hhs). rewrite Eck in Hh. injection Hh as <-.
  set (h := set_header_checksum ck _). set (tail := packet chk ++ rest).
  destruct (ip_header_get8 h Ls Ld tail) as [G0 G9].
  destruct (ip_header_get16 h Ls Ld tail) as (G2 & G6 & G10); [apply htons_range|apply htons_range|done|].
  destruct (ip_header_addresses h Ls Ld tail) as [G12 G16].
  assert (Hget : get_ip c t = Done (Some dst, t)).
  { unfold get_ip, interface, kgets, mbind, K_bind, mret, K_ret. rewrite Hi. cbn. by rewrite Hip. }
  unfold ip_received. rewrite (K_bind_step _ _ _ _ _ Hget), (K_kopt_step _ _ _ _ G0).
  change (version_ihl h) with 69.
  change (negb (Z.shiftr 69 4 =? 4) || (Z.land 69 0x0F <? 5)) with false. cbv iota.
  change (Z.land 69 0x0F * 2) with 10. change (Z.land 69 0x0F * 4) with 20.
  rewrite (K_kopt_step _ _ _ _ G16), (K_kopt_step (Some dst) dst) by done. change (dst_ip h) with dst.
  rewrite (proj2 (memcmp_bytes_eq dst dst eq_refl) eq_refl), Z.eqb_refl. cbn [negb andb].
  rewrite (K_kopt_step _ _ _ _ G10), (ip_header_clear h Ls Ld).
  rewrite (K_kopt_step _ ck) by (apply header_sum_app; exact Hhs).
  change (header_checksum h) with ck. rewrite Z.eqb_refl. cbn [negb].
  rewrite (K_kopt_step _ _ _ _ G2), (K_kopt_step _ _ _ _ G6).
  change (flags_fragment_offset h) with (htons IP_FLAG_DF). change (total_length h) with (htons (20 + zlen (packet chk))).
  change (Z.land (ntohs (htons IP_FLAG_DF)) IP_FLAG_DF =? 0) with false. cbv iota.
  change ntohs with htons. rewrite htons_involutive by (unfold word_ok; lia). rewrite Hpl.
  replace (20 + (8 + zlen data) - 20) with (8 + zlen data) by lia.
  rewrite zdrop_app_ge, (ip_header_len h Ls Ld), zdrop_0 by (rewrite (ip_header_len h Ls Ld); lia).
  unfold handle_packet, update_ip, kmodify. unfold mbind at 1, K_bind at 1.
  rewrite (K_kopt_step _ _ _ _ G9), (K_kopt_step _ _ _ _ G12), (K_kopt_step _ _ _ _ G16), (K_kopt_step _ _ _ _ G2).
  change (protocol h) with IP_PROTO_UDP. change (IP_PROTO_UDP =? IP_PROTO_ICMP) with false.
  rewrite Z.eqb_refl. cbv iota. change (src_ip h) with src. change (dst_ip h) with dst.
  set (t1 := set_ip _ t).
  unfold tail, packet. rewrite <-app_assoc.
  destruct (udp_received_spec fuel t1 sport dport src dst data chk rest (Some 20)) as (k & t' & Hk & Er & Hu);
    try done.
  exists t'. split; [exact Er|].
  apply find_slot_Some in Hk as (Hk & _).
  apply (udp_get_stored t' k src sport dport data (udp_slot (udp t) k)); try done.
  - rewrite Hu, udp_slot_insert. by destruct (decide (k = k)).
  - intros j Hj Hp. rewrite Hu, udp_slot_insert in *. destruct (decide (k = j)); [done|]. by apply Hnone.
Qed.


(** ** End to end *)

Lemma ethernet_frame_shape src_mac dst_mac payload rest :
  zlen src_mac = 6 → zlen dst_mac = 6 →
  let frame := ethernet_frame src_mac dst_mac 0x0800 payload in
  zlen frame = Z.max MIN_FRAME (14 + zlen payload) ∧
  get8 12 (frame ++ rest) = Some 8 ∧ get8 13 (frame ++ rest) = Some 0 ∧
  zdrop 14 (frame ++ rest) = payload ++ zrepeat (MIN_FRAME - 14 - zlen payload) 0 ++ rest.
Proof.
  intros Hs Hd frame. set (hd := dst_mac ++ src_mac ++ [8; 0]).
  assert (Ef : frame ++ rest = hd ++ payload ++ zrepeat (MIN_FRAME - 14 - zlen payload) 0 ++ rest)
    by (unfold frame, ethernet_frame, hd; rewrite <-!app_assoc; done).
  assert (Hh : zlen hd = 14) by (unfold hd; rewrite !zlen_app, Hs, Hd; done).
  pose proof (zlen_nonneg payload). split_and!.
  - unfold frame, ethernet_frame. rewrite !zlen_app, Hs, Hd, zlen_zrepeat. unfold MIN_FRAME.
    change (zlen _) with 2 at 1. lia.
  - rewrite Ef, get8_app_l by lia. unfold hd, get8. rewrite app_assoc, znth_app_r by zlia.
    by rewrite zlen_app, Hs, Hd.
  - rewrite Ef, get8_app_l by lia. unfold hd, get8. rewrite app_assoc, znth_app_r by zlia.
    by rewrite zlen_app, Hs, Hd.
  - rewrite Ef, zdrop_app_ge, Hh, zdrop_0 by lia. done.
Qed.

(** C22: datagrams arrive.  Take a host with a route, a card and a cached MAC address for
    a destination that is not the broadcast address.  Sending up to 1472 bytes (an even
    number) with udp_send hands exactly one frame to the card of the route.  Let another
    host receive that frame, with whatever the driver's buffer holds behind it, on a card
    that has the address; let it have the port open, a free slot for a packet, and no
    packet waiting for the port.  Then the Ethernet, IP and UDP layers accept the frame,
    and udp_get_packet returns the data unchanged, with the sender's address and port. *)
Theorem datagram_delivered fuel s dst r i mac sport dport data b :
  Sender s dst r i mac → data_ok data → word_ok sport → word_ok dport →
  byte_behind (env s) = Done (b, env s) →
  ∃ frame,
    udp_send fuel dst sport dport data s =
      (send_packet (card r) frame (zlen frame);; mret 0) (bump_id s) ∧
    ∀ c t0 t rest,
      receive_packet c t0 = Done ((zlen frame, frame ++ rest), t) → Receiver t c dst dport →
      ∃ t', frame_received fuel c t0 = Done (tt, t') ∧
        ∃ t'', udp_get_packet dport (zlen data) false t' =
          Done ((zlen data, data, mk_sockaddr AF_INET (if_ip i) sport), t'').
Proof.
  intros HS Hdata Hsp Hdp Hb. pose proof HS as [(Ld & Bd & Hbc) Hroute Hcard (Li & Bi & Lm) Harp Lmac Hid].
  pose proof Hdata as (_ & _ & Hlen). unfold UDP_MAX_DATA_SIZE in Hlen. pose proof (zlen_nonneg data).
  destruct (udp_packet_spec (if_ip i) dst sport dport data b Li Bi Ld Bd Hdata) as (chk & Hchk & Hp & Hsum).
  set (packet := udp_header_bytes (sent_udp sport dport (zlen data) chk) ++ data) in *.
  assert (Hpl : zlen packet = 8 + zlen data) by (unfold packet; by rewrite zlen_app).
  destruct (ip_send_spec fuel s dst r i mac IP_PROTO_UDP packet HS) as (h & Hh & Hsend);
    [unfold MTU; lia|].
  assert (Hhl : zlen (ip_header_bytes h) = 20).
  { destruct (with_checksum_spec (sent_header (if_ip i) dst IP_PROTO_UDP (identification (ip s)) (zlen packet)) Li Ld)
      as (ck & Eck & _). rewrite Eck in Hh. injection Hh as <-. by apply ip_header_len. }
  set (payload := ip_header_bytes h ++ packet).
  assert (Hpay : zlen payload = 28 + zlen data) by (unfold payload; rewrite zlen_app; lia).
  exists (ethernet_frame (if_mac i) mac 0x0800 payload).
  pose proof (ethernet_frame_shape (if_mac i) mac payload) as Hshape. split.
  - unfold udp_send. assert (Hsrc : get_source_ip_for dst s = Done (if_ip i, s)).
    { unfold get_source_ip_for, get_ip, interface, kget, kgets, mbind, K_bind, mret, K_ret.
      rewrite Hroute, Hcard. done. }
    rewrite (K_bind_step _ _ _ _ _ Hsrc). rewrite s32_id by lia. unfold UDP_MAX_DATA_SIZE.
    rewrite (proj2 (Z.ltb_ge _ _)), (proj2 (Z.ltb_ge _ 0)) by lia.
    assert (Hlift : lift_env byte_behind s = Done (b, s)) by (unfold lift_env; rewrite Hb; by destruct s).
    rewrite (K_bind_step _ _ _ _ _ Hlift), ztake_all by lia. rewrite (K_kopt_step _ _ _ _ Hp).
    rewrite Hsend. unfold send_ethernet. fold payload. unfold MAX_PAYLOAD.
    rewrite (proj2 (Z.ltb_ge _ _)) by lia.
    by rewrite (proj1 (Hshape [] Lm Lmac)).
  - intros c t0 t rest Hrecv HR. destruct (Hshape rest Lm Lmac) as (Hfl & G12 & G13 & Hdrop).
    unfold frame_received. rewrite (K_bind_step _ _ _ _ _ Hrecv).
    rewrite (proj2 (Z.leb_gt _ 0)) by (rewrite Hfl; unfold MIN_FRAME; lia).
    rewrite (K_kopt_step _ _ _ _ G12), (K_kopt_step _ _ _ _ G13).
    change (Z.lor (Z.shiftl 8 8) 0 =? 0x0800) with true. cbv iota. rewrite Hdrop. unfold payload. rewrite <-app_assoc.
    apply (ip_received_spec fuel t c (if_ip i) dst sport dport (identification (ip s)) data chk); try done.
Qed.

End send.

(** ** Two hosts on one wire

    [E] is the list of frames handed to the card, with the card's number. *)
Definition wire : Type := list (Z * list Z).
Definition wire_driver : net_driver_t wire :=
  mk_net_driver wire (Some (λ local data _, kmodify (λ l, l ++ [(local, data)])))
    (Some (λ _, l ← kget; match l with (_, f) :: _ => mret (zlen f, f) | [] => mret (0, []) end)) None.
Definition host_a : net wire :=
  mk_net (mk_ifs [mk_net_if [2;0;0;0;0;1] 0 0 [10;0;0;1] [255;0;0;0]] [wire_driver] 1)
    (mk_arp {[0 := mk_arp_entry [10;0;0;2] [2;0;0;0;0;2]]} false)
    (mk_ip [mk_route [10;0;0;0] [0;0;0;0] [255;0;0;0] 0] 1 0 (replicate 12 0) ∅ None)
    (mk_icmp 0 1) (mk_udp ∅ ∅) [].
Definition host_b (l : wire) : net wire :=
  mk_net (mk_ifs [mk_net_if [2;0;0;0;0;2] 0 0 [10;0;0;2] [255;0;0;0]] [wire_driver] 1)
    (mk_arp ∅ false) (mk_ip [] 1 0 (replicate 12 0) ∅ None) (mk_icmp 0 1) (mk_udp ∅ {[ 7 ]}) l.
Definition if_a : net_if_t := mk_net_if [2;0;0;0;0;1] 0 0 [10;0;0;1] [255;0;0;0].
Definition route_a : route_t := mk_route [10;0;0;0] [0;0;0;0] [255;0;0;0] 0.

Lemma host_a_sender : Sender host_a [10;0;0;2] route_a if_a [2;0;0;0;0;2].
Proof.
  split; try (vm_compute; reflexivity).
  - split; [done|]. split; [is_bytes_tac|done].
  - split; [done|]. split; [cbn; is_bytes_tac|done].
  - exists 0. split; vm_compute; reflexivity.
  - split; vm_compute; [discriminate|reflexivity].
Qed.
Lemma host_b_receiver l : Receiver (host_b l) 0 [10;0;0;2] 7.
Proof.
  split.
  - eexists. split; reflexivity.
  - cbn. set_solver.
  - intros k. unfold udp_slot. cbn. rewrite lookup_empty. reflexivity.
  - exists 0. split; [lia|vm_compute; reflexivity].
  - intros k _. unfold udp_slot. cbn. rewrite lookup_empty. reflexivity.
Qed.

Lemma datagram_delivered_witness :
  ∃ frame t' t'',
    udp_send (mret 0) (mret false) (mret tt) (mret 0) 0 [10;0;0;2] 4000 7 [104; 105] host_a =
      (send_packet 0 frame (zlen frame);; mret 0) (bump_id host_a) ∧
    frame_received (mret 0) (mret false) (mret tt) 0 0 (host_b [(0, frame)]) = Done (tt, t') ∧
    udp_get_packet 7 2 false t' = Done ((2, [104; 105], mk_sockaddr AF_INET [10;0;0;1] 4000), t'').
Proof.
  assert (Hd : data_ok [104; 105]) by (split; [is_bytes_tac|split; vm_compute; [reflexivity|discriminate]]).
  assert (Hw : ∀ p, (0 <=? p) && (p <? 65536) = true → word_ok p)
    by (intros p [H1%Z.leb_le H2%Z.ltb_lt]%andb_true_iff; unfold word_ok; lia).
  destruct (datagram_delivered (mret 0) (mret false) (mret tt) (mret 0) 0 host_a [10;0;0;2] route_a if_a
    [2;0;0;0;0;2] 4000 7 [104; 105] 0 host_a_sender Hd (Hw 4000 eq_refl) (Hw 7 eq_refl) eq_refl)
    as (frame & Hs & Hr).
  destruct (Hr 0 (host_b [(0, frame)]) (host_b [(0, frame)]) []) as (t' & H1 & t'' & H2).
  - rewrite app_nil_r. reflexivity.
  - apply host_b_receiver.
  - exists frame, t', t''. split; [exact Hs|]. split; [exact H1|exact H2].
Defined.
