(* ===== verification/Resolve.v ===== *)
(** * ARP requests end, packets take the right route

    [Running] is what arp_request relies on from the rest of the kernel while it
    waits: the clock can be read and advances with every yield, and the driver's
    send routine returns. *)

From S2P Require Import Prelude Vfs Net Arp Ip.


(** The most the clock moves during one yield or one send, in milliseconds. *)
Definition LAPSE : Z := 2 ^ 32.

Class Running {E : Type} (get_uptime_milliseconds : K E Z) (has_pending_signals : K E bool)
    (yield_current : K (net E) unit) (now : E → Z) := {
  running : net E → Prop;
  running_arp s a : running s → running (set_arp a s);
  run_uptime e : get_uptime_milliseconds e = Done (now e, e);
  run_signals e : ∃ b, has_pending_signals e = Done (b, e);
  run_yield s : running s → ∃ s', yield_current s = Done (tt, s') ∧ running s' ∧
    now (env s) < now (env s') ≤ now (env s) + LAPSE;
  run_send s card data len : running s → ∃ r s', send_packet card data len s = Done (r, s') ∧
    running s' ∧ arp s' = arp s ∧ now (env s) ≤ now (env s') ≤ now (env s) + LAPSE;
}.

Section resolve.
Context {E : Type} {get_uptime_milliseconds : K E Z} {has_pending_signals : K E bool}
  {yield_current : K (net E) unit} {now : E → Z}.
Context `{HR : !Running get_uptime_milliseconds has_pending_signals yield_current now}.
Implicit Types (s : net E).
#[local] Notation arp_wait := (arp_wait get_uptime_milliseconds has_pending_signals yield_current).
#[local] Notation arp_tries := (arp_tries get_uptime_milliseconds has_pending_signals yield_current).
#[local] Notation arp_request := (arp_request get_uptime_milliseconds has_pending_signals yield_current).
#[local] Notation time s := (now (env s)).

Lemma lift_uptime s : lift_env get_uptime_milliseconds s = Done (time s, s).
Proof. unfold lift_env. rewrite run_uptime. by destruct s. Qed.
Lemma lift_signals s : ∃ b, lift_env has_pending_signals s = Done (b, s).
Proof. destruct (run_signals (env s)) as [b Hb]. exists b. unfold lift_env. rewrite Hb. by destruct s. Qed.

(** One wait: at most 1000 yields. *)
Lemma arp_wait_spec k fuel start s :
  (k ≤ fuel)%nat → 1000 ≤ time s - start + Z.of_nat k → 0 ≤ time s - start → - 2 ^ 31 ≤ start →
  time s + Z.of_nat k * LAPSE < 2 ^ 63 → running s →
  ∃ res s', arp_wait fuel start s = Done (res, s') ∧ running s' ∧
    (res = 0 ∨ res = - EINTR ∧ waiting_for_reply (arp s') = false) ∧
    time s ≤ time s' ≤ time s + Z.of_nat k * LAPSE.
Proof.
  unfold LAPSE. revert fuel s. induction k as [|k IH]; intros fuel s Hf Hk H0 Hst Hmax Hrun.
  - exists 0, s. split; [|split_and!; [done|by left|lia..]].
    destruct fuel; cbn [Arp.arp_wait]; unfold kget; unfold mbind at 1, K_bind at 1;
      (destruct (waiting_for_reply (arp s)); [|done]; cbn [negb];
       rewrite (K_bind_step _ _ _ _ _ (lift_uptime s)), u64_id, (proj2 (Z.ltb_ge _ 1000)) by lia; done).
  - destruct fuel as [|fuel]; [lia|]. cbn [Arp.arp_wait]. unfold kget; unfold mbind at 1, K_bind at 1.
    destruct (waiting_for_reply (arp s)) eqn:Ew; cbn [negb]; [|exists 0, s; split_and!; [done|done|by left|lia..]].
    rewrite (K_bind_step _ _ _ _ _ (lift_uptime s)), u64_id by lia.
    destruct (Z.ltb_spec (time s - start) 1000); cbn [negb]; [|exists 0, s; split_and!; [done|done|by left|lia..]].
    destruct (lift_signals s) as [b Hb]. rewrite (K_bind_step _ _ _ _ _ Hb). destruct b.
    + exists (- EINTR), (set_arp (stop_waiting (arp s)) s). split; [done|].
      split; [by apply running_arp|]. split; [by right|cbn; lia].
    + destruct (run_yield s Hrun) as (s1 & E1 & Hrun1 & Ht). rewrite (K_bind_step _ _ _ _ _ E1). unfold LAPSE in Ht.
      destruct (IH fuel s1) as (res & s' & E2 & Hrun2 & Hres & Ht2); [lia..|done|].
      exists res, s'. split_and!; [done..|lia|lia].
Qed.

Lemma s32_start t : 0 ≤ t → - 2 ^ 31 ≤ s32 t ≤ t.
Proof. intros. unfold s32. Z.div_mod_to_equations. lia. Qed.

Lemma send_ethernet_run our_mac frame card s :
  zlen frame ≤ MAX_PAYLOAD → running s →
  ∃ s', send_ethernet our_mac BROADCAST_MAC ARP_ETHERTYPE frame card s = Done (0, s') ∧
    running s' ∧ arp s' = arp s ∧ time s ≤ time s' ≤ time s + LAPSE.
Proof.
  intros Hl Hrun. unfold send_ethernet. rewrite (proj2 (Z.ltb_ge _ _)) by done.
  destruct (run_send s card (ethernet_frame our_mac BROADCAST_MAC ARP_ETHERTYPE frame)
    (Z.max MIN_FRAME (14 + zlen frame)) Hrun) as (r & s' & E1 & Hrun' & Ha & Ht).
  exists s'. rewrite (K_bind_step _ _ _ _ _ E1). done.
Qed.

Lemma arp_tries_spec n fuel our_mac frame card s :
  (1000 ≤ fuel)%nat → zlen frame ≤ MAX_PAYLOAD → 0 ≤ time s →
  time s + Z.of_nat n * 1001 * LAPSE < 2 ^ 63 → running s →
  ∃ res s', arp_tries n fuel our_mac frame card s = Done (res, s') ∧
    (res = 0 ∨ res = - EINTR ∧ waiting_for_reply (arp s') = false).
Proof.
  intros Hf Hl. unfold LAPSE. revert s. induction n as [|n IH]; intros s H0 Hmax Hrun; cbn [Arp.arp_tries];
    [exists 0, s; split; [done|by left]|].
  rewrite (K_bind_step _ _ _ _ _ (lift_uptime s)).
  destruct (send_ethernet_run our_mac frame card s Hl Hrun) as (s1 & E1 & Hrun1 & Ha & Ht). unfold LAPSE in Ht.
  rewrite (K_bind_step _ _ _ _ _ E1). change (0 <? 0) with false. cbv iota.
  pose proof (s32_start (time s) H0).
  destruct (arp_wait_spec 1000 fuel (s32 (time s)) s1) as (res & s2 & E2 & Hrun2 & Hres & Ht2); [unfold LAPSE; lia..|done|].
  unfold LAPSE in Ht2. rewrite (K_bind_step _ _ _ _ _ E2).
  destruct Hres as [->|[-> Hw]]; [|exists (- EINTR), s2; split; [done|by right]].
  change (0 <? 0) with false. cbv iota. unfold kget. unfold mbind, K_bind.
  destruct (waiting_for_reply (arp s2)); cbn [negb]; [|exists 0, s2; split; [done|by left]].
  apply IH; [lia|lia|done].
Qed.

(** C25: a request for a MAC address always ends.  If the address is cached the
    answer is immediate and nothing is sent.  Otherwise, with the clock advancing
    at every yield, 1000 rounds of waiting per try are enough: the request returns
    with the cached address, or with EINTR, EHOSTUNREACH or -1, whatever the other
    tasks and the interrupt handlers do meanwhile; and it no longer waits. *)
Theorem arp_request_ends fuel target card s :
  (1000 ≤ fuel)%nat → running s → 0 ≤ now (env s) < 2 ^ 62 → zlen target = 4 →
  (∃ i, znth (net_interfaces (ifs s)) card = Some i ∧ zlen (if_mac i) = 6 ∧ zlen (if_ip i) = 4) →
  ∃ res mac s', arp_request fuel target card s = Done ((res, mac), s') ∧
    match arp_find ARP_CACHE_SIZE (arp s) target 0 with
    | Some k => s' = s ∧ res = 0 ∧ mac = Some (arp_mac (arp_entry (arp s) k))
    | None =>
      waiting_for_reply (arp s') = false ∧
      ((∃ k, arp_find ARP_CACHE_SIZE (arp s') target 0 = Some k ∧ res = 0 ∧
             mac = Some (arp_mac (arp_entry (arp s') k))) ∨
       (res = - EINTR ∨ res = - EHOSTUNREACH ∨ res = -1))
    end.
Proof.
  intros Hf Hrun Ht Hl (i & Hi & Lm & Li). unfold Arp.arp_request, kget. unfold mbind at 1, K_bind at 1.
  destruct (arp_find ARP_CACHE_SIZE (arp s) target 0) as [k|] eqn:Ef;
    [eexists _, _, _; split; [reflexivity|done]|].
  assert (Hmac : get_mac card s = Done (Some (if_mac i), s))
    by (unfold get_mac, interface, kgets, mbind, K_bind, mret, K_ret; by rewrite Hi).
  assert (Hip : get_ip card s = Done (Some (if_ip i), s))
    by (unfold get_ip, interface, kgets, mbind, K_bind, mret, K_ret; by rewrite Hi).
  rewrite (K_bind_step _ _ _ _ _ Hmac), (K_bind_step _ _ _ _ _ Hip).
  rewrite (K_kopt_step (Some _) (if_mac i)), (K_kopt_step (Some _) (if_ip i)) by done.
  set (s0 := set_arp (start_waiting (arp s)) s).
  rewrite (K_bind_step (update_arp start_waiting) _ s tt s0 eq_refl). set (frame := arp_bytes _ ++ _).
  assert (Hfr : zlen frame = 46).
  { unfold frame, arp_bytes. cbn [htype ptype hlen plen opcode sender_mac sender_ip target_mac target_ip].
    rewrite !zlen_app, Lm, Li, Hl. done. }
  destruct (arp_tries_spec 3 fuel (if_mac i) frame card s0) as (res & s1 & E1 & Hres);
    [done|rewrite Hfr; unfold MAX_PAYLOAD; lia|cbn; lia|unfold LAPSE; cbn [env s0 set_arp]; lia|by apply running_arp|].
  rewrite (K_bind_step _ _ _ _ _ E1). destruct Hres as [->|[-> Hw]].
  - change (0 <? 0) with false. cbv iota. unfold kget. unfold mbind at 1, K_bind at 1.
    destruct (waiting_for_reply (arp s1)) eqn:Ew.
    + eexists _, _, _. split; [reflexivity|]. split; [done|]. right. auto.
    + destruct (arp_find ARP_CACHE_SIZE (arp s1) target 0) as [k|] eqn:Ek;
        (eexists _, _, _; split; [reflexivity|]; split; [done|]); [left; eauto|right; auto].
  - eexists _, _, _. split; [reflexivity|]. split; [done|]. right. auto.
Qed.

End resolve.

(** A machine whose clock advances by a second with every yield and whose card
    drops all frames: the request tries three times and gives up. *)
Definition silent_driver : net_driver_t Z := mk_net_driver Z (Some (λ _ _ _, mret tt)) None None.
Definition silent_host : net Z :=
  mk_net (mk_ifs [mk_net_if [2;0;0;0;0;1] 0 0 [10;0;0;1] [255;0;0;0]] [silent_driver] 1)
    (mk_arp ∅ false) (mk_ip [] 1 0 [] ∅ None) (mk_icmp 0 1) (mk_udp ∅ ∅) 500.
Definition tick : K (net Z) unit := kmodify (λ s, set_env (env s + 1000) s).

#[export] Instance silent_running : Running kget (mret false) tick (λ e, e).
Proof.
  refine {| running s := net_drivers (ifs s) = [silent_driver] |}.
  - done.
  - done.
  - by exists false.
  - intros s Hs. eexists. split; [reflexivity|]. unfold LAPSE. cbn. split; [done|lia].
  - intros s card data len Hs. unfold send_packet, driver_of_if, interface, kgets, kget, mbind, K_bind, mret, K_ret.
    unfold LAPSE. destruct (znth (net_interfaces (ifs s)) card) as [i|];
      [|eexists _, _; split; [reflexivity|]; split; [done|split; [done|lia]]].
    rewrite Hs. destruct (znth [silent_driver] (if_driver i)) as [d|] eqn:Ed;
      [|eexists _, _; split; [reflexivity|]; split; [done|split; [done|lia]]].
    assert (d = silent_driver) as ->.
    { unfold znth in Ed. destruct (if_driver i <? 0); [done|].
      by apply list_lookup_singleton_Some in Ed as [_ ->]. }
    eexists _, _. split; [reflexivity|]. split; [done|split; [done|cbn; lia]].
Defined.

Lemma arp_request_ends_witness :
  running silent_host ∧
  ∃ s', arp_request kget (mret false) tick 1000 [10;0;0;2] 0 silent_host = Done ((- EHOSTUNREACH, None), s') ∧
    waiting_for_reply (arp s') = false.
Proof.
  assert (Hrun : running silent_host) by reflexivity. split; [exact Hrun|].
  destruct (arp_request_ends 1000 [10;0;0;2] 0 silent_host (le_n 1000) Hrun) as (res & mac & s' & Hr & H).
  - cbn. lia.
  - reflexivity.
  - eexists. split; [reflexivity|]. split; reflexivity.
  - assert (Ef : arp_find ARP_CACHE_SIZE (arp silent_host) [10;0;0;2] 0 = None) by (vm_compute; reflexivity).
    rewrite Ef in H. destruct H as [Hw _]. exists s'. split; [|exact Hw].
    rewrite Hr. f_equal. f_equal.
    assert (Hres : match arp_request kget (mret false) tick 1000 [10;0;0;2] 0 silent_host with
      | Done (r, _) => Some r | _ => None end = Some (- EHOSTUNREACH, None)) by (vm_compute; reflexivity).
    rewrite Hr in Hres. injection Hres as -> ->. reflexivity.
Defined.

(** ** Routing: the longest prefix wins *)


(** Bit [i] of an address, from the left. *)
Definition address_bit (a : list Z) (i : Z) : bool :=
  match znth a (i / 8) with Some b => Z.testbit b (7 - i mod 8) | None => false end.
Definition is_address (a : list Z) : Prop := zlen a = 4 ∧ Forall (λ b, 0 ≤ b < 256) a.
(** A route matches if the bits of its mask are the same in both addresses; its prefix
    length is the number of these bits. *)
Definition route_matches (dst : list Z) (r : route_t) : Prop :=
  Forall (λ i, address_bit (netmask r) i = true → address_bit dst i = address_bit (dest_ips r) i) (seqZ 0 32).
#[export] Instance route_matches_dec dst r : Decision (route_matches dst r).
Proof. unfold route_matches. apply _. Defined.
Definition prefix (r : route_t) : Z := foldr (λ i n, Z.b2z (address_bit (netmask r) i) + n) 0 (seqZ 0 32).
Definition route_ok (r : route_t) : Prop := is_address (dest_ips r) ∧ is_address (netmask r).

Lemma address_cases a : is_address a → ∃ b0 b1 b2 b3, a = [b0; b1; b2; b3] ∧ 0 ≤ b0 < 256 ∧ 0 ≤ b1 < 256 ∧ 0 ≤ b2 < 256 ∧ 0 ≤ b3 < 256.
Proof.
  intros [L F]. destruct a as [|b0 [|b1 [|b2 [|b3 [|]]]]]; rewrite ?zlen_cons in L; change (zlen []) with 0 in L; try lia.
  - repeat (apply Forall_cons in F as [? F]). eauto 10.
  - pose proof (zlen_nonneg l). lia.
Qed.
Lemma znth_four (b0 b1 b2 b3 : Z) j : znth [b0; b1; b2; b3] j =
  if j =? 0 then Some b0 else if j =? 1 then Some b1 else if j =? 2 then Some b2 else if j =? 3 then Some b3 else None.
Proof.
  unfold znth. destruct (Z.ltb_spec j 0); [by rewrite !(proj2 (Z.eqb_neq _ _)) by lia|].
  destruct (Z.eqb_spec j 0) as [->|]; [done|]. destruct (Z.eqb_spec j 1) as [->|]; [done|].
  destruct (Z.eqb_spec j 2) as [->|]; [done|]. destruct (Z.eqb_spec j 3) as [->|]; [done|].
  apply lookup_ge_None_2. cbn. lia.
Qed.
(** Bytes that agree under a mask. *)
Lemma land_agree a b m : 0 ≤ m < 256 →
  Z.land a m = Z.land b m ↔ Forall (λ k, Z.testbit m k = true → Z.testbit a k = Z.testbit b k) (seqZ 0 8).
Proof.
  intros Hm. rewrite Forall_forall. split.
  - intros E k _ Hk. apply (f_equal (λ z, Z.testbit z k)) in E. by rewrite !Z.land_spec, Hk, !andb_true_r in E.
  - intros H. apply Z.bits_inj'. intros k Hk. rewrite !Z.land_spec. destruct (Z.testbit m k) eqn:E; [|by rewrite !andb_false_r].
    f_equal. apply H; [|done]. apply elem_of_seqZ. split; [lia|]. destruct (Z.lt_ge_cases k 8); [lia|].
    by rewrite (testbit_small m 8 k) in E by lia.
Qed.
Lemma address_bit_at a j k : 0 ≤ k < 8 →
  address_bit a (j * 8 + (7 - k)) = match znth a j with Some b => Z.testbit b k | None => false end.
Proof.
  intros Hk. unfold address_bit. rewrite Z.div_add_l, Z.div_small, Z.add_0_r by lia.
  rewrite (Z.add_comm (j * 8)), Z.mod_add, Z.mod_small by lia. by replace (7 - (7 - k)) with k by lia.
Qed.
Lemma masked_match_spec dst r : is_address dst → route_ok r →
  masked_match dst (dest_ips r) (netmask r) = true ↔ route_matches dst r.
Proof.
  intros Hd [Ha Hm]. unfold route_matches.
  destruct (address_cases _ Hd) as (d0 & d1 & d2 & d3 & -> & _), (address_cases _ Ha) as (a0 & a1 & a2 & a3 & -> & _),
    (address_cases _ Hm) as (m0 & m1 & m2 & m3 & -> & M0 & M1 & M2 & M3).
  assert (masked_match [d0; d1; d2; d3] [a0; a1; a2; a3] [m0; m1; m2; m3] = true ↔
    Z.land d0 m0 = Z.land a0 m0 ∧ Z.land d1 m1 = Z.land a1 m1 ∧ Z.land d2 m2 = Z.land a2 m2 ∧ Z.land d3 m3 = Z.land a3 m3) as ->.
  { cbn [masked_match]. rewrite <-!Z.eqb_eq. repeat case_match; intuition congruence. }
  rewrite !land_agree by done. rewrite !Forall_forall.
  setoid_rewrite elem_of_seqZ. split.
  - unfold address_bit. intros (H0 & H1 & H2 & H3) i Hi. assert (Hk : 0 ≤ 7 - i mod 8 < 8) by (pose proof (Z.mod_pos_bound i 8); lia).
    assert (i / 8 = 0 ∨ i / 8 = 1 ∨ i / 8 = 2 ∨ i / 8 = 3) as [-> | [-> | [-> | ->]]]
      by (pose proof (Z.div_mod i 8); pose proof (Z.mod_pos_bound i 8); lia);
      rewrite !znth_four; [apply H0|apply H1|apply H2|apply H3]; lia.
  - intros H.
    assert (Hj : ∀ j k, 0 ≤ j < 4 → 0 ≤ k < 8 → address_bit [m0; m1; m2; m3] (j * 8 + (7 - k)) = true →
      address_bit [d0; d1; d2; d3] (j * 8 + (7 - k)) = address_bit [a0; a1; a2; a3] (j * 8 + (7 - k))) by (intros; apply H; [lia|done]).
    split_and!; intros k Hk; [specialize (Hj 0 k)|specialize (Hj 1 k)|specialize (Hj 2 k)|specialize (Hj 3 k)];
      rewrite !address_bit_at, !znth_four in Hj by lia; apply Hj; lia.
Qed.
Lemma popcount_byte b : 0 ≤ b < 256 → popcount b = foldr (λ i n, Z.b2z (Z.testbit b (7 - i)) + n) 0 (seqZ 0 8).
Proof.
  intros Hb. assert (H : forallb (λ b, popcount b =? foldr (λ i n, Z.b2z (Z.testbit b (7 - i)) + n) 0 (seqZ 0 8)) (seqZ 0 256) = true)
    by (vm_compute; reflexivity).
  rewrite forallb_forall in H. apply Z.eqb_eq, H, list_elem_of_In, elem_of_seqZ. lia.
Qed.
Lemma prefix_length_spec r : route_ok r → prefix_length (netmask r) = prefix r.
Proof.
  intros [_ Hm]. unfold prefix, prefix_length.
  destruct (address_cases _ Hm) as (m0 & m1 & m2 & m3 & -> & M0 & M1 & M2 & M3). cbn [foldl]. rewrite !popcount_byte by done.
  change (seqZ 0 32) with [0;1;2;3;4;5;6;7;8;9;10;11;12;13;14;15;16;17;18;19;20;21;22;23;24;25;26;27;28;29;30;31].
  change (seqZ 0 8) with [0;1;2;3;4;5;6;7]. unfold address_bit. cbn [foldr].
  repeat match goal with |- context [znth ?l (?i / 8)] => let x := eval vm_compute in (i / 8) in change (i / 8) with x end.
  rewrite !znth_four. cbn [Z.eqb Pos.eqb].
  repeat match goal with |- context [7 - ?i] => let x := eval vm_compute in (7 - i) in change (7 - i) with x end. lia.
Qed.
Lemma prefix_nonneg r : 0 ≤ prefix r.
Proof. unfold prefix. induction (seqZ 0 32) as [|i l IH]; cbn [foldr]; [done|]. destruct (address_bit _ i); cbn; lia. Qed.
(** A network mask of [n] bits has prefix length [n]. *)
Definition cidr_mask (n : Z) : list Z :=
  (λ i, 255 - Z.shiftr 255 (Z.max 0 (Z.min 8 (n - 8 * i)))) <$> [0; 1; 2; 3].
Lemma cidr_mask_prefix n d g c : 0 ≤ n ≤ 32 → prefix (mk_route d g (cidr_mask n) c) = n.
Proof.
  intros Hn. assert (H : forallb (λ n, prefix (mk_route [] [] (cidr_mask n) 0) =? n) (seqZ 0 33) = true)
    by (vm_compute; reflexivity).
  rewrite forallb_forall in H. apply Z.eqb_eq, H, list_elem_of_In, elem_of_seqZ. lia.
Qed.

(** [r] is the choice from [l]: it matches, beats what matches before it and is
    not beaten behind it. *)
Definition chosen (dst : list Z) (l : list route_t) (r : route_t) : Prop :=
  ∃ l1 l2, l = l1 ++ r :: l2 ∧ route_matches dst r ∧
    Forall (λ r', route_matches dst r' → prefix r' < prefix r) l1 ∧
    Forall (λ r', route_matches dst r' → prefix r' ≤ prefix r) l2.

Section best.
Context (dst : list Z) (Hdst : is_address dst).
Lemma best_route_keep l best p : Forall route_ok l →
  Forall (λ r, route_matches dst r → prefix r ≤ p) l → best_route l dst best p = best.
Proof using Hdst.
  induction l as [|r l IH]; intros Hok H; cbn [best_route]; [done|].
  apply Forall_cons in H as [Hr H]. apply Forall_cons in Hok as [Hk Hok]. destruct (masked_match _ _ _) eqn:E; [|by apply IH].
  apply masked_match_spec in E; [|done..]. rewrite prefix_length_spec by done. specialize (Hr E).
  rewrite (proj2 (Z.ltb_ge _ _)) by lia. by apply IH.
Qed.

Lemma best_route_spec l : ∀ best p, Forall route_ok l →
  best_route l dst best p = best ∧ Forall (λ r, route_matches dst r → prefix r ≤ p) l ∨
  ∃ r, best_route l dst best p = Some r ∧ chosen dst l r ∧ p < prefix r.
Proof using Hdst.
  induction l as [|r l IH]; intros best p Hok; [left; by split|]. apply Forall_cons in Hok as [Hk Hok].
  cbn [best_route]. rewrite prefix_length_spec by done.
  assert (Hskip : ∀ best p, (route_matches dst r → prefix r ≤ p) →
    best_route l dst best p = best ∧ Forall (λ r, route_matches dst r → prefix r ≤ p) (r :: l) ∨
    ∃ r', best_route l dst best p = Some r' ∧ chosen dst (r :: l) r' ∧ p < prefix r').
  { clear best p. intros best p Hle. destruct (IH best p Hok) as [[-> Hl]|(r' & -> & (l1 & l2 & -> & Hm & H1 & H2) & Hp)].
    - left. split; [done|]. by constructor.
    - right. exists r'. split_and!; [done| |lia]. exists (r :: l1), l2. split_and!; try done.
      constructor; [intros Hr; specialize (Hle Hr); lia|done]. }
  destruct (masked_match _ _ _) eqn:E.
  - apply masked_match_spec in E; [|done..]. destruct (Z.ltb_spec p (prefix r)) as [Hlt|Hge]; [|by apply Hskip; intros _; lia].
    right. destruct (IH (Some r) (prefix r) Hok) as [[-> Hl]|(r' & -> & (l1 & l2 & -> & Hm & H1 & H2) & Hp)].
    + exists r. split_and!; [done| |done]. exists [], l. by split_and!.
    + exists r'. split_and!; [done| |lia]. exists (r :: l1), l2. split_and!; try done. by constructor.
  - apply Hskip. intros Hr. apply masked_match_spec in Hr; [|done..]. congruence.
Qed.
End best.

Section route.
Context {E : Type}.
Implicit Types (s : net E).

Definition addresses_ok s (dst : list Z) : Prop :=
  is_address dst ∧ Forall (λ r, route_ok r ∧ zlen (gateway r) = 4) (routes (ip s)).

Lemma next_hop_broadcast s :
  next_hop IP_BROADCAST_ADDR s = Done (inr (broadcast_card (ip s), None), s).
Proof. done. Qed.

Lemma next_hop_unfold s dst :
  zlen dst = 4 → dst ≠ IP_BROADCAST_ADDR →
  next_hop dst s = Done (
    match best_route (routes (ip s)) dst None (-1) with
    | None => inl (- EHOSTUNREACH)
    | Some r => inr (card r, Some (if negb (memcmp_bytes (gateway r) IP_ZERO =? 0) then gateway r else dst))
    end, s).
Proof.
  intros Hl Hne. unfold next_hop, kget, mbind, K_bind.
  destruct (Z.eqb_spec (memcmp_bytes dst IP_BROADCAST_ADDR) 0) as [He|_];
    [by apply memcmp_bytes_eq in He|].
  by destruct (best_route _ _ _ _).
Qed.

(** C24: packets take the longest matching prefix.  Let the addresses and masks have four
    bytes; a route matches if every bit that its mask has is the same in its address and
    in the destination, and its prefix length is the number of bits of the mask.  The
    broadcast address goes to the card chosen for it.  For any other address: if no route
    matches the packet is refused with EHOSTUNREACH; otherwise it goes to the card of a
    matching route of greatest prefix length, the first one in the table, and the
    host asked for its MAC address is that route's gateway, or the destination
    itself when the route has none. *)
Theorem next_hop_longest_prefix s dst :
  addresses_ok s dst →
  next_hop IP_BROADCAST_ADDR s = Done (inr (broadcast_card (ip s), None), s) ∧
  (dst ≠ IP_BROADCAST_ADDR → Forall (λ r, ¬ route_matches dst r) (routes (ip s)) →
     next_hop dst s = Done (inl (- EHOSTUNREACH), s)) ∧
  (dst ≠ IP_BROADCAST_ADDR → Exists (route_matches dst) (routes (ip s)) →
     ∃ r, chosen dst (routes (ip s)) r ∧
       next_hop dst s = Done (inr (card r,
         Some (if decide (gateway r = IP_ZERO) then dst else gateway r)), s)).
Proof.
  intros [Hd Hg]. split; [done|]. assert (Hl : zlen dst = 4) by apply Hd. apply Forall_and in Hg as [Hok Hg].
  pose proof (best_route_spec dst Hd (routes (ip s)) None (-1) Hok) as Hb. split.
  - intros Hne Hno. rewrite next_hop_unfold by done.
    rewrite best_route_keep; [done|done|done|]. eapply Forall_impl; [exact Hno|]. by intros r H ?.
  - intros Hne (r & Hr & Hm)%Exists_exists. rewrite next_hop_unfold by done.
    destruct Hb as [[_ Hall]|(r' & -> & Hc & _)].
    + rewrite Forall_forall in Hall. specialize (Hall r Hr Hm). pose proof (prefix_nonneg r). lia.
    + exists r'. split; [done|]. do 5 f_equal.
      assert (Hz : zlen (gateway r') = 4).
      { destruct Hc as (l1 & l2 & E1 & _). rewrite E1 in Hg. apply Forall_app in Hg as [_ Hg].
        by apply Forall_cons in Hg as [Hg _]. }
      destruct (decide (gateway r' = IP_ZERO)) as [->|Hn]; [done|].
      destruct (Z.eqb_spec (memcmp_bytes (gateway r') IP_ZERO) 0) as [He|_]; [|done].
      by apply memcmp_bytes_eq in He.
Qed.

End route.

(** Two networks and a default route, which comes first. *)
Definition routing_example : net unit :=
  mk_net (mk_ifs [] [] 0) (mk_arp ∅ false)
    (mk_ip [mk_route [0;0;0;0] [10;0;0;1] (cidr_mask 0) 0;
            mk_route [10;0;0;0] [0;0;0;0] (cidr_mask 8) 0;
            mk_route [10;0;7;0] [10;0;0;9] (cidr_mask 24) 1] 1 0 (replicate 12 0) ∅ None)
    (mk_icmp 0 1) (mk_udp ∅ ∅) tt.
Lemma next_hop_longest_prefix_witness :
  addresses_ok routing_example [10;0;7;5] ∧
  ∃ r, chosen [10;0;7;5] (routes (ip routing_example)) r ∧ prefix r = 24 ∧
    next_hop [10;0;7;5] routing_example = Done (inr (1, Some [10;0;0;9]), routing_example).
Proof.
  assert (Hok : addresses_ok routing_example [10;0;7;5]) by (unfold addresses_ok, route_ok, is_address; apply (bool_decide_unpack _); vm_compute; exact I).
  split; [exact Hok|].
  destruct (next_hop_longest_prefix routing_example [10;0;7;5] Hok) as (_ & _ & H).
  destruct H as (r & Hc & Hn); [done| |].
  { apply Exists_cons_hd. apply (bool_decide_unpack _). vm_compute. exact I. }
  assert (E : next_hop [10;0;7;5] routing_example = Done (inr (1, Some [10;0;0;9]), routing_example))
    by (vm_compute; reflexivity).
  rewrite E in Hn. exists r. split; [exact Hc|]. split; [|exact E].
  destruct Hc as (l1 & l2 & El & _). cbn in El.
  destruct l1 as [|a [|b [|c l1]]]; cbn in El; injection El; intros; subst; try discriminate; try reflexivity.
  by apply app_cons_not_nil in H.
Defined.
