(* ===== verification/Socket.v ===== *)
(** * Sockets: ports and the packets behind them *)

From S2P Require Import Prelude Vfs Net Arp Ip Udp Datagram.

Section socket.
Context {E : Type}.
Implicit Types (s : net E) (sk : socket_t).

(** What udp_received stores: a free slot, or a packet that fits its slot. *)
Definition slots_ok (u : udp_state) : Prop :=
  ∀ k, zlen (udp_slot u k) = UDP_SLOT ∧
    (slot_length (udp_slot u k) = 0 ∨ 8 ≤ ntohs (slot_length (udp_slot u k)) ≤ UDP_SLOT - 4).

Lemma udp_peek_total port len s :
  slots_ok (udp s) → 0 ≤ len →
  ∃ r, udp_get_packet port len true s = Done (r, s).
Proof.
  intros Hok Hlen. unfold udp_get_packet, kget, mbind, K_bind.
  destruct (find_slot _ _ _ _) as [k|] eqn:Ef; [|by eexists].
  apply find_slot_Some in Ef as (_ & Hp & _). apply andb_true_iff in Hp as [Hp _].
  apply negb_true_iff, Z.eqb_neq in Hp. destruct (Hok k) as [Hl [|Hr]]; [done|]. unfold UDP_SLOT in *.
  rewrite (u64_id (ntohs _ - 8)) by lia. rewrite field_zslice; [by eexists|lia|].
  destruct (Z.ltb_spec len (ntohs (slot_length (udp_slot (udp s) k)) - 8)); lia.
Qed.

(** Binding opens the lowest free port of the range and nothing else. *)
Lemma bind_free_spec n sk i s :
  ∃ sk' s', bind_free n sk i s = Done (sk', s') ∧
    udp_packet_buffer (udp s') = udp_packet_buffer (udp s) ∧ is_udp sk' = is_udp sk ∧
    ((sk' = sk ∧ s' = s ∧ ∀ p, i ≤ p < i + Z.of_nat n → p ∈ udp_ports_open (udp s)) ∨
     ∃ p, i ≤ p < i + Z.of_nat n ∧ p ∉ udp_ports_open (udp s) ∧
       (∀ q, i ≤ q < p → q ∈ udp_ports_open (udp s)) ∧
       udp_ports_open (udp s') = {[ p ]} ∪ udp_ports_open (udp s) ∧
       sk' = set_addr (mk_sockaddr AF_INET IP_ZERO p) sk).
Proof.
  revert i. induction n as [|n IH]; intros i.
  - exists sk, s. split_and!; try done. left. split_and!; [done|done|lia].
  - cbn [bind_free]. unfold udp_open at 1. unfold kget, mbind, K_bind.
    destruct (bool_decide_reflect (i ∈ udp_ports_open (udp s))) as [Hin|Hout].
    + destruct (IH (i + 1)) as (sk' & s' & E1 & Hb & Hu & Hc). exists sk', s'. split; [exact E1|].
      split; [done|]. split; [done|]. destruct Hc as [(-> & -> & Hall)|(p & Hp & Hn & Hq & Ho & ->)].
      * left. split_and!; try done. intros p Hp. destruct (decide (p = i)) as [->|]; [done|]. apply Hall. lia.
      * right. exists p. split; [lia|]. split; [done|]. split; [|done].
        intros q Hr. destruct (decide (q = i)) as [->|]; [done|]. apply Hq. lia.
    + eexists _, _. split; [reflexivity|]. split; [done|]. split; [done|]. right. exists i.
      split; [lia|]. split; [done|]. split; [intros q Hq; lia|done].
Qed.

Lemma auto_bind_spec sk s :
  ∃ sk' s', auto_bind sk s = Done (sk', s') ∧
    udp_packet_buffer (udp s') = udp_packet_buffer (udp s) ∧ is_udp sk' = is_udp sk ∧
    (bound sk = true → sk' = sk ∧ s' = s) ∧
    (bound sk = false → (∃ p, 40000 ≤ p < 65535 ∧ p ∉ udp_ports_open (udp s)) →
       ∃ p, 40000 ≤ p < 65535 ∧ p ∉ udp_ports_open (udp s) ∧
         udp_ports_open (udp s') = {[ p ]} ∪ udp_ports_open (udp s) ∧
         bind_addr sk' = mk_sockaddr AF_INET IP_ZERO p ∧ bound sk' = true).
Proof.
  unfold auto_bind. destruct (bound sk) eqn:Eb.
  - exists sk, s. split; [reflexivity|]. split; [done|]. split; [done|]. split; [done|]. intros Hf _. discriminate Hf.
  - destruct (bind_free_spec (Z.to_nat (65535 - 40000)) sk 40000 s) as (sk' & s' & E1 & Hb & Hu & Hc).
    replace (40000 + Z.of_nat (Z.to_nat (65535 - 40000))) with 65535 in Hc by lia.
    exists sk', s'. split; [exact E1|]. split; [done|]. split; [done|]. split; [done|].
    intros _ (p & Hp & Hn). destruct Hc as [(_ & _ & Hall)|(q & Hq & Hnq & _ & Ho & ->)];
      [by destruct (Hn (Hall p Hp))|].
    exists q. split; [exact Hq|]. split; [exact Hnq|]. split; [exact Ho|]. by split.
Qed.

(** recvfrom never takes a packet.  Because its last argument to
    udp_get_packet is flags | MSG_PEEK, which is never zero, the packet buffer is
    the same afterwards, whatever flags the caller gave: an unbound socket gets a
    port of its own from 40000 on that was closed before (if there is one), and
    once the socket is bound every further call returns the same packet again. *)
Theorem recvfrom_never_consumes sk len flags s :
  is_udp sk = true → slots_ok (udp s) → 0 ≤ len →
  (bound sk = true ∨ ∃ p, 40000 ≤ p < 65535 ∧ p ∉ udp_ports_open (udp s)) →
  ∃ r sk' s', recvfrom sk len flags s = Done ((r, sk'), s') ∧
    udp_packet_buffer (udp s') = udp_packet_buffer (udp s) ∧
    (bound sk = false → ∃ p, 40000 ≤ p < 65535 ∧ p ∉ udp_ports_open (udp s) ∧
       bind_addr sk' = mk_sockaddr AF_INET IP_ZERO p ∧ p ∈ udp_ports_open (udp s')) ∧
    recvfrom sk' len flags s' = Done ((r, sk'), s').
Proof.
  intros Hu Hok Hlen Hp. destruct (auto_bind_spec sk s) as (sk' & s' & E1 & Hb & Hu' & H1 & H2).
  assert (Hok' : slots_ok (udp s')) by (unfold slots_ok, udp_slot in *; by rewrite Hb).
  assert (Hbound : bound sk' = true).
  { destruct (bound sk) eqn:Eb; [by destruct (H1 eq_refl) as [-> _]|].
    destruct Hp as [|Hp]; [done|]. by destruct (H2 eq_refl Hp) as (p & _ & _ & _ & _ & ?). }
  assert (Hpeek : negb (Z.lor flags MSG_PEEK =? 0) = true).
  { apply negb_true_iff, Z.eqb_neq. intros Hz. apply Z.lor_eq_0_iff in Hz as [_ Hz]. discriminate Hz. }
  destruct (udp_peek_total (sa_port (bind_addr sk')) len s' Hok' Hlen) as [r Hr].
  exists r, sk', s'. rewrite Hu in Hu'. split_and!.
  - unfold recvfrom. rewrite Hu. cbn [negb]. rewrite (K_bind_step _ _ _ _ _ E1), Hpeek.
    by rewrite (K_bind_step _ _ _ _ _ Hr).
  - done.
  - intros Eb. destruct Hp as [|Hp]; [congruence|].
    destruct (H2 Eb Hp) as (p & Hr1 & Hn & Ho & Ha & _). exists p. rewrite Ho. split_and!; try done; try lia. set_solver.
  - unfold recvfrom. rewrite Hu'. cbn [negb].
    assert (E2 : auto_bind sk' s' = Done (sk', s')) by (unfold auto_bind; by rewrite Hbound).
    rewrite (K_bind_step _ _ _ _ _ E2), Hpeek. by rewrite (K_bind_step _ _ _ _ _ Hr).
Qed.

(** Two sockets may share a port, since bind does not look at the result of
    udp_open; closing one of them closes the port for both. *)
Lemma close_shared_port sk1 sk2 s :
  is_udp sk1 = true → bound sk1 = true → bind_addr sk2 = bind_addr sk1 →
  ∃ s', socket_close sk1 s = Done (0, s') ∧ sa_port (bind_addr sk2) ∉ udp_ports_open (udp s').
Proof.
  intros H1 H2 Ha. unfold socket_close. rewrite H1, H2. eexists. split; [reflexivity|].
  cbn. rewrite Ha. set_solver.
Qed.

End socket.

(** Sum and odd length: the checksum of one byte of data depends on what lies
    behind the packet in memory. *)
Lemma udp_odd_checksum :
  udp_packet_of [10;0;0;1] [10;0;0;2] 4000 7 [104] 0 ≠ udp_packet_of [10;0;0;1] [10;0;0;2] 4000 7 [104] 1.
Proof. vm_compute. discriminate. Qed.

(** A reassembled packet is passed on with the length of its last fragment: the
    two fragments of a UDP packet of 24 bytes end in a slot with payload length 8. *)
Definition reassembly_host : net unit :=
  mk_net (mk_ifs [mk_net_if [] 0 0 [10;0;0;2] []] [] 0) (mk_arp ∅ false)
    (mk_ip [] 1 0 (replicate 12 0) ∅ None) (mk_icmp 0 1) (mk_udp ∅ {[ 7 ]}) tt.
Definition fragment_1 : list Z := zrepeat 16 65.
Definition fragment_2 : list Z := zrepeat 8 66.
Lemma reassembly_loses_length :
  match (store_fragment 5 IP_FLAG_MF fragment_1 16;; store_fragment 5 2 fragment_2 8) reassembly_host with
  | Done (Some (payload, true), _) => ztake 24 payload = fragment_1 ++ fragment_2
  | _ => False
  end.
Proof. vm_compute. reflexivity. Qed.

Lemma recvfrom_never_consumes_witness :
  ∃ r sk' s', recvfrom (mk_socket 1 1 1 no_addr) 10 0 reassembly_host = Done ((r, sk'), s') ∧
    sa_port (bind_addr sk') = 40000 ∧ recvfrom sk' 10 0 s' = Done ((r, sk'), s').
Proof.
  destruct (recvfrom_never_consumes (mk_socket 1 1 1 no_addr) 10 0 reassembly_host) as (r & sk' & s' & H1 & _ & _ & H2).
  - reflexivity.
  - intros k. unfold udp_slot. cbn. rewrite lookup_empty. split; [reflexivity|left; reflexivity].
  - lia.
  - right. exists 40000. split; [lia|]. cbn. set_solver.
  - exists r, sk', s'. split; [exact H1|]. split; [|exact H2].
    assert (Hp : match recvfrom (mk_socket 1 1 1 no_addr) 10 0 reassembly_host with
      | Done (_, sk, _) => Some (sa_port (bind_addr sk)) | _ => None end = Some 40000) by (vm_compute; reflexivity).
    rewrite H1 in Hp. by injection Hp.
Defined.
