(* ===== verification/Task.v ===== *)
(** * Tasks and the state of the kernel

    The data of usermode/scheduler.h and usermode/fd.h, and the state that
    scheduler.c and fd.c share.  Tasks, pipes and sockets are kernel objects
    addressed by numbers; 0 is NULL, an address that is not in the table is a
    [Fault].  The two static tasks have fixed addresses.  The fields of task_t
    are grouped in records; arrays that start out zeroed are maps with a default. *)

From S2P Require Import Prelude Paging Break Vfs Pipe Net Udp.

Definition MAX_FDS : nat := 1024.
Definition MAX_FILES : nat := 4096.
Definition PROCESS_TICKS : Z := 10.
Definition NULL : Z := 0.
Definition IDLE_TASK : Z := 1.
Definition INIT_TASK : Z := 2.
Definition USER_CS : Z := 0x1B.
Definition KERNEL_CS : Z := 0x08.

(** ** Interrupt frames *)

Record iframe_t := mk_iframe {
  r15 : Z;
  r14 : Z;
  r13 : Z;
  r12 : Z;
  r11 : Z;
  r10 : Z;
  r9 : Z;
  r8 : Z;
  rdi : Z;
  rsi : Z;
  rbp : Z;
  rdx : Z;
  rcx : Z;
  rbx : Z;
  rax : Z;
  vector : Z;
  error_code : Z;
  rip : Z;
  cs : Z;
  rflags : Z;
  rsp : Z;
  ss : Z;
}.
Definition set_rdi (x : Z) (r : iframe_t) : iframe_t :=
  mk_iframe (r15 r) (r14 r) (r13 r) (r12 r) (r11 r) (r10 r) (r9 r) (r8 r) x (rsi r) (rbp r) (rdx r) (rcx r) (rbx r) (rax r) (vector r) (error_code r) (rip r) (cs r) (rflags r) (rsp r) (ss r).
Definition set_rsi (x : Z) (r : iframe_t) : iframe_t :=
  mk_iframe (r15 r) (r14 r) (r13 r) (r12 r) (r11 r) (r10 r) (r9 r) (r8 r) (rdi r) x (rbp r) (rdx r) (rcx r) (rbx r) (rax r) (vector r) (error_code r) (rip r) (cs r) (rflags r) (rsp r) (ss r).
Definition set_rax (x : Z) (r : iframe_t) : iframe_t :=
  mk_iframe (r15 r) (r14 r) (r13 r) (r12 r) (r11 r) (r10 r) (r9 r) (r8 r) (rdi r) (rsi r) (rbp r) (rdx r) (rcx r) (rbx r) x (vector r) (error_code r) (rip r) (cs r) (rflags r) (rsp r) (ss r).
Definition set_rip (x : Z) (r : iframe_t) : iframe_t :=
  mk_iframe (r15 r) (r14 r) (r13 r) (r12 r) (r11 r) (r10 r) (r9 r) (r8 r) (rdi r) (rsi r) (rbp r) (rdx r) (rcx r) (rbx r) (rax r) (vector r) (error_code r) x (cs r) (rflags r) (rsp r) (ss r).
Definition set_cs (x : Z) (r : iframe_t) : iframe_t :=
  mk_iframe (r15 r) (r14 r) (r13 r) (r12 r) (r11 r) (r10 r) (r9 r) (r8 r) (rdi r) (rsi r) (rbp r) (rdx r) (rcx r) (rbx r) (rax r) (vector r) (error_code r) (rip r) x (rflags r) (rsp r) (ss r).
Definition set_rflags (x : Z) (r : iframe_t) : iframe_t :=
  mk_iframe (r15 r) (r14 r) (r13 r) (r12 r) (r11 r) (r10 r) (r9 r) (r8 r) (rdi r) (rsi r) (rbp r) (rdx r) (rcx r) (rbx r) (rax r) (vector r) (error_code r) (rip r) (cs r) x (rsp r) (ss r).
Definition set_rsp (x : Z) (r : iframe_t) : iframe_t :=
  mk_iframe (r15 r) (r14 r) (r13 r) (r12 r) (r11 r) (r10 r) (r9 r) (r8 r) (rdi r) (rsi r) (rbp r) (rdx r) (rcx r) (rbx r) (rax r) (vector r) (error_code r) (rip r) (cs r) (rflags r) x (ss r).
Definition set_ss (x : Z) (r : iframe_t) : iframe_t :=
  mk_iframe (r15 r) (r14 r) (r13 r) (r12 r) (r11 r) (r10 r) (r9 r) (r8 r) (rdi r) (rsi r) (rbp r) (rdx r) (rcx r) (rbx r) (rax r) (vector r) (error_code r) (rip r) (cs r) (rflags r) (rsp r) x.
Definition zero_iframe : iframe_t := mk_iframe 0 0 0 0 0 0 0 0 0 0 0 0 0 0 0 0 0 0 0 0 0 0.

(** ** Tasks *)

Inductive process_state_t :=
| STATE_READY | STATE_ZOMBIE | STATE_RUNNING | STATE_BLOCKED | STATE_DELETED | STATE_STOPPED.
Inductive block_reason_t := BLOCK_NONE | BLOCK_DELAY | BLOCK_WAITPID.
#[global] Instance process_state_eq_dec : EqDecision process_state_t.
Proof. solve_decision. Defined.
#[global] Instance block_reason_eq_dec : EqDecision block_reason_t.
Proof. solve_decision. Defined.

(** An entry of a descriptor table: the index of an open file (NULL is [None]). *)
Record fd_t := mk_fd {
  fd : option Z;
  fd_flags : Z;
}.
Definition no_fd : fd_t := mk_fd None 0.

(** The FPU area of a task is a list of bytes. *)
Record context_t := mk_context {
  iframe : iframe_t;
  fpu_state : list Z;
}.
Definition set_iframe (x : iframe_t) (r : context_t) : context_t :=
  mk_context x (fpu_state r).
Definition set_fpu_state (x : list Z) (r : context_t) : context_t :=
  mk_context (iframe r) x.
Record ids_t := mk_ids {
  pid : Z;
  pgid : Z;
  sid : Z;
}.
Definition set_pid (x : Z) (r : ids_t) : ids_t :=
  mk_ids x (pgid r) (sid r).
Definition set_pgid (x : Z) (r : ids_t) : ids_t :=
  mk_ids (pid r) x (sid r).
Definition set_sid (x : Z) (r : ids_t) : ids_t :=
  mk_ids (pid r) (pgid r) x.
Record image_t := mk_image {
  cr3 : Z;
  initial_brk : Z;
  brk : Z;
  t_wd : list Z;
  is_kworker : bool;
  time_slice : Z;
}.
Definition set_cr3 (x : Z) (r : image_t) : image_t :=
  mk_image x (initial_brk r) (brk r) (t_wd r) (is_kworker r) (time_slice r).
Definition set_initial_brk (x : Z) (r : image_t) : image_t :=
  mk_image (cr3 r) x (brk r) (t_wd r) (is_kworker r) (time_slice r).
Definition set_brk (x : Z) (r : image_t) : image_t :=
  mk_image (cr3 r) (initial_brk r) x (t_wd r) (is_kworker r) (time_slice r).
Definition set_t_wd (x : list Z) (r : image_t) : image_t :=
  mk_image (cr3 r) (initial_brk r) (brk r) x (is_kworker r) (time_slice r).
Definition set_is_kworker (x : bool) (r : image_t) : image_t :=
  mk_image (cr3 r) (initial_brk r) (brk r) (t_wd r) x (time_slice r).
Definition set_time_slice (x : Z) (r : image_t) : image_t :=
  mk_image (cr3 r) (initial_brk r) (brk r) (t_wd r) (is_kworker r) x.
Record signals_t := mk_signals {
  in_signal : bool;
  pending_signals : Z;
  signal_mask : Z;
  signal_handlers : gmap Z Z;
  signal_interrupted_iframe : iframe_t;
  signal_interrupted_fpu_state : list Z;
}.
Definition set_in_signal (x : bool) (r : signals_t) : signals_t :=
  mk_signals x (pending_signals r) (signal_mask r) (signal_handlers r) (signal_interrupted_iframe r) (signal_interrupted_fpu_state r).
Definition set_pending_signals (x : Z) (r : signals_t) : signals_t :=
  mk_signals (in_signal r) x (signal_mask r) (signal_handlers r) (signal_interrupted_iframe r) (signal_interrupted_fpu_state r).
Definition set_signal_mask (x : Z) (r : signals_t) : signals_t :=
  mk_signals (in_signal r) (pending_signals r) x (signal_handlers r) (signal_interrupted_iframe r) (signal_interrupted_fpu_state r).
Definition set_signal_handlers (x : gmap Z Z) (r : signals_t) : signals_t :=
  mk_signals (in_signal r) (pending_signals r) (signal_mask r) x (signal_interrupted_iframe r) (signal_interrupted_fpu_state r).
Definition set_signal_interrupted_iframe (x : iframe_t) (r : signals_t) : signals_t :=
  mk_signals (in_signal r) (pending_signals r) (signal_mask r) (signal_handlers r) x (signal_interrupted_fpu_state r).
Definition set_signal_interrupted_fpu_state (x : list Z) (r : signals_t) : signals_t :=
  mk_signals (in_signal r) (pending_signals r) (signal_mask r) (signal_handlers r) (signal_interrupted_iframe r) x.
Record wait_t := mk_wait {
  block_reason : block_reason_t;
  blocked_ticks : Z;
  wstatus : Z;
  blocked_process : Z;
  waitpid_flags : Z;
}.
Definition set_block_reason (x : block_reason_t) (r : wait_t) : wait_t :=
  mk_wait x (blocked_ticks r) (wstatus r) (blocked_process r) (waitpid_flags r).
Definition set_blocked_ticks (x : Z) (r : wait_t) : wait_t :=
  mk_wait (block_reason r) x (wstatus r) (blocked_process r) (waitpid_flags r).
Definition set_wstatus (x : Z) (r : wait_t) : wait_t :=
  mk_wait (block_reason r) (blocked_ticks r) x (blocked_process r) (waitpid_flags r).
Definition set_blocked_process (x : Z) (r : wait_t) : wait_t :=
  mk_wait (block_reason r) (blocked_ticks r) (wstatus r) x (waitpid_flags r).
Definition set_waitpid_flags (x : Z) (r : wait_t) : wait_t :=
  mk_wait (block_reason r) (blocked_ticks r) (wstatus r) (blocked_process r) x.
Record status_t := mk_status {
  waitpid_event : Z;
  return_code : Z;
  stop_signal : Z;
}.
Definition set_waitpid_event (x : Z) (r : status_t) : status_t :=
  mk_status x (return_code r) (stop_signal r).
Definition set_return_code (x : Z) (r : status_t) : status_t :=
  mk_status (waitpid_event r) x (stop_signal r).
Definition set_stop_signal (x : Z) (r : status_t) : status_t :=
  mk_status (waitpid_event r) (return_code r) x.
Record links_t := mk_links {
  next : Z;
  next_sibling : Z;
  parent : Z;
  child : Z;
}.
Definition set_next (x : Z) (r : links_t) : links_t :=
  mk_links x (next_sibling r) (parent r) (child r).
Definition set_next_sibling (x : Z) (r : links_t) : links_t :=
  mk_links (next r) x (parent r) (child r).
Definition set_parent (x : Z) (r : links_t) : links_t :=
  mk_links (next r) (next_sibling r) x (child r).
Definition set_child (x : Z) (r : links_t) : links_t :=
  mk_links (next r) (next_sibling r) (parent r) x.
Record task_t := mk_task {
  state : process_state_t;
  context : context_t;
  ids : ids_t;
  image : image_t;
  signals : signals_t;
  wait : wait_t;
  status : status_t;
  links : links_t;
  fd_table : gmap Z fd_t;
}.
Definition set_state (x : process_state_t) (r : task_t) : task_t :=
  mk_task x (context r) (ids r) (image r) (signals r) (wait r) (status r) (links r) (fd_table r).
Definition set_context (x : context_t) (r : task_t) : task_t :=
  mk_task (state r) x (ids r) (image r) (signals r) (wait r) (status r) (links r) (fd_table r).
Definition set_ids (x : ids_t) (r : task_t) : task_t :=
  mk_task (state r) (context r) x (image r) (signals r) (wait r) (status r) (links r) (fd_table r).
Definition set_image (x : image_t) (r : task_t) : task_t :=
  mk_task (state r) (context r) (ids r) x (signals r) (wait r) (status r) (links r) (fd_table r).
Definition set_signals (x : signals_t) (r : task_t) : task_t :=
  mk_task (state r) (context r) (ids r) (image r) x (wait r) (status r) (links r) (fd_table r).
Definition set_wait (x : wait_t) (r : task_t) : task_t :=
  mk_task (state r) (context r) (ids r) (image r) (signals r) x (status r) (links r) (fd_table r).
Definition set_status (x : status_t) (r : task_t) : task_t :=
  mk_task (state r) (context r) (ids r) (image r) (signals r) (wait r) x (links r) (fd_table r).
Definition set_links (x : links_t) (r : task_t) : task_t :=
  mk_task (state r) (context r) (ids r) (image r) (signals r) (wait r) (status r) x (fd_table r).
Definition set_fd_table (x : gmap Z fd_t) (r : task_t) : task_t :=
  mk_task (state r) (context r) (ids r) (image r) (signals r) (wait r) (status r) (links r) x.

(** ** Open files *)

Definition FD_TYPE_FILE : Z := 0.
Definition FD_TYPE_DIR : Z := 1.
Definition FD_TYPE_SOCKET : Z := 2.
Definition FD_TYPE_PIPE : Z := 3.

Record file_description_t := mk_fdesc {
  file_handle : file_handle_t;
  sock : Z;
  pipe_ptr : Z;
  ftype : Z;
  offset : Z;
  flags : Z;
  refcount : Z;
}.
Definition set_file_handle (x : file_handle_t) (r : file_description_t) : file_description_t :=
  mk_fdesc x (sock r) (pipe_ptr r) (ftype r) (offset r) (flags r) (refcount r).
Definition set_sock (x : Z) (r : file_description_t) : file_description_t :=
  mk_fdesc (file_handle r) x (pipe_ptr r) (ftype r) (offset r) (flags r) (refcount r).
Definition set_pipe_ptr (x : Z) (r : file_description_t) : file_description_t :=
  mk_fdesc (file_handle r) (sock r) x (ftype r) (offset r) (flags r) (refcount r).
Definition set_ftype (x : Z) (r : file_description_t) : file_description_t :=
  mk_fdesc (file_handle r) (sock r) (pipe_ptr r) x (offset r) (flags r) (refcount r).
Definition set_offset (x : Z) (r : file_description_t) : file_description_t :=
  mk_fdesc (file_handle r) (sock r) (pipe_ptr r) (ftype r) x (flags r) (refcount r).
Definition set_flags (x : Z) (r : file_description_t) : file_description_t :=
  mk_fdesc (file_handle r) (sock r) (pipe_ptr r) (ftype r) (offset r) x (refcount r).
Definition set_refcount (x : Z) (r : file_description_t) : file_description_t :=
  mk_fdesc (file_handle r) (sock r) (pipe_ptr r) (ftype r) (offset r) (flags r) x.
Definition zero_description : file_description_t := mk_fdesc (mk_file_handle 0 0) NULL NULL 0 0 0 0.

(** ** The kernel *)

Record kernel (FS N : Type) := mk_kernel {
  tasks : gmap Z task_t;
  current_task : Z;
  rr_task : Z;
  last_pid : Z;
  ticks_remaining : Z;
  base_pml4 : Z;
  scheduler_initialized : bool;
  fpu : list Z;
  file_descriptions : gmap Z file_description_t;
  pipes : gmap Z pipe_t;
  sockets : gmap Z socket_t;
  next_object : Z;
  tables : paging;
  files : vfs FS;
  network : net N;
}.
Arguments mk_kernel {_ _}. Arguments tasks {_ _}. Arguments current_task {_ _}. Arguments rr_task {_ _}. Arguments last_pid {_ _}. Arguments ticks_remaining {_ _}. Arguments base_pml4 {_ _}. Arguments scheduler_initialized {_ _}. Arguments fpu {_ _}. Arguments file_descriptions {_ _}. Arguments pipes {_ _}. Arguments sockets {_ _}. Arguments next_object {_ _}. Arguments tables {_ _}. Arguments files {_ _}. Arguments network {_ _}.

Section kernel.
Context {FS N : Type}.
#[local] Notation kernel := (kernel FS N).

Definition set_tasks (x : gmap Z task_t) (s : kernel) : kernel :=
  mk_kernel x (current_task s) (rr_task s) (last_pid s) (ticks_remaining s) (base_pml4 s) (scheduler_initialized s) (fpu s) (file_descriptions s) (pipes s) (sockets s) (next_object s) (tables s) (files s) (network s).
Definition set_current_task (x : Z) (s : kernel) : kernel :=
  mk_kernel (tasks s) x (rr_task s) (last_pid s) (ticks_remaining s) (base_pml4 s) (scheduler_initialized s) (fpu s) (file_descriptions s) (pipes s) (sockets s) (next_object s) (tables s) (files s) (network s).
Definition set_rr_task (x : Z) (s : kernel) : kernel :=
  mk_kernel (tasks s) (current_task s) x (last_pid s) (ticks_remaining s) (base_pml4 s) (scheduler_initialized s) (fpu s) (file_descriptions s) (pipes s) (sockets s) (next_object s) (tables s) (files s) (network s).
Definition set_last_pid (x : Z) (s : kernel) : kernel :=
  mk_kernel (tasks s) (current_task s) (rr_task s) x (ticks_remaining s) (base_pml4 s) (scheduler_initialized s) (fpu s) (file_descriptions s) (pipes s) (sockets s) (next_object s) (tables s) (files s) (network s).
Definition set_ticks_remaining (x : Z) (s : kernel) : kernel :=
  mk_kernel (tasks s) (current_task s) (rr_task s) (last_pid s) x (base_pml4 s) (scheduler_initialized s) (fpu s) (file_descriptions s) (pipes s) (sockets s) (next_object s) (tables s) (files s) (network s).
Definition set_fpu (x : list Z) (s : kernel) : kernel :=
  mk_kernel (tasks s) (current_task s) (rr_task s) (last_pid s) (ticks_remaining s) (base_pml4 s) (scheduler_initialized s) x (file_descriptions s) (pipes s) (sockets s) (next_object s) (tables s) (files s) (network s).
Definition set_file_descriptions (x : gmap Z file_description_t) (s : kernel) : kernel :=
  mk_kernel (tasks s) (current_task s) (rr_task s) (last_pid s) (ticks_remaining s) (base_pml4 s) (scheduler_initialized s) (fpu s) x (pipes s) (sockets s) (next_object s) (tables s) (files s) (network s).
Definition set_pipes (x : gmap Z pipe_t) (s : kernel) : kernel :=
  mk_kernel (tasks s) (current_task s) (rr_task s) (last_pid s) (ticks_remaining s) (base_pml4 s) (scheduler_initialized s) (fpu s) (file_descriptions s) x (sockets s) (next_object s) (tables s) (files s) (network s).
Definition set_sockets (x : gmap Z socket_t) (s : kernel) : kernel :=
  mk_kernel (tasks s) (current_task s) (rr_task s) (last_pid s) (ticks_remaining s) (base_pml4 s) (scheduler_initialized s) (fpu s) (file_descriptions s) (pipes s) x (next_object s) (tables s) (files s) (network s).
Definition set_next_object (x : Z) (s : kernel) : kernel :=
  mk_kernel (tasks s) (current_task s) (rr_task s) (last_pid s) (ticks_remaining s) (base_pml4 s) (scheduler_initialized s) (fpu s) (file_descriptions s) (pipes s) (sockets s) x (tables s) (files s) (network s).
Definition set_tables (x : paging) (s : kernel) : kernel :=
  mk_kernel (tasks s) (current_task s) (rr_task s) (last_pid s) (ticks_remaining s) (base_pml4 s) (scheduler_initialized s) (fpu s) (file_descriptions s) (pipes s) (sockets s) (next_object s) x (files s) (network s).
Definition set_files (x : vfs FS) (s : kernel) : kernel :=
  mk_kernel (tasks s) (current_task s) (rr_task s) (last_pid s) (ticks_remaining s) (base_pml4 s) (scheduler_initialized s) (fpu s) (file_descriptions s) (pipes s) (sockets s) (next_object s) (tables s) x (network s).
Definition set_network (x : net N) (s : kernel) : kernel :=
  mk_kernel (tasks s) (current_task s) (rr_task s) (last_pid s) (ticks_remaining s) (base_pml4 s) (scheduler_initialized s) (fpu s) (file_descriptions s) (pipes s) (sockets s) (next_object s) (tables s) (files s) x.

(** Work of another component on its part of the state. *)
Definition lift_tables {A} (m : K paging A) : K kernel A := λ s,
  match m (tables s) with
  | Done (a, p) => Done (a, set_tables p s)
  | Panic => Panic
  | Fault => Fault
  | OutOfFuel => OutOfFuel
  end.
Definition lift_net {A} (m : K (net N) A) : K kernel A := λ s,
  match m (network s) with
  | Done (a, n) => Done (a, set_network n s)
  | Panic => Panic
  | Fault => Fault
  | OutOfFuel => OutOfFuel
  end.

(** ** User memory

    Reading and writing at a user address in kernel mode: an address without a
    page is a page fault in the kernel, which panics; a page that is not
    writable faults too (CR0.WP is set), and interrupt_handler first tries
    cow_handler. *)
Definition leaf_entry (s : paging) (va : Z) : option Z :=
  let e := get_page_entry va in
  pdpt ← next_table s (pml4_physical s) (pml4_index e);
  pd ← next_table s pdpt (pdpt_index e);
  pt ← next_table s pd (pd_index e);
  let pte := entry s pt (pt_index e) in
  if has pte FLAGS_PRESENT then Some pte else None.
Definition poke_byte (va v : Z) : K paging unit :=
  s ← kget;
  match leaf_entry s va with
  | None => kpanic
  | Some pte =>
    (if has pte FLAGS_RW then mret tt
     else r ← cow_handler (Z.land va PAGE_MASK); if r =? 0 then kpanic else mret tt);;
    Break.store_byte va v
  end.
Fixpoint poke (n : nat) (va v : Z) : K paging unit :=
  match n with
  | O => mret tt
  | S n => poke_byte va (Z.land v 0xFF);; poke n (u64 (va + 1)) (Z.shiftr v 8)
  end.
Fixpoint peek (n : nat) (va : Z) : K paging Z :=
  match n with
  | O => mret 0
  | S n =>
    s ← kget;
    match byte_at s va with
    | None => kpanic
    | Some b => v ← peek n (u64 (va + 1)); mret (b + Z.shiftl v 8)
    end
  end.

(** A task through its pointer, and an update of one of its fields. *)
Definition task (p : Z) : K kernel task_t := s ← kget; kopt (tasks s !! p).
Definition update_task (p : Z) (f : task_t → task_t) : K kernel unit :=
  t ← task p; kmodify (λ s, set_tasks (<[p := f t]> (tasks s)) s).
Definition current : K kernel task_t := s ← kget; task (current_task s).
Definition update_current (f : task_t → task_t) : K kernel unit :=
  s ← kget; update_task (current_task s) f.

(** The file system works in the current directory of the current task. *)
Definition lift_vfs {A} (m : K (vfs FS) A) : K kernel A :=
  t ← current;
  a ← (λ s,
    match m (set_wd (t_wd (image t)) (files s)) with
    | Done (a, v) => Done (a, set_files v s)
    | Panic => Panic
    | Fault => Fault
    | OutOfFuel => OutOfFuel
    end);
  s ← kget;
  update_current (λ t, set_image (set_t_wd (wd (files s)) (image t)) t);;
  mret a.

Definition new_object : K kernel Z :=
  s ← kget; kmodify (set_next_object (next_object s + 1));; mret (next_object s).

(** [task = &init_task; do { body; task = task->next; } while (task != &init_task);]
    The loop ends when [body] returns a value; it visits each task once, so the
    number of tasks bounds it. *)
Fixpoint ring_loop {A} (fuel : nat) (p : Z) (body : Z → A → K kernel A) (stop : A → bool) (a : A)
    : K kernel A :=
  match fuel with
  | O => kfuel
  | S fuel =>
    a ← body p a;
    if stop a then mret a
    else
      t ← task p;
      if next (links t) =? INIT_TASK then mret a
      else ring_loop fuel (next (links t)) body stop a
  end.
Definition for_tasks {A} (body : Z → A → K kernel A) (stop : A → bool) (a : A) : K kernel A :=
  s ← kget; ring_loop (size (tasks s)) INIT_TASK body stop a.

End kernel.
