(* ===== verification/Signal.v ===== *)
(** * Signals

    The signal part of usermode/scheduler.c: has_pending_signals,
    deliver_signals, sigprocmask, sigaction, kill and raise.  deliver_signals
    ends a task through exit(), which lies further down in the source and is an
    argument here; Sched.v closes the loop. *)

From S2P Require Import Prelude Paging Vfs Pipe Net Udp Task.

Definition SIG_DFL : Z := 0.
Definition SIG_IGN : Z := 1.
Definition SIG_BLOCK : Z := 0.
Definition SIG_UNBLOCK : Z := 1.
Definition SIG_SETMASK : Z := 2.
Definition SIGKILL : Z := 9.
Definition SIGSEGV : Z := 11.
Definition SIGPIPE : Z := 13.
Definition SIGCHLD : Z := 17.
Definition SIGCONT : Z := 18.
Definition SIGSTOP : Z := 19.

Inductive signal_action_t := SIGNAL_IGNORE | SIGNAL_TERMINATE | SIGNAL_STOP.
#[global] Instance signal_action_eq_dec : EqDecision signal_action_t.
Proof. solve_decision. Defined.

Definition default_actions : list signal_action_t :=
  [SIGNAL_IGNORE] ++ replicate 16 SIGNAL_TERMINATE (* SIGHUP to SIGSTKFLT *)
  ++ [SIGNAL_IGNORE; SIGNAL_IGNORE] (* SIGCHLD, SIGCONT *)
  ++ replicate 4 SIGNAL_STOP (* SIGSTOP to SIGTTOU *)
  ++ [SIGNAL_IGNORE] (* SIGURG *)
  ++ replicate 4 SIGNAL_TERMINATE (* SIGXCPU to SIGPROF *)
  ++ [SIGNAL_IGNORE] (* SIGWINCH *)
  ++ replicate 3 SIGNAL_TERMINATE. (* SIGIO to SIGSYS *)
Definition signal_default_actions (sig : Z) : signal_action_t :=
  nth (Z.to_nat sig) default_actions SIGNAL_IGNORE.

Definition bit (i : Z) : Z := Z.shiftl 1 i.
Definition handler (t : task_t) (sig : Z) : Z := default SIG_DFL (signal_handlers (signals t) !! sig).
Definition deliverable (t : task_t) : Z :=
  Z.land (pending_signals (signals t)) (Z.lnot (signal_mask (signals t))).
Definition with_signals (f : signals_t → signals_t) (t : task_t) : task_t := set_signals (f (signals t)) t.
Definition with_context (f : context_t → context_t) (t : task_t) : task_t := set_context (f (context t)) t.
Definition with_iframe (f : iframe_t → iframe_t) : task_t → task_t :=
  with_context (λ c, set_iframe (f (iframe c)) c).
Definition with_wait (f : wait_t → wait_t) (t : task_t) : task_t := set_wait (f (wait t)) t.
Definition with_status (f : status_t → status_t) (t : task_t) : task_t := set_status (f (status t)) t.
Definition with_links (f : links_t → links_t) (t : task_t) : task_t := set_links (f (links t)) t.
(** [pending_signals |= 1 << i] and [&= ~(1 << i)] *)
Definition add_pending (i : Z) : task_t → task_t :=
  with_signals (λ g, set_pending_signals (Z.lor (pending_signals g) (bit i)) g).
Definition drop_pending (i : Z) : task_t → task_t :=
  with_signals (λ g, set_pending_signals (Z.land (pending_signals g) (Z.lnot (bit i))) g).

Fixpoint pending_loop (n : nat) (i : Z) (t : task_t) : bool :=
  match n with
  | O => false
  | S n =>
    if Z.land (deliverable t) (bit i) =? 0 then pending_loop n (i + 1) t
    else if handler t (i + 1) =? SIG_IGN then pending_loop n (i + 1) t
    else if (handler t (i + 1) =? SIG_DFL)
         && bool_decide (signal_default_actions (i + 1) = SIGNAL_IGNORE)
    then pending_loop n (i + 1) t
    else true
  end.
Definition has_pending_signals (t : task_t) : bool :=
  if in_signal (signals t) then false
  else if deliverable t =? 0 then false
  else pending_loop 31 0 t.

(** The page after the user stack holds the signal trampoline at offset 16. *)
Definition USER_STACK : Z := 0x10000000000.
Definition VVAR_ADDR : Z := USER_STACK + 4096 * 128.
Definition TRAMPOLINE : Z := VVAR_ADDR + 16.

Section signal.
Context {FS N : Type}.
#[local] Notation kernel := (kernel FS N).

(** ** Delivery *)

(** Make the current task run a handler when it returns to user mode. *)
Definition call_handler (sig h : Z) : K kernel unit :=
  update_current (λ t, with_signals (λ g,
    set_signal_interrupted_fpu_state (fpu_state (context t))
      (set_signal_interrupted_iframe (iframe (context t)) g)) t);;
  update_current (with_iframe (λ f,
    set_rsp (u64 (Z.land (rsp f) (Z.lnot 15) - 8)) (set_rdi sig (set_rip h f))));;
  t ← current;
  lift_tables (poke 8 (rsp (iframe (context t))) TRAMPOLINE);;
  update_current (with_signals (set_in_signal true)).

(** Signals [i + 1] on, of those in [d]; true when the task ended. *)
Fixpoint deliver_loop (exit : Z → K kernel unit) (n : nat) (i d : Z) : K kernel bool :=
  match n with
  | O => mret false
  | S n =>
    if Z.land d (bit i) =? 0 then deliver_loop exit n (i + 1) d
    else
      update_current (drop_pending i);;
      t ← current;
      let h := handler t (i + 1) in
      if h =? SIG_DFL then
        if bool_decide (signal_default_actions (i + 1) = SIGNAL_TERMINATE) then
          exit (- i - 1);; mret true
        else deliver_loop exit n (i + 1) d
      else if h =? SIG_IGN then deliver_loop exit n (i + 1) d
      else if negb (cs (iframe (context t)) =? USER_CS) then
        update_current (add_pending i);;
        deliver_loop exit n (i + 1) d
      else
        call_handler (i + 1) h;;
        deliver_loop exit n (i + 1) d
  end.
Definition deliver_signals_with (exit : Z → K kernel unit) : K kernel bool :=
  t ← current;
  if deliverable t =? 0 then mret false
  else if in_signal (signals t) then mret false
  else deliver_loop exit 31 0 (deliverable t).

(** ** Masks and handlers *)

Definition new_signal_mask (how mask set : Z) : option Z :=
  (λ new, Z.land new (Z.lnot (Z.lor (bit (SIGSTOP - 1)) (bit (SIGKILL - 1))))) <$>
  (if how =? SIG_BLOCK then Some (Z.lor mask set)
   else if how =? SIG_UNBLOCK then Some (Z.land mask (Z.lnot set))
   else if how =? SIG_SETMASK then Some set
   else None).
(** [set] and [oldset] are user pointers. *)
Definition sigprocmask (how set oldset : Z) : K kernel Z :=
  t ← current;
  (if oldset =? NULL then mret tt
   else lift_tables (poke 4 oldset (signal_mask (signals t))));;
  if set =? NULL then mret 0
  else
    v ← lift_tables (peek 4 set);
    match new_signal_mask how (signal_mask (signals t)) v with
    | None => mret (- EINVAL)
    | Some m => update_current (with_signals (set_signal_mask m));; mret 0
    end.

Definition sigaction (sig new old : Z) : K kernel Z :=
  if (sig <? 1) || (31 <? sig) then mret (- EINVAL)
  else if (sig =? SIGSTOP) || (sig =? SIGKILL) then mret (- EPERM)
  else
    t ← current;
    (if old =? NULL then mret tt else lift_tables (poke 8 old (handler t sig)));;
    if new =? NULL then mret 0
    else
      h ← lift_tables (peek 8 new);
      update_current (with_signals (λ g, set_signal_handlers (<[sig := h]> (signal_handlers g)) g));;
      mret 0.

(** ** Sending *)

Definition notify_parent (p : Z) : K kernel unit :=
  t ← task p;
  if parent (links t) =? NULL then mret tt
  else update_task (parent (links t)) (add_pending (SIGCHLD - 1)).

Definition signal_task (p sig : Z) : K kernel unit :=
  update_task p (add_pending (sig - 1));;
  t ← task p;
  (if bool_decide (signal_default_actions sig = SIGNAL_STOP) && (handler t sig =? SIG_DFL)
      && bool_decide (state t ≠ STATE_STOPPED)
   then
     update_task p (λ t, with_status (λ u, set_waitpid_event 1 (set_stop_signal sig u))
       (drop_pending (sig - 1) (set_state STATE_STOPPED t)));;
     notify_parent p
   else mret tt);;
  t ← task p;
  if (sig =? SIGCONT) && bool_decide (state t = STATE_STOPPED) then
    update_task p (λ t, with_status (set_waitpid_event 2) (set_state STATE_READY t));;
    notify_parent p
  else mret tt.

(** Signal the tasks that [p] selects, if they are not deleted. *)
Definition signal_matching (p : Z → task_t → bool) (sig : Z) : K kernel bool :=
  for_tasks (λ q found,
    t ← task q;
    if p q t && bool_decide (state t ≠ STATE_DELETED)
    then signal_task q sig;; mret true
    else mret found) (λ _, false) false.
(** The tasks that a signal to [k] is for; [cur] is the current task. *)
Definition selects (k cur : Z) (tcur : task_t) (q : Z) (t : task_t) : bool :=
  if 0 <? k then pid (ids t) =? k
  else if k =? 0 then pgid (ids t) =? pgid (ids tcur)
  else if k =? -1 then negb (q =? INIT_TASK) && negb (q =? cur)
  else pgid (ids t) =? s32 (- k).
Definition kill (k sig : Z) : K kernel Z :=
  if (sig <? 1) || (31 <? sig) then mret (- EINVAL)
  else
    s ← kget;
    t ← current;
    found ← signal_matching (selects k (current_task s) t) sig;
    mret (if (found : bool) then 0 else - ESRCH).
Definition raise (sig : Z) : K kernel Z :=
  if (sig <? 1) || (31 <? sig) then mret (- EINVAL)
  else s ← kget; signal_task (current_task s) sig;; mret 0.

End signal.
