(* ===== verification/Tty.v ===== *)
(** * kernel/drivers/tty.c: terminals

    A terminal edits the characters it receives into lines, echoes them and keeps
    finished lines in a ring buffer until they are read.  A char is its byte; [D] is
    what terminals act on besides their own state: the screen or the serial line
    behind [echo] and [write], and the tasks. *)

From S2P Require Import Prelude Paging Vfs Block Task Signal.

Definition ICRNL : Z := 0x1.
Definition ISTRIP : Z := 0x2.
Definition OPOST : Z := 0x1.
Definition ONLCR : Z := 0x2.
Definition OCRNL : Z := 0x4.
Definition ICANON : Z := 0x1.
Definition ECHO : Z := 0x2.
Definition ECHOE : Z := 0x4.
Definition ECHOCTL : Z := 0x8.
Definition ISIG : Z := 0x10.
Definition MAX_TTYS : Z := 256.
Definition TCGETS : Z := 1.
Definition TCSETS : Z := 2.
Definition TCGETPGRP : Z := 10.
Definition TCSETPGRP : Z := 11.
Definition SIGINT : Z := 2.
Definition SIGTSTP : Z := 20.

Record termios_t := mk_termios {
  c_iflag : Z;
  c_oflag : Z;
  c_lflag : Z;
}.
Definition TERMIOS_SIZE : Z := 24.

Definition READ_BUFFER : Z := 4096.
Definition LINE_BUFFER : Z := 1024.

Record tty_t (D : Type) := mk_tty {
  termios : termios_t;
  tty_data : Z;
  echo : Z → list Z → K D Z;
  write : Z → list Z → K D Z;
  read_buffer : list Z;
  read_head : Z;
  write_head : Z;
  line_buffer : list Z;
  line_index : Z;
  foreground_pgid : Z;
  eof : bool;
  tty_name : option (list Z);
}.
Arguments mk_tty {_}. Arguments termios {_}. Arguments tty_data {_}. Arguments echo {_}. Arguments write {_}.
Arguments read_buffer {_}. Arguments read_head {_}. Arguments write_head {_}. Arguments line_buffer {_}.
Arguments line_index {_}. Arguments foreground_pgid {_}. Arguments eof {_}. Arguments tty_name {_}.

Record terminals (D : Type) := mk_terminals {
  ttys : list (tty_t D);
  tty_driver_index : Z;
  host : D;
}.
Arguments mk_terminals {_}. Arguments ttys {_}. Arguments tty_driver_index {_}. Arguments host {_}.

(** What terminals call in the rest of the kernel. *)
Class TtyHost (D : Type) := {
  host_kill : Z → Z → K D Z;
  host_memory : ∀ A, K paging A → K D A;
  host_mknod : list Z → Z → Z → K D Z;
}.
Arguments host_memory {_ _ _} _.

Definition is_printable (c : Z) : bool := (0x20 <=? c) && (c <=? 0x7E).
Definition is_erase (c : Z) : bool := (c =? 8) || (c =? 0x7f).

(** Element [i] of an array in C. *)
Definition store_at {A} (i : Z) (x : A) (l : list A) : option (list A) :=
  if (0 <=? i) && (i <? zlen l) then Some (<[Z.to_nat i := x]> l) else None.

Section tty.
Context {D : Type} `{!TtyHost D}.
#[local] Notation tty_t := (tty_t D).
#[local] Notation terminals := (terminals D).
Implicit Types t : tty_t.

Definition set_termios x t : tty_t := mk_tty x (tty_data t) (echo t) (write t) (read_buffer t) (read_head t) (write_head t) (line_buffer t) (line_index t) (foreground_pgid t) (eof t) (tty_name t).
Definition set_read_buffer x t : tty_t := mk_tty (termios t) (tty_data t) (echo t) (write t) x (read_head t) (write_head t) (line_buffer t) (line_index t) (foreground_pgid t) (eof t) (tty_name t).
Definition set_read_head x t : tty_t := mk_tty (termios t) (tty_data t) (echo t) (write t) (read_buffer t) x (write_head t) (line_buffer t) (line_index t) (foreground_pgid t) (eof t) (tty_name t).
Definition set_write_head x t : tty_t := mk_tty (termios t) (tty_data t) (echo t) (write t) (read_buffer t) (read_head t) x (line_buffer t) (line_index t) (foreground_pgid t) (eof t) (tty_name t).
Definition set_line_buffer x t : tty_t := mk_tty (termios t) (tty_data t) (echo t) (write t) (read_buffer t) (read_head t) (write_head t) x (line_index t) (foreground_pgid t) (eof t) (tty_name t).
Definition set_line_index x t : tty_t := mk_tty (termios t) (tty_data t) (echo t) (write t) (read_buffer t) (read_head t) (write_head t) (line_buffer t) x (foreground_pgid t) (eof t) (tty_name t).
Definition set_foreground_pgid x t : tty_t := mk_tty (termios t) (tty_data t) (echo t) (write t) (read_buffer t) (read_head t) (write_head t) (line_buffer t) (line_index t) x (eof t) (tty_name t).
Definition set_eof x t : tty_t := mk_tty (termios t) (tty_data t) (echo t) (write t) (read_buffer t) (read_head t) (write_head t) (line_buffer t) (line_index t) (foreground_pgid t) x (tty_name t).

Definition lift_host {A} (m : K D A) : K terminals A := λ s,
  match m (host s) with
  | Done (a, d) => Done (a, mk_terminals (ttys s) (tty_driver_index s) d)
  | Panic => Panic
  | Fault => Fault
  | OutOfFuel => OutOfFuel
  end.
Definition no_such_tty (tty_id : Z) : K terminals bool :=
  s ← kget; mret ((tty_id <? 0) || (zlen (ttys s) <=? tty_id)).
Definition tty (tty_id : Z) : K terminals tty_t := s ← kget; kopt (znth (ttys s) tty_id).
Definition put_tty (tty_id : Z) (t : tty_t) : K terminals unit :=
  kmodify (λ s, mk_terminals (<[Z.to_nat tty_id := t]> (ttys s)) (tty_driver_index s) (host s)).

(** ** Receiving *)

Definition map_input (tm : termios_t) (c : Z) : Z :=
  let c := if has (c_iflag tm) ISTRIP then Z.land c 127 else c in
  if has (c_iflag tm) ICRNL && (c =? 13) then 10 else c.
(** The answer is whether the character is not input. *)
Definition signal_chars (t : tty_t) (c : Z) : K D bool :=
  if has (c_lflag (termios t)) ISIG then
    if c =? 0x03 then
      (if 0 <? foreground_pgid t then host_kill (- foreground_pgid t) SIGINT;; mret tt else mret tt);; mret true
    else if c =? 0x1A then
      (if 0 <? foreground_pgid t then host_kill (- foreground_pgid t) SIGTSTP;; mret tt else mret tt);; mret true
    else mret false
  else mret false.
(** A character into the ring buffer, unless it is full. *)
Definition push_char (c : Z) (t : tty_t) : option (option tty_t) :=
  if (write_head t + 1) mod READ_BUFFER =? read_head t then Some None
  else
    b ← store_at (write_head t) c (read_buffer t);
    Some (Some (set_write_head ((write_head t + 1) mod READ_BUFFER) (set_read_buffer b t))).
(** The loop over the line, [n] characters from [i] on; the flag says that the
    function returns at once because the ring buffer is full. *)
Fixpoint flush_line (n : nat) (i : Z) (t : tty_t) : option (bool * tty_t) :=
  match n with
  | O => Some (false, t)
  | S n =>
    c ← znth (line_buffer t) i;
    r ← push_char c t;
    match r with
    | None => Some (true, t)
    | Some t => flush_line n (i + 1) t
    end
  end.

(** What becomes of a character: the function returns early ([None]), or it goes on
    to the echo, with whether a character was erased. *)
Definition end_of_file (t : tty_t) : option (option bool * tty_t) :=
  r ← flush_line (Z.to_nat (line_index t)) 0 t;
  let '(full, t) := r in
  if (full : bool) then Some (None, t)
  else
    let t := if line_index t =? 0 then set_eof true t else t in
    Some (Some false, set_line_index 0 t).
Definition edit_line (c : Z) (t : tty_t) : option (option bool * tty_t) :=
  if is_erase c then
    if 0 <? line_index t then Some (Some true, set_line_index (line_index t - 1) t) else Some (Some false, t)
  else if c =? 10 then
    b ← store_at (line_index t) c (line_buffer t);
    let t := set_line_index (line_index t + 1) (set_line_buffer b t) in
    r ← flush_line (Z.to_nat (line_index t)) 0 t;
    let '(full, t) := r in
    if (full : bool) then Some (None, t) else Some (Some false, set_line_index 0 t)
  else if 1022 <=? line_index t then Some (None, t)
  else
    b ← store_at (line_index t) c (line_buffer t);
    Some (Some false, set_line_index (line_index t + 1) (set_line_buffer b t)).
Definition raw_char (c : Z) (t : tty_t) : option (option bool * tty_t) :=
  r ← push_char c t;
  match r with
  | None => Some (None, t)
  | Some t => Some (Some false, t)
  end.
Definition take_char (skip_input : bool) (c : Z) (t : tty_t) : option (option bool * tty_t) :=
  let canon := has (c_lflag (termios t)) ICANON in
  if canon && (c =? 0x04) then end_of_file t
  else if canon && negb skip_input then edit_line c t
  else if negb skip_input then raw_char c t
  else Some (Some false, t).

(** [erased_char] is the character behind the end of the line. *)
Definition echo_char (t : tty_t) (erased : bool) (erased_char : option Z) (c : Z) : K D unit :=
  let lflag := c_lflag (termios t) in
  if has lflag ECHOE && has lflag ICANON && is_erase c then
    if erased then
      echo t (tty_data t) [8; 32; 8];;
      e ← kopt erased_char;
      if negb (is_printable e) then echo t (tty_data t) [8; 32; 8];; mret tt else mret tt
    else mret tt
  else if has lflag ECHO then
    if is_printable c || (c =? 10) then echo t (tty_data t) [c];; mret tt
    else echo t (tty_data t) [94; u8 (c + 0x40)];; mret tt
  else mret tt.
Definition tty_char_recv (tty_id c : Z) : K terminals unit :=
  none ← no_such_tty tty_id;
  if (none : bool) then mret tt
  else
    t ← tty tty_id;
    let c := map_input (termios t) c in
    skip_input ← lift_host (signal_chars t c);
    r ← kopt (take_char skip_input c t);
    let '(erased, t) := r in
    put_tty tty_id t;;
    match erased with
    | None => mret tt
    | Some erased => lift_host (echo_char t erased (znth (line_buffer t) (line_index t)) c)
    end.

(** ** Reading, writing, control *)

Fixpoint take_chars (fuel : nat) (left : Z) (t : tty_t) : option (list Z * tty_t) :=
  if left <=? 0 then Some ([], t)
  else if read_head t =? write_head t then Some ([], t)
  else match fuel with
  | O => None
  | S fuel =>
    c ← znth (read_buffer t) (read_head t);
    r ← take_chars fuel (left - 1) (set_read_head ((read_head t + 1) mod READ_BUFFER) t);
    Some (c :: fst r, snd r)
  end.
(** The ring buffer bounds the loop. *)
Definition tty_read (tty_id offset len : Z) : K terminals (Z * list Z) :=
  none ← no_such_tty tty_id;
  if (none : bool) then mret (- EINVAL, [])
  else
    t ← tty tty_id;
    if eof t && (read_head t =? write_head t) then put_tty tty_id (set_eof false t);; mret (0, [])
    else if read_head t =? write_head t then mret (- EAGAIN, [])
    else
      r ← kopt (take_chars (Z.to_nat READ_BUFFER) len t);
      put_tty tty_id (snd r);;
      mret (zlen (fst r), fst r).

(** The bytes that a character is written as. *)
Definition map_output (oflag c : Z) : list Z :=
  if has oflag ONLCR && (c =? 10) then [13; 10]
  else if has oflag OCRNL && (c =? 13) then [10]
  else [c].
Fixpoint write_chars (t : tty_t) (buffer : list Z) : K D unit :=
  match buffer with
  | [] => mret tt
  | c :: buffer => write t (tty_data t) (map_output (c_oflag (termios t)) c);; write_chars t buffer
  end.
(** The index of the loop is an int: with more characters it would overflow. *)
Definition tty_write (tty_id offset : Z) (buffer : list Z) : K terminals Z :=
  none ← no_such_tty tty_id;
  if (none : bool) then mret (- EINVAL)
  else
    t ← tty tty_id;
    if has (c_oflag (termios t)) OPOST then
      if INT_MAX <? zlen buffer then kfault
      else lift_host (write_chars t buffer);; mret (zlen buffer)
    else lift_host (write t (tty_data t) buffer).

Definition termios_word (tm : termios_t) : Z := c_iflag tm + Z.shiftl (c_oflag tm) 64 + Z.shiftl (c_lflag tm) 128.
Definition termios_of (w : Z) : termios_t :=
  mk_termios (w mod 2 ^ 64) (Z.shiftr w 64 mod 2 ^ 64) (Z.shiftr w 128 mod 2 ^ 64).
Definition tty_ioctl (tty_id request arg : Z) : K terminals Z :=
  none ← no_such_tty tty_id;
  if (none : bool) then mret (- EINVAL)
  else
    t ← tty tty_id;
    if request =? TCGETS then
      res ← lift_host (host_memory (validate_user_pointer arg TERMIOS_SIZE true));
      if res <? 0 then mret res
      else lift_host (host_memory (poke (Z.to_nat TERMIOS_SIZE) arg (termios_word (termios t))));; mret 0
    else if request =? TCSETS then
      res ← lift_host (host_memory (validate_user_pointer arg TERMIOS_SIZE false));
      if res <? 0 then mret res
      else if arg =? 0 then mret (- EINVAL)
      else
        w ← lift_host (host_memory (peek (Z.to_nat TERMIOS_SIZE) arg));
        put_tty tty_id (set_termios (termios_of w) t);; mret 0
    else if request =? TCGETPGRP then mret (foreground_pgid t)
    else if request =? TCSETPGRP then
      if s32 arg <? 0 then mret (- EINVAL)
      else put_tty tty_id (set_foreground_pgid (s32 arg) t);; mret 0
    else mret (- ENOTTY).

(** ** Registration *)

Definition tty_driver : char_driver_t terminals :=
  mk_char_driver terminals (Some tty_read) (Some tty_write) (Some tty_ioctl).
(** The driver table holds operations on the terminals, so it sits around them. *)
Definition tty_init : K (chr terminals) unit :=
  r ← register_char_driver tty_driver;
  lift_chr (kmodify (λ s, mk_terminals (ttys s) (if r <? 0 then 0 else r) (host s))).
Definition register_tty (t : option tty_t) : K terminals Z :=
  match t with
  | None => mret (- EINVAL)
  | Some t =>
    s ← kget;
    if MAX_TTYS <=? zlen (ttys s) then mret (- EINVAL)
    else
      kmodify (λ s, mk_terminals (ttys s ++ [t]) (tty_driver_index s) (host s));;
      (match tty_name t with
       | Some name =>
         if tty_driver_index s =? 0 then mret tt
         else
           lift_host (host_mknod name DT_CHAR (makedev (tty_driver_index s) (zlen (ttys s))));; mret tt
       | None => mret tt
       end);;
      mret (zlen (ttys s))
  end.
End tty.

(** The kernel as the host of terminals. *)
#[export] Instance kernel_host {FS N} (devfs_mknod : list Z → Z → Z → K (kernel FS N) Z) : TtyHost (kernel FS N) :=
  {| host_kill := kill; host_memory := λ A, lift_tables; host_mknod := devfs_mknod |}.
