(* ===== verification/TtyLine.v ===== *)
(** * Terminals edit lines and queue them

    The ring buffer of a terminal is a queue and its line buffer a list: the
    operations of Tty.v refine an editor on lists, with an input, echo and output of
    its own. *)

From S2P Require Import Prelude Paging Vfs Block Task Signal Tty.

Lemma znth_Some_lt {A} (l : list A) i : 0 ≤ i < zlen l → ∃ x, znth l i = Some x.
Proof.
  intros Hi. unfold znth, zlen in *. rewrite (proj2 (Z.ltb_ge _ _)) by lia.
  destruct (lookup_lt_is_Some_2 l (Z.to_nat i)) as [x E]; [lia|]. by exists x.
Qed.
Lemma zslice_next {A} (l : list A) i n c : 0 ≤ n → znth l i = Some c → zslice i (n + 1) l = c :: zslice (i + 1) n l.
Proof.
  unfold znth, zslice, zdrop, ztake. intros Hn. destruct (Z.ltb_spec i 0); [done|]. intros E.
  rewrite (drop_S _ _ _ E). replace (Z.to_nat (n + 1)) with (S (Z.to_nat n)) by lia.
  replace (Z.to_nat (i + 1)) with (S (Z.to_nat i)) by lia. done.
Qed.

(** ** Simulation of one computation by another

    From related states both end in the same way, with equal results and related
    states. *)
Definition simulates {S T A} (R : S → T → Prop) (m : K S A) (n : K T A) : Prop :=
  ∀ s t, R s t →
  match m s, n t with
  | Done (a, s'), Done (b, t') => a = b ∧ R s' t'
  | Panic, Panic | Fault, Fault | OutOfFuel, OutOfFuel => True
  | _, _ => False
  end.
Lemma simulates_ret {S T A} (R : S → T → Prop) (a : A) : simulates R (mret a) (mret a).
Proof. by intros s t H. Qed.
Lemma simulates_bind {S T A B} (R : S → T → Prop) (m : K S A) (n : K T A) (f g : A → K _ B) :
  simulates R m n → (∀ a, simulates R (f a) (g a)) → simulates R (m ≫= f) (n ≫= g).
Proof.
  intros Hm Hf s t H. specialize (Hm s t H). unfold mbind, K_bind.
  destruct (m s) as [[a s']| | |], (n t) as [[b t']| | |]; try done. destruct Hm as [<- Hm]. by apply Hf.
Qed.

(** ** The ring buffer *)

Definition ring (h n : Z) (b : list Z) : list Z := (λ i, b !!! Z.to_nat ((h + i) mod READ_BUFFER)) <$> seqZ 0 n.

Lemma zlen_ring h n b : 0 ≤ n → zlen (ring h n b) = n.
Proof. intros. unfold ring, zlen. rewrite length_fmap, length_seqZ. lia. Qed.
Lemma ring_mod_inj h i j : 0 ≤ i < READ_BUFFER → 0 ≤ j < READ_BUFFER → (h + i) mod READ_BUFFER = (h + j) mod READ_BUFFER → i = j.
Proof. unfold READ_BUFFER. intros. Z.to_euclidean_division_equations. lia. Qed.
Lemma ring_push h n c b : 0 ≤ n < READ_BUFFER → zlen b = READ_BUFFER →
  ring h (n + 1) (<[Z.to_nat ((h + n) mod READ_BUFFER) := c]> b) = ring h n b ++ [c].
Proof.
  intros Hn Hb. unfold ring. rewrite seqZ_app, fmap_app by lia. f_equal.
  - apply list_fmap_ext. intros k i Hi. apply lookup_seqZ in Hi as [-> Hi].
    rewrite list_lookup_total_insert_ne; [done|]. intros E.
    pose proof (Z.mod_pos_bound (h + n) READ_BUFFER) as ?. pose proof (Z.mod_pos_bound (h + (0 + Z.of_nat k)) READ_BUFFER) as ?.
    unfold READ_BUFFER in *. assert (n = 0 + Z.of_nat k); [|lia]. apply (ring_mod_inj h); unfold READ_BUFFER; lia.
  - rewrite seqZ_cons by lia. rewrite fmap_cons, Z.add_0_l. f_equal. apply list_lookup_total_insert_eq.
    pose proof (Z.mod_pos_bound (h + n) READ_BUFFER). unfold zlen, READ_BUFFER in *. lia.
Qed.
Lemma ring_pop h n b : 0 < n → 0 ≤ h < READ_BUFFER →
  ring h n b = b !!! Z.to_nat h :: ring ((h + 1) mod READ_BUFFER) (n - 1) b.
Proof.
  intros Hn Hh. unfold ring. rewrite (seqZ_cons 0 n) by lia. rewrite fmap_cons, Z.add_0_r, Z.mod_small by lia. f_equal.
  change (Z.succ 0) with (1 + 0). rewrite <-(fmap_add_seqZ 1 0 (Z.pred n)), <-list_fmap_compose. replace (n - 1) with (Z.pred n) by lia.
  apply list_fmap_ext. intros k i _. cbn. do 2 f_equal. rewrite Z.add_mod_idemp_l by done. f_equal. lia.
Qed.

(** ** The editor

    It is written without the definitions of Tty.v: the numbers of the characters,
    of the signals and of the bits in the settings, and what is shown. *)

Record editor := mk_editor {
  ed_queue : list Z;
  ed_line : list Z;
  ed_eof : bool;
}.
(** The settings: strip the eighth bit, carriage return to line feed; output
    processing, line feed to both, carriage return to line feed; lines, echo, rubbing
    out, signals. *)
Definition ed_strip (tm : termios_t) : bool := Z.testbit (c_iflag tm) 1.
Definition ed_cr_to_lf (tm : termios_t) : bool := Z.testbit (c_iflag tm) 0.
Definition ed_process (tm : termios_t) : bool := Z.testbit (c_oflag tm) 0.
Definition ed_lf_to_crlf (tm : termios_t) : bool := Z.testbit (c_oflag tm) 1.
Definition ed_out_cr_to_lf (tm : termios_t) : bool := Z.testbit (c_oflag tm) 2.
Definition ed_lines (tm : termios_t) : bool := Z.testbit (c_lflag tm) 0.
Definition ed_echoes (tm : termios_t) : bool := Z.testbit (c_lflag tm) 1.
Definition ed_rubs_out (tm : termios_t) : bool := Z.testbit (c_lflag tm) 2.
Definition ed_signals (tm : termios_t) : bool := Z.testbit (c_lflag tm) 4.

(** The character that is received: seven bits of it, and a line feed for a carriage
    return, if so set. *)
Definition ed_input (tm : termios_t) (c : Z) : Z :=
  let c := if ed_strip tm then c mod 128 else c in
  if bool_decide (c = 13) && ed_cr_to_lf tm then 10 else c.
(** ^C interrupts and ^Z stops. *)
Definition ed_signal (tm : termios_t) (c : Z) : option Z :=
  if ed_signals tm then if bool_decide (c = 3) then Some 2 else if bool_decide (c = 26) then Some 20 else None
  else None.
Definition ed_rubout (c : Z) : bool := bool_decide (c ∈ [127; 8]).
Definition ed_visible (c : Z) : bool := bool_decide (32 ≤ c ≤ 126).
(** What is shown, piece by piece: a rubout covers the character it takes off, which
    is two cells wide if it was shown with a caret; visible characters and the line
    feed are shown as they are, others as the caret and a letter. *)
Definition ed_shown (tm : termios_t) (erased : option Z) (c : Z) : list (list Z) :=
  if ed_lines tm && ed_rubs_out tm && ed_rubout c then
    match erased with
    | None => []
    | Some ch => if ed_visible ch then [[8; 32; 8]] else [[8; 32; 8]; [8; 32; 8]]
    end
  else if ed_echoes tm then
    [if ed_visible c || bool_decide (c = 10) then [c] else [94; (c + 64) mod 256]]
  else [].
(** What a written character becomes. *)
Definition ed_output (tm : termios_t) (c : Z) : list Z :=
  if bool_decide (c = 10) then if ed_lf_to_crlf tm then [13; 10] else [10]
  else if bool_decide (c = 13) then if ed_out_cr_to_lf tm then [10] else [13]
  else [c].

(** The free places of the queue; one of the ring buffer stays empty. *)
Definition ed_room (e : editor) : Z := 4095 - zlen (ed_queue e).
(** What fits of the line goes to the queue; the flag says that not all of it does.
    The line stays as it is. *)
Definition ed_flush (e : editor) : bool * editor :=
  (ed_room e <? zlen (ed_line e), mk_editor (ed_queue e ++ ztake (ed_room e) (ed_line e)) (ed_line e) (ed_eof e)).
Definition ed_new_line (e : editor) : editor := mk_editor (ed_queue e) [] (ed_eof e).
(** [None]: no echo; otherwise the erased character, if any. *)
Definition ed_end_of_file (e : editor) : option (option Z) * editor :=
  let '(full, e) := ed_flush e in
  if full then (None, e) else (Some None, mk_editor (ed_queue e) [] (ed_eof e || bool_decide (ed_line e = []))).
Definition ed_edit (c : Z) (e : editor) : option (option (option Z) * editor) :=
  if ed_rubout c then Some (Some (last (ed_line e)), mk_editor (ed_queue e) (removelast (ed_line e)) (ed_eof e))
  else if c =? 10 then
    if 1024 <=? zlen (ed_line e) then None
    else
      let '(full, e) := ed_flush (mk_editor (ed_queue e) (ed_line e ++ [c]) (ed_eof e)) in
      Some (if full then (None, e) else (Some None, ed_new_line e))
  else if 1022 <=? zlen (ed_line e) then Some (None, e)
  else Some (Some None, mk_editor (ed_queue e) (ed_line e ++ [c]) (ed_eof e)).
Definition ed_raw (c : Z) (e : editor) : option (option Z) * editor :=
  if ed_room e <=? 0 then (None, e) else (Some None, mk_editor (ed_queue e ++ [c]) (ed_line e) (ed_eof e)).
Definition ed_take (tm : termios_t) (skip_input : bool) (c : Z) (e : editor) : option (option (option Z) * editor) :=
  if ed_lines tm && (c =? 4) then Some (ed_end_of_file e)
  else if skip_input then Some (Some None, e)
  else if ed_lines tm then ed_edit c e
  else Some (ed_raw c e).
Definition ed_read (len : Z) (e : editor) : Z * list Z * editor :=
  match ed_queue e with
  | [] => if ed_eof e then (0, [], mk_editor [] (ed_line e) false) else (-11, [], e)
  | q => (Z.min len (zlen q), ztake len q, mk_editor (zdrop len q) (ed_line e) (ed_eof e))
  end.

(** *** The settings and characters of the code are those of the editor *)

Lemma has_flag_bit w k : 0 ≤ k → has w (2 ^ k) = Z.testbit w k.
Proof.
  intros Hk. unfold has. destruct (Z.testbit w k) eqn:E.
  - apply negb_true_iff, Z.eqb_neq. intros H. assert (Hb : Z.testbit (Z.land w (2 ^ k)) k = false) by (rewrite H; apply Z.testbit_0_l).
    rewrite Z.land_spec, E, Z.pow2_bits_true in Hb by done. done.
  - apply negb_false_iff, Z.eqb_eq, Z.bits_inj'. intros n Hn. rewrite Z.land_spec, Z.testbit_0_l.
    destruct (decide (n = k)) as [->|]; [by rewrite E|]. rewrite Z.pow2_bits_false by done. apply andb_false_r.
Qed.
Lemma ed_settings tm :
  ed_strip tm = has (c_iflag tm) ISTRIP ∧ ed_cr_to_lf tm = has (c_iflag tm) ICRNL ∧ ed_process tm = has (c_oflag tm) OPOST ∧
  ed_lf_to_crlf tm = has (c_oflag tm) ONLCR ∧ ed_out_cr_to_lf tm = has (c_oflag tm) OCRNL ∧ ed_lines tm = has (c_lflag tm) ICANON ∧
  ed_echoes tm = has (c_lflag tm) ECHO ∧ ed_rubs_out tm = has (c_lflag tm) ECHOE ∧ ed_signals tm = has (c_lflag tm) ISIG.
Proof.
  pose proof (has_flag_bit (c_iflag tm)) as Hi. pose proof (has_flag_bit (c_oflag tm)) as Ho. pose proof (has_flag_bit (c_lflag tm)) as Hl.
  split_and!; symmetry; [apply (Hi 1)|apply (Hi 0)|apply (Ho 0)|apply (Ho 1)|apply (Ho 2)|apply (Hl 0)|apply (Hl 1)|apply (Hl 2)|apply (Hl 4)]; lia.
Qed.
Lemma ed_rubout_erase c : ed_rubout c = is_erase c.
Proof.
  unfold ed_rubout, is_erase. case_bool_decide as H; symmetry; [apply orb_true_iff|apply orb_false_iff]; rewrite ?Z.eqb_eq, ?Z.eqb_neq.
  - repeat (apply elem_of_cons in H as [->|H]; [lia|]). by apply elem_of_nil in H.
  - rewrite !elem_of_cons in H. split; intros ->; apply H; auto.
Qed.
Lemma ed_visible_printable c : ed_visible c = is_printable c.
Proof.
  unfold ed_visible, is_printable. case_bool_decide; symmetry; [apply andb_true_iff|apply andb_false_iff]; lia.
Qed.
Lemma ed_decide c k : bool_decide (c = k) = (c =? k).
Proof. destruct (Z.eqb_spec c k); [by apply bool_decide_eq_true_2|by apply bool_decide_eq_false_2]. Qed.
Lemma ed_input_map tm c : ed_input tm c = map_input tm c.
Proof.
  unfold ed_input, map_input. destruct (ed_settings tm) as (-> & -> & _). cbv zeta.
  rewrite (Z.land_ones c 7 ltac:(lia) : Z.land c 127 = c mod 128). by rewrite ed_decide, andb_comm.
Qed.
Lemma ed_output_map tm c : ed_output tm c = map_output (c_oflag tm) c.
Proof.
  unfold ed_output, map_output. destruct (ed_settings tm) as (_ & _ & _ & -> & -> & _). rewrite !ed_decide.
  destruct (Z.eqb_spec c 10) as [->|]; [|destruct (Z.eqb_spec c 13) as [->|]]; rewrite ?andb_true_r, ?andb_false_r; [|done..].
  by destruct (has _ ONLCR).
Qed.

(** ** What a terminal holds *)

Section refines.
Context {D : Type} `{!TtyHost D}.
Implicit Types (t : tty_t D).

Definition tty_ok t : Prop :=
  zlen (read_buffer t) = READ_BUFFER ∧ 0 ≤ read_head t < READ_BUFFER ∧ 0 ≤ write_head t < READ_BUFFER ∧
  zlen (line_buffer t) = LINE_BUFFER ∧ 0 ≤ line_index t ≤ LINE_BUFFER.
Definition used t : Z := (write_head t - read_head t) mod READ_BUFFER.
Definition queue t : list Z := ring (read_head t) (used t) (read_buffer t).
Definition line t : list Z := ztake (line_index t) (line_buffer t).
Definition editor_of t : editor := mk_editor (queue t) (line t) (eof t).

(** The rest of a terminal: what it is connected to and how it is set. *)
Definition same_settings t t' : Prop :=
  termios t' = termios t ∧ tty_data t' = tty_data t ∧ echo t' = echo t ∧ write t' = write t ∧
  foreground_pgid t' = foreground_pgid t.

Lemma used_range t : 0 ≤ used t < READ_BUFFER.
Proof. apply Z.mod_pos_bound. done. Qed.
Lemma zlen_queue t : zlen (queue t) = used t.
Proof. apply zlen_ring. apply used_range. Qed.
Lemma zlen_line t : tty_ok t → zlen (line t) = line_index t.
Proof. intros (_ & _ & _ & Hl & Hi). unfold line. rewrite zlen_ztake. lia. Qed.
Lemma used_next t : tty_ok t → (write_head t + 1) mod READ_BUFFER ≠ read_head t →
  ((write_head t + 1) mod READ_BUFFER - read_head t) mod READ_BUFFER = used t + 1 ∧ used t + 1 < READ_BUFFER.
Proof. intros (_ & Hr & Hw & _). unfold used, READ_BUFFER in *. Z.to_euclidean_division_equations. lia. Qed.
Lemma used_full t : tty_ok t → (write_head t + 1) mod READ_BUFFER = read_head t → used t = READ_BUFFER - 1.
Proof. intros (_ & Hr & Hw & _). unfold used, READ_BUFFER in *. Z.to_euclidean_division_equations. lia. Qed.
Lemma write_place t : tty_ok t → (read_head t + used t) mod READ_BUFFER = write_head t.
Proof. intros (_ & Hr & Hw & _). unfold used, READ_BUFFER in *. Z.to_euclidean_division_equations. lia. Qed.

Lemma same_settings_refl t : same_settings t t.
Proof. done. Qed.
Lemma same_settings_trans t1 t2 t3 : same_settings t1 t2 → same_settings t2 t3 → same_settings t1 t3.
Proof. unfold same_settings. intros (-> & -> & -> & -> & ->). done. Qed.

(** Only the ring buffer may differ. *)
Definition same_line t t' : Prop :=
  tty_ok t' ∧ same_settings t t' ∧ line_buffer t' = line_buffer t ∧ line_index t' = line_index t ∧ eof t' = eof t.
Lemma same_line_refl t : tty_ok t → same_line t t.
Proof. intros. by split. Qed.
Lemma same_line_trans t1 t2 t3 : same_line t1 t2 → same_line t2 t3 → same_line t1 t3.
Proof.
  intros (_ & S1 & B1 & I1 & E1) (O2 & S2 & B2 & I2 & E2). split; [done|].
  split; [by eapply same_settings_trans|]. split_and!; congruence.
Qed.
Lemma same_line_line t t' : same_line t t' → line t' = line t.
Proof. intros (_ & _ & B & I & _). unfold line. by rewrite B, I. Qed.
Definition room t : Z := READ_BUFFER - 1 - used t.
Lemma ed_room_of t : ed_room (editor_of t) = room t.
Proof. unfold ed_room, room, READ_BUFFER. cbn. rewrite zlen_queue. lia. Qed.

(** A character appended to the queue. *)
Lemma push_char_spec c t : tty_ok t →
  if room t <=? 0 then push_char c t = Some None
  else ∃ t', push_char c t = Some (Some t') ∧ same_line t t' ∧ queue t' = queue t ++ [c].
Proof.
  intros Hok. unfold push_char, room. pose proof (used_range t).
  destruct (Z.eqb_spec ((write_head t + 1) mod READ_BUFFER) (read_head t)) as [E|E].
  - rewrite (used_full t) by done. done.
  - destruct (used_next t Hok E) as [Hu Hlt]. pose proof Hok as (Hb & Hr & Hw & Hl & Hi).
    rewrite (proj2 (Z.leb_gt _ _)) by lia. unfold store_at. rewrite Hb.
    rewrite (proj2 (Z.leb_le 0 (write_head t))), (proj2 (Z.ltb_lt (write_head t) READ_BUFFER)) by lia. cbn [andb mbind option_bind].
    eexists. split; [reflexivity|]. split; [split; [|done]|].
    + unfold tty_ok. cbn [read_buffer read_head write_head line_buffer line_index set_write_head set_read_buffer].
      split_and!; try lia; [|apply Z.mod_pos_bound; done..]. unfold zlen. by rewrite length_insert.
    + unfold queue at 1, used at 1. cbn [read_head write_head read_buffer set_write_head set_read_buffer]. rewrite Hu. unfold queue.
      rewrite <-(ring_push (read_head t) (used t) c (read_buffer t)) by (done || lia). do 3 f_equal. symmetry. by apply write_place.
Qed.
Lemma room_after t t' (w : list Z) : zlen (queue t') = zlen (queue t) + zlen w → room t' = room t - zlen w.
Proof. rewrite !zlen_queue. unfold room. lia. Qed.

Lemma flush_line_spec n : ∀ i t, tty_ok t → 0 ≤ i → i + Z.of_nat n ≤ LINE_BUFFER →
  ∃ t', flush_line n i t = Some (room t <? Z.of_nat n, t') ∧ same_line t t' ∧
    queue t' = queue t ++ ztake (room t) (zslice i (Z.of_nat n) (line_buffer t)).
Proof.
  induction n as [|n IH]; intros i t Hok Hi Hn; cbn [flush_line].
  - exists t. assert (0 ≤ room t) by (unfold room; pose proof (used_range t); lia).
    rewrite (proj2 (Z.ltb_ge _ _)) by lia. split; [done|]. split; [by apply same_line_refl|].
    unfold zslice. rewrite (ztake_le0 (Z.of_nat 0)) by lia. unfold ztake. by rewrite take_nil, app_nil_r.
  - pose proof Hok as (_ & _ & _ & Hl & _). destruct (znth_Some_lt (line_buffer t) i) as [c Ec]; [lia|]. rewrite Ec.
    cbn [mbind option_bind]. assert (Hs : zslice i (Z.of_nat (S n)) (line_buffer t) = c :: zslice (i + 1) (Z.of_nat n) (line_buffer t)).
    { rewrite Nat2Z.inj_succ. unfold Z.succ. apply zslice_next; [lia|done]. }
    pose proof (push_char_spec c t Hok) as Hp. destruct (Z.leb_spec (room t) 0) as [Hr|Hr].
    + rewrite Hp. cbn. exists t. rewrite (proj2 (Z.ltb_lt _ _)) by lia. split; [done|]. split; [by apply same_line_refl|].
      by rewrite ztake_le0, app_nil_r.
    + destruct Hp as (t1 & -> & S1 & Q1). cbn [mbind option_bind].
      assert (R1 : room t1 = room t - 1) by (apply (room_after t t1 [c]); rewrite Q1; zlia).
      destruct (IH (i + 1) t1) as (t2 & E2 & S2 & Q2); [apply S1|lia..|]. rewrite E2. exists t2. split; [do 2 f_equal|split].
      * rewrite R1. destruct (Z.ltb_spec (room t - 1) (Z.of_nat n)), (Z.ltb_spec (room t) (Z.of_nat (S n))); lia || done.
      * by eapply same_line_trans.
      * rewrite Q2, Q1, <-app_assoc, Hs, R1. f_equal. destruct S1 as (_ & _ & -> & _). cbn [app].
        unfold ztake at 2. replace (Z.to_nat (room t)) with (S (Z.to_nat (room t - 1))) by lia. done.
Qed.
Lemma flush_all_spec t : tty_ok t →
  ∃ t', flush_line (Z.to_nat (line_index t)) 0 t = Some (fst (ed_flush (editor_of t)), t') ∧ same_line t t' ∧
    editor_of t' = snd (ed_flush (editor_of t)).
Proof.
  intros Hok. pose proof Hok as (_ & _ & _ & Hl & Hi).
  destruct (flush_line_spec (Z.to_nat (line_index t)) 0 t) as (t' & E & S & Q); [done|lia..|].
  exists t'. unfold ed_flush. rewrite ed_room_of. cbn [ed_line ed_queue ed_eof editor_of fst snd].
  rewrite (zlen_line t Hok), E, Z2Nat.id by lia. split; [done|]. split; [done|].
  unfold editor_of. rewrite Q, (same_line_line t t' S). destruct S as (_ & _ & _ & _ & ->).
  rewrite Z2Nat.id by lia. by unfold zslice, line; rewrite zdrop_0.
Qed.

(** The early return, or whether a character was erased and which. *)
Definition erased_as t (q : option bool) (r : option (option Z)) : Prop :=
  match q, r with
  | None, None => True
  | Some b, Some er => b = bool_decide (is_Some er) ∧ ∀ ch, er = Some ch → znth (line_buffer t) (line_index t) = Some ch
  | _, _ => False
  end.
Definition takes t (m : option (option bool * tty_t D)) (n : option (option (option Z) * editor)) : Prop :=
  match n with
  | None => m = None
  | Some (r, e) =>
    ∃ q t', m = Some (q, t') ∧ tty_ok t' ∧ same_settings t t' ∧ editor_of t' = e ∧ erased_as t' q r
  end.

Lemma new_line_ok t t' : same_line t t' → ∀ b, tty_ok (set_line_index 0 (if b : bool then set_eof true t' else t')).
Proof. intros ((Hb & Hr & Hw & Hl & Hi) & _) b. by destruct b. Qed.
Lemma end_of_file_spec t : tty_ok t → takes t (end_of_file t) (Some (ed_end_of_file (editor_of t))).
Proof.
  intros Hok. unfold end_of_file. destruct (flush_all_spec t Hok) as (t' & E & S & Q). rewrite E. cbn [mbind option_bind].
  unfold ed_end_of_file. destruct (ed_flush (editor_of t)) as [full e] eqn:Ef. cbn [fst snd] in *. subst e.
  destruct full; [exists None, t'; by destruct S as (? & ? & _)|].
  exists (Some false). eexists. split; [reflexivity|]. split; [by eapply new_line_ok|].
  assert (Hz : bool_decide (line t' = []) = (line_index t' =? 0)).
  { pose proof (zlen_line t' (proj1 S)) as Hz. destruct (Z.eqb_spec (line_index t') 0) as [E0|E0].
    - apply bool_decide_eq_true_2. unfold zlen in Hz. apply length_zero_iff_nil. lia.
    - apply bool_decide_eq_false_2. intros E1. rewrite E1, zlen_nil in Hz. lia. }
  cbn [ed_line editor_of]. rewrite Hz. destruct S as (_ & S & _). destruct (line_index t' =? 0).
  - split; [done|]. split; [|by split]. unfold editor_of. by rewrite orb_true_r.
  - split; [done|]. split; [|by split]. unfold editor_of. by rewrite orb_false_r.
Qed.
Lemma store_char t i c : tty_ok t → 0 ≤ i < LINE_BUFFER →
  ∃ b, store_at i c (line_buffer t) = Some b ∧ zlen b = LINE_BUFFER ∧ ztake (i + 1) b = ztake i (line_buffer t) ++ [c].
Proof.
  intros (_ & _ & _ & Hl & _) Hi. unfold store_at. rewrite Hl, (proj2 (Z.leb_le _ _)), (proj2 (Z.ltb_lt _ _)) by lia.
  eexists. split; [reflexivity|]. split; [unfold zlen in *; by rewrite length_insert|].
  unfold ztake, zlen in *. replace (Z.to_nat (i + 1)) with (S (Z.to_nat i)) by lia.
  rewrite (take_S_r _ _ c) by (apply list_lookup_insert_eq; lia). by rewrite take_insert_ge by lia.
Qed.
Lemma append_char_spec t c : tty_ok t → line_index t < LINE_BUFFER →
  ∃ b, store_at (line_index t) c (line_buffer t) = Some b ∧
    (let t' := set_line_index (line_index t + 1) (set_line_buffer b t) in
     tty_ok t' ∧ same_settings t t' ∧ editor_of t' = mk_editor (queue t) (line t ++ [c]) (eof t)).
Proof.
  intros Hok Hlt. destruct (store_char t (line_index t) c Hok) as (b & E & Hb & Ht); [destruct Hok; lia|].
  exists b. split; [done|]. destruct Hok as (H1 & H2 & H3 & H4 & H5). split_and!; [|done|].
  - unfold tty_ok. cbn. split_and!; try done; lia.
  - unfold editor_of, line. cbn [line_index line_buffer set_line_index set_line_buffer]. by rewrite Ht.
Qed.

Lemma erase_spec t : tty_ok t → 0 < line_index t →
  ∃ ch, last (line t) = Some ch ∧ znth (line_buffer t) (line_index t - 1) = Some ch ∧
    tty_ok (set_line_index (line_index t - 1) t) ∧ line (set_line_index (line_index t - 1) t) = removelast (line t).
Proof.
  intros (H1 & H2 & H3 & H4 & H5) Hlt. destruct (znth_Some_lt (line_buffer t) (line_index t - 1)) as [ch E]; [lia|].
  assert (Hs : line t = ztake (line_index t - 1) (line_buffer t) ++ [ch]).
  { unfold line, ztake. replace (Z.to_nat (line_index t)) with (S (Z.to_nat (line_index t - 1))) by lia.
    apply take_S_r. unfold znth in E. by destruct (line_index t - 1 <? 0). }
  exists ch. rewrite Hs, last_snoc, removelast_last. split_and!; try done. unfold tty_ok. cbn. split_and!; try done; lia.
Qed.
Lemma edit_line_spec c t : tty_ok t → takes t (edit_line c t) (ed_edit c (editor_of t)).
Proof.
  intros Hok. pose proof (zlen_line t Hok) as Hl. pose proof Hok as (_ & _ & _ & Hb & Hi).
  unfold edit_line, ed_edit. cbn [ed_line ed_queue ed_eof editor_of]. rewrite Hl, ed_rubout_erase. destruct (is_erase c).
  - destruct (Z.ltb_spec 0 (line_index t)) as [Hlt|Hge].
    + destruct (erase_spec t Hok Hlt) as (ch & -> & Hch & Hok' & Hr). exists (Some true). eexists. split; [reflexivity|].
      split_and!; [done|done| |].
      * unfold editor_of. by rewrite Hr.
      * split; [done|]. by intros ? [= <-].
    + assert (E : line t = []) by (apply length_zero_iff_nil; unfold zlen in Hl; lia). rewrite E. cbn [last removelast].
      exists (Some false), t. split_and!; try done. unfold editor_of. by rewrite E.
  - destruct (c =? 10).
    + change 1024 with LINE_BUFFER. destruct (Z.leb_spec LINE_BUFFER (line_index t)) as [Hge|Hlt].
      { unfold takes, store_at. rewrite Hb, (proj2 (Z.ltb_ge _ _)), andb_false_r by lia. done. }
      destruct (append_char_spec t c Hok Hlt) as (b & -> & Hok' & St & Et). cbn [mbind option_bind]. cbv zeta in Hok', St, Et.
      set (u := set_line_index (line_index t + 1) (set_line_buffer b t)) in *.
      destruct (flush_all_spec u Hok') as (t' & E & S & Q). rewrite E, <-Et. cbn [mbind option_bind].
      destruct (ed_flush (editor_of u)) as [full e]. cbn [fst snd] in *. subst e. destruct S as (O & S & _).
      destruct full; [exists None, t'; split_and!; try done; by eapply same_settings_trans|].
      exists (Some false). eexists. split; [reflexivity|]. split_and!; [|by eapply same_settings_trans|done|done].
      destruct O as (? & ? & ? & ? & ?). unfold tty_ok. cbn. unfold LINE_BUFFER in *. split_and!; try done; lia.
    + destruct (Z.leb_spec 1022 (line_index t)) as [Hge|Hlt]; [by exists None, t|].
      destruct (append_char_spec t c Hok) as (b & -> & Hok' & St & Et); [unfold LINE_BUFFER; lia|].
      exists (Some false). eexists. split; [reflexivity|]. done.
Qed.
Lemma raw_char_spec c t : tty_ok t → takes t (raw_char c t) (Some (ed_raw c (editor_of t))).
Proof.
  intros Hok. unfold raw_char, ed_raw. rewrite ed_room_of. pose proof (push_char_spec c t Hok) as Hp.
  destruct (room t <=? 0); [rewrite Hp; by exists None, t|].
  destruct Hp as (t' & -> & S & Q). exists (Some false), t'. split; [done|]. pose proof (same_line_line t t' S) as L.
  destruct S as (O & S & _ & _ & E). split_and!; try done. unfold editor_of. by rewrite Q, L, E.
Qed.
Lemma take_char_spec skip c t : tty_ok t → takes t (take_char skip c t) (ed_take (termios t) skip c (editor_of t)).
Proof.
  intros Hok. unfold take_char, ed_take. destruct (ed_settings (termios t)) as (_ & _ & _ & _ & _ & -> & _). destruct (has _ ICANON), (c =? 4), skip; cbn [andb negb];
    try (by apply end_of_file_spec); try (by apply edit_line_spec); try (by apply raw_char_spec);
    exists (Some false), t; by split_and!.
Qed.

(** Reading takes characters off the queue. *)
Lemma take_chars_spec fuel : ∀ left t, tty_ok t → used t ≤ Z.of_nat fuel → 0 ≤ left →
  ∃ t', take_chars fuel left t = Some (ztake left (queue t), t') ∧ tty_ok t' ∧ same_settings t t' ∧
    editor_of t' = mk_editor (zdrop left (queue t)) (line t) (eof t).
Proof.
  induction fuel as [|fuel IH]; intros left t Hok Hu Hl; cbn [take_chars]; pose proof (used_range t);
    (destruct (Z.leb_spec left 0); [exists t; rewrite ztake_le0, zdrop_le0 by lia; by split_and!|]);
    pose proof (zlen_queue t) as Hz;
    (assert (He : read_head t = write_head t ↔ used t = 0);
     [pose proof Hok as (_ & Hr & Hw & _); unfold used, READ_BUFFER in *; Z.to_euclidean_division_equations; lia|]);
    (destruct (Z.eqb_spec (read_head t) (write_head t)) as [E|E];
     [assert (Eq : queue t = []) by (apply length_zero_iff_nil; unfold zlen in Hz; lia);
      exists t; rewrite Eq; unfold ztake, zdrop; rewrite take_nil, drop_nil; split_and!; try done; unfold editor_of; by rewrite Eq|]).
  - lia.
  - pose proof Hok as (Hb & Hr & Hw & Hlb & Hi). destruct (znth_Some_lt (read_buffer t) (read_head t)) as [c Ec]; [lia|].
    rewrite Ec. cbn [mbind option_bind]. set (u := set_read_head _ t).
    assert (Hou : tty_ok u). { unfold tty_ok. cbn. split_and!; try lia; try done. all: apply Z.mod_pos_bound; done. }
    assert (Huu : used u = used t - 1).
    { unfold used, u. cbn. unfold READ_BUFFER in *. Z.to_euclidean_division_equations. lia. }
    assert (Eq : queue t = c :: queue u).
    { unfold queue at 1. rewrite ring_pop by lia. rewrite <-Huu. f_equal. apply list_lookup_total_correct.
      unfold znth in Ec. by destruct (read_head t <? 0). }
    destruct (IH (left - 1) u) as (t' & E' & O & St & Q); [done|lia|lia|]. rewrite E'. exists t'. cbn [fst snd].
    unfold ztake, zdrop in *. replace (Z.to_nat left) with (S (Z.to_nat (left - 1))) by lia. rewrite Eq. by split_and!.
Qed.

(** ** Calls on a terminal and calls on the editor *)

#[local] Notation desk := (editor * D)%type.
Definition lift_desk {A} (m : K D A) : K desk A := λ s,
  match m (snd s) with
  | Done (a, d) => Done (a, (fst s, d))
  | Panic => Panic
  | Fault => Fault
  | OutOfFuel => OutOfFuel
  end.
(** A signal goes to the group in the foreground, if there is one. *)
Definition desk_signal t (c : Z) : K D bool :=
  match ed_signal (termios t) c with
  | None => mret false
  | Some sig =>
    (if bool_decide (0 < foreground_pgid t) then host_kill (- foreground_pgid t) sig;; mret tt else mret tt);;
    mret true
  end.
(** Pieces of output by one of the functions of the terminal. *)
Fixpoint desk_send (put : Z → list Z → K D Z) t (pieces : list (list Z)) : K D unit :=
  match pieces with
  | [] => mret tt
  | b :: pieces => put (tty_data t) b;; desk_send put t pieces
  end.
Definition desk_receive t (c : Z) : K desk unit :=
  let c := ed_input (termios t) c in
  skip_input ← lift_desk (desk_signal t c);
  s ← kget;
  r ← kopt (ed_take (termios t) skip_input c (fst s));
  kmodify (λ s, (snd r, snd s));;
  match fst r with
  | None => mret tt
  | Some erased => lift_desk (desk_send (echo t) t (ed_shown (termios t) erased c))
  end.
Definition desk_read (len : Z) : K desk (Z * list Z) :=
  s ← kget;
  let '(n, bytes, e) := ed_read len (fst s) in
  kmodify (λ s, (e, snd s));; mret (n, bytes).
Definition desk_write t (buffer : list Z) : K desk Z :=
  if ed_process (termios t) then
    if 2 ^ 31 <=? zlen buffer then kfault
    else lift_desk (desk_send (write t) t (ed_output (termios t) <$> buffer));; mret (zlen buffer)
  else lift_desk (write t (tty_data t) buffer).

Lemma desk_signal_chars t c : desk_signal t c = signal_chars t c.
Proof.
  unfold desk_signal, signal_chars, ed_signal. destruct (ed_settings (termios t)) as (_ & _ & _ & _ & _ & _ & _ & _ & ->).
  rewrite !ed_decide. assert (bool_decide (0 < foreground_pgid t) = (0 <? foreground_pgid t)) as ->.
  { destruct (Z.ltb_spec 0 (foreground_pgid t)); [by apply bool_decide_eq_true_2|apply bool_decide_eq_false_2; lia]. }
  destruct (has _ ISIG); [|done]. destruct (c =? 3); [done|]. by destruct (c =? 26).
Qed.
Lemma desk_shown t er c : desk_send (echo t) t (ed_shown (termios t) er c) = echo_char t (bool_decide (is_Some er)) er c.
Proof.
  unfold ed_shown, echo_char. destruct (ed_settings (termios t)) as (_ & _ & _ & _ & _ & -> & -> & -> & _).
  rewrite ed_rubout_erase, ed_decide, !ed_visible_printable, (andb_comm (has _ ICANON)).
  destruct (has _ ECHOE && has _ ICANON && is_erase c).
  - destruct er as [ch|]; [|done]. change (bool_decide (is_Some (Some ch))) with true. rewrite ed_visible_printable. cbv [mbind K_bind kopt mret K_ret]. by destruct (is_printable ch).
  - destruct (has _ ECHO); [|done]. by destruct (is_printable c || (c =? 10)).
Qed.
Lemma desk_written t b : desk_send (write t) t (ed_output (termios t) <$> b) = write_chars t b.
Proof. induction b as [|c b IH]; [done|]. cbn [fmap list_fmap desk_send write_chars]. by rewrite ed_output_map, IH. Qed.

Inductive terminal_call :=
| Receive (c : Z)
| Read (len : Z)
| Write (buffer : list Z).
Definition call_ok (e : terminal_call) : Prop := match e with Read len => 0 ≤ len | _ => True end.
Definition on_terminal (tty_id : Z) (e : terminal_call) : K (terminals D) (Z * list Z) :=
  match e with
  | Receive c => tty_char_recv tty_id c;; mret (0, [])
  | Read len => tty_read tty_id 0 len
  | Write buffer => n ← tty_write tty_id 0 buffer; mret (n, [])
  end.
Definition on_desk t (e : terminal_call) : K desk (Z * list Z) :=
  match e with
  | Receive c => desk_receive t c;; mret (0, [])
  | Read len => desk_read len
  | Write buffer => n ← desk_write t buffer; mret (n, [])
  end.
Fixpoint session {S} (f : terminal_call → K S (Z * list Z)) (es : list terminal_call) : K S (list (Z * list Z)) :=
  match es with
  | [] => mret []
  | e :: es => r ← f e; rs ← session f es; mret (r :: rs)
  end.

Section one.
Context (tty_id : Z) (others : list (tty_t D)) (index : Z) (t0 : tty_t D).
Context (Hid : 0 ≤ tty_id < zlen others).

Definition related (s : terminals D) (d : desk) : Prop :=
  ∃ t, ttys s = <[Z.to_nat tty_id := t]> others ∧ tty_driver_index s = index ∧ tty_ok t ∧ same_settings t0 t ∧
    d = (editor_of t, host s).

Lemma related_tty s d : related s d → ∃ t, znth (ttys s) tty_id = Some t ∧ tty_ok t ∧ same_settings t0 t ∧
  d = (editor_of t, host s) ∧ no_such_tty tty_id s = Done (false, s) ∧ tty tty_id s = Done (t, s).
Proof.
  intros (t & Hs & Hx & Hok & St & ->). exists t. assert (Hl : length (ttys s) = length others) by (by rewrite Hs, length_insert).
  assert (E : znth (ttys s) tty_id = Some t).
  { unfold znth, zlen in *. rewrite (proj2 (Z.ltb_ge _ _)), Hs by lia. apply list_lookup_insert_eq. lia. }
  split_and!; try done.
  - unfold no_such_tty, kget, mbind, K_bind, mret, K_ret. unfold zlen in *. rewrite Hl.
    rewrite (proj2 (Z.ltb_ge _ _)), (proj2 (Z.leb_gt _ _)) by lia. done.
  - unfold tty, kget, mbind, K_bind. by rewrite E.
Qed.
Lemma related_put s d t : related s d → tty_ok t → same_settings t0 t →
  related (mk_terminals (<[Z.to_nat tty_id := t]> (ttys s)) (tty_driver_index s) (host s)) (editor_of t, snd d).
Proof.
  intros (t' & Hs & Hx & _ & _ & ->) Hok St. exists t. cbn. split_and!; try done. by rewrite Hs, list_insert_insert_eq.
Qed.
Lemma related_lift {A} (m : K D A) : simulates related (lift_host m) (lift_desk m).
Proof.
  intros s d (t & Hs & Hx & Hok & St & ->). unfold lift_host, lift_desk. cbn [snd fst]. destruct (m (host s)) as [[a h]| | |]; try done.
  split; [done|]. by exists t.
Qed.
Lemma lift_host_eq {A} (m : K D A) s : lift_host m s =
  match m (host s) with
  | Done (a, h) => Done (a, mk_terminals (ttys s) (tty_driver_index s) h)
  | Panic => Panic
  | Fault => Fault
  | OutOfFuel => OutOfFuel
  end.
Proof. done. Qed.
Lemma lift_desk_eq {A} (m : K D A) d : lift_desk m d =
  match m (snd d) with
  | Done (a, h) => Done (a, (fst d, h))
  | Panic => Panic
  | Fault => Fault
  | OutOfFuel => OutOfFuel
  end.
Proof. done. Qed.
Lemma signal_chars_same t c : same_settings t0 t → signal_chars t c = signal_chars t0 c.
Proof. intros (E1 & _ & _ & _ & E2). unfold signal_chars. by rewrite E1, E2. Qed.
Lemma echo_char_same t b x er c : same_settings t0 t → (b = true → x = er) → echo_char t b x c = echo_char t0 b er c.
Proof.
  intros (E1 & E2 & E3 & _) Hx. unfold echo_char. rewrite E1, E2, E3. destruct b; [|done]. by rewrite (Hx eq_refl).
Qed.
Lemma write_chars_same t b : same_settings t0 t → write_chars t b = write_chars t0 b.
Proof. intros (E1 & E2 & _ & E3 & _). induction b as [|c b IH]; [done|]. cbn [write_chars]. by rewrite E1, E2, E3, IH. Qed.

Lemma receive_simulates c : simulates related (tty_char_recv tty_id c) (desk_receive t0 c).
Proof.
  intros s d HR. destruct (related_tty s d HR) as (t & Hz & Hok & St & -> & N & T).
  unfold tty_char_recv, desk_receive. rewrite ed_input_map, desk_signal_chars. rewrite (K_bind_step _ _ _ _ _ N), (K_bind_step _ _ _ _ _ T).
  replace (termios t) with (termios t0) by (symmetry; apply St). set (c' := map_input (termios t0) c).
  rewrite (signal_chars_same t c' St). unfold mbind, K_bind. rewrite lift_host_eq, lift_desk_eq. cbn [fst snd].
  destruct (signal_chars t0 c' (host s)) as [[skip h]| | |]; [|done..].
  set (s1 := mk_terminals (ttys s) (tty_driver_index s) h).
  assert (HR1 : related s1 (editor_of t, h)). { destruct HR as (t' & Hs & Hx & Ho' & St' & Ed). exists t'. split_and!; try done. by rewrite (f_equal fst Ed : editor_of t = editor_of t'). }
  unfold kget. cbn [fst snd]. pose proof (take_char_spec skip c' t Hok) as Ht.
  replace (termios t) with (termios t0) in Ht by (symmetry; apply St).
  destruct (ed_take (termios t0) skip c' (editor_of t)) as [[r e]|]; cbn [takes] in Ht; [|by rewrite Ht].
  destruct Ht as (q & t' & -> & Hok' & St' & <- & He). cbn [kopt mret K_ret fst snd]. unfold put_tty, kmodify.
  assert (St0 : same_settings t0 t') by (by eapply same_settings_trans).
  pose proof (related_put s1 _ t' HR1 Hok' St0) as HR2. cbn [snd] in HR2.
  destruct q as [b|], r as [er|]; cbn [erased_as] in He; try done. destruct He as [Hb Hch].
  rewrite desk_shown, (echo_char_same t' b _ er c' St0), Hb; [by apply related_lift|].
  intros Eb. rewrite Eb in Hb. destruct er as [ch|]; [by apply Hch|done].
Qed.
Lemma read_simulates len : 0 ≤ len → simulates related (tty_read tty_id 0 len) (desk_read len).
Proof.
  intros Hl s d HR. destruct (related_tty s d HR) as (t & Hz & Hok & St & -> & N & T).
  unfold tty_read, desk_read. rewrite (K_bind_step _ _ _ _ _ N), (K_bind_step _ _ _ _ _ T).
  assert (Hq : read_head t =? write_head t = bool_decide (queue t = [])).
  { pose proof (zlen_queue t) as Hz'. pose proof Hok as (_ & Hr & Hw & _). destruct (Z.eqb_spec (read_head t) (write_head t)) as [E|E].
    - symmetry. apply bool_decide_eq_true_2, length_zero_iff_nil. assert (used t = 0) by (unfold used; by rewrite E, Z.sub_diag). unfold zlen in Hz'. lia.
    - symmetry. apply bool_decide_eq_false_2. intros E0. rewrite E0, zlen_nil in Hz'. unfold used, READ_BUFFER in *.
      Z.to_euclidean_division_equations. lia. }
  rewrite Hq. unfold kget, ed_read, kmodify, mbind, K_bind, mret, K_ret. cbn [fst snd ed_queue ed_eof ed_line editor_of].
  destruct (queue t) as [|x q] eqn:Eq.
  - rewrite bool_decide_eq_true_2, andb_true_r by done. destruct (eof t) eqn:Ee; cbn [put_tty kmodify].
    + unfold put_tty, kmodify. split; [done|]. pose proof (related_put s _ (set_eof false t) HR Hok St) as HP.
      assert (Ee' : editor_of (set_eof false t) = mk_editor [] (line t) false).
      { unfold editor_of. change (queue (set_eof false t)) with (queue t). by rewrite Eq. }
      rewrite Ee' in HP. exact HP.
    + split; [done|]. done.
  - rewrite bool_decide_eq_false_2, andb_false_r by done.
    destruct (take_chars_spec (Z.to_nat READ_BUFFER) len t) as (t' & E & Hok' & St' & Ed); [done|pose proof (used_range t); lia|done|].
    rewrite E. cbn [kopt mret K_ret fst snd]. unfold put_tty, kmodify. rewrite Eq in Ed. rewrite Eq. split.
    + f_equal. rewrite zlen_ztake. lia.
    + rewrite <-Ed. apply (related_put s _ t' HR Hok'). by eapply same_settings_trans.
Qed.
Lemma write_simulates b : simulates related (tty_write tty_id 0 b) (desk_write t0 b).
Proof.
  intros s d HR. destruct (related_tty s d HR) as (t & Hz & Hok & St & -> & N & T).
  unfold tty_write, desk_write. rewrite desk_written. destruct (ed_settings (termios t0)) as (_ & _ & -> & _).
  replace (2 ^ 31 <=? zlen b) with (INT_MAX <? zlen b) by (unfold INT_MAX; destruct (Z.ltb_spec (2 ^ 31 - 1) (zlen b)), (Z.leb_spec (2 ^ 31) (zlen b)); lia || done).
  rewrite (K_bind_step _ _ _ _ _ N), (K_bind_step _ _ _ _ _ T).
  rewrite (write_chars_same t b St). pose proof St as (-> & -> & _ & -> & _). revert s N T Hz HR.
  destruct (has _ OPOST); [destruct (INT_MAX <? zlen b); [done|]|]; intros s _ _ _ HR.
  - revert HR. generalize (editor_of t, host s). intros d' HR. revert s d' HR.
    change (simulates related (lift_host (write_chars t0 b);; mret (zlen b)) (lift_desk (write_chars t0 b);; mret (zlen b))).
    apply simulates_bind; [apply related_lift|]. intros _. apply simulates_ret.
  - by apply related_lift.
Qed.

Lemma session_simulates es : Forall call_ok es →
  simulates related (session (on_terminal tty_id) es) (session (on_desk t0) es).
Proof.
  induction 1 as [|e es He _ IH]; [apply simulates_ret|]. cbn [session]. apply simulates_bind.
  - destruct e as [c|len|b]; cbn [on_terminal on_desk].
    + apply simulates_bind; [apply receive_simulates|]. intros _. apply simulates_ret.
    + by apply read_simulates.
    + apply simulates_bind; [apply write_simulates|]. intros n. apply simulates_ret.
  - intros r. apply simulates_bind; [done|]. intros rs. apply simulates_ret.
Qed.
End one.

Lemma related_start s tty_id t : znth (ttys s) tty_id = Some t → tty_ok t →
  0 ≤ tty_id < zlen (ttys s) ∧ related tty_id (ttys s) (tty_driver_index s) t s (editor_of t, host s).
Proof.
  intros E Hok. unfold znth in E. destruct (Z.ltb_spec tty_id 0); [done|]. pose proof (lookup_lt_Some _ _ _ E). split; [unfold zlen; lia|].
  exists t. split_and!; try done. by rewrite list_insert_id.
Qed.
Lemma session_app {S} (f : terminal_call → K S (Z * list Z)) es1 es2 s rs1 s1 rs2 s2 :
  session f es1 s = Done (rs1, s1) → session f es2 s1 = Done (rs2, s2) → session f (es1 ++ es2) s = Done (rs1 ++ rs2, s2).
Proof.
  revert s rs1. induction es1 as [|e es1 IH]; intros s rs1 E1 E2; cbn [session app] in *.
  - by injection E1 as <- <-.
  - apply K_bind_Done in E1 as (r & s' & Er & E1). apply K_bind_Done in E1 as (rs & s'' & Es & [= <- <-]).
    rewrite (K_bind_step _ _ _ _ _ Er), (K_bind_step _ _ _ _ _ (IH _ _ Es E2)). done.
Qed.

(** ** Typing a line *)

Definition edit_step (l : list Z) (c : Z) : list Z := if is_erase c then removelast l else l ++ [c].
(** Characters that are neither mapped nor end the line. *)
Definition plain (tm : termios_t) (c : Z) : Prop :=
  map_input tm c = c ∧ c ≠ 4 ∧ c ≠ 10 ∧ (has (c_lflag tm) ISIG = true → c ≠ 3 ∧ c ≠ 26).
(** The device behind the terminal accepts what is echoed. *)
Definition echoes t : Prop := ∀ b h, ∃ r h', echo t (tty_data t) b h = Done (r, h').

Lemma echo_runs t b er c : echoes t → b = bool_decide (is_Some er) → ∀ e h, ∃ h', lift_desk (echo_char t b er c) (e, h) = Done (tt, (e, h')).
Proof.
  intros He Hb e h. rewrite lift_desk_eq. cbn [fst snd]. unfold echo_char.
  assert (E : ∀ x h, ∃ h', (echo t (tty_data t) x;; mret tt) h = Done (tt, h')).
  { intros x h0. destruct (He x h0) as (r & h' & E). exists h'. by rewrite (K_bind_step _ _ _ _ _ E). }
  destruct (has _ ECHOE && has _ ICANON && is_erase c).
  - destruct b; [|by exists h]. destruct er as [ch|]; [|done]. destruct (He [8; 32; 8] h) as (r & h1 & E1).
    rewrite (K_bind_step _ _ _ _ _ E1), (K_kopt_step _ ch _ _ eq_refl). destruct (is_printable ch); cbn [negb]; [by exists h1|].
    destruct (E [8; 32; 8] h1) as (h2 & E2). exists h2. by rewrite E2.
  - destruct (has _ ECHO); [|by exists h]. destruct (_ || _).
    + destruct (E [c] h) as (h' & E'). exists h'. by rewrite E'.
    + destruct (E [94; u8 (c + 64)] h) as (h' & E'). exists h'. by rewrite E'.
Qed.
Lemma no_signal t c h : (has (c_lflag (termios t)) ISIG = true → c ≠ 3 ∧ c ≠ 26) → signal_chars t c h = Done (false, h).
Proof.
  intros Hs. unfold signal_chars. destruct (has _ ISIG); [|done]. destruct (Hs eq_refl).
  rewrite (proj2 (Z.eqb_neq c 3)), (proj2 (Z.eqb_neq c 26)) by done. done.
Qed.
Lemma ed_read_line len l f :
  ed_read len (mk_editor (l ++ [10]) [] f) = (Z.min len (zlen l + 1), ztake len (l ++ [10]), mk_editor (zdrop len (l ++ [10])) [] f).
Proof.
  replace (zlen l + 1) with (zlen (l ++ [10])) by zlia. unfold ed_read. cbn [ed_queue ed_line ed_eof]. by destruct l.
Qed.
(** One character of a line that has room for it. *)
Lemma desk_receive_runs t c e er e' h : echoes t → has (c_lflag (termios t)) ICANON = true →
  map_input (termios t) c = c → c ≠ 4 → (has (c_lflag (termios t)) ISIG = true → c ≠ 3 ∧ c ≠ 26) →
  ed_edit c e = Some (Some er, e') → ∃ h', desk_receive t c (e, h) = Done (tt, (e', h')).
Proof.
  intros He Hc Hm H4 Hs E. unfold desk_receive. rewrite ed_input_map, Hm, desk_signal_chars.
  assert (E1 : lift_desk (signal_chars t c) (e, h) = Done (false, (e, h))) by (rewrite lift_desk_eq; cbn; by rewrite no_signal).
  rewrite (K_bind_step _ _ _ _ _ E1). unfold kget, mbind, K_bind. cbn [fst snd]. unfold ed_take.
  destruct (ed_settings (termios t)) as (_ & _ & _ & _ & _ & -> & _).
  rewrite Hc, (proj2 (Z.eqb_neq c 4)), E by done. cbn [kopt mret K_ret andb fst snd kmodify]. unfold kmodify.
  rewrite desk_shown.
  by apply echo_runs.
Qed.
Lemma desk_types t q f w : echoes t → has (c_lflag (termios t)) ICANON = true → Forall (plain (termios t)) w →
  ∀ l h, zlen l + zlen w ≤ 1022 → ∃ rs h',
    session (on_desk t) (Receive <$> w) (mk_editor q l f, h) = Done (rs, (mk_editor q (foldl edit_step l w) f, h')) ∧
    zlen (foldl edit_step l w) ≤ 1022.
Proof.
  intros He Hc. induction 1 as [|c w (Hm & H4 & H10 & Hs) _ IH]; intros l h Hl; cbn [fmap list_fmap session foldl].
  - exists [], h. rewrite zlen_nil in Hl. split; [done|lia].
  - rewrite zlen_cons in Hl.
    assert (E : ∃ er, ed_edit c (mk_editor q l f) = Some (Some er, mk_editor q (edit_step l c) f)).
    { unfold ed_edit, edit_step. cbn [ed_line ed_queue ed_eof]. rewrite ed_rubout_erase. destruct (is_erase c); [by eexists|].
      rewrite (proj2 (Z.eqb_neq c 10)), (proj2 (Z.leb_gt 1022 (zlen l))) by (try done; pose proof (zlen_nonneg w); lia). by eexists. }
    destruct E as [er E]. destruct (desk_receive_runs t c _ er _ h He Hc Hm H4 Hs E) as [h1 E1].
    assert (Hl1 : zlen (edit_step l c) ≤ zlen l + 1).
    { unfold edit_step. destruct (is_erase c); [|zlia]. destruct l as [|x l] using rev_ind; [done|]. rewrite removelast_last. zlia. }
    destruct (IH (edit_step l c) h1) as (rs & h2 & E2 & H2); [lia|]. exists ((0, []) :: rs), h2. split; [|done].
    cbn [on_desk]. unfold mbind, K_bind in *. rewrite E1. cbn [mret K_ret]. by rewrite E2.
Qed.

(** What is typed is read.  On a terminal in canonical mode with nothing pending, a
    line of up to 1022 characters is received, among them erasures, and then its
    newline: a read returns the line as edited, each erasure having removed the last
    character before it, with the newline at its end, up to the length asked for. *)
Theorem typed_line_is_read s tty_id t w len : znth (ttys s) tty_id = Some t → tty_ok t →
  queue t = [] → line t = [] → has (c_lflag (termios t)) ICANON = true → echoes t →
  Forall (plain (termios t)) w → zlen w ≤ 1022 → 0 ≤ len →
  ∃ rs s', session (on_terminal tty_id) ((Receive <$> w ++ [10]) ++ [Read len]) s = Done (rs, s') ∧
    last rs = Some (Z.min len (zlen (foldl edit_step [] w) + 1), ztake len (foldl edit_step [] w ++ [10])).
Proof.
  intros Hz Hok Hq Hl Hc He Hw Hlen H0. destruct (related_start s tty_id t Hz Hok) as [Hid HR].
  destruct (desk_types t [] (eof t) w He Hc Hw [] (host s)) as (rs1 & h1 & E1 & Hl1); [done|]. set (l := foldl edit_step [] w) in *.
  assert (Hm : map_input (termios t) 10 = 10).
  { unfold map_input. change (Z.land 10 127) with 10. destruct (has _ ISTRIP); cbn; by rewrite andb_false_r. }
  assert (E2 : ed_edit 10 (mk_editor [] l (eof t)) = Some (Some None, mk_editor (l ++ [10]) [] (eof t))).
  { unfold ed_edit, ed_flush, ed_room. rewrite ed_rubout_erase. unfold is_erase. cbn [ed_line ed_queue ed_eof Z.eqb Pos.eqb orb].
    rewrite (proj2 (Z.leb_gt _ _)) by lia. rewrite zlen_nil, zlen_app, (proj2 (Z.ltb_ge _ _)) by zlia.
    rewrite ztake_all by zlia. done. }
  destruct (desk_receive_runs t 10 _ None _ h1 He Hc Hm ltac:(done) ltac:(done) E2) as [h2 E3].
  assert (E4 : session (on_desk t) [Receive 10; Read len] (mk_editor [] l (eof t), h1) =
    Done ([(0, []); (Z.min len (zlen l + 1), ztake len (l ++ [10]))], (mk_editor (zdrop len (l ++ [10])) [] (eof t), h2))).
  { cbn [session on_desk]. unfold mbind, K_bind in *. rewrite E3. unfold desk_read, kget, kmodify, mbind, K_bind. cbn [fst snd mret K_ret].
    by rewrite ed_read_line. }
  pose proof (session_app (on_desk t) _ _ _ _ _ _ _ E1 E4) as E5.
  assert (Hes : (Receive <$> w ++ [10]) ++ [Read len] = (Receive <$> w) ++ [Receive 10; Read len]) by (by rewrite fmap_app, <-app_assoc).
  rewrite Hes. pose proof (session_simulates tty_id (ttys s) (tty_driver_index s) t Hid ((Receive <$> w) ++ [Receive 10; Read len])) as Hsim.
  assert (Hev : Forall call_ok ((Receive <$> w) ++ [Receive 10; Read len])).
  { apply Forall_app. split; [by apply Forall_fmap, Forall_true|by repeat constructor]. }
  assert (Et : editor_of t = mk_editor [] [] (eof t)) by (unfold editor_of; by rewrite Hq, Hl).
  rewrite Et in HR. specialize (Hsim Hev s _ HR). rewrite E5 in Hsim.
  destruct (session (on_terminal tty_id) _ s) as [[rs s']| | |]; try done. destruct Hsim as [-> _].
  exists (rs1 ++ [(0, []); (Z.min len (zlen l + 1), ztake len (l ++ [10]))]), s'. split; [done|].
  change ([(0, []); (Z.min len (zlen l + 1), ztake len (l ++ [10]))]) with ([(0, [] : list Z)] ++ [(Z.min len (zlen l + 1), ztake len (l ++ [10]))]).
  by rewrite app_assoc, last_snoc.
Qed.

(** C38: A terminal is a line editor with a queue.  For any sequence of received
    characters, reads of a length from 0 up, and writes, the terminal ends as the
    editor on lists does, with the same results, the same output piece by piece, the
    same signals and the same faults: received characters are mapped as set, ^C and
    ^Z signal the foreground group, characters go to the line (up to 1022 of them) or,
    in raw mode, to the queue, an erasure takes the last one off and rubs it out on
    the screen, the newline or the end-of-file character moves the line to the queue,
    other input is shown, reads take from the front of the queue, and writes turn
    newlines and carriage returns into what is set.  If the queue has no room for a
    character of raw mode, it is dropped; if it has none for all of a line, the part
    that fits is queued and the whole line stays as well, so that the part is read
    twice (full_queue_repeats_line), and a line that cannot be moved overflows its
    buffer in the end (full_queue_overflows_line). *)
Theorem terminal_refines_editor s tty_id t es : znth (ttys s) tty_id = Some t → tty_ok t → Forall call_ok es →
  match session (on_terminal tty_id) es s, session (on_desk t) es (editor_of t, host s) with
  | Done (rs, s'), Done (rs', (e, h)) =>
    rs = rs' ∧ host s' = h ∧ ∃ t', ttys s' = <[Z.to_nat tty_id := t']> (ttys s) ∧ tty_ok t' ∧ same_settings t t' ∧ editor_of t' = e
  | Panic, Panic | Fault, Fault | OutOfFuel, OutOfFuel => True
  | _, _ => False
  end.
Proof.
  intros Hz Hok Hes. destruct (related_start s tty_id t Hz Hok) as [Hid HR].
  pose proof (session_simulates tty_id (ttys s) (tty_driver_index s) t Hid es Hes s _ HR) as Hsim.
  destruct (session (on_terminal tty_id) es s) as [[rs s']| | |], (session (on_desk t) es (editor_of t, host s)) as [[rs' [e h]]| | |]; try done.
  destruct Hsim as [<- (t' & Et & _ & Hok' & St & [= -> ->])]. split_and!; try done. by exists t'.
Qed.
End refines.

(** ** A terminal with a screen *)

(** The bytes shown and the signals sent. *)
Notation screen := (list Z * list (Z * Z))%type.
Definition show (_ : Z) (b : list Z) : K screen Z := kmodify (λ d, (fst d ++ b, snd d));; mret (zlen b).
#[export] Instance screen_host : TtyHost screen :=
  {| host_kill := λ pid sig, kmodify (λ d, (fst d, snd d ++ [(pid, sig)]));; mret 0;
     host_memory := λ A _, kfault;
     host_mknod := λ _ _ _, mret 0 |}.
Definition screen_tty : tty_t screen :=
  mk_tty (mk_termios ICRNL OPOST (Z.lor ICANON (Z.lor ECHO ECHOE))) 0 show show (zrepeat 4096 0) 0 0 (zrepeat 1024 0) 0 7 false None.
Definition one_tty (t : tty_t screen) : terminals screen := mk_terminals [t] 1 ([], []).
Lemma screen_tty_ok : tty_ok screen_tty.
Proof. unfold tty_ok, READ_BUFFER, LINE_BUFFER. cbn. unfold zrepeat, zlen. rewrite !length_replicate. lia. Qed.

(** "abx", erasure, "c". *)
Definition typed : list Z := [97; 98; 120; 127; 99].
Lemma typed_line_is_read_witness :
  ∃ rs s', session (on_terminal 0) ((Receive <$> typed ++ [10]) ++ [Read 100]) (one_tty screen_tty) = Done (rs, s') ∧
    last rs = Some (4, [97; 98; 99; 10]).
Proof.
  apply (typed_line_is_read (one_tty screen_tty) 0 screen_tty typed 100); try reflexivity; try apply screen_tty_ok; try lia.
  - intros b h. eexists _, _. reflexivity.
  - unfold typed, plain. repeat constructor; try done; try (cbn; lia).
Defined.

Definition demo_calls : list terminal_call := [Receive 97; Receive 8; Receive 4; Read 1; Write [104; 105]].
Lemma terminal_refines_editor_witness :
  match session (on_terminal 0) demo_calls (one_tty screen_tty), session (on_desk screen_tty) demo_calls (editor_of screen_tty, ([], [])) with
  | Done (rs, s'), Done (rs', (e, h)) =>
    rs = rs' ∧ host s' = h ∧ ∃ t', ttys s' = [t'] ∧ tty_ok t' ∧ same_settings screen_tty t' ∧ editor_of t' = e
  | Panic, Panic | Fault, Fault | OutOfFuel, OutOfFuel => True
  | _, _ => False
  end.
Proof.
  apply (terminal_refines_editor (one_tty screen_tty) 0 screen_tty demo_calls); [reflexivity|apply screen_tty_ok|].
  unfold demo_calls. repeat constructor; cbn; lia.
Defined.

(** ** When the queue is full *)

Definition run_chars (cs : list Z) (t : tty_t screen) : outcome (list (Z * list Z) * terminals screen) :=
  session (on_terminal 0) (Receive <$> cs) (one_tty t).
(** The newline is stored although the line cannot be moved: after three of them the
    line buffer overflows. *)
Lemma full_queue_overflows_line : run_chars (zrepeat 4095 10 ++ zrepeat 1022 97 ++ [10; 10; 10]) screen_tty = Fault.
Proof. vm_compute. reflexivity. Qed.
(** What fits of a line stays in the line as well, and is read twice. *)
Definition nearly_full : tty_t screen := set_write_head 4093 screen_tty.
Lemma full_queue_repeats_line :
  match session (on_terminal 0) [Receive 97; Receive 98; Receive 99; Receive 10; Read 5000; Receive 10; Read 10] (one_tty nearly_full) with
  | Done (rs, _) => last rs = Some (5, [97; 98; 99; 10; 10]) ∧ (λ r, zdrop 4093 (snd r)) <$> (rs !! 4%nat) = Some [97; 98]
  | _ => False
  end.
Proof. vm_compute. auto. Qed.
