(* ===== verification/Input.v ===== *)
(** * kernel/drivers/ps2_keyboard.c and ps2_mouse.c: keyboard and mouse

    What the two handlers make of the bytes the PS/2 controller delivers: characters
    for the terminal of the screen, packets in the pipe behind input/mouse.  The
    controller is in Drivers.v. *)

From S2P Require Import Prelude Pipe Paging Vfs Block Task Signal Tty.

(** ** Keyboard *)

Definition KEY_RELEASE : Z := 0x80.
Definition EXTENDED_KEY : Z := 0xE0.

Definition scancode_map : list Z :=
  [0; 27; 49; 50; 51; 52; 53; 54; 55; 56; 57; 48; 45; 61; 127; 9;
   113; 119; 101; 114; 116; 121; 117; 105; 111; 112; 91; 93; 10; 0;
   97; 115; 100; 102; 103; 104; 106; 107; 108; 59; 39; 96; 0;
   92; 122; 120; 99; 118; 98; 110; 109; 44; 46; 47; 0;
   42; 0; 32; 0] ++ zrepeat 69 0.
Definition scancode_shift_map : list Z :=
  [0; 27; 33; 64; 35; 36; 37; 94; 38; 42; 40; 41; 95; 43; 127; 9;
   81; 87; 69; 82; 84; 89; 85; 73; 79; 80; 123; 125; 10; 0;
   65; 83; 68; 70; 71; 72; 74; 75; 76; 58; 34; 126; 0;
   124; 90; 88; 67; 86; 66; 78; 77; 60; 62; 63; 0;
   42; 0; 32; 0] ++ zrepeat 69 0.

Record keys := mk_keys {
  shifted : bool;
  ctrl_pressed : bool;
  alt_pressed : bool;
  extended : Z;
}.
(** The C variable counts the sections in which input is ignored. *)
Record keyboard (D : Type) := mk_keyboard {
  held : keys;
  input_disabled : Z;
  fbcon_tty_id : Z;
  terms : terminals D;
}.
Arguments mk_keyboard {_}. Arguments held {_}. Arguments input_disabled {_}. Arguments fbcon_tty_id {_}. Arguments terms {_}.

Definition set_shifted x k := mk_keys x (ctrl_pressed k) (alt_pressed k) (extended k).
Definition set_ctrl x k := mk_keys (shifted k) x (alt_pressed k) (extended k).
Definition set_alt x k := mk_keys (shifted k) (ctrl_pressed k) x (extended k).
Definition set_extended x k := mk_keys (shifted k) (ctrl_pressed k) (alt_pressed k) x.

Definition is_shift (scancode : Z) : bool := (scancode =? 0x2A) || (scancode =? 0x36).
Definition press_modifier (pressed : bool) (scancode : Z) (k : keys) : keys :=
  if is_shift scancode then set_shifted pressed k
  else if scancode =? 0x1D then set_ctrl pressed k
  else if scancode =? 0x38 then set_alt pressed k
  else k.
Definition arrow (scancode : Z) : option Z :=
  if scancode =? 0x48 then Some 65
  else if scancode =? 0x50 then Some 66
  else if scancode =? 0x4B then Some 68
  else if scancode =? 0x4D then Some 67
  else None.
Definition with_ctrl (key : Z) : Z := if key =? 32 then 0 else if key =? 63 then 0x7f else Z.land key 0x1F.
(** The new state of the keys and the characters for the terminal. *)
Definition scan (scancode : Z) (k : keys) : keys * list Z :=
  let k := set_extended (if scancode =? EXTENDED_KEY then 2 else if 0 <? extended k then extended k - 1 else 0) k in
  if has scancode KEY_RELEASE then (press_modifier false (Z.land scancode 0x7F) k, [])
  else if is_shift scancode || (scancode =? 0x1D) || (scancode =? 0x38) then (press_modifier true scancode k, [])
  else
    match (if extended k =? 0 then None else arrow scancode) with
    | Some c => (k, [27; 91; c])
    | None =>
      let key := default 0 (znth (if shifted k then scancode_shift_map else scancode_map) scancode) in
      (k, if key =? 0 then [] else [if ctrl_pressed k then with_ctrl key else key])
    end.

Section keyboard.
Context {D : Type} `{!TtyHost D}.
#[local] Notation keyboard := (keyboard D).

Fixpoint receive_all (tty_id : Z) (cs : list Z) : K (terminals D) unit :=
  match cs with
  | [] => mret tt
  | c :: cs => tty_char_recv tty_id c;; receive_all tty_id cs
  end.
(** While the handler runs, [input_disabled] is not 0: drawing what is echoed cannot
    be interrupted by another key. *)
Definition ps2_keyboard_handler (scancode : Z) : K keyboard unit := λ s,
  if input_disabled s =? 0 then
    let '(k, cs) := scan scancode (held s) in
    match receive_all (fbcon_tty_id s) cs (terms s) with
    | Done (_, t) => Done (tt, mk_keyboard k 0 (fbcon_tty_id s) t)
    | Panic => Panic
    | Fault => Fault
    | OutOfFuel => OutOfFuel
    end
  else Done (tt, s).
End keyboard.

(** ** Mouse *)

Record mouse := mk_mouse {
  packet : list Z;
  supports_intellimouse : bool;
  mouse_pipe : pipe_t;
}.
(** The packet is the first [packet_index] bytes of the array; a fifth byte would
    be stored behind it. *)
Definition ps2_mouse_handler (byte : Z) : K mouse Z := λ s,
  if 4 <=? zlen (packet s) then Fault
  else
    let packet := packet s ++ [byte] in
    let packet := if negb (supports_intellimouse s) && (zlen packet =? 3) then packet ++ [0] else packet in
    if zlen packet =? 4 then
      if reader_count (mouse_pipe s) =? 0 then
        Done (0, mk_mouse [] (supports_intellimouse s) (Pipe.set_read_head (Pipe.write_head (mouse_pipe s)) (mouse_pipe s)))
      else
        match pipe_write [] (mouse_pipe s) packet false with
        | Done (_, p) => Done (0, mk_mouse [] (supports_intellimouse s) p)
        | Panic => Panic
        | Fault => Fault
        | OutOfFuel => OutOfFuel
        end
    else Done (0, mk_mouse packet (supports_intellimouse s) (mouse_pipe s)).
Definition mousedev_read (minor offset count : Z) : K mouse (Z * list Z) := λ s,
  let '(n, bytes, p) := pipe_read (mouse_pipe s) count in
  Done ((n, bytes), mk_mouse (packet s) (supports_intellimouse s) p).
Definition mousedev_write (minor offset : Z) (buffer : list Z) : K mouse Z := mret (- EINVAL).

(** ** Keys *)

(** A key that is held with another one and released leaves the keys as they were. *)
Lemma modifier_released k scancode : is_shift scancode = true → extended k = 0 → shifted k = false →
  fst (scan (Z.lor scancode KEY_RELEASE) (fst (scan scancode k))) = k.
Proof.
  unfold is_shift. intros Hs He Hk. destruct k as [sh ct al ex]. cbn in *. subst.
  apply orb_true_iff in Hs as [->%Z.eqb_eq| ->%Z.eqb_eq]; reflexivity.
Qed.
(** Only the characters below decide about what a key means: no scancode leaves the
    tables, and an answer has at most three characters. *)
Lemma scan_chars scancode k : 0 ≤ scancode < 256 →
  Forall (λ c, 0 ≤ c < 128) (snd (scan scancode k)) ∧ zlen (snd (scan scancode k)) ≤ 3.
Proof.
  intros Hs. assert (Hmap : ∀ m : list Z, forallb (λ c, (0 <=? c) && (c <? 128)) m = true → ∀ i, 0 ≤ default 0 (znth m i) < 128).
  { intros m Hm i. unfold znth. destruct (i <? 0); [cbn; lia|]. destruct (m !! Z.to_nat i) as [c|] eqn:E; cbn; [|lia].
    rewrite forallb_forall in Hm. apply list_elem_of_lookup_2, list_elem_of_In, Hm in E. lia. }
  unfold scan. destruct (has scancode KEY_RELEASE); [split; [constructor|done]|]. cbn [extended set_extended shifted ctrl_pressed].
  destruct (_ || _ || _); [split; [constructor|done]|].
  destruct (if _ : bool then None else arrow scancode) as [c|] eqn:Ea.
  - split; [|done]. assert (65 ≤ c ≤ 68); [|repeat constructor; lia].
    destruct (_ =? 0); [done|]. unfold arrow in Ea. repeat case_match; simplify_eq; lia.
  - set (key := default 0 _). assert (Hk : 0 ≤ key < 128) by (unfold key; destruct (shifted k); by apply Hmap).
    destruct (key =? 0); [split; [constructor|done]|]. split; [|done]. repeat constructor; destruct (ctrl_pressed k); try lia;
      unfold with_ctrl; repeat case_match; try lia.
    all: change 31 with (Z.ones 5); rewrite Z.land_ones by lia; pose proof (Z.mod_pos_bound key (2 ^ 5)); lia.
Qed.

(** ** Packets *)

Definition mouse_ok (s : mouse) : Prop :=
  pipe_wf (mouse_pipe s) ∧ zlen (packet s) < (if supports_intellimouse s then 4 else 3).
(** The handler never writes behind the packet, and takes one byte at a time; a full
    packet goes to the pipe as far as there is room for it. *)
Lemma ps2_mouse_handler_spec byte s : mouse_ok s →
  ∃ s', ps2_mouse_handler byte s = Done (0, s') ∧ mouse_ok s' ∧
    let whole := packet s ++ byte :: (if supports_intellimouse s then [] else [0]) in
    if zlen whole =? 4 then
      packet s' = [] ∧
      contents (mouse_pipe s') =
        (if reader_count (mouse_pipe s) =? 0 then []
         else contents (mouse_pipe s) ++ ztake (PIPE_SIZE - 1 - zlen (contents (mouse_pipe s))) whole)
    else packet s' = packet s ++ [byte] ∧ mouse_pipe s' = mouse_pipe s.
Proof.
  intros [Hwf Hn]. unfold ps2_mouse_handler. assert (H4 : zlen (packet s) < 4) by (destruct (supports_intellimouse s); lia).
  rewrite (proj2 (Z.leb_gt _ _)) by lia. cbv zeta.
  set (whole := packet s ++ byte :: (if supports_intellimouse s then [] else [0])).
  assert (Hp : (if negb (supports_intellimouse s) && (zlen (packet s ++ [byte]) =? 3) then (packet s ++ [byte]) ++ [0] else packet s ++ [byte]) =
    if zlen whole =? 4 then whole else packet s ++ [byte]).
  { unfold whole. rewrite !zlen_app. change (zlen [byte]) with 1. destruct (supports_intellimouse s); cbn [negb andb].
    - by destruct (_ =? 4).
    - change (zlen [byte; 0]) with 2. destruct (Z.eqb_spec (zlen (packet s) + 1) 3), (Z.eqb_spec (zlen (packet s) + 2) 4); try lia; [by rewrite <-app_assoc|done]. }
  rewrite Hp. destruct (Z.eqb_spec (zlen whole) 4) as [E|E]; cbn [negb].
  - rewrite E. cbn [Z.eqb Pos.eqb]. destruct (Z.eqb_spec (reader_count (mouse_pipe s)) 0) as [Hr|Hr].
    + eexists. split; [reflexivity|]. pose proof Hwf as (H1 & H2 & H3). cbn [packet mouse_pipe]. unfold mouse_ok. cbn [packet mouse_pipe supports_intellimouse].
      assert (Ew : Pipe.set_read_head (Pipe.write_head (mouse_pipe s)) (mouse_pipe s) =
        mk_pipe (Pipe.write_head (mouse_pipe s)) (Pipe.write_head (mouse_pipe s)) (reader_count (mouse_pipe s)) (writer_count (mouse_pipe s)) (buffer (mouse_pipe s))).
      { unfold Pipe.set_read_head. unfold PIPE_SIZE in H2. norm_int. done. }
      rewrite Ew. split; [split; [done|destruct (supports_intellimouse s); done]|]. split; [done|].
      unfold contents. cbn. rewrite Z.leb_refl, Z.sub_diag. unfold zslice. by apply ztake_le0.
    + destruct (pipe_write_nonblocking_spec [] (mouse_pipe s) whole Hwf Hr) as (p' & Ew & Hwf' & _ & Hc); [by destruct (packet s)|].
      rewrite Ew. eexists. split; [reflexivity|]. split; [split; [done|cbn; destruct (supports_intellimouse s); done]|]. cbn [packet mouse_pipe].
      split; [done|]. rewrite Hc. f_equal. transitivity (ztake (PIPE_SIZE - 1 - zlen (contents (mouse_pipe s))) (ztake (zlen whole) whole)); [|by rewrite (ztake_all (zlen whole)) by lia].
      rewrite ztake_ztake. f_equal. lia.
  - rewrite (proj2 (Z.eqb_neq (zlen (packet s ++ [byte])) 4)).
    2: { unfold whole in E. rewrite zlen_app in *. destruct (supports_intellimouse s); [exact E|change (zlen [byte]) with 1; lia]. }
    eexists. split; [reflexivity|]. split; [|done]. split; [done|]. cbn [packet supports_intellimouse].
    unfold whole in E. rewrite zlen_app in *. destruct (supports_intellimouse s); change (zlen [byte]) with 1 in *; [lia|].
    change (zlen [byte; 0]) with 2 in E. lia.
Qed.
(** A pipe holds 8183 bytes, which is not a multiple of four: when the reader is slow,
    three bytes of a packet are queued, and all later packets are out of step. *)
Definition slow_reader : mouse := mk_mouse [] true (mk_pipe 0 8180 1 1 (zrepeat 8184 0)).
Definition move (l : list Z) : K mouse unit := kfor l (λ b, ps2_mouse_handler b;; mret tt).
Lemma packet_torn :
  match (move [8; 1; 2; 3];; mousedev_read 0 0 8180;; move [9; 4; 5; 6];; mousedev_read 0 0 8) slow_reader with
  | Done ((_, bytes), _) => bytes = [8; 1; 2; 9; 4; 5; 6]
  | _ => False
  end.
Proof. vm_compute. reflexivity. Qed.
