(* ===== verification/Console.v ===== *)
(** * kernel/console.c: messages of the kernel

    Text and numbers go to the terminal that was chosen as console, one character
    per call.  The arguments of kprintf are a list; taking one of another type than
    the format says, or one too many, has no meaning in C. *)

From S2P Require Import Prelude Paging Vfs Block Task Signal Tty.

Record console (D : Type) := mk_console {
  console_tty_id : Z;
  con_ttys : terminals D;
}.
Arguments mk_console {_}. Arguments console_tty_id {_}. Arguments con_ttys {_}.

(** The digits of [value] in front of position [i] of [buffer], last digit first;
    the answer has the position before the first digit. *)
Fixpoint put_digits (fuel : nat) (digit : Z → Z) (base value i : Z) (buffer : list Z) : option (Z * list Z) :=
  if value <=? 0 then Some (i, buffer)
  else match fuel with
  | O => None
  | S fuel =>
    buffer ← store_at i (digit (value mod base)) buffer;
    put_digits fuel digit base (value / base) (i - 1) buffer
  end.
Fixpoint until_nul (l : list Z) : option (list Z) :=
  match l with
  | [] => None
  | c :: l => if c =? 0 then Some [] else s ← until_nul l; Some (c :: s)
  end.
(** The string handed to puts, in a buffer of [size] chars. *)
Definition number_string (digit : Z → Z) (base size value : Z) : option (list Z) :=
  buffer ← store_at (size - 1) 0 (zrepeat size 170);
  r ← (if value =? 0 then b ← store_at (size - 2) 48 buffer; Some (size - 3, b)
       else put_digits (Z.to_nat size) digit base value (size - 2) buffer);
  until_nul (zdrop (fst r + 1) (snd r)).
Definition hex_digit (d : Z) : Z := default 0 (znth [48; 49; 50; 51; 52; 53; 54; 55; 56; 57; 65; 66; 67; 68; 69; 70] d).
Definition dec_digit (d : Z) : Z := 48 + d.
Definition hex_string (value : Z) : option (list Z) := number_string hex_digit 16 17 value.
Definition dec_string (value : Z) : option (list Z) := number_string dec_digit 10 21 value.

Inductive va_arg :=
| Pointer_to (s : list Z)
| Word (z : Z).

Section console.
Context {D : Type} `{!TtyHost D}.
#[local] Notation console := (console D).

Definition on_ttys {A} (m : K (terminals D) A) : K console A := λ s,
  match m (con_ttys s) with
  | Done (a, t) => Done (a, mk_console (console_tty_id s) t)
  | Panic => Panic
  | Fault => Fault
  | OutOfFuel => OutOfFuel
  end.
Definition no_console : K console bool := s ← kget; mret (zlen (ttys (con_ttys s)) =? 0).

Definition putchar (c : Z) : K console unit :=
  none ← no_console;
  if (none : bool) then mret tt
  else s ← kget; on_ttys (tty_write (console_tty_id s) 0 [c]);; mret tt.
Fixpoint putchars (str : list Z) : K console unit :=
  match str with
  | [] => mret tt
  | c :: str => putchar c;; putchars str
  end.
Definition puts (str : list Z) : K console unit :=
  none ← no_console; if (none : bool) then mret tt else putchars str.

Definition kprintf_hex (value : Z) : K console unit :=
  none ← no_console; if (none : bool) then mret tt else s ← kopt (hex_string value); puts s.
Definition kprintf_dec (value : Z) : K console unit :=
  none ← no_console; if (none : bool) then mret tt else s ← kopt (dec_string value); puts s.
(** The least number has no negation. *)
Definition kprintf_dec_signed (value : Z) : K console unit :=
  none ← no_console;
  if (none : bool) then mret tt
  else if value <? 0 then
    putchar 45;;
    if value =? - 2 ^ 63 then kfault else kprintf_dec (- value)
  else kprintf_dec value.

Definition format_one (c : Z) (args : list va_arg) : K console (list va_arg) :=
  if c =? 115 then
    match args with Pointer_to s :: args => puts s;; mret args | _ => kfault end
  else if c =? 99 then
    match args with Word z :: args => putchar (u8 z);; mret args | _ => kfault end
  else if c =? 117 then
    match args with Word z :: args => kprintf_dec (u64 z);; mret args | _ => kfault end
  else if c =? 100 then
    match args with Word z :: args => kprintf_dec_signed (s32 z);; mret args | _ => kfault end
  else if c =? 108 then
    match args with Word z :: args => kprintf_dec_signed (s64 z);; mret args | _ => kfault end
  else if (c =? 120) || (c =? 112) then
    match args with Word z :: args => kprintf_hex (u64 z);; mret args | _ => kfault end
  else if c =? 37 then putchar 37;; mret args
  else mret args.
(** A percent sign at the end of the format: the loop goes past its terminator. *)
Fixpoint format_loop (fmt : list Z) (args : list va_arg) : K console unit :=
  match fmt with
  | [] => mret tt
  | c :: fmt =>
    if c =? 37 then
      match fmt with
      | [] => kfault
      | c :: fmt => args ← format_one c args; format_loop fmt args
      end
    else putchar c;; format_loop fmt args
  end.
Definition kvprintf (fmt : list Z) (args : list va_arg) : K console unit :=
  none ← no_console; if (none : bool) then mret tt else format_loop fmt args.
Definition kprintf (fmt : list Z) (args : list va_arg) : K console unit :=
  none ← no_console; if (none : bool) then mret tt else kvprintf fmt args.

(** ** Choosing the terminal *)

(** "console" *)
Definition console_name : list Z := [99; 111; 110; 115; 111; 108; 101].
Definition console_termios : termios_t := mk_termios ICRNL OPOST (Z.lor (Z.lor (Z.lor ICANON ECHO) ECHOE) ECHOCTL).
(** The three calls of devfs.c and vfs.c are arguments. *)
Definition console_init (lookup_device : list Z → K D (Z * Z)) (devfs_stat : Z → K D (Z * stat_t))
    (devfs_mknod : list Z → Z → Z → K D Z) (device : list Z) : K console unit :=
  r ← on_ttys (lift_host (lookup_device device));
  if r.1 <? 0 then kpanic
  else
    q ← on_ttys (lift_host (devfs_stat r.2));
    if q.1 <? 0 then kpanic
    else if negb (st_type q.2 =? DT_CHAR) then kpanic
    else
      s ← kget;
      if negb (major (st_rdev q.2) =? tty_driver_index (con_ttys s)) then kpanic
      else
        let id := s32 (minor (st_rdev q.2)) in
        kmodify (λ s, mk_console id (con_ttys s));;
        t ← on_ttys (tty id);
        on_ttys (put_tty id (set_termios console_termios t));;
        on_ttys (lift_host (devfs_mknod console_name DT_CHAR (makedev (tty_driver_index (con_ttys s)) id)));;
        mret tt.
End console.

(** ** Numbers *)

(** A reader of numbers, from the first digit on. *)
Definition digit_value (c : Z) : option Z :=
  if (48 <=? c) && (c <=? 57) then Some (c - 48)
  else if (65 <=? c) && (c <=? 70) then Some (c - 55)
  else None.
Fixpoint read_digits (base acc : Z) (str : list Z) : option Z :=
  match str with
  | [] => Some acc
  | c :: str => d ← digit_value c; if base <=? d then None else read_digits base (acc * base + d) str
  end.
Definition read_number (base : Z) (str : list Z) : option Z :=
  match str with [] => None | _ => read_digits base 0 str end.

Section numbers.
Context (digit : Z → Z) (base : Z) (Hbase : 2 ≤ base ≤ 16).
Context (Hdigit : ∀ d, 0 ≤ d < base → digit d ≠ 0 ∧ digit_value (digit d) = Some d).

(** The digits of a number, first digit first. *)
Fixpoint digits_of (fuel : nat) (value : Z) : list Z :=
  if value <=? 0 then []
  else match fuel with
  | O => []
  | S fuel => digits_of fuel (value / base) ++ [digit (value mod base)]
  end.
Lemma read_digits_app a b acc : read_digits base acc (a ++ b) = v ← read_digits base acc a; read_digits base v b.
Proof.
  revert acc. induction a as [|c a IH]; intros acc; [done|]. cbn [read_digits app].
  destruct (digit_value c) as [d|]; [|done]. cbn [mbind option_bind]. destruct (base <=? d); [done|]. apply IH.
Qed.
Lemma digits_of_value fuel : ∀ value, 0 ≤ value < base ^ Z.of_nat fuel → read_digits base 0 (digits_of fuel value) = Some value.
Proof using All.
  induction fuel as [|fuel IH]; intros value Hv; cbn [digits_of].
  - rewrite Z.pow_0_r in Hv. rewrite (proj2 (Z.leb_le _ _)) by lia. cbn. f_equal. lia.
  - destruct (Z.leb_spec value 0); [cbn; f_equal; lia|].
    assert (Hm : 0 ≤ value mod base < base) by (apply Z.mod_pos_bound; lia).
    rewrite read_digits_app, IH. 2: { rewrite Nat2Z.inj_succ, Z.pow_succ_r in Hv by lia. split; [apply Z.div_pos; lia|apply Z.div_lt_upper_bound; lia]. }
    destruct (Hdigit _ Hm) as [_ E]. cbn [mbind option_bind read_digits]. rewrite E. cbn [mbind option_bind].
    rewrite (proj2 (Z.leb_gt _ _)) by lia. f_equal. rewrite (Z.div_mod value base) at 3 by lia. lia.
Qed.
Lemma digits_of_nonzero fuel value : Forall (λ c, c ≠ 0) (digits_of fuel value).
Proof using All.
  revert value. induction fuel as [|fuel IH]; intros value; cbn [digits_of]; destruct (value <=? 0); try constructor.
  apply Forall_app. split; [apply IH|]. constructor; [|constructor]. apply Hdigit, Z.mod_pos_bound. lia.
Qed.
Lemma digits_of_length n : ∀ fuel value, 0 ≤ value < base ^ Z.of_nat n → (length (digits_of fuel value) ≤ n)%nat.
Proof using Hbase.
  induction n as [|n IH]; intros fuel value Hv; destruct fuel as [|fuel]; cbn [digits_of]; destruct (Z.leb_spec value 0); cbn; try lia.
  rewrite length_app. cbn. specialize (IH fuel (value / base)). rewrite Nat2Z.inj_succ, Z.pow_succ_r in Hv by lia.
  assert (0 ≤ value / base < base ^ Z.of_nat n); [|lia]. split; [apply Z.div_pos; lia|apply Z.div_lt_upper_bound; lia].
Qed.

Lemma put_digits_spec fuel : ∀ value i pre tl, 0 ≤ value < base ^ Z.of_nat fuel →
  zlen pre = i + 1 → (length (digits_of fuel value) ≤ length pre)%nat →
  ∃ pre', put_digits fuel digit base value i (pre ++ tl) = Some (i - zlen (digits_of fuel value), pre' ++ digits_of fuel value ++ tl) ∧
    zlen pre' = i + 1 - zlen (digits_of fuel value).
Proof using Hbase.
  induction fuel as [|fuel IH]; intros value i pre tl Hv Hi Hl; cbn [put_digits digits_of] in *.
  - rewrite Z.pow_0_r in Hv. rewrite (proj2 (Z.leb_le _ _)) in * by lia. exists pre. rewrite zlen_nil. split; [do 2 f_equal; lia|lia].
  - destruct (Z.leb_spec value 0) as [H0|H0]; [exists pre; rewrite zlen_nil; split; [do 2 f_equal; lia|lia]|].
    rewrite length_app in Hl. cbn [length] in Hl. destruct pre as [|x pre _] using rev_ind; [cbn in Hl; lia|].
    rewrite zlen_app in Hi. change (zlen [x]) with 1 in Hi. rewrite length_app in Hl. cbn [length] in Hl.
    unfold store_at. rewrite !zlen_app. change (zlen [x]) with 1. pose proof (zlen_nonneg pre). pose proof (zlen_nonneg tl).
    rewrite (proj2 (Z.leb_le _ _)), (proj2 (Z.ltb_lt _ _)) by lia. cbn [andb mbind option_bind].
    assert (Es : <[Z.to_nat i := digit (value mod base)]> ((pre ++ [x]) ++ tl) = pre ++ digit (value mod base) :: tl).
    { rewrite <-app_assoc. unfold zlen in *. replace (Z.to_nat i) with (length pre + 0)%nat by lia. by rewrite insert_app_r. }
    rewrite Es. destruct (IH (value / base) (i - 1) pre (digit (value mod base) :: tl)) as (pre' & E & Hp); [|lia|lia|].
    { rewrite Nat2Z.inj_succ, Z.pow_succ_r in Hv by lia. split; [apply Z.div_pos; lia|apply Z.div_lt_upper_bound; lia]. }
    exists pre'. change (zlen [digit (value mod base)]) with 1. rewrite E, <-!app_assoc. split; [do 2 f_equal; lia|lia].
Qed.
Lemma until_nul_app l tl : Forall (λ c, c ≠ 0) l → until_nul (l ++ 0 :: tl) = Some l.
Proof. induction 1 as [|c l Hc _ IH]; [done|]. cbn [until_nul app]. by rewrite (proj2 (Z.eqb_neq c 0)), IH. Qed.

Lemma insert_last_replicate n (x y : Z) : <[n := y]> (replicate (n + 1) x) = replicate n x ++ [y].
Proof. rewrite replicate_add. rewrite <-(length_replicate n x) at 1. rewrite <-(Nat.add_0_r (length _)). by rewrite insert_app_r. Qed.
(** [n] digits are enough, and fit before the terminator. *)
Lemma number_string_spec (n : nat) value : 0 < value < base ^ Z.of_nat n → (1 ≤ n)%nat →
  ∃ fuel, number_string digit base (Z.of_nat n + 1) value = Some (digits_of fuel value) ∧ value < base ^ Z.of_nat fuel ∧ (n ≤ fuel)%nat.
Proof using All.
  intros Hv Hn. set (fuel := Z.to_nat (Z.of_nat n + 1)). exists fuel.
  assert (Hf : base ^ Z.of_nat n ≤ base ^ Z.of_nat fuel) by (apply Z.pow_le_mono_r; lia).
  split; [|lia]. unfold number_string, store_at. rewrite (proj2 (Z.eqb_neq value 0)) by lia.
  unfold zlen at 1, zrepeat. rewrite length_replicate, (proj2 (Z.leb_le _ _)), (proj2 (Z.ltb_lt _ _)) by lia. cbn [andb mbind option_bind].
  replace (<[Z.to_nat (Z.of_nat n + 1 - 1) := 0]> (replicate (Z.to_nat (Z.of_nat n + 1)) 170)) with (replicate n 170 ++ [0]).
  2: { replace (Z.to_nat (Z.of_nat n + 1)) with (n + 1)%nat by lia. replace (Z.to_nat (Z.of_nat n + 1 - 1)) with n by lia.
       symmetry. apply insert_last_replicate. }
  destruct (put_digits_spec fuel value (Z.of_nat n + 1 - 2) (replicate n 170) [0]) as (pre & E & Hp); [lia|unfold zlen; rewrite length_replicate; lia| |].
  { rewrite length_replicate. apply digits_of_length. lia. }
  unfold fuel in E at 1. rewrite E. cbn [fst snd mbind option_bind]. rewrite zdrop_app_ge by lia.
  rewrite zdrop_le0 by lia. apply until_nul_app, digits_of_nonzero.
Qed.
End numbers.

Lemma hex_digits d : 0 ≤ d < 16 → hex_digit d ≠ 0 ∧ digit_value (hex_digit d) = Some d.
Proof.
  intros Hd. assert (H : forallb (λ d, negb (hex_digit d =? 0) && bool_decide (digit_value (hex_digit d) = Some d)) (seqZ 0 16) = true)
    by (vm_compute; reflexivity).
  rewrite forallb_forall in H. specialize (H d). rewrite <-list_elem_of_In, elem_of_seqZ, andb_true_iff, negb_true_iff, Z.eqb_neq, bool_decide_eq_true in H.
  apply H. lia.
Qed.
Lemma dec_digits d : 0 ≤ d < 10 → dec_digit d ≠ 0 ∧ digit_value (dec_digit d) = Some d.
Proof.
  intros Hd. unfold dec_digit, digit_value. rewrite (proj2 (Z.leb_le _ _)), (proj2 (Z.leb_le _ _)) by lia.
  split; [lia|]. cbn. f_equal. lia.
Qed.

(** The text of a number: what is read back from it, and its length. *)
Definition reads_back (base width value : Z) (str : list Z) : Prop :=
  read_number base str = Some value ∧ 1 ≤ zlen str ≤ width.
Lemma number_string_reads digit base (n : nat) value : 2 ≤ base ≤ 16 →
  (∀ d, 0 ≤ d < base → digit d ≠ 0 ∧ digit_value (digit d) = Some d) → 0 < value < base ^ Z.of_nat n → (1 ≤ n)%nat →
  ∃ str, number_string digit base (Z.of_nat n + 1) value = Some str ∧ reads_back base (Z.of_nat n) value str.
Proof.
  intros Hb Hd Hv Hn. destruct (number_string_spec digit base Hb Hd n value Hv Hn) as (fuel & E & Hf & _).
  exists (digits_of digit base fuel value). split; [done|].
  pose proof (digits_of_value digit base Hb Hd fuel value ltac:(lia)) as Hr. pose proof (digits_of_length digit base Hb n fuel value ltac:(lia)) as Hl.
  unfold reads_back, read_number, zlen in *. destruct (digits_of digit base fuel value) as [|c str]; [cbn in Hr; injection Hr as <-; lia|].
  split; [done|]. cbn [length] in *. lia.
Qed.
Lemma hex_string_reads value : 0 ≤ value < 2 ^ 64 → ∃ str, hex_string value = Some str ∧ reads_back 16 16 value str.
Proof.
  intros Hv. destruct (decide (value = 0)) as [->|Hn]; [exists [48]; repeat split; vm_compute; discriminate|].
  apply (number_string_reads hex_digit 16 16); try lia. apply hex_digits.
Qed.
Lemma dec_string_reads value : 0 ≤ value < 2 ^ 64 → ∃ str, dec_string value = Some str ∧ reads_back 10 20 value str.
Proof.
  intros Hv. destruct (decide (value = 0)) as [->|Hn]; [exists [48]; repeat split; vm_compute; discriminate|].
  apply (number_string_reads dec_digit 10 20); try lia. apply dec_digits.
Qed.

Lemma puts_once {D} `{!TtyHost D} (s : console D) str :
  (none ← no_console; if (none : bool) then mret tt else str ← kopt (Some str); puts str) s = puts str s.
Proof.
  unfold puts at 1, no_console, kget, mbind, K_bind, mret, K_ret. cbn [kopt]. unfold mret, K_ret.
  destruct (zlen (ttys (con_ttys s)) =? 0) eqn:E; unfold puts, no_console, kget, mbind, K_bind, mret, K_ret; by rewrite E.
Qed.
(** Numbers in messages read back.  For every 64-bit number kprintf_hex and
    kprintf_dec put a string on the console, of at most 16 and 20 digits, that reads
    back as the number; kprintf_dec_signed puts a minus sign before the digits of a
    negative number, except for the least one, which has no negation. *)
Theorem printed_numbers_read_back {D} `{!TtyHost D} (s : console D) value :
  (0 ≤ value < 2 ^ 64 → ∃ hex dec, kprintf_hex value s = puts hex s ∧ reads_back 16 16 value hex ∧
     kprintf_dec value s = puts dec s ∧ reads_back 10 20 value dec) ∧
  (- 2 ^ 63 < value < 0 → ∃ dec, kprintf_dec_signed value s = (putchar 45;; puts dec) s ∧ reads_back 10 20 (- value) dec).
Proof.
  assert (Hdec : ∀ v, 0 ≤ v < 2 ^ 64 → ∃ dec, (∀ s : console D, kprintf_dec v s = puts dec s) ∧ reads_back 10 20 v dec).
  { intros v Hv. destruct (dec_string_reads v Hv) as (dec & E & R). exists dec. split; [|done]. intros s'.
    unfold kprintf_dec. rewrite E. apply puts_once. }
  split; intros Hv.
  - destruct (hex_string_reads value Hv) as (hex & E & R). destruct (Hdec value Hv) as (dec & E' & R'). exists hex, dec.
    split_and!; try done.
    unfold kprintf_hex. rewrite E. apply puts_once.
  - destruct (Hdec (- value)) as (dec & E & R); [lia|]. exists dec. split; [|done].
    unfold kprintf_dec_signed. rewrite (proj2 (Z.ltb_lt _ _)), (proj2 (Z.eqb_neq _ _)) by lia.
    unfold mbind at 1, K_bind at 1. unfold no_console at 1, kget, mbind, K_bind, mret, K_ret.
    destruct (Z.eqb_spec (zlen (ttys (con_ttys s))) 0) as [E0|E0].
    + unfold putchar, puts, no_console, kget, mbind, K_bind, mret, K_ret. rewrite !E0. cbn. rewrite E0. done.
    + destruct (putchar 45 s) as [[[] s']| | |]; done.
Qed.
#[export] Instance list_host : TtyHost (list Z) :=
  {| host_kill := λ _ _, mret 0; host_memory := λ A _, kfault; host_mknod := λ _ _ _, mret 0 |}.
Definition screen_con : console (list Z) :=
  mk_console 0 (mk_terminals [mk_tty (mk_termios 0 0 0) 0 (λ _ b, kmodify (λ d, d ++ b);; mret (zlen b)) (λ _ b, kmodify (λ d, d ++ b);; mret (zlen b))
    (zrepeat 4096 0) 0 0 (zrepeat 1024 0) 0 0 false None] 1 []).
Lemma printed_numbers_read_back_witness :
  (∃ hex dec, kprintf_hex 4096 screen_con = puts hex screen_con ∧ reads_back 16 16 4096 hex ∧
     kprintf_dec 4096 screen_con = puts dec screen_con ∧ reads_back 10 20 4096 dec) ∧
  (∃ dec, kprintf_dec_signed (-5) screen_con = (putchar 45;; puts dec) screen_con ∧ reads_back 10 20 5 dec).
Proof.
  split; [apply (printed_numbers_read_back screen_con 4096); lia|].
  apply (proj2 (printed_numbers_read_back screen_con (-5))). lia.
Defined.

(** "%d of %x" on a terminal. *)
Example kprintf_text :
  match kprintf [37; 100; 32; 111; 102; 32; 37; 120] [Word (-7); Word 48879] screen_con with
  | Done (_, s) => host (con_ttys s) = [45; 55; 32; 111; 102; 32; 66; 69; 69; 70]
  | _ => False
  end.
Proof. vm_compute. reflexivity. Qed.
