(* ===== verification/Fbcon.v ===== *)
(** * kernel/fbcon.c: the console on the framebuffer

    A grid of coloured characters, drawn into the memory of the framebuffer, with a
    cursor and a parser of escape sequences.  Memory from kmalloc is a fresh list; a
    glyph is the list of its bytes; the three bytes of a pixel of a coloured bitmap
    are one element, so that colored_bitmap, which each call overwrites in full, is
    the result of [colorize_bitmap]. *)

From S2P Require Import Prelude Paging Vfs Block Task Signal Tty.

Definition DEFAULT_FONT_WIDTH : Z := 8.
Definition DEFAULT_FONT_HEIGHT : Z := 16.

Record limine_framebuffer := mk_framebuffer {
  fb_width : Z;
  fb_height : Z;
  fb_bpp : Z;
  red_mask_shift : Z;
  green_mask_shift : Z;
  blue_mask_shift : Z;
}.
Record font_t := mk_font {
  font_ascii : list (list Z);
  font_width : Z;
  font_height : Z;
}.
Record character_t := mk_character {
  c : Z;
  fg : list Z;
  bg : list Z;
}.
#[global] Instance character_eq_dec : EqDecision character_t.
Proof. solve_decision. Defined.
Inductive parser_state := TEXT | ESCAPE | CSI.
Record ansi_parser_t := mk_parser {
  pstate : parser_state;
  params : list Z;
  current_param : Z;
  param_count : Z;
  digit_added : bool;
}.
Record grid := mk_grid {
  ascii : list (list Z);
  c_width : Z;
  c_height : Z;
  width : Z;
  height : Z;
  bottom_margin : Z;
  right_margin : Z;
}.
Record fbcon := mk_fbcon {
  framebuffer : option limine_framebuffer;
  fb_memory : list Z;
  console_buffer : list character_t;
  geo : grid;
  bg_color : list Z;
  fg_color : list Z;
  cursor_x : Z;
  cursor_y : Z;
  ansi_parser : ansi_parser_t;
}.

Definition set_fb_memory x s := mk_fbcon (framebuffer s) x (console_buffer s) (geo s) (bg_color s) (fg_color s) (cursor_x s) (cursor_y s) (ansi_parser s).
Definition set_console_buffer x s := mk_fbcon (framebuffer s) (fb_memory s) x (geo s) (bg_color s) (fg_color s) (cursor_x s) (cursor_y s) (ansi_parser s).
Definition set_geo x s := mk_fbcon (framebuffer s) (fb_memory s) (console_buffer s) x (bg_color s) (fg_color s) (cursor_x s) (cursor_y s) (ansi_parser s).
Definition set_colors b f s := mk_fbcon (framebuffer s) (fb_memory s) (console_buffer s) (geo s) b f (cursor_x s) (cursor_y s) (ansi_parser s).
Definition set_cursor x y s := mk_fbcon (framebuffer s) (fb_memory s) (console_buffer s) (geo s) (bg_color s) (fg_color s) (u16 x) (u16 y) (ansi_parser s).
Definition set_parser x s := mk_fbcon (framebuffer s) (fb_memory s) (console_buffer s) (geo s) (bg_color s) (fg_color s) (cursor_x s) (cursor_y s) x.

Definition BLACK : list Z := [0; 0; 0].
Definition DEFAULT_FG : list Z := [0xAA; 0xAA; 0xAA].
Definition ansi_palette : list (list Z) :=
  [[0; 0; 0]; [0xCD; 0; 0]; [0; 0xCD; 0]; [0xCD; 0xCD; 0]; [0; 0; 0xEE]; [0xCD; 0; 0xCD]; [0; 0xCD; 0xCD]; [0xE5; 0xE5; 0xE5];
   [0x7F; 0x7F; 0x7F]; [0xFF; 0; 0]; [0; 0xFF; 0]; [0xFF; 0xFF; 0]; [0x5C; 0x5C; 0xFF]; [0xFF; 0; 0xFF]; [0; 0xFF; 0xFF]; [0xFF; 0xFF; 0xFF]].
Definition zero_params : list Z := zrepeat 16 0.
Definition initial_parser : ansi_parser_t := mk_parser TEXT zero_params 0 0 false.

(** ** Pixels *)

Definition row_bytes (g : grid) : Z := (c_width g + 7) / 8.
Definition glyph_bit (g : grid) (bitmap : list Z) (x y : Z) : option bool :=
  b ← znth bitmap (y * row_bytes g + x / 8); Some (has b (Z.shiftl 1 (7 - x mod 8))).
(** The pixels of a cell, row by row. *)
Definition cell_pixels (g : grid) : list (Z * Z) :=
  concat ((λ y, (λ x, (x, y)) <$> seqZ 0 (c_width g)) <$> seqZ 0 (c_height g)).
Definition colorize_bitmap (index : Z) (inv : bool) (s : fbcon) : option (list (list Z)) :=
  if 128 <=? index then None
  else
    bitmap ← znth (ascii (geo s)) index;
    let fg := if inv then bg_color s else fg_color s in
    let bg := if inv then fg_color s else bg_color s in
    mapM (λ p, b ← glyph_bit (geo s) bitmap (fst p) (snd p); Some (if b : bool then fg else bg)) (cell_pixels (geo s)).

Definition poke_fb (index v : Z) : K fbcon unit :=
  s ← kget; m ← kopt (store_at index v (fb_memory s)); kmodify (set_fb_memory m).
Definition put_pixel (pixel_index : Z) (color : list Z) : K fbcon unit :=
  s ← kget;
  fb ← kopt (framebuffer s);
  r ← kopt (znth color 0);
  poke_fb (pixel_index + red_mask_shift fb / 8) r;;
  g ← kopt (znth color 1);
  poke_fb (pixel_index + green_mask_shift fb / 8) g;;
  b ← kopt (znth color 2);
  poke_fb (pixel_index + blue_mask_shift fb / 8) b.
(** The index is an int. *)
Definition pixel_of (fb : limine_framebuffer) (g : grid) (cell_x cell_y x y : Z) : Z :=
  s32 (u64 (u64 ((cell_y * c_height g + y) * fb_width fb * fb_bpp fb) / 8 + (cell_x * c_width g + x) * fb_bpp fb / 8)).
(** The loops that draw a bitmap at a cell. *)
Definition blit (cell_x cell_y : Z) (bitmap : option (list (list Z))) : K fbcon unit :=
  s ← kget;
  fb ← kopt (framebuffer s);
  let g := geo s in
  kfor (seqZ 0 (c_height g)) (λ y,
    kfor (seqZ 0 (c_width g)) (λ x,
      bitmap ← kopt bitmap;
      color ← kopt (znth bitmap (y * c_width g + x));
      put_pixel (pixel_of fb g cell_x cell_y x y) color)).
Definition cell_at (i : Z) : K fbcon character_t := s ← kget; kopt (znth (console_buffer s) i).
Definition put_cell (i : Z) (ch : character_t) : K fbcon unit :=
  s ← kget; b ← kopt (store_at i ch (console_buffer s)); kmodify (set_console_buffer b).
Definition colorized (index : Z) (inv : bool) : K fbcon (option (list (list Z))) :=
  kgets (colorize_bitmap (u8 index) inv).
(** One colour over whole rows of the framebuffer. *)
Definition fill_rows (first last : Z) (color : fbcon → list Z) : K fbcon unit :=
  s ← kget;
  fb ← kopt (framebuffer s);
  kfor (seqZ first (last - first)) (λ y,
    kfor (seqZ 0 (fb_width fb)) (λ x,
      s ← kget; put_pixel (u32 (u64 (y * fb_width fb + x) * fb_bpp fb / 8)) (color s))).
Definition with_framebuffer (m : K fbcon unit) : K fbcon unit :=
  s ← kget; match framebuffer s with None => mret tt | Some _ => m end.

(** ** Drawing *)

(** The differing cells of row [y] become those of the row below. *)
Definition scroll_row (y : Z) : K fbcon unit :=
  s ← kget;
  let w := width (geo s) in
  kfor (seqZ 0 w) (λ x,
    old ← cell_at (u32 (y * w + x));
    new ← cell_at (u32 ((y + 1) * w + x));
    if bool_decide (old = new) then mret tt
    else
      kmodify (set_colors (bg new) (fg new));;
      b ← colorized (c new) false;
      blit x y b).
Definition scroll : K fbcon unit := with_framebuffer (
  s ← kget;
  let w := width (geo s) in
  let h := height (geo s) in
  kfor (seqZ 0 (u32 (h - 1))) scroll_row;;
  (match framebuffer s with
   | Some fb => fill_rows (u32 (fb_height fb - c_height (geo s) - bottom_margin (geo s))) (fb_height fb) (λ _, BLACK)
   | None => kfault
   end);;
  kfor (seqZ 0 (u32 (h - 1))) (λ y, kfor (seqZ 0 w) (λ x, ch ← cell_at (u32 ((y + 1) * w + x)); put_cell (u32 (y * w + x)) ch));;
  kfor (seqZ 0 w) (λ x, put_cell (u32 (u32 (h - 1) * w + x)) (mk_character 32 BLACK BLACK));;
  kmodify (set_colors (bg_color s) (fg_color s))).
Definition clear_screen : K fbcon unit := with_framebuffer (
  s ← kget;
  (match framebuffer s with Some fb => fill_rows 0 (fb_height fb) bg_color | None => kfault end);;
  kfor (seqZ 0 (u32 (width (geo s) * height (geo s)))) (λ i, put_cell i (mk_character 32 (fg_color s) (bg_color s)))).
Definition draw_cursor : K fbcon unit := with_framebuffer (
  s ← kget;
  ch ← cell_at (u32 (cursor_y s * width (geo s) + cursor_x s));
  b ← colorized (c ch) true;
  blit (cursor_x s) (cursor_y s) b).
(** Comparing an int with the uint32_t makes it unsigned. *)
Definition update_cursor (old_x old_y : Z) : K fbcon unit :=
  s ← kget;
  (if (negb (old_x =? cursor_x s) || negb (old_y =? cursor_y s)) && ((u32 old_x <? width (geo s)) && (u32 old_y <? height (geo s))) then
     ch ← cell_at (u32 (old_y * width (geo s) + old_x));
     b ← colorized (c ch) false;
     blit old_x old_y b
   else mret tt);;
  draw_cursor.
Definition newline : K fbcon unit :=
  s ← kget;
  let old_x := cursor_x s in
  let old_y := cursor_y s in
  let h := height (geo s) in
  kmodify (set_cursor 0 (cursor_y s + 1));;
  s ← kget;
  if h <=? cursor_y s then
    scroll;;
    kmodify (set_cursor 0 (h - 1));;
    update_cursor old_x (s32 (h - 2))
  else update_cursor old_x old_y.
Definition set_cursor_position (x y : Z) : K fbcon unit :=
  s ← kget;
  let x := u16 x in
  let y := u16 y in
  if (x <? width (geo s)) && (y <? height (geo s)) then
    kmodify (set_cursor x y);; update_cursor (cursor_x s) (cursor_y s)
  else mret tt.
Definition get_cursor_position (s : fbcon) : Z * Z := (cursor_x s, cursor_y s).
Definition setbg_color (color : list Z) : K fbcon unit := s ← kget; kmodify (set_colors color (fg_color s)).
Definition setfg_color (color : list Z) : K fbcon unit := s ← kget; kmodify (set_colors (bg_color s) color).

(** [ch] is the byte of the char. *)
Definition backspace : K fbcon unit :=
  s ← kget;
  (if cursor_x s =? 0 then
     if 0 <? cursor_y s then kmodify (set_cursor (width (geo s) - 1) (cursor_y s - 1)) else mret tt
   else kmodify (set_cursor (cursor_x s - 1) (cursor_y s)));;
  update_cursor (cursor_x s) (cursor_y s).
Definition draw_char (ch : Z) : K fbcon unit :=
  s ← kget;
  b ← colorized ch false;
  blit (cursor_x s) (cursor_y s) b;;
  put_cell (u32 (cursor_y s * width (geo s) + cursor_x s)) (mk_character ch (fg_color s) (bg_color s));;
  kmodify (set_cursor (cursor_x s + 1) (cursor_y s));;
  s ← kget;
  if width (geo s) <=? cursor_x s then kmodify (set_cursor (width (geo s) - 1) (cursor_y s));; newline
  else draw_cursor.
Definition fbcon_putchar (ch : Z) : K fbcon unit :=
  s ← kget;
  if bool_decide (framebuffer s = None) || (128 <=? ch) then mret tt
  else if ch =? 10 then newline
  else if ch =? 8 then backspace
  else if ch =? 0 then mret tt
  else draw_char ch.

(** ** Start and fonts *)

Definition lay_out (fb : limine_framebuffer) (glyphs : list (list Z)) (cw ch : Z) : option grid :=
  if (cw =? 0) || (ch =? 0) then None
  else Some (mk_grid glyphs cw ch (u32 (fb_width fb / cw)) (u32 (fb_height fb / ch))
               (u32 (fb_height fb mod ch)) (u32 (fb_width fb mod cw))).
Definition use_font (glyphs : list (list Z)) (cw ch : Z) : K fbcon unit :=
  s ← kget;
  fb ← kopt (framebuffer s);
  g ← kopt (lay_out fb glyphs cw ch);
  kmodify (set_geo g);;
  kmodify (set_console_buffer (zrepeat (u32 (width g * height g)) (mk_character 0 BLACK BLACK)));;
  clear_screen;;
  set_cursor_position 0 0.
(** [default_font] is the table of font/default_font.h. *)
Definition fbcon_init (default_font : list (list Z)) : K fbcon unit :=
  use_font (ztake 128 default_font) DEFAULT_FONT_WIDTH DEFAULT_FONT_HEIGHT.
(** 7 / 8 is 0, so the size counts a byte for each pixel: more than a glyph has, and
    all of it is read from the memory of the caller.  [font_ascii] is what can be read
    behind each of its pointers. *)
Definition glyph_size (font : font_t) : Z := (font_width font + 7 / 8) * font_height font.
Definition setfont (font : font_t) : K fbcon unit :=
  glyphs ← kopt (mapM (λ i, p ← znth (font_ascii font) i; field 0 (glyph_size font) p) (seqZ 0 128));
  use_font glyphs (font_width font) (font_height font).

(** ** Writing *)

Fixpoint fbcon_echo_loop (buffer : list Z) : K fbcon unit :=
  match buffer with
  | [] => mret tt
  | b :: buffer => fbcon_putchar b;; fbcon_echo_loop buffer
  end.
Definition fbcon_echo (buffer : list Z) : K fbcon Z :=
  if INT_MAX <? zlen buffer then kfault else fbcon_echo_loop buffer;; mret (zlen buffer).

(** Reading behind the end of params[16] is a fault, and so is writing there. *)
Definition param (i : Z) (p : ansi_parser_t) : option Z := znth (params p) i.
Definition param_or (i d : Z) (p : ansi_parser_t) : option Z := v ← param i p; Some (if v =? 0 then d else v).
(** Signed overflow has no meaning in C. *)
Definition int_ok (z : Z) : option Z := if (- 2 ^ 31 <=? z) && (z <? 2 ^ 31) then Some z else None.
Definition push_param (p : ansi_parser_t) : option ansi_parser_t :=
  if (0 <=? param_count p) && (param_count p <? zlen (params p)) then
    Some (mk_parser (pstate p) (<[Z.to_nat (param_count p) := current_param p]> (params p)) 0 (param_count p + 1) false)
  else None.
Definition palette (n : Z) : option (list Z) := znth ansi_palette n.
Definition sgr (n : Z) : K fbcon unit :=
  s ← kget;
  if n =? 0 then kmodify (set_colors BLACK DEFAULT_FG)
  else if (30 <=? n) && (n <=? 37) then col ← kopt (palette (n - 30)); setfg_color col
  else if (40 <=? n) && (n <=? 47) then col ← kopt (palette (n - 40)); setbg_color col
  else if (90 <=? n) && (n <=? 97) then col ← kopt (palette (n - 90 + 8)); setfg_color col
  else if (100 <=? n) && (n <=? 107) then col ← kopt (palette (n - 100 + 8)); setbg_color col
  else mret tt.
Definition true_color (p : ansi_parser_t) : option (list Z) :=
  r ← param 2 p; g ← param 3 p; b ← param 4 p; Some [u8 r; u8 g; u8 b].
Definition select_graphics (p : ansi_parser_t) : K fbcon unit :=
  p0 ← kopt (param 0 p);
  p1 ← kopt (param 1 p);
  if (p0 =? 38) && (p1 =? 2) && (5 <=? param_count p) then col ← kopt (true_color p); setfg_color col
  else if (p0 =? 48) && (p1 =? 2) && (5 <=? param_count p) then col ← kopt (true_color p); setbg_color col
  else if param_count p =? 0 then kmodify (set_colors BLACK DEFAULT_FG)
  else kfor (seqZ 0 (param_count p)) (λ i, v ← kopt (param i p); sgr v).
Definition cursor_down (n : Z) : K fbcon unit :=
  s ← kget;
  let h := height (geo s) in
  new_y ← kopt (int_ok (cursor_y s + n));
  new_y ← (if h <=? u32 new_y then
             kfor (seqZ 0 (s32 (u32 (new_y - (h - 1))))) (λ _, scroll);; mret (s32 (u32 (h - 1)))
           else mret new_y);
  set_cursor_position (cursor_x s) new_y.
Definition end_sequence (b : Z) (p : ansi_parser_t) : K fbcon unit :=
  s ← kget;
  if (b =? 72) || (b =? 102) then
    column ← kopt (param_or 1 1 p);
    row ← kopt (param_or 0 1 p);
    set_cursor_position (column - 1) (row - 1)
  else if b =? 74 then clear_screen;; draw_cursor
  else if b =? 65 then n ← kopt (param_or 0 1 p); set_cursor_position (cursor_x s) (if n <? cursor_y s then cursor_y s - n else 0)
  else if b =? 66 then n ← kopt (param_or 0 1 p); cursor_down n
  else if b =? 67 then
    n ← kopt (param_or 0 1 p);
    new_x ← kopt (int_ok (cursor_x s + n));
    set_cursor_position (if width (geo s) <=? u32 new_x then width (geo s) - 1 else new_x) (cursor_y s)
  else if b =? 68 then
    n ← kopt (param_or 0 1 p);
    new_x ← kopt (int_ok (cursor_x s - n));
    set_cursor_position (if new_x <? 0 then 0 else new_x) (cursor_y s)
  else if b =? 109 then select_graphics p
  else mret tt.
Definition parse_csi (b : Z) (p : ansi_parser_t) : K fbcon unit :=
  if (48 <=? b) && (b <=? 57) then
    v ← kopt (int_ok (current_param p * 10));
    v ← kopt (int_ok (v + (b - 48)));
    kmodify (set_parser (mk_parser CSI (params p) v (param_count p) true))
  else if (b =? 59) && (param_count p <? 16) then p ← kopt (push_param p); kmodify (set_parser p)
  else
    p ← (if digit_added p && (param_count p <? 16) then
           q ← kopt (push_param p); mret (mk_parser CSI (params q) (current_param p) (param_count q) (digit_added p))
         else mret p);
    kmodify (set_parser p);;
    end_sequence b p;;
    kmodify (set_parser (mk_parser TEXT (params p) (current_param p) (param_count p) (digit_added p))).
Definition write_byte (b : Z) : K fbcon unit :=
  s ← kget;
  let p := ansi_parser s in
  match pstate p with
  | TEXT =>
    if b =? 27 then kmodify (set_parser (mk_parser ESCAPE (params p) (current_param p) (param_count p) (digit_added p)))
    else fbcon_putchar b
  | ESCAPE =>
    if b =? 91 then kmodify (set_parser (mk_parser CSI zero_params 0 0 false))
    else kmodify (set_parser (mk_parser TEXT (params p) (current_param p) (param_count p) (digit_added p)))
  | CSI => parse_csi b p
  end.
Fixpoint fbcon_write_loop (buffer : list Z) : K fbcon unit :=
  match buffer with
  | [] => mret tt
  | b :: buffer => write_byte b;; fbcon_write_loop buffer
  end.
Definition fbcon_write (buffer : list Z) : K fbcon Z :=
  if INT_MAX <? zlen buffer then kfault else fbcon_write_loop buffer;; mret (zlen buffer).
