(* ===== verification/FbconSafe.v ===== *)
(** * The console never leaves its memory

    Every byte stream keeps the cursor on the screen and every access within the
    framebuffer, the grid of characters and the glyphs. *)

From S2P Require Import Prelude Paging Vfs Block Task Signal Tty Fbcon.

(** ** Total correctness *)

Definition triple {S A} (P : S → Prop) (m : K S A) (Q : A → S → Prop) : Prop :=
  ∀ s, P s → ∃ a s', m s = Done (a, s') ∧ Q a s'.
Lemma triple_ret {S A} (P : S → Prop) (a : A) : triple P (mret a) (λ _, P).
Proof. intros s H. by exists a, s. Qed.
Lemma triple_bind {S A B} (P : S → Prop) (m : K S A) (f : A → K S B) Q R :
  triple P m Q → (∀ a, triple (Q a) (f a) R) → triple P (m ≫= f) R.
Proof. intros Hm Hf s H. destruct (Hm s H) as (a & s' & E & H'). rewrite (K_bind_step _ _ _ _ _ E). by apply Hf. Qed.
Lemma triple_conseq {S A} (P P' : S → Prop) (m : K S A) (Q Q' : A → S → Prop) :
  triple P' m Q' → (∀ s, P s → P' s) → (∀ a s, Q' a s → Q a s) → triple P m Q.
Proof. intros H HP HQ s Hs. destruct (H s (HP s Hs)) as (a & s' & E & H'). exists a, s'. auto. Qed.
Lemma triple_for {S} (P : S → Prop) l (f : Z → K S unit) :
  (∀ i, i ∈ l → triple P (f i) (λ _, P)) → triple P (kfor l f) (λ _, P).
Proof.
  induction l as [|i l IH]; intros Hf; [apply triple_ret|]. cbn [kfor]. eapply triple_bind; [apply Hf; left|].
  intros ?. cbn. apply IH. intros j Hj. apply Hf. by right.
Qed.
Lemma triple_get {S A} (P : S → Prop) (f : S → K S A) Q :
  (∀ s, P s → triple (λ s', s' = s) (f s) Q) → triple P (kget ≫= f) Q.
Proof. intros H s Hs. apply (H s Hs s). done. Qed.
Lemma triple_modify {S} (P Q : S → Prop) f : (∀ s, P s → Q (f s)) → triple P (kmodify f) (λ _, Q).
Proof. intros H s Hs. exists tt, (f s). auto. Qed.
Lemma triple_opt {S A B} (P : S → Prop) (o : option A) a (f : A → K S B) Q :
  o = Some a → triple P (f a) Q → triple P (kopt o ≫= f) Q.
Proof. by intros ->. Qed.

Lemma K_modify_step {S A} (f : S → S) (k : unit → K S A) s : (kmodify f ≫= k) s = k tt (f s).
Proof. done. Qed.
Lemma K_get_step {S A} (k : S → K S A) s : (kget ≫= k) s = k s s.
Proof. done. Qed.

(** ** Consoles *)

Definition cell_ok (ch : character_t) : Prop := 0 ≤ c ch < 128 ∧ zlen (fg ch) = 3 ∧ zlen (bg ch) = 3.
(** Whole bytes per pixel, and the three colours in different places of it or not. *)
Definition pixel_bytes (fb : limine_framebuffer) : Z := fb_bpp fb / 8.
Definition framebuffer_ok (fb : limine_framebuffer) (size : Z) : Prop :=
  fb_bpp fb = 8 * pixel_bytes fb ∧ 1 ≤ pixel_bytes fb ∧ 0 ≤ fb_width fb ∧ 0 ≤ fb_height fb ∧
  fb_width fb * fb_height fb * pixel_bytes fb ≤ size < 2 ^ 31 ∧
  0 ≤ red_mask_shift fb / 8 < pixel_bytes fb ∧ 0 ≤ green_mask_shift fb / 8 < pixel_bytes fb ∧
  0 ≤ blue_mask_shift fb / 8 < pixel_bytes fb.
Definition grid_ok (g : grid) (fb : limine_framebuffer) : Prop :=
  1 ≤ c_width g < 256 ∧ 1 ≤ c_height g < 256 ∧ 1 ≤ width g < 2 ^ 16 ∧ 1 ≤ height g < 2 ^ 16 ∧
  width g * c_width g ≤ fb_width fb ∧ fb_height fb = height g * c_height g + bottom_margin g ∧ 0 ≤ bottom_margin g ∧
  zlen (ascii g) = 128 ∧ Forall (λ b, row_bytes g * c_height g ≤ zlen b) (ascii g).
Record screen_ok (fb : limine_framebuffer) (s : fbcon) : Prop := {
  so_fb : framebuffer s = Some fb;
  so_fb_ok : framebuffer_ok fb (zlen (fb_memory s));
  so_grid : grid_ok (geo s) fb;
  so_len : zlen (console_buffer s) = width (geo s) * height (geo s);
  so_cells : Forall cell_ok (console_buffer s);
  so_bg : zlen (bg_color s) = 3;
  so_fg : zlen (fg_color s) = 3;
}.
Definition cursor_ok (s : fbcon) : Prop := 0 ≤ cursor_x s < width (geo s) ∧ 0 ≤ cursor_y s < height (geo s).

(** ** Drawing *)

(** Only pixels may differ. *)
Definition drawn (s s' : fbcon) : Prop := ∃ m, s' = set_fb_memory m s ∧ zlen m = zlen (fb_memory s).
Lemma drawn_refl s : drawn s s.
Proof. exists (fb_memory s). by destruct s. Qed.
Lemma drawn_trans s1 s2 s3 : drawn s1 s2 → drawn s2 s3 → drawn s1 s3.
Proof. intros (m1 & -> & E1) (m2 & -> & E2). exists m2. cbn in *. split; [done|congruence]. Qed.
Lemma drawn_ok fb s s' : drawn s s' → screen_ok fb s → screen_ok fb s'.
Proof. intros (m & -> & E) []. split; try done. cbn. by rewrite E. Qed.

Section draw.
Context (fb : limine_framebuffer).
Implicit Types s : fbcon.

Lemma poke_fb_runs s i v : 0 ≤ i < zlen (fb_memory s) → ∃ s', poke_fb i v s = Done (tt, s') ∧ drawn s s'.
Proof.
  intros Hi. unfold poke_fb, kget, mbind, K_bind, store_at. rewrite (proj2 (Z.leb_le _ _)), (proj2 (Z.ltb_lt _ _)) by lia.
  eexists. split; [reflexivity|]. eexists. split; [done|]. unfold zlen. by rewrite length_insert.
Qed.
Lemma put_pixel_runs s i color : screen_ok fb s → zlen color = 3 → 0 ≤ i → i + pixel_bytes fb ≤ zlen (fb_memory s) →
  ∃ s', put_pixel i color s = Done (tt, s') ∧ drawn s s'.
Proof.
  intros [Efb (_ & _ & _ & _ & _ & Hr & Hg & Hb) _ _ _ _ _] Hc Hi Hn. unfold put_pixel, kget, mbind, K_bind. rewrite Efb.
  destruct color as [|r [|g [|b [|? ?]]]]; try (unfold zlen in Hc; cbn in Hc; lia). cbn [kopt mret K_ret znth].
  change (znth [r; g; b] 0) with (Some r). change (znth [r; g; b] 1) with (Some g). change (znth [r; g; b] 2) with (Some b). cbn.
  destruct (poke_fb_runs s (i + red_mask_shift fb / 8) r) as (s1 & -> & D1); [lia|].
  assert (L1 : zlen (fb_memory s1) = zlen (fb_memory s)) by (by destruct D1 as (m & -> & ?)).
  destruct (poke_fb_runs s1 (i + green_mask_shift fb / 8) g) as (s2 & -> & D2); [lia|].
  assert (L2 : zlen (fb_memory s2) = zlen (fb_memory s1)) by (by destruct D2 as (m & -> & ?)).
  destruct (poke_fb_runs s2 (i + blue_mask_shift fb / 8) b) as (s3 & -> & D3); [lia|].
  exists s3. split; [done|]. eapply drawn_trans; [done|]. by eapply drawn_trans.
Qed.

(** The place of a pixel of a cell, without the conversions. *)
Lemma in_rows a w h y x : 0 ≤ x < w → 0 ≤ y < h → 0 ≤ a → 0 ≤ (y * w + x) * a ∧ (y * w + x) * a + a ≤ w * h * a.
Proof.
  intros. assert (0 ≤ y * w) by (apply Z.mul_nonneg_nonneg; lia).
  assert ((y + 1) * w ≤ h * w) by (apply Z.mul_le_mono_nonneg_r; lia). assert (y * w + x + 1 ≤ h * w) by lia.
  assert ((y * w + x + 1) * a ≤ h * w * a) by (apply Z.mul_le_mono_nonneg_r; lia).
  assert (0 ≤ (y * w + x) * a) by (apply Z.mul_nonneg_nonneg; lia). lia.
Qed.
Lemma in_cells n w i x : 0 ≤ x < w → 0 ≤ i < n → 0 ≤ i * w + x ∧ i * w + x < n * w.
Proof. intros. nia. Qed.
Lemma pixel_of_place s cell_x cell_y x y : screen_ok fb s → 0 ≤ cell_x < width (geo s) → 0 ≤ cell_y < height (geo s) →
  0 ≤ x < c_width (geo s) → 0 ≤ y < c_height (geo s) →
  let i := pixel_of fb (geo s) cell_x cell_y x y in
  i = ((cell_y * c_height (geo s) + y) * fb_width fb + (cell_x * c_width (geo s) + x)) * pixel_bytes fb ∧
  0 ≤ i ∧ i + pixel_bytes fb ≤ zlen (fb_memory s).
Proof.
  intros [_ (Hb & Hk & Hw & Hh & Hm & _) (_ & _ & _ & _ & Hgw & Hgh & Hbm & _) _ _ _ _] Hcx Hcy Hx Hy. unfold pixel_of. rewrite Hb.
  destruct (in_cells (width (geo s)) (c_width (geo s)) cell_x x Hx Hcx) as [X1 X2].
  destruct (in_cells (height (geo s)) (c_height (geo s)) cell_y y Hy Hcy) as [Y1 Y2].
  set (X := cell_x * c_width (geo s) + x) in *. set (Y := cell_y * c_height (geo s) + y) in *. set (k := pixel_bytes fb) in *.
  destruct (in_rows k (fb_width fb) (fb_height fb) Y X) as [P1 P2]; [lia|lia|lia|].
  assert (E : (Y * fb_width fb + X) * k = Y * fb_width fb * k + X * k) by ring.
  assert (0 ≤ Y * fb_width fb * k) by (apply Z.mul_nonneg_nonneg; [apply Z.mul_nonneg_nonneg|]; lia).
  assert (0 ≤ X * k) by (apply Z.mul_nonneg_nonneg; lia).
  replace (Y * fb_width fb * (8 * k)) with (Y * fb_width fb * k * 8) by ring. rewrite (u64_id (_ * 8)) by lia.
  rewrite Z.div_mul by lia. replace (X * (8 * k)) with (X * k * 8) by ring. rewrite Z.div_mul by lia.
  rewrite u64_id, s32_id by lia. lia.
Qed.
Lemma elem_of_cell_pixels g x y : (x, y) ∈ cell_pixels g ↔ 0 ≤ x < c_width g ∧ 0 ≤ y < c_height g.
Proof.
  unfold cell_pixels. rewrite list_elem_of_In, in_concat. setoid_rewrite <-list_elem_of_In. setoid_rewrite list_elem_of_fmap. split.
  - intros (l & (y' & -> & Hy) & Hin). apply list_elem_of_fmap in Hin as (x' & [= -> ->] & Hx). apply elem_of_seqZ in Hx, Hy. lia.
  - intros [Hx Hy]. eexists. split; [exists y; split; [done|apply elem_of_seqZ; lia]|].
    apply list_elem_of_fmap. exists x. split; [done|apply elem_of_seqZ; lia].
Qed.
Lemma zlen_cell_pixels g : 0 ≤ c_width g → 0 ≤ c_height g → zlen (cell_pixels g) = c_width g * c_height g.
Proof.
  intros Hw Hh. unfold cell_pixels, zlen.
  assert (H : ∀ l : list Z, length (concat ((λ y, (λ x, (x, y)) <$> seqZ 0 (c_width g)) <$> l)) = (Z.to_nat (c_width g) * length l)%nat).
  { induction l as [|y l IH]; cbn; [lia|]. rewrite length_app, length_fmap, length_seqZ. cbn in IH. rewrite IH. lia. }
  rewrite H, length_seqZ. lia.
Qed.
Lemma glyph_bit_runs g b x y : row_bytes g * c_height g ≤ zlen b → 0 ≤ x < c_width g → 0 ≤ y < c_height g →
  is_Some (glyph_bit g b x y).
Proof.
  intros Hb Hx Hy. unfold glyph_bit. assert (Hr : 0 ≤ x / 8 < row_bytes g).
  { unfold row_bytes. split; [apply Z.div_pos; lia|]. Z.to_euclidean_division_equations. lia. }
  destruct (in_rows 1 (row_bytes g) (c_height g) y (x / 8)) as [H1 H2]; [lia..|].
  unfold znth. rewrite (proj2 (Z.ltb_ge _ _)) by lia.
  destruct (lookup_lt_is_Some_2 b (Z.to_nat (y * row_bytes g + x / 8))) as [v E]; [unfold zlen in Hb; lia|]. rewrite E. by eexists.
Qed.
Lemma colorize_runs s index inv : screen_ok fb s → 0 ≤ index < 128 →
  ∃ l, colorize_bitmap index inv s = Some l ∧ zlen l = c_width (geo s) * c_height (geo s) ∧ Forall (λ col, zlen col = 3) l.
Proof.
  intros [_ _ (Hcw & Hch & _ & _ & _ & _ & _ & Ha & Hg) _ _ Hbg Hfg] Hi. unfold colorize_bitmap. rewrite (proj2 (Z.leb_gt _ _)) by lia.
  unfold znth. rewrite (proj2 (Z.ltb_ge _ _)) by lia.
  destruct (lookup_lt_is_Some_2 (ascii (geo s)) (Z.to_nat index)) as [b Eb]; [unfold zlen in Ha; lia|]. rewrite Eb. cbn [mbind option_bind].
  rewrite Forall_lookup in Hg. specialize (Hg _ _ Eb). rewrite <-(zlen_cell_pixels (geo s)) by lia.
  set (f := λ p : Z * Z, _ ≫= _). assert (Hf : ∀ p, p ∈ cell_pixels (geo s) → ∃ col, f p = Some col ∧ zlen col = 3).
  { intros [x y] Hp. apply elem_of_cell_pixels in Hp as [Hx Hy]. destruct (glyph_bit_runs (geo s) b x y Hg Hx Hy) as [v Ev].
    unfold f. cbn [fst snd]. rewrite Ev. eexists. split; [reflexivity|]. by destruct v, inv. }
  clearbody f. induction (cell_pixels (geo s)) as [|p l IH]; [by exists []|].
  destruct (Hf p) as (col & E & H3); [left|]. destruct IH as (l' & E' & Hl & H'); [intros q Hq; apply Hf; by right|].
  exists (col :: l'). cbn. rewrite E. cbn. cbn in E'. rewrite E'. rewrite !zlen_cons, Hl. split; [done|]. split; [done|]. by constructor.
Qed.

Lemma blit_runs s cell_x cell_y l : screen_ok fb s → 0 ≤ cell_x < width (geo s) → 0 ≤ cell_y < height (geo s) →
  zlen l = c_width (geo s) * c_height (geo s) → Forall (λ col, zlen col = 3) l →
  ∃ s', blit cell_x cell_y (Some l) s = Done (tt, s') ∧ drawn s s'.
Proof.
  intros Hok Hx Hy Hl Hc. unfold blit, kget, mbind, K_bind. rewrite (so_fb _ _ Hok). cbn [kopt mret K_ret].
  enough (H : triple (drawn s) (kfor (seqZ 0 (c_height (geo s))) (λ y, kfor (seqZ 0 (c_width (geo s))) (λ x,
    color ← kopt (znth l (y * c_width (geo s) + x)); put_pixel (pixel_of fb (geo s) cell_x cell_y x y) color))) (λ _, drawn s)).
  { destruct (H s (drawn_refl s)) as ([] & s' & E & D). exists s'. split; [exact E|done]. }
  apply triple_for. intros y Hy'. apply triple_for. intros x Hx'. apply elem_of_seqZ in Hx', Hy'.
  pose proof (so_grid _ _ Hok) as (Hcw & Hch & _).
  destruct (in_cells (c_height (geo s)) (c_width (geo s)) y x) as [P1 P2]; [lia..|].
  destruct (lookup_lt_is_Some_2 l (Z.to_nat (y * c_width (geo s) + x))) as [col E]; [unfold zlen in Hl; lia|].
  eapply triple_opt; [unfold znth; rewrite (proj2 (Z.ltb_ge _ _)) by lia; exact E|].
  rewrite Forall_lookup in Hc. specialize (Hc _ _ E). intros s1 D1. pose proof (drawn_ok fb _ _ D1 Hok) as Hok1.
  destruct (pixel_of_place s cell_x cell_y x y) as (_ & Q1 & Q2); [done|lia..|].
  destruct (put_pixel_runs s1 (pixel_of fb (geo s) cell_x cell_y x y) col Hok1 Hc Q1) as (s2 & E2 & D2).
  { destruct D1 as (m & -> & Em). cbn. lia. }
  exists tt, s2. split; [done|]. by eapply drawn_trans.
Qed.
Lemma draw_cell_runs s cell_x cell_y index inv : screen_ok fb s → 0 ≤ cell_x < width (geo s) → 0 ≤ cell_y < height (geo s) →
  0 ≤ index < 128 → ∃ s', (b ← colorized index inv; blit cell_x cell_y b) s = Done (tt, s') ∧ drawn s s'.
Proof.
  intros Hok Hx Hy Hi. destruct (colorize_runs s index inv Hok Hi) as (l & E & Hl & Hc).
  destruct (blit_runs s cell_x cell_y l Hok Hx Hy Hl Hc) as (s' & E' & D). exists s'. split; [|done].
  unfold colorized, kgets, mbind, K_bind. rewrite u8_id, E by lia. exact E'.
Qed.
End draw.

(** ** Cells, rows, scrolling *)

(** The cursor, the parser and the layout stay. *)
Definition still (fb : limine_framebuffer) (s s' : fbcon) : Prop :=
  screen_ok fb s' ∧ geo s' = geo s ∧ cursor_x s' = cursor_x s ∧ cursor_y s' = cursor_y s ∧ ansi_parser s' = ansi_parser s.
Lemma still_refl fb s : screen_ok fb s → still fb s s.
Proof. by intros. Qed.
Lemma still_trans fb s1 s2 s3 : still fb s1 s2 → still fb s2 s3 → still fb s1 s3.
Proof. unfold still. intros (_ & -> & -> & -> & ->) H. done. Qed.
Lemma drawn_still fb s s' : drawn s s' → screen_ok fb s → still fb s s'.
Proof. intros D Hok. split; [by eapply drawn_ok|]. by destruct D as (m & -> & _). Qed.

Section move.
Context (fb : limine_framebuffer).
Implicit Types s : fbcon.

Lemma cell_at_runs s i : screen_ok fb s → 0 ≤ i < width (geo s) * height (geo s) →
  ∃ ch, cell_at i s = Done (ch, s) ∧ cell_ok ch.
Proof.
  intros Hok Hi. destruct (lookup_lt_is_Some_2 (console_buffer s) (Z.to_nat i)) as [ch E].
  { pose proof (so_len _ _ Hok) as Hl. unfold zlen in Hl. lia. }
  exists ch. split; [|pose proof (so_cells _ _ Hok) as H; rewrite Forall_lookup in H; by eapply H].
  unfold cell_at, kget, mbind, K_bind, znth. rewrite (proj2 (Z.ltb_ge _ _)), E by lia. done.
Qed.
Lemma put_cell_runs s i ch : screen_ok fb s → 0 ≤ i < width (geo s) * height (geo s) → cell_ok ch →
  ∃ s', put_cell i ch s = Done (tt, s') ∧ still fb s s'.
Proof.
  intros Hok Hi Hch. unfold put_cell, kget, mbind, K_bind, store_at. rewrite (so_len _ _ Hok).
  rewrite (proj2 (Z.leb_le _ _)), (proj2 (Z.ltb_lt _ _)) by lia. eexists. split; [reflexivity|]. split; [|done].
  destruct Hok. split; try done.
  - cbn [console_buffer set_console_buffer geo]. unfold zlen in *. by rewrite length_insert.
  - by apply Forall_insert.
Qed.
Lemma grid_index s y x : screen_ok fb s → 0 ≤ y < height (geo s) → 0 ≤ x < width (geo s) →
  u32 (y * width (geo s) + x) = y * width (geo s) + x ∧ 0 ≤ y * width (geo s) + x < width (geo s) * height (geo s).
Proof.
  intros Hok Hy Hx. pose proof (so_grid _ _ Hok) as (_ & _ & Hw & Hh & _).
  destruct (in_cells (height (geo s)) (width (geo s)) y x Hx Hy) as [H1 H2].
  assert (height (geo s) * width (geo s) < 2 ^ 16 * 2 ^ 16) by nia. rewrite u32_id by lia. lia.
Qed.

Lemma fill_rows_runs s first color : screen_ok fb s → 0 ≤ first → (∀ s', still fb s s' → drawn s s' → zlen (color s') = 3) →
  ∃ s', fill_rows first (fb_height fb) color s = Done (tt, s') ∧ drawn s s'.
Proof.
  intros Hok Hf Hc. unfold fill_rows, kget, mbind, K_bind. rewrite (so_fb _ _ Hok). cbn [kopt mret K_ret].
  enough (H : triple (drawn s) (kfor (seqZ first (fb_height fb - first)) (λ y, kfor (seqZ 0 (fb_width fb)) (λ x,
    s ← kget; put_pixel (u32 (u64 (y * fb_width fb + x) * fb_bpp fb / 8)) (color s)))) (λ _, drawn s)).
  { destruct (H s (drawn_refl s)) as ([] & s' & E & D). exists s'. split; [exact E|done]. }
  apply triple_for. intros y Hy. apply triple_for. intros x Hx. apply elem_of_seqZ in Hy, Hx.
  intros s1 D1. pose proof (drawn_still fb _ _ D1 Hok) as St1. pose proof (drawn_ok fb _ _ D1 Hok) as Hok1.
  pose proof (so_fb_ok _ _ Hok) as (Hb & Hk & Hw & Hh & Hm & _). set (k := pixel_bytes fb) in *.
  destruct (in_rows k (fb_width fb) (fb_height fb) y x) as [P1 P2]; [lia..|].
  assert (0 ≤ y * fb_width fb) by (apply Z.mul_nonneg_nonneg; lia).
  assert (Hle : y * fb_width fb + x ≤ (y * fb_width fb + x) * k) by nia.
  assert (Ei : u32 (u64 (y * fb_width fb + x) * fb_bpp fb / 8) = (y * fb_width fb + x) * k).
  { rewrite u64_id by lia. rewrite Hb. replace ((y * fb_width fb + x) * (8 * k)) with ((y * fb_width fb + x) * k * 8) by ring.
    rewrite Z.div_mul by lia. apply u32_id. lia. }
  rewrite K_get_step, Ei.
  destruct (put_pixel_runs fb s1 ((y * fb_width fb + x) * k) (color s1) Hok1) as (s2 & E2 & D2); [by apply Hc|lia| |].
  { fold k. destruct D1 as (m & -> & Em). cbn. lia. }
  exists tt, s2. split; [done|]. by eapply drawn_trans.
Qed.

Lemma still_triple s (m : K fbcon unit) : triple (still fb s) m (λ _, still fb s) → screen_ok fb s →
  ∃ s', m s = Done (tt, s') ∧ still fb s s'.
Proof. intros H Hok. destruct (H s (still_refl fb s Hok)) as ([] & s' & E & St). by exists s'. Qed.
Lemma still_step s s1 (m : K fbcon unit) : still fb s s1 → (∃ s2, m s1 = Done (tt, s2) ∧ still fb s1 s2) →
  ∃ a s2, m s1 = Done (a, s2) ∧ still fb s s2.
Proof. intros St (s2 & E & St2). exists tt, s2. split; [done|]. by eapply still_trans. Qed.
Lemma recolor_still s b f : screen_ok fb s → zlen b = 3 → zlen f = 3 → still fb s (set_colors b f s).
Proof. intros [] Hb Hf. split; [|done]. by split. Qed.

Lemma scroll_row_runs s y : screen_ok fb s → 0 ≤ y → y + 1 < height (geo s) →
  ∃ s', scroll_row y s = Done (tt, s') ∧ still fb s s'.
Proof.
  intros Hok Hy Hy1. apply still_triple; [|done]. intros s1 St1. apply still_step; [done|].
  unfold scroll_row. rewrite K_get_step. apply still_triple; [|apply St1].
  apply triple_for. intros x Hx s2 St2. apply elem_of_seqZ in Hx. apply still_step; [done|].
  destruct St1 as (Hok1 & G1 & _). destruct St2 as (Hok2 & G2 & _). rewrite G1 in G2. rewrite G1 in Hx |- *. rewrite <-G2 in *.
  destruct (grid_index s2 y x) as [I1 R1]; [done|lia|lia|]. destruct (grid_index s2 (y + 1) x) as [I2 R2]; [done|lia|lia|].
  rewrite I1, I2. destruct (cell_at_runs s2 _ Hok2 R1) as (old & E1 & _). destruct (cell_at_runs s2 _ Hok2 R2) as (new & E2 & (Hc & Hfg & Hbg)).
  rewrite (K_bind_step _ _ _ _ _ E1), (K_bind_step _ _ _ _ _ E2). destruct (bool_decide (old = new)); [exists s2; split; [done|by apply still_refl]|].
  pose proof (recolor_still s2 (bg new) (fg new) Hok2 Hbg Hfg) as St3. set (s3 := set_colors _ _ s2) in *.
  rewrite K_modify_step. fold s3.
  destruct (draw_cell_runs fb s3 x y (c new) false) as (s4 & E4 & D4); [apply St3|cbn; lia|cbn; lia|done|].
  exists s4. split; [done|]. eapply still_trans; [exact St3|]. apply drawn_still; [done|apply St3].
Qed.

(** The same for loops over rows and columns of the grid that [s] has. *)
Lemma copy_rows_runs s : screen_ok fb s →
  ∃ s', kfor (seqZ 0 (height (geo s) - 1)) (λ y, kfor (seqZ 0 (width (geo s))) (λ x,
    ch ← cell_at (u32 ((y + 1) * width (geo s) + x)); put_cell (u32 (y * width (geo s) + x)) ch)) s = Done (tt, s') ∧ still fb s s'.
Proof.
  intros Hok. apply still_triple; [|done]. apply triple_for. intros y Hy. apply triple_for. intros x Hx s1 St1. apply still_step; [done|].
  apply elem_of_seqZ in Hy, Hx. pose proof St1 as (Hok1 & G1 & _). rewrite <-G1 in *.
  destruct (grid_index s1 y x) as [I1 R1]; [done|lia|lia|]. destruct (grid_index s1 (y + 1) x) as [I2 R2]; [done|lia|lia|].
  rewrite I1, I2. destruct (cell_at_runs s1 _ Hok1 R2) as (ch & E & Hch). rewrite (K_bind_step _ _ _ _ _ E). by apply put_cell_runs.
Qed.
Definition blank : character_t := mk_character 32 BLACK BLACK.
Lemma blank_row_runs s : screen_ok fb s →
  ∃ s', kfor (seqZ 0 (width (geo s))) (λ x, put_cell (u32 ((height (geo s) - 1) * width (geo s) + x)) blank) s = Done (tt, s') ∧ still fb s s'.
Proof.
  intros Hok. apply still_triple; [|done]. apply triple_for. intros x Hx s1 St1. apply still_step; [done|].
  apply elem_of_seqZ in Hx. pose proof St1 as (Hok1 & G1 & _). rewrite <-G1 in *. pose proof (so_grid _ _ Hok1) as (_ & _ & Hw & Hh & _).
  destruct (grid_index s1 (height (geo s1) - 1) x) as [I1 R1]; [done|lia|lia|]. rewrite I1. by apply put_cell_runs.
Qed.
Lemma scroll_runs s : screen_ok fb s → ∃ s', scroll s = Done (tt, s') ∧ still fb s s' ∧ bg_color s' = bg_color s ∧ fg_color s' = fg_color s.
Proof.
  intros Hok. unfold scroll, with_framebuffer. rewrite K_get_step, (so_fb _ _ Hok), K_get_step, (so_fb _ _ Hok). cbv zeta.
  pose proof (so_grid _ _ Hok) as (_ & Hch & Hw & Hh & _ & Hgh & Hbm & _). rewrite (u32_id (height (geo s) - 1)) by lia.
  assert (Hrows : ∃ s1, kfor (seqZ 0 (height (geo s) - 1)) scroll_row s = Done (tt, s1) ∧ still fb s s1).
  { apply still_triple; [|done]. apply triple_for. intros y Hy s1 St1. apply still_step; [done|]. apply elem_of_seqZ in Hy.
    pose proof St1 as (Hok1 & G1 & _). apply scroll_row_runs; [done|lia|rewrite G1; lia]. }
  destruct Hrows as (s1 & E1 & St1). rewrite (K_bind_step _ _ _ _ _ E1).
  replace (fb_height fb - c_height (geo s) - bottom_margin (geo s)) with ((height (geo s) - 1) * c_height (geo s)) by lia.
  destruct (fill_rows_runs s1 (u32 ((height (geo s) - 1) * c_height (geo s))) (λ _, BLACK)) as (s2 & E2 & D2); [apply St1|apply u32_range|done|].
  rewrite (K_bind_step _ _ _ _ _ E2). pose proof (still_trans fb _ _ _ St1 (drawn_still fb _ _ D2 (proj1 St1))) as St2.
  pose proof St2 as (Hok2 & G2 & _). rewrite <-G2.
  destruct (copy_rows_runs s2 Hok2) as (s3 & E3 & St3). rewrite (K_bind_step _ _ _ _ _ E3).
  pose proof (still_trans fb _ _ _ St2 St3) as St4. pose proof St4 as (Hok3 & G3 & _). rewrite G2, <-G3.
  destruct (blank_row_runs s3 Hok3) as (s4 & E4 & St5). unfold blank in E4. rewrite (K_bind_step _ _ _ _ _ E4).
  pose proof (still_trans fb _ _ _ St4 St5) as St6. eexists. split; [reflexivity|]. split; [|done]. eapply still_trans; [exact St6|].
  apply recolor_still; [apply St6|apply (so_bg _ _ Hok)|apply (so_fg _ _ Hok)].
Qed.
Lemma clear_screen_runs s : screen_ok fb s → ∃ s', clear_screen s = Done (tt, s') ∧ still fb s s'.
Proof.
  intros Hok. unfold clear_screen, with_framebuffer. rewrite K_get_step, (so_fb _ _ Hok), K_get_step, (so_fb _ _ Hok).
  pose proof (so_grid _ _ Hok) as (_ & _ & Hw & Hh & _).
  destruct (fill_rows_runs s 0 bg_color) as (s1 & E1 & D1); [done|done|intros s' St _; apply (so_bg fb); apply St|].
  rewrite (K_bind_step _ _ _ _ _ E1). pose proof (drawn_still fb _ _ D1 Hok) as St1.
  assert (width (geo s) * height (geo s) < 2 ^ 16 * 2 ^ 16) by nia. rewrite (u32_id (width (geo s) * height (geo s))) by nia.
  enough (Hs : ∃ s2, kfor (seqZ 0 (width (geo s) * height (geo s))) (λ i, put_cell i (mk_character 32 (fg_color s) (bg_color s))) s1 = Done (tt, s2) ∧ still fb s1 s2).
  { destruct Hs as (s2 & E2 & St2). exists s2. split; [exact E2|]. by eapply still_trans. }
  apply still_triple; [|apply St1]. apply triple_for. intros i Hi s2 St2. apply still_step; [done|]. apply elem_of_seqZ in Hi.
  pose proof St2 as (Hok2 & G2 & _). pose proof St1 as (_ & G1 & _). apply put_cell_runs; [done|rewrite G2, G1; lia|].
  split; [cbn; lia|]. split; [apply (so_fg _ _ Hok)|apply (so_bg _ _ Hok)].
Qed.

(** ** The cursor *)

(** The screen with the cursor where it may be; layout and parser stay. *)
Definition moved s s' : Prop := screen_ok fb s' ∧ geo s' = geo s ∧ ansi_parser s' = ansi_parser s ∧ cursor_ok s'.
Lemma still_moved s s' : still fb s s' → cursor_ok s → moved s s'.
Proof. intros (H & G & X & Y & P) C. unfold moved, cursor_ok. rewrite X, Y, G. done. Qed.
Lemma moved_trans s1 s2 s3 : moved s1 s2 → moved s2 s3 → moved s1 s3.
Proof. unfold moved. intros (_ & -> & -> & _) H. done. Qed.
Lemma set_cursor_ok s x y : screen_ok fb s → 0 ≤ x < width (geo s) → 0 ≤ y < height (geo s) →
  moved s (set_cursor x y s) ∧ cursor_x (set_cursor x y s) = x ∧ cursor_y (set_cursor x y s) = y.
Proof.
  intros Hok Hx Hy. pose proof (so_grid _ _ Hok) as (_ & _ & Hw & Hh & _). unfold moved, cursor_ok. cbn.
  rewrite !u16_id by lia. split; [|done]. split; [by destruct Hok|]. done.
Qed.
Lemma draw_cursor_runs s : screen_ok fb s → cursor_ok s → ∃ s', draw_cursor s = Done (tt, s') ∧ drawn s s'.
Proof.
  intros Hok [Hx Hy]. unfold draw_cursor, with_framebuffer. rewrite K_get_step, (so_fb _ _ Hok), K_get_step.
  destruct (grid_index s _ _ Hok Hy Hx) as [I R]. rewrite I. destruct (cell_at_runs s _ Hok R) as (ch & E & Hch & _).
  rewrite (K_bind_step _ _ _ _ _ E). by apply (draw_cell_runs fb).
Qed.
Lemma update_cursor_runs s old_x old_y : screen_ok fb s → cursor_ok s → - 2 ^ 31 ≤ old_x < 2 ^ 31 → - 2 ^ 31 ≤ old_y < 2 ^ 31 →
  ∃ s', update_cursor old_x old_y s = Done (tt, s') ∧ moved s s'.
Proof.
  intros Hok C Hx Hy. unfold update_cursor. rewrite K_get_step. pose proof (so_grid _ _ Hok) as (_ & _ & Hw & Hh & _).
  assert (H : ∃ s1, (if (negb (old_x =? cursor_x s) || negb (old_y =? cursor_y s)) && ((u32 old_x <? width (geo s)) && (u32 old_y <? height (geo s)))
    then ch ← cell_at (u32 (old_y * width (geo s) + old_x)); b ← colorized (c ch) false; blit old_x old_y b else mret tt) s = Done (tt, s1) ∧ drawn s s1).
  { destruct (_ && _) eqn:Ec; [|exists s; split; [done|apply drawn_refl]].
    apply andb_true_iff in Ec as [_ [H1%Z.ltb_lt H2%Z.ltb_lt]%andb_true_iff].
    assert (U : ∀ z, - 2 ^ 31 ≤ z < 2 ^ 31 → u32 z < 2 ^ 16 → 0 ≤ z ∧ u32 z = z) by (unfold u32; intros; Z.to_euclidean_division_equations; lia).
    destruct (U old_x) as [X EX]; [lia..|]. destruct (U old_y) as [Y EY]; [lia..|].
    destruct (grid_index s old_y old_x) as [I R]; [done|lia|lia|]. rewrite I. destruct (cell_at_runs s _ Hok R) as (ch & E & Hch & _).
    rewrite (K_bind_step _ _ _ _ _ E). apply (draw_cell_runs fb); done || lia. }
  destruct H as (s1 & E1 & D1). rewrite (K_bind_step _ _ _ _ _ E1). pose proof (drawn_still fb _ _ D1 Hok) as St1.
  pose proof (still_moved _ _ St1 C) as (Hok1 & _ & _ & C1). destruct (draw_cursor_runs s1 Hok1 C1) as (s2 & E2 & D2).
  exists s2. split; [exact E2|]. apply still_moved; [|done]. eapply still_trans; [exact St1|]. by apply drawn_still.
Qed.

Lemma newline_runs s : screen_ok fb s → cursor_ok s → ∃ s', newline s = Done (tt, s') ∧ moved s s'.
Proof.
  intros Hok [Hx Hy]. unfold newline. rewrite K_get_step. cbv zeta. rewrite K_modify_step, K_get_step. cbn [cursor_y set_cursor].
  pose proof (so_grid _ _ Hok) as (_ & _ & Hw & Hh & _). rewrite u16_id by lia. destruct (Z.leb_spec (height (geo s)) (cursor_y s + 1)).
  - set (s1 := set_cursor 0 (cursor_y s + 1) s). assert (Hok1 : screen_ok fb s1) by (by destruct Hok).
    destruct (scroll_runs s1 Hok1) as (s2 & E2 & St2 & _). rewrite (K_bind_step _ _ _ _ _ E2), K_modify_step.
    pose proof St2 as (Hok2 & G2 & _ & _ & P2). change (geo s1) with (geo s) in G2. change (ansi_parser s1) with (ansi_parser s) in P2.
    destruct (set_cursor_ok s2 0 (height (geo s) - 1)) as (M3 & _ & _); [done|rewrite G2; lia|rewrite G2; lia|].
    assert (- 2 ^ 31 ≤ s32 (height (geo s) - 2) < 2 ^ 31) by (unfold s32; Z.to_euclidean_division_equations; lia).
    destruct M3 as (Hok3 & G3 & P3 & C3). destruct (update_cursor_runs _ (cursor_x s) (s32 (height (geo s) - 2)) Hok3 C3) as (s4 & E4 & M4); [lia|lia|].
    exists s4. split; [exact E4|]. eapply moved_trans; [|exact M4]. split; [done|].
    split; [by rewrite G3, G2|]. split; [by rewrite P3, P2|done].
  - destruct (set_cursor_ok s 0 (cursor_y s + 1)) as (M1 & _ & _); [done|lia|lia|]. pose proof M1 as (Hok1 & G1 & P1 & C1).
    destruct (update_cursor_runs _ (cursor_x s) (cursor_y s) Hok1 C1) as (s4 & E4 & M4); [lia|lia|].
    exists s4. split; [exact E4|]. eapply moved_trans; [|exact M4]. done.
Qed.
Lemma set_cursor_position_runs s x y : screen_ok fb s → cursor_ok s → ∃ s', set_cursor_position x y s = Done (tt, s') ∧ moved s s'.
Proof.
  intros Hok C. pose proof C as [Hx Hy]. unfold set_cursor_position. rewrite K_get_step. cbv zeta. pose proof (so_grid _ _ Hok) as (_ & _ & Hw & Hh & _).
  destruct (_ && _) eqn:Ec; [|exists s; split; [done|]; by apply still_moved; [apply still_refl|]].
  apply andb_true_iff in Ec as [H1%Z.ltb_lt H2%Z.ltb_lt]. pose proof (u16_range x). pose proof (u16_range y). rewrite K_modify_step.
  destruct (set_cursor_ok s (u16 x) (u16 y)) as (M1 & _ & _); [done|lia|lia|]. pose proof M1 as (Hok1 & G1 & P1 & C1).
  destruct (update_cursor_runs _ (cursor_x s) (cursor_y s) Hok1 C1) as (s4 & E4 & M4); [lia|lia|].
  exists s4. split; [exact E4|]. eapply moved_trans; [|exact M4]. done.
Qed.
Lemma backspace_runs s : screen_ok fb s → cursor_ok s → ∃ s', backspace s = Done (tt, s') ∧ moved s s'.
Proof.
  intros Hok C. pose proof C as [Hx Hy]. unfold backspace. rewrite K_get_step. pose proof (so_grid _ _ Hok) as (_ & _ & Hw & Hh & _).
  assert (H : ∃ s1, (if cursor_x s =? 0 then if 0 <? cursor_y s then kmodify (set_cursor (width (geo s) - 1) (cursor_y s - 1)) else mret tt
     else kmodify (set_cursor (cursor_x s - 1) (cursor_y s))) s = Done (tt, s1) ∧ moved s s1).
  { destruct (Z.eqb_spec (cursor_x s) 0).
    - destruct (Z.ltb_spec 0 (cursor_y s)); [|exists s; split; [done|]; by apply still_moved; [apply still_refl|]].
      eexists. split; [reflexivity|]. apply set_cursor_ok; [done|lia|lia].
    - eexists. split; [reflexivity|]. apply set_cursor_ok; [done|lia|lia]. }
  destruct H as (s1 & E1 & M1). rewrite (K_bind_step _ _ _ _ _ E1). pose proof M1 as (Hok1 & _ & _ & C1).
  destruct (update_cursor_runs s1 (cursor_x s) (cursor_y s) Hok1 C1) as (s4 & E4 & M4); [lia|lia|].
  exists s4. split; [exact E4|]. eapply moved_trans; [|exact M4]. done.
Qed.
Lemma draw_char_runs s ch : screen_ok fb s → cursor_ok s → 0 ≤ ch < 128 → ∃ s', draw_char ch s = Done (tt, s') ∧ moved s s'.
Proof.
  intros Hok C Hch. pose proof C as [Hx Hy]. unfold draw_char. rewrite K_get_step. pose proof (so_grid _ _ Hok) as (_ & _ & Hw & Hh & _).
  destruct (draw_cell_runs fb s (cursor_x s) (cursor_y s) ch false Hok Hx Hy Hch) as (s1 & E1 & D1).
  pose proof (drawn_still fb _ _ D1 Hok) as St1.
  assert (E1' : (b ← colorized ch false; blit (cursor_x s) (cursor_y s) b;;
      put_cell (u32 (cursor_y s * width (geo s) + cursor_x s)) (mk_character ch (fg_color s) (bg_color s));;
      kmodify (set_cursor (cursor_x s + 1) (cursor_y s));; s ← kget;
      if width (geo s) <=? cursor_x s then kmodify (set_cursor (width (geo s) - 1) (cursor_y s));; newline else draw_cursor) s =
    (put_cell (u32 (cursor_y s * width (geo s) + cursor_x s)) (mk_character ch (fg_color s) (bg_color s));;
      kmodify (set_cursor (cursor_x s + 1) (cursor_y s));; s ← kget;
      if width (geo s) <=? cursor_x s then kmodify (set_cursor (width (geo s) - 1) (cursor_y s));; newline else draw_cursor) s1).
  { apply K_bind_Done in E1 as (b & s0 & Eb & E1). rewrite (K_bind_step _ _ _ _ _ Eb). by rewrite (K_bind_step _ _ _ _ _ E1). }
  rewrite E1'. clear E1 E1'. pose proof St1 as (Hok1 & G1 & X1 & Y1 & P1).
  destruct (grid_index s _ _ Hok Hy Hx) as [I R]. rewrite I.
  destruct (put_cell_runs s1 _ (mk_character ch (fg_color s) (bg_color s)) Hok1 ltac:(rewrite G1; exact R)) as (s2 & E2 & St2).
  { split; [done|]. split; [apply (so_fg _ _ Hok)|apply (so_bg _ _ Hok)]. }
  rewrite (K_bind_step _ _ _ _ _ E2), K_modify_step, K_get_step. pose proof (still_trans fb _ _ _ St1 St2) as (Hok2 & G2 & X2 & Y2 & P2).
  cbn [geo cursor_x cursor_y set_cursor]. rewrite !u16_id by lia. rewrite G2. destruct (Z.leb_spec (width (geo s)) (cursor_x s + 1)).
  - rewrite K_modify_step. set (s3 := set_cursor _ _ (set_cursor _ _ s2)).
    assert (M3 : moved s s3). { unfold moved, cursor_ok, s3. cbn. rewrite G2, !u16_id by lia. split_and!; try done; [by destruct Hok2|lia..]. }
    pose proof M3 as (Hok3 & _ & _ & C3). destruct (newline_runs s3 Hok3 C3) as (s4 & E4 & M4). exists s4. split; [exact E4|]. eapply moved_trans; [|exact M4]. done.
  - set (s3 := set_cursor _ _ s2). assert (M3 : moved s s3).
    { unfold moved, cursor_ok, s3. cbn. rewrite G2, !u16_id by lia. split_and!; try done; [by destruct Hok2|lia..]. }
    pose proof M3 as (Hok3 & _ & _ & C3). destruct (draw_cursor_runs s3 Hok3 C3) as (s4 & E4 & D4). exists s4. split; [exact E4|].
    eapply moved_trans; [exact M3|]. by apply still_moved; [apply drawn_still|].
Qed.
Lemma fbcon_putchar_runs s ch : screen_ok fb s → cursor_ok s → 0 ≤ ch → ∃ s', fbcon_putchar ch s = Done (tt, s') ∧ moved s s'.
Proof.
  intros Hok C Hch. assert (M : moved s s) by (by apply still_moved; [apply still_refl|]).
  unfold fbcon_putchar. rewrite K_get_step, (so_fb _ _ Hok). rewrite bool_decide_eq_false_2 by done. cbn [orb].
  destruct (Z.leb_spec 128 ch); [by exists s|]. destruct (ch =? 10); [by apply newline_runs|].
  destruct (ch =? 8); [by apply backspace_runs|]. destruct (ch =? 0); [by exists s|]. apply draw_char_runs; [done|done|lia].
Qed.
End move.

(** ** Escape sequences *)

(** Numbers in the stream have at most nine digits; [n] digits come before it. *)
Fixpoint short_numbers (n : nat) (buffer : list Z) : bool :=
  match buffer with
  | [] => true
  | b :: buffer =>
    if (48 <=? b) && (b <=? 57) then Nat.ltb n 9 && short_numbers (S n) buffer else short_numbers 0 buffer
  end.
Definition parser_ok (n : nat) (p : ansi_parser_t) : Prop :=
  zlen (params p) = 16 ∧ Forall (λ v, 0 ≤ v < 10 ^ 9) (params p) ∧ 0 ≤ param_count p ≤ 16 ∧
  0 ≤ current_param p < 10 ^ 9 ∧ (pstate p = CSI → current_param p < 10 ^ Z.of_nat n).
Definition con_ok (fb : limine_framebuffer) (n : nat) (s : fbcon) : Prop :=
  screen_ok fb s ∧ cursor_ok s ∧ parser_ok n (ansi_parser s).

Section write.
Context (fb : limine_framebuffer).
Implicit Types s : fbcon.

Lemma param_range n p i : parser_ok n p → 0 ≤ i < 16 → ∃ v, param i p = Some v ∧ 0 ≤ v < 10 ^ 9.
Proof.
  intros (L & Hf & _) Hi. unfold param, znth. rewrite (proj2 (Z.ltb_ge _ _)) by lia.
  destruct (lookup_lt_is_Some_2 (params p) (Z.to_nat i)) as [v E]; [unfold zlen in L; lia|]. exists v. split; [done|].
  rewrite Forall_lookup in Hf. by eapply Hf.
Qed.
Lemma param_or_range n p i : parser_ok n p → 0 ≤ i < 16 → ∃ v, param_or i 1 p = Some v ∧ 1 ≤ v < 10 ^ 9.
Proof.
  intros P Hi. destruct (param_range n p i P Hi) as (v & E & Hv). unfold param_or. rewrite E. cbn [mbind option_bind].
  eexists. split; [reflexivity|]. destruct (Z.eqb_spec v 0); lia.
Qed.
Lemma moved_refl s : screen_ok fb s → cursor_ok s → moved fb s s.
Proof. intros. by apply still_moved; [apply still_refl|]. Qed.
Lemma recolor_moved s b f : screen_ok fb s → cursor_ok s → zlen b = 3 → zlen f = 3 → moved fb s (set_colors b f s).
Proof. intros. by apply still_moved; [apply recolor_still|]. Qed.
Lemma palette_runs i : 0 ≤ i < 16 → ∃ col, palette i = Some col ∧ zlen col = 3.
Proof.
  intros Hi. unfold palette. assert (H : Forall (λ col, zlen col = 3) ansi_palette) by (repeat constructor).
  unfold znth. rewrite (proj2 (Z.ltb_ge _ _)) by lia. destruct (lookup_lt_is_Some_2 ansi_palette (Z.to_nat i)) as [col E]; [cbn; lia|].
  exists col. rewrite Forall_lookup in H. split; [done|]. by eapply H.
Qed.
Lemma sgr_runs s n : screen_ok fb s → cursor_ok s → ∃ s', sgr n s = Done (tt, s') ∧ moved fb s s'.
Proof.
  intros Hok C. unfold sgr. rewrite K_get_step.
  assert (Hbg : ∀ i, 0 ≤ i < 16 → ∃ s', (col ← kopt (palette i); setbg_color col) s = Done (tt, s') ∧ moved fb s s').
  { intros i Hi. destruct (palette_runs i Hi) as (col & E & Hc). rewrite (K_kopt_step _ _ _ _ E). eexists. split; [reflexivity|].
    apply recolor_moved; [done|done|done|apply (so_fg _ _ Hok)]. }
  assert (Hfg : ∀ i, 0 ≤ i < 16 → ∃ s', (col ← kopt (palette i); setfg_color col) s = Done (tt, s') ∧ moved fb s s').
  { intros i Hi. destruct (palette_runs i Hi) as (col & E & Hc). rewrite (K_kopt_step _ _ _ _ E). eexists. split; [reflexivity|].
    apply recolor_moved; [done|done|apply (so_bg _ _ Hok)|done]. }
  destruct (n =? 0); [eexists; split; [reflexivity|]; by apply recolor_moved|].
  destruct ((30 <=? n) && _) eqn:E1; [apply Hfg; lia|]. destruct ((40 <=? n) && _) eqn:E2; [apply Hbg; lia|].
  destruct ((90 <=? n) && _) eqn:E3; [apply Hfg; lia|]. destruct ((100 <=? n) && _) eqn:E4; [apply Hbg; lia|].
  exists s. split; [done|]. by apply moved_refl.
Qed.
Lemma moved_triple s (m : K fbcon unit) : screen_ok fb s → cursor_ok s → triple (moved fb s) m (λ _, moved fb s) →
  ∃ s', m s = Done (tt, s') ∧ moved fb s s'.
Proof. intros Hok C H. destruct (H s) as ([] & s' & E & M); [by apply moved_refl|]. by exists s'. Qed.
Lemma moved_step s s1 (m : K fbcon unit) : moved fb s s1 → (∃ s2, m s1 = Done (tt, s2) ∧ moved fb s1 s2) →
  ∃ a s2, m s1 = Done (a, s2) ∧ moved fb s s2.
Proof. intros M (s2 & E & M2). exists tt, s2. split; [done|]. by eapply moved_trans; [|exact M2]. Qed.
Lemma select_graphics_runs s p n : screen_ok fb s → cursor_ok s → parser_ok n p →
  ∃ s', select_graphics p s = Done (tt, s') ∧ moved fb s s'.
Proof.
  intros Hok C P. pose proof P as (_ & _ & Hc & _). unfold select_graphics.
  destruct (param_range n p 0 P) as (v0 & E0 & _); [lia|]. destruct (param_range n p 1 P) as (v1 & E1 & _); [lia|].
  rewrite (K_kopt_step _ _ _ _ E0), (K_kopt_step _ _ _ _ E1).
  assert (Ht : ∃ col, true_color p = Some col ∧ zlen col = 3).
  { unfold true_color. destruct (param_range n p 2 P) as (r & -> & _); [lia|]. destruct (param_range n p 3 P) as (g & -> & _); [lia|].
    destruct (param_range n p 4 P) as (b & -> & _); [lia|]. by eexists. }
  destruct Ht as (col & Et & Hcol).
  destruct ((v0 =? 38) && (v1 =? 2) && (5 <=? param_count p)); [rewrite (K_kopt_step _ _ _ _ Et); eexists; split; [reflexivity|]; apply recolor_moved; [done|done|apply (so_bg _ _ Hok)|done]|].
  destruct ((v0 =? 48) && (v1 =? 2) && (5 <=? param_count p)); [rewrite (K_kopt_step _ _ _ _ Et); eexists; split; [reflexivity|]; apply recolor_moved; [done|done|done|apply (so_fg _ _ Hok)]|].
  destruct (param_count p =? 0); [eexists; split; [reflexivity|]; by apply recolor_moved|].
  apply moved_triple; [done|done|]. apply triple_for. intros i Hi s1 M1. apply elem_of_seqZ in Hi.
  destruct (param_range n p i P) as (v & E & _); [lia|]. rewrite (K_kopt_step _ _ _ _ E). apply moved_step; [done|]. apply sgr_runs; apply M1.
Qed.
Lemma cursor_down_runs s n : screen_ok fb s → cursor_ok s → 0 ≤ n < 10 ^ 9 → ∃ s', cursor_down n s = Done (tt, s') ∧ moved fb s s'.
Proof.
  intros Hok C Hn. pose proof C as [Hx Hy]. unfold cursor_down. rewrite K_get_step. cbv zeta. pose proof (so_grid _ _ Hok) as (_ & _ & Hw & Hh & _).
  assert (E : int_ok (cursor_y s + n) = Some (cursor_y s + n)) by (unfold int_ok; rewrite (proj2 (Z.leb_le _ _)), (proj2 (Z.ltb_lt _ _)) by lia; done).
  rewrite (K_kopt_step _ _ _ _ E). destruct (height (geo s) <=? u32 (cursor_y s + n)).
  - set (k := s32 (u32 (cursor_y s + n - (height (geo s) - 1)))). assert (Hs : ∃ s1, kfor (seqZ 0 k) (λ _, scroll) s = Done (tt, s1) ∧ moved fb s s1).
    { apply moved_triple; [done|done|]. apply triple_for. intros i _ s1 M1. apply moved_step; [done|].
      destruct (scroll_runs fb s1) as (s2 & E2 & St2 & _); [apply M1|]. exists s2. split; [done|]. apply still_moved; [done|apply M1]. }
    destruct Hs as (s1 & E1 & M1). set (y := s32 (u32 (height (geo s) - 1))).
    assert (E1' : (kfor (seqZ 0 k) (λ _, scroll);; mret y) s = Done (y, s1)) by (by rewrite (K_bind_step _ _ _ _ _ E1)).
    rewrite (K_bind_step _ _ _ _ _ E1').
    destruct (set_cursor_position_runs fb s1 (cursor_x s) y) as (s2 & E2 & M2); [apply M1|apply M1|].
    exists s2. split; [exact E2|]. eapply moved_trans; [exact M1|exact M2].
  - by apply set_cursor_position_runs.
Qed.
Lemma end_sequence_runs s b n : screen_ok fb s → cursor_ok s → parser_ok n (ansi_parser s) →
  ∃ s', end_sequence b (ansi_parser s) s = Done (tt, s') ∧ moved fb s s'.
Proof.
  intros Hok C P. pose proof C as [Hx Hy]. unfold end_sequence. rewrite K_get_step. cbv zeta.
  pose proof (so_grid _ _ Hok) as (_ & _ & Hw & Hh & _).
  destruct (param_or_range n (ansi_parser s) 0 P) as (k & E0 & Hn); [lia|]. destruct (param_or_range n (ansi_parser s) 1 P) as (k1 & E1 & _); [lia|].
  assert (I : ∀ z, - 2 ^ 31 ≤ z < 2 ^ 31 → int_ok z = Some z) by (intros; unfold int_ok; rewrite (proj2 (Z.leb_le _ _)), (proj2 (Z.ltb_lt _ _)) by lia; done).
  destruct (_ || _); [rewrite (K_kopt_step _ _ _ _ E1), (K_kopt_step _ _ _ _ E0); by apply set_cursor_position_runs|]. destruct (b =? 74).
  { destruct (clear_screen_runs fb s Hok) as (s1 & Es & St1). rewrite (K_bind_step _ _ _ _ _ Es).
    pose proof (still_moved fb _ _ St1 C) as (Hok1 & _ & _ & C1). destruct (draw_cursor_runs fb s1 Hok1 C1) as (s2 & E2 & D2).
    exists s2. split; [done|]. apply still_moved; [|done]. eapply still_trans; [exact St1|]. by apply drawn_still. }
  destruct (b =? 65); [rewrite (K_kopt_step _ _ _ _ E0); by apply set_cursor_position_runs|]. destruct (b =? 66); [rewrite (K_kopt_step _ _ _ _ E0); apply cursor_down_runs; [done|done|lia]|].
  destruct (b =? 67); [rewrite (K_kopt_step _ _ _ _ E0), (K_kopt_step _ _ _ _ (I (cursor_x s + k) ltac:(lia))); by apply set_cursor_position_runs|].
  destruct (b =? 68); [rewrite (K_kopt_step _ _ _ _ E0), (K_kopt_step _ _ _ _ (I (cursor_x s - k) ltac:(lia))); by apply set_cursor_position_runs|].
  destruct (b =? 109); [by apply (select_graphics_runs s (ansi_parser s) n)|]. exists s. split; [done|]. by apply moved_refl.
Qed.
Lemma set_parser_ok s p m : screen_ok fb s → cursor_ok s → parser_ok m p → con_ok fb m (set_parser p s).
Proof. intros Hok C P. split; [by destruct Hok|]. by split. Qed.
Lemma push_param_ok n m p : parser_ok n p → param_count p < 16 → pstate p = CSI → ∃ q, push_param p = Some q ∧ parser_ok m q.
Proof.
  intros (L & F & Hc & Hv & Hs) Hlt St. unfold push_param. rewrite L, (proj2 (Z.leb_le _ _)), (proj2 (Z.ltb_lt _ _)) by lia.
  eexists. split; [reflexivity|]. unfold parser_ok. cbn. split_and!; try lia.
  - unfold zlen in *. by rewrite length_insert.
  - apply Forall_insert; [done|lia].
Qed.

Lemma finish_runs s b n p : screen_ok fb s → cursor_ok s → parser_ok n p →
  ∃ s', (kmodify (set_parser p);; end_sequence b p;;
    kmodify (set_parser (mk_parser TEXT (params p) (current_param p) (param_count p) (digit_added p)))) s = Done (tt, s') ∧ con_ok fb 0 s'.
Proof.
  intros Hok C P. rewrite K_modify_step. destruct (set_parser_ok s p n Hok C P) as (Hok1 & C1 & P1). set (s1 := set_parser p s) in *.
  destruct (end_sequence_runs s1 b n Hok1 C1 P1) as (s2 & E2 & M2). change (ansi_parser s1) with p in E2. rewrite (K_bind_step _ _ _ _ _ E2).
  eexists. split; [reflexivity|]. apply set_parser_ok; [apply M2|apply M2|]. destruct P as (L & F & Hc & Hv & _). unfold parser_ok. cbn. split_and!; try done; lia.
Qed.
(** The digits counted after a byte. *)
Definition next_count (n : nat) (b : Z) : nat := if (48 <=? b) && (b <=? 57) then S n else 0%nat.
Lemma parse_csi_runs s b n : con_ok fb n s → pstate (ansi_parser s) = CSI → (next_count n b ≤ 9)%nat →
  ∃ s', parse_csi b (ansi_parser s) s = Done (tt, s') ∧ con_ok fb (next_count n b) s'.
Proof.
  intros (Hok & C & P) St Hn. pose proof P as (L & F & Hc & Hv & Hs). specialize (Hs St). unfold parse_csi, next_count in *.
  destruct ((48 <=? b) && (b <=? 57)) eqn:Ed.
  - assert (Hp : 10 ^ Z.of_nat (S n) ≤ 10 ^ 9) by (apply Z.pow_le_mono_r; lia). rewrite Nat2Z.inj_succ, Z.pow_succ_r in Hp by lia.
    assert (I : ∀ z, - 2 ^ 31 ≤ z < 2 ^ 31 → int_ok z = Some z) by (intros; unfold int_ok; rewrite (proj2 (Z.leb_le _ _)), (proj2 (Z.ltb_lt _ _)) by lia; done).
    rewrite (K_kopt_step _ _ _ _ (I (current_param (ansi_parser s) * 10) ltac:(lia))), (K_kopt_step _ _ _ _ (I (current_param (ansi_parser s) * 10 + (b - 48)) ltac:(lia))).
    eexists. split; [reflexivity|]. apply set_parser_ok; [done|done|]. unfold parser_ok.
    cbn [params param_count current_param pstate]. rewrite Nat2Z.inj_succ, Z.pow_succ_r by lia. split_and!; try done; lia.
  - destruct ((b =? 59) && _) eqn:Eb.
    + apply andb_true_iff in Eb as [_ Hlt%Z.ltb_lt]. destruct (push_param_ok n 0 _ P Hlt St) as (q & Eq & Hq).
      rewrite (K_kopt_step _ _ _ _ Eq). eexists. split; [reflexivity|]. by apply set_parser_ok.
    + destruct (digit_added _ && _) eqn:Ep; [|by apply finish_runs with (n := n)]. apply andb_true_iff in Ep as [_ Hlt%Z.ltb_lt].
      destruct (push_param_ok n n _ P Hlt St) as (q & Eq & (L1 & F1 & Hc1 & _)). erewrite K_bind_step; [|by rewrite (K_kopt_step _ _ _ _ Eq)].
      apply finish_runs with (n := n); [done|done|]. unfold parser_ok. cbn [params param_count current_param pstate]. split_and!; try done; lia.
Qed.
Lemma write_byte_runs s b n : con_ok fb n s → 0 ≤ b → (next_count n b ≤ 9)%nat →
  ∃ s', write_byte b s = Done (tt, s') ∧ con_ok fb (next_count n b) s'.
Proof.
  intros (Hok & C & P) Hb Hn. unfold write_byte. rewrite K_get_step. cbv zeta. pose proof P as (L & F & Hc & Hv & Hs).
  destruct (pstate (ansi_parser s)) eqn:St.
  - destruct (b =? 27).
    + eexists. split; [reflexivity|]. apply set_parser_ok; [done|done|]. unfold parser_ok. cbn [params param_count current_param pstate]. split_and!; try done; lia.
    + destruct (fbcon_putchar_runs fb s b Hok C Hb) as (s' & E & (Hok' & _ & Ep & C')). exists s'. split; [done|]. split; [done|]. split; [done|].
      rewrite Ep. unfold parser_ok. split_and!; try done; try lia. by rewrite St.
  - destruct (b =? 91); (eexists; split; [reflexivity|]); apply set_parser_ok; try done.
    + unfold parser_ok. cbn [params param_count current_param pstate]. split_and!; try lia; try done.
      { apply Forall_replicate. lia. }
  - by apply parse_csi_runs.
Qed.
Lemma fbcon_write_loop_runs buffer : ∀ s n, con_ok fb n s → Forall (λ b, 0 ≤ b) buffer → short_numbers n buffer = true →
  ∃ s' n', fbcon_write_loop buffer s = Done (tt, s') ∧ con_ok fb n' s'.
Proof.
  induction buffer as [|b buffer IH]; intros s n H Hb Hs; cbn [fbcon_write_loop short_numbers] in *; [by exists s, n|].
  apply Forall_cons in Hb as [Hb0 Hb].
  assert (Hn : (next_count n b ≤ 9)%nat ∧ short_numbers (next_count n b) buffer = true).
  { unfold next_count. destruct (_ && _); [|split; [lia|done]]. apply andb_true_iff in Hs as [Hlt%Nat.ltb_lt Hs]. by split; [lia|]. }
  destruct Hn as [Hn Hs']. destruct (write_byte_runs s b n H Hb0 Hn) as (s1 & E1 & H1). rewrite (K_bind_step _ _ _ _ _ E1). by eapply IH.
Qed.
End write.

(** C39: Writing to the console is safe.  From a console in a good state, less than
    2^31 bytes whose numbers have at most nine digits are written without an access outside the
    framebuffer, the grid of characters, the glyphs or the parameters of an escape
    sequence and without signed overflow; the whole buffer is consumed, and the
    console is in a good state again, with the cursor on the screen. *)
Theorem console_stays_in_bounds fb s n buffer : con_ok fb n s → Forall (λ b, 0 ≤ b < 256) buffer → zlen buffer ≤ INT_MAX →
  short_numbers n buffer = true →
  ∃ s' n', fbcon_write buffer s = Done (zlen buffer, s') ∧ con_ok fb n' s'.
Proof.
  intros H Hb Hl Hs. destruct (fbcon_write_loop_runs fb buffer s n H) as (s' & n' & E & H'); [|done|].
  { eapply Forall_impl; [exact Hb|]. cbn. lia. }
  exists s', n'. split; [|done]. unfold fbcon_write. rewrite (proj2 (Z.ltb_ge _ _)) by lia. by rewrite (K_bind_step _ _ _ _ _ E).
Qed.

(** ** Start and fonts *)

Lemma use_font_runs fb s glyphs cw ch n : framebuffer s = Some fb → framebuffer_ok fb (zlen (fb_memory s)) →
  1 ≤ cw < 256 → 1 ≤ ch < 256 → 1 ≤ fb_width fb / cw < 2 ^ 16 → 1 ≤ fb_height fb / ch < 2 ^ 16 →
  zlen glyphs = 128 → Forall (λ b, (cw + 7) / 8 * ch ≤ zlen b) glyphs → zlen (bg_color s) = 3 → zlen (fg_color s) = 3 →
  0 ≤ cursor_x s < 2 ^ 16 → 0 ≤ cursor_y s < 2 ^ 16 → parser_ok n (ansi_parser s) →
  ∃ s', use_font glyphs cw ch s = Done (tt, s') ∧ con_ok fb n s'.
Proof.
  intros Efb Hfb Hcw Hch Hw Hh Hg Hgs Hbg Hfg Hx Hy P. unfold use_font. rewrite K_get_step, Efb. cbn [kopt]. rewrite (K_bind_step _ _ s fb s eq_refl).
  unfold lay_out. rewrite (proj2 (Z.eqb_neq cw 0)), (proj2 (Z.eqb_neq ch 0)) by lia. cbn [orb].
  assert (0 ≤ fb_height fb mod ch < ch) by (apply Z.mod_pos_bound; lia). assert (0 ≤ fb_width fb mod cw < cw) by (apply Z.mod_pos_bound; lia).
  rewrite !u32_id by lia. set (g := mk_grid _ _ _ _ _ _ _). rewrite (K_kopt_step _ g _ _ eq_refl), !K_modify_step.
  assert (Hwh : 0 ≤ width g * height g < 2 ^ 16 * 2 ^ 16) by (cbn; nia). rewrite u32_id by lia.
  set (s1 := set_console_buffer _ _).
  assert (Hok1 : screen_ok fb s1).
  { split; try done.
    - unfold grid_ok, row_bytes. cbn. split_and!; try lia; try done.
      + rewrite (Z.div_mod (fb_width fb) cw) at 2 by lia. lia.
      + rewrite (Z.div_mod (fb_height fb) ch) at 1 by lia. lia.
    - cbn [s1 console_buffer set_console_buffer geo set_geo]. unfold zrepeat, zlen. rewrite length_replicate. lia.
    - cbn [s1 console_buffer set_console_buffer]. apply Forall_replicate. split; [cbn; lia|done]. }
  destruct (clear_screen_runs fb s1 Hok1) as (s2 & E2 & St2). rewrite (K_bind_step _ _ _ _ _ E2).
  pose proof St2 as (Hok2 & G2 & X2 & Y2 & P2). change (geo s1) with g in G2. unfold set_cursor_position. rewrite K_get_step. cbv zeta.
  change (u16 0) with 0. rewrite G2. cbn [width height g]. rewrite (proj2 (Z.ltb_lt _ _)), (proj2 (Z.ltb_lt _ _)) by lia. cbn [andb].
  rewrite K_modify_step. destruct (set_cursor_ok fb s2 0 0) as ((Hok3 & G3 & P3 & C3) & X3 & Y3); [done|rewrite G2; cbn; lia..|].
  destruct (update_cursor_runs fb _ (cursor_x s2) (cursor_y s2) Hok3 C3) as (s4 & E4 & M4); [rewrite X2; cbn; lia|rewrite Y2; cbn; lia|].
  exists s4. split; [exact E4|]. destruct M4 as (Hok4 & _ & P4 & C4). split; [done|]. split; [done|]. rewrite P4, P3, P2. exact P.
Qed.

(** A screen of 16 by 32 pixels; glyph i has the byte i in all rows. *)
Definition small_fb : limine_framebuffer := mk_framebuffer 16 32 32 16 8 0.
Definition test_font : list (list Z) := zrepeat 16 <$> seqZ 0 128.
Definition off : fbcon := mk_fbcon (Some small_fb) (zrepeat 2048 0) [] (mk_grid [] 0 0 0 0 0 0) BLACK DEFAULT_FG 0 0 initial_parser.
Definition started : fbcon := match fbcon_init test_font off with Done (_, s) => s | _ => off end.
Lemma started_ok : con_ok small_fb 0 started.
Proof.
  assert (P : parser_ok 0 (ansi_parser off)).
  { unfold parser_ok. cbn [params param_count current_param pstate ansi_parser off initial_parser]. split_and!; try done; try lia. apply Forall_replicate. lia. }
  assert (G : Forall (λ b, (8 + 7) / 8 * 16 ≤ zlen b) (ztake 128 test_font)).
  { change (ztake 128 test_font) with test_font. unfold test_font. apply Forall_fmap, Forall_true. intros i.
    unfold compose, zlen, zrepeat. rewrite length_replicate. vm_compute. discriminate. }
  assert (F : framebuffer_ok small_fb (zlen (fb_memory off))) by (repeat split; vm_compute; congruence).
  destruct (use_font_runs small_fb off (ztake 128 test_font) 8 16 0) as (s' & E & H);
    [reflexivity|exact F|lia|lia|vm_compute; intuition discriminate|vm_compute; intuition discriminate|vm_compute; reflexivity|exact G
    |reflexivity|reflexivity|cbn; lia|cbn; lia|exact P|].
  unfold started, fbcon_init, DEFAULT_FONT_WIDTH, DEFAULT_FONT_HEIGHT. rewrite E. exact H.
Qed.
(** Text over the end of the screen, an escape sequence for red, and movements. *)
Definition sample : list Z := [65; 66; 67; 68; 69; 10; 27; 91; 51; 49; 109; 70; 27; 91; 65; 27; 91; 50; 59; 50; 72; 8; 71].
Lemma console_stays_in_bounds_witness : ∃ s' n', fbcon_write sample started = Done (23, s') ∧ con_ok small_fb n' s'.
Proof.
  apply (console_stays_in_bounds small_fb started 0 sample); [apply started_ok| |vm_compute; discriminate|vm_compute; reflexivity].
  unfold sample. repeat constructor; lia.
Defined.

(** ** What the console does not get right *)

(** The cell that the cursor leaves is drawn in the colours of the moment, not in its
    own: a red A turns grey when the cursor passes over it. *)
Definition red_a : list Z := [27; 91; 51; 49; 109; 65].
Definition pass_over : list Z := [27; 91; 68; 27; 91; 109; 27; 91; 67].
Lemma cursor_changes_colours :
  match (fbcon_write red_a;; fbcon_write pass_over) started with
  | Done (_, s) =>
    fg <$> znth (console_buffer s) 0 = Some [0xCD; 0; 0] ∧
    zslice 4 4 (fb_memory s) = [0xAA; 0xAA; 0xAA; 0]
  | _ => False
  end.
Proof. vm_compute. auto. Qed.
(** A number of ten digits overflows, and so does the state behind it. *)
Lemma long_number_overflows : fbcon_write ([27; 91] ++ zrepeat 10 57) started = Fault.
Proof. vm_compute. reflexivity. Qed.
(** A font of width 0 is a division by zero; one that is wider than the screen leaves
    a grid without columns, and the next character is stored outside of it. *)
Definition font_of (w h : Z) : font_t := mk_font (zrepeat 128 (zrepeat 4096 0)) w h.
Lemma setfont_divides_by_zero : setfont (font_of 0 16) started = Fault.
Proof. vm_compute. reflexivity. Qed.
Lemma setfont_wide_font :
  match setfont (font_of 17 16) started with
  | Done (_, s) => width (geo s) = 0 ∧ fbcon_write [65] s = Fault
  | _ => False
  end.
Proof. vm_compute. auto. Qed.

