(* ===== verification/Fd.v ===== *)
(** * usermode/fd.c: descriptor tables and open files

    Each task has a table of descriptors; an entry points to one of the open
    files of the system, which counts the entries that point to it and holds
    the offset they share.  The operations go on to the file system (Vfs.v),
    pipes (Pipe.v) or sockets (Udp.v).  Buffers are byte lists: what a read
    copies out is part of its result. *)

From S2P Require Import Prelude Paging Vfs Pipe Net Udp Task Signal.

Definition O_RDONLY : Z := 0x00.
Definition O_WRONLY : Z := 0x01.
Definition O_RDWR : Z := 0x02.
Definition O_CREAT : Z := 0x04.
Definition O_NONBLOCK : Z := 0x08.
Definition O_DIRECTORY : Z := 0x10.
Definition O_APPEND : Z := 0x20.
Definition O_CLOEXEC : Z := 0x40.
Definition O_EXCL : Z := 0x80.
Definition O_TRUNC : Z := 0x100.
Definition O_ACCESS : Z := 0x03.
Definition F_GETFD : Z := 0.
Definition F_SETFD : Z := 1.
Definition F_GETFL : Z := 2.
Definition F_SETFL : Z := 3.
Definition F_DUPFD : Z := 4.
Definition F_DUPFD_CLOEXEC : Z := 5.
Definition SEEK_SET : Z := 0.
Definition SEEK_CUR : Z := 1.
Definition SEEK_END : Z := 2.
Definition FCNTL_MUTABLE : Z := Z.lor O_APPEND O_NONBLOCK.

Definition fd_entry (t : task_t) (i : Z) : fd_t := default no_fd (fd_table t !! i).
Definition set_fd_entry (i : Z) (e : fd_t) (t : task_t) : task_t :=
  set_fd_table (<[i := e]> (fd_table t)) t.

Section fd.
Context {FS N : Type}.
#[local] Notation kernel := (kernel FS N).
Implicit Types (s : kernel).

Definition description (s : kernel) (i : Z) : file_description_t :=
  default zero_description (file_descriptions s !! i).
Definition update_description (i : Z) (f : file_description_t → file_description_t) : K kernel unit :=
  kmodify (λ s, set_file_descriptions (<[i := f (description s i)]> (file_descriptions s)) s).

(** The test every call starts with: the open file behind a descriptor. *)
Definition lookup_fd (n : Z) : K kernel (option Z) :=
  t ← current;
  mret (if (n <? 0) || (Z.of_nat MAX_FDS <=? n) then None else fd (fd_entry t n)).
Definition with_fd {A} (bad : A) (n : Z) (k : Z → file_description_t → K kernel A) : K kernel A :=
  f ← lookup_fd n;
  match f with
  | None => mret bad
  | Some f => s ← kget; k f (description s f)
  end.

(** The first free entry of a table from [i] on, and the first free open file. *)
Fixpoint find_fd (n : nat) (i : Z) (t : task_t) : option Z :=
  match n with
  | O => None
  | S n => match fd (fd_entry t i) with None => Some i | Some _ => find_fd n (i + 1) t end
  end.
Fixpoint find_description (n : nat) (i : Z) (s : kernel) : option Z :=
  match n with
  | O => None
  | S n => if refcount (description s i) =? 0 then Some i else find_description n (i + 1) s
  end.

(** ** Opening *)

(** What the file is, after creating it if the flags say so; an error otherwise. *)
Definition open_stat (path : list Z) (oflags : Z) : K kernel (Z + stat_t) :=
  r ← lift_vfs (vfs_stat path);
  let '(res, st) := r in
  if res <? 0 then
    if has oflags O_CREAT then
      res ← lift_vfs (create_file path);
      mret (if res <? 0 then inl res else inr stat_zero)
    else mret (inl res)
  else if has oflags O_EXCL then mret (inl (- EEXIST))
  else mret (inr st).

(** Open the file into description [i] (the handle of a free one is not used). *)
Definition open_description (i : Z) (path : list Z) (oflags : Z) (st : stat_t) : K kernel Z :=
  r ← lift_vfs (vfs_open path);
  let '(res, h) := r in
  if res <? 0 then mret res
  else
    update_description i (set_file_handle h);;
    res ← (if has oflags O_TRUNC && (st_type st =? DT_FILE)
           then lift_vfs (vfs_truncate h 0) else mret 0);
    if res <? 0 then
      update_description i (set_file_handle (mk_file_handle 0 0));; mret res
    else
      update_description i (λ d, mk_fdesc (file_handle d) (sock d) (pipe_ptr d)
        (if st_type st =? DT_DIR then FD_TYPE_DIR else FD_TYPE_FILE) 0
        (Z.land oflags (Z.lnot O_CLOEXEC)) 1);;
      mret 0.

Definition fd_open (path : list Z) (oflags : Z) : K kernel Z :=
  if has oflags O_WRONLY && has oflags O_RDWR then mret (- EINVAL)
  else
    r ← open_stat path oflags;
    match r with
    | inl e => mret e
    | inr st =>
      if has oflags O_DIRECTORY && negb (st_type st =? DT_DIR) then mret (- ENOTDIR)
      else
        t ← current;
        match find_fd MAX_FDS 0 t with
        | None => mret (- EMFILE)
        | Some fd_index =>
          s ← kget;
          match find_description MAX_FILES 0 s with
          | None => mret (- ENFILE)
          | Some i =>
            res ← open_description i path oflags st;
            if res <? 0 then mret res
            else
              update_current (set_fd_entry fd_index (mk_fd (Some i) (Z.land oflags O_CLOEXEC)));;
              mret fd_index
          end
        end
    end.

(** ** Closing *)

Definition deref_pipe (p : Z) : K kernel pipe_t := s ← kget; kopt (pipes s !! p).
(** remove_pipe_reader and remove_pipe_writer free a pipe without ends. *)
Definition remove_pipe_end (remove : pipe_t → pipe_t * bool) (p : Z) : K kernel unit :=
  q ← deref_pipe p;
  let '(q, freed) := remove q in
  kmodify (λ s, set_pipes (if (freed : bool) then delete p (pipes s) else <[p := q]> (pipes s)) s).
Definition deref_socket (p : Z) : K kernel socket_t := s ← kget; kopt (sockets s !! p).
(** socket_close, and the kfree of the socket at its end. *)
Definition close_socket (p : Z) : K kernel Z :=
  sk ← deref_socket p;
  res ← lift_net (socket_close sk);
  (if res <? 0 then mret tt else kmodify (λ s, set_sockets (delete p (sockets s)) s));;
  mret res.

Definition close_file_description (i : Z) : K kernel Z :=
  s ← kget;
  let d := description s i in
  res ←
    (if (ftype d =? FD_TYPE_FILE) || (ftype d =? FD_TYPE_DIR) then lift_vfs (vfs_close (file_handle d))
     else if ftype d =? FD_TYPE_SOCKET then close_socket (sock d)
     else if ftype d =? FD_TYPE_PIPE then
       (if Z.land (flags d) O_ACCESS =? O_RDONLY
        then remove_pipe_end remove_pipe_reader (pipe_ptr d)
        else remove_pipe_end remove_pipe_writer (pipe_ptr d));; mret 0
     else mret 0);
  if res <? 0 then mret res
  else update_description i (set_offset 0);; mret 0.

(** [--refcount == 0], then close_file_description; a negative result is an error. *)
Definition drop_description (i : Z) : K kernel Z :=
  update_description i (λ d, set_refcount (s32 (refcount d - 1)) d);;
  s ← kget;
  if refcount (description s i) =? 0 then close_file_description i else mret 0.

Definition fd_close (n : Z) : K kernel Z :=
  with_fd (- EBADF) n (λ i _,
    res ← drop_description i;
    if res <? 0 then mret res
    else update_current (set_fd_entry n no_fd);; mret 0).

Fixpoint close_all (n : nat) (i : Z) : K kernel unit :=
  match n with
  | O => mret tt
  | S n =>
    t ← current;
    (match fd (fd_entry t i) with None => mret tt | Some _ => fd_close i;; mret tt end);;
    close_all n (i + 1)
  end.
Definition release_process_fds : K kernel unit := close_all MAX_FDS 0.

(** ** Positions *)

Definition seek (n o type : Z) : K kernel Z :=
  with_fd (- EBADF) n (λ i d,
    new ←
      (if type =? SEEK_SET then mret (inr (u64 o))
       else if type =? SEEK_CUR then mret (inr (u64 (offset d + o)))
       else if type =? SEEK_END then
         r ← lift_vfs (stat_handle (file_handle d));
         let '(res, st) := r in
         mret (if res <? 0 then inl res else inr (u64 (st_size st + o)))
       else mret (inl (- EINVAL)));
    match new with
    | inl e => mret e
    | inr o =>
      let o := if o <? 0 then 0 else o in
      update_description i (set_offset o);; mret (s64 o)
    end).

Definition tell (n : Z) : K kernel Z := with_fd (- EBADF) n (λ _ d, mret (s64 (offset d))).
Definition advance (i n : Z) : K kernel unit :=
  update_description i (λ d, set_offset (u64 (offset d + n)) d).

End fd.

Section io.
Context {FS N : Type}.
#[local] Notation kernel := (kernel FS N).
Context (yield_current : K kernel unit).

(** Try again after every yield until the result is not -EAGAIN. *)
Fixpoint retry {A} (fuel : nat) (i : Z) (try : K kernel (Z * A)) (none : A) : K kernel (Z * A) :=
  match fuel with
  | O => kfuel
  | S fuel =>
    r ← try;
    s ← kget;
    if has (flags (description s i)) O_NONBLOCK || negb (r.1 =? - EAGAIN) then mret r
    else
      t ← current;
      if has_pending_signals t then mret (- EINTR, none)
      else yield_current;; retry fuel i try none
  end.

Definition read_pipe (i size : Z) : K kernel (Z * list Z) :=
  s ← kget;
  let p := pipe_ptr (description s i) in
  q ← deref_pipe p;
  let '(res, bytes, q) := pipe_read q size in
  kmodify (λ s, set_pipes (<[p := q]> (pipes s)) s);;
  mret (res, bytes).
Definition read_at_offset (i size : Z) : K kernel (Z * list Z) :=
  s ← kget;
  let d := description s i in
  lift_vfs (read_file (file_handle d) (offset d) size).

Definition read (fuel : nat) (n size : Z) : K kernel (Z * list Z) :=
  with_fd (- EBADF, []) n (λ i d,
    if Z.land (flags d) O_ACCESS =? O_WRONLY then mret (- EBADF, [])
    else if ftype d =? FD_TYPE_DIR then mret (- EISDIR, [])
    else if ftype d =? FD_TYPE_SOCKET then mret (- ENOSYS, [])
    else if ftype d =? FD_TYPE_FILE then
      r ← retry fuel i (read_at_offset i size) [];
      (if 0 <? r.1 then advance i r.1 else mret tt);;
      mret r
    else retry fuel i (read_pipe i size) []).

(** pipe_write sleeps by itself: [steps] is what the other tasks do meanwhile. *)
Definition write_pipe (steps : list env_step) (p : Z) (buffer : list Z) (blocking : bool) : K kernel Z :=
  q ← deref_pipe p;
  match pipe_write steps q buffer blocking with
  | Done (res, q) => kmodify (λ s, set_pipes (<[p := q]> (pipes s)) s);; mret res
  | Panic => kpanic
  | Fault => kfault
  | OutOfFuel => kfuel
  end.
Definition write (steps : list env_step) (n : Z) (buffer : list Z) : K kernel Z :=
  with_fd (- EBADF) n (λ i d,
    if Z.land (flags d) O_ACCESS =? O_RDONLY then mret (- EBADF)
    else if ftype d =? FD_TYPE_DIR then mret (- EISDIR)
    else if ftype d =? FD_TYPE_SOCKET then mret (- ENOSYS)
    else if ftype d =? FD_TYPE_FILE then
      (if has (flags d) O_APPEND then seek n 0 SEEK_END;; mret tt else mret tt);;
      s ← kget;
      res ← lift_vfs (write_file (file_handle d) buffer (offset (description s i)));
      (if 0 <? res then advance i res else mret tt);;
      mret res
    else
      res ← write_pipe steps (pipe_ptr d) buffer (has (flags d) O_NONBLOCK);
      (if res =? - EPIPE then raise SIGPIPE;; mret tt else mret tt);;
      mret res).

Definition fd_readdir (n : Z) : K kernel (Z * dirent_t) :=
  let none := mk_dirent [] 0 in
  with_fd (- EBADF, none) n (λ i d,
    if negb (ftype d =? FD_TYPE_DIR) then mret (- ENOTDIR, none)
    else
      r ← lift_vfs (readdir (file_handle d) (s32 (offset d)));
      (if 0 <? r.1 then advance i r.1 else mret tt);;
      mret r).
Definition fd_ioctl (block_ioctl char_ioctl : block_device_t → Z → Z → K FS Z) (n request arg : Z)
    : K kernel Z :=
  with_fd (- EBADF) n (λ _ d,
    if ftype d =? FD_TYPE_DIR then mret (- EISDIR)
    else if negb (ftype d =? FD_TYPE_FILE) then mret (- EINVAL)
    else lift_vfs (ioctl block_ioctl char_ioctl (file_handle d) request arg)).
Definition fstat (n : Z) : K kernel (Z * stat_t) :=
  with_fd (- EBADF, stat_zero) n (λ _ d,
    if negb (ftype d =? FD_TYPE_FILE) && negb (ftype d =? FD_TYPE_DIR) then mret (- EINVAL, stat_zero)
    else lift_vfs (stat_handle (file_handle d))).
Definition ftruncate (n new_size : Z) : K kernel Z :=
  with_fd (- EBADF) n (λ _ d,
    if negb (ftype d =? FD_TYPE_FILE) then mret (- EINVAL)
    else lift_vfs (vfs_truncate (file_handle d) new_size)).

(** ** Copies of descriptors *)

Definition share (i : Z) : K kernel unit :=
  update_description i (λ d, set_refcount (s32 (refcount d + 1)) d).
Definition dup (n minfd cloexec : Z) : K kernel Z :=
  with_fd (- EBADF) n (λ i _,
    if (minfd <? 0) || (Z.of_nat MAX_FDS <=? minfd) then mret (- EINVAL)
    else
      t ← current;
      match find_fd (Z.to_nat (Z.of_nat MAX_FDS - minfd)) minfd t with
      | None => mret (- EMFILE)
      | Some new =>
        update_current (set_fd_entry new (mk_fd (Some i) cloexec));;
        share i;;
        mret new
      end).
Definition fcntl (n cmd arg : Z) : K kernel Z :=
  with_fd (- EBADF) n (λ i d,
    if cmd =? F_GETFD then t ← current; mret (fd_flags (fd_entry t n))
    else if cmd =? F_SETFD then
      update_current (set_fd_entry n (mk_fd (Some i) arg));; mret 0
    else if cmd =? F_GETFL then mret (flags d)
    else if cmd =? F_SETFL then
      update_description i (set_flags
        (Z.lor (Z.land (flags d) (Z.lnot FCNTL_MUTABLE)) (Z.land arg FCNTL_MUTABLE)));;
      mret 0
    else if cmd =? F_DUPFD then dup n arg 0
    else if cmd =? F_DUPFD_CLOEXEC then dup n arg O_CLOEXEC
    else mret (- EINVAL)).
(** The result of closing [new_fd] is not looked at. *)
Definition dup2 (n new_fd : Z) : K kernel Z :=
  with_fd (- EBADF) n (λ i _,
    if (new_fd <? 0) || (Z.of_nat MAX_FDS <=? new_fd) then mret (- EBADF)
    else if n =? new_fd then mret new_fd
    else
      fd_close new_fd;;
      t ← current;
      update_current (set_fd_entry new_fd (mk_fd (fd (fd_entry t n)) 0));;
      match fd (fd_entry t n) with None => kfault | Some i => share i end;;
      mret new_fd).

(** ** Pipes *)

(** Up to two values from the two searches. *)
Definition two_free {A} (find : nat → Z → A → option Z) (n : nat) (a : A) : list Z :=
  match find n 0 a with
  | None => []
  | Some i =>
    i :: match find (n - Z.to_nat (i + 1))%nat (i + 1) a with None => [] | Some j => [j] end
  end.
(** The result and the descriptors stored into the array of the caller. *)
Definition pipe : K kernel (Z * list Z) :=
  t ← current;
  match two_free find_fd MAX_FDS t with
  | [a; b] =>
    s ← kget;
    match two_free find_description MAX_FILES s with
    | [i; j] =>
      p ← new_object;
      kmodify (λ s, set_pipes (<[p := create_pipe]> (pipes s)) s);;
      update_description i (λ d,
        mk_fdesc (file_handle d) (sock d) p FD_TYPE_PIPE (offset d) O_RDONLY 1);;
      update_description j (λ d,
        mk_fdesc (file_handle d) (sock d) p FD_TYPE_PIPE (offset d) O_WRONLY 1);;
      update_current (set_fd_entry a (mk_fd (Some i) 0));;
      update_current (set_fd_entry b (mk_fd (Some j) 0));;
      mret (0, [a; b])
    | _ => mret (- ENFILE, [a; b])
    end
  | found => mret (- EMFILE, found)
  end.

(** ** Sockets *)

Definition fd_socket (domain type protocol : Z) : K kernel Z :=
  t ← current;
  match find_fd MAX_FDS 0 t with
  | None => mret (- EMFILE)
  | Some fd_index =>
    s ← kget;
    match find_description MAX_FILES 0 s with
    | None => mret (- ENFILE)
    | Some i =>
      match socket domain type protocol with
      | inl e => mret e
      | inr sk =>
        p ← new_object;
        kmodify (λ s, set_sockets (<[p := sk]> (sockets s)) s);;
        update_description i (λ d, mk_fdesc (file_handle d) p (pipe_ptr d) FD_TYPE_SOCKET 0 0 1);;
        update_current (set_fd_entry fd_index (mk_fd (Some i) 0));;
        mret fd_index
      end
    end
  end.

(** An operation on the socket behind description [i]. *)
Definition on_socket {A} (i : Z) (op : socket_t → K (net N) (A * socket_t)) : K kernel A :=
  s ← kget;
  let p := sock (description s i) in
  sk ← deref_socket p;
  r ← lift_net (op sk);
  kmodify (λ s, set_sockets (<[p := r.2]> (sockets s)) s);;
  mret r.1.
Definition with_socket {A} (fail : Z → A) (n : Z) (op : Z → K kernel A) : K kernel A :=
  with_fd (fail (- EBADF)) n (λ i d,
    if negb (ftype d =? FD_TYPE_SOCKET) then mret (fail (- EINVAL)) else op i).

Definition fd_bind (n : Z) (addr : option sockaddr_in_t) : K kernel Z :=
  with_socket id n (λ i, on_socket i (λ sk, bind sk addr)).
Definition fd_unbind (n : Z) : K kernel Z :=
  with_socket id n (λ i, on_socket i (λ sk, r ← unbind sk; mret (r, sk))).
Definition fd_recvfrom (fuel : nat) (n len rflags : Z) : K kernel (Z * (list Z * sockaddr_in_t)) :=
  let none := ([], no_addr) in
  with_socket (λ e, (e, none)) n (λ i,
    retry fuel i
      (on_socket i (λ sk,
         r ← recvfrom sk len rflags;
         let '(res, bytes, from, sk) := r in mret ((res, (bytes, from)), sk)))
      none).
Definition fd_sendto (get_uptime_milliseconds : K N Z) (pending : K N bool)
    (net_yield : K (net N) unit) (byte_behind : K N Z) (fuel : nat)
    (n : Z) (buffer : list Z) (sflags : Z) (addr : sockaddr_in_t) : K kernel Z :=
  with_socket id n (λ i,
    on_socket i (λ sk,
      sendto get_uptime_milliseconds pending net_yield byte_behind fuel sk buffer sflags addr)).

End io.
