(* ===== verification/Sched.v ===== *)
(** * usermode/scheduler.c: processes

    Tasks form a ring (next, from init_task) that the scheduler walks, and a
    tree (parent, child, next_sibling).  A call that gives up the CPU ends in
    switch_task(), which picks the next task of the ring, delivers its signals
    and jumps to its interrupt frame; the run of the model ends there, in the
    state in which the chosen task continues.  The kernel stacks of the tasks are
    not modelled: a task's frame is a field of the task. *)

From S2P Require Import Prelude Paging Vfs Pipe Net Udp Task Signal Fd.

Definition WNOHANG : Z := 0x1.
Definition WUNTRACED : Z := 0x2.
Definition WCONTINUED : Z := 0x4.
Definition W_EXITCODE (status sig : Z) : Z := s32 (Z.lor (Z.shiftl status 8) sig).
Definition W_STOPCODE (sig : Z) : Z := Z.lor (Z.shiftl sig 8) 0x7f.
Definition W_CONTINUED : Z := 0xffff.

(** What the wstatus of a zombie says. *)
Definition exit_status (code : Z) : Z :=
  if 0 <=? code then W_EXITCODE code 0 else W_EXITCODE 0 (- code).

Section sched.
Context {FS N : Type}.
#[local] Notation kernel := (kernel FS N).

(** ** Choosing a task *)

(** The search moves rr_task on; it ends at the task it started from. *)
Fixpoint next_loop (fuel : nat) (start : Z) : K kernel (option Z) :=
  match fuel with
  | O => kfuel
  | S fuel =>
    s ← kget;
    t ← task (rr_task s);
    kmodify (set_rr_task (next (links t)));;
    t' ← task (next (links t));
    if bool_decide (state t' = STATE_READY) then mret (Some (next (links t)))
    else if next (links t) =? start then mret None
    else next_loop fuel start
  end.
Definition get_next_task : K kernel (option Z) :=
  s ← kget; next_loop (size (tasks s)) (rr_task s).

(** ** Switching and exit

    exit() ends in switch_task(), which delivers the signals of the task it has
    picked and so may end that one too.  Each round ends a task that was ready. *)

Fixpoint reparent (fuel : nat) (c new_parent : Z) : K kernel unit :=
  if c =? NULL then mret tt
  else match fuel with
  | O => kfuel
  | S fuel =>
    t ← task c;
    let nxt := next_sibling (links t) in
    update_task c (with_links (set_parent new_parent));;
    p ← task new_parent;
    update_task c (with_links (set_next_sibling (child (links p))));;
    update_task new_parent (with_links (set_child c));;
    reparent fuel nxt new_parent
  end.

Definition exit_with (switch : K kernel unit) (ret : Z) : K kernel unit :=
  s ← kget;
  if current_task s =? INIT_TASK then kpanic
  else
    release_process_fds;;
    update_current (λ t, with_status (set_return_code ret) (set_state STATE_ZOMBIE t));;
    t ← current;
    update_task (parent (links t)) (add_pending (SIGCHLD - 1));;
    t ← current;
    s ← kget;
    reparent (size (tasks s)) (child (links t)) INIT_TASK;;
    switch.

(** Up to deliver_signals. *)
Definition choose_task : K kernel unit :=
  next_task ← get_next_task;
  let p := match next_task with Some p => p | None => IDLE_TASK end in
  kmodify (set_current_task p);;
  update_task p (set_state STATE_RUNNING);;
  t ← task p;
  kmodify (set_ticks_remaining (time_slice (image t)));;
  lift_tables (kmodify (change_pml4 (cr3 (image t)))).
Definition restore_fpu : K kernel unit := t ← current; kmodify (set_fpu (fpu_state (context t))).
Definition save_fpu : K kernel unit :=
  s ← kget; update_current (with_context (set_fpu_state (fpu s))).
(** restore_fpu, interrupts on, context_switch. *)
Definition resume : K kernel unit :=
  restore_fpu;; update_current (with_iframe (λ f, set_rflags (Z.lor (rflags f) 0x200) f)).
Fixpoint switch_loop (fuel : nat) : K kernel unit :=
  match fuel with
  | O => kfuel
  | S fuel =>
    choose_task;;
    ended ← deliver_signals_with (exit_with (switch_loop fuel));
    if (ended : bool) then mret tt else resume
  end.
(** Each task can end once, and then the idle task is left. *)
Definition switch_task : K kernel unit := s ← kget; switch_loop (size (tasks s) + 2).
Definition exit (ret : Z) : K kernel unit := exit_with switch_task ret.
Definition deliver_signals : K kernel bool := deliver_signals_with exit.

Definition sigreturn : K kernel unit :=
  t ← current;
  if negb (in_signal (signals t)) then mret tt
  else
    update_current (with_signals (set_in_signal false));;
    update_current (λ t, with_context (λ c,
      set_fpu_state (signal_interrupted_fpu_state (signals t))
        (set_iframe (signal_interrupted_iframe (signals t)) c)) t);;
    ended ← deliver_signals;
    if (ended : bool) then mret tt else resume.

(** ** Deleted tasks *)

Fixpoint unlink_sibling (fuel : nat) (p t : Z) : K kernel unit :=
  match fuel with
  | O => kfuel
  | S fuel =>
    tp ← task p;
    let n := next_sibling (links tp) in
    if n =? NULL then mret tt
    else if n =? t then
      tt' ← task t;
      update_task p (with_links (set_next_sibling (next_sibling (links tt'))))
    else unlink_sibling fuel n t
  end.
Definition unlink_child (p t : Z) : K kernel unit :=
  tp ← task p;
  tk ← task t;
  if child (links tp) =? t then update_task p (with_links (set_child (next_sibling (links tk))))
  else s ← kget; unlink_sibling (size (tasks s)) (child (links tp)) t.
(** Free task [t], the successor of [p] in the ring. *)
Definition collect (p t : Z) : K kernel unit :=
  tk ← task t;
  lift_tables (free_page_tables (cr3 (image tk)));;
  update_task p (with_links (set_next (next (links tk))));;
  (if is_kworker (image tk) then mret tt else unlink_child (parent (links tk)) t);;
  s ← kget;
  tk ← task t;
  (if current_task s =? t then kmodify (set_current_task (next (links tk))) else mret tt);;
  (if rr_task s =? t then kmodify (set_rr_task (next (links tk))) else mret tt);;
  kmodify (λ s, set_tasks (delete t (tasks s)) s).
Fixpoint gc_loop (fuel : nat) (p t : Z) : K kernel unit :=
  if t =? INIT_TASK then mret tt
  else match fuel with
  | O => kfuel
  | S fuel =>
    tk ← task t;
    if bool_decide (state tk = STATE_DELETED) then
      collect p t;; gc_loop fuel p (next (links tk))
    else gc_loop fuel t (next (links tk))
  end.
Definition gc_tasks : K kernel unit :=
  s ← kget;
  t ← task INIT_TASK;
  gc_loop (size (tasks s)) INIT_TASK (next (links t)).

Definition run_next (f : iframe_t) : K kernel unit :=
  s ← kget;
  if negb (scheduler_initialized s) then mret tt
  else
    update_current (with_iframe (λ _, f));;
    save_fpu;;
    update_current (λ t, if bool_decide (state t = STATE_RUNNING) then set_state STATE_READY t else t);;
    gc_tasks;;
    switch_task.
(** run_next(iframe) where iframe is current_task->iframe, as in a system call. *)
Definition run_next_current : K kernel unit := t ← current; run_next (iframe (context t)).

(** ** New tasks *)

Fixpoint share_fds (n : nat) (i : Z) (t : task_t) : K kernel unit :=
  match n with
  | O => mret tt
  | S n =>
    match fd (fd_entry t i) with None => mret tt | Some d => share d end;;
    share_fds n (i + 1) t
  end.
Definition next_pid : K kernel Z :=
  kmodify (λ s, set_last_pid (last_pid s + 1) s);; kgets last_pid.

(** [new] becomes the first child of [p] and follows it in the ring. *)
Definition link_task (p new : Z) : K kernel unit :=
  tp ← task p;
  update_task new (with_links (λ _, mk_links (next (links tp)) (child (links tp)) p NULL));;
  update_task p (with_links (λ l, set_child new (set_next new l))).

Definition fork (f : iframe_t) : K kernel Z :=
  s ← kget;
  if last_pid s =? INT_MAX then kpanic
  else
    update_current (with_iframe (λ _, f));;
    save_fpu;;
    new ← new_object;
    cur ← current;
    cr3' ← lift_tables (clone_page_tables (cr3 (image cur)));
    kmodify (λ s, set_tasks (<[new := set_image (set_cr3 cr3' (image cur))
                                 (set_state STATE_READY cur)]> (tasks s)) s);;
    share_fds MAX_FDS 0 cur;;
    link_task (current_task s) new;;
    p ← next_pid;
    update_task new (λ t, set_ids (set_pid p (ids t)) t);;
    update_current (with_iframe (set_rax p));;
    update_task new (with_iframe (set_rax 0));;
    update_current (set_state STATE_READY);;
    switch_task;;
    mret p.

(** The address of kworker_trampoline is [trampoline]. *)
Definition create_kworker (trampoline function arg : Z) : K kernel Z :=
  s ← kget;
  if last_pid s =? INT_MAX then kpanic
  else
    p ← next_pid;
    new ← new_object;
    init ← task INIT_TASK;
    cr3' ← lift_tables (clone_page_tables (base_pml4 s));
    cur ← current;
    let f := set_ss 0x10 (set_cs KERNEL_CS (set_rflags 0x200 (set_rsi arg
               (set_rdi function (set_rip trampoline zero_iframe))))) in
    kmodify (λ s, set_tasks (<[new :=
      set_ids (set_pid p (ids init))
        (set_links (mk_links (next (links cur)) NULL NULL NULL)
          (set_image (set_is_kworker true (set_cr3 cr3' (image init)))
            (set_context (mk_context f (map (λ _, 0) (fpu_state (context init))))
            (set_state STATE_READY init))))]> (tasks s)) s);;
    update_current (with_links (set_next new));;
    mret p.
Definition kworker_exit : K kernel unit :=
  t ← current;
  if negb (is_kworker (image t)) then mret tt
  else update_current (set_state STATE_DELETED);; switch_task.

(** ** Waiting *)

Definition block_current (r : block_reason_t) (f : wait_t → wait_t) : K kernel unit :=
  update_current (λ t, with_wait (λ w, f (set_block_reason r w)) (set_state STATE_BLOCKED t)).
Definition sleep (ms : Z) : K kernel unit :=
  if ms =? 0 then mret tt
  else
    block_current BLOCK_DELAY (set_blocked_ticks ms);;
    update_current (with_iframe (set_rax 0));;
    run_next_current.

(** The first task from [c] on along the siblings that satisfies [p]. *)
Fixpoint find_sibling (fuel : nat) (c : Z) (p : task_t → bool) : K kernel Z :=
  if c =? NULL then mret NULL
  else match fuel with
  | O => kfuel
  | S fuel =>
    t ← task c;
    if p t then mret c else find_sibling fuel (next_sibling (links t)) p
  end.
Definition get_child (p k : Z) : K kernel Z :=
  s ← kget;
  t ← task p;
  find_sibling (size (tasks s)) (child (links t))
    (λ c, negb (bool_decide (state c = STATE_DELETED)) && (pid (ids c) =? k)).

(** What a wait with [options] reports of a task: an exit, a stop, a continuation. *)
Inductive wait_event := WExited | WStopped | WContinued.
Definition event_of (options : Z) (t : task_t) : option wait_event :=
  if bool_decide (state t = STATE_ZOMBIE) then Some WExited
  else if has options WUNTRACED && (waitpid_event (status t) =? 1) then Some WStopped
  else if has options WCONTINUED && (waitpid_event (status t) =? 2) then Some WContinued
  else None.
Definition get_first_waitpid_target (p options : Z) : K kernel Z :=
  s ← kget;
  t ← task p;
  find_sibling (size (tasks s)) (child (links t))
    (λ c, match event_of options c with Some _ => true | None => false end).

(** Store the status of [c] through the user pointer and take the event from it. *)
Definition report (c ws : Z) (e : wait_event) : K kernel unit :=
  t ← task c;
  (if ws =? NULL then mret tt
   else lift_tables (poke 4 ws
     match e with
     | WExited => exit_status (return_code (status t))
     | WStopped => W_STOPCODE (stop_signal (status t))
     | WContinued => W_CONTINUED
     end));;
  update_task c (λ t, match e with
                      | WExited => set_state STATE_DELETED t
                      | _ => with_status (set_waitpid_event 0) t
                      end).

(** A wait that finds nothing yet; [c] is the awaited child or NULL. *)
Definition wait_for (c ws options : Z) : K kernel Z :=
  if has options WNOHANG then mret 0
  else
    t ← current;
    if has_pending_signals t then mret (- EINTR)
    else
      block_current BLOCK_WAITPID (λ w,
        set_waitpid_flags options (set_wstatus ws (set_blocked_process c w)));;
      run_next_current;;
      mret (- ENOSYS).
Definition waitpid (k ws options : Z) : K kernel Z :=
  s ← kget;
  c ← (if 0 <? k then get_child (current_task s) k
       else get_first_waitpid_target (current_task s) options);
  if (0 <? k) && (c =? NULL) then mret (- ESRCH)
  else if c =? NULL then wait_for NULL ws options
  else
    t ← task c;
    match event_of options t with
    | Some e => report c ws e;; mret (pid (ids t))
    | None => wait_for (if 0 <? k then c else NULL) ws options
    end.

(** *** The clock tick looks after the blocked tasks *)

Definition unblock (p : Z) : K kernel unit :=
  update_task p (λ t, with_wait (set_block_reason BLOCK_NONE) (set_state STATE_READY t)).
Definition set_result (p v : Z) : K kernel unit := update_task p (with_iframe (set_rax (u64 v))).
(** With the address space of [p]. *)
Definition in_space {A} (p : Z) (m : K kernel A) : K kernel A :=
  s ← kget;
  let old_cr3 := pml4_physical (tables s) in
  t ← task p;
  lift_tables (kmodify (change_pml4 (cr3 (image t))));;
  a ← m;
  lift_tables (kmodify (change_pml4 old_cr3));;
  mret a.

Definition check_delay (p : Z) (reduce_ticks : bool) : K kernel unit :=
  (if reduce_ticks
   then update_task p (with_wait (λ w, set_blocked_ticks (u64 (blocked_ticks w - 1)) w))
   else mret tt);;
  t ← task p;
  (if blocked_ticks (wait t) =? 0 then unblock p else mret tt);;
  t ← task p;
  if has_pending_signals t then
    unblock p;;
    set_result p (blocked_ticks (wait t));;
    update_task p (with_wait (set_blocked_ticks 0))
  else mret tt.

(** A wait for one child. *)
Definition check_wait_child (p c : Z) : K kernel unit :=
  t ← task p;
  unblocked ← in_space p
    (tc ← task c;
     match event_of (waitpid_flags (wait t)) tc with
     | Some e => report c (wstatus (wait t)) e;; mret true
     | None => mret false
     end);
  t ← task p;
  if negb unblocked && negb (has_pending_signals t) then mret tt
  else
    unblock p;;
    tc ← task c;
    set_result p (if (unblocked : bool) then pid (ids tc) else - EINTR);;
    update_task p (with_wait (set_blocked_process NULL)).

(** A wait for any child.  A zombie is only deleted if there is a wstatus to store,
    and the stop signal reported is that of the waiting task. *)
Definition report_any (p c : Z) (e : wait_event) : K kernel unit :=
  t ← task p;
  tc ← task c;
  let ws := wstatus (wait t) in
  match e with
  | WExited => if ws =? NULL then mret tt else report c ws WExited
  | WStopped =>
    (if ws =? NULL then mret tt
     else lift_tables (poke 4 ws (W_STOPCODE (stop_signal (status t)))));;
    update_task c (with_status (set_waitpid_event 0))
  | WContinued => report c ws WContinued
  end.
Definition check_wait_any (p : Z) : K kernel unit :=
  t ← task p;
  c ← get_first_waitpid_target p (waitpid_flags (wait t));
  if c =? NULL then
    if has_pending_signals t then unblock p;; set_result p (- EINTR) else mret tt
  else
    unblocked ← in_space p
      (tc ← task c;
       match event_of (waitpid_flags (wait t)) tc with
       | Some e => report_any p c e;; mret true
       | None => mret false
       end);
    if negb unblocked then mret tt
    else
      unblock p;;
      tc ← task c;
      set_result p (pid (ids tc)).

Definition check_blocked_task (reduce_ticks : bool) (p : Z) : K kernel unit :=
  t ← task p;
  if negb (bool_decide (state t = STATE_BLOCKED)) then mret tt
  else match block_reason (wait t) with
  | BLOCK_NONE => mret tt
  | BLOCK_DELAY => check_delay p reduce_ticks
  | BLOCK_WAITPID =>
    if blocked_process (wait t) =? NULL then check_wait_any p
    else check_wait_child p (blocked_process (wait t))
  end.
Definition check_blocked_tasks (reduce_ticks : bool) : K kernel unit :=
  for_tasks (λ p _, check_blocked_task reduce_ticks p) (λ _, false) tt.

(** ** Process groups and sessions *)

Definition getpid : K kernel Z := t ← current; mret (pid (ids t)).
Definition getppid : K kernel Z :=
  s ← kget;
  if current_task s =? INIT_TASK then mret 0
  else t ← current; p ← task (parent (links t)); mret (pid (ids p)).
(** The first task of the ring that satisfies [p]. *)
Definition find_task (p : task_t → bool) : K kernel (option task_t) :=
  for_tasks (λ q _, t ← task q; mret (if p t then Some t else None))
    (λ r, match r with Some _ => true | None => false end) None.
Definition getpgid (k : Z) : K kernel Z :=
  cur ← current;
  let k := if k =? 0 then pid (ids cur) else k in
  r ← find_task (λ t, pid (ids t) =? k);
  mret (match r with Some t => pgid (ids t) | None => - ESRCH end).
Definition getsid (k : Z) : K kernel Z :=
  cur ← current;
  let k := if k =? 0 then pid (ids cur) else k in
  r ← find_task (λ t, pid (ids t) =? k);
  mret (match r with Some t => sid (ids t) | None => - ESRCH end).
Definition with_ids (f : ids_t → ids_t) (t : task_t) : task_t := set_ids (f (ids t)) t.
Definition setpgid (k g : Z) : K kernel Z :=
  cur ← current;
  s ← kget;
  let k := if k =? 0 then pid (ids cur) else k in
  let g := if g =? 0 then k else g in
  target ← (if k =? pid (ids cur) then mret (current_task s) else get_child (current_task s) k);
  if target =? NULL then mret (- ESRCH)
  else
    t ← task target;
    if negb (sid (ids t) =? sid (ids cur)) then mret (- EPERM)
    else
      err ←
        (if k =? g then mret 0
         else
           r ← find_task (λ i, (pgid (ids i) =? g) && negb (bool_decide (state i = STATE_DELETED)));
           mret (match r with
                 | None => - ESRCH
                 | Some i => if sid (ids i) =? sid (ids t) then 0 else - EPERM
                 end));
      if err <? 0 then mret err
      else if (pgid (ids t) =? pid (ids t)) && negb (g =? pgid (ids t)) then mret (- EPERM)
      else update_task target (with_ids (set_pgid g));; mret 0.
Definition setsid : K kernel Z :=
  t ← current;
  if pgid (ids t) =? pid (ids t) then mret (- EPERM)
  else
    update_current (with_ids (λ i, set_pgid (pid i) (set_sid (pid i) i)));;
    mret (pid (ids t)).

End sched.
