(* ===== verification/Elf.v ===== *)
(** * usermode/elf.c: loading a program into memory

    The headers are decoded from the bytes that read_file delivers, the segments
    are mapped with alloc_region and written through the page tables, in the
    address space that is active.  The results of the reads are not looked at by
    the code, so what a local buffer held before is part of the model
    ([stack_bytes]: what the local of a function holds when it is entered). *)

From S2P Require Import Prelude Paging Vfs Net Task.

Definition ELFMAG : list Z := [0x7f; 69; 76; 70].
Definition EI_CLASS : Z := 4.
Definition EI_DATA : Z := 5.
Definition ELFCLASS64 : Z := 2.
Definition ELFDATA2LSB : Z := 1.
Definition ET_EXEC : Z := 2.
Definition PT_LOAD : Z := 1.
Definition PF_X : Z := 0x1.

Record Elf64_Ehdr := mk_ehdr {
  e_ident : list Z;
  e_type : Z;
  e_machine : Z;
  e_version : Z;
  e_entry : Z;
  e_phoff : Z;
  e_shoff : Z;
  e_flags : Z;
  e_ehsize : Z;
  e_phentsize : Z;
  e_phnum : Z;
  e_shentsize : Z;
  e_shnum : Z;
  e_shstrndx : Z;
}.
Definition EHDR_SIZE : Z := 64.
(** The structure that lies in the bytes [b]. *)
Definition ehdr_of (b : list Z) : Elf64_Ehdr :=
  let f off n := le (zslice off n b) in
  mk_ehdr (zslice 0 16 b) (f 16 2) (f 18 2) (f 20 4) (f 24 8) (f 32 8) (f 40 8) (f 48 4)
    (f 52 2) (f 54 2) (f 56 2) (f 58 2) (f 60 2) (f 62 2).

Record Elf64_Phdr := mk_phdr {
  p_type : Z;
  p_flags : Z;
  p_offset : Z;
  p_vaddr : Z;
  p_paddr : Z;
  p_filesz : Z;
  p_memsz : Z;
  p_align : Z;
}.
Definition PHDR_SIZE : Z := 56.
Definition phdr_of (b : list Z) : Elf64_Phdr :=
  let f off n := le (zslice off n b) in
  mk_phdr (f 0 4) (f 4 4) (f 8 8) (f 16 8) (f 24 8) (f 32 8) (f 40 8) (f 48 8).
Definition phdrs_of (n : Z) (b : list Z) : list Elf64_Phdr :=
  map (λ i, phdr_of (zslice (PHDR_SIZE * i) PHDR_SIZE b)) (seqZ 0 n).

(** Copying to a user address. *)
Fixpoint poke_bytes (l : list Z) (va : Z) : K paging unit :=
  match l with
  | [] => mret tt
  | b :: l => poke_byte va b;; poke_bytes l (u64 (va + 1))
  end.

(** The uninitialised locals: the header in each of the three functions, and the
    array of program headers. *)
Inductive buffer_site := InIsElf | InIsCompatible | InLoadElf | ProgramHeaders.

Section elf.
Context {FS N : Type}.
#[local] Notation kernel := (kernel FS N).
(** Whether cpuid reports that pages can be marked as not executable. *)
Context (check_nx_support : bool).
Context (stack_bytes : buffer_site → Z → list Z).

(** read_file into a local of [size] bytes: the bytes read, then what was there. *)
Definition read_local (site : buffer_site) (file : file_handle_t) (offset size : Z) : K kernel (list Z) :=
  r ← lift_vfs (read_file file offset size);
  mret (ztake size (r.2 ++ zdrop (zlen r.2) (stack_bytes site size))).

Definition is_elf (file : file_handle_t) : K kernel bool :=
  b ← read_local InIsElf file 0 EHDR_SIZE;
  mret (bool_decide (zslice 0 4 (e_ident (ehdr_of b)) = ELFMAG)).

Definition compatible_header (h : Elf64_Ehdr) : bool :=
  (nth (Z.to_nat EI_CLASS) (e_ident h) 0 =? ELFCLASS64)
  && (nth (Z.to_nat EI_DATA) (e_ident h) 0 =? ELFDATA2LSB)
  && (e_type h =? ET_EXEC).
Definition is_compatible_binary (file : file_handle_t) : K kernel bool :=
  elf ← is_elf file;
  if negb elf then mret false
  else
    b ← read_local InIsCompatible file 0 EHDR_SIZE;
    mret (compatible_header (ehdr_of b)).

Definition segment_flags (ph : Elf64_Phdr) : Z :=
  let flags := Z.lor (Z.lor FLAGS_PRESENT FLAGS_USER) FLAGS_RW in
  if negb (has (p_flags ph) PF_X) && check_nx_support then Z.lor flags FLAGS_NX else flags.

(** False when alloc_region has returned NULL. *)
Definition load_segment (file : file_handle_t) (ph : Elf64_Phdr) : K kernel bool :=
  segment_start ← lift_tables (alloc_region (p_vaddr ph) (p_memsz ph) (segment_flags ph));
  if segment_start =? NULL then mret false
  else
    r ← lift_vfs (read_file file (p_offset ph) (p_filesz ph));
    lift_tables (poke_bytes r.2 segment_start);;
    lift_tables (poke_bytes (zrepeat (u64 (p_memsz ph - p_filesz ph)) 0)
                   (u64 (segment_start + p_filesz ph)));;
    mret true.

(** The end of the highest segment so far. *)
Definition update_break (break_addr : Z) (ph : Elf64_Phdr) : Z :=
  let segment_end := u64 (p_vaddr ph + p_memsz ph) in
  if (break_addr =? NULL) || (break_addr <? segment_end) then segment_end else break_addr.

Fixpoint load_segments (file : file_handle_t) (l : list Elf64_Phdr) (break_addr : Z) : K kernel (option Z) :=
  match l with
  | [] => mret (Some break_addr)
  | ph :: l =>
    if p_type ph =? PT_LOAD then
      ok ← load_segment file ph;
      if negb ok then mret None else load_segments file l (update_break break_addr ph)
    else load_segments file l break_addr
  end.

(** The entry point, NULL on failure, and the value stored through [brk]. *)
Definition load_elf (file : file_handle_t) : K kernel (Z * option Z) :=
  ok ← is_compatible_binary file;
  if negb ok then mret (NULL, None)
  else
    b ← read_local InLoadElf file 0 EHDR_SIZE;
    let ehdr := ehdr_of b in
    ph ← read_local ProgramHeaders file (e_phoff ehdr) (e_phnum ehdr * PHDR_SIZE);
    r ← load_segments file (phdrs_of (e_phnum ehdr) ph) NULL;
    match r with
    | None => mret (NULL, None)
    | Some break_addr => mret (e_entry ehdr, Some (PAGE_ALIGN break_addr))
    end.

End elf.
