(* ===== verification/Exec.v ===== *)
(** * usermode/scheduler.c: starting programs

    scheduler_init, run_init, add_task, spawn and execve: a new task gets the
    image of an ELF file, a stack with its arguments and environment, and the
    descriptors it does not lose on the way.  The kernel stack of a task is not
    modelled, memory from kmalloc is zero (Heap.v). *)

From S2P Require Import Prelude Paging Path Vfs Pipe Net Udp Task Signal Fd Sched Elf.

Definition SPAWN_DUP2 : Z := 0.
Definition SPAWN_SIGMASK : Z := 1.
Definition SPAWN_SETPGID : Z := 2.
Definition SPAWN_SETSID : Z := 3.
(** A spawn_action_t (packed): its size and where its fields are. *)
Definition SPAWN_ACTION_SIZE : Z := 28.
Definition ACTION_OLDFD : Z := 8.
Definition ACTION_NEWFD : Z := 12.
Definition ACTION_SIGMASK_HOW : Z := 16.
Definition ACTION_SIGMASK : Z := 20.
Definition ACTION_PGID : Z := 24.
Definition MAX_ARGS : nat := 8192.
Definition MAX_ARG_STRING : Z := 0x10000.
Definition STACK_SIZE : Z := 4096 * 128.
Definition VVAR_SIZE : Z := 32.
Definition IFRAME_SIZE : Z := 176.

(** ** Vectors of user pointers *)

(** The number of pointers before the NULL, each of which passes [check]; the
    vector is not ended within the limit: the limit. *)
Fixpoint validate_vector (n : nat) (p count : Z) (check : Z → K paging Z) : K paging (Z + Z) :=
  match n with
  | O => mret (inr count)
  | S n =>
    res ← validate_user_pointer p 8 false;
    if res <? 0 then mret (inl res)
    else
      x ← peek 8 p;
      if x =? NULL then mret (inr count)
      else
        res ← check x;
        if res <? 0 then mret (inl res)
        else validate_vector n (u64 (p + 8)) (count + 1) check
  end.
Definition check_string (x : Z) : K paging Z := validate_user_string x MAX_ARG_STRING.
Definition check_action (x : Z) : K paging Z := validate_user_pointer x SPAWN_ACTION_SIZE false.

(** strlen and memcpy from a user address, for a string of fewer than [fuel] bytes. *)
Fixpoint read_string (fuel : nat) (va : Z) : K paging (list Z) :=
  match fuel with
  | O => kfuel
  | S fuel =>
    c ← peek 1 va;
    if c =? 0 then mret []
    else l ← read_string fuel (u64 (va + 1)); mret (c :: l)
  end.
(** The strings behind [n] pointers. *)
Fixpoint copy_strings (n : nat) (p : Z) : K paging (list (list Z)) :=
  match n with
  | O => mret []
  | S n =>
    x ← peek 8 p;
    s ← read_string (Z.to_nat MAX_ARG_STRING) x;
    l ← copy_strings n (u64 (p + 8));
    mret (s :: l)
  end.

(** ** The stack of a program *)

(** The last string goes first; the result has the stack pointer and the addresses. *)
Fixpoint push_strings (l : list (list Z)) (sp : Z) : K paging (Z * list Z) :=
  match l with
  | [] => mret (sp, [])
  | s :: l =>
    r ← push_strings l sp;
    let sp := u64 (r.1 - (zlen s + 1)) in
    poke_bytes (s ++ [0]) sp;;
    mret (sp, sp :: r.2)
  end.
Fixpoint push_words (l : list Z) (sp : Z) : K paging Z :=
  match l with
  | [] => mret sp
  | w :: l =>
    sp ← push_words l sp;
    let sp := u64 (sp - 8) in
    poke 8 sp w;;
    mret sp
  end.
(** argc, the two vectors and the strings; the result is the stack pointer. *)
Definition push_arguments (kargv kenvp : list (list Z)) (user_stack : Z) : K paging Z :=
  e ← push_strings kenvp user_stack;
  a ← push_strings kargv e.1;
  sp ← push_words (e.2 ++ [0]) a.1;
  sp ← push_words (a.2 ++ [0]) sp;
  push_words [zlen kargv] sp.

Section exec.
Context {FS N : Type}.
#[local] Notation kernel := (kernel FS N).
Context (check_nx_support : bool) (stack_bytes : buffer_site → Z → list Z).
(** The page with the time and the signal trampoline, set by scheduler_init. *)
Context (vvar_paddr : Z).

(** The length of argv or envp (a vector that is too long is an error) and of the
    list of actions, where the check of the length looks at the wrong counter. *)
Definition count_strings (p : Z) : K kernel (Z + Z) :=
  if p =? NULL then mret (inr 0)
  else
    r ← lift_tables (validate_vector MAX_ARGS p 0 check_string);
    mret (match r with
          | inl e => inl e
          | inr count => if count =? Z.of_nat MAX_ARGS then inl (- EINVAL) else inr count
          end).
Definition count_actions (actions : Z) : K kernel (Z + Z) :=
  if actions =? NULL then mret (inr 0)
  else lift_tables (validate_vector MAX_ARGS actions 0 check_action).
(** The copy in the kernel; without a vector it is [none]. *)
Definition copy_vector (p count : Z) (none : list (list Z)) : K kernel (list (list Z)) :=
  if p =? NULL then mret none else lift_tables (copy_strings (Z.to_nat count) p).

(** With [p] as the current task. *)
Definition as_task {A} (p : Z) (m : K kernel A) : K kernel A :=
  s ← kget;
  let old_current := current_task s in
  kmodify (set_current_task p);;
  a ← m;
  kmodify (set_current_task old_current);;
  mret a.

(** The action at the user address [a], for the task [new] with pid [p]. *)
Definition run_action (new p a : Z) : K kernel Z :=
  kind ← lift_tables (peek 8 a);
  if kind =? SPAWN_DUP2 then
    oldfd ← lift_tables (peek 4 (u64 (a + ACTION_OLDFD)));
    newfd ← lift_tables (peek 4 (u64 (a + ACTION_NEWFD)));
    as_task new (dup2 (s32 oldfd) (s32 newfd))
  else if kind =? SPAWN_SIGMASK then
    how ← lift_tables (peek 4 (u64 (a + ACTION_SIGMASK_HOW)));
    as_task new (sigprocmask (s32 how) (u64 (a + ACTION_SIGMASK)) NULL)
  else if kind =? SPAWN_SETPGID then
    g ← lift_tables (peek 4 (u64 (a + ACTION_PGID)));
    as_task new (setpgid p (s32 g))
  else if kind =? SPAWN_SETSID then as_task new setsid
  else mret (- EINVAL).
(** Actions until one fails; 0 or its error. *)
Fixpoint run_actions (n : nat) (new p v : Z) : K kernel Z :=
  match n with
  | O => mret 0
  | S n =>
    a ← lift_tables (peek 8 v);
    res ← run_action new p a;
    if res <? 0 then mret res else run_actions n new p (u64 (v + 8))
  end.

(** The entries of [new] marked O_CLOEXEC. *)
Fixpoint close_cloexec (n : nat) (i new : Z) : K kernel unit :=
  match n with
  | O => mret tt
  | S n =>
    t ← task new;
    match fd (fd_entry t i) with
    | None => mret tt
    | Some d =>
      if negb (has (fd_flags (fd_entry t i)) O_CLOEXEC) then mret tt
      else drop_description d;; update_task new (set_fd_entry i no_fd)
    end;;
    close_cloexec n (i + 1) new
  end.

(** From the stat to the break: an error or the entry point. *)
Definition load_image (new : Z) (kpath : list Z) : K kernel (Z + Z) :=
  r ← lift_vfs (vfs_stat kpath);
  let '(res, st) := r in
  if res <? 0 then mret (inl res)
  else if st_type st =? DT_DIR then mret (inl (- EISDIR))
  else
    r ← lift_vfs (vfs_lookup kpath);
    let '(res, file) := r in
    if res <? 0 then mret (inl res)
    else
      ok ← is_compatible_binary stack_bytes file;
      if negb ok then mret (inl (- ENOEXEC))
      else
        r ← load_elf check_nx_support stack_bytes file;
        let '(entry, brk) := r in
        (match brk with
         | None => mret tt
         | Some b => update_task new (λ t, set_image (set_initial_brk b (image t)) t)
         end);;
        if entry =? NULL then mret (inl (- ENOEXEC))
        else
          update_task new (λ t, set_image (set_brk (initial_brk (image t)) (image t)) t);;
          mret (inr entry).

(** The stack, the vvar page behind it and the arguments. *)
Definition make_stack (kargv kenvp : list (list Z)) : K kernel Z :=
  lift_tables (alloc_zero_region USER_STACK STACK_SIZE (Z.lor FLAGS_USER FLAGS_RW));;
  lift_tables (alloc_mmio_region VVAR_ADDR vvar_paddr VVAR_SIZE FLAGS_USER);;
  lift_tables (push_arguments kargv kenvp (USER_STACK + STACK_SIZE)).

(** The copy of the current task that is to become the program. *)
Definition copy_task (p : Z) : K kernel Z :=
  new ← new_object;
  cur ← current;
  s ← kget;
  cr3' ← lift_tables (clone_page_tables (base_pml4 s));
  kmodify (λ s, set_tasks (<[new :=
    set_ids (set_pid p (ids cur))
      (set_image (set_cr3 cr3' (image cur))
        (with_signals (set_in_signal false) (set_state STATE_READY cur)))]> (tasks s)) s);;
  share_fds MAX_FDS 0 cur;;
  mret new.

(** The frame and the FPU areas of a loaded program. *)
Definition start_frame (f : iframe_t) (entry user_stack : Z) (t : task_t) : task_t :=
  let zeroed := map (λ _, 0) (fpu_state (context t)) in
  with_signals (set_signal_interrupted_fpu_state zeroed)
    (set_context (mk_context (set_rip entry (set_rsp user_stack f)) zeroed) t).

(** What turns the copy [new] into the program: an error or tt. *)
Definition become (new p : Z) (kpath : list Z) (kargv kenvp : list (list Z)) (actions action_count : Z)
    (f : iframe_t) : K kernel (Z + unit) :=
  res ← run_actions (Z.to_nat action_count) new p actions;
  if res <? 0 then mret (inl res)
  else
    close_cloexec MAX_FDS 0 new;;
    s ← kget;
    let old_cr3 := pml4_physical (tables s) in
    t ← task new;
    lift_tables (kmodify (change_pml4 (cr3 (image t))));;
    r ← load_image new kpath;
    match r with
    | inl e => lift_tables (kmodify (change_pml4 old_cr3));; mret (inl e)
    | inr entry =>
      user_stack ← make_stack kargv kenvp;
      update_task new (start_frame f entry user_stack);;
      mret (inr tt)
    end.

(** [path] is the user pointer; the result is the pid or an error, and the task.
    Nothing points to a copy that is given up: its memory, its page tables and its
    references to open files are lost, and it is no task. *)
Definition add_task (path argv envp parent p actions : Z) (f : iframe_t) : K kernel (Z * Z) :=
  kpath ← lift_tables (read_string (Z.to_nat MAX_PATH) path);
  a ← count_strings argv;
  match a with inl e => mret (e, NULL) | inr argc =>
  b ← count_strings envp;
  match b with inl e => mret (e, NULL) | inr envc =>
  c ← count_actions actions;
  match c with inl e => mret (e, NULL) | inr action_count =>
  kargv ← copy_vector argv argc [kpath];
  kenvp ← copy_vector envp envc [];
  new ← copy_task p;
  r ← become new p kpath kargv kenvp actions action_count f;
  match r with
  | inl e => kmodify (λ s, set_tasks (delete new (tasks s)) s);; mret (e, NULL)
  | inr _ => link_task parent new;; mret (p, new)
  end
  end end end.

Definition spawn (path argv envp actions : Z) (f : iframe_t) : K kernel Z :=
  s ← kget;
  if last_pid s =? INT_MAX then kpanic
  else
    update_current (with_iframe (λ _, f));;
    p ← next_pid;
    s ← kget;
    r ← add_task path argv envp (current_task s) p actions f;
    if negb (r.1 =? p) then mret r.1
    else
      update_current (with_iframe (set_rax p));;
      update_current (set_state STATE_READY);;
      switch_task;;
      mret p.

(** The tasks that wait for [old] wait for [new]. *)
Definition retarget_waits (old new : Z) : K kernel unit :=
  for_tasks (λ q _,
    t ← task q;
    if blocked_process (wait t) =? old
    then update_task q (with_wait (set_blocked_process new)) else mret tt) (λ _, false) tt.
Definition execve (path argv envp : Z) (f : iframe_t) : K kernel Z :=
  cur ← current;
  r ← add_task path argv envp (parent (links cur)) (pid (ids cur)) NULL f;
  if negb (r.1 =? pid (ids cur)) then mret r.1
  else
    update_current (set_state STATE_DELETED);;
    s ← kget;
    retarget_waits (current_task s) r.2;;
    release_process_fds;;
    t ← current;
    s ← kget;
    reparent (size (tasks s)) (child (links t)) r.2;;
    switch_task;;
    mret 0.

(** ** Booting *)

Definition set_base_pml4 (x : Z) (s : kernel) : kernel :=
  mk_kernel (tasks s) (current_task s) (rr_task s) (last_pid s) (ticks_remaining s) x
    (scheduler_initialized s) (fpu s) (file_descriptions s) (pipes s) (sockets s)
    (next_object s) (tables s) (files s) (network s).
Definition set_scheduler_initialized (x : bool) (s : kernel) : kernel :=
  mk_kernel (tasks s) (current_task s) (rr_task s) (last_pid s) (ticks_remaining s) (base_pml4 s)
    x (fpu s) (file_descriptions s) (pipes s) (sockets s)
    (next_object s) (tables s) (files s) (network s).

(** [idle] is the address of the idle loop, [kstack] the top of its kernel stack;
    the trampoline has [trampoline_size] bytes.  The result is vvar_paddr. *)
Definition scheduler_init (idle kstack trampoline_size fpu_memory_size : Z) : K kernel Z :=
  kmodify (λ s, set_base_pml4 (pml4_physical (tables s)) s);;
  s ← kget;
  cr3' ← lift_tables (clone_page_tables (base_pml4 s));
  update_task IDLE_TASK (λ t,
    set_image (set_is_kworker true (set_cr3 cr3' (image t)))
      (set_context (mk_context
         (set_ss 0x10 (set_rsp (u64 (kstack - IFRAME_SIZE))
           (set_cs KERNEL_CS (set_rflags 0x200 (set_rip idle zero_iframe)))))
         (zrepeat fpu_memory_size 0))
        (set_state STATE_READY t)));;
  vvar ← lift_tables allocate_physical_page;
  if 16 <? trampoline_size then kpanic else mret vvar.

(** The result is what jump_to_user gets: where init starts and its stack. *)
Definition run_init (path : list Z) (fpu_memory_size : Z) : K kernel (Z * Z) :=
  s ← kget;
  cr3' ← lift_tables (clone_page_tables (base_pml4 s));
  update_task INIT_TASK (λ t, set_image (set_cr3 cr3' (image t)) t);;
  lift_tables (kmodify (change_pml4 cr3'));;
  r ← lift_vfs (vfs_lookup path);
  let '(res, file) := r in
  if res <? 0 then kpanic
  else
    r ← load_elf check_nx_support stack_bytes file;
    let '(addr, brk) := r in
    if addr =? NULL then kpanic
    else
      (match brk with
       | None => mret tt
       | Some b => update_task INIT_TASK (λ t, set_image (set_initial_brk b (image t)) t)
       end);;
      update_task INIT_TASK (with_links (set_parent INIT_TASK));;
      update_task INIT_TASK (λ t, set_image (set_brk (initial_brk (image t)) (image t)) t);;
      lift_tables (alloc_zero_region USER_STACK STACK_SIZE (Z.lor FLAGS_USER FLAGS_RW));;
      lift_tables (alloc_mmio_region VVAR_ADDR vvar_paddr VVAR_SIZE FLAGS_USER);;
      let zeroed := zrepeat fpu_memory_size 0 in
      update_task INIT_TASK (λ t, with_signals (set_signal_interrupted_fpu_state zeroed)
        (with_context (set_fpu_state zeroed) t));;
      kmodify (set_current_task INIT_TASK);;
      kmodify (set_scheduler_initialized true);;
      mret (addr, USER_STACK + STACK_SIZE - 16).

End exec.
