(* ===== verification/Syscalls.v ===== *)
(** * usermode/syscalls.c: the system call entry

    syscall() checks the user pointers of a call, calls the function behind its
    number, stores the result in the frame of the caller and looks whether another
    task is to run.  A call is a function of its six arguments; [None] is a call
    that does not come back because another task has been switched to.  Buffers
    are read when the call starts and written when it has its result.  What the
    other tasks do while a call waits, and the clock of the network code, are
    arguments, as in Fd.v and Ip.v.  reboot() does not come back: it is a panic. *)

From S2P Require Import Prelude Pipe Paging Calendar Break Path Vfs Net Ip Udp Task Signal Tty Fbcon Fd Sched Elf Exec.

Record syscall_args := mk_args {
  arg1 : Z;
  arg2 : Z;
  arg3 : Z;
  arg4 : Z;
  arg5 : Z;
  arg6 : Z;
}.
Definition args_of (f : iframe_t) : syscall_args := mk_args (rdi f) (rsi f) (rdx f) (r10 f) (r8 f) (r9 f).

(** ** The structures at user addresses *)

Definition bytes_of (n : nat) (v : Z) : list Z :=
  map (λ i, Z.land (Z.shiftr v (8 * i)) 0xFF) (seqZ 0 (Z.of_nat n)).
Definition STAT_SIZE : Z := 48.
Definition stat_bytes (st : stat_t) : list Z :=
  bytes_of 8 (st_size st) ++ bytes_of 8 (st_ctime st) ++ bytes_of 8 (st_mtime st) ++
  bytes_of 8 (st_btime st) ++ bytes_of 8 (st_rdev st) ++ bytes_of 4 (st_mode st) ++ bytes_of 4 (st_type st).
Definition DIRENT_SIZE : Z := 260.
Definition dirent_bytes (d : dirent_t) : list Z :=
  ztake 256 (d_name d ++ zrepeat 256 0) ++ bytes_of 4 (d_type d).
Definition SOCKADDR_SIZE : Z := 7.
Definition sockaddr_bytes (a : sockaddr_in_t) : list Z :=
  bytes_of 1 (sa_type a) ++ sa_ip a ++ bytes_of 2 (sa_port a).
Definition sockaddr_of (b : list Z) : sockaddr_in_t :=
  mk_sockaddr (le (zslice 0 1 b)) (zslice 1 4 b) (le (zslice 5 2 b)).
Definition FONT_SIZE : Z := 1026.
Definition GLYPH_COUNT : Z := 128.

Fixpoint peek_bytes (n : nat) (va : Z) : K paging (list Z) :=
  match n with
  | O => mret []
  | S n => b ← peek 1 va; l ← peek_bytes n (u64 (va + 1)); mret (b :: l)
  end.
Definition user_path (va : Z) : K paging (list Z) := read_string (Z.to_nat MAX_PATH) va.
(** A pointer that may be NULL. *)
Definition user_opt {A} (va : Z) (m : Z → K paging A) : K paging (option A) :=
  if va =? NULL then mret None else a ← m va; mret (Some a).

Record machine (FS N : Type) := mk_machine {
  kern : kernel FS N;
  vvar : vvar_t;
  screen : fbcon;
}.
Arguments mk_machine {_ _}. Arguments kern {_ _}. Arguments vvar {_ _}. Arguments screen {_ _}.

Section syscalls.
Context {FS N : Type}.
#[local] Notation kernel := (kernel FS N).
#[local] Notation machine := (machine FS N).
Context (check_nx_support : bool) (stack_bytes : buffer_site → Z → list Z) (vvar_paddr : Z).
Context (yield_current : K kernel unit) (steps : list env_step) (fuel : nat).
Context (net_uptime : K N Z) (net_signals : K N bool) (net_yield : K (net N) unit)
  (byte_behind : K N Z) (stat_rdev : list Z → K N Z).
Context (block_ioctl char_ioctl : block_device_t → Z → Z → K FS Z).

Definition on_kernel {A} (m : K kernel A) : K machine A := λ s,
  match m (kern s) with
  | Done (a, k) => Done (a, mk_machine k (vvar s) (screen s))
  | Panic => Panic
  | Fault => Fault
  | OutOfFuel => OutOfFuel
  end.
Definition on_screen {A} (m : K fbcon A) : K machine A := λ s,
  match m (screen s) with
  | Done (a, c) => Done (a, mk_machine (kern s) (vvar s) c)
  | Panic => Panic
  | Fault => Fault
  | OutOfFuel => OutOfFuel
  end.
Definition user {A} (m : K paging A) : K machine A := on_kernel (lift_tables m).

(** ** What a call returns *)

(** [ret = call(..)] *)
Definition returns (m : K kernel Z) : K machine (option Z) := r ← on_kernel m; mret (Some r).
(** A call that ends in switch_task, or returns the error that [failed] recognises. *)
Definition leaves (m : K kernel unit) : K machine (option Z) := on_kernel m;; mret None.
Definition leaves_unless (failed : Z → bool) (m : K kernel Z) : K machine (option Z) :=
  r ← on_kernel m; mret (if failed r then Some r else None).

(** [ret = validate_user_..(..); if (ret < 0) break;] *)
Definition checked (check : K paging Z) (k : K machine (option Z)) : K machine (option Z) :=
  ret ← user check;
  if ret <? 0 then mret (Some ret) else k.
Definition with_string (p : Z) : K machine (option Z) → K machine (option Z) :=
  checked (validate_user_string p MAX_PATH).
Definition with_pointer (p len : Z) (w : bool) : K machine (option Z) → K machine (option Z) :=
  checked (validate_user_pointer p len w).
Definition if_given (p : Z) (guard : K machine (option Z) → K machine (option Z))
    (k : K machine (option Z)) : K machine (option Z) :=
  if p =? NULL then k else guard k.

(** With the path at [p]. *)
Definition on_path (p : Z) (op : list Z → K kernel Z) : K machine (option Z) :=
  with_string p (path ← user (user_path p); returns (op path)).
Definition on_paths (p q : Z) (op : list Z → list Z → K kernel Z) : K machine (option Z) :=
  with_string p (with_string q (
    a ← user (user_path p); b ← user (user_path q); returns (op a b))).
(** A result and bytes that go to a user buffer. *)
Definition stores (m : K kernel (Z * list Z)) (p : Z) : K machine (option Z) :=
  r ← on_kernel m;
  user (poke_bytes r.2 p);;
  mret (Some r.1).
(** A structure is only written when there is no error. *)
Definition stores_if {A} (ok : Z → bool) (bytes : A → list Z) (m : K kernel (Z * A)) (p : Z)
    : K machine (option Z) :=
  stores (r ← m; mret (r.1, if ok r.1 then bytes r.2 else [])) p.
Definition no_error (r : Z) : bool := 0 <=? r.

(** ** The calls that need more than one step *)

Definition lift_brk (m : K brk_state Z) : K kernel Z :=
  t ← current;
  s ← kget;
  match m (mk_brk_state (Some (mk_break (brk (image t)) (initial_brk (image t)))) (tables s)) with
  | Done (r, b) =>
    kmodify (set_tables (Break.tables b));;
    (match Break.current_task b with
     | None => mret tt
     | Some tb => update_current (λ t, set_image (set_brk (Break.brk tb) (image t)) t)
     end);;
    mret r
  | Panic => kpanic
  | Fault => kfault
  | OutOfFuel => kfuel
  end.

(** strncpy copies up to the terminator; a length of 0 wraps around to no limit at
    all, and passes the check whatever the pointer is. *)
Definition sys_getcwd (buffer len : Z) : K machine (option Z) :=
  with_pointer buffer len true (
    let limit := u64 (len - 1) in
    w ← on_kernel (lift_vfs (getcwd (limit + 1)));
    user (poke_bytes (ztake limit (w ++ [0])) buffer);;
    user (poke_byte (u64 (buffer + limit)) 0);;
    mret (Some 0)).
Definition sys_mount (source target type flags : Z) : K machine (option Z) :=
  if_given source (with_string source) (
  with_string target (
  if_given type (checked (validate_user_string type 32)) (
    src ← user (user_opt source user_path);
    path ← user (user_path target);
    ty ← user (user_opt type user_path);
    returns (lift_vfs (mount_filesystem src path ty (s32 flags)))))).
Definition sys_add_route (dest gateway netmask interface : Z) : K machine (option Z) :=
  with_pointer dest 4 false (
  with_pointer gateway 4 false (
  with_pointer netmask 4 false (
  with_string interface (
    d ← user (peek_bytes 4 dest);
    g ← user (peek_bytes 4 gateway);
    m ← user (peek_bytes 4 netmask);
    i ← user (user_path interface);
    on_kernel (lift_net (add_route stat_rdev d g m i));;
    mret (Some 0))))).
Definition sys_remove_route (dest netmask : Z) : K machine (option Z) :=
  with_pointer dest 4 false (
  with_pointer netmask 4 false (
    d ← user (peek_bytes 4 dest);
    m ← user (peek_bytes 4 netmask);
    on_kernel (lift_net (remove_route d m));;
    mret (Some 0))).
(** Only the font_t is checked; its glyphs are read from wherever it points to. *)
Definition load_font (p : Z) : K paging font_t :=
  w ← peek 1 (u64 (p + 8 * GLYPH_COUNT));
  h ← peek 1 (u64 (p + 8 * GLYPH_COUNT + 1));
  glyphs ← (fix go (n : nat) (q : Z) : K paging (list (list Z)) :=
    match n with
    | O => mret []
    | S n =>
      a ← peek 8 q;
      g ← peek_bytes (Z.to_nat (glyph_size (mk_font [] w h))) a;
      l ← go n (u64 (q + 8));
      mret (g :: l)
    end) (Z.to_nat GLYPH_COUNT) p;
  mret (mk_font glyphs w h).
Definition sys_setfont (p : Z) : K machine (option Z) :=
  with_pointer p FONT_SIZE false (
    font ← user (load_font p);
    on_screen (setfont font);;
    mret (Some 0)).
Definition sys_truncate (p size : Z) : K machine (option Z) :=
  on_path p (λ path,
    r ← lift_vfs (vfs_lookup path);
    let '(ret, handle) := r in
    if ret <? 0 then mret ret else lift_vfs (vfs_truncate handle size)).
(** The result of execve is not looked at: after an error [ret] is still 0. *)
Definition sys_execve (path argv envp : Z) (f : iframe_t) : K machine (option Z) :=
  with_string path (
    r ← leaves_unless (λ r, r <? 0) (execve check_nx_support stack_bytes vvar_paddr path argv envp f);
    mret (match r with Some _ => Some 0 | None => None end)).
(** -ENOSYS stands behind the switch to another task. *)
Definition sys_waitpid (k ws options : Z) : K machine (option Z) :=
  if_given ws (with_pointer ws 4 true)
    (leaves_unless (λ r, negb (r =? - ENOSYS)) (waitpid k ws options)).
Definition sys_sigreturn : K machine (option Z) :=
  t ← on_kernel current;
  if in_signal (signals t) then leaves sigreturn else returns (sigreturn;; mret (- EINVAL)).
Definition sys_recvfrom (n buffer len rflags addr : Z) : K machine (option Z) :=
  with_pointer buffer len true (
  with_pointer addr SOCKADDR_SIZE true (
    r ← on_kernel (fd_recvfrom yield_current fuel n len rflags);
    let '(res, (bytes, from)) := r in
    user (poke_bytes bytes buffer);;
    (if no_error res then user (poke_bytes (sockaddr_bytes from) addr) else mret tt);;
    mret (Some res))).
Definition sys_sendto (n buffer len sflags addr : Z) : K machine (option Z) :=
  with_pointer buffer len false (
  with_pointer addr SOCKADDR_SIZE false (
    b ← user (peek_bytes (Z.to_nat len) buffer);
    a ← user (peek_bytes (Z.to_nat SOCKADDR_SIZE) addr);
    returns (fd_sendto net_uptime net_signals net_yield byte_behind fuel n b sflags (sockaddr_of a)))).
Definition sys_bind (n addr : Z) : K machine (option Z) :=
  with_pointer addr SOCKADDR_SIZE false (
    a ← user (peek_bytes (Z.to_nat SOCKADDR_SIZE) addr);
    returns (fd_bind n (Some (sockaddr_of a)))).
Definition sys_write (n buffer len : Z) : K machine (option Z) :=
  with_pointer buffer len false (
    b ← user (peek_bytes (Z.to_nat len) buffer);
    returns (write steps n b)).
Definition sys_ping (dest timeout : Z) : K machine (option Z) :=
  with_pointer dest 4 false (
    d ← user (peek_bytes 4 dest);
    returns (lift_net (ping net_uptime net_signals net_yield fuel d timeout))).

(** ** The switch over the number *)

Definition syscall_table (f : iframe_t) : list (Z * (syscall_args → K machine (option Z))) :=
  [(0, λ a, leaves (exit (s32 (arg1 a))));                                   (* EXIT *)
   (3, λ a, on_path (arg1 a) (λ p, lift_vfs (create_file p)));               (* CREATE_FILE *)
   (4, λ a, on_path (arg1 a) (λ p, lift_vfs (remove_file p)));               (* DELETE_FILE *)
   (5, λ a, on_path (arg1 a) (λ p, lift_vfs (create_directory p)));          (* CREATE_DIR *)
   (6, λ a, returns getppid);                                                (* GET_PPID *)
   (9, λ a, with_pointer (arg2 a) DIRENT_SIZE true
             (stores_if (λ r, 0 <? r) dirent_bytes (fd_readdir (s32 (arg1 a))) (arg2 a))); (* READDIR *)
   (10, λ a, with_string (arg1 a) (with_pointer (arg2 a) STAT_SIZE true (
              p ← user (user_path (arg1 a));
              stores_if no_error stat_bytes (lift_vfs (vfs_stat p)) (arg2 a)))); (* STAT *)
   (11, λ a, leaves (fork f;; mret tt));                                     (* FORK *)
   (12, λ a, sys_execve (arg1 a) (arg2 a) (arg3 a) f);                       (* EXECVE *)
   (13, λ a, s ← kget; mret (Some (get_time (vvar s))));                     (* GET_TIME *)
   (14, λ a, returns getpid);                                                (* GETPID *)
   (15, λ a, s ← kget; mret (Some (get_uptime_milliseconds (vvar s))));      (* GET_UPTIME *)
   (16, λ a, if arg1 a =? 0 then returns (mret 0) else leaves (sleep (arg1 a))); (* SLEEP *)
   (17, λ a, on_paths (arg1 a) (arg2 a) (λ p q, lift_vfs (rename_file p q))); (* RENAME_FILE *)
   (19, λ a, returns (lift_brk (Break.set_brk (arg1 a))));                   (* BRK *)
   (20, λ a, returns (lift_brk (sbrk (s64 (arg1 a)))));                      (* SBRK *)
   (22, λ a, kpanic);                                                        (* REBOOT *)
   (24, λ a, on_path (arg1 a) (λ p, lift_vfs (chdir p)));                    (* CHDIR *)
   (25, λ a, sys_getcwd (arg1 a) (arg2 a));                                  (* GETCWD *)
   (30, λ a, sys_ping (arg1 a) (s32 (arg2 a)));                              (* PING *)
   (33, λ a, sys_add_route (arg1 a) (arg2 a) (arg3 a) (arg4 a));             (* ADD_ROUTE *)
   (34, λ a, sys_remove_route (arg1 a) (arg2 a));                            (* REMOVE_ROUTE *)
   (39, λ a, sys_mount (arg1 a) (arg2 a) (arg3 a) (arg4 a));                 (* MOUNT *)
   (40, λ a, on_path (arg1 a) (λ p, lift_vfs (unmount_filesystem p)));       (* UNMOUNT *)
   (42, λ a, on_path (arg1 a) (λ p, fd_open p (u16 (arg2 a))));              (* OPEN *)
   (45, λ a, returns (fd_close (s32 (arg1 a))));                             (* CLOSE *)
   (46, λ a, with_pointer (arg2 a) (arg3 a) true
              (stores (read yield_current fuel (s32 (arg1 a)) (arg3 a)) (arg2 a))); (* READ *)
   (47, λ a, sys_write (s32 (arg1 a)) (arg2 a) (arg3 a));                    (* WRITE *)
   (48, λ a, returns (seek (s32 (arg1 a)) (s64 (arg2 a)) (s32 (arg3 a))));   (* SEEK *)
   (49, λ a, returns (fcntl (s32 (arg1 a)) (s32 (arg2 a)) (s32 (arg3 a))));  (* FCNTL *)
   (50, λ a, returns (dup2 (s32 (arg1 a)) (s32 (arg2 a))));                  (* DUP2 *)
   (51, λ a, returns (fd_ioctl block_ioctl char_ioctl (s32 (arg1 a)) (arg2 a) (arg3 a))); (* IOCTL *)
   (52, λ a, leaves (run_next f));                                           (* YIELD *)
   (53, λ a, sys_waitpid (s32 (arg1 a)) (arg2 a) (s32 (arg3 a)));            (* WAITPID *)
   (54, λ a, with_string (arg1 a) (leaves_unless (λ r, r <? 0)
              (spawn check_nx_support stack_bytes vvar_paddr
                 (arg1 a) (arg2 a) (arg3 a) (arg4 a) f)));                   (* SPAWN *)
   (55, λ a, with_pointer (arg1 a) 8 true
              (stores (r ← pipe; mret (r.1, flat_map (bytes_of 4) r.2)) (arg1 a))); (* PIPE *)
   (60, λ a, sys_setfont (arg1 a));                                          (* SETFONT *)
   (61, λ a, on_path (arg1 a) (λ p, lift_vfs (mknod p (u32 (arg2 a)) (arg3 a)))); (* MKNOD *)
   (62, λ a, returns (tell (s32 (arg1 a))));                                 (* TELL *)
   (63, λ a, on_paths (arg1 a) (arg2 a) (λ p q, lift_vfs (vfs_link p q)));   (* LINK *)
   (64, λ a, returns (fd_socket (s32 (arg1 a)) (s32 (arg2 a)) (s32 (arg3 a)))); (* SOCKET *)
   (65, λ a, sys_bind (s32 (arg1 a)) (arg2 a));                              (* BIND *)
   (66, λ a, returns (fd_unbind (s32 (arg1 a))));                            (* UNBIND *)
   (67, λ a, sys_recvfrom (s32 (arg1 a)) (arg2 a) (arg3 a) (s32 (arg4 a)) (arg5 a)); (* RECVFROM *)
   (68, λ a, sys_sendto (s32 (arg1 a)) (arg2 a) (arg3 a) (s32 (arg4 a)) (arg5 a)); (* SENDTO *)
   (69, λ a, with_pointer (arg2 a) STAT_SIZE true
              (stores_if no_error stat_bytes (fstat (s32 (arg1 a))) (arg2 a))); (* FSTAT *)
   (70, λ a, sys_truncate (arg1 a) (arg2 a));                                (* TRUNCATE *)
   (71, λ a, returns (ftruncate (s32 (arg1 a)) (arg2 a)));                   (* FTRUNCATE *)
   (72, λ a, mret (Some VVAR_ADDR));                                         (* GET_VVAR_ADDR *)
   (73, λ a, returns (kill (s32 (arg1 a)) (s32 (arg2 a))));                  (* KILL *)
   (74, λ a, returns (raise (s32 (arg1 a))));                                (* RAISE *)
   (75, λ a, if_given (arg2 a) (with_pointer (arg2 a) 8 false)
              (if_given (arg3 a) (with_pointer (arg3 a) 8 true)
                (returns (sigaction (s32 (arg1 a)) (arg2 a) (arg3 a)))));    (* SIGACTION *)
   (76, λ a, sys_sigreturn);                                                 (* SIGRETURN *)
   (77, λ a, returns (getpgid (s32 (arg1 a))));                              (* GETPGID *)
   (78, λ a, returns (setpgid (s32 (arg1 a)) (s32 (arg2 a))));               (* SETPGID *)
   (79, λ a, returns (getsid (s32 (arg1 a))));                               (* GETSID *)
   (80, λ a, returns setsid);                                                (* SETSID *)
   (81, λ a, if_given (arg2 a) (with_pointer (arg2 a) 4 false)
              (if_given (arg3 a) (with_pointer (arg3 a) 4 true)
                (returns (sigprocmask (s32 (arg1 a)) (arg2 a) (arg3 a)))))]. (* SIGPROCMASK *)

Fixpoint find_call {A} (number : Z) (l : list (Z * A)) : option A :=
  match l with
  | [] => None
  | (k, a) :: l => if k =? number then Some a else find_call number l
  end.
Definition dispatch (number : Z) (a : syscall_args) (f : iframe_t) : K machine (option Z) :=
  match find_call number (syscall_table f) with
  | Some call => call a
  | None => mret (Some (- ENOSYS))
  end.

(** What is left to do when a call has returned: another task's turn, or the
    signals of this one. *)
Definition finish_syscall : K kernel unit :=
  t ← current;
  s ← kget;
  let user_mode := cs (iframe (context t)) =? USER_CS in
  if (ticks_remaining s <=? 0) && user_mode then run_next_current
  else if bool_decide (state t = STATE_BLOCKED) && user_mode then run_next_current
  else
    ended ← (if user_mode then deliver_signals else mret false);
    if (ended : bool) then mret tt
    else
      t ← current;
      if negb (bool_decide (state t = STATE_RUNNING)) then run_next_current else mret tt.

Definition syscall (f : iframe_t) : K machine unit :=
  on_kernel (update_current (with_iframe (λ _, f)));;
  on_kernel save_fpu;;
  ret ← dispatch (rax f) (args_of f) f;
  match ret with
  | None => mret tt
  | Some ret =>
    on_kernel (update_current (with_iframe (set_rax (u64 ret))));;
    on_kernel finish_syscall
  end.

End syscalls.
