(* ===== verification/Interrupts.v ===== *)
(** * kernel/idt.c and kernel/io/8259pic.c: interrupts and exceptions

    interrupt_handler decides what an exception means for the task that raised
    it, hands vector 128 to the system calls and the rest to irq_handler.  The
    handlers of the devices, what kprintf writes and the debugger at a breakpoint
    are arguments; the acknowledgements to the interrupt controller have no state
    here.  The handlers answer whether another task has been switched to: then the
    code behind the call is not reached. *)

From S2P Require Import Prelude Pipe Paging Calendar Vfs Net Udp Task Signal Tty Fbcon Fd Sched Elf Exec Syscalls.

Definition SIGILL : Z := 4.
Definition SIGFPE : Z := 8.
Definition exception_signals (vector : Z) : Z :=
  if (vector =? 0) || (vector =? 16) || (vector =? 19) then SIGFPE
  else if vector =? 6 then SIGILL
  else if (vector =? 5) || (vector =? 13) || (vector =? 14) || (vector =? 20) || (vector =? 21) then SIGSEGV
  else 0.
(** Vectors that stop the machine wherever they come from. *)
Definition serious (vector : Z) : bool :=
  bool_decide (vector ∈ [18; 2; 10; 11; 8; 28; 29]).

(** ** The text for the error code of a page fault *)

Definition append_text (str buffer : list Z) : list Z := buffer ++ ztake (127 - zlen buffer) str.
Definition present_yes : list Z := [32;45;32;80;97;103;101;32;112;114;101;115;101;110;116;58;32;89;101;115].
Definition present_no : list Z := [32;45;32;80;97;103;101;32;112;114;101;115;101;110;116;58;32;78;111].
Definition write_access : list Z := [32;45;32;87;114;105;116;101;32;97;99;99;101;115;115].
Definition read_access : list Z := [32;45;32;82;101;97;100;32;97;99;99;101;115;115].
Definition user_mode : list Z := [32;45;32;85;115;101;114;32;109;111;100;101].
Definition kernel_mode : list Z := [32;45;32;75;101;114;110;101;108;32;109;111;100;101].
Definition reserved_violation : list Z :=
  [32;45;32;82;101;115;101;114;118;101;100;32;118;105;111;108;97;116;105;111;110].
Definition instruction_fetch : list Z :=
  [32;45;32;73;110;115;116;114;117;99;116;105;111;110;32;102;101;116;99;104].
Definition pfec_line (str buffer : list Z) : list Z := append_text [10] (append_text str buffer).
Definition decode_pfec_flags (error_code : Z) : list Z :=
  let b := pfec_line (if has error_code 0x1 then present_yes else present_no) [] in
  let b := pfec_line (if has error_code 0x2 then write_access else read_access) b in
  let b := pfec_line (if has error_code 0x4 then user_mode else kernel_mode) b in
  let b := if has error_code 0x8 then pfec_line reserved_violation b else b in
  if has error_code 0x10 then pfec_line instruction_fetch b else b.
(** The buffer of the caller has room for all of it and the terminator. *)
Lemma pfec_flags_fit e : zlen (decode_pfec_flags e) ≤ 127.
Proof. unfold decode_pfec_flags. by destruct (has e 1), (has e 2), (has e 4), (has e 8), (has e 16). Qed.

Section interrupts.
Context {FS N : Type}.
#[local] Notation kernel := (kernel FS N).
#[local] Notation machine := (machine FS N).
Context (system_call : iframe_t → K machine unit).
(** kprintf, with the text of the flags at a page fault; the device behind an
    interrupt line; the debugger. *)
Context (report_fault : Z → list Z → K kernel unit) (device_irq : Z → K kernel unit)
  (breakpoint_debugger : iframe_t → K kernel unit).

Definition pit_tick_step : K machine unit :=
  kmodify (λ s, mk_machine (kern s) (pit_tick (vvar s)) (screen s)).
Definition irq0_handler (f : iframe_t) : K machine bool :=
  pit_tick_step;;
  on_kernel (
    check_blocked_tasks true;;
    kmodify (λ s, set_ticks_remaining (ticks_remaining s - 1) s);;
    s ← kget;
    t ← current;
    if (ticks_remaining s <=? 0) && ((cs f =? USER_CS) || is_kworker (image t)) then
      run_next f;; mret (scheduler_initialized s)
    else mret false).
(** The PCI devices are asked on every line, then the device of the line. *)
Definition irq_handler (irq : Z) (f : iframe_t) : K machine bool :=
  on_kernel (device_irq irq);;
  if irq =? 0 then irq0_handler f else mret false.

Definition interrupt_handler (f : iframe_t) (cr2 : Z) : K machine unit :=
  let user := cs f =? USER_CS in
  (if user then on_kernel (update_current (with_iframe (λ _, f));; save_fpu) else mret tt);;
  if vector f =? 14 then
    fixed ← (if has (error_code f) 0x2
             then r ← on_kernel (lift_tables (cow_handler (Z.land cr2 PAGE_MASK))); mret (negb (r =? 0))
             else mret false);
    if (fixed : bool) then mret tt
    else if user then
      on_kernel (report_fault 14 (decode_pfec_flags (error_code f));; raise SIGSEGV;; deliver_signals;; mret tt)
    else kpanic
  else if vector f =? 13 then
    if user then on_kernel (report_fault 13 [];; raise SIGSEGV;; deliver_signals;; mret tt) else kpanic
  else if vector f =? 3 then
    on_kernel (breakpoint_debugger f;; if user then deliver_signals;; mret tt else mret tt)
  else if serious (vector f) then kpanic
  else if vector f <? 32 then
    if user then
      on_kernel (
        report_fault (vector f) [];;
        if negb (exception_signals (vector f) =? 0)
        then raise (exception_signals (vector f));; deliver_signals;; mret tt
        else exit (- (32 + vector f)))
    else kpanic
  else if vector f =? 128 then system_call f
  else
    switched ← irq_handler (vector f - 32) f;
    if negb switched && user then on_kernel (deliver_signals;; mret tt) else mret tt.

End interrupts.
