(* ===== verification/TaskTree.v ===== *)
(** * The ring and the tree of tasks

    What scheduler.c relies on whenever it follows next, child, next_sibling or
    parent: from init_task, next runs through all tasks but the idle one and
    back; the siblings behind child are exactly the tasks with that parent; every
    task but init and the kernel workers has a living parent.  This file holds
    the invariant and what inserting a task, moving the children of a task and
    removing a task do to it; SchedTree.v applies it to the operations. *)

From S2P Require Import Prelude Paging Vfs Pipe Net Udp Task.

(** ** Linked lists in a memory *)

(** The list [l] is what one meets from [p] on until [q]. *)
Fixpoint chain (g : Z → option Z) (p : Z) (l : list Z) (q : Z) : Prop :=
  match l with
  | [] => p = q
  | x :: l => p = x ∧ ∃ y, g x = Some y ∧ chain g y l q
  end.

Lemma chain_app g p l1 l2 q : chain g p (l1 ++ l2) q ↔ ∃ r, chain g p l1 r ∧ chain g r l2 q.
Proof.
  revert p. induction l1 as [|x l1 IH]; intros p; cbn [app chain].
  - split; [by intros H; exists p|by intros (r & -> & H)].
  - split.
    + intros (-> & y & Hy & H). apply IH in H as (r & H1 & H2). by eauto 10.
    + intros (r & (-> & y & Hy & H1) & H2). split; [done|]. exists y. rewrite IH. eauto.
Qed.
Lemma chain_ext g g' p l q : (∀ x, x ∈ l → g x = g' x) → chain g p l q → chain g' p l q.
Proof.
  revert p. induction l as [|x l IH]; intros p Hg; cbn [chain]; [done|].
  intros (-> & y & Hy & H). split; [done|]. exists y. rewrite <-Hg by set_solver. split; [done|].
  apply IH; [set_solver|done].
Qed.
Lemma chain_head g p l q : chain g p l q → p = q ∨ p ∈ l.
Proof. destruct l; cbn; [by left|intros [-> _]; right; set_solver]. Qed.
Lemma chain_step g p l q x y : chain g p l q → x ∈ l → g x = Some y → y = q ∨ y ∈ l.
Proof.
  revert p. induction l as [|z l IH]; intros p; [set_solver|]. cbn [chain].
  intros (-> & w & Ew & Hc) [->|Hx]%elem_of_cons Ey; [simplify_eq; destruct (chain_head _ _ _ _ Hc); set_solver|].
  destruct (IH w Hc Hx Ey); set_solver.
Qed.
(** A chain to a place outside of it is determined by its start. *)
Lemma chain_det g p l l' q : q ∉ l → q ∉ l' → chain g p l q → chain g p l' q → l = l'.
Proof.
  revert p l'. induction l as [|x l IH]; intros p l' H1 H2; cbn [chain].
  - intros ->. destruct l' as [|x' l']; [done|]. intros [-> _]. set_solver.
  - intros (-> & y & Hy & Hc). destruct l' as [|x' l']; cbn [chain]; [set_solver|].
    intros (-> & y' & Hy' & Hc'). simplify_eq. f_equal. apply (IH y); set_solver.
Qed.

(** ** The links of the tasks *)

Definition alive (st : process_state_t) : bool :=
  negb (bool_decide (st = STATE_ZOMBIE) || bool_decide (st = STATE_DELETED)).
Record node := mk_node {
  n_next : Z;
  n_sib : Z;
  n_parent : Z;
  n_child : Z;
  n_kworker : bool;
  n_alive : bool;
}.
Definition node_of (t : task_t) : node :=
  mk_node (next (links t)) (next_sibling (links t)) (parent (links t)) (child (links t))
    (is_kworker (image t)) (alive (state t)).

Implicit Types (m : gmap Z node) (ring l : list Z) (kids : Z → list Z).

Definition nexts m (x : Z) : option Z := n_next <$> m !! x.
Definition sibs m (x : Z) : option Z := n_sib <$> m !! x.

(** [c] is a process with parent [p]. *)
Definition child_of m ring (p c : Z) : Prop :=
  c ≠ INIT_TASK ∧ c ∈ ring ∧ ∃ n, m !! c = Some n ∧ n_kworker n = false ∧ n_parent n = p.
(** [p] is a process that has not ended. *)
Definition living m ring (p : Z) : Prop :=
  p ∈ ring ∧ ∃ n, m !! p = Some n ∧ n_alive n = true ∧ n_kworker n = false.

Record wf_tree m ring kids (bound : Z) : Prop := {
  wf_ring : chain (nexts m) INIT_TASK ring INIT_TASK;
  wf_ring_nodup : NoDup ring;
  wf_dom : ∀ p, is_Some (m !! p) ↔ p = IDLE_TASK ∨ p ∈ ring;
  wf_keys : ∀ p, p ∈ ring → INIT_TASK ≤ p < bound;
  wf_kids : ∀ p n, p ∈ ring → m !! p = Some n → n_alive n = true →
    chain (sibs m) (n_child n) (kids p) NULL ∧ NoDup (kids p) ∧
    (∀ c, c ∈ kids p ↔ child_of m ring p c);
  wf_parent : ∀ p c, child_of m ring p c → living m ring p;
  wf_init : living m ring INIT_TASK;
  wf_idle : ∃ n, m !! IDLE_TASK = Some n ∧ n_kworker n = true ∧ n_alive n = true ∧ n_parent n = NULL;
  wf_workers : ∀ p n, m !! p = Some n → n_kworker n = true → n_parent n = NULL;
  wf_self : ∀ p, ¬ child_of m ring p p;
}.

Section tree.
Context m ring kids bound (Hwf : wf_tree m ring kids bound).

Lemma ring_lookup p : p ∈ ring → ∃ n, m !! p = Some n.
Proof using All. intros Hp. apply (wf_dom _ _ _ _ Hwf). by right. Qed.
Lemma ring_not_null p : p ∈ ring → p ≠ NULL ∧ p ≠ IDLE_TASK.
Proof using All. intros Hp%(wf_keys _ _ _ _ Hwf). unfold INIT_TASK, NULL, IDLE_TASK in *. lia. Qed.
Lemma fresh_not_in new : bound ≤ new → new ∉ ring ∧ m !! new = None.
Proof using All.
  pose proof (wf_keys _ _ _ _ Hwf) as Hk. pose proof (wf_keys _ _ _ _ Hwf _ (proj1 (wf_init _ _ _ _ Hwf))) as Hi.
  intros Hn. assert (H : new ∉ ring) by (intros Hin; specialize (Hk _ Hin); lia).
  split; [done|]. destruct (m !! new) eqn:E; [|done].
  destruct (proj1 (wf_dom _ _ _ _ Hwf new) ltac:(by eexists)) as [->|]; [|done].
  unfold IDLE_TASK, INIT_TASK in *. lia.
Qed.
Lemma kids_in_ring p c n : p ∈ ring → m !! p = Some n → n_alive n = true → c ∈ kids p → c ∈ ring.
Proof using All. intros Hp Hm Ha Hc. apply (wf_kids _ _ _ _ Hwf p n Hp Hm Ha) in Hc. by destruct Hc as (_ & ? & _). Qed.

(** The number of tasks bounds the lists. *)
Lemma ring_size : size m = S (length ring).
Proof using All.
  rewrite <-size_dom.
  assert (Hd : dom m = {[IDLE_TASK]} ∪ list_to_set (C:=gset Z) ring).
  { apply set_eq. intros p. rewrite elem_of_dom, (wf_dom _ _ _ _ Hwf). set_solver. }
  rewrite Hd, size_union, size_singleton, size_list_to_set; [done|apply (wf_ring_nodup _ _ _ _ Hwf)|].
  intros p Hp%elem_of_singleton Hin%elem_of_list_to_set. by destruct (ring_not_null p Hin).
Qed.
Lemma kids_length p n : p ∈ ring → m !! p = Some n → n_alive n = true → (length (kids p) ≤ size m)%nat.
Proof using All.
  intros Hp Hm Ha. pose proof (wf_kids _ _ _ _ Hwf p n Hp Hm Ha) as (_ & Hnd & _). rewrite ring_size.
  assert (Hle : (length (kids p) ≤ length ring)%nat); [|lia].
  apply submseteq_length, NoDup_submseteq; [done|]. intros c. by apply (kids_in_ring p c n).
Qed.
End tree.

(** ** Inserting a task *)

(** The new task follows [cur] in the ring. *)
Definition ring_after (cur new : Z) (ring : list Z) : list Z :=
  flat_map (λ x, if x =? cur then [x; new] else [x]) ring.
Lemma ring_after_split cur new l1 l2 :
  cur ∉ l1 → cur ∉ l2 → ring_after cur new (l1 ++ cur :: l2) = l1 ++ cur :: new :: l2.
Proof.
  assert (Hid : ∀ l, cur ∉ l → ring_after cur new l = l).
  { induction l as [|x l IH]; [done|]. intros Hn. cbn.
    destruct (Z.eqb_spec x cur); [set_solver|]. cbn. f_equal. apply IH. set_solver. }
  intros H1 H2. unfold ring_after in *. rewrite flat_map_app, Hid by done. cbn.
  by rewrite Z.eqb_refl, Hid.
Qed.
Lemma elem_of_ring_after cur new ring x :
  cur ∈ ring → x ∈ ring_after cur new ring ↔ x = new ∨ x ∈ ring.
Proof.
  intros Hc. unfold ring_after. rewrite !list_elem_of_In, in_flat_map. rewrite list_elem_of_In in Hc. split.
  - intros (y & Hy & Hx). destruct (Z.eqb_spec y cur); cbn in Hx; naive_solver.
  - intros [->|Hx].
    + exists cur. rewrite Z.eqb_refl. cbn. auto.
    + exists x. split; [done|]. destruct (x =? cur); cbn; auto.
Qed.
Lemma nodup_split (cur : Z) (ring : list Z) :
  cur ∈ ring → NoDup ring → ∃ l1 l2, ring = l1 ++ cur :: l2 ∧ cur ∉ l1 ∧ cur ∉ l2.
Proof.
  intros (l1 & l2 & ->)%list_elem_of_split Hnd. exists l1, l2. split; [done|].
  apply NoDup_app in Hnd as (_ & Hd & Hnd). apply NoDup_cons in Hnd as [Hc _]. set_solver.
Qed.
Lemma ring_after_ok m m' ring cur new n n' nn a b :
  chain (nexts m) a ring b → NoDup ring → cur ∈ ring → new ∉ ring →
  m !! cur = Some n → m' !! cur = Some n' → n_next n' = new →
  m' !! new = Some nn → n_next nn = n_next n →
  (∀ x, x ≠ cur → x ≠ new → nexts m' x = nexts m x) →
  chain (nexts m') a (ring_after cur new ring) b ∧ NoDup (ring_after cur new ring).
Proof.
  intros Hch Hnd Hc Hn Em Em' En' Enn Ens Hother.
  destruct (nodup_split cur ring Hc Hnd) as (l1 & l2 & -> & H1 & H2).
  rewrite ring_after_split by done. apply chain_app in Hch as (r & Hc1 & Hc2).
  cbn [chain] in Hc2. destruct Hc2 as (-> & y & Hy & Hc2). split.
  - apply chain_app. exists cur. split; [|cbn [chain]; split; [done|]].
    + eapply chain_ext; [|exact Hc1]. intros x Hx. symmetry. apply Hother; set_solver.
    + exists new. split; [unfold nexts; by rewrite Em'; cbn; rewrite En'|]. split; [done|].
      exists y. split; [unfold nexts in *; rewrite Enn; rewrite Em in Hy; cbn in *; congruence|].
      eapply chain_ext; [|exact Hc2]. intros x Hx. symmetry. apply Hother; set_solver.
  - apply NoDup_app in Hnd as (Hn1 & Hd & Hn2). apply NoDup_cons in Hn2 as [? Hn2].
    apply NoDup_app. split; [done|]. split; [set_solver|]. apply NoDup_cons. split; [set_solver|].
    apply NoDup_cons. split; [set_solver|done].
Qed.

Section insert.
Context m ring kids bound (Hwf : wf_tree m ring kids bound).
Context (cur new : Z) (n : node) (Hcur : cur ∈ ring) (Hm : m !! cur = Some n) (Hnew : bound ≤ new).

(** A kernel worker: it hangs on no parent. *)
Definition add_worker (a : bool) : gmap Z node :=
  <[cur := mk_node new (n_sib n) (n_parent n) (n_child n) (n_kworker n) (n_alive n)]>
    (<[new := mk_node (n_next n) NULL NULL NULL true a]> m).
(** A new process becomes the first child of [cur]. *)
Definition add_process : gmap Z node :=
  <[cur := mk_node new (n_sib n) (n_parent n) new (n_kworker n) (n_alive n)]>
    (<[new := mk_node (n_next n) (n_child n) cur NULL false true]> m).

Lemma new_ne : new ≠ cur ∧ new ≠ IDLE_TASK ∧ new ≠ INIT_TASK ∧ new ≠ NULL ∧ new ∉ ring ∧ m !! new = None.
Proof using All.
  destruct (fresh_not_in m ring kids bound Hwf new Hnew) as [H1 H2].
  destruct (wf_idle _ _ _ _ Hwf) as (ni & Hi & _). destruct (wf_init _ _ _ _ Hwf) as [Hin _].
  pose proof (wf_keys _ _ _ _ Hwf _ Hin). unfold INIT_TASK, NULL in *.
  repeat split; try done; try (intros ->; congruence || set_solver); lia.
Qed.

Lemma worker_lookup a x :
  add_worker a !! x =
    if decide (x = cur) then Some (mk_node new (n_sib n) (n_parent n) (n_child n) (n_kworker n) (n_alive n))
    else if decide (x = new) then Some (mk_node (n_next n) NULL NULL NULL true a) else m !! x.
Proof using All.
  unfold add_worker. destruct (decide (x = cur)) as [->|]; [by rewrite lookup_insert_eq|].
  rewrite lookup_insert_ne by done. destruct (decide (x = new)) as [->|]; [by rewrite lookup_insert_eq|].
  by rewrite lookup_insert_ne.
Qed.
Lemma process_lookup x :
  add_process !! x =
    if decide (x = cur) then Some (mk_node new (n_sib n) (n_parent n) new (n_kworker n) (n_alive n))
    else if decide (x = new) then Some (mk_node (n_next n) (n_child n) cur NULL false true) else m !! x.
Proof using All.
  unfold add_process. destruct (decide (x = cur)) as [->|]; [by rewrite lookup_insert_eq|].
  rewrite lookup_insert_ne by done. destruct (decide (x = new)) as [->|]; [by rewrite lookup_insert_eq|].
  by rewrite lookup_insert_ne.
Qed.

(** Both ways of adding keep the ring, whatever the other fields are. *)
Lemma inserted_ring m' n' nn :
  m' !! cur = Some n' → n_next n' = new → m' !! new = Some nn → n_next nn = n_next n →
  (∀ x, x ≠ cur → x ≠ new → m' !! x = m !! x) →
  chain (nexts m') INIT_TASK (ring_after cur new ring) INIT_TASK ∧
  NoDup (ring_after cur new ring) ∧
  (∀ p, is_Some (m' !! p) ↔ p = IDLE_TASK ∨ p ∈ ring_after cur new ring) ∧
  (∀ p, p ∈ ring_after cur new ring → INIT_TASK ≤ p < new + 1).
Proof using All.
  intros E1 En' E2 Enn Eo. destruct new_ne as (Hnc & Hni & _ & _ & Hnr & Hnm).
  destruct (ring_after_ok m m' ring cur new n n' nn INIT_TASK INIT_TASK) as [Hc Hnd];
    [apply (wf_ring _ _ _ _ Hwf)|apply (wf_ring_nodup _ _ _ _ Hwf)|done..| |].
  { intros x H1 H2. unfold nexts. by rewrite Eo. }
  split; [done|]. split; [done|]. split.
  - intros p. rewrite elem_of_ring_after by done.
    destruct (decide (p = cur)) as [->|]; [rewrite E1; naive_solver|].
    destruct (decide (p = new)) as [->|]; [rewrite E2; naive_solver|].
    rewrite Eo, (wf_dom _ _ _ _ Hwf) by done. naive_solver.
  - intros p Hp%elem_of_ring_after; [|done].
    pose proof (wf_keys _ _ _ _ Hwf) as Hk. pose proof (Hk cur Hcur).
    destruct Hp as [->|Hp]; [unfold INIT_TASK in *; lia|specialize (Hk p Hp); lia].
Qed.

Lemma worker_children a p c : child_of (add_worker a) (ring_after cur new ring) p c ↔ child_of m ring p c.
Proof using All.
  destruct new_ne as (Hnc & Hni & _ & _ & Hnr & Hnm). unfold child_of.
  rewrite elem_of_ring_after, worker_lookup by done.
  destruct (decide (c = cur)) as [->|]; [rewrite Hm; naive_solver|].
  destruct (decide (c = new)) as [->|]; naive_solver.
Qed.
Lemma worker_living a p : living m ring p → living (add_worker a) (ring_after cur new ring) p.
Proof using All.
  destruct new_ne as (Hnc & Hni & _ & _ & Hnr & Hnm). intros (Hp & k & Ek & Hk).
  split; [apply elem_of_ring_after; [done|by right]|]. rewrite worker_lookup.
  destruct (decide (p = cur)) as [->|]; [naive_solver|].
  destruct (decide (p = new)) as [->|]; naive_solver.
Qed.

Lemma wf_add_worker a :
  wf_tree (add_worker a) (ring_after cur new ring) (λ p, if decide (p = new) then [] else kids p) (new + 1).
Proof using All.
  destruct new_ne as (Hnc & Hni & Hnt & _ & Hnr & Hnm).
  destruct (inserted_ring (add_worker a) (mk_node new (n_sib n) (n_parent n) (n_child n) (n_kworker n) (n_alive n))
    (mk_node (n_next n) NULL NULL NULL true a)) as (H1 & H2 & H3 & H4); try done.
  { rewrite worker_lookup. by rewrite decide_True. }
  { rewrite worker_lookup. by rewrite decide_False, decide_True. }
  { intros x ??. rewrite worker_lookup. by rewrite !decide_False. }
  split; try done.
  - intros p np Hp Ep Ha. setoid_rewrite worker_children. rewrite worker_lookup in Ep.
    destruct (decide (p = new)) as [->|Hpn].
    { rewrite decide_False in Ep by done. simplify_eq/=. split; [done|]. split; [constructor|].
      intros c. split; [set_solver|]. intros Hc%(wf_parent _ _ _ _ Hwf). by destruct Hc. }
    assert (Hk : ∃ k, m !! p = Some k ∧ n_child k = n_child np ∧ n_alive k = true).
    { destruct (decide (p = cur)) as [->|]; [by simplify_eq/=; eauto|eauto]. }
    destruct Hk as (k & Ek & Ec & Hka). apply elem_of_ring_after in Hp as [->|Hp]; [done| |done].
    destruct (wf_kids _ _ _ _ Hwf p k Hp Ek Hka) as (Hch & Hnd & Hsp). split; [|done].
    rewrite <-Ec. eapply chain_ext; [|exact Hch]. intros x Hx.
    apply (kids_in_ring m ring kids bound Hwf p x k Hp Ek Hka) in Hx. unfold sibs. rewrite worker_lookup.
    destruct (decide (x = cur)) as [->|]; [by rewrite Hm|]. destruct (decide (x = new)) as [->|]; done.
  - intros p c Hc%worker_children. apply worker_living, (wf_parent _ _ _ _ Hwf p c Hc).
  - apply worker_living, (wf_init _ _ _ _ Hwf).
  - destruct (wf_idle _ _ _ _ Hwf) as (ni & Ei & ?). exists ni. rewrite worker_lookup.
    destruct (decide (IDLE_TASK = cur)) as [Hi|]; [|by rewrite decide_False].
    destruct (ring_not_null m ring kids bound Hwf cur Hcur). congruence.
  - intros p k. rewrite worker_lookup. pose proof (wf_workers _ _ _ _ Hwf) as Hw.
    destruct (decide (p = cur)) as [->|]; [intros [= <-]; apply (Hw _ _ Hm)|].
    destruct (decide (p = new)) as [->|]; [by intros [= <-]|apply Hw].
  - intros p Hp%worker_children. by apply (wf_self _ _ _ _ Hwf p).
Qed.

Context (Halive : n_alive n = true) (Hproc : n_kworker n = false).
Definition process_kids (p : Z) : list Z :=
  if decide (p = cur) then new :: kids cur else if decide (p = new) then [] else kids p.

Lemma process_children p c :
  child_of add_process (ring_after cur new ring) p c ↔ child_of m ring p c ∨ (p = cur ∧ c = new).
Proof using All.
  destruct new_ne as (Hnc & Hni & Hnt & _ & Hnr & Hnm). unfold child_of.
  rewrite elem_of_ring_after, process_lookup by done.
  destruct (decide (c = cur)) as [->|]; [rewrite Hm; naive_solver|].
  destruct (decide (c = new)) as [->|]; naive_solver.
Qed.
Lemma process_living p : living m ring p → living add_process (ring_after cur new ring) p.
Proof using All.
  destruct new_ne as (Hnc & Hni & _ & _ & Hnr & Hnm). intros (Hp & k & Ek & Hk).
  split; [apply elem_of_ring_after; [done|by right]|]. rewrite process_lookup.
  destruct (decide (p = cur)) as [->|]; [naive_solver|].
  destruct (decide (p = new)) as [->|]; naive_solver.
Qed.
(** The siblings of the old tasks stay. *)
Lemma process_old_kids p k : p ∈ ring → m !! p = Some k → n_alive k = true →
  chain (sibs add_process) (n_child k) (kids p) NULL ∧ NoDup (kids p) ∧ new ∉ kids p ∧
  (∀ c, c ∈ kids p ↔ child_of m ring p c).
Proof using All.
  intros Hp Ek Hka. destruct new_ne as (Hnc & Hni & _ & _ & Hnr & Hnm).
  destruct (wf_kids _ _ _ _ Hwf p k Hp Ek Hka) as (Hch & Hnd & Hsp).
  assert (Hin : ∀ x, x ∈ kids p → x ∈ ring) by (intros x; by apply (kids_in_ring m ring kids bound Hwf p x k)).
  split; [|split; [done|split; [intros Hx%Hin; done|done]]].
  eapply chain_ext; [|exact Hch]. intros x Hx%Hin. unfold sibs. rewrite process_lookup.
  destruct (decide (x = cur)) as [->|]; [by rewrite Hm|]. destruct (decide (x = new)) as [->|]; done.
Qed.

Lemma wf_add_process : wf_tree add_process (ring_after cur new ring) process_kids (new + 1).
Proof using All.
  destruct new_ne as (Hnc & Hni & Hnt & Hn0 & Hnr & Hnm).
  destruct (inserted_ring add_process (mk_node new (n_sib n) (n_parent n) new (n_kworker n) (n_alive n))
    (mk_node (n_next n) (n_child n) cur NULL false true)) as (H1 & H2 & H3 & H4); try done.
  { rewrite process_lookup. by rewrite decide_True. }
  { rewrite process_lookup. by rewrite decide_False, decide_True. }
  { intros x ??. rewrite process_lookup. by rewrite !decide_False. }
  split; try done.
  - intros p np Hp Ep Ha. setoid_rewrite process_children. rewrite process_lookup in Ep. unfold process_kids.
    destruct (decide (p = cur)) as [->|Hpc].
    { simplify_eq/=. destruct (process_old_kids cur n Hcur Hm Halive) as (Hch & Hnd & Hni' & Hsp).
      split; [split; [done|]; exists (n_child n); unfold sibs; rewrite process_lookup; by rewrite decide_False, decide_True|].
      split; [by constructor|]. intros c. rewrite elem_of_cons, Hsp. naive_solver. }
    destruct (decide (p = new)) as [->|Hpn].
    { simplify_eq/=. split; [done|]. split; [constructor|].
      intros c. split; [set_solver|]. intros [Hc%(wf_parent _ _ _ _ Hwf)|[-> _]]; [by destruct Hc|done]. }
    apply elem_of_ring_after in Hp as [->|Hp]; [done| |done].
    destruct (process_old_kids p np Hp Ep Ha) as (Hch & Hnd & Hni' & Hsp).
    split; [done|]. split; [done|]. intros c. rewrite Hsp. naive_solver.
  - intros p c [Hc|[-> ->]]%process_children; [apply process_living, (wf_parent _ _ _ _ Hwf p c Hc)|].
    apply process_living. split; [done|eauto].
  - apply process_living, (wf_init _ _ _ _ Hwf).
  - destruct (wf_idle _ _ _ _ Hwf) as (ni & Ei & ?). exists ni. rewrite process_lookup.
    destruct (decide (IDLE_TASK = cur)) as [Hi|]; [|by rewrite decide_False].
    destruct (ring_not_null m ring kids bound Hwf cur Hcur). congruence.
  - intros p k. rewrite process_lookup. pose proof (wf_workers _ _ _ _ Hwf) as Hw.
    destruct (decide (p = cur)) as [->|]; [intros [= <-]; apply (Hw _ _ Hm)|].
    destruct (decide (p = new)) as [->|]; [by intros [= <-]|apply Hw].
  - intros p [Hp|[-> ?]]%process_children; [by apply (wf_self _ _ _ _ Hwf p)|done].
Qed.
End insert.

(** ** Moving the children of a task to init

    [m'] arises from [m] by moving the tasks of [l] in front of the children of
    [p], in reverse order. *)

Definition set_sib (v : Z) (n : node) : node := mk_node (n_next n) v (n_parent n) (n_child n) (n_kworker n) (n_alive n).
Definition set_par (v : Z) (n : node) : node := mk_node (n_next n) (n_sib n) v (n_child n) (n_kworker n) (n_alive n).
Definition set_chi (v : Z) (n : node) : node := mk_node (n_next n) (n_sib n) (n_parent n) v (n_kworker n) (n_alive n).

Record moved (p : Z) (l : list Z) m m' : Prop := {
  moved_other : ∀ x, x ∉ l → x ≠ p → m' !! x = m !! x;
  moved_kids : ∀ x, x ∈ l → ∃ n v, m !! x = Some n ∧ m' !! x = Some (set_sib v (set_par p n));
  moved_to : ∃ n, m !! p = Some n ∧ ∃ v, m' !! p = Some (set_chi v n);
  moved_chain : ∀ n ks, m !! p = Some n → chain (sibs m) (n_child n) ks NULL → (∀ x, x ∈ ks → x ∉ l) →
    p ∉ ks → ∃ n', m' !! p = Some n' ∧ chain (sibs m') (n_child n') (reverse l ++ ks) NULL;
}.
Lemma moved_nil p m n : m !! p = Some n → moved p [] m m.
Proof.
  intros Hm. split; [done|set_solver| |].
  - exists n. split; [done|]. exists (n_child n). by destruct n.
  - intros n' ks E Hc _ _. exists n'. done.
Qed.

(** One turn of the loop, then the rest. *)
Lemma moved_cons p c l m m' nc np :
  c ≠ p → c ∉ l → p ∉ l → m !! c = Some nc → m !! p = Some np →
  moved p l (<[p := set_chi c np]> (<[c := set_sib (n_child np) (set_par p nc)]> m)) m' →
  moved p (c :: l) m m'.
Proof.
  intros Hcp Hcl Hpl Ec Ep [Ho Hk Ht Hch]. set (m1 := <[p:=_]> _) in *.
  assert (L1 : m1 !! c = Some (set_sib (n_child np) (set_par p nc)))
    by (unfold m1; rewrite lookup_insert_ne by done; by rewrite lookup_insert_eq).
  assert (L2 : m1 !! p = Some (set_chi c np)) by (unfold m1; by rewrite lookup_insert_eq).
  assert (L3 : ∀ x, x ≠ c → x ≠ p → m1 !! x = m !! x)
    by (intros x ??; unfold m1; by rewrite !lookup_insert_ne).
  split.
  - intros x Hx Hxp. rewrite Ho by set_solver. apply L3; set_solver.
  - intros x [->|Hx]%elem_of_cons.
    + exists nc, (n_child np). split; [done|]. by rewrite Ho.
    + destruct (Hk x Hx) as (n & v & E1 & E2). rewrite L3 in E1 by set_solver. eauto.
  - exists np. split; [done|]. destruct Ht as (n & En & v & Ev). rewrite L2 in En. simplify_eq. by exists v.
  - intros n ks En Hc Hd Hpk. assert (n = np) as -> by congruence.
    destruct (Hch (set_chi c np) (c :: ks)) as (n' & E' & Hc').
    + done.
    + cbn [chain set_chi n_child]. split; [done|]. exists (n_child np). unfold sibs at 1. rewrite L1. split; [done|].
      eapply chain_ext; [|exact Hc]. intros x Hx. unfold sibs. rewrite L3; [done|set_solver..].
    + set_solver.
    + set_solver.
    + exists n'. split; [done|]. rewrite reverse_cons, <-app_assoc. exact Hc'.
Qed.

Definition set_dead (n : node) : node := mk_node (n_next n) (n_sib n) (n_parent n) (n_child n) (n_kworker n) false.

(** A task [cur] ends and its children go to [q]. *)
Section moving.
Context m ring kids bound (Hwf : wf_tree m ring kids bound).
Context (cur q : Z) (n : node) (m' : gmap Z node).
Context (Hcur : cur ∈ ring) (Hm : m !! cur = Some n) (Halive : n_alive n = true) (Hci : cur ≠ INIT_TASK).
Context (Hq : living m ring q) (Hqc : q ≠ cur) (Hqk : q ∉ kids cur).
Context (Hmoved : moved q (kids cur) (<[cur := set_dead n]> m) m').

Lemma moving_kids c : c ∈ kids cur ↔ child_of m ring cur c.
Proof using All. by apply (wf_kids _ _ _ _ Hwf cur n). Qed.
Lemma moving_cur : cur ∉ kids cur → m' !! cur = Some (set_dead n).
Proof using All. intros Hc. rewrite (moved_other _ _ _ _ Hmoved); [by rewrite lookup_insert_eq|done..]. Qed.

(** Every task keeps the fields that the move does not name. *)
Lemma moving_lookup x k : m !! x = Some k → ∃ k', m' !! x = Some k' ∧
  n_next k' = n_next k ∧ n_kworker k' = n_kworker k ∧
  (x ∉ kids cur → n_sib k' = n_sib k) ∧
  n_parent k' = (if decide (x ∈ kids cur) then q else n_parent k) ∧
  (x ≠ q → n_child k' = n_child k) ∧
  n_alive k' = (if decide (x = cur) then false else n_alive k).
Proof using All.
  intros Ex. destruct (decide (x ∈ kids cur)) as [Hk|Hk].
  - destruct (moved_kids _ _ _ _ Hmoved x Hk) as (k0 & v & E1 & E2).
    destruct (decide (x = cur)) as [->|Hxc].
    + rewrite lookup_insert_eq in E1. simplify_eq. eexists. split; [exact E2|]. by split_and!.
    + rewrite lookup_insert_ne in E1 by done. simplify_eq. eexists. split; [exact E2|]. by split_and!.
  - destruct (decide (x = q)) as [->|Hxq].
    + destruct (moved_to _ _ _ _ Hmoved) as (k0 & E1 & v & E2). rewrite lookup_insert_ne in E1 by done.
      simplify_eq. eexists. split; [exact E2|]. rewrite decide_False by done. by split_and!.
    + pose proof (moved_other _ _ _ _ Hmoved x Hk Hxq) as E.
      destruct (decide (x = cur)) as [->|Hxc].
      * rewrite lookup_insert_eq in E. simplify_eq. eexists. split; [exact E|]. by split_and!.
      * rewrite lookup_insert_ne in E by done. exists k. rewrite E. by split_and!.
Qed.
Lemma moving_none x : m !! x = None → m' !! x = None.
Proof using All.
  intros Ex. assert (Hk : x ∉ kids cur).
  { intros (_ & Hx & k & E & _)%moving_kids. congruence. }
  assert (x ≠ q) by (intros ->; destruct Hq as (_ & k & E & _); congruence).
  assert (x ≠ cur) by congruence.
  rewrite (moved_other _ _ _ _ Hmoved x) by done. by rewrite lookup_insert_ne.
Qed.

Lemma moving_children p c :
  child_of m' ring p c ↔ (p = q ∧ (child_of m ring cur c ∨ child_of m ring q c)) ∨
                         (p ≠ q ∧ p ≠ cur ∧ child_of m ring p c).
Proof using All.
  assert (Hex : c ∈ ring → ∃ k, m !! c = Some k) by apply (ring_lookup m ring kids bound Hwf).
  assert (Hone : ∀ a b, child_of m ring a c → child_of m ring b c → a = b).
  { intros a b (_ & _ & k1 & E1 & _ & <-) (_ & _ & k2 & E2 & _ & <-). congruence. }
  split.
  - intros (Hi & Hc & k' & E' & Hw & Hp). destruct (Hex Hc) as [k Ek].
    destruct (moving_lookup c k Ek) as (k0 & E0 & _ & Ew & _ & Ep & _). simplify_eq.
    destruct (decide (c ∈ kids cur)) as [Hk|Hk]; rewrite Ep.
    + left. split; [done|]. left. by apply moving_kids.
    + assert (Hch : child_of m ring (n_parent k) c) by (split; [done|split; [done|]]; exists k; rewrite <-Ew; done).
      destruct (decide (n_parent k = q)) as [<-|]; [left; by auto|]. right. split; [done|]. split; [|done].
      intros Hpc. rewrite Hpc in Hch. by apply moving_kids in Hch.
  - intros Hcase. assert (Hch : ∃ a, child_of m ring a c) by naive_solver.
    destruct Hch as (a & Hi & Hc & k & Ek & Hw & Ha).
    destruct (moving_lookup c k Ek) as (k' & E' & _ & Ew & _ & Ep & _).
    split; [done|]. split; [done|]. exists k'. split; [done|]. split; [congruence|]. rewrite Ep.
    assert (Hach : child_of m ring a c) by (split; [done|split; [done|by exists k]]).
    destruct (decide (c ∈ kids cur)) as [Hk%moving_kids|Hk].
    + destruct Hcase as [[-> _]|(_ & Hpc & Hp)]; [done|]. by destruct Hpc; apply Hone.
    + destruct Hcase as [[-> [Hx%moving_kids|Hx]]|(_ & _ & Hx)]; [done| |]; rewrite Ha; by apply Hone.
Qed.
Lemma moving_living p : p ≠ cur → living m ring p → living m' ring p.
Proof using All.
  intros Hpc (Hp & k & Ek & Ha & Hw). split; [done|].
  destruct (moving_lookup p k Ek) as (k' & E' & _ & Ew & _ & _ & _ & Ea).
  exists k'. rewrite decide_False in Ea by done. split; [done|]. split; congruence.
Qed.
(** Chains of siblings that are not moved stay. *)
Lemma moving_chain p k : p ∈ ring → m !! p = Some k → n_alive k = true → p ≠ cur →
  chain (sibs m') (n_child k) (kids p) NULL.
Proof using All.
  intros Hp Ek Ha Hpc. destruct (wf_kids _ _ _ _ Hwf p k Hp Ek Ha) as (Hch & _ & Hsp).
  eapply chain_ext; [|exact Hch]. intros x Hx%Hsp. unfold sibs.
  destruct (ring_lookup m ring kids bound Hwf x) as [kx Ex]; [by destruct Hx as (_ & ? & _)|].
  destruct (moving_lookup x kx Ex) as (k' & E' & _ & _ & Es & _). rewrite Ex, E'. cbn. f_equal. symmetry.
  apply Es. intros Hk%moving_kids. destruct Hx as (_ & _ & k1 & E1 & _ & P1), Hk as (_ & _ & k2 & E2 & _ & P2).
  congruence.
Qed.

Definition moving_kid_lists (p : Z) : list Z :=
  if decide (p = q) then reverse (kids cur) ++ kids q else kids p.

Context (Hqq : q ∉ kids q).

Lemma moving_old p k' : p ∈ ring → m' !! p = Some k' → n_alive k' = true →
  p ≠ cur ∧ ∃ k, m !! p = Some k ∧ n_alive k = true ∧ (p ≠ q → n_child k' = n_child k).
Proof using Halive Hci Hcur Hm Hmoved Hq Hqc Hqk Hwf.
  intros Hp E' Ha. destruct (ring_lookup m ring kids bound Hwf p Hp) as [k Ek].
  destruct (moving_lookup p k Ek) as (k0 & E0 & _ & _ & _ & _ & Ec & Ea). simplify_eq.
  destruct (decide (p = cur)) as [->|]; [congruence|]. split; [done|]. exists k. split; [done|]. split; [congruence|done].
Qed.

Lemma moving_q_chain k' : m' !! q = Some k' →
  chain (sibs m') (n_child k') (reverse (kids cur) ++ kids q) NULL ∧ NoDup (reverse (kids cur) ++ kids q).
Proof using All.
  intros E'. destruct Hq as (Hqr & kq & Eq & Haq & Hwq).
  destruct (wf_kids _ _ _ _ Hwf q kq Hqr Eq Haq) as (Hch & Hnd & Hsp).
  destruct (wf_kids _ _ _ _ Hwf cur n Hcur Hm Halive) as (_ & Hnd' & Hsp').
  assert (Hdis : ∀ x, x ∈ kids q → x ∉ kids cur).
  { intros x (_ & _ & k1 & E1 & _ & P1)%Hsp (_ & _ & k2 & E2 & _ & P2)%Hsp'. congruence. }
  split.
  - destruct (moved_chain _ _ _ _ Hmoved kq (kids q)) as (k0 & E0 & Hc0); [|  |done|done|].
    + by rewrite lookup_insert_ne.
    + eapply chain_ext; [|exact Hch]. intros x Hx. unfold sibs.
      destruct (decide (x = cur)) as [->|]; [rewrite Hm, lookup_insert_eq; done|by rewrite lookup_insert_ne].
    + by simplify_eq.
  - apply NoDup_app. split; [by rewrite reverse_Permutation|]. split; [|done].
    intros x Hx Hx'. rewrite elem_of_reverse in Hx. exact (Hdis x Hx' Hx).
Qed.

Lemma wf_moved : wf_tree m' ring moving_kid_lists bound.
Proof using All.
  split.
  - eapply chain_ext; [|apply (wf_ring _ _ _ _ Hwf)]. intros x Hx.
    destruct (ring_lookup m ring kids bound Hwf x Hx) as [k Ek].
    destruct (moving_lookup x k Ek) as (k' & E' & En & _). unfold nexts. rewrite Ek, E'. cbn. by rewrite En.
  - apply (wf_ring_nodup _ _ _ _ Hwf).
  - intros p. rewrite <-(wf_dom _ _ _ _ Hwf p). split; intros [k Ek].
    + destruct (m !! p) eqn:E; [done|]. rewrite (moving_none p E) in Ek. done.
    + destruct (moving_lookup p k Ek) as (k' & -> & _). done.
  - apply (wf_keys _ _ _ _ Hwf).
  - intros p k' Hp E' Ha. destruct (moving_old p k' Hp E' Ha) as (Hpc & k & Ek & Hka & Hch).
    unfold moving_kid_lists. setoid_rewrite moving_children. destruct (decide (p = q)) as [->|Hpq].
    + destruct (moving_q_chain k' E') as [H1 H2]. split; [done|]. split; [done|]. intros c.
      rewrite elem_of_app, elem_of_reverse, moving_kids.
      rewrite (proj2 (proj2 (wf_kids _ _ _ _ Hwf q k Hp Ek Hka)) c). naive_solver.
    + destruct (wf_kids _ _ _ _ Hwf p k Hp Ek Hka) as (_ & Hnd & Hsp).
      rewrite Hch by done. split; [by apply moving_chain|]. split; [done|].
      intros c. rewrite Hsp. naive_solver.
  - intros p c [[-> _]|(_ & Hpc & Hx)]%moving_children; apply moving_living; [done|done|done|].
    by apply (wf_parent _ _ _ _ Hwf p c).
  - apply moving_living; [done|apply (wf_init _ _ _ _ Hwf)].
  - destruct (wf_idle _ _ _ _ Hwf) as (ni & Ei & Hw & Ha & Hp).
    destruct (moving_lookup _ ni Ei) as (k' & E' & _ & Ew & _ & Ep & _ & Ea). exists k'.
    split; [done|]. split; [congruence|]. rewrite decide_False in Ea.
    + split; [congruence|]. rewrite Ep, decide_False; [done|]. intros (_ & Hi & _)%moving_kids.
      by destruct (ring_not_null m ring kids bound Hwf _ Hi).
    + intros Hx. destruct (ring_not_null m ring kids bound Hwf cur Hcur). congruence.
  - intros p k' E' Hkw. destruct (m !! p) as [k|] eqn:Ek; [|by rewrite (moving_none p Ek) in E'].
    destruct (moving_lookup p k Ek) as (k0 & E0 & _ & Ew & _ & Ep & _).
    assert (k0 = k') as -> by congruence. rewrite Ep. destruct (decide _) as [Hk%moving_kids|].
    + destruct Hk as (_ & _ & k1 & E1 & Hk1 & _). congruence.
    + apply (wf_workers _ _ _ _ Hwf p k Ek). congruence.
  - pose proof (wf_self _ _ _ _ Hwf) as Hs.
    intros p [[-> [Hx%moving_kids|Hx]]|(_ & _ & Hx)]%moving_children; [done|by apply (Hs q)|by apply (Hs p)].
Qed.
End moving.

(** ** Removing a dead task *)

Section removing.
Context m ring kids bound (Hwf : wf_tree m ring kids bound).
Context (t : Z) (n : node).
Context (Ht : t ∈ ring) (Hti : t ≠ INIT_TASK) (Hm : m !! t = Some n) (Hdead : n_alive n = false).

(** Taking [t] out of a chain: its predecessor, or the head, now leads on. *)
Lemma chain_succ g p l a b : chain g p l b → NoDup l → a ∈ l → g a = Some t → t ≠ b →
  ∃ l1 l2, l = l1 ++ a :: t :: l2.
Proof using.
  clear. intros Hch Hnd Ha Eg Hb. destruct (nodup_split a l Ha Hnd) as (l1 & l2 & -> & _ & _).
  apply chain_app in Hch as (r & _ & Hc2). destruct Hc2 as (-> & y & Ey & Hc2). simplify_eq.
  destruct l2 as [|x l2]; cbn [chain] in Hc2; [done|]. destruct Hc2 as [-> _]. by exists l1, l2.
Qed.
Lemma chain_without g g' p l1 a l2 b y :
  chain g p (l1 ++ a :: t :: l2) b → NoDup (l1 ++ a :: t :: l2) → g t = Some y →
  (∀ x, x ≠ a → x ≠ t → g' x = g x) → g' a = Some y → chain g' p (l1 ++ a :: l2) b.
Proof using.
  clear. intros Hch Hnd Egt Ho Ega'.
  apply chain_app in Hch as (r & Hc1 & Hc2). destruct Hc2 as (-> & y1 & E1 & -> & y2 & E2 & Hc2).
  assert (y2 = y) as -> by congruence.
  apply NoDup_app in Hnd as (_ & Hd & Hn2). apply NoDup_cons in Hn2 as [Ha Hn2]. apply NoDup_cons in Hn2 as [Ht Hn2].
  apply chain_app. exists a. split; [|split; [done|exists y; split; [done|]]].
  - eapply chain_ext; [|exact Hc1]. intros x Hx. symmetry. apply Ho; intros ->; by apply (Hd _ Hx); set_solver.
  - eapply chain_ext; [|exact Hc2]. intros x Hx. symmetry. apply Ho; set_solver.
Qed.

Definition set_nxt (v : Z) (k : node) : node := mk_node v (n_sib k) (n_parent k) (n_child k) (n_kworker k) (n_alive k).

(** What gc_tasks does to the links: the ring first, then the siblings. *)
Context (p : Z) (np : node) (Hp : p ∈ ring) (Hmp : m !! p = Some np) (Hnext : n_next np = t).
Definition skip_next : gmap Z node := <[p := set_nxt (n_next n) np]> m.
Inductive unlinked (q : Z) (nq : node) : gmap Z node → Prop :=
| unlinked_head : n_child nq = t → unlinked q nq (<[q := set_chi (n_sib n) nq]> skip_next)
| unlinked_inner a na : n_child nq ≠ t → a ∈ kids q → skip_next !! a = Some na → n_sib na = t →
    unlinked q nq (<[a := set_sib (n_sib n) na]> skip_next).
Context (m2 : gmap Z node).
Context (Hm2 : if n_kworker n then m2 = skip_next
               else ∃ nq, skip_next !! n_parent n = Some nq ∧ unlinked (n_parent n) nq m2).

Lemma removing_pt : p ≠ t.
Proof using Hm Hmp Hnext Ht Hti Hwf.
  intros Hpt. rewrite Hpt in Hmp. assert (np = n) as Hnn by congruence. rewrite Hnn in Hnext.
  destruct (nodup_split t ring Ht (wf_ring_nodup _ _ _ _ Hwf)) as (l1 & l2 & E & H1 & H2).
  pose proof (wf_ring _ _ _ _ Hwf) as Hch. rewrite E in Hch. apply chain_app in Hch as (r & Hc1 & -> & y & Ey & Hc2).
  unfold nexts in Ey. rewrite Hm in Ey. cbn in Ey. injection Ey as <-. rewrite Hnext in Hc2.
  destruct (chain_head _ _ _ _ Hc2); [done|done].
Qed.
Lemma skip_lookup x k : m !! x = Some k → x ≠ p → skip_next !! x = Some k.
Proof using. clear. intros E ?. unfold skip_next. by rewrite lookup_insert_ne. Qed.
Lemma skip_lookup_p : skip_next !! p = Some (set_nxt (n_next n) np).
Proof using. unfold skip_next. by rewrite lookup_insert_eq. Qed.
Lemma skip_fields x k : m !! x = Some k → ∃ k', skip_next !! x = Some k' ∧
  n_next k' = (if decide (x = p) then n_next n else n_next k) ∧ n_sib k' = n_sib k ∧
  n_parent k' = n_parent k ∧ n_child k' = n_child k ∧ n_kworker k' = n_kworker k ∧ n_alive k' = n_alive k.
Proof using All.
  intros E. destruct (decide (x = p)) as [->|Hx].
  - rewrite Hmp in E. simplify_eq. eexists. split; [apply skip_lookup_p|]. by split_and!.
  - eexists. split; [by apply skip_lookup|]. by split_and!.
Qed.
(** The fields after the removal, but for the links between siblings. *)
Lemma removing_lookup x k : m !! x = Some k → ∃ k', m2 !! x = Some k' ∧
  n_next k' = (if decide (x = p) then n_next n else n_next k) ∧
  n_parent k' = n_parent k ∧ n_kworker k' = n_kworker k ∧ n_alive k' = n_alive k ∧
  (n_kworker n = true ∨ x ≠ n_parent n ∨ n_child k ≠ t → n_child k' = n_child k) ∧
  (n_kworker n = true ∨ x ∉ kids (n_parent n) ∨ n_sib k ≠ t → n_sib k' = n_sib k).
Proof using All.
  intros E. destruct (skip_fields x k E) as (k1 & E1 & F1 & F2 & F3 & F4 & F5 & F6).
  destruct (n_kworker n).
  { subst m2. exists k1. by split_and!. }
  destruct Hm2 as (nq & Eq & [Hc|a na Hc Ha Ea Es]).
  - destruct (decide (x = n_parent n)) as [->|Hx].
    + simplify_eq. eexists. split; [by rewrite lookup_insert_eq|]. cbn. split_and!; try done.
      intros [|[|]]; [done|done|]. congruence.
    + exists k1. rewrite lookup_insert_ne by done. by split_and!.
  - destruct (decide (x = a)) as [->|Hx].
    + simplify_eq. eexists. split; [by rewrite lookup_insert_eq|]. cbn. split_and!; try done.
      intros [|[|]]; [done|done|]. congruence.
    + exists k1. rewrite lookup_insert_ne by done. by split_and!.
Qed.
Lemma removing_none x : m !! x = None → m2 !! x = None.
Proof using All.
  intros E. assert (x ≠ p) by congruence. assert (E1 : skip_next !! x = None) by (unfold skip_next; by rewrite lookup_insert_ne).
  destruct (n_kworker n); [congruence|]. destruct Hm2 as (nq & Eq & [|a na ? ? Ea]);
    rewrite lookup_insert_ne; [done|congruence|done|congruence].
Qed.

Notation m3 := (delete t m2).
Lemma removed_lookup x k : x ≠ t → m !! x = Some k → ∃ k', m3 !! x = Some k' ∧
  n_next k' = (if decide (x = p) then n_next n else n_next k) ∧
  n_parent k' = n_parent k ∧ n_kworker k' = n_kworker k ∧ n_alive k' = n_alive k ∧
  (n_kworker n = true ∨ x ≠ n_parent n ∨ n_child k ≠ t → n_child k' = n_child k) ∧
  (n_kworker n = true ∨ x ∉ kids (n_parent n) ∨ n_sib k ≠ t → n_sib k' = n_sib k).
Proof using All. intros Hx E. rewrite lookup_delete_ne by done. by apply removing_lookup. Qed.

Lemma removed_ring : chain (nexts m3) INIT_TASK (without t ring) INIT_TASK.
Proof using All.
  pose proof (wf_ring _ _ _ _ Hwf) as Hch. pose proof (wf_ring_nodup _ _ _ _ Hwf) as Hnd.
  assert (Hnp : nexts m p = Some t) by (unfold nexts; rewrite Hmp; cbn; congruence).
  destruct (chain_succ _ _ _ _ _ Hch Hnd Hp Hnp Hti) as (l1 & l2 & E). rewrite E in Hch, Hnd |- *.
  assert (Eapp : ∀ l, l1 ++ p :: l = (l1 ++ [p]) ++ l) by (intros l; by rewrite <-app_assoc).
  assert (Hsplit : t ∉ l1 ++ [p] ∧ t ∉ l2).
  { rewrite Eapp in Hnd. apply NoDup_app in Hnd as (_ & Hd & Hn2).
    apply NoDup_cons in Hn2 as [? _]. split; [|done]. intros Hx. apply (Hd t Hx). set_solver. }
  assert (Hw : without t (l1 ++ p :: t :: l2) = l1 ++ p :: l2).
  { rewrite (Eapp (t :: l2)), (Eapp l2). destruct Hsplit. by apply without_split. }
  rewrite Hw. eapply (chain_without (nexts m) _ _ _ _ _ _ (n_next n)); [exact Hch|exact Hnd| | |].
  - unfold nexts. by rewrite Hm.
  - intros x Hxp Hxt. unfold nexts. destruct (m !! x) as [k|] eqn:Ex.
    + destruct (removed_lookup x k Hxt Ex) as (k' & E' & En & _). rewrite E'. cbn. rewrite En. by rewrite decide_False.
    + rewrite lookup_delete_ne by done. by rewrite (removing_none x Ex).
  - destruct (removed_lookup p np removing_pt Hmp) as (k' & E' & En & _). unfold nexts. rewrite E'. cbn.
    rewrite En. by rewrite decide_True.
Qed.

Lemma removed_children q c : child_of m3 (without t ring) q c ↔ c ≠ t ∧ child_of m ring q c.
Proof using All.
  unfold child_of. rewrite elem_of_without. split.
  - intros (Hi & [Hc Hct] & k' & E' & Hw & Hq). split; [done|]. split; [done|]. split; [done|].
    destruct (ring_lookup m ring kids bound Hwf c Hc) as [k Ek]. exists k. split; [done|].
    destruct (removed_lookup c k Hct Ek) as (k0 & E0 & _ & Fp & Fw & _). simplify_eq. split; congruence.
  - intros (Hct & Hi & Hc & k & Ek & Hw & Hq). split; [done|]. split; [done|].
    destruct (removed_lookup c k Hct Ek) as (k0 & E0 & _ & Fp & Fw & _). exists k0. split; [done|]. split; congruence.
Qed.
Lemma removed_living q : living m ring q → living m3 (without t ring) q.
Proof using All.
  intros (Hq & k & Ek & Ha & Hw). assert (Hqt : q ≠ t) by congruence. split; [by apply elem_of_without|].
  destruct (removed_lookup q k Hqt Ek) as (k0 & E0 & _ & _ & Fw & Fa & _). exists k0. split; [done|]. split; congruence.
Qed.

(** Away from the parent of [t] the lists stay. *)
Lemma removed_other_kids q k k' : q ∈ ring → q ≠ t → m !! q = Some k → n_alive k = true → t ∉ kids q →
  m3 !! q = Some k' → chain (sibs m3) (n_child k') (without t (kids q)) NULL.
Proof using All.
  intros Hq Hqt Ek Ha Htk E'. destruct (wf_kids _ _ _ _ Hwf q k Hq Ek Ha) as (Hch & _ & Hsp).
  destruct (ring_not_null m ring kids bound Hwf t Ht) as [Ht0 _].
  destruct (removed_lookup q k Hqt Ek) as (k0 & E0 & _ & _ & _ & _ & Fc & _). simplify_eq.
  rewrite Fc; [|right; right; intros Hx; rewrite Hx in Hch; by destruct (chain_head _ _ _ _ Hch)].
  rewrite without_id by done. eapply chain_ext; [|exact Hch]. intros x Hx.
  assert (Hxt : x ≠ t) by congruence.
  destruct (ring_lookup m ring kids bound Hwf x) as [kx Ex]; [by apply Hsp in Hx as (_ & ? & _)|].
  destruct (removed_lookup x kx Hxt Ex) as (k1 & E1 & _ & _ & _ & _ & _ & Fs).
  unfold sibs. rewrite Ex, E1. cbn. f_equal. symmetry. apply Fs. right. right. intros Es.
  destruct (chain_step _ _ _ _ x t Hch Hx); [unfold sibs; rewrite Ex; cbn; congruence|done|done].
Qed.
(** In the list of the parent, the successor of [a] is left out. *)
Lemma removed_inner_kids l h a na :
  chain (sibs m) h l NULL → NoDup l → (∀ c, c ∈ l → c ∈ ring) → t ∈ l → a ∈ l →
  skip_next !! a = Some na → n_sib na = t → m2 = <[a := set_sib (n_sib n) na]> skip_next →
  chain (sibs m3) h (without t l) NULL ∧ a ≠ t.
Proof using All.
  intros Hch Hnd Hsub Htk Hak Ea Es Em. destruct (ring_not_null m ring kids bound Hwf t Ht) as [Ht0 _].
  destruct (ring_lookup m ring kids bound Hwf a (Hsub a Hak)) as [ka Eka].
  destruct (skip_fields a ka Eka) as (k1 & E1 & _ & Fs & _). assert (k1 = na) as -> by congruence.
  assert (Hga : sibs m a = Some t) by (unfold sibs; rewrite Eka; cbn; congruence).
  destruct (chain_succ _ _ _ _ _ Hch Hnd Hak Hga Ht0) as (l1 & l2 & E).
  rewrite E in Hch, Hnd |- *.
  assert (Eapp : ∀ l, l1 ++ a :: l = (l1 ++ [a]) ++ l) by (intros l'; by rewrite <-app_assoc).
  assert (Hsplit : t ∉ l1 ++ [a] ∧ t ∉ l2).
  { rewrite Eapp in Hnd. apply NoDup_app in Hnd as (_ & Hd & Hn2).
    apply NoDup_cons in Hn2 as [? _]. split; [|done]. intros Hx. apply (Hd t Hx). set_solver. }
  assert (Hat : a ≠ t) by (intros ->; set_solver). split; [|done].
  rewrite (Eapp (t :: l2)), without_split, <-Eapp by apply Hsplit.
  eapply (chain_without (sibs m) _ _ _ _ _ _ (n_sib n)); [exact Hch|exact Hnd| | |].
  - unfold sibs. by rewrite Hm.
  - intros x Hxa Hxt. unfold sibs. rewrite lookup_delete_ne, Em, lookup_insert_ne by done.
    destruct (m !! x) as [kx|] eqn:Ex.
    + destruct (skip_fields x kx Ex) as (k2 & E2 & _ & F2 & _). rewrite E2. cbn. congruence.
    + unfold skip_next. by rewrite lookup_insert_ne, Ex by congruence.
  - unfold sibs. rewrite lookup_delete_ne, Em, lookup_insert_eq by done. done.
Qed.
Lemma removed_parent_kids q k k' : q ∈ ring → q ≠ t → m !! q = Some k → n_alive k = true → t ∈ kids q →
  m3 !! q = Some k' → chain (sibs m3) (n_child k') (without t (kids q)) NULL.
Proof using All.
  intros Hq Hqt Ek Ha Htk E'. destruct (wf_kids _ _ _ _ Hwf q k Hq Ek Ha) as (Hch & Hnd & Hsp).
  destruct (proj1 (Hsp t) Htk) as (_ & _ & n1 & En1 & Hw & Hpar). assert (n1 = n) as -> by congruence.
  pose proof Hm2 as Hm2'. rewrite Hw, Hpar in Hm2'. destruct Hm2' as (nq & Eq & Hun).
  destruct (skip_fields q k Ek) as (nq' & Eq' & _ & _ & _ & Fc & _). assert (nq' = nq) as -> by congruence.
  rewrite lookup_delete_ne in E' by done. inversion Hun as [Hc Em|a na Hc Hak Ea Es Em]; rewrite <-Em in E'.
  - rewrite lookup_insert_eq in E'. injection E' as <-. cbn [set_chi n_child].
    rewrite Fc in Hc. destruct (kids q) as [|x l]; [set_solver|]. destruct Hch as (Hx & y & Ey & Hch).
    assert (x = t) as -> by congruence. apply NoDup_cons in Hnd as [Hnt Hnd].
    unfold sibs in Ey. rewrite Hm in Ey. cbn in Ey. injection Ey as <-.
    assert (without t (t :: l) = l) as -> by (apply (without_split t [] l); set_solver).
    eapply chain_ext; [|exact Hch]. intros x Hxl.
    assert (x ≠ t) by congruence. unfold sibs. rewrite lookup_delete_ne by done.
    destruct (decide (x = q)) as [->|Hxq].
    + rewrite lookup_insert_eq, Ek. cbn. destruct (skip_fields q k Ek) as (k1 & E1 & _ & Fs & _). congruence.
    + rewrite lookup_insert_ne by done.
      destruct (ring_lookup m ring kids bound Hwf x) as [kx Ex]; [apply (Hsp x); set_solver|].
      destruct (skip_fields x kx Ex) as (k1 & E1 & _ & Fs & _). rewrite Ex, E1. cbn. congruence.
  - destruct (removed_inner_kids (kids q) (n_child k) a na) as [Hres Hat]; try done.
    { intros c. by apply (kids_in_ring m ring kids bound Hwf q c k). }
    assert (Fk : n_child k' = n_child k); [|by rewrite Fk, Em].
    destruct (decide (q = a)) as [->|].
    + rewrite lookup_insert_eq in E'. injection E' as <-. cbn. assert (na = nq) as -> by congruence. done.
    + rewrite lookup_insert_ne in E' by done. congruence.
Qed.

Lemma wf_removed : wf_tree m3 (without t ring) (λ q, without t (kids q)) bound.
Proof using All.
  split.
  - apply removed_ring.
  - apply NoDup_filter, (wf_ring_nodup _ _ _ _ Hwf).
  - intros q. rewrite elem_of_without. destruct (decide (q = t)) as [->|Hqt].
    { rewrite lookup_delete_eq. destruct (ring_not_null m ring kids bound Hwf t Ht). naive_solver. }
    pose proof (wf_dom _ _ _ _ Hwf q) as Hd. destruct (m !! q) as [k|] eqn:E.
    + destruct (removed_lookup q k Hqt E) as (k' & -> & _). naive_solver.
    + rewrite lookup_delete_ne, (removing_none q E) by done. naive_solver.
  - intros q [Hq _]%elem_of_without. by apply (wf_keys _ _ _ _ Hwf).
  - intros q k' [Hq Hqt]%elem_of_without E' Ha'. setoid_rewrite removed_children.
    destruct (ring_lookup m ring kids bound Hwf q Hq) as [k Ek].
    destruct (removed_lookup q k Hqt Ek) as (k0 & E0 & _ & _ & _ & Fa & _).
    assert (Ha : n_alive k = true) by congruence.
    destruct (wf_kids _ _ _ _ Hwf q k Hq Ek Ha) as (_ & Hnd & Hsp). split; [|split].
    + destruct (decide (t ∈ kids q)); [by apply (removed_parent_kids q k)|by apply (removed_other_kids q k)].
    + by apply NoDup_filter.
    + intros c. rewrite elem_of_without, Hsp. naive_solver.
  - intros q c [_ Hc]%removed_children. apply removed_living, (wf_parent _ _ _ _ Hwf q c Hc).
  - apply removed_living, (wf_init _ _ _ _ Hwf).
  - destruct (wf_idle _ _ _ _ Hwf) as (ni & Ei & Hw & Ha & Hpa).
    assert (Hit : IDLE_TASK ≠ t) by (intros Hx; by destruct (ring_not_null m ring kids bound Hwf t Ht)).
    destruct (removed_lookup _ ni Hit Ei) as (k & E & _ & Fp & Fw & Fa & _). exists k. split; [done|]. split; [congruence|]. split; congruence.
  - intros x k' E' Hkw. destruct (decide (x = t)) as [->|Hxt]; [by rewrite lookup_delete_eq in E'|].
    destruct (m !! x) as [k|] eqn:Ek; [|by rewrite lookup_delete_ne, (removing_none x Ek) in E'].
    destruct (removed_lookup x k Hxt Ek) as (k0 & E0 & _ & Fp & Fw & _). assert (k0 = k') as -> by congruence.
    rewrite Fp. apply (wf_workers _ _ _ _ Hwf x k Ek). congruence.
  - intros q [_ Hq]%removed_children. by apply (wf_self _ _ _ _ Hwf q).
Qed.
End removing.
