(* ===== verification/SchedTree.v ===== *)
(** * Every operation keeps the ring and the tree of tasks

    The invariant of TaskTree.v on the states of the kernel, and the proof that
    the operations of scheduler.c, signal.c and fd.c keep it.  Most of them do not
    touch the links at all ([framed]); fork and create_kworker insert a task,
    exit moves the children of a task, run_next removes the deleted ones. *)

From S2P Require Import Prelude Paging Vfs Pipe Net Udp Task Signal Fd Sched TaskTree.

Section inv.
Context {FS N : Type}.
#[local] Notation kernel := (kernel FS N).
Implicit Types (s : kernel) (T : gmap Z node).

Definition tree (s : kernel) : gmap Z node := node_of <$> tasks s.

(** The task tables are sound; with [W] the current task has not ended. *)
Definition W0 (s : kernel) : Prop := ∃ ring kids,
  wf_tree (tree s) ring kids (next_object s) ∧ rr_task s ∈ ring ∧
  (current_task s = IDLE_TASK ∨ current_task s ∈ ring).
Definition W (s : kernel) : Prop :=
  W0 s ∧ ∃ n, tree s !! current_task s = Some n ∧ n_alive n = true.

(** The part of the state that the invariant is about. *)
Definition framed T (c r b : Z) (s : kernel) : Prop :=
  tree s = T ∧ current_task s = c ∧ rr_task s = r ∧ b ≤ next_object s.

Lemma wf_tree_mono m ring kids b b' : b ≤ b' → wf_tree m ring kids b → wf_tree m ring kids b'.
Proof. intros Hb [H1 H2 H3 H4 H5 H6 H7 H8 H9 H10]. split; try done. intros p Hp. specialize (H4 p Hp). lia. Qed.
Lemma framed_W s s' : framed (tree s) (current_task s) (rr_task s) (next_object s) s' → W s → W s'.
Proof.
  intros (Ht & Hc & Hr & Hb) [(ring & kids & Hwf & H1 & H2) Ha]. split; [|by rewrite Ht, Hc].
  exists ring, kids. rewrite Ht, Hr, Hc. split; [by eapply wf_tree_mono|done].
Qed.
Lemma framed_W0 s s' : framed (tree s) (current_task s) (rr_task s) (next_object s) s' → W0 s → W0 s'.
Proof.
  intros (Ht & Hc & Hr & Hb) (ring & kids & Hwf & H1 & H2).
  exists ring, kids. rewrite Ht, Hr, Hc. split; [by eapply wf_tree_mono|done].
Qed.
Lemma framed_refl s : framed (tree s) (current_task s) (rr_task s) (next_object s) s.
Proof. by split_and!. Qed.
Lemma keeps_W {A} (m : K kernel A) : (∀ T c r b, keeps (framed T c r b) m) → keeps W m.
Proof. intros Hm s a s' Hs H. eapply framed_W; [|done]. eapply Hm; [apply framed_refl|done]. Qed.
Lemma keeps_W0 {A} (m : K kernel A) : (∀ T c r b, keeps (framed T c r b) m) → keeps W0 m.
Proof. intros Hm s a s' Hs H. eapply framed_W0; [|done]. eapply Hm; [apply framed_refl|done]. Qed.

(** ** Primitive steps *)

Lemma task_Done p s t s' : task p s = Done (t, s') → s' = s ∧ tasks s !! p = Some t.
Proof.
  unfold task, kget, mbind, K_bind. destruct (tasks s !! p) eqn:E; intros H; [|done].
  unfold kopt, mret, K_ret in H. by simplify_eq.
Qed.
Lemma update_task_Done p f s a s' : update_task p f s = Done (a, s') →
  ∃ t, tasks s !! p = Some t ∧ s' = set_tasks (<[p := f t]> (tasks s)) s.
Proof.
  unfold update_task. intros (t & s1 & [-> Ht]%task_Done & H)%K_bind_Done.
  unfold kmodify in H. simplify_eq. by exists t.
Qed.
Lemma update_task_run p f s t :
  tasks s !! p = Some t → update_task p f s = Done (tt, set_tasks (<[p := f t]> (tasks s)) s).
Proof. intros E. unfold update_task, task, kget, mbind, K_bind. rewrite E. done. Qed.
Lemma task_run s p t : tasks s !! p = Some t → task p s = Done (t, s).
Proof. intros E. unfold task, kget, mbind, K_bind. by rewrite E. Qed.
Lemma current_run s t : tasks s !! current_task s = Some t → current s = Done (t, s).
Proof. intros E. unfold current. erewrite K_bind_step by reflexivity. by apply task_run. Qed.
Lemma update_current_run f s t : tasks s !! current_task s = Some t →
  update_current f s = Done (tt, set_tasks (<[current_task s := f t]> (tasks s)) s).
Proof. intros E. unfold update_current. erewrite K_bind_step by reflexivity. by apply update_task_run. Qed.
Lemma tree_update s p t' : tree (set_tasks (<[p := t']> (tasks s)) s) = <[p := node_of t']> (tree s).
Proof. unfold tree, set_tasks. cbn [tasks]. by rewrite fmap_insert. Qed.
Lemma tree_lookup s p t : tasks s !! p = Some t → tree s !! p = Some (node_of t).
Proof. intros E. unfold tree. by rewrite lookup_fmap, E. Qed.

Lemma keeps_task T c r b p : keeps (framed T c r b) (task p).
Proof. intros s a s' Hs [-> _]%task_Done. done. Qed.
Lemma keeps_current T c r b : keeps (framed T c r b) current.
Proof. unfold current. keeps_step; [apply keeps_get|]. apply keeps_task. Qed.
(** An update that leaves the links alone, and the state alive or dead. *)
Lemma keeps_update_when T c r b p f :
  (∀ t, T !! p = Some (node_of t) → node_of (f t) = node_of t) → keeps (framed T c r b) (update_task p f).
Proof.
  intros Hf s a s' (Ht & Hc & Hr & Hb) (t & E & ->)%update_task_Done. split_and!; try done.
  rewrite tree_update, Hf, Ht by (rewrite <-Ht; by apply tree_lookup).
  apply insert_id. rewrite <-Ht. by apply tree_lookup.
Qed.
Lemma keeps_update T c r b p f : (∀ t, node_of (f t) = node_of t) → keeps (framed T c r b) (update_task p f).
Proof. intros Hf. by apply keeps_update_when. Qed.
Lemma keeps_update_current T c r b f :
  (∀ t, node_of (f t) = node_of t) → keeps (framed T c r b) (update_current f).
Proof. intros Hf. unfold update_current. keeps_step; [apply keeps_get|]. by apply keeps_update. Qed.
Lemma keeps_modify_rest T c r b (f : kernel → kernel) :
  (∀ s, tasks (f s) = tasks s ∧ current_task (f s) = current_task s ∧ rr_task (f s) = rr_task s ∧
    next_object s ≤ next_object (f s)) → keeps (framed T c r b) (kmodify f).
Proof.
  intros Hf. apply keeps_modify. intros s (Ht & Hc & Hr & Hb). destruct (Hf s) as (H1 & H2 & H3 & H4).
  unfold framed, tree. rewrite H1, H2, H3. split_and!; try done. lia.
Qed.
Lemma keeps_lift_tables T c r b {A} (m : K paging A) : keeps (framed T c r b) (lift_tables m).
Proof.
  intros s a s' Hs H. unfold lift_tables in H. destruct (m (tables s)) as [[x p]| | |]; simplify_eq. apply Hs.
Qed.
Lemma keeps_lift_net T c r b {A} (m : K (net N) A) : keeps (framed T c r b) (lift_net m).
Proof.
  intros s a s' Hs H. unfold lift_net in H. destruct (m (network s)) as [[x p]| | |]; simplify_eq. apply Hs.
Qed.
Lemma keeps_lift_vfs T c r b {A} (m : K (vfs FS) A) : keeps (framed T c r b) (lift_vfs m).
Proof.
  unfold lift_vfs. keeps_step; [apply keeps_current|]. keeps_step.
  { intros s x s' Hs H. destruct (m _) as [[y v]| | |]; simplify_eq. apply Hs. }
  keeps_step; [apply keeps_get|]. keeps_step; [by apply keeps_update_current|apply keeps_ret].
Qed.
Lemma keeps_ring_loop P {A} (body : Z → A → K kernel A) stop :
  (∀ p a, keeps P (body p a)) → (∀ p, keeps P (task p)) →
  ∀ fuel p a, keeps P (ring_loop fuel p body stop a).
Proof.
  intros Hb Ht. induction fuel as [|fuel IH]; intros p a; cbn [ring_loop]; [apply keeps_fail|].
  keeps_step; [apply Hb|]. keeps_step; [apply keeps_ret|]. keeps_step; [apply Ht|].
  keeps_step; [apply keeps_ret|apply IH].
Qed.
Lemma keeps_for_tasks T c r b {A} (body : Z → A → K kernel A) stop a :
  (∀ p a, keeps (framed T c r b) (body p a)) → keeps (framed T c r b) (for_tasks body stop a).
Proof.
  intros Hb. unfold for_tasks. keeps_step; [apply keeps_get|]. apply keeps_ring_loop; [done|intros; apply keeps_task].
Qed.
End inv.
#[export] Hint Resolve keeps_task keeps_current keeps_lift_tables keeps_lift_net keeps_lift_vfs : keeps.

(** Steps on single fields leave the frame alone by computation. *)
Ltac framed_step :=
  match goal with
  | |- keeps (framed _ _ _ _) (kmodify _) => apply keeps_modify_rest; intros ?; cbn; split_and!; (done || lia)
  | |- keeps (framed _ _ _ _) (update_task _ _) => apply keeps_update; intros ?; reflexivity
  | |- keeps (framed _ _ _ _) (update_current _) => apply keeps_update_current; intros ?; reflexivity
  | |- keeps (framed _ _ _ _) (for_tasks _ _ _) => apply keeps_for_tasks; intros ? ?
  | |- keeps _ _ => keeps_step
  end.
Ltac framed_tac := repeat framed_step; auto with keeps nocore.

(** ** Open files and signals leave the frame alone *)

Section framed.
Context {FS N : Type}.
#[local] Notation kernel := (kernel FS N).
Context (T : gmap Z node) (c r b : Z).
#[local] Notation F := (framed (FS:=FS) (N:=N) T c r b).

Lemma keeps_lookup_fd n : keeps F (lookup_fd n).
Proof. unfold lookup_fd. framed_tac. Qed.
Hint Resolve keeps_lookup_fd : keeps.
Lemma keeps_with_fd {A} (bad : A) n k : (∀ i d, keeps F (k i d)) → keeps F (with_fd bad n k).
Proof. intros Hk. unfold with_fd. framed_tac. Qed.
Lemma keeps_remove_pipe_end f p : keeps F (remove_pipe_end f p).
Proof. unfold remove_pipe_end, deref_pipe. framed_tac. Qed.
Lemma keeps_close_socket p : keeps F (close_socket p).
Proof. unfold close_socket, deref_socket. framed_tac. Qed.
Hint Resolve keeps_remove_pipe_end keeps_close_socket : keeps.
Lemma keeps_update_description i f : keeps F (update_description i f).
Proof. unfold update_description. framed_tac. Qed.
Hint Resolve keeps_update_description : keeps.
Lemma keeps_close_file_description i : keeps F (close_file_description i).
Proof. unfold close_file_description. framed_tac. Qed.
Hint Resolve keeps_close_file_description : keeps.
Lemma keeps_fd_close n : keeps F (fd_close n).
Proof. unfold fd_close, drop_description. apply keeps_with_fd. intros i d. framed_tac. Qed.
Hint Resolve keeps_fd_close : keeps.
Lemma keeps_release : keeps F release_process_fds.
Proof.
  unfold release_process_fds. generalize 0. induction MAX_FDS as [|n IH]; intros i; cbn [close_all]; framed_tac.
Qed.
Lemma keeps_share_fds n i t : keeps F (share_fds n i t).
Proof. revert i. induction n as [|n IH]; intros i; cbn [share_fds]; unfold share; framed_tac. Qed.

(** Stopping a task that has ended would bring it back to life. *)
Definition stops (sig : Z) : Prop := signal_default_actions sig = SIGNAL_STOP.
Lemma keeps_notify_parent p : keeps F (notify_parent p).
Proof. unfold notify_parent. framed_tac. Qed.
Hint Resolve keeps_notify_parent : keeps.
Lemma keeps_task_bind {A} p (k : task_t → K kernel A) :
  (∀ t, T !! p = Some (node_of t) → keeps F (k t)) → keeps F (task p ≫= k).
Proof.
  intros Hk s a s' Hs (t & s1 & [-> Ht]%task_Done & H)%K_bind_Done. eapply (Hk t); [|exact Hs|exact H].
  destruct Hs as [<- _]. by apply tree_lookup.
Qed.
(** A change of state among those of a task that has not ended. *)
Lemma keeps_update_alive p f :
  (∀ n, T !! p = Some n → n_alive n = true) →
  (∀ t, alive (state t) = true → node_of (f t) = node_of t) → keeps F (update_task p f).
Proof. intros Ha Hf. apply keeps_update_when. intros t Ht. apply Hf. by apply (Ha _ Ht). Qed.

Lemma keeps_signal_task p sig :
  (stops sig → ∀ n, T !! p = Some n → n_alive n = true) → keeps F (signal_task p sig).
Proof.
  intros Hs. unfold signal_task. keeps_step; [framed_tac|].
  apply keeps_task_bind. intros t Ht. keeps_step.
  - destruct (bool_decide_reflect (signal_default_actions sig = SIGNAL_STOP)) as [Est|]; cbn [andb]; [|apply keeps_ret].
    keeps_step; [|framed_tac]. keeps_step; [|framed_tac].
    apply keeps_update_alive; [by apply Hs|]. intros t' Ha. unfold node_of. cbn. by rewrite Ha.
  - apply keeps_task_bind. intros t' Ht'. destruct (sig =? SIGCONT); cbn [andb]; [|apply keeps_ret].
    destruct (bool_decide_reflect (state t' = STATE_STOPPED)) as [Est|].
    + keeps_step; [|framed_tac]. apply keeps_update_alive.
      * intros n Hn. rewrite Ht' in Hn. injection Hn as <-. cbn. by rewrite Est.
      * intros t1 Ha. unfold node_of. cbn. by rewrite Ha.
    + apply keeps_ret.
Qed.

(** A signal that stops tasks must not reach a zombie. *)
Definition no_zombie (f : Z → task_t → bool) (s : kernel) : Prop :=
  ∀ p t, tasks s !! p = Some t → f p t = true → state t ≠ STATE_ZOMBIE.
Definition by_ids (f : Z → task_t → bool) : Prop := ∀ p t t', ids t = ids t' → f p t = f p t'.
Lemma keeps_no_zombie f p g :
  by_ids f → (∀ t, ids (g t) = ids t ∧ (state (g t) = state t ∨ state (g t) ≠ STATE_ZOMBIE)) →
  keeps (no_zombie f) (update_task p g).
Proof.
  intros Hf Hg s a s' Hs (t & Et & ->)%update_task_Done q t' E Hq. cbn [tasks set_tasks] in E.
  destruct (decide (q = p)) as [->|].
  - rewrite lookup_insert_eq in E. injection E as <-. destruct (Hg t) as [Hi [Hst|]]; [|done]. rewrite Hst.
    apply (Hs p t Et). by rewrite <-(Hf p (g t) t).
  - rewrite lookup_insert_ne in E by done. by apply (Hs q t').
Qed.
Lemma keeps_signal_no_zombie f p sig : by_ids f → keeps (no_zombie f) (signal_task p sig).
Proof.
  intros Hf. assert (Ht : ∀ q, keeps (no_zombie f) (task (FS:=FS) (N:=N) q)) by (intros q s a s' Hs [-> _]%task_Done; done).
  unfold signal_task, notify_parent.
  repeat first [apply Ht | apply (keeps_no_zombie f); [exact Hf|intros t; split; [done|first [left; reflexivity|right; discriminate]]] | keeps_step].
Qed.
Lemma keeps_and {A} (P Q : kernel → Prop) (m : K kernel A) :
  keeps P m → keeps Q m → keeps (λ s, P s ∧ Q s) m.
Proof. intros HP HQ s a s' [H1 H2] H. split; [by eapply HP|by eapply HQ]. Qed.

Lemma keeps_signal_matching f sig s a s' :
  by_ids f → F s → (stops sig → no_zombie f s) → signal_matching f sig s = Done (a, s') → F s'.
Proof.
  intros Hf HF Hz H. destruct (decide (stops sig)) as [Hs|Hs].
  - enough (F s' ∧ no_zombie f s') as [? _] by done. specialize (Hz Hs).
    assert (HP : (λ s, F s ∧ no_zombie f s) s) by done. revert HP H. clear HF Hz. generalize s a s'.
    change (keeps (λ s, F s ∧ no_zombie f s) (signal_matching f sig)). unfold signal_matching, for_tasks.
    keeps_step; [apply keeps_get|]. apply keeps_ring_loop.
    + intros p found s1 y s2 [HF Hz] (t & s3 & [-> Et]%task_Done & H)%K_bind_Done. revert H.
      destruct (f p t && bool_decide (state t ≠ STATE_DELETED)) eqn:Ec; intros H.
      * apply andb_true_iff in Ec as [Ef Ed%bool_decide_eq_true]. apply K_bind_Done in H as ([] & s4 & H4 & H).
        unfold mret, K_ret in H. injection H as _ <-. split.
        -- eapply (keeps_signal_task p sig); [|exact HF|exact H4]. intros _ n Hn. destruct HF as [<- _].
           rewrite (tree_lookup _ _ _ Et) in Hn. injection Hn as <-. pose proof (Hz p t Et Ef) as Hnz. cbn.
           by destruct (state t).
        -- eapply keeps_signal_no_zombie; [exact Hf|exact Hz|exact H4].
      * unfold mret, K_ret in H. by injection H as _ <-.
    + intros p. apply keeps_and; [apply keeps_task|]. intros s1 y s2 Hz [-> _]%task_Done. done.
  - assert (Hk : keeps F (signal_matching f sig)); [|by eapply Hk].
    unfold signal_matching. framed_tac. by apply keeps_signal_task.
Qed.
Lemma selects_by_ids k q t : by_ids (selects k q t).
Proof. intros p t1 t2 H. unfold selects. by rewrite H. Qed.
Lemma framed_kill k sig s a s' : F s →
  (stops sig → ∀ t, tasks s !! current_task s = Some t → no_zombie (selects k (current_task s) t) s) →
  kill k sig s = Done (a, s') → F s'.
Proof.
  intros HF Hz H. unfold kill in H. destruct (_ || _); [unfold mret, K_ret in H; by injection H as _ <-|].
  bind_get H.
  apply K_bind_Done in H as (t & s1 & Hc & H).
  assert (s1 = s ∧ tasks s !! current_task s = Some t) as [-> Ec].
  { unfold current in Hc. bind_get Hc.
    by apply task_Done in Hc. }
  apply K_bind_Done in H as (found & s2 & H & Hr). unfold mret, K_ret in Hr. injection Hr as _ <-.
  eapply keeps_signal_matching; [apply selects_by_ids|exact HF| |exact H]. intros Hs. by apply Hz.
Qed.
Lemma keeps_raise sig : (∀ n, T !! c = Some n → n_alive n = true) → keeps F (raise sig).
Proof.
  intros Hs. unfold raise. keeps_step; [framed_tac|]. intros s a s' HF H.
  apply K_bind_Done in H as (s0 & s1 & Hg & H). unfold kget in Hg. injection Hg as <- <-.
  assert (Hc : current_task s = c) by apply HF. rewrite Hc in H. revert HF H.
  generalize s a s'. change (keeps F (signal_task c sig;; mret 0)). keeps_step; [|framed_tac].
  apply keeps_signal_task. intros _. exact Hs.
Qed.
Lemma keeps_sigprocmask how set oldset : keeps F (sigprocmask how set oldset).
Proof. unfold sigprocmask. framed_tac. Qed.
Lemma keeps_sigaction sig new old : keeps F (sigaction sig new old).
Proof. unfold sigaction. framed_tac. Qed.
Lemma keeps_call_handler sig h : keeps F (call_handler sig h).
Proof. unfold call_handler. framed_tac. Qed.

(** ** Processes *)

Lemma keeps_resume : keeps F resume.
Proof. unfold resume, restore_fpu. framed_tac. Qed.
Lemma keeps_save_fpu : keeps F save_fpu.
Proof. unfold save_fpu. framed_tac. Qed.
Lemma keeps_find_sibling fuel p f : keeps F (find_sibling fuel p f).
Proof. revert p. induction fuel as [|fuel IH]; intros p; cbn [find_sibling]; framed_tac. Qed.
Hint Resolve keeps_find_sibling : keeps.
Lemma keeps_get_child p k : keeps F (get_child p k).
Proof. unfold get_child. framed_tac. Qed.
Lemma keeps_get_target p o : keeps F (get_first_waitpid_target p o).
Proof. unfold get_first_waitpid_target. framed_tac. Qed.
Hint Resolve keeps_get_child keeps_get_target : keeps.

(** Only a zombie is deleted. *)
Lemma keeps_report p ws e :
  (e = WExited → ∀ n, T !! p = Some n → n_alive n = false) → keeps F (report p ws e).
Proof.
  intros Hz. unfold report. keeps_step; [framed_tac|]. keeps_step; [framed_tac|].
  apply keeps_update_when. intros t Ht. destruct e; [|done..].
  specialize (Hz eq_refl _ Ht). unfold node_of in *. cbn in *. by rewrite Hz.
Qed.
Lemma event_exited o t : event_of o t = Some WExited → alive (state t) = false.
Proof. unfold event_of. repeat case_match; try done. intros _. by destruct (state t). Qed.

Lemma keeps_unblock p : (∀ n, T !! p = Some n → n_alive n = true) → keeps F (unblock p).
Proof. intros Ha. apply keeps_update_alive; [done|]. intros t Hal. unfold node_of. cbn. by rewrite Hal. Qed.
Lemma keeps_set_result p v : keeps F (set_result p v).
Proof. unfold set_result. framed_tac. Qed.
Hint Resolve keeps_unblock keeps_set_result : keeps.
Lemma keeps_in_space {A} p (m : K kernel A) : keeps F m → keeps F (in_space p m).
Proof. intros Hm. unfold in_space. framed_tac. Qed.
Lemma keeps_report_any p q e :
  (e = WExited → ∀ n, T !! q = Some n → n_alive n = false) → keeps F (report_any p q e).
Proof.
  intros Hz. unfold report_any. framed_tac; by apply keeps_report.
Qed.
Lemma keeps_check p reduce : keeps F (check_blocked_task reduce p).
Proof.
  unfold check_blocked_task. apply keeps_task_bind. intros t Ht.
  destruct (bool_decide_reflect (state t = STATE_BLOCKED)) as [Est|]; cbn [negb]; [|apply keeps_ret].
  assert (Ha : ∀ n, T !! p = Some n → n_alive n = true).
  { intros n Hn. rewrite Ht in Hn. injection Hn as <-. cbn. by rewrite Est. }
  assert (Hev : ∀ q (t' : task_t) o e, T !! q = Some (node_of t') → event_of o t' = Some e →
    e = WExited → ∀ n, T !! q = Some n → n_alive n = false).
  { intros q t' o e Hq He -> n Hn. rewrite Hq in Hn. injection Hn as <-. by apply event_exited in He. }
  destruct (block_reason (wait t)); [apply keeps_ret| |destruct (_ =? NULL)].
  - unfold check_delay. framed_tac.
  - unfold check_wait_any. keeps_step; [framed_tac|]. keeps_step; [framed_tac|]. keeps_step; [framed_tac|].
    keeps_step; [|framed_tac]. apply keeps_in_space, keeps_task_bind. intros t' Ht'.
    destruct (event_of _ t') as [e|] eqn:Ee; [|apply keeps_ret]. keeps_step; [|apply keeps_ret].
    apply keeps_report_any. by eapply Hev.
  - unfold check_wait_child. keeps_step; [framed_tac|]. keeps_step; [|framed_tac].
    apply keeps_in_space, keeps_task_bind. intros t' Ht'.
    destruct (event_of _ t') as [e|] eqn:Ee; [|apply keeps_ret]. keeps_step; [|apply keeps_ret].
    apply keeps_report. by eapply Hev.
Qed.
Lemma keeps_check_blocked_tasks reduce : keeps F (check_blocked_tasks reduce).
Proof. unfold check_blocked_tasks. apply keeps_for_tasks. intros p a. apply keeps_check. Qed.
Lemma keeps_find_task f : keeps F (find_task f).
Proof. unfold find_task. framed_tac. Qed.
Hint Resolve keeps_find_task : keeps.
Lemma keeps_setpgid k g : keeps F (setpgid k g).
Proof. unfold setpgid. framed_tac. Qed.
Lemma keeps_setsid : keeps F setsid.
Proof. unfold setsid. framed_tac. Qed.
End framed.
