(* ===== verification/SchedLinks.v ===== *)
(** * Fork, exit and the collection of deleted tasks

    The operations that change the links, proved against the lemmas of
    TaskTree.v, and the invariant over all operations of the scheduler. *)

From S2P Require Import Prelude Paging Vfs Pipe Net Udp Task Signal Fd Sched TaskTree SchedTree.

#[export] Hint Resolve keeps_lookup_fd keeps_remove_pipe_end keeps_close_socket keeps_update_description
  keeps_close_file_description keeps_fd_close keeps_release keeps_share_fds keeps_notify_parent keeps_raise
  keeps_sigprocmask keeps_sigaction keeps_call_handler keeps_resume keeps_save_fpu keeps_find_sibling
  keeps_get_child keeps_get_target keeps_unblock keeps_set_result keeps_check_blocked_tasks keeps_setpgid
  keeps_setsid keeps_find_task : keeps.

Section links.
Context {FS N : Type}.
#[local] Notation kernel := (kernel FS N).
Implicit Types (s : kernel).

(** What an operation on the links leaves alone. *)
Definition same_rest s s' : Prop :=
  current_task s' = current_task s ∧ rr_task s' = rr_task s ∧ next_object s' = next_object s.

Lemma current_Done s t s' : current s = Done (t, s') → s' = s ∧ tasks s !! current_task s = Some t.
Proof.
  unfold current. intros (x & s1 & Hg & H)%K_bind_Done. unfold kget in Hg. injection Hg as <- <-.
  by apply task_Done.
Qed.
Lemma update_current_Done f s a s' : update_current f s = Done (a, s') →
  ∃ t, tasks s !! current_task s = Some t ∧ s' = set_tasks (<[current_task s := f t]> (tasks s)) s.
Proof.
  unfold update_current. intros (x & s1 & Hg & H)%K_bind_Done. unfold kget in Hg. injection Hg as <- <-.
  by eapply update_task_Done.
Qed.

(** ** Reparenting *)

Lemma reparent_step c q s a s' fuel :
  c ≠ NULL → c ≠ q → reparent (S fuel) c q s = Done (a, s') →
  ∃ nc np s1, tree s !! c = Some nc ∧ tree s !! q = Some np ∧ same_rest s s1 ∧
    tree s1 = <[q := set_chi c np]> (<[c := set_sib (n_child np) (set_par q nc)]> (tree s)) ∧
    reparent fuel (n_sib nc) q s1 = Done (a, s').
Proof.
  intros Hc Hcq H. cbn [reparent] in H. destruct (Z.eqb_spec c NULL); [done|].
  apply K_bind_Done in H as (tc & ? & [-> Etc]%task_Done & H).
  apply K_bind_Done in H as (? & s1 & (t1 & E1 & ->)%update_task_Done & H).
  assert (t1 = tc) as -> by congruence.
  apply K_bind_Done in H as (tq & ? & [-> Eq]%task_Done & H). cbn [tasks set_tasks] in Eq.
  rewrite lookup_insert_ne in Eq by done.
  apply K_bind_Done in H as (? & s2 & (t2 & E2 & ->)%update_task_Done & H). cbn [tasks set_tasks] in *.
  rewrite lookup_insert_eq in E2. injection E2 as <-.
  apply K_bind_Done in H as (? & s3 & (t3 & E3 & ->)%update_task_Done & H). cbn [tasks set_tasks] in *.
  rewrite !lookup_insert_ne in E3 by done. assert (t3 = tq) as -> by congruence.
  exists (node_of tc), (node_of tq). eexists. split; [by apply tree_lookup|]. split; [by apply tree_lookup|].
  split; [|split; [|exact H]]; [done|]. unfold tree. cbn [tasks set_tasks]. rewrite !fmap_insert. f_equal.
  by rewrite insert_insert_eq.
Qed.
Lemma reparent_moved q l : ∀ fuel c s a s',
  reparent fuel c q s = Done (a, s') → chain (sibs (tree s)) c l NULL → NoDup l → q ∉ l → NULL ∉ l →
  is_Some (tree s !! q) → moved q l (tree s) (tree s') ∧ same_rest s s'.
Proof.
  induction l as [|x l IH]; intros fuel c s a s' H Hch Hnd Hq Hn [kq Hkq].
  - cbn [chain] in Hch. subst c. assert (s' = s) as ->.
    { destruct fuel; cbn [reparent] in H; rewrite Z.eqb_refl in H; unfold mret, K_ret in H; by simplify_eq. }
    split; [by eapply moved_nil|done].
  - destruct Hch as (-> & y & Ey & Hch). apply NoDup_cons in Hnd as [Hxl Hnd].
    destruct fuel as [|fuel].
    { cbn [reparent] in H. destruct (Z.eqb_spec x NULL); [set_solver|done]. }
    destruct (reparent_step x q s a s' fuel) as (nc & np & s1 & Ec & Ep & Hr & Et & H1); [set_solver..|done|].
    assert (y = n_sib nc) as -> by (unfold sibs in Ey; rewrite Ec in Ey; cbn in Ey; congruence).
    destruct (IH fuel (n_sib nc) s1 a s' H1) as [Hm Hr'].
    + eapply chain_ext; [|exact Hch]. intros z Hz. unfold sibs. rewrite Et.
      destruct (decide (z = q)) as [->|]; [set_solver|]. rewrite lookup_insert_ne by done.
      rewrite lookup_insert_ne; [done|]. intros ->. set_solver.
    + done.
    + set_solver.
    + set_solver.
    + rewrite Et, lookup_insert_eq. done.
    + split; [|destruct Hr as (?&?&?), Hr' as (?&?&?); split_and!; congruence].
      eapply moved_cons; [set_solver|done|set_solver|exact Ec|exact Ep|]. by rewrite <-Et.
Qed.

(** ** Exit *)

Lemma set_dead_tree t : state t = STATE_ZOMBIE ∨ state t = STATE_DELETED → n_alive (node_of t) = false.
Proof. cbn. by intros [->| ->]. Qed.

(** Marking a task as ended, on the tree. *)
Lemma tree_end s t f :
  tasks s !! current_task s = Some t →
  (∀ t, node_of (f t) = set_dead (node_of t)) →
  tree (set_tasks (<[current_task s := f t]> (tasks s)) s) = <[current_task s := set_dead (node_of t)]> (tree s).
Proof. intros E Hf. by rewrite tree_update, Hf. Qed.
Lemma dead_chain T c n h l q :
  T !! c = Some n → chain (sibs T) h l q → chain (sibs (<[c := set_dead n]> T)) h l q.
Proof.
  intros Hc. apply chain_ext. intros x _. unfold sibs. destruct (decide (x = c)) as [->|].
  - by rewrite lookup_insert_eq, Hc.
  - by rewrite lookup_insert_ne.
Qed.
(** The idle task and the kernel workers hang below NULL, which is no task. *)
Lemma worker_no_parent s ring kids b p n :
  wf_tree (tree s) ring kids b → tree s !! p = Some n → n_kworker n = true → tasks s !! n_parent n = None.
Proof.
  intros Hwf Hn Hw. rewrite (wf_workers _ _ _ _ Hwf p n Hn Hw). destruct (tasks s !! NULL) as [t|] eqn:E; [|done].
  apply tree_lookup in E. destruct (proj1 (wf_dom _ _ _ _ Hwf NULL) ltac:(by eexists)) as [|Hx]; [done|].
  by destruct (ring_not_null _ _ _ _ Hwf _ Hx).
Qed.

(** A task [c] ends and its children have gone to [q]. *)
Lemma moved_ends T c n b q ring kids m' :
  wf_tree T ring kids b → c ∈ ring → c ≠ INIT_TASK → T !! c = Some n → n_alive n = true →
  living T ring q → q ≠ c → q ∉ kids c →
  moved q (kids c) (<[c := set_dead n]> T) m' → ∃ kids', wf_tree m' ring kids' b.
Proof.
  intros Hwf Hc Hi Hn Ha Hq Hqc Hqk Hm. eexists.
  eapply (wf_moved T ring kids _ Hwf c q n _ Hc Hn Ha Hi Hq Hqc Hqk Hm).
  destruct Hq as (Hqr & k & Hk & Hka & _).
  intros Hx%(wf_kids _ _ _ _ Hwf q k Hqr Hk Hka). by apply (wf_self _ _ _ _ Hwf q).
Qed.
(** The same for the loop of the code, run after [c] was marked. *)
Lemma reparent_ends T c n b q ring kids s a s' :
  wf_tree T ring kids b → c ∈ ring → c ≠ INIT_TASK → T !! c = Some n → n_alive n = true →
  living T ring q → q ≠ c → q ∉ kids c →
  framed (<[c := set_dead n]> T) c (rr_task s) b s → rr_task s ∈ ring →
  (t ← current; s ← kget; reparent (size (tasks s)) (child (links t)) q) s = Done (a, s') → W0 s'.
Proof.
  intros Hwf Hc Hi Hn Ha Hq Hqc Hqk (Ht & Hcs & _ & Hb) Hr H.
  apply K_bind_Done in H as (t & ? & [-> Et]%current_Done & H). bind_get H.
  destruct (wf_kids _ _ _ _ Hwf _ _ Hc Hn Ha) as (Hch & Hnd & Hsp).
  assert (Hchild : child (links t) = n_child n).
  { apply tree_lookup in Et. rewrite Ht, Hcs, lookup_insert_eq in Et. injection Et as ? ? ? Hx ? ?. done. }
  rewrite Hchild in H.
  assert (Hnull : NULL ∉ kids c).
  { intros (_ & Hx' & _)%Hsp. by destruct (ring_not_null _ _ _ _ Hwf _ Hx'). }
  destruct (reparent_moved q (kids c) _ _ _ _ _ H) as [Hm (Hc4 & Hr4 & Hb4)]; try done.
  - rewrite Ht. by apply dead_chain.
  - rewrite Ht. destruct Hq as (_ & k & Hk & _). rewrite lookup_insert_ne by done. by eexists.
  - rewrite Ht in Hm. destruct (moved_ends _ _ _ _ _ _ _ _ Hwf Hc Hi Hn Ha Hq Hqc Hqk Hm) as [kids' Hwf'].
    exists ring, kids'. rewrite Hc4, Hr4, Hcs, Hb4. split; [by eapply wf_tree_mono|by auto].
Qed.

Lemma exit_ends s ret a s1 s2 s' :
  W s → current_task s ≠ INIT_TASK →
  release_process_fds s = Done (a, s1) →
  update_current (λ t, with_status (set_return_code ret) (set_state STATE_ZOMBIE t)) s1 = Done (a, s2) →
  (t ← current; update_task (parent (links t)) (add_pending (SIGCHLD - 1));;
   t ← current; s ← kget; reparent (size (tasks s)) (child (links t)) INIT_TASK) s2 = Done (tt, s') →
  W0 s'.
Proof.
  intros HW Hi H1 H2 H3.
  assert (HF : framed (tree s) (current_task s) (rr_task s) (next_object s) s1)
    by (eapply (keeps_release _ _ _ _); [apply framed_refl|exact H1]).
  assert (HW1 : W s1) by (eapply framed_W; done). destruct HF as (_ & Hc1 & _). rewrite <-Hc1 in Hi.
  clear H1 HW Hc1 s. destruct HW1 as [(ring & kids & Hwf & Hr & Hc) (n & Hn & Ha)].
  apply update_current_Done in H2 as (t & Et & ->).
  pose proof (tree_end s1 t (λ t, with_status (set_return_code ret) (set_state STATE_ZOMBIE t)) Et (λ _, eq_refl)) as Htree.
  cbv beta in Htree. pose proof (tree_lookup _ _ _ Et) as Htn.
  assert (n = node_of t) as -> by congruence. clear Htn.
  set (s2 := set_tasks _ s1) in *.
  apply K_bind_Done in H3 as (t2 & ? & [-> Et2]%current_Done & H).
  cbn [s2 tasks set_tasks current_task] in Et2. rewrite lookup_insert_eq in Et2. injection Et2 as <-.
  apply K_bind_Done in H as (? & s3 & Hu & H).
  assert (Hnidle : current_task s1 ∈ ring).
  { destruct Hc as [Hc|]; [|done]. apply update_task_Done in Hu as (tp & Ep & _).
    destruct (wf_idle _ _ _ _ Hwf) as (ni & Ei & Hkw & _). rewrite Hc in Hn. assert (node_of t = ni) as Eni by congruence.
    rewrite <-Eni in Ei, Hkw.
    pose proof (worker_no_parent s1 ring kids _ _ _ Hwf Ei Hkw) as Hnone. cbn in Ep, Hnone. rewrite Hc in Ep.
    rewrite lookup_insert_ne in Ep; [congruence|]. intros Hx. rewrite <-Hx in Hnone. congruence. }
  assert (HF3 : framed (tree s2) (current_task s2) (rr_task s2) (next_object s2) s3)
    by (refine (keeps_update _ _ _ _ _ (add_pending (SIGCHLD - 1)) _ s2 _ s3 (framed_refl s2) Hu); done).
  assert (Hr3 : rr_task s3 = rr_task s1) by apply HF3.
  eapply (reparent_ends (tree s1) (current_task s1) (node_of t) (next_object s1) INIT_TASK ring kids s3);
    try done; [apply (wf_init _ _ _ _ Hwf)|..|by rewrite Hr3].
  - intros Hx%(wf_kids _ _ _ _ Hwf _ _ Hnidle Hn Ha). by destruct Hx.
  - rewrite Htree in HF3. by rewrite Hr3.
Qed.

Lemma exit_with_W switch ret s a s' :
  (∀ s a s', W0 s → switch s = Done (a, s') → W s') →
  W s → exit_with switch ret s = Done (a, s') → W s'.
Proof.
  intros Hsw HW H. unfold exit_with in H.
  bind_get H.
  destruct (Z.eqb_spec (current_task s) INIT_TASK) as [|Hi]; [done|].
  apply K_bind_Done in H as ([] & s1 & H1 & H). apply K_bind_Done in H as ([] & s2 & H2 & H).
  apply K_bind_Done in H as (t & ? & Ht & H). apply K_bind_Done in H as ([] & s3 & H3 & H).
  apply K_bind_Done in H as (t' & ? & Ht' & H). apply K_bind_Done in H as (? & ? & Hg & H).
  apply K_bind_Done in H as ([] & s4 & H4 & H). apply (Hsw s4 a s'); [|exact H].
  apply (exit_ends s ret tt s1 s2 s4 HW Hi H1 H2).
  rewrite (K_bind_step _ _ _ _ _ Ht), (K_bind_step _ _ _ _ _ H3), (K_bind_step _ _ _ _ _ Ht').
  rewrite (K_bind_step _ _ _ _ _ Hg). exact H4.
Qed.

(** ** Choosing and switching *)

Lemma ring_next m ring kids b p n :
  wf_tree m ring kids b → p ∈ ring → m !! p = Some n → n_next n ∈ ring.
Proof.
  intros Hwf Hp Hn. destruct (chain_step (nexts m) INIT_TASK ring INIT_TASK p (n_next n)) as [->|]; try done.
  - apply (wf_ring _ _ _ _ Hwf).
  - unfold nexts. by rewrite Hn.
  - apply (wf_init _ _ _ _ Hwf).
Qed.
Lemma next_loop_spec fuel start : ∀ s o s', W0 s → next_loop fuel start s = Done (o, s') →
  W0 s' ∧ tasks s' = tasks s ∧
  match o with Some p => ∃ t, tasks s' !! p = Some t ∧ state t = STATE_READY ∧ p = rr_task s' | None => True end.
Proof.
  induction fuel as [|fuel IH]; intros s o s' HW H; [done|]. cbn [next_loop] in H.
  bind_get H.
  apply K_bind_Done in H as (t & ? & [-> Et]%task_Done & H).
  bind_modify H s1.
  apply K_bind_Done in H as (t' & ? & [-> Et']%task_Done & H). cbn [tasks set_rr_task] in Et'.
  assert (HW1 : W0 (set_rr_task (next (links t)) s)).
  { destruct HW as (ring & kids & Hwf & Hr & Hc). exists ring, kids. split; [exact Hwf|]. split; [|exact Hc].
    cbn. apply (ring_next _ _ _ _ _ _ Hwf Hr (tree_lookup _ _ _ Et)). }
  destruct (bool_decide_reflect (state t' = STATE_READY)) as [Es|].
  - unfold mret, K_ret in H. injection H as <- <-. split; [done|]. split; [done|]. by exists t'.
  - destruct (next (links t) =? start).
    + unfold mret, K_ret in H. by injection H as <- <-.
    + destruct (IH _ _ _ HW1 H) as (? & -> & ?). done.
Qed.

Lemma choose_task_W s a s' : W0 s → choose_task s = Done (a, s') → W s'.
Proof.
  intros HW H. unfold choose_task, get_next_task in H. apply K_bind_Done in H as (o & s1 & H1 & H).
  bind_get H1.
  destruct (next_loop_spec _ _ _ _ _ HW H1) as ((ring & kids & Hwf & Hr & Hc) & Ht & Hp). clear H1 HW.
  set (p := match o with Some p => p | None => IDLE_TASK end) in *. cbv zeta in H.
  bind_modify H s2.
  apply K_bind_Done in H as (? & s3 & Hu & H).
  assert (Hal : ∃ n, tree s1 !! p = Some n ∧ n_alive n = true).
  { destruct o as [q|]; cbn in p; subst p.
    - destruct Hp as (t & Et & Es & _). exists (node_of t). split; [by apply tree_lookup|]. cbn. by rewrite Es.
    - destruct (wf_idle _ _ _ _ Hwf) as (ni & Ei & _ & Ha & _). by exists ni. }
  assert (HW2 : W (set_current_task p s1)).
  { split; [|exact Hal]. exists ring, kids. split; [exact Hwf|]. split; [exact Hr|]. cbn.
    destruct o as [q|]; cbn in p; subst p; [right|by left]. destruct Hp as (t & _ & _ & ->). exact Hr. }
  assert (HW3 : W s3).
  { eapply (framed_W (set_current_task p s1)); [|exact HW2].
    eapply (keeps_update_alive _ _ _ _ p); [| |apply framed_refl|exact Hu].
    - intros n Hn. destruct Hal as (n' & Hn' & ?). cbn in Hn. unfold tree in *. cbn in Hn. congruence.
    - intros t Ha. unfold node_of. cbn. by rewrite Ha. }
  eapply (keeps_W _ _ _ _ _ HW3 H).
  Unshelve. intros T c r b. framed_tac.
Qed.

Lemma deliver_W exit s a s' :
  (∀ ret s a s', W s → exit ret s = Done (a, s') → W s') →
  W s → deliver_signals_with exit s = Done (a, s') → W s'.
Proof.
  intros Hex. revert s a s'. change (keeps W (deliver_signals_with exit)).
  assert (Hex' : ∀ ret, keeps W (exit ret)) by (intros ret s a s'; apply Hex).
  assert (Hcur : keeps W (current (FS:=FS) (N:=N))) by (apply keeps_W; intros; framed_tac).
  assert (Hup : ∀ f, (∀ t, node_of (f t) = node_of t) → keeps (W (FS:=FS) (N:=N)) (update_current f))
    by (intros f Hf; apply keeps_W; intros; by apply keeps_update_current).
  unfold deliver_signals_with. keeps_step; [exact Hcur|]. keeps_step; [apply keeps_ret|]. keeps_step; [apply keeps_ret|].
  generalize 0. generalize (deliverable a). generalize 31%nat. intros n d.
  induction n as [|n IH]; intros i; cbn [deliver_loop]; [apply keeps_ret|].
  keeps_step; [apply IH|]. keeps_step; [by apply Hup|]. keeps_step; [exact Hcur|]. cbv zeta.
  keeps_step; [keeps_step; [keeps_step; [apply Hex'|apply keeps_ret]|apply IH]|].
  keeps_step; [apply IH|]. keeps_step; (keeps_step; [|apply IH]); [by apply Hup|].
  apply keeps_W. intros. apply keeps_call_handler.
Qed.
Lemma switch_loop_W fuel : ∀ s a s', W0 s → switch_loop fuel s = Done (a, s') → W s'.
Proof.
  induction fuel as [|fuel IH]; intros s a s' HW H; [done|]. cbn [switch_loop] in H.
  apply K_bind_Done in H as ([] & s1 & H1 & H). apply choose_task_W in H1; [|done].
  apply K_bind_Done in H as (e & s2 & H2 & H).
  apply deliver_W in H2; [|intros ret ? ? ? HWx Hx; by eapply exit_with_W|done].
  destruct e; [unfold mret, K_ret in H; by simplify_eq|].
  eapply (keeps_W resume); [intros; apply keeps_resume|exact H2|exact H].
Qed.
Lemma switch_task_W s a s' : W0 s → switch_task s = Done (a, s') → W s'.
Proof.
  intros HW H. unfold switch_task in H. bind_get H. by eapply switch_loop_W.
Qed.
Lemma keeps_exit ret : keeps (W (FS:=FS) (N:=N)) (exit ret).
Proof. intros s a s' HW H. eapply exit_with_W; [apply switch_task_W|exact HW|exact H]. Qed.
Lemma keeps_deliver : keeps (W (FS:=FS) (N:=N)) deliver_signals.
Proof. intros s a s' HW H. eapply deliver_W; [intros; by eapply keeps_exit|exact HW|exact H]. Qed.

(** ** Collecting deleted tasks *)

Lemma unlink_sibling_Done fuel : ∀ h t s a s' l,
  unlink_sibling fuel h t s = Done (a, s') → chain (sibs (tree s)) h l NULL → NULL ∉ l → t ∈ l → t ≠ h →
  ∃ p np nt, p ∈ l ∧ tree s !! p = Some np ∧ n_sib np = t ∧ tree s !! t = Some nt ∧
    tree s' = <[p := set_sib (n_sib nt) np]> (tree s) ∧ same_rest s s'.
Proof.
  induction fuel as [|fuel IH]; intros h t s a s' l H Hch H0 Ht Hth; [done|]. cbn [unlink_sibling] in H.
  apply K_bind_Done in H as (th & ? & [-> Eh]%task_Done & H).
  destruct l as [|x l]; [set_solver|]. destruct Hch as (-> & y & Ey & Hch).
  assert (y = next_sibling (links th)) as ->.
  { unfold sibs in Ey. rewrite (tree_lookup _ _ _ Eh) in Ey. by injection Ey. }
  destruct (Z.eqb_spec (next_sibling (links th)) NULL) as [Hn|Hn].
  { rewrite Hn in Hch. destruct l as [|z l]; [set_solver|]. destruct Hch as (Hz & _). set_solver. }
  destruct (Z.eqb_spec (next_sibling (links th)) t) as [Hs|Hs].
  - apply K_bind_Done in H as (tt' & ? & [-> Et]%task_Done & H).
    apply update_task_Done in H as (th' & Eh' & ->). assert (th' = th) as -> by congruence.
    exists x, (node_of th), (node_of tt'). split; [set_solver|]. split; [by apply tree_lookup|].
    split; [done|]. split; [by apply tree_lookup|]. split; [|done]. by rewrite tree_update.
  - destruct (IH (next_sibling (links th)) t s a s' l H Hch) as (p & np & nt & Hp & ?); [set_solver..|done|].
    exists p, np, nt. split; [set_solver|done].
Qed.

(** A child leaves the list of its parent. *)
Lemma unlink_child_Done q t s a s' l nq n :
  unlink_child q t s = Done (a, s') → tree s !! q = Some nq → tree s !! t = Some n →
  chain (sibs (tree s)) (n_child nq) l NULL → NULL ∉ l → t ∈ l →
  same_rest s s' ∧
  ((n_child nq = t ∧ tree s' = <[q := set_chi (n_sib n) nq]> (tree s)) ∨
   (n_child nq ≠ t ∧ ∃ p np, p ∈ l ∧ tree s !! p = Some np ∧ n_sib np = t ∧
      tree s' = <[p := set_sib (n_sib n) np]> (tree s))).
Proof.
  intros H Hq Ht Hch H0 Htl. unfold unlink_child in H.
  apply K_bind_Done in H as (tq & ? & [-> Eq]%task_Done & H).
  apply K_bind_Done in H as (tk & ? & [-> Et]%task_Done & H).
  assert (nq = node_of tq) as -> by (apply tree_lookup in Eq; congruence).
  assert (n = node_of tk) as -> by (apply tree_lookup in Et; congruence).
  destruct (Z.eqb_spec (child (links tq)) t) as [Hc|Hc].
  - apply update_task_Done in H as (tq' & Eq' & ->). assert (tq' = tq) as -> by congruence.
    split; [done|]. left. split; [done|]. by rewrite tree_update.
  - bind_get H.
    destruct (unlink_sibling_Done _ _ _ _ _ _ l H Hch H0 Htl) as (p & np & nt & Hp & Enp & Es & Ent & Etr & Hr); [done|].
    split; [done|]. right. split; [done|]. exists p, np. split; [done|]. split; [done|]. split; [done|].
    rewrite Etr. congruence.
Qed.

Section collect.
Context (s : kernel) (ring : list Z) (kids : Z → list Z) (p t : Z) (tp tk : task_t).
Context (Hwf : wf_tree (tree s) ring kids (next_object s)).
Context (Hp : p ∈ ring) (Ep : tasks s !! p = Some tp) (Hnext : next (links tp) = t).
Context (Hti : t ≠ INIT_TASK) (Et : tasks s !! t = Some tk) (Hdead : state tk = STATE_DELETED).

Lemma collect_in_ring : t ∈ ring.
Proof using All.
  destruct (chain_step (nexts (tree s)) INIT_TASK ring INIT_TASK p t); try done.
  - apply (wf_ring _ _ _ _ Hwf).
  - unfold nexts. rewrite (tree_lookup _ _ _ Ep). cbn. by rewrite Hnext.
Qed.
(** After the ring: the first change of [collect]. *)
Lemma collect_skip s1 a :
  update_task p (with_links (set_next (next (links tk)))) s = Done (a, s1) →
  tree s1 = skip_next (tree s) (node_of tk) p (node_of tp) ∧ same_rest s s1.
Proof using All.
  intros (tp' & E & ->)%update_task_Done. assert (tp' = tp) as -> by congruence.
  split; [|done]. rewrite tree_update. done.
Qed.
Lemma collect_pt : p ≠ t.
Proof using All.
  apply (removing_pt (tree s) ring kids _ Hwf t (node_of tk) collect_in_ring Hti (tree_lookup _ _ _ Et) p (node_of tp)
    (tree_lookup _ _ _ Ep) Hnext).
Qed.

Lemma collect_tree s1 s2 a b :
  update_task p (with_links (set_next (next (links tk)))) s = Done (a, s1) →
  (if is_kworker (image tk) then mret tt else unlink_child (parent (links tk)) t) s1 = Done (b, s2) →
  same_rest s s2 ∧
  (if n_kworker (node_of tk) then tree s2 = skip_next (tree s) (node_of tk) p (node_of tp)
   else ∃ nq, skip_next (tree s) (node_of tk) p (node_of tp) !! n_parent (node_of tk) = Some nq ∧
     unlinked (tree s) kids t (node_of tk) p (node_of tp) (n_parent (node_of tk)) nq (tree s2)).
Proof using All.
  intros [Et1 Hr1]%collect_skip H. pose proof collect_in_ring as Htr. pose proof (tree_lookup _ _ _ Et) as Etn.
  pose proof (tree_lookup _ _ _ Ep) as Epn. pose proof collect_pt as Hpt.
  destruct Hr1 as (R1 & R2 & R3). change (n_kworker (node_of tk)) with (is_kworker (image tk)).
  destruct (is_kworker (image tk)) eqn:Ek.
  { unfold mret, K_ret in H. injection H as _ <-. done. }
  assert (Hch : child_of (tree s) ring (parent (links tk)) t) by (split; [done|split; [done|]]; by exists (node_of tk)).
  destruct (wf_parent _ _ _ _ Hwf _ _ Hch) as (Hq & k & Ekq & Ha & Hw).
  destruct (wf_kids _ _ _ _ Hwf _ k Hq Ekq Ha) as (Hc & _ & Hsp).
  assert (Hnext' : ∀ x k, tree s !! x = Some k → ∃ k', tree s1 !! x = Some k' ∧ n_sib k' = n_sib k ∧ n_child k' = n_child k).
  { intros x k0 Ex. rewrite Et1. unfold skip_next. destruct (decide (x = p)) as [->|].
    - rewrite lookup_insert_eq. eexists. split; [done|]. assert (k0 = node_of tp) as -> by congruence. done.
    - rewrite lookup_insert_ne by done. by exists k0. }
  destruct (Hnext' _ k Ekq) as (nq & Enq & _ & Fc).
  assert (Ent : tree s1 !! t = Some (node_of tk)) by (rewrite Et1; unfold skip_next; by rewrite lookup_insert_ne).
  destruct (unlink_child_Done _ _ _ _ _ (kids (parent (links tk))) _ _ H Enq Ent) as [(Q1 & Q2 & Q3) Hun].
  - rewrite Fc. eapply chain_ext; [|exact Hc]. intros x Hx. unfold sibs.
    apply Hsp in Hx as (_ & Hx & kx & Ex & _). destruct (Hnext' x kx Ex) as (k' & -> & Fs & _). rewrite Ex. cbn. by rewrite Fs.
  - intros (_ & Hx & _)%Hsp. by destruct (ring_not_null _ _ _ _ Hwf _ Hx).
  - by apply Hsp.
  - split; [split_and!; congruence|]. exists nq. rewrite <-Et1. split; [done|].
    destruct Hun as [[Hc1 ->]|(Hc1 & a0 & na & Ha0 & Ena & Es & ->)]; rewrite Et1 in *; [by apply unlinked_head|].
    by eapply unlinked_inner.
Qed.
End collect.

Lemma lift_tables_Done {A} (m : K paging A) s a s' :
  lift_tables m s = Done (a, s') → ∃ p, s' = set_tables p s.
Proof. unfold lift_tables. destruct (m (tables s)) as [[x p]| | |]; intros H; simplify_eq. by exists p. Qed.

(** The ring without [t]; current_task and rr_task move on if they were [t]. *)
Lemma collect_ok s ring kids p t tp tk a s' :
  wf_tree (tree s) ring kids (next_object s) → p ∈ ring → tasks s !! p = Some tp → next (links tp) = t →
  t ≠ INIT_TASK → tasks s !! t = Some tk → state tk = STATE_DELETED →
  rr_task s ∈ ring → (current_task s = IDLE_TASK ∨ current_task s ∈ ring) →
  collect p t s = Done (a, s') →
  (∃ kids', wf_tree (tree s') (without t ring) kids' (next_object s')) ∧ rr_task s' ∈ without t ring ∧
  (current_task s' = IDLE_TASK ∨ current_task s' ∈ without t ring) ∧ p ∈ without t ring ∧
  nexts (tree s') p = Some (next (links tk)).
Proof.
  intros Hwf Hp Ep Hnext Hti Et Hdead Hr Hc H. unfold collect in H.
  apply K_bind_Done in H as (tk0 & ? & [-> Et0]%task_Done & H). assert (tk0 = tk) as -> by congruence.
  apply K_bind_Done in H as (? & s0 & [pg ->]%lift_tables_Done & H). set (s0 := set_tables pg s) in *.
  assert (Hwf0 : wf_tree (tree s0) ring kids (next_object s0)) by exact Hwf.
  apply K_bind_Done in H as (? & s1 & H1 & H). apply K_bind_Done in H as (? & s2 & H2 & H).
  destruct (collect_tree s0 ring kids p t tp tk Hwf0 Hp Ep Hnext Hti Et Hdead _ _ _ _ H1 H2) as [(R1 & R2 & R3) Hun].
  pose proof (collect_in_ring s0 ring kids p t tp tk Hwf0 Hp Ep Hnext Hti Et Hdead) as Htr.
  pose proof (collect_pt s0 ring kids p t tp tk Hwf0 Hp Ep Hnext Hti Et Hdead) as Hpt.
  assert (Hda : n_alive (node_of tk) = false) by (cbn; by rewrite Hdead).
  pose proof (wf_removed (tree s0) ring kids _ Hwf0 t (node_of tk) Htr Hti (tree_lookup s0 t tk Et) Hda p (node_of tp) Hp
    (tree_lookup s0 p tp Ep) Hnext (tree s2) Hun) as Hwf'.
  pose proof (removing_lookup (tree s0) ring kids _ Hwf0 t (node_of tk) Htr Hti (tree_lookup s0 t tk Et) Hda p (node_of tp) Hp
    (tree_lookup s0 p tp Ep) Hnext (tree s2) Hun) as Hlook.
  destruct (Hlook p _ (tree_lookup s0 p tp Ep)) as (kp & Ekp & Enp & _). rewrite decide_True in Enp by done.
  assert (Hpw : p ∈ without t ring) by (by apply elem_of_without).
  assert (Ekp' : delete t (tree s2) !! p = Some kp) by (by rewrite lookup_delete_ne).
  pose proof (ring_next _ _ _ _ _ _ Hwf' Hpw Ekp') as Hnw. rewrite Enp in Hnw. cbn [n_next node_of] in Hnw, Enp.
  destruct (Hlook t _ (tree_lookup s0 t tk Et)) as (kt & Ekt & Ent & _). rewrite decide_False in Ent by done.
  bind_get H.
  apply K_bind_Done in H as (tk2 & ? & [-> Et2]%task_Done & H).
  assert (next (links tk2) = next (links tk)) as Enx.
  { apply tree_lookup in Et2. assert (kt = node_of tk2) as -> by congruence. exact Ent. }
  rewrite Enx in H. apply K_bind_Done in H as (? & s3 & H3 & H). apply K_bind_Done in H as (? & s4 & H4 & H).
  unfold kmodify in H. injection H as _ <-.
  assert (S3 : tasks s3 = tasks s2 ∧ next_object s3 = next_object s2 ∧ rr_task s3 = rr_task s2 ∧
    (current_task s3 = IDLE_TASK ∨ current_task s3 ∈ without t ring)).
  { destruct (Z.eqb_spec (current_task s2) t) as [He|He]; unfold kmodify, mret, K_ret in H3; injection H3 as _ <-.
    - split_and!; try done. by right.
    - split_and!; try done. rewrite R1 in He |- *. destruct Hc as [Hc|Hc]; [by left|right; by apply elem_of_without]. }
  destruct S3 as (S31 & S32 & S33 & S34).
  assert (S4 : tasks s4 = tasks s3 ∧ next_object s4 = next_object s3 ∧ current_task s4 = current_task s3 ∧
    rr_task s4 ∈ without t ring).
  { destruct (Z.eqb_spec (rr_task s2) t) as [He|He]; unfold kmodify, mret, K_ret in H4; injection H4 as _ <-.
    - split_and!; done.
    - split_and!; try done. rewrite S33, R2. rewrite R2 in He. by apply elem_of_without. }
  destruct S4 as (S41 & S42 & S43 & S44).
  assert (Htree : tree (set_tasks (delete t (tasks s4)) s4) = delete t (tree s2)).
  { unfold tree. cbn [tasks set_tasks]. by rewrite fmap_delete, S41, S31. }
  rewrite Htree. cbn [next_object rr_task current_task set_tasks]. split_and!.
  - exists (λ q, without t (kids q)). rewrite S42, S32, R3. exact Hwf'.
  - done.
  - by rewrite S43.
  - done.
  - unfold nexts. rewrite Ekp'. cbn. by rewrite Enp.
Qed.

Lemma gc_loop_W0 fuel : ∀ p t s a s' ring kids,
  wf_tree (tree s) ring kids (next_object s) → rr_task s ∈ ring →
  (current_task s = IDLE_TASK ∨ current_task s ∈ ring) → p ∈ ring → nexts (tree s) p = Some t →
  gc_loop fuel p t s = Done (a, s') → W0 s'.
Proof.
  induction fuel as [|fuel IH]; intros p t s a s' ring kids Hwf Hr Hc Hp Hnx H; cbn [gc_loop] in H;
    (destruct (Z.eqb_spec t INIT_TASK) as [|Hti];
      [unfold mret, K_ret in H; injection H as _ <-; by exists ring, kids|]); [done|].
  assert (Htr : t ∈ ring).
  { destruct (chain_step (nexts (tree s)) INIT_TASK ring INIT_TASK p t); try done. apply (wf_ring _ _ _ _ Hwf). }
  apply K_bind_Done in H as (tk & ? & [-> Et]%task_Done & H).
  destruct (bool_decide_reflect (state tk = STATE_DELETED)) as [Ed|].
  - apply K_bind_Done in H as (? & s1 & H1 & H).
    unfold nexts in Hnx. destruct (tree s !! p) as [np|] eqn:Enp; [|done].
    unfold tree in Enp. rewrite lookup_fmap in Enp. destruct (tasks s !! p) as [tp|] eqn:Etp; [|done].
    injection Enp as <-. injection Hnx as Hnx.
    destruct (collect_ok s ring kids p t tp tk _ _ Hwf Hp Etp Hnx Hti Et Ed Hr Hc H1) as ([kids' Hwf'] & Hr' & Hc' & Hp' & Hn').
    by eapply (IH p (next (links tk)) s1 a s').
  - eapply (IH t (next (links tk)) s a s'); try done. unfold nexts. by rewrite (tree_lookup _ _ _ Et).
Qed.
Lemma gc_tasks_W0 s a s' : W0 s → gc_tasks s = Done (a, s') → W0 s'.
Proof.
  intros (ring & kids & Hwf & Hr & Hc) H. unfold gc_tasks in H.
  bind_get H.
  apply K_bind_Done in H as (t & ? & [-> Et]%task_Done & H).
  eapply (gc_loop_W0 _ _ _ _ _ _ ring kids); [done..| | |exact H].
  - apply (wf_init _ _ _ _ Hwf).
  - unfold nexts. by rewrite (tree_lookup _ _ _ Et).
Qed.

Lemma run_next_W f s a s' : W s → run_next f s = Done (a, s') → W s'.
Proof.
  intros HW H. unfold run_next in H. bind_get H.
  destruct (scheduler_initialized s); cbn [negb] in H; [|unfold mret, K_ret in H; by simplify_eq].
  apply K_bind_Done in H as (? & s1 & H1 & H).
  apply (keeps_W (update_current (with_iframe (λ _, f)))) in H1; [|intros; framed_tac|done].
  apply K_bind_Done in H as (? & s2 & H2 & H).
  apply (keeps_W save_fpu) in H2; [|intros; apply keeps_save_fpu|done].
  apply K_bind_Done in H as (? & s3 & H3 & H).
  apply (keeps_W (update_current _)) in H3; [| |done].
  - apply K_bind_Done in H as (? & s4 & H4 & H). eapply switch_task_W; [|exact H].
    eapply gc_tasks_W0; [|exact H4]. by destruct H3.
  - intros T c r b. apply keeps_update_current. intros t. destruct (bool_decide_reflect (state t = STATE_RUNNING)) as [E|]; [|done].
    unfold node_of. cbn. by rewrite E.
Qed.
Lemma keeps_run_next_current : keeps (W (FS:=FS) (N:=N)) run_next_current.
Proof.
  unfold run_next_current. keeps_step; [apply keeps_W; intros; framed_tac|].
  intros s b s' HW H. by eapply run_next_W.
Qed.

(** ** New tasks *)

(** [fork] up to the switch inserts a child of the current task. *)
Lemma link_task_Done p new s tp tn a s' :
  tasks s !! p = Some tp → tasks s !! new = Some tn → p ≠ new → link_task p new s = Done (a, s') →
  same_rest s s' ∧
  tree s' = <[p := mk_node new (n_sib (node_of tp)) (n_parent (node_of tp)) new (n_kworker (node_of tp)) (n_alive (node_of tp))]>
    (<[new := mk_node (n_next (node_of tp)) (n_child (node_of tp)) p NULL (n_kworker (node_of tn)) (n_alive (node_of tn))]> (tree s)).
Proof.
  intros Ep En Hne H. unfold link_task in H.
  apply K_bind_Done in H as (tp' & ? & [-> Ep']%task_Done & H). assert (tp' = tp) as -> by congruence.
  apply K_bind_Done in H as (? & s1 & (tn' & En' & ->)%update_task_Done & H). assert (tn' = tn) as -> by congruence.
  apply update_task_Done in H as (tp' & Ep2 & ->). cbn [tasks set_tasks] in *.
  rewrite lookup_insert_ne in Ep2 by done. assert (tp' = tp) as -> by congruence.
  split; [done|]. unfold tree. cbn [tasks set_tasks]. rewrite !fmap_insert. done.
Qed.

(** [cur] runs a process, not a kernel worker. *)
Definition process_running s : Prop :=
  ∃ n, tree s !! current_task s = Some n ∧ n_kworker n = false.
Lemma process_in_ring s ring kids b n :
  wf_tree (tree s) ring kids b → (current_task s = IDLE_TASK ∨ current_task s ∈ ring) →
  tree s !! current_task s = Some n → n_kworker n = false → current_task s ∈ ring.
Proof.
  intros Hwf [Hi|] Hn Hk; [|done]. destruct (wf_idle _ _ _ _ Hwf) as (ni & Ei & ? & _). rewrite Hi in Hn. congruence.
Qed.

(** The state once the child is linked, whatever its other fields are. *)
Lemma linked_W s s' cur new n :
  W s → cur = current_task s → tree s !! cur = Some n → n_kworker n = false → next_object s ≤ new →
  tree s' = add_process (tree s) cur new n →
  current_task s' = cur → rr_task s' = rr_task s → new < next_object s' → W s'.
Proof.
  intros [(ring & kids & Hwf & Hr & Hc) (n' & Hn' & Ha)] -> Hn Hk Hb Ht Hc' Hr' Hb'.
  assert (n' = n) as -> by congruence. pose proof (process_in_ring _ _ _ _ _ Hwf Hc Hn Hk) as Hin.
  pose proof (wf_add_process (tree s) ring kids _ Hwf _ new n Hin Hn Hb Ha Hk) as Hwf'.
  assert (Hsub : ∀ x, x ∈ ring → x ∈ ring_after (current_task s) new ring) by (intros; by apply elem_of_ring_after; auto).
  split.
  - eexists _, _. rewrite Ht, Hr', Hc'. split; [eapply wf_tree_mono; [|exact Hwf']; lia|]. split; [by apply Hsub|].
    right. by apply Hsub.
  - rewrite Hc', Ht, (process_lookup (tree s) ring kids _ Hwf _ new n Hin Hn Hb), decide_True by done.
    eexists. split; [done|]. exact Ha.
Qed.

Lemma new_object_Done s p s' : new_object s = Done (p, s') → p = next_object s ∧ s' = set_next_object (next_object s + 1) s.
Proof.
  unfold new_object. intros (? & ? & Hg & H)%K_bind_Done. unfold kget in Hg. injection Hg as <- <-.
  bind_modify H s1.
  unfold mret, K_ret in H. by injection H as <- <-.
Qed.

(** The part of fork between the new object and the link. *)
Lemma fork_link_W s cr new s1 s2 s3 t a b :
  W s → tasks s !! current_task s = Some t → is_kworker (image t) = false → new = next_object s →
  kmodify (λ s, set_tasks (<[new := set_image (set_cr3 cr (image t)) (set_state STATE_READY t)]> (tasks s)) s)
    (set_next_object (next_object s + 1) s) = Done (a, s1) →
  share_fds MAX_FDS 0 t s1 = Done (b, s2) → link_task (current_task s) new s2 = Done (a, s3) → W s3 ∧
  (∀ n, tree s3 !! current_task s3 = Some n → n_alive n = true) ∧ new ≠ current_task s3.
Proof.
  intros HW Et Hk Hnew H1 H2 H3. unfold kmodify in H1. injection H1 as _ <-.
  pose proof (tree_lookup _ _ _ Et) as Htn. destruct HW as [HW0 (n & Hn & Ha)].
  assert (n = node_of t) as -> by congruence.
  destruct HW0 as (ring & kids & Hwf & Hr & Hc).
  pose proof (process_in_ring _ _ _ _ _ Hwf Hc Hn Hk) as Hin.
  destruct (new_ne (tree s) ring kids _ Hwf _ new _ Hin Hn ltac:(lia)) as (Hne & _ & _ & _ & _ & Hnone).
  pose proof (keeps_share_fds _ _ _ _ _ _ _ _ _ _ (framed_refl _) H2) as HF. clear H2. rename HF into H2.
  destruct H2 as (T2 & C2 & R2 & B2). cbn [current_task set_tasks set_next_object rr_task next_object] in C2, R2, B2.
  assert (Htr : tree (set_tasks (<[new := set_image (set_cr3 cr (image t)) (set_state STATE_READY t)]> (tasks s))
                   (set_next_object (next_object s + 1) s)) =
    <[new := mk_node (n_next (node_of t)) (n_sib (node_of t)) (n_parent (node_of t)) (n_child (node_of t)) false true]> (tree s)).
  { unfold tree. cbn [tasks set_tasks]. rewrite fmap_insert. unfold node_of at 1. cbn. by rewrite Hk. }
  cbn [tasks set_next_object] in T2. rewrite Htr in T2.
  assert (E1 : tree s2 !! current_task s = Some (node_of t)) by (rewrite T2; by rewrite lookup_insert_ne).
  assert (E2 : tree s2 !! new = Some (mk_node (n_next (node_of t)) (n_sib (node_of t)) (n_parent (node_of t)) (n_child (node_of t)) false true))
    by (rewrite T2; by rewrite lookup_insert_eq).
  unfold tree in E1, E2. rewrite lookup_fmap in E1, E2.
  destruct (tasks s2 !! current_task s) as [tp|] eqn:Ep; [|done]. destruct (tasks s2 !! new) as [tn|] eqn:En; [|done].
  apply (inj Some) in E1, E2.
  destruct (link_task_Done _ _ _ _ _ _ _ Ep En ltac:(done) H3) as [(C3 & R3 & B3) T3].
  assert (HW3 : W s3).
  { eapply (linked_W s s3 (current_task s) new (node_of t)); try done.
    - split; [by exists ring, kids|by exists (node_of t)].
    - lia.
    - rewrite T3, T2. unfold add_process.
      rewrite E1, E2. cbn [n_kworker n_alive n_next n_child n_sib n_parent]. rewrite insert_insert_eq.
      unfold node_of at 3. cbn [n_kworker]. done.
    - congruence.
    - congruence.
    - lia. }
  split; [done|]. split; [|congruence]. destruct HW3 as [_ (n3 & En3 & Ha3)]. congruence.
Qed.

(** The current task has not ended: its state may change to another one of a living task. *)
Lemma keeps_W_state f :
  (∀ t, alive (state t) = true → node_of (f t) = node_of t) → keeps (W (FS:=FS) (N:=N)) (update_current f).
Proof.
  intros Hf s a s' HW H. apply update_current_Done in H as (t & Et & ->).
  eapply (framed_W s); [|exact HW]. split_and!; try done. rewrite tree_update, Hf; [apply insert_id; by apply tree_lookup|].
  destruct HW as [_ (n & Hn & Ha)]. rewrite (tree_lookup _ _ _ Et) in Hn. by injection Hn as <-.
Qed.
Lemma keeps_W_switch {A} (m : K kernel unit) (a : A) :
  (∀ s b s', W0 s → m s = Done (b, s') → W s') → keeps (W (FS:=FS) (N:=N)) (m;; mret a).
Proof. intros Hm. keeps_step; [|apply keeps_ret]. intros s b s' [HW _] H. by eapply Hm. Qed.
Ltac W_framed := apply keeps_W; intros; framed_tac.

Lemma keeps_fork f s a s' : W s → process_running s → fork f s = Done (a, s') → W s'.
Proof.
  intros HW (n & Hn & Hk) H. unfold fork in H.
  bind_get H.
  destruct (last_pid s =? INT_MAX); [done|].
  apply K_bind_Done in H as (? & s1 & H1 & H). apply K_bind_Done in H as (? & s2 & H2 & H).
  assert (HF : framed (tree s) (current_task s) (rr_task s) (next_object s) s2).
  { pose proof (keeps_update_current _ _ _ _ (with_iframe (λ _, f)) (λ _, eq_refl) _ _ _ (framed_refl s) H1) as HF1.
    exact (keeps_save_fpu _ _ _ _ _ _ _ HF1 H2). }
  assert (HW2 : W s2) by (by eapply framed_W). destruct HF as (HT & HC & _ & _).
  apply K_bind_Done in H as (new & ? & [-> ->]%new_object_Done & H).
  apply K_bind_Done in H as (cur & ? & [-> Ecur]%current_Done & H).
  apply K_bind_Done in H as (cr & ? & [pg ->]%lift_tables_Done & H).
  apply K_bind_Done in H as ([] & s3 & H3 & H). apply K_bind_Done in H as ([] & s4 & H4 & H).
  apply K_bind_Done in H as ([] & s5 & H5 & H). rewrite <-HC in H5.
  assert (Hkw : is_kworker (image cur) = false).
  { cbn in Ecur. apply tree_lookup in Ecur. rewrite HT, HC in Ecur. rewrite Hn in Ecur. injection Ecur as ->. exact Hk. }
  assert (HWp : W (set_tables pg s2)) by exact HW2.
  destruct (fork_link_W (set_tables pg s2) cr (next_object s2) s3 s4 s5 cur tt tt HWp Ecur Hkw eq_refl H3 H4 H5) as (HW5 & _).
  revert H. generalize (next_object s2). intros new. revert HW5. generalize s5 a s'.
  match goal with |- ∀ s a s', W s → ?m s = _ → _ => change (keeps W m) end.
  do 4 (keeps_step; [unfold next_pid; W_framed|]).
  keeps_step; [apply keeps_W_state; intros t Ha; unfold node_of; cbn; by rewrite Ha|].
  apply keeps_W_switch, switch_task_W.
Qed.

Lemma keeps_create_kworker k g x s a s' :
  W s → current_task s ≠ IDLE_TASK → create_kworker k g x s = Done (a, s') → W s'.
Proof.
  intros HW Hi H. unfold create_kworker in H.
  bind_get H.
  destruct (last_pid s =? INT_MAX); [done|]. apply K_bind_Done in H as (p & s1 & H1 & H).
  assert (HF1 : framed (tree s) (current_task s) (rr_task s) (next_object s) s1).
  { assert (Hk : keeps (framed (FS:=FS) (N:=N) (tree s) (current_task s) (rr_task s) (next_object s)) next_pid)
      by (unfold next_pid; framed_tac). exact (Hk _ _ _ (framed_refl s) H1). }
  apply K_bind_Done in H as (new & ? & [-> ->]%new_object_Done & H).
  apply K_bind_Done in H as (init & ? & [-> Einit]%task_Done & H).
  apply K_bind_Done in H as (cr & ? & [pg ->]%lift_tables_Done & H).
  apply K_bind_Done in H as (cur & ? & [-> Ecur]%current_Done & H). cbv zeta in H.
  apply K_bind_Done in H as ([] & s3 & H3 & H). unfold kmodify in H3. injection H3 as <-.
  apply K_bind_Done in H as ([] & s4 & H4 & H). unfold mret, K_ret in H. injection H as _ <-.
  apply update_current_Done in H4 as (t & Et & ->).
  assert (HW1 : W s1) by (by eapply framed_W). destruct HF1 as (HT & HC & HR & HB).
  cbn [tasks set_tasks current_task set_tables set_next_object] in *.
  destruct HW1 as [(ring & kids & Hwf & Hr & Hc) (n & Hn & Ha)].
  assert (Hin : current_task s1 ∈ ring) by (destruct Hc; [congruence|done]).
  destruct (new_ne (tree s1) ring kids _ Hwf _ (next_object s1) _ Hin Hn ltac:(lia)) as (Hne & _ & _ & _ & _ & Hnone).
  rewrite lookup_insert_ne in Et by done. assert (t = cur) as -> by congruence.
  assert (n = node_of cur) as -> by (apply tree_lookup in Ecur; congruence).
  pose proof (wf_add_worker (tree s1) ring kids _ Hwf _ (next_object s1) _ Hin Hn ltac:(lia) true) as Hwf'.
  match goal with |- W ?x => assert (Htree : tree x = add_worker (tree s1) (current_task s1) (next_object s1) (node_of cur) true) end.
  { unfold tree. cbn [tasks set_tasks set_tables set_next_object]. rewrite !fmap_insert. done. }
  assert (Hsub : ∀ x, x ∈ ring → x ∈ ring_after (current_task s1) (next_object s1) ring)
    by (intros; by apply elem_of_ring_after; auto).
  split.
  - eexists _, _. rewrite Htree. split; [exact Hwf'|]. split; [by apply Hsub|]. right. by apply Hsub.
  - rewrite Htree. cbn [current_task set_tasks set_tables set_next_object].
    rewrite (worker_lookup (tree s1) ring kids _ Hwf _ _ _ Hin Hn (Z.le_refl _)), decide_True by done. eexists. split; [done|]. exact Ha.
Qed.

(** A kernel worker has no children to leave behind. *)
Lemma kworker_ends_W0 s t : W s → current_task s ≠ IDLE_TASK → tasks s !! current_task s = Some t →
  is_kworker (image t) = true → W0 (set_tasks (<[current_task s := set_state STATE_DELETED t]> (tasks s)) s).
Proof.
  intros [(ring & kids & Hwf & Hr & Hc) (n & Hn & Ha)] Hi Et Ek.
  assert (Hin : current_task s ∈ ring) by (destruct Hc; [congruence|done]).
  pose proof (tree_lookup _ _ _ Et) as Htn. assert (n = node_of t) as -> by congruence.
  assert (Hini : current_task s ≠ INIT_TASK).
  { intros Hx. destruct (wf_init _ _ _ _ Hwf) as (_ & k & Ek' & _ & Hw). rewrite <-Hx in Ek'.
    assert (k = node_of t) as -> by congruence. cbn in Hw. congruence. }
  assert (Hnil : kids (current_task s) = []).
  { destruct (kids (current_task s)) as [|x l] eqn:El; [done|].
    destruct (wf_kids _ _ _ _ Hwf _ _ Hin Hn Ha) as (_ & _ & Hsp). rewrite El in Hsp.
    destruct (wf_parent _ _ _ _ Hwf _ x (proj1 (Hsp x) ltac:(set_solver))) as (_ & k & Ek' & _ & Hw).
    assert (k = node_of t) as -> by congruence. cbn in Hw. congruence. }
  pose proof (tree_end s t (set_state STATE_DELETED) Et (λ _, eq_refl)) as Htree.
  pose proof (wf_init _ _ _ _ Hwf) as Hinit. pose proof Hinit as (_ & k & Ek' & _).
  destruct (moved_ends _ _ _ _ INIT_TASK _ _ (<[current_task s := set_dead (node_of t)]> (tree s))
    Hwf Hin Hini Hn Ha Hinit) as [kids' Hwf']; [done|rewrite Hnil; set_solver| |].
  { rewrite Hnil. eapply moved_nil. by rewrite lookup_insert_ne. }
  exists ring, kids'. by rewrite Htree.
Qed.
Lemma kworker_exit_Done s a s' : kworker_exit s = Done (a, s') → s' = s ∨
  ∃ t, tasks s !! current_task s = Some t ∧ is_kworker (image t) = true ∧
    switch_task (set_tasks (<[current_task s := set_state STATE_DELETED t]> (tasks s)) s) = Done (a, s').
Proof.
  intros H. unfold kworker_exit in H. apply K_bind_Done in H as (t & ? & [-> Et]%current_Done & H).
  destruct (is_kworker (image t)) eqn:Ek; cbn [negb] in H; [|unfold mret, K_ret in H; injection H as _ <-; by left].
  apply K_bind_Done in H as ([] & s1 & H1 & H). apply update_current_Done in H1 as (t' & Et' & ->).
  assert (t' = t) as -> by congruence. right. by exists t.
Qed.
Lemma keeps_kworker_exit s a s' : W s → current_task s ≠ IDLE_TASK → kworker_exit s = Done (a, s') → W s'.
Proof.
  intros HW Hi [->|(t & Et & Ek & H)]%kworker_exit_Done; [done|].
  eapply switch_task_W; [by apply kworker_ends_W0|exact H].
Qed.
End links.
