(* ===== verification/SchedInv.v ===== *)
(** * The invariant of the task tables over all runs of the scheduler

    The operations a kernel run is made of, as a step relation, and the theorem
    that from a sound state every run leads to a sound state. *)

From S2P Require Import Prelude Paging Vfs Pipe Net Udp Task Signal Fd Sched TaskTree SchedTree SchedLinks.

Section inv.
Context {FS N : Type}.
#[local] Notation kernel := (kernel FS N).
Implicit Types (s : kernel).
Ltac W_framed := apply keeps_W; intros; framed_tac.

Lemma keeps_block r f : keeps (W (FS:=FS) (N:=N)) (block_current r f).
Proof. apply keeps_W_state. intros t Ha. unfold node_of. cbn. by rewrite Ha. Qed.
Lemma keeps_sleep ms : keeps (W (FS:=FS) (N:=N)) (sleep ms).
Proof.
  unfold sleep. keeps_step; [apply keeps_ret|]. keeps_step; [apply keeps_block|].
  keeps_step; [W_framed|apply keeps_run_next_current].
Qed.
Lemma keeps_wait_for c ws o : keeps (W (FS:=FS) (N:=N)) (wait_for c ws o).
Proof.
  unfold wait_for. keeps_step; [apply keeps_ret|]. keeps_step; [W_framed|]. keeps_step; [apply keeps_ret|].
  keeps_step; [apply keeps_block|]. keeps_step; [apply keeps_run_next_current|apply keeps_ret].
Qed.
Lemma keeps_waitpid k ws o : keeps (W (FS:=FS) (N:=N)) (waitpid k ws o).
Proof.
  unfold waitpid. keeps_step; [apply keeps_get|]. keeps_step; [keeps_step; W_framed|].
  keeps_step; [apply keeps_ret|]. keeps_step; [apply keeps_wait_for|].
  intros s b s' HW (t & s1 & [-> Et]%task_Done & H)%K_bind_Done.
  destruct (event_of o t) as [e|] eqn:Ee; [|by eapply keeps_wait_for].
  apply K_bind_Done in H as (? & s2 & H & Hr). unfold mret, K_ret in Hr. injection Hr as _ <-.
  eapply framed_W; [|exact HW]. eapply keeps_report; [|apply framed_refl|exact H].
  intros -> n Hn. rewrite (tree_lookup _ _ _ Et) in Hn. injection Hn as <-. by eapply event_exited.
Qed.
Lemma keeps_sigreturn : keeps (W (FS:=FS) (N:=N)) sigreturn.
Proof.
  unfold sigreturn. keeps_step; [W_framed|]. keeps_step; [apply keeps_ret|]. keeps_step; [W_framed|].
  keeps_step; [W_framed|]. keeps_step; [apply keeps_deliver|]. keeps_step; [apply keeps_ret|]. W_framed.
Qed.

(** What happens in a kernel: system calls and interrupts of the current task. *)
Inductive sched_op :=
| OpTick (reduce_ticks : bool)
| OpSwitch (f : iframe_t)
| OpFork (f : iframe_t)
| OpExit (ret : Z)
| OpKill (k sig : Z)
| OpRaise (sig : Z)
| OpDeliver
| OpSigreturn
| OpSigaction (sig new old : Z)
| OpSigprocmask (how set oldset : Z)
| OpSleep (ms : Z)
| OpWaitpid (k ws options : Z)
| OpSetpgid (k g : Z)
| OpSetsid
| OpCloseFd (n : Z)
| OpKworker (trampoline function arg : Z)
| OpKworkerExit.

Definition run_op (o : sched_op) : K kernel unit :=
  match o with
  | OpTick r => check_blocked_tasks r
  | OpSwitch f => run_next f
  | OpFork f => fork f;; mret tt
  | OpExit ret => exit ret
  | OpKill k sig => kill k sig;; mret tt
  | OpRaise sig => raise sig;; mret tt
  | OpDeliver => deliver_signals;; mret tt
  | OpSigreturn => sigreturn
  | OpSigaction sig new old => sigaction sig new old;; mret tt
  | OpSigprocmask how set oldset => sigprocmask how set oldset;; mret tt
  | OpSleep ms => sleep ms
  | OpWaitpid k ws o => waitpid k ws o;; mret tt
  | OpSetpgid k g => setpgid k g;; mret tt
  | OpSetsid => setsid;; mret tt
  | OpCloseFd n => fd_close n;; mret tt
  | OpKworker a f x => create_kworker a f x;; mret tt
  | OpKworkerExit => kworker_exit
  end.
(** Only processes fork, the idle task has no parent to leave, and a signal that
    stops tasks is not sent to a zombie (see [zombie_revived]). *)
Definition op_ok (o : sched_op) (s : kernel) : Prop :=
  match o with
  | OpFork _ => process_running s
  | OpKworker _ _ _ | OpKworkerExit => current_task s ≠ IDLE_TASK
  | OpKill k sig => stops sig → ∀ t, tasks s !! current_task s = Some t →
      no_zombie (selects k (current_task s) t) s
  | _ => True
  end.
Inductive runs : kernel → list sched_op → kernel → Prop :=
| runs_nil s : runs s [] s
| runs_cons s o s1 l s' : op_ok o s → run_op o s = Done (tt, s1) → runs s1 l s' → runs s (o :: l) s'.

Lemma run_op_W o s s' : W s → op_ok o s → run_op o s = Done (tt, s') → W s'.
Proof.
  intros HW Hok H. destruct o; cbn [run_op op_ok] in *;
    try (lazymatch type of Hok with True => revert H; refine ((_ : keeps W _) s tt s' HW); clear s s' HW Hok end).
  - W_framed.
  - intros s0 a s1. apply run_next_W.
  - apply K_bind_Done in H as (? & s1 & H & Hr). unfold mret, K_ret in Hr. injection Hr as <-. by eapply keeps_fork.
  - apply keeps_exit.
  - apply K_bind_Done in H as (? & s1 & H & Hr). unfold mret, K_ret in Hr. injection Hr as <-.
    eapply framed_W; [|exact HW]. eapply framed_kill; [apply framed_refl|exact Hok|exact H].
  - keeps_step; [|apply keeps_ret]. intros s b s' HW H.
    eapply framed_W; [|exact HW]. eapply keeps_raise; [|apply framed_refl|exact H].
    destruct HW as [_ (n & Hn & Ha)]. intros n' Hn'. congruence.
  - keeps_step; [apply keeps_deliver|apply keeps_ret].
  - apply keeps_sigreturn.
  - W_framed.
  - W_framed.
  - apply keeps_sleep.
  - keeps_step; [apply keeps_waitpid|apply keeps_ret].
  - W_framed.
  - W_framed.
  - W_framed.
  - apply K_bind_Done in H as (? & s1 & H & Hr). unfold mret, K_ret in Hr. injection Hr as <-. by eapply keeps_create_kworker.
  - by eapply keeps_kworker_exit.
Qed.

(** The ring and the tree of tasks survive everything the kernel does.  From a
    state in which next leads from init_task once around all tasks but the idle
    one, the siblings behind each living task's child are exactly the tasks whose
    parent it is, and every process but init has a living parent, every sequence
    of system calls, signals, ticks and task switches that completes ends in such a
    state, with a current task that has not ended: no dangling pointer, no lost or
    doubly linked task. *)
Theorem task_tables_invariant s l s' : W s → runs s l s' → W s'.
Proof. intros HW. induction 1 as [|s o s1 l s' Hok Hr Hrs IH]; [done|]. apply IH. by eapply run_op_W. Qed.
End inv.

(** ** A small machine: the idle task, init and one more process *)

Definition example_task (k st nx sb par ch : Z) (kw : bool) (w : process_state_t) : task_t :=
  mk_task w (mk_context (set_cs USER_CS zero_iframe) [k]) (mk_ids k st st) (mk_image 4096 0 0 [47] kw PROCESS_TICKS)
    (mk_signals false 0 0 ∅ zero_iframe [0]) (mk_wait BLOCK_NONE 0 0 0 0) (mk_status 0 0 0)
    (mk_links nx sb par ch) ∅.
Definition example_net : net unit :=
  mk_net (mk_ifs [] [] 0) (mk_arp ∅ false) (mk_ip [] 1 0 [] ∅ None) (mk_icmp 0 1) (mk_udp ∅ ∅) tt.
Definition example_kernel (l : list (Z * task_t)) (cur : Z) : kernel unit unit :=
  mk_kernel (list_to_map l) cur cur 2 PROCESS_TICKS 4096 true [0] ∅ ∅ ∅ (4 + zlen l)
    (PagingAlloc.boot_state 16 2) (mk_vfs [] ∅ 1 1 tt [47]) example_net.
Definition three_tasks : list (Z * task_t) :=
  [(IDLE_TASK, example_task 0 0 IDLE_TASK NULL NULL NULL true STATE_READY);
   (INIT_TASK, example_task 1 1 3 NULL INIT_TASK 3 false STATE_READY);
   (3, example_task 2 1 INIT_TASK NULL INIT_TASK NULL false STATE_RUNNING)].
Definition small_machine : kernel unit unit := example_kernel three_tasks 3.

Definition ops_example : list sched_op :=
  [OpFork zero_iframe; OpKill 2 15; OpTick true; OpSwitch zero_iframe; OpWaitpid (-1) 0 0].
Fixpoint run_ops {FS N} (l : list sched_op) (s : kernel FS N) : outcome (unit * kernel FS N) :=
  match l with
  | [] => Done (tt, s)
  | o :: l => (run_op o;; run_ops l) s
  end.
Lemma run_ops_runs {FS N} (l : list sched_op) (s s' : kernel FS N) :
  run_ops l s = Done (tt, s') → (∀ o (s1 : kernel FS N), o ∈ l → op_ok o s1) → runs s l s'.
Proof.
  revert s. induction l as [|o l IH]; intros s H Hok; cbn [run_ops] in H.
  - injection H as <-. constructor.
  - apply K_bind_Done in H as ([] & s1 & H1 & H). econstructor; [apply Hok; set_solver|exact H1|].
    apply IH; [done|]. intros o' s2 Ho. apply Hok. set_solver.
Qed.

Lemma small_machine_W : W small_machine.
Proof.
  assert (Hring : ∀ p, p ∈ [INIT_TASK; 3] → p = INIT_TASK ∨ p = 3) by set_solver.
  split; [|by eexists]. exists [INIT_TASK; 3], (λ p, if p =? INIT_TASK then [3] else []).
  assert (Hdom : ∀ p n, tree small_machine !! p = Some n → p = IDLE_TASK ∨ p = INIT_TASK ∨ p = 3).
  { intros p n Hp. unfold tree in Hp. rewrite lookup_fmap in Hp.
    destruct (decide (p = IDLE_TASK)); [auto|]. destruct (decide (p = INIT_TASK)); [auto|]. destruct (decide (p = 3)); [auto|].
    unfold small_machine, example_kernel, three_tasks in Hp. cbn [tasks list_to_map foldr fst snd] in Hp.
    cbn in Hp. by rewrite !lookup_insert_ne, lookup_empty in Hp. }
  split; [|split; [set_solver|right; set_solver]]. split.
  - split; [done|]. exists 3. split; [done|]. split; [done|]. exists INIT_TASK. by split.
  - repeat (constructor; [set_solver|]). constructor.
  - intros p. split.
    + intros [n Hn]. apply Hdom in Hn as [|[|]]; [by left|right; set_solver..].
    + intros [->|[->| ->]%Hring]; by eexists.
  - intros p [->| ->]%Hring; vm_compute; split; congruence.
  - intros p n Hp Hn Ha. apply Hring in Hp as [->| ->]; injection Hn as <-; cbn; unfold child_of.
    + split; [split; [done|by exists NULL]|]. split; [repeat (constructor; [set_solver|]); constructor|].
      intros c. split; [intros ->%list_elem_of_singleton; split; [done|split; [set_solver|]]; by eexists|].
      intros (H1 & [->| ->]%Hring & _); set_solver.
    + split; [done|]. split; [constructor|]. intros c. split; [set_solver|].
      intros (H1 & [->| ->]%Hring & n & En & _ & Ep); [done|]. injection En as <-. discriminate Ep.
  - intros p c (H1 & [->| ->]%Hring & n & En & _ & Ep); [done|]. injection En as <-. cbn in Ep. subst p.
    split; [set_solver|by eexists].
  - split; [set_solver|by eexists].
  - by eexists.
  - intros p n Hp Hw. destruct (Hdom p n Hp) as [->|[->| ->]]; vm_compute in Hp; injection Hp as <-; done.
  - intros p (H1 & [->| ->]%Hring & n & En & _ & Ep); [done|]. injection En as <-. discriminate Ep.
Qed.

Lemma task_tables_invariant_witness :
  ∃ s', runs small_machine ops_example s' ∧ W s' ∧ current_task s' = 7 ∧ size (tasks s') = 4%nat.
Proof.
  assert (E : match run_ops ops_example small_machine with
              | Done (_, s') => current_task s' = 7 ∧ size (tasks s') = 4%nat | _ => False end)
    by (vm_compute; by split).
  destruct (run_ops ops_example small_machine) as [[[] s']| | |] eqn:Er; [|destruct E..]. exists s'.
  assert (Hr : runs small_machine ops_example s').
  { unfold ops_example in *. cbn [run_ops] in Er. apply K_bind_Done in Er as ([] & s1 & H1 & Er).
    econstructor; [|exact H1|].
    - eexists. split; vm_compute; reflexivity.
    - eapply run_ops_runs; [exact Er|]. clear. intros o s2 Ho. set_unfold. destruct Ho as [->|[->|[->|[->|[]]]]]; done. }
  split; [exact Hr|]. split; [|exact E].
  apply (task_tables_invariant small_machine ops_example s'); [exact small_machine_W|exact Hr].
Defined.

(** A zombie that is stopped and continued is ready to run again, although its open
    files and its children are gone. *)
Lemma zombie_revived :
  let s := example_kernel
    [(IDLE_TASK, example_task 0 0 IDLE_TASK NULL NULL NULL true STATE_READY);
     (INIT_TASK, example_task 1 1 3 NULL INIT_TASK 3 false STATE_RUNNING);
     (3, example_task 2 1 INIT_TASK NULL INIT_TASK NULL false STATE_ZOMBIE)] INIT_TASK in
  match (kill 2 SIGSTOP;; kill 2 SIGCONT;; run_next zero_iframe) s with
  | Done (_, s') => current_task s' = 3 ∧ state <$> tasks s' !! 3 = Some STATE_RUNNING
  | _ => False
  end.
Proof. vm_compute. by split. Qed.
