(* ===== verification/SignalEnds.v ===== *)
(** * Masks and handlers of SIGKILL and SIGSTOP; a fatal signal ends its task

    [ended p c]: task [p] is a zombie that a signal has ended, and [c] is the
    current task.  Everything that follows the exit of [p] keeps this, and no
    task switch picks [p] again. *)

From S2P Require Import Prelude Pipe Paging Vfs Net Udp Task Signal Fd Sched TaskTree SchedTree SchedLinks SchedInv.

(** ** SIGKILL and SIGSTOP cannot be caught, blocked or ignored

    A property that every task has ([every G]) survives all operations if [G]
    does not depend on what they change; here [G] speaks about masks and
    handlers. *)

Definition every {FS N} (G : task_t → Prop) (s : kernel FS N) : Prop := ∀ p t, tasks s !! p = Some t → G t.

(** Neither of the two signals is masked or has a handler. *)
Definition unblockable (t : task_t) : Prop :=
  Z.testbit (signal_mask (signals t)) (SIGKILL - 1) = false ∧
  Z.testbit (signal_mask (signals t)) (SIGSTOP - 1) = false ∧
  handler t SIGKILL = SIG_DFL ∧ handler t SIGSTOP = SIG_DFL.

Section every.
Context {FS N : Type}.
#[local] Notation kernel := (kernel FS N).
Implicit Types (s : kernel).
#[local] Notation P := (every (FS:=FS) (N:=N) unblockable).

Lemma every_task p : keeps P (task p).
Proof. intros s a s' Hs [-> _]%task_Done. done. Qed.
Lemma every_current : keeps P current.
Proof. intros s a s' Hs [-> _]%current_Done. done. Qed.
Lemma every_update p f : (∀ t, unblockable t → unblockable (f t)) → keeps P (update_task p f).
Proof.
  intros Hf s a s' Hs (t & Et & ->)%update_task_Done q t' E. cbn [tasks set_tasks] in E.
  destruct (decide (q = p)) as [->|]; [rewrite lookup_insert_eq in E; injection E as <-; by eauto|].
  rewrite lookup_insert_ne in E by done. by eauto.
Qed.
Lemma every_update_current f : (∀ t, unblockable t → unblockable (f t)) → keeps P (update_current f).
Proof. intros Hf. unfold update_current. keeps_step; [apply keeps_get|by apply every_update]. Qed.
Lemma every_modify (f : kernel → kernel) : (∀ s, tasks (f s) = tasks s) → keeps P (kmodify f).
Proof. intros Hf. apply keeps_modify. intros s Hs p t. rewrite Hf. apply Hs. Qed.
Lemma every_lift_tables {A} (m : K paging A) : keeps P (lift_tables m).
Proof. intros s a s' Hs [p ->]%lift_tables_Done. exact Hs. Qed.
Lemma every_lift_net {A} (m : K (net N) A) : keeps P (lift_net m).
Proof. intros s a s' Hs H. unfold lift_net in H. destruct (m (network s)) as [[x p]| | |]; simplify_eq. exact Hs. Qed.
Lemma every_lift_vfs {A} (m : K (vfs FS) A) : keeps P (lift_vfs m).
Proof.
  unfold lift_vfs. keeps_step; [apply every_current|]. keeps_step.
  { intros s x s' Hs H. destruct (m _) as [[y v]| | |]; simplify_eq. exact Hs. }
  keeps_step; [apply keeps_get|]. keeps_step; [by apply every_update_current|apply keeps_ret].
Qed.
Lemma every_for_tasks {A} (body : Z → A → K kernel A) stop a :
  (∀ p a, keeps P (body p a)) → keeps P (for_tasks body stop a).
Proof. intros Hb. unfold for_tasks. keeps_step; [apply keeps_get|]. apply keeps_ring_loop; [done|intros; apply every_task]. Qed.
End every.
#[export] Hint Resolve every_task every_current every_lift_tables every_lift_net every_lift_vfs : keeps.

Ltac every_step :=
  match goal with
  | |- keeps (every _) (kmodify _) => apply every_modify; intros ?; reflexivity
  | |- keeps (every _) (update_task _ _) => apply every_update; intros ? ?; assumption
  | |- keeps (every _) (update_current _) => apply every_update_current; intros ? ?; assumption
  | |- keeps (every _) (for_tasks _ _ _) => apply every_for_tasks; intros ? ?
  | |- keeps _ _ => keeps_step
  end.
Ltac every_tac := repeat every_step; auto with keeps nocore.

Section ops.
Context {FS N : Type}.
#[local] Notation kernel := (kernel FS N).
Implicit Types (s : kernel).
#[local] Notation P := (every (FS:=FS) (N:=N) unblockable).

Lemma every_release : keeps P release_process_fds.
Proof.
  unfold release_process_fds. generalize 0. induction MAX_FDS as [|n IH]; intros i; cbn [close_all]; [apply keeps_ret|].
  unfold fd_close, with_fd, lookup_fd, drop_description, close_file_description, update_description, close_socket,
    deref_socket, remove_pipe_end, deref_pipe. every_tac.
Qed.
Lemma every_reparent fuel c q : keeps P (reparent fuel c q).
Proof. revert c. induction fuel as [|fuel IH]; intros c; cbn [reparent]; every_tac. Qed.
Hint Resolve every_release every_reparent : keeps.
Lemma every_next_loop fuel start : keeps P (next_loop fuel start).
Proof. induction fuel as [|fuel IH]; cbn [next_loop]; every_tac. Qed.
Lemma every_choose : keeps P choose_task.
Proof. unfold choose_task, get_next_task. every_tac. apply every_next_loop. Qed.
Lemma every_call_handler sig h : keeps P (call_handler sig h).
Proof. unfold call_handler. every_tac. Qed.
Hint Resolve every_choose every_call_handler : keeps.
Lemma every_deliver exit : (∀ ret, keeps P (exit ret)) → keeps P (deliver_signals_with exit).
Proof.
  intros Hex. unfold deliver_signals_with. every_tac.
  generalize 0. generalize (deliverable a). generalize 31%nat. intros n d.
  induction n as [|n IH]; intros i; cbn [deliver_loop]; every_tac.
Qed.
Lemma every_switch_loop fuel : keeps P (switch_loop fuel).
Proof.
  induction fuel as [|fuel IH]; cbn [switch_loop]; [every_tac|]. keeps_step; [every_tac|]. keeps_step.
  - apply every_deliver. intros ret. unfold exit_with. every_tac.
  - unfold resume, restore_fpu. every_tac.
Qed.
Lemma every_switch_task : keeps P switch_task.
Proof. unfold switch_task. every_tac. apply every_switch_loop. Qed.
Hint Resolve every_switch_task : keeps.
Lemma every_exit ret : keeps P (exit ret).
Proof. unfold exit, exit_with. every_tac. Qed.
Lemma every_unlink_child p t : keeps P (unlink_child p t).
Proof.
  unfold unlink_child. every_tac. generalize (size (tasks a1)) (child (links a)). intros f.
  induction f as [|f IH]; intros h; cbn [unlink_sibling]; every_tac.
Qed.
Hint Resolve every_unlink_child : keeps.
Lemma every_collect p t : keeps P (collect p t).
Proof.
  unfold collect. every_tac. apply keeps_modify. intros s Hs q tq E. cbn [tasks set_tasks] in E.
  apply lookup_delete_Some in E as [_ E]. by eapply Hs.
Qed.
Hint Resolve every_collect : keeps.
Lemma every_gc : keeps P gc_tasks.
Proof.
  unfold gc_tasks. every_tac. generalize (size (tasks a)) INIT_TASK (next (links a0)). intros fuel.
  induction fuel as [|fuel IH]; intros p t; cbn [gc_loop]; every_tac.
Qed.
Hint Resolve every_gc : keeps.
Lemma every_run_next f : keeps P (run_next f).
Proof.
  unfold run_next, save_fpu. every_tac. apply every_update_current. intros t Ht.
  by destruct (bool_decide (state t = STATE_RUNNING)).
Qed.
Hint Resolve every_run_next : keeps.

(** ** New tasks, masks and handlers *)

(** A copy of a task keeps the masks and handlers. *)
Lemma every_insert p t s : P s → unblockable t → P (set_tasks (<[p := t]> (tasks s)) s).
Proof.
  intros Hs Ht q tq E. cbn [tasks set_tasks] in E. destruct (decide (q = p)) as [->|].
  - rewrite lookup_insert_eq in E. by injection E as <-.
  - rewrite lookup_insert_ne in E by done. by eapply Hs.
Qed.
Lemma every_task_bind {A} p (k : task_t → K kernel A) :
  (∀ t, unblockable t → keeps P (k t)) → keeps P (task p ≫= k).
Proof. intros Hk s a s' Hs (t & s1 & [-> Ht]%task_Done & H)%K_bind_Done. eapply (Hk t); [by eapply Hs|exact Hs|exact H]. Qed.
Lemma every_current_bind {A} (k : task_t → K kernel A) :
  (∀ t, unblockable t → keeps P (k t)) → keeps P (current ≫= k).
Proof. intros Hk s a s' Hs (t & s1 & [-> Ht]%current_Done & H)%K_bind_Done. eapply (Hk t); [by eapply Hs|exact Hs|exact H]. Qed.
Lemma every_link_task p new : keeps P (link_task p new).
Proof. unfold link_task. every_tac. Qed.
Lemma every_new_object : keeps P new_object.
Proof. unfold new_object. every_tac. Qed.
Lemma every_share_fds n i t : keeps P (share_fds n i t).
Proof. revert i. induction n as [|n IH]; intros i; cbn [share_fds]; unfold share, update_description; every_tac. Qed.
Hint Resolve every_link_task every_new_object every_share_fds : keeps.
Lemma every_fork f : keeps P (fork f).
Proof.
  unfold fork, save_fpu, next_pid. keeps_step; [every_tac|]. keeps_step; [every_tac|].
  keeps_step; [every_tac|]. keeps_step; [every_tac|]. keeps_step; [every_tac|].
  apply every_current_bind. intros t Ht. keeps_step; [every_tac|]. keeps_step; [|every_tac].
  apply keeps_modify. intros s Hs. apply every_insert; [done|]. exact Ht.
Qed.
Lemma every_create_kworker k g x : keeps P (create_kworker k g x).
Proof.
  unfold create_kworker, next_pid. keeps_step; [every_tac|]. keeps_step; [every_tac|].
  keeps_step; [every_tac|]. keeps_step; [every_tac|]. apply every_task_bind. intros t Ht.
  keeps_step; [every_tac|]. keeps_step; [every_tac|]. keeps_step; [|every_tac].
  apply keeps_modify. intros s Hs. apply every_insert; [done|]. exact Ht.
Qed.

(** The two places where masks and handlers change. *)
Lemma mask_guarded how m set m' :
  new_signal_mask how m set = Some m' →
  Z.testbit m' (SIGKILL - 1) = false ∧ Z.testbit m' (SIGSTOP - 1) = false.
Proof.
  unfold new_signal_mask. set (x := if how =? SIG_BLOCK then _ else _). destruct x as [v|]; [|done].
  intros H. injection H as <-. rewrite !Z.land_spec. split; apply andb_false_r.
Qed.
Lemma every_sigprocmask how set oldset : keeps P (sigprocmask how set oldset).
Proof.
  unfold sigprocmask. keeps_step; [every_tac|]. keeps_step; [every_tac|]. keeps_step; [every_tac|].
  keeps_step; [every_tac|]. destruct (new_signal_mask _ _ _) as [m|] eqn:Em; [|every_tac].
  keeps_step; [|every_tac]. apply every_update_current. intros t (_ & _ & H3 & H4).
  destruct (mask_guarded _ _ _ _ Em) as [H1 H2]. by split_and!.
Qed.
Lemma every_sigaction sig new old : keeps P (sigaction sig new old).
Proof.
  unfold sigaction. keeps_step; [every_tac|]. destruct ((sig =? SIGSTOP) || (sig =? SIGKILL)) eqn:Es; [every_tac|].
  apply orb_false_iff in Es as [H1%Z.eqb_neq H2%Z.eqb_neq].
  keeps_step; [every_tac|]. keeps_step; [every_tac|]. keeps_step; [every_tac|]. keeps_step; [every_tac|].
  keeps_step; [|every_tac]. apply every_update_current. intros t (G1 & G2 & G3 & G4). unfold unblockable, handler in *.
  cbn. split_and!; try done; by rewrite lookup_insert_ne.
Qed.
Lemma every_signal_task p sig : keeps P (signal_task p sig).
Proof. unfold signal_task, notify_parent. every_tac. Qed.
Hint Resolve every_signal_task : keeps.
Lemma every_kill k sig : keeps P (kill k sig).
Proof. unfold kill, signal_matching. every_tac. Qed.
Lemma every_raise sig : keeps P (raise sig).
Proof. unfold raise. every_tac. Qed.
Lemma every_find_sibling fuel p f : keeps P (find_sibling fuel p f).
Proof. revert p. induction fuel as [|fuel IH]; intros p; cbn [find_sibling]; every_tac. Qed.
Hint Resolve every_find_sibling : keeps.
Lemma every_report c ws e : keeps P (report c ws e).
Proof. unfold report. every_tac. apply every_update. intros t Ht. by destruct e. Qed.
Hint Resolve every_report : keeps.
Lemma every_check_blocked r : keeps P (check_blocked_tasks r).
Proof.
  unfold check_blocked_tasks, check_blocked_task, check_delay, check_wait_any, check_wait_child, in_space, unblock,
    set_result, get_first_waitpid_target, report_any. every_tac.
Qed.
Lemma every_waitpid k ws o : keeps P (waitpid k ws o).
Proof.
  unfold waitpid, wait_for, block_current, run_next_current, get_child, get_first_waitpid_target. every_tac.
Qed.
Lemma every_run_op o : keeps P (run_op o).
Proof.
  destruct o; cbn [run_op]; try (keeps_step; [|apply keeps_ret]).
  - apply every_check_blocked.
  - apply every_run_next.
  - apply every_fork.
  - apply every_exit.
  - apply every_kill.
  - apply every_raise.
  - apply every_deliver, every_exit.
  - unfold sigreturn, deliver_signals, resume, restore_fpu. every_tac. apply every_deliver, every_exit.
  - apply every_sigaction.
  - apply every_sigprocmask.
  - unfold sleep, block_current, run_next_current. every_tac.
  - apply every_waitpid.
  - unfold setpgid, get_child, find_task. every_tac.
  - unfold setsid. every_tac.
  - unfold fd_close, with_fd, lookup_fd, drop_description, close_file_description, update_description, close_socket,
      deref_socket, remove_pipe_end, deref_pipe. every_tac.
  - apply every_create_kworker.
  - unfold kworker_exit. every_tac.
Qed.
End ops.

(** ** What a pending SIGKILL does *)

Lemma land_bit d i : 0 ≤ i → (Z.land d (bit i) =? 0) = negb (Z.testbit d i).
Proof.
  intros Hi. unfold bit. rewrite Z.shiftl_1_l. destruct (Z.eqb_spec (Z.land d (2 ^ i)) 0) as [H|H].
  - assert (Hb : Z.testbit (Z.land d (2 ^ i)) i = false) by (rewrite H; apply Z.testbit_0_l).
    rewrite Z.land_spec, Z.pow2_bits_true, andb_true_r in Hb by done. by rewrite Hb.
  - destruct (Z.testbit d i) eqn:E; [done|]. destruct H. apply Z.bits_inj'. intros k Hk.
    rewrite Z.land_spec, Z.testbit_0_l. destruct (decide (k = i)) as [->|]; [by rewrite E|].
    rewrite Z.pow2_bits_false by done. apply andb_false_r.
Qed.
Lemma deliverable_bit t i :
  0 ≤ i → Z.testbit (deliverable t) i =
    Z.testbit (pending_signals (signals t)) i && negb (Z.testbit (signal_mask (signals t)) i).
Proof. intros Hi. unfold deliverable. by rewrite Z.land_spec, Z.lnot_spec. Qed.

(** The search finds every deliverable signal that is neither ignored nor
    ignored by default. *)
Definition acts (t : task_t) (sig : Z) : Prop :=
  handler t sig ≠ SIG_IGN ∧
  (handler t sig = SIG_DFL → signal_default_actions sig ≠ SIGNAL_IGNORE).
Lemma pending_loop_spec t n i : 0 ≤ i →
  pending_loop n i t = true ↔
  ∃ j, i ≤ j < i + Z.of_nat n ∧ Z.testbit (deliverable t) j = true ∧ acts t (j + 1).
Proof.
  revert i. induction n as [|n IH]; intros i Hi; cbn [pending_loop].
  { split; [done|]. intros (j & Hj & _). lia. }
  assert (Hskip : (pending_loop n (i + 1) t = true) →
    ∃ j, i ≤ j < i + Z.of_nat (S n) ∧ Z.testbit (deliverable t) j = true ∧ acts t (j + 1)).
  { intros (j & Hj & ?)%IH; [|lia]. exists j. split; [lia|done]. }
  assert (Hback : ¬ (Z.testbit (deliverable t) i = true ∧ acts t (i + 1)) →
    (∃ j, i ≤ j < i + Z.of_nat (S n) ∧ Z.testbit (deliverable t) j = true ∧ acts t (j + 1)) →
    pending_loop n (i + 1) t = true).
  { intros Hn (j & Hj & Hd). apply IH; [lia|]. exists j. split; [|done].
    destruct (decide (j = i)) as [->|]; [done|lia]. }
  rewrite land_bit by done. unfold acts in *.
  destruct (Z.testbit (deliverable t) i) eqn:Eb; cbn [negb]; [|split; [done|apply Hback; naive_solver]].
  destruct (Z.eqb_spec (handler t (i + 1)) SIG_IGN) as [|Hni]; [split; [done|apply Hback; naive_solver]|].
  destruct (Z.eqb_spec (handler t (i + 1)) SIG_DFL) as [Hd|Hd]; cbn [andb].
  - destruct (bool_decide_reflect (signal_default_actions (i + 1) = SIGNAL_IGNORE)) as [Ha|Ha].
    + split; [done|apply Hback; naive_solver].
    + split; [intros _; exists i; split; [lia|naive_solver]|done].
  - split; [intros _; exists i; split; [lia|naive_solver]|done].
Qed.
Lemma has_pending_spec t :
  has_pending_signals t = true ↔
  in_signal (signals t) = false ∧ ∃ sig, 1 ≤ sig ≤ 31 ∧ Z.testbit (deliverable t) (sig - 1) = true ∧ acts t sig.
Proof.
  unfold has_pending_signals. destruct (in_signal (signals t)); [naive_solver|].
  destruct (Z.eqb_spec (deliverable t) 0) as [E|E].
  - split; [done|]. intros (_ & sig & _ & Hb & _). by rewrite E, Z.testbit_0_l in Hb.
  - rewrite pending_loop_spec by lia. split.
    + intros (j & Hj & Hb & Ha). split; [done|]. exists (j + 1). replace (j + 1 - 1) with j by lia. split; [lia|done].
    + intros (_ & sig & Hs & Hb & Ha). exists (sig - 1). replace (sig - 1 + 1) with sig by lia. split; [lia|done].
Qed.

(** A pending SIGKILL counts unless a handler runs. *)
Lemma pending_kill_counts t :
  unblockable t → Z.testbit (pending_signals (signals t)) (SIGKILL - 1) = true →
  in_signal (signals t) = false → has_pending_signals t = true.
Proof.
  intros (H1 & H2 & H3 & H4) Hp Hi. apply has_pending_spec. split; [done|].
  exists SIGKILL. split; [unfold SIGKILL; lia|]. split.
  - rewrite deliverable_bit by (unfold SIGKILL; lia). by rewrite Hp, H1.
  - unfold acts. rewrite H3. split; done.
Qed.
(** While a handler runs nothing is delivered, SIGKILL included: a handler that
    does not return keeps its program alive. *)
Lemma handler_shields_from_sigkill {FS N} (s : kernel FS N) t :
  tasks s !! current_task s = Some t → in_signal (signals t) = true →
  deliver_signals s = Done (false, s) ∧ has_pending_signals t = false.
Proof.
  intros Et Hi. split; [|unfold has_pending_signals; by rewrite Hi].
  unfold deliver_signals, deliver_signals_with. erewrite K_bind_step by (by apply current_run).
  cbv beta. rewrite Hi. by destruct (_ =? _).
Qed.

Lemma small_machine_tasks p t :
  tasks small_machine !! p = Some t → ∃ k st nx sb par ch kw w, t = example_task k st nx sb par ch kw w.
Proof.
  intros Et. unfold small_machine, example_kernel, three_tasks in Et. cbn [tasks list_to_map foldr fst snd] in Et. cbn in Et.
  repeat (apply lookup_insert_Some in Et as [[_ <-]|[_ Et]]; [by repeat eexists|]). by rewrite lookup_empty in Et.
Qed.
Lemma small_machine_unblockable : every unblockable small_machine.
Proof. intros p t Et. destruct (small_machine_tasks p t Et) as (?&?&?&?&?&?&?&?& ->). by split_and!. Qed.
Definition dead_by_signal (t : task_t) : Prop :=
  state t = STATE_ZOMBIE ∧ -31 ≤ return_code (status t) ≤ -1.
Definition ended {FS N} (p c : Z) (s : kernel FS N) : Prop :=
  (∃ t, tasks s !! p = Some t ∧ dead_by_signal t) ∧ current_task s = c.

Section ended.
Context {FS N : Type}.
#[local] Notation kernel := (kernel FS N).
Implicit Types (s : kernel).
Context (p c : Z).
#[local] Notation P := (ended (FS:=FS) (N:=N) p c).

Lemma ended_task q : keeps P (task q).
Proof. intros s a s' Hs [-> _]%task_Done. done. Qed.
Lemma ended_current : keeps P current.
Proof. intros s a s' Hs [-> _]%current_Done. done. Qed.
Lemma ended_update q f :
  q ≠ p ∨ (∀ t, state (f t) = state t ∧ return_code (status (f t)) = return_code (status t)) →
  keeps P (update_task q f).
Proof.
  intros Hf s a s' [(t & Et & Hd) Hc] (tq & Eq & ->)%update_task_Done. split; [|done]. cbn [tasks set_tasks].
  destruct (decide (q = p)) as [->|Hq].
  - destruct Hf as [|Hf]; [done|]. rewrite lookup_insert_eq. eexists. split; [done|].
    assert (tq = t) as -> by congruence. unfold dead_by_signal. by destruct (Hf t) as [-> ->].
  - rewrite lookup_insert_ne by done. by exists t.
Qed.
Lemma ended_update_current f :
  c ≠ p ∨ (∀ t, state (f t) = state t ∧ return_code (status (f t)) = return_code (status t)) →
  keeps P (update_current f).
Proof.
  intros Hf s a s' Hs H. unfold update_current in H. bind_get H. eapply ended_update; [|exact Hs|exact H]. destruct Hs as [_ ->]. done.
Qed.
Lemma ended_modify (f : kernel → kernel) :
  (∀ s, tasks (f s) = tasks s ∧ current_task (f s) = current_task s) → keeps P (kmodify f).
Proof. intros Hf. apply keeps_modify. intros s Hs. unfold ended. by destruct (Hf s) as [-> ->]. Qed.
Lemma ended_lift_tables {A} (m : K paging A) : keeps P (lift_tables m).
Proof. intros s a s' Hs [q ->]%lift_tables_Done. exact Hs. Qed.
Lemma ended_lift_net {A} (m : K (net N) A) : keeps P (lift_net m).
Proof. intros s a s' Hs H. unfold lift_net in H. destruct (m (network s)) as [[x q]| | |]; simplify_eq. exact Hs. Qed.
Lemma ended_lift_vfs {A} (m : K (vfs FS) A) : keeps P (lift_vfs m).
Proof.
  unfold lift_vfs. keeps_step; [apply ended_current|]. keeps_step.
  { intros s x s' Hs H. destruct (m _) as [[y v]| | |]; simplify_eq. exact Hs. }
  keeps_step; [apply keeps_get|]. keeps_step; [apply ended_update_current; by right|apply keeps_ret].
Qed.
End ended.
#[export] Hint Resolve ended_task ended_current ended_lift_tables ended_lift_net ended_lift_vfs : keeps.
Ltac ended_step :=
  match goal with
  | |- keeps (ended _ _) (kmodify _) => apply ended_modify; intros ?; split; reflexivity
  | |- keeps (ended _ _) (update_task _ _) => apply ended_update; right; intros ?; split; reflexivity
  | |- keeps (ended _ _) (update_current _) => apply ended_update_current; right; intros ?; split; reflexivity
  | |- keeps _ _ => keeps_step
  end.
Ltac ended_tac := repeat ended_step; auto with keeps nocore.

Section ops.
Context {FS N : Type}.
#[local] Notation kernel := (kernel FS N).
Implicit Types (s : kernel).
Context (p : Z) (Hidle : p ≠ IDLE_TASK).
#[local] Notation P c := (ended (FS:=FS) (N:=N) p c).

Lemma ended_release c : keeps (P c) release_process_fds.
Proof.
  unfold release_process_fds. generalize 0. induction MAX_FDS as [|n IH]; intros i; cbn [close_all]; [apply keeps_ret|].
  unfold fd_close, with_fd, lookup_fd, drop_description, close_file_description, update_description, close_socket,
    deref_socket, remove_pipe_end, deref_pipe. ended_tac.
Qed.
Lemma ended_reparent c fuel x q : keeps (P c) (reparent fuel x q).
Proof. revert x. induction fuel as [|fuel IH]; intros x; cbn [reparent]; ended_tac. Qed.
Lemma ended_call_handler c sig h : keeps (P c) (call_handler sig h).
Proof. unfold call_handler. ended_tac. Qed.
Hint Resolve ended_release ended_reparent ended_call_handler : keeps.
Lemma ended_next_loop c fuel start : keeps (P c) (next_loop fuel start).
Proof. induction fuel as [|fuel IH]; cbn [next_loop]; ended_tac. Qed.

Lemma next_loop_not_ended c fuel start q s' : ∀ s, next_loop fuel start s = Done (Some q, s') → P c s' → q ≠ p.
Proof using.
  clear. induction fuel as [|fuel IH]; intros s H1 HP; [done|]. cbn [next_loop] in H1.
  bind_get H1.
  apply K_bind_Done in H1 as (t & ? & [-> Et]%task_Done & H1). bind_modify H1 s2. apply K_bind_Done in H1 as (t' & ? & [-> Et']%task_Done & H1).
  destruct (bool_decide_reflect (state t' = STATE_READY)) as [Es|].
  - unfold mret, K_ret in H1. injection H1 as <- <-. destruct HP as [(tz & Etz & Hz & _) _]. cbn in Et', Etz.
    intros Hx. rewrite Hx in Et'. congruence.
  - destruct (next (links t) =? start); [done|]. by eapply IH.
Qed.
(** The choice falls on another task. *)
Lemma ended_choose c s a s' : P c s → choose_task s = Done (a, s') → ∃ c', c' ≠ p ∧ P c' s'.
Proof using Hidle.
  intros HP H. unfold choose_task, get_next_task in H. apply K_bind_Done in H as (o & s1 & H1 & H).
  bind_get H1.
  assert (HP1 : P c s1) by (eapply ended_next_loop; [exact HP|exact H1]).
  assert (Hq : match o with Some q => q | None => IDLE_TASK end ≠ p).
  { destruct o as [q|]; [|done]. by eapply next_loop_not_ended. }
  set (q := match o with Some q => q | None => IDLE_TASK end) in *. cbv zeta in H. exists q. split; [done|].
  bind_modify H s2.
  assert (HP2 : P q (set_current_task q s1)) by (split; [apply HP1|done]).
  revert HP2 H. generalize (set_current_task q s1) a s'.
  match goal with |- ∀ s a s', P q s → ?m s = _ → _ => change (keeps (P q) m) end.
  keeps_step; [apply ended_update; by left|]. ended_tac.
Qed.
Definition gone s : Prop := ∃ c, c ≠ p ∧ P c s.
Lemma keeps_gone {A} (m : K kernel A) : (∀ c, c ≠ p → keeps (P c) m) → keeps gone m.
Proof. intros Hm s a s' (c & Hc & HP) H. exists c. split; [done|]. by eapply Hm. Qed.

Lemma gone_deliver exit : (∀ ret, keeps gone (exit ret)) → keeps gone (deliver_signals_with exit).
Proof using Hidle.
  intros Hex. unfold deliver_signals_with. keeps_step; [apply keeps_gone; intros; ended_tac|].
  keeps_step; [apply keeps_ret|]. keeps_step; [apply keeps_ret|].
  generalize 0. generalize (deliverable a). generalize 31%nat. intros n d.
  induction n as [|n IH]; intros i; cbn [deliver_loop]; [apply keeps_ret|].
  keeps_step; [apply IH|]. keeps_step; [apply keeps_gone; intros; ended_tac|]. keeps_step; [apply keeps_gone; intros; ended_tac|].
  cbv zeta. keeps_step; [keeps_step; [keeps_step; [apply Hex|apply keeps_ret]|apply IH]|].
  keeps_step; [apply IH|]. keeps_step; (keeps_step; [|apply IH]); apply keeps_gone; intros; ended_tac.
Qed.
Lemma gone_exit_with switch ret :
  (∀ c s a s', P c s → switch s = Done (a, s') → gone s') → keeps gone (exit_with switch ret).
Proof using Hidle.
  intros Hsw. unfold exit_with. keeps_step; [apply keeps_get|]. keeps_step; [apply keeps_fail|].
  keeps_step; [apply keeps_gone; intros; ended_tac|].
  keeps_step; [apply keeps_gone; intros; apply ended_update_current; by left|].
  do 4 (keeps_step; [apply keeps_gone; intros; ended_tac|]). keeps_step; [apply keeps_gone; intros; ended_tac|].
  intros s b s' (c & _ & HP) H. by eapply Hsw.
Qed.
Lemma gone_switch fuel : ∀ c s a s', P c s → switch_loop fuel s = Done (a, s') → gone s'.
Proof using Hidle.
  induction fuel as [|fuel IH]; intros c s a s' HP H; [done|]. cbn [switch_loop] in H.
  apply K_bind_Done in H as ([] & s1 & H1 & H). apply (ended_choose c) in H1; [|done].
  apply K_bind_Done in H as (e & s2 & H2 & H).
  assert (HG : gone s2) by (eapply (gone_deliver _); [|exact H1|exact H2]; intros ret; by apply gone_exit_with).
  revert HG H. generalize s2 a s'.
  match goal with |- ∀ s a s', gone s → ?m s = _ → _ => change (keeps gone m) end.
  apply keeps_gone. intros c' _. unfold resume, restore_fpu. ended_tac.
Qed.

(** [exit] of [p] itself. *)
Lemma exit_ends_task ret s a s' :
  current_task s = p → -31 ≤ ret ≤ -1 → exit ret s = Done (a, s') → gone s'.
Proof using Hidle.
  intros Hc Hr H. unfold exit, exit_with in H.
  bind_get H.
  destruct (_ =? INIT_TASK); [done|]. apply K_bind_Done in H as (? & s1 & H1 & H).
  assert (Hc1 : current_task s1 = p).
  { pose proof (keeps_release _ _ _ _ _ _ _ (framed_refl s) H1) as (_ & Hx & _). congruence. }
  apply K_bind_Done in H as (? & s2 & H2 & H). apply update_current_Done in H2 as (t & Et & ->). rewrite Hc1 in *.
  match type of H with _ ?x = _ => assert (HP : P p x) end.
  { split; [|exact Hc1]. cbn [tasks set_tasks]. rewrite lookup_insert_eq. eexists. split; [done|]. by split. }
  apply K_bind_Done in H as (? & s3 & H3 & H). apply (ended_current p p) in H3; [|done].
  apply K_bind_Done in H as (? & s4 & H4 & H). apply (ended_update p p) in H4; [|by right|done].
  apply K_bind_Done in H as (? & s5 & H5 & H). apply (ended_current p p) in H5; [|done].
  bind_get H.
  apply K_bind_Done in H as (? & s6 & H6 & H). apply (ended_reparent p) in H6; [|done].
  unfold switch_task in H. bind_get H.
  exact (gone_switch _ p s6 a s' H6 H).
Qed.
End ops.

Section deliver.
Context {FS N : Type}.
#[local] Notation kernel := (kernel FS N).
Implicit Types (s : kernel).
Context (p sig : Z) (Hidle : p ≠ IDLE_TASK).
Context (Hfatal : signal_default_actions sig = SIGNAL_TERMINATE).

(** The task runs and has not installed a handler for the signal. *)
Definition defenceless s : Prop :=
  current_task s = p ∧ ∃ t, tasks s !! p = Some t ∧ handler t sig = SIG_DFL.
Lemma keeps_defenceless_update f :
  (∀ t, signal_handlers (signals (f t)) = signal_handlers (signals t)) → keeps defenceless (update_current f).
Proof using.
  clear. intros Hf s a s' [Hc (t & Et & Hh)] (t' & Et' & ->)%update_current_Done. split; [done|].
  rewrite Hc in *. assert (t' = t) as -> by congruence. cbn [tasks set_tasks]. rewrite lookup_insert_eq.
  eexists. split; [done|]. unfold handler in *. by rewrite Hf.
Qed.
Lemma keeps_defenceless_current : keeps defenceless current.
Proof using. clear. intros s a s' Hs [-> _]%current_Done. done. Qed.
Lemma keeps_defenceless_call k h : keeps defenceless (call_handler k h).
Proof using.
  clear. unfold call_handler. do 2 (keeps_step; [by apply keeps_defenceless_update|]).
  keeps_step; [apply keeps_defenceless_current|]. keeps_step; [|by apply keeps_defenceless_update].
  intros ? ? ? Hs [q ->]%lift_tables_Done. exact Hs.
Qed.

Lemma deliver_loop_ends d n : ∀ i s b s',
  0 ≤ i ≤ sig - 1 → sig - 1 < i + Z.of_nat n → i + Z.of_nat n ≤ 31 → Z.testbit d (sig - 1) = true → defenceless s →
  deliver_loop exit n i d s = Done (b, s') → b = true ∧ gone p s'.
Proof using All.
  induction n as [|n IH]; intros i s b s' Hi Hn H31 Hd HD H; [lia|]. cbn [deliver_loop] in H.
  assert (Hnext : ∀ s, i ≠ sig - 1 → defenceless s → deliver_loop exit n (i + 1) d s = Done (b, s') → b = true ∧ gone p s').
  { intros s0 Hne HD0 H0. apply (IH (i + 1) s0 b s'); [lia|lia|lia|done|done|done]. }
  rewrite land_bit in H by lia. destruct (Z.testbit d i) eqn:Eb; cbn [negb] in H.
  2:{ apply Hnext in H; [done| |done]. intros ->. congruence. }
  apply K_bind_Done in H as (? & s1 & H1 & H). apply keeps_defenceless_update in H1; [|done|done].
  apply K_bind_Done in H as (t & ? & [-> Et]%current_Done & H). cbv zeta in H.
  assert (Hh : i = sig - 1 → handler t (i + 1) = SIG_DFL).
  { intros ->. replace (sig - 1 + 1) with sig by lia. destruct H1 as [Hc (t' & Et' & ?)]. congruence. }
  destruct (Z.eqb_spec (handler t (i + 1)) SIG_DFL) as [Hdfl|Hdfl].
  - destruct (bool_decide_reflect (signal_default_actions (i + 1) = SIGNAL_TERMINATE)) as [|Hterm].
    + apply K_bind_Done in H as (? & s2 & H2 & H). unfold mret, K_ret in H. injection H as <- <-. split; [done|].
      apply (exit_ends_task p Hidle _ _ _ _ (proj1 H1)) in H2; [done|]. lia.
    + apply Hnext in H; [done| |done]. intros ->. replace (sig - 1 + 1) with sig in Hterm by lia. done.
  - assert (Hne : i ≠ sig - 1) by (intros Hx; by apply Hdfl, Hh).
    destruct (handler t (i + 1) =? SIG_IGN); [by apply Hnext in H|].
    destruct (negb (cs (iframe (context t)) =? USER_CS)); apply K_bind_Done in H as (? & s2 & H2 & H);
      apply Hnext in H; try done.
    + by eapply keeps_defenceless_update in H2.
    + by eapply keeps_defenceless_call in H2.
Qed.
End deliver.

Section ends.
Context {FS N : Type}.

(** C27: A fatal signal is final.  Take a current task, other than the idle task,
    that is not inside a signal handler and has a deliverable signal whose default
    action is to terminate and for which it has no handler.  Whatever handlers its
    other signals have, when deliver_signals completes for it, it answers true (the
    task does not return to user mode), another task is the current one, and the
    task is a zombie whose return code is the negated number of a signal.  Inside a
    handler nothing is delivered (handler_shields_from_sigkill). *)
Theorem fatal_signal_ends (s s' : kernel FS N) p t sig b :
  current_task s = p → p ≠ IDLE_TASK → tasks s !! p = Some t → in_signal (signals t) = false →
  1 ≤ sig ≤ 31 → Z.testbit (deliverable t) (sig - 1) = true →
  handler t sig = SIG_DFL → signal_default_actions sig = SIGNAL_TERMINATE →
  deliver_signals s = Done (b, s') →
  b = true ∧ current_task s' ≠ p ∧
  ∃ t', tasks s' !! p = Some t' ∧ state t' = STATE_ZOMBIE ∧ -31 ≤ return_code (status t') ≤ -1.
Proof.
  intros Hc Hidle Et Hin Hsig Hb Hh Hf H. unfold deliver_signals, deliver_signals_with in H.
  apply K_bind_Done in H as (t' & ? & [-> Et']%current_Done & H). rewrite Hc in Et'.
  assert (t' = t) as -> by congruence. rewrite Hin in H.
  destruct (Z.eqb_spec (deliverable t) 0) as [E|_]; [by rewrite E, Z.testbit_0_l in Hb|].
  destruct (deliver_loop_ends p sig Hidle Hf (deliverable t) 31 0 s b s') as [-> (c & Hne & (tz & Etz & Hz & Hr) & Hcz)];
    [lia|lia|lia|done|split; [done|by exists t]|done|].
  split; [done|]. split; [congruence|]. by exists tz.
Qed.
End ends.

Definition signalled (sig : Z) : kernel unit unit :=
  set_tasks (alter (add_pending (sig - 1)) 3 (tasks small_machine)) small_machine.
Lemma fatal_signal_ends_witness :
  ∃ s', deliver_signals (signalled SIGKILL) = Done (true, s') ∧ current_task s' ≠ 3.
Proof.
  destruct (deliver_signals (signalled SIGKILL)) as [[b s']| | |] eqn:E.
  2-4: assert (Ec : completes (deliver_signals (signalled SIGKILL)) = true) by (vm_compute; reflexivity);
    rewrite E in Ec; discriminate Ec.
  destruct (fatal_signal_ends (signalled SIGKILL) s' 3 (add_pending 8 (example_task 2 1 INIT_TASK NULL INIT_TASK NULL false STATE_RUNNING)) SIGKILL b)
    as (-> & Hc & _).
  - reflexivity.
  - discriminate.
  - vm_compute. reflexivity.
  - reflexivity.
  - unfold SIGKILL. lia.
  - vm_compute. reflexivity.
  - vm_compute. reflexivity.
  - vm_compute. reflexivity.
  - exact E.
  - by exists s'.
Defined.
