(* ===== verification/SchedFair.v ===== *)
(** * Round robin is fair

    get_next_task looks at the tasks in the order of the ring, starting behind
    the task it picked last.  It always finds a ready task if there is one, and a
    task that stays ready is passed over fewer times than there are tasks. *)

From S2P Require Import Prelude Paging Vfs Pipe Net Udp Task Signal Fd Sched TaskTree SchedTree SchedLinks SchedInv.

Section fair.
Context {FS N : Type}.
#[local] Notation kernel := (kernel FS N).
Implicit Types (s : kernel) (l : list Z).

Definition ready s (p : Z) : bool :=
  match tasks s !! p with Some t => bool_decide (state t = STATE_READY) | None => false end.

(** [l] are the tasks from behind rr_task on, around the ring. *)
Definition turn s l : Prop :=
  chain (nexts (tree s)) (rr_task s) (rr_task s :: l) (rr_task s) ∧ NoDup (rr_task s :: l) ∧ (length l < size (tasks s))%nat.

Lemma chain_rotate g l1 p l2 q : chain g q (l1 ++ p :: l2) q → chain g p (p :: l2 ++ l1) p.
Proof.
  rewrite chain_app. intros (r & H1 & H2). destruct H2 as (-> & y & Hy & H2). split; [done|].
  exists y. split; [done|]. apply chain_app. by exists q.
Qed.
Lemma nodup_rotate l1 (p : Z) l2 : NoDup (l1 ++ p :: l2) → NoDup (p :: l2 ++ l1).
Proof. intros H. by rewrite Permutation_app_comm in H. Qed.
Lemma W0_turn s : W0 s → ∃ l, turn s l ∧ (S (length l) < size (tasks s))%nat ∧
  (∀ p, p ∈ rr_task s :: l → p ≠ IDLE_TASK ∧ is_Some (tasks s !! p)) ∧
  (∀ p, is_Some (tasks s !! p) → p ≠ IDLE_TASK → p ∈ rr_task s :: l).
Proof.
  intros (ring & kids & Hwf & Hrr & _). pose proof (wf_ring _ _ _ _ Hwf) as Hch.
  pose proof (ring_size _ _ _ _ Hwf) as Hsz. unfold tree in Hsz. rewrite map_size_fmap in Hsz.
  destruct (nodup_split _ _ Hrr (wf_ring_nodup _ _ _ _ Hwf)) as (l1 & l2 & Er & H1 & H2).
  rewrite Er in Hch, Hsz. apply chain_rotate in Hch. rewrite length_app in Hsz. cbn in Hsz.
  exists (l2 ++ l1). unfold turn. rewrite length_app.
  assert (Hring : ∀ p, p ∈ rr_task s :: l2 ++ l1 ↔ p ∈ ring) by (rewrite Er; set_solver).
  assert (Hdom : ∀ p, is_Some (tasks s !! p) ↔ p = IDLE_TASK ∨ p ∈ ring).
  { intros p. rewrite <-(wf_dom _ _ _ _ Hwf). unfold tree. by rewrite lookup_fmap, fmap_is_Some. }
  assert (Hnd : NoDup (rr_task s :: l2 ++ l1)).
  { apply nodup_rotate. rewrite <-Er. apply (wf_ring_nodup _ _ _ _ Hwf). }
  split; [split; [exact Hch|split; [exact Hnd|lia]]|]. split; [lia|]. split.
  - intros p Hp%Hring. split; [by apply (ring_not_null _ _ _ _ Hwf)|]. apply Hdom. by right.
  - intros p Hp Hi. apply Hring. apply Hdom in Hp. naive_solver.
Qed.

Lemma next_loop_step fuel start s t t' :
  tasks s !! rr_task s = Some t → tasks s !! next (links t) = Some t' →
  next_loop (S fuel) start s =
    let p := next (links t) in
    if ready s p then Done (Some p, set_rr_task p s)
    else if p =? start then Done (None, set_rr_task p s)
    else next_loop fuel start (set_rr_task p s).
Proof.
  intros E E'. cbn [next_loop]. erewrite K_bind_step by reflexivity. erewrite K_bind_step by (by apply task_run).
  erewrite K_bind_step by reflexivity. erewrite K_bind_step by (by apply task_run).
  unfold ready. rewrite E'. cbv zeta. destruct (bool_decide _); [done|]. by destruct (_ =? start).
Qed.

(** The search in terms of the order of the ring. *)
Lemma next_loop_run start : ∀ l fuel s,
  chain (nexts (tree s)) (rr_task s) (rr_task s :: l) start → start ∉ l → is_Some (tasks s !! start) →
  (length l < fuel)%nat →
  next_loop fuel start s =
    Done (find (ready s) (l ++ [start]), set_rr_task (default start (find (ready s) (l ++ [start]))) s).
Proof.
  induction l as [|p l IH]; intros fuel s (_ & y & Hy & Hch) Hn [ts Ets] Hf; (destruct fuel as [|fuel]; [cbn in Hf; lia|]);
    unfold nexts, tree in Hy; rewrite lookup_fmap in Hy;
    (destruct (tasks s !! rr_task s) as [t|] eqn:Et; [|done]);
    (assert (next (links t) = y) as <- by (cbn in Hy; congruence)); cbn [chain] in Hch.
  - rewrite (next_loop_step fuel start s t ts) by congruence. rewrite Hch. cbn.
    destruct (ready s start); [done|]. by rewrite Z.eqb_refl.
  - destruct Hch as (Hp & z & Hz & Hch).
    assert (exists tp, tasks s !! p = Some tp) as [tp Etp].
    { unfold nexts, tree in Hz. rewrite lookup_fmap in Hz. destruct (tasks s !! p); [by eexists|done]. }
    rewrite (next_loop_step fuel start s t tp) by congruence. rewrite Hp. cbn [app find].
    destruct (ready s p); [done|]. rewrite (proj2 (Z.eqb_neq p start)) by set_solver.
    rewrite (IH fuel (set_rr_task p s)); [done| |set_solver|by exists ts|cbn in *; lia].
    split; [done|]. by exists z.
Qed.
Lemma get_next_task_run s l : turn s l → is_Some (tasks s !! rr_task s) → get_next_task s =
  Done (find (ready s) (l ++ [rr_task s]), set_rr_task (default (rr_task s) (find (ready s) (l ++ [rr_task s]))) s).
Proof. intros (Hch & [Hn _]%NoDup_cons & Hl) Hs. unfold get_next_task, kget. cbn. by apply next_loop_run. Qed.

(** [n] times in a row the scheduler picks a task other than [q] although [q] is
    ready; in between anything may happen but the creation and removal of tasks. *)
Inductive passed_over (q : Z) : nat → kernel → kernel → Prop :=
| passed_none s : passed_over q 0 s s
| passed_once n s p s1 s2 s3 :
    ready s q = true → get_next_task s = Done (Some p, s1) → p ≠ q →
    rr_task s2 = rr_task s1 → nexts (tree s2) = nexts (tree s1) →
    passed_over q n s2 s3 → passed_over q (S n) s s3.

Lemma find_before (f : Z → bool) l p q : find f l = Some p → f q = true → q ∈ l → p ≠ q →
  ∃ l1 l2, l = l1 ++ p :: l2 ∧ q ∈ l2.
Proof.
  induction l as [|x l IH]; [done|]. cbn. destruct (f x) eqn:Ex.
  - intros [= ->] _ Hq Hne. exists [], l. set_solver.
  - intros H Hq Hin Hne. destruct IH as (l1 & l2 & -> & H2); [done|done| |done|by exists (x :: l1), l2].
    apply elem_of_cons in Hin as [->|?]; [congruence|done].
Qed.
Lemma turn_next s s' l a p b : turn s l → l ++ [rr_task s] = a ++ p :: b → b ≠ [] →
  size (tasks s') = size (tasks s) → nexts (tree s') = nexts (tree s) → rr_task s' = p → turn s' (b ++ a).
Proof.
  intros (Hch & Hnd & Hl) El Hb Hsz Hnx Hrr.
  destruct b as [|x b _] using rev_ind; [done|]. rewrite app_comm_cons, app_assoc in El.
  apply app_inj_tail in El as [-> <-]. rewrite app_comm_cons in Hch. apply chain_rotate in Hch.
  unfold turn. rewrite Hrr, Hnx, Hsz, <-app_assoc. split; [done|]. split.
  - by apply (nodup_rotate (rr_task s :: a)).
  - rewrite !length_app in *. cbn in *. lia.
Qed.
Lemma passed_over_bound q n : ∀ s s' l a b, passed_over q n s s' → turn s l → is_Some (tasks s !! rr_task s) →
  l ++ [rr_task s] = a ++ q :: b → (n ≤ length a)%nat.
Proof.
  induction n as [|n IH]; intros s s' l a b Hp Ht Hrr El; [lia|].
  inversion Hp as [|? ? p s1 s2 s3 Hq Hg Hne Hr2 Hn2 Hrest]; subst.
  rewrite (get_next_task_run s l Ht Hrr) in Hg. injection Hg as Hf <-. rewrite Hf in *. cbn in Hr2.
  destruct (find_before _ _ _ _ Hf Hq ltac:(rewrite El; set_solver) Hne) as (l1 & l2 & El' & Hin).
  apply list_elem_of_split in Hin as (c & d & ->).
  assert (Hsz : size (tasks s2) = size (tasks s)).
  { cut (size (tree s2) = size (tree s)); [unfold tree; by rewrite !map_size_fmap|].
    rewrite <-!size_dom. f_equal. apply set_eq. intros x. rewrite !elem_of_dom.
    assert (Hx : n_next <$> tree s2 !! x = n_next <$> tree s !! x) by exact (f_equal (λ f, f x) Hn2).
    by rewrite <-(fmap_is_Some n_next (tree s2 !! x)), Hx, fmap_is_Some. }
  assert (Ht2 : turn s2 ((c ++ q :: d) ++ l1)) by (eapply turn_next; [exact Ht|exact El'|by destruct c|done|done|done]).
  assert (Hi2 : is_Some (tasks s2 !! rr_task s2)).
  { destruct Ht2 as [(_ & y & Hy & _) _]. unfold nexts, tree in Hy. rewrite lookup_fmap in Hy.
    destruct (tasks s2 !! rr_task s2); [by eexists|done]. }
  pose proof (IH s2 s' _ c (d ++ l1 ++ [rr_task s2]) Hrest Ht2 Hi2) as Hle.
  assert (Hc : (n ≤ length c)%nat) by (apply Hle; by rewrite <-!app_assoc).
  assert (Hnd : NoDup (l ++ [rr_task s])).
  { destruct Ht as (_ & Hnd & _). by rewrite Permutation_app_comm. }
  cut (a = l1 ++ p :: c); [intros ->; rewrite length_app; cbn; lia|].
  rewrite El in Hnd. rewrite El, app_comm_cons, app_assoc in El'. clear -Hnd El'.
  revert a El' Hnd. generalize (l1 ++ p :: c). intros m. induction m as [|x m IHm]; intros [|y a] E Hnd; cbn in *.
  - done.
  - injection E as <- E. apply NoDup_cons in Hnd as [Hn _]. set_solver.
  - injection E as <- E. apply NoDup_cons in Hnd as [Hn _]. rewrite E in Hn. set_solver.
  - injection E as <- E. f_equal. apply IHm; [done|]. by apply NoDup_cons in Hnd as [_ ?].
Qed.

(** C30: Round robin starves nobody.  In a sound state get_next_task always returns,
    it returns a ready task if and only if there is one besides the idle task, and
    however the tasks run in between, as long as none is created or removed, a task
    that stays ready is passed over by fewer picks in a row than there are
    tasks. *)
Theorem ready_task_not_starved s :
  W0 s →
  (∃ o s', get_next_task s = Done (o, s') ∧
    match o with
    | Some p => p ≠ IDLE_TASK ∧ ready s p = true ∧ rr_task s' = p
    | None => ∀ p, p ≠ IDLE_TASK → ready s p = false
    end) ∧
  ∀ q n s', passed_over q n s s' → q ≠ IDLE_TASK → (n + 1 < size (tasks s))%nat.
Proof.
  intros HW. destruct (W0_turn s HW) as (l & Ht & Hl & Hin & Hall).
  assert (Hrr : is_Some (tasks s !! rr_task s)) by (apply Hin; set_solver).
  assert (Hmem : ∀ p, p ∈ l ++ [rr_task s] ↔ p ∈ rr_task s :: l) by set_solver.
  split.
  - eexists _, _. split; [by apply get_next_task_run|]. destruct (find _ _) as [p|] eqn:Ef.
    + apply find_some in Ef as [Hp%list_elem_of_In Hr]. split; [|done]. by apply Hin, Hmem.
    + intros p Hi. pose proof (find_none _ _ Ef p) as Hn. rewrite <-list_elem_of_In, Hmem in Hn.
      destruct (ready s p) eqn:Er; [|done]. apply Hn, Hall; [|done].
      unfold ready in Er. by destruct (tasks s !! p).
  - intros q [|n] s' Hp Hi; [lia|]. assert (Hq : q ∈ l ++ [rr_task s]).
    { apply Hmem, Hall; [|done]. inversion Hp as [|? ? ? ? ? ? Hr]; subst. unfold ready in Hr. by destruct (tasks s !! q). }
    apply list_elem_of_split in Hq as (a & b & El). pose proof (passed_over_bound _ _ _ _ _ _ _ Hp Ht Hrr El).
    apply (f_equal length) in El. rewrite !length_app in El. cbn in El. lia.
Qed.
End fair.

(** Task 3 is ready; init comes first. *)
Definition waiting_machine : kernel unit unit :=
  set_tasks (alter (set_state STATE_READY) 3 (tasks small_machine)) small_machine.
Lemma waiting_machine_W0 : W0 waiting_machine.
Proof.
  apply (framed_W0 small_machine); [|apply small_machine_W].
  split; [vm_compute; reflexivity|]. by split_and!.
Qed.
Lemma ready_task_not_starved_witness :
  ∃ s', passed_over 3 1 waiting_machine s' ∧ (1 + 1 < size (tasks waiting_machine))%nat.
Proof.
  assert (Hp : passed_over 3 1 waiting_machine (set_rr_task 2 waiting_machine)).
  { apply (passed_once 3 0 _ 2 (set_rr_task 2 waiting_machine) (set_rr_task 2 waiting_machine));
      [vm_compute; reflexivity|vm_compute; reflexivity|discriminate|reflexivity|reflexivity|constructor]. }
  eexists. split; [exact Hp|].
  apply (proj2 (ready_task_not_starved waiting_machine waiting_machine_W0) 3 1%nat _ Hp). discriminate.
Defined.
