(* ===== verification/SignalReturn.v ===== *)
(** * A handler runs and returns to the interrupted code

    deliver_signals makes the task enter the handler with the frame it was
    interrupted in put aside, and sigreturn takes that frame back. *)

From S2P Require Import Prelude Pipe Paging PagingUser Vfs Net Udp Task Signal Fd Sched TaskTree SchedTree SchedLinks SchedInv SignalEnds.

(** A signal that delivery drops without effect. *)
Definition quiet (t : task_t) (sig : Z) : Prop :=
  handler t sig = SIG_IGN ∨
  (handler t sig = SIG_DFL ∧ signal_default_actions sig ≠ SIGNAL_TERMINATE).
(** What delivery leaves of the signals of a task besides the pending ones. *)
Definition fewer_pending (t t' : task_t) : Prop :=
  context t' = context t ∧ signal_handlers (signals t') = signal_handlers (signals t) ∧
  in_signal (signals t') = in_signal (signals t) ∧
  signal_interrupted_iframe (signals t') = signal_interrupted_iframe (signals t) ∧
  signal_interrupted_fpu_state (signals t') = signal_interrupted_fpu_state (signals t) ∧
  ∀ k, Z.testbit (pending_signals (signals t)) k = false → Z.testbit (pending_signals (signals t')) k = false.
Lemma fewer_refl t : fewer_pending t t.
Proof. by split_and!. Qed.
Lemma fewer_trans t1 t2 t3 : fewer_pending t1 t2 → fewer_pending t2 t3 → fewer_pending t1 t3.
Proof. intros (?&?&?&?&?&Ha) (?&?&?&?&?&Hb). split_and!; [congruence..|]. intros k Hk. auto. Qed.
Lemma drop_pending_bit i t k : 0 ≤ i →
  Z.testbit (pending_signals (signals (drop_pending i t))) k =
    Z.testbit (pending_signals (signals t)) k && negb (k =? i).
Proof.
  intros Hi. cbn. destruct (Z.ltb_spec k 0); [by rewrite !Z.testbit_neg_r|].
  unfold bit. rewrite Z.shiftl_1_l, Z.land_spec, Z.lnot_spec by done.
  by rewrite Z.pow2_bits_eqb, Z.eqb_sym by done.
Qed.
Lemma fewer_drop i t : 0 ≤ i → fewer_pending t (drop_pending i t).
Proof. intros Hi. split_and!; try done. intros k Hk. by rewrite drop_pending_bit, Hk. Qed.
Lemma quiet_fewer t t' sig : fewer_pending t t' → quiet t sig → quiet t' sig.
Proof. intros (_ & Hh & _). unfold quiet, handler. by rewrite Hh. Qed.

Section return_.
Context {FS N : Type}.
#[local] Notation kernel := (kernel FS N).
Implicit Types (s : kernel).
Context (p : Z) (exit : Z → K kernel unit).

(** The current task is [p], with the fields [t]; nothing outside of it matters here. *)
Definition at_task (t : task_t) (q : paging) s : Prop :=
  current_task s = p ∧ tasks s !! p = Some t ∧ tables s = q.
Lemma at_update f t q s : at_task t q s →
  ∃ s', update_current f s = Done (tt, s') ∧ at_task (f t) q s'.
Proof using.
  clear. intros (Hc & Et & Hq). eexists. split; [apply update_current_run; by rewrite Hc|].
  split; [done|]. split; [|done]. cbn. by rewrite Hc, lookup_insert_eq.
Qed.
Lemma at_current t q s : at_task t q s → current s = Done (t, s).
Proof using. clear. intros (Hc & Et & _). apply current_run. by rewrite Hc. Qed.

(** One turn of the loop. *)
Lemma deliver_skip n i d s : 0 ≤ i → Z.testbit d i = false →
  deliver_loop exit (S n) i d s = deliver_loop exit n (i + 1) d s.
Proof using. clear. intros Hi Hb. cbn [deliver_loop]. by rewrite land_bit, Hb. Qed.
Lemma deliver_quiet n i d t q s : 0 ≤ i → Z.testbit d i = true → quiet t (i + 1) → at_task t q s →
  ∃ s1, at_task (drop_pending i t) q s1 ∧ deliver_loop exit (S n) i d s = deliver_loop exit n (i + 1) d s1.
Proof using.
  clear. intros Hi Hb Hq Hs. cbn [deliver_loop]. rewrite land_bit, Hb by done.
  destruct (at_update (drop_pending i) t q s Hs) as (s1 & H1 & Hs1). exists s1. split; [done|]. cbn [negb].
  erewrite K_bind_step by exact H1. erewrite K_bind_step by (by eapply at_current). cbv zeta.
  change (handler (drop_pending i t) (i + 1)) with (handler t (i + 1)).
  destruct Hq as [->|[-> Ht]]; [done|]. rewrite Z.eqb_refl. by rewrite bool_decide_false.
Qed.
Lemma deliver_all_quiet d n : ∀ i t q s, 0 ≤ i →
  (∀ j, i ≤ j < i + Z.of_nat n → Z.testbit d j = true → quiet t (j + 1)) → at_task t q s →
  ∃ s1 t1, deliver_loop exit n i d s = Done (false, s1) ∧ at_task t1 q s1 ∧ fewer_pending t t1.
Proof using.
  clear. induction n as [|n IH]; intros i t q s Hi Hq Hs; [by exists s, t|].
  destruct (Z.testbit d i) eqn:Eb.
  - destruct (deliver_quiet n i d t q s Hi Eb) as (s1 & Hs1 & ->); [by apply Hq; [lia|]|done|].
    destruct (IH (i + 1) (drop_pending i t) q s1) as (s2 & t2 & H2 & Hs2 & Hf); [lia| |done|].
    { intros j Hj Hb. apply (quiet_fewer t); [by apply fewer_drop|]. apply Hq; [lia|done]. }
    exists s2, t2. split; [done|]. split; [done|]. eapply fewer_trans; [by apply fewer_drop|done].
  - rewrite deliver_skip by done. apply IH; [lia| |done]. intros j Hj. apply Hq. lia.
Qed.

(** The frame that enters the handler. *)
Definition handler_frame (sig h : Z) (f : iframe_t) : iframe_t :=
  set_rsp (u64 (Z.land (rsp f) (Z.lnot 15) - 8)) (set_rdi sig (set_rip h f)).
(** The task as it enters the handler, with what it was interrupted in put aside. *)
Definition in_handler (sig h : Z) (t t1 : task_t) : Prop :=
  iframe (context t1) = handler_frame sig h (iframe (context t)) ∧ in_signal (signals t1) = true ∧
  signal_interrupted_iframe (signals t1) = iframe (context t) ∧
  signal_interrupted_fpu_state (signals t1) = fpu_state (context t) ∧
  Z.testbit (pending_signals (signals t1)) (sig - 1) = false.
Lemma call_handler_run sig h t q q' s : at_task t q s →
  poke 8 (rsp (handler_frame sig h (iframe (context t)))) TRAMPOLINE q = Done (tt, q') →
  Z.testbit (pending_signals (signals t)) (sig - 1) = false →
  ∃ s1 t1, call_handler sig h s = Done (tt, s1) ∧ at_task t1 q' s1 ∧ in_handler sig h t t1 ∧
    signal_handlers (signals t1) = signal_handlers (signals t).
Proof using.
  clear. intros Hs Hpoke Hb. unfold call_handler.
  match goal with |- context [(update_current ?f ≫= _) s] => destruct (at_update f t q s Hs) as (s1 & H1 & Hs1) end.
  erewrite K_bind_step by exact H1.
  match type of Hs1 with at_task ?t1 _ _ =>
    match goal with |- context [(update_current ?f ≫= _) s1] => destruct (at_update f t1 q s1 Hs1) as (s2 & H2 & Hs2) end end.
  erewrite K_bind_step by exact H2. erewrite K_bind_step by (by eapply at_current).
  erewrite K_bind_step.
  2:{ unfold lift_tables. destruct Hs2 as (_ & _ & ->). cbn. unfold handler_frame in Hpoke. cbn in Hpoke.
      rewrite Hpoke. reflexivity. }
  destruct Hs2 as (Hc2 & Et2 & _).
  match goal with |- context [update_current ?f ?s3] =>
    match type of Et2 with _ = Some ?t2 => destruct (at_update f t2 q' s3) as (s4 & H4 & Hs4) end end; [by split_and!|].
  rewrite H4. eexists s4, _. split; [done|]. split; [exact Hs4|]. by split_and!.
Qed.
Lemma deliver_one sig h d q q' n : ∀ i t s, 0 ≤ i ≤ sig - 1 → sig - 1 < i + Z.of_nat n → i + Z.of_nat n ≤ 31 →
  Z.testbit d (sig - 1) = true → handler t sig = h → h ≠ SIG_DFL → h ≠ SIG_IGN →
  cs (iframe (context t)) = USER_CS →
  (∀ j, j ≠ sig - 1 → i ≤ j < i + Z.of_nat n → Z.testbit d j = true → quiet t (j + 1)) → at_task t q s →
  poke 8 (rsp (handler_frame sig h (iframe (context t)))) TRAMPOLINE q = Done (tt, q') →
  ∃ s1 t1, deliver_loop exit n i d s = Done (false, s1) ∧ at_task t1 q' s1 ∧ in_handler sig h t t1.
Proof using.
  clear. induction n as [|n IH]; intros i t s Hi Hn H31 Hb Hh Hdfl Hign Hcs Hq Hs Hp; [lia|].
  destruct (decide (i = sig - 1)) as [->|Hne].
  - cbn [deliver_loop]. rewrite land_bit, Hb by lia. cbn [negb]. replace (sig - 1 + 1) with sig by lia.
    destruct (at_update (drop_pending (sig - 1)) t q s Hs) as (s1 & H1 & Hs1).
    erewrite K_bind_step by exact H1. erewrite K_bind_step by (by eapply at_current). cbv zeta.
    change (handler (drop_pending (sig - 1) t) sig) with (handler t sig).
    rewrite Hh, (proj2 (Z.eqb_neq _ _) Hdfl), (proj2 (Z.eqb_neq _ _) Hign). cbn [context drop_pending with_signals set_signals].
    rewrite Hcs, Z.eqb_refl. cbn [negb].
    destruct (call_handler_run sig h (drop_pending (sig - 1) t) q q' s1 Hs1 Hp) as (s2 & t2 & H2 & Hs2 & Hin & Hhs).
    { rewrite drop_pending_bit, Z.eqb_refl by lia. by rewrite andb_false_r. }
    erewrite K_bind_step by exact H2.
    destruct (deliver_all_quiet d n sig t2 q' s2) as (s3 & t3 & H3 & Hs3 & (Fc & Fh & Fi & Ff & Fu & Fp)); [lia| |done|].
    { intros j Hj Hbj. specialize (Hq j ltac:(lia) ltac:(lia) Hbj). unfold quiet, handler in *. by rewrite Hhs. }
    exists s3, t3. split; [done|]. split; [done|]. destruct Hin as (I1 & I2 & I3 & I4 & I5).
    unfold in_handler. rewrite Fc, Fi, Ff, Fu. split_and!; [done..|by apply Fp].
  - destruct (Z.testbit d i) eqn:Eb.
    + destruct (deliver_quiet n i d t q s) as (s1 & Hs1 & ->); [lia|done|apply Hq; [lia|lia|done]|done|].
      destruct (IH (i + 1) (drop_pending i t) s1) as (s2 & t2 & H2 & Hs2 & Hin); try done; [lia|lia|lia| |].
      { intros j Hj Hr Hbj. apply (quiet_fewer t); [apply fewer_drop; lia|]. apply Hq; [done|lia|done]. }
      by exists s2, t2.
    + rewrite deliver_skip by (done || lia). apply (IH (i + 1)); try done; [lia|lia|lia|].
      intros j Hj Hr. apply Hq; [done|lia].
Qed.
End return_.

Section round.
Context {FS N : Type}.

Lemma sigreturn_spec (s : kernel FS N) p t : current_task s = p → tasks s !! p = Some t →
  in_signal (signals t) = true → deliverable t = 0 →
  ∃ s' t', sigreturn s = Done (tt, s') ∧ current_task s' = p ∧ tasks s' !! p = Some t' ∧
    context t' = mk_context
      (set_rflags (Z.lor (rflags (signal_interrupted_iframe (signals t))) 0x200) (signal_interrupted_iframe (signals t)))
      (signal_interrupted_fpu_state (signals t)) ∧
    in_signal (signals t') = false ∧ fpu s' = signal_interrupted_fpu_state (signals t).
Proof.
  intros Hc Et Hin Hd. assert (Hs : at_task p t (tables s) s) by done. unfold sigreturn.
  erewrite K_bind_step by (by eapply at_current). rewrite Hin. cbn [negb].
  destruct (at_update p (with_signals (set_in_signal false)) _ _ _ Hs) as (s1 & H1 & Hs1).
  erewrite K_bind_step by exact H1.
  match goal with |- context [(update_current ?f ≫= _) s1] => destruct (at_update p f _ _ _ Hs1) as (s2 & H2 & Hs2) end.
  erewrite K_bind_step by exact H2.
  erewrite K_bind_step.
  2:{ unfold deliver_signals, deliver_signals_with. erewrite K_bind_step by (by eapply at_current).
      assert (Hd0 : ∀ t', pending_signals (signals t') = pending_signals (signals t) →
        signal_mask (signals t') = signal_mask (signals t) → deliverable t' = 0).
      { intros t' E1 E2. unfold deliverable in *. by rewrite E1, E2. }
      rewrite Hd0 by done. cbn. reflexivity. }
  unfold resume. erewrite K_bind_step.
  2:{ unfold restore_fpu. erewrite K_bind_step by (by eapply at_current). reflexivity. }
  destruct Hs2 as (Hc2 & Et2 & _).
  match type of Et2 with _ = Some ?t2 =>
    match goal with |- context [update_current ?f ?s3] =>
      rewrite (update_current_run f s3 t2) by (cbn; by rewrite Hc2) end end.
  eexists _, _. split; [done|]. cbn. rewrite Hc2. split; [done|]. rewrite lookup_insert_eq. by split_and!.
Qed.

Lemma align_down r : 16 ≤ r < 2 ^ 64 →
  Z.land r (Z.lnot 15) = r - r mod 16 ∧ u64 (Z.land r (Z.lnot 15) - 8) = r - r mod 16 - 8 ∧
  (r - r mod 16 - 8) mod 16 = 8 ∧ r - 24 < r - r mod 16 - 8 ≤ r - 8.
Proof.
  intros Hr. pose proof (Z.mod_pos_bound r 16 ltac:(lia)). pose proof (Z.div_mod r 16 ltac:(lia)) as Hd.
  assert (Hal : Z.land r (Z.lnot 15) = r - r mod 16).
  { change 15 with (Z.ones 4). rewrite <-Z.ldiff_land, Z.ldiff_ones_r by lia.
    rewrite Z.shiftl_mul_pow2, Z.shiftr_div_pow2 by lia. change (2 ^ 4) with 16. lia. }
  split; [done|]. split; [rewrite Hal; apply u64_id; lia|]. split; [|lia].
  replace (r - r mod 16 - 8) with (8 + (r / 16 - 1) * 16) by lia. by rewrite Z.mod_add.
Qed.

(** C31: A signal handler is entered and left correctly.  Let the current task run
    user code and be in no handler, let one signal with a handler be deliverable (any
    others are ignored or do nothing by default), the stack pointer be at least 16 and
    the stack writable where the return address goes.  Then deliver_signals makes the
    task enter the handler with the signal number as argument, the stack aligned as
    after a call, the trampoline as return address and all other registers as they
    were; the signal is no longer pending and none counts as pending meanwhile.  And
    from any later state in which the task is still in the handler, has no further
    deliverable signal, and has the interrupted frame and FPU state that were saved at
    the entry, sigreturn puts every register and the FPU state of the interrupted code
    back (with interrupts on).  With a further signal the saved frame can be lost:
    second_handler_loses_frame. *)
Theorem handler_returns (s : kernel FS N) p t sig h q :
  current_task s = p → tasks s !! p = Some t → in_signal (signals t) = false →
  1 ≤ sig ≤ 31 → Z.testbit (deliverable t) (sig - 1) = true →
  handler t sig = h → h ≠ SIG_DFL → h ≠ SIG_IGN → cs (iframe (context t)) = USER_CS →
  16 ≤ rsp (iframe (context t)) < 2 ^ 64 →
  (∀ other, other ≠ sig → 1 ≤ other ≤ 31 → Z.testbit (deliverable t) (other - 1) = true → quiet t other) →
  poke 8 (Z.land (rsp (iframe (context t))) (Z.lnot 15) - 8) TRAMPOLINE (tables s) = Done (tt, q) →
  ∃ s1 t1, deliver_signals s = Done (false, s1) ∧ current_task s1 = p ∧ tasks s1 !! p = Some t1 ∧ tables s1 = q ∧
    in_handler sig h t t1 ∧ rsp (iframe (context t1)) mod 16 = 8 ∧
    rsp (iframe (context t)) - 24 < rsp (iframe (context t1)) ≤ rsp (iframe (context t)) - 8 ∧
    has_pending_signals t1 = false ∧
    ∀ (s2 : kernel FS N) t2, current_task s2 = p → tasks s2 !! p = Some t2 → in_signal (signals t2) = true → deliverable t2 = 0 →
      signal_interrupted_iframe (signals t2) = signal_interrupted_iframe (signals t1) →
      signal_interrupted_fpu_state (signals t2) = signal_interrupted_fpu_state (signals t1) →
      ∃ s3 t3, sigreturn s2 = Done (tt, s3) ∧ current_task s3 = p ∧ tasks s3 !! p = Some t3 ∧
        iframe (context t3) = set_rflags (Z.lor (rflags (iframe (context t))) 0x200) (iframe (context t)) ∧
        fpu_state (context t3) = fpu_state (context t) ∧ fpu s3 = fpu_state (context t) ∧
        in_signal (signals t3) = false.
Proof.
  intros Hc Et Hin Hsig Hb Hh Hdfl Hign Hcs Hrsp Hq Hp.
  set (r := rsp (iframe (context t))) in *.
  destruct (align_down r Hrsp) as (Hal & Hr8 & Hm & Hlo).
  destruct (deliver_one p exit sig h (deliverable t) (tables s) q 31 0 t s) as (s1 & t1 & H1 & (Hc1 & Et1 & Hq1) & Hi);
    try done; [lia|lia| |unfold handler_frame; cbn; fold r; rewrite Hr8, <-Hal; done|].
  { intros j Hne Hj Hbj. apply Hq; [lia|lia|]. by replace (j + 1 - 1) with j by lia. }
  pose proof Hi as (If & Ii & Iif & Iff & Ib).
  assert (Hr1 : rsp (iframe (context t1)) = r - r mod 16 - 8) by (rewrite If; cbn; exact Hr8).
  exists s1, t1. split; [|split; [done|split; [done|split; [done|split; [exact Hi|]]]]].
  { unfold deliver_signals, deliver_signals_with. erewrite K_bind_step by (apply current_run; by rewrite Hc).
    destruct (Z.eqb_spec (deliverable t) 0) as [E|_]; [by rewrite E, Z.testbit_0_l in Hb|]. by rewrite Hin. }
  rewrite Hr1. split; [done|]. split; [done|].
  split; [unfold has_pending_signals; by rewrite Ii|].
  intros s2 t2 Hc2 Et2 Hin2 Hd2 Hf2 Hu2.
  destruct (sigreturn_spec s2 p t2 Hc2 Et2 Hin2 Hd2) as (s3 & t3 & H3 & Hc3 & Et3 & Hct & Hin3 & Hfp).
  exists s3, t3. rewrite Hct, Hfp. cbn. rewrite Hf2, Hu2, Iif, Iff. by split_and!.
Qed.
End round.

(** SIGTERM (with a handler) and SIGCHLD are pending; the stack is in a user page. *)
Definition handler_task : task_t :=
  with_signals (λ g, set_pending_signals 0x14000 (set_signal_handlers {[15 := 0x400010]} g))
    (with_iframe (set_rsp 0x400F85) (example_task 2 1 INIT_TASK NULL INIT_TASK NULL false STATE_RUNNING)).
Definition handler_machine : kernel unit unit :=
  set_tables PagingUser.user_example (set_tasks (<[3 := handler_task]> (tasks small_machine)) small_machine).
Lemma handler_returns_witness :
  ∃ s1 t1 (s2 s3 : kernel unit unit), deliver_signals handler_machine = Done (false, s1) ∧ tasks s1 !! 3 = Some t1 ∧
    rip (iframe (context t1)) = 0x400010 ∧ sigreturn s2 = Done (tt, s3).
Proof.
  assert (Hpoke : completes (poke 8 (Z.land (rsp (iframe (context handler_task))) (Z.lnot 15) - 8) TRAMPOLINE
    (tables handler_machine)) = true) by (vm_compute; reflexivity).
  destruct (completes_Done _ Hpoke) as [[[] q] Hq].
  destruct (handler_returns handler_machine 3 handler_task 15 0x400010 q) as
    (s1 & t1 & H1 & Hc1 & Et1 & Hq1 & (If & Ii & Iif & Iff & Ib) & _ & _ & _ & Hret).
  - reflexivity.
  - vm_compute. reflexivity.
  - reflexivity.
  - lia.
  - reflexivity.
  - vm_compute. reflexivity.
  - discriminate.
  - discriminate.
  - reflexivity.
  - cbn. lia.
  - intros other Hne Ho Hb. assert (other = 17) as ->.
    { assert (Hall : forallb (λ o, (o =? 15) || (o =? 17) || negb (Z.testbit (deliverable handler_task) (o - 1))) (seqZ 1 31) = true)
        by (vm_compute; reflexivity).
      rewrite forallb_forall in Hall. specialize (Hall other). rewrite Hb in Hall. cbn [negb] in Hall.
      rewrite orb_false_r, orb_true_iff, !Z.eqb_eq in Hall. destruct Hall; [|lia|done].
      apply list_elem_of_In, elem_of_seqZ. lia. }
    right. split; [vm_compute; reflexivity|discriminate].
  - exact Hq.
  - set (t2 := with_signals (set_pending_signals 0) t1). set (s2 := set_tasks (<[3 := t2]> (tasks s1)) s1).
    destruct (Hret s2 t2) as (s3 & t3 & H3 & _);
      [exact Hc1|apply lookup_insert_eq|exact Ii|reflexivity|reflexivity|reflexivity|].
    exists s1, t1, s2, s3. split; [exact H1|]. split; [exact Et1|]. split; [by rewrite If|exact H3].
Defined.

(** With two handlers pending the second delivery puts the frame that enters the
    first handler aside: the interrupted frame is lost. *)
Definition two_handlers_machine : kernel unit unit :=
  let t := with_signals (λ g, set_pending_signals 0x6000 (set_signal_handlers (<[14 := 0x400020]> (signal_handlers g)) g))
             (with_iframe (set_rip 0x400999) handler_task) in
  set_tasks (<[3 := t]> (tasks handler_machine)) handler_machine.
Lemma second_handler_loses_frame :
  match deliver_signals two_handlers_machine with
  | Done (_, s) =>
    rip ∘ iframe ∘ context <$> tasks s !! 3 = Some 0x400010 ∧
    rip ∘ signal_interrupted_iframe ∘ signals <$> tasks s !! 3 = Some 0x400020
  | _ => False
  end.
Proof. vm_compute. by split. Qed.
