(* ===== verification/Waitpid.v ===== *)
(** * waitpid reaps a child once and tells how it ended

    The encoding of the end of a process in a wait status, as the macros of the C
    library (libc/platform/include/unistd.h) read it, and what waitpid does with
    a child that has ended. *)

From S2P Require Import Prelude Paging PagingUser Vfs Pipe Net Udp Task Signal Fd Sched TaskTree SchedTree SchedLinks SchedInv.

Definition WIFEXITED (s : Z) : bool := Z.land s 0x7f =? 0.
Definition WEXITSTATUS (s : Z) : Z := Z.land (Z.shiftr s 8) 0xff.
Definition WIFSIGNALED (s : Z) : bool :=
  negb (Z.land s 0x7f =? 0) && negb (Z.land s 0x7f =? 0x7f) && negb (s =? 0xffff).
Definition WTERMSIG (s : Z) : Z := Z.land s 0x7f.
Definition WIFSTOPPED (s : Z) : bool := Z.land s 0xff =? 0x7f.
Definition WSTOPSIG (s : Z) : Z := Z.land (Z.shiftr s 8) 0xff.
Definition WIFCONTINUED (s : Z) : bool := s =? 0xffff.

Definition exit_status_of (code st : Z) : Prop :=
  WIFEXITED st = true ∧ WIFSIGNALED st = false ∧ WIFSTOPPED st = false ∧ WIFCONTINUED st = false ∧
  WEXITSTATUS st = code mod 256.
Definition signal_status_of (sig st : Z) : Prop :=
  WIFEXITED st = false ∧ WIFSIGNALED st = true ∧ WIFSTOPPED st = false ∧ WIFCONTINUED st = false ∧
  WTERMSIG st = sig.
Lemma exit_status_decodes code :
  (0 ≤ code < 2 ^ 31 → exit_status_of code (exit_status code)) ∧
  (-126 ≤ code ≤ -1 → signal_status_of (- code) (exit_status code)).
Proof.
  assert (H7 : ∀ x, Z.land x 0x7f = x mod 128) by (intros x; by apply (Z.land_ones x 7)).
  assert (H8 : ∀ x, Z.land x 0xff = x mod 256) by (intros x; by apply (Z.land_ones x 8)).
  unfold exit_status_of, signal_status_of, exit_status, W_EXITCODE, WIFEXITED, WIFSIGNALED, WIFSTOPPED, WIFCONTINUED,
    WEXITSTATUS, WTERMSIG. split; intros Hc.
  - rewrite (proj2 (Z.leb_le 0 code)), !H7, !H8, Z.lor_0_r, Z.shiftl_mul_pow2, Z.shiftr_div_pow2 by lia.
    assert (E : s32 (code * 2 ^ 8) = 256 * (code - 2 ^ 24 * ((code * 2 ^ 8 + 2 ^ 31) / 2 ^ 32))).
    { unfold s32. rewrite Z.mod_eq by lia. generalize ((code * 2 ^ 8 + 2 ^ 31) / 2 ^ 32). intros x. lia. }
    rewrite E. set (m := code - _). change (2 ^ 8) with 256. rewrite (Z.mul_comm 256), Z.div_mul by lia.
    assert (E7 : (m * 256) mod 128 = 0) by (replace (m * 256) with (m * 2 * 128) by lia; by apply Z.mod_mul).
    rewrite E7, Z.mod_mul by lia. split_and!; try done.
    + apply Z.eqb_neq. intros Hx. apply (f_equal (λ x, x mod 256)) in Hx. by rewrite Z.mod_mul in Hx.
    + unfold m. generalize ((code * 2 ^ 8 + 2 ^ 31) / 2 ^ 32). intros x.
      replace (code - 2 ^ 24 * x) with (code + (- 2 ^ 16 * x) * 256) by lia.
      by rewrite Z.mod_add.
  - rewrite (proj2 (Z.leb_gt 0 code)), !H7, !H8 by lia. cbn [Z.shiftl]. rewrite Z.lor_0_l, s32_id by lia.
    rewrite !Z.mod_small by lia. rewrite (proj2 (Z.eqb_neq (- code) 0)), (proj2 (Z.eqb_neq (- code) 0x7f)),
      (proj2 (Z.eqb_neq (- code) 0xffff)) by lia. by split_and!.
Qed.
(** Negative codes are those of signals, but a program may pass them to exit as
    well: -1 looks like a death by signal 1, -128 like a success, -127 like a stop
    and -65535 like a continued child. *)
Lemma negative_exit_misread :
  signal_status_of 1 (exit_status (-1)) ∧ exit_status_of 0 (exit_status (-128)) ∧
  WIFSTOPPED (exit_status (-127)) = true ∧ WIFCONTINUED (exit_status (-65535)) = true.
Proof. vm_compute. by split_and!. Qed.

Section waitpid.
Context {FS N : Type}.
#[local] Notation kernel := (kernel FS N).
Implicit Types (s : kernel).

Definition satisfies s (f : task_t → bool) (p : Z) : bool :=
  match tasks s !! p with Some t => f t | None => false end.
Lemma find_sibling_run s f l : ∀ fuel c,
  chain (sibs (tree s)) c l NULL → NULL ∉ l → (length l ≤ fuel)%nat →
  find_sibling fuel c f s = Done (default NULL (find (satisfies s f) l), s).
Proof.
  induction l as [|x l IH]; intros fuel c Hch Hn Hf.
  - cbn in Hch. subst c. by destruct fuel.
  - destruct Hch as (-> & y & Hy & Hch). destruct fuel as [|fuel]; [cbn in Hf; lia|].
    unfold sibs, tree in Hy. rewrite lookup_fmap in Hy. destruct (tasks s !! x) as [t|] eqn:Et; [|done].
    cbn [find_sibling find]. rewrite (proj2 (Z.eqb_neq x NULL)) by set_solver.
    erewrite K_bind_step by (by apply task_run). unfold satisfies at 1. rewrite Et. destruct (f t); [done|].
    assert (next_sibling (links t) = y) as -> by (cbn in Hy; congruence). apply IH; [done|set_solver|cbn in Hf; lia].
Qed.

(** The children of the current process, in order. *)
Definition child_of_current s (c : Z) (tc : task_t) : Prop :=
  tasks s !! c = Some tc ∧ is_kworker (image tc) = false ∧ parent (links tc) = current_task s ∧ c ≠ INIT_TASK.
Lemma W_children s t : W s → process_running s → tasks s !! current_task s = Some t →
  ∃ l, chain (sibs (tree s)) (child (links t)) l NULL ∧ NULL ∉ l ∧ (length l ≤ size (tasks s))%nat ∧
  NoDup l ∧ ∀ c, c ∈ l ↔ ∃ tc, child_of_current s c tc.
Proof.
  intros [(ring & kids & Hwf & _ & Hcur) (n & Hn & Ha)] (np & Hnp & Hkw) Et.
  assert (Hr : ∀ c tc, tasks s !! c = Some tc → is_kworker (image tc) = false → c ∈ ring).
  { intros c tc Ec Hk. destruct (proj1 (wf_dom _ _ _ _ Hwf c)) as [->|]; [rewrite (tree_lookup _ _ _ Ec); by eexists| |done].
    destruct (wf_idle _ _ _ _ Hwf) as (ni & Ei & Hki & _). rewrite (tree_lookup _ _ _ Ec) in Ei.
    injection Ei as <-. cbn in Hki. congruence. }
  pose proof (tree_lookup _ _ _ Et) as Etr. assert (n = node_of t) as -> by congruence.
  assert (np = node_of t) as -> by congruence. assert (Hin : current_task s ∈ ring) by (by eapply Hr).
  destruct (wf_kids _ _ _ _ Hwf _ _ Hin Etr Ha) as (Hch & Hnd & Hk). exists (kids (current_task s)).
  assert (Hel : ∀ c, c ∈ kids (current_task s) ↔ ∃ tc, child_of_current s c tc).
  { intros c. rewrite Hk. unfold child_of, child_of_current, tree. split.
    - intros (Hi & Hc & k & Ek & Hw & Hp). rewrite lookup_fmap in Ek. destruct (tasks s !! c) as [tc|] eqn:Ec; [|done].
      cbn in Ek. injection Ek as <-. exists tc. by split_and!.
    - intros (tc & Ec & Hw & Hp & Hi). split; [done|]. split; [by eapply Hr|]. exists (node_of tc).
      by rewrite lookup_fmap, Ec. }
  split; [exact Hch|]. split; [|split; [|split; [exact Hnd|exact Hel]]].
  - intros Hx%Hk. destruct Hx as (_ & Hx & _). by apply (ring_not_null _ _ _ _ Hwf) in Hx as [? _].
  - pose proof (kids_length _ _ _ _ Hwf _ _ Hin Etr Ha) as Hl. unfold tree in Hl. by rewrite map_size_fmap in Hl.
Qed.

(** The child a wait for [k] finds. *)
Definition awaited (k : Z) (c : task_t) : bool := negb (bool_decide (state c = STATE_DELETED)) && (pid (ids c) =? k).
Lemma get_child_run s t k : W s → process_running s → tasks s !! current_task s = Some t →
  ∃ o, get_child (current_task s) k s = Done (o, s) ∧
    ((o = NULL ∧ ∀ c tc, child_of_current s c tc → awaited k tc = false) ∨
     (o ≠ NULL ∧ ∃ tc, child_of_current s o tc ∧ awaited k tc = true)).
Proof.
  intros HW Hp Et. destruct (W_children s t HW Hp Et) as (l & Hch & Hn & Hl & _ & Hel).
  eexists. split.
  { unfold get_child. erewrite K_bind_step by reflexivity. erewrite K_bind_step by (by apply task_run).
    by apply (find_sibling_run s (awaited k) l). }
  destruct (find _ l) as [c|] eqn:Ef; cbn.
  - right. apply find_some in Ef as [Hc%list_elem_of_In Hs]. split; [intros ->; by apply Hn|].
    apply Hel in Hc as [tc Htc]. exists tc. split; [done|]. unfold satisfies in Hs. destruct Htc as [Ec _]. by rewrite Ec in Hs.
  - left. split; [done|]. intros c tc Hc. pose proof (find_none _ _ Ef c) as Hf.
    assert (Hin : In c l) by (apply list_elem_of_In, Hel; by exists tc). specialize (Hf Hin).
    unfold satisfies in Hf. destruct Hc as [Ec _]. by rewrite Ec in Hf.
Qed.

(** The end of [c] is reported and [c] is left to the garbage collection. *)
Lemma report_run s c tc ws q : tasks s !! c = Some tc →
  (if ws =? NULL then mret tt else poke 4 ws (exit_status (return_code (status tc)))) (tables s) = Done (tt, q) →
  report c ws WExited s = Done (tt, set_tables q (set_tasks (<[c := set_state STATE_DELETED tc]> (tasks s)) s)).
Proof.
  intros Ec Hq. unfold report. erewrite K_bind_step by (by apply task_run). erewrite K_bind_step.
  - exact (update_task_run c (set_state STATE_DELETED) (set_tables q s) tc Ec).
  - destruct (ws =? NULL).
    + unfold mret, K_ret in *. injection Hq as <-. by destruct s.
    + unfold lift_tables. by rewrite Hq.
Qed.
Lemma ended_W s c tc q : W s → process_running s → tasks s !! c = Some tc → state tc = STATE_ZOMBIE →
  let s' := set_tables q (set_tasks (<[c := set_state STATE_DELETED tc]> (tasks s)) s) in
  W s' ∧ process_running s'.
Proof.
  intros HW Hp Ec Hz s'. assert (Ht : tree s' = tree s).
  { change (tree s') with (tree (set_tasks (<[c := set_state STATE_DELETED tc]> (tasks s)) s)). rewrite tree_update.
    apply insert_id. rewrite (tree_lookup _ _ _ Ec). unfold node_of. cbn. by rewrite Hz. }
  split.
  - eapply framed_W; [|exact HW]. split; [exact Ht|]. by split_and!.
  - destruct Hp as (n & Hn & Hk). exists n. by rewrite Ht.
Qed.

(** C32: A child is reaped once.  Let a child of the current process have ended, let
    its pid k be positive and that of no other child that is not garbage, and let the
    place for the status be writable or NULL.  Waiting for k returns k at once; it
    stores, if the caller wants it, a status that is a function of the return code of
    the child; the child becomes garbage for gc_tasks and nothing else changes; every
    later wait for k fails with -ESRCH.  The macros of the C library read the status
    of a return code from 0 to 2^31 - 1 as an exit with its low byte and nothing else,
    and that of a code from -126 to -1, as signals (-31 to -1) and exceptions set it,
    as a death by the signal of the negated number and nothing else.  The kernel does
    not keep programs from passing such a code to exit: negative_exit_misread. *)
Theorem waitpid_reaps_once s c tc k ws options q :
  W s → process_running s → child_of_current s c tc → state tc = STATE_ZOMBIE → pid (ids tc) = k → 0 < k →
  (∀ c' tc', child_of_current s c' tc' → pid (ids tc') = k → state tc' ≠ STATE_DELETED → c' = c) →
  (if ws =? NULL then mret tt else poke 4 ws (exit_status (return_code (status tc)))) (tables s) = Done (tt, q) →
  let s' := set_tables q (set_tasks (<[c := set_state STATE_DELETED tc]> (tasks s)) s) in
  waitpid k ws options s = Done (k, s') ∧
  (0 ≤ return_code (status tc) < 2 ^ 31 → exit_status_of (return_code (status tc)) (exit_status (return_code (status tc)))) ∧
  (-126 ≤ return_code (status tc) ≤ -1 → signal_status_of (- return_code (status tc)) (exit_status (return_code (status tc)))) ∧
  ∀ ws' options', waitpid k ws' options' s' = Done (- ESRCH, s').
Proof.
  intros HW Hp Hc Hz Hk H0 Hu Hq s'. destruct HW as [HW0 (n & Hn & Ha)] eqn:EHW; clear EHW.
  assert (∃ t, tasks s !! current_task s = Some t) as [t Et].
  { unfold tree in Hn. rewrite lookup_fmap in Hn. destruct (tasks s !! current_task s); [by eexists|done]. }
  assert (HWs : W s) by (split; [done|by exists n]).
  assert (Hnull : ∀ o, awaited k o = true → pid (ids o) = k ∧ state o ≠ STATE_DELETED).
  { intros o Ho. unfold awaited in Ho. apply andb_true_iff in Ho as [Hd%negb_true_iff Hpid%Z.eqb_eq].
    split; [done|]. by apply bool_decide_eq_false in Hd. }
  destruct Hc as (Ec & Hkw & Hpar & Hi) eqn:EHc; clear EHc.
  assert (Hck : awaited k tc = true) by (unfold awaited; by rewrite Hz, Hk, Z.eqb_refl).
  split; [|split; [|split]]; try apply exit_status_decodes.
  - destruct (get_child_run s t k HWs Hp Et) as (o & Hg & [[-> Hno]|(Hne & to & Ho & Hao)]).
    { rewrite (Hno c tc) in Hck; [done|by split_and!]. }
    assert (o = c) as -> by (apply (Hu o to Ho); by apply Hnull).
    unfold waitpid. erewrite K_bind_step by reflexivity. rewrite (proj2 (Z.ltb_lt 0 k)) by done.
    erewrite K_bind_step by exact Hg. rewrite (proj2 (Z.eqb_neq c NULL)) by done. cbn [andb].
    erewrite K_bind_step by (by apply task_run). unfold event_of. rewrite bool_decide_true by done.
    erewrite K_bind_step by (by apply report_run). by rewrite Hk.
  - intros ws' options'. destruct (ended_W s c tc q HWs Hp Ec Hz) as [HW' Hp'].
    assert (∃ t', tasks s' !! current_task s' = Some t') as [t' Et'].
    { cbn. destruct (decide (current_task s = c)) as [->|]; [rewrite lookup_insert_eq; by eexists|].
      rewrite lookup_insert_ne by done. by exists t. }
    destruct (get_child_run s' t' k HW' Hp' Et') as (o & Hg & [[-> _]|(Hne & to & (Eo & Ho) & Hao)]).
    { unfold waitpid. erewrite K_bind_step by reflexivity. rewrite (proj2 (Z.ltb_lt 0 k)) by done.
      erewrite K_bind_step by exact Hg. done. }
    exfalso. apply Hnull in Hao as [Hpid Hnd]. cbn in Eo. destruct (decide (o = c)) as [->|Hoc].
    + rewrite lookup_insert_eq in Eo. injection Eo as <-. by apply Hnd.
    + rewrite lookup_insert_ne in Eo by done. apply Hoc, (Hu o to); [by split|done|done].
Qed.
End waitpid.

(** The process of the small machine exits with 300; init waits for it. *)
Definition exited_machine : kernel unit unit :=
  match exit 300 small_machine with Done (_, s) => s | _ => small_machine end.
Definition exited_child : task_t := default (example_task 0 0 0 0 0 0 true STATE_READY) (tasks exited_machine !! 3).
Lemma exited_machine_W : W exited_machine.
Proof.
  unfold exited_machine. destruct (exit 300 small_machine) as [[[] s]| | |] eqn:E; try apply small_machine_W.
  exact (keeps_exit 300 _ _ _ small_machine_W E).
Qed.
Lemma waitpid_reaps_once_witness :
  ∃ s', waitpid 2 NULL 0 exited_machine = Done (2, s') ∧ waitpid 2 NULL WNOHANG s' = Done (- ESRCH, s') ∧
    WEXITSTATUS (exit_status (return_code (status exited_child))) = 44.
Proof.
  destruct (waitpid_reaps_once exited_machine 3 exited_child 2 NULL 0 (tables exited_machine)) as (H1 & H2 & _ & H4).
  - exact exited_machine_W.
  - eexists. split; vm_compute; reflexivity.
  - split; [vm_compute; reflexivity|]. split; [vm_compute; reflexivity|]. split; [vm_compute; reflexivity|discriminate].
  - vm_compute. reflexivity.
  - vm_compute. reflexivity.
  - lia.
  - assert (Hall : bool_decide (map_Forall (λ c tc, pid (ids tc) = 2 → c = 3) (tasks exited_machine)) = true)
      by (vm_compute; reflexivity).
    intros c' tc' (Ec & _) Hk _. exact (bool_decide_eq_true_1 _ Hall c' tc' Ec Hk).
  - reflexivity.
  - eexists. split; [exact H1|]. split; [apply H4|]. vm_compute. reflexivity.
Defined.

(** A wait for any child that blocked without a place for the status reports the
    zombie but leaves it: the next wait reports the same child again. *)
Lemma wait_any_reports_twice :
  let check s := check_wait_any INIT_TASK
    (set_tasks (alter (with_wait (λ _, mk_wait BLOCK_WAITPID 0 NULL NULL 0)) INIT_TASK (tasks s)) s) in
  match check exited_machine with
  | Done (_, s1) =>
    rax ∘ iframe ∘ context <$> tasks s1 !! INIT_TASK = Some 2 ∧ state <$> tasks s1 !! 3 = Some STATE_ZOMBIE ∧
    match check s1 with
    | Done (_, s2) => state <$> tasks s2 !! 3 = Some STATE_ZOMBIE
    | _ => False
    end
  | _ => False
  end.
Proof. vm_compute. by split_and!. Qed.
