(* ===== verification/FdCount.v ===== *)
(** * Open files are counted correctly

    The invariant that the reference count of every open file is the number of
    descriptors that point to it, over all tasks but the kernel workers (which
    start with an uncounted copy of the table of init).  This file has the
    invariant and the operations of fd.c; FdSched.v has those of the scheduler. *)

From S2P Require Import Prelude Paging Vfs VfsMount Pipe Net Udp Task Signal Fd Sched TaskTree SchedTree SchedLinks.

(** ** Counting descriptors *)

Definition fd_count (i : Z) (e : fd_t) : Z := if bool_decide (fd e = Some i) then 1 else 0.
Definition task_count (i : Z) (t : task_t) : Z :=
  if is_kworker (image t) then 0 else msum (fd_count i) (fd_table t).
(** The number of descriptors of processes that point to open file [i]. *)
Definition held {FS N} (s : kernel FS N) (i : Z) : Z := msum (task_count i) (tasks s).

Lemma fd_count_no_fd i : fd_count i no_fd = 0.
Proof. done. Qed.
Lemma fd_count_range i e : 0 ≤ fd_count i e ≤ 1.
Proof. unfold fd_count. case_bool_decide; lia. Qed.
Lemma task_count_nonneg i t : 0 ≤ task_count i t.
Proof.
  unfold task_count. destruct (is_kworker _); [lia|]. apply msum_nonneg. intros. apply fd_count_range.
Qed.
Lemma task_count_entry i n e t : is_kworker (image t) = false →
  task_count i (set_fd_entry n e t) = task_count i t - fd_count i (fd_entry t n) + fd_count i e.
Proof.
  intros Hk. unfold task_count. cbn. rewrite Hk, msum_insert. unfold fd_entry. by destruct (fd_table t !! n).
Qed.
(** An entry in the table counts. *)
Lemma task_count_pos i n t : is_kworker (image t) = false → fd (fd_entry t n) = Some i → 1 ≤ task_count i t.
Proof.
  intros Hk He. unfold task_count, fd_entry in *. rewrite Hk. destruct (fd_table t !! n) as [e|] eqn:E; [|done].
  cbn in He. assert (fd_count i e = 1) as <- by (unfold fd_count; by rewrite bool_decide_true).
  apply (msum_member _ _ n); [intros; apply fd_count_range|done].
Qed.

(** What the counts depend on. *)
Record fnode := mk_fnode { f_table : gmap Z fd_t; f_kworker : bool; f_alive : bool }.
Definition fnode_of (t : task_t) : fnode := mk_fnode (fd_table t) (is_kworker (image t)) (alive (state t)).

Section count.
Context {FS N : Type}.
#[local] Notation kernel := (kernel FS N).
Implicit Types (s : kernel).

(** The counts are right but for [δ]: the references an operation in progress owes. *)
Definition counted (δ : Z → Z) s : Prop := ∀ i, refcount (description s i) = s32 (held s i + δ i).
(** Tasks that have ended have closed their files, and descriptors are below MAX_FDS. *)
Definition ended_closed s : Prop := ∀ p t i, tasks s !! p = Some t → alive (state t) = false → task_count i t = 0.
Definition small_tables s : Prop :=
  ∀ p t n e, tasks s !! p = Some t → fd_table t !! n = Some e → 0 ≤ n < Z.of_nat MAX_FDS.
(** Closing does not fail: neither the file systems nor the sockets refuse it. *)
Definition closing s : Prop :=
  (∀ fs f h x r x', fs ∈ filesystems (files s) → fs_close fs = Some f → f h x = Done (r, x') → 0 ≤ r) ∧
  (∀ p sk, sockets s !! p = Some sk → is_udp sk = true).
Record fds_but (δ : Z → Z) s : Prop := {
  ok_counted : counted δ s;
  ok_ended : ended_closed s;
  ok_small : small_tables s;
  ok_closing : closing s;
}.
Definition fds_ok s : Prop := fds_but (λ _, 0) s.
Lemma fds_but_ext δ δ' s : (∀ i, δ i = δ' i) → fds_but δ s → fds_but δ' s.
Proof. intros E [H1 H2 H3 H4]. split; try done. intros i. by rewrite <-E. Qed.

(** Two states with the same descriptors. *)
Definition same_fds s s' : Prop :=
  fnode_of <$> tasks s' = fnode_of <$> tasks s ∧ current_task s' = current_task s ∧
  (∀ i, refcount (description s' i) = refcount (description s i)) ∧
  sockets s' ⊆ sockets s ∧ filesystems (files s') = filesystems (files s).
Lemma same_fds_refl s : same_fds s s.
Proof. by split_and!. Qed.
Lemma held_fnodes s s' i : fnode_of <$> tasks s' = fnode_of <$> tasks s → held s' i = held s i.
Proof.
  set (g := λ k, if f_kworker k then 0 else msum (fd_count i) (f_table k)).
  assert (Hg : ∀ m : gmap Z task_t, msum (task_count i) m = msum g (fnode_of <$> m)).
  { induction m as [|k x m Hk IH] using map_ind; [done|].
    rewrite fmap_insert, msum_insert_new by done. rewrite msum_insert_new by (by rewrite lookup_fmap, Hk). by rewrite IH. }
  intros E. unfold held. by rewrite !Hg, E.
Qed.
Lemma fnode_lookup s s' p t : fnode_of <$> tasks s' = fnode_of <$> tasks s → tasks s' !! p = Some t →
  ∃ t0, tasks s !! p = Some t0 ∧ fnode_of t = fnode_of t0.
Proof.
  intros E Et. apply (f_equal (lookup p)) in E. rewrite !lookup_fmap, Et in E.
  destruct (tasks s !! p) as [t0|]; [|done]. exists t0. split; [done|]. cbn in E. congruence.
Qed.
Lemma task_count_fnode i t t' : fnode_of t = fnode_of t' → task_count i t = task_count i t'.
Proof. unfold fnode_of, task_count. intros [= -> -> _]. done. Qed.
Lemma fds_but_same δ s s' : same_fds s s' → fds_but δ s → fds_but δ s'.
Proof.
  intros (Ht & _ & Hd & Hs & Hf) [H1 H2 H3 [H4 H5]]. split.
  - intros i. rewrite Hd, (held_fnodes s s') by done. apply H1.
  - intros p t i Et Ha. destruct (fnode_lookup s s' p t Ht Et) as (t0 & E0 & Ef).
    rewrite (task_count_fnode i t t0 Ef). apply (H2 p t0 i E0). unfold fnode_of in Ef. congruence.
  - intros p t n e Et En. destruct (fnode_lookup s s' p t Ht Et) as (t0 & E0 & Ef).
    apply (H3 p t0 n e E0). unfold fnode_of in Ef. congruence.
  - unfold closing. rewrite Hf. split; [done|]. intros p sk Hp. by eapply H5, lookup_weaken.
Qed.
Lemma same_fds_trans s s1 s2 : same_fds s s1 → same_fds s1 s2 → same_fds s s2.
Proof.
  intros (A1 & A2 & A3 & A4 & A5) (B1 & B2 & B3 & B4 & B5). split_and!; try congruence. by etrans.
Qed.

(** Steps on single fields. *)
Lemma same_task s0 p : keeps (same_fds s0) (task p).
Proof. intros s a s' Hs [-> _]%task_Done. done. Qed.
Lemma same_current s0 : keeps (same_fds s0) current.
Proof. intros s a s' Hs [-> _]%current_Done. done. Qed.
Lemma same_update s0 p f : (∀ t, fnode_of (f t) = fnode_of t) → keeps (same_fds s0) (update_task p f).
Proof.
  intros Hf s a s' Hs (t & Et & ->)%update_task_Done. eapply same_fds_trans; [exact Hs|]. split_and!; try done.
  cbn. rewrite fmap_insert, Hf. apply insert_id. by rewrite lookup_fmap, Et.
Qed.
Lemma same_update_current s0 f : (∀ t, fnode_of (f t) = fnode_of t) → keeps (same_fds s0) (update_current f).
Proof. intros Hf. unfold update_current. keeps_step; [apply keeps_get|by apply same_update]. Qed.
Lemma same_modify s0 (f : kernel → kernel) : (∀ s, same_fds s (f s)) → keeps (same_fds s0) (kmodify f).
Proof. intros Hf. apply keeps_modify. intros s Hs. by eapply same_fds_trans. Qed.
Lemma same_description s0 i f :
  (∀ d, refcount (f d) = refcount d) → keeps (same_fds s0) (update_description i f).
Proof.
  intros Hf. unfold update_description. apply same_modify. intros s. split_and!; try done.
  intros j. unfold description at 1. cbn. destruct (decide (j = i)) as [->|].
  - rewrite lookup_insert_eq. cbn. apply Hf.
  - by rewrite lookup_insert_ne.
Qed.
Lemma same_lift_tables s0 {A} (m : K paging A) : keeps (same_fds s0) (lift_tables m).
Proof. intros s a s' Hs [q ->]%lift_tables_Done. exact Hs. Qed.
Lemma same_net s0 {A} (m : K (net N) A) : keeps (same_fds s0) (lift_net m).
Proof. intros s a s' Hs H. unfold lift_net in H. destruct (m (network s)) as [[x q]| | |]; simplify_eq. exact Hs. Qed.
(** File systems keep their table of types. *)
Lemma same_vfs s0 {A} (m : K (vfs FS) A) : (∀ F, keeps (λ v, filesystems v = F) m) → keeps (same_fds s0) (lift_vfs m).
Proof.
  intros Hm. unfold lift_vfs. keeps_step; [apply same_current|]. keeps_step.
  { intros s x s' Hs H. destruct (m _) as [[y v]| | |] eqn:E; simplify_eq.
    apply (Hm (filesystems (files s))) in E; [|done]. destruct Hs as (H1 & H2 & H3 & H4 & H5).
    split_and!; try done. cbn. congruence. }
  keeps_step; [apply keeps_get|]. keeps_step; [by apply same_update_current|apply keeps_ret].
Qed.
End count.
#[export] Hint Resolve same_task same_current same_lift_tables same_net : keeps.
Ltac same_step :=
  match goal with
  | |- keeps (same_fds _) (kmodify _) => apply same_modify; intros ?; by split_and!
  | |- keeps (same_fds _) (update_task _ _) => apply same_update; intros ?; reflexivity
  | |- keeps (same_fds _) (update_current _) => apply same_update_current; intros ?; reflexivity
  | |- keeps (same_fds _) (update_description _ _) => apply same_description; intros ?; reflexivity
  | |- keeps _ _ => keeps_step
  end.
Ltac same_tac := repeat same_step; auto with keeps nocore.

(** ** The file system calls keep the types of file systems *)

Section vfs.
Context {FS : Type}.
Context (F : list (filesystem_t FS)).
#[local] Notation T := (λ v : vfs FS, filesystems v = F).

Lemma keeps_types {A} (m : K (vfs FS) A) : (∀ t, keeps (λ v, tree_of v = t) m) → keeps T m.
Proof.
  intros Hm s a s' Hs H. apply (Hm (tree_of s)) in H; [|done]. unfold tree_of in H. cbn in *. congruence.
Qed.
Lemma keeps_types_refcount p n : keeps T (add_refcount p n).
Proof. intros v a v' Hv (mp & _ & ->)%update_mount_Done. exact Hv. Qed.
Lemma keeps_types_lift {A} (m : K FS A) : keeps T (lift_fs m).
Proof. apply keeps_types. intros t. apply keeps_tree_lift. Qed.
Lemma keeps_types_select p : keeps T (select_fs p).
Proof. apply keeps_types. intros t. apply keeps_tree_select. Qed.
Hint Resolve keeps_types_refcount keeps_types_lift keeps_types_select : keeps.
Lemma keeps_types_lookup path : keeps T (vfs_lookup path).
Proof. apply keeps_types. intros t. apply keeps_tree_lookup. Qed.
Lemma keeps_types_stat path : keeps T (vfs_stat path).
Proof. apply keeps_types. intros t. apply keeps_tree_stat. Qed.
Lemma keeps_types_create path : keeps T (create_file path).
Proof. apply keeps_types. intros t. apply keeps_tree_create. Qed.
Hint Resolve keeps_types_lookup : keeps.
Lemma keeps_types_open path : keeps T (vfs_open path).
Proof. unfold vfs_open. keeps_tac. Qed.
Lemma keeps_types_close h : keeps T (vfs_close h).
Proof. unfold vfs_close. keeps_tac. Qed.
Lemma keeps_types_truncate h n : keeps T (vfs_truncate h n).
Proof. unfold vfs_truncate. keeps_tac. Qed.
Lemma select_fs_member p (v : vfs FS) fs v' : filesystems v = F → select_fs p v = Done (fs, v') → fs ∈ F.
Proof.
  intros Hv H. unfold select_fs in H. apply K_bind_Done in H as (m & v1 & H1 & H).
  assert (filesystems v1 = F).
  { assert (Hk : keeps T (deref p)) by (apply keeps_types; intros; apply keeps_tree_deref). by eapply Hk. }
  apply K_bind_Done in H as (fs' & v2 & H2 & H). apply K_bind_Done in H as (? & v3 & H3 & H).
  unfold mret, K_ret in H. injection H as -> _. unfold filesystem in H2. bind_get H2. destruct (znth (filesystems v1) (mp_type m)) as [y|] eqn:E; [|done].
  cbn in H2. unfold mret, K_ret in H2. injection H2 as <- _. unfold znth in E.
  destruct (mp_type m <? 0); [done|]. apply list_elem_of_lookup_2 in E. congruence.
Qed.
(** Closing succeeds if the operations of all types do. *)
Lemma vfs_close_succeeds h (v : vfs FS) r v' : filesystems v = F →
  (∀ fs f h x r x', fs ∈ F → fs_close fs = Some f → f h x = Done (r, x') → 0 ≤ r) →
  vfs_close h v = Done (r, v') → 0 ≤ r.
Proof.
  intros Hv Hc H. unfold vfs_close in H. apply K_bind_Done in H as (fs & v1 & H1 & H).
  pose proof (select_fs_member _ _ _ _ Hv H1) as Hin. apply K_bind_Done in H as (res & v2 & H2 & H).
  assert (Hres : 0 ≤ res).
  { destruct (fs_close fs) as [f|] eqn:Ef; [|unfold mret, K_ret in H2; by injection H2 as <-].
    unfold lift_fs in H2. destruct (f (fh_handle h) (fs_state v1)) as [[x st]| | |] eqn:E; simplify_eq. by eapply Hc. }
  rewrite (proj2 (Z.ltb_ge res 0)) in H by done. apply K_bind_Done in H as (? & v3 & H3 & H).
  unfold mret, K_ret in H. by injection H as <-.
Qed.
End vfs.

(** ** Closing *)

Section close.
Context {FS N : Type}.
#[local] Notation kernel := (kernel FS N).
Implicit Types (s : kernel) (δ : Z → Z).

Lemma close_description_spec δ i s r s' : fds_but δ s → close_file_description i s = Done (r, s') →
  0 ≤ r ∧ same_fds s s'.
Proof.
  intros Hok H. destruct (ok_closing _ _ Hok) as [Hfs Hsk]. unfold close_file_description in H.
  bind_get H.
  apply K_bind_Done in H as (res & s1 & H1 & H).
  assert (0 ≤ res ∧ same_fds s s1) as [Hr H1s]; [|].
  { destruct (_ || _).
    - split; [|by eapply (same_vfs s (vfs_close _)); [intros F; apply keeps_types_close|apply same_fds_refl|exact H1]].
      unfold lift_vfs in H1. apply K_bind_Done in H1 as (t & ? & [-> _]%current_Done & H1).
      apply K_bind_Done in H1 as (x & s2 & H2 & H1). destruct (vfs_close _ _) as [[y v]| | |] eqn:E; simplify_eq.
      assert (Hy : 0 ≤ x) by (eapply (vfs_close_succeeds (filesystems (files s))); [|exact Hfs|exact E]; done).
      apply K_bind_Done in H1 as (? & ? & _ & H1). apply K_bind_Done in H1 as (? & ? & _ & H1).
      unfold mret, K_ret in H1. by injection H1 as <-.
    - destruct (ftype _ =? FD_TYPE_SOCKET).
      + unfold close_socket, deref_socket in H1. apply K_bind_Done in H1 as (sk & s2 & H2 & H1).
        bind_get H2.
        destruct (sockets s !! _) as [sk'|] eqn:Esk; [|done]. unfold kopt, mret, K_ret in H2. injection H2 as -> <-.
        apply K_bind_Done in H1 as (x & s3 & H3 & H1). apply K_bind_Done in H1 as (? & s4 & H4 & H1).
        unfold mret, K_ret in H1. injection H1 as -> ->. pose proof (Hsk _ _ Esk) as Hudp.
        assert (0 ≤ res) as Hres.
        { unfold lift_net, socket_close in H3. rewrite Hudp in H3. cbn [negb] in H3.
          match type of H3 with context [?m (network s)] => destruct (m (network s)) as [[y q]| | |] eqn:E end; simplify_eq.
          apply K_bind_Done in E as (? & ? & _ & E). unfold mret, K_ret in E. by injection E as <-. }
        split; [done|]. rewrite (proj2 (Z.ltb_ge res 0)) in H4 by done. unfold kmodify in H4. injection H4 as _ <-.
        apply (same_net s) in H3; [|apply same_fds_refl]. eapply same_fds_trans; [exact H3|]. split_and!; try done.
        cbn. apply delete_subseteq.
      + destruct (ftype _ =? FD_TYPE_PIPE); [|unfold mret, K_ret in H1; injection H1 as <- <-; split; [done|apply same_fds_refl]].
        apply K_bind_Done in H1 as (? & s2 & H2 & H1). unfold mret, K_ret in H1. injection H1 as <- <-. split; [done|].
        assert (Hk : ∀ f p, keeps (same_fds s) (remove_pipe_end (FS:=FS) (N:=N) f p)).
        { intros f p. unfold remove_pipe_end, deref_pipe. same_tac. }
        destruct (_ =? O_RDONLY); (eapply Hk; [apply same_fds_refl|exact H2]). }
  rewrite (proj2 (Z.ltb_ge res 0)) in H by done. apply K_bind_Done in H as (? & s2 & H2 & H).
  unfold mret, K_ret in H. injection H as <- <-. split; [done|].
  eapply (same_description s); [|exact H1s|exact H2]. intros d. done.
Qed.

(** The current process, seen through its descriptors. *)
Definition user s (m : gmap Z fd_t) : Prop := fnode_of <$> tasks s !! current_task s = Some (mk_fnode m false true).
Lemma user_same s s' m : same_fds s s' → user s m → user s' m.
Proof. intros (Ht & Hc & _) Hu. unfold user in *. by rewrite Hc, <-lookup_fmap, Ht, lookup_fmap. Qed.
Lemma user_task s m : user s m → ∃ t, tasks s !! current_task s = Some t ∧
  fd_table t = m ∧ is_kworker (image t) = false ∧ alive (state t) = true.
Proof.
  unfold user. destruct (tasks s !! current_task s) as [t|]; [|done]. cbn. intros [= <- ? ?]. by exists t.
Qed.
Definition entry_of (m : gmap Z fd_t) (n : Z) : fd_t := default no_fd (m !! n).

(** An entry of the current process changes. *)
Lemma fds_but_entry δ s m n e a s' : fds_but δ s → user s m → 0 ≤ n < Z.of_nat MAX_FDS →
  update_current (set_fd_entry n e) s = Done (a, s') →
  fds_but (λ i, δ i + fd_count i (entry_of m n) - fd_count i e) s' ∧ user s' (<[n := e]> m) ∧ current_task s' = current_task s.
Proof.
  intros [H1 H2 H3 H4] Hu Hn (t & Et & ->)%update_current_Done.
  destruct (user_task s m Hu) as (t0 & Et0 & <- & Hk & Ha). assert (t0 = t) as -> by congruence.
  split; [|split; [|done]].
  - split.
    + intros i. unfold held. cbn. rewrite msum_insert, Et. cbn [from_option].
      change (refcount (description (set_tasks (<[current_task s:=set_fd_entry n e t]> (tasks s)) s) i))
        with (refcount (description s i)).
      rewrite H1, task_count_entry by done. unfold held. f_equal.
      change (entry_of (fd_table t) n) with (fd_entry t n). lia.
    + intros p tp i Ep Hd. cbn in Ep. destruct (decide (p = current_task s)) as [->|].
      * rewrite lookup_insert_eq in Ep. injection Ep as <-. cbn in Hd. congruence.
      * rewrite lookup_insert_ne in Ep by done. by eapply H2.
    + intros p tp k ek Ep Ek. cbn in Ep. destruct (decide (p = current_task s)) as [->|].
      * rewrite lookup_insert_eq in Ep. injection Ep as <-. cbn in Ek. destruct (decide (k = n)) as [->|]; [done|].
        rewrite lookup_insert_ne in Ek by done. by eapply H3.
      * rewrite lookup_insert_ne in Ep by done. by eapply H3.
    + exact H4.
  - unfold user. cbn. rewrite lookup_insert_eq. cbn. unfold fnode_of. cbn. by rewrite Hk, Ha.
Qed.
(** The count of a description changes. *)
Lemma s32_add a b : s32 (s32 a + b) = s32 (a + b).
Proof.
  unfold s32. replace ((a + 2 ^ 31) mod 2 ^ 32 - 2 ^ 31 + b + 2 ^ 31) with ((a + 2 ^ 31) mod 2 ^ 32 + b) by lia.
  rewrite Zplus_mod_idemp_l. do 2 f_equal. lia.
Qed.
Lemma fds_but_refcount δ s m i f k a s' : fds_but δ s → user s m →
  (∀ d, refcount d = refcount (description s i) → refcount (f d) = s32 (refcount d + k)) →
  update_description i f s = Done (a, s') →
  fds_but (λ j, δ j + (if bool_decide (i = j) then k else 0)) s' ∧ user s' m ∧ current_task s' = current_task s.
Proof.
  intros [H1 H2 H3 H4] Hu Hf H. unfold update_description, kmodify in H. injection H as _ <-.
  split; [|by split]. split; try done. intros j. unfold description at 1. cbn.
  change (held _ j) with (held s j). destruct (decide (j = i)) as [->|Hji].
  - rewrite lookup_insert_eq. cbn. rewrite Hf, H1, s32_add by done. rewrite bool_decide_true by done. f_equal. lia.
  - rewrite lookup_insert_ne by done. rewrite bool_decide_false by congruence.
    change (default zero_description (file_descriptions s !! j)) with (description s j). rewrite H1. f_equal. lia.
Qed.
End close.

(** ** The operations of fd.c *)

Section ops.
Context {FS N : Type}.
#[local] Notation kernel := (kernel FS N).
Implicit Types (s : kernel) (δ : Z → Z).

(** The descriptors of a running process with table [m] are in order. *)
Definition in_order (c : Z) (m : gmap Z fd_t) s : Prop := fds_ok s ∧ user s m ∧ current_task s = c.
Lemma in_order_same s s' c m : same_fds s s' → in_order c m s → in_order c m s'.
Proof.
  intros Hs (H1 & H2 & H3). split; [by eapply fds_but_same|]. split; [by eapply user_same|].
  destruct Hs as (_ & -> & _). done.
Qed.
Lemma in_order_keeps {A} c m (x : K kernel A) : (∀ s0, keeps (same_fds s0) x) → keeps (in_order c m) x.
Proof. intros Hx s a s' Hs H. eapply in_order_same; [|exact Hs]. eapply Hx; [apply same_fds_refl|exact H]. Qed.

Lemma with_fd_Done {A} (bad : A) n k s r s' m : user s m → with_fd bad n k s = Done (r, s') →
  (r = bad ∧ s' = s ∧ (0 ≤ n < Z.of_nat MAX_FDS → fd (entry_of m n) = None)) ∨
  ∃ i, 0 ≤ n < Z.of_nat MAX_FDS ∧ fd (entry_of m n) = Some i ∧ k i (description s i) s = Done (r, s').
Proof.
  intros Hu H. destruct (user_task s m Hu) as (t & Et & <- & _). unfold with_fd, lookup_fd in H.
  apply K_bind_Done in H as (o & s1 & H1 & H). apply K_bind_Done in H1 as (t' & ? & [-> Et']%current_Done & H1).
  unfold mret, K_ret in H1. injection H1 as Ho <-. assert (t' = t) as -> by congruence.
  change (fd_entry t n) with (entry_of (fd_table t) n) in Ho. set (L := Z.of_nat MAX_FDS) in *.
  destruct (Z.ltb_spec n 0); [subst o; unfold mret, K_ret in H; injection H as <- <-; left; split_and!; [done|done|lia]|].
  destruct (Z.leb_spec L n); [subst o; unfold mret, K_ret in H; injection H as <- <-; left; split_and!; [done|done|lia]|].
  cbn in Ho. destruct o as [i|].
  - right. exists i. split; [lia|]. split; [done|]. bind_get H. exact H.
  - unfold mret, K_ret in H. injection H as <- <-. by left.
Qed.
Lemma find_fd_spec t n : ∀ i j, find_fd n i t = Some j → i ≤ j < i + Z.of_nat n ∧ fd (fd_entry t j) = None.
Proof.
  induction n as [|n IH]; intros i j H; [done|]. cbn [find_fd] in H. destruct (fd (fd_entry t i)) eqn:E.
  - apply IH in H as [? ?]. split; [lia|done].
  - injection H as <-. split; [lia|done].
Qed.
Lemma find_description_spec s n : ∀ i j, find_description n i s = Some j → i ≤ j ∧ refcount (description s j) = 0.
Proof.
  induction n as [|n IH]; intros i j H; [done|]. cbn [find_description] in H.
  destruct (Z.eqb_spec (refcount (description s i)) 0).
  - injection H as <-. split; [lia|done].
  - apply IH in H as [? ?]. split; [lia|done].
Qed.

Lemma drop_description_spec s c m i r s' : in_order c m s → drop_description i s = Done (r, s') →
  0 ≤ r ∧ fds_but (λ j, if bool_decide (i = j) then -1 else 0) s' ∧ user s' m ∧ current_task s' = c.
Proof.
  intros (Hok & Hu & Hc) H. unfold drop_description in H. apply K_bind_Done in H as (? & s1 & H1 & H).
  eapply (fds_but_refcount _ _ m _ _ (-1)) in H1 as (Hok1 & Hu1 & Hc1); [|exact Hok|exact Hu|intros d _; cbn; f_equal; lia].
  bind_get H. destruct (_ =? 0).
  - destruct (close_description_spec _ _ _ _ _ Hok1 H) as [Hr Hs]. split; [done|].
    split; [by eapply fds_but_same|]. split; [by eapply user_same|]. destruct Hs as (_ & -> & _). congruence.
  - unfold mret, K_ret in H. injection H as <- <-. split; [done|]. split; [done|]. split; [done|]. congruence.
Qed.
Lemma fd_count_Some i j f : fd_count j (mk_fd (Some i) f) = if bool_decide (i = j) then 1 else 0.
Proof. unfold fd_count. cbn. by repeat case_bool_decide; simplify_eq. Qed.
Lemma fd_count_None j e : fd e = None → fd_count j e = 0.
Proof. unfold fd_count. by intros ->. Qed.
Lemma fd_count_entry i j e : fd e = Some i → fd_count j e = if bool_decide (i = j) then 1 else 0.
Proof. unfold fd_count. intros ->. by repeat case_bool_decide; simplify_eq. Qed.

Lemma fd_close_spec s c m n r s' : in_order c m s → fd_close n s = Done (r, s') →
  ∃ m', in_order c m' s' ∧ (0 ≤ n < Z.of_nat MAX_FDS → fd (entry_of m' n) = None) ∧
    ∀ k, k ≠ n → entry_of m' k = entry_of m k.
Proof.
  intros Hs H. destruct (with_fd_Done _ _ _ _ _ _ m (proj1 (proj2 Hs)) H) as [(-> & -> & Hn)|(i & Hn & Ei & Hk)].
  { exists m. by split_and!. }
  apply K_bind_Done in Hk as (res & s1 & H1 & Hk).
  destruct (drop_description_spec _ _ _ _ _ _ Hs H1) as (Hr & Hok & Hu & Hc). rewrite (proj2 (Z.ltb_ge res 0)) in Hk by done.
  apply K_bind_Done in Hk as (? & s2 & H2 & Hk). unfold mret, K_ret in Hk. injection Hk as <- <-.
  destruct (fds_but_entry _ _ _ _ _ _ _ Hok Hu Hn H2) as (Hok2 & Hu2 & Hc2).
  exists (<[n := no_fd]> m). split; [split; [|split; [done|congruence]]|split].
  - eapply fds_but_ext; [|exact Hok2]. intros j. cbn. rewrite fd_count_no_fd, (fd_count_entry i) by done.
    case_bool_decide; lia.
  - intros _. unfold entry_of. by rewrite lookup_insert_eq.
  - intros k Hkn. unfold entry_of. by rewrite lookup_insert_ne.
Qed.
(** release_process_fds leaves no descriptor open. *)
Lemma close_all_spec c n : ∀ i s m a s', in_order c m s → 0 ≤ i → i + Z.of_nat n = Z.of_nat MAX_FDS →
  (∀ k, 0 ≤ k < i → fd (entry_of m k) = None) → close_all n i s = Done (a, s') →
  ∃ m', in_order c m' s' ∧ ∀ k, 0 ≤ k < Z.of_nat MAX_FDS → fd (entry_of m' k) = None.
Proof.
  induction n as [|n IH]; intros i s m a s' Hs Hi Hn Hc H; cbn [close_all] in H.
  { unfold mret, K_ret in H. injection H as _ <-. exists m. split; [done|]. intros k Hk. apply Hc. lia. }
  apply K_bind_Done in H as (t & ? & [-> Et]%current_Done & H). apply K_bind_Done in H as (? & s1 & H1 & H).
  assert (∃ m1, in_order c m1 s1 ∧ ∀ k, 0 ≤ k < i + 1 → fd (entry_of m1 k) = None) as (m1 & Hs1 & Hc1).
  { destruct (user_task s m (proj1 (proj2 Hs))) as (t0 & Et0 & Em & _). assert (t0 = t) as -> by congruence.
    destruct (fd (fd_entry t i)) as [d|] eqn:Ed.
    - apply K_bind_Done in H1 as (? & s2 & H1 & Hr). unfold mret, K_ret in Hr. injection Hr as _ <-.
      destruct (fd_close_spec _ _ _ _ _ _ Hs H1) as (m' & Hs' & Hn' & Ho). exists m'. split; [done|].
      intros k Hk. destruct (decide (k = i)) as [->|]; [apply Hn'; lia|]. rewrite Ho by done. apply Hc. lia.
    - unfold mret, K_ret in H1. injection H1 as _ <-. exists m. split; [done|]. intros k Hk.
      destruct (decide (k = i)) as [->|]; [by rewrite <-Em|]. apply Hc. lia. }
  eapply (IH (i + 1)); [exact Hs1|lia|lia|exact Hc1|exact H].
Qed.
(** A descriptor is set to point to [i], for which the count was raised, too. *)
Lemma in_order_entry s c m δ n e a s' : fds_but δ s → user s m → current_task s = c → 0 ≤ n < Z.of_nat MAX_FDS →
  (∀ i, δ i + fd_count i (entry_of m n) - fd_count i e = 0) →
  update_current (set_fd_entry n e) s = Done (a, s') → in_order c (<[n := e]> m) s'.
Proof.
  intros Hok Hu Hc Hn Hδ H. destruct (fds_but_entry _ _ _ _ _ _ _ Hok Hu Hn H) as (Hok' & Hu' & Hc').
  split; [|split; [done|congruence]]. eapply fds_but_ext; [|exact Hok']. exact Hδ.
Qed.
Lemma share_spec s c m δ i a s' : fds_but δ s → user s m → current_task s = c → share i s = Done (a, s') →
  fds_but (λ j, δ j + (if bool_decide (i = j) then 1 else 0)) s' ∧ user s' m ∧ current_task s' = c.
Proof.
  intros Hok Hu Hc H. unfold share in H.
  eapply (fds_but_refcount _ _ m _ _ 1) in H as (Hok1 & Hu1 & Hc1); [|exact Hok|exact Hu|done].
  split_and!; [done|done|congruence].
Qed.
(** A copy of an open entry goes to a free one. *)
Lemma copy_spec s c m i n fl a s' : in_order c m s → 0 ≤ n < Z.of_nat MAX_FDS → fd (entry_of m n) = None →
  (update_current (set_fd_entry n (mk_fd (Some i) fl));; share i) s = Done (a, s') →
  in_order c (<[n := mk_fd (Some i) fl]> m) s'.
Proof.
  intros (Hok & Hu & Hc) Hn He H. apply K_bind_Done in H as (? & s1 & H1 & H).
  destruct (fds_but_entry _ _ _ _ _ _ _ Hok Hu Hn H1) as (Hok1 & Hu1 & Hc1).
  destruct (share_spec _ c _ _ _ _ _ Hok1 Hu1 ltac:(congruence) H) as (Hok2 & Hu2 & Hc2).
  split; [|by split]. eapply fds_but_ext; [|exact Hok2]. intros j. cbn.
  rewrite fd_count_None, fd_count_Some by done. lia.
Qed.
Lemma dup_spec s c m n k fl r s' : in_order c m s → dup n k fl s = Done (r, s') → ∃ m', in_order c m' s'.
Proof.
  intros Hs H. destruct (with_fd_Done _ _ _ _ _ _ m (proj1 (proj2 Hs)) H) as [(-> & -> & _)|(i & Hn & Ei & Hk)]; [by exists m|].
  set (L := Z.of_nat MAX_FDS) in *.
  destruct (Z.ltb_spec k 0) as [|Hk0]; cbn [orb] in Hk; [unfold mret, K_ret in Hk; injection Hk as _ <-; by exists m|].
  destruct (Z.leb_spec L k) as [|HkL]; [unfold mret, K_ret in Hk; injection Hk as _ <-; by exists m|].
  apply K_bind_Done in Hk as (t & ? & [-> Et]%current_Done & Hk).
  destruct (find_fd _ k t) as [new|] eqn:Ef; [|unfold mret, K_ret in Hk; injection Hk as _ <-; by exists m].
  apply find_fd_spec in Ef as [Hr Hfree]. destruct (user_task s m (proj1 (proj2 Hs))) as (t0 & Et0 & <- & _).
  assert (t0 = t) as -> by congruence. apply K_bind_Done in Hk as (? & s1 & H1 & Hk).
  apply K_bind_Done in Hk as (? & s2 & H2 & Hk). unfold mret, K_ret in Hk. injection Hk as _ <-.
  eexists. eapply copy_spec; [exact Hs| |exact Hfree|by rewrite (K_bind_step _ _ _ _ _ H1)]. lia.
Qed.
Lemma fcntl_spec s c m n cmd arg r s' : in_order c m s → fcntl n cmd arg s = Done (r, s') → ∃ m', in_order c m' s'.
Proof.
  intros Hs H. destruct (with_fd_Done _ _ _ _ _ _ m (proj1 (proj2 Hs)) H) as [(-> & -> & _)|(i & Hn & Ei & Hk)]; [by exists m|].
  destruct (cmd =? F_GETFD).
  { exists m. eapply in_order_keeps; [|exact Hs|exact Hk]. intros. same_tac. }
  destruct (cmd =? F_SETFD).
  { apply K_bind_Done in Hk as (? & s1 & H1 & Hk). unfold mret, K_ret in Hk. injection Hk as _ <-.
    destruct Hs as (Hok & Hu & Hc). eexists. eapply in_order_entry; [exact Hok|exact Hu|exact Hc|exact Hn| |exact H1].
    intros j. rewrite fd_count_Some, (fd_count_entry i) by done. lia. }
  destruct (cmd =? F_GETFL); [unfold mret, K_ret in Hk; injection Hk as _ <-; by exists m|].
  destruct (cmd =? F_SETFL).
  { exists m. eapply in_order_keeps; [|exact Hs|exact Hk]. intros. same_tac. }
  destruct (cmd =? F_DUPFD); [by eapply dup_spec|]. destruct (cmd =? F_DUPFD_CLOEXEC); [by eapply dup_spec|].
  unfold mret, K_ret in Hk. injection Hk as _ <-. by exists m.
Qed.
Lemma dup2_spec s c m n k r s' : in_order c m s → dup2 n k s = Done (r, s') → ∃ m', in_order c m' s'.
Proof.
  intros Hs H. destruct (with_fd_Done _ _ _ _ _ _ m (proj1 (proj2 Hs)) H) as [(-> & -> & _)|(i & Hn & Ei & Hk)]; [by exists m|].
  set (L := Z.of_nat MAX_FDS) in *.
  destruct (Z.ltb_spec k 0) as [|Hk0]; cbn [orb] in Hk; [unfold mret, K_ret in Hk; injection Hk as _ <-; by exists m|].
  destruct (Z.leb_spec L k) as [|HkL]; [unfold mret, K_ret in Hk; injection Hk as _ <-; by exists m|].
  destruct (Z.eqb_spec n k) as [|Hnk]; [unfold mret, K_ret in Hk; injection Hk as _ <-; by exists m|].
  apply K_bind_Done in Hk as (? & s1 & H1 & Hk). destruct (fd_close_spec _ _ _ _ _ _ Hs H1) as (m1 & Hs1 & He1 & Ho1).
  apply K_bind_Done in Hk as (t & ? & [-> Et]%current_Done & Hk).
  destruct (user_task s1 m1 (proj1 (proj2 Hs1))) as (t0 & Et0 & Em & _). assert (t0 = t) as -> by congruence.
  assert (Hti : fd (fd_entry t n) = Some i).
  { unfold fd_entry. rewrite Em. change (default no_fd (m1 !! n)) with (entry_of m1 n). by rewrite Ho1. }
  rewrite Hti in Hk. apply K_bind_Done in Hk as (? & s2 & H2 & Hk). apply K_bind_Done in Hk as (? & s3 & H3 & Hk).
  unfold mret, K_ret in Hk. injection Hk as _ <-. eexists.
  eapply copy_spec; [exact Hs1| |apply He1|by rewrite (K_bind_step _ _ _ _ _ H2)]; lia.
Qed.

Lemma same_open_stat s0 path fl : keeps (same_fds s0) (open_stat (FS:=FS) (N:=N) path fl).
Proof.
  unfold open_stat. keeps_step; [apply same_vfs; intros; apply keeps_types_stat|]. destruct a as [res st].
  keeps_step; [|keeps_step; apply keeps_ret]. keeps_step; [|apply keeps_ret].
  keeps_step; [apply same_vfs; intros; apply keeps_types_create|apply keeps_ret].
Qed.
(** A free description is taken for a new open file. *)
Lemma take_description s c m i f a s' : in_order c m s → refcount (description s i) = 0 → (∀ d, refcount (f d) = 1) →
  update_description i f s = Done (a, s') →
  fds_but (λ j, if bool_decide (i = j) then 1 else 0) s' ∧ user s' m ∧ current_task s' = c.
Proof.
  intros (Hok & Hu & Hc) Hr Hf H.
  eapply (fds_but_refcount _ _ m _ _ 1) in H as (Hok1 & Hu1 & Hc1); [|exact Hok|exact Hu|intros d ->; by rewrite Hr, Hf].
  split_and!; [done|done|congruence].
Qed.
Lemma open_description_spec s c m i path fl st r s' : in_order c m s → refcount (description s i) = 0 →
  open_description i path fl st s = Done (r, s') →
  (r < 0 ∧ in_order c m s') ∨
  (0 ≤ r ∧ fds_but (λ j, if bool_decide (i = j) then 1 else 0) s' ∧ user s' m ∧ current_task s' = c).
Proof.
  intros Hs Hr H. unfold open_description in H. apply K_bind_Done in H as ([res h] & s1 & H1 & H).
  assert (S1 : same_fds s s1) by (eapply (same_vfs s); [intros; apply keeps_types_open|apply same_fds_refl|exact H1]).
  destruct (Z.ltb_spec res 0) as [|Hres]; [unfold mret, K_ret in H; injection H as <- <-; left; split; [done|by eapply in_order_same]|].
  apply K_bind_Done in H as (? & s2 & H2 & H). apply (same_description s) in H2; [|done|done].
  apply K_bind_Done in H as (res2 & s3 & H3 & H).
  assert (S3 : same_fds s s3).
  { destruct (_ && _); [|unfold mret, K_ret in H3; by injection H3 as _ <-].
    eapply (same_vfs s); [intros; apply keeps_types_truncate|exact H2|exact H3]. }
  destruct (Z.ltb_spec res2 0) as [Hneg|Hres2].
  - apply K_bind_Done in H as (? & s4 & H4 & H). apply (same_description s) in H4; [|done|done].
    unfold mret, K_ret in H. injection H as <- <-. left. split; [done|]. by eapply in_order_same.
  - apply K_bind_Done in H as (? & s4 & H4 & H). unfold mret, K_ret in H. injection H as <- <-. right. split; [done|].
    refine (take_description s3 c m i _ _ _ (in_order_same _ _ _ _ S3 Hs) _ _ H4); [|done].
    destruct S3 as (_ & _ & Hd & _). by rewrite Hd.
Qed.
Lemma current_table s c m t s' : in_order c m s → current s = Done (t, s') → s' = s ∧ fd_table t = m.
Proof.
  intros (_ & Hu & _) [-> Et]%current_Done. destruct (user_task s m Hu) as (t0 & Et0 & <- & _).
  split; [done|]. congruence.
Qed.
Lemma fd_open_spec s c m path fl r s' : in_order c m s → fd_open path fl s = Done (r, s') → ∃ m', in_order c m' s'.
Proof.
  intros Hs H. unfold fd_open in H.
  destruct (_ && _); [unfold mret, K_ret in H; injection H as _ <-; by exists m|].
  apply K_bind_Done in H as (o & s1 & H1 & H).
  assert (Hs1 : in_order c m s1) by (eapply in_order_keeps; [intros; apply same_open_stat|exact Hs|exact H1]).
  destruct o as [e|st]; [unfold mret, K_ret in H; injection H as _ <-; by exists m|].
  destruct (_ && _); [unfold mret, K_ret in H; injection H as _ <-; by exists m|].
  apply K_bind_Done in H as (t & ? & Ht & H). destruct (current_table _ _ _ _ _ Hs1 Ht) as [-> Em].
  destruct (find_fd _ 0 t) as [n|] eqn:Ef; [|unfold mret, K_ret in H; injection H as _ <-; by exists m].
  apply find_fd_spec in Ef as [Hn Hfree]. unfold fd_entry in Hfree. rewrite Em in Hfree. bind_get H.
  destruct (find_description _ 0 s1) as [i|] eqn:Ei; [|unfold mret, K_ret in H; injection H as _ <-; by exists m].
  apply find_description_spec in Ei as [_ Hi]. apply K_bind_Done in H as (res & s2 & H2 & H).
  destruct (open_description_spec _ _ _ _ _ _ _ _ _ Hs1 Hi H2) as [[Hr Hs2]|(Hr & Hok & Hu & Hc)].
  { rewrite (proj2 (Z.ltb_lt res 0)) in H by done. unfold mret, K_ret in H. injection H as _ <-. by exists m. }
  rewrite (proj2 (Z.ltb_ge res 0)) in H by done. apply K_bind_Done in H as (? & s3 & H3 & H).
  unfold mret, K_ret in H. injection H as _ <-. eexists.
  refine (in_order_entry _ _ _ _ _ _ _ _ Hok Hu Hc _ _ H3); [lia|]. intros j. cbn.
  rewrite (fd_count_None j (entry_of m n)), fd_count_Some by done. lia.
Qed.

Lemma same_new_object s0 : keeps (same_fds s0) (new_object (FS:=FS) (N:=N)).
Proof. unfold new_object. same_tac. Qed.
Lemma two_free_spec {A} (find : nat → Z → A → option Z) (P : Z → Prop) n x a b :
  (∀ n i j, find n i x = Some j → i ≤ j ∧ P j) → two_free find n x = [a; b] → P a ∧ P b ∧ a < b.
Proof.
  intros Hf H. unfold two_free in H. destruct (find n 0 x) as [i|] eqn:Ei; [|done].
  destruct (find _ (i + 1) x) as [j|] eqn:Ej; [|done]. injection H as <- <-.
  apply Hf in Ei as [_ ?]. apply Hf in Ej as [? ?]. split_and!; [done|done|lia].
Qed.
Lemma two_fds_spec t a b : two_free find_fd MAX_FDS t = [a; b] →
  (0 ≤ a < Z.of_nat MAX_FDS ∧ fd (fd_entry t a) = None) ∧ (0 ≤ b < Z.of_nat MAX_FDS ∧ fd (fd_entry t b) = None) ∧ a < b.
Proof.
  intros H. unfold two_free in H. destruct (find_fd MAX_FDS 0 t) as [i|] eqn:Ei; [|done].
  destruct (find_fd _ (i + 1) t) as [j|] eqn:Ej; [|done]. injection H as <- <-.
  apply find_fd_spec in Ei as [? ?]. apply find_fd_spec in Ej as [? ?].
  set (L := Z.of_nat MAX_FDS) in *. assert (Z.of_nat (MAX_FDS - Z.to_nat (i + 1)) = L - (i + 1)) by (unfold L in *; lia).
  split_and!; (done || lia).
Qed.
Lemma fd_pipe_spec s c m r s' : in_order c m s → pipe s = Done (r, s') → ∃ m', in_order c m' s'.
Proof.
  intros Hs H. unfold pipe in H. apply K_bind_Done in H as (t & ? & Ht & H).
  destruct (current_table _ _ _ _ _ Hs Ht) as [-> Em].
  destruct (two_free find_fd MAX_FDS t) as [|a [|b [|? ?]]] eqn:Ef;
    try (unfold mret, K_ret in H; injection H as _ <-; by exists m).
  apply two_fds_spec in Ef as ((Ha & Hfa) & (Hb & Hfb) & Hab). unfold fd_entry in Hfa, Hfb. rewrite Em in Hfa, Hfb.
  bind_get H. destruct (two_free find_description MAX_FILES s) as [|i [|j [|? ?]]] eqn:Ei;
    try (unfold mret, K_ret in H; injection H as _ <-; by exists m).
  apply (two_free_spec _ (λ i, refcount (description s i) = 0)) in Ei as (Hi & Hj & Hij); [|intros ? ? ?; apply find_description_spec].
  apply K_bind_Done in H as (p & s1 & H1 & H). apply (same_new_object s) in H1; [|apply same_fds_refl].
  apply K_bind_Done in H as (? & s2 & H2 & H).
  assert (S2 : same_fds s s2) by (eapply (same_modify s); [|exact H1|exact H2]; intros; by split_and!).
  pose proof (in_order_same _ _ _ _ S2 Hs) as Hs2. destruct S2 as (_ & _ & Hd & _).
  apply K_bind_Done in H as (? & s3 & H3 & H).
  assert (Hj3 : refcount (description s3 j) = 0).
  { unfold update_description, kmodify in H3. injection H3 as _ <-. unfold description. cbn.
    rewrite lookup_insert_ne by lia. change (refcount (description s2 j) = 0). by rewrite Hd. }
  edestruct take_description as (Hok3 & Hu3 & Hc3); [exact Hs2| | |exact H3|]; [exact (eq_trans (Hd i) Hi)|done|].
  apply K_bind_Done in H as (? & s4 & H4 & H).
  eapply (fds_but_refcount _ _ m _ _ 1) in H4 as (Hok4 & Hu4 & Hc4); [|exact Hok3|exact Hu3|intros d ->; by rewrite Hj3].
  apply K_bind_Done in H as (? & s5 & H5 & H). destruct (fds_but_entry _ _ _ _ _ _ _ Hok4 Hu4 Ha H5) as (Hok5 & Hu5 & Hc5).
  apply K_bind_Done in H as (? & s6 & H6 & H). unfold mret, K_ret in H. injection H as _ <-. eexists.
  refine (in_order_entry s5 c _ _ _ _ _ _ Hok5 Hu5 _ Hb _ H6); [congruence|]. intros k. cbn.
  assert (Hfb' : fd (entry_of (<[a := mk_fd (Some i) 0]> m) b) = None) by (unfold entry_of; by rewrite lookup_insert_ne by lia).
  rewrite (fd_count_None k (entry_of m a)), (fd_count_None k (entry_of _ b)), !fd_count_Some by done. lia.
Qed.
Lemma fd_socket_spec s c m d ty p r s' : in_order c m s → fd_socket d ty p s = Done (r, s') → ∃ m', in_order c m' s'.
Proof.
  intros Hs H. unfold fd_socket in H. apply K_bind_Done in H as (t & ? & Ht & H).
  destruct (current_table _ _ _ _ _ Hs Ht) as [-> Em].
  destruct (find_fd _ 0 t) as [n|] eqn:Ef; [|unfold mret, K_ret in H; injection H as _ <-; by exists m].
  apply find_fd_spec in Ef as [Hn Hfree]. unfold fd_entry in Hfree. rewrite Em in Hfree. bind_get H.
  destruct (find_description _ 0 s) as [i|] eqn:Ei; [|unfold mret, K_ret in H; injection H as _ <-; by exists m].
  apply find_description_spec in Ei as [_ Hi].
  destruct (socket d ty p) as [e|sk] eqn:Es; [unfold mret, K_ret in H; injection H as _ <-; by exists m|].
  assert (Hudp : is_udp sk = true).
  { unfold socket in Es. destruct (Z.eqb_spec d AF_INET) as [->|]; [|done]. destruct (Z.eqb_spec ty SOCK_DGRAM) as [->|]; [|done].
    destruct (Z.eqb_spec p IPPROTO_UDP) as [->|]; [|done]. cbn in Es. by injection Es as <-. }
  apply K_bind_Done in H as (q & s1 & H1 & H). apply (same_new_object s) in H1; [|apply same_fds_refl].
  pose proof (in_order_same _ _ _ _ H1 Hs) as Hs1. destruct H1 as (_ & _ & Hd & _). bind_modify H s2.
  assert (Hs2 : in_order c m (set_sockets (<[q := sk]> (sockets s1)) s1)).
  { destruct Hs1 as ([A1 A2 A3 [A4 A5]] & Hu & Hc). split; [|by split]. split; try done. split; [done|].
    intros p' sk' Hp. cbn in Hp. destruct (decide (p' = q)) as [->|].
    - rewrite lookup_insert_eq in Hp. by injection Hp as <-.
    - rewrite lookup_insert_ne in Hp by done. by eapply A5. }
  apply K_bind_Done in H as (? & s3 & H3 & H).
  edestruct take_description as (Hok3 & Hu3 & Hc3); [exact Hs2| | |exact H3|]; [exact (eq_trans (Hd i) Hi)|done|].
  apply K_bind_Done in H as (? & s4 & H4 & H). unfold mret, K_ret in H. injection H as _ <-. eexists.
  refine (in_order_entry _ _ _ _ _ _ _ _ Hok3 Hu3 Hc3 _ _ H4); [lia|]. intros j. cbn.
  rewrite (fd_count_None j (entry_of m n)), fd_count_Some by done. lia.
Qed.
End ops.
