(* ===== verification/FdSched.v ===== *)
(** * The scheduler keeps the counts of open files

    Most of scheduler.c does not touch descriptors at all; exit closes those of
    the task, fork shares them, and gc_tasks removes tasks that have none left.
    FdRuns.v puts it together. *)

From S2P Require Import Prelude Paging Vfs VfsMount Pipe Net Udp Task Signal Fd Sched TaskTree SchedTree SchedLinks SchedInv FdCount.

Section tables.
Context {FS N : Type}.
#[local] Notation kernel := (kernel FS N).
Implicit Types (s : kernel).

(** The same tables of descriptors, whatever the states of the tasks are. *)
Definition ftab (t : task_t) : gmap Z fd_t * bool := (fd_table t, is_kworker (image t)).
Definition same_tables s s' : Prop :=
  ftab <$> tasks s' = ftab <$> tasks s ∧ (∀ i, refcount (description s' i) = refcount (description s i)) ∧
  sockets s' ⊆ sockets s ∧ filesystems (files s') = filesystems (files s).
Lemma same_tables_refl s : same_tables s s.
Proof. by split_and!. Qed.
Lemma same_tables_trans s s1 s2 : same_tables s s1 → same_tables s1 s2 → same_tables s s2.
Proof. intros (A1 & A2 & A3 & A4) (B1 & B2 & B3 & B4). split_and!; try congruence. by etrans. Qed.
Lemma ftab_lookup s s' p t : ftab <$> tasks s' = ftab <$> tasks s → tasks s' !! p = Some t →
  ∃ t0, tasks s !! p = Some t0 ∧ ftab t = ftab t0.
Proof.
  intros E Et. apply (f_equal (lookup p)) in E. rewrite !lookup_fmap, Et in E.
  destruct (tasks s !! p) as [t0|]; [|done]. exists t0. split; [done|]. cbn in E. congruence.
Qed.
Lemma held_tables s s' i : ftab <$> tasks s' = ftab <$> tasks s → held s' i = held s i.
Proof.
  set (g := λ k : gmap Z fd_t * bool, if k.2 then 0 else msum (fd_count i) k.1).
  assert (Hg : ∀ m : gmap Z task_t, msum (task_count i) m = msum g (ftab <$> m)).
  { induction m as [|k x m Hk IH] using map_ind; [done|].
    rewrite fmap_insert, msum_insert_new by done. rewrite msum_insert_new by (by rewrite lookup_fmap, Hk). by rewrite IH. }
  intros E. unfold held. by rewrite !Hg, E.
Qed.
Lemma task_count_ftab i t t' : ftab t = ftab t' → task_count i t = task_count i t'.
Proof. unfold ftab, task_count. intros [= -> ->]. done. Qed.
(** The counts stay right if no task with open files ends. *)
Lemma fds_but_tables δ s s' : same_tables s s' → fds_but δ s →
  (∀ p t t', tasks s !! p = Some t → tasks s' !! p = Some t' → alive (state t') = false →
    alive (state t) = false ∨ ∀ i, task_count i t = 0) → fds_but δ s'.
Proof.
  intros (Ht & Hd & Hs & Hf) [H1 H2 H3 [H4 H5]] Ha. split.
  - intros i. rewrite Hd, (held_tables s s') by done. apply H1.
  - intros p t i Et Hal. destruct (ftab_lookup s s' p t Ht Et) as (t0 & E0 & Ef).
    rewrite (task_count_ftab i t t0 Ef). destruct (Ha p t0 t E0 Et Hal); [by apply (H2 p)|done].
  - intros p t n e Et En. destruct (ftab_lookup s s' p t Ht Et) as (t0 & E0 & Ef).
    apply (H3 p t0 n e E0). unfold ftab in Ef. congruence.
  - unfold closing. rewrite Hf. split; [done|]. intros p sk Hp. by eapply H5, lookup_weaken.
Qed.
Lemma fds_but_tree δ s s' : same_tables s s' → tree s' = tree s → fds_but δ s → fds_but δ s'.
Proof.
  intros Ht Htr Hok. eapply fds_but_tables; [done|done|]. intros p t t' E E' Ha. left.
  apply tree_lookup in E, E'. rewrite Htr, E in E'. injection E' as _ _ _ _ _ Hal. congruence.
Qed.

(** Steps on single fields. *)
Lemma tables_task s0 p : keeps (same_tables s0) (task p).
Proof. intros s a s' Hs [-> _]%task_Done. done. Qed.
Lemma tables_current s0 : keeps (same_tables s0) current.
Proof. intros s a s' Hs [-> _]%current_Done. done. Qed.
Lemma tables_update s0 p f : (∀ t, ftab (f t) = ftab t) → keeps (same_tables s0) (update_task p f).
Proof.
  intros Hf s a s' Hs (t & Et & ->)%update_task_Done. eapply same_tables_trans; [exact Hs|]. split_and!; try done.
  cbn. rewrite fmap_insert, Hf. apply insert_id. by rewrite lookup_fmap, Et.
Qed.
Lemma tables_update_current s0 f : (∀ t, ftab (f t) = ftab t) → keeps (same_tables s0) (update_current f).
Proof. intros Hf. unfold update_current. keeps_step; [apply keeps_get|by apply tables_update]. Qed.
Lemma tables_modify s0 (f : kernel → kernel) : (∀ s, same_tables s (f s)) → keeps (same_tables s0) (kmodify f).
Proof. intros Hf. apply keeps_modify. intros s Hs. by eapply same_tables_trans. Qed.
Lemma tables_lift s0 {A} (m : K paging A) : keeps (same_tables s0) (lift_tables m).
Proof. intros s a s' Hs [q ->]%lift_tables_Done. exact Hs. Qed.
Lemma tables_for_tasks s0 {A} (body : Z → A → K kernel A) stop a :
  (∀ p a, keeps (same_tables s0) (body p a)) → keeps (same_tables s0) (for_tasks body stop a).
Proof. intros Hb. unfold for_tasks. keeps_step; [apply keeps_get|]. apply keeps_ring_loop; [done|intros; apply tables_task]. Qed.
End tables.
#[export] Hint Resolve tables_task tables_current tables_lift : keeps.
Ltac tables_step :=
  match goal with
  | |- keeps (same_tables _) (kmodify _) => apply tables_modify; intros ?; by split_and!
  | |- keeps (same_tables _) (update_task _ _) => apply tables_update; intros ?; reflexivity
  | |- keeps (same_tables _) (update_current _) => apply tables_update_current; intros ?; reflexivity
  | |- keeps (same_tables _) (for_tasks _ _ _) => apply tables_for_tasks; intros ? ?
  | |- keeps _ _ => keeps_step
  end.
Ltac tables_tac := repeat tables_step; auto with keeps nocore.

(** ** What does not touch descriptors *)

Section sched.
Context {FS N : Type}.
#[local] Notation kernel := (kernel FS N).
Implicit Types (s : kernel).
Context (s0 : kernel).
#[local] Notation P := (same_tables s0).

Lemma tables_reparent fuel c q : keeps P (reparent fuel c q).
Proof. revert c. induction fuel as [|fuel IH]; intros c; cbn [reparent]; tables_tac. Qed.
Lemma tables_next_loop fuel start : keeps P (next_loop fuel start).
Proof. induction fuel as [|fuel IH]; cbn [next_loop]; tables_tac. Qed.
Hint Resolve tables_reparent tables_next_loop : keeps.
Lemma tables_choose : keeps P choose_task.
Proof. unfold choose_task, get_next_task. tables_tac. Qed.
Lemma tables_call_handler sig h : keeps P (call_handler sig h).
Proof. unfold call_handler. tables_tac. Qed.
Lemma tables_resume : keeps P resume.
Proof. unfold resume, restore_fpu. tables_tac. Qed.
Lemma tables_unlink_child p t : keeps P (unlink_child p t).
Proof.
  unfold unlink_child. tables_tac. generalize (size (tasks a1)) (child (links a)). intros f.
  induction f as [|f IH]; intros h; cbn [unlink_sibling]; tables_tac.
Qed.
Lemma tables_signal_task p sig : keeps P (signal_task p sig).
Proof. unfold signal_task, notify_parent. tables_tac. Qed.
Hint Resolve tables_signal_task : keeps.
Lemma tables_kill k sig : keeps P (kill k sig).
Proof. unfold kill, signal_matching. tables_tac. Qed.
Lemma tables_raise sig : keeps P (raise sig).
Proof. unfold raise. tables_tac. Qed.
Lemma tables_find_sibling fuel p f : keeps P (find_sibling fuel p f).
Proof. revert p. induction fuel as [|fuel IH]; intros p; cbn [find_sibling]; tables_tac. Qed.
Hint Resolve tables_find_sibling : keeps.
Lemma tables_report c ws e : keeps P (report c ws e).
Proof. unfold report. tables_tac. apply tables_update. intros t. by destruct e. Qed.
Hint Resolve tables_report : keeps.
Lemma tables_check r : keeps P (check_blocked_tasks r).
Proof.
  unfold check_blocked_tasks, check_blocked_task, check_delay, check_wait_any, check_wait_child, in_space, unblock,
    set_result, get_first_waitpid_target, report_any. tables_tac.
Qed.
Lemma tables_sigprocmask how set old : keeps P (sigprocmask how set old).
Proof. unfold sigprocmask. tables_tac. Qed.
Lemma tables_sigaction sig new old : keeps P (sigaction sig new old).
Proof. unfold sigaction. tables_tac. Qed.
Lemma tables_setpgid k g : keeps P (setpgid k g).
Proof. unfold setpgid, get_child, find_task. tables_tac. Qed.
Lemma tables_setsid : keeps P setsid.
Proof. unfold setsid. tables_tac. Qed.
Lemma tables_block r f : keeps P (block_current r f).
Proof. unfold block_current. tables_tac. Qed.
End sched.

(** ** Exit and task switches *)

Section exit.
Context {FS N : Type}.
#[local] Notation kernel := (kernel FS N).
Implicit Types (s : kernel).

Definition FW s : Prop := fds_ok s ∧ W s.
(** Operations that leave the links and the tables alone. *)
Lemma keeps_FW {A} (m : K kernel A) :
  (∀ T c r b, keeps (framed T c r b) m) → (∀ s0, keeps (same_tables s0) m) → keeps FW m.
Proof.
  intros Hf Ht s a s' [Hok HW] H. pose proof (Hf _ _ _ _ _ _ _ (framed_refl s) H) as HF. split; [|by eapply framed_W].
  eapply fds_but_tree; [eapply Ht; [apply same_tables_refl|exact H]|by destruct HF|exact Hok].
Qed.
Lemma keeps_FW_state f : (∀ t, ftab (f t) = ftab t) →
  (∀ t, alive (state t) = true → node_of (f t) = node_of t) → keeps FW (update_current f).
Proof.
  intros Ht Ha s a s' [Hok HW] H. pose proof (keeps_W_state f Ha s a s' HW H) as HW'. split; [|done].
  pose proof H as H0. apply (tables_update_current s f Ht) in H0; [|apply same_tables_refl].
  apply (fds_but_tree _ s); [done| |exact Hok]. apply update_current_Done in H as (t & Et & ->).
  rewrite tree_update, Ha; [apply insert_id; by apply tree_lookup|].
  destruct HW as [_ (n & Hn & Hal)]. rewrite (tree_lookup _ _ _ Et) in Hn. injection Hn as <-. exact Hal.
Qed.

(** The current task is a process if it has a parent. *)
Lemma W_user s t : W s → tasks s !! current_task s = Some t → is_kworker (image t) = false → user s (fd_table t).
Proof.
  intros [_ (n & Hn & Ha)] Et Hk. rewrite (tree_lookup _ _ _ Et) in Hn. injection Hn as <-. cbn in Ha.
  unfold user. rewrite Et. cbn. unfold fnode_of. by rewrite Hk, Ha.
Qed.
Lemma closed_table i t : (∀ n e, fd_table t !! n = Some e → 0 ≤ n < Z.of_nat MAX_FDS) →
  (∀ k, 0 ≤ k < Z.of_nat MAX_FDS → fd (entry_of (fd_table t) k) = None) → task_count i t = 0.
Proof.
  intros Hs Hc. unfold task_count. destruct (is_kworker _); [done|]. apply msum_zero. intros n e En.
  specialize (Hc n (Hs n e En)). unfold entry_of in Hc. rewrite En in Hc. by apply fd_count_None.
Qed.
Lemma exit_fds switch ret s a s' :
  (∀ s a s', fds_ok s → W0 s → switch s = Done (a, s') → FW s') →
  FW s → exit_with switch ret s = Done (a, s') → FW s'.
Proof.
  intros Hsw [Hok HW] H. unfold exit_with in H. bind_get H.
  destruct (Z.eqb_spec (current_task s) INIT_TASK) as [|Hi]; [done|].
  apply K_bind_Done in H as ([] & s1 & H1 & H). apply K_bind_Done in H as ([] & s2 & H2 & H).
  apply K_bind_Done in H as (t & ? & Ht & H). apply K_bind_Done in H as ([] & s3 & H3 & H).
  apply K_bind_Done in H as (t' & ? & Ht' & H). apply K_bind_Done in H as (s3' & ? & Hg & H).
  apply K_bind_Done in H as ([] & s4 & H4 & H). unfold kget in Hg. injection Hg as <- <-.
  pose proof Ht as [-> Et]%current_Done. pose proof Ht' as [-> Et']%current_Done.
  apply (Hsw s4 a s'); [| |exact H].
  2:{ apply (exit_ends s ret tt s1 s2 s4 HW Hi H1 H2).
      rewrite (K_bind_step _ _ _ _ _ Ht), (K_bind_step _ _ _ _ _ H3), (K_bind_step _ _ _ _ _ Ht').
      by rewrite (K_bind_step _ _ _ s3 s3 eq_refl). }
  pose proof (keeps_release _ _ _ _ _ _ _ (framed_refl s) H1) as (HT1 & HC1 & HR1 & HB1).
  assert (∃ t0, tasks s !! current_task s = Some t0) as [t0 Et0].
  { destruct HW as [_ (n & Hn & _)]. unfold tree in Hn. rewrite lookup_fmap in Hn.
    destruct (tasks s !! current_task s); [by eexists|done]. }
  apply update_current_Done in H2 as (t1 & Et1 & ->). cbn [tasks set_tasks current_task] in Et.
  rewrite lookup_insert_eq in Et. injection Et as <-. rewrite HC1 in Et1.
  assert (Hn01 : node_of t1 = node_of t0).
  { apply tree_lookup in Et0, Et1. rewrite HT1, Et0 in Et1. congruence. }
  assert (Hkw : is_kworker (image t1) = false).
  { destruct (is_kworker (image t1)) eqn:Ek; [|done]. apply update_task_Done in H3 as (tp & Ep & _).
    destruct HW as [(ring & kids & Hwf & _) _].
    assert (Hk1 : n_kworker (node_of t1) = true) by exact Ek. rewrite Hn01 in Hk1.
    pose proof (wf_workers _ _ _ _ Hwf _ _ (tree_lookup _ _ _ Et0) Hk1) as Hpar. rewrite <-Hn01 in Hpar. cbn in Hpar, Ep.
    rewrite Hpar in Ep. pose proof (worker_no_parent s ring kids _ _ _ Hwf (tree_lookup _ _ _ Et0) Hk1) as Hnone.
    rewrite <-Hn01 in Hnone. cbn in Hnone. rewrite Hpar in Hnone.
    destruct (decide (NULL = current_task s)) as [E|]; [rewrite E in Hnone; congruence|].
    rewrite HC1, lookup_insert_ne in Ep by done. apply tree_lookup in Ep. rewrite HT1 in Ep. unfold tree in Ep.
    rewrite lookup_fmap, Hnone in Ep. done. }
  assert (Hkw0 : is_kworker (image t0) = false) by (change (n_kworker (node_of t0) = false); by rewrite <-Hn01).
  pose proof (W_user s t0 HW Et0 Hkw0) as Hu.
  destruct (close_all_spec (current_task s) MAX_FDS 0 s (fd_table t0) tt s1) as (m1 & (Hok1 & Hu1 & _) & Hcl);
    [by split|lia|lia|lia|exact H1|].
  destruct (user_task s1 m1 Hu1) as (t1' & Et1' & <- & _). rewrite HC1 in Et1'. assert (t1' = t1) as -> by congruence.
  set (s2 := set_tasks _ s1) in *.
  assert (S2 : same_tables s1 s2).
  { split_and!; try done. cbn. rewrite fmap_insert. apply insert_id. by rewrite lookup_fmap, HC1, Et1. }
  assert (Hok2 : fds_ok s2).
  { eapply fds_but_tables; [exact S2|exact Hok1|]. intros p tp tp' Ep Ep' Ha. cbn in Ep'. rewrite HC1 in Ep'.
    destruct (decide (p = current_task s)) as [->|Hp].
    - right. intros i. assert (tp = t1) as -> by congruence. apply closed_table; [|exact Hcl].
      intros n e En. by eapply (ok_small _ _ Hok1).
    - rewrite lookup_insert_ne in Ep' by done. left. congruence. }
  eapply (fds_but_same _ s2); [|exact Hok2].
  assert (Hrep : ∀ fuel c q, keeps (same_fds s2) (reparent (FS:=FS) (N:=N) fuel c q)).
  { induction fuel as [|fuel IH]; intros c q; cbn [reparent]; same_tac. }
  eapply Hrep; [|exact H4]. eapply same_update; [|apply same_fds_refl|exact H3]. done.
Qed.

Lemma deliver_FW exit : (∀ ret, keeps FW (exit ret)) → keeps FW (deliver_signals_with exit).
Proof.
  intros Hex. unfold deliver_signals_with.
  assert (Hcur : keeps FW (current (FS:=FS) (N:=N))) by (apply keeps_FW; intros; auto with keeps nocore).
  assert (Hup : ∀ f, (∀ t, node_of (f t) = node_of t) → (∀ t, ftab (f t) = ftab t) → keeps FW (update_current f)).
  { intros f Hn Hf. apply keeps_FW; intros; [by apply keeps_update_current|by apply tables_update_current]. }
  keeps_step; [exact Hcur|]. keeps_step; [apply keeps_ret|]. keeps_step; [apply keeps_ret|].
  generalize 0. generalize (deliverable a). generalize 31%nat. intros n d.
  induction n as [|n IH]; intros i; cbn [deliver_loop]; [apply keeps_ret|].
  keeps_step; [apply IH|]. keeps_step; [by apply Hup|]. keeps_step; [exact Hcur|]. cbv zeta.
  keeps_step; [keeps_step; [keeps_step; [apply Hex|apply keeps_ret]|apply IH]|].
  keeps_step; [apply IH|]. keeps_step; (keeps_step; [|apply IH]); [by apply Hup|].
  apply keeps_FW; intros; [apply keeps_call_handler|apply tables_call_handler].
Qed.
Lemma choose_task_alive s a s' p t t' : choose_task s = Done (a, s') → W0 s →
  tasks s !! p = Some t → tasks s' !! p = Some t' → alive (state t') = false → alive (state t) = false.
Proof.
  intros H HW Et Et' Ha. unfold choose_task, get_next_task in H. apply K_bind_Done in H as (o & s1 & H1 & H). bind_get H1.
  destruct (next_loop_spec _ _ _ _ _ HW H1) as (_ & Ht & _). cbv zeta in H. bind_modify H s2.
  apply K_bind_Done in H as (? & s3 & H3 & H). apply update_task_Done in H3 as (tq & Eq & ->).
  apply K_bind_Done in H as (? & ? & [-> _]%task_Done & H). bind_modify H s4.
  apply lift_tables_Done in H as [q ->]. cbn in Et', Eq. rewrite Ht in Et', Eq.
  match type of Et' with <[?q := _]> _ !! _ = _ => destruct (decide (p = q)) as [->|] end.
  - rewrite lookup_insert_eq in Et'. injection Et' as <-. done.
  - rewrite lookup_insert_ne in Et' by done. congruence.
Qed.
Lemma choose_task_FW s a s' : fds_ok s → W0 s → choose_task s = Done (a, s') → FW s'.
Proof.
  intros Hok HW H. split; [|by eapply choose_task_W].
  eapply fds_but_tables; [eapply tables_choose; [apply same_tables_refl|exact H]|exact Hok|].
  intros p t t' Et Et' Ha. left. by eapply choose_task_alive.
Qed.
Lemma keeps_FW_resume : keeps FW resume.
Proof. apply keeps_FW; intros; [apply keeps_resume|apply tables_resume]. Qed.
Lemma switch_loop_FW fuel : ∀ s a s', fds_ok s → W0 s → switch_loop fuel s = Done (a, s') → FW s'.
Proof.
  induction fuel as [|fuel IH]; intros s a s' Hok HW H; [done|]. cbn [switch_loop] in H.
  apply K_bind_Done in H as ([] & s1 & H1 & H). apply choose_task_FW in H1; [|done|done].
  apply K_bind_Done in H as (e & s2 & H2 & H).
  assert (HF2 : FW s2).
  { eapply deliver_FW; [|exact H1|exact H2]. intros ret x b x' Hx. by apply exit_fds. }
  destruct e; [unfold mret, K_ret in H; by simplify_eq|]. by eapply keeps_FW_resume.
Qed.
Lemma switch_task_FW s a s' : fds_ok s → W0 s → switch_task s = Done (a, s') → FW s'.
Proof. intros Hok HW H. unfold switch_task in H. bind_get H. by eapply switch_loop_FW. Qed.
Lemma keeps_FW_exit ret : keeps FW (exit ret).
Proof. intros s a s' HF H. eapply exit_fds; [apply switch_task_FW|exact HF|exact H]. Qed.
Lemma keeps_FW_deliver : keeps FW deliver_signals.
Proof. apply deliver_FW, keeps_FW_exit. Qed.
Lemma keeps_FW_sigreturn : keeps FW sigreturn.
Proof.
  unfold sigreturn. keeps_step; [apply keeps_FW; intros; auto with keeps nocore|]. keeps_step; [apply keeps_ret|].
  do 2 (keeps_step; [apply keeps_FW; intros; [framed_tac|tables_tac]|]). keeps_step; [apply keeps_FW_deliver|].
  keeps_step; [apply keeps_ret|apply keeps_FW_resume].
Qed.

End exit.

(** ** Garbage collection *)

Section collect.
Context {FS N : Type}.
#[local] Notation kernel := (kernel FS N).
Implicit Types (s : kernel).
Context (t : Z).

(** A task that has ended stays so while links change. *)
Definition collectable s : Prop := fds_ok s ∧ ∃ tk, tasks s !! t = Some tk ∧ alive (state tk) = false.
#[local] Notation P := collectable.
Lemma collectable_task p : keeps P (task p).
Proof. intros s a s' Hs [-> _]%task_Done. done. Qed.
Lemma collectable_links p (f : links_t → links_t) : keeps P (update_task p (with_links f)).
Proof.
  intros s a s' [Hok (tk & Ek & Ha)] H. split.
  - eapply (fds_but_same _ s); [|exact Hok]. eapply same_update; [|apply same_fds_refl|exact H]. done.
  - apply update_task_Done in H as (tp & Ep & ->). cbn. destruct (decide (t = p)) as [->|].
    + rewrite lookup_insert_eq. eexists. split; [done|]. cbn. congruence.
    + rewrite lookup_insert_ne by done. by exists tk.
Qed.
Lemma collectable_lift {A} (m : K paging A) : keeps P (lift_tables m).
Proof. intros s a s' [[H1 H2 H3 H4] Hd] [q ->]%lift_tables_Done. by split. Qed.
Hint Resolve collectable_task collectable_links collectable_lift : keeps.
Lemma collectable_unlink p : keeps P (unlink_child p t).
Proof using.
  clear. unfold unlink_child. keeps_tac. generalize (size (tasks a1)) (child (links a)). intros f.
  induction f as [|f IH]; intros h; cbn [unlink_sibling]; keeps_tac.
Qed.
Hint Resolve collectable_unlink : keeps.
Lemma fds_ok_delete s : P s → fds_ok (set_tasks (delete t (tasks s)) s).
Proof.
  intros [[H1 H2 H3 H4] (tk & Ek & Ha)]. split.
  - intros i. unfold held. cbn. rewrite (msum_delete _ _ _ _ Ek), (H2 t tk i Ek Ha), Z.sub_0_r. apply H1.
  - intros p tp i Ep. cbn in Ep. apply lookup_delete_Some in Ep as [_ Ep]. by apply (H2 p).
  - intros p tp n e Ep. cbn in Ep. apply lookup_delete_Some in Ep as [_ Ep]. by apply (H3 p).
  - exact H4.
Qed.
Lemma collect_fds p s a s' : P s → collect p t s = Done (a, s') → fds_ok s'.
Proof.
  intros HP H. unfold collect in H.
  apply K_bind_Done in H as (tk & ? & [-> _]%task_Done & H).
  apply K_bind_Done in H as (? & s1 & H1 & H). apply collectable_lift in H1; [|done].
  apply K_bind_Done in H as (? & s2 & H2 & H). apply collectable_links in H2; [|done].
  apply K_bind_Done in H as (? & s3 & H3 & H).
  assert (HP3 : P s3).
  { destruct (is_kworker _); [unfold mret, K_ret in H3; by injection H3 as _ <-|by eapply collectable_unlink]. }
  bind_get H. apply K_bind_Done in H as (tk' & ? & [-> _]%task_Done & H).
  apply K_bind_Done in H as (? & s4 & H4 & H). apply K_bind_Done in H as (? & s5 & H5 & H).
  assert (HP5 : P s5).
  { destruct HP3 as [[K1 K2 K3 K4] Hd]. destruct (_ =? t), (_ =? t) in H4, H5;
      unfold kmodify, mret, K_ret in H4, H5; injection H4 as _ <-; injection H5 as _ <-; by split. }
  unfold kmodify in H. injection H as _ <-. by apply fds_ok_delete.
Qed.
End collect.

Section gc.
Context {FS N : Type}.
#[local] Notation kernel := (kernel FS N).
Implicit Types (s : kernel).

Lemma gc_fds : keeps (fds_ok (FS:=FS) (N:=N)) gc_tasks.
Proof.
  unfold gc_tasks. keeps_step; [apply keeps_get|]. keeps_step; [intros s x s' Hs [-> _]%task_Done; done|].
  generalize (size (tasks a)) INIT_TASK (next (links a0)). intros fuel. clear a a0.
  induction fuel as [|fuel IH]; intros p t; cbn [gc_loop]; (keeps_step; [apply keeps_ret|]); [apply keeps_fail|].
  intros s b s' Hs (tk & ? & [-> Etk]%task_Done & H)%K_bind_Done.
  destruct (bool_decide_reflect (state tk = STATE_DELETED)) as [Ed|]; [|by eapply IH].
  apply K_bind_Done in H as (? & s1 & H1 & H). apply (collect_fds t) in H1; [by eapply IH|].
  split; [done|]. exists tk. split; [done|]. by rewrite Ed.
Qed.
Lemma keeps_FW_run_next f : keeps FW (run_next (FS:=FS) (N:=N) f).
Proof.
  unfold run_next. keeps_step; [apply keeps_get|]. keeps_step; [apply keeps_ret|].
  do 2 (keeps_step; [unfold save_fpu; apply keeps_FW; intros; [framed_tac|tables_tac]|]).
  keeps_step; [apply keeps_FW_state; intros t; [by case_bool_decide|]|].
  { intros Ha. case_bool_decide as E; [|done]. unfold node_of. cbn. by rewrite E. }
  intros s b s' [Hok [HW _]] (? & s1 & H1 & H)%K_bind_Done.
  eapply switch_task_FW; [|by eapply gc_tasks_W0|exact H]. by eapply gc_fds.
Qed.
Lemma keeps_FW_run_next_current : keeps (FW (FS:=FS) (N:=N)) run_next_current.
Proof. unfold run_next_current. keeps_step; [apply keeps_FW; intros; auto with keeps nocore|]. apply keeps_FW_run_next. Qed.
Lemma keeps_FW_block r f : keeps (FW (FS:=FS) (N:=N)) (block_current r f).
Proof.
  apply keeps_FW_state; intros t; [done|]. intros Ha. unfold node_of. cbn. by rewrite Ha.
Qed.
Lemma keeps_FW_sleep ms : keeps (FW (FS:=FS) (N:=N)) (sleep ms).
Proof.
  unfold sleep. keeps_step; [apply keeps_ret|]. keeps_step; [apply keeps_FW_block|].
  keeps_step; [apply keeps_FW; intros; [framed_tac|tables_tac]|apply keeps_FW_run_next_current].
Qed.
Lemma keeps_FW_wait_for c ws o : keeps (FW (FS:=FS) (N:=N)) (wait_for c ws o).
Proof.
  unfold wait_for. keeps_step; [apply keeps_ret|]. keeps_step; [apply keeps_FW; intros; auto with keeps nocore|].
  keeps_step; [apply keeps_ret|]. keeps_step; [apply keeps_FW_block|].
  keeps_step; [apply keeps_FW_run_next_current|apply keeps_ret].
Qed.
Lemma keeps_FW_waitpid k ws o : keeps (FW (FS:=FS) (N:=N)) (waitpid k ws o).
Proof.
  unfold waitpid. keeps_step; [apply keeps_get|].
  keeps_step; [unfold get_child, get_first_waitpid_target; apply keeps_FW; intros;
    [framed_tac; apply keeps_find_sibling|tables_tac; apply tables_find_sibling]|].
  keeps_step; [apply keeps_ret|]. keeps_step; [apply keeps_FW_wait_for|].
  intros s b s' [Hok HW] (t & s1 & [-> Et]%task_Done & H)%K_bind_Done.
  destruct (event_of o t) as [e|] eqn:Ee; [|by eapply keeps_FW_wait_for].
  apply K_bind_Done in H as (? & s2 & H & Hr). unfold mret, K_ret in Hr. injection Hr as _ <-.
  assert (HF : framed (tree s) (current_task s) (rr_task s) (next_object s) s2).
  { eapply keeps_report; [|apply framed_refl|exact H].
    intros -> n Hn. rewrite (tree_lookup _ _ _ Et) in Hn. injection Hn as <-. by eapply event_exited. }
  split; [|by eapply framed_W].
  eapply fds_but_tree; [eapply tables_report; [apply same_tables_refl|exact H]|by destruct HF|exact Hok].
Qed.
Lemma keeps_FW_kworker_exit s a s' : FW s → current_task s ≠ IDLE_TASK → kworker_exit s = Done (a, s') → FW s'.
Proof.
  intros [Hok HW] Hi [->|(t & Et & Ek & H)]%kworker_exit_Done; [done|].
  eapply switch_task_FW; [|by apply kworker_ends_W0|exact H]. eapply (fds_but_tables _ s); [|exact Hok|].
  - split_and!; try done. cbn. rewrite fmap_insert. apply insert_id. by rewrite lookup_fmap, Et.
  - intros p tp tp' Ep Ep' Ha. cbn in Ep'. destruct (decide (p = current_task s)) as [->|].
    + right. intros i. assert (tp = t) as -> by congruence. unfold task_count. by rewrite Ek.
    + rewrite lookup_insert_ne in Ep' by done. left. congruence.
Qed.

(** *** New tasks *)

Fixpoint span (n : nat) (k i : Z) (m : gmap Z fd_t) : Z :=
  match n with O => 0 | S n => fd_count i (entry_of m k) + span n (k + 1) i m end.
Lemma span_delete n i j m : ∀ k, j < k → span n k i (delete j m) = span n k i m.
Proof.
  induction n as [|n IH]; intros k Hk; cbn [span]; [done|]. rewrite IH by lia. do 2 f_equal.
  unfold entry_of. by rewrite lookup_delete_ne by lia.
Qed.
Lemma span_sum n i : ∀ k m, (∀ j e, m !! j = Some e → k ≤ j < k + Z.of_nat n) → msum (fd_count i) m = span n k i m.
Proof.
  induction n as [|n IH]; intros k m Hm; cbn [span].
  - apply msum_zero. intros j e Hj%Hm. lia.
  - rewrite <-(span_delete n i k m) by lia. rewrite <-IH.
    + unfold entry_of. destruct (m !! k) as [e|] eqn:E; cbn.
      * rewrite (msum_delete _ _ _ _ E). lia.
      * rewrite delete_id by done. done.
    + intros j e [Hne Hj]%lookup_delete_Some. apply Hm in Hj. lia.
Qed.
Lemma share_fds_spec t c m n : ∀ k δ s a s', fds_but δ s → user s m → current_task s = c →
  share_fds n k t s = Done (a, s') →
  fds_but (λ i, δ i + span n k i (fd_table t)) s' ∧ user s' m ∧ current_task s' = c.
Proof.
  induction n as [|n IH]; intros k δ s a s' Hok Hu Hc H; cbn [share_fds span] in *.
  - unfold mret, K_ret in H. injection H as _ <-. split; [|done]. eapply fds_but_ext; [|exact Hok]. intros i. lia.
  - apply K_bind_Done in H as (? & s1 & H1 & H).
    assert (fds_but (λ i, δ i + fd_count i (entry_of (fd_table t) k)) s1 ∧ user s1 m ∧ current_task s1 = c) as (Hok1 & Hu1 & Hc1).
    { change (fd_entry t k) with (entry_of (fd_table t) k) in H1. destruct (fd (entry_of (fd_table t) k)) as [d|] eqn:Ed.
      - destruct (share_spec _ _ _ _ _ _ _ Hok Hu Hc H1) as (Hok1 & Hu1 & Hc1). split; [|done].
        eapply fds_but_ext; [|exact Hok1]. intros i. cbn. by rewrite (fd_count_entry d) by done.
      - unfold mret, K_ret in H1. injection H1 as _ <-. split; [|done]. eapply fds_but_ext; [|exact Hok].
        intros i. cbn. rewrite fd_count_None by done. lia. }
    destruct (IH _ _ _ _ _ Hok1 Hu1 Hc1 H) as (Hok2 & Hu2). split; [|done].
    eapply fds_but_ext; [|exact Hok2]. intros i. cbn. lia.
Qed.
(** A new task with a copy of the descriptors of another one. *)
Lemma fds_but_new δ s new t : fds_but δ s → tasks s !! new = None → alive (state t) = true →
  (∀ n e, fd_table t !! n = Some e → 0 ≤ n < Z.of_nat MAX_FDS) →
  fds_but (λ i, δ i - task_count i t) (set_tasks (<[new := t]> (tasks s)) s).
Proof.
  intros [H1 H2 H3 H4] Hn Ha Hs. split.
  - intros i. unfold held. cbn. rewrite msum_insert_new by done.
    change (refcount (description s i) = s32 (task_count i t + msum (task_count i) (tasks s) + (δ i - task_count i t))).
    rewrite H1. unfold held. f_equal. lia.
  - intros p tp i Ep Hd. cbn in Ep. destruct (decide (p = new)) as [->|].
    + rewrite lookup_insert_eq in Ep. injection Ep as <-. congruence.
    + rewrite lookup_insert_ne in Ep by done. by eapply H2.
  - intros p tp n e Ep. cbn in Ep. destruct (decide (p = new)) as [->|].
    + rewrite lookup_insert_eq in Ep. injection Ep as <-. apply Hs.
    + rewrite lookup_insert_ne in Ep by done. by eapply H3.
  - exact H4.
Qed.
Lemma W_fresh s : W s → tasks s !! next_object s = None.
Proof.
  intros [(ring & kids & Hwf & _) _]. destruct (fresh_not_in _ _ _ _ Hwf (next_object s) (Z.le_refl _)) as [_ Hn].
  unfold tree in Hn. rewrite lookup_fmap in Hn. by destruct (tasks s !! next_object s).
Qed.
Lemma same_link p new s a s' : link_task p new s = Done (a, s') → same_fds s s'.
Proof.
  intros H. assert (Hk : keeps (same_fds s) (link_task p new)) by (unfold link_task; same_tac).
  exact (Hk _ _ _ (same_fds_refl s) H).
Qed.
Lemma fork_copy_fds new t s cr cur s4 b : fds_ok s → user s (fd_table cur) → tasks s !! new = None → is_kworker (image cur) = false →
  t = set_image (set_cr3 cr (image cur)) (set_state STATE_READY cur) →
  share_fds MAX_FDS 0 cur (set_tasks (<[new := t]> (tasks s)) s) = Done (b, s4) → fds_ok s4.
Proof.
  intros Hok Hu Hf Hk Ht H.
  assert (Hsm : ∀ n e, fd_table cur !! n = Some e → 0 ≤ n < Z.of_nat MAX_FDS).
  { destruct (user_task _ _ Hu) as (tc & Ec & <- & _). intros n e. by apply (ok_small _ _ Hok (current_task s) tc n e). }
  pose proof (fds_but_new _ s new t Hok Hf ltac:(by subst t) ltac:(by subst t)) as Hok3.
  set (s3 := set_tasks _ _) in *.
  assert (Hu3 : user s3 (fd_table cur)).
  { unfold user, s3. cbn. rewrite lookup_insert_ne; [exact Hu|]. intros E. destruct (user_task _ _ Hu) as (? & Ec & _). congruence. }
  destruct (share_fds_spec cur (current_task s) (fd_table cur) MAX_FDS 0 _ s3 b s4 Hok3 Hu3 eq_refl H) as (Hok4 & _).
  eapply fds_but_ext; [|exact Hok4]. intros i. cbn -[span MAX_FDS].
  rewrite <-span_sum by (intros j e Hj%Hsm; lia). subst t. unfold task_count. cbn. rewrite Hk. lia.
Qed.
(** The current process is a user of its descriptors. *)
Lemma keeps_FW_fork f s a s' : FW s → process_running s → fork f s = Done (a, s') → FW s'.
Proof.
  intros [Hok HW] (n & Hn & Hk) H. unfold fork in H. bind_get H. destruct (last_pid s =? INT_MAX); [done|].
  apply K_bind_Done in H as (? & s1 & H1 & H). apply K_bind_Done in H as (? & s2 & H2 & H).
  assert (HF : framed (tree s) (current_task s) (rr_task s) (next_object s) s2).
  { pose proof (keeps_update_current _ _ _ _ (with_iframe (λ _, f)) (λ _, eq_refl) _ _ _ (framed_refl s) H1) as HF1.
    exact (keeps_save_fpu _ _ _ _ _ _ _ HF1 H2). }
  assert (HW2 : W s2) by (by eapply framed_W).
  assert (Hok2 : fds_ok s2).
  { eapply fds_but_tree; [|by destruct HF|exact Hok]. eapply (tables_update_current s (with_iframe (λ _, f))) in H1;
      [|done|apply same_tables_refl]. revert H2. unfold save_fpu. eapply tables_update_current; [done|exact H1]. }
  destruct HF as (HT & HC & _ & _). clear H1.
  apply K_bind_Done in H as (new & ? & [-> ->]%new_object_Done & H).
  apply K_bind_Done in H as (cur & ? & [-> Ecur]%current_Done & H).
  apply K_bind_Done in H as (cr & ? & [pg ->]%lift_tables_Done & H).
  apply K_bind_Done in H as ([] & s3 & H3 & H). apply K_bind_Done in H as ([] & s4 & H4 & H).
  apply K_bind_Done in H as ([] & s5 & H5 & H). rewrite <-HC in H5. cbn in Ecur.
  assert (Hkw : is_kworker (image cur) = false).
  { apply tree_lookup in Ecur. rewrite HT, HC in Ecur. rewrite Hn in Ecur. injection Ecur as ->. exact Hk. }
  assert (HWp : W (set_tables pg s2)) by exact HW2.
  destruct (fork_link_W (set_tables pg s2) cr (next_object s2) s3 s4 s5 cur tt tt HWp Ecur Hkw eq_refl H3 H4 H5) as (HW5 & _).
  assert (Hok4 : fds_ok s4).
  { unfold kmodify in H3. injection H3 as <-. eapply (fork_copy_fds (next_object s2) _ (set_tables pg (set_next_object (next_object s2 + 1) s2)) cr cur); [| | |done|done|exact H4].
    - eapply fds_but_same; [|exact Hok2]. by split_and!.
    - by apply (W_user s2 cur HW2 Ecur Hkw).
    - by apply (W_fresh s2). }
  assert (HFW5 : FW s5).
  { split; [|done]. eapply fds_but_same; [|exact Hok4]. by eapply same_link. }
  revert H. generalize (next_object s2). intros new. revert HFW5. generalize s5 a s'.
  match goal with |- ∀ s a s', FW s → ?m s = _ → _ => change (keeps FW m) end.
  do 4 (keeps_step; [unfold next_pid; apply keeps_FW; intros; [framed_tac|tables_tac]|]).
  keeps_step; [apply keeps_FW_state; intros t; [done|]; intros Ha; unfold node_of; cbn; by rewrite Ha|].
  keeps_step; [|apply keeps_ret]. intros s6 b s7 [Hok6 [HW6 _]] H. by eapply switch_task_FW.
Qed.
(** The descriptors a kernel worker is created with are a copy it never uses. *)
Lemma keeps_FW_create_kworker k g x s a s' : FW s → current_task s ≠ IDLE_TASK → create_kworker k g x s = Done (a, s') → FW s'.
Proof.
  intros [Hok HW] Hi H. split; [|by eapply keeps_create_kworker]. pose proof (W_fresh s HW) as Hf.
  unfold create_kworker in H. bind_get H. destruct (last_pid s =? INT_MAX); [done|].
  apply K_bind_Done in H as (p & s1 & H1 & H). unfold next_pid in H1. bind_modify H1 s1'.
  unfold kgets in H1. injection H1 as <- <-.
  apply K_bind_Done in H as (new & ? & [-> ->]%new_object_Done & H).
  apply K_bind_Done in H as (init & ? & [-> Einit]%task_Done & H).
  apply K_bind_Done in H as (cr & ? & [pg ->]%lift_tables_Done & H).
  apply K_bind_Done in H as (cur & ? & [-> Ecur]%current_Done & H). cbv zeta in H.
  apply K_bind_Done in H as ([] & s3 & H3 & H). unfold kmodify in H3. injection H3 as <-.
  apply K_bind_Done in H as ([] & s4 & H4 & H). unfold mret, K_ret in H. injection H as _ <-.
  eapply fds_but_same; [eapply same_update_current; [|apply same_fds_refl|exact H4]; done|]. clear H4 s4.
  match goal with |- fds_but _ (set_tasks (<[_ := ?w]> _) ?s') => set (t := w); set (s1 := s') end.
  eapply fds_but_ext; [|apply (fds_but_new (λ _, 0) s1 (next_object s) t)].
  - intros i. cbn. by unfold task_count.
  - apply (fds_but_same _ s); [by split_and!|exact Hok].
  - exact Hf.
  - done.
  - intros n e. by apply (ok_small _ _ Hok INIT_TASK init n e).
Qed.
End gc.
