(* ===== verification/FdRuns.v ===== *)
(** * Open files over all runs of the kernel

    The system calls on descriptors join the operations of SchedInv.v, and the
    count of every open file is the number of descriptors that point to it. *)

From S2P Require Import Prelude Paging Vfs VfsMount Pipe Net Udp Task Signal Fd Sched TaskTree SchedTree SchedLinks SchedInv FdCount FdSched.

Section runs.
Context {FS N : Type}.
#[local] Notation kernel := (kernel FS N).
Implicit Types (s : kernel).

(** System calls on descriptors by the current process, or anything else the
    scheduler does. *)
Inductive fd_op :=
| FdOpen (path : list Z) (flags : Z)
| FdClose (n : Z)
| FdPipe
| FdSocket (domain type protocol : Z)
| FdFcntl (n cmd arg : Z)
| FdDup2 (n new_fd : Z)
| FdSeek (n o type : Z)
| FdRead (fuel : nat) (n size : Z)
| FdWrite (steps : list env_step) (n : Z) (buffer : list Z)
| FdSched (o : sched_op).
Definition run_fd (o : fd_op) : K kernel unit :=
  match o with
  | FdOpen path fl => fd_open path fl;; mret tt
  | FdClose n => fd_close n;; mret tt
  | FdPipe => pipe;; mret tt
  | FdSocket d ty p => fd_socket d ty p;; mret tt
  | FdFcntl n cmd arg => fcntl n cmd arg;; mret tt
  | FdDup2 n k => dup2 n k;; mret tt
  | FdSeek n o ty => seek n o ty;; mret tt
  | FdRead fuel n size => read run_next_current fuel n size;; mret tt
  | FdWrite steps n buffer => write steps n buffer;; mret tt
  | FdSched o => run_op o
  end.
(** Descriptors belong to processes: a kernel worker uses none. *)
Definition fd_op_ok (o : fd_op) s : Prop :=
  match o with
  | FdSched (OpCloseFd _) => process_running s
  | FdSched o => op_ok o s
  | _ => process_running s
  end.
Inductive fd_runs : kernel → list fd_op → kernel → Prop :=
| fd_runs_nil s : fd_runs s [] s
| fd_runs_cons s o s1 l s' : fd_op_ok o s → run_fd o s = Done (tt, s1) → fd_runs s1 l s' → fd_runs s (o :: l) s'.

(** ** Calls that leave the counts alone *)

Lemma W_open_file {A} (m : K kernel A) : (∀ s0, keeps (same_fds s0) m) → (∀ T c r b, keeps (framed T c r b) m) → keeps FW m.
Proof.
  intros Hs Hf s a s' [Hok HW] H. split; [|by eapply (keeps_W m Hf)].
  eapply fds_but_same; [eapply Hs; [apply same_fds_refl|exact H]|exact Hok].
Qed.
(** A successful run of one of FdCount.v's operations. *)
Lemma in_order_FW {A} (m : K kernel A) s a s' :
  (∀ c t r s', in_order c t s → m s = Done (r, s') → ∃ t', in_order c t' s') → (∀ T c r b, keeps (framed T c r b) m) →
  FW s → process_running s → m s = Done (a, s') → FW s'.
Proof.
  intros Hm Hf [Hok HW] (n & Hn & Hk) H. split; [|by eapply (keeps_W m Hf)].
  unfold tree in Hn. rewrite lookup_fmap in Hn. destruct (tasks s !! current_task s) as [t|] eqn:Et; [|done].
  injection Hn as <-. destruct (Hm (current_task s) (fd_table t) a s') as (m' & Hok' & _); [|exact H|exact Hok'].
  split; [done|]. split; [|done]. by apply W_user.
Qed.

(** ** The frame of the operations *)

Section frame.
Context (T : gmap Z node) (c r b : Z).
#[local] Notation F := (framed (FS:=FS) (N:=N) T c r b).
Hint Resolve keeps_update_description keeps_lookup_fd : keeps.

Lemma framed_new_object : keeps F new_object.
Proof. intros s a s' (H1 & H2 & H3 & H4) [-> ->]%new_object_Done. split_and!; try done. cbn. lia. Qed.
Hint Resolve framed_new_object : keeps.
Lemma framed_fd_open path fl : keeps F (fd_open path fl).
Proof. unfold fd_open, open_stat, open_description. framed_tac. Qed.
Lemma framed_pipe : keeps F pipe.
Proof. unfold pipe. framed_tac. Qed.
Lemma framed_socket d ty p : keeps F (fd_socket d ty p).
Proof. unfold fd_socket. framed_tac. Qed.
Lemma framed_dup n k fl : keeps F (dup n k fl).
Proof. unfold dup, share. apply keeps_with_fd. intros i d. framed_tac. Qed.
Hint Resolve framed_dup : keeps.
Lemma framed_fcntl n cmd arg : keeps F (fcntl n cmd arg).
Proof. unfold fcntl. apply keeps_with_fd. intros i d. framed_tac. Qed.
Lemma framed_dup2 n k : keeps F (dup2 n k).
Proof. unfold dup2, share. apply keeps_with_fd. intros i d. framed_tac. Qed.
Lemma framed_seek n o ty : keeps F (seek n o ty).
Proof. unfold seek. apply keeps_with_fd. intros i d. framed_tac. Qed.
Lemma framed_read_at_offset i n : keeps F (read_at_offset i n).
Proof. unfold read_at_offset. framed_tac. Qed.
Lemma framed_read_pipe i n : keeps F (read_pipe i n).
Proof. unfold read_pipe, deref_pipe. framed_tac. Qed.
Lemma framed_write_pipe steps p bytes bl : keeps F (write_pipe steps p bytes bl).
Proof.
  unfold write_pipe, deref_pipe. keeps_step; [framed_tac|]. destruct (pipe_write steps a bytes bl) as [[res q]| | |]; try done.
  framed_tac.
Qed.
End frame.

(** ** The counts under reads, writes and seeks *)

Section same.
Context (s0 : kernel).
#[local] Notation P := (same_fds s0).
Lemma types_guard_stat F (fs : filesystem_t FS) h : keeps (λ v : vfs FS, filesystems v = F) (guard_stat fs h).
Proof. apply keeps_types. intros t. apply keeps_tree_guard. Qed.
Lemma same_stat_handle h : keeps P (lift_vfs (stat_handle h)).
Proof. apply same_vfs. intros F. apply keeps_types. intros t. apply keeps_tree_stat_on. Qed.
Hint Resolve types_guard_stat keeps_types_select keeps_types_lift same_stat_handle : keeps.
Lemma same_read_file h o n : keeps P (lift_vfs (read_file h o n)).
Proof. apply same_vfs. intros F. unfold read_file. keeps_tac. Qed.
Lemma same_write_file h bytes o : keeps P (lift_vfs (write_file h bytes o)).
Proof. apply same_vfs. intros F. unfold write_file, call_fs. keeps_tac. Qed.
Hint Resolve same_read_file same_write_file : keeps.
Lemma same_lookup_fd n : keeps P (lookup_fd n).
Proof. unfold lookup_fd. same_tac. Qed.
Lemma same_with_fd {A} (bad : A) n k : (∀ i d, keeps P (k i d)) → keeps P (with_fd bad n k).
Proof. intros Hk. unfold with_fd. keeps_step; [apply same_lookup_fd|]. same_tac. Qed.
Lemma same_seek n o ty : keeps P (seek n o ty).
Proof. unfold seek. apply same_with_fd. intros i d. same_tac. Qed.
Lemma same_read_at_offset i n : keeps P (read_at_offset i n).
Proof. unfold read_at_offset. same_tac. Qed.
Lemma same_read_pipe i n : keeps P (read_pipe i n).
Proof. unfold read_pipe, deref_pipe. same_tac. Qed.
Lemma same_write_pipe steps p bytes bl : keeps P (write_pipe steps p bytes bl).
Proof.
  unfold write_pipe, deref_pipe. keeps_step; [same_tac|]. destruct (pipe_write steps a bytes bl) as [[res q]| | |]; try done.
  same_tac.
Qed.
End same.

Lemma keeps_FW_with_fd {A} (bad : A) n (k : Z → file_description_t → K kernel A) :
  (∀ i d, keeps FW (k i d)) → keeps FW (with_fd bad n k).
Proof.
  intros Hk. unfold with_fd. keeps_step; [apply W_open_file; intros; [apply same_lookup_fd|apply keeps_lookup_fd]|].
  keeps_step; [keeps_step; [apply keeps_get|apply Hk]|apply keeps_ret].
Qed.
Lemma keeps_FW_current : keeps (FW (FS:=FS) (N:=N)) current.
Proof. apply W_open_file; intros; auto with keeps nocore. Qed.
Lemma keeps_FW_retry {A} fuel i (try : K kernel (Z * A)) none : keeps FW try → keeps FW (retry run_next_current fuel i try none).
Proof.
  intros Ht. induction fuel as [|fuel IH]; cbn [retry]; [apply keeps_fail|].
  keeps_step; [done|]. keeps_step; [apply keeps_get|]. keeps_step; [apply keeps_ret|].
  keeps_step; [apply keeps_FW_current|]. keeps_step; [apply keeps_ret|].
  keeps_step; [apply keeps_FW_run_next_current|done].
Qed.
Lemma keeps_FW_advance i n : keeps (FW (FS:=FS) (N:=N)) (advance i n).
Proof. unfold advance. apply W_open_file; intros; [same_tac|apply keeps_update_description]. Qed.
Lemma keeps_FW_read fuel n size : keeps (FW (FS:=FS) (N:=N)) (read run_next_current fuel n size).
Proof.
  unfold read. apply keeps_FW_with_fd. intros i d. do 3 (keeps_step; [apply keeps_ret|]). keeps_step.
  - keeps_step; [apply keeps_FW_retry, W_open_file; intros; [apply same_read_at_offset|apply framed_read_at_offset]|].
    keeps_step; [keeps_step; [apply keeps_FW_advance|apply keeps_ret]|apply keeps_ret].
  - apply keeps_FW_retry, W_open_file; intros; [apply same_read_pipe|apply framed_read_pipe].
Qed.
Lemma keeps_FW_raise sig : keeps (FW (FS:=FS) (N:=N)) (raise sig).
Proof.
  intros s a s' [Hok HW] H. assert (HF : framed (tree s) (current_task s) (rr_task s) (next_object s) s').
  { eapply keeps_raise; [|apply framed_refl|exact H]. destruct HW as [_ (n & Hn & Ha)]. intros n' Hn'. congruence. }
  split; [|by eapply framed_W].
  eapply fds_but_tree; [eapply tables_raise; [apply same_tables_refl|exact H]|by destruct HF|exact Hok].
Qed.
Lemma keeps_FW_seek n o ty : keeps (FW (FS:=FS) (N:=N)) (seek n o ty).
Proof. apply W_open_file; intros; [apply same_seek|apply framed_seek]. Qed.
Lemma keeps_FW_write steps n bytes : keeps (FW (FS:=FS) (N:=N)) (write steps n bytes).
Proof.
  unfold write. apply keeps_FW_with_fd. intros i d. do 3 (keeps_step; [apply keeps_ret|]). keeps_step.
  - keeps_step; [keeps_step; [keeps_step; [apply keeps_FW_seek|apply keeps_ret]|apply keeps_ret]|].
    keeps_step; [apply keeps_get|]. keeps_step; [apply W_open_file; intros; [apply same_write_file|apply keeps_lift_vfs]|].
    keeps_step; [keeps_step; [apply keeps_FW_advance|apply keeps_ret]|apply keeps_ret].
  - keeps_step; [apply W_open_file; intros; [apply same_write_pipe|apply framed_write_pipe]|].
    keeps_step; [keeps_step; [keeps_step; [apply keeps_FW_raise|apply keeps_ret]|apply keeps_ret]|apply keeps_ret].
Qed.

(** ** All operations *)

Lemma bind_tt_Done {A} (m : K kernel A) s s' : (m;; mret tt) s = Done (tt, s') → ∃ a, m s = Done (a, s').
Proof. intros (a & s1 & H & Hr)%K_bind_Done. unfold mret, K_ret in Hr. injection Hr as <-. by exists a. Qed.
Lemma run_op_FW o s s' : FW s → op_ok o s → (∀ n, o = OpCloseFd n → process_running s) →
  run_op o s = Done (tt, s') → FW s'.
Proof.
  intros HW Hok Hcl H. destruct o; cbn [run_op op_ok] in *;
    try (apply bind_tt_Done in H as [x H]);
    try (lazymatch type of Hcl with ∀ n, OpCloseFd _ = _ → _ => fail | _ => idtac end;
      lazymatch type of Hok with True => revert H; refine ((_ : keeps FW _) s _ s' HW); clear s s' HW Hok Hcl end).
  - apply keeps_FW; intros; [framed_tac|apply tables_check].
  - apply keeps_FW_run_next.
  - by eapply keeps_FW_fork.
  - apply keeps_FW_exit.
  - pose proof (framed_kill _ _ _ _ _ _ _ _ _ (framed_refl s) Hok H) as HF. destruct HW as [Hfd HW].
    split; [|by eapply framed_W].
    eapply fds_but_tree; [eapply tables_kill; [apply same_tables_refl|exact H]|by destruct HF|exact Hfd].
  - apply keeps_FW_raise.
  - apply keeps_FW_deliver.
  - apply keeps_FW_sigreturn.
  - apply keeps_FW; intros; [framed_tac|apply tables_sigaction].
  - apply keeps_FW; intros; [framed_tac|apply tables_sigprocmask].
  - apply keeps_FW_sleep.
  - apply keeps_FW_waitpid.
  - apply keeps_FW; intros; [framed_tac|apply tables_setpgid].
  - apply keeps_FW; intros; [framed_tac|apply tables_setsid].
  - eapply in_order_FW; [|intros; apply keeps_fd_close|exact HW|by eapply Hcl|exact H].
    intros c t r s1 Hs H1. destruct (fd_close_spec _ _ _ _ _ _ Hs H1) as (m & ? & _). by exists m.
  - by eapply keeps_FW_create_kworker.
  - by eapply keeps_FW_kworker_exit.
Qed.
Lemma run_fd_FW o s s' : FW s → fd_op_ok o s → run_fd o s = Done (tt, s') → FW s'.
Proof.
  intros HW Hok H. destruct o as [path fl|n| |d ty p|n cmd arg|n k|n o ty|fuel n size|steps n bytes|o]; cbn [run_fd fd_op_ok] in *;
    try (apply bind_tt_Done in H as [x H]).
  - eapply in_order_FW; [|intros; apply framed_fd_open|exact HW|exact Hok|exact H]. intros; by eapply fd_open_spec.
  - eapply (run_op_FW (OpCloseFd n)); [exact HW|done|done|]. cbn. by rewrite (K_bind_step _ _ _ _ _ H).
  - eapply in_order_FW; [|intros; apply framed_pipe|exact HW|exact Hok|exact H]. intros; by eapply fd_pipe_spec.
  - eapply in_order_FW; [|intros; apply framed_socket|exact HW|exact Hok|exact H]. intros; by eapply fd_socket_spec.
  - eapply in_order_FW; [|intros; apply framed_fcntl|exact HW|exact Hok|exact H]. intros; by eapply fcntl_spec.
  - eapply in_order_FW; [|intros; apply framed_dup2|exact HW|exact Hok|exact H]. intros; by eapply dup2_spec.
  - by eapply keeps_FW_seek.
  - by eapply keeps_FW_read.
  - by eapply keeps_FW_write.
  - eapply run_op_FW; [exact HW| | |exact H]; destruct o; done.
Qed.

(** ** What the counts are worth *)

Lemma fd_count_held s p t n e i : tasks s !! p = Some t → is_kworker (image t) = false → fd_table t !! n = Some e →
  fd e = Some i → 1 ≤ held s i.
Proof.
  intros Et Hk En Hi.
  pose proof (msum_member (task_count i) (tasks s) p t (λ _ t _, task_count_nonneg i t) Et) as H1.
  assert (Ht : task_count i t = msum (fd_count i) (fd_table t)) by (unfold task_count; by rewrite Hk).
  pose proof (msum_member (fd_count i) (fd_table t) n e (λ _ e _, proj1 (fd_count_range i e)) En) as H2.
  rewrite (fd_count_entry i i e Hi), bool_decide_eq_true_2 in H2 by done. unfold held. lia.
Qed.
Lemma small_table_size t : (∀ n e, fd_table t !! n = Some e → 0 ≤ n < Z.of_nat MAX_FDS) →
  Z.of_nat (size (fd_table t)) ≤ Z.of_nat MAX_FDS.
Proof.
  intros Hs. rewrite <-size_dom.
  assert (Hsub : dom (fd_table t) ⊆ list_to_set (C:=gset Z) (seqZ 0 (Z.of_nat MAX_FDS))).
  { intros n [e En]%elem_of_dom. apply elem_of_list_to_set, elem_of_seqZ. specialize (Hs n e En). lia. }
  apply subseteq_size in Hsub. rewrite size_list_to_set in Hsub by apply NoDup_seqZ. rewrite length_seqZ in Hsub. lia.
Qed.
Lemma held_bound s i : fds_ok s → 0 ≤ held s i ≤ Z.of_nat MAX_FDS * Z.of_nat (size (tasks s)).
Proof.
  intros Hok. split; [apply msum_nonneg; intros; apply task_count_nonneg|].
  apply msum_le. intros p t Et. unfold task_count. destruct (is_kworker _); [lia|].
  etrans; [apply (msum_le _ _ 1); intros; apply fd_count_range|].
  rewrite Z.mul_1_l. apply small_table_size. intros n e. by apply (ok_small _ _ Hok p t n e).
Qed.
(** With at most 2^21 tasks no count overflows. *)
Lemma refcount_held s i : fds_ok s → Z.of_nat (size (tasks s)) < 2 ^ 21 → refcount (description s i) = held s i.
Proof.
  intros Hok Hn. rewrite (ok_counted _ _ Hok i), Z.add_0_r. pose proof (held_bound s i Hok) as Hb.
  apply s32_id. change (Z.of_nat MAX_FDS) with 1024 in Hb. lia.
Qed.

(** All runs keep the invariants. *)
Lemma open_files_frame s l s' : fds_ok s → W s → fd_runs s l s' → FW s'.
Proof.
  intros Hok HW Hr. revert Hok HW. induction Hr as [|s o s1 l s' Ho H1 Hr IH]; [done|].
  intros Hok HW. destruct (run_fd_FW o s s1 (conj Hok HW) Ho H1). by apply IH.
Qed.

(** C28: The count of every open file is the number of descriptors that point to it.
    From a sound state in which that holds, tasks that have ended have no open files
    and closing a file does not fail, every sequence of opening, closing, copying,
    seeking, reading and writing by processes, forks, exits, signals (none that stops
    tasks is sent to a zombie) and task switches leads to such a state again, as long as there are fewer than 2^21
    tasks: whatever a descriptor of a process points to is in use, and an open call
    takes no file that a descriptor still points to. *)
Theorem open_files_counted s l s' : fds_ok s → W s → fd_runs s l s' → Z.of_nat (size (tasks s')) < 2 ^ 21 →
  (∀ i, refcount (description s' i) = held s' i) ∧
  (∀ p t n e i, tasks s' !! p = Some t → is_kworker (image t) = false → fd_table t !! n = Some e → fd e = Some i →
    0 < refcount (description s' i)) ∧
  (∀ p t i, tasks s' !! p = Some t → alive (state t) = false → task_count i t = 0) ∧
  (∀ i, find_description MAX_FILES 0 s' = Some i → held s' i = 0).
Proof.
  intros Hok HW Hr Hn. destruct (open_files_frame _ _ _ Hok HW Hr) as [Hok' HW']. pose proof (λ i, refcount_held s' i Hok' Hn) as Hc. split; [exact Hc|].
  split; [|split].
  - intros p t n e i Et Hk En Hi. rewrite Hc. pose proof (fd_count_held s' p t n e i Et Hk En Hi). lia.
  - exact (ok_ended _ _ Hok').
  - intros i [_ Hi]%find_description_spec. by rewrite <-Hc.
Qed.
End runs.

(** ** A run that can be computed *)

Definition checkable (o : fd_op) : bool :=
  match o with FdSched (OpKill _ _ | OpKworker _ _ _ | OpKworkerExit) => false | _ => true end.
Definition process_runs {FS N} (s : kernel FS N) : bool :=
  match tasks s !! current_task s with Some t => negb (is_kworker (image t)) | None => false end.
Fixpoint checked_run {FS N} (l : list fd_op) (s : kernel FS N) : option (kernel FS N) :=
  match l with
  | [] => Some s
  | o :: l =>
    if checkable o && process_runs s then
      match run_fd o s with Done (_, s1) => checked_run l s1 | _ => None end
    else None
  end.
Lemma checked_run_runs {FS N} l : ∀ (s s' : kernel FS N), checked_run l s = Some s' → fd_runs s l s'.
Proof.
  induction l as [|o l IH]; intros s s' H; cbn [checked_run] in H; [injection H as ->; constructor|].
  destruct (checkable o) eqn:Hc, (process_runs s) eqn:Hp; try done. cbn [andb] in H.
  destruct (run_fd o s) as [[[] s1]| | |] eqn:Er; try done. econstructor; [|exact Er|by apply IH].
  assert (process_running s).
  { unfold process_running, process_runs, tree in *. rewrite lookup_fmap. destruct (tasks s !! current_task s) as [t|]; [|done].
    exists (node_of t). split; [done|]. by destruct (is_kworker (image t)) eqn:E. }
  destruct o as [| | | | | | | | |[]]; done.
Qed.
Lemma small_machine_fds : fds_ok small_machine.
Proof.
  assert (Hf : ∀ p t, tasks small_machine !! p = Some t → fd_table t = ∅).
  { intros p t Et. unfold small_machine, example_kernel, three_tasks in Et.
    cbn [tasks list_to_map foldr fst snd] in Et.
    apply lookup_insert_Some in Et as [[_ <-]|[_ Et]]; [done|].
    apply lookup_insert_Some in Et as [[_ <-]|[_ Et]]; [done|].
    apply lookup_insert_Some in Et as [[_ <-]|[_ Et]]; done. }
  assert (Hc : ∀ i p t, tasks small_machine !! p = Some t → task_count i t = 0).
  { intros i p t Et. unfold task_count. rewrite (Hf p t Et). by destruct (is_kworker _). }
  split.
  - intros i. unfold held. rewrite (msum_zero _ _ (λ p t, Hc i p t)). done.
  - intros p t i Et _. by eapply Hc.
  - intros p t n e Et En. by rewrite (Hf p t Et) in En.
  - split; [|done]. intros fs f h x r x' Hin. by apply elem_of_nil in Hin.
Qed.

(** A pipe is made, its read end copied, a child created; the child closes one copy,
    writes and exits. *)
Definition fd_ops_example : list fd_op :=
  [FdPipe; FdDup2 0 5; FdSched (OpFork zero_iframe); FdClose 0; FdWrite [] 1 [7; 8]; FdSched (OpExit 3)].
Lemma open_files_counted_witness : ∃ s' : kernel unit unit, fd_runs small_machine fd_ops_example s' ∧
  refcount (description s' 0) = 2 ∧ held s' 0 = 2 ∧ held s' 1 = 1.
Proof.
  assert (E : match checked_run fd_ops_example small_machine with
              | Some s' => refcount (description s' 0) = 2 ∧ refcount (description s' 1) = 1 ∧ size (tasks s') = 4%nat
              | None => False end) by (vm_compute; by split_and!).
  destruct (checked_run fd_ops_example small_machine) as [s'|] eqn:Er; [|destruct E]. exists s'.
  pose proof (checked_run_runs _ _ _ Er) as Hr. split; [exact Hr|]. destruct E as (E0 & E1 & Es).
  destruct (open_files_counted small_machine fd_ops_example s' small_machine_fds small_machine_W Hr) as [Hc _];
    [rewrite Es; reflexivity|].
  rewrite <-!Hc. split_and!; assumption.
Defined.
