(* ===== verification/FdCalls.v ===== *)
(** * What the calls on descriptors return

    A call that fails takes no descriptor and no open file.  A successful open
    takes the lowest free descriptor, and one copied by dup2 shares the position
    of the original. *)

From S2P Require Import Prelude Path Paging Vfs VfsWalk Pipe Net Udp Task Signal Fd Sched TaskTree SchedTree SchedLinks SchedInv FdCount FdSched FdRuns.

Section errors.
Context {FS N : Type}.
#[local] Notation kernel := (kernel FS N).
Implicit Types (s : kernel).

(** A call on a descriptor: refused, or applied to an open file. *)
Lemma with_fd_cases {A} (bad : A) n (k : Z → file_description_t → K kernel A) s r s' : with_fd bad n k s = Done (r, s') →
  (r = bad ∧ s' = s) ∨
  ∃ t i, tasks s !! current_task s = Some t ∧ 0 ≤ n < Z.of_nat MAX_FDS ∧ fd (fd_entry t n) = Some i ∧
    k i (description s i) s = Done (r, s').
Proof.
  intros H. unfold with_fd, lookup_fd in H. apply K_bind_Done in H as (o & s1 & H1 & H).
  apply K_bind_Done in H1 as (t & ? & [-> Et]%current_Done & H1). unfold mret, K_ret in H1. injection H1 as <- <-.
  set (L := Z.of_nat MAX_FDS) in *.
  destruct (Z.ltb_spec n 0); cbn [orb] in H; [unfold mret, K_ret in H; injection H as <- <-; by left|].
  destruct (Z.leb_spec L n); [unfold mret, K_ret in H; injection H as <- <-; by left|].
  destruct (fd (fd_entry t n)) as [i|] eqn:Ei; [|unfold mret, K_ret in H; injection H as <- <-; by left].
  right. exists t, i. by bind_get H.
Qed.
Ltac returned H := unfold mret, K_ret in H; injection H as <- <-.

Lemma dup_error n k fl s r s' : dup n k fl s = Done (r, s') → r < 0 → s' = s ∧ r ∈ [- EBADF; - EINVAL; - EMFILE].
Proof.
  intros H Hr. apply with_fd_cases in H as [[-> ->]|(t & i & Et & Hn & Ei & H)]; [set_solver|].
  set (L := Z.of_nat MAX_FDS) in *.
  destruct (Z.ltb_spec k 0); cbn [orb] in H; [returned H; set_solver|].
  destruct (Z.leb_spec L k); [returned H; set_solver|]. apply K_bind_Done in H as (t' & ? & [-> Et']%current_Done & H).
  destruct (find_fd _ k t') as [new|] eqn:Ef; [|returned H; set_solver]. apply find_fd_spec in Ef as [Hnew _].
  apply K_bind_Done in H as (? & s1 & _ & H). apply K_bind_Done in H as (? & s2 & _ & H). returned H. lia.
Qed.
Lemma fcntl_error n cmd arg s r s' : fcntl n cmd arg s = Done (r, s') → r < 0 → s' = s.
Proof.
  intros H Hr. apply with_fd_cases in H as [[-> ->]|(t & i & Et & Hn & Ei & H)]; [done|].
  destruct (_ =? _); [apply K_bind_Done in H as (? & ? & [-> _]%current_Done & H); by returned H|].
  destruct (_ =? _); [apply K_bind_Done in H as (? & ? & _ & H); by returned H|].
  destruct (_ =? _); [by returned H|].
  destruct (_ =? _); [apply K_bind_Done in H as (? & ? & _ & H); by returned H|].
  do 2 (destruct (_ =? _); [by apply dup_error in H as [-> _]|]). by returned H.
Qed.
Lemma dup2_error n k s r s' : dup2 n k s = Done (r, s') → r < 0 → s' = s ∧ r = - EBADF.
Proof.
  intros H Hr. apply with_fd_cases in H as [[-> ->]|(t & i & Et & Hn & Ei & H)]; [done|].
  set (L := Z.of_nat MAX_FDS) in *. destruct (Z.ltb_spec k 0) as [|Hk]; cbn [orb] in H; [by returned H|].
  destruct (Z.leb_spec L k); [by returned H|]. destruct (n =? k); [returned H; lia|].
  do 4 (apply K_bind_Done in H as (? & ? & _ & H)). returned H. lia.
Qed.
Lemma pipe_error s r l s' : pipe s = Done ((r, l), s') → r < 0 → s' = s ∧ (r = - EMFILE ∨ r = - ENFILE).
Proof.
  intros H Hr. unfold pipe in H. apply K_bind_Done in H as (t & ? & [-> _]%current_Done & H).
  destruct (two_free find_fd MAX_FDS t) as [|a [|b [|? ?]]]; try (unfold mret, K_ret in H; injection H as <- _ <-; by auto).
  bind_get H. destruct (two_free find_description MAX_FILES s) as [|i [|j [|? ?]]];
    try (unfold mret, K_ret in H; injection H as <- _ <-; by auto).
  do 6 (apply K_bind_Done in H as (? & ? & _ & H)). unfold mret, K_ret in H. injection H as <- _ <-. lia.
Qed.
Lemma socket_error d ty p s r s' : fd_socket d ty p s = Done (r, s') → r < 0 → s' = s.
Proof.
  intros H Hr. unfold fd_socket in H. apply K_bind_Done in H as (t & ? & [-> _]%current_Done & H).
  destruct (find_fd MAX_FDS 0 t) as [n|] eqn:Ef; [|by returned H]. apply find_fd_spec in Ef as [Hn _]. bind_get H.
  destruct (find_description MAX_FILES 0 s); [|by returned H]. destruct (socket d ty p); [by returned H|].
  do 4 (apply K_bind_Done in H as (? & ? & _ & H)). returned H. lia.
Qed.
(** A descriptor that cannot be opened leaves the tables as they were. *)
Lemma open_description_error i path fl st s r s' : open_description i path fl st s = Done (r, s') → r < 0 → same_fds s s'.
Proof.
  intros H Hr. unfold open_description in H. apply K_bind_Done in H as ([res h] & s1 & H1 & H).
  assert (S1 : same_fds s s1) by (eapply (same_vfs s); [intros; apply keeps_types_open|apply same_fds_refl|exact H1]).
  destruct (res <? 0); [by returned H|].
  apply K_bind_Done in H as (? & s2 & H2 & H). apply (same_description s) in H2; [|done|done].
  apply K_bind_Done in H as (res2 & s3 & H3 & H).
  assert (S3 : same_fds s s3).
  { destruct (_ && _); [|unfold mret, K_ret in H3; by injection H3 as _ <-].
    eapply (same_vfs s); [intros; apply keeps_types_truncate|exact H2|exact H3]. }
  destruct (res2 <? 0); apply K_bind_Done in H as (? & s4 & H4 & H); returned H; [|done].
  by apply (same_description s) in H4.
Qed.
Lemma open_error path fl s r s' : fd_open path fl s = Done (r, s') → r < 0 → same_fds s s'.
Proof.
  intros H Hr. unfold fd_open in H. destruct (_ && _); [returned H; apply same_fds_refl|].
  apply K_bind_Done in H as (o & s1 & H1 & H). apply (same_open_stat s) in H1; [|apply same_fds_refl].
  destruct o as [e|st]; [by returned H|]. destruct (_ && _); [by returned H|].
  apply K_bind_Done in H as (t & ? & [-> _]%current_Done & H).
  destruct (find_fd MAX_FDS 0 t) as [n|] eqn:Ef; [|by returned H]. apply find_fd_spec in Ef as [Hn _]. bind_get H.
  destruct (find_description MAX_FILES 0 s1) as [i|]; [|by returned H]. apply K_bind_Done in H as (res & s2 & H2 & H).
  destruct (Z.ltb_spec res 0) as [Hres|].
  - returned H. apply open_description_error in H2; [|done]. by eapply same_fds_trans.
  - apply K_bind_Done in H as (? & s3 & _ & H). returned H. lia.
Qed.

(** Opening does not touch the sockets. *)
Lemma lift_vfs_sockets X {A} (m : K (vfs FS) A) : keeps (λ s, sockets s = X) (lift_vfs m).
Proof.
  intros s a s' Hs H. unfold lift_vfs in H. apply K_bind_Done in H as (t & ? & [-> _]%current_Done & H).
  apply K_bind_Done in H as (r & s1 & H1 & H). bind_get H.
  assert (sockets s1 = X) by (destruct (m _) as [[y v]| | |]; by simplify_eq).
  apply K_bind_Done in H as (u & s2 & (t2 & _ & ->)%update_current_Done & H). by returned H.
Qed.
Lemma open_sockets X path fl : keeps (λ s, sockets s = X) (fd_open path fl).
Proof.
  unfold fd_open, open_stat, open_description, update_description.
  repeat first [apply lift_vfs_sockets|keeps_step|by apply keeps_modify].
  - intros s1 x s' Hs [-> _]%current_Done. done.
  - intros s1 x s' Hs (t & _ & ->)%update_current_Done. done.
Qed.

(** C29: A call on descriptors that fails takes nothing.  pipe, dup2, fcntl and socket
    that return an error leave the whole kernel as it was; pipe fails only for want
    of descriptors or open files, and dup2 only with -EBADF.  open may have created
    or looked up files, but no table of descriptors, no count of an open file and
    no socket differs. *)
Theorem failed_calls_take_nothing s r s' : r < 0 →
  (∀ l, pipe s = Done ((r, l), s') → s' = s ∧ (r = - EMFILE ∨ r = - ENFILE)) ∧
  (∀ n k, dup2 n k s = Done (r, s') → s' = s ∧ r = - EBADF) ∧
  (∀ n cmd arg, fcntl n cmd arg s = Done (r, s') → s' = s) ∧
  (∀ d ty p, fd_socket d ty p s = Done (r, s') → s' = s) ∧
  (∀ path fl, fd_open path fl s = Done (r, s') → same_fds s s' ∧ sockets s' = sockets s).
Proof.
  intros Hr. split_and!; intros.
  - by eapply pipe_error.
  - by eapply dup2_error.
  - by eapply fcntl_error.
  - by eapply socket_error.
  - split; [by eapply open_error|by eapply (open_sockets (sockets s))].
Qed.


(** ** What a successful open leaves *)

Lemma find_fd_first t n : ∀ i j, find_fd n i t = Some j → ∀ k, i ≤ k < j → fd (fd_entry t k) ≠ None.
Proof.
  induction n as [|n IH]; intros i j H k Hk; [done|]. cbn [find_fd] in H. destruct (fd (fd_entry t i)) eqn:Ei.
  - destruct (decide (k = i)) as [->|]; [congruence|]. eapply (IH _ _ H). lia.
  - injection H as ->. lia.
Qed.
Definition opened (path_type fl : Z) (d : file_description_t) : Prop :=
  ftype d = (if path_type =? DT_DIR then FD_TYPE_DIR else FD_TYPE_FILE) ∧
  offset d = 0 ∧ flags d = Z.land fl (Z.lnot O_CLOEXEC) ∧ refcount d = 1.
Lemma open_description_opened i path fl st s r s' : open_description i path fl st s = Done (r, s') → 0 ≤ r →
  opened (st_type st) fl (description s' i) ∧ fnode_of <$> tasks s' = fnode_of <$> tasks s ∧ current_task s' = current_task s.
Proof.
  intros H Hr. unfold open_description in H. apply K_bind_Done in H as ([res h] & s1 & H1 & H).
  assert (S1 : same_fds s s1) by (eapply (same_vfs s); [intros; apply keeps_types_open|apply same_fds_refl|exact H1]).
  destruct (Z.ltb_spec res 0) as [Hr1|Hr1]; [returned H; lia|].
  apply K_bind_Done in H as (? & s2 & H2 & H). apply (same_description s) in H2; [|done|done].
  apply K_bind_Done in H as (res2 & s3 & H3 & H).
  assert (S3 : same_fds s s3).
  { destruct (_ && _); [|unfold mret, K_ret in H3; by injection H3 as _ <-].
    eapply (same_vfs s); [intros; apply keeps_types_truncate|exact H2|exact H3]. }
  destruct (Z.ltb_spec res2 0) as [Hr2|Hr2]; apply K_bind_Done in H as (? & s4 & H4 & H); returned H; [lia|].
  unfold update_description, kmodify in H4. injection H4 as _ <-. destruct S3 as (T3 & C3 & _).
  unfold description at 1. cbn. rewrite lookup_insert_eq. by split_and!.
Qed.

Lemma update_entry_user s m n e a s' : user s m → update_current (set_fd_entry n e) s = Done (a, s') →
  user s' (<[n := e]> m) ∧ current_task s' = current_task s ∧ file_descriptions s' = file_descriptions s.
Proof.
  intros Hu H. apply update_current_Done in H as (t & Et & ->). destruct (user_task s m Hu) as (t0 & Et0 & <- & Hk & Ha).
  assert (t0 = t) as -> by congruence. split; [|done]. unfold user. cbn. rewrite lookup_insert_eq. cbn.
  unfold fnode_of. cbn. by rewrite Hk, Ha.
Qed.
Lemma open_stat_error path fl s e s' : open_stat path fl s = Done (inl e, s') → e < 0.
Proof.
  intros H. unfold open_stat in H. apply K_bind_Done in H as ([res st] & s1 & _ & H).
  destruct (Z.ltb_spec res 0); [|destruct (has fl O_EXCL); unfold mret, K_ret in H; simplify_eq; unfold EEXIST; lia].
  destruct (has fl O_CREAT); [|unfold mret, K_ret in H; simplify_eq; lia].
  apply K_bind_Done in H as (res2 & s2 & _ & H). unfold mret, K_ret in H. destruct (Z.ltb_spec res2 0); simplify_eq; lia.
Qed.
Lemma open_success s m path fl r s' : user s m → fd_open path fl s = Done (r, s') → 0 ≤ r →
  0 ≤ r < Z.of_nat MAX_FDS ∧ fd (entry_of m r) = None ∧ (∀ k, 0 ≤ k < r → fd (entry_of m k) ≠ None) ∧
  ∃ i ty, refcount (description s i) = 0 ∧ opened ty fl (description s' i) ∧
    user s' (<[r := mk_fd (Some i) (Z.land fl O_CLOEXEC)]> m) ∧ current_task s' = current_task s.
Proof.
  intros Hu H Hr. unfold fd_open in H. destruct (_ && _); [returned H; unfold EINVAL in Hr; lia|].
  apply K_bind_Done in H as (o & s1 & H1 & H).
  destruct o as [e|st]; [returned H; apply open_stat_error in H1; lia|].
  apply (same_open_stat s) in H1; [|apply same_fds_refl]. destruct (_ && _); [returned H; unfold ENOTDIR in Hr; lia|].
  apply K_bind_Done in H as (t & ? & [-> Et]%current_Done & H). pose proof (user_same _ _ _ H1 Hu) as Hu1.
  destruct (user_task _ _ Hu1) as (t0 & Et0 & Em & _). assert (t0 = t) as -> by congruence.
  destruct (find_fd MAX_FDS 0 t) as [n|] eqn:Ef; [|returned H; unfold EMFILE in Hr; lia]. bind_get H.
  destruct (find_description MAX_FILES 0 s1) as [i|] eqn:Ei; [|returned H; unfold ENFILE in Hr; lia].
  apply find_description_spec in Ei as [_ Hi]. apply K_bind_Done in H as (res & s2 & H2 & H).
  destruct (Z.ltb_spec res 0) as [|Hres]; [returned H; lia|]. apply K_bind_Done in H as (? & s3 & H3 & H). returned H.
  destruct (open_description_opened _ _ _ _ _ _ _ H2 Hres) as (Ho & T2 & C2).
  assert (Hu2 : user s2 m) by (unfold user; by rewrite C2, <-lookup_fmap, T2, lookup_fmap).
  destruct (update_entry_user _ _ _ _ _ _ Hu2 H3) as (Hu3 & C3 & F3).
  pose proof (find_fd_first _ _ _ _ Ef) as Hfirst. apply find_fd_spec in Ef as [Hn Hfree].
  unfold fd_entry in Hfirst, Hfree. rewrite Em in Hfirst, Hfree. split; [lia|]. split; [exact Hfree|]. split; [exact Hfirst|].
  destruct H1 as (_ & C1 & D1 & _). exists i, (st_type st). rewrite <-D1. split; [done|].
  split; [|split; [done|congruence]]. unfold description in *. by rewrite F3.
Qed.

(** A successful open returns the lowest descriptor the process has free.  Its
    entry points to an open file nobody used before, at position 0, counted once,
    with the flags of the call (close-on-exec goes to the entry instead), and no
    other entry of the process changes. *)
Theorem open_lowest_descriptor s m path fl r s' : user s m → fd_open path fl s = Done (r, s') → 0 ≤ r →
  0 ≤ r < Z.of_nat MAX_FDS ∧ fd (entry_of m r) = None ∧ (∀ k, 0 ≤ k < r → fd (entry_of m k) ≠ None) ∧
  ∃ i ty, refcount (description s i) = 0 ∧ opened ty fl (description s' i) ∧
    user s' (<[r := mk_fd (Some i) (Z.land fl O_CLOEXEC)]> m) ∧ current_task s' = current_task s.
Proof. apply open_success. Qed.

(** ** Copies share the position *)

Lemma with_fd_user {A} (bad : A) n k s m i : user s m → 0 ≤ n < Z.of_nat MAX_FDS → fd (entry_of m n) = Some i →
  with_fd bad n k s = k i (description s i) s.
Proof.
  intros Hu Hn Hi. destruct (user_task s m Hu) as (t & Et & Em & _). 
  unfold with_fd, lookup_fd. set (L := Z.of_nat MAX_FDS) in *.
  rewrite (K_bind_step _ _ s (Some i) s); [done|]. rewrite (K_bind_step _ _ _ _ _ (current_run s t Et)).
  rewrite (proj2 (Z.ltb_ge n 0)), (proj2 (Z.leb_gt L n)) by lia. cbn [orb].
  unfold fd_entry. rewrite Em. unfold mret, K_ret. change (default no_fd (m !! n)) with (entry_of m n). by rewrite Hi.
Qed.
Lemma seek_set s m n i o : user s m → 0 ≤ n < Z.of_nat MAX_FDS → fd (entry_of m n) = Some i →
  seek n o SEEK_SET s = Done (s64 (u64 o), set_file_descriptions
    (<[i := set_offset (u64 o) (description s i)]> (file_descriptions s)) s).
Proof.
  intros Hu Hn Hi. unfold seek. erewrite with_fd_user by done. change (SEEK_SET =? SEEK_SET) with true. cbv iota.
  pose proof (Z.mod_pos_bound o (2 ^ 64) ltac:(lia)). unfold mret, K_ret, mbind, K_bind. fold (u64 o) in *.
  by rewrite (proj2 (Z.ltb_ge (u64 o) 0)) by lia.
Qed.
(** The entries after a copy. *)
Lemma dup2_success s c m n k r s' : in_order c m s → dup2 n k s = Done (r, s') → 0 ≤ r → n ≠ k →
  r = k ∧ 0 ≤ n < Z.of_nat MAX_FDS ∧ 0 ≤ k < Z.of_nat MAX_FDS ∧
  ∃ i m', fd (entry_of m n) = Some i ∧ user s' m' ∧ fd (entry_of m' n) = Some i ∧ entry_of m' k = mk_fd (Some i) 0 ∧
    ∀ j, j ≠ k → entry_of m' j = entry_of m j.
Proof.
  intros Hs H Hr Hnk.
  destruct (with_fd_Done _ _ _ _ _ _ m (proj1 (proj2 Hs)) H) as [(-> & -> & _)|(i & Hn & Ei & Hk)]; [unfold EBADF in Hr; lia|].
  set (L := Z.of_nat MAX_FDS) in *.
  destruct (Z.ltb_spec k 0) as [|Hk0]; cbn [orb] in Hk; [returned Hk; unfold EBADF in Hr; lia|].
  destruct (Z.leb_spec L k) as [|HkL]; [returned Hk; unfold EBADF in Hr; lia|]. destruct (Z.eqb_spec n k) as [|_]; [done|].
  apply K_bind_Done in Hk as (? & s1 & H1 & Hk). destruct (fd_close_spec _ _ _ _ _ _ Hs H1) as (m1 & Hs1 & He1 & Ho1).
  apply K_bind_Done in Hk as (t & ? & [-> Et]%current_Done & Hk).
  destruct (user_task s1 m1 (proj1 (proj2 Hs1))) as (t0 & Et0 & Em & _). assert (t0 = t) as -> by congruence.
  assert (Hti : fd (fd_entry t n) = Some i).
  { unfold fd_entry. rewrite Em. change (default no_fd (m1 !! n)) with (entry_of m1 n). by rewrite Ho1. }
  rewrite Hti in Hk. apply K_bind_Done in Hk as (? & s2 & H2 & Hk). apply K_bind_Done in Hk as (? & s3 & H3 & Hk).
  returned Hk. destruct (update_entry_user _ _ _ _ _ _ (proj1 (proj2 Hs1)) H2) as (Hu2 & _).
  unfold share, update_description, kmodify in H3. injection H3 as _ <-.
  split; [done|]. split; [lia|]. split; [lia|]. eexists i, _. split; [done|]. split; [exact Hu2|].
  assert (He : ∀ j, j ≠ k → entry_of (<[k:=mk_fd (Some i) 0]> m1) j = entry_of m j).
  { intros j Hj. rewrite <-(Ho1 j Hj). unfold entry_of. by rewrite lookup_insert_ne. }
  split; [by rewrite He|]. split; [unfold entry_of; by rewrite lookup_insert_eq|exact He].
Qed.

(** After dup2 two descriptors share one open file.  When dup2 copies a descriptor
    to another number it returns that number; both entries then point to the open
    file of the original, the copy has no close-on-exec flag, the other entries are
    as before, and a position set through the one descriptor is the position that
    tell reports through the other. *)
Theorem dup2_shares_position s c m n k r s' : in_order c m s → dup2 n k s = Done (r, s') → 0 ≤ r → n ≠ k →
  r = k ∧ ∃ i m', user s' m' ∧ fd (entry_of m n) = Some i ∧ fd (entry_of m' n) = Some i ∧
    entry_of m' k = mk_fd (Some i) 0 ∧ (∀ j, j ≠ k → entry_of m' j = entry_of m j) ∧
    ∀ o, ∃ s1, seek n o SEEK_SET s' = Done (s64 (u64 o), s1) ∧ tell k s1 = Done (s64 (u64 o), s1) ∧ tell n s1 = Done (s64 (u64 o), s1).
Proof.
  intros Hs H Hr Hnk. destruct (dup2_success _ _ _ _ _ _ _ Hs H Hr Hnk) as (-> & Hn & Hk & i & m' & Ei & Hu & En & Ek & Ho).
  split; [done|]. exists i, m'. split_and!; try done. intros o. eexists. split; [by eapply seek_set|].
  set (s1 := set_file_descriptions _ s'). assert (Hu1 : user s1 m') by exact Hu.
  assert (Hd : offset (description s1 i) = u64 o) by (unfold description, s1; cbn; by rewrite lookup_insert_eq).
  unfold tell. rewrite (with_fd_user _ k _ s1 m' i), (with_fd_user _ n _ s1 m' i) by (done || by rewrite Ek). by rewrite Hd.
Qed.
End errors.


(** Nothing is open in the small machine. *)
Lemma failed_calls_take_nothing_witness :
  ∃ r s', dup2 0 3 small_machine = Done (r, s') ∧ r < 0 ∧ s' = small_machine.
Proof.
  exists (- EBADF). eexists. split; [vm_compute; reflexivity|]. split; [reflexivity|].
  match goal with |- ?s' = _ =>
    destruct (failed_calls_take_nothing small_machine (- EBADF) s' ltac:(reflexivity)) as (_ & H & _) end.
  destruct (H 0 3 ltac:(vm_compute; reflexivity)) as [H1 _]. exact H1.
Defined.

(** A machine with files: every name exists, its handle is a number. *)
Definition filed_machine : kernel unit unit := set_files length_vfs small_machine.
Lemma open_lowest_descriptor_witness : ∃ s' : kernel unit unit, user filed_machine ∅ ∧
  fd_open [SLASH; 97] O_RDONLY filed_machine = Done (0, s') ∧ ∃ i, user s' {[ 0 := mk_fd (Some i) 0 ]}.
Proof.
  assert (Hu : user filed_machine ∅) by (vm_compute; reflexivity).
  assert (E : match fd_open [SLASH; 97] O_RDONLY filed_machine with Done (r, _) => r = 0 | _ => False end)
    by (vm_compute; reflexivity).
  destruct (fd_open [SLASH; 97] O_RDONLY filed_machine) as [[r s']| | |] eqn:Er; [subst r|destruct E..].
  exists s'. split; [exact Hu|]. split; [reflexivity|].
  destruct (open_lowest_descriptor filed_machine ∅ [SLASH; 97] O_RDONLY 0 s' Hu Er ltac:(lia)) as (_ & _ & _ & i & ty & _ & _ & Hm & _).
  exists i. exact Hm.
Defined.

(** Descriptor 0 is the read end of a pipe and is copied to 5. *)
Definition piped : option (kernel unit unit) := checked_run [FdPipe] small_machine.
Lemma dup2_shares_position_witness : ∃ s s' m m' : _, piped = Some s ∧ in_order 3 m s ∧
  dup2 0 5 s = Done (5, s') ∧ user s' m' ∧ fd (entry_of m' 5) = fd (entry_of m 0).
Proof.
  assert (E : match piped with Some s => current_task s = 3 ∧ process_runs s = true ∧
    match dup2 0 5 s with Done (r, _) => r = 5 | _ => False end | None => False end) by (vm_compute; by split_and!).
  destruct piped as [s|] eqn:Ep; [|destruct E]. destruct E as (Ec & Hp & E).
  assert (Hs : ∃ m, in_order 3 m s).
  { destruct (open_files_frame small_machine [FdPipe] s small_machine_fds small_machine_W (checked_run_runs _ _ _ Ep)) as [Hok HW].
    unfold process_runs in Hp. destruct (tasks s !! current_task s) as [t|] eqn:Et; [|discriminate Hp].
    exists (fd_table t). split; [exact Hok|]. split; [|exact Ec]. apply W_user; [exact HW|exact Et|].
    destruct (is_kworker (image t)); [discriminate Hp|reflexivity]. }
  destruct Hs as [m Hs]. destruct (dup2 0 5 s) as [[r s']| | |] eqn:Er; [subst r|destruct E..].
  destruct (dup2_shares_position s 3 m 0 5 5 s' Hs Er ltac:(lia) ltac:(lia)) as (_ & i & m' & Hu & Em & _ & Ek & _).
  exists s, s', m, m'. split; [reflexivity|]. split; [exact Hs|]. split; [exact Er|]. split; [exact Hu|].
  rewrite Ek, Em. reflexivity.
Defined.
