(* ===== verification/ExecTree.v ===== *)
(** * Starting programs keeps the ring and the tree of tasks

    While a new task is set up it hangs in no list; spawn links it below the
    caller, execve beside it, before the caller is deleted and its children go to
    the new task. *)

From S2P Require Import Prelude Paging Vfs Pipe Net Udp Task Signal Fd Sched Elf Exec TaskTree SchedTree SchedLinks SchedInv FdCount FdSched FdRuns.

Section frame.
Context {FS N : Type}.
#[local] Notation kernel := (kernel FS N).
Context (check_nx_support : bool) (stack_bytes : buffer_site → Z → list Z) (vvar_paddr : Z).
Context (T : gmap Z node) (c r b : Z).
#[local] Notation F := (framed (FS:=FS) (N:=N) T c r b).

(** With another task as the current one for a while. *)
Lemma keeps_as_task {A} p (m : K kernel A) : keeps (framed T p r b) m → keeps F (as_task p m).
Proof.
  intros Hm s a s' (Ht & Hc & Hr & Hb) H. unfold as_task in H. bind_get H. bind_modify H s1.
  apply K_bind_Done in H as (y & s2 & H2 & H). bind_modify H s3. unfold mret, K_ret in H. injection H as _ <-.
  destruct (Hm _ _ _ (conj Ht (conj eq_refl (conj Hr Hb)) : framed T p r b (set_current_task p s)) H2) as (Ht2 & _ & Hr2 & Hb2).
  by split_and!.
Qed.
Lemma framed_run_action new p a : keeps F (run_action (FS:=FS) (N:=N) new p a).
Proof.
  unfold run_action. framed_tac; apply keeps_as_task;
    [apply framed_dup2|apply keeps_sigprocmask|apply keeps_setpgid|apply keeps_setsid].
Qed.
Lemma framed_run_actions n new p : ∀ v, keeps F (run_actions (FS:=FS) (N:=N) n new p v).
Proof.
  induction n as [|n IH]; intros v; cbn [run_actions]; [apply keeps_ret|].
  keeps_step; [framed_tac|]. keeps_step; [apply framed_run_action|]. framed_tac.
Qed.
Lemma framed_close_cloexec n new : ∀ i, keeps F (close_cloexec (FS:=FS) (N:=N) n i new).
Proof. induction n as [|n IH]; intros i; cbn [close_cloexec]; unfold drop_description; framed_tac. Qed.

Lemma framed_read_local site h o n : keeps F (read_local (FS:=FS) (N:=N) stack_bytes site h o n).
Proof. unfold read_local. framed_tac. Qed.
Hint Resolve framed_read_local : keeps.
Lemma framed_compatible h : keeps F (is_compatible_binary (FS:=FS) (N:=N) stack_bytes h).
Proof. unfold is_compatible_binary, is_elf. framed_tac. Qed.
Lemma framed_load_segments h l : ∀ brk, keeps F (load_segments (FS:=FS) (N:=N) check_nx_support h l brk).
Proof. induction l as [|ph l IH]; intros brk; cbn [load_segments]; unfold load_segment; framed_tac. Qed.
Hint Resolve framed_compatible framed_load_segments : keeps.
Lemma framed_load_elf h : keeps F (load_elf (FS:=FS) (N:=N) check_nx_support stack_bytes h).
Proof. unfold load_elf. framed_tac. Qed.
Hint Resolve framed_load_elf framed_run_actions framed_close_cloexec : keeps.
Lemma framed_load_image new path : keeps F (load_image (FS:=FS) (N:=N) check_nx_support stack_bytes new path).
Proof. unfold load_image. framed_tac. Qed.
Lemma framed_make_stack argv envp : keeps F (make_stack (FS:=FS) (N:=N) vvar_paddr argv envp).
Proof. unfold make_stack. framed_tac. Qed.
Hint Resolve framed_load_image framed_make_stack : keeps.
Lemma framed_become new p path argv envp v n f :
  keeps F (become (FS:=FS) (N:=N) check_nx_support stack_bytes vvar_paddr new p path argv envp v n f).
Proof. unfold become. framed_tac. Qed.
Lemma framed_count_strings v : keeps F (count_strings (FS:=FS) (N:=N) v).
Proof. unfold count_strings. framed_tac. Qed.
Lemma framed_count_actions v : keeps F (count_actions (FS:=FS) (N:=N) v).
Proof. unfold count_actions. framed_tac. Qed.
Lemma framed_copy_vector v n l : keeps F (copy_vector (FS:=FS) (N:=N) v n l).
Proof. unfold copy_vector. framed_tac. Qed.
Lemma framed_retarget p q : keeps F (retarget_waits (FS:=FS) (N:=N) p q).
Proof. unfold retarget_waits. framed_tac. Qed.
End frame.

(** ** Adding a task *)

Section add.
Context {FS N : Type}.
#[local] Notation kernel := (kernel FS N).
Implicit Types (s : kernel).
Context (check_nx_support : bool) (stack_bytes : buffer_site → Z → list Z) (vvar_paddr : Z).
#[local] Notation become := (become (FS:=FS) (N:=N) check_nx_support stack_bytes vvar_paddr).
#[local] Notation load_image := (load_image (FS:=FS) (N:=N) check_nx_support stack_bytes).
#[local] Notation add_task := (add_task (FS:=FS) (N:=N) check_nx_support stack_bytes vvar_paddr).
#[local] Notation spawn := (spawn (FS:=FS) (N:=N) check_nx_support stack_bytes vvar_paddr).
#[local] Notation execve := (execve (FS:=FS) (N:=N) check_nx_support stack_bytes vvar_paddr).

(** Errors are negative. *)
Lemma validate_vector_error n check : ∀ p c (s : paging) e (s' : paging), validate_vector n p c check s = Done (inl e, s') → e < 0.
Proof.
  induction n as [|n IH]; intros p c s e s' H; [done|]. cbn [validate_vector] in H.
  apply K_bind_Done in H as (r & s1 & _ & H). destruct (Z.ltb_spec r 0); [by inv_done|].
  apply K_bind_Done in H as (x & s2 & _ & H). destruct (x =? NULL); [by inv_done|].
  apply K_bind_Done in H as (r' & s3 & _ & H). destruct (Z.ltb_spec r' 0); [by inv_done|]. by eapply IH.
Qed.
Lemma lift_tables_run {A} (m : K paging A) s a s' :
  lift_tables m s = Done (a, s') → ∃ pg, m (tables s) = Done (a, pg) ∧ s' = set_tables pg s.
Proof. unfold lift_tables. destruct (m (tables s)) as [[x pg]| | |]; intros H; simplify_eq. by exists pg. Qed.
Lemma count_strings_error v s e s' : count_strings v s = Done (inl e, s') → e < 0.
Proof.
  unfold count_strings. destruct (v =? NULL); [done|].
  intros (r & s1 & (pg & Hr & _)%lift_tables_run & H)%K_bind_Done. unfold mret, K_ret in H.
  destruct r as [e'|n]; [|destruct (n =? _)]; simplify_eq; [by eapply validate_vector_error|done].
Qed.
Lemma count_actions_error v s e s' : count_actions v s = Done (inl e, s') → e < 0.
Proof.
  unfold count_actions. destruct (v =? NULL); [done|]. intros (pg & Hr & _)%lift_tables_run.
  by eapply validate_vector_error.
Qed.
Lemma load_image_error new path s e s' : load_image new path s = Done (inl e, s') → e < 0.
Proof.
  unfold Exec.load_image. intros ([r st] & s1 & _ & H)%K_bind_Done.
  destruct (Z.ltb_spec r 0); [by inv_done|]. destruct (_ =? DT_DIR); [by inv_done|].
  apply K_bind_Done in H as ([r' h] & s2 & _ & H). destruct (Z.ltb_spec r' 0); [by inv_done|].
  apply K_bind_Done in H as (ok & s3 & _ & H). destruct ok; cbn [negb] in H; [|by inv_done].
  apply K_bind_Done in H as ([entry brk] & s4 & _ & H). apply K_bind_Done in H as (u & s5 & _ & H).
  destruct (entry =? NULL); [by inv_done|]. by apply K_bind_Done in H as (? & s6 & _ & ?); inv_done.
Qed.
Lemma become_error new p path argv envp v n f s e s' :
  become new p path argv envp v n f s = Done (inl e, s') → e < 0.
Proof.
  unfold Exec.become. intros (r & s1 & _ & H)%K_bind_Done. destruct (Z.ltb_spec r 0); [by inv_done|].
  apply K_bind_Done in H as (u & s2 & _ & H). bind_get H.
  apply K_bind_Done in H as (t & s3 & _ & H). apply K_bind_Done in H as (u1 & s4 & _ & H).
  apply K_bind_Done in H as ([e'|entry] & s5 & H5 & H).
  - apply load_image_error in H5. apply K_bind_Done in H as (u2 & s6 & _ & H). by inv_done.
  - apply K_bind_Done in H as (sp & s6 & _ & H). apply K_bind_Done in H as (u2 & s7 & _ & H). by inv_done.
Qed.

(** The copy is a task of its own that no list knows yet. *)
Lemma copy_task_Done p s new s' t :
  tasks s !! current_task s = Some t → copy_task p s = Done (new, s') →
  new = next_object s ∧ ∃ n, n_kworker n = is_kworker (image t) ∧ n_alive n = true ∧
    framed (<[new := n]> (tree s)) (current_task s) (rr_task s) (next_object s + 1) s'.
Proof.
  intros Et H. unfold copy_task in H. apply K_bind_Done in H as (k & ? & [-> ->]%new_object_Done & H).
  apply K_bind_Done in H as (cur & ? & [-> Ecur]%current_Done & H). cbn in Ecur.
  assert (cur = t) as -> by congruence. bind_get H.
  apply K_bind_Done in H as (cr & ? & [pg ->]%lift_tables_Done & H). bind_modify H s1.
  apply K_bind_Done in H as (u & s2 & H2 & H). unfold mret, K_ret in H. injection H as <- <-. split; [done|].
  eexists. split; [|split; [|refine (keeps_share_fds _ _ _ _ _ _ _ _ _ _ _ H2)]].
  3:{ split_and!; [|done|done|cbn; lia]. unfold tree. cbn [tasks set_tasks set_tables set_next_object].
      rewrite fmap_insert. reflexivity. }
  - done.
  - done.
Qed.

(** Either nothing has changed for the other tasks, or the new one is linked. *)
Lemma add_task_Done path argv envp q p actions f s r s' t n :
  W s → tasks s !! current_task s = Some t → is_kworker (image t) = false →
  tree s !! q = Some n → add_task path argv envp q p actions f s = Done (r, s') →
  (r.1 < 0 ∧ framed (tree s) (current_task s) (rr_task s) (next_object s) s') ∨
  (r.1 = p ∧ next_object s ≤ r.2 ∧
   framed (add_process (tree s) q r.2 n) (current_task s) (rr_task s) (r.2 + 1) s').
Proof.
  intros HW Et Hk Hn H. unfold Exec.add_task in H.
  apply K_bind_Done in H as (path' & s1 & [pg ->]%lift_tables_Done & H).
  set (s1 := set_tables pg s) in *. change (tree s) with (tree s1) in *.
  assert (F0 : framed (tree s1) (current_task s) (rr_task s) (next_object s) s1) by done.
  apply K_bind_Done in H as (a & s2 & H2 & H).
  pose proof (framed_count_strings _ _ _ _ _ _ _ _ F0 H2) as F2.
  destruct a as [e|argc]; [unfold mret, K_ret in H; injection H as <- <-; left; split; [|done];
    by apply count_strings_error in H2|].
  apply K_bind_Done in H as (a & s3 & H3 & H). pose proof (framed_count_strings _ _ _ _ _ _ _ _ F2 H3) as F3.
  destruct a as [e|envc]; [unfold mret, K_ret in H; injection H as <- <-; left; split; [|done];
    by apply count_strings_error in H3|].
  apply K_bind_Done in H as (a & s4 & H4 & H). pose proof (framed_count_actions _ _ _ _ _ _ _ _ F3 H4) as F4.
  destruct a as [e|k]; [unfold mret, K_ret in H; injection H as <- <-; left; split; [|done];
    by apply count_actions_error in H4|].
  apply K_bind_Done in H as (ka & s5 & H5 & H). pose proof (framed_copy_vector _ _ _ _ _ _ _ _ _ _ F4 H5) as F5.
  apply K_bind_Done in H as (ke & s6 & H6 & H). pose proof (framed_copy_vector _ _ _ _ _ _ _ _ _ _ F5 H6) as F6.
  clear F0 F2 F3 F4 F5 H2 H3 H4 H5 H6. destruct F6 as (T6 & C6 & R6 & B6).
  apply K_bind_Done in H as (new & s7 & H7 & H).
  assert (∃ t6, tasks s6 !! current_task s6 = Some t6 ∧ is_kworker (image t6) = false) as (t6 & Et6 & Hk6).
  { apply tree_lookup in Et. change (tree s) with (tree s1) in Et. rewrite <-T6, <-C6 in Et. unfold tree in Et.
    rewrite lookup_fmap in Et. destruct (tasks s6 !! current_task s6) as [t6|]; [|done].
    exists t6. split; [done|]. apply (inj Some) in Et. change (n_kworker (node_of t6) = false). by rewrite Et. }
  destruct (copy_task_Done _ _ _ _ _ Et6 H7) as (-> & nn & Hnk & Hna & F7).
  apply K_bind_Done in H as (a & s8 & H8 & H).
  pose proof (framed_become _ _ _ _ _ _ _ _ _ _ _ _ _ _ _ _ _ _ F7 H8) as F8.
  rewrite T6, C6, R6 in F8. rewrite Hk6 in Hnk. revert F8 B6 H H8. generalize (next_object s6). clear H7 F7. intros new F8 B6 H H8.
  assert (Hfresh : tree s1 !! new = None).
  { destruct HW as [(ring & kids & Hwf & _) _]. by apply (fresh_not_in (tree s) ring kids _ Hwf). }
  destruct F8 as (T8 & C8 & R8 & B8). destruct a as [e|[]].
  - left. bind_modify H s9. unfold mret, K_ret in H. injection H as <- <-. split; [by apply become_error in H8|].
    split_and!; [|done|done|cbn; lia]. unfold tree. cbn [tasks set_tasks]. rewrite fmap_delete.
    change (node_of <$> tasks s8) with (tree s8). rewrite T8. by rewrite delete_insert_id.
  - right. apply K_bind_Done in H as ([] & s9 & H9 & H). unfold mret, K_ret in H. injection H as <- <-.
    split; [done|]. split; [exact B6|]. cbn [snd].
    assert (Hne : q ≠ new) by congruence.
    assert (Eq : tree s8 !! q = Some n) by (rewrite T8; by rewrite lookup_insert_ne).
    assert (En : tree s8 !! new = Some nn) by (rewrite T8; by rewrite lookup_insert_eq).
    unfold tree in Eq, En. rewrite lookup_fmap in Eq, En.
    destruct (tasks s8 !! q) as [tq|] eqn:Etq; [|done]. destruct (tasks s8 !! new) as [tn|] eqn:Etn; [|done].
    apply (inj Some) in Eq, En. destruct (link_task_Done _ _ _ _ _ _ _ Etq Etn Hne H9) as [(C9 & R9 & B9) T9].
    split_and!; [|congruence|congruence|lia].
    rewrite T9, T8, Eq, En, Hnk, Hna. unfold add_process. by rewrite insert_insert_eq.
Qed.

(** ** spawn *)

Lemma keeps_spawn path argv envp actions f s a s' :
  W s → process_running s → spawn path argv envp actions f s = Done (a, s') → W s'.
Proof.
  intros HW (n & Hn & Hk) H. unfold Exec.spawn in H. bind_get H.
  destruct (last_pid s =? INT_MAX); [done|].
  apply K_bind_Done in H as (? & s1 & H1 & H).
  assert (F1 : framed (tree s) (current_task s) (rr_task s) (next_object s) s1)
    by (eapply (keeps_update_current _ _ _ _ (with_iframe (λ _, f)) (λ _, eq_refl)); [apply framed_refl|exact H1]).
  apply K_bind_Done in H as (p & s2 & H2 & H).
  assert (F2 : framed (tree s) (current_task s) (rr_task s) (next_object s) s2).
  { revert F1 H2. generalize s1 p s2. change (keeps (framed (tree s) (current_task s) (rr_task s) (next_object s)) (next_pid (FS:=FS) (N:=N))).
    unfold next_pid. framed_tac. }
  assert (HW2 : W s2) by (by eapply framed_W). bind_get H.
  apply K_bind_Done in H as (r & s3 & H3 & H).
  destruct F2 as (T2 & C2 & _). rewrite <-T2, <-C2 in Hn. pose proof Hn as Hn'. unfold tree in Hn'.
  rewrite lookup_fmap in Hn'. destruct (tasks s2 !! current_task s2) as [t|] eqn:Et; [|done]. apply (inj Some) in Hn'.
  assert (HW3 : W s3).
  { destruct (add_task_Done _ _ _ _ _ _ _ _ _ _ t n HW2 Et ltac:(by rewrite <-Hn' in Hk) Hn H3)
      as [[_ F3]|(_ & B3 & T3 & C3 & R3 & B3')]; [by eapply framed_W|].
    eapply (linked_W s2 s3 _ r.2 n HW2 eq_refl Hn Hk B3 T3 C3 R3). lia. }
  destruct (negb (r.1 =? p)); [unfold mret, K_ret in H; by simplify_eq|].
  revert HW3 H. generalize s3 a s'. generalize p.
  intros p'. change (keeps (W (FS:=FS) (N:=N)) (update_current (with_iframe (set_rax p'));; update_current (set_state STATE_READY);; switch_task;; mret p')).
  keeps_step; [apply keeps_W; intros; framed_tac|]. keeps_step; [|apply keeps_W_switch, switch_task_W].
  apply keeps_W_state. intros t0 Ha. unfold node_of. cbn. by rewrite Ha.
Qed.

(** ** execve *)

(** The caller is deleted once [new] hangs beside it, below its parent [q]. *)
Lemma replaced_W T ring kids b c n q nq new s a s' :
  wf_tree T ring kids b → c ∈ ring → c ≠ INIT_TASK → T !! c = Some n → n_alive n = true →
  n_kworker n = false → n_parent n = q → T !! q = Some nq → b ≤ new →
  framed (add_process T q new nq) c (rr_task s) (new + 1) s → rr_task s ∈ ring →
  (update_current (set_state STATE_DELETED);;
   s ← kget; retarget_waits (current_task s) new;;
   release_process_fds;;
   t ← current; s ← kget; reparent (size (tasks s)) (child (links t)) new) s = Done (a, s') → W0 s'.
Proof.
  intros Hwf Hc Hi Hn Ha Hk Hp Hnq Hb (Ht & Hcs & _ & Hbs) Hr H.
  assert (Hch : child_of T ring q c) by (split; [done|split; [done|]]; by exists n).
  assert (Hqc : q ≠ c) by (intros ->; by apply (wf_self _ _ _ _ Hwf c)).
  destruct (wf_parent _ _ _ _ Hwf _ _ Hch) as (Hq & nq' & Enq & Hqa & Hqk). assert (nq' = nq) as -> by congruence.
  pose proof (wf_add_process T ring kids b Hwf q new nq Hq Hnq Hb Hqa Hqk) as Hwf'.
  destruct (new_ne T ring kids b Hwf q new nq Hq Hnq Hb) as (Hnewq & _ & _ & _ & Hnr & _).
  assert (Hnc : new ≠ c) by congruence. set (T' := add_process T q new nq) in *.
  assert (Hl : ∀ x, T' !! x = _) by exact (process_lookup T ring kids b Hwf q new nq Hq Hnq Hb).
  assert (Hc' : T' !! c = Some n) by (rewrite Hl; by rewrite !decide_False).
  assert (Hnew : T' !! new = Some (mk_node (n_next nq) (n_child nq) q NULL false true))
    by (rewrite Hl; by rewrite decide_False, decide_True).
  assert (Hring : ∀ x, x ∈ ring_after q new ring ↔ x = new ∨ x ∈ ring) by (intros; by apply elem_of_ring_after).
  assert (Hcr : c ∈ ring_after q new ring) by (apply Hring; auto).
  apply K_bind_Done in H as ([] & s1 & H1 & H). apply update_current_Done in H1 as (t & Et & ->).
  pose proof (tree_end s t (set_state STATE_DELETED) Et (λ _, eq_refl)) as Htree.
  pose proof (tree_lookup _ _ _ Et) as Etn. rewrite Ht, Hcs, Hc' in Etn. apply (inj Some) in Etn.
  rewrite Hcs, Ht, <-Etn in Htree. rewrite Hcs in H.
  assert (F1 : framed (<[c := set_dead n]> T') c (rr_task s) (new + 1) (set_tasks (<[c := set_state STATE_DELETED t]> (tasks s)) s))
    by (by split_and!).
  bind_get H. apply K_bind_Done in H as ([] & s2 & H2 & H).
  pose proof (framed_retarget _ _ _ _ _ _ _ _ _ F1 H2) as F2.
  apply K_bind_Done in H as ([] & s3 & H3 & H). pose proof (keeps_release _ _ _ _ _ _ _ F2 H3) as F3.
  assert (Hr3 : rr_task s3 = rr_task s) by apply F3. rewrite <-Hr3 in F3.
  eapply (reparent_ends T' c n (new + 1) new _ _ s3); [exact Hwf'|exact Hcr|done|exact Hc'|done| |done| |exact F3| |exact H].
  - split; [apply Hring; auto|]. eexists. by split; [exact Hnew|].
  - intros (_ & _ & k & Ek & _ & Ep)%(wf_kids _ _ _ _ Hwf' c n Hcr Hc' Ha).
    rewrite Hnew in Ek. injection Ek as <-. done.
  - rewrite Hr3. apply Hring. auto.
Qed.
Lemma keeps_execve path argv envp f s a s' t :
  W s → current_task s ≠ INIT_TASK → tasks s !! current_task s = Some t → is_kworker (image t) = false →
  0 ≤ pid (ids t) → execve path argv envp f s = Done (a, s') → W s'.
Proof.
  intros HW Hi Et Hk Hpid H. unfold Exec.execve in H.
  apply K_bind_Done in H as (cur & ? & [-> Ecur]%current_Done & H). assert (cur = t) as -> by congruence.
  apply K_bind_Done in H as (r & s3 & H3 & H). pose proof HW as [(ring & kids & Hwf & Hr & Hc) (n & Hn & Ha)].
  pose proof (tree_lookup _ _ _ Et) as Htn. assert (n = node_of t) as -> by congruence.
  pose proof (process_in_ring _ _ _ _ _ Hwf Hc Hn Hk) as Hin.
  assert (Hch : child_of (tree s) ring (parent (links t)) (current_task s))
    by (split; [done|split; [done|]]; by exists (node_of t)).
  destruct (wf_parent _ _ _ _ Hwf _ _ Hch) as (_ & nq & Enq & _).
  destruct (add_task_Done _ _ _ _ _ _ _ _ _ _ t nq HW Et Hk Enq H3) as [[He F3]|(Er & B3 & F3)].
  - destruct (Z.eqb_spec r.1 (pid (ids t))) as [|]; [lia|]. cbn [negb] in H.
    unfold mret, K_ret in H. injection H as _ <-. by eapply framed_W.
  - rewrite Er, Z.eqb_refl in H. cbn [negb] in H.
    apply K_bind_Done in H as ([] & s4 & H4 & H). apply K_bind_Done in H as (s4' & ? & Hg & H).
    apply K_bind_Done in H as ([] & s5 & H5 & H). apply K_bind_Done in H as ([] & s6 & H6 & H).
    apply K_bind_Done in H as (t6 & ? & H7 & H). apply K_bind_Done in H as (s7 & ? & Hg' & H).
    apply K_bind_Done in H as ([] & s8 & H8 & H). apply K_bind_Done in H as ([] & s9 & H9 & H).
    unfold mret, K_ret in H. injection H as _ <-. eapply switch_task_W; [|exact H9].
    assert (Hr3 : rr_task s3 = rr_task s) by apply F3. rewrite <-Hr3 in F3, Hr.
    eapply (replaced_W (tree s) ring kids _ _ _ _ nq r.2 s3 tt s8 Hwf Hin Hi Hn Ha Hk eq_refl Enq B3 F3 Hr).
    do 6 (erewrite K_bind_step by eassumption). exact H8.
Qed.
End add.
