(* ===== verification/SyscallInv.v ===== *)
(** * The tasks over all entries into the kernel

    Every system call, interrupt and exception keeps the ring and the tree of
    tasks: the operations of SchedInv.v and ExecTree.v, reached through the
    switch of Syscalls.v and the handlers of Interrupts.v.  None of them masks,
    catches or ignores SIGKILL or SIGSTOP, which goes on from SignalEnds.v. *)

From S2P Require Import Prelude Pipe Paging Calendar Break Path Vfs Net Ip Udp Task Signal Tty Fbcon Fd Sched Elf Exec Syscalls Interrupts TaskTree SchedTree SchedLinks SchedInv FdCount FdSched FdRuns SignalEnds ExecTree.

(** ** Calls on descriptors *)

Section calls.
Context {FS N : Type}.
#[local] Notation kernel := (kernel FS N).
#[local] Notation W := (W (FS:=FS) (N:=N)).
Context (yield_current : K kernel unit) (Hyield : keeps W yield_current).
Ltac W_framed := apply keeps_W; intros; framed_tac.

Lemma keeps_W_raise sig : keeps W (raise sig).
Proof.
  intros s a s' HW H. eapply framed_W; [|exact HW]. eapply keeps_raise; [|apply framed_refl|exact H].
  destruct HW as [_ (n & Hn & Ha)]. intros n' Hn'. congruence.
Qed.
Lemma keeps_W_with_fd {A} (bad : A) n k : (∀ i d, keeps W (k i d)) → keeps W (with_fd bad n k).
Proof.
  intros Hk. unfold with_fd. keeps_step; [W_framed|]. keeps_step; [|apply keeps_ret].
  keeps_step; [apply keeps_get|apply Hk].
Qed.
Lemma keeps_W_retry {A} fuel i (try : K kernel (Z * A)) none : keeps W try → keeps W (retry yield_current fuel i try none).
Proof using Hyield.
  intros Ht. induction fuel as [|fuel IH]; cbn [retry]; [apply keeps_fail|].
  keeps_step; [exact Ht|]. keeps_step; [apply keeps_get|]. keeps_step; [apply keeps_ret|].
  keeps_step; [W_framed|]. keeps_step; [apply keeps_ret|]. keeps_step; [exact Hyield|exact IH].
Qed.
Lemma keeps_W_read fuel n size : keeps W (read yield_current fuel n size).
Proof using Hyield.
  unfold read. apply keeps_W_with_fd. intros i d. repeat (keeps_step; [apply keeps_ret|]). keeps_step.
  - keeps_step; [apply keeps_W_retry, keeps_W; intros; apply framed_read_at_offset|].
    keeps_step; [unfold advance; W_framed|apply keeps_ret].
  - apply keeps_W_retry, keeps_W; intros; apply framed_read_pipe.
Qed.
Lemma keeps_W_seek n o ty : keeps W (seek n o ty).
Proof. apply keeps_W. intros. apply framed_seek. Qed.
Lemma keeps_W_write steps n bytes : keeps W (write steps n bytes).
Proof.
  unfold write. apply keeps_W_with_fd. intros i d. repeat (keeps_step; [apply keeps_ret|]). keeps_step.
  - keeps_step; [keeps_step; [keeps_step; [apply keeps_W_seek|apply keeps_ret]|apply keeps_ret]|].
    unfold advance. W_framed.
  - keeps_step; [apply keeps_W; intros; apply framed_write_pipe|].
    keeps_step; [keeps_step; [keeps_step; [apply keeps_W_raise|apply keeps_ret]|apply keeps_ret]|apply keeps_ret].
Qed.
Lemma keeps_W_on_socket {A} i (op : socket_t → K (net N) (A * socket_t)) : keeps W (on_socket i op).
Proof. unfold on_socket, deref_socket. W_framed. Qed.
Lemma keeps_W_recvfrom fuel n len fl : keeps W (fd_recvfrom yield_current fuel n len fl).
Proof using Hyield.
  unfold fd_recvfrom, with_socket. cbv zeta. apply keeps_W_with_fd. intros i d. keeps_step; [apply keeps_ret|].
  apply keeps_W_retry, keeps_W_on_socket.
Qed.
Lemma keeps_W_with_socket {A} (fail : Z → A) n op : (∀ i, keeps W (op i)) → keeps W (with_socket fail n op).
Proof. intros Ho. unfold with_socket. apply keeps_W_with_fd. intros i d. keeps_step; [apply keeps_ret|apply Ho]. Qed.
End calls.

(** ** System calls *)

Section syscalls.
Context {FS N : Type}.
#[local] Notation kernel := (kernel FS N).
#[local] Notation machine := (machine FS N).
#[local] Notation W := (W (FS:=FS) (N:=N)).
#[local] Notation user := Syscalls.user.

Definition sound (s : machine) : Prop := W (kern s).
(** Only processes call the kernel; init does not replace itself, and a signal
    that stops tasks is not sent to a zombie. *)
Definition call_ok (f : iframe_t) (s : machine) : Prop :=
  let k := kern s in
  ∃ t, tasks k !! current_task k = Some t ∧ is_kworker (image t) = false ∧ 0 ≤ pid (ids t) ∧
    (rax f = 12 → current_task k ≠ INIT_TASK) ∧
    (rax f = 73 → stops (s32 (rsi f)) → no_zombie (selects (s32 (rdi f)) (current_task k) t) k).
Definition ready (f : iframe_t) (s : machine) : Prop := sound s ∧ call_ok f s.
(** From a state in which the call may be made, the run ends in a sound state. *)
Definition ends_sound (f : iframe_t) {A} (m : K machine A) : Prop :=
  ∀ s a s', ready f s → m s = Done (a, s') → sound s'.

Lemma on_kernel_run {A} (m : K kernel A) s a s' : on_kernel m s = Done (a, s') →
  ∃ k, m (kern s) = Done (a, k) ∧ s' = mk_machine k (vvar s) (screen s).
Proof. unfold on_kernel. destruct (m (kern s)) as [[x k]| | |]; intros H; simplify_eq. by exists k. Qed.
Lemma keeps_on_kernel {A} (m : K kernel A) : keeps W m → keeps sound (on_kernel m).
Proof. intros Hm s a s' Hs (k & H & ->)%on_kernel_run. by eapply Hm. Qed.
Lemma keeps_user {A} (m : K paging A) : keeps sound (user m).
Proof. apply keeps_on_kernel, keeps_W. intros. apply keeps_lift_tables. Qed.
Lemma keeps_on_screen {A} (m : K fbcon A) : keeps sound (on_screen m).
Proof. intros s a s' Hs H. unfold on_screen in H. destruct (m (screen s)) as [[x k]| | |]; simplify_eq. exact Hs. Qed.
Lemma ready_user {A} f (m : K paging A) : keeps (ready f) (user m).
Proof.
  intros s a s' [Hs Hc] H. split; [by eapply keeps_user|]. apply on_kernel_run in H as (k & H & ->).
  apply lift_tables_Done in H as [pg ->]. exact Hc.
Qed.

Section calls.
Context (f : iframe_t).
#[local] Notation E := (ends_sound f).

Lemma ends_keeps {A} (m : K machine A) : keeps sound m → E m.
Proof. intros Hm s a s' [Hs _] H. by eapply Hm. Qed.
Lemma ends_ret {A} (a : A) : E (mret a).
Proof. apply ends_keeps, keeps_ret. Qed.
Lemma ends_user_bind {A B} (m : K paging A) (k : A → K machine B) : (∀ a, E (k a)) → E (user m ≫= k).
Proof. intros Hk s b s' Hs (a & s1 & H1 & H)%K_bind_Done. eapply Hk; [|exact H]. by eapply ready_user. Qed.
Lemma ends_get_bind {B} (k : machine → K machine B) : (∀ a, E (k a)) → E (kget ≫= k).
Proof. intros Hk s b s' Hs H. exact (Hk s s b s' Hs H). Qed.
Lemma ends_checked c k : E k → E (checked c k).
Proof. intros Hk. unfold checked. apply ends_user_bind. intros r. destruct (r <? 0); [apply ends_ret|exact Hk]. Qed.
Lemma ends_string p k : E k → E (with_string p k).
Proof. apply ends_checked. Qed.
Lemma ends_pointer p len w k : E k → E (with_pointer p len w k).
Proof. apply ends_checked. Qed.
Lemma ends_given p guard k : E k → (E k → E (guard k)) → E (if_given p guard k).
Proof. intros Hk Hg. unfold if_given. destruct (p =? NULL); auto. Qed.
Lemma ends_kernel_bind {A B} (m : K kernel A) (k : A → K machine B) :
  keeps W m → (∀ a, keeps sound (k a)) → E (on_kernel m ≫= k).
Proof. intros Hm Hk. apply ends_keeps, keeps_bind; [by apply keeps_on_kernel|exact Hk]. Qed.
Lemma ends_returns m : keeps W m → E (returns m).
Proof. intros Hm. by apply ends_kernel_bind; [|intros; apply keeps_ret]. Qed.
Lemma ends_leaves m : keeps W m → E (leaves m).
Proof. intros Hm. by apply ends_kernel_bind; [|intros; apply keeps_ret]. Qed.
Lemma ends_stores m p : keeps W m → E (stores m p).
Proof.
  intros Hm. apply ends_kernel_bind; [exact Hm|]. intros r. keeps_step; [apply keeps_user|apply keeps_ret].
Qed.
Lemma ends_stores_if {A} ok (bytes : A → list Z) m p : keeps W m → E (stores_if ok bytes m p).
Proof. intros Hm. apply ends_stores. keeps_step; [exact Hm|apply keeps_ret]. Qed.
Lemma ends_path p op : (∀ path, keeps W (op path)) → E (on_path p op).
Proof. intros Ho. apply ends_string, ends_user_bind. intros path. by apply ends_returns. Qed.
Lemma ends_paths p q op : (∀ a b, keeps W (op a b)) → E (on_paths p q op).
Proof. intros Ho. apply ends_string, ends_string, ends_user_bind. intros a. apply ends_user_bind. intros b. by apply ends_returns. Qed.
End calls.

(** *** The calls one by one *)

Section table.
Context (check_nx_support : bool) (stack_bytes : buffer_site → Z → list Z) (vvar_paddr : Z).
Context (yield_current : K kernel unit) (Hyield : keeps W yield_current) (steps : list env_step) (fuel : nat).
Context (net_uptime : K N Z) (net_signals : K N bool) (net_yield : K (net N) unit)
  (byte_behind : K N Z) (stat_rdev : list Z → K N Z).
Context (block_ioctl char_ioctl : block_device_t → Z → Z → K FS Z).
Context (f : iframe_t).
#[local] Notation E := (ends_sound f).
#[local] Notation dispatch := (dispatch check_nx_support stack_bytes vvar_paddr yield_current steps fuel
  net_uptime net_signals net_yield byte_behind stat_rdev block_ioctl char_ioctl).
#[local] Notation syscall := (syscall check_nx_support stack_bytes vvar_paddr yield_current steps fuel
  net_uptime net_signals net_yield byte_behind stat_rdev block_ioctl char_ioctl).

Lemma keeps_W_frame {A} (m : K kernel A) : (∀ T c r b, keeps (framed T c r b) m) → keeps W m.
Proof. apply keeps_W. Qed.
Lemma keeps_lift_brk m : keeps W (lift_brk m).
Proof.
  unfold lift_brk. keeps_step; [apply keeps_W; intros; framed_tac|]. keeps_step; [apply keeps_get|].
  destruct (m _) as [[r b]| | |]; [|apply keeps_fail..]. apply keeps_W. intros. framed_tac.
Qed.
Lemma keeps_W_run_next g : keeps W (run_next g).
Proof. intros s a s' HW H. by eapply run_next_W. Qed.

(** The program that starts a call is a process. *)
Lemma ready_process s : ready f s → process_running (kern s).
Proof. intros [_ (t & Et & Hk & _)]. exists (node_of t). split; [by apply tree_lookup|exact Hk]. Qed.
Lemma ends_fork g : E (leaves (fork g;; mret tt)).
Proof.
  intros s o s' Hs (? & s1 & (k & H & ->)%on_kernel_run & Hr)%K_bind_Done. unfold mret, K_ret in Hr. injection Hr as _ <-.
  apply K_bind_Done in H as (p & k1 & H & Hr). unfold mret, K_ret in Hr. simplify_eq.
  eapply keeps_fork; [apply Hs|by apply ready_process|exact H].
Qed.
Lemma ends_spawn failed path argv envp actions g :
  E (leaves_unless failed (spawn check_nx_support stack_bytes vvar_paddr path argv envp actions g)).
Proof.
  intros s o s' Hs (r & s1 & (k & H & ->)%on_kernel_run & Hr)%K_bind_Done. unfold mret, K_ret in Hr. injection Hr as _ <-.
  eapply keeps_spawn; [apply Hs|by apply ready_process|exact H].
Qed.
Lemma ends_execve path argv envp g : rax f = 12 →
  E (sys_execve check_nx_support stack_bytes vvar_paddr path argv envp g).
Proof.
  intros Hf. unfold sys_execve. apply ends_string. intros s o s' Hs H.
  apply K_bind_Done in H as (r & s1 & H & Hr). unfold mret, K_ret in Hr. injection Hr as _ <-.
  apply K_bind_Done in H as (r' & s2 & (k & H & ->)%on_kernel_run & Hr). unfold mret, K_ret in Hr. injection Hr as _ <-.
  destruct Hs as [Hs (t & Et & Hk & Hp & Hi & _)]. eapply keeps_execve; [exact Hs|by apply Hi|exact Et|done|done|exact H].
Qed.
Lemma ends_kill : rax f = 73 → E (returns (kill (s32 (rdi f)) (s32 (rsi f)))).
Proof.
  intros Hf s o s' Hs (r & s1 & (k & H & ->)%on_kernel_run & Hr)%K_bind_Done. unfold mret, K_ret in Hr. injection Hr as _ <-.
  destruct Hs as [Hs (t & Et & _ & _ & _ & Hz)]. eapply framed_W; [|exact Hs].
  eapply framed_kill; [apply framed_refl| |exact H]. intros Hst t' Et'. assert (t' = t) as -> by congruence. by apply Hz.
Qed.
Lemma ends_waitpid k ws o : E (sys_waitpid k ws o).
Proof.
  unfold sys_waitpid. apply ends_given; [|apply ends_pointer].
  all: apply ends_kernel_bind; [apply keeps_waitpid|intros; apply keeps_ret].
Qed.
Lemma ends_sigreturn : E sys_sigreturn.
Proof.
  unfold sys_sigreturn. apply ends_kernel_bind; [apply keeps_W; intros; apply keeps_current|]. intros t.
  keeps_step; apply keeps_bind; [apply keeps_on_kernel, keeps_sigreturn|intros; apply keeps_ret| |intros; apply keeps_ret].
  apply keeps_on_kernel. keeps_step; [apply keeps_sigreturn|apply keeps_ret].
Qed.
Lemma ends_recvfrom n p len fl addr : E (sys_recvfrom yield_current fuel n p len fl addr).
Proof using Hyield.
  unfold sys_recvfrom. apply ends_pointer, ends_pointer, ends_kernel_bind; [by apply keeps_W_recvfrom|].
  intros [r [b from]]. keeps_step; [apply keeps_user|]. keeps_step; [|apply keeps_ret].
  keeps_step; [apply keeps_user|apply keeps_ret].
Qed.
Lemma ends_sendto n p len fl addr :
  E (sys_sendto fuel net_uptime net_signals net_yield byte_behind n p len fl addr).
Proof.
  unfold sys_sendto. do 2 apply ends_pointer. apply ends_user_bind. intros b. apply ends_user_bind. intros a.
  apply ends_returns. unfold fd_sendto. apply keeps_W_with_socket. intros i. apply keeps_W_on_socket.
Qed.
Lemma ends_bind n addr : E (sys_bind n addr).
Proof.
  unfold sys_bind. apply ends_pointer, ends_user_bind. intros a. apply ends_returns.
  unfold fd_bind. apply keeps_W_with_socket. intros i. apply keeps_W_on_socket.
Qed.
Lemma ends_write n p len : E (sys_write steps n p len).
Proof.
  unfold sys_write. apply ends_pointer, ends_user_bind. intros b. apply ends_returns, keeps_W_write.
Qed.
Lemma ends_mount source target type flags : E (sys_mount source target type flags).
Proof.
  unfold sys_mount.
  assert (Hk : E (src ← user (user_opt source user_path); path ← user (user_path target);
    ty ← user (user_opt type user_path); returns (lift_vfs (mount_filesystem src path ty (s32 flags))))).
  { do 3 (apply ends_user_bind; intros ?). apply ends_returns, keeps_W. intros. apply keeps_lift_vfs. }
  assert (Ht : E (if_given type (checked (validate_user_string type 32))
    (src ← user (user_opt source user_path); path ← user (user_path target);
     ty ← user (user_opt type user_path); returns (lift_vfs (mount_filesystem src path ty (s32 flags))))))
    by (apply ends_given; [exact Hk|apply ends_checked]).
  apply ends_given; [|apply ends_string]; by apply ends_string.
Qed.
Lemma ends_getcwd p len : E (sys_getcwd p len).
Proof.
  unfold sys_getcwd. apply ends_pointer, ends_kernel_bind; [apply keeps_W; intros; apply keeps_lift_vfs|].
  intros w. keeps_step; [apply keeps_user|]. keeps_step; [apply keeps_user|apply keeps_ret].
Qed.
Lemma ends_setfont p : E (sys_setfont p).
Proof.
  unfold sys_setfont. apply ends_pointer, ends_user_bind. intros font. apply ends_keeps.
  keeps_step; [apply keeps_on_screen|apply keeps_ret].
Qed.

Lemma find_call_In {A} n (l : list (Z * A)) a : find_call n l = Some a → (n, a) ∈ l.
Proof using.
  induction l as [|[k x] l IH]; [done|]. cbn [find_call]. destruct (Z.eqb_spec k n) as [->|].
  - intros [= ->]. apply list_elem_of_here.
  - intros H%IH. by apply list_elem_of_further.
Qed.

(** Calls that only touch the frame of the task tables. *)
Lemma keeps_W_pipe : keeps W pipe.
Proof. apply keeps_W. intros. apply framed_pipe. Qed.
(** Calls that only look at the ring. *)
Lemma keeps_W_find_task p : keeps W (find_task p).
Proof. apply keeps_W. intros. apply keeps_for_tasks. intros q o. framed_tac. Qed.
Lemma keeps_W_getpgid k : keeps W (getpgid k).
Proof.
  unfold getpgid. keeps_step; [apply keeps_W; intros; apply keeps_current|].
  keeps_step; [apply keeps_W_find_task|apply keeps_ret].
Qed.
Lemma keeps_W_getsid k : keeps W (getsid k).
Proof.
  unfold getsid. keeps_step; [apply keeps_W; intros; apply keeps_current|].
  keeps_step; [apply keeps_W_find_task|apply keeps_ret].
Qed.
Lemma keeps_W_readdir n : keeps W (fd_readdir n).
Proof.
  unfold fd_readdir, advance. cbv zeta. apply keeps_W_with_fd. intros i d. apply keeps_W. intros. framed_tac.
Qed.
Lemma ends_sleep ms : E (if ms =? 0 then returns (mret 0) else leaves (sleep ms)).
Proof.
  destruct (ms =? 0); [apply ends_returns, keeps_ret|apply ends_leaves, keeps_sleep].
Qed.
Lemma ends_add_route d g m i : E (sys_add_route stat_rdev d g m i).
Proof.
  unfold sys_add_route. do 3 apply ends_pointer. apply ends_string. do 4 (apply ends_user_bind; intros ?).
  apply ends_kernel_bind; [apply keeps_W; intros; apply keeps_lift_net|intros; apply keeps_ret].
Qed.
Lemma ends_remove_route d m : E (sys_remove_route d m).
Proof.
  unfold sys_remove_route. do 2 apply ends_pointer. do 2 (apply ends_user_bind; intros ?).
  apply ends_kernel_bind; [apply keeps_W; intros; apply keeps_lift_net|intros; apply keeps_ret].
Qed.
Lemma ends_ping d t : E (sys_ping fuel net_uptime net_signals net_yield d t).
Proof.
  unfold sys_ping. apply ends_pointer, ends_user_bind. intros b.
  apply ends_returns, keeps_W. intros. apply keeps_lift_net.
Qed.
Lemma ends_truncate p size : E (sys_truncate p size).
Proof. apply ends_path. intros path. apply keeps_W. intros. framed_tac. Qed.

Ltac W_call := first
  [ apply keeps_exit | apply keeps_W_run_next | apply keeps_W_readdir | apply keeps_W_getpgid | apply keeps_W_getsid
  | apply keeps_W; intros; framed_tac; fail
  | apply keeps_W; intros; first
      [ apply framed_fd_open | apply framed_fcntl | apply framed_dup2 | apply framed_socket | apply framed_seek
      | apply keeps_setpgid | apply keeps_setsid | apply keeps_sigaction | apply keeps_sigprocmask
      | apply keeps_fd_close ]
  | apply keeps_W_raise | apply keeps_lift_brk | by apply keeps_W_read
  | apply keeps_W_with_socket; intros; apply keeps_W_on_socket
  | apply keeps_W_with_fd; intros; apply keeps_W; intros; framed_tac; fail ].
Ltac call_step := lazymatch goal with
  | |- E (on_path _ _) => apply ends_path; intros ?; W_call
  | |- E (on_paths _ _ _) => apply ends_paths; intros ? ?; W_call
  | |- E (with_pointer _ _ _ _) => apply ends_pointer
  | |- E (with_string _ _) => apply ends_string
  | |- E (if_given _ _ _) => apply ends_given; [|apply ends_pointer]
  | |- E (returns _) => apply ends_returns; W_call
  | |- E (leaves _) => apply ends_leaves; W_call
  | |- E (stores_if _ _ _ _) => apply ends_stores_if; W_call
  | |- E (stores _ _) => apply ends_stores; W_call
  | |- E (user _ ≫= _) => apply ends_user_bind; intros ?
  | |- E (kget ≫= _) => apply ends_get_bind; intros ?
  | |- E (mret _) => apply ends_ret
  | |- E kpanic => apply ends_keeps, keeps_fail
  | |- E (sys_getcwd _ _) => apply ends_getcwd
  | |- E (sys_ping _ _ _ _ _ _) => apply ends_ping
  | |- E (sys_add_route _ _ _ _ _) => apply ends_add_route
  | |- E (sys_remove_route _ _) => apply ends_remove_route
  | |- E (sys_mount _ _ _ _) => apply ends_mount
  | |- E (sys_write _ _ _ _) => apply ends_write
  | |- E (sys_waitpid _ _ _) => apply ends_waitpid
  | |- E (sys_setfont _) => apply ends_setfont
  | |- E (sys_bind _ _) => apply ends_bind
  | |- E (sys_recvfrom _ _ _ _ _ _ _) => by apply ends_recvfrom
  | |- E (sys_sendto _ _ _ _ _ _ _ _ _ _) => apply ends_sendto
  | |- E (sys_truncate _ _) => apply ends_truncate
  | |- E sys_sigreturn => apply ends_sigreturn
  | |- E (leaves_unless _ _) => apply ends_spawn
  end.

(** Every entry of the table; [rax] is the number under which it is called. *)
Lemma table_sound : Forall (λ e, rax f = e.1 → E (e.2 (args_of f)))
  (syscall_table check_nx_support stack_bytes vvar_paddr yield_current steps fuel
     net_uptime net_signals net_yield byte_behind stat_rdev block_ioctl char_ioctl f).
Proof using Hyield.
  unfold syscall_table, args_of.
  repeat (apply Forall_cons; split; [cbn [fst snd arg1 arg2 arg3 arg4 arg5 arg6]; intros Hn|]);
    [..|by apply Forall_nil].
  all: try (repeat call_step; fail).
  - apply ends_returns. unfold getppid. apply keeps_W. intros. framed_tac.
  - apply ends_fork.
  - by apply ends_execve.
  - apply ends_returns. unfold getpid. apply keeps_W. intros. framed_tac.
  - apply ends_sleep.
  - apply ends_pointer, ends_stores. keeps_step; [apply keeps_W_pipe|apply keeps_ret].
  - by apply ends_kill.
Qed.
Lemma find_call_Forall {A} n (P : A → Prop) (l : list (Z * A)) a :
  Forall (λ e, n = e.1 → P e.2) l → find_call n l = Some a → P a.
Proof using. intros Hl H%find_call_In. rewrite Forall_forall in Hl. by apply (Hl (n, a) H). Qed.
Lemma dispatch_sound : E (dispatch (rax f) (args_of f) f).
Proof using Hyield.
  unfold dispatch. destruct (find_call _ _) as [call|] eqn:Ec; [|apply ends_ret].
  exact (find_call_Forall _ (λ call, E (call (args_of f))) _ _ table_sound Ec).
Qed.

(** Saving the registers of the caller leaves a call possible. *)
Lemma ready_context g : keeps (ready f) (on_kernel (update_current (with_context g))).
Proof.
  intros s a s' [Hs (t & Et & Hk & Hp & Hi & Hz)] (k & H & ->)%on_kernel_run. split.
  - refine ((_ : keeps W _) _ a k Hs H). apply keeps_W. intros. framed_tac.
  - pose proof H as (t0 & Et0 & Hk')%update_current_Done. assert (t0 = t) as -> by congruence.
    exists (with_context g t). unfold kern. split_and!; [|exact Hk|exact Hp| |].
    + rewrite Hk'. cbn. by rewrite lookup_insert_eq.
    + rewrite Hk'. exact Hi.
    + intros Hf Hst. specialize (Hz Hf Hst). replace (current_task k) with (current_task (kern s)) by (by rewrite Hk').
      unfold update_current in H. apply K_bind_Done in H as (x & s1 & Hg & H). unfold kget in Hg. injection Hg as <- <-.
      change (selects _ _ (with_context g t)) with (selects (s32 (rdi f)) (current_task (kern s)) t).
      revert Hz H. apply keeps_no_zombie; [apply selects_by_ids|intros t1; by split; [|left]].
Qed.
Lemma keeps_finish : keeps W finish_syscall.
Proof.
  unfold finish_syscall. keeps_step; [apply keeps_W; intros; apply keeps_current|]. keeps_step; [apply keeps_get|].
  cbv zeta. repeat (keeps_step; [apply keeps_run_next_current|]).
  keeps_step; [keeps_step; [apply keeps_deliver|apply keeps_ret]|].
  keeps_step; [apply keeps_ret|]. keeps_step; [apply keeps_W; intros; apply keeps_current|].
  keeps_step; [apply keeps_run_next_current|apply keeps_ret].
Qed.
Lemma syscall_sound s a s' : ready f s → syscall f s = Done (a, s') → sound s'.
Proof using Hyield.
  intros Hs (? & s1 & H1 & H)%K_bind_Done. apply ready_context in H1; [|exact Hs].
  apply K_bind_Done in H as (? & s2 & H2 & H). assert (H3 : ready f s2).
  { apply on_kernel_run in H2 as (k & H2 & ->). apply K_bind_Done in H2 as (y & k1 & Hg & H2).
    unfold kget in Hg. injection Hg as <- <-. eapply (ready_context (set_fpu_state (fpu (kern s1))) s1); [exact H1|].
    unfold on_kernel. by rewrite H2. }
  apply K_bind_Done in H as (ret & s3 & Hd & H). apply dispatch_sound in Hd; [|exact H3].
  revert Hd H. generalize s3, a, s'. change (keeps sound (match ret with
    | None => mret tt
    | Some ret => on_kernel (update_current (with_iframe (set_rax (u64 ret))));; on_kernel finish_syscall end)).
  keeps_step; [|apply keeps_ret]. keeps_step; apply keeps_on_kernel; [apply keeps_W; intros; framed_tac|apply keeps_finish].
Qed.

(** *** Interrupts and exceptions *)

Context (report_fault : Z → list Z → K kernel unit) (device_irq : Z → K kernel unit)
  (breakpoint_debugger : iframe_t → K kernel unit).
Context (Hreport : ∀ v text, keeps W (report_fault v text)) (Hdevice : ∀ irq, keeps W (device_irq irq))
  (Hdebugger : ∀ f, keeps W (breakpoint_debugger f)).
#[local] Notation interrupt_handler := (interrupt_handler syscall report_fault device_irq breakpoint_debugger).

Lemma keeps_W_deliver_last : keeps W (deliver_signals;; mret tt).
Proof. keeps_step; [apply keeps_deliver|apply keeps_ret]. Qed.
Lemma keeps_signal_fault v text sig : keeps W (report_fault v text;; raise sig;; deliver_signals;; mret tt).
Proof using Hreport.
  keeps_step; [apply Hreport|]. keeps_step; [apply keeps_W_raise|apply keeps_W_deliver_last].
Qed.
Lemma keeps_irq irq g : keeps sound (irq_handler device_irq irq g).
Proof using Hdevice.
  unfold irq_handler. keeps_step; [by apply keeps_on_kernel|]. keeps_step; [|apply keeps_ret].
  unfold irq0_handler. keeps_step.
  - intros s0 u s1 Hs H. unfold pit_tick_step, kmodify in H. injection H as <- <-. exact Hs.
  - apply keeps_on_kernel. keeps_step; [apply keeps_W; intros; apply keeps_check_blocked_tasks|].
    keeps_step; [apply keeps_W; intros; framed_tac|]. keeps_step; [apply keeps_get|].
    keeps_step; [apply keeps_W; intros; apply keeps_current|]. keeps_step; [|apply keeps_ret].
    keeps_step; [apply keeps_W_run_next|apply keeps_ret].
Qed.
Lemma interrupt_sound cr2 s a s' :
  sound s → (vector f = 128 → call_ok f s) → interrupt_handler f cr2 s = Done (a, s') → sound s'.
Proof using All.
  intros Hs Hc (x0 & s1 & H1 & H)%K_bind_Done. assert (H2 : sound s1 ∧ (vector f = 128 → call_ok f s1)).
  { destruct (cs f =? USER_CS); [|unfold mret, K_ret in H1; by injection H1 as _ <-].
    assert (Hk : keeps W (update_current (with_iframe (λ _, f));; save_fpu)).
    { keeps_step; [|unfold save_fpu; keeps_step; [apply keeps_get|]]; apply keeps_W; intros; framed_tac. }
    split; [by eapply keeps_on_kernel|]. intros Hv.
    apply on_kernel_run in H1 as (k & (y & k1 & H1 & H2)%K_bind_Done & ->).
    apply K_bind_Done in H2 as (z & k2 & Hg & H2). unfold kget in Hg. injection Hg as <- <-.
    assert (Hr : ready f (mk_machine k1 (vvar s) (screen s))).
    { eapply ready_context; [exact (conj Hs (Hc Hv))|]. unfold on_kernel. unfold with_iframe in H1. by rewrite H1. }
    eapply ready_context; [exact Hr|]. unfold on_kernel, kern. by rewrite H2. }
  clear Hs Hc H1. destruct H2 as [Hs Hc]. cbv beta in H. destruct (Z.eqb_spec (vector f) 128) as [Ev|Hv].
  { rewrite Ev in H. change (serious 128) with false in H. cbn in H. eapply syscall_sound; [|exact H]. split; [exact Hs|by apply Hc]. }
  clear Hc. refine ((_ : keeps sound _) s1 a s' Hs H).
  destruct (vector f =? 14); [|destruct (vector f =? 13); [|destruct (vector f =? 3); [|
    destruct (serious (vector f)); [|destruct (vector f <? 32)]]]].
  - keeps_step; [keeps_step; [keeps_step; [apply keeps_user|apply keeps_ret]|apply keeps_ret]|].
    keeps_step; [apply keeps_ret|]. keeps_step; [apply keeps_on_kernel, keeps_signal_fault|apply keeps_fail].
  - keeps_step; [apply keeps_on_kernel, keeps_signal_fault|apply keeps_fail].
  - apply keeps_on_kernel. keeps_step; [apply Hdebugger|]. keeps_step; [apply keeps_W_deliver_last|apply keeps_ret].
  - apply keeps_fail.
  - keeps_step; [|apply keeps_fail]. apply keeps_on_kernel. keeps_step; [apply Hreport|].
    keeps_step; [keeps_step; [apply keeps_W_raise|apply keeps_W_deliver_last]|apply keeps_exit].
  - keeps_step; [apply keeps_irq|]. keeps_step; [apply keeps_on_kernel, keeps_W_deliver_last|apply keeps_ret].
Qed.
End table.
End syscalls.

(** ** Masks and handlers over all entries *)

Section masks.
Context {FS N : Type}.
#[local] Notation kernel := (kernel FS N).
Context (check_nx_support : bool) (stack_bytes : buffer_site → Z → list Z) (vvar_paddr : Z).
#[local] Notation P := (every (FS:=FS) (N:=N) unblockable).
Hint Resolve every_find_sibling every_release every_reparent every_switch_task every_link_task every_new_object
  every_share_fds every_run_next every_exit every_raise every_kill every_sigaction every_sigprocmask : keeps.

Lemma every_as_task {A} p (m : K kernel A) : keeps P m → keeps P (as_task p m).
Proof. intros Hm. unfold as_task. every_tac. Qed.
Lemma every_dup2 n n' : keeps P (dup2 n n').
Proof.
  unfold dup2, fd_close, with_fd, lookup_fd, share, drop_description, close_file_description, update_description,
    close_socket, deref_socket, remove_pipe_end, deref_pipe. every_tac.
Qed.
Lemma every_setpgid p g : keeps P (setpgid p g).
Proof. unfold setpgid, get_child, find_task. every_tac. Qed.
Lemma every_setsid : keeps P setsid.
Proof. unfold setsid. every_tac. Qed.
Lemma every_run_action new p a : keeps P (run_action new p a).
Proof.
  unfold run_action. every_tac; apply every_as_task;
    [apply every_dup2|apply every_sigprocmask|apply every_setpgid|apply every_setsid].
Qed.
Hint Resolve every_run_action every_dup2 every_setpgid every_setsid : keeps.
Lemma every_run_actions n new p : ∀ v, keeps P (run_actions n new p v).
Proof. induction n as [|n IH]; intros v; cbn [run_actions]; every_tac. Qed.
Lemma every_close_cloexec n new : ∀ i, keeps P (close_cloexec n i new).
Proof.
  induction n as [|n IH]; intros i; cbn [close_cloexec]; unfold drop_description, close_file_description,
    update_description, close_socket, deref_socket, remove_pipe_end, deref_pipe; every_tac.
Qed.
Lemma every_load_segments h l : ∀ brk, keeps P (load_segments check_nx_support h l brk).
Proof. induction l as [|ph l IH]; intros brk; cbn [load_segments]; unfold load_segment; every_tac. Qed.
Hint Resolve every_run_actions every_close_cloexec every_load_segments : keeps.
Lemma every_load_image new path : keeps P (load_image check_nx_support stack_bytes new path).
Proof. unfold load_image, load_elf, is_compatible_binary, is_elf, read_local. every_tac. Qed.
Hint Resolve every_load_image : keeps.
Lemma every_become new p path argv envp v n f :
  keeps P (become check_nx_support stack_bytes vvar_paddr new p path argv envp v n f).
Proof. unfold become, make_stack. every_tac. Qed.
(** The copy has the mask and the handlers of the task that is copied. *)
Lemma every_copy_task p : keeps P (copy_task p).
Proof.
  unfold copy_task. keeps_step; [every_tac|]. apply every_current_bind. intros t Ht.
  keeps_step; [every_tac|]. keeps_step; [every_tac|]. keeps_step; [|every_tac].
  apply keeps_modify. intros s Hs. by apply every_insert.
Qed.
Lemma every_delete p : keeps P (kmodify (λ s, set_tasks (delete p (tasks s)) s)).
Proof. apply keeps_modify. intros s Hs q tq E. cbn [tasks set_tasks] in E. apply lookup_delete_Some in E as [_ E]. by eapply Hs. Qed.
Hint Resolve every_become every_copy_task every_delete : keeps.
Lemma every_add_task path argv envp q p actions f :
  keeps P (add_task check_nx_support stack_bytes vvar_paddr path argv envp q p actions f).
Proof.
  unfold add_task, count_strings, count_actions, copy_vector. 
  repeat (first [apply every_delete|every_step]); auto with keeps nocore.
Qed.
Hint Resolve every_add_task : keeps.
Lemma every_spawn path argv envp actions f :
  keeps P (spawn check_nx_support stack_bytes vvar_paddr path argv envp actions f).
Proof. unfold spawn, next_pid. every_tac. Qed.
Lemma every_execve path argv envp f : keeps P (execve check_nx_support stack_bytes vvar_paddr path argv envp f).
Proof. unfold execve, retarget_waits. every_tac. Qed.

(** *** Calls on descriptors *)

Context (yield_current : K kernel unit) (Hyield : keeps P yield_current) (steps : list env_step).
Lemma every_with_fd {A} (bad : A) n k : (∀ i d, keeps P (k i d)) → keeps P (with_fd bad n k).
Proof. intros Hk. unfold with_fd, lookup_fd. every_tac. Qed.
Lemma every_retry {A} fuel i (try : K kernel (Z * A)) none : keeps P try → keeps P (retry yield_current fuel i try none).
Proof using Hyield. intros Ht. induction fuel as [|fuel IH]; cbn [retry]; every_tac. Qed.
Lemma every_on_socket {A} i (op : socket_t → K (net N) (A * socket_t)) : keeps P (on_socket i op).
Proof. unfold on_socket, deref_socket. every_tac. Qed.
Lemma every_with_socket {A} (fail : Z → A) n op : (∀ i, keeps P (op i)) → keeps P (with_socket fail n op).
Proof. intros Ho. unfold with_socket. apply every_with_fd. every_tac. Qed.
Hint Resolve every_on_socket every_fork every_spawn every_execve : keeps.
Ltac every_fd :=
  unfold fd_open, open_stat, open_description, fd_close, read, read_at_offset, read_pipe, write, write_pipe, seek,
    tell, fd_readdir, advance, fd_ioctl, fstat, ftruncate, fcntl, dup, pipe, fd_socket, fd_bind, fd_unbind, fd_recvfrom,
    fd_sendto, share, drop_description, close_file_description, update_description, close_socket, deref_socket,
    remove_pipe_end, deref_pipe; cbv zeta;
  repeat first [every_step|apply every_with_socket; intros ?|apply every_with_fd; intros ? ?|apply every_retry];
  auto with keeps nocore.
Lemma every_lift_brk m : keeps P (lift_brk m).
Proof. unfold lift_brk. every_tac. Qed.
Lemma every_sleep ms : keeps P (sleep ms).
Proof. unfold sleep, block_current, run_next_current. every_tac. Qed.
Lemma every_getpgid k : keeps P (getpgid k).
Proof. unfold getpgid, find_task. every_tac. Qed.
Lemma every_getsid k : keeps P (getsid k).
Proof. unfold getsid, find_task. every_tac. Qed.
Lemma every_getpid : keeps P getpid.
Proof. unfold getpid. every_tac. Qed.
Lemma every_getppid : keeps P getppid.
Proof. unfold getppid. every_tac. Qed.
Lemma every_sigreturn : keeps P sigreturn.
Proof. unfold sigreturn, deliver_signals, resume, restore_fpu. every_tac. apply every_deliver, every_exit. Qed.
Hint Resolve every_lift_brk every_sleep every_getpgid every_getsid every_getpid every_getppid every_sigreturn
  every_waitpid : keeps.

(** *** System calls *)

#[local] Notation machine := (machine FS N).
Definition masked (s : machine) : Prop := P (kern s).
Lemma masked_kernel {A} (m : K kernel A) : keeps P m → keeps masked (on_kernel m).
Proof using. intros Hm s a s' Hs (k & H & ->)%on_kernel_run. by eapply Hm. Qed.
Lemma masked_screen {A} (m : K fbcon A) : keeps masked (on_screen m).
Proof using. intros s a s' Hs H. unfold on_screen in H. destruct (m (screen s)) as [[x k]| | |]; simplify_eq. exact Hs. Qed.

Context (fuel : nat) (net_uptime : K N Z) (net_signals : K N bool) (net_yield : K (net N) unit)
  (byte_behind : K N Z) (stat_rdev : list Z → K N Z).
Context (block_ioctl char_ioctl : block_device_t → Z → Z → K FS Z).
#[local] Notation syscall_table := (syscall_table check_nx_support stack_bytes vvar_paddr yield_current steps fuel
  net_uptime net_signals net_yield byte_behind stat_rdev block_ioctl char_ioctl).
#[local] Notation syscall := (syscall check_nx_support stack_bytes vvar_paddr yield_current steps fuel
  net_uptime net_signals net_yield byte_behind stat_rdev block_ioctl char_ioctl).

Ltac masked_call :=
  unfold sys_getcwd, sys_mount, sys_add_route, sys_remove_route, sys_setfont, sys_truncate, sys_execve, sys_waitpid,
    sys_sigreturn, sys_recvfrom, sys_sendto, sys_bind, sys_write, sys_ping, on_path, on_paths, if_given,
    with_string, with_pointer, checked, user, stores_if, stores, returns, leaves, leaves_unless;
  repeat first [keeps_step|apply masked_kernel|apply masked_screen].
Lemma table_masked f : Forall (λ e, ∀ a, keeps masked (e.2 a)) (syscall_table f).
Proof.
  unfold syscall_table. repeat (apply Forall_cons; split; [cbn [snd]; intros a; masked_call|]); [..|by apply Forall_nil].
  all: auto with keeps nocore.
  all: try (every_fd; fail).
Qed.
Lemma dispatch_masked f : keeps masked (dispatch check_nx_support stack_bytes vvar_paddr yield_current steps fuel
  net_uptime net_signals net_yield byte_behind stat_rdev block_ioctl char_ioctl (rax f) (args_of f) f).
Proof using Hyield.
  unfold dispatch. destruct (find_call _ _) as [call|] eqn:Ec; [|apply keeps_ret].
  apply find_call_In in Ec. pose proof (table_masked f) as Ht. rewrite Forall_forall in Ht. exact (Ht (_, call) Ec _).
Qed.
Lemma every_finish : keeps P finish_syscall.
Proof.
  unfold finish_syscall, deliver_signals, run_next_current. cbv zeta. every_tac. apply every_deliver, every_exit.
Qed.
Lemma syscall_masked f : keeps masked (syscall f).
Proof using Hyield.
  unfold syscall, save_fpu. repeat first [keeps_step|apply masked_kernel|apply dispatch_masked|progress every_tac]; apply every_finish.
Qed.

(** *** Interrupts and exceptions *)

Context (report_fault : Z → list Z → K kernel unit) (device_irq : Z → K kernel unit)
  (breakpoint_debugger : iframe_t → K kernel unit).
Context (Hreport : ∀ v text, keeps P (report_fault v text)) (Hdevice : ∀ irq, keeps P (device_irq irq))
  (Hdebugger : ∀ f, keeps P (breakpoint_debugger f)).
Lemma every_deliver_signals : keeps P deliver_signals.
Proof using. apply every_deliver, every_exit. Qed.
Hint Resolve every_deliver_signals every_check_blocked every_finish : keeps.
Lemma interrupt_masked f cr2 : keeps masked (interrupt_handler syscall report_fault device_irq breakpoint_debugger f cr2).
Proof using All.
  unfold interrupt_handler, irq_handler, irq0_handler, save_fpu. cbv zeta.
  repeat first [keeps_step|apply masked_kernel|apply syscall_masked|progress every_tac].
  apply keeps_modify. intros s Hs. exact Hs.
Qed.
End masks.

(** ** Runs of the kernel

    What can happen to a kernel that is up: an entry from a program or a device,
    with its frame and the address of a page fault, or a step of its own tasks. *)

Inductive event :=
| Enter (f : iframe_t) (cr2 : Z)
| Work (o : sched_op).

Section entries.
Context {FS N : Type}.
#[local] Notation kernel := (kernel FS N).
#[local] Notation machine := (machine FS N).
Context (check_nx_support : bool) (stack_bytes : buffer_site → Z → list Z) (vvar_paddr : Z).
Context (yield_current : K kernel unit) (steps : list env_step) (fuel : nat).
Context (net_uptime : K N Z) (net_signals : K N bool) (net_yield : K (net N) unit)
  (byte_behind : K N Z) (stat_rdev : list Z → K N Z).
Context (block_ioctl char_ioctl : block_device_t → Z → Z → K FS Z).
Context (report_fault : Z → list Z → K kernel unit) (device_irq : Z → K kernel unit)
  (breakpoint_debugger : iframe_t → K kernel unit).

Definition handle (e : event) : K machine unit :=
  match e with
  | Enter f cr2 => interrupt_handler
      (syscall check_nx_support stack_bytes vvar_paddr yield_current steps fuel
         net_uptime net_signals net_yield byte_behind stat_rdev block_ioctl char_ioctl)
      report_fault device_irq breakpoint_debugger f cr2
  | Work o => on_kernel (run_op o)
  end.
Definition event_ok (e : event) (s : machine) : Prop :=
  match e with
  | Enter f _ => vector f = 128 → call_ok f s
  | Work o => op_ok o (kern s)
  end.
Inductive entries : machine → list event → machine → Prop :=
| entries_nil s : entries s [] s
| entries_cons s e s1 l s' : event_ok e s → handle e s = Done (tt, s1) → entries s1 l s' → entries s (e :: l) s'.

(** Anything that happens and does not stop the machine, without a condition on
    what the programs ask for. *)
Inductive happens : machine → list event → machine → Prop :=
| happens_nil s : happens s [] s
| happens_cons s e s1 l s' : handle e s = Done (tt, s1) → happens s1 l s' → happens s (e :: l) s'.

(** C1: The ring and the tree of tasks survive every entry into the kernel, two
    known faults aside.  Start from a state in which the ring of tasks is closed, the
    lists of children are the trees of the parents and the current task has not
    ended.  Let it run through system calls (any number, any arguments), page faults
    and other exceptions, timer ticks and device interrupts, and steps of the
    kernel's own tasks, none of which panics or faults.  The state in the end is of
    that kind again, provided that (event_ok) each system call is made by a process
    with a pid from 0 up, init does not call execve, no signal that stops tasks is
    sent to a zombie (by kill, or by a step of the kernel), and the steps of the
    kernel's own tasks meet op_ok; and that what runs while a call waits, the
    devices, the debugger and the reports keep the tables too.  The two excluded
    calls do break them: init is the head of the ring (scheduler.c:569), and a
    stopped zombie runs again (SchedInv.zombie_revived). *)
Theorem kernel_entries_invariant s l s' :
  keeps W yield_current → (∀ v text, keeps W (report_fault v text)) → (∀ irq, keeps W (device_irq irq)) →
  (∀ f, keeps W (breakpoint_debugger f)) →
  W (kern s) → entries s l s' → W (kern s').
Proof.
  intros Hy Hr Hd Hb HW. induction 1 as [|s e s1 l s' Hok He _ IH]; [exact HW|]. apply IH. clear IH s' l.
  destruct e as [f cr2|o]; cbn [handle event_ok] in He, Hok.
  - eapply (interrupt_sound check_nx_support stack_bytes vvar_paddr); eassumption.
  - apply on_kernel_run in He as (k & He & ->). by eapply run_op_W.
Qed.

(** C26: SIGKILL and SIGSTOP cannot be masked, caught or ignored.  If no task
    masks or handles them at first, none ever does, after any sequence of entries
    into the kernel that does not stop it: any system calls with any arguments
    (sigprocmask, sigaction, fork, execve and spawn with its actions included),
    exceptions, interrupts and steps of the kernel's own tasks, provided that the
    parameters (what runs while a call waits, reports of faults, devices, the
    debugger) do not change masks and handlers either.  So a task for which SIGKILL
    is pending and which is not inside a signal handler always counts as
    interrupted (has_pending_signals); inside a handler no signal is delivered
    (SignalEnds.handler_shields_from_sigkill). *)
Theorem sigkill_cannot_be_blocked s l s' :
  keeps (every unblockable) yield_current → (∀ v text, keeps (every unblockable) (report_fault v text)) →
  (∀ irq, keeps (every unblockable) (device_irq irq)) → (∀ f, keeps (every unblockable) (breakpoint_debugger f)) →
  every unblockable (kern s) → happens s l s' →
  every unblockable (kern s') ∧
  ∀ p t, tasks (kern s') !! p = Some t → Z.testbit (pending_signals (signals t)) (SIGKILL - 1) = true →
    in_signal (signals t) = false → has_pending_signals t = true.
Proof.
  intros Hy Hr Hd Hb Hs Hl. assert (Hs' : every unblockable (kern s')).
  { induction Hl as [|s e s1 l s' He _ IH]; [exact Hs|]. apply IH. clear IH s' l.
    destruct e as [f cr2|o]; cbn [handle] in He.
    - by eapply (interrupt_masked check_nx_support stack_bytes vvar_paddr).
    - apply on_kernel_run in He as (k & He & ->). by eapply every_run_op. }
  split; [exact Hs'|]. intros p t Et Hp Hi. apply pending_kill_counts; [by eapply Hs'|exact Hp|exact Hi].
Qed.

(** An executable sufficient condition for the entries of programs. *)
Definition safe_event (e : event) (s : machine) : bool :=
  match e with
  | Enter f _ => negb (vector f =? 128) || (negb (rax f =? 12) && negb (rax f =? 73) &&
      match tasks (kern s) !! current_task (kern s) with
      | Some t => negb (is_kworker (image t)) && (0 <=? pid (ids t))
      | None => false
      end)
  | Work _ => false
  end.
Lemma safe_event_ok e s : safe_event e s = true → event_ok e s.
Proof.
  destruct e as [f cr2|o]; [|done]. cbn [safe_event event_ok]. intros H Hv. rewrite Hv in H. cbn in H.
  apply andb_prop in H as [[H1 H2]%andb_prop H]. unfold call_ok. cbv zeta.
  destruct (tasks (kern s) !! current_task (kern s)) as [t|]; [|done]. exists t.
  apply andb_prop in H as [H3 H4]. split_and!; [done|by apply negb_true_iff|lia|intros Hr; rewrite Hr in H1; done|].
  intros Hr. rewrite Hr in H2. done.
Qed.
Fixpoint run_events (l : list event) (s : machine) : outcome (unit * machine) :=
  match l with
  | [] => Done (tt, s)
  | e :: l => if safe_event e s then (handle e;; run_events l) s else Fault
  end.
Lemma run_events_entries l : ∀ s s', run_events l s = Done (tt, s') → entries s l s'.
Proof.
  induction l as [|e l IH]; intros s s' H; cbn [run_events] in H; [injection H as <-; constructor|].
  destruct (safe_event e s) eqn:Hs; [|done]. apply K_bind_Done in H as ([] & s1 & H1 & H).
  econstructor; [by apply safe_event_ok|exact H1|by apply IH].
Qed.
End entries.

(** *** A program forks, its child runs until an illegal instruction ends it, and then fails itself *)

Definition call_frame (number : Z) : iframe_t :=
  mk_iframe 0 0 0 0 0 0 0 0 0 0 0 0 0 0 number 128 0 0 USER_CS 0 0 0.
Definition trap_frame (v : Z) : iframe_t :=
  mk_iframe 0 0 0 0 0 0 0 0 0 0 0 0 0 0 0 v 0 0 USER_CS 0 0 0.
Definition no_screen : fbcon := mk_fbcon None [] [] (mk_grid [] 0 0 0 0 0 0) [] [] 0 0 initial_parser.
Definition small_computer : machine unit unit := mk_machine small_machine (mk_vvar 0 0) no_screen.
Definition quiet {FS N} : K (kernel FS N) unit := mret tt.
Definition run_small (l : list event) : outcome (unit * machine unit unit) :=
  run_events true (λ _ _, []) 0 quiet [] 4 (mret 0) (mret false) (mret tt) (mret 0) (λ _, mret 0)
    (λ _ _ _, mret 0) (λ _ _ _, mret 0) (λ _ _, quiet) (λ _, quiet) (λ _, quiet) l small_computer.
Definition busy_day : list event :=
  [Enter (call_frame 11) 0; Enter (trap_frame 32) 0; Enter (trap_frame 6) 0; Enter (call_frame 52) 0;
   Enter (trap_frame 14) 0].
Lemma kernel_entries_invariant_witness : ∃ s',
  run_small busy_day = Done (tt, s') ∧ W (kern s') ∧ current_task (kern s') = INIT_TASK ∧
  size (tasks (kern s')) = 4%nat ∧ state <$> tasks (kern s') !! 7 = Some STATE_ZOMBIE ∧ uptime_ms (vvar s') = 1.
Proof.
  assert (E : match run_small busy_day with
              | Done (_, s) => current_task (kern s) = INIT_TASK ∧ size (tasks (kern s)) = 4%nat ∧
                  state <$> tasks (kern s) !! 7 = Some STATE_ZOMBIE ∧ uptime_ms (vvar s) = 1
              | _ => False end) by (vm_compute; by split_and!).
  destruct (run_small busy_day) as [[[] s']| | |] eqn:Er; [|destruct E..]. exists s'.
  split; [reflexivity|]. split; [|exact E]. unfold run_small in Er. apply run_events_entries in Er. revert Er.
  apply kernel_entries_invariant; [apply keeps_ret|intros; apply keeps_ret..|exact small_machine_W].
Defined.

(** *** A parent to be killed, whatever its child tries *)

Definition args_frame (number a b : Z) : iframe_t := set_rsi b (set_rdi a (call_frame number)).
Definition handle_small : event → K (machine unit unit) unit :=
  handle true (λ _ _, []) 0 quiet [] 4 (mret 0) (mret false) (mret tt) (mret 0) (λ _, mret 0)
    (λ _ _ _, mret 0) (λ _ _ _, mret 0) (λ _ _, quiet) (λ _, quiet) (λ _, quiet).
Fixpoint handle_all (l : list event) (s : machine unit unit) : outcome (unit * machine unit unit) :=
  match l with
  | [] => Done (tt, s)
  | e :: l => (handle_small e;; handle_all l) s
  end.
Lemma handle_all_happens l : ∀ s s', handle_all l s = Done (tt, s') →
  happens true (λ _ _, []) 0 quiet [] 4 (mret 0) (mret false) (mret tt) (mret 0) (λ _, mret 0)
    (λ _ _ _, mret 0) (λ _ _ _, mret 0) (λ _ _, quiet) (λ _, quiet) (λ _, quiet) s l s'.
Proof.
  induction l as [|e l IH]; intros s s' H; cbn [handle_all] in H; [injection H as <-; constructor|].
  apply K_bind_Done in H as ([] & s1 & H1 & H). econstructor; [exact H1|by apply IH].
Qed.
(** fork, sigaction for SIGKILL (as a call and with a handler), kill of the parent. *)
Definition kill_parent : list event :=
  [Enter (call_frame 11) 0; Enter (args_frame 75 SIGKILL 0) 0; Work (OpSigaction SIGKILL 8 0);
   Enter (args_frame 73 2 SIGKILL) 0].
Lemma sigkill_cannot_be_blocked_witness :
  ∃ s' t, handle_all kill_parent small_computer = Done (tt, s') ∧ tasks (kern s') !! 3 = Some t ∧
    has_pending_signals t = true.
Proof.
  assert (E : match handle_all kill_parent small_computer with
              | Done (_, s') => match tasks (kern s') !! 3 with
                  | Some t => Z.testbit (pending_signals (signals t)) (SIGKILL - 1) = true ∧ in_signal (signals t) = false
                  | None => False end
              | _ => False end) by (vm_compute; by split).
  destruct (handle_all kill_parent small_computer) as [[[] s']| | |] eqn:Er; [|destruct E..].
  destruct (tasks (kern s') !! 3) as [t|] eqn:Et; [|destruct E]. exists s', t.
  split; [reflexivity|]. split; [exact Et|]. apply handle_all_happens in Er.
  apply (λ H1 H2 H3 H4, proj2 (sigkill_cannot_be_blocked _ _ _ _ _ _ _ _ _ _ _ _ _ _ _ _ small_computer kill_parent s'
    H1 H2 H3 H4 small_machine_unblockable Er) 3 t Et); [apply keeps_ret|intros; apply keeps_ret..|apply E|apply E].
Defined.
