(* ===== verification/SyscallChecks.v ===== *)
(** * What the system calls check

    The user pointers that a call validates, as a table beside the switch of
    Syscalls.v: a call is its checks in this order around a body, and the first
    check that fails is the result, before anything has happened. *)

From S2P Require Import Prelude Pipe Paging Calendar Break Path Vfs Net Ip Udp Task Signal Tty Fbcon Fd Sched Elf Exec Syscalls TaskTree SchedTree SchedLinks SchedInv SyscallInv.

(** ** The table *)

Definition string_check (p : Z) : K paging Z := validate_user_string p MAX_PATH.
Definition read_check (p len : Z) : K paging Z := validate_user_pointer p len false.
Definition write_check (p len : Z) : K paging Z := validate_user_pointer p len true.
Definition given (p : Z) (l : list (K paging Z)) : list (K paging Z) := if p =? NULL then [] else l.

Definition one_of (n : Z) (l : list Z) : bool := existsb (Z.eqb n) l.

Definition pointer_checks (number : Z) (a : syscall_args) : list (K paging Z) :=
  if one_of number [3; 4; 5; 12; 24; 40; 42; 54; 61; 70] then [string_check (arg1 a)]
  else if one_of number [17; 63] then [string_check (arg1 a); string_check (arg2 a)]
  else if number =? 9 then [write_check (arg2 a) DIRENT_SIZE]
  else if number =? 10 then [string_check (arg1 a); write_check (arg2 a) STAT_SIZE]
  else if number =? 25 then [write_check (arg1 a) (arg2 a)]
  else if number =? 30 then [read_check (arg1 a) 4]
  else if number =? 33 then [read_check (arg1 a) 4; read_check (arg2 a) 4; read_check (arg3 a) 4; string_check (arg4 a)]
  else if number =? 34 then [read_check (arg1 a) 4; read_check (arg2 a) 4]
  else if number =? 39 then
    given (arg1 a) [string_check (arg1 a)] ++ [string_check (arg2 a)] ++ given (arg3 a) [validate_user_string (arg3 a) 32]
  else if number =? 46 then [write_check (arg2 a) (arg3 a)]
  else if number =? 47 then [read_check (arg2 a) (arg3 a)]
  else if number =? 53 then given (arg2 a) [write_check (arg2 a) 4]
  else if number =? 55 then [write_check (arg1 a) 8]
  else if number =? 60 then [read_check (arg1 a) FONT_SIZE]
  else if number =? 65 then [read_check (arg2 a) SOCKADDR_SIZE]
  else if number =? 67 then [write_check (arg2 a) (arg3 a); write_check (arg5 a) SOCKADDR_SIZE]
  else if number =? 68 then [read_check (arg2 a) (arg3 a); read_check (arg5 a) SOCKADDR_SIZE]
  else if number =? 69 then [write_check (arg2 a) STAT_SIZE]
  else if number =? 75 then given (arg2 a) [read_check (arg2 a) 8] ++ given (arg3 a) [write_check (arg3 a) 8]
  else if number =? 81 then given (arg2 a) [read_check (arg2 a) 4] ++ given (arg3 a) [write_check (arg3 a) 4]
  else [].

(** The first error, or a number that is none. *)
Fixpoint run_checks (l : list (K paging Z)) : K paging Z :=
  match l with
  | [] => mret 0
  | c :: l => r ← c; if r <? 0 then mret r else run_checks l
  end.

(** ** The errors of the checks *)

Definition answers {S A} (P : A → Prop) (m : K S A) : Prop := ∀ s a s', m s = Done (a, s') → P a.
Lemma answers_ret {S A} (P : A → Prop) a : P a → answers (S:=S) P (mret a).
Proof. intros Ha s x s' H. unfold mret, K_ret in H. by simplify_eq. Qed.
Lemma answers_bind {S A B} (P : B → Prop) (m : K S A) k : (∀ a, answers P (k a)) → answers P (m ≫= k).
Proof. intros Hk s b s' (a & s1 & _ & H)%K_bind_Done. by eapply Hk. Qed.
Definition check_result (r : Z) : Prop := r = 0 ∨ r = - EFAULT ∨ r = - ENAMETOOLONG.
#[local] Hint Unfold check_result : core.
Ltac answers_step := lazymatch goal with
  | |- answers _ (mret _) => apply answers_ret
  | |- answers _ (_ ≫= _) => apply answers_bind; intros ?
  | |- answers _ (if ?b then _ else _) => destruct b
  | |- answers _ (match ?o with _ => _ end) => destruct o
  end.

Lemma validate_page_result p w : answers check_result (validate_page p w).
Proof. unfold validate_page. cbv zeta. repeat answers_step; auto. destruct (_ =? _); auto. Qed.
Lemma checked_next {S} (c k : K S Z) :
  answers check_result c → answers check_result k → answers check_result (r ← c; if r <? 0 then mret r else k).
Proof.
  intros Hc Hk s b s' (a & s1 & H1 & H)%K_bind_Done. destruct (a <? 0); [|by eapply Hk].
  unfold mret, K_ret in H. simplify_eq. by eapply Hc.
Qed.
Lemma validate_pages_result n w : ∀ p e, answers check_result (validate_pages n p e w).
Proof.
  induction n as [|n IH]; intros p e; cbn [validate_pages]; destruct (negb _); try (apply answers_ret; auto; fail).
  - by intros s r s' H.
  - apply checked_next; [apply validate_page_result|apply IH].
Qed.
Lemma validate_pointer_result p n w : answers check_result (validate_user_pointer p n w).
Proof. unfold validate_user_pointer. repeat answers_step; auto using validate_pages_result. Qed.
Lemma validate_string_result p max : answers check_result (validate_user_string p max).
Proof.
  unfold validate_user_string. destruct (p =? 0); [apply answers_ret; auto|].
  generalize 0 as i. induction (Z.to_nat _) as [|n IH]; intros i; cbn [validate_string_loop]; destruct (negb _);
    try (apply answers_ret; auto; fail).
  - by intros s r s' H.
  - cbv zeta. apply checked_next; [apply validate_pointer_result|]. answers_step. destruct (_ : bool); [apply answers_ret; auto|apply IH].
Qed.
Lemma run_checks_result l : Forall (answers check_result) l → answers check_result (run_checks l).
Proof. induction 1 as [|c l Hc _ IH]; cbn [run_checks]; [apply answers_ret; auto|by apply checked_next]. Qed.
Lemma pointer_checks_result number a : answers check_result (run_checks (pointer_checks number a)).
Proof.
  apply run_checks_result. unfold pointer_checks, given, string_check, read_check, write_check.
  repeat case_match; cbn [app]; repeat (apply Forall_cons; split); try apply Forall_nil; auto using validate_pointer_result, validate_string_result.
Qed.

(** ** The calls *)

Section checks.
Context {FS N : Type}.
#[local] Notation kernel := (kernel FS N).
#[local] Notation machine := (machine FS N).
#[local] Notation user := Syscalls.user.

Definition on_tables (pg : paging) (s : machine) : machine :=
  mk_machine (set_tables pg (kern s)) (vvar s) (screen s).
Definition guards (l : list (K paging Z)) (k : K machine (option Z)) : K machine (option Z) := foldr checked k l.

Lemma user_Done {A} (m : K paging A) a pg (s : machine) :
  m (tables (kern s)) = Done (a, pg) → user m s = Done (a, on_tables pg s).
Proof. intros H. unfold user, on_kernel, lift_tables. by rewrite H. Qed.
Lemma guards_fail l k r pg : ∀ s : machine,
  run_checks l (tables (kern s)) = Done (r, pg) → r < 0 → guards l k s = Done (Some r, on_tables pg s).
Proof.
  induction l as [|c l IH]; intros s H Hr; cbn [run_checks] in H; [unfold mret, K_ret in H; injection H as <- <-; lia|].
  apply K_bind_Done in H as (r1 & pg1 & H1 & H). cbn [guards foldr]. unfold checked at 1.
  rewrite (K_bind_step _ _ s r1 (on_tables pg1 s)) by by apply user_Done.
  destruct (Z.ltb_spec r1 0); [unfold mret, K_ret in *; by injection H as <- <-|].
  change (foldr checked k l) with (guards l k). by rewrite (IH (on_tables pg1 s) H Hr).
Qed.
Lemma guards_app l1 l2 k : guards (l1 ++ l2) k = guards l1 (guards l2 k).
Proof. apply foldr_app. Qed.
Lemma if_given_guards p l k : if_given p (guards l) k = guards (given p l) k.
Proof. unfold if_given, given. by destruct (p =? NULL). Qed.

Context (check_nx_support : bool) (stack_bytes : buffer_site → Z → list Z) (vvar_paddr : Z).
Context (yield_current : K kernel unit) (steps : list env_step) (fuel : nat).
Context (net_uptime : K N Z) (net_signals : K N bool) (net_yield : K (net N) unit)
  (byte_behind : K N Z) (stat_rdev : list Z → K N Z).
Context (block_ioctl char_ioctl : block_device_t → Z → Z → K FS Z).
#[local] Notation table := (syscall_table check_nx_support stack_bytes vvar_paddr yield_current steps fuel
  net_uptime net_signals net_yield byte_behind stat_rdev block_ioctl char_ioctl).
#[local] Notation dispatch := (dispatch check_nx_support stack_bytes vvar_paddr yield_current steps fuel
  net_uptime net_signals net_yield byte_behind stat_rdev block_ioctl char_ioctl).

(** Every call is its row of the table around a body. *)
Ltac row := cbn [fst snd]; unfold pointer_checks, one_of; cbn [existsb orb Z.eqb Pos.eqb];
  try (eexists; reflexivity; fail).
Lemma table_guards f a : Forall (λ e, ∃ body, e.2 a = guards (pointer_checks e.1 a) body) (table f).
Proof.
  unfold syscall_table.
  repeat (apply Forall_cons; split; [row|]); [..|by apply Forall_nil].
  all: try unfold sys_mount, sys_waitpid.
  all: eexists; rewrite ?guards_app, <-?if_given_guards; reflexivity.
Qed.
Ltac known H := match goal with
  | |- context [?n =? ?k] => destruct (Z.eqb_spec n k) as [->|]; [discriminate H|]
  end.
(** A number with checks is in the table. *)
Lemma checks_known number a f : pointer_checks number a ≠ [] →
  ∃ body, dispatch number a f = guards (pointer_checks number a) body.
Proof.
  intros Hc. unfold Syscalls.dispatch. destruct (find_call _ _) as [call|] eqn:Ec.
  - apply find_call_In in Ec. pose proof (table_guards f a) as Ht. rewrite Forall_forall in Ht. by apply (Ht _ Ec).
  - exfalso. apply Hc. clear Hc. unfold pointer_checks, one_of. cbn [existsb].
    repeat known Ec. reflexivity.
Qed.

(** C2: The checks at the entry of a system call stop it before it does anything.  They
    are those that the switch of syscall() makes: [pointer_checks] has for each number
    the paths, buffers, structures and addresses it checks, in order.  When one of
    them does not pass, the call returns the error of the first that does not,
    EFAULT or ENAMETOOLONG, and only the page tables may have changed, by the copies
    that a check for writing makes: no file, task, socket or screen.  What the
    functions behind the switch check is not meant here: the vectors and actions of
    execve and spawn (after which execve returns 0, syscalls.c:105), the
    argument of ioctl, and the glyphs behind the pointers of a font, which nobody
    checks. *)
Theorem bad_pointer_does_nothing number a f s r pg :
  run_checks (pointer_checks number a) (tables (kern s)) = Done (r, pg) → r < 0 →
  (r = - EFAULT ∨ r = - ENAMETOOLONG) ∧ dispatch number a f s = Done (Some r, on_tables pg s).
Proof.
  intros H Hr. split; [destruct (pointer_checks_result _ _ _ _ _ H) as [->|]; [lia|done]|]. destruct (checks_known number a f) as [body ->]; [|by apply guards_fail].
  intros Hn. rewrite Hn in H. unfold run_checks, mret, K_ret in H. injection H as <- <-. lia.
Qed.
End checks.

(** A program reads a file to an address of the kernel. *)
Lemma bad_pointer_does_nothing_witness :
  let s := small_computer in
  let a := mk_args 3 (USER_TOP + 1) 16 0 0 0 in
  run_checks (pointer_checks 46 a) (tables (kern s)) = Done (- EFAULT, tables (kern s)) ∧
  (- EFAULT = - EFAULT ∨ - EFAULT = - ENAMETOOLONG) ∧
  dispatch true (λ _ _, []) 0 quiet [] 4 (mret 0) (mret false) (mret tt) (mret 0) (λ _, mret 0)
    (λ _ _ _, mret 0) (λ _ _ _, mret 0) 46 a zero_iframe s = Done (Some (- EFAULT), on_tables (tables (kern s)) s).
Proof.
  cbv zeta. split; [by vm_compute|].
  apply (bad_pointer_does_nothing true (λ _ _, []) 0 quiet [] 4 (mret 0) (mret false) (mret tt) (mret 0) (λ _, mret 0)
    (λ _ _ _, mret 0) (λ _ _ _, mret 0) 46 (mk_args 3 (USER_TOP + 1) 16 0 0 0) zero_iframe small_computer); [by vm_compute|by vm_compute].
Defined.
