(* ===== verification/UserMem.v ===== *)
(** * User memory as an array of bytes

    The kernel writes to user addresses through the page tables: the page may be
    writable, or shared and copied on the first write.  [arena] says of a set of
    pages that every one of them is writable in one of the two ways and that no two
    share a frame for long; under it a write changes the byte at its address and no
    other byte of the set. *)

From S2P Require Import Prelude Paging PagingAlloc PagingTree PagingMap PagingCow Break Vfs Net Task Elf.


(** ** The byte behind a page table entry *)

Definition byte_of (w k : Z) : Z := Z.land (Z.shiftr w (8 * k)) 0xFF.
Definition put_byte (w k v : Z) : Z :=
  Z.lor (Z.land w (Z.lnot (Z.shiftl 0xFF (8 * k)))) (Z.shiftl v (8 * k)).

Lemma testbit_byte_of w k i : 0 ≤ k → 0 ≤ i → Z.testbit (byte_of w k) i = (i <? 8) && Z.testbit w (8 * k + i).
Proof.
  intros. unfold byte_of. change 0xFF with (Z.ones 8).
  rewrite Z.land_spec, Z.testbit_ones_nonneg, Z.shiftr_spec by lia. rewrite andb_comm. do 2 f_equal. lia.
Qed.
Lemma testbit_put_byte w k v i : 0 ≤ v < 256 → 0 ≤ k → 0 ≤ i →
  Z.testbit (put_byte w k v) i =
    if (8 * k <=? i) && (i <? 8 * k + 8) then Z.testbit v (i - 8 * k) else Z.testbit w i.
Proof.
  intros Hv Hk Hi. unfold put_byte. change 0xFF with (Z.ones 8).
  rewrite Z.lor_spec, Z.land_spec, Z.lnot_spec, !Z.shiftl_spec by lia.
  destruct (Z.leb_spec (8 * k) i); cbn [andb].
  - rewrite Z.testbit_ones_nonneg by lia.
    destruct (Z.ltb_spec i (8 * k + 8)), (Z.ltb_spec (i - 8 * k) 8); try lia; cbn [negb].
    + by rewrite andb_false_r.
    + rewrite (testbit_small v 8) by lia. by rewrite andb_true_r, orb_false_r.
  - rewrite !(Z.testbit_neg_r _ (i - 8 * k)) by lia. by rewrite andb_true_r, orb_false_r.
Qed.
Lemma byte_put_eq w k v : 0 ≤ v < 256 → 0 ≤ k → byte_of (put_byte w k v) k = v.
Proof.
  intros Hv Hk. apply Z.bits_inj'. intros i Hi. rewrite testbit_byte_of, testbit_put_byte by lia.
  destruct (Z.ltb_spec i 8); cbn [andb]; [|symmetry; apply (testbit_small v 8); lia].
  rewrite (proj2 (Z.leb_le _ _)), (proj2 (Z.ltb_lt _ _)) by lia. cbn [andb]. f_equal. lia.
Qed.
Lemma byte_put_ne w k k' v : 0 ≤ v < 256 → 0 ≤ k → 0 ≤ k' → k ≠ k' → byte_of (put_byte w k v) k' = byte_of w k'.
Proof.
  intros Hv Hk Hk' Hne. apply Z.bits_inj'. intros i Hi. rewrite !testbit_byte_of by lia.
  destruct (Z.ltb_spec i 8); cbn [andb]; [|done]. rewrite testbit_put_byte by lia.
  destruct (Z.leb_spec (8 * k) (8 * k' + i)), (Z.ltb_spec (8 * k' + i) (8 * k + 8)); cbn [andb]; lia || done.
Qed.

(** ** Pages by their number *)

Definition page_entry (s : paging) (n : Z) : option (Z * Z) := pte_of s (n * PAGE_SIZE).

Lemma path_of_same a b : a / PAGE_SIZE = b / PAGE_SIZE → path_of a = path_of b.
Proof. intros H. by rewrite !path_of_page, H. Qed.
Lemma pte_of_path s a b : path_of a = path_of b → pte_of s a = pte_of s b.
Proof.
  intros H. unfold pte_of. rewrite (f_equal tail H : pt_path a = pt_path b).
  by replace (pt_index (get_page_entry b)) with (pt_index (get_page_entry a))
    by (pose proof (f_equal head H) as Hh; by injection Hh).
Qed.
Lemma page_entry_va s va : pte_of s va = page_entry s (va / PAGE_SIZE).
Proof. apply pte_of_path, path_of_same. by rewrite page_div. Qed.
Lemma leaf_entry_pte s va : leaf_entry s va =
  match pte_of s va with
  | Some (_, e) => if has e FLAGS_PRESENT then Some e else None
  | None => None
  end.
Proof.
  unfold leaf_entry, pte_of, pt_path. simpl. unfold mbind, option_bind.
  repeat (destruct (next_table s _ _); [|done]). done.
Qed.

Definition page_offset (va : Z) : Z := va mod PAGE_SIZE.
Lemma page_offset_land va : Z.land va (PAGE_SIZE - 1) = page_offset va.
Proof. unfold page_offset, PAGE_SIZE. change (4096 - 1) with (Z.ones 12). by rewrite Z.land_ones by lia. Qed.
Lemma frame_offset f va : f mod PAGE_SIZE = 0 →
  (f + page_offset va) / 8 = f / 8 + page_offset va / 8 ∧ (f + page_offset va) mod 8 = va mod 8 ∧
  0 ≤ page_offset va / 8 < 512.
Proof. unfold page_offset, PAGE_SIZE. intros. Z.div_mod_to_equations. lia. Qed.

Lemma byte_at_entry s va pt e : pte_of s va = Some (pt, e) → has e FLAGS_PRESENT = true →
  byte_at s va = Some (byte_of (entry s (page_table_to_address e) (page_offset va / 8)) (va mod 8)).
Proof.
  intros Hp He. unfold byte_at. rewrite translate_pte, Hp, He. unfold mbind, option_bind. rewrite page_offset_land.
  destruct (frame_offset (page_table_to_address e) va (pta_aligned e)) as (E1 & E2 & _).
  rewrite E1, E2. done.
Qed.
Lemma store_byte_entry s va v pt e : pte_of s va = Some (pt, e) → has e FLAGS_PRESENT = true →
  store_byte va v s = Done (tt, set_entry (page_table_to_address e) (page_offset va / 8)
    (put_byte (entry s (page_table_to_address e) (page_offset va / 8)) (va mod 8) v) s).
Proof.
  intros Hp He. unfold store_byte. rewrite (K_bind_step _ _ s s s) by done.
  rewrite translate_pte, Hp, He. rewrite (K_bind_step _ _ s (page_table_to_address e) s) by done.
  rewrite page_offset_land.
  destruct (frame_offset (page_table_to_address e) va (pta_aligned e)) as (E1 & E2 & _).
  rewrite E1, E2. done.
Qed.

(** ** Writing a word of a page *)

Lemma write_data s f j w : tree_wf s → data_page s f → 0 ≤ j < 512 →
  let s' := set_entry f j w s in
  (∀ q, (length q ≤ 4)%nat → valid_path q → table s' q = table s q) ∧
  tree_wf s' ∧
  (∀ n, page_entry s' n = page_entry s n) ∧
  (∀ g, data_page s g → data_page s' g ∧
     ∀ i, 0 ≤ i < 512 → (g, i) ≠ (f, j) → entry s' g i = entry s g i).
Proof.
  intros Hwf Hf Hj s'.
  assert (He : ∀ t i, t mod PAGE_SIZE = 0 → t ≠ f → 0 ≤ i < 512 → entry s' t i = entry s t i).
  { intros t i Ht Hne Hi. apply entry_set_ne; [apply Hf|done|done|done|congruence]. }
  assert (Ht : ∀ q, (length q ≤ 4)%nat → valid_path q → table s' q = table s q).
  { intros q Hq Hv. apply (table_page_write s s' f); try done. apply Hf. }
  split_and!; [exact Ht|by apply (tree_wf_same s)| |].
  - intros n. unfold page_entry, pte_of. rewrite Ht by (apply pt_path_valid || (simpl; lia)).
    destruct (table s (pt_path (n * PAGE_SIZE))) as [pt|] eqn:Hpt; [|done]. simpl. do 2 f_equal.
    apply He; [|intros ->|apply pt_index_range].
    + exact (proj1 (tw_page _ Hwf (pt_path (n * PAGE_SIZE)) pt ltac:(simpl; lia) (pt_path_valid _) Hpt)).
    + exact (dp_no_table _ _ Hf (pt_path (n * PAGE_SIZE)) f ltac:(simpl; lia) (pt_path_valid _) Hpt eq_refl).
  - intros g Hg. split.
    + split; [apply Hg|apply Hg|]. intros q t Hq Hv Hqt. rewrite Ht in Hqt by (done || lia).
      by apply (dp_no_table _ _ Hg q).
    + intros i Hi Hne. apply entry_set_ne; [apply Hf|apply Hg|done|done|congruence].
Qed.

(** ** Arenas *)

(** The pages [P]: writable with a frame of their own, or still sharing the zero page
    [z] copy-on-write ([pend] has those, fewer than the count of the frame). *)
Record arena (s : paging) (P : Z → Prop) (z : Z) (pend : list Z) : Prop := {
  ar_wf : paging_wf s;
  ar_range : ∀ n, P n → 0 ≤ n < 2 ^ 36;
  ar_frame : ∀ n, P n → ∃ pt e, page_entry s n = Some (pt, e) ∧ has e FLAGS_PRESENT = true ∧
    data_page s (page_table_to_address e) ∧
    if has e FLAGS_RW then page_table_to_address e ≠ z
    else has e FLAGS_COW = true ∧ page_table_to_address e = z ∧ n ∈ pend;
  ar_private : ∀ n m pt e pt' e', P n → P m → n ≠ m →
    page_entry s n = Some (pt, e) → page_entry s m = Some (pt', e') → has e FLAGS_RW = true →
    page_table_to_address e ≠ page_table_to_address e';
  ar_zero : data_page s z ∧ ∀ j, 0 ≤ j < 512 → entry s z j = 0;
  ar_pending : ∃ c, bitmap s !! (z / PAGE_SIZE) = Some c ∧ zlen pend < c;
}.

(** The bytes of the arena in [s'] are those of [s], but for [l] at [va]. *)
Definition writes (P : Z → Prop) (s s' : paging) (va : Z) (l : list Z) : Prop :=
  ∀ a, P (a / PAGE_SIZE) → byte_at s' a =
    if (va <=? a) && (a <? va + zlen l) then l !! Z.to_nat (a - va) else byte_at s a.

Lemma writes_nil P s va : writes P s s va [].
Proof.
  intros a _. rewrite zlen_nil. destruct (Z.leb_spec va a), (Z.ltb_spec a (va + 0)); cbn [andb]; lia || done.
Qed.
Lemma writes_none P s s' : (∀ a, P (a / PAGE_SIZE) → byte_at s' a = byte_at s a) → writes P s s' 0 [].
Proof.
  intros H a Ha. change (zlen []) with 0. rewrite (H a Ha).
  destruct (Z.leb_spec 0 a), (Z.ltb_spec a (0 + 0)); cbn [andb]; lia || done.
Qed.
Lemma writes_cons P s s1 s2 va b l :
  writes P s s1 va [b] → writes P s1 s2 (va + 1) l → writes P s s2 va (b :: l).
Proof.
  intros H1 H2 a Ha. rewrite (H2 a Ha), (H1 a Ha). change (zlen [b]) with 1. rewrite zlen_cons.
  pose proof (zlen_nonneg l).
  destruct (Z.leb_spec (va + 1) a), (Z.ltb_spec a (va + 1 + zlen l)), (Z.leb_spec va a),
    (Z.ltb_spec a (va + (1 + zlen l))), (Z.ltb_spec a (va + 1)); cbn [andb]; try lia; try done.
  - by replace (Z.to_nat (a - va)) with (S (Z.to_nat (a - (va + 1)))) by lia.
  - by replace (Z.to_nat (a - va)) with 0%nat by lia.
Qed.

Lemma arena_same_page s P z pend n m pt e pt' e' : arena s P z pend → P n → P m →
  page_entry s n = Some (pt, e) → page_entry s m = Some (pt', e') → has e FLAGS_RW = true →
  page_table_to_address e = page_table_to_address e' → n = m.
Proof.
  intros HA Hn Hm E1 E2 Hrw Heq. destruct (decide (n = m)); [done|].
  by destruct (ar_private _ _ _ _ HA n m pt e pt' e').
Qed.
Lemma arena_byte s P z pend a : arena s P z pend → P (a / PAGE_SIZE) → is_Some (byte_at s a).
Proof.
  intros HA Ha. destruct (ar_frame _ _ _ _ HA _ Ha) as (pt & e & E & Hp & _).
  rewrite <-page_entry_va in E. erewrite byte_at_entry by eassumption. by eexists.
Qed.

Lemma offset_word a b : a / PAGE_SIZE = b / PAGE_SIZE → page_offset a / 8 = page_offset b / 8 →
  a mod 8 = b mod 8 → a = b.
Proof. unfold page_offset, PAGE_SIZE. intros. Z.div_mod_to_equations. lia. Qed.

(** A byte into a page that is writable. *)
Lemma store_arena s P z pend va v pt e :
  arena s P z pend → P (va / PAGE_SIZE) → 0 ≤ v < 256 →
  pte_of s va = Some (pt, e) → has e FLAGS_PRESENT = true → has e FLAGS_RW = true →
  ∃ s', store_byte va v s = Done (tt, s') ∧ arena s' P z pend ∧ writes P s s' va [v].
Proof.
  intros HA Hva Hv Hpte Hp Hrw. rewrite (store_byte_entry s va v pt e) by done.
  set (f := page_table_to_address e). set (j := page_offset va / 8). set (w := put_byte _ _ _).
  exists (set_entry f j w s). split; [done|].
  destruct (frame_offset f va (pta_aligned e)) as (_ & _ & Hj). fold j in Hj.
  assert (Hf : data_page s f).
  { destruct (ar_frame _ _ _ _ HA _ Hva) as (pt' & e' & E & _ & Hd & _). rewrite <-page_entry_va in E.
    by simplify_eq. }
  pose proof HA as [[Hinv Hwf] Hr Hfr Hpr [Hz Hzz] Hpe].
  assert (Hfz : f ≠ z).
  { destruct (Hfr _ Hva) as (pt' & e' & E & _ & _ & H). rewrite <-page_entry_va, Hpte in E. injection E as <- <-. by rewrite Hrw in H. }
  destruct (write_data s f j w Hwf Hf Hj) as (_ & Hwf' & Hpt & Hd).
  assert (HA' : arena (set_entry f j w s) P z pend).
  { split; [split; [by apply alloc_inv_pm|done]|done| | | |done].
    - intros n Hn. destruct (Hfr n Hn) as (pt1 & e1 & E1 & H1 & H2 & H3). exists pt1, e1.
      rewrite Hpt. split_and!; try done. by apply Hd.
    - intros n m pt1 e1 pt2 e2. rewrite !Hpt. by apply Hpr.
    - destruct (Hd z Hz) as [Hz' Hze]. split; [done|]. intros i Hi. rewrite Hze by (done || congruence). by apply Hzz. }
  split; [exact HA'|]. intros a Ha. change (zlen [v]) with 1.
  destruct (Hfr _ Ha) as (pt1 & e1 & E1 & H1 & H2 & _).
  pose proof E1 as E1'. rewrite <-page_entry_va in E1.
  rewrite (byte_at_entry (set_entry f j w s) a pt1 e1) by (done || by rewrite page_entry_va, Hpt).
  destruct (frame_offset (page_table_to_address e1) a (pta_aligned e1)) as (_ & _ & Hi).
  assert (Hm8 : 0 ≤ a mod 8 < 8 ∧ 0 ≤ va mod 8 < 8) by (split; apply Z.mod_pos_bound; lia).
  destruct (decide ((page_table_to_address e1, page_offset a / 8) = (f, j))) as [Heq|Hne].
  - injection Heq as Hf1 Hj1. rewrite Hf1, Hj1, entry_set_eq.
    assert (va / PAGE_SIZE = a / PAGE_SIZE) as Hpage.
    { eapply (arena_same_page s P z pend); [exact HA|exact Hva|exact Ha| |exact E1'|exact Hrw|by rewrite Hf1].
      by rewrite <-page_entry_va. }
    destruct (decide (a = va)) as [->|Hav].
    + rewrite (proj2 (Z.leb_le _ _)), (proj2 (Z.ltb_lt _ _)), Z.sub_diag by lia. change ([v] !! Z.to_nat 0) with (Some v). f_equal. by apply byte_put_eq; [|lia].
    + rewrite (byte_at_entry s a pt1 e1), Hf1, Hj1 by done.
      assert (va mod 8 ≠ a mod 8) by (intros E8; apply Hav; symmetry; apply offset_word; [done|by rewrite Hj1|done]).
      unfold w. rewrite byte_put_ne by (done || lia).
      destruct (Z.leb_spec va a), (Z.ltb_spec a (va + 1)); cbn [andb]; lia || done.
  - destruct (Hd _ H2) as [_ He]. rewrite He by done. rewrite (byte_at_entry s a pt1 e1) by done.
    destruct (Z.leb_spec va a), (Z.ltb_spec a (va + 1)); cbn [andb]; try done.
    assert (a = va) as -> by lia. exfalso. apply Hne. unfold f, j. by replace e1 with e by congruence.
Qed.

(** The first write to a page that is still shared gives it a frame of its own. *)
Lemma cow_arena s P z pend n pt e :
  arena s P z pend → P n → page_entry s n = Some (pt, e) → has e FLAGS_RW = false →
  cow_handler (n * PAGE_SIZE) s = Panic ∨
  ∃ s' e', cow_handler (n * PAGE_SIZE) s = Done (1, s') ∧
    arena s' P z (filter (λ m, m ≠ n) pend) ∧
    page_entry s' n = Some (pt, e') ∧ has e' FLAGS_PRESENT = true ∧ has e' FLAGS_RW = true ∧
    writes P s s' 0 [].
Proof.
  intros HA Hn Hpte Hrw. pose proof HA as [Hwf Hr Hfr Hpr [Hzd Hzz] Hpe].
  destruct (Hfr n Hn) as (pt1 & e1 & E1 & Hp & Hd & Hk). rewrite E1 in Hpte. injection Hpte as -> ->.
  rewrite Hrw in Hk. destruct Hk as (Hcow & Hz & Hpn).
  destruct Hpe as (c & Hc & Hlen).
  pose proof (cow_handler_spec s (n * PAGE_SIZE) Hwf) as Hspec. unfold page_entry in E1. rewrite E1, Hp, Hcow in Hspec.
  cbn [andb] in Hspec. rewrite Hz in Hspec. specialize (Hspec c Hc).
  assert (Hc1 : 1 < c) by (destruct pend; [by apply not_elem_of_nil in Hpn|rewrite zlen_cons in Hlen; pose proof (zlen_nonneg pend); lia]).
  destruct Hspec as [(_ & HP & _)|(s' & pg & Hrun & Hdone & Hb)]; [by left|right].
  rewrite (proj2 (Z.ltb_lt 1 c)) in Hb by done. destruct Hb as [Hfree Hbm].
  destruct (cd_pte _ _ _ _ _ Hdone) as (pt' & e' & Hpte' & Hpta & Hbits & Hrw' & _).
  assert (Hp' : has e' FLAGS_PRESENT = true).
  { rewrite has_present_bit, (Hbits 0) by done. by rewrite <-has_present_bit. }
  assert (Hother : ∀ m, P m → m ≠ n → page_entry s' m = page_entry s m).
  { intros m Hm Hmn. unfold page_entry, pte_of.
    destruct (ar_frame _ _ _ _ HA m Hm) as (pm0 & em & Em & _). unfold page_entry in Em.
    apply pte_of_table in Em as [Etab _]. rewrite (cd_tables _ _ _ _ _ Hdone) by (apply pt_path_valid || (simpl; lia)).
    rewrite Etab. simpl. do 2 f_equal.
    apply (cd_entries _ _ _ _ _ Hdone (pt_path (m * PAGE_SIZE))); [simpl; lia|apply valid_path_of|exact Etab|].
    change (path_of (m * PAGE_SIZE) ≠ path_of (n * PAGE_SIZE)). rewrite !path_of_page, !page_div. intros He.
    apply ppath_inj in He; [done|]. pose proof (Hr n Hn). pose proof (Hr m Hm). rewrite !Z.div_small by lia. done. }
  assert (Hpt' : pt' = pt).
  { apply pte_of_table in Hpte' as [Ht' _]. apply pte_of_table in E1 as [Ht _].
    rewrite (cd_tables _ _ _ _ _ Hdone) in Ht' by (apply pt_path_valid || (simpl; lia)). congruence. }
  subst pt'. pose proof (free_not_used _ _ Hfree) as Hnu.
  assert (Hnew : ∀ g, data_page s g → g ≠ pg * PAGE_SIZE).
  { intros g Hg ->. apply Hnu. rewrite <-(page_div pg). apply Hg. }
  assert (Hd' : data_page s' (pg * PAGE_SIZE)).
  { split; [apply page_mod|exists 1; rewrite page_div, Hbm; split; [apply lookup_insert_eq|lia]|].
    intros q t Hq Hv Hqt ->. rewrite (cd_tables _ _ _ _ _ Hdone) in Hqt by done. apply Hnu.
    rewrite <-(page_div pg). exact (proj2 (tw_page _ (proj2 Hwf) q _ Hq Hv Hqt)). }
  exists s', e'. split; [exact Hrun|]. split_and!; [|exact Hpte'|exact Hp'|exact Hrw'|].
  - split; [apply Hdone|exact Hr|..].
    + intros m Hm. destruct (decide (m = n)) as [->|Hmn].
      * exists pt, e'. rewrite Hrw', Hpta. split_and!; try done. intros Heq. by apply (Hnew z Hzd).
      * destruct (Hfr m Hm) as (pt2 & e2 & H1 & H2 & H3 & H4). exists pt2, e2. rewrite Hother by done.
        split_and!; try done; [by apply (cd_data _ _ _ _ _ Hdone)|]. destruct (has e2 FLAGS_RW); [done|].
        destruct H4 as (? & ? & ?). split_and!; try done. by apply list_elem_of_filter.
    + intros m1 m2 p1 x1 p2 x2 Hm1 Hm2 Hne Hx1 Hx2 Hw.
      assert (Hold : ∀ m p x, P m → m ≠ n → page_entry s' m = Some (p, x) →
        page_table_to_address x ≠ pg * PAGE_SIZE).
      { intros m p x Hm Hmn Hx. rewrite Hother in Hx by done. apply Hnew.
        destruct (Hfr m Hm) as (? & ? & Hx' & _ & ? & _). rewrite Hx' in Hx. by injection Hx as <- <-. }
      destruct (decide (m1 = n)) as [->|H1], (decide (m2 = n)) as [->|H2]; [done| | |].
      * unfold page_entry in Hx1. rewrite Hpte' in Hx1. injection Hx1 as <- <-. rewrite Hpta. intros Heq.
        by apply (Hold m2 p2 x2).
      * unfold page_entry in Hx2. rewrite Hpte' in Hx2. injection Hx2 as <- <-. rewrite Hpta. by apply (Hold m1 p1 x1).
      * rewrite Hother in Hx1, Hx2 by done. by apply (Hpr m1 m2 p1 x1 p2 x2).
    + destruct (cd_data _ _ _ _ _ Hdone z Hzd) as [Hz' Hze]. split; [done|]. intros j Hj. rewrite Hze by done. by apply Hzz.
    + exists (c - 1). rewrite Hbm, lookup_insert_ne, lookup_insert_eq.
      2: { intros ->. apply Hnu. exact (dp_used _ _ Hzd). }
      split; [done|]. pose proof (length_filter_lt (λ m, m ≠ n) pend n Hpn ltac:(naive_solver)). unfold zlen in *. lia.
  - apply writes_none. intros a Ha. destruct (Hfr _ Ha) as (pt2 & e2 & H1 & H2 & H3 & H4).
    destruct (frame_offset (page_table_to_address e2) a (pta_aligned e2)) as (_ & _ & Hi).
    rewrite (byte_at_entry s a pt2 e2 (eq_trans (page_entry_va s a) H1) H2).
    destruct (decide (a / PAGE_SIZE = n)) as [Han|Han].
    + rewrite <-Han in Hpte'. rewrite (byte_at_entry s' a pt e' (eq_trans (page_entry_va s' a) Hpte') Hp').
      rewrite Han in H1. unfold page_entry in H1. rewrite E1 in H1. injection H1 as <- <-.
      rewrite Hpta, (cd_content _ _ _ _ _ Hdone); [done|apply H3|exact Hi].
    + rewrite (byte_at_entry s' a pt2 e2 (eq_trans (page_entry_va s' a) (eq_trans (Hother _ Ha Han) H1)) H2).
      destruct (cd_data _ _ _ _ _ Hdone _ H3) as [_ He]. by rewrite He.
Qed.

(** ** Writing bytes *)

Lemma writes_trans_nil P s s1 s2 va l : writes P s s1 0 [] → writes P s1 s2 va l → writes P s s2 va l.
Proof.
  intros H1 H2 a Ha. rewrite (H2 a Ha). destruct (_ && _); [done|]. rewrite (H1 a Ha). change (zlen []) with 0.
  destruct (Z.leb_spec 0 a), (Z.ltb_spec a (0 + 0)); cbn [andb]; lia || done.
Qed.

Definition ready (P : Z → Prop) (z : Z) (s : paging) : Prop := ∃ pend, arena s P z pend.

Lemma poke_byte_ready P z va v s : ready P z s → P (va / PAGE_SIZE) → 0 ≤ v < 256 →
  wp (poke_byte va v) s (λ _ s', ready P z s' ∧ writes P s s' va [v]).
Proof.
  intros [pend HA] Hva Hv. destruct (ar_frame _ _ _ _ HA _ Hva) as (pt & e & E & Hp & _).
  unfold poke_byte. eapply wp_bind; [by apply (wp_Done _ s s s (λ a s', a = s ∧ s' = s))|].
  intros ? ? [-> ->]. rewrite leaf_entry_pte, page_entry_va, E, Hp. destruct (has e FLAGS_RW) eqn:Hrw.
  - eapply wp_bind; [by apply (wp_ret tt s (λ _ s', s' = s))|]. intros _ ? ->.
    destruct (store_arena s P z pend va v pt e) as (s1 & Hs & HA' & Hw); [by try rewrite page_entry_va..|].
    eapply wp_Done; [exact Hs|]. split; [by exists pend|done].
  - rewrite page_mask_land.
    destruct (cow_arena s P z pend _ pt e HA Hva E Hrw) as [HP|(s2 & e' & Hrun & HA' & E' & Hp' & Hrw' & Hw)].
    { unfold wp, mbind, K_bind. by rewrite HP. }
    eapply wp_bind; [eapply wp_bind; [eapply (wp_Done _ _ _ _ (λ r s', r = 1 ∧ s' = s2)); [exact Hrun|done]|]|].
    { intros ? ? [-> ->]. by apply (wp_ret tt s2 (λ _ s', s' = s2)). }
    intros _ ? ->. destruct (store_arena s2 P z _ va v pt e' HA' Hva Hv) as (s3 & Hs & HA3 & Hw3);
      [by rewrite page_entry_va|done..|].
    eapply wp_Done; [exact Hs|]. split; [by eexists|]. by eapply writes_trans_nil.
Qed.

Definition is_bytes (l : list Z) : Prop := Forall (λ b, 0 ≤ b < 256) l.
(** A range of addresses in the pages. *)
Definition in_pages (P : Z → Prop) (va n : Z) : Prop :=
  0 ≤ va ∧ va + n < 2 ^ 64 ∧ ∀ a, va ≤ a < va + n → P (a / PAGE_SIZE).

Lemma poke_bytes_ready P z l : ∀ s va, ready P z s → in_pages P va (zlen l) → is_bytes l →
  wp (poke_bytes l va) s (λ _ s', ready P z s' ∧ writes P s s' va l).
Proof.
  induction l as [|b l IH]; intros s va HA Hp Hb; cbn [poke_bytes].
  - apply wp_ret. split; [done|apply writes_nil].
  - rewrite zlen_cons in Hp. destruct Hp as (Hp0 & Hp1 & Hp2). pose proof (zlen_nonneg l).
    apply Forall_cons in Hb as [Hb Hbl].
    eapply wp_bind; [apply poke_byte_ready; [exact HA|apply Hp2; lia|exact Hb]|]. intros _ s1 [HA1 Hw1].
    rewrite u64_id by lia. eapply wp_mono; [apply IH; [exact HA1| |exact Hbl]|].
    + split_and!; [lia|lia|]. intros a Ha. apply Hp2. lia.
    + intros _ s2 [HA2 Hw2]. split; [done|]. by eapply writes_cons.
Qed.

(** ** Words and strings at user addresses *)

Definition bytes_at (s : paging) (va : Z) (l : list Z) : Prop :=
  ∀ i, 0 ≤ i < zlen l → byte_at s (va + i) = l !! Z.to_nat i.

Lemma bytes_at_cons s va b l : bytes_at s va (b :: l) ↔ byte_at s va = Some b ∧ bytes_at s (va + 1) l.
Proof.
  unfold bytes_at. rewrite zlen_cons. pose proof (zlen_nonneg l). split.
  - intros H1. split; [specialize (H1 0 ltac:(lia)); by rewrite Z.add_0_r in H1|]. intros i Hi.
    specialize (H1 (i + 1) ltac:(lia)). replace (va + 1 + i) with (va + (i + 1)) by lia. rewrite H1.
    by replace (Z.to_nat (i + 1)) with (S (Z.to_nat i)) by lia.
  - intros [H1 H2] i Hi. destruct (decide (i = 0)) as [->|]; [by rewrite Z.add_0_r|].
    specialize (H2 (i - 1) ltac:(lia)). replace (va + 1 + (i - 1)) with (va + i) in H2 by lia. rewrite H2.
    by replace (Z.to_nat i) with (S (Z.to_nat (i - 1))) by lia.
Qed.
Lemma bytes_at_app s va l1 l2 : bytes_at s va (l1 ++ l2) ↔ bytes_at s va l1 ∧ bytes_at s (va + zlen l1) l2.
Proof.
  revert va. induction l1 as [|b l1 IH]; intros va; cbn [app].
  - rewrite zlen_nil, Z.add_0_r. split; [intros H; split; [intros i Hi; change (zlen []) with 0 in Hi; lia|done]|by intros [_ H]].
  - rewrite !bytes_at_cons, IH, zlen_cons. replace (va + (1 + zlen l1)) with (va + 1 + zlen l1) by lia. naive_solver.
Qed.

Lemma writes_bytes_at P s s' va l : writes P s s' va l → in_pages P va (zlen l) → bytes_at s' va l.
Proof.
  intros Hw (_ & _ & Hp) i Hi. rewrite Hw by (apply Hp; lia).
  rewrite (proj2 (Z.leb_le _ _)), (proj2 (Z.ltb_lt _ _)) by lia. cbn [andb]. do 2 f_equal. lia.
Qed.
(** What lies outside of the range stays. *)
Lemma writes_apart P s s' va l va' l' : writes P s s' va l → in_pages P va' (zlen l') →
  va' + zlen l' ≤ va ∨ va + zlen l ≤ va' → bytes_at s va' l' → bytes_at s' va' l'.
Proof.
  intros Hw (_ & _ & Hp) Ha Hb i Hi. rewrite Hw by (apply Hp; lia). rewrite <-Hb by done.
  destruct (Z.leb_spec va (va' + i)), (Z.ltb_spec (va' + i) (va + zlen l)); cbn [andb]; lia || done.
Qed.

Lemma peek_bytes_at l : ∀ s va, bytes_at s va l → 0 ≤ va → va + zlen l < 2 ^ 64 →
  peek (length l) va s = Done (le l, s).
Proof.
  induction l as [|b l IH]; intros s va H Hva Hlt; [done|]. apply bytes_at_cons in H as [Hb H].
  rewrite zlen_cons in Hlt. pose proof (zlen_nonneg l). cbn [length peek].
  rewrite (K_bind_step _ _ s s s) by done. rewrite Hb, u64_id by lia.
  rewrite (K_bind_step _ _ _ _ _ (IH s (va + 1) H ltac:(lia) ltac:(lia))). unfold mret, K_ret. cbn [le]. do 2 f_equal. rewrite Z.shiftl_mul_pow2 by lia. lia.
Qed.

(** Two adjacent ranges, the upper one first. *)
Lemma writes_below P s s1 s2 va l1 l2 :
  writes P s s1 (va + zlen l1) l2 → writes P s1 s2 va l1 → writes P s s2 va (l1 ++ l2).
Proof.
  intros H1 H2 a Ha. rewrite (H2 a Ha), (H1 a Ha), zlen_app. pose proof (zlen_nonneg l1). pose proof (zlen_nonneg l2).
  destruct (Z.leb_spec va a), (Z.ltb_spec a (va + zlen l1)), (Z.leb_spec (va + zlen l1) a),
    (Z.ltb_spec a (va + zlen l1 + zlen l2)), (Z.ltb_spec a (va + (zlen l1 + zlen l2))); cbn [andb]; try lia; try done.
  - rewrite lookup_app_l; [done|unfold zlen in *; lia].
  - rewrite lookup_app_r by (unfold zlen in *; lia). f_equal. unfold zlen in *. lia.
Qed.

(** The bytes of a word, low byte first. *)
Fixpoint word_bytes (n : nat) (v : Z) : list Z :=
  match n with
  | O => []
  | S n => Z.land v 0xFF :: word_bytes n (Z.shiftr v 8)
  end.
Lemma poke_word_bytes n : ∀ va v s, poke n va v s = poke_bytes (word_bytes n v) va s.
Proof.
  induction n as [|n IH]; intros va v s; cbn [poke word_bytes poke_bytes]; [done|].
  unfold mbind, K_bind. destruct (poke_byte va (Z.land v 0xFF) s) as [[u s1]| | |]; [apply IH|done..].
Qed.
Lemma length_word_bytes n v : length (word_bytes n v) = n.
Proof. revert v. induction n as [|n IH]; intros v; cbn; [done|by rewrite IH]. Qed.
Lemma word_bytes_bytes n v : is_bytes (word_bytes n v).
Proof.
  revert v. induction n as [|n IH]; intros v; cbn [word_bytes]; [constructor|]. constructor; [|apply IH].
  change 0xFF with (Z.ones 8). rewrite Z.land_ones by lia. apply Z.mod_pos_bound. lia.
Qed.
Lemma le_word_bytes n v : le (word_bytes n v) = v mod 2 ^ (8 * Z.of_nat n).
Proof.
  revert v. induction n as [|n IH]; intros v; cbn [word_bytes le]; [by rewrite Z.mod_1_r|].
  rewrite IH. change 0xFF with (Z.ones 8). rewrite Z.land_ones, Z.shiftr_div_pow2 by lia.
  replace (8 * Z.of_nat (S n)) with (8 + 8 * Z.of_nat n) by lia. rewrite Z.pow_add_r by lia.
  rewrite Z.rem_mul_r by lia. change (2 ^ 8) with 256. lia.
Qed.

(** ** Mapping regions of user memory

    The three functions that map a region share one loop; [region_loop_ind] is its
    induction principle, for an invariant of the state at each page.  With it
    alloc_region and alloc_zero_region extend an arena (UserMem.v) by their pages,
    and alloc_mmio_region leaves it alone. *)


(** ** Steps that leave the pages of an arena alone *)

Lemma same_user_entry s s' n pt e : same_user s s' → page_entry s n = Some (pt, e) → page_entry s' n = Some (pt, e).
Proof.
  intros [_ Hl] H. unfold page_entry in *. apply pte_of_table in H as [Ht ->].
  destruct (Hl (pt_path (n * PAGE_SIZE)) pt) as [Ht' He]; [done|apply pt_path_valid|done|].
  unfold pte_of. rewrite Ht'. simpl. rewrite He by apply pt_index_range. done.
Qed.

Lemma arena_step s s' P z pend : arena s P z pend → paging_wf s' → same_data s s' →
  (∀ n pt e, P n → page_entry s n = Some (pt, e) → page_entry s' n = Some (pt, e)) →
  (∀ c, bitmap s !! (z / PAGE_SIZE) = Some c → c ≠ 0 → ∃ c', bitmap s' !! (z / PAGE_SIZE) = Some c' ∧ c ≤ c') →
  arena s' P z pend ∧ writes P s s' 0 [].
Proof.
  intros [Hwf Hr Hfr Hpr [Hz Hzz] (c & Hc & Hlen)] Hwf' Hd He Hcnt. split.
  - split; [done|done|..].
    + intros n Hn. destruct (Hfr n Hn) as (pt & e & E & Hp & Hdp & Hk). exists pt, e.
      split_and!; [by apply He|done|by apply Hd|done].
    + intros n m pt e pt' e' Hn Hm Hne E1 E2. destruct (Hfr n Hn) as (p1 & e1 & F1 & _).
      destruct (Hfr m Hm) as (p2 & e2 & F2 & _). pose proof (He _ _ _ Hn F1) as G1. pose proof (He _ _ _ Hm F2) as G2.
      rewrite E1 in G1. rewrite E2 in G2. injection G1 as <- <-. injection G2 as <- <-. exact (Hpr n m _ _ _ _ Hn Hm Hne F1 F2).
    + destruct (Hd z Hz) as [Hz' Hze]. split; [done|]. intros j Hj. rewrite Hze by done. by apply Hzz.
    + pose proof (zlen_nonneg pend). destruct (Hcnt c Hc) as (c' & Hc' & ?); [lia|]. exists c'. split; [done|lia].
  - apply writes_none. intros a Ha. destruct (Hfr _ Ha) as (pt & e & E & Hp & Hdp & _).
    rewrite (byte_at_entry s a pt e (eq_trans (page_entry_va s a) E) Hp).
    rewrite (byte_at_entry s' a pt e (eq_trans (page_entry_va s' a) (He _ _ _ Ha E)) Hp).
    destruct (frame_offset (page_table_to_address e) a (pta_aligned e)) as (_ & _ & Hi).
    destruct (Hd _ Hdp) as [_ Hde]. by rewrite Hde.
Qed.

(** What a leaf does to the tables: one entry of the last level that was absent. *)
Lemma leaf_install s s1 n i p pt v :
  paging_wf s → 0 ≤ n < 2 ^ 36 → ppath n = i :: p → table s p = Some pt →
  pm s1 = pm (set_entry pt i v s) → pml4_physical s1 = pml4_physical s → (∀ pg, used s pg → used s1 pg) →
  tree_wf s1 ∧ (∀ q, (length q ≤ 3)%nat → valid_path q → table s1 q = table s q) ∧
  page_entry s1 n = Some (pt, v) ∧ page_entry s n = Some (pt, entry s pt i) ∧
  (∀ m, 0 ≤ m < 2 ^ 36 → m ≠ n → page_entry s1 m = page_entry s m) ∧ same_data s s1.
Proof.
  intros [Hs Hwf] Hn Hpath Hpt Hm Hroot Hu.
  assert (Hpn : path_of (n * PAGE_SIZE) = i :: p) by (by rewrite path_of_page, page_div).
  pose proof (f_equal tail Hpn : pt_path (n * PAGE_SIZE) = p) as Hp3.
  assert (Hi : pt_index (get_page_entry (n * PAGE_SIZE)) = i) by (pose proof (f_equal head Hpn) as Hh; by injection Hh).
  rewrite <-Hp3 in Hpt. destruct (leaf_write s (n * PAGE_SIZE) pt v Hwf Hpt) as (Hwf2 & Hpte & Ho & Hent).
  rewrite Hi in Hwf2, Hpte, Ho, Hent. set (s2 := set_entry pt i v s) in *.
  assert (Hext : ∀ q, table s1 q = table s2 q) by (intros; by apply table_ext).
  assert (Hsm : ∀ q, (length q ≤ 3)%nat → valid_path q → table s1 q = table s q).
  { intros q Hq Hv. rewrite Hext, Ho; [done|lia|done|]. rewrite Hpn. intros ->.
    apply (f_equal length) in Hpath. cbn [length ppath] in Hpath, Hq. lia. }
  assert (He2 : ∀ t j, entry s1 t j = entry s2 t j) by (intros; unfold entry; by rewrite Hm).
  assert (Hpe : ∀ m, page_entry s1 m = page_entry s2 m).
  { intros m. unfold page_entry, pte_of. rewrite Hext. destruct (table s2 _); [|done]. simpl. by rewrite He2. }
  destruct (tw_page _ Hwf (pt_path (n * PAGE_SIZE)) pt ltac:(simpl; lia) (pt_path_valid (n * PAGE_SIZE)) Hpt) as [Hal _].
  split_and!.
  - split.
    + intros q1 q2 t H1 H2 V1 V2. rewrite !Hsm by done. by apply (tw_inj _ Hwf).
    + intros q t H1 V1. rewrite Hsm by done. intros Ht. destruct (tw_page _ Hwf q t H1 V1 Ht). auto.
  - exact Hsm.
  - rewrite Hpe. exact Hpte.
  - unfold page_entry, pte_of. rewrite Hpt. unfold mbind, option_bind. by rewrite Hi.
  - intros m Hm0 Hmn. rewrite Hpe. unfold page_entry, pte_of.
    assert (Hsm2 : table s2 (pt_path (m * PAGE_SIZE)) = table s (pt_path (m * PAGE_SIZE)))
      by (rewrite <-Hext; apply Hsm; [cbn; lia|apply pt_path_valid]).
    rewrite Hsm2. destruct (table s (pt_path (m * PAGE_SIZE))) as [t|] eqn:Et; [|done]. simpl. do 2 f_equal.
    apply (Hent (pt_path (m * PAGE_SIZE))); [cbn; lia|apply valid_path_of|exact Et|].
    change (path_of (m * PAGE_SIZE) ≠ path_of (n * PAGE_SIZE)). rewrite !path_of_page, !page_div. intros He.
    apply ppath_inj in He; [done|]. rewrite !Z.div_small by lia. done.
  - apply same_data_tables; [exact Hsm|exact Hu|]. intros f j Hf Hj. rewrite He2.
    apply entry_set_ne; [exact Hal|apply Hf| |exact Hj|].
    + pose proof (ppath_valid n) as Hv. rewrite Hpath in Hv. by apply Forall_cons in Hv as [? _].
    + intros [= <- _]. exact (dp_no_table _ _ Hf (pt_path (n * PAGE_SIZE)) pt ltac:(simpl; lia) (pt_path_valid _) Hpt eq_refl).
Qed.

(** ** The loop *)

Lemma keeps_zero_page_find n i z : keeps (λ s, zero_page s = z) (find_available n i).
Proof.
  revert i. induction n as [|n IH]; intros i; cbn [find_available]; [apply keeps_fail|].
  keeps_step; [intros s a s' Hs H; by apply get_count_Done in H as [-> _]|]. keeps_step; [|apply IH].
  keeps_step; [by apply keeps_modify|apply keeps_ret].
Qed.
Lemma keeps_zero_page_available z : keeps (λ s, zero_page s = z) get_available_address.
Proof. unfold get_available_address. keeps_step; [apply keeps_get|apply keeps_zero_page_find]. Qed.
Lemma keeps_zero_page_inc z p : keeps (λ s, zero_page s = z) (inc_count p).
Proof. intros s a s' Hs H. by apply inc_count_Done in H as (n & _ & ->). Qed.
Lemma keeps_zero_page_walk w z : keeps (λ s, zero_page s = z) (walk_tables w).
Proof.
  assert (Ha : keeps (λ s, zero_page s = z) allocate_physical_page).
  { unfold allocate_physical_page. keeps_step; [apply keeps_zero_page_available|].
    keeps_step; [apply keeps_zero_page_inc|]. keeps_step; [by apply keeps_modify|apply keeps_ret]. }
  assert (He : ∀ t i, keeps (λ s, zero_page s = z) (ensure_table t i)).
  { intros t i. unfold ensure_table. keeps_step; [apply keeps_gets|]. keeps_step.
    - keeps_step; [apply keeps_ret|]. keeps_step; [exact Ha|]. keeps_step; [keeps_step; [apply keeps_fail|apply keeps_ret]|].
      keeps_step; by apply keeps_modify.
    - keeps_step; [apply keeps_gets|apply keeps_ret]. }
  unfold walk_tables, or_entry. repeat first [by apply keeps_modify | apply He | keeps_step].
Qed.

Section loop.
Context (I : Z → paging → Prop) (leaf : region_leaf) (off lo hi : Z).
Context (Hwalk : ∀ n s s', I n s → paging_wf s' → grows s s' → same_user s s' → zero_page s' = zero_page s → I n s').
Context (Hleaf : ∀ va n i p pt s, I n s → paging_wf s → va / PAGE_SIZE = n → va mod PAGE_SIZE = off → lo ≤ n < hi →
  ppath n = i :: p → table s p = Some pt →
  wp (leaf va pt i) s (λ _ s',
    paging_wf s' ∧ (∀ q, (length q ≤ 3)%nat → valid_path q → table s' q = table s q) ∧ I (n + 1) s')).

Lemma region_loop_ind stop : hi = stop / PAGE_SIZE → stop mod PAGE_SIZE = 0 → stop + PAGE_SIZE ≤ 2 ^ 64 → ∀ fuel i w s,
  stop - i < PAGE_SIZE * Z.of_nat fuel →
  paging_wf s → walk_inv s (i / PAGE_SIZE) w → 0 ≤ i → i mod PAGE_SIZE = off → lo ≤ i / PAGE_SIZE ≤ hi →
  i / PAGE_SIZE / 2 ^ 36 = hi / 2 ^ 36 → I (i / PAGE_SIZE) s →
  wp (region_loop fuel leaf i stop w) s (λ _ s', paging_wf s' ∧ I hi s').
Proof using Hwalk Hleaf.
  intros Ehi Hal Hstop. induction fuel as [|fuel IH]; intros i w s Hf Hwf Hw Hi Hoff Hlo Hblk HI; cbn [region_loop];
    (destruct (Z.ltb_spec i stop); cbn [negb];
     [|apply wp_ret; split; [done|];
       replace hi with (i / PAGE_SIZE); [done|]; unfold PAGE_SIZE in *; Z.div_mod_to_equations; lia]);
    [unfold PAGE_SIZE in *; lia|].
  assert (Hpages : i / PAGE_SIZE < hi) by (rewrite Ehi; unfold PAGE_SIZE in *; Z.div_mod_to_equations; lia).
  assert (Hnext : (i + PAGE_SIZE) / PAGE_SIZE = i / PAGE_SIZE + 1) by (unfold PAGE_SIZE; Z.div_mod_to_equations; lia).
  assert (Hblk1 : (i / PAGE_SIZE + 1) / 2 ^ 36 = i / PAGE_SIZE / 2 ^ 36)
    by (clear -Hblk Hpages; Z.div_mod_to_equations; lia).
  eapply wp_bind; [apply wp_safe; [apply safe_walk_tables, Hwf|intros w' s1 Hwk; exact Hwk]|].
  intros w' s1 Hwk. cbv beta in Hwk.
  pose proof (keeps_zero_page_walk w (zero_page s) s w' s1 eq_refl Hwk) as Hzp.
  destruct (walk_tables_spec _ _ _ _ _ Hwf Hw Hwk) as (Hwf1 & G1 & Hw1 & Eidx & B1 & B2 & B3 & U1).
  eapply wp_bind; [apply (Hleaf i (i / PAGE_SIZE) _ _ _ s1 (Hwalk _ _ _ HI Hwf1 G1 U1 Hzp) Hwf1 eq_refl Hoff ltac:(lia)
    (eq_sym (wi_idx _ _ _ Hw1)) (wi_pt _ _ _ Hw1 B3))|]. intros _ s2 (Hwf2 & T2 & HI2).
  rewrite u64_id by (unfold PAGE_SIZE in *; lia).
  assert (Hw2 : walk_inv s2 ((i + PAGE_SIZE) / PAGE_SIZE) (walk_advance w')).
  { rewrite Hnext. apply walk_advance_spec; try done.
    pose proof (ppath_valid (i / PAGE_SIZE)) as Hv. rewrite <-(wi_idx _ _ _ Hw1) in Hv.
    do 3 (apply Forall_cons in Hv as [? Hv]; pose proof Hv).
    split; [apply (wi_idx _ _ _ Hw1)|..]; intros _; rewrite T2; try done; try (cbn; lia);
      [apply (wi_pdpt _ _ _ Hw1 B1)|apply (wi_pd _ _ _ Hw1 B2)|apply (wi_pt _ _ _ Hw1 B3)]. }
  apply IH; [unfold PAGE_SIZE in *; lia|exact Hwf2|exact Hw2|unfold PAGE_SIZE; lia| |rewrite Hnext; lia|rewrite Hnext; lia|by rewrite Hnext].
  rewrite <-Hoff. unfold PAGE_SIZE. Z.div_mod_to_equations; lia.
Qed.

Lemma map_region_ind vaddr size s :
  off = vaddr mod PAGE_SIZE → lo = vaddr / PAGE_SIZE → hi = (vaddr + size - 1) / PAGE_SIZE + 1 →
  paging_wf s → 0 ≤ vaddr → 0 < size → vaddr + size + PAGE_SIZE ≤ (vaddr / 2 ^ 48 + 1) * 2 ^ 48 ≤ 2 ^ 64 →
  I lo s → wp (map_region leaf vaddr size) s (λ r s', r = vaddr ∧ paging_wf s' ∧ I hi s').
Proof using Hwalk Hleaf.
  intros Eoff Elo Ehi Hwf Hv Hsz Hblk HI. unfold map_region.
  assert (Hstop : PAGE_ALIGN (u64 (vaddr + size)) = hi * PAGE_SIZE).
  { rewrite u64_id by (unfold PAGE_SIZE in *; lia). rewrite page_align_spec by (unfold PAGE_SIZE in *; lia). lia. }
  rewrite Hstop.
  assert (Hb : hi * PAGE_SIZE + PAGE_SIZE ≤ 2 ^ 64 ∧ lo / 2 ^ 36 = hi / 2 ^ 36 ∧ lo ≤ hi ∧
      hi * PAGE_SIZE - vaddr < PAGE_SIZE * ((hi * PAGE_SIZE - vaddr) / PAGE_SIZE + 1) ∧
      0 ≤ (hi * PAGE_SIZE - vaddr) / PAGE_SIZE + 1).
  { rewrite Elo, Ehi. unfold PAGE_SIZE in *. clear -Hblk Hv Hsz. Z.div_mod_to_equations. lia. }
  destruct Hb as (Hb1 & Hb2 & Hb3 & Hb4 & Hb5). rewrite Elo in Hb2, Hb3, HI.
  eapply wp_bind; [eapply (region_loop_ind (hi * PAGE_SIZE)); [by rewrite page_div|apply page_mod|exact Hb1| |exact Hwf|
    apply walk_inv_start|exact Hv|by symmetry|lia|exact Hb2|exact HI]|].
  - unfold region_fuel. rewrite Z2Nat.id by exact Hb5. exact Hb4.
  - intros _ s' [Hwf' HI']. by apply wp_ret.
Qed.
End loop.

(** ** A page joins the arena *)

Lemma arena_ext s P Q z pend : (∀ n, P n ↔ Q n) → arena s P z pend → arena s Q z pend.
Proof.
  intros HPQ [Hwf Hr Hfr Hpr Hz Hc]. split; try done.
  - intros n Hn. by apply Hr, HPQ.
  - intros n Hn. by apply Hfr, HPQ.
  - intros n m pt e pt' e' Hn Hm. apply Hpr; by apply HPQ.
Qed.

Lemma arena_add s s' P z pend n pt e :
  arena s P z pend → paging_wf s' → same_data s s' → 0 ≤ n < 2 ^ 36 → ¬ P n →
  (∀ m, P m → page_entry s' m = page_entry s m) →
  page_entry s' n = Some (pt, e) → has e FLAGS_PRESENT = true → data_page s' (page_table_to_address e) →
  (if has e FLAGS_RW then ¬ data_page s (page_table_to_address e)
   else has e FLAGS_COW = true ∧ page_table_to_address e = z) →
  let pend' := if has e FLAGS_RW then pend else n :: pend in
  (∃ c, bitmap s' !! (z / PAGE_SIZE) = Some c ∧ zlen pend' < c) →
  arena s' (λ m, P m ∨ m = n) z pend' ∧ writes P s s' 0 [].
Proof.
  intros HA Hwf' Hd Hn HPn Ho He Hp Hde Hk pend' Hc. pose proof HA as [Hwf Hr Hfr Hpr [Hz Hzz] _].
  assert (Hold : ∀ m pt1 e1, P m → page_entry s' m = Some (pt1, e1) → page_entry s m = Some (pt1, e1) ∧
    data_page s (page_table_to_address e1)).
  { intros m pt1 e1 Hm H. rewrite Ho in H by done. split; [done|].
    destruct (Hfr m Hm) as (pt2 & e2 & E & _ & ? & _). rewrite E in H. by injection H as <- <-. }
  split; [split; [done|..]|].
  - intros m [Hm| ->]; [by apply Hr|done].
  - intros m [Hm| ->].
    + destruct (Hfr m Hm) as (pt1 & e1 & E & H1 & H2 & H3). exists pt1, e1. rewrite Ho by done.
      split_and!; try done; [by apply Hd|]. destruct (has e1 FLAGS_RW); [done|].
      destruct H3 as (? & ? & ?). split_and!; try done. unfold pend'. by destruct (has e FLAGS_RW); [|apply list_elem_of_further].
    + exists pt, e. split_and!; try done. unfold pend'. destruct (has e FLAGS_RW); [by intros Hez; apply Hk; rewrite Hez|].
      destruct Hk. split_and!; try done. apply list_elem_of_here.
  - intros m1 m2 pt1 e1 pt2 e2 [H1| ->] [H2| ->] Hne E1 E2 Hw.
    + destruct (Hold _ _ _ H1 E1) as [F1 _], (Hold _ _ _ H2 E2) as [F2 _]. exact (Hpr _ _ _ _ _ _ H1 H2 Hne F1 F2 Hw).
    + destruct (Hold _ _ _ H1 E1) as [F1 D1]. rewrite He in E2. injection E2 as <- <-. intros Heq.
      destruct (has e FLAGS_RW); [by apply Hk; rewrite <-Heq|]. destruct Hk as [_ Hez].
      destruct (Hfr _ H1) as (p3 & e3 & F3 & _ & _ & H3). rewrite F1 in F3. injection F3 as <- <-. rewrite Hw in H3. congruence.
    + destruct (Hold _ _ _ H2 E2) as [F2 D2]. rewrite He in E1. injection E1 as <- <-. rewrite Hw in Hk.
      intros Heq. apply Hk. by rewrite Heq.
    + done.
  - destruct (Hd z Hz) as [Hz' Hze]. split; [done|]. intros j Hj. rewrite Hze by done. by apply Hzz.
  - exact Hc.
  - apply writes_none. intros a Ha.
    destruct (Hfr _ Ha) as (pt1 & e1 & E & H1 & H2 & _).
    rewrite (byte_at_entry s a pt1 e1 (eq_trans (page_entry_va s a) E) H1).
    rewrite (byte_at_entry s' a pt1 e1 (eq_trans (page_entry_va s' a) (eq_trans (Ho _ Ha) E)) H1).
    destruct (frame_offset (page_table_to_address e1) a (pta_aligned e1)) as (_ & _ & Hi).
    destruct (Hd _ H2) as [_ He1]. by rewrite He1.
Qed.

(** The page of an entry that is not present is not in the arena. *)
Lemma arena_absent s P z pend n i p pt : arena s P z pend → page_entry s n = Some (pt, entry s pt i) →
  ppath n = i :: p → next_table s pt i = None → ¬ P n.
Proof.
  intros HA E _ Hnone Hn. destruct (ar_frame _ _ _ _ HA n Hn) as (pt1 & e1 & E1 & Hp & _).
  rewrite E in E1. injection E1 as <- <-. unfold next_table in Hnone. by rewrite Hp in Hnone.
Qed.

(** The entry [v] is installed for the page [n]. *)
Lemma leaf_join s s' P z pend n i p pt v :
  arena s P z pend → 0 ≤ n < 2 ^ 36 → ppath n = i :: p → table s p = Some pt → next_table s pt i = None →
  pm s' = pm (set_entry pt i v s) → pml4_physical s' = pml4_physical s → (∀ pg, used s pg → used s' pg) →
  alloc_inv s' → has v FLAGS_PRESENT = true →
  used s' (page_table_to_address v / PAGE_SIZE) → not_a_table s (page_table_to_address v) →
  (if has v FLAGS_RW then ¬ data_page s (page_table_to_address v)
   else has v FLAGS_COW = true ∧ page_table_to_address v = z) →
  let pend' := if has v FLAGS_RW then pend else n :: pend in
  (∃ c, bitmap s' !! (z / PAGE_SIZE) = Some c ∧ zlen pend' < c) →
  paging_wf s' ∧ (∀ q, (length q ≤ 3)%nat → valid_path q → table s' q = table s q) ∧
  arena s' (λ m, P m ∨ m = n) z pend' ∧ writes P s s' 0 [] ∧ ¬ P n.
Proof.
  intros HA Hn Hpath Hpt Hun Hm Hroot Hu Hal Hp Huse Hnt Hk pend' Hc.
  destruct (leaf_install s s' n i p pt v (ar_wf _ _ _ _ HA) Hn Hpath Hpt Hm Hroot Hu) as (Hwf' & Ht & He & He0 & Ho & Hd).
  split; [by split|]. split; [exact Ht|].
  assert (HPn : ¬ P n) by (by eapply arena_absent).
  destruct (arena_add s s' P z pend n pt v) as [HA' X]; [done|by split|done..| | | | | | |by split].
  - intros m Hm1. apply Ho; [by eapply ar_range|]. by intros ->.
  - exact He.
  - exact Hp.
  - split; [apply pta_aligned|exact Huse|]. intros q t Hq Hv. rewrite Ht by done. by apply Hnt.
  - exact Hk.
  - exact Hc.
Qed.

(** ** The three regions *)

Lemma page_entry_bits pg flags : 0 ≤ pg < 2 ^ 40 → flag_bits flags →
  let v := Z.lor (Z.lor (Z.land (pg * PAGE_SIZE) PAGE_MASK) flags) FLAGS_PRESENT in
  page_table_to_address v = pg * PAGE_SIZE ∧ has v FLAGS_PRESENT = true ∧ has v FLAGS_RW = has flags FLAGS_RW.
Proof.
  intros Hpg Hf v. split_and!.
  - unfold v. rewrite !pta_lor, pta_page, Hf by done. by rewrite !Z.lor_0_r.
  - unfold v. by rewrite has_present_bit, Z.lor_spec, orb_true_r.
  - rewrite !has_rw_bit. unfold v. rewrite page_mask_page, !Z.lor_spec, testbit_page by lia. cbn. by rewrite orb_false_r.
Qed.

Lemma alloc_leaf_ready P z flags va n i p pt s :
  ready P z s → flag_bits flags → has flags FLAGS_RW = true → 0 ≤ n < 2 ^ 36 →
  ppath n = i :: p → table s p = Some pt →
  wp (alloc_leaf flags va pt i) s (λ _ s', paging_wf s' ∧
    (∀ q, (length q ≤ 3)%nat → valid_path q → table s' q = table s q) ∧
    ready (λ m, P m ∨ m = n) z s' ∧ writes P s s' 0 [] ∧ ¬ P n).
Proof.
  intros [pend HA] Hfl Hrw Hn Hpath Hpt. pose proof (ar_wf _ _ _ _ HA) as [Hs Hwf].
  apply wp_safe; [by apply safe_alloc_leaf|]. intros u s' H. pose proof (keeps_alloc_leaf flags va pt i s u s' Hs H) as Hs'.
  unfold alloc_leaf in H. apply K_bind_Done in H as (u1 & s1 & Hc & H).
  apply check_unmapped_Done in Hc as [-> Hun]. apply K_bind_Done in H as (a & s1 & Ha & H).
  destruct (get_available_Done s a s1 Hs Ha) as (pg & -> & Hpg & -> & Hf & _).
  apply K_bind_Done in H as (u2 & s1 & Hm & H). unfold kmodify in Hm. injection Hm as _ <-.
  apply inc_count_Done in H as (c & Hc & ->). rewrite page_div in *.
  cbn [bitmap set_entry set_pm set_first_usable] in Hc. unfold free in Hf. rewrite Hf in Hc. injection Hc as <-.
  change (u32 (0 + 1)) with 1 in *. pose proof (cw_count _ (proj1 Hs)) as Hcount.
  destruct (page_entry_bits pg flags ltac:(lia) Hfl) as (Ea & Ep & Er). set (v := Z.lor _ FLAGS_PRESENT) in *.
  pose proof (free_not_used _ _ Hf) as Hnu.
  destruct (leaf_join s (set_bitmap (<[pg := 1]> (bitmap (set_entry pt i v (set_first_usable (pg + 1) s))))
    (set_entry pt i v (set_first_usable (pg + 1) s))) P z pend n i p pt v HA Hn Hpath Hpt Hun eq_refl eq_refl) as (W & T & A & X & D);
    [| exact Hs'|exact Ep| | | | |].
  - intros k Hk. by apply (used_put_pos (set_entry pt i v (set_first_usable (pg + 1) s))); [lia|].
  - exists 1. rewrite Ea, page_div. split; [apply lookup_insert_eq|lia].
  - apply not_a_table_free; [done|]. by rewrite Ea, page_div.
  - rewrite Er, Hrw, Ea. intros Hd. apply Hnu. rewrite <-(page_div pg). apply Hd.
  - rewrite Er, Hrw. destruct (ar_pending _ _ _ _ HA) as (c & Hc & ?). exists c. split; [|done].
    cbn. rewrite lookup_insert_ne; [done|]. intros ->. pose proof (zlen_nonneg pend). congruence || (rewrite Hf in Hc; injection Hc as <-; lia).
  - split; [exact W|]. split; [exact T|]. split; [by eexists|by split].
Qed.

(** A region of alloc_region is writable at once. *)
Definition region_pages (vaddr size : Z) (n : Z) : Prop := vaddr / PAGE_SIZE ≤ n ≤ (vaddr + size - 1) / PAGE_SIZE.

Lemma ready_ext P Q z s : (∀ n, P n ↔ Q n) → ready P z s → ready Q z s.
Proof. intros HPQ [pend HA]. exists pend. by eapply arena_ext. Qed.
Lemma ready_step P z s s' : ready P z s → paging_wf s' → grows s s' → same_user s s' → ready P z s' ∧ writes P s s' 0 [].
Proof.
  intros [pend HA] Hwf G U. destruct (arena_step s s' P z pend HA Hwf (proj1 U)) as [HA' X].
  - intros n pt e _ He. by apply (same_user_entry s).
  - intros c Hc H0. exists c. split; [by apply G|lia].
  - split; [by exists pend|exact X].
Qed.

(** The pages [lo, hi) join one after the other. *)
Lemma ready_grow P z n lo s : lo ≤ n →
  ready (λ m, (P m ∨ lo ≤ m < n) ∨ m = n) z s → ready (λ m, P m ∨ lo ≤ m < n + 1) z s.
Proof.
  intros Hn. apply ready_ext. intros m. split.
  - intros [[?|?]| ->]; [by left|right; lia|right; lia].
  - intros [?|?]; [by left; left|]. destruct (decide (m = n)); [by right|left; right; lia].
Qed.
Lemma ready_none P z n s : ready P z s → ready (λ m, P m ∨ n ≤ m < n) z s.
Proof. apply ready_ext. intros m. split; [by left|]. intros [?|?]; [done|lia]. Qed.
Lemma region_bounds vaddr size : 0 ≤ vaddr → 0 < size → vaddr + size + PAGE_SIZE ≤ 2 ^ 48 →
  0 ≤ vaddr / PAGE_SIZE < (vaddr + size - 1) / PAGE_SIZE + 1 ∧ (vaddr + size - 1) / PAGE_SIZE + 1 ≤ 2 ^ 36 ∧
  vaddr + size + PAGE_SIZE ≤ (vaddr / 2 ^ 48 + 1) * 2 ^ 48 ≤ 2 ^ 64.
Proof.
  unfold PAGE_SIZE. intros. rewrite (Z.div_small vaddr (2 ^ 48)) by lia. Z.div_mod_to_equations. lia.
Qed.

Lemma alloc_region_ready P z vaddr size flags s :
  ready P z s → flag_bits flags → has flags FLAGS_RW = true → 0 ≤ vaddr → 0 < size → vaddr + size + PAGE_SIZE ≤ 2 ^ 48 →
  wp (alloc_region vaddr size flags) s (λ r s',
    r = vaddr ∧ ready (λ n, P n ∨ region_pages vaddr size n) z s' ∧ writes P s s' 0 [] ∧
    (∀ n, region_pages vaddr size n → ¬ P n)).
Proof.
  intros HR Hfl Hrw Hv Hsz Hend. destruct (region_bounds vaddr size Hv Hsz Hend) as (Hlo & Hhi & Hblk).
  set (lo := vaddr / PAGE_SIZE) in *. set (hi := (vaddr + size - 1) / PAGE_SIZE + 1) in *.
  assert (Hwf : paging_wf s) by (destruct HR as [? HA]; apply HA).
  eapply wp_mono.
  - apply (map_region_ind (λ n s', ready (λ m, P m ∨ lo ≤ m < n) z s' ∧ writes P s s' 0 [] ∧ (∀ m, lo ≤ m < n → ¬ P m)) _ (vaddr mod PAGE_SIZE) lo hi); try done.
    + intros n s1 s2 (HR1 & X1 & D1) Hwf2 G U _. destruct (ready_step _ _ _ _ HR1 Hwf2 G U) as [HR2 X2].
      split; [done|]. split; [|exact D1]. eapply writes_trans_nil; [exact X1|]. intros a Ha. apply X2. by left.
    + intros va n i p pt s1 (HR1 & X1 & D1) _ Hva _ Hn Hpath Hpt.
      eapply wp_mono; [apply (alloc_leaf_ready _ z flags va n i p pt s1 HR1 Hfl Hrw ltac:(lia) Hpath Hpt)|].
      intros _ s2 (W & T & HR2 & X2 & D2). split; [exact W|]. split; [exact T|]. split_and!.
      * apply ready_grow; [lia|exact HR2].
      * eapply writes_trans_nil; [exact X1|]. intros a Ha. apply X2. by left.
      * intros m Hm Pm. destruct (decide (m = n)) as [->|]; [apply D2; by left|exact (D1 m ltac:(lia) Pm)].
    + split_and!; [by apply ready_none|apply writes_nil|intros; lia].
  - intros r s' (-> & _ & HR' & X & D). split; [done|].
    split; [|split; [done|intros n Hn; apply D; unfold region_pages, hi in *; fold lo in Hn; lia]].
    eapply ready_ext; [|exact HR']. intros n. unfold region_pages. fold lo. split; (intros [?|?]; [by left|right; unfold hi in *; lia]).
Qed.

(** A region of alloc_zero_region shares the zero page until it is written. *)
Definition zero_entry (z flags : Z) : Z :=
  Z.lor (Z.lor (Z.lor (Z.land z PAGE_MASK) (Z.land flags (Z.lnot FLAGS_RW))) FLAGS_PRESENT)
    (if has flags FLAGS_RW then FLAGS_COW else 0).

Lemma pta_land a f : page_table_to_address a = 0 → page_table_to_address (Z.land a f) = 0.
Proof.
  unfold page_table_to_address. intros H.
  replace (Z.land (Z.land a f) (Z.lnot FLAGS_MASK)) with (Z.land (Z.land a (Z.lnot FLAGS_MASK)) f)
    by (rewrite <-!Z.land_assoc; f_equal; apply Z.land_comm).
  rewrite H. apply Z.land_0_l.
Qed.
Lemma zero_entry_bits pg flags : 0 ≤ pg < 2 ^ 40 → flag_bits flags → has flags FLAGS_RW = true →
  let v := zero_entry (pg * PAGE_SIZE) flags in
  page_table_to_address v = pg * PAGE_SIZE ∧ has v FLAGS_PRESENT = true ∧ has v FLAGS_RW = false ∧ has v FLAGS_COW = true.
Proof.
  intros Hpg Hf Hrw v. unfold v, zero_entry. rewrite Hrw. split_and!.
  - rewrite !pta_lor, pta_page, pta_land by done. by rewrite !Z.lor_0_r.
  - by rewrite has_present_bit, !Z.lor_spec, orb_true_r.
  - rewrite has_rw_bit, page_mask_page, !Z.lor_spec, testbit_page by lia.
    rewrite (testbit_lnot_pow2 flags 1) by lia. cbn. by rewrite andb_false_r.
  - by rewrite has_cow_bit, !Z.lor_spec, orb_true_r.
Qed.

Lemma frame_counted s f c : alloc_inv s → bitmap s !! (f / PAGE_SIZE) = Some c → 0 ≤ f / PAGE_SIZE < 2 ^ 40.
Proof.
  intros [Hcw _] Hc. pose proof (cw_count _ Hcw).
  assert (0 ≤ f / PAGE_SIZE < usable_page_count s) by (apply (cw_dom _ Hcw); by eexists). lia.
Qed.

Lemma wp_check_unmapped pt i s : wp (check_unmapped pt i) s (λ _ s', s' = s ∧ next_table s pt i = None).
Proof.
  apply wp_safe.
  - unfold check_unmapped. apply safe_bind; [done|]. intros e s1 _.
    destruct (has e FLAGS_PRESENT); [apply safe_panic|apply safe_ret].
  - intros u s' H. by apply check_unmapped_Done in H.
Qed.

Lemma zero_leaf_ready P z flags c va n i p pt s :
  ready P z s → zero_page s = z → bitmap s !! (z / PAGE_SIZE) = Some c → 0 < c < 2 ^ 32 - 1 →
  flag_bits flags → has flags FLAGS_RW = true → 0 ≤ n < 2 ^ 36 →
  ppath n = i :: p → table s p = Some pt →
  wp (zero_leaf flags va pt i) s (λ _ s', paging_wf s' ∧
    (∀ q, (length q ≤ 3)%nat → valid_path q → table s' q = table s q) ∧
    ready (λ m, P m ∨ m = n) z s' ∧ writes P s s' 0 [] ∧ zero_page s' = z ∧
    bitmap s' = <[z / PAGE_SIZE := c + 1]> (bitmap s)).
Proof.
  intros [pend HA] Hz Hc Hc32 Hfl Hrw Hn Hpath Hpt. pose proof (ar_wf _ _ _ _ HA) as [Hs Hwf].
  destruct (ar_zero _ _ _ _ HA) as [Hzd _].
  unfold zero_leaf. eapply wp_bind; [apply wp_check_unmapped|].
  intros _ ? [-> Hun]. eapply (wp_bind _ _ _ (λ a s', a = z ∧ s' = s)); [unfold wp, kgets; by rewrite Hz|].
  intros ? ? [-> ->]. pose proof (frame_counted s z c Hs Hc) as Hpg.
  assert (Ez : z = z / PAGE_SIZE * PAGE_SIZE).
  { pose proof (dp_aligned _ _ Hzd) as H. unfold PAGE_SIZE in *. Z.div_mod_to_equations. lia. }
  fold (zero_entry z flags). destruct (zero_entry_bits (z / PAGE_SIZE) flags Hpg Hfl Hrw) as (Ea & Ep & Er & Ec).
  rewrite <-Ez in Ea, Ep, Er, Ec. set (v := zero_entry z flags) in *.
  eapply wp_bind; [by apply (wp_Done _ s tt (set_entry pt i v s) (λ _ s', s' = set_entry pt i v s))|]. intros _ ? ->.
  set (s2 := set_entry pt i v s).
  set (s3 := set_bitmap (<[z / PAGE_SIZE := c + 1]> (bitmap s2)) s2).
  eapply (wp_Done _ _ tt s3).
  { apply inc_count_Done. exists c. split; [exact Hc|]. by rewrite u32_id by lia. }
  destruct (leaf_join s s3 P z pend n i p pt v
    HA Hn Hpath Hpt Hun eq_refl eq_refl) as (W & T & A & X & _); [| |exact Ep| | | | |].
  - intros k Hk. by apply (used_put_pos s2); [lia|].
  - eapply (alloc_inv_inc s2 (z / PAGE_SIZE) tt).
    + eapply alloc_inv_weaken; [|apply alloc_inv_pm; exact Hs]. by intros ? [].
    + apply inc_count_Done. exists c. split; [exact Hc|]. by rewrite u32_id by lia.
    + intros m Hm. change (bitmap s2) with (bitmap s) in Hm. rewrite Hc in Hm. injection Hm as <-. lia.
  - exists (c + 1). rewrite Ea. split; [apply lookup_insert_eq|lia].
  - rewrite Ea. apply Hzd.
  - rewrite Er. done.
  - rewrite Er. exists (c + 1). split; [apply lookup_insert_eq|]. rewrite zlen_cons.
    destruct (ar_pending _ _ _ _ HA) as (c' & Hc' & ?). rewrite Hc in Hc'. injection Hc' as <-. lia.
  - split_and!; [exact W|exact T|by eexists|exact X|exact Hz|done].
Qed.

Lemma alloc_zero_region_ready P z c vaddr size flags s :
  ready P z s → zero_page s = z → bitmap s !! (z / PAGE_SIZE) = Some c → 0 < c →
  c + ((vaddr + size - 1) / PAGE_SIZE + 1 - vaddr / PAGE_SIZE) < 2 ^ 32 →
  flag_bits flags → has flags FLAGS_RW = true → 0 ≤ vaddr → 0 < size → vaddr + size + PAGE_SIZE ≤ 2 ^ 48 →
  wp (alloc_zero_region vaddr size flags) s (λ r s',
    r = vaddr ∧ ready (λ n, P n ∨ region_pages vaddr size n) z s' ∧ writes P s s' 0 [] ∧
    (∀ pg k, pg ≠ z / PAGE_SIZE → k ≠ 0 → bitmap s !! pg = Some k → bitmap s' !! pg = Some k)).
Proof.
  intros HR Hz Hc Hc0 Hc32 Hfl Hrw Hv Hsz Hend. destruct (region_bounds vaddr size Hv Hsz Hend) as (Hlo & Hhi & Hblk).
  set (lo := vaddr / PAGE_SIZE) in *. set (hi := (vaddr + size - 1) / PAGE_SIZE + 1) in *.
  assert (Hwf : paging_wf s) by (destruct HR as [? HA]; apply HA).
  eapply wp_mono.
  - apply (map_region_ind (λ n s', ready (λ m, P m ∨ lo ≤ m < n) z s' ∧ writes P s s' 0 [] ∧ zero_page s' = z ∧
      bitmap s' !! (z / PAGE_SIZE) = Some (c + (n - lo)) ∧ lo ≤ n ∧
      (∀ pg k, pg ≠ z / PAGE_SIZE → k ≠ 0 → bitmap s !! pg = Some k → bitmap s' !! pg = Some k)) _ (vaddr mod PAGE_SIZE) lo hi); try done.
    + intros n s1 s2 (HR1 & X1 & Z1 & C1 & L1 & O1) Hwf2 G U E. destruct (ready_step _ _ _ _ HR1 Hwf2 G U) as [HR2 X2].
      split_and!; [done| |by rewrite E|apply G; [done|lia]|done|intros; apply G; [by apply O1|done]].
      eapply writes_trans_nil; [exact X1|]. intros a Ha. apply X2. by left.
    + intros va n i p pt s1 (HR1 & X1 & Z1 & C1 & L1 & O1) _ Hva _ Hn Hpath Hpt.
      eapply wp_mono; [apply (zero_leaf_ready _ z flags _ va n i p pt s1 HR1 Z1 C1 ltac:(lia) Hfl Hrw ltac:(lia) Hpath Hpt)|].
      intros _ s2 (W & T & HR2 & X2 & Z2 & C2). split; [exact W|]. split; [exact T|]. split_and!; [|..].
      * by apply ready_grow.
      * eapply writes_trans_nil; [exact X1|]. intros a Ha. apply X2. by left.
      * exact Z2.
      * rewrite C2, lookup_insert_eq. f_equal. lia.
      * lia.
      * intros pg k Hpg Hk Hb. rewrite C2, lookup_insert_ne by done. by apply O1.
    + split_and!; [by apply ready_none|apply writes_nil|done|rewrite Hc; f_equal; lia|lia|done].
  - intros r s' (-> & _ & HR' & X & _ & _ & _ & O). split; [done|]. split; [|by split].
    eapply ready_ext; [|exact HR']. intros n. unfold region_pages. fold lo. split; (intros [?|?]; [by left|right; unfold hi in *; lia]).
Qed.

(** One page of device memory leaves the arena alone. *)
Lemma mmio_leaf_ready P z vaddr paddr flags c va n i p pt s :
  ready P z s → bitmap s !! (paddr / PAGE_SIZE) = Some c → 0 < c < 2 ^ 32 - 1 →
  va = vaddr → 0 ≤ paddr < 2 ^ 64 → 0 ≤ n < 2 ^ 36 → ppath n = i :: p → table s p = Some pt →
  wp (mmio_leaf vaddr paddr flags va pt i) s (λ _ s', paging_wf s' ∧
    (∀ q, (length q ≤ 3)%nat → valid_path q → table s' q = table s q) ∧ ready P z s' ∧ writes P s s' 0 []).
Proof.
  intros [pend HA] Hc Hc32 -> Hpa Hn Hpath Hpt. pose proof (ar_wf _ _ _ _ HA) as [Hs Hwf].
  unfold mmio_leaf. eapply wp_bind; [apply wp_check_unmapped|].
  intros _ ? [-> Hun]. cbv zeta. rewrite Z.sub_diag. change (u64 0) with 0. rewrite Z.add_0_r, u64_id by lia.
  set (v := Z.lor _ FLAGS_PRESENT). set (s2 := set_entry pt i v s).
  eapply wp_bind; [by apply (wp_Done _ s tt s2 (λ _ s0, s0 = s2))|]. intros _ ? ->.
  set (s3 := set_bitmap (<[paddr / PAGE_SIZE := c + 1]> (bitmap s2)) s2).
  eapply (wp_Done _ _ tt s3).
  { apply inc_count_Done. exists c. split; [exact Hc|]. by rewrite u32_id by lia. }
  assert (Hal : alloc_inv s3).
  { eapply (alloc_inv_inc s2 (paddr / PAGE_SIZE) tt).
    + eapply alloc_inv_weaken; [|apply alloc_inv_pm; exact Hs]. by intros ? [].
    + apply inc_count_Done. exists c. split; [exact Hc|]. by rewrite u32_id by lia.
    + intros m Hm. change (bitmap s2) with (bitmap s) in Hm. rewrite Hc in Hm. injection Hm as <-. lia. }
  assert (Hu : ∀ pg, used s pg → used s3 pg) by (intros k Hk; by apply (used_put_pos s2); [lia|]).
  destruct (leaf_install s s3 n i p pt v (conj Hs Hwf) Hn Hpath Hpt eq_refl eq_refl Hu) as (Hwf' & Ht & He & He0 & Ho & Hd).
  split; [by split|]. split; [exact Ht|].
  assert (HPn : ¬ P n) by (by eapply arena_absent).
  destruct (arena_step s s3 P z pend HA) as [HA' X]; [by split|exact Hd| | |split; [by exists pend|exact X]].
  - intros m pt' e' Hm E. rewrite Ho; [done|by eapply ar_range|]. by intros ->.
  - intros c0 Hc0 H0. cbn [bitmap set_bitmap s3]. destruct (decide (paddr / PAGE_SIZE = z / PAGE_SIZE)) as [E|E].
    + rewrite <-E in *. exists (c + 1). split; [apply lookup_insert_eq|]. rewrite Hc in Hc0. injection Hc0 as <-. lia.
    + exists c0. split; [|lia]. by unfold s3; cbn; rewrite lookup_insert_ne.
Qed.

Lemma alloc_mmio_page_ready P z c vaddr paddr size flags s :
  ready P z s → bitmap s !! (paddr / PAGE_SIZE) = Some c → 0 < c < 2 ^ 32 - 1 → 0 ≤ paddr < 2 ^ 64 →
  vaddr mod PAGE_SIZE = 0 → 0 ≤ vaddr → 0 < size ≤ PAGE_SIZE → vaddr + size + PAGE_SIZE ≤ 2 ^ 48 →
  wp (alloc_mmio_region vaddr paddr size flags) s (λ r s', r = vaddr ∧ ready P z s' ∧ writes P s s' 0 []).
Proof.
  intros HR Hc Hc32 Hpa Hal Hv Hsz Hend. destruct (region_bounds vaddr size Hv ltac:(lia) Hend) as (Hlo & Hhi & Hblk).
  assert (Hone : (vaddr + size - 1) / PAGE_SIZE = vaddr / PAGE_SIZE) by (unfold PAGE_SIZE in *; Z.div_mod_to_equations; lia).
  rewrite Hone in *. set (lo := vaddr / PAGE_SIZE) in *.
  assert (Hwf : paging_wf s) by (destruct HR as [? HA]; apply HA).
  eapply wp_mono.
  - apply (map_region_ind (λ n s', ready P z s' ∧ writes P s s' 0 [] ∧ (n = lo → bitmap s' !! (paddr / PAGE_SIZE) = Some c))
      _ (vaddr mod PAGE_SIZE) lo (lo + 1)); try done; [| |by rewrite Hone|lia|].
    + intros n s1 s2 (HR1 & X1 & C1) Hwf2 G U E. destruct (ready_step _ _ _ _ HR1 Hwf2 G U) as [HR2 X2].
      split_and!; [done| |intros En; apply G; [by apply C1|lia]].
      eapply writes_trans_nil; [exact X1|]. intros a Ha. by apply X2.
    + intros va n i p pt s1 (HR1 & X1 & C1) _ Hva Hoff Hn Hpath Hpt. assert (n = lo) as -> by lia.
      assert (va = vaddr) by (unfold lo, PAGE_SIZE in *; Z.div_mod_to_equations; lia).
      eapply wp_mono; [apply (mmio_leaf_ready P z vaddr paddr flags c va lo i p pt s1 HR1 (C1 eq_refl) Hc32); try done; lia|].
      intros _ s2 (W & T & HR2 & X2). split_and!; [done|done|done| |intros; lia]. by eapply writes_trans_nil.
    + split_and!; [done|apply writes_nil|done].
  - intros r s' (-> & _ & HR' & X & _). done.
Qed.
