(* ===== verification/ExecStack.v ===== *)
(** * The stack of a program that starts

    push_arguments of Exec.v lays out the count, the two vectors and the strings;
    the readers of the same file, with which execve takes a vector from a program,
    find them again. *)

From S2P Require Import Prelude Paging PagingAlloc PagingTree PagingMap PagingCow Break Vfs Net Task Signal Elf Exec SchedInv UserMem.

(** A string as C has it: no zero inside. *)
Definition is_string (s : list Z) : Prop := Forall (λ b, 0 < b < 256) s.
Definition string_image (l : list (list Z)) : list Z := flat_map (λ s, s ++ [0]) l.
Definition word_image (l : list Z) : list Z := flat_map (word_bytes 8) l.
Fixpoint string_addresses (l : list (list Z)) (va : Z) : list Z :=
  match l with
  | [] => []
  | s :: l => va :: string_addresses l (va + zlen s + 1)
  end.

Lemma zlen_word_image l : zlen (word_image l) = 8 * zlen l.
Proof.
  induction l as [|w l IH]; [done|]. cbn [word_image flat_map]. change (flat_map (word_bytes 8) l) with (word_image l).
  rewrite zlen_app, zlen_cons, IH. unfold zlen at 1. rewrite length_word_bytes. lia.
Qed.
Lemma is_bytes_app l1 l2 : is_bytes l1 → is_bytes l2 → is_bytes (l1 ++ l2).
Proof. intros. by apply Forall_app. Qed.
Lemma string_bytes s : is_string s → is_bytes (s ++ [0]).
Proof.
  intros Hs. apply is_bytes_app; [|repeat constructor; lia]. eapply Forall_impl; [exact Hs|]. cbn. lia.
Qed.
Lemma zlen_string_addresses l va : zlen (string_addresses l va) = zlen l.
Proof. revert va. induction l as [|s l IH]; intros va; [done|]. cbn [string_addresses]. by rewrite !zlen_cons, IH. Qed.

Section stack.
Context (P : Z → Prop) (z : Z).

Lemma in_pages_sub va n va' n' : in_pages P va n → va ≤ va' → va' + n' ≤ va + n → 0 ≤ n' → in_pages P va' n'.
Proof. intros (H0 & H1 & H2) Ha Hb Hn. split_and!; [lia|lia|]. intros a Ha'. apply H2. lia. Qed.

Lemma push_strings_spec l : ∀ s sp,
  ready P z s → Forall is_string l → in_pages P (sp - zlen (string_image l)) (zlen (string_image l)) →
  wp (push_strings l sp) s (λ r s',
    r = (sp - zlen (string_image l), string_addresses l (sp - zlen (string_image l))) ∧
    ready P z s' ∧ writes P s s' (sp - zlen (string_image l)) (string_image l)).
Proof.
  induction l as [|x l IH]; intros s sp HA Hl Hp; cbn [push_strings].
  - apply wp_ret. cbn [string_image flat_map string_addresses].
    change (zlen []) with 0. rewrite Z.sub_0_r. split_and!; [done|done|apply writes_nil].
  - apply Forall_cons in Hl as [Hx Hl]. cbn [string_image flat_map] in *.
    change (flat_map (λ s, s ++ [0]) l) with (string_image l) in *. pose proof (zlen_nonneg (string_image l)) as Hn1.
    pose proof (zlen_nonneg x) as Hn2.
    assert (Hxl : zlen ((x ++ [0]) ++ string_image l) = zlen x + 1 + zlen (string_image l))
      by (rewrite !zlen_app; change (zlen [0]) with 1; lia). rewrite Hxl in *.
    eapply wp_bind; [apply IH; [exact HA|exact Hl|eapply in_pages_sub; [exact Hp|lia..]]|].
    intros ? s1 (-> & HA1 & Hw1). cbn [fst snd]. destruct Hp as (Hp0 & Hp1 & Hp2). rewrite u64_id by lia.
    replace (sp - zlen (string_image l) - (zlen x + 1)) with (sp - (zlen x + 1 + zlen (string_image l))) by lia.
    set (base := sp - (zlen x + 1 + zlen (string_image l))) in *.
    assert (Hb : zlen (x ++ [0]) = zlen x + 1) by (rewrite zlen_app; done).
    eapply wp_bind; [apply (poke_bytes_ready P z); [exact HA1| |by apply string_bytes]|].
    { rewrite Hb. split_and!; [lia|lia|]. intros a Ha. apply Hp2. lia. }
    intros _ s2 [HA2 Hw2]. apply wp_ret. split_and!; [|done|].
    + f_equal. cbn [string_addresses]. f_equal. f_equal. lia.
    + eapply writes_below; [|exact Hw2]. rewrite Hb. by replace (base + (zlen x + 1)) with (sp - zlen (string_image l)) by lia.
Qed.

Lemma push_words_spec l : ∀ s sp,
  ready P z s → in_pages P (sp - 8 * zlen l) (8 * zlen l) →
  wp (push_words l sp) s (λ r s',
    r = sp - 8 * zlen l ∧ ready P z s' ∧ writes P s s' (sp - 8 * zlen l) (word_image l)).
Proof.
  induction l as [|w l IH]; intros s sp HA Hp; cbn [push_words].
  - apply wp_ret. change (8 * zlen []) with 0. rewrite Z.sub_0_r. split_and!; [done|done|apply writes_nil].
  - rewrite zlen_cons in *. pose proof (zlen_nonneg l) as Hn1.
    eapply wp_bind; [apply IH; [exact HA|eapply in_pages_sub; [exact Hp|lia..]]|].
    intros ? s1 (-> & HA1 & Hw1). cbv zeta. destruct Hp as (Hp0 & Hp1 & Hp2). rewrite u64_id by lia.
    replace (sp - 8 * zlen l - 8) with (sp - 8 * (1 + zlen l)) by lia.
    assert (Hb : zlen (word_bytes 8 w) = 8) by (unfold zlen; by rewrite length_word_bytes).
    eapply wp_bind.
    { unfold wp. rewrite poke_word_bytes. apply (poke_bytes_ready P z); [exact HA1| |apply word_bytes_bytes].
      rewrite Hb. split_and!; [lia|lia|]. intros a Ha. apply Hp2. lia. }
    intros _ s2 [HA2 Hw2]. apply wp_ret. split_and!; [done|done|].
    cbn [word_image flat_map]. eapply writes_below; [|exact Hw2].
    rewrite Hb. by replace (sp - 8 * (1 + zlen l) + 8) with (sp - 8 * zlen l) by lia.
Qed.

Lemma writes_at s s' va va' l : writes P s s' va l → va = va' → writes P s s' va' l.
Proof. by intros ? <-. Qed.
Ltac lengths := rewrite ?zlen_word_image, ?zlen_app, ?zlen_string_addresses, ?zlen_cons, ?zlen_nil; lia.

(** The image of the whole stack, from the stack pointer up. *)
Definition argument_bytes (kargv kenvp : list (list Z)) : Z :=
  8 + 8 * (zlen kargv + 1) + 8 * (zlen kenvp + 1) + zlen (string_image kargv) + zlen (string_image kenvp).
Definition stack_image (kargv kenvp : list (list Z)) (sp : Z) : list Z :=
  let strings := sp + 8 + 8 * (zlen kargv + 1) + 8 * (zlen kenvp + 1) in
  word_image [zlen kargv] ++
  word_image (string_addresses kargv strings ++ [0]) ++
  word_image (string_addresses kenvp (strings + zlen (string_image kargv)) ++ [0]) ++
  string_image kargv ++ string_image kenvp.

Lemma push_arguments_spec kargv kenvp s top :
  ready P z s → Forall is_string kargv → Forall is_string kenvp →
  in_pages P (top - argument_bytes kargv kenvp) (argument_bytes kargv kenvp) →
  wp (push_arguments kargv kenvp top) s (λ r s',
    r = top - argument_bytes kargv kenvp ∧ ready P z s' ∧ writes P s s' r (stack_image kargv kenvp r)).
Proof.
  intros HA Ha He Hp. unfold argument_bytes in *.
  pose proof (zlen_nonneg kargv) as Hn1. pose proof (zlen_nonneg kenvp) as Hn2.
  pose proof (zlen_nonneg (string_image kargv)) as Hn3. pose proof (zlen_nonneg (string_image kenvp)) as Hn4.
  unfold push_arguments.
  eapply wp_bind; [apply push_strings_spec; [exact HA|exact He|eapply in_pages_sub; [exact Hp|lia..]]|].
  intros ? s1 (-> & HA1 & W1). cbn [fst snd].
  eapply wp_bind; [apply push_strings_spec; [exact HA1|exact Ha|eapply in_pages_sub; [exact Hp|lia..]]|].
  intros ? s2 (-> & HA2 & W2). cbn [fst snd].
  eapply wp_bind; [apply push_words_spec; [exact HA2|];
    rewrite zlen_app, zlen_string_addresses; change (zlen [0]) with 1; eapply in_pages_sub; [exact Hp|lia..]|].
  intros ? s3 (-> & HA3 & W3).
  eapply wp_bind; [apply push_words_spec; [exact HA3|];
    rewrite !zlen_app, !zlen_string_addresses; change (zlen [0]) with 1; eapply in_pages_sub; [exact Hp|lia..]|].
  intros ? s4 (-> & HA4 & W4).
  eapply wp_mono; [apply push_words_spec; [exact HA4|];
    rewrite !zlen_app, !zlen_string_addresses; change (zlen [0]) with 1; change (zlen [zlen kargv]) with 1; eapply in_pages_sub; [exact Hp|lia..]|].
  intros ? s' (-> & HA5 & W5).
  rewrite !zlen_app, !zlen_string_addresses in *. change (zlen [0]) with 1 in *. change (zlen [zlen kargv]) with 1 in *.
  split; [lia|]. split; [done|]. unfold stack_image.
  match goal with |- context [string_addresses kargv ?x] =>
    replace x with (top - zlen (string_image kenvp) - zlen (string_image kargv)) by lia end.
  match goal with |- context [string_addresses kenvp ?x] =>
    replace x with (top - zlen (string_image kenvp)) by lia end.
  eapply writes_below; [|exact W5]. eapply writes_below; [|eapply writes_at; [exact W4|]].
  - eapply writes_below; [|eapply writes_at; [exact W3|]].
    + eapply writes_below; [eapply writes_at; [exact W1|]|eapply writes_at; [exact W2|]]; lengths.
    + lengths.
  - lengths.
Qed.

(** ** Reading it back *)

Lemma peek_byte s va b : byte_at s va = Some b → peek 1 va s = Done (b, s).
Proof.
  intros Hb. cbn [peek]. rewrite (K_bind_step _ _ s s s) by done. rewrite Hb. unfold mbind, K_bind, mret, K_ret.
  rewrite Z.shiftl_0_l. do 2 f_equal. lia.
Qed.
Lemma read_string_at x : ∀ s va fuel, is_string x → bytes_at s va (x ++ [0]) → 0 ≤ va → va + zlen x + 1 < 2 ^ 64 →
  (length x < fuel)%nat → read_string fuel va s = Done (x, s).
Proof.
  induction x as [|b x IH]; intros s va fuel Hx Hb Hva Hlt Hf; (destruct fuel as [|fuel]; [cbn in Hf; lia|]);
    cbn [app] in Hb; apply bytes_at_cons in Hb as [Hb Hr]; cbn [read_string].
  - by rewrite (K_bind_step _ _ _ _ _ (peek_byte s va 0 Hb)).
  - rewrite zlen_cons in Hlt. pose proof (zlen_nonneg x). apply Forall_cons in Hx as [Hb0 Hx]. cbn [length] in Hf.
    rewrite (K_bind_step _ _ _ _ _ (peek_byte s va b Hb)).
    rewrite (proj2 (Z.eqb_neq b 0)) by lia. rewrite u64_id by lia.
    rewrite (K_bind_step _ _ s x s) by (apply IH; try done; lia). done.
Qed.

Lemma peek_word w s va : 0 ≤ w < 2 ^ 64 → bytes_at s va (word_bytes 8 w) → 0 ≤ va → va + 8 < 2 ^ 64 →
  peek 8 va s = Done (w, s).
Proof.
  intros Hw Hb Hva Hlt. rewrite <-(length_word_bytes 8 w) at 1.
  rewrite (peek_bytes_at _ s va Hb) by (try done; unfold zlen; rewrite length_word_bytes; lia).
  rewrite le_word_bytes. change (8 * Z.of_nat 8) with 64. by rewrite Z.mod_small.
Qed.

(** A vector of addresses and the strings behind them. *)
Lemma copy_strings_at l : ∀ s p va,
  Forall is_string l → Forall (λ x, zlen x < MAX_ARG_STRING) l →
  bytes_at s p (word_image (string_addresses l va)) → bytes_at s va (string_image l) →
  0 ≤ p → p + 8 * zlen l < 2 ^ 64 → 0 ≤ va → va + zlen (string_image l) < 2 ^ 64 →
  copy_strings (length l) p s = Done (l, s).
Proof.
  induction l as [|x l IH]; intros s p va Hs Hm Hw Hi Hp Hpl Hva Hvl; [done|].
  apply Forall_cons in Hs as [Hx Hs]. apply Forall_cons in Hm as [Hxm Hm].
  cbn [string_addresses word_image string_image flat_map length copy_strings] in *.
  change (flat_map (word_bytes 8) (string_addresses l (va + zlen x + 1))) with
    (word_image (string_addresses l (va + zlen x + 1))) in *.
  change (flat_map (λ s, s ++ [0]) l) with (string_image l) in *.
  apply bytes_at_app in Hw as [Hw1 Hw2]. apply bytes_at_app in Hi as [Hi1 Hi2].
  rewrite zlen_cons in Hpl. rewrite !zlen_app in *. change (zlen [0]) with 1 in *.
  replace (zlen (word_bytes 8 va)) with 8 in * by (unfold zlen; by rewrite length_word_bytes).
  pose proof (zlen_nonneg l). pose proof (zlen_nonneg x). pose proof (zlen_nonneg (string_image l)).
  rewrite (K_bind_step _ _ s va s) by (apply peek_word; try done; lia).
  rewrite (K_bind_step _ _ s x s).
  2: { apply read_string_at; try done; [lia|]. unfold zlen, MAX_ARG_STRING in *. lia. }
  rewrite u64_id by lia.
  rewrite (K_bind_step _ _ s l s); [done|]. apply (IH s (p + 8) (va + zlen x + 1)); try done; try lia.
  by replace (va + zlen x + 1) with (va + (zlen x + 1)) by lia.
Qed.
End stack.

(** ** What a program finds on its stack *)

(** A program reads its arguments at [sp] the way the kernel reads a vector. *)
Record arguments_at (t : paging) (sp : Z) (kargv kenvp : list (list Z)) : Prop := {
  aa_argc : peek 8 sp t = Done (zlen kargv, t);
  aa_argv : copy_strings (length kargv) (sp + 8) t = Done (kargv, t);
  aa_argv_end : peek 8 (sp + 8 + 8 * zlen kargv) t = Done (0, t);
  aa_envp : copy_strings (length kenvp) (sp + 8 + 8 * zlen kargv + 8) t = Done (kenvp, t);
  aa_envp_end : peek 8 (sp + 8 + 8 * zlen kargv + 8 + 8 * zlen kenvp) t = Done (0, t);
}.

Lemma word_image_app l1 l2 : word_image (l1 ++ l2) = word_image l1 ++ word_image l2.
Proof. apply flat_map_app. Qed.
Lemma zlen_word v : zlen (word_bytes 8 v) = 8.
Proof. unfold zlen. by rewrite length_word_bytes. Qed.

Lemma stack_image_arguments t sp kargv kenvp :
  Forall is_string kargv → Forall is_string kenvp →
  Forall (λ x, zlen x < MAX_ARG_STRING) kargv → Forall (λ x, zlen x < MAX_ARG_STRING) kenvp →
  0 ≤ sp → sp + argument_bytes kargv kenvp < 2 ^ 64 →
  bytes_at t sp (stack_image kargv kenvp sp) → arguments_at t sp kargv kenvp.
Proof.
  intros Ha He Hma Hme Hsp Hend Hb. unfold argument_bytes in Hend.
  pose proof (zlen_nonneg kargv) as Hn1. pose proof (zlen_nonneg kenvp) as Hn2.
  pose proof (zlen_nonneg (string_image kargv)) as Hn3. pose proof (zlen_nonneg (string_image kenvp)) as Hn4.
  unfold stack_image in Hb. cbv zeta in Hb. rewrite !word_image_app in Hb.
  change (word_image [zlen kargv]) with (word_bytes 8 (zlen kargv) ++ []) in Hb. change (word_image [0]) with (word_bytes 8 0 ++ []) in Hb.
  rewrite !app_nil_r, <-!app_assoc in Hb. rewrite !bytes_at_app, !zlen_word, !zlen_word_image, !zlen_string_addresses in Hb.
  destruct Hb as (B1 & B2 & B3 & B4 & B5 & B6 & B7).
  split.
  - apply peek_word; [lia|done|lia..].
  - eapply copy_strings_at; [done|done|exact B2| |lia..].
    replace (sp + 8 + 8 * (zlen kargv + 1) + 8 * (zlen kenvp + 1)) with (sp + 8 + 8 * zlen kargv + 8 + 8 * zlen kenvp + 8) by lia. exact B6.
  - apply peek_word; [lia|done|lia..].
  - eapply copy_strings_at; [done|done|exact B4| |lia..].
    replace (sp + 8 + 8 * (zlen kargv + 1) + 8 * (zlen kenvp + 1) + zlen (string_image kargv))
      with (sp + 8 + 8 * zlen kargv + 8 + 8 * zlen kenvp + 8 + zlen (string_image kargv)) by lia. exact B7.
  - apply peek_word; [lia|done|lia..].
Qed.

Lemma zlen_string_image_app l1 l2 : zlen (string_image (l1 ++ l2)) = zlen (string_image l1) + zlen (string_image l2).
Proof. unfold string_image. by rewrite flat_map_app, zlen_app. Qed.
Lemma zlen_stack_image kargv kenvp sp : zlen (stack_image kargv kenvp sp) = argument_bytes kargv kenvp.
Proof.
  unfold stack_image, argument_bytes. cbv zeta.
  rewrite !zlen_app, !zlen_word_image, !zlen_app, !zlen_string_addresses. change (zlen [0]) with 1. change (zlen [zlen kargv]) with 1. lia.
Qed.

Lemma wp_lift_tables {FS N A} (m : K paging A) (s : kernel FS N) (Q : A → kernel FS N → Prop) :
  wp m (tables s) (λ a t, Q a (set_tables t s)) → wp (lift_tables m) s Q.
Proof. unfold wp, lift_tables. by destruct (m (tables s)) as [[a t]| | |]. Qed.

Lemma wp_bind_tables {FS N A B} (m : K paging A) (f : A → K (kernel FS N) B) s R (Q : B → kernel FS N → Prop) :
  wp m (tables s) R → (∀ a t, R a t → wp (f a) (set_tables t s) Q) → wp (lift_tables m ≫= f) s Q.
Proof. unfold wp, lift_tables, mbind, K_bind. intros H Hf. destruct (m (tables s)) as [[a t]| | |]; [by apply Hf|done..]. Qed.

(** The zero page: in use [c] times, no table, and zero. *)
Record clean_zero_page (t : paging) (c : Z) : Prop := {
  cz_data : data_page t (zero_page t);
  cz_zero : ∀ j, 0 ≤ j < 512 → entry t (zero_page t) j = 0;
  cz_count : bitmap t !! (zero_page t / PAGE_SIZE) = Some c;
  cz_pos : 0 < c;
}.
Lemma ready_start t c : paging_wf t → clean_zero_page t c → ready (λ _, False) (zero_page t) t.
Proof. intros Hwf [Hd Hz Hc Hp]. exists []. split; try done. exists c. split; [done|]. change (zlen []) with 0. lia. Qed.

(** C4: the arguments reach the program.  In an address space with well-formed page
    tables and a clean zero page, for vectors of strings that fit the stack, building
    the stack of a program panics (no frame is left, or a page of the stack is already
    mapped) or succeeds; it neither faults nor fails in another way.  The stack pointer
    then lies as far below the top as the arguments are long, and at it the program
    finds its argument count, a vector of pointers through which the very strings are
    read, its terminator, and in the same way the environment: what execve copied
    from the caller. *)
Theorem arguments_reach_program {FS N} (s : kernel FS N) vvar_paddr kargv kenvp c v :
  paging_wf (tables s) → clean_zero_page (tables s) c → c + 128 < 2 ^ 32 →
  0 ≤ vvar_paddr < 2 ^ 64 → vvar_paddr / PAGE_SIZE ≠ zero_page (tables s) / PAGE_SIZE →
  bitmap (tables s) !! (vvar_paddr / PAGE_SIZE) = Some v → 0 < v < 2 ^ 32 - 1 →
  Forall is_string kargv → Forall is_string kenvp →
  Forall (λ x, zlen x < MAX_ARG_STRING) kargv → Forall (λ x, zlen x < MAX_ARG_STRING) kenvp →
  argument_bytes kargv kenvp ≤ STACK_SIZE →
  make_stack vvar_paddr kargv kenvp s = Panic ∨
  ∃ sp s', make_stack vvar_paddr kargv kenvp s = Done (sp, s') ∧
    sp = USER_STACK + STACK_SIZE - argument_bytes kargv kenvp ∧
    arguments_at (tables s') sp kargv kenvp.
Proof.
  intros Hwf Hz Hc Hva Hne Hv Hv32 Ha He Hma Hme Hfit. apply wp_cases. unfold make_stack.
  set (z := zero_page (tables s)) in *. set (P := λ n, False ∨ region_pages USER_STACK STACK_SIZE n).
  eapply wp_bind_tables; [apply (alloc_zero_region_ready (λ _, False) z c);
    try (done || apply Hz); by eapply ready_start|].
  intros _ s1 (_ & HR1 & _ & O1). cbv beta in HR1.
  eapply wp_bind_tables; [apply (alloc_mmio_page_ready P z v); try done; apply O1; [done|lia|done]|].
  intros _ s2 (_ & HR2 & _). apply wp_lift_tables.
  assert (Hin : in_pages P (USER_STACK + STACK_SIZE - argument_bytes kargv kenvp) (argument_bytes kargv kenvp)).
  { unfold in_pages, P, region_pages, STACK_SIZE, USER_STACK, PAGE_SIZE in *. split_and!; [lia|lia|].
    intros a Hb. right. Z.div_mod_to_equations. lia. }
  eapply wp_mono; [apply (push_arguments_spec P z); [exact HR2|done|done|exact Hin]|].
  intros r t (-> & _ & Hw). split; [done|]. destruct Hin as (Hi1 & Hi2 & Hi3).
  apply stack_image_arguments; try done.
  eapply writes_bytes_at; [exact Hw|]. rewrite zlen_stack_image. by split_and!.
Qed.

(** Two arguments and one variable, on a machine of 64 frames. *)
Definition bare_machine : kernel unit unit := set_tables (boot_state 64 3) small_machine.
Lemma bare_zero_page : clean_zero_page (tables bare_machine) 1.
Proof.
  split; [split; [reflexivity|exists 1; split; reflexivity|]|intros j Hj; reflexivity|reflexivity|reflexivity].
  intros [|i q] t _ _; [intros [= <-]; discriminate|]. intros Ht. exfalso.
  change (table (boot_state 64 3) (i :: q) = Some t) in Ht. rewrite boot_state_table in Ht; discriminate.
Qed.
Lemma arguments_reach_program_witness :
  ∃ s', make_stack 0x2000 [[108; 115]; [45; 108]] [[65; 61; 49]] bare_machine = Done (0x10000080000 - 58, s') ∧
    copy_strings 2 (0x10000080000 - 50) (tables s') = Done ([[108; 115]; [45; 108]], tables s').
Proof.
  destruct (completes_Done (make_stack 0x2000 [[108; 115]; [45; 108]] [[65; 61; 49]] bare_machine))
    as [r Hr]; [vm_compute; reflexivity|].
  destruct (arguments_reach_program bare_machine 0x2000 [[108; 115]; [45; 108]] [[65; 61; 49]] 1 1)
    as [H|(sp & s' & H & Hsp & [_ HA _ _ _])].
  - apply boot_state_wf; lia.
  - exact bare_zero_page.
  - reflexivity.
  - split; [discriminate|reflexivity].
  - discriminate.
  - reflexivity.
  - split; reflexivity.
  - repeat constructor.
  - repeat constructor.
  - repeat constructor.
  - repeat constructor.
  - discriminate.
  - exfalso. rewrite H in Hr. discriminate Hr.
  - rewrite Hsp in H, HA. exists s'. split; [exact H|exact HA].
Defined.
