(* ===== verification/ElfImage.v ===== *)
(** * The image of a program

    load_elf of Elf.v puts the segments of the file into memory.  [serves] is what
    it needs from the file: reading a range gives the bytes of the range.  Then the
    pages of every segment hold the bytes of the file followed by zeros, and a
    segment that would share a page with another one stops the machine. *)

From S2P Require Import Prelude Paging PagingAlloc PagingTree PagingMap PagingCow Break Vfs Net Task Signal Elf SchedTree SchedInv UserMem ExecStack.

(** ** What a segment asks for *)

Record segment_ok (content : list Z) (ph : Elf64_Phdr) : Prop := {
  so_vaddr : 0 < p_vaddr ph;
  so_memsz : 0 < p_memsz ph;
  so_end : p_vaddr ph + p_memsz ph + PAGE_SIZE ≤ 2 ^ 48;
  so_filesz : 0 ≤ p_filesz ph ≤ p_memsz ph;
  so_offset : 0 ≤ p_offset ph;
  so_inside : p_offset ph + p_filesz ph ≤ zlen content;
}.
Definition segment_image (content : list Z) (ph : Elf64_Phdr) : list Z :=
  zslice (p_offset ph) (p_filesz ph) content ++ zrepeat (p_memsz ph - p_filesz ph) 0.
(** The highest end of a loadable segment. *)
Definition image_end (l : list Elf64_Phdr) : Z :=
  foldr (λ ph b, if p_type ph =? PT_LOAD then Z.max (p_vaddr ph + p_memsz ph) b else b) 0 l.
Definition loaded (content : list Z) (l : list Elf64_Phdr) (t : paging) : Prop :=
  ∀ ph, ph ∈ l → p_type ph = PT_LOAD → bytes_at t (p_vaddr ph) (segment_image content ph).

Lemma zlen_segment_image content ph : segment_ok content ph → zlen (segment_image content ph) = p_memsz ph.
Proof.
  intros [? ? ? ? ? ?]. unfold segment_image. rewrite zlen_app, zlen_zrepeat, zlen_zslice by lia. lia.
Qed.
Lemma is_bytes_zslice off n l : is_bytes l → is_bytes (zslice off n l).
Proof. intros Hl. unfold zslice, ztake, zdrop. by apply Forall_take, Forall_drop. Qed.
Lemma is_bytes_zeros n : is_bytes (zrepeat n 0).
Proof. unfold zrepeat. apply Forall_replicate. lia. Qed.

(** ** Writes that stay inside some pages *)

Lemma writes_outside P Q s s' va l : writes Q s s' va l → (∀ n, P n → Q n) →
  (∀ a, va ≤ a < va + zlen l → ¬ P (a / PAGE_SIZE)) → writes P s s' 0 [].
Proof.
  intros Hw HPQ Hout. apply writes_none. intros a Ha. rewrite Hw by auto.
  destruct (Z.leb_spec va a), (Z.ltb_spec a (va + zlen l)); cbn [andb]; try done. by destruct (Hout a ltac:(lia)).
Qed.
Lemma writes_keep P s s' va l : writes P s s' 0 [] → in_pages P va (zlen l) → bytes_at s va l → bytes_at s' va l.
Proof. intros Hw (H0 & H1 & H2) Hb i Hi. rewrite Hw by (apply H2; lia). change (zlen []) with 0. rewrite <-Hb by done.
  destruct (Z.leb_spec 0 (va + i)), (Z.ltb_spec (va + i) (0 + 0)); cbn [andb]; lia || done.
Qed.
Lemma in_region_pages P vaddr size : 0 ≤ vaddr → vaddr + size + PAGE_SIZE ≤ 2 ^ 48 →
  in_pages (λ n, P n ∨ region_pages vaddr size n) vaddr size.
Proof.
  intros Hv He. unfold in_pages, region_pages, PAGE_SIZE in *. split_and!; [lia|lia|].
  intros a Ha. right. Z.div_mod_to_equations. lia.
Qed.

Lemma segment_flags_ok nx ph : flag_bits (segment_flags nx ph) ∧ has (segment_flags nx ph) FLAGS_RW = true.
Proof. unfold segment_flags. destruct (_ && _); done. Qed.

Section image.
Context {FS N : Type}.
#[local] Notation kernel := (kernel FS N).
Context (nx : bool).
Context (file : file_handle_t) (content : list Z).

(** The files of the machine are in [Inv], which reading keeps, and the file has
    the bytes [content]. *)
Record serves (Inv : vfs FS → Prop) : Prop := {
  sv_wd : ∀ v w, Inv v → Inv (set_wd w v);
  sv_read : ∀ v off n, Inv v → 0 ≤ off → 0 ≤ n → off + n ≤ zlen content →
    wp (read_file file off n) v (λ r v', r.2 = zslice off n content ∧ Inv v');
}.
Context (Inv : vfs FS → Prop) (Hserves : serves Inv).
Definition reading (s : kernel) : Prop := Inv (files s) ∧ is_Some (tasks s !! current_task s).

Lemma wp_read {B} off n (f : Z * list Z → K kernel B) s Q :
  reading s → 0 ≤ off → 0 ≤ n → off + n ≤ zlen content →
  (∀ e s', reading s' → tables s' = tables s → wp (f (e, zslice off n content)) s' Q) →
  wp (r ← lift_vfs (read_file file off n); f r) s Q.
Proof using Hserves.
  intros [HI [t Ht]] Hoff Hn Hin Hf.
  pose proof (sv_read _ Hserves (set_wd (t_wd (image t)) (files s)) off n (sv_wd _ Hserves _ _ HI) Hoff Hn Hin) as Hr.
  unfold wp in Hr. destruct (read_file file off n (set_wd (t_wd (image t)) (files s))) as [[[e d] v]| | |] eqn:Er.
  2: { unfold lift_vfs. unfold wp, mbind, K_bind. rewrite (current_run s t Ht), Er. done. }
  2-3: done.
  destruct Hr as [Hd HI']. cbn [snd] in Hd. subst d. set (s1 := set_files v s).
  set (u := λ t, set_image (set_t_wd (wd (files s1)) (image t)) t).
  assert (Hrun : lift_vfs (read_file file off n) s =
    Done (e, zslice off n content, set_tasks (<[current_task s1 := u t]> (tasks s1)) s1)).
  { unfold lift_vfs. rewrite (K_bind_step _ _ s t s) by (by apply current_run).
    rewrite (K_bind_step _ _ s (e, zslice off n content) s1) by (by rewrite Er).
    rewrite (K_bind_step _ _ s1 s1 s1) by done.
    by rewrite (K_bind_step _ _ s1 tt _ (update_current_run u s1 t Ht)). }
  unfold wp. rewrite (K_bind_step _ _ _ _ _ Hrun). apply Hf; [|done]. split; [exact HI'|].
  cbn. rewrite lookup_insert_eq. by eexists.
Qed.

Context (Hbytes : is_bytes content) (z : Z).

Lemma reading_tables s t : reading s → reading (set_tables t s).
Proof using. done. Qed.

Lemma load_segment_ready P s ph :
  reading s → ready P z (tables s) → segment_ok content ph →
  wp (load_segment nx file ph) s (λ ok s', ok = true ∧ reading s' ∧
    ready (λ n, P n ∨ region_pages (p_vaddr ph) (p_memsz ph) n) z (tables s') ∧
    writes P (tables s) (tables s') 0 [] ∧ bytes_at (tables s') (p_vaddr ph) (segment_image content ph)).
Proof using Hserves Hbytes.
  intros HI HR Hok. pose proof Hok as [Hv Hm He Hf Ho Hin]. destruct (segment_flags_ok nx ph) as [Hfl Hrw].
  set (Q := λ n, P n ∨ region_pages (p_vaddr ph) (p_memsz ph) n).
  pose proof (in_region_pages P (p_vaddr ph) (p_memsz ph) ltac:(lia) ltac:(lia)) as Hpages. fold Q in Hpages.
  unfold load_segment. eapply wp_bind_tables; [apply (alloc_region_ready P z); try done; lia|].
  intros ? t1 (-> & HR1 & W1 & D1). fold Q in HR1. change NULL with 0. rewrite (proj2 (Z.eqb_neq (p_vaddr ph) 0)) by lia.
  apply wp_read; [done|lia|lia|lia|]. intros e s1 HI1 Et1. cbn [snd].
  set (l := zslice (p_offset ph) (p_filesz ph) content) in *.
  assert (Hl : zlen l = p_filesz ph) by (apply zlen_zslice; lia).
  assert (Hout : ∀ va n, p_vaddr ph ≤ va → va + n ≤ p_vaddr ph + p_memsz ph → ∀ a, va ≤ a < va + n → ¬ P (a / PAGE_SIZE)).
  { intros va n H1 H2 a Ha. apply D1. unfold region_pages, PAGE_SIZE. Z.div_mod_to_equations. lia. }
  destruct Hpages as (Hp0 & Hp1 & Hp2).
  eapply wp_bind_tables.
  { apply (poke_bytes_ready Q z); [by rewrite Et1| |by apply is_bytes_zslice].
    rewrite Hl. split_and!; [lia|lia|]. intros a Ha. apply Hp2. lia. }
  intros _ t2 [HR2 W2]. rewrite Et1 in W2. rewrite !u64_id by lia.
  set (k := zrepeat (p_memsz ph - p_filesz ph) 0).
  assert (Hk : zlen k = p_memsz ph - p_filesz ph) by (unfold k; rewrite zlen_zrepeat; lia).
  eapply wp_bind_tables.
  { apply (poke_bytes_ready Q z (zrepeat (p_memsz ph - p_filesz ph) 0)); [exact HR2| |apply is_bytes_zeros].
    fold k. rewrite Hk. split_and!; [lia|lia|]. intros a Ha. apply Hp2. lia. }
  fold k. intros _ t3 [HR3 W3]. apply wp_ret. cbn [tables set_tables] in *.
  split; [done|]. split; [by apply reading_tables|]. split; [exact HR3|]. split.
  - eapply writes_trans_nil; [exact W1|]. eapply writes_trans_nil.
    + eapply writes_outside; [exact W2|by left|]. rewrite Hl. apply Hout; lia.
    + eapply writes_outside; [exact W3|by left|]. rewrite Hk. apply Hout; lia.
  - unfold segment_image. fold l k. apply bytes_at_app. rewrite Hl. split.
    + eapply writes_apart; [exact W3| |left; rewrite Hl; lia|].
      * rewrite Hl. split_and!; [lia|lia|]. intros a Ha. apply Hp2. lia.
      * eapply writes_bytes_at; [exact W2|]. rewrite Hl. split_and!; [lia|lia|]. intros a Ha. apply Hp2. lia.
    + eapply writes_bytes_at; [exact W3|]. rewrite Hk. split_and!; [lia|lia|]. intros a Ha. apply Hp2. lia.
Qed.

Lemma image_end_range l : (∀ ph, ph ∈ l → p_type ph = PT_LOAD → segment_ok content ph) → 0 ≤ image_end l < 2 ^ 48.
Proof using.
  induction l as [|ph l IH]; intros H; [done|]. cbn [image_end foldr].
  change (foldr _ 0 l) with (image_end l). assert (Hl := IH (λ q Hq, H q (list_elem_of_further _ _ _ Hq))).
  destruct (Z.eqb_spec (p_type ph) PT_LOAD) as [Ht|]; [|done].
  destruct (H ph (list_elem_of_here _ _) Ht). unfold PAGE_SIZE in *. lia.
Qed.

Lemma load_segments_ready l : ∀ P s b,
  reading s → ready P z (tables s) → 0 ≤ b < 2 ^ 48 →
  (∀ ph, ph ∈ l → p_type ph = PT_LOAD → segment_ok content ph) →
  wp (load_segments nx file l b) s (λ r s', r = Some (Z.max b (image_end l)) ∧ reading s' ∧
    (∃ Q, (∀ n, P n → Q n) ∧ ready Q z (tables s')) ∧ writes P (tables s) (tables s') 0 [] ∧ loaded content l (tables s')).
Proof using Hserves Hbytes.
  induction l as [|ph l IH]; intros P s b HI HR Hb Hl; cbn [load_segments].
  - apply wp_ret. split; [cbn; f_equal; lia|]. split; [done|]. split; [by exists P|]. split; [apply writes_nil|].
    intros ph Hph. by apply not_elem_of_nil in Hph.
  - assert (Hl' := λ q Hq, Hl q (list_elem_of_further _ _ _ Hq)). pose proof (image_end_range l Hl') as Hend.
    cbn [image_end foldr]. change (foldr _ 0 l) with (image_end l).
    destruct (Z.eqb_spec (p_type ph) PT_LOAD) as [Ht|Ht].
    + pose proof (Hl ph (list_elem_of_here _ _) Ht) as Hok. pose proof Hok as [Hv Hm He _ _ _].
      eapply wp_bind; [apply (load_segment_ready P); done|]. intros ? s1 (-> & HI1 & HR1 & W1 & B1). cbn [negb].
      assert (Eb : update_break b ph = Z.max b (p_vaddr ph + p_memsz ph)).
      { unfold update_break. change NULL with 0. rewrite u64_id by (unfold PAGE_SIZE in *; lia).
        destruct (Z.eqb_spec b 0), (Z.ltb_spec b (p_vaddr ph + p_memsz ph)); cbn [orb]; lia. }
      rewrite Eb. eapply wp_mono; [apply (IH _ s1 _ HI1 HR1); [unfold PAGE_SIZE in *; lia|exact Hl']|].
      intros r s2 (-> & HI2 & (Q & HPQ & HR2) & W2 & L2). split; [f_equal; lia|]. split; [done|].
      split; [exists Q; split; [intros n Hn; apply HPQ; by left|done]|]. split.
      * eapply writes_trans_nil; [exact W1|]. intros a Ha. apply W2. by left.
      * intros q Hq Hqt. apply elem_of_cons in Hq as [->|Hq]; [|by apply L2].
        eapply writes_keep; [exact W2| |exact B1]. rewrite zlen_segment_image by done. apply in_region_pages; lia.
    + eapply wp_mono; [apply (IH P s b HI HR Hb Hl')|].
      intros r s2 (-> & HI2 & HQ & W2 & L2). split_and!; try done.
      intros q Hq Hqt. apply elem_of_cons in Hq as [->|Hq]; [done|by apply L2].
Qed.

(** ** The whole file *)

Definition header : Elf64_Ehdr := ehdr_of (ztake EHDR_SIZE content).
Definition program_headers : list Elf64_Phdr :=
  phdrs_of (e_phnum header) (zslice (e_phoff header) (e_phnum header * PHDR_SIZE) content).
Definition accepted : bool := bool_decide (zslice 0 4 (e_ident header) = ELFMAG) && compatible_header header.
Context (stack_bytes : buffer_site → Z → list Z).

Lemma wp_read_local {B} site off n (f : list Z → K kernel B) s Q :
  reading s → 0 ≤ off → 0 ≤ n → off + n ≤ zlen content →
  (∀ s', reading s' → tables s' = tables s → wp (f (zslice off n content)) s' Q) →
  wp (b ← read_local stack_bytes site file off n; f b) s Q.
Proof using Hserves.
  intros HI Hoff Hn Hin Hf. unfold read_local.
  assert (E : ∀ (m : K kernel (Z * list Z)) g, (b ← (r ← m; mret (g r)); f b) s = (r ← m; f (g r)) s).
  { intros m g. unfold mbind, K_bind, mret, K_ret. by destruct (m s) as [[? ?]| | |]. }
  unfold wp. rewrite E. apply wp_read; [done..|]. intros e s' HI' Et. cbn [snd].
  rewrite zlen_zslice by lia. rewrite ztake_app_le by (rewrite zlen_zslice; lia).
  rewrite ztake_all by (rewrite zlen_zslice; lia). by apply Hf.
Qed.
Lemma zslice_0 n : zslice 0 n content = ztake n content.
Proof using. unfold zslice. by rewrite zdrop_0. Qed.

Lemma compatible_run s : reading s → EHDR_SIZE ≤ zlen content →
  wp (is_compatible_binary stack_bytes file) s (λ b s', b = accepted ∧ reading s' ∧ tables s' = tables s).
Proof using Hserves.
  intros HI Hlen. unfold is_compatible_binary. eapply wp_bind.
  - unfold is_elf. apply (wp_read_local _ 0 EHDR_SIZE _ _ (λ b s', b = bool_decide (zslice 0 4 (e_ident header) = ELFMAG) ∧
      reading s' ∧ tables s' = tables s)); [done..|exact Hlen|]. intros s1 HI1 E1. apply wp_ret. by rewrite zslice_0.
  - cbv beta. intros b s1 (-> & HI1 & E1). unfold accepted. destruct (bool_decide _); cbn [negb andb]; [|by apply wp_ret].
    apply wp_read_local; [done..|exact Hlen|]. intros s2 HI2 E2. apply wp_ret.
    rewrite zslice_0, E2. done.
Qed.

Lemma load_elf_ready P s : reading s → ready P z (tables s) → EHDR_SIZE ≤ zlen content →
  0 ≤ e_phoff header ∧ 0 ≤ e_phnum header ∧ e_phoff header + e_phnum header * PHDR_SIZE ≤ zlen content →
  (∀ ph, ph ∈ program_headers → p_type ph = PT_LOAD → segment_ok content ph) →
  wp (load_elf nx stack_bytes file) s (λ r s',
    if accepted then r = (e_entry header, Some (PAGE_ALIGN (image_end program_headers))) ∧ loaded content program_headers (tables s') ∧
      writes P (tables s) (tables s') 0 []
    else r = (NULL, None) ∧ tables s' = tables s).
Proof using Hserves Hbytes.
  intros HI HR Hh (Ht1 & Ht2 & Ht3) Hs. unfold load_elf.
  eapply wp_bind; [by apply compatible_run|]. cbv beta. intros b s1 (-> & HI1 & E1).
  destruct accepted; cbn [negb]; [|by apply wp_ret].
  apply wp_read_local; [done..|exact Hh|]. intros s2 HI2 E2. rewrite zslice_0. fold header.
  apply wp_read_local; [done|lia|unfold PHDR_SIZE; lia|lia|]. intros s3 HI3 E3. fold program_headers.
  assert (Et : tables s3 = tables s) by congruence.
  eapply wp_bind; [apply (load_segments_ready program_headers P s3 NULL HI3); [by rewrite Et|done|exact Hs]|].
  cbv beta. intros ? s4 (-> & HI4 & _ & W & L). apply wp_ret. change NULL with 0.
  pose proof (image_end_range _ Hs). rewrite Z.max_r by lia. rewrite <-Et. done.
Qed.
End image.

(** ** What the ELF standard says about the bytes of a file *)

(** A number of [n] bytes, low byte first. *)
Definition number (content : list Z) (off n : Z) : Z := le (zslice off n content).
(** The identification of a 64-bit little-endian file, and the type of an executable. *)
Definition is_program (content : list Z) : bool :=
  bool_decide (zslice 0 6 content = [0x7F; 69; 76; 70; 2; 1]) && bool_decide (zslice 16 2 content = [2; 0]).
Definition entry_point (content : list Z) : Z := number content 24 8.
(** Entry [i] of the table of segments. *)
Definition segment (content : list Z) (i : Z) : Elf64_Phdr :=
  let f off n := number content (number content 32 8 + 56 * i + off) n in
  mk_phdr (f 0 4) (f 4 4) (f 8 8) (f 16 8) (f 24 8) (f 32 8) (f 40 8) (f 48 8).
Definition segments (content : list Z) : list Elf64_Phdr := segment content <$> seqZ 0 (number content 56 2).
(** The header and the table lie in the file, and every loadable segment is sound. *)
Record file_ok (content : list Z) : Prop := {
  fo_header : 64 ≤ zlen content;
  fo_table : number content 32 8 + number content 56 2 * 56 ≤ zlen content;
  fo_segments : ∀ ph, ph ∈ segments content → p_type ph = PT_LOAD → segment_ok content ph;
}.
(** The next multiple of the page size. *)
Definition page_up (a : Z) : Z := (a + 4095) / 4096 * 4096.

Lemma le_nonneg l : is_bytes l → 0 ≤ le l.
Proof. induction 1; cbn [le]; lia. Qed.
Lemma le_two a b : 0 ≤ a < 256 → 0 ≤ b < 256 → le [a; b] = 2 ↔ [a; b] = [2; 0].
Proof. intros Ha Hb. cbn. split; [intros H; repeat f_equal; lia|by intros [= -> ->]]. Qed.
Section decoded.
Context (content : list Z) (Hbytes : is_bytes content) (Hlen : 64 ≤ zlen content).
Lemma number_nonneg off n : 0 ≤ number content off n.
Proof using Hbytes. by apply le_nonneg, is_bytes_zslice. Qed.
Lemma header_slice off n : 0 ≤ off → 0 ≤ n → off + n ≤ 64 → zslice off n (ztake 64 content) = zslice off n content.
Proof using. intros. rewrite zslice_ztake by lia. by rewrite (proj2 (Z.ltb_ge _ _)) by lia. Qed.
Lemma phdr_slice i off n : 0 ≤ i → 0 ≤ off → 0 ≤ n → off + n ≤ 56 → i < number content 56 2 →
  zslice off n (zslice (56 * i) 56 (zslice (number content 32 8) (number content 56 2 * 56) content)) =
  zslice (number content 32 8 + 56 * i + off) n content.
Proof using Hbytes. intros. pose proof (number_nonneg 32 8). rewrite !zslice_zslice by lia. f_equal. lia. Qed.
Lemma header_numbers : e_entry (header content) = entry_point content ∧ e_phoff (header content) = number content 32 8 ∧
  e_phnum (header content) = number content 56 2.
Proof using. unfold header, ehdr_of, EHDR_SIZE, entry_point, number. cbn [e_entry e_phoff e_phnum]. by rewrite !header_slice by lia. Qed.
Lemma program_headers_spec : program_headers content = segments content.
Proof using Hbytes.
  destruct header_numbers as (_ & Eo & En). unfold program_headers, phdrs_of, segments, PHDR_SIZE. rewrite Eo, En.
  apply list_fmap_ext. intros k i Hi. apply list_elem_of_lookup_2, elem_of_seqZ in Hi.
  unfold phdr_of, segment, number. rewrite !phdr_slice by lia. by unfold number.
Qed.
End decoded.
Lemma accepted_spec content : is_bytes content → 64 ≤ zlen content → accepted content = is_program content.
Proof.
  intros Hb Hlen. unfold accepted, is_program, compatible_header, header, ehdr_of, EHDR_SIZE. cbn [e_ident e_type].
  rewrite !header_slice by lia.
  do 18 (destruct content as [|? content]; [unfold zlen in Hlen; cbn in Hlen; lia|]).
  repeat (apply Forall_cons in Hb as [? Hb]). unfold zslice, ztake, zdrop. 
  change (Z.to_nat 0) with 0%nat. change (Z.to_nat 2) with 2%nat. change (Z.to_nat 4) with 4%nat. change (Z.to_nat 6) with 6%nat.
  change (Z.to_nat 16) with 16%nat. change (Z.to_nat EI_CLASS) with 4%nat. change (Z.to_nat EI_DATA) with 5%nat. cbn [drop take nth].
  apply eq_true_iff_eq. rewrite !andb_true_iff, !bool_decide_eq_true, !Z.eqb_eq. unfold ELFMAG, ELFCLASS64, ELFDATA2LSB, ET_EXEC.
  change (take 0 content) with (@nil Z). rewrite le_two by lia. intuition congruence.
Qed.
Lemma page_up_spec a : 0 ≤ a < 2 ^ 48 → PAGE_ALIGN a = page_up a.
Proof.
  intros Ha. unfold PAGE_ALIGN, page_up. rewrite page_mask_land. unfold PAGE_SIZE. rewrite u64_id by lia. do 2 f_equal. lia.
Qed.

(** C3: the loader builds the image.  For a file whose header and program headers lie
    inside it and whose loadable segments are sound (a user address, not more bytes in
    the file than in memory, the bytes inside the file), from well-formed page tables,
    load_elf panics (no frame is left, or two segments share a page) or returns.  A
    file whose identification is not that of a 64-bit little-endian ELF file, or whose
    type is not that of an executable, is refused without a change to memory (the
    machine it is for is not looked at: [foreign_machine_accepted]); for any other the
    result is its entry point and the end of its highest segment, aligned to a page,
    and every loadable segment lies at its address: the bytes of the file, then zeros
    up to its size in memory, whatever the frames held before. *)
Theorem load_elf_correct {FS N} nx stack_bytes file content (Inv : vfs FS → Prop) c (s : kernel FS N) :
  serves file content Inv → is_bytes content → file_ok content →
  Inv (files s) → is_Some (tasks s !! current_task s) →
  paging_wf (tables s) → clean_zero_page (tables s) c →
  load_elf nx stack_bytes file s = Panic ∨
  ∃ r s', load_elf nx stack_bytes file s = Done (r, s') ∧
    if is_program content
    then r = (entry_point content, Some (page_up (image_end (segments content)))) ∧
      loaded content (segments content) (tables s')
    else r = (NULL, None) ∧ tables s' = tables s.
Proof.
  intros Hs Hb [Hh Ht Hf] HI Hc Hwf Hz. apply wp_cases.
  destruct (header_numbers content) as (Ee & Eo & En). pose proof (program_headers_spec content Hb) as Ep.
  pose proof (number_nonneg content Hb 32 8). pose proof (number_nonneg content Hb 56 2).
  rewrite <-(accepted_spec content Hb Hh), <-Ee, <-Ep. rewrite <-Ep in Hf.
  rewrite <-page_up_spec by by apply (image_end_range content).
  eapply wp_mono.
  - apply (load_elf_ready nx file content Inv Hs Hb (zero_page (tables s)) stack_bytes (λ _, False) s);
      [by split|by eapply ready_start|done|rewrite Eo, En; unfold PHDR_SIZE; lia|done].
  - cbv beta. intros r s'. destruct (accepted content); [by intros (? & ? & _)|done].
Qed.

(** ** An example *)

(** A header, one program header and three bytes, loaded at 0x400078 with two zeros. *)
Definition tiny_program : list Z :=
  [0x7f; 69; 76; 70; 2; 1; 1; 0] ++ zrepeat 8 0 ++ word_bytes 2 2 ++ word_bytes 2 62 ++ word_bytes 4 1 ++
  word_bytes 8 0x400078 ++ word_bytes 8 64 ++ word_bytes 8 0 ++ word_bytes 4 0 ++ word_bytes 2 64 ++
  word_bytes 2 56 ++ word_bytes 2 1 ++ word_bytes 2 64 ++ word_bytes 2 0 ++ word_bytes 2 0 ++
  word_bytes 4 1 ++ word_bytes 4 5 ++ word_bytes 8 120 ++ word_bytes 8 0x400078 ++ word_bytes 8 0 ++
  word_bytes 8 3 ++ word_bytes 8 5 ++ word_bytes 8 4096 ++ [0xEB; 0xFE; 0x90].
(** A file system whose every file has these bytes. *)
Definition tiny_fs : filesystem_t unit :=
  mk_filesystem unit [84] true false None
    (λ _ _, mret 1) None (λ _, mret tt) (mret 1) (λ _ h, mret (0, h)) None None None
    (Some (λ _ off n, mret (n, zslice off n tiny_program))) None
    (Some (λ _, mret (0, mk_stat 0 0 0 0 0 0 DT_FILE)))
    None None None None None None None.
Definition tiny_vfs : vfs unit := mk_vfs [tiny_fs] {[ 1 := mk_mountpoint 0 0 0 1 0 0 1 ]} 2 1 tt [47].
Definition tiny_machine : kernel unit unit := set_files tiny_vfs bare_machine.
Definition of_tiny (v : vfs unit) : Prop := ∃ w, v = set_wd w tiny_vfs.

Lemma tiny_serves : serves (mk_file_handle 1 1) tiny_program of_tiny.
Proof.
  split; [intros v w [w' ->]; by exists w|]. intros v off n [w ->] _ _ _.
  change (read_file (mk_file_handle 1 1) off n (set_wd w tiny_vfs)) with
    (@Done (vfs unit) _ ((n, zslice off n tiny_program), set_wd w tiny_vfs)). split; [done|by exists w].
Qed.

Lemma load_elf_correct_witness :
  ∃ s', load_elf true (λ _ _, []) (mk_file_handle 1 1) tiny_machine = Done ((0x400078, Some 0x401000), s') ∧
    byte_at (tables s') 0x400078 = Some 0xEB ∧ byte_at (tables s') 0x40007C = Some 0.
Proof.
  destruct (completes_Done (load_elf true (λ _ _, []) (mk_file_handle 1 1) tiny_machine)) as [r Hr];
    [vm_compute; reflexivity|].
  destruct (load_elf_correct true (λ _ _, []) (mk_file_handle 1 1) tiny_program of_tiny 1 tiny_machine)
    as [H|(r' & s' & H & Hres)].
  - exact tiny_serves.
  - repeat constructor; discriminate.
  - split; [discriminate|vm_compute; discriminate|].
    intros ph Hph _. change (segments tiny_program) with [mk_phdr 1 5 120 0x400078 0 3 5 4096] in Hph.
    apply list_elem_of_singleton in Hph as ->. split; vm_compute; split_and?; congruence.
  - by exists [47].
  - eexists. vm_compute. reflexivity.
  - apply boot_state_wf; lia.
  - exact bare_zero_page.
  - exfalso. rewrite H in Hr. discriminate Hr.
  - change (is_program tiny_program) with true in Hres. destruct Hres as [-> HL]. exists s'. split; [exact H|].
    pose proof (HL (mk_phdr 1 5 120 0x400078 0 3 5 4096) ltac:(by vm_compute; left) eq_refl) as HB.
    pose proof (HB 0 ltac:(vm_compute; split; congruence)) as H0. pose proof (HB 4 ltac:(vm_compute; split; congruence)) as H4.
    split; [exact H0|exact H4].
Defined.
(** A program for another machine (183 is AArch64) is taken for one of this. *)
Definition foreign_program : list Z := zsplice 18 [183; 0] tiny_program.
Lemma foreign_machine_accepted : number foreign_program 18 2 = 183 ∧ compatible_header (header foreign_program) = true ∧
  is_program foreign_program = true.
Proof. by vm_compute. Qed.
