(* ===== verification/Ports.v ===== *)
(** * kernel/io: ports and the chips behind them

    The hardware is a parameter: a state whose ports are read and written ([Ports],
    the interface of every driver).  On it are written the interrupt controllers
    (io/8259pic.c), the timer chip and the clock chip (drivers/timer.c, rtc.c) and
    the configuration space of the PCI bus with its table of devices (io/pci.c).
    A loop that waits for a register is followed for [patience] reads; the code
    itself waits for ever. *)

From S2P Require Import Prelude Calendar.

(** A read may change the device.  The first argument is the width in bytes. *)
Class Ports (M : Type) := {
  port_in : Z → Z → M → Z * M;
  port_out : Z → Z → Z → M → M;
}.

(** [runs m s Q]: the run completes, with a result and a state in [Q]. *)
Definition runs {S A} (m : K S A) (s : S) (Q : A → S → Prop) : Prop := ∃ a s', m s = Done (a, s') ∧ Q a s'.
Lemma runs_ret {S A} (a : A) (s : S) (Q : A → S → Prop) : Q a s → runs (mret a) s Q.
Proof. intros H. by exists a, s. Qed.
Lemma runs_bind {S A B} (m : K S A) (f : A → K S B) s (R : A → S → Prop) (Q : B → S → Prop) :
  runs m s R → (∀ a s', R a s' → runs (f a) s' Q) → runs (m ≫= f) s Q.
Proof.
  intros (a & s' & E & HR) Hf. destruct (Hf a s' HR) as (b & s2 & E2 & HQ). exists b, s2.
  by rewrite (K_bind_step _ _ _ _ _ E).
Qed.
Lemma runs_mono {S A} (m : K S A) s (R Q : A → S → Prop) : runs m s R → (∀ a s', R a s' → Q a s') → runs m s Q.
Proof. intros (a & s' & E & HR) HQ. exists a, s'. auto. Qed.
Lemma runs_kopt {S A} (o : option A) a (s : S) (Q : A → S → Prop) : o = Some a → Q a s → runs (kopt o) s Q.
Proof. intros -> HQ. by exists a, s. Qed.

(** A component that lives inside a larger state. *)
Record part (S A : Type) := mk_part { part_get : S → A; part_put : A → S → S }.
Arguments mk_part {_ _}. Arguments part_get {_ _}. Arguments part_put {_ _}.
Definition on_part {S A B} (p : part S A) (m : K A B) : K S B := λ s,
  match m (part_get p s) with
  | Done (b, a) => Done (b, part_put p a s)
  | Panic => Panic
  | Fault => Fault
  | OutOfFuel => OutOfFuel
  end.

Section ports.
Context {M : Type} `{!Ports M}.

Definition inb (port : Z) : K M Z := λ m, let r := port_in 1 (u16 port) m in Done (u8 r.1, r.2).
Definition inw (port : Z) : K M Z := λ m, let r := port_in 2 (u16 port) m in Done (u16 r.1, r.2).
Definition inl_port (port : Z) : K M Z := λ m, let r := port_in 4 (u16 port) m in Done (u32 r.1, r.2).
Definition outb (port val : Z) : K M unit := λ m, Done (tt, port_out 1 (u16 port) (u8 val) m).
Definition outw (port val : Z) : K M unit := λ m, Done (tt, port_out 2 (u16 port) (u16 val) m).
Definition outl (port val : Z) : K M unit := λ m, Done (tt, port_out 4 (u16 port) (u32 val) m).

(** [while (m());] *)
Fixpoint poll (patience : nat) (m : K M bool) : K M unit :=
  match patience with
  | O => kfuel
  | S n => b ← m; if (b : bool) then poll n m else mret tt
  end.
(** While a register has one of the bits, while it has none of them. *)
Definition while_set (patience : nat) (port mask : Z) : K M unit :=
  poll patience (v ← inb port; mret (has v mask)).
Definition until_set (patience : nat) (port mask : Z) : K M unit :=
  poll patience (v ← inb port; mret (negb (has v mask))).
Fixpoint inw_times (n : nat) (port : Z) : K M (list Z) :=
  match n with
  | O => mret []
  | S n => w ← inw port; l ← inw_times n port; mret (w :: l)
  end.
Fixpoint outw_all (l : list Z) (port : Z) : K M unit :=
  match l with
  | [] => mret tt
  | w :: l => outw port w;; outw_all l port
  end.

(** ** io/8259pic.c *)

Definition PIC1_CMD : Z := 0x20.
Definition PIC1_DATA : Z := 0x21.
Definition PIC2_CMD : Z := 0xA0.
Definition PIC2_DATA : Z := 0xA1.
Definition ICW1_INIT : Z := 0x10.
Definition ICW1_ICW4 : Z := 0x01.

Definition pic_remap (offset1 offset2 : Z) : K M unit :=
  a1 ← inb PIC1_DATA;
  a2 ← inb PIC2_DATA;
  outb PIC1_CMD (Z.lor ICW1_INIT ICW1_ICW4);;
  outb PIC2_CMD (Z.lor ICW1_INIT ICW1_ICW4);;
  outb PIC1_DATA offset1;;
  outb PIC2_DATA offset2;;
  outb PIC1_DATA 4;;
  outb PIC2_DATA 2;;
  outb PIC1_DATA 1;;
  outb PIC2_DATA 1;;
  outb PIC1_DATA a1;;
  outb PIC2_DATA a2.

(** [1 << n], which C defines for the bits of an int only. *)
Definition int_bit (n : Z) : K M Z := if (0 <=? n) && (n <? 31) then mret (Z.shiftl 1 n) else kfault.
Definition pic_enable_irq (irq : Z) : K M unit :=
  if irq <? 8 then
    v ← inb PIC1_DATA; b ← int_bit irq; outb PIC1_DATA (Z.land v (Z.lnot b))
  else
    v ← inb PIC2_DATA; b ← int_bit (irq - 8); outb PIC2_DATA (Z.land v (Z.lnot b)).
Definition pic_disable_irq (irq : Z) : K M unit :=
  if irq <? 8 then
    v ← inb PIC1_DATA; b ← int_bit irq; outb PIC1_DATA (Z.lor v b)
  else
    v ← inb PIC2_DATA; b ← int_bit (irq - 8); outb PIC2_DATA (Z.lor v b).
Definition pic_send_eoi (irq : Z) : K M unit :=
  (if 8 <=? irq then outb PIC2_CMD 0x20 else mret tt);;
  outb PIC1_CMD 0x20.
Definition pic_init : K M unit :=
  pic_remap 32 40;;
  outb PIC1_DATA 0xFF;;
  outb PIC2_DATA 0xFF;;
  pic_enable_irq 2.

(** The handlers of lines 7 and 15: whether the counter of spurious interrupts
    is incremented. *)
Definition irq7_handler : K M bool :=
  outb PIC1_CMD 0x0b;;
  isr ← inb PIC1_CMD;
  mret (has isr (Z.shiftl 1 7)).
Definition irq15_handler : K M bool :=
  outb PIC2_CMD 0x0b;;
  isr ← inb PIC2_CMD;
  if has isr (Z.shiftl 1 7) then pic_send_eoi 7;; mret true else mret false.

(** ** drivers/timer.c and rtc.c *)

Definition pit_set_frequency (frequency : Z) : K M unit :=
  if frequency =? 0 then mret tt
  else
    let divisor := 1193180 / frequency in
    outb 0x43 0x36;;
    outb 0x40 (Z.land divisor 0xFF);;
    outb 0x40 (Z.land (Z.shiftr divisor 8) 0xFF).
(** The page shared with the programs, with the milliseconds at zero. *)
Definition timer_init (v : vvar_t) : K M vvar_t :=
  pit_set_frequency 1000;;
  pic_enable_irq 0;;
  mret (mk_vvar (boot_time v) 0).

Definition rtc_read (reg : Z) : K M Z := outb 0x70 (Z.lor 0x80 reg);; inb 0x71.
Definition rtc_write (reg val : Z) : K M unit := outb 0x70 (Z.lor 0x80 reg);; outb 0x71 val.
Definition enable_nmi : K M unit := outb 0x70 0x00.

Context (patience : nat).

(** The update in progress ends, then the registers are read and decoded. *)
Definition rtc_timestamp : K M Z :=
  poll patience (a ← rtc_read 0x0a; mret (negb (has a 0x80)));;
  poll patience (a ← rtc_read 0x0a; mret (has a 0x80));;
  sec ← rtc_read 0x00;
  min ← rtc_read 0x02;
  hr ← rtc_read 0x04;
  dy ← rtc_read 0x07;
  mon ← rtc_read 0x08;
  yr ← rtc_read 0x09;
  status ← rtc_read 0x0b;
  kopt (rtc_get_timestamp (λ reg,
    if reg =? 0x00 then sec else if reg =? 0x02 then min else if reg =? 0x04 then hr
    else if reg =? 0x07 then dy else if reg =? 0x08 then mon else if reg =? 0x09 then yr else status)).

(** ** io/pci.c: the configuration space *)

Definition PCI_CONFIG_ADDRESS : Z := 0xCF8.
Definition PCI_CONFIG_DATA : Z := 0xCFC.
Definition MAX_PCI_DEVICES : Z := 256.
Definition MAX_PCI_DRIVERS : Z := 32.

(** The arguments are 8 bits wide. *)
Definition pci_address (bus device function offset : Z) : Z :=
  u32 (Z.lor (Z.lor (Z.lor (Z.lor (Z.shiftl 1 31) (Z.shiftl (u8 bus) 16)) (Z.shiftl (u8 device) 11))
    (Z.shiftl (u8 function) 8)) (Z.land (u8 offset) 0xFC)).
Definition pci_config_read (bus device function offset : Z) : K M Z :=
  outl PCI_CONFIG_ADDRESS (pci_address bus device function offset);; inl_port PCI_CONFIG_DATA.
Definition pci_config_write (bus device function offset value : Z) : K M unit :=
  outl PCI_CONFIG_ADDRESS (pci_address bus device function offset);; outl PCI_CONFIG_DATA value.

Record pci_device_t := mk_pci_device {
  pci_bus : Z;
  pci_device : Z;
  pci_function : Z;
  vendor_id : Z;
  device_id : Z;
  class_code : Z;
  pci_irq : Z;
  bar : list Z;
}.
Fixpoint read_bars (n : nat) (i bus device function : Z) : K M (list Z) :=
  match n with
  | O => mret []
  | S n =>
    b ← pci_config_read bus device function (0x10 + i * 4);
    l ← read_bars n (i + 1) bus device function;
    mret (b :: l)
  end.
(** One step of the scan: the table with what answers at the address. *)
Definition probe (found : list pci_device_t) (bus device function : Z) : K M (list pci_device_t) :=
  id ← pci_config_read bus device function 0x00;
  let vendor := Z.land id 0xFFFF in
  if vendor =? 0xFFFF then mret found
  else
    class_reg ← pci_config_read bus device function 0x08;
    irq ← pci_config_read bus device function 0x3C;
    if zlen found <? MAX_PCI_DEVICES then
      bars ← read_bars 6 0 bus device function;
      mret (found ++ [mk_pci_device bus device function vendor (Z.land (Z.shiftr id 16) 0xFFFF)
        (Z.land (Z.shiftr class_reg 24) 0xFF) (Z.land irq 0xFF) bars])
    else mret found.
(** The three nested loops visit these addresses. *)
Definition pci_addresses : list (Z * Z * Z) :=
  flat_map (λ bus, flat_map (λ device, map (λ function, (bus, device, function)) (seqZ 0 8)) (seqZ 0 32)) (seqZ 0 256).
Fixpoint scan_bus (l : list (Z * Z * Z)) (found : list pci_device_t) : K M (list pci_device_t) :=
  match l with
  | [] => mret found
  | (bus, device, function) :: l => found ← probe found bus device function; scan_bus l found
  end.
End ports.

(** ** The drivers on the bus *)

Record pci_driver_t (S : Type) := mk_pci_driver {
  drv_init : option (pci_device_t → K S unit);
  drv_isr : option (Z → K S unit);
  drv_vendor : Z;
  drv_device : Z;
}.
Arguments mk_pci_driver {_}. Arguments drv_init {_}. Arguments drv_isr {_}.
Arguments drv_vendor {_}. Arguments drv_device {_}.

(** The drivers run on a state [S] in which the ports are a part. *)
Section bus.
Context {S M : Type} `{!Ports M} (hw : part S M).
#[local] Notation driver := (pci_driver_t S).

Definition register_pci_driver (drivers : list driver) (d : driver) : list driver :=
  if zlen drivers <? MAX_PCI_DRIVERS then drivers ++ [d] else drivers.

Definition matches (d : driver) (dev : pci_device_t) : bool :=
  (drv_vendor d =? vendor_id dev) && (drv_device d =? device_id dev).
Fixpoint init_device (drivers : list driver) (dev : pci_device_t) : K S unit :=
  match drivers with
  | [] => mret tt
  | d :: drivers =>
    (if matches d dev then
       match drv_init d with
       | Some init => on_part hw (pic_enable_irq (pci_irq dev));; init dev
       | None => mret tt
       end
     else mret tt);;
    init_device drivers dev
  end.
Fixpoint init_devices (drivers : list driver) (l : list pci_device_t) : K S unit :=
  match l with
  | [] => mret tt
  | dev :: l => init_device drivers dev;; init_devices drivers l
  end.
(** The result is the table of devices. *)
Definition enumerate_pci (drivers : list driver) : K S (list pci_device_t) :=
  found ← on_part hw (scan_bus pci_addresses []);
  init_devices drivers found;;
  mret found.
Fixpoint pci_irq_handler (drivers : list driver) (irq : Z) : K S unit :=
  match drivers with
  | [] => mret tt
  | d :: drivers =>
    match drv_isr d with Some isr => isr irq | None => mret tt end;;
    pci_irq_handler drivers irq
  end.
End bus.

(** ** What the scan finds *)

(** The standard gives each function of a device 64 registers of 32 bits, and the number
    under which the address port selects one. *)
Definition config_number (bus device function register : Z) : Z :=
  2 ^ 31 + bus * 2 ^ 16 + device * 2 ^ 11 + function * 2 ^ 8 + register * 4.
(** The functions by their numbers: 256 buses with 32 devices of 8 functions. *)
Definition bus_function (n : Z) : Z * Z * Z := (n / 256, n / 8 mod 32, n mod 8).
(** A function answers if its vendor is not all ones.  Register 0 holds the vendor and the
    device, 2 the class, 15 the interrupt line, and 4 to 9 the base addresses. *)
Definition described (cfg : Z → Z → Z → Z → Z) (a : Z * Z * Z) : option pci_device_t :=
  let '(bus, device, function) := a in
  let register := cfg bus device function in
  if decide (register 0 mod 2 ^ 16 = 2 ^ 16 - 1) then None
  else Some (mk_pci_device bus device function (register 0 mod 2 ^ 16) (register 0 / 2 ^ 16)
    (register 2 / 2 ^ 24) (register 15 mod 2 ^ 8) (register <$> [4; 5; 6; 7; 8; 9])).

(** The two ports of the configuration space, which the scan does not change. *)
Record config_laws (M : Type) (P : Ports M) (address : M → Z) (cfg : Z → Z → Z → Z → Z) : Prop := {
  cl_out : ∀ a m, address (port_out 4 PCI_CONFIG_ADDRESS a m) = a;
  cl_in : ∀ m b d f r, 0 ≤ b < 256 → 0 ≤ d < 32 → 0 ≤ f < 8 → 0 ≤ r < 64 →
    address m = config_number b d f r → (port_in 4 PCI_CONFIG_DATA m).1 = cfg b d f r;
  cl_range : ∀ b d f r, 0 ≤ cfg b d f r < 2 ^ 32;
}.

Definition on_bus (a : Z * Z * Z) : Prop := 0 ≤ a.1.1 < 256 ∧ 0 ≤ a.1.2 < 32 ∧ 0 ≤ a.2 < 8.
Lemma bus_function_on_bus n : 0 ≤ n < 2 ^ 16 → on_bus (bus_function n).
Proof.
  intros Hn. unfold on_bus, bus_function. cbn [fst snd]. pose proof (Z.mod_pos_bound (n / 8) 32). pose proof (Z.mod_pos_bound n 8).
  split_and!; try lia; [apply Z.div_pos; lia|apply Z.div_lt_upper_bound; lia].
Qed.
(** Two nested loops as one. *)
Lemma flat_map_seqZ {A} (g : Z → Z → A) n m : 0 < n →
  flat_map (λ x, g x <$> seqZ 0 n) (seqZ 0 (Z.of_nat m)) = (λ k, g (k / n) (k mod n)) <$> seqZ 0 (Z.of_nat m * n).
Proof.
  intros Hn. induction m as [|m IH]; [done|].
  replace (Z.of_nat (S m)) with (Z.of_nat m + 1) by lia. rewrite seqZ_app, flat_map_app, IH by lia.
  replace ((Z.of_nat m + 1) * n) with (Z.of_nat m * n + n) by lia. rewrite (seqZ_app 0 (Z.of_nat m * n) n), fmap_app by nia.
  f_equal. rewrite Z.add_0_l. rewrite (seqZ_cons (Z.of_nat m) 1) by lia. change (Z.pred 1) with 0. cbn [flat_map seqZ]. rewrite app_nil_r, Z.add_0_l.
  replace (seqZ (Z.of_nat m * n) n) with (Z.add (Z.of_nat m * n) <$> seqZ 0 n) by (rewrite fmap_add_seqZ; f_equal; lia).
  rewrite <-list_fmap_compose. apply list_fmap_ext. intros i k Hk. cbn.
  apply list_elem_of_lookup_2, elem_of_seqZ in Hk. by rewrite Z.div_add_l, Z.div_small, Z.add_0_r, Z.add_comm, Z.mod_add, Z.mod_small by lia.
Qed.
Lemma pci_addresses_eq : pci_addresses = bus_function <$> seqZ 0 (2 ^ 16).
Proof.
  unfold pci_addresses.
  replace (flat_map _ (seqZ 0 256)) with (flat_map (λ bus, (λ n, (bus, n / 8, n mod 8)) <$> seqZ 0 (32 * 8)) (seqZ 0 256)).
  2: { apply flat_map_ext. intros bus. symmetry. by apply (flat_map_seqZ (λ device function, (bus, device, function)) 8 32). }
  etrans; [by apply (flat_map_seqZ (λ bus n, (bus, n / 8, n mod 8)) (32 * 8) 256)|].
  change (Z.of_nat 256 * (32 * 8)) with (2 ^ 16). apply list_fmap_ext. intros _ n _. unfold bus_function. change (32 * 8) with 256.
  assert ((n mod 256) / 8 = n / 8 mod 32) as -> by (rewrite (Z.div_mod n 256) at 2 by lia;
    replace (256 * (n / 256) + n mod 256) with (n mod 256 + 32 * (n / 256) * 8) by lia; rewrite Z.div_add, Z.add_comm by lia;
    replace (32 * (n / 256)) with (n / 256 * 32) by lia; rewrite Z.add_comm, Z.mod_add by lia;
    pose proof (Z.mod_pos_bound n 256); symmetry; apply Z.mod_small; split; [apply Z.div_pos; lia|apply Z.div_lt_upper_bound; lia]).
  f_equal. rewrite (Z.div_mod n 256) at 2 by lia. replace (256 * (n / 256) + n mod 256) with (n mod 256 + 32 * (n / 256) * 8) by lia.
  by rewrite Z.mod_add.
Qed.
Lemma pci_addresses_on_bus : Forall on_bus pci_addresses.
Proof. rewrite pci_addresses_eq. apply Forall_fmap, Forall_seqZ. intros n Hn. apply bus_function_on_bus. lia. Qed.
Lemma pci_address_number b d f r : 0 ≤ b < 256 → 0 ≤ d < 32 → 0 ≤ f < 8 → 0 ≤ r < 64 →
  pci_address b d f (r * 4) = config_number b d f r.
Proof.
  intros Hb Hd Hf Hr. unfold pci_address, config_number.
  assert (Z.land (u8 (r * 4)) 0xFC = r * 4) as ->.
  { assert (H : forallb (λ r, Z.land (u8 (r * 4)) 0xFC =? r * 4) (seqZ 0 64) = true) by (vm_compute; reflexivity).
    rewrite forallb_forall in H. apply Z.eqb_eq, H, list_elem_of_In, elem_of_seqZ. lia. }
  rewrite !u8_id by lia. rewrite (Z.shiftl_mul_pow2 b), (Z.shiftl_mul_pow2 d), (Z.shiftl_mul_pow2 f), (lor_shiftl 1) by lia.
  replace (1 * 2 ^ 31 + b * 2 ^ 16) with (Z.shiftl (2 ^ 15 + b) 16) by (rewrite Z.shiftl_mul_pow2; lia).
  rewrite (lor_shiftl (2 ^ 15 + b)) by lia.
  replace ((2 ^ 15 + b) * 2 ^ 16 + d * 2 ^ 11) with (Z.shiftl ((2 ^ 15 + b) * 2 ^ 5 + d) 11) by (rewrite Z.shiftl_mul_pow2; lia).
  rewrite (lor_shiftl ((2 ^ 15 + b) * 2 ^ 5 + d)) by lia.
  replace (((2 ^ 15 + b) * 2 ^ 5 + d) * 2 ^ 11 + f * 2 ^ 8) with (Z.shiftl (((2 ^ 15 + b) * 2 ^ 5 + d) * 2 ^ 3 + f) 8)
    by (rewrite Z.shiftl_mul_pow2; lia).
  rewrite lor_shiftl by lia. rewrite u32_id; lia.
Qed.
Lemma high_bits z n m : 0 ≤ n → 0 ≤ m → 0 ≤ z < 2 ^ (n + m) → Z.land (Z.shiftr z n) (Z.ones m) = z / 2 ^ n.
Proof.
  intros Hn Hm Hz. rewrite Z.land_ones, Z.shiftr_div_pow2 by lia. apply Z.mod_small.
  split; [apply Z.div_pos; lia|]. apply Z.div_lt_upper_bound; [lia|]. rewrite <-Z.pow_add_r by lia. lia.
Qed.
Section scan.
Context {M : Type} `{P : !Ports M} (address : M → Z) (cfg : Z → Z → Z → Z → Z) (Hlaws : config_laws M P address cfg).

Lemma config_read_run b d f r m : on_bus (b, d, f) → 0 ≤ r < 64 →
  runs (pci_config_read b d f (r * 4)) m (λ v _, v = cfg b d f r).
Proof using Hlaws.
  intros (Hb & Hd & Hf) Hr. unfold pci_config_read, outl, inl_port. eexists _, _. split; [reflexivity|]. cbn [fst].
  change (u16 PCI_CONFIG_DATA) with PCI_CONFIG_DATA. change (u16 PCI_CONFIG_ADDRESS) with PCI_CONFIG_ADDRESS.
  rewrite (cl_in _ _ _ _ Hlaws _ b d f r); [apply u32_id, (cl_range _ _ _ _ Hlaws)|done..|].
  rewrite (cl_out _ _ _ _ Hlaws), (u32_id (pci_address _ _ _ _)) by apply u32_range. by apply pci_address_number.
Qed.
Lemma read_bars_run n : ∀ i b d f m, on_bus (b, d, f) → 0 ≤ i → i + Z.of_nat n ≤ 60 →
  runs (read_bars n i b d f) m (λ l _, l = cfg b d f <$> seqZ (4 + i) (Z.of_nat n)).
Proof using Hlaws.
  induction n as [|n IH]; intros i b d f m Ha Hi Hn; cbn [read_bars]; [by apply runs_ret|].
  replace (0x10 + i * 4) with ((4 + i) * 4) by lia.
  eapply runs_bind; [apply config_read_run; [done|lia]|]. intros x m1 ->. eapply runs_bind; [apply IH; [done|lia..]|]. intros l m2 ->.
  apply runs_ret. rewrite (seqZ_cons (4 + i)) by lia. replace (Z.pred (Z.of_nat (S n))) with (Z.of_nat n) by lia.
  cbn [fmap list_fmap]. do 2 f_equal. f_equal. lia.
Qed.
Lemma probe_run found b d f m : on_bus (b, d, f) →
  runs (probe found b d f) m (λ l _,
    l = found ++ (if zlen found <? MAX_PCI_DEVICES then from_option (λ d, [d]) [] (described cfg (b, d, f)) else [])).
Proof using Hlaws.
  intros Ha. unfold probe. change 0x00 with (0 * 4). change 0x08 with (2 * 4). change 0x3C with (15 * 4).
  pose proof (cl_range _ _ _ _ Hlaws b d f) as Hr.
  eapply runs_bind; [apply config_read_run; [done|lia]|]. intros id m1 ->. cbv zeta. unfold described.
  change 0xFFFF with (Z.ones 16). rewrite (Z.land_ones _ 16) by lia. change (Z.ones 16) with (2 ^ 16 - 1).
  destruct (Z.eqb_spec (cfg b d f 0 mod 2 ^ 16) (2 ^ 16 - 1)) as [E|E]; case_decide; [|done|done|].
  { apply runs_ret. case_match; by rewrite app_nil_r. }
  eapply runs_bind; [apply config_read_run; [done|lia]|]. intros c m2 ->. eapply runs_bind; [apply config_read_run; [done|lia]|]. intros irq m3 ->.
  destruct (zlen found <? _); [|apply runs_ret; by rewrite app_nil_r].
  eapply runs_bind; [apply read_bars_run; [done|lia..]|]. intros bars m4 ->. apply runs_ret. cbn [from_option].
  change (2 ^ 16 - 1) with (Z.ones 16). change 0xFF with (Z.ones 8). rewrite !high_bits, Z.land_ones by (done || lia). done.
Qed.
Lemma scan_bus_run l : ∀ found m, Forall on_bus l → zlen found ≤ MAX_PCI_DEVICES →
  runs (scan_bus l found) m (λ r _, r = ztake MAX_PCI_DEVICES (found ++ omap (described cfg) l)).
Proof using Hlaws.
  induction l as [|[[bus device] function] l IH]; intros found m Hb Hl; cbn [scan_bus].
  - apply runs_ret. cbn. by rewrite app_nil_r, ztake_all.
  - apply Forall_cons in Hb as [Hb1 Hb]. eapply runs_bind; [by apply probe_run|]. intros r m1 ->.
    assert (0 ≤ zlen found) by apply zlen_nonneg. change (omap _ (?a :: l)) with (omap (described cfg) ([a] ++ l)). rewrite omap_app.
    destruct (Z.ltb_spec (zlen found) MAX_PCI_DEVICES) as [Hlt|Hge].
    + eapply runs_mono; [apply IH; [done|]|].
      * rewrite zlen_app. destruct (described _ _) as [d|]; cbn [from_option]; [change (zlen [d]) with 1|change (zlen []) with 0]; lia.
      * intros ? ? ->. rewrite <-app_assoc. do 3 f_equal.
    + rewrite app_nil_r. eapply runs_mono; [by apply IH|]. intros ? ? ->. by rewrite !ztake_app_le, !ztake_all by lia.
Qed.

(** C13: The PCI scan finds the functions that are there.  On any configuration space
    the scan of enumerate_pci ends with the table of the functions that answer among the 65536
    of the standard, in the order of bus, device and function, each with its ids, class,
    interrupt line and base addresses from its registers, cut to the 256 entries of the table. *)
Theorem pci_scan_finds_functions m :
  runs (scan_bus pci_addresses []) m (λ l _, l = ztake 256 (omap (described cfg) (bus_function <$> seqZ 0 (2 ^ 16)))).
Proof using Hlaws.
  rewrite <-pci_addresses_eq. apply (scan_bus_run pci_addresses []); [apply pci_addresses_on_bus|done].
Qed.
End scan.

(** A bus with one network card, in slot 3. *)
Definition one_card (a : Z) : Z :=
  if a =? config_number 0 3 0 0 then 0x813910EC else if a =? config_number 0 3 0 15 then 0x10B else 0xFFFFFFFF.
#[local] Instance bus_ports : Ports Z := {|
  port_in width port m := (if port =? PCI_CONFIG_DATA then one_card m else 0, m);
  port_out width port v m := if port =? PCI_CONFIG_ADDRESS then v else m;
|}.
Definition card_registers (b d f r : Z) : Z := one_card (config_number b d f r).
Lemma pci_scan_finds_functions_witness :
  runs (scan_bus pci_addresses []) 0 (λ l _, l = ztake 256 (omap (described card_registers) (bus_function <$> seqZ 0 (2 ^ 16)))) ∧
  (λ d, (pci_device d, vendor_id d, device_id d, pci_irq d)) <$> described card_registers (bus_function 24) = Some (3, 0x10EC, 0x8139, 11).
Proof.
  split; [|reflexivity]. apply (pci_scan_finds_functions id card_registers). split.
  - done.
  - intros m b d f r _ _ _ _ Hm. unfold card_registers. by rewrite <-Hm.
  - intros b d f r. unfold card_registers, one_card. repeat case_match; lia.
Defined.
