(* ===== verification/Drivers.v ===== *)
(** * kernel/drivers/serial.c, io/ps2.c and drivers/fbdev.c

    The serial lines, which are terminals, the controller of keyboard and mouse
    with the initialisation of both, and the framebuffers as files.  The ports are
    those of Ports.v; the terminals and the handlers of scancodes and mouse bytes
    are Tty.v and Input.v. *)

From S2P Require Import Prelude Pipe Paging Calendar Path Vfs Block Task Tty Input Elf UserMem Ports.

(** ** drivers/serial.c *)

Definition COM1_PORT : Z := 0x3F8.
Definition COM2_PORT : Z := 0x2F8.
Definition COM3_PORT : Z := 0x3E8.
Definition COM4_PORT : Z := 0x2E8.
Definition serial_ports : list Z := [COM1_PORT; COM2_PORT; COM3_PORT; COM4_PORT].
Definition interrupt_numbers : list Z := [4; 3; 4; 3].
Definition serial_tty_name (i : Z) : list Z := [116; 116; 121; 83; 48 + i].

Record serial := mk_serial {
  enabled : list bool;
  serial_tty_ids : list Z;
}.
Definition serial_port_exists (s : serial) (port : Z) : bool :=
  (1 <=? port) && (port <=? 4) && default false (znth (enabled s) (port - 1)).

Section serial.
(** The host of the terminals has the ports, the state above and the clock. *)
Context {D M : Type} `{!TtyHost D} `{!Ports M} (hw : part D M) (ser : part D serial) (clock : D → vvar_t).
Context (patience : nat).

(** Whether a byte came back before the time was over. *)
Fixpoint loopback (n : nat) (port start_tick : Z) : K D bool :=
  match n with
  | O => kfuel
  | S n =>
    v ← on_part hw (inb (port + 5));
    if has v 0x01 then mret true
    else
      now ← kgets clock;
      if 50 <? u64 (get_uptime_milliseconds now - start_tick) then mret false
      else loopback n port start_tick
  end.
(** Set up the line [i] and test it. *)
Definition serial_probe (i : Z) : K D unit :=
  port ← kopt (znth serial_ports i);
  on_part hw (
    outb (port + 1) 0x00;;
    outb (port + 3) 0x80;;
    outb (port + 0) 0x02;;
    outb (port + 1) 0x00;;
    outb (port + 3) 0x03;;
    outb (port + 2) 0xC7;;
    outb (port + 4) 0x10;;
    outb (port + 0) 0xAE);;
  start ← kgets clock;
  came ← loopback patience port (get_uptime_milliseconds start);
  if negb came then mret tt
  else
    received ← on_part hw (inb (port + 0));
    if negb (received =? 0xAE) then mret tt
    else
      irq ← kopt (znth interrupt_numbers i);
      on_part hw (outb (port + 4) 0x0B;; outb (port + 1) 0x01;; pic_enable_irq irq);;
      on_part ser (kmodify (λ s, mk_serial (<[Z.to_nat i := true]> (enabled s)) (serial_tty_ids s))).

Definition serial_putc (port data : Z) : K D Z :=
  s ← kgets (part_get ser);
  if negb (serial_port_exists s port) then mret (- ENODEV)
  else
    addr ← kopt (znth serial_ports (port - 1));
    on_part hw (until_set patience (addr + 5) 0x20;; outb addr data);;
    mret 1.
(** [i] bytes were written so far. *)
Fixpoint serial_write_loop (port i : Z) (buffer : list Z) : K D Z :=
  match buffer with
  | [] => mret i
  | b :: buffer =>
    r ← serial_putc port b;
    if r <? 0 then mret i else serial_write_loop port (i + 1) buffer
  end.
Definition serial_write (data : Z) (buffer : list Z) : K D Z := serial_write_loop (s32 data) 0 buffer.

(** The terminal of the line [i]. *)
Definition serial_tty (i : Z) : tty_t D :=
  mk_tty (mk_termios 0 0 0) (i + 1) serial_write serial_write (zrepeat READ_BUFFER 0) 0 0
    (zrepeat LINE_BUFFER 0) 0 0 false (Some (serial_tty_name i)).
Definition serial_register (i : Z) : K (terminals D) unit :=
  s ← lift_host (kgets (part_get ser));
  if default false (znth (enabled s) i) then
    id ← register_tty (Some (serial_tty i));
    lift_host (on_part ser (kmodify (λ s, mk_serial (enabled s) (<[Z.to_nat i := id]> (serial_tty_ids s)))))
  else mret tt.
Definition serial_init : K (terminals D) unit :=
  lift_host (kfor (seqZ 0 4) serial_probe);;
  kfor (seqZ 0 4) serial_register.

(** While the line has data: each byte goes to its terminal. *)
Fixpoint serial_drain (n : nat) (port tty_id : Z) : K (terminals D) unit :=
  match n with
  | O => kfuel
  | S n =>
    v ← lift_host (on_part hw (inb (port + 5)));
    if has v 1 then
      byte ← lift_host (on_part hw (inb port));
      tty_char_recv tty_id byte;;
      serial_drain n port tty_id
    else mret tt
  end.
(** Only the first line that is enabled and has this interrupt is served. *)
Fixpoint serial_serve (l : list Z) (irq : Z) : K (terminals D) unit :=
  match l with
  | [] => mret tt
  | i :: l =>
    s ← lift_host (kgets (part_get ser));
    if default false (znth (enabled s) i) && (default 0 (znth interrupt_numbers i) =? irq) then
      port ← kopt (znth serial_ports i);
      tty_id ← kopt (znth (serial_tty_ids s) i);
      serial_drain patience port tty_id
    else serial_serve l irq
  end.
Definition serial_interrupt_handler (irq : Z) : K (terminals D) unit := serial_serve (seqZ 0 4) irq.
End serial.

(** ** io/ps2.c and the initialisation of its devices *)

Record ps2 := mk_ps2 {
  dual_channel : bool;
  mouse_present : bool;
}.

Section ps2.
(** The state behind the character devices has the ports, the controller, the
    keyboard and the mouse. *)
Context {D M H : Type} `{!Ports M} `{!TtyHost H}.
Context (hw : part D M) (ctl : part D ps2) (kbd : part D (keyboard H)) (ms : part D mouse).
Context (devfs_create_directory : list Z → K D Z) (devfs_mknod : list Z → Z → Z → K D Z).
Context (patience : nat).

(** Wait for a byte of the controller; read and write its command byte. *)
Definition ps2_read : K M Z := until_set patience 0x64 0x01;; inb 0x60.
Definition read_command_byte : K M Z := outb 0x64 0x20;; ps2_read.
Definition write_command_byte (v : Z) : K M unit :=
  outb 0x64 0x60;; while_set patience 0x64 0x02;; outb 0x60 v.

(** A command to the mouse; whether it was acknowledged. *)
Definition mouse_command (c : Z) : K M bool :=
  outb 0x64 0xD4;; outb 0x60 c;; v ← ps2_read; mret (v =? 0xFA).
Definition mouse_argument (c : Z) : K M bool := mouse_command c.
Definition set_sample_rate (rate : Z) : K M Z :=
  a ← mouse_command 0xF3;
  if negb a then mret (-1)
  else b ← mouse_argument rate; mret (if negb b then -1 else 0).

Definition mouse_driver : char_driver_t D :=
  mk_char_driver D (Some (λ minor offset count, on_part ms (mousedev_read minor offset count)))
    (Some (λ minor offset buffer, on_part ms (mousedev_write minor offset buffer))) None.
Definition input_dir : list Z := [105; 110; 112; 117; 116].
Definition input_mouse : list Z := [105; 110; 112; 117; 116; 47; 109; 111; 117; 115; 101].
Definition ps2_mouse_init : K (chr D) Z :=
  lift_chr (on_part hw (set_sample_rate 200;; set_sample_rate 100;; set_sample_rate 80));;
  ok ← lift_chr (on_part hw (mouse_command 0xF2));
  if negb ok then mret (-1)
  else
    mouse_id ← lift_chr (on_part hw ps2_read);
    (if mouse_id =? 0x03
     then lift_chr (on_part ms (kmodify (λ s, mk_mouse (packet s) true (mouse_pipe s)))) else mret tt);;
    ok ← lift_chr (on_part hw (mouse_command 0xF4));
    if negb ok then mret (-1)
    else
      lift_chr (on_part hw (pic_enable_irq 12));;
      lift_chr (on_part ms (kmodify (λ s, mk_mouse (packet s) (supports_intellimouse s) create_pipe)));;
      driver_id ← register_char_driver mouse_driver;
      if driver_id <? 0 then mret (-1)
      else
        lift_chr (devfs_create_directory input_dir);;
        lift_chr (devfs_mknod input_mouse DT_CHAR (makedev driver_id 0));;
        mret 0.
Definition ps2_keyboard_init : K D unit :=
  on_part kbd (kmodify (λ s, mk_keyboard (held s) 0 (fbcon_tty_id s) (terms s)));;
  on_part hw (pic_enable_irq 1).

(** The controller up to its self-test: whether that passed. *)
Definition ps2_self_test : K M bool :=
  outb 0x64 0xAD;;
  outb 0x64 0xA7;;
  inb 0x60;;
  command_byte ← read_command_byte;
  write_command_byte (Z.lor (Z.land command_byte (Z.lnot (Z.lor 0x01 0x10))) 0x40);;
  outb 0x64 0xAA;;
  v ← ps2_read;
  mret (v =? 0x55).
(** Whether there is a second port; then its clock and interrupt are turned on. *)
Definition ps2_second_port : K M bool :=
  outb 0x64 0xA8;;
  command_byte ← read_command_byte;
  if has command_byte 0x20 then mret false
  else
    outb 0x64 0xA7;;
    command_byte ← read_command_byte;
    write_command_byte (Z.land command_byte (Z.lnot 0x22));;
    mret true.
Definition ps2_init : K (chr D) unit :=
  ok ← lift_chr (on_part hw ps2_self_test);
  if negb ok then mret tt
  else
    second ← lift_chr (on_part hw ps2_second_port);
    (if (second : bool) then lift_chr (on_part ctl (kmodify (λ s, mk_ps2 true (mouse_present s)))) else mret tt);;
    dual ← lift_chr (kgets (λ d, dual_channel (part_get ctl d)));
    lift_chr (on_part hw (
      outb 0x64 0xAE;;
      (if (dual : bool) then outb 0x64 0xA8 else mret tt);;
      command_byte ← read_command_byte;
      write_command_byte (Z.lor (Z.lor command_byte 0x01) (if dual then 0x02 else 0))));;
    lift_chr ps2_keyboard_init;;
    if negb dual then mret tt
    else
      ack ← lift_chr (on_part hw (mouse_command 0xF2));
      if negb ack then mret tt
      else
        mouse_id ← lift_chr (on_part hw ps2_read);
        if mouse_id =? 0 then
          lift_chr (on_part ctl (kmodify (λ s, mk_ps2 (dual_channel s) true)));;
          ps2_mouse_init;; mret tt
        else mret tt.

Definition ps2_handler (aux : bool) : K D unit :=
  status ← on_part hw (inb 0x64);
  if has status 0x01 then
    data ← on_part hw (inb 0x60);
    if aux then
      present ← kgets (λ d, mouse_present (part_get ctl d));
      if negb present then mret tt else on_part ms (ps2_mouse_handler data);; mret tt
    else on_part kbd (ps2_keyboard_handler data)
  else mret tt.
End ps2.

(** ** drivers/fbdev.c *)

Definition FB_GET_INFO : Z := 7.
Definition INFO_SIZE : Z := 33.
(** A framebuffer of the boot loader; [fbd_memory] is what lies behind its address. *)
Record fb_device := mk_fb_device {
  fbd_width : Z;
  fbd_height : Z;
  fbd_pitch : Z;
  fbd_bpp : Z;
  fbd_memory_model : Z;
  fbd_masks : list Z;
  fbd_memory : list Z;
}.
Definition set_fbd_memory (x : list Z) (f : fb_device) : fb_device :=
  mk_fb_device (fbd_width f) (fbd_height f) (fbd_pitch f) (fbd_bpp f) (fbd_memory_model f) (fbd_masks f) x.
(** [height * pitch], the length of the file. *)
Definition fbd_size (f : fb_device) : Z := u64 (fbd_height f * fbd_pitch f).
(** How many of [size] bytes at [offset] the file has. *)
Definition fbd_clip (f : fb_device) (offset size : Z) : Z :=
  if fbd_size f <? u64 (offset + size) then u64 (fbd_size f - offset) else size.

Section fbdev.
(** The framebuffers are part of the state behind the character devices, the user
    memory too. *)
Context {D : Type} (fbs : part D (list fb_device)) (user_memory : ∀ A, K paging A → K D A).
Context (devfs_create_directory : list Z → K D Z) (devfs_mknod : list Z → Z → Z → K D Z).

Definition fb_of (minor_number : Z) : K D (option fb_device) :=
  l ← kgets (part_get fbs); mret (znth l minor_number).
Definition fbdev_read (minor_number offset size : Z) : K D (Z * list Z) :=
  f ← fb_of minor_number;
  match f with
  | None => mret (- ENODEV, [])
  | Some f =>
    if fbd_size f <? offset then mret (0, [])
    else
      let size := fbd_clip f offset size in
      bytes ← kopt (field offset size (fbd_memory f));
      mret (s64 size, bytes)
  end.
Definition fbdev_write (minor_number offset : Z) (buffer : list Z) : K D Z :=
  f ← fb_of minor_number;
  match f with
  | None => mret (- ENODEV)
  | Some f =>
    if fbd_size f <? offset then mret 0
    else
      let size := fbd_clip f offset (zlen buffer) in
      if zlen (fbd_memory f) <? offset + size then kfault
      else
        on_part fbs (kmodify (λ l,
          <[Z.to_nat minor_number := set_fbd_memory (zsplice offset (ztake size buffer) (fbd_memory f)) f]> l));;
        mret (s64 size)
  end.
(** framebuffer_info_t as bytes. *)
Definition fb_info (f : fb_device) : list Z :=
  word_bytes 8 (fbd_width f) ++ word_bytes 8 (fbd_height f) ++ word_bytes 8 (fbd_pitch f) ++ word_bytes 2 (fbd_bpp f) ++
  [fbd_memory_model f] ++ fbd_masks f.
Definition fbdev_ioctl (minor_number request arg : Z) : K D Z :=
  f ← fb_of minor_number;
  match f with
  | None => mret (- ENODEV)
  | Some f =>
    if negb (request =? FB_GET_INFO) then mret (- ENOTTY)
    else
      res ← user_memory _ (validate_user_pointer arg INFO_SIZE true);
      if res <? 0 then mret res
      else user_memory _ (poke_bytes (fb_info f) arg);; mret 0
  end.

Definition fbdev_driver : char_driver_t D := mk_char_driver D (Some fbdev_read) (Some fbdev_write) (Some fbdev_ioctl).
Definition graphics : list Z := [103; 114; 97; 112; 104; 105; 99; 115].
Definition fb_name (i : Z) : list Z := graphics ++ [47; 102; 98] ++ itoa i.
Definition fbdev_init : K (chr D) unit :=
  driver_index ← register_char_driver fbdev_driver;
  if driver_index <=? 0 then mret tt
  else
    l ← lift_chr (kgets (part_get fbs));
    lift_chr (kfor (seqZ 0 (zlen l)) (λ i,
      devfs_create_directory graphics;; devfs_mknod (fb_name i) DT_CHAR (makedev driver_index i);; mret tt)).
End fbdev.
