(* ===== verification/Rtl8139.v ===== *)
(** * kernel/drivers/net/rtl8139.c: the network card

    Up to four cards.  The buffers are blocks of the kernel heap; the card writes
    the ring of received frames by itself, so that its contents change between the
    calls.  The ports are those of Ports.v, the network stack is Net.v.

    [copied_from] says where each byte of a received frame is taken from: right up to
    the end of the ring, and one place too early from there on. *)

From S2P Require Import Prelude Paging Vfs Mem Heap Calendar Ports Net.

Definition RX_RING : Z := 8192.
Definition MAX_CARDS : Z := 4.

(** The entries of the static arrays for one card. *)
Record card_t := mk_card {
  base_io_address : Z;
  irq_line : Z;
  rx_buffer : Z;
  rx_offset : Z;
  received_packets : list Z;
  transmitter_buffers : list Z;
  tx_buffer_in_use : Z;
  received_packet_lengths : list Z;
  received_packet_read_head : Z;
  received_packet_write_head : Z;
}.
Definition zero_card : card_t := mk_card 0 0 0 0 (zrepeat 512 0) (zrepeat 4 0) 0 (zrepeat 512 0) 0 0.
Record rtl := mk_rtl {
  cards : list card_t;
  cards_existing : Z;
  rtl_driver_index : Z;
}.
Definition rtl_boot : rtl := mk_rtl (zrepeat MAX_CARDS zero_card) 0 0.

Definition set_rx_offset x c := mk_card (base_io_address c) (irq_line c) (rx_buffer c) x (received_packets c) (transmitter_buffers c) (tx_buffer_in_use c) (received_packet_lengths c) (received_packet_read_head c) (received_packet_write_head c).
Definition set_tx_in_use x c := mk_card (base_io_address c) (irq_line c) (rx_buffer c) (rx_offset c) (received_packets c) (transmitter_buffers c) x (received_packet_lengths c) (received_packet_read_head c) (received_packet_write_head c).
Definition set_lengths x c := mk_card (base_io_address c) (irq_line c) (rx_buffer c) (rx_offset c) (received_packets c) (transmitter_buffers c) (tx_buffer_in_use c) x (received_packet_read_head c) (received_packet_write_head c).
Definition set_packet_read_head x c := mk_card (base_io_address c) (irq_line c) (rx_buffer c) (rx_offset c) (received_packets c) (transmitter_buffers c) (tx_buffer_in_use c) (received_packet_lengths c) x (received_packet_write_head c).
Definition set_packet_write_head x c := mk_card (base_io_address c) (irq_line c) (rx_buffer c) (rx_offset c) (received_packets c) (transmitter_buffers c) (tx_buffer_in_use c) (received_packet_lengths c) (received_packet_read_head c) x.

(** ** Copying a frame out of the ring *)

(** [frame] is the pointer of the code, [at_] the offset of the first byte. *)
Fixpoint copy_frame (n : nat) (packet ring frame at_ j : Z) (m : mem) : mem :=
  match n with
  | O => m
  | S n =>
    let m := upd m (packet + j) (m frame) in
    let frame := if RX_RING <=? at_ + j then ring + (at_ + j) mod RX_RING else frame + 1 in
    copy_frame n packet ring frame at_ (j + 1) m
  end.
(** The next offset behind a frame of [len] bytes, and the value of its register. *)
Definition next_offset (offset len : Z) : Z := Z.land (offset + len + 4 + 3) (Z.lnot 3) mod RX_RING.
Definition capr (offset : Z) : Z := u16 (if 16 <=? offset then offset - 16 else 8192 + offset - 16).

Section rtl8139.
(** The environment of the network stack has the ports, the heap and the cards. *)
Context {E M : Type} `{!Ports M} (hw : part E M) (heap : part E kheap) (nics : part E rtl).
Context (devfs_create_directory : list Z → K E Z) (devfs_mknod : list Z → Z → Z → K E Z).
(** frame_received of Udp.v, with its arguments. *)
Context (frame_received : Z → K (net E) unit).
Context (patience : nat).

Definition card (i : Z) : K E card_t := s ← kgets (part_get nics); kopt (znth (cards s) i).
Definition update_card (i : Z) (f : card_t → card_t) : K E unit :=
  c ← card i;
  on_part nics (kmodify (λ s, mk_rtl (<[Z.to_nat i := f c]> (cards s)) (cards_existing s) (rtl_driver_index s))).
Definition existing : K E Z := kgets (λ e, cards_existing (part_get nics e)).

Fixpoint kmallocs (n : nat) (size : Z) : K E (list Z) :=
  match n with
  | O => mret []
  | S n => p ← on_part heap (kmalloc size); l ← kmallocs n size; mret (p :: l)
  end.
(** The addresses that the card is given: the page tables of the first byte decide. *)
Definition physical (p : Z) : K E Z := kgets (λ e, u32 (get_physical_address (pg (part_get heap e)) p)).
Fixpoint set_tx_addresses (io_base i : Z) (l : list Z) : K E unit :=
  match l with
  | [] => mret tt
  | p :: l =>
    a ← physical p;
    on_part hw (outl (io_base + 0x20 + i * 4) a);;
    set_tx_addresses io_base (i + 1) l
  end.
Definition turn_on_rtl8139 (i : Z) : K E unit :=
  n ← existing;
  if n <? i then mret tt
  else
    c ← card i;
    let io_base := base_io_address c in
    on_part hw (
      outb (io_base + 0x52) 0x00;;
      outb (io_base + 0x37) 0x10;;
      while_set patience (io_base + 0x37) 0x10;;
      outw (io_base + 0x3C) 0x0005);;
    a ← physical (rx_buffer c);
    on_part hw (outl (io_base + 0x30) a;; outl (io_base + 0x44) 0x0000000E);;
    set_tx_addresses io_base 0 (transmitter_buffers c);;
    on_part hw (outb (io_base + 0x37) 0x0C).

Definition rtl8139_init (device : pci_device_t) : K (net E) unit :=
  n ← lift_env existing;
  if n =? MAX_CARDS then mret tt
  else
    bar0 ← kopt (znth (bar device) 0);
    let io := Z.land (Z.land bar0 (Z.lnot 0x3)) 0xFFFF in
    lift_env (
      command ← on_part hw (pci_config_read (pci_bus device) (pci_device device) (pci_function device) 0x04);
      on_part hw (pci_config_write (pci_bus device) (pci_device device) (pci_function device) 0x04 (Z.lor command 0x07));;
      rx ← on_part heap (kmalloc (8192 + 16));
      packets ← kmallocs 512 2048;
      tx ← kmallocs 4 2048;
      update_card n (λ c, mk_card io (pci_irq device) rx (rx_offset c) packets tx (tx_buffer_in_use c)
        (received_packet_lengths c) (received_packet_read_head c) (received_packet_write_head c));;
      turn_on_rtl8139 n;;
      on_part nics (kmodify (λ s, mk_rtl (cards s) (cards_existing s + 1) (rtl_driver_index s))));;
    d ← lift_env (kgets (λ e, rtl_driver_index (part_get nics e)));
    register_net_interface devfs_create_directory devfs_mknod d n;;
    mret tt.

(** ** Receiving *)

(** The frame is passed: its place in the ring is given back to the card. *)
Definition advance (i offset len : Z) : K E unit :=
  let o := next_offset offset len in
  update_card i (set_rx_offset o);;
  c ← card i;
  on_part hw (outw (base_io_address c + 0x38) (capr o)).
(** One frame of the card [i]. *)
Definition receive_frame (i : Z) : K (net E) unit :=
  c ← lift_env (card i);
  m ← lift_env (kgets (λ e, bytes (part_get heap e)));
  let offset := rx_offset c in
  let packet_status := load_le 2 m (rx_buffer c + offset) in
  let packet_length := load_le 2 m (rx_buffer c + offset + 2) in
  if negb (has packet_status 0x01) then lift_env (advance i offset packet_length)
  else
    packet ← kopt (znth (received_packets c) (received_packet_write_head c));
    lift_env (on_part heap (kmodify (λ h, set_bytes
      (copy_frame (Z.to_nat packet_length) packet (rx_buffer c) (rx_buffer c + offset + 4) (offset + 4) 0 (bytes h)) h)));;
    lift_env (update_card i (λ c,
      set_packet_write_head ((received_packet_write_head c + 1) mod 512)
        (set_lengths (<[Z.to_nat (received_packet_write_head c) := packet_length]> (received_packet_lengths c)) c)));;
    d ← lift_env (kgets (λ e, rtl_driver_index (part_get nics e)));
    index ← get_global_if_index d i;
    frame_received index;;
    lift_env (advance i offset packet_length).
Fixpoint rtl8139_serve (l : list Z) (irq : Z) : K (net E) unit :=
  match l with
  | [] => mret tt
  | i :: l =>
    c ← lift_env (card i);
    if irq_line c =? irq then
      status ← lift_env (on_part hw (inw (base_io_address c + 0x3E)));
      lift_env (on_part hw (outw (base_io_address c + 0x3E) status));;
      if has status 0x01 then receive_frame i else mret tt
    else rtl8139_serve l irq
  end.
Definition rtl8139_irq_handler (irq : Z) : K (net E) unit :=
  n ← lift_env existing; rtl8139_serve (seqZ 0 n) irq.

(** ** The operations of the driver *)

Fixpoint read_mac (n : nat) (io_base i : Z) : K M (list Z) :=
  match n with
  | O => mret []
  | S n => b ← inb (io_base + i); l ← read_mac n io_base (i + 1); mret (b :: l)
  end.
Definition rtl8139_get_mac_address (i : Z) : K E (option (list Z)) :=
  n ← existing;
  if n <=? i then mret (Some (zrepeat 6 0))
  else
    c ← card i;
    mac ← on_part hw (read_mac 6 (base_io_address c) 0);
    mret (Some mac).
Definition rtl8139_read_packet (i : Z) : K E (Z * list Z) :=
  n ← existing;
  if n <=? i then mret (- ENODEV, [])
  else
    c ← card i;
    if received_packet_read_head c =? received_packet_write_head c then mret (- EAGAIN, [])
    else
      packet ← kopt (znth (received_packets c) (received_packet_read_head c));
      length ← kopt (znth (received_packet_lengths c) (received_packet_read_head c));
      m ← kgets (λ e, bytes (part_get heap e));
      update_card i (λ c, set_packet_read_head ((received_packet_read_head c + 1) mod 512) c);;
      mret (length, (λ j, m (packet + j)) <$> seqZ 0 length).
Fixpoint store_bytes (l : list Z) (a : Z) (m : mem) : mem :=
  match l with
  | [] => m
  | b :: l => store_bytes l (a + 1) (upd m a b)
  end.
Definition rtl8139_send_packet (i : Z) (buffer : list Z) (length : Z) : K E unit :=
  n ← existing;
  if n <=? i then mret tt
  else if 1792 <? length then mret tt
  else
    c ← card i;
    let tx_index := tx_buffer_in_use c in
    tx ← kopt (znth (transmitter_buffers c) tx_index);
    packet ← kopt (field 0 (Z.max 0 length) buffer);
    on_part heap (kmodify (λ h, set_bytes (store_bytes packet tx (bytes h)) h));;
    on_part hw (
      outl (base_io_address c + 0x10 + tx_index * 4) length;;
      poll patience (v ← inw (base_io_address c + 0x10 + tx_index * 4); mret (negb (has v (Z.shiftl 1 13)))));;
    update_card i (set_tx_in_use (if tx_index + 1 =? 4 then 0 else tx_index + 1)).

Definition rtl8139_net_driver : net_driver_t E :=
  mk_net_driver E (Some rtl8139_send_packet) (Some rtl8139_read_packet) (Some rtl8139_get_mac_address).
Definition rtl8139_pci_driver : pci_driver_t (net E) :=
  mk_pci_driver (Some rtl8139_init) (Some rtl8139_irq_handler) 0x10EC 0x8139.
Definition register_rtl8139_driver (drivers : list (pci_driver_t (net E))) : K (net E) (list (pci_driver_t (net E))) :=
  i ← register_net_driver rtl8139_net_driver;
  lift_env (on_part nics (kmodify (λ s, mk_rtl (cards s) (cards_existing s) i)));;
  mret (register_pci_driver drivers rtl8139_pci_driver).
End rtl8139.

(** ** What is copied *)

(** The place in the ring that byte [j] of a frame at [at_] is read from. *)
Definition copied_from (at_ j : Z) : Z := if at_ + j <=? RX_RING then at_ + j else (at_ + j - 1) mod RX_RING.
Lemma copy_frame_spec n : ∀ packet ring at_ j m,
  0 ≤ j → (∀ k, packet ≤ k < packet + j + Z.of_nat n → ¬ (ring ≤ k ≤ ring + RX_RING)) →
  0 ≤ at_ →
  ∀ frame, frame = ring + copied_from at_ j →
  ∀ i, j ≤ i < j + Z.of_nat n →
  copy_frame n packet ring frame at_ j m (packet + i) = m (ring + copied_from at_ i).
Proof.
  assert (Hup : ∀ q packet ring frame at_ j m a, a < packet + j → copy_frame q packet ring frame at_ j m a = m a).
  { intros q. induction q as [|q IH]; intros packet ring frame at_ j m a Ha; cbn [copy_frame]; [done|].
    rewrite IH by lia. unfold upd. destruct (Z.eqb_spec a (packet + j)); [lia|done]. }
  induction n as [|n IH]; intros packet ring at_ j m Hj Hap Hat frame Hf i Hi; [lia|]. cbn [copy_frame].
  assert (Hrange : ∀ i, 0 ≤ i → 0 ≤ copied_from at_ i ≤ RX_RING).
  { intros k Hk. unfold copied_from, RX_RING. destruct (Z.leb_spec (at_ + k) 8192); [lia|].
    pose proof (Z.mod_pos_bound (at_ + k - 1) 8192). lia. }
  destruct (decide (i = j)) as [->|Hne].
  - rewrite Hup by lia. unfold upd. rewrite Z.eqb_refl. by rewrite Hf.
  - rewrite IH; [|lia|intros k Hk; apply Hap; lia|done| |lia].
    + unfold upd. destruct (Z.eqb_spec (ring + copied_from at_ i) (packet + j)); [|done].
      destruct (Hap (packet + j)); [lia|]. pose proof (Hrange i). lia.
    + rewrite Hf. unfold copied_from, RX_RING.
      destruct (Z.leb_spec 8192 (at_ + j)), (Z.leb_spec (at_ + (j + 1)) 8192), (Z.leb_spec (at_ + j) 8192); try lia.
      all: first [lia|by replace (at_ + (j + 1) - 1) with (at_ + j) by lia].
Qed.
(** A frame that ends inside the ring arrives as it was; the first byte behind the
    end is taken from outside of the ring and the others from one place too early. *)
Lemma frame_inside at_ j : 0 ≤ at_ → 0 ≤ j → at_ + j < RX_RING → copied_from at_ j = (at_ + j) mod RX_RING.
Proof. unfold copied_from, RX_RING. intros. rewrite (proj2 (Z.leb_le _ _)), Z.mod_small by lia. done. Qed.
Lemma frame_across_shifted at_ j : 0 ≤ at_ < RX_RING → 0 ≤ j → RX_RING ≤ at_ + j < 2 * RX_RING →
  copied_from at_ j ≠ (at_ + j) mod RX_RING.
Proof.
  unfold copied_from, RX_RING. intros. destruct (Z.leb_spec (at_ + j) 8192).
  - replace (at_ + j) with 8192 by lia. done.
  - Z.div_mod_to_equations. lia.
Qed.
