(* ===== verification/Ata.v ===== *)
(** * kernel/drivers/block/ata.c and atapi.c: disks and optical drives

    Programmed I/O on the two buses of Ports.v.  An operation is a function of the
    table of devices, which is filled once, and acts on the hardware; the data are
    words as the 16-bit port moves them, and [buffer] is the memory the caller
    passes, which an operation that fails may have filled in part.  Waiting loops
    are followed for [patience] reads of the status. *)

From S2P Require Import Prelude Paging Path Vfs Calendar Ports Block Elf.

Definition PRIMARY_BUS : Z := 0x1F0.
Definition SECONDARY_BUS : Z := 0x170.
Definition HDIO_GET_SMART : Z := 3.
Definition HDIO_STANDBY : Z := 4.
Definition CDROM_LOAD : Z := 5.
Definition CDROM_EJECT : Z := 6.

(** [exists] and [type]: absent, a disk, or a packet device. *)
Inductive drive_type := NoDrive | AtaDrive | AtapiDrive.
#[export] Instance drive_type_eq_dec : EqDecision drive_type.
Proof. solve_decision. Defined.
Record ata_device_t := mk_ata_device {
  dev_type : drive_type;
  identify : list Z;
}.
Definition no_device : ata_device_t := mk_ata_device NoDrive (zrepeat 256 0).

(** Two bytes of a word, low byte first, and back. *)
Definition word_pair (w : Z) : list Z := [Z.land w 0xFF; Z.land (Z.shiftr w 8) 0xFF].
Definition bytes_of_words (l : list Z) : list Z := flat_map word_pair l.
Fixpoint words_of_bytes (l : list Z) : list Z :=
  match l with
  | a :: b :: l => Z.lor a (Z.shiftl b 8) :: words_of_bytes l
  | _ => []
  end.

Definition bus_of (drive : Z) : Z := if drive / 2 =? 0 then PRIMARY_BUS else SECONDARY_BUS.
Definition disk_of (drive : Z) : Z := if drive mod 2 =? 0 then 0xA0 else 0xB0.

Section ata.
Context {M : Type} `{!Ports M} (patience : nat).

(** The result of an operation that fails with an errno or gives a value. *)
Definition fails {A} (e : Z) : K M (Z + A) := mret (inl e).
Definition gives {A} (a : A) : K M (Z + A) := mret (inr a).

Definition status (bus : Z) : K M Z := inb (bus + 0x07).
Definition while_busy (bus : Z) : K M unit := while_set patience (bus + 0x07) 0x80.
Definition until_status (bus mask : Z) : K M unit := until_set patience (bus + 0x07) mask.
(** BSY clears, then DRQ or ERR is set: whether it is an error. *)
Definition wait_data (bus : Z) : K M bool :=
  while_busy bus;; until_status bus 0x09;; v ← status bus; mret (has v 0x01).

Definition select_drive (bus disk : Z) : K M unit :=
  outb (bus + 0x06) disk;; kfor (seqZ 0 5) (λ _, inb (bus + 0x206);; mret tt).

Definition detect_packet_device (bus disk : Z) : K M ata_device_t :=
  select_drive bus disk;;
  outb (bus + 0x07) 0xA1;;
  while_busy bus;;
  until_status bus 0x08;;
  l ← inw_times 256 bus;
  mret (mk_ata_device AtapiDrive l).
Definition detect_device (bus disk : Z) : K M ata_device_t :=
  v ← status bus;
  if v =? 0xFF then mret no_device
  else
    select_drive bus disk;;
    outb (bus + 0x02) 0x00;; outb (bus + 0x03) 0x00;; outb (bus + 0x04) 0x00;; outb (bus + 0x05) 0x00;;
    outb (bus + 0x07) 0xEC;;
    v ← status bus;
    if v =? 0 then mret no_device
    else
      e ← inb (bus + 0x01);
      if negb (e =? 0) then detect_packet_device bus disk
      else
        while_busy bus;;
        lbamid ← inb (bus + 0x04);
        lbahigh ← inb (bus + 0x05);
        if negb (lbamid =? 0) && negb (lbahigh =? 0) then detect_packet_device bus disk
        else
          until_status bus 9;;
          v ← status bus;
          if negb (has v 1) then l ← inw_times 256 bus; mret (mk_ata_device AtaDrive l)
          else mret (mk_ata_device AtaDrive (zrepeat 256 0)).
Definition scan_for_devices : K M (list ata_device_t) :=
  a ← detect_device PRIMARY_BUS 0xA0;
  b ← detect_device PRIMARY_BUS 0xB0;
  c ← detect_device SECONDARY_BUS 0xA0;
  d ← detect_device SECONDARY_BUS 0xB0;
  mret [a; b; c; d].

(** ** Packet devices *)

Definition send_packet (bus : Z) (cmd : list Z) : K M unit := outw_all (words_of_bytes cmd) bus.
(** A command with its block address and its length, for transfers of 2048 bytes. *)
Definition packet_command (op lba count : Z) : list Z :=
  [op; 0; Z.land (Z.shiftr lba 0x18) 0xFF; Z.land (Z.shiftr lba 0x10) 0xFF; Z.land (Z.shiftr lba 0x08) 0xFF;
   Z.land lba 0xFF; Z.land (Z.shiftr count 0x18) 0xFF; Z.land (Z.shiftr count 0x10) 0xFF;
   Z.land (Z.shiftr count 0x08) 0xFF; Z.land count 0xFF; 0; 0].
(** Select the device and start a command: whether it wants the packet. *)
Definition start_packet (drive : Z) (sizes : bool) (cmd : list Z) : K M bool :=
  let bus := bus_of drive in
  select_drive bus (disk_of drive);;
  while_busy bus;;
  (if sizes then outb (bus + 0x04) (Z.land 2048 0xFF);; outb (bus + 0x05) (Z.shiftr 2048 8) else mret tt);;
  outb (bus + 0x07) 0xA0;;
  err ← wait_data bus;
  if (err : bool) then mret false else send_packet bus cmd;; mret true.
(** How many bytes the device transfers next. *)
Definition transfer_size (bus : Z) : K M Z :=
  lo ← inb (bus + 0x04); hi ← inb (bus + 0x05); mret (Z.lor lo (Z.shiftl hi 8)).

Fixpoint atapi_read_blocks (n : nat) (bus i : Z) (buffer : list Z) : K M (Z * list Z) :=
  match n with
  | O => mret (0, buffer)
  | S n =>
    err ← wait_data bus;
    if (err : bool) then mret (- EIO, buffer)
    else
      size ← transfer_size bus;
      words ← inw_times (Z.to_nat ((size + 1) / 2)) bus;
      let data := bytes_of_words words in
      if zlen buffer <? i * 2048 + zlen data then kfault
      else atapi_read_blocks n bus (i + 1) (zsplice (i * 2048) data buffer)
  end.
Definition atapi_read_sectors (drive lba : Z) (buffer : list Z) (count : Z) : K M (Z * list Z) :=
  ok ← start_packet drive true (packet_command 0xA8 lba count);
  if negb ok then mret (- EIO, buffer)
  else atapi_read_blocks (Z.to_nat count) (bus_of drive) 0 buffer.

Fixpoint atapi_write_blocks (n : nat) (bus i : Z) (buffer : list Z) : K M Z :=
  match n with
  | O => mret 0
  | S n =>
    err ← wait_data bus;
    if (err : bool) then mret (- EIO)
    else
      size ← transfer_size bus;
      data ← kopt (field (i * 2048) ((size + 1) / 2 * 2) buffer);
      outw_all (words_of_bytes data) bus;;
      atapi_write_blocks n bus (i + 1) buffer
  end.
Definition atapi_write_sectors (drive lba : Z) (buffer : list Z) (count : Z) : K M Z :=
  ok ← start_packet drive true (packet_command 0xAA lba count);
  if negb ok then mret (- EIO) else atapi_write_blocks (Z.to_nat count) (bus_of drive) 0 buffer.

Definition eject_command (load : Z) : list Z :=
  [0x1B; 0; 0; 0; Z.lor 0x02 (if load =? 0 then 0 else 1); 0; 0; 0; 0; 0; 0; 0].
Definition atapi_load_or_eject (drive load : Z) : K M unit :=
  ok ← start_packet drive false (eject_command load);
  if negb ok then mret tt else while_busy (bus_of drive);; status (bus_of drive);; mret tt.

(** Four bytes, high byte first, as C computes them in an int. *)
Definition int_be (l : list Z) : option Z :=
  match l with
  | [a; b; c; d] => Some (u64 (s32 (Z.lor (Z.lor (Z.lor (Z.shiftl a 24) (Z.shiftl b 16)) (Z.shiftl c 8)) d)))
  | _ => None
  end.
(** An error, or the last address and the length of a block. *)
Definition atapi_get_disk_size (drive : Z) : K M (Z + Z * Z) :=
  let bus := bus_of drive in
  ok ← start_packet drive false (0x25 :: zrepeat 11 0);
  if negb ok then fails (- EIO)
  else
    err ← wait_data bus;
    if (err : bool) then fails (- EIO)
    else
      words ← inw_times 4 bus;
      let b := bytes_of_words words in
      last_lba ← kopt (int_be (ztake 4 b));
      block_size ← kopt (int_be (zdrop 4 b));
      gives (last_lba, block_size).

(** ** Disks *)

Context (devices : list ata_device_t).

Definition device (drive : Z) : K M ata_device_t := kopt (znth devices drive).
Definition id_word (d : ata_device_t) (i : Z) : Z := default 0 (znth (identify d) i).
Definition supports_lba48 (d : ata_device_t) : bool :=
  negb (bool_decide (dev_type d = NoDrive)) && has (id_word d 83) 0x0400.
Definition ata_supports_lba48 (drive : Z) : K M bool := d ← device drive; mret (supports_lba48 d).
(** The number of sectors of a disk, and its size. *)
Definition id_sectors (d : ata_device_t) : Z :=
  if supports_lba48 d
  then s64 (Z.lor (Z.lor (Z.lor (Z.shiftl (id_word d 103) 48) (Z.shiftl (id_word d 102) 32))
         (Z.shiftl (id_word d 101) 16)) (id_word d 100))
  else Z.lor (Z.shiftl (id_word d 61) 16) (id_word d 60).
Definition ata_get_drive_size (drive : Z) : K M Z :=
  d ← device drive;
  match dev_type d with
  | NoDrive => mret (- ENODEV)
  | AtapiDrive =>
    r ← atapi_get_disk_size drive;
    mret (match r with inl e => e | inr (capacity, block_size) => s64 (u64 (capacity * block_size)) end)
  | AtaDrive => mret (s64 (id_sectors d * 512))
  end.
Definition ata_get_sector_size (drive : Z) : K M Z :=
  d ← device drive;
  match dev_type d with
  | NoDrive => mret (- ENODEV)
  | AtapiDrive =>
    r ← atapi_get_disk_size drive;
    mret (match r with inl e => e | inr (_, block_size) => s64 block_size end)
  | AtaDrive => mret 512
  end.

(** Address and count of a transfer, for the commands [ext] with 48 bits of address and
    [plain] with 28: whether one was sent.  [first] tells the first try from a retry. *)
Definition lba48_command (bus ext lba count : Z) : K M unit :=
  outb (bus + 2) (Z.land (Z.shiftr count 8) 0xFF);;
  outb (bus + 3) (Z.land (Z.shiftr lba 24) 0xFF);;
  outb (bus + 4) (Z.land (Z.shiftr lba 32) 0xFF);;
  outb (bus + 5) (Z.land (Z.shiftr lba 40) 0xFF);;
  outb (bus + 2) (Z.land count 0xFF);;
  outb (bus + 3) (Z.land lba 0xFF);;
  outb (bus + 4) (Z.land (Z.shiftr lba 8) 0xFF);;
  outb (bus + 5) (Z.land (Z.shiftr lba 16) 0xFF);;
  outb (bus + 7) ext.
Definition lba28_address (bus plain lba : Z) : K M unit :=
  outb (bus + 3) (Z.land lba 0xFF);;
  outb (bus + 4) (Z.land (Z.shiftr lba 8) 0xFF);;
  outb (bus + 5) (Z.land (Z.shiftr lba 16) 0xFF);;
  outb (bus + 7) plain.
Definition start_transfer (d : ata_device_t) (bus ext plain lba count : Z) : K M bool :=
  if supports_lba48 d then lba48_command bus ext lba count;; mret true
  else if (count <? 256) && (u64 (lba + count) <? 0xFFFFFFF) then
    outb (bus + 2) count;; lba28_address bus plain lba;; mret true
  else mret false.
(** Up to the command: an error, or the device and the bus. *)
Definition begin_transfer (ext plain drive lba count : Z) (d : ata_device_t) : K M (Z + Z) :=
  size ← ata_get_drive_size drive;
  n ← ata_get_sector_size drive;
  let disk_size := u64 (Z.quot size n) in
  if disk_size <? u64 (lba + count) then fails (- EINVAL)
  else if count =? 0 then fails (- EINVAL)
  else
    let bus := bus_of drive in
    select_drive bus (disk_of drive);;
    outb (bus + 6) (Z.lor 0xE0 (Z.shiftl (drive mod 2) 4));;
    while_busy bus;;
    ok ← start_transfer d bus ext plain lba count;
    mret (if (ok : bool) then inr bus else inl (- EINVAL)).

(** The sectors of a command, and which of them reported an error. *)
Fixpoint read_sectors_loop (n : nat) (bus sector : Z) (buffer : list Z) : K M (list bool * list Z) :=
  match n with
  | O => mret ([], buffer)
  | S n =>
    err ← wait_data bus;
    words ← inw_times 256 bus;
    if zlen buffer <? sector * 512 + 512 then kfault
    else
      r ← read_sectors_loop n bus (sector + 1) (zsplice (sector * 512) (bytes_of_words words) buffer);
      mret (err :: r.1, r.2)
  end.
(** A second try for each of those: the result, at the first that fails again. *)
Fixpoint read_retry_loop (to_retry : list bool) (d : ata_device_t) (bus lba count sector : Z) (buffer : list Z)
    : K M (Z * list Z) :=
  match to_retry with
  | [] => mret (0, buffer)
  | false :: l => read_retry_loop l d bus lba count (sector + 1) buffer
  | true :: l =>
    let retry_lba := u64 (lba + sector) in
    while_busy bus;;
    (if supports_lba48 d then lba48_command bus 0x24 retry_lba 1
     else if (count <? 256) && (retry_lba <? 0xFFFFFFF) then lba28_address bus 0x20 retry_lba
     else mret tt);;
    err ← wait_data bus;
    if (err : bool) then mret (- EIO, buffer)
    else
      words ← inw_times 256 bus;
      if zlen buffer <? sector * 512 + 512 then kfault
      else read_retry_loop l d bus lba count (sector + 1) (zsplice (sector * 512) (bytes_of_words words) buffer)
  end.
Definition ata_read_sectors (drive lba : Z) (buffer : list Z) (count : Z) : K M (Z * list Z) :=
  d ← device drive;
  match dev_type d with
  | NoDrive => mret (- ENODEV, buffer)
  | AtapiDrive => atapi_read_sectors drive lba buffer count
  | AtaDrive =>
    b ← begin_transfer 0x24 0x20 drive lba count d;
    match b with
    | inl e => mret (e, buffer)
    | inr bus =>
      r ← read_sectors_loop (Z.to_nat count) bus 0 buffer;
      read_retry_loop r.1 d bus lba count 0 r.2
    end
  end.

Fixpoint write_sectors_loop (n : nat) (bus sector : Z) (buffer : list Z) : K M (list bool) :=
  match n with
  | O => mret []
  | S n =>
    err ← wait_data bus;
    data ← kopt (field (sector * 512) 512 buffer);
    outw_all (words_of_bytes data) bus;;
    l ← write_sectors_loop n bus (sector + 1) buffer;
    mret (err :: l)
  end.
Fixpoint write_retry_loop (to_retry : list bool) (d : ata_device_t) (bus lba sector : Z) (buffer : list Z) : K M Z :=
  match to_retry with
  | [] => mret 0
  | false :: l => write_retry_loop l d bus lba (sector + 1) buffer
  | true :: l =>
    let retry_lba := u64 (lba + sector) in
    while_busy bus;;
    sent ← (if supports_lba48 d then lba48_command bus 0x34 retry_lba 1;; mret true
            else if retry_lba <? 0xFFFFFFF then outb (bus + 2) 1;; lba28_address bus 0x30 retry_lba;; mret true
            else mret false);
    if negb sent then mret (- EINVAL)
    else
      err ← wait_data bus;
      if (err : bool) then mret (- EIO)
      else
        data ← kopt (field (sector * 512) 512 buffer);
        outw_all (words_of_bytes data) bus;;
        write_retry_loop l d bus lba (sector + 1) buffer
  end.
Definition ata_write_sectors (drive lba : Z) (buffer : list Z) (count : Z) : K M Z :=
  d ← device drive;
  match dev_type d with
  | NoDrive => mret (- ENODEV)
  | AtapiDrive => atapi_write_sectors drive lba buffer count
  | AtaDrive =>
    b ← begin_transfer 0x34 0x30 drive lba count d;
    match b with
    | inl e => mret e
    | inr bus =>
      l ← write_sectors_loop (Z.to_nat count) bus 0 buffer;
      write_retry_loop l d bus lba 0 buffer
    end
  end.

(** An error, or the data of the health log. *)
Definition ata_get_smart_data (drive : Z) : K M (Z + list Z) :=
  d ← device drive;
  match dev_type d with
  | NoDrive => fails (- ENODEV)
  | AtapiDrive => fails (- ENOSYS)
  | AtaDrive =>
    let bus := bus_of drive in
    let drive_select := Z.shiftl (drive mod 2) 4 in
    select_drive bus drive_select;;
    while_busy bus;;
    outb (bus + 0x01) 0xD0;; outb (bus + 0x02) 0x01;; outb (bus + 0x03) 0x00;;
    outb (bus + 0x04) 0x4F;; outb (bus + 0x05) 0xC2;; outb (bus + 0x06) (Z.lor 0xE0 drive_select);;
    outb (bus + 0x07) 0xB0;;
    while_busy bus;;
    v ← status bus;
    if negb (has v 0x08) then fails (- EIO)
    else words ← inw_times 256 bus; gives (bytes_of_words words)
  end.
Definition ata_standby (drive : Z) : K M Z :=
  d ← device drive;
  match dev_type d with
  | NoDrive => mret (- ENODEV)
  | AtapiDrive => mret (- ENOTTY)
  | AtaDrive =>
    select_drive (bus_of drive) (disk_of drive);;
    while_busy (bus_of drive);;
    outb (bus_of drive + 0x07) 0xE2;;
    mret 0
  end.
Definition ata_load_eject (drive load : Z) : K M Z :=
  d ← device drive;
  match dev_type d with
  | NoDrive => mret (- ENODEV)
  | AtapiDrive => atapi_load_or_eject drive load;; mret 0
  | AtaDrive => mret (- ENOTTY)
  end.
Definition is_atapi_device (drive : Z) : K M Z :=
  d ← device drive;
  mret (match dev_type d with NoDrive => - ENODEV | AtaDrive => 0 | AtapiDrive => 1 end).
End ata.

(** ** The driver of the block layer *)

Section driver.
(** The state behind the block layer has the ports, the table of devices and the user
    memory; [memory n] is what a buffer of [n] bytes holds when it is passed. *)
Context {D M : Type} `{!Ports M} (hw : part D M) (devs : part D (list ata_device_t)).
Context (user_memory : ∀ A, K paging A → K D A) (memory : Z → list Z).
Context (devfs_create_directory : list Z → K D Z) (devfs_mknod : list Z → Z → Z → K D Z).
Context (patience : nat).

Definition on_drive {A} (f : list ata_device_t → K M A) : K D A :=
  l ← kgets (part_get devs); on_part hw (f l).
Definition sector_bytes (d : ata_device_t) : Z := if decide (dev_type d = AtapiDrive) then 2048 else 512.

Definition ata_ioctl (drive request arg : Z) : K D Z :=
  if request =? HDIO_GET_SMART then
    res ← user_memory _ (validate_user_pointer arg 512 true);
    if res <? 0 then mret res
    else
      r ← on_drive (λ l, ata_get_smart_data patience l drive);
      match r with
      | inl e => mret e
      | inr data => user_memory _ (poke_bytes data arg);; mret 0
      end
  else if request =? HDIO_STANDBY then on_drive (λ l, ata_standby patience l drive)
  else if request =? CDROM_LOAD then on_drive (λ l, ata_load_eject patience l drive 1)
  else if request =? CDROM_EJECT then on_drive (λ l, ata_load_eject patience l drive 0)
  else mret (- ENOTTY).

Definition ata_driver : block_driver_t D :=
  mk_block_driver D
    (λ drive lba count, on_drive (λ l,
       ata_read_sectors patience l drive lba (memory (count * sector_bytes (default no_device (znth l drive)))) count))
    (λ drive lba buffer count, on_drive (λ l, ata_write_sectors patience l drive lba buffer count))
    (Some ata_ioctl)
    (λ drive, on_drive (λ l, ata_get_drive_size patience l drive))
    (λ drive, on_drive (λ l, ata_get_sector_size patience l drive)).

(** "block/sda" and "block/sr0" *)
Definition block_dir : list Z := [98; 108; 111; 99; 107].
Definition ata_dev_name (i : Z) : list Z := block_dir ++ [47; 115; 100; 97 + i].
Definition atapi_dev_name (i : Z) : list Z := block_dir ++ [47; 115; 114; 48 + i].
Fixpoint register_drives (l : list ata_device_t) (i driver_idx disks optical : Z) : K (blk D) unit :=
  match l with
  | [] => mret tt
  | d :: l =>
    let publish name :=
      lift_disk (devfs_create_directory block_dir);;
      register_block_device devfs_mknod (mk_block_device driver_idx i (Some name) false);; mret tt in
    match dev_type d with
    | NoDrive => register_drives l (i + 1) driver_idx disks optical
    | AtapiDrive => publish (atapi_dev_name optical);; register_drives l (i + 1) driver_idx disks (optical + 1)
    | AtaDrive => publish (ata_dev_name disks);; register_drives l (i + 1) driver_idx (disks + 1) optical
    end
  end.
Definition ata_register : K (blk D) unit :=
  driver_idx ← register_block_driver (Native ata_driver);
  if driver_idx <? 0 then mret tt
  else
    l ← lift_disk (on_part hw (scan_for_devices patience));
    lift_disk (on_part devs (kput l));;
    register_drives l 0 driver_idx 0 0.
End driver.
