(* ===== verification/AtaDisk.v ===== *)
(** * A disk behind the ATA driver

    [drive] is the disk of the ATA standard as far as the driver uses it: the task
    file with its two-deep registers, the commands to read and to write sectors with
    28 and with 48 bits of address, the status, and the data port.  Before each
    sector the disk is busy for some reads of its status, and a sector may fail;
    both are given by functions of the number of sectors so far.  The driver is
    proved for any hardware that behaves like such a disk ([disk_laws]). *)

From S2P Require Import Prelude Vfs Calendar Ports Block Ata.

(** ** The disk *)

Inductive phase :=
| Waiting
| Sending (words : list Z) (lba rest : Z)
| Taking (got : list Z) (lba rest : Z)
| Failed.
Record drive := mk_drive {
  r_count : Z * Z;
  r_low : Z * Z;
  r_mid : Z * Z;
  r_high : Z * Z;
  r_dev : Z;
  d_phase : phase;
  d_busy : nat;
  d_clock : nat;
  d_disk : Z → list Z;
}.
Definition set_phase (p : phase) (busy clock : nat) (d : drive) : drive :=
  mk_drive (r_count d) (r_low d) (r_mid d) (r_high d) (r_dev d) p busy clock (d_disk d).
Definition set_busy (n : nat) (d : drive) : drive := set_phase (d_phase d) n (d_clock d) d.
Definition set_disk (f : Z → list Z) (d : drive) : drive :=
  mk_drive (r_count d) (r_low d) (r_mid d) (r_high d) (r_dev d) (d_phase d) (d_busy d) (d_clock d) f.
(** A register keeps its previous value behind the new one. *)
Definition push (v : Z) (r : Z * Z) : Z * Z := (r.2, v).
Definition set_reg (port v : Z) (d : drive) : drive :=
  let '(mk_drive c l m h v6 p b k f) := d in
  if port =? 2 then mk_drive (push v c) l m h v6 p b k f
  else if port =? 3 then mk_drive c (push v l) m h v6 p b k f
  else if port =? 4 then mk_drive c l (push v m) h v6 p b k f
  else if port =? 5 then mk_drive c l m (push v h) v6 p b k f
  else if port =? 6 then mk_drive c l m h v p b k f
  else d.

Definition lba48 (d : drive) : Z :=
  (r_low d).2 + 2 ^ 8 * (r_mid d).2 + 2 ^ 16 * (r_high d).2 + 2 ^ 24 * (r_low d).1 + 2 ^ 32 * (r_mid d).1 + 2 ^ 40 * (r_high d).1.
Definition count48 (d : drive) : Z :=
  let n := (r_count d).2 + 2 ^ 8 * (r_count d).1 in if n =? 0 then 65536 else n.
Definition lba28 (d : drive) : Z :=
  (r_low d).2 + 2 ^ 8 * (r_mid d).2 + 2 ^ 16 * (r_high d).2 + 2 ^ 24 * (r_dev d mod 16).
Definition count28 (d : drive) : Z := if (r_count d).2 =? 0 then 256 else (r_count d).2.

Section drive.
(** How long the disk is busy before the n-th sector, and whether that one fails. *)
Context (delay : nat → nat) (fault : nat → bool).

(** The sector [lba] is fetched, the first of [rest] that are still wanted. *)
Definition fetch (lba rest : Z) (d : drive) : drive :=
  set_phase (if fault (d_clock d) then Failed else Sending (d_disk d lba) (lba + 1) (rest - 1))
    (delay (d_clock d)) (S (d_clock d)) d.
(** The disk asks for the sector [lba]; with all of it, it is stored. *)
Definition ask (lba rest : Z) (d : drive) : drive :=
  set_phase (Taking [] lba rest) (delay (d_clock d)) (S (d_clock d)) d.
Definition store (words : list Z) (lba rest : Z) (d : drive) : drive :=
  if fault (d_clock d) then set_phase Failed (delay (d_clock d)) (S (d_clock d)) d
  else
    let d := set_disk (λ x, if x =? lba then words else d_disk d x) d in
    if rest =? 1 then set_phase Waiting (delay (d_clock d)) (S (d_clock d)) d else ask (lba + 1) (rest - 1) d.
Definition command (c : Z) (d : drive) : drive :=
  if c =? 0x24 then fetch (lba48 d) (count48 d) d
  else if c =? 0x20 then fetch (lba28 d) (count28 d) d
  else if c =? 0x34 then ask (lba48 d) (count48 d) d
  else if c =? 0x30 then ask (lba28 d) (count28 d) d
  else d.

Definition phase_status (p : phase) : Z :=
  match p with Waiting => 0x50 | Sending _ _ _ | Taking _ _ _ => 0x58 | Failed => 0x51 end.
Definition drive_status (d : drive) : Z * drive :=
  match d_busy d with
  | S n => (0x80, set_busy n d)
  | O => (phase_status (d_phase d), d)
  end.
Definition data_in (d : drive) : Z * drive :=
  match d_phase d with
  | Sending (w :: ws) lba rest =>
    (w, match ws with
        | [] => if rest =? 0 then set_phase Waiting (d_busy d) (d_clock d) d else fetch lba rest d
        | _ => set_phase (Sending ws lba rest) (d_busy d) (d_clock d) d
        end)
  | _ => (0, d)
  end.
Definition data_out (w : Z) (d : drive) : drive :=
  match d_phase d with
  | Taking got lba rest =>
    if zlen got =? 255 then store (got ++ [w]) lba rest d
    else set_phase (Taking (got ++ [w]) lba rest) (d_busy d) (d_clock d) d
  | _ => d
  end.

(** The ports of the drive, relative to those of its bus. *)
Definition drive_in (width port : Z) (d : drive) : Z * drive :=
  if width =? 2 then (if port =? 0 then data_in d else (0, d))
  else if (port =? 7) || (port =? 0x206) then drive_status d else (0, d).
Definition drive_out (width port v : Z) (d : drive) : drive :=
  if width =? 2 then (if port =? 0 then data_out v d else d)
  else if port =? 7 then command v d else set_reg port v d.

(** The ports that the transfers use. *)
Definition transfer_port (width port : Z) : Prop :=
  (width = 2 ∧ port = 0) ∨ (width = 1 ∧ (2 ≤ port ≤ 7 ∨ port = 0x206)).
Record disk_laws (M : Type) (P : Ports M) (bus : Z) (view : M → drive) : Prop := {
  dl_in : ∀ width port m, transfer_port width port →
    let r := port_in width (bus + port) m in (r.1, view r.2) = drive_in width port (view m);
  dl_out : ∀ width port v m, transfer_port width port →
    view (port_out width (bus + port) v m) = drive_out width port v (view m);
}.
End drive.

(** Two steps at once. *)
Lemma runs_pair {S A B C} (m1 : K S A) (m2 : K S B) (g : A → B → K S C) s (R : A * B → S → Prop) Q :
  runs (a ← m1; b ← m2; mret (a, b)) s R → (∀ a b s', R (a, b) s' → runs (g a b) s' Q) →
  runs (a ← m1; b ← m2; g a b) s Q.
Proof.
  intros ([a b] & s' & E & HR) Hg. apply K_bind_Done in E as (a0 & s1 & E1 & E).
  apply K_bind_Done in E as (b0 & s2 & E2 & E). injection E as -> -> ->.
  destruct (Hg _ _ _ HR) as (c & s3 & E3 & HQ). exists c, s3. by rewrite (K_bind_step _ _ _ _ _ E1), (K_bind_step _ _ _ _ _ E2).
Qed.

(** Bytes of a number. *)
Lemma byte_of_shift x n : 0 ≤ n → Z.land (Z.shiftr x n) 0xFF = x / 2 ^ n mod 256.
Proof. intros Hn. rewrite Z.shiftr_div_pow2 by done. apply (Z.land_ones _ 8). lia. Qed.
Lemma u8_byte x n : 0 ≤ n → u8 (Z.land (Z.shiftr x n) 0xFF) = x / 2 ^ n mod 256.
Proof. intros Hn. rewrite byte_of_shift by done. apply u8_id. pose proof (Z.mod_pos_bound (x / 2 ^ n) 256). lia. Qed.
Lemma u8_low x : u8 (Z.land x 0xFF) = x mod 256.
Proof. rewrite <-(Z.shiftr_0_r x) at 1. rewrite u8_byte by lia. by rewrite Z.div_1_r. Qed.
Lemma six_bytes x : 0 ≤ x < 2 ^ 48 →
  x mod 256 + 2 ^ 8 * (x / 2 ^ 8 mod 256) + 2 ^ 16 * (x / 2 ^ 16 mod 256) + 2 ^ 24 * (x / 2 ^ 24 mod 256)
  + 2 ^ 32 * (x / 2 ^ 32 mod 256) + 2 ^ 40 * (x / 2 ^ 40 mod 256) = x.
Proof. intros Hx. Z.to_euclidean_division_equations. lia. Qed.
Lemma two_bytes x : 0 < x ≤ 65536 → (let n := x mod 256 + 2 ^ 8 * (x / 2 ^ 8 mod 256) in if n =? 0 then 65536 else n) = x.
Proof. intros Hx. cbv zeta. case_match; Z.to_euclidean_division_equations; lia. Qed.


(** ** The driver on such a disk *)

Section transfers.
Context (delay : nat → nat) (fault : nat → bool) (patience : nat).
Context {M : Type} `{P : !Ports M} (bus : Z) (view : M → drive).
Context (Hlaws : disk_laws delay fault M P bus view) (Hbus : 0 ≤ bus < 0xF000) (Hdelay : ∀ n, (delay n < patience)%nat).
#[local] Notation fetch := (fetch delay fault).
#[local] Notation ask := (ask delay).
#[local] Notation store := (store delay fault).
#[local] Notation command := (command delay fault).

Lemma in8_run p m : transfer_port 1 p → runs (inb (bus + p)) m (λ v m',
  v = u8 (drive_in delay fault 1 p (view m)).1 ∧ view m' = (drive_in delay fault 1 p (view m)).2).
Proof using Hlaws Hbus.
  intros Hp. pose proof (dl_in _ _ _ _ _ _ Hlaws 1 p m Hp) as H. cbv zeta in H.
  assert (0 ≤ p < 0x1000) by (destruct Hp as [[? ?]|[_ ?]]; lia).
  unfold inb. rewrite u16_id by lia. destruct (port_in 1 (bus + p) m) as [v m'] eqn:E. cbn [fst snd] in H.
  rewrite <-H. cbn [fst snd]. eexists _, _. split; [reflexivity|]. by rewrite E.
Qed.
Lemma in16_run m : runs (inw bus) m (λ v m', v = u16 (data_in delay fault (view m)).1 ∧ view m' = (data_in delay fault (view m)).2).
Proof using Hlaws Hbus.
  pose proof (dl_in _ _ _ _ _ _ Hlaws 2 0 m ltac:(by left)) as H. cbv zeta in H. rewrite Z.add_0_r in H.
  unfold inw. rewrite u16_id by lia. destruct (port_in 2 bus m) as [v m'] eqn:E. cbn [fst snd] in H.
  unfold drive_in in H. cbn in H. rewrite <-H. cbn [fst snd]. eexists _, _. split; [reflexivity|]. by rewrite E.
Qed.
Lemma out8_run p v m : transfer_port 1 p → runs (outb (bus + p) v) m (λ _ m', view m' = drive_out delay fault 1 p (u8 v) (view m)).
Proof using Hlaws Hbus.
  intros Hp. pose proof (dl_out _ _ _ _ _ _ Hlaws 1 p (u8 v) m Hp) as H.
  assert (0 ≤ p < 0x1000) by (destruct Hp as [[? ?]|[_ ?]]; lia).
  unfold outb. rewrite u16_id by lia. eexists _, _. split; [done|exact H].
Qed.
Lemma out16_run v m : runs (outw bus v) m (λ _ m', view m' = data_out delay fault (u16 v) (view m)).
Proof using Hlaws Hbus.
  pose proof (dl_out _ _ _ _ _ _ Hlaws 2 0 (u16 v) m ltac:(by left)) as H. rewrite Z.add_0_r in H.
  unfold outw. rewrite u16_id by lia. eexists _, _. split; [done|exact H].
Qed.

(** ** Waiting *)

Lemma set_busy_0 d : d_busy d = O → set_busy 0 d = d.
Proof. by destruct d; cbn; intros ->. Qed.
Lemma set_busy_twice n k d : set_busy n (set_busy k d) = set_busy n d.
Proof. done. Qed.

(** One read of the status. *)
Lemma status_run (g : Z → bool) m : runs (v ← inb (bus + 0x07); mret (g v)) m (λ b m',
  b = g (drive_status (view m)).1 ∧ view m' = (drive_status (view m)).2).
Proof using Hlaws Hbus.
  eapply runs_bind; [apply (in8_run 7); right; lia|]. intros v m' [-> Hm]. apply runs_ret.
  unfold drive_in in *. cbn in Hm |- *. split; [|exact Hm]. f_equal.
  unfold drive_status, phase_status. by destruct (d_busy (view m)), (d_phase (view m)).
Qed.
Lemma while_busy_run m : (d_busy (view m) < patience)%nat →
  runs (while_busy patience bus) m (λ _ m', view m' = set_busy 0 (view m)).
Proof using Hlaws Hbus.
  clear Hdelay. unfold while_busy, while_set. revert m. induction patience as [|q IH]; intros m Hb; [lia|]. cbn [poll].
  eapply runs_bind; [apply (status_run (λ v, has v 0x80))|]. intros b m' [-> Hm]. unfold drive_status in Hm |- *.
  destruct (d_busy (view m)) as [|k] eqn:Ek; cbn [fst snd] in *.
  - replace (has (phase_status (d_phase (view m))) 0x80) with false by (by destruct (d_phase (view m))).
    apply runs_ret. by rewrite Hm, set_busy_0.
  - eapply runs_mono; [apply IH; rewrite Hm; cbn; lia|]. intros [] m2 H2. cbv beta in H2. rewrite H2. by rewrite Hm.
Qed.
Lemma until_status_run mask m : (0 < patience)%nat → d_busy (view m) = O → has (phase_status (d_phase (view m))) mask = true →
  runs (until_status patience bus mask) m (λ _ m', view m' = view m).
Proof using Hlaws Hbus.
  clear Hdelay. unfold until_status, until_set. destruct patience as [|q]; intros Hq Hb Hm; [lia|]. cbn [poll].
  eapply runs_bind; [apply (status_run (λ v, negb (has v mask)))|]. intros b m' [-> Hv]. unfold drive_status in *.
  rewrite Hb in *. cbn [fst snd] in *. rewrite Hm. apply runs_ret. exact Hv.
Qed.

Definition is_failed (p : phase) : bool := match p with Failed => true | _ => false end.
Lemma patience_pos : (0 < patience)%nat.
Proof using Hdelay. specialize (Hdelay 0). lia. Qed.
Lemma wait_data_run m : (d_busy (view m) < patience)%nat → d_phase (view m) ≠ Waiting →
  runs (wait_data patience bus) m (λ err m', err = is_failed (d_phase (view m)) ∧ view m' = set_busy 0 (view m)).
Proof using Hlaws Hbus Hdelay.
  intros Hb Hp. unfold wait_data. pose proof patience_pos.
  eapply runs_bind; [by apply while_busy_run|]. intros [] m1 H1. cbv beta in H1.
  eapply runs_bind; [apply until_status_run; [done|by rewrite H1|rewrite H1; cbn; by destruct (d_phase (view m))]|]. intros [] m2 H2. cbv beta in H2.
  unfold status. eapply runs_mono; [apply (status_run (λ v, has v 0x01))|]. intros b m3 [-> H3].
  rewrite H2, H1 in *. unfold drive_status in *. cbn in *. split; [by destruct (d_phase (view m))|exact H3].
Qed.

(** ** The data port *)

Definition words_ok (l : list Z) : Prop := Forall (λ w, 0 ≤ w < 2 ^ 16) l.
(** The state when the disk has sent a sector. *)
Definition sent (lba rest : Z) (d : drive) : drive :=
  if rest =? 0 then set_phase Waiting (d_busy d) (d_clock d) d else fetch lba rest d.
Lemma fetch_phase lba rest p b k d : d_clock d = k → fetch lba rest (set_phase p b k d) = fetch lba rest d.
Proof. by intros <-. Qed.
Lemma read_words_run ws : ∀ m lba rest, ws ≠ [] → words_ok ws → d_phase (view m) = Sending ws lba rest →
  runs (inw_times (length ws) bus) m (λ l m', l = ws ∧ view m' = sent lba rest (view m)).
Proof using Hlaws Hbus.
  induction ws as [|w ws IH]; intros m lba rest Hne Hok Hp; [done|]. apply Forall_cons in Hok as [Hw Hok].
  cbn [length inw_times]. eapply runs_bind; [apply in16_run|]. intros v m1 [-> H1].
  unfold data_in in *. rewrite Hp in *. cbn [fst snd] in *. rewrite u16_id by lia.
  destruct ws as [|w2 ws].
  - cbn [length inw_times]. eapply runs_bind; [by apply (runs_ret [] m1 (λ l m', l = [] ∧ view m' = view m1))|].
    intros ? m2 [-> H2]. apply runs_ret. by rewrite H2, H1.
  - eapply runs_bind; [apply (IH m1 lba rest); [done|done|by rewrite H1]|]. intros l m2 [-> H2]. apply runs_ret.
    split; [done|]. rewrite H2, H1. unfold sent. by destruct (rest =? 0).
Qed.
Lemma read_failed_run n : ∀ m, d_phase (view m) = Failed →
  runs (inw_times n bus) m (λ l m', length l = n ∧ words_ok l ∧ view m' = view m).
Proof using Hlaws Hbus.
  induction n as [|n IH]; intros m Hp; cbn [inw_times]; [apply runs_ret; split_and!; [done|constructor|done]|].
  eapply runs_bind; [apply in16_run|]. intros v m1 [-> H1]. unfold data_in in *. rewrite Hp in *. cbn [fst snd] in *.
  eapply runs_bind; [apply IH; by rewrite H1|]. intros l m2 (Hl & Hok & H2). apply runs_ret.
  split_and!; [cbn; by rewrite Hl|by constructor|by rewrite H2, H1].
Qed.

(** ** Selecting the drive and sending a command *)

Definition selected (d d' : drive) : Prop :=
  (d_busy d' ≤ d_busy d)%nat ∧ d_clock d' = d_clock d ∧ d_disk d' = d_disk d.
Lemma selected_refl d : selected d d.
Proof. by split_and!. Qed.
Lemma selected_trans a b c : selected a b → selected b c → selected a c.
Proof. intros (? & ? & ?) (? & ? & ?). split_and!; [lia|congruence|congruence]. Qed.
Lemma selected_status d : selected d (drive_status d).2.
Proof. unfold drive_status. destruct (d_busy d) eqn:E; cbn; [apply selected_refl|split_and!; cbn; [lia|done|done]]. Qed.
Lemma selected_reg port v d : selected d (set_reg port v d).
Proof. unfold set_reg. destruct d. repeat case_match; by split_and!. Qed.
Lemma set_reg_run p v m : 2 ≤ p ≤ 6 → runs (outb (bus + p) v) m (λ _ m', view m' = set_reg p (u8 v) (view m)).
Proof using Hlaws Hbus.
  intros Hp. eapply runs_mono; [apply out8_run; right; lia|]. intros [] m' H. cbv beta in H. rewrite H.
  unfold drive_out. by rewrite (proj2 (Z.eqb_neq p 7)) by lia.
Qed.
Lemma alternate_status_run l : ∀ m, runs (kfor l (λ _, inb (bus + 0x206);; mret tt)) m (λ _ m', selected (view m) (view m')).
Proof using Hlaws Hbus.
  induction l as [|x l IH]; intros m; cbn [kfor]; [apply runs_ret, selected_refl|].
  eapply runs_bind with (R := λ _ m', selected (view m) (view m')).
  { eapply runs_bind; [apply (in8_run 0x206); right; lia|]. intros v m' [_ H]. apply runs_ret. rewrite H.
    apply selected_status. }
  intros [] m1 H1. eapply runs_mono; [apply IH|]. intros [] m2 H2. by eapply selected_trans.
Qed.
Lemma select_drive_run disk m : runs (select_drive bus disk) m (λ _ m', selected (view m) (view m')).
Proof using Hlaws Hbus.
  unfold select_drive. eapply runs_bind; [apply set_reg_run; lia|]. intros [] m1 H1. cbv beta in H1.
  eapply runs_mono; [apply alternate_status_run|]. intros [] m2 H2. cbv beta in H2. rewrite H1 in H2.
  eapply selected_trans; [apply selected_reg|exact H2].
Qed.

(** The registers hold the address and the count. *)
Definition addressed (lba count : Z) (d d' : drive) : Prop :=
  lba48 d' = lba ∧ count48 d' = count ∧ d_clock d' = d_clock d ∧ d_disk d' = d_disk d.
Lemma lba48_command_run ext lba count m : 0 ≤ lba < 2 ^ 48 → 0 < count ≤ 65536 → (ext = 0x24 ∨ ext = 0x34) →
  runs (lba48_command bus ext lba count) m (λ _ m', ∃ d, addressed lba count (view m) d ∧ view m' = command ext d).
Proof using Hlaws Hbus.
  intros Hl Hc He. unfold lba48_command.
  do 8 (eapply runs_bind; [apply set_reg_run; lia|]; let m' := fresh "m'" in let H := fresh "H" in
        intros [] m' H; cbv beta in H).
  eapply runs_mono; [apply (out8_run 7); right; lia|]. intros [] m2 Hm2. cbv beta in Hm2.
  rewrite H6, H5, H4, H3, H2, H1, H0, H in Hm2.
  replace (u8 ext) with ext in Hm2 by (by destruct He as [-> | ->]).
  eexists. split; [|exact Hm2]. clear - Hl Hc. rewrite !u8_byte, !u8_low by lia. destruct (view m). cbn.
  split_and!; [|exact (two_bytes _ Hc)|done|done].
  unfold lba48. cbn. rewrite <-(six_bytes lba Hl) at 7. lia.
Qed.

(** Up to the command: the checks, and the selection of the drive. *)
Lemma begin_transfer_steps devices ext plain drive lba count d m (Q : M → Prop) :
  znth devices drive = Some d → dev_type d = AtaDrive → 0 ≤ id_sectors d ≤ 2 ^ 48 →
  0 ≤ lba → 0 < count → lba + count ≤ id_sectors d → bus_of drive = bus → (d_busy (view m) < patience)%nat →
  (∀ m', selected (view m) (view m') → r_dev (view m') = u8 (Z.lor 0xE0 (Z.shiftl (drive mod 2) 4)) →
    runs (start_transfer d bus ext plain lba count) m' (λ ok m2, ok = true ∧ Q m2)) →
  runs (begin_transfer patience devices ext plain drive lba count d) m (λ r m', r = inr bus ∧ Q m').
Proof using Hlaws Hbus.
  intros Hd Ht Hn Hl Hc Hlc Hb Hbusy Hstart. unfold begin_transfer.
  eapply runs_bind with (R := λ v m', v = id_sectors d * 512 ∧ m' = m).
  { unfold ata_get_drive_size, device. eapply runs_bind; [by apply (runs_kopt _ d m (λ v m', v = d ∧ m' = m))|].
    intros ? ? [-> ->]. rewrite Ht. apply runs_ret. split; [apply s64_id; lia|done]. }
  intros v m1 [-> ->].
  eapply runs_bind with (R := λ v m', v = 512 ∧ m' = m).
  { unfold ata_get_sector_size, device. eapply runs_bind; [by apply (runs_kopt _ d m (λ v m', v = d ∧ m' = m))|].
    intros ? ? [-> ->]. rewrite Ht. by apply runs_ret. }
  intros v m1 [-> ->]. cbv zeta. rewrite Z.quot_mul, !u64_id by lia.
  rewrite (proj2 (Z.ltb_ge _ _)), (proj2 (Z.eqb_neq _ _)) by lia. rewrite Hb.
  eapply runs_bind; [apply select_drive_run|]. intros [] m1 H1. cbv beta in H1.
  eapply runs_bind; [apply set_reg_run; lia|]. intros [] m2 H2. cbv beta in H2.
  assert (selected (view m) (view m2)) as (Hb2 & Hk2 & Hf2)
    by (rewrite H2; eapply selected_trans; [exact H1|apply selected_reg]).
  eapply runs_bind; [apply while_busy_run; lia|]. intros [] m3 H3. cbv beta in H3.
  eapply runs_bind; [apply Hstart; rewrite H3|].
  - split_and!; cbn; [lia|done|done].
  - cbn. rewrite H2. by destruct (view m1).
  - intros ok m4 [-> H4]. by apply runs_ret.
Qed.
Lemma begin_transfer_run devices ext plain drive lba count d m :
  znth devices drive = Some d → dev_type d = AtaDrive → supports_lba48 d = true → 0 ≤ id_sectors d ≤ 2 ^ 48 →
  0 ≤ lba → 0 < count ≤ 65536 → lba + count ≤ id_sectors d → (ext = 0x24 ∨ ext = 0x34) → bus_of drive = bus →
  (d_busy (view m) < patience)%nat →
  runs (begin_transfer patience devices ext plain drive lba count d) m (λ r m', r = inr bus ∧
    ∃ d', addressed lba count (view m) d' ∧ view m' = command ext d').
Proof using Hlaws Hbus.
  intros Hd Ht H48 Hn Hl Hc Hlc He Hb Hbusy. apply begin_transfer_steps; try done; [lia|].
  intros m3 (_ & Hk3 & Hd3) _. unfold start_transfer. rewrite H48.
  eapply runs_bind; [apply lba48_command_run; [lia|lia|done]|].
  intros [] m4 (d' & (Ha & Hc' & Hk & Hf) & H4). apply runs_ret. split; [done|]. exists d'. split; [|done].
  split_and!; [done|done|congruence|congruence].
Qed.

(** With 28 bits of address the command is for the sector without its bits from 24 on. *)
Lemma lba28_high_bits_lost devices drive lba count d m :
  znth devices drive = Some d → dev_type d = AtaDrive → supports_lba48 d = false → id_sectors d < 0xFFFFFFF →
  0 ≤ lba → 0 < count < 256 → lba + count ≤ id_sectors d → bus_of drive = bus → (d_busy (view m) < patience)%nat →
  runs (begin_transfer patience devices 0x24 0x20 drive lba count d) m (λ r m', r = inr bus ∧
    ∃ d', view m' = fetch (lba mod 2 ^ 24) count d' ∧ d_disk d' = d_disk (view m)).
Proof using Hlaws Hbus.
  intros Hd Ht H48 Hn Hl Hc Hlc Hb Hbusy. apply begin_transfer_steps; try done; [lia|lia|].
  intros m3 (_ & Hk3 & Hd3) Hdev. unfold start_transfer. rewrite H48, u64_id by lia.
  rewrite (proj2 (Z.ltb_lt count 256)), (proj2 (Z.ltb_lt _ 0xFFFFFFF)) by lia. cbn [andb].
  eapply runs_bind with (R := λ _ m1, r_count (view m1) = push count (r_count (view m3)) ∧ r_dev (view m1) = r_dev (view m3) ∧
    d_disk (view m1) = d_disk (view m3)).
  { eapply runs_mono; [apply set_reg_run; lia|]. intros [] m1 H. cbv beta in H. rewrite H, u8_id by lia. by destruct (view m3). }
  intros [] m1 (Hr1 & Hv1 & Hd1). unfold lba28_address.
  eapply runs_bind with (R := λ _ m', ∃ d', view m' = fetch (lba mod 2 ^ 24) count d' ∧ d_disk d' = d_disk (view m)).
  2: { intros [] m4 H4. by apply runs_ret. }
  do 3 (eapply runs_bind; [apply set_reg_run; lia|]; let m' := fresh "m'" in let H := fresh "H" in
        intros [] m' H; cbv beta in H).
  eapply runs_mono; [apply (out8_run 7); right; lia|]. intros [] m2 Hm2. cbv beta in Hm2.
  rewrite H1, H0, H in Hm2. rewrite Hm2. destruct (view m1) as [c l mi h v p b k f]. cbn [r_count r_dev d_disk] in Hr1, Hv1, Hd1.
  eexists. split.
  - change (drive_out delay fault 1 7 (u8 0x20) ?d) with (fetch (lba28 d) (count28 d) d).
    rewrite !u8_byte, !u8_low by lia. f_equal.
    + unfold lba28. cbn. rewrite Hv1, Hdev.
      assert (u8 (Z.lor 0xE0 (Z.shiftl (drive mod 2) 4)) mod 16 = 0) as ->.
      { assert (drive mod 2 = 0 ∨ drive mod 2 = 1) as [-> | ->]; [pose proof (Z.mod_pos_bound drive 2); lia|done|done]. }
      clear - Hl. Z.to_euclidean_division_equations. lia.
    + unfold count28. cbn. rewrite Hr1. unfold push. cbn. by rewrite (proj2 (Z.eqb_neq _ _)) by lia.
  - by rewrite <-Hd3, <-Hd1.
Qed.

(** ** Reading sectors *)

Section sectors.
Context (f : Z → list Z) (Hf : ∀ x, words_ok (f x) ∧ length (f x) = 256%nat) (lba : Z) (c0 : nat).

(** A sector failed since the transfer began. *)
Definition faulted (d : drive) : Prop := ∃ k, (c0 ≤ k < d_clock d)%nat ∧ fault k = true.
Definition sector_of (k : Z) (buffer : list Z) : Prop := zslice (k * 512) 512 buffer = bytes_of_words (f (lba + k)).
Definition idle (d : drive) : Prop := (d_busy d < patience)%nat ∧ (c0 ≤ d_clock d)%nat ∧ d_disk d = f.
(** The disk is about to send the sector [i], with [n] still wanted, or has failed. *)
Definition sending (i n : Z) (d : drive) : Prop :=
  d_phase d = Sending (f (lba + i)) (lba + i + 1) (n - 1) ∨ d_phase d = Failed ∧ faulted d.
Definition same_sectors (i n : Z) (buf buf' : list Z) : Prop :=
  zlen buf' = zlen buf ∧ ∀ k, 0 ≤ k → k < i ∨ i + n ≤ k → (k + 1) * 512 ≤ zlen buf →
    zslice (k * 512) 512 buf' = zslice (k * 512) 512 buf.

Lemma zlen_bytes_of_words l : zlen (bytes_of_words l) = 2 * zlen l.
Proof. induction l as [|w l IH]; [done|]. change (bytes_of_words (w :: l)) with (word_pair w ++ bytes_of_words l).
  rewrite zlen_app, IH, zlen_cons. change (zlen (word_pair w)) with 2. lia. Qed.
Lemma splice_sector i data buf : 0 ≤ i → (i + 1) * 512 ≤ zlen buf → zlen data = 512 →
  same_sectors i 1 buf (zsplice (i * 512) data buf) ∧ zslice (i * 512) 512 (zsplice (i * 512) data buf) = data.
Proof.
  intros Hi Hl Hd. split; [split|].
  - rewrite zlen_zsplice by lia. lia.
  - intros k Hk Ho Hkl. apply zslice_zsplice_other; lia.
  - rewrite <-Hd. apply zslice_zsplice_same; lia.
Qed.
Lemma fetch_sending i n d d' : addressed (lba + i) n d d' → idle d → 0 < n →
  idle (fetch (lba48 d') (count48 d') d') ∧ sending i n (fetch (lba48 d') (count48 d') d').
Proof using Hdelay.
  intros (-> & -> & Hk & Hd) (Hb & Hc & Hdf) Hn. unfold sending, fetch. destruct (fault (d_clock d')) eqn:E.
  - split; [split_and!; cbn; [apply Hdelay|lia|congruence]|]. right. split; [done|]. exists (d_clock d'). split; [cbn; lia|done].
  - split; [split_and!; cbn; [apply Hdelay|lia|congruence]|]. left. cbn. by rewrite Hd, Hdf.
Qed.

(** One sector is read. *)
Lemma read_sector_run i n m : idle (view m) → sending i n (view m) → 0 < n →
  runs (err ← wait_data patience bus; words ← inw_times 256 bus; mret (err, words)) m (λ r m',
    length r.2 = 256%nat ∧ idle (view m') ∧ (d_clock (view m) ≤ d_clock (view m'))%nat ∧
    ((r.1 = false ∧ r.2 = f (lba + i) ∧ (n = 1 ∨ sending (i + 1) (n - 1) (view m'))) ∨
     (r.1 = true ∧ faulted (view m') ∧ d_phase (view m') = Failed))).
Proof using Hlaws Hbus Hdelay Hf.
  intros (Hb & Hc & Hd) Hs Hn. destruct (Hf (lba + i)) as [Hok Hlen].
  eapply runs_bind; [apply wait_data_run; [done|destruct Hs as [-> | [-> _]]; done]|]. intros err m1 [-> H1].
  destruct Hs as [Hs|[Hs Hfa]]; rewrite Hs; cbn [is_failed].
  - eapply runs_bind.
    { rewrite <-Hlen at 1. eapply read_words_run; [intros E; by rewrite E in Hlen|done|by rewrite H1]. }
    intros ws m2 [-> H2]. apply runs_ret. rewrite H1 in H2. unfold sent in H2. rewrite H2. cbn [fst snd].
    destruct (Z.eqb_spec (n - 1) 0) as [Hz|Hz].
    + split_and!; [done|split_and!; cbn; [apply patience_pos|done|done]|cbn; lia|left; split_and!; [done|done|left; lia]].
    + split_and!; [done| |cbn; lia|left; split_and!; [done|done|right]].
      * unfold fetch. split_and!; cbn; [apply Hdelay|lia|done].
      * unfold sending, fetch. cbn. rewrite Hd. destruct (fault (d_clock (view m))) eqn:E; cbn.
        -- right. split; [done|]. exists (d_clock (view m)). cbn. split; [lia|done].
        -- left. f_equal; [f_equal; lia|lia].
  - eapply runs_bind; [apply read_failed_run; by rewrite H1|]. intros ws m2 (Hl & _ & H2). apply runs_ret.
    cbn [fst snd]. rewrite H2, H1. split_and!; [done|split_and!; cbn; [apply patience_pos|done|done]|cbn; lia|]. by right.
Qed.

(** The sectors of the command.  Once the disk has failed, every flag is set. *)
Definition flags_right (i : Z) (flags : list bool) (buf : list Z) : Prop :=
  ∀ k, 0 ≤ k → znth flags k = Some false → sector_of (i + k) buf.
Lemma flags_cons i b flags buf : (b = false → sector_of i buf) → flags_right (i + 1) flags buf → flags_right i (b :: flags) buf.
Proof.
  intros Hb H k Hk Hl. destruct (Z.eq_dec k 0) as [->|Hne].
  - rewrite Z.add_0_r. apply Hb. by injection Hl.
  - replace (i + k) with (i + 1 + (k - 1)) by lia. apply H; [lia|].
    rewrite <-Hl. change (b :: flags) with ([b] ++ flags). rewrite znth_app_r by (change (zlen [b]) with 1; lia). done.
Qed.
Lemma flags_uncons i b flags buf : flags_right i (b :: flags) buf →
  (b = false → sector_of i buf) ∧ flags_right (i + 1) flags buf.
Proof.
  intros H. split.
  - intros ->. specialize (H 0 ltac:(lia) eq_refl). by rewrite Z.add_0_r in H.
  - intros k Hk Hl. replace (i + 1 + k) with (i + (k + 1)) by lia. apply H; [lia|].
    change (b :: flags) with ([b] ++ flags). rewrite znth_app_r by (change (zlen [b]) with 1; lia).
    rewrite <-Hl. f_equal. change (zlen [b]) with 1. lia.
Qed.
Lemma read_sectors_run n : ∀ i buf m, 0 ≤ i → (i + Z.of_nat n) * 512 ≤ zlen buf → idle (view m) →
  (n = 0%nat ∨ sending i (Z.of_nat n) (view m)) →
  runs (read_sectors_loop patience n bus i buf) m (λ r m',
    length r.1 = n ∧ same_sectors i (Z.of_nat n) buf r.2 ∧ flags_right i r.1 r.2 ∧ idle (view m') ∧
    (d_clock (view m) ≤ d_clock (view m'))%nat ∧ (Forall (λ b, b = false) r.1 ∨ faulted (view m'))).
Proof using Hlaws Hbus Hdelay Hf.
  induction n as [|n IH]; intros i buf m Hi Hl Hidle Hs; cbn [read_sectors_loop].
  { apply runs_ret. cbn [fst snd]. split; [done|]. split; [by split|]. split; [intros k Hk Hn; by rewrite znth_ge in Hn by (change (zlen (@nil bool)) with 0; lia)|].
    split; [done|]. split; [done|by left]. }
  destruct Hs as [?|Hs]; [done|].
  apply (runs_pair (wait_data patience bus) (inw_times 256 bus)) with (R := λ r m',
    length r.2 = 256%nat ∧ idle (view m') ∧ (d_clock (view m) ≤ d_clock (view m'))%nat ∧
    ((r.1 = false ∧ r.2 = f (lba + i) ∧ (Z.of_nat (S n) = 1 ∨ sending (i + 1) (Z.of_nat (S n) - 1) (view m'))) ∨
     (r.1 = true ∧ faulted (view m') ∧ d_phase (view m') = Failed)));
    [apply read_sector_run; [done|done|lia]|]. cbn [fst snd].
  intros err words m1 (Hw & Hidle1 & Hk1 & Hcase). rewrite (proj2 (Z.ltb_ge _ _)) by lia.
  assert (zlen (bytes_of_words words) = 512) as Hbl by (rewrite zlen_bytes_of_words; unfold zlen; lia).
  destruct (splice_sector i (bytes_of_words words) buf Hi ltac:(lia) Hbl) as [[Hsl Hsame] Hsec].
  eapply runs_bind.
  { apply (IH (i + 1) (zsplice (i * 512) (bytes_of_words words) buf) m1); [lia|lia|done|].
    destruct Hcase as [(_ & _ & [?|Hs1])|(_ & Hfa & Hp)]; [left; lia| |]; right.
    - by replace (Z.of_nat n) with (Z.of_nat (S n) - 1) by lia.
    - by right. }
  intros [flags buf2] m2. cbn [fst snd]. intros (Hfl & [Hsl2 Hsame2] & Hright & Hidle2 & Hk2 & Hfa2). apply runs_ret. cbn [fst snd].
  split_and!; [by rewrite <-Hfl| | |done|lia|].
  - split; [lia|]. intros k Hk Ho Hkl. rewrite Hsame2, Hsame by lia. done.
  - apply flags_cons; [|done]. intros ->. unfold sector_of. rewrite Hsame2, Hsec by lia.
    destruct Hcase as [(_ & -> & _)|([=] & _)]. done.
  - destruct Hcase as [(-> & _ & _)|(-> & Hfa & Hp)]; [destruct Hfa2; [left; by constructor|by right]|right].
    destruct Hfa as (k & Hk & Hfk). exists k. split; [lia|done].
Qed.

(** The second tries. *)
Definition failed_twice (d : drive) : Prop :=
  ∃ a b, (c0 ≤ a < b)%nat ∧ (b < d_clock d)%nat ∧ fault a = true ∧ fault b = true.
Lemma retry_command_run i m : 0 ≤ i → 0 ≤ lba → lba + i < 2 ^ 48 → idle (view m) → faulted (view m) →
  runs (lba48_command bus 0x24 (lba + i) 1) m (λ _ m', idle (view m') ∧ faulted (view m') ∧
    (d_phase (view m') = Sending (f (lba + i)) (lba + i + 1) 0 ∨ d_phase (view m') = Failed ∧ failed_twice (view m'))).
Proof using Hlaws Hbus Hdelay.
  intros Hi Hl Hlt (Hb & Hc & Hd) (k & Hk & Hfk).
  eapply runs_mono; [apply lba48_command_run; [lia|lia|by left]|]. intros [] m' (d' & (Hla & Hco & Hkd & Hdd) & Hv).
  change (command 0x24 d') with (fetch (lba48 d') (count48 d') d') in Hv. rewrite Hv, Hla, Hco. unfold fetch.
  split; [split_and!; cbn; [apply Hdelay|lia|congruence]|]. split; [exists k; split; [cbn; lia|done]|].
  destruct (fault (d_clock d')) eqn:E; cbn; [right|left; by rewrite Hdd, Hd].
  split; [done|]. exists k, (d_clock d'). split_and!; cbn; [lia|lia|lia|done|done].
Qed.
Lemma read_retry_run dev count flags : supports_lba48 dev = true → 0 ≤ lba → ∀ i buf m,
  0 ≤ i → lba + i + zlen flags ≤ 2 ^ 48 → (i + zlen flags) * 512 ≤ zlen buf → idle (view m) →
  flags_right i flags buf → (Forall (λ b, b = false) flags ∨ faulted (view m)) → (∀ k, 0 ≤ k < i → sector_of k buf) →
  runs (read_retry_loop patience flags dev bus lba count i buf) m (λ r m',
    zlen r.2 = zlen buf ∧ d_disk (view m') = f ∧
    (r.1 = 0 ∧ (∀ k, 0 ≤ k < i + zlen flags → sector_of k r.2) ∨ r.1 = - EIO ∧ failed_twice (view m'))).
Proof using Hlaws Hbus Hdelay Hf.
  intros H48 Hl. induction flags as [|b flags IH]; intros i buf m Hi Hlt Hlen Hidle Hright Hfa Hdone; cbn [read_retry_loop].
  { apply runs_ret. destruct Hidle as (_ & _ & Hd). split_and!; [done|done|]. left. split; [done|].
    intros k Hk. apply Hdone. change (zlen []) with 0 in Hk. lia. }
  rewrite zlen_cons in *. apply flags_uncons in Hright as [Hb Hright].
  assert (∀ buf2 m2, same_sectors i 1 buf buf2 → sector_of i buf2 → idle (view m2) →
    Forall (λ b, b = false) flags ∨ faulted (view m2) →
    runs (read_retry_loop patience flags dev bus lba count (i + 1) buf2) m2 (λ r m',
      zlen r.2 = zlen buf ∧ d_disk (view m') = f ∧
      (r.1 = 0 ∧ (∀ k, 0 ≤ k < i + (1 + zlen flags) → sector_of k r.2) ∨ r.1 = - EIO ∧ failed_twice (view m')))) as Hnext.
  { intros buf2 m2 [Hsl Hsame] Hsec Hidle2 Hfa2. pose proof (zlen_nonneg flags).
    eapply runs_mono; [apply (IH (i + 1) buf2 m2); [lia|lia|lia|done| |done|]|].
    - intros k Hk Hn. unfold sector_of. rewrite Hsame; [by apply Hright|lia|lia|].
      assert (k < zlen flags) by (destruct (Z.lt_ge_cases k (zlen flags)); [done|by rewrite znth_ge in Hn by lia]). lia.
    - intros k Hk. destruct (Z.eq_dec k i) as [->|]; [done|]. unfold sector_of. rewrite Hsame by lia. apply Hdone. lia.
    - intros r m' (H1 & H2 & H3). split_and!; [lia|done|]. by replace (i + (1 + zlen flags)) with (i + 1 + zlen flags) by lia. }
  destruct b.
  2: { apply Hnext; [split; done|by apply Hb|done|]. destruct Hfa as [Hfa|?]; [left|by right]. by apply Forall_cons in Hfa as [_ ?]. }
  destruct Hfa as [Hfa|Hfa]; [by apply Forall_cons in Hfa as [? _]|]. pose proof (zlen_nonneg flags).
  rewrite H48, u64_id by lia. cbv zeta.
  eapply runs_bind; [apply while_busy_run, Hidle|]. intros [] m1 H1. cbv beta in H1.
  eapply runs_bind; [apply retry_command_run; [done|done|lia|rewrite H1|by rewrite H1]|].
  { destruct Hidle as (_ & ? & ?). split_and!; [apply patience_pos|done|done]. }
  intros [] m2 ((Hb2 & Hc2 & Hd2) & Hfa2 & Hp2). destruct (Hf (lba + i)) as [Hok Hwl].
  eapply runs_bind; [apply wait_data_run; [done|destruct Hp2 as [-> | [-> _]]; done]|]. intros err m3 [-> H3].
  destruct Hp2 as [Hp2|[Hp2 Htw]]; rewrite Hp2; cbn [is_failed].
  2: { apply runs_ret. rewrite H3. split_and!; [done|done|]. by right. }
  eapply runs_bind.
  { rewrite <-Hwl at 1. eapply read_words_run; [intros E; by rewrite E in Hwl|done|by rewrite H3]. }
  intros ws m4 [-> H4]. cbv beta. rewrite H3 in H4. unfold sent in H4. cbn [Z.eqb] in H4.
  assert (zlen (bytes_of_words (f (lba + i))) = 512) as Hbl by (rewrite zlen_bytes_of_words; unfold zlen; lia).
  rewrite (proj2 (Z.ltb_ge _ _)) by lia. destruct (splice_sector i _ buf Hi ltac:(lia) Hbl) as [Hs1 Hs2].
  apply Hnext; [done|exact Hs2| |right; by rewrite H4].
  rewrite H4. split_and!; [apply patience_pos|done|done].
Qed.
End sectors.

(** ** Writing sectors *)

Lemma words_of_bytes_ok k : ∀ l, length l = (2 * k)%nat → Forall (λ b, 0 ≤ b < 256) l →
  length (words_of_bytes l) = k ∧ words_ok (words_of_bytes l).
Proof.
  induction k as [|k IH]; intros l Hl Hb.
  - destruct l; [|done]. split; [done|constructor].
  - destruct l as [|a [|b l]]; [done|cbn in Hl; lia|]. cbn [words_of_bytes length].
    apply Forall_cons in Hb as [Ha Hb]. apply Forall_cons in Hb as [Hb Hl2].
    destruct (IH l) as [H1 H2]; [cbn in Hl; lia|done|]. split; [by rewrite H1|]. constructor; [|done].
    rewrite Z.lor_comm, lor_shiftl by lia. lia.
Qed.
Lemma store_set_phase ws la rest p b k d : d_clock d = k → store ws la rest (set_phase p b k d) = store ws la rest d.
Proof. by intros <-. Qed.
Lemma write_words_run ws la rest : ∀ m got, words_ok ws → ws ≠ [] → zlen got + zlen ws = 256 →
  d_phase (view m) = Taking got la rest →
  runs (outw_all ws bus) m (λ _ m', view m' = store (got ++ ws) la rest (view m)).
Proof using Hlaws Hbus.
  induction ws as [|w ws IH]; intros m got Hok Hne Hl Hp; [done|]. apply Forall_cons in Hok as [Hw Hok].
  cbn [outw_all]. eapply runs_bind; [apply out16_run|]. intros [] m1 H1. cbv beta in H1.
  unfold data_out in H1. rewrite Hp, u16_id in H1 by done. rewrite zlen_cons in Hl.
  destruct ws as [|w2 ws].
  - rewrite (proj2 (Z.eqb_eq _ _)) in H1 by (change (zlen []) with 0 in Hl; lia). cbn [outw_all]. by apply runs_ret.
  - pose proof (zlen_nonneg (w2 :: ws)). assert (zlen got ≠ 255) as Hn by (rewrite zlen_cons in Hl; pose proof (zlen_nonneg ws); lia).
    rewrite (proj2 (Z.eqb_neq _ _) Hn) in H1.
    eapply runs_mono; [apply (IH m1 (got ++ [w])); [done|done|rewrite zlen_app; change (zlen [w]) with 1; lia|by rewrite H1]|].
    intros [] m2 H2. cbv beta in H2. rewrite H2, H1, <-app_assoc. by apply store_set_phase.
Qed.

(** What the disk holds when [n] sectors from [la] have got theirs of the buffer. *)
Definition written (la n : Z) (buf : list Z) (f : Z → list Z) (x : Z) : list Z :=
  if decide (la ≤ x < la + n) then words_of_bytes (zslice ((x - la) * 512) 512 buf) else f x.
Lemma write_loop_run la buf n : Forall (λ b, 0 ≤ b < 256) buf → ∀ i m, 0 ≤ i → (i + Z.of_nat n) * 512 ≤ zlen buf →
  (∀ k, (d_clock (view m) ≤ k)%nat → fault k = false) → (d_busy (view m) < patience)%nat →
  (n = 0%nat ∨ d_phase (view m) = Taking [] (la + i) (Z.of_nat n)) →
  runs (write_sectors_loop patience n bus i buf) m (λ flags m', Forall (λ b, b = false) flags ∧
    ∀ x, d_disk (view m') x =
      if decide (la + i ≤ x < la + i + Z.of_nat n) then words_of_bytes (zslice ((x - la) * 512) 512 buf)
      else d_disk (view m) x).
Proof using Hlaws Hbus Hdelay.
  intros Hbytes. induction n as [|n IH]; intros i m Hi Hl Hnf Hb Hp; cbn [write_sectors_loop].
  { apply runs_ret. split; [constructor|]. intros x. destruct (decide _) as [E|]; [exfalso; lia|done]. }
  destruct Hp as [?|Hp]; [done|].
  eapply runs_bind; [apply wait_data_run; [done|by rewrite Hp]|]. intros err m1 [-> H1]. rewrite Hp. cbn [is_failed].
  eapply runs_bind; [by apply (runs_kopt _ (zslice (i * 512) 512 buf) m1 (λ v m', v = zslice (i * 512) 512 buf ∧ m' = m1));
    [apply field_zslice; lia|]|]. intros ? ? [-> ->].
  destruct (words_of_bytes_ok 256 (zslice (i * 512) 512 buf)) as [Hwl Hwok].
  { pose proof (zlen_zslice (i * 512) 512 buf). unfold zlen in *. lia. }
  { apply Forall_take, Forall_drop, Hbytes. }
  eapply runs_bind; [apply (write_words_run _ (la + i) (Z.of_nat (S n)) m1 []);
    [done|intros E; by rewrite E in Hwl|unfold zlen; cbn; lia|by rewrite H1]|].
  intros [] m2 H2. cbv beta in H2. rewrite H1 in H2. unfold store in H2. cbn [d_clock set_busy set_phase app] in H2.
  rewrite Hnf in H2 by lia.
  eapply runs_bind; [apply (IH (i + 1) m2); [lia|lia| | |]|].
  - intros k Hk. apply Hnf. rewrite H2 in Hk. destruct (_ =? 1); cbn in Hk; lia.
  - rewrite H2. destruct (_ =? 1); cbn; apply Hdelay.
  - destruct n as [|n]; [by left|right]. rewrite H2, (proj2 (Z.eqb_neq _ _)) by lia. cbn. f_equal; lia.
  - intros flags m3 [Hfl H3]. apply runs_ret. split; [by constructor|]. intros x. rewrite H3.
    assert (d_disk (view m2) x = if x =? la + i then words_of_bytes (zslice (i * 512) 512 buf) else d_disk (view m) x) as ->
      by (rewrite H2; by destruct (_ =? 1)).
    destruct (Z.eqb_spec x (la + i)) as [->|Hne].
    + rewrite decide_False, decide_True by lia. do 2 f_equal. lia.
    + destruct (decide (la + (i + 1) ≤ x < _)); [by rewrite decide_True by lia|by rewrite decide_False by lia].
Qed.
Lemma write_retry_run dev la buf flags : ∀ i m, Forall (λ b, b = false) flags →
  runs (write_retry_loop patience flags dev bus la i buf) m (λ r m', r = 0 ∧ m' = m).
Proof.
  induction flags as [|b flags IH]; intros i m H; cbn [write_retry_loop]; [by apply runs_ret|].
  apply Forall_cons in H as [-> H]. by apply IH.
Qed.
End transfers.

(** ** Transfers *)

(** The bytes of [count] sectors from [lba]. *)
Definition sector_data (f : Z → list Z) (lba count : Z) : list Z :=
  flat_map (λ k, bytes_of_words (f (lba + k))) (seqZ 0 count).
Lemma sectors_joined (f : Z → list Z) lba n : ∀ i buf, 0 ≤ i → zlen buf = (i + Z.of_nat n) * 512 →
  (∀ k, i ≤ k < i + Z.of_nat n → zslice (k * 512) 512 buf = bytes_of_words (f (lba + k))) →
  zdrop (i * 512) buf = flat_map (λ k, bytes_of_words (f (lba + k))) (seqZ i (Z.of_nat n)).
Proof.
  induction n as [|n IH]; intros i buf Hi Hl Hs.
  - cbn. by rewrite zdrop_all by lia.
  - rewrite seqZ_cons by lia. cbn [flat_map].
    replace (Z.pred (Z.of_nat (S n))) with (Z.of_nat n) by lia.
    rewrite <-(IH (Z.succ i) buf); [|lia|lia|intros k Hk; apply Hs; lia].
    rewrite <-Hs by lia. unfold zslice.
    rewrite <-(ztake_zdrop 512 (zdrop (i * 512) buf)) at 1. rewrite zdrop_zdrop by lia. do 2 f_equal. lia.
Qed.

Lemma word_pair_join a b : 0 ≤ a < 256 → 0 ≤ b < 256 → word_pair (Z.lor a (Z.shiftl b 8)) = [a; b].
Proof.
  intros Ha Hb. rewrite Z.lor_comm, lor_shiftl by lia. unfold word_pair.
  rewrite byte_of_shift, (Z.land_ones _ 8) by lia. f_equal; [|f_equal]; Z.to_euclidean_division_equations; lia.
Qed.
Lemma bytes_words_round k : ∀ l, length l = (2 * k)%nat → Forall (λ b, 0 ≤ b < 256) l → bytes_of_words (words_of_bytes l) = l.
Proof.
  induction k as [|k IH]; intros l Hl Hb; [by destruct l|]. destruct l as [|a [|b l]]; [done|cbn in Hl; lia|].
  apply Forall_cons in Hb as [Ha Hb]. apply Forall_cons in Hb as [Hb Hl2]. cbn [words_of_bytes].
  change (bytes_of_words (?w :: ?l)) with (word_pair w ++ bytes_of_words l).
  rewrite word_pair_join, IH by (done || cbn in Hl; lia). done.
Qed.
Lemma sector_data_written lba n buf f : Forall (λ b, 0 ≤ b < 256) buf → zlen buf = Z.of_nat n * 512 →
  sector_data (written lba (Z.of_nat n) buf f) lba (Z.of_nat n) = buf.
Proof.
  intros Hb Hl. unfold sector_data. rewrite <-(sectors_joined _ lba n 0 buf); [by apply zdrop_0|lia|lia|].
  intros k Hk. unfold written. rewrite decide_True by lia. replace (lba + k - lba) with k by lia.
  symmetry. apply (bytes_words_round 256); [|by apply Forall_take, Forall_drop].
  pose proof (zlen_zslice (k * 512) 512 buf). unfold zlen in *. lia.
Qed.

Lemma bus_of_range drv : 0 ≤ bus_of drv < 0xF000.
Proof. unfold bus_of. destruct (_ =? 0); vm_compute; split; congruence. Qed.

(** A disk with 48-bit addresses, behind the bus of its number. *)
Section transfer.
Context (delay : nat → nat) (fault : nat → bool) (patience : nat).
Context {M : Type} `{P : !Ports M} (view : M → drive).
Context (devices : list ata_device_t) (drv : Z) (dev : ata_device_t) (lba count : Z) (m : M).
Record transfer_ready : Prop := {
  tr_laws : disk_laws delay fault M P (bus_of drv) view;
  tr_delay : ∀ n, (delay n < patience)%nat;
  tr_busy : (d_busy (view m) < patience)%nat;
  tr_words : ∀ x, words_ok (d_disk (view m) x) ∧ length (d_disk (view m) x) = 256%nat;
  tr_dev : znth devices drv = Some dev ∧ dev_type dev = AtaDrive ∧ supports_lba48 dev = true;
  tr_size : 0 ≤ id_sectors dev ≤ 2 ^ 48;
  tr_range : 0 ≤ lba ∧ 0 < count ≤ 65536 ∧ lba + count ≤ id_sectors dev;
}.

(** C19: A read of up to 65536 sectors from a disk with 48-bit addresses fills the buffer with
    the data of exactly these sectors and returns 0, also when a sector fails and its second
    try succeeds; it answers EIO only when two accesses of this call failed.  The disk is
    left as it was. *)
Theorem ata_read_correct buffer :
  transfer_ready → zlen buffer = count * 512 →
  runs (ata_read_sectors patience devices drv lba buffer count) m (λ r m',
    d_disk (view m') = d_disk (view m) ∧
    (r = (0, sector_data (d_disk (view m)) lba count) ∨
     r.1 = - EIO ∧ failed_twice fault (d_clock (view m)) (view m'))).
Proof.
  intros [Hlaws Hdelay Hbusy Hw (Hdv & Ht & H48) Hsz (Hl & Hc & Hlc)] Hbuf.
  pose proof (bus_of_range drv) as Hbus.
  unfold ata_read_sectors, device. rewrite Hdv. cbn [kopt]. eapply runs_bind; [by apply (runs_ret _ _ (λ v m', v = dev ∧ m' = m))|].
  intros ? ? [-> ->]. rewrite Ht.
  eapply runs_bind; [eapply begin_transfer_run; try done; by left|].
  intros b m1 (-> & d' & Hd' & Hm1). cbv beta iota.
  change (command delay fault 0x24 d') with (fetch delay fault (lba48 d') (count48 d') d') in Hm1.
  set (f := d_disk (view m)) in *. set (c0 := d_clock (view m)) in *.
  destruct (fetch_sending delay fault patience Hdelay f lba c0 0 count (view m) d') as [Hidle Hsend];
    [by rewrite Z.add_0_r|by split_and!|lia|]. rewrite <-Hm1 in Hidle, Hsend.
  eapply runs_bind.
  { eapply (read_sectors_run delay fault patience (bus_of drv) view Hlaws Hbus Hdelay f Hw lba c0 (Z.to_nat count) 0 buffer m1);
      [lia|lia|done|right; by rewrite Z2Nat.id by lia]. }
  intros [flags buf] m2 (Hn & [Hl2 _] & Hright & Hidle2 & _ & Hfa). cbn [fst snd] in *.
  eapply runs_mono.
  { eapply (read_retry_run delay fault patience (bus_of drv) view Hlaws Hbus Hdelay f Hw lba c0 dev count flags H48 Hl 0 buf m2);
      [lia|unfold zlen; lia|unfold zlen in *; lia|done|done|done|lia]. }
  intros [r buf2] m3 (Hl3 & Hd3 & Hcase). cbn [fst snd] in *. split; [done|].
  destruct Hcase as [[-> Hs]|[-> Htw]]; [left|by right]. f_equal. unfold sector_data.
  rewrite <-(Z2Nat.id count) by lia. rewrite <-(sectors_joined f lba _ 0 buf2); [done|lia|lia|].
  intros k Hk. apply Hs. unfold zlen. lia.
Qed.

(** The state after the command of a write. *)
Lemma write_begun : transfer_ready →
  runs (begin_transfer patience devices 0x34 0x30 drv lba count dev) m (λ b m1, b = inr (bus_of drv) ∧
    d_disk (view m1) = d_disk (view m) ∧ d_clock (view m1) = S (d_clock (view m)) ∧
    (d_busy (view m1) < patience)%nat ∧ d_phase (view m1) = Taking [] lba count).
Proof.
  intros [Hlaws Hdelay Hbusy Hw (Hdv & Ht & H48) Hsz (Hl & Hc & Hlc)]. eapply runs_mono.
  { eapply begin_transfer_run; try done; [apply bus_of_range|by right]. }
  intros b m1 (-> & d' & (Ha & Hco & Hk & Hd) & Hm1). split; [done|].
  change (command delay fault 0x34 d') with (ask delay (lba48 d') (count48 d') d') in Hm1.
  rewrite Hm1, Ha, Hco. cbn. split_and!; [done|by rewrite Hk|apply Hdelay|done].
Qed.

(** C20: A write of up to 65536 sectors to a disk with 48-bit addresses on which no sector fails
    returns 0, and then the disk holds the buffer from the first sector on and in every other
    sector what it held before. *)
Theorem ata_write_correct buffer :
  transfer_ready → zlen buffer = count * 512 → Forall (λ b, 0 ≤ b < 256) buffer →
  (∀ k, (d_clock (view m) < k)%nat → fault k = false) →
  runs (ata_write_sectors patience devices drv lba buffer count) m (λ r m', r = 0 ∧
    sector_data (d_disk (view m')) lba count = buffer ∧
    ∀ x, x < lba ∨ lba + count ≤ x → d_disk (view m') x = d_disk (view m) x).
Proof.
  intros Hr Hbuf Hbytes Hnf. destruct (Hr) as [Hlaws Hdelay Hbusy Hw (Hdv & Ht & H48) Hsz (Hl & Hc & Hlc)].
  unfold ata_write_sectors, device. rewrite Hdv. cbn [kopt]. eapply runs_bind; [by apply (runs_ret _ _ (λ v m', v = dev ∧ m' = m))|].
  intros ? ? [-> ->]. rewrite Ht. eapply runs_bind; [by eapply write_begun|].
  intros b m1 (-> & Hd1 & Hk1 & Hb1 & Hp1). cbv beta iota.
  eapply runs_bind.
  { eapply (write_loop_run delay fault patience (bus_of drv) view Hlaws (bus_of_range drv) Hdelay lba buffer (Z.to_nat count) Hbytes 0 m1);
      [lia|lia|intros k Hk; apply Hnf; lia|done|right; by rewrite Hp1, Z.add_0_r, Z2Nat.id by lia]. }
  intros flags m2 [Hfl Hd2]. eapply runs_mono; [by apply write_retry_run|]. intros r ? [-> ->]. split; [done|].
  rewrite Z2Nat.id, Z.add_0_r in Hd2 by lia. split.
  - rewrite <-(sector_data_written lba (Z.to_nat count) buffer (d_disk (view m1))) by (done || lia).
    rewrite Z2Nat.id by lia. unfold sector_data. apply flat_map_ext. intros k. by rewrite Hd2.
  - intros x Hx. by rewrite Hd2, decide_False, Hd1 by lia.
Qed.

(** The driver asks for errors before it sends a sector, and so never sees that of the last
    one: the write is reported done and the sector keeps its old data. *)
Lemma last_write_error_unseen buffer :
  transfer_ready → count = 1 → zlen buffer = 512 → Forall (λ b, 0 ≤ b < 256) buffer → fault (S (d_clock (view m))) = true →
  runs (ata_write_sectors patience devices drv lba buffer count) m (λ r m', r = 0 ∧ d_disk (view m') = d_disk (view m)).
Proof.
  intros Hr Hone Hbuf Hbytes Hfault. destruct (Hr) as [Hlaws Hdelay Hbusy Hw (Hdv & Ht & H48) Hsz (Hl & Hc & Hlc)].
  pose proof (bus_of_range drv) as Hbus.
  unfold ata_write_sectors, device. rewrite Hdv. cbn [kopt]. eapply runs_bind; [by apply (runs_ret _ _ (λ v m', v = dev ∧ m' = m))|].
  intros ? ? [-> ->]. rewrite Ht. eapply runs_bind; [by eapply write_begun|].
  intros b m1 (-> & Hd1 & Hk1 & Hb1 & Hp1). cbv beta iota.
  eapply runs_bind with (R := λ flags m', Forall (λ b, b = false) flags ∧ d_disk (view m') = d_disk (view m)).
  2: { intros flags m2 [Hfl Hd2]. eapply runs_mono; [by apply write_retry_run|]. by intros r ? [-> ->]. }
  rewrite Hone. change (Z.to_nat 1) with 1%nat. cbn [write_sectors_loop].
  eapply runs_bind; [eapply wait_data_run; try done; by rewrite Hp1|]. intros err m2 [-> H2]. rewrite Hp1. cbn [is_failed].
  eapply runs_bind; [apply (runs_kopt _ buffer m2 (λ v m', v = buffer ∧ m' = m2)); [|done]|].
  { rewrite field_zslice by lia. f_equal. unfold zslice. rewrite zdrop_0. apply ztake_all. lia. }
  intros ? ? [-> ->]. destruct (words_of_bytes_ok 256 buffer) as [Hwl Hwok]; [unfold zlen in *; lia|done|].
  eapply runs_bind; [eapply (write_words_run delay fault (bus_of drv) view Hlaws Hbus _ lba count m2 []);
    [done|intros E; by rewrite E in Hwl|unfold zlen; cbn; lia|by rewrite H2]|].
  intros [] m3 H3. cbv beta in H3. rewrite H2 in H3. unfold store in H3. cbn [d_clock set_busy set_phase app] in H3.
  rewrite Hk1, Hfault in H3. cbn [write_sectors_loop]. eapply runs_bind; [by apply (runs_ret [] m3 (λ l m', l = [] ∧ m' = m3))|].
  intros ? ? [-> ->]. apply runs_ret. split; [by repeat constructor|]. by rewrite H3.
Qed.
End transfer.

(** A disk of 1000 sectors, each filled with its number, on which one access fails. *)
Module Example_disk.
Definition waits (n : nat) : nat := 2.
Definition once (n : nat) : bool := (n =? 1)%nat.
#[export] Instance drive_ports : Ports drive := {|
  port_in width port d := drive_in waits once width (port - 0x1F0) d;
  port_out width port v d := drive_out waits once width (port - 0x1F0) v d;
|}.
Definition initial : drive := mk_drive (0, 0) (0, 0) (0, 0) (0, 0) 0 Waiting 0 0 (λ x, replicate 256 (x mod 2 ^ 16)).
Definition disk_device : ata_device_t :=
  mk_ata_device AtaDrive (zrepeat 83 0 ++ [0x400] ++ zrepeat 16 0 ++ [1000] ++ zrepeat 155 0).
Definition drives : list ata_device_t := [disk_device; no_device; no_device; no_device].

Lemma initial_ready n : 0 < n ≤ 5 → transfer_ready waits once 5 id drives 0 disk_device 10 n initial.
Proof.
  intros Hn. split.
  - change (bus_of 0) with 0x1F0. split.
    + intros w p m _. cbv zeta. cbn [port_in drive_ports]. replace (0x1F0 + p - 0x1F0) with p by lia. symmetry. apply (surjective_pairing (drive_in waits once w p m)).
    + intros w p v m _. cbn [port_out drive_ports]. by replace (0x1F0 + p - 0x1F0) with p by lia.
  - intros k. unfold waits. lia.
  - cbn. lia.
  - intros x. split; [|done]. cbn [id d_disk initial]. unfold words_ok. apply Forall_replicate, Z.mod_pos_bound. lia.
  - done.
  - vm_compute. split; congruence.
  - change (id_sectors disk_device) with 1000. lia.
Qed.
End Example_disk.
Import Example_disk.

Lemma ata_read_correct_witness :
  runs (ata_read_sectors 5 drives 0 10 (zrepeat 1024 0) 2) initial (λ r m',
    d_disk m' = d_disk initial ∧
    (r = (0, sector_data (d_disk initial) 10 2) ∨ r.1 = - EIO ∧ failed_twice once 0 m')).
Proof. apply (ata_read_correct waits once 5 id drives 0 disk_device 10 2 initial); [apply initial_ready; lia|done]. Defined.
Lemma ata_write_correct_witness :
  runs (ata_write_sectors 5 drives 0 10 (zrepeat 512 7) 1) (set_phase Waiting 0 5 initial) (λ r m', r = 0 ∧
    sector_data (d_disk m') 10 1 = zrepeat 512 7 ∧
    ∀ x, x < 10 ∨ 10 + 1 ≤ x → d_disk m' x = d_disk initial x).
Proof.
  apply (ata_write_correct waits once 5 id drives 0 disk_device 10 1 (set_phase Waiting 0 5 initial)).
  - destruct (initial_ready 1) as [? ? ? ? ? ? ?]; [lia|]. by split.
  - done.
  - apply Forall_replicate. lia.
  - intros [|[|k]]; cbn; [lia|lia|done].
Defined.
