(* ===== verification/Glfs.v ===== *)
(** * kernel/fs/glfs.c: the glue around the GlitchFS library

    The library is a submodule; its operations and the constants of its header are a
    parameter ([glfs_lib]), over the state [E] of the library and of what it calls
    back: the block devices and the character devices, the kernel heap and the
    clock.  The variable [mount] of the file, the mount that the calls act on, is a
    part of the state of the table of file systems. *)

From S2P Require Import Prelude Paging Calendar Mem Heap Vfs Block Ports.

(** glfs_backing_t: what the library calls. *)
Record glfs_backing_t (E : Type) := mk_glfs_backing {
  backing_data : Z;
  backing_read_block : Z → Z → K E (Z * list Z);
  backing_write_block : Z → Z → list Z → K E Z;
  backing_time : K E Z;
  backing_alloc : Z → K E Z;
  backing_free : Z → K E unit;
}.
Record glfs_attr_t := mk_glfs_attr {
  attr_type : Z;
  attr_mtime : Z;
  attr_ctime : Z;
  attr_rdev : Z;
  attr_size : Z;
}.
(** The functions of the library; those with an out parameter return it too. *)
Record glfs_lib (E : Type) := mk_glfs_lib {
  GLFS_BLOCK_SIZE : Z;
  GLFS_REG : Z;
  GLFS_DIR : Z;
  GLFS_BLK : Z;
  GLFS_CHR : Z;
  glfs_check : glfs_backing_t E → K E Z;
  glfs_mount : glfs_backing_t E → Z → K E Z;
  glfs_unmount : Z → K E Z;
  glfs_get_root : Z → K E Z;
  glfs_lookup : Z → list Z → Z → K E (Z * Z);
  glfs_open : Z → Z → K E Z;
  glfs_close : Z → Z → K E Z;
  glfs_readdir : Z → Z → Z → K E (Z * dirent_t);
  glfs_getattr : Z → Z → K E (Z * glfs_attr_t);
  glfs_read : Z → Z → Z → Z → K E (Z * list Z);
  glfs_write : Z → Z → list Z → Z → K E Z;
  glfs_mknod : Z → list Z → Z → Z → K E Z;
  glfs_delete : Z → list Z → K E Z;
  glfs_rename : Z → list Z → list Z → K E Z;
  glfs_link : Z → Z → list Z → K E Z;
  glfs_truncate : Z → Z → Z → K E Z;
}.
Arguments GLFS_BLOCK_SIZE {_}. Arguments GLFS_REG {_}. Arguments GLFS_DIR {_}.
Arguments GLFS_BLK {_}. Arguments GLFS_CHR {_}. Arguments glfs_check {_}.
Arguments glfs_mount {_}. Arguments glfs_unmount {_}. Arguments glfs_get_root {_}.
Arguments glfs_lookup {_}. Arguments glfs_open {_}. Arguments glfs_close {_}.
Arguments glfs_readdir {_}. Arguments glfs_getattr {_}. Arguments glfs_read {_}.
Arguments glfs_write {_}. Arguments glfs_mknod {_}. Arguments glfs_delete {_}.
Arguments glfs_rename {_}. Arguments glfs_link {_}. Arguments glfs_truncate {_}.

Definition FLAG_READ_ONLY : Z := 1.
Definition DT_UNKNOWN : Z := 0.

Section glfs.
Context {E D C : Type} (lib : glfs_lib E).
Context (blocks : part E (@blk D)) (chars : part E (@chr C)) (heap : part E kheap) (clock : E → vvar_t).
Context (mount : part E Z).

(** ** The block device under a mount *)

Definition device_at (data : Z) : block_device_t := device_of (major data) (minor data).
Definition block_sectors : Z := GLFS_BLOCK_SIZE lib / 512.
Definition glfs_backing_read_block (data block : Z) : K E (Z * list Z) :=
  on_part blocks (read_sectors (device_at data) (u64 (block * block_sectors)) block_sectors).
Definition glfs_backing_write_block (data block : Z) (buffer : list Z) : K E Z :=
  on_part blocks (write_sectors (device_at data) (u64 (block * block_sectors)) buffer block_sectors).
Definition create_backing (dev : block_device_t) : glfs_backing_t E :=
  mk_glfs_backing E (makedev (major_number dev) (minor_number dev))
    glfs_backing_read_block glfs_backing_write_block (kgets (λ e, get_time (clock e)))
    (λ size, on_part heap (kmalloc size)) (λ p, on_part heap (kfree p)).

(** ** The operations *)

Definition on_mount {A} (f : Z → K E A) : K E A := m ← kgets (part_get mount); f m.
Definition glfs_glue_check (dev : block_device_t) : K E Z := glfs_check lib (create_backing dev).
Definition glfs_glue_mount (dev : block_device_t) (flags : Z) : K E Z :=
  m ← glfs_mount lib (create_backing dev) (Z.land flags FLAG_READ_ONLY);
  on_part mount (kput m);; mret m.
Definition glfs_glue_unmount (p_mount : Z) : K E Z := glfs_unmount lib p_mount.
Definition glfs_glue_select (p_mount : Z) : K E unit := on_part mount (kput p_mount).
Definition glfs_glue_get_root : K E Z := on_mount (glfs_get_root lib).
Definition glfs_glue_lookup (name : list Z) (parent : Z) : K E (Z * Z) := on_mount (λ m, glfs_lookup lib m name parent).
Definition glfs_glue_open (inode : Z) : K E Z := on_mount (λ m, glfs_open lib m inode).
Definition glfs_glue_close (inode : Z) : K E Z := on_mount (λ m, glfs_close lib m inode).

(** The kinds of the library as those of the kernel, and back. *)
Definition kind_of (type : Z) : Z :=
  if type =? GLFS_REG lib then DT_FILE
  else if type =? GLFS_DIR lib then DT_DIR
  else if type =? GLFS_BLK lib then DT_BLOCK
  else if type =? GLFS_CHR lib then DT_CHAR
  else DT_UNKNOWN.
Definition glfs_kind (type : Z) : option Z :=
  if type =? DT_FILE then Some (GLFS_REG lib)
  else if type =? DT_DIR then Some (GLFS_DIR lib)
  else if type =? DT_BLOCK then Some (GLFS_BLK lib)
  else if type =? DT_CHAR then Some (GLFS_CHR lib)
  else None.
Definition glfs_glue_readdir (inode index : Z) : K E (Z * dirent_t) :=
  r ← on_mount (λ m, glfs_readdir lib m inode index);
  if r.1 <? 0 then mret (r.1, mk_dirent [] 0)
  else mret (r.1, mk_dirent (d_name r.2) (kind_of (d_type r.2))).
(** [out] is what the structure held; its mode is not written. *)
Definition glfs_glue_stat (inode : Z) (out : stat_t) : K E (Z * stat_t) :=
  r ← on_mount (λ m, glfs_getattr lib m inode);
  if r.1 <? 0 then mret (r.1, out)
  else
    let a := r.2 in
    mret (0, mk_stat (attr_size a) (attr_ctime a) (attr_mtime a) (attr_ctime a) (attr_rdev a) (st_mode out)
      (kind_of (attr_type a))).

(** [device]: the library has a device here; the calls go to its driver.  The types are
    compared with the constants of the library. *)
Definition glfs_glue_read (out : stat_t) (inode offset size : Z) : K E (Z * list Z) :=
  r ← on_mount (λ m, glfs_read lib m inode offset size);
  let res := s32 r.1 in
  if res =? - ENODEV then
    q ← glfs_glue_stat inode out;
    if q.1 <? 0 then mret (q.1, [])
    else
      let st := q.2 in
      if st_type st =? GLFS_BLK lib then
        on_part blocks (block_read (device_of (major (st_rdev st)) (minor (st_rdev st))) offset size)
      else if st_type st =? GLFS_CHR lib then
        on_part chars (char_read (mk_char_device (major (st_rdev st)) (minor (st_rdev st))) offset size)
      else mret (- ENODEV, [])
  else mret (res, r.2).
Definition glfs_glue_write (out : stat_t) (inode : Z) (buffer : list Z) (offset : Z) : K E Z :=
  r ← on_mount (λ m, glfs_write lib m inode buffer offset);
  let res := s32 r in
  if res =? - ENODEV then
    q ← glfs_glue_stat inode out;
    if q.1 <? 0 then mret q.1
    else
      let st := q.2 in
      if st_type st =? GLFS_BLK lib then
        on_part blocks (block_write (device_of (major (st_rdev st)) (minor (st_rdev st))) offset buffer)
      else if st_type st =? GLFS_CHR lib then
        on_part chars (char_write (mk_char_device (major (st_rdev st)) (minor (st_rdev st))) offset buffer)
      else mret (- ENODEV)
  else mret res.

Definition glfs_glue_mknod (path : list Z) (type dev : Z) : K E Z :=
  match glfs_kind type with
  | None => mret (- EINVAL)
  | Some type => on_mount (λ m, glfs_mknod lib m path type dev)
  end.
Definition glfs_glue_create_file (path : list Z) : K E Z := glfs_glue_mknod path DT_FILE 0.
Definition glfs_glue_create_directory (path : list Z) : K E Z := glfs_glue_mknod path DT_DIR 0.
Definition glfs_glue_delete (path : list Z) : K E Z := on_mount (λ m, glfs_delete lib m path).
Definition glfs_glue_rename (old_path new_path : list Z) : K E Z := on_mount (λ m, glfs_rename lib m old_path new_path).
Definition glfs_glue_link (inode : Z) (link : list Z) : K E Z := on_mount (λ m, glfs_link lib m inode link).
Definition glfs_glue_truncate (inode new_size : Z) : K E Z := on_mount (λ m, glfs_truncate lib m inode new_size).

(** The entry of the table of file systems. *)
Definition glfs_register (out : stat_t) : filesystem_t E :=
  mk_filesystem E [103; 108; 102; 115] true true
    (Some glfs_glue_check) glfs_glue_mount (Some glfs_glue_unmount) glfs_glue_select glfs_glue_get_root
    glfs_glue_lookup (Some glfs_glue_open) (Some glfs_glue_close) (Some glfs_glue_readdir) (Some (glfs_glue_read out))
    (Some (glfs_glue_write out)) (Some (λ inode, glfs_glue_stat inode out)) (Some glfs_glue_mknod)
    (Some glfs_glue_create_file) (Some glfs_glue_create_directory) (Some glfs_glue_delete) (Some glfs_glue_rename)
    (Some glfs_glue_link) (Some glfs_glue_truncate).
End glfs.

(** ** What the glue keeps *)

Section kinds.
Context {E D C : Type} (lib : glfs_lib E).
Context (blocks : part E (@blk D)) (chars : part E (@chr C)) (mount : part E Z).
Context (Hkinds : NoDup [GLFS_REG lib; GLFS_DIR lib; GLFS_BLK lib; GLFS_CHR lib]).

(** A kind that the kernel stores comes back as it was. *)
Lemma kinds_round_trip type k : glfs_kind lib type = Some k → kind_of lib k = type.
Proof using Hkinds.
  unfold glfs_kind, kind_of. pose proof Hkinds as Hk. rewrite !NoDup_cons, !not_elem_of_cons in Hk. destruct_and! Hk.
  intros Hkind. repeat case_match; simplify_eq; lia.
Qed.

(** The type of a device node has been translated before it is compared with the numbers
    of the library: where these are not those of the kernel, no device is reached. *)
Lemma devices_not_reached out inode offset size e e1 e2 r a :
  glfs_read lib (part_get mount e) inode offset size e = Done (r, e1) → s32 r.1 = - ENODEV →
  glfs_getattr lib (part_get mount e1) inode e1 = Done ((0, a), e2) →
  (∀ type, kind_of lib type ≠ GLFS_BLK lib ∧ kind_of lib type ≠ GLFS_CHR lib) →
  glfs_glue_read lib blocks chars mount out inode offset size e = Done ((- ENODEV, []), e2).
Proof.
  intros Hr Hd Ha Hne. unfold glfs_glue_read, on_mount.
  rewrite (K_bind_step _ _ _ r e1) by (by rewrite (K_bind_step _ _ _ (part_get mount e) e)). cbv zeta. rewrite Hd, Z.eqb_refl.
  rewrite (K_bind_step _ _ _ (0, mk_stat (attr_size a) (attr_ctime a) (attr_mtime a) (attr_ctime a) (attr_rdev a) (st_mode out)
    (kind_of lib (attr_type a))) e2).
  - cbn [fst snd st_type]. destruct (Hne (attr_type a)) as [H1 H2].
    by rewrite (proj2 (Z.eqb_neq _ _) H1), (proj2 (Z.eqb_neq _ _) H2).
  - unfold glfs_glue_stat, on_mount. rewrite (K_bind_step _ _ _ (0, a) e2); [done|].
    by rewrite (K_bind_step _ _ _ (part_get mount e1) e1).
Qed.
End kinds.
