(* ===== verification/Boot.v ===== *)
(** * kernel/main.c, gdt.c, idt.c, panic.c: start-up and panic

    The parser of the kernel command line, the descriptor tables as the processor
    reads them, with the addresses of the handlers as a parameter, the registers of
    the system call entry, and what happens when the kernel panics.  kernel_main
    itself is the order of the calls to the other parts. *)

From S2P Require Import Prelude Path Paging Heap.

(** ** main.c: the command line *)

Definition SPACE : Z := 32.
(** Strings are lists of characters without their terminator, which reads as 0. *)
Definition char_at (s : list Z) : Z := default 0 (head s).
Fixpoint strncmp (n : nat) (s1 s2 : list Z) : Z :=
  match n with
  | O => 0
  | S n =>
    if negb (char_at s1 =? char_at s2) then u8 (char_at s1) - u8 (char_at s2)
    else if char_at s1 =? 0 then 0
    else strncmp n (tail s1) (tail s2)
  end.

Record boot_config := mk_boot_config {
  root_readonly : bool;
  rootfs_device : list Z;
  console_specified : bool;
  console_device : list Z;
  init_binary_path : list Z;
}.
(** "tty1", "/bin/init" *)
Definition boot_defaults : boot_config :=
  mk_boot_config false [] false [116; 116; 121; 49] [47; 98; 105; 110; 47; 105; 110; 105; 116].
Definition set_readonly (b : bool) (c : boot_config) : boot_config :=
  mk_boot_config b (rootfs_device c) (console_specified c) (console_device c) (init_binary_path c).
Definition set_root (d : list Z) (c : boot_config) : boot_config :=
  mk_boot_config (root_readonly c) d (console_specified c) (console_device c) (init_binary_path c).
Definition set_init (p : list Z) (c : boot_config) : boot_config :=
  mk_boot_config (root_readonly c) (rootfs_device c) (console_specified c) (console_device c) p.
Definition set_console (d : list Z) (c : boot_config) : boot_config :=
  mk_boot_config (root_readonly c) (rootfs_device c) true d (init_binary_path c).

Definition RO : list Z := [114; 111; 32].
Definition RW : list Z := [114; 119; 32].
Definition ROOT : list Z := [114; 111; 111; 116; 61].
Definition INIT : list Z := [105; 110; 105; 116; 61].
Definition CONSOLE : list Z := [99; 111; 110; 115; 111; 108; 101; 61].

(** A value goes on to a space, the end, or the size of its array: the value and the rest. *)
Fixpoint read_value (n : nat) (s : list Z) : list Z * list Z :=
  match n, s with
  | S n, c :: s => if c =? SPACE then ([], c :: s) else let r := read_value n s in (c :: r.1, r.2)
  | _, _ => ([], s)
  end.
Definition value_of (skip : nat) (s : list Z) : list Z * list Z := read_value (Z.to_nat (MAX_PATH - 1)) (drop skip s).
Definition starts (word s : list Z) : bool := strncmp (length word) s word =? 0.
Fixpoint parse_loop (fuel : nat) (s : list Z) : K boot_config unit :=
  match s with
  | [] => mret tt
  | c :: rest =>
    match fuel with
    | O => kfuel
    | S fuel =>
      if c =? SPACE then parse_loop fuel rest
      else if starts RO s then kmodify (set_readonly true);; parse_loop fuel (drop 2 s)
      else if starts RW s then kmodify (set_readonly false);; parse_loop fuel (drop 2 s)
      else if starts ROOT s then kmodify (set_root (value_of 5 s).1);; parse_loop fuel (value_of 5 s).2
      else if starts INIT s then kmodify (set_init (value_of 5 s).1);; parse_loop fuel (value_of 5 s).2
      else if starts CONSOLE s then kmodify (set_console (value_of 8 s).1);; parse_loop fuel (value_of 8 s).2
      else kpanic
    end
  end.
(** [None]: the boot loader passed no command line. *)
Definition parse_kernel_cmdline (cmdline : option (list Z)) : K boot_config unit :=
  match cmdline with Some s => parse_loop (length s) s | None => mret tt end;;
  c ← kget;
  match rootfs_device c with [] => kpanic | _ => mret tt end.

(** ** gdt.c *)

Definition GDT_ENTRY_COUNT : Z := 7.
Definition TSS_SIZE : Z := 104.
Definition or_all (l : list Z) : Z := foldr Z.lor 0 l.
Definition kernel_code : Z := or_all [Z.shiftl 11 8; Z.shiftl 1 12; Z.shiftl 0 13; Z.shiftl 1 15; Z.shiftl 1 21].
Definition kernel_data : Z := or_all [Z.shiftl 3 8; Z.shiftl 1 12; Z.shiftl 0 13; Z.shiftl 1 15; Z.shiftl 1 21].
Definition user_code : Z := Z.lor kernel_code (Z.shiftl 3 13).
Definition user_data : Z := Z.lor kernel_data (Z.shiftl 3 13).
(** The two words of the descriptor of the task state segment at [tss]. *)
Definition tss_low (tss : Z) : Z :=
  or_all [Z.land (TSS_SIZE - 1) 0xFFFF; Z.shiftl (Z.land tss 0xFFFFFF) 16; Z.shiftl 9 40; Z.shiftl 1 47;
          Z.shiftl (Z.land (TSS_SIZE - 1) 0xF0000) 32; Z.shiftl (Z.land (Z.shiftr tss 24) 0xFF) 56].
Definition tss_high (tss : Z) : Z := Z.land (Z.shiftr tss 32) 0xFFFFFFFF.
Definition gdt (tss : Z) : list Z :=
  [0; u64 (Z.shiftl kernel_code 32); u64 (Z.shiftl kernel_data 32); u64 (Z.shiftl user_code 32);
   u64 (Z.shiftl user_data 32); tss_low tss; tss_high tss].
Record tss_t := mk_tss { rsp0 : Z; ist1 : Z; ist2 : Z }.
Definition gdt_init (tss : Z) : K kheap (list Z * tss_t) :=
  a ← kmalloc (4096 * 16);
  b ← kmalloc (4096 * 16);
  mret (gdt tss, mk_tss 0 (u64 (a + 4096 * 16)) (u64 (b + 4096 * 16))).

(** ** idt.c: the gates *)

Record idt_entry_t := mk_idt_entry {
  offset_low : Z;
  selector : Z;
  ist : Z;
  type_attr : Z;
  offset_mid : Z;
  offset_high : Z;
}.
Definition KERNEL_CS : Z := 0x08.
Definition idt_entry (isr_address sel attr i : Z) : idt_entry_t :=
  mk_idt_entry (Z.land isr_address 0xFFFF) sel i attr (Z.land (Z.shiftr isr_address 16) 0xFFFF)
    (Z.land (Z.shiftr isr_address 32) 0xFFFFFFFF).
(** The stack of a vector: the page fault and the hardware error have one, the double fault another. *)
Definition gate_ist (vec : Z) : Z := if (vec =? 14) || (vec =? 18) then 1 else if vec =? 8 then 2 else 0.
(** Programs may raise the breakpoint and the system call. *)
Definition gate_attr (vec : Z) : Z := if (vec =? 3) || (vec =? 128) then 0xEE else 0x8E.
Definition no_gate : idt_entry_t := mk_idt_entry 0 0 0 0 0 0.
Definition idt (isr : Z → Z) : list idt_entry_t :=
  (λ vec, if (vec <? 48) || (vec =? 128) then idt_entry (isr vec) KERNEL_CS (gate_attr vec) (gate_ist vec) else no_gate)
  <$> seqZ 0 256.

(** ** panic.c *)

Inductive panic_state_t := OPERATIONAL | PANIC | STACK_TRACE | WAITING_INPUT.
Inductive panic_event :=
| Message
| Frame (i return_address : Z)
| Cannot_unwind
| Prompt
| Reboot
| Halt.

Section panic.
(** Words of memory; a read of [None] is a page fault. *)
Context (word : Z → option Z).

(** The frames that are printed, and whether the trace came to its end. *)
Fixpoint stack_trace (fuel : nat) (rbp i : Z) : option (list panic_event * bool) :=
  match fuel with
  | O => None
  | S fuel =>
    match word (rbp + 8) with
    | None => Some ([], false)
    | Some return_address =>
      if return_address =? 0 then Some ([], true)
      else
        match word rbp with
        | None => Some ([Frame i return_address], false)
        | Some next =>
          if next =? 0 then Some ([Frame i return_address], true)
          else r ← stack_trace fuel next (i + 1); Some (Frame i return_address :: r.1, r.2)
        end
    end
  end.
(** A page fault within the trace is a panic of its own, which finds the state
    STACK_TRACE.  [None]: the trace has no end. *)
Definition vpanic_int (fuel : nat) (panic_state : panic_state_t) (rbp : Z) : option (list panic_event) :=
  let failed := [Cannot_unwind; Prompt; Reboot] in
  match panic_state with
  | OPERATIONAL =>
    r ← stack_trace fuel rbp 0;
    Some (Message :: r.1 ++ (if r.2 : bool then [Prompt; Reboot] else failed))
  | STACK_TRACE => Some failed
  | PANIC | WAITING_INPUT => Some [Halt]
  end.
End panic.

(** ** The command line is understood *)

Inductive boot_option :=
| Read_only
| Read_write
| Root (device : list Z)
| Init (path : list Z)
| Console (device : list Z).
(** An option as it is written, with the space behind it. *)
Definition written (o : boot_option) : list Z :=
  match o with
  | Read_only => RO
  | Read_write => RW
  | Root d => ROOT ++ d ++ [SPACE]
  | Init p => INIT ++ p ++ [SPACE]
  | Console d => CONSOLE ++ d ++ [SPACE]
  end.
Definition configure (c : boot_config) (o : boot_option) : boot_config :=
  match o with
  | Read_only => set_readonly true c
  | Read_write => set_readonly false c
  | Root d => set_root d c
  | Init p => set_init p c
  | Console d => set_console d c
  end.
Definition value_ok (v : list Z) : Prop := Forall (λ x, x ≠ SPACE) v ∧ zlen v < MAX_PATH - 1.
Definition option_ok (o : boot_option) : Prop :=
  match o with Read_only | Read_write => True | Root v | Init v | Console v => value_ok v end.

Lemma read_value_until v s : ∀ n, Forall (λ x, x ≠ SPACE) v → (length v < n)%nat →
  read_value n (v ++ SPACE :: s) = (v, SPACE :: s).
Proof.
  induction v as [|c v IH]; intros n Hv Hn; (destruct n as [|n]; [cbn in Hn; lia|]); cbn [app read_value].
  - done.
  - apply Forall_cons in Hv as [Hc Hv]. rewrite (proj2 (Z.eqb_neq c SPACE) Hc), IH; [done|done|cbn in Hn; lia].
Qed.
Lemma value_read v s : value_ok v → read_value (Z.to_nat (MAX_PATH - 1)) (v ++ SPACE :: s) = (v, SPACE :: s).
Proof. intros [Hv Hl]. apply read_value_until; [done|]. unfold zlen in Hl. lia. Qed.
Definition take_value (s : list Z) : list Z * list Z := read_value (Z.to_nat (MAX_PATH - 1)) s.
Lemma parse_space fuel s c : parse_loop (S fuel) (SPACE :: s) c = parse_loop fuel s c.
Proof. done. Qed.
Lemma parse_root fuel s c : parse_loop (S fuel) (ROOT ++ s) c = parse_loop fuel (take_value s).2 (set_root (take_value s).1 c).
Proof. reflexivity. Qed.
Lemma parse_init fuel s c : parse_loop (S fuel) (INIT ++ s) c = parse_loop fuel (take_value s).2 (set_init (take_value s).1 c).
Proof. reflexivity. Qed.
Lemma parse_console fuel s c :
  parse_loop (S fuel) (CONSOLE ++ s) c = parse_loop fuel (take_value s).2 (set_console (take_value s).1 c).
Proof. reflexivity. Qed.
Lemma parse_option o s c fuel : option_ok o → (length (written o) ≤ fuel)%nat →
  ∃ fuel', (fuel - length (written o) ≤ fuel')%nat ∧ parse_loop fuel (written o ++ s) c = parse_loop fuel' s (configure c o).
Proof.
  intros Ho Hf.
  destruct o as [| |v|v|v]; cbn [written] in Hf |- *; rewrite ?length_app in Hf; cbn in Hf;
    (destruct fuel as [|[|fuel]]; [lia|lia|]); exists fuel; (split; [rewrite ?length_app; cbn; lia|]);
    [reflexivity|reflexivity| | |]; rewrite <-!app_assoc; change ([SPACE] ++ s) with (SPACE :: s).
  - rewrite parse_root. unfold take_value. by rewrite value_read.
  - rewrite parse_init. unfold take_value. by rewrite value_read.
  - rewrite parse_console. unfold take_value. by rewrite value_read.
Qed.
Lemma parse_options l : ∀ c fuel, Forall option_ok l → (length (flat_map written l) ≤ fuel)%nat →
  parse_loop fuel (flat_map written l) c = Done (tt, foldl configure c l).
Proof.
  induction l as [|o l IH]; intros c fuel Hl Hf; cbn [flat_map foldl] in *.
  - by destruct fuel.
  - apply Forall_cons in Hl as [Ho Hl]. rewrite length_app in Hf.
    destruct (parse_option o (flat_map written l) c fuel Ho ltac:(lia)) as (fuel' & Hf' & E).
    rewrite E. apply IH; [done|lia].
Qed.

(** The options of the command line are understood, whatever their order and number; without
    a root device the kernel panics. *)
Theorem command_line_understood l c :
  Forall option_ok l →
  parse_kernel_cmdline (Some (flat_map written l)) c =
    match rootfs_device (foldl configure c l) with [] => Panic | _ => Done (tt, foldl configure c l) end.
Proof.
  intros Hl. unfold parse_kernel_cmdline. rewrite (K_bind_step _ _ _ _ _ (parse_options l c _ Hl (le_n _))).
  rewrite (K_bind_step _ _ _ (foldl configure c l) (foldl configure c l)) by done.
  by destruct (rootfs_device (foldl configure c l)).
Qed.
(** An option without a value at the end of the line is not: the test wants the space. *)
Lemma last_option_panics : parse_kernel_cmdline (Some (ROOT ++ [120; SPACE; 114; 111])) boot_defaults = Panic.
Proof. reflexivity. Qed.

(** ** The descriptor tables say what they mean *)

(** The address that the processor takes from a gate. *)
Definition gate_address (e : idt_entry_t) : Z := offset_low e + 2 ^ 16 * offset_mid e + 2 ^ 32 * offset_high e.
Lemma idt_calls_handlers isr vec : 0 ≤ isr vec < 2 ^ 64 → 0 ≤ vec < 48 ∨ vec = 128 →
  ∃ e, znth (idt isr) vec = Some e ∧ gate_address e = isr vec ∧
    (* programs can only raise the breakpoint and the system call *)
    (Z.shiftr (type_attr e) 5 mod 4 = 3 ↔ vec = 3 ∨ vec = 128).
Proof.
  intros Hisr Hvec. assert (0 ≤ vec < 256) as Hr by lia.
  exists (idt_entry (isr vec) KERNEL_CS (gate_attr vec) (gate_ist vec)). split_and!.
  - unfold idt, znth. rewrite (proj2 (Z.ltb_ge vec 0)) by lia. rewrite list_lookup_fmap, lookup_seqZ_lt by lia.
    rewrite Z.add_0_l, Z2Nat.id by lia. cbn [fmap option_fmap option_map]. by rewrite (proj2 (orb_true_iff _ _)) by lia.
  - unfold gate_address, idt_entry. cbn [offset_low offset_mid offset_high].
    rewrite !Z.shiftr_div_pow2, (Z.land_ones _ 16), (Z.land_ones _ 16), (Z.land_ones _ 32) by lia.
    Z.to_euclidean_division_equations. lia.
  - cbn [type_attr idt_entry]. unfold gate_attr. destruct (_ || _) eqn:E.
    + apply orb_true_iff in E. split; [intros _; lia|intros _; reflexivity].
    + apply orb_false_iff in E. split; [vm_compute; discriminate|lia].
Qed.

(** The base and the limit that the processor takes from the two words of a descriptor. *)
Definition descriptor_base (low high : Z) : Z :=
  Z.shiftr low 16 mod 2 ^ 24 + 2 ^ 24 * (Z.shiftr low 56 mod 2 ^ 8) + 2 ^ 32 * (high mod 2 ^ 32).
Definition descriptor_limit (low : Z) : Z := low mod 2 ^ 16 + 2 ^ 16 * (Z.shiftr low 48 mod 2 ^ 4).
Lemma lor_above low x k : 0 ≤ k → 0 ≤ low < 2 ^ k → Z.lor low (x * 2 ^ k) = low + x * 2 ^ k.
Proof. intros Hk Hl. rewrite Z.lor_comm, <-(Z.shiftl_mul_pow2 x k), lor_shiftl, Z.shiftl_mul_pow2 by done. lia. Qed.
Lemma tss_low_sum tss : tss_low tss =
  103 + 2 ^ 16 * (tss mod 2 ^ 24) + 2 ^ 40 * 9 + 2 ^ 47 + 2 ^ 56 * (tss / 2 ^ 24 mod 2 ^ 8).
Proof.
  unfold tss_low, or_all. cbn [foldr]. rewrite Z.lor_0_r.
  change (Z.land (TSS_SIZE - 1) 0xFFFF) with 103. change (Z.shiftl (Z.land (TSS_SIZE - 1) 0xF0000) 32) with 0.
  change (Z.shiftl 9 40) with (9 * 2 ^ 40). change (Z.shiftl 1 47) with (2 ^ 47).
  rewrite Z.lor_0_l, (Z.land_ones _ 24), (Z.land_ones _ 8), Z.shiftr_div_pow2, !Z.shiftl_mul_pow2 by lia.
  pose proof (Z.mod_pos_bound tss (2 ^ 24) ltac:(lia)) as Ha. pose proof (Z.mod_pos_bound (tss / 2 ^ 24) (2 ^ 8) ltac:(lia)) as Hb.
  set (a := tss mod 2 ^ 24) in *. set (b := tss / 2 ^ 24 mod 2 ^ 8) in *.
  rewrite (lor_above (2 ^ 47) b 56) by lia.
  replace (2 ^ 47 + b * 2 ^ 56) with ((1 + b * 2 ^ 9) * 2 ^ 47) by lia. rewrite (lor_above _ _ 47) by lia.
  replace (9 * 2 ^ 40 + (1 + b * 2 ^ 9) * 2 ^ 47) with ((9 + (1 + b * 2 ^ 9) * 2 ^ 7) * 2 ^ 40) by lia.
  rewrite (lor_above _ _ 40) by lia.
  replace (a * 2 ^ 16 + (9 + (1 + b * 2 ^ 9) * 2 ^ 7) * 2 ^ 40) with ((a + (9 + (1 + b * 2 ^ 9) * 2 ^ 7) * 2 ^ 24) * 2 ^ 16) by lia.
  rewrite (lor_above _ _ 16) by lia. lia.
Qed.
Lemma tss_descriptor_means tss : 0 ≤ tss < 2 ^ 64 →
  descriptor_base (tss_low tss) (tss_high tss) = tss ∧ descriptor_limit (tss_low tss) = TSS_SIZE - 1.
Proof.
  intros Ht. unfold descriptor_base, descriptor_limit, tss_high. rewrite tss_low_sum.
  rewrite (Z.land_ones _ 32), !Z.shiftr_div_pow2 by lia. unfold TSS_SIZE.
  split; Z.to_euclidean_division_equations; lia.
Qed.

(** ** A panic ends in a reboot *)

(** A chain of [n] frames that ends or leads to memory that is not there. *)
Fixpoint ends (word : Z → option Z) (n : nat) (rbp : Z) : Prop :=
  match word (rbp + 8), word rbp with
  | Some a, Some next => a = 0 ∨ next = 0 ∨ match n with O => False | S n => ends word n next end
  | _, _ => True
  end.
Lemma stack_trace_ends word n : ∀ fuel rbp i, ends word n rbp → (n < fuel)%nat → is_Some (stack_trace word fuel rbp i).
Proof.
  induction n as [|n IH]; intros [|fuel] rbp i H Hf; try lia; cbn [stack_trace ends] in *;
    (destruct (word (rbp + 8)) as [a|]; [|done]); (destruct (Z.eqb_spec a 0); [done|]);
    (destruct (word rbp) as [next|]; [|done]); (destruct (Z.eqb_spec next 0); [done|]).
  - destruct H as [?|[?|[]]]; done.
  - destruct H as [?|[?|H]]; [done|done|]. destruct (IH fuel next (i + 1) H ltac:(lia)) as [r ->]. done.
Qed.
Lemma panic_reboots word n fuel rbp : ends word n rbp → (n < fuel)%nat →
  ∃ l, vpanic_int word fuel OPERATIONAL rbp = Some (Message :: l ++ [Prompt; Reboot]).
Proof.
  intros H Hf. destruct (stack_trace_ends word n fuel rbp 0 H Hf) as [[l b] E]. unfold vpanic_int. rewrite E. cbn.
  destruct b; [by exists l|exists (l ++ [Cannot_unwind])]. by rewrite <-app_assoc.
Qed.
(** A frame that points to itself keeps the kernel in the trace. *)
Lemma cyclic_frames_never_end word fuel : ∀ rbp a i, rbp ≠ 0 → a ≠ 0 → word (rbp + 8) = Some a → word rbp = Some rbp →
  stack_trace word fuel rbp i = None.
Proof.
  induction fuel as [|fuel IH]; intros rbp a i Hr Ha H1 H2; [done|]. cbn [stack_trace]. rewrite H1, H2.
  rewrite (proj2 (Z.eqb_neq a 0) Ha), (proj2 (Z.eqb_neq rbp 0) Hr). by rewrite (IH rbp a).
Qed.
