(* ===== verification/Fnmatch.v ===== *)
(** * libc/platform/functions/fnmatch.c: shell patterns

    The matcher of the C library of the repository, by which the shell and glob
    expand file names, and what a pattern means: a list of elements, each of which
    takes characters of the string.  A string is the list of its characters; a
    pointer into it is what is left of it, together with the character before. *)

From S2P Require Import Prelude Path.

Definition FNM_PATHNAME : Z := 1.
Definition FNM_NOESCAPE : Z := 2.
Definition FNM_PERIOD : Z := 4.
Definition FNM_NOMATCH : Z := 1.

Definition QUESTION : Z := 63.
Definition STAR : Z := 42.
Definition LBRACKET : Z := 91.
Definition RBRACKET : Z := 93.
Definition BACKSLASH : Z := 92.
Definition BANG : Z := 33.
Definition CARET : Z := 94.
Definition DASH : Z := 45.

(** [*s] and [s[1]]: the terminator is 0. *)
Definition first (s : list Z) : Z := match s with c :: _ => c | [] => 0 end.
Definition second (s : list Z) : Z := first (tail s).

Section fnmatch.
Context (flags : Z).

Definition escapes (q : list Z) : bool := (first q =? BACKSLASH) && negb (has flags FNM_NOESCAPE) && negb (second q =? 0).
(** [prev] is the character before [s], if [s] is not the start. *)
Definition period_blocked (prev : option Z) (s : list Z) : bool :=
  has flags FNM_PERIOD && (first s =? DOT) &&
  match prev with None => true | Some c => has flags FNM_PATHNAME && (c =? SLASH) end.
Definition slash_blocked (s : list Z) : bool := has flags FNM_PATHNAME && (first s =? SLASH).

(** The loop over the members; with [have_char], whether one was seen. *)
Fixpoint bracket_loop (fuel : nat) (q : list Z) (c : Z) (matched have_char : bool) : option (bool * bool * list Z) :=
  if (first q =? 0) || (first q =? RBRACKET) then Some (matched, have_char, q)
  else
    match fuel with
    | O => None
    | S fuel =>
      let q := if escapes q then tail q else q in
      let lo := first q in
      let q := tail q in
      if (first q =? DASH) && negb (second q =? 0) && negb (second q =? RBRACKET) then
        let q := tail q in
        let q := if escapes q then tail q else q in
        let hi := first q in
        bracket_loop fuel (tail q) c (matched || ((lo <=? hi) && (lo <=? c) && (c <=? hi))) true
      else bracket_loop fuel q c (matched || (c =? lo)) true
    end.
(** The result and the pattern behind the bracket; [None] is -1. *)
Definition match_bracket (p : list Z) (c : Z) : option (bool * list Z) :=
  let q := tail p in
  let negate := (first q =? BANG) || (first q =? CARET) in
  let q := if negate then tail q else q in
  let literal := first q =? RBRACKET in
  r ← bracket_loop (length p) (if literal then tail q else q) c (literal && (c =? RBRACKET)) literal;
  let '(matched, have_char, q) := r in
  if negb (first q =? RBRACKET) || negb have_char then None
  else Some (if negate then negb matched else matched, tail q).

Fixpoint skip_stars (p : list Z) : list Z :=
  match p with c :: q => if c =? STAR then skip_stars q else p | [] => [] end.
(** From [s] on, one more character at a time goes to the star. *)
Fixpoint star_loop (rest : option Z → list Z → option Z) (prev : option Z) (s : list Z) : option Z :=
  match s with
  | [] => Some FNM_NOMATCH
  | c :: s' =>
    if slash_blocked s then Some FNM_NOMATCH
    else if period_blocked prev s then Some FNM_NOMATCH
    else r ← rest (Some c) s'; if r =? 0 then Some 0 else star_loop rest (Some c) s'
  end.
(** Every turn takes a character of the pattern. *)
Fixpoint match_here (fuel : nat) (p : list Z) (prev : option Z) (s : list Z) : option Z :=
  match p with
  | [] => Some (match s with [] => 0 | _ => FNM_NOMATCH end)
  | c :: p' =>
    match fuel with
    | O => None
    | S fuel =>
      let blocked := match s with [] => true | _ => slash_blocked s || period_blocked prev s end in
      let step q := match_here fuel q (Some (first s)) (tail s) in
      if c =? QUESTION then if blocked then Some FNM_NOMATCH else step p'
      else if c =? STAR then
        let q := skip_stars p in
        r ← match_here fuel q prev s;
        if r =? 0 then Some 0 else star_loop (match_here fuel q) prev s
      else if c =? LBRACKET then
        if blocked then Some FNM_NOMATCH
        else
          match match_bracket p (first s) with
          | None => if negb (first s =? LBRACKET) then Some FNM_NOMATCH else step p'
          | Some (result, after) => if negb result then Some FNM_NOMATCH else step after
          end
      else if c =? BACKSLASH then
        let q := if escapes p then p' else p in
        if negb (first q =? first s) then Some FNM_NOMATCH else step (tail q)
      else if negb (c =? first s) then Some FNM_NOMATCH
      else step p'
    end
  end.
Definition fnmatch (pattern string : list Z) : option Z := match_here (length pattern) pattern None string.
End fnmatch.

(** ** What a pattern means *)

Inductive elem :=
| Any
| Any_sequence
| One_of (negate : bool) (ranges : list (Z * Z))
| Exactly (c : Z).

Section meaning.
Context (flags : Z).
#[local] Notation escapes := (escapes flags).

(** A wildcard does not take a slash of a path name, nor a period at the start of a name. *)
Definition wild (prev : option Z) (c : Z) : bool :=
  negb (has flags FNM_PATHNAME && (c =? SLASH)) &&
  negb (has flags FNM_PERIOD && (c =? DOT) && match prev with None => true | Some d => has flags FNM_PATHNAME && (d =? SLASH) end).
Definition in_ranges (c : Z) (ranges : list (Z * Z)) : bool := existsb (λ r, (r.1 <=? c) && (c <=? r.2)) ranges.

(** [matches prev l s]: the elements [l] take the characters of [s], which follow [prev]. *)
Inductive matches : option Z → list elem → list Z → Prop :=
| M_end prev : matches prev [] []
| M_exactly prev c l s : matches (Some c) l s → matches prev (Exactly c :: l) (c :: s)
| M_any prev c l s : wild prev c = true → matches (Some c) l s → matches prev (Any :: l) (c :: s)
| M_one_of prev negate ranges c l s :
    wild prev c = true → xorb negate (in_ranges c ranges) = true → matches (Some c) l s →
    matches prev (One_of negate ranges :: l) (c :: s)
| M_none prev l s : matches prev l s → matches prev (Any_sequence :: l) s
| M_more prev c l s : wild prev c = true → matches (Some c) (Any_sequence :: l) s →
    matches prev (Any_sequence :: l) (c :: s).

(** A character that stands for itself, and what is behind it.  A backslash takes the next
    character, unless the flags say that it is one like others. *)
Definition literal (p : list Z) : Z * list Z :=
  match p with
  | [] => (0, [])
  | c :: q =>
    if decide (c = BACKSLASH ∧ Z.land flags FNM_NOESCAPE = 0) then
      match q with
      | d :: q' => if decide (d = 0) then (c, q) else (d, q')
      | [] => (c, q)
      end
    else (c, q)
  end.
(** The members of a bracket up to its end, as ranges. *)
Fixpoint members (fuel : nat) (q : list Z) : option (list (Z * Z) * list Z) :=
  if (first q =? 0) || (first q =? RBRACKET) then Some ([], q)
  else
    match fuel with
    | O => None
    | S fuel =>
      let lo := (literal q).1 in
      let q := (literal q).2 in
      if (first q =? DASH) && negb (second q =? 0) && negb (second q =? RBRACKET) then
        let hi := (literal (tail q)).1 in
        r ← members fuel (literal (tail q)).2; Some ((lo, hi) :: r.1, r.2)
      else r ← members fuel q; Some ((lo, lo) :: r.1, r.2)
    end.
(** A bracket is closed and has a member; otherwise it stands for itself. *)
Definition bracket (p : list Z) : option (bool * list (Z * Z) * list Z) :=
  let q := tail p in
  let negate := (first q =? BANG) || (first q =? CARET) in
  let q := if negate then tail q else q in
  let literal := first q =? RBRACKET in
  r ← members (length p) (if literal then tail q else q);
  let ranges := (if literal then [(RBRACKET, RBRACKET)] else []) ++ r.1 in
  if (first r.2 =? RBRACKET) && negb (bool_decide (ranges = [])) then Some (negate, ranges, tail r.2) else None.
(** Stars in a row are one. *)
Fixpoint behind_stars (p : list Z) : list Z :=
  match p with
  | [] => []
  | c :: q => if decide (c = STAR) then behind_stars q else p
  end.
Fixpoint parse (fuel : nat) (p : list Z) : list elem :=
  match fuel, p with
  | S fuel, c :: p' =>
    if c =? QUESTION then Any :: parse fuel p'
    else if c =? STAR then Any_sequence :: parse fuel (behind_stars p)
    else if c =? LBRACKET then
      match bracket p with
      | None => Exactly LBRACKET :: parse fuel p'
      | Some (negate, ranges, after) => One_of negate ranges :: parse fuel after
      end
    else if c =? BACKSLASH then
      Exactly (literal p).1 :: parse fuel (literal p).2
    else Exactly c :: parse fuel p'
  | _, _ => []
  end.
Definition elements (pattern : list Z) : list elem := parse (length pattern) pattern.

(** ** The matcher and the meaning agree *)

Lemma literal_eq (q : list Z) : literal q = (first (if escapes q then tail q else q), tail (if escapes q then tail q else q)).
Proof.
  destruct q as [|c q]; [done|]. unfold literal, escapes, second, has. cbn [first tail].
  destruct (decide (c = BACKSLASH ∧ _)) as [[-> ->]|Hn].
  - change (negb (negb (0 =? 0))) with true. change (BACKSLASH =? BACKSLASH) with true. cbn [andb].
    destruct q as [|d q]; [done|]. cbn [first]. destruct (decide (d = 0)) as [->|Hd]; [done|]. by rewrite (proj2 (Z.eqb_neq d 0)).
  - destruct (Z.eqb_spec c BACKSLASH) as [->|]; [|done]. destruct (Z.eqb_spec (Z.land flags FNM_NOESCAPE) 0); [tauto|done].
Qed.
Lemma behind_stars_eq p : behind_stars p = skip_stars p.
Proof.
  induction p as [|c p IH]; [done|]. cbn. destruct (decide (c = STAR)) as [->|Hc]; [done|]. by rewrite (proj2 (Z.eqb_neq _ _)).
Qed.

Lemma length_tail_le (q : list Z) : (length (tail q) ≤ length q)%nat.
Proof. destruct q; cbn; lia. Qed.
Lemma length_tail_lt (q : list Z) : first q ≠ 0 → (length (tail q) < length q)%nat.
Proof. destruct q; cbn; [done|lia]. Qed.
Lemma length_escape (q : list Z) : first q ≠ 0 → (length (tail (if escapes q then tail q else q)) < length q)%nat.
Proof.
  intros Hq. pose proof (length_tail_lt q Hq). destruct (escapes q); [|done]. pose proof (length_tail_le (tail q)). lia.
Qed.
Lemma Forall_escape P (q : list Z) : Forall P q → Forall P (tail (if escapes q then tail q else q)).
Proof. intros H. destruct (escapes q); repeat apply Forall_tail; done. Qed.
Lemma members_end fuel : ∀ q, (length q ≤ fuel)%nat → ∃ r, members fuel q = Some r ∧ (length r.2 ≤ length q)%nat ∧
  ∀ P, Forall P q → Forall P r.2.
Proof.
  induction fuel as [|fuel IH]; intros q Hl; cbn [members].
  - destruct q; [|cbn in Hl; lia]. by exists (@nil (Z * Z), @nil Z).
  - destruct (Z.eqb_spec (first q) 0) as [|Hn]; [by exists ([], q)|]. cbn [orb].
    destruct (first q =? RBRACKET); [by exists ([], q)|]. pose proof (length_escape q Hn) as He. cbv zeta. rewrite !literal_eq. cbn [fst snd].
    pose proof (λ P, Forall_escape P q) as HP. set (q1 := tail (if escapes q then tail q else q)) in *.
    destruct ((first q1 =? DASH) && negb (second q1 =? 0) && negb (second q1 =? RBRACKET)).
    + pose proof (λ P, Forall_escape P (tail q1)) as HP2.
      assert (length (tail (if escapes (tail q1) then tail (tail q1) else tail q1)) ≤ length q1)%nat as Hl2.
      { pose proof (length_tail_le q1). pose proof (length_tail_le (tail q1)). pose proof (length_tail_le (tail (tail q1))).
        destruct (escapes (tail q1)); lia. }
      set (q2 := tail (if escapes (tail q1) then tail (tail q1) else tail q1)) in *.
      destruct (IH q2 ltac:(lia)) as (r & -> & Hr & Hr2). eexists. split; [reflexivity|]. cbn. split; [lia|].
      intros P H. by apply Hr2, HP2, Forall_tail, HP.
    + destruct (IH q1 ltac:(lia)) as (r & -> & Hr & Hr2). eexists. split; [reflexivity|]. cbn. split; [lia|].
      intros P H. by apply Hr2, HP.
Qed.
Lemma bracket_loop_members fuel : ∀ q c matched have,
  bracket_loop flags fuel q c matched have =
    (λ r, (matched || in_ranges c r.1, have || negb (bool_decide (r.1 = [])), r.2)) <$> members fuel q.
Proof.
  assert (∀ (q : list Z) c (matched have : bool), (matched, have, q) = (matched || in_ranges c [], have || negb (bool_decide (([] : list (Z * Z)) = [])), q))
    as Hend by (intros; cbn; by rewrite !orb_false_r).
  induction fuel as [|fuel IH]; intros q c matched have; cbn [bracket_loop members];
    (destruct ((first q =? 0) || (first q =? RBRACKET)); [cbn; by rewrite (Hend _ c)|]); [done|]. cbv zeta. rewrite !literal_eq. cbn [fst snd].
  set (q1 := tail (if escapes q then tail q else q)). set (lo := first (if escapes q then tail q else q)).
  destruct ((first q1 =? DASH) && negb (second q1 =? 0) && negb (second q1 =? RBRACKET)).
  - rewrite IH. destruct (members fuel _) as [r|]; [|done]. cbn. do 2 f_equal. rewrite orb_true_r. f_equal.
    rewrite <-orb_assoc. do 2 f_equal. destruct (_ <=? _) eqn:E1, (lo <=? c) eqn:E2, (c <=? _) eqn:E3; cbn; lia.
  - rewrite IH. destruct (members fuel _) as [r|]; [|done]. cbn. do 2 f_equal. rewrite orb_true_r. f_equal.
    rewrite <-orb_assoc. do 2 f_equal. destruct (Z.eqb_spec c lo), (lo <=? c) eqn:E2, (c <=? lo) eqn:E3; cbn; lia.
Qed.
Lemma match_bracket_meaning p c :
  match_bracket flags p c = (λ r, (xorb r.1.1 (in_ranges c r.1.2), r.2)) <$> bracket p.
Proof.
  unfold match_bracket, bracket. cbv zeta. set (q := if _ || _ then _ else _). set (neg := _ || _).
  rewrite bracket_loop_members. destruct (members _ _) as [r|]; [|done]. cbn.
  destruct (first r.2 =? RBRACKET); cbn; [|done]. destruct (first q =? RBRACKET); cbn.
  - f_equal. f_equal. destruct (Z.eqb_spec c RBRACKET) as [->|]; cbn.
    + by destruct neg.
    + rewrite (proj2 (andb_false_iff _ _)) by lia. unfold in_ranges. by destruct neg, (existsb _ _).
  - destruct (bool_decide (r.1 = [])); cbn; [done|]. unfold in_ranges.
    by destruct neg, (existsb _ _).
Qed.

(** ** The loop over the pattern *)

(** The answer [o] is right for the elements [l]. *)
Definition decides (o : option Z) (Q : Prop) : Prop := o = Some 0 ∧ Q ∨ o = Some FNM_NOMATCH ∧ ¬ Q.
Lemma decides_iff o Q Q' : (Q ↔ Q') → decides o Q → decides o Q'.
Proof. unfold decides. intuition. Qed.
Lemma decides_no (Q : Prop) : ¬ Q → decides (Some FNM_NOMATCH) Q.
Proof. by right. Qed.

Lemma blocked_wild prev c s : slash_blocked flags (c :: s) || period_blocked flags prev (c :: s) = negb (wild prev c).
Proof. unfold slash_blocked, period_blocked, wild. cbn. by rewrite negb_andb, !negb_involutive. Qed.
Lemma matches_exactly prev c l s : c ≠ 0 → matches prev (Exactly c :: l) s ↔ first s = c ∧ matches (Some c) l (tail s).
Proof.
  intros Hc. split.
  - inversion 1; subst. done.
  - intros [Hf Hm]. destruct s as [|d s]; cbn in *; [congruence|]. subst d. by constructor.
Qed.
Lemma matches_any prev l s : matches prev (Any :: l) s ↔ ∃ c s', s = c :: s' ∧ wild prev c = true ∧ matches (Some c) l s'.
Proof. split; [inversion 1; subst; eauto|]. intros (c & s' & -> & ? & ?). by constructor. Qed.
Lemma matches_one_of prev negate ranges l s : matches prev (One_of negate ranges :: l) s ↔
  ∃ c s', s = c :: s' ∧ wild prev c = true ∧ xorb negate (in_ranges c ranges) = true ∧ matches (Some c) l s'.
Proof. split; [inversion 1; subst; eauto 8|]. intros (c & s' & -> & ? & ? & ?). by constructor. Qed.
Definition more prev l s : Prop := ∃ c s', s = c :: s' ∧ wild prev c = true ∧ matches (Some c) (Any_sequence :: l) s'.
Lemma matches_sequence prev l s : matches prev (Any_sequence :: l) s ↔ matches prev l s ∨ more prev l s.
Proof.
  unfold more. split; [inversion 1; subst; [by left|right; eauto]|].
  intros [H|(c & s' & -> & ? & ?)]; by constructor.
Qed.

Lemma star_loop_decides rest l : (∀ prev s, Forall (λ c, c ≠ 0) s → decides (rest prev s) (matches prev l s)) →
  ∀ s prev, Forall (λ c, c ≠ 0) s → decides (star_loop flags rest prev s) (more prev l s).
Proof.
  intros Hrest. induction s as [|c s IH]; intros prev Hs; cbn [star_loop].
  - apply decides_no. by intros (? & ? & [=] & _).
  - apply Forall_cons in Hs as [Hc Hs]. pose proof (blocked_wild prev c s) as Hb.
    destruct (wild prev c) eqn:Hw; cbn in Hb.
    + apply orb_false_iff in Hb as [-> ->].
      assert (more prev l (c :: s) ↔ matches (Some c) l s ∨ more (Some c) l s) as Hm.
      { rewrite <-matches_sequence. unfold more at 1. split; [by intros (? & ? & [= <- <-] & _ & ?)|eauto]. }
      destruct (Hrest (Some c) s Hs) as [[E H]|[E H]]; rewrite E; cbn.
      * left. split; [done|]. apply Hm. by left.
      * destruct (IH (Some c) Hs) as [[E2 H2]|[E2 H2]]; rewrite E2; [left|right]; (split; [done|]); rewrite Hm; tauto.
    + assert (¬ more prev l (c :: s)) as Hno by (intros (? & ? & [= <- <-] & Hw2 & _); congruence).
      apply orb_true_iff in Hb as [-> | ->]; [|destruct (slash_blocked _ _)]; by apply decides_no.
Qed.

Lemma bracket_after p negate ranges after : bracket p = Some (negate, ranges, after) →
  (length after ≤ length (tail p))%nat ∧ ∀ P, Forall P p → Forall P after.
Proof.
  unfold bracket. cbv zeta. set (q0 := if _ || _ then _ else _).
  set (q := if first q0 =? RBRACKET then tail q0 else q0).
  assert (length q ≤ length (tail p) ∧ ∀ P, Forall P p → Forall P q)%nat as [Hq HP].
  { pose proof (length_tail_le (tail p)). pose proof (length_tail_le (tail (tail p))).
    unfold q, q0. split; [repeat case_match; lia|]. intros P HP. repeat case_match; repeat apply Forall_tail; done. }
  destruct (members_end (length p) q) as (r & -> & Hr & HP2).
  { pose proof (length_tail_le p). lia. }
  cbn. destruct (_ && _); [|done]. intros [= _ _ <-]. split; [pose proof (length_tail_le r.2); lia|].
  intros P Hp. apply Forall_tail, HP2, HP, Hp.
Qed.
Lemma skip_stars_shorter p : (length (skip_stars p) ≤ length p)%nat ∧ ∀ P, Forall P p → Forall P (skip_stars p).
Proof.
  induction p as [|c p [IH1 IH2]]; [done|]. cbn [skip_stars]. destruct (c =? STAR); [|done].
  split; [cbn; lia|]. intros P H. apply Forall_cons in H as [_ H]. by apply IH2.
Qed.

Lemma if_negb {A} (b : bool) (x y : A) : (if negb b then x else y) = if b then y else x.
Proof. by destruct b. Qed.
Lemma match_here_decides fuel : ∀ p prev s, (length p ≤ fuel)%nat → Forall (λ c, c ≠ 0) p → Forall (λ c, c ≠ 0) s →
  decides (match_here flags fuel p prev s) (matches prev (parse fuel p) s).
Proof.
  induction fuel as [|fuel IH]; intros p prev s Hl Hp Hs.
  { destruct p; [|cbn in Hl; lia]. destruct s; [left|right]; (split; [done|]); [constructor|inversion 1]. }
  destruct p as [|c p']; cbn [match_here parse].
  { destruct s; [left|right]; (split; [done|]); [constructor|inversion 1]. }
  apply Forall_cons in Hp as Hcp. destruct Hcp as [Hc Hp']. cbn in Hl.
  pose proof (Forall_tail _ _ Hs) as Hts. cbv zeta.
  (* a wildcard character *)
  assert (∀ (ok : Z → bool) (X : elem) q (Q : Prop), (length q ≤ fuel)%nat → Forall (λ c, c ≠ 0) q →
    (∀ d s', s = d :: s' → ok d = true → wild prev d = true →
      (matches prev (X :: parse fuel q) s ↔ matches (Some d) (parse fuel q) s')) →
    ((¬ ∃ d s', s = d :: s' ∧ ok d = true ∧ wild prev d = true) → ¬ matches prev (X :: parse fuel q) s) →
    decides (if match s with [] => true | _ => slash_blocked flags s || period_blocked flags prev s end then Some FNM_NOMATCH
      else if ok (first s) then match_here flags fuel q (Some (first s)) (tail s) else Some FNM_NOMATCH)
      (matches prev (X :: parse fuel q) s)) as Hwild.
  { intros ok X q _ Hql Hqf Hyes Hno. destruct s as [|d s]; [apply decides_no, Hno; by intros (? & ? & [=] & _)|].
    rewrite blocked_wild. cbn [first tail]. destruct (wild prev d) eqn:Hw; cbn [negb].
    - destruct (ok d) eqn:Hok.
      + eapply decides_iff; [symmetry; by apply Hyes|]. by apply IH.
      + apply decides_no, Hno. intros (? & ? & [= <- <-] & ? & _). congruence.
    - apply decides_no, Hno. intros (? & ? & [= <- <-] & _ & ?). congruence. }
  (* a character as it is *)
  assert (∀ d q, d ≠ 0 → (length q ≤ fuel)%nat → Forall (λ c, c ≠ 0) q →
    decides (if negb (d =? first s) then Some FNM_NOMATCH else match_here flags fuel q (Some (first s)) (tail s))
      (matches prev (Exactly d :: parse fuel q) s)) as Hexact.
  { intros d q Hd Hql Hqf. eapply decides_iff; [symmetry; by apply matches_exactly|].
    destruct (Z.eqb_spec d (first s)) as [->|Hne]; cbn [negb]; [|apply decides_no; naive_solver].
    eapply decides_iff; [|by apply IH]. tauto. }
  destruct (c =? QUESTION).
  { specialize (Hwild (λ _, true) Any p' True ltac:(lia) Hp'). apply Hwild.
    - intros d s' -> _ Hw. rewrite matches_any. naive_solver.
    - intros Hno. rewrite matches_any. naive_solver. }
  destruct (c =? STAR) eqn:Hstar.
  { rewrite behind_stars_eq. cbn [skip_stars]. rewrite Hstar. destruct (skip_stars_shorter p') as [Hsl Hsf]. specialize (Hsf _ Hp').
    assert (∀ prev s, Forall (λ c, c ≠ 0) s → decides (match_here flags fuel (skip_stars p') prev s)
      (matches prev (parse fuel (skip_stars p')) s)) as Hrest by (intros; apply IH; [lia|done|done]).
    eapply decides_iff; [symmetry; apply matches_sequence|].
    destruct (Hrest prev s Hs) as [[E H]|[E H]]; rewrite E; cbn; [by left; split; [|left]|].
    eapply decides_iff; [|by apply star_loop_decides]. tauto. }
  destruct (c =? LBRACKET) eqn:Hbr.
  { apply Z.eqb_eq in Hbr as ->. rewrite match_bracket_meaning.
    destruct (bracket (LBRACKET :: p')) as [[[negate ranges] after]|] eqn:Eb; cbn [fmap option_fmap option_map fst snd].
    - apply bracket_after in Eb as [Hal Haf]. cbn in Hal. specialize (Haf _ Hp).
      rewrite (if_negb (xorb negate (in_ranges (first s) ranges))).
      apply (Hwild (λ d, xorb negate (in_ranges d ranges)) (One_of negate ranges) after True); [lia|done| |].
      + intros d s' -> Hok Hw. rewrite matches_one_of. naive_solver.
      + intros Hno. rewrite matches_one_of. naive_solver.
    - destruct (match s with [] => _ | _ => _ end) eqn:Hblocked.
      + apply decides_no. rewrite matches_exactly by done. intros [Hf _]. destruct s as [|d s]; [done|]. cbn in Hf. subst d.
        unfold slash_blocked, period_blocked in Hblocked. cbn in Hblocked. by rewrite !andb_false_r in Hblocked.
      + rewrite (Z.eqb_sym (first s)). apply Hexact; [done|lia|done]. }
  destruct (c =? BACKSLASH) eqn:Hbs.
  { rewrite literal_eq. cbn [fst snd tail]. apply Hexact.
    - destruct (escapes (c :: p')) eqn:He; [|done]. unfold escapes, second in He. cbn in He.
      apply andb_true_iff in He as [_ He]. apply negb_true_iff, Z.eqb_neq in He. done.
    - destruct (escapes (c :: p')); [|cbn; lia]. pose proof (length_tail_le p'). lia.
    - destruct (escapes (c :: p')); [by apply Forall_tail|done]. }
  by apply Hexact; [|lia|].
Qed.

(** C40: fnmatch does what the pattern says.  For every pattern and string of C it ends, and the
    answer is 0 exactly if the elements of the pattern (characters, wildcards, brackets of
    ranges, stars) take the characters of the string one after the other, where wildcards keep
    away from slashes and leading periods as the flags say; otherwise it is FNM_NOMATCH. *)
Theorem fnmatch_correct pattern string :
  Forall (λ c, c ≠ 0) pattern → Forall (λ c, c ≠ 0) string →
  (fnmatch flags pattern string = Some 0 ∧ matches None (elements pattern) string) ∨
  (fnmatch flags pattern string = Some FNM_NOMATCH ∧ ¬ matches None (elements pattern) string).
Proof. intros Hp Hs. by apply match_here_decides. Qed.
End meaning.

(** "*.[ch]" takes "main.c" and not ".c" where the period counts. *)
Lemma fnmatch_correct_witness :
  let pattern := [STAR; DOT; LBRACKET; 99; 104; RBRACKET] in
  ((fnmatch FNM_PERIOD pattern [109; DOT; 99] = Some 0 ∧ matches FNM_PERIOD None (elements FNM_PERIOD pattern) [109; DOT; 99]) ∨
   (fnmatch FNM_PERIOD pattern [109; DOT; 99] = Some FNM_NOMATCH ∧
    ¬ matches FNM_PERIOD None (elements FNM_PERIOD pattern) [109; DOT; 99])) ∧
  fnmatch FNM_PERIOD pattern [109; DOT; 99] = Some 0 ∧
  fnmatch FNM_PERIOD pattern [DOT; 109; DOT; 99] = Some FNM_NOMATCH.
Proof. split; [apply fnmatch_correct; repeat constructor; discriminate|split; reflexivity]. Defined.
