(* ===== verification/Libc.v ===== *)
(** * libc/platform: realpath, buffers of streams, lines, sets of signals

    The platform's own parts of the C library on top of the system calls.  Strings are lists
    of characters without the terminator, allocation succeeds; strtok with a slash gives the
    components of a path. *)

From S2P Require Import Prelude Path Fd.

(** ** _PDCLIB/_PDCLIB_realpath.c *)

Definition PATH_MAX : Z := 4096.
(** One component on the buffer resolved_path; [None] is too long. *)
Definition add_component (component out : list Z) : option (list Z) :=
  if bool_decide (component = [DOT]) then Some out
  else if bool_decide (component = [DOT; DOT]) then
    Some (if 1 <? zlen out then match last_slash out 0 None with Some slash => ztake slash out | None => out end else out)
  else if PATH_MAX <? zlen out + zlen component + 2 then None
  else Some (out ++ (if 1 <? zlen out then [SLASH] else []) ++ component).
Fixpoint add_components (l : list (list Z)) (out : list Z) : option (list Z) :=
  match l with
  | [] => Some out
  | component :: l => out ← add_component component out; add_components l out
  end.
(** [cwd] is what getcwd wrote; the error or the path. *)
Definition realpath (cwd path : list Z) : Z + list Z :=
  match path with
  | [] => inl ENOENT
  | c :: _ =>
    let work := if c =? SLASH then path else cwd ++ SLASH :: path in
    match add_components (components work) [SLASH] with None => inl ENAMETOOLONG | Some out => inr out end
  end.

(** The buffer that shows a stack of names. *)
Definition shown (st : list (list Z)) : list Z := match st with [] => [SLASH] | _ => reverse (rendered st) end.
(** No ".." takes the last name away. *)
Fixpoint below_root (st l : list (list Z)) : bool :=
  match l with
  | [] => true
  | w :: l =>
    if bool_decide (w = [DOT]) then below_root st l
    else if bool_decide (w = [DOT; DOT]) then negb (bool_decide (length st = 1%nat)) && below_root (tail st) l
    else below_root (w :: st) l
  end.
Definition names_size (l : list (list Z)) : Z := foldr (λ w n, 1 + zlen w + n) 0 l.
Definition is_name (w : list Z) : Prop := no_slash w ∧ w ≠ [].

Lemma split_slash_is p : Forall no_slash (split_slash p) ∧ names_size (split_slash p) = zlen p + 1.
Proof.
  induction p as [|c p [IH1 IH2]]; [split; [by repeat constructor|done]|]. cbn [split_slash]. destruct (is_slash c) eqn:Hc.
  - split; [by constructor; [constructor|]|]. cbn. unfold names_size in IH2. rewrite IH2, zlen_cons. change (zlen []) with 0. lia.
  - destruct (split_slash p) as [|w ws]; [cbn in *; pose proof (zlen_nonneg p); lia|]. apply Forall_cons in IH1 as [H1 H2].
    split; [by constructor; [constructor|]|]. cbn in *. rewrite !zlen_cons. lia.
Qed.
Lemma drop_empty_is l : Forall no_slash l → Forall is_name (drop_empty l) ∧ names_size (drop_empty l) ≤ names_size l.
Proof.
  induction l as [|w l IH]; intros H; [by repeat constructor|]. apply Forall_cons in H as [Hw H]. destruct (IH H) as [H1 H2].
  destruct w as [|c w]; cbn [drop_empty].
  - split; [done|]. cbn. change (zlen []) with 0. unfold names_size in *. lia.
  - split; [by constructor|]. cbn. unfold names_size in *. lia.
Qed.
Lemma components_are p : Forall is_name (components (SLASH :: p)) ∧ names_size (components (SLASH :: p)) ≤ zlen (SLASH :: p).
Proof.
  rewrite components_slash. unfold components. destruct (split_slash_is p) as [H1 H2]. destruct (drop_empty_is _ H1) as [H3 H4].
  split; [done|]. rewrite zlen_cons. lia.
Qed.
Lemma shown_size st : zlen (shown st) = Z.max 1 (names_size st).
Proof.
  destruct st as [|w st]; [done|]. unfold shown. rewrite zlen_reverse.
  assert (∀ st, zlen (rendered st) = names_size st ∧ 0 ≤ names_size st) as H.
  { clear. induction st as [|w st IH]; [done|]. cbn [rendered names_size foldr]. rewrite zlen_app, zlen_cons, zlen_reverse.
    fold (names_size st). pose proof (zlen_nonneg w). lia. }
  destruct (H (w :: st)) as [-> _]. cbn [names_size foldr]. fold (names_size st). pose proof (H st). pose proof (zlen_nonneg w). lia.
Qed.
Lemma shown_push w st : (if bool_decide (st = []) then shown st else shown st ++ [SLASH]) ++ w = shown (w :: st).
Proof.
  unfold shown. cbn [rendered]. rewrite reverse_app, reverse_cons, reverse_involutive. destruct st as [|v st]; [done|].
  rewrite bool_decide_false by done. by rewrite <-app_assoc.
Qed.
Lemma shown_pop w v st : no_slash w → last_slash (shown (w :: v :: st)) 0 None = Some (zlen (shown (v :: st))).
Proof.
  intros Hw. rewrite <-shown_push, bool_decide_false by done. rewrite <-app_assoc. cbn [app].
  set (p := shown (v :: st)).
  assert (∀ l i found, no_slash l → last_slash l i found = found) as Hl.
  { clear. induction l as [|c l IH]; intros i found Hl; [done|]. apply Forall_cons in Hl as [Hc Hl]. cbn. rewrite Hc. by apply IH. }
  assert (∀ l i found, last_slash (l ++ SLASH :: w) i found = Some (i + zlen l)) as ->; [|done].
  induction l as [|c l IH]; intros i found; cbn [app last_slash].
  - rewrite Hl by done. change (zlen []) with 0. change (is_slash SLASH) with true. cbn. f_equal. lia.
  - rewrite IH, zlen_cons. f_equal. lia.
Qed.
Lemma add_components_canonical l : ∀ st, Forall is_name l → Forall is_name st → below_root st l = true →
  names_size st + names_size l ≤ PATH_MAX - 2 → add_components l (shown st) = Some (shown (walk_names st l)).
Proof.
  assert (∀ l, 0 ≤ names_size l) as Hs.
  { induction l0 as [|w l0 IH]; cbn; [done|]. fold (names_size l0). pose proof (zlen_nonneg w). lia. }
  induction l as [|w l IH]; intros st Hl Hst Hb Hsz; [done|]. apply Forall_cons in Hl as [Hw Hl].
  cbn [add_components walk_names below_root names_size foldr] in *. fold (names_size l) in Hsz. unfold add_component.
  pose proof (Hs l). pose proof (Hs st). pose proof (zlen_nonneg w).
  destruct (bool_decide (w = [DOT])); [cbn; apply IH; [done..|lia]|].
  destruct (bool_decide (w = [DOT; DOT])).
  - apply andb_true_iff in Hb as [Hb1 Hb2]. apply negb_true_iff, bool_decide_eq_false in Hb1.
    destruct st as [|a [|b st]]; [|done|].
    { change (add_components l (shown []) = Some (shown (walk_names [] l))). apply IH; [done..|lia]. }
    apply Forall_cons in Hst as [Ha Hst]. cbn [mbind option_bind tail] in *.
    assert (names_size (a :: b :: st) = 1 + zlen a + names_size (b :: st)) as E by done. pose proof (zlen_nonneg a). pose proof (Hs (b :: st)).
    assert (0 < zlen b) by (apply Forall_cons in Hst as [[_ Hb] _]; destruct b as [|c b]; [done|]; rewrite zlen_cons; pose proof (zlen_nonneg b); lia).
    pose proof (Hs st). assert (names_size (b :: st) = 1 + zlen b + names_size st) by done.
    rewrite (proj2 (Z.ltb_lt _ _)) by (rewrite shown_size; lia). rewrite shown_pop by apply Ha.
    rewrite <-(shown_push a), bool_decide_false by done. rewrite <-app_assoc, ztake_app_le, ztake_all by lia. apply IH; [done..|lia].
  - rewrite shown_size, (proj2 (Z.ltb_ge _ _)) by lia. cbn [mbind option_bind].
    assert ((1 <? Z.max 1 (names_size st)) = negb (bool_decide (st = []))) as ->.
    { destruct st as [|v st]; [done|]. rewrite bool_decide_false by done. apply Z.ltb_lt.
      apply Forall_cons in Hst as [[_ Hv] _]. cbn [names_size foldr]. pose proof (Hs st). fold (names_size st).
      destruct v as [|c v]; [done|]. rewrite zlen_cons. pose proof (zlen_nonneg v). lia. }
    replace (shown st ++ _ ++ w) with (shown (w :: st))
      by (rewrite <-shown_push; destruct (bool_decide _); cbn; by rewrite <-?app_assoc).
    apply IH; [done|by constructor|done|]. cbn [names_size foldr]. fold (names_size st). lia.
Qed.
(** The canonical path of a path that fits and does not come back to the root. *)
Lemma realpath_canonical cwd path : let p := SLASH :: path in
  zlen p ≤ PATH_MAX - 2 → below_root [] (components p) = true →
  realpath cwd p = inr (shown (reverse (canonical p))).
Proof.
  intros p Hsz Hb. unfold realpath, p. change (SLASH =? SLASH) with true. cbv beta iota.
  destruct (components_are path) as [H1 H2]. change [SLASH] with (shown []).
  rewrite (add_components_canonical _ []); [|done|apply Forall_nil_2|done|].
  2: { unfold p in Hsz. cbn [names_size foldr]. lia. }
  unfold canonical. by rewrite reverse_involutive.
Qed.
(** The library and the kernel agree on the names along such a path. *)
Theorem realpath_agrees cwd path : let p := SLASH :: path in
  zlen p ≤ PATH_MAX - 2 → below_root [] (components p) = true →
  ∃ out out', realpath cwd p = inr out ∧ resolve_path p = Some out' ∧ components out = components out'.
Proof.
  intros p Hsz Hb. destruct (resolve_path_spec p) as (out' & Hr & _ & _ & H). destruct (H Hsz) as [Hc Hg].
  exists (shown (reverse (canonical p))), out'. split_and!; [|done|].
  { by apply realpath_canonical. }
  rewrite Hc. unfold shown. destruct (reverse (canonical p)) as [|w st] eqn:E.
  - apply (f_equal reverse) in E. rewrite reverse_involutive in E. by rewrite E.
  - rewrite components_rendered; [by rewrite <-E, reverse_involutive|]. rewrite <-E. by apply Forall_reverse.
Qed.
(** From the root on the rest has no slash before it: "/a/.." is empty, and "/a/../b/c" is "bc". *)
Lemma realpath_loses_root : realpath [] [47; 97; 47; 46; 46] = inr [] ∧
  realpath [] [47; 97; 47; 46; 46; 47; 98; 47; 99] = inr [98; 99].
Proof. done. Qed.

(** ** signal.c: sets of signals *)

(** sigset_t has 32 bits; -1 is EINVAL. *)
Definition sigfillset : Z := 2 ^ 32 - 1.
Definition valid_signal (sig : Z) : bool := negb ((sig <? 1) || (31 <? sig)).
Definition sigaddset (set sig : Z) : Z * Z := if valid_signal sig then (0, Z.lor set (Z.shiftl 1 (sig - 1))) else (-1, set).
Definition sigdelset (set sig : Z) : Z * Z := if valid_signal sig then (0, Z.land set (u32 (Z.lnot (Z.shiftl 1 (sig - 1))))) else (-1, set).
Definition sigismember (set sig : Z) : Z := if valid_signal sig then Z.b2z (has set (Z.shiftl 1 (sig - 1))) else -1.

Lemma has_signal set i : 0 ≤ i → has set (Z.shiftl 1 i) = Z.testbit set i.
Proof.
  intros Hi. unfold has. rewrite Z.shiftl_1_l. destruct (Z.testbit set i) eqn:E.
  - apply negb_true_iff, Z.eqb_neq. intros H. apply (f_equal (λ z, Z.testbit z i)) in H.
    by rewrite Z.land_spec, Z.pow2_bits_true, E, Z.testbit_0_l in H by lia.
  - apply negb_false_iff, Z.eqb_eq, Z.bits_inj'. intros k Hk. rewrite Z.land_spec, Z.testbit_0_l.
    destruct (decide (k = i)) as [->|]; [by rewrite E|]. rewrite Z.pow2_bits_false by lia. apply andb_false_r.
Qed.
(** A set holds what was added to it and not taken away. *)
Theorem signal_sets set sig sig' : valid_signal sig = true → valid_signal sig' = true → 0 ≤ set < 2 ^ 32 →
  sigismember sigfillset sig = 1 ∧ sigismember 0 sig = 0 ∧
  sigismember (sigaddset set sig).2 sig' = (if sig =? sig' then 1 else sigismember set sig') ∧
  sigismember (sigdelset set sig).2 sig' = (if sig =? sig' then 0 else sigismember set sig').
Proof.
  intros H H' Hs. unfold sigismember, sigaddset, sigdelset, sigfillset. rewrite H, H'. cbn [snd].
  unfold valid_signal in H, H'. apply negb_true_iff, orb_false_iff in H as [H1 H2]. apply negb_true_iff, orb_false_iff in H' as [H3 H4].
  apply Z.ltb_ge in H1, H2, H3, H4. rewrite !has_signal by lia. rewrite Z.shiftl_1_l, Z.lor_spec, Z.land_spec, Z.pow2_bits_eqb by lia.
  unfold u32. rewrite Z.mod_pow2_bits_low, Z.lnot_spec, Z.pow2_bits_eqb by lia.
  replace (2 ^ 32 - 1) with (Z.ones 32) by done. rewrite Z.ones_spec_low, Z.testbit_0_l by lia. split_and!; [done|done|..].
  - destruct (Z.eqb_spec sig sig') as [->|]; [by rewrite Z.eqb_refl, orb_true_r|]. rewrite (proj2 (Z.eqb_neq _ _)) by lia. by rewrite orb_false_r.
  - destruct (Z.eqb_spec sig sig') as [->|]; [by rewrite Z.eqb_refl, andb_false_r|]. rewrite (proj2 (Z.eqb_neq _ _)) by lia. by rewrite andb_true_r.
Qed.

(** ** _PDCLIB/: opening files, filling and flushing the buffer of a stream *)

Definition _PDCLIB_FREAD : Z := 8.
Definition _PDCLIB_FWRITE : Z := 16.
Definition _PDCLIB_FAPPEND : Z := 32.
Definition _PDCLIB_FRW : Z := 64.
Definition _PDCLIB_ERRORFLAG : Z := 512.
Definition _PDCLIB_EOFFLAG : Z := 1024.
(** The flags for open; [None] is an invalid mode. *)
Definition open_mode (mode : Z) : option Z :=
  let m := Z.land mode (Z.lor (Z.lor _PDCLIB_FREAD _PDCLIB_FWRITE) (Z.lor _PDCLIB_FAPPEND _PDCLIB_FRW)) in
  if m =? _PDCLIB_FREAD then Some O_RDONLY
  else if m =? _PDCLIB_FWRITE then Some (Z.lor O_WRONLY (Z.lor O_CREAT O_TRUNC))
  else if m =? _PDCLIB_FAPPEND then Some (Z.lor O_WRONLY (Z.lor O_APPEND O_CREAT))
  else if m =? Z.lor _PDCLIB_FREAD _PDCLIB_FRW then Some O_RDWR
  else if m =? Z.lor _PDCLIB_FWRITE _PDCLIB_FRW then Some (Z.lor O_RDWR (Z.lor O_CREAT O_TRUNC))
  else if m =? Z.lor _PDCLIB_FAPPEND _PDCLIB_FRW then Some (Z.lor O_RDWR (Z.lor O_APPEND O_CREAT))
  else None.

(** struct _PDCLIB_file_t, as far as the platform uses it; [buffer] has bufsize bytes. *)
Record stream := mkstream { buffer : list Z; bufidx : Z; bufend : Z; ungetidx : Z; offset : Z; status : Z }.
(** [rc] and [err] are what read answered and errno, [data] the bytes it wrote.
    The result is the error, if there is one, and what the function returns. *)
Definition fillbuffer (rc err : Z) (data : list Z) (st : stream) : Z * option Z * stream :=
  let buf := zsplice 0 data (buffer st) in
  if 0 <? rc then (0, None, mkstream buf 0 rc (ungetidx st) (u64 (offset st + rc)) (status st))
  else if rc <? 0 then (-1, Some err, mkstream buf (bufidx st) (bufend st) (ungetidx st) (offset st) (Z.lor (status st) _PDCLIB_ERRORFLAG))
  else (-1, None, mkstream buf (bufidx st) (bufend st) (ungetidx st) (offset st) (Z.lor (status st) _PDCLIB_EOFFLAG)).
(** The bytes that flushbuffer writes. *)
Definition pending (st : stream) : list Z := ztake (bufidx st) (buffer st).
(** memmove of the rest to the front. *)
Definition keep_rest (written : Z) (st : stream) (offset : Z) : stream :=
  let n := bufidx st - written in
  mkstream (zsplice 0 (zslice written n (buffer st)) (buffer st)) n (bufend st) (ungetidx st) offset (Z.lor (status st) _PDCLIB_ERRORFLAG).
(** [write] is called once, with the pending bytes: _PDCLIB_IO_RETRIES is 1. *)
Definition flushbuffer (rc err : Z) (st : stream) : Z * option Z * stream :=
  if rc <? 0 then (-1, Some err, keep_rest 0 st (offset st))
  else if rc =? bufidx st then (0, None, mkstream (buffer st) 0 (bufend st) (ungetidx st) (u64 (offset st + rc)) (status st))
  else (-1, Some EAGAIN, keep_rest rc st (u64 (offset st + rc))).
(** [rc] and [err] are what lseek answered and errno. *)
Definition stream_seek (rc err whence : Z) (st : stream) : Z * option Z * stream :=
  if negb ((0 <=? whence) && (whence <=? 2)) then (-1, Some EINVAL, st)
  else if negb (rc =? -1) then (rc, None, mkstream (buffer st) 0 0 0 (u64 rc) (status st))
  else (-1, Some err, st).

(** Flushing loses no byte and writes none twice: what the kernel took and what stays in the
    buffer are the bytes that were pending, and it succeeds only if all are taken. *)
Theorem flush_keeps_bytes rc err st : 0 ≤ bufidx st ≤ zlen (buffer st) → rc ≤ bufidx st →
  let '(res, errno, st') := flushbuffer rc err st in
  ztake rc (pending st) ++ pending st' = pending st ∧ zlen (buffer st') = zlen (buffer st) ∧
  0 ≤ bufidx st' ≤ zlen (buffer st') ∧ (res = 0 ↔ rc = bufidx st) ∧ (res = 0 → bufidx st' = 0).
Proof.
  intros Hi Hrc. unfold flushbuffer.
  assert (∀ w o, 0 ≤ w ≤ bufidx st → ztake w (pending st) ++ pending (keep_rest w st o) = pending st ∧
    zlen (buffer (keep_rest w st o)) = zlen (buffer st)) as Hk.
  { intros w o Hw. unfold pending, keep_rest. cbn [buffer bufidx]. set (b := buffer st) in *.
    assert (zlen (zslice w (bufidx st - w) b) = bufidx st - w) as Hz by (unfold zslice; rewrite zlen_ztake, zlen_zdrop; lia). split.
    - unfold zsplice. rewrite (ztake_le0 0) by lia. cbn [app]. rewrite ztake_app_le, (ztake_all _ (zslice _ _ _)) by lia.
      unfold zslice. rewrite ztake_ztake. replace (Z.min w (bufidx st)) with w by lia.
      rewrite ztake_app_split by lia. f_equal. lia.
    - rewrite zlen_zsplice; lia. }
  destruct (Z.ltb_spec rc 0).
  - destruct (Hk 0 (offset st)) as [H1 H2]; [lia|]. rewrite ztake_le0 in H1 |- * by lia. rewrite H2. cbn [bufidx keep_rest].
    split_and!; [done|done|lia|lia|lia|lia].
  - destruct (Z.eqb_spec rc (bufidx st)) as [->|].
    + cbn [buffer bufidx]. unfold pending. cbn [buffer bufidx]. rewrite (ztake_le0 0), app_nil_r, ztake_ztake by lia.
      split_and!; [f_equal; lia|done|lia|lia|done|done].
    + destruct (Hk rc (u64 (offset st + rc))) as [H1 H2]; [lia|]. rewrite H2. cbn [bufidx keep_rest]. split_and!; [done|done|lia..].
Qed.

(** ** stdio/getline.c *)

Definition SIZE_MAX : Z := 2 ^ 64 - 1.
(** The characters that fgetc gives, and whether the stream has an error behind them. *)
Fixpoint getline_loop (input : list Z) (failed : bool) (line : list Z) (n : Z) : Z * list Z * Z * list Z :=
  match input with
  | [] => if failed || (zlen line =? 0) then (-1, line, n, []) else (zlen line, line, n, [])
  | c :: input =>
    if SIZE_MAX / 2 <=? zlen line then (-1, line, n, input)
    else if n <=? zlen line + 1 then
      if SIZE_MAX / 2 <? n then (-1, line, n, input)
      else if c =? 10 then (zlen line + 1, line ++ [c], n * 2, input) else getline_loop input failed (line ++ [c]) (n * 2)
    else if c =? 10 then (zlen line + 1, line ++ [c], n, input) else getline_loop input failed (line ++ [c]) n
  end.
(** [given] is [*lineptr != NULL]; the result, the line, the size of its buffer and the rest. *)
Definition getline (given : bool) (n : Z) (input : list Z) (failed : bool) : Z * list Z * Z * list Z :=
  getline_loop input failed [] (if negb given || (n =? 0) then 128 else n).

(** The line up to its newline, and what is behind it. *)
Fixpoint first_line (input : list Z) : list Z * list Z :=
  match input with
  | [] => ([], [])
  | c :: input => if c =? 10 then ([c], input) else let r := first_line input in (c :: r.1, r.2)
  end.
Lemma getline_loop_spec input : ∀ line n, 1 ≤ n → zlen line < n → zlen line + zlen input < 2 ^ 62 →
  let '(res, line', n', rest) := getline_loop input false line n in
  line' = line ++ (first_line input).1 ∧ rest = (first_line input).2 ∧ zlen line' < n' ∧
  res = (if zlen line' =? 0 then -1 else zlen line').
Proof.
  induction input as [|c input IH]; intros line n Hn Hl Hs; cbn [getline_loop first_line].
  - cbn [orb]. rewrite app_nil_r. destruct (Z.eqb_spec (zlen line) 0) as [E|E]; cbn [fst snd];
      split_and!; try done; [by rewrite E|by rewrite (proj2 (Z.eqb_neq _ _))].
  - change (SIZE_MAX / 2) with (2 ^ 63 - 1). rewrite zlen_cons in Hs. pose proof (zlen_nonneg input). pose proof (zlen_nonneg line).
    assert (∀ x, zlen (line ++ [x]) = zlen line + 1) as Hx by (intros; by rewrite zlen_app).
    rewrite (proj2 (Z.leb_gt _ _)) by lia.
    assert (∀ m, zlen line + 1 < m → let '(res, line', n', rest) :=
        if c =? 10 then (zlen line + 1, line ++ [c], m, input) else getline_loop input false (line ++ [c]) m in
      line' = line ++ (first_line (c :: input)).1 ∧ rest = (first_line (c :: input)).2 ∧ zlen line' < n' ∧
      res = (if zlen line' =? 0 then -1 else zlen line')) as Hm.
    { intros m Hm. cbn [first_line]. destruct (c =? 10).
      - rewrite Hx, (proj2 (Z.eqb_neq _ _)) by lia. split_and!; [done|done|lia|done].
      - specialize (IH (line ++ [c]) m). rewrite Hx in IH. specialize (IH ltac:(lia) ltac:(lia) ltac:(lia)).
        destruct (getline_loop _ _ _ _) as [[[res line'] n'] rest]. destruct IH as (-> & -> & H1 & H2). by rewrite <-app_assoc in *. }
    destruct (Z.leb_spec n (zlen line + 1)); [|by apply Hm; lia].
    rewrite (proj2 (Z.ltb_ge _ _)) by lia. apply Hm. lia.
Qed.
(** A line comes with its newline, its terminator fits the buffer, the rest stays in the
    stream, and -1 means that there was nothing. *)
Theorem getline_reads_line given n input : 0 ≤ n → zlen input < 2 ^ 62 →
  let '(res, line, n', rest) := getline given n input false in
  line = (first_line input).1 ∧ rest = (first_line input).2 ∧ zlen line < n' ∧
  res = (if zlen line =? 0 then -1 else zlen line).
Proof.
  intros Hn Hs. unfold getline. apply (getline_loop_spec input []); change (zlen []) with 0; [|..|lia];
    destruct (Z.eqb_spec n 0); destruct given; cbn; lia.
Qed.
