(* ===== verification/Userland.v ===== *)
(** * libc/platform and binaries: the environment, the search path, glob and the DHCP client

    What the repository adds to its C library and a program that drives the network.
    Strings are lists of characters without the terminator, allocation succeeds. *)

From S2P Require Import Prelude Path Fnmatch.

Definition EQUALS : Z := 61.
Definition COLON : Z := 58.

(** ** The environment: stdlib/getenv.c, setenv.c, putenv.c *)

(** [strncmp(e, name, len) == 0 && e[len] == '=']. *)
Definition entry_for (name e : list Z) : bool := bool_decide (ztake (zlen name + 1) e = name ++ [EQUALS]).
Fixpoint getenv (name : list Z) (environ : list (list Z)) : option (list Z) :=
  match environ with
  | [] => None
  | e :: environ => if entry_for name e then Some (zdrop (zlen name + 1) e) else getenv name environ
  end.
(** [string] replaces the entry of [name], or comes behind the others. *)
Fixpoint env_put (name string : list Z) (overwrite : bool) (environ : list (list Z)) : list (list Z) :=
  match environ with
  | [] => [string]
  | e :: environ =>
    if entry_for name e then (if overwrite then string else e) :: environ
    else e :: env_put name string overwrite environ
  end.
(** The result and the environment; -1 is EINVAL. *)
Definition setenv (name value : list Z) (overwrite : bool) (environ : list (list Z)) : Z * list (list Z) :=
  if bool_decide (EQUALS ∈ name) then (-1, environ)
  else (0, env_put name (name ++ EQUALS :: value) overwrite environ).
Fixpoint name_of (string : list Z) : option (list Z) :=
  match string with
  | [] => None
  | c :: string => if c =? EQUALS then Some [] else n ← name_of string; Some (c :: n)
  end.
Definition putenv (string : list Z) (environ : list (list Z)) : Z * list (list Z) :=
  match name_of string with
  | None | Some [] => (-1, environ)
  | Some name => (0, env_put name string true environ)
  end.

(** ** The search path: unistd/exec.c *)

Definition PATH_MAX : Z := 4096.
(** The directory up to a colon, and what is behind it. *)
Fixpoint next_dir (p : list Z) : list Z * option (list Z) :=
  match p with
  | [] => ([], None)
  | c :: p => if c =? COLON then ([], Some p) else let r := next_dir p in (c :: r.1, r.2)
  end.
(** The file in a directory; [None] is too long. *)
Definition candidate (dir file : list Z) : option (list Z) :=
  let path :=
    match last dir with
    | None => DOT :: SLASH :: file
    | Some c => dir ++ (if c =? SLASH then [] else [SLASH]) ++ file
    end in
  if PATH_MAX <? zlen path + 1 then None else Some path.
Section search.
(** The system call; a negative result is an error. *)
Context {S : Type} (spawn : list Z → K S Z).
Definition retry (errno : Z) : bool := (errno =? ENOENT) || (errno =? ENOTDIR).
(** The result and errno, which a call that succeeds leaves as it was. *)
Fixpoint search_loop (fuel : nat) (p file : list Z) (errno : Z) : K S (Z * Z) :=
  match fuel with
  | O => kfuel
  | Datatypes.S fuel =>
    let '(dir, colon) := next_dir p in
    match candidate dir file with
    | None => mret (-1, ENAMETOOLONG)
    | Some path =>
      res ← spawn path;
      if 0 <? res then mret (res, errno)
      else
        let errno := if res <? 0 then - res else errno in
        if retry errno then
          match colon with
          | None => mret (-1, errno)
          | Some p => search_loop fuel p file errno
          end
        else mret (-1, errno)
    end
  end.
(** [path] is the variable PATH; "/usr/bin:/bin" without it. *)
Definition default_path : list Z := [47; 117; 115; 114; 47; 98; 105; 110; 58; 47; 98; 105; 110].
Definition spawn_p (path : option (list Z)) (file : list Z) (errno : Z) : K S (Z * Z) :=
  match file with
  | [] => mret (-1, ENOENT)
  | _ =>
    if bool_decide (SLASH ∈ file) then
      res ← spawn file; mret (if res <? 0 then (-1, - res) else (res, errno))
    else let p := default default_path path in search_loop (Datatypes.S (length p)) p file errno
  end.
End search.

(** ** What the environment does *)

Lemma entry_for_spec name e : entry_for name e = true ↔ ∃ v, e = name ++ EQUALS :: v.
Proof.
  unfold entry_for. rewrite bool_decide_eq_true. split.
  - intros H. exists (zdrop (zlen name + 1) e). rewrite <-(ztake_zdrop (zlen name + 1) e) at 1. by rewrite H, <-app_assoc.
  - intros [v ->]. change (name ++ EQUALS :: v) with (name ++ [EQUALS] ++ v). rewrite app_assoc.
    rewrite ztake_app_le; [apply ztake_all|]; rewrite zlen_app; change (zlen [EQUALS]) with 1; lia.
Qed.
Lemma name_unique name name' v v' : EQUALS ∉ name → EQUALS ∉ name' → name ++ EQUALS :: v = name' ++ EQUALS :: v' → name = name'.
Proof.
  revert name'. induction name as [|c name IH]; intros [|c' name'] Hn Hn' E; cbn in E; [done| | |].
  - injection E as <- _. by destruct Hn'; left.
  - injection E as -> _. by destruct Hn; left.
  - injection E as -> E. rewrite not_elem_of_cons in Hn, Hn'. f_equal. apply IH; tauto.
Qed.
Lemma getenv_put name v overwrite environ : getenv name (env_put name (name ++ EQUALS :: v) overwrite environ) =
  match getenv name environ with Some old => Some (if overwrite then v else old) | None => Some v end.
Proof.
  assert (entry_for name (name ++ EQUALS :: v) = true) as Hs by (apply entry_for_spec; eauto).
  assert (zdrop (zlen name + 1) (name ++ EQUALS :: v) = v) as Hd.
  { change (name ++ EQUALS :: v) with (name ++ [EQUALS] ++ v). rewrite app_assoc. unfold zdrop.
    assert (Z.to_nat (zlen name + 1) = length (name ++ [EQUALS])) as -> by (rewrite length_app; unfold zlen; cbn; lia).
    apply drop_app_length. }
  induction environ as [|e environ IH]; cbn [env_put getenv]; [by rewrite Hs, Hd|].
  destruct (entry_for name e) eqn:E; [|cbn [getenv]; by rewrite E].
  destruct overwrite; cbn [getenv]; [by rewrite Hs, Hd|by rewrite E].
Qed.
Lemma getenv_put_other name name' v overwrite environ : EQUALS ∉ name → EQUALS ∉ name' → name ≠ name' →
  getenv name' (env_put name (name ++ EQUALS :: v) overwrite environ) = getenv name' environ.
Proof.
  intros Hn Hn' Hne.
  assert (∀ e, entry_for name e = true → entry_for name' e = false) as Hex.
  { intros e H. destruct (entry_for name' e) eqn:E; [|done]. apply entry_for_spec in H as [w ->].
    apply entry_for_spec in E as [w' E]. by apply name_unique in E. }
  assert (entry_for name (name ++ EQUALS :: v) = true) as Hs by (apply entry_for_spec; eauto).
  induction environ as [|e environ IH]; cbn [env_put getenv]; [by rewrite (Hex _ Hs)|].
  destruct (entry_for name e) eqn:E; [|cbn [getenv]; by rewrite IH].
  destruct overwrite; cbn [getenv]; [by rewrite (Hex _ Hs), (Hex _ E)|done].
Qed.
(** The environment is a map from names to values. *)
Theorem environment_is_map name value overwrite environ :
  EQUALS ∉ name →
  let r := setenv name value overwrite environ in
  r.1 = 0 ∧
  getenv name r.2 = match getenv name environ with Some old => Some (if overwrite then value else old) | None => Some value end ∧
  ∀ name', EQUALS ∉ name' → name' ≠ name → getenv name' r.2 = getenv name' environ.
Proof.
  intros Hn. unfold setenv. rewrite bool_decide_false by done. cbn. split_and!; [done|apply getenv_put|].
  intros name' Hn' Hne. by apply getenv_put_other.
Qed.

(** ** What the search does *)

(** The directories of a path in order. *)
Fixpoint directories (p : list Z) : list (list Z) :=
  match p with
  | [] => [[]]
  | c :: p =>
    if c =? COLON then [] :: directories p
    else match directories p with d :: l => (c :: d) :: l | [] => [[c]] end
  end.
Lemma directories_next p : directories p = (next_dir p).1 :: match (next_dir p).2 with Some q => directories q | None => [] end.
Proof.
  induction p as [|c p IH]; [done|]. cbn [directories next_dir]. destruct (c =? COLON); [done|]. rewrite IH. done.
Qed.
Lemma next_dir_shorter p q : (next_dir p).2 = Some q → (length q < length p)%nat.
Proof.
  induction p as [|c p IH]; [done|]. cbn [next_dir]. destruct (c =? COLON); cbn; [intros [= ->]; lia|]. intros H. specialize (IH H). lia.
Qed.
Section tried.
Context {S : Type} (spawn : list Z → K S Z).
(** One directory after the other. *)
Fixpoint try_all (l : list (list Z)) (file : list Z) (errno : Z) : K S (Z * Z) :=
  match l with
  | [] => mret (-1, errno)
  | dir :: l =>
    match candidate dir file with
    | None => mret (-1, ENAMETOOLONG)
    | Some path =>
      res ← spawn path;
      if 0 <? res then mret (res, errno)
      else let errno := if res <? 0 then - res else errno in
        if retry errno then try_all l file errno else mret (-1, errno)
    end
  end.
(** The search ends and tries the directories of the path in their order, each once, until
    one has the file or there is another error than that it has none. *)
Theorem search_in_order fuel : ∀ p file errno s, (length p < fuel)%nat →
  search_loop spawn fuel p file errno s = try_all (directories p) file errno s.
Proof.
  induction fuel as [|fuel IH]; intros p file errno s Hl; [lia|]. rewrite directories_next. cbn [search_loop try_all].
  destruct (next_dir p) as [dir colon] eqn:E. cbn [fst snd]. destruct (candidate dir file) as [path|]; [|done].
  unfold mbind, K_bind. destruct (spawn path s) as [[res s']| | |]; [|done..].
  destruct (0 <? res); [done|]. cbv zeta. destruct (retry _); [|done]. destruct colon as [q|]; [|done].
  apply IH. pose proof (next_dir_shorter p q). rewrite E in H. specialize (H eq_refl). lia.
Qed.
End tried.

(** ** binaries/dhcp-client.c: messages and their options *)

Definition DHCP_MAGIC_COOKIE : Z := 0x63825363.
Definition DHCP_OPTION_END : Z := 255.
Definition DHCP_OPTION_MESSAGE_TYPE : Z := 53.
Definition DHCP_OPTION_REQUESTED_IP : Z := 50.
Definition DHCP_OPTION_SERVER_IDENTIFIER : Z := 54.
Definition DHCP_OPTION_PARAMETER_REQUEST_LIST : Z := 55.
Definition DHCP_OPTION_SUBNET_MASK : Z := 1.
Definition DHCP_OPTION_ROUTER : Z := 3.
Definition DHCP_OPTION_DNS : Z := 6.
Definition DHCP_DISCOVER : Z := 1.
Definition DHCP_REQUEST : Z := 3.
Definition OPTIONS_SIZE : Z := 312.

(** A number of [n] bytes, high byte first. *)
Fixpoint be_bytes (n : nat) (v : Z) : list Z :=
  match n with O => [] | S n => u8 (Z.shiftr v (8 * Z.of_nat n)) :: be_bytes n v end.
(** dhcp_packet_t of a client with the hardware address [mac]. *)
Definition dhcp_packet (mac options : list Z) : list Z :=
  [1; 1; 6; 0] ++ be_bytes 4 0x12345678 ++ [0; 0] ++ be_bytes 2 0x8000 ++ zrepeat 16 0 ++ mac ++ zrepeat 10 0 ++
  zrepeat 192 0 ++ be_bytes 4 DHCP_MAGIC_COOKIE ++ options ++ zrepeat (OPTIONS_SIZE - zlen options) 0.
Definition request_list : list Z :=
  [DHCP_OPTION_PARAMETER_REQUEST_LIST; 3; DHCP_OPTION_SUBNET_MASK; DHCP_OPTION_ROUTER; DHCP_OPTION_DNS; DHCP_OPTION_END].
Definition dhcp_discover (client_mac : list Z) : list Z :=
  dhcp_packet client_mac ([DHCP_OPTION_MESSAGE_TYPE; 1; DHCP_DISCOVER] ++ request_list).
Definition dhcp_request (client_mac offered_ip dhcp_server_ip : list Z) : list Z :=
  dhcp_packet client_mac ([DHCP_OPTION_MESSAGE_TYPE; 1; DHCP_REQUEST] ++ [DHCP_OPTION_REQUESTED_IP; 4] ++ offered_ip ++
    [DHCP_OPTION_SERVER_IDENTIFIER; 4] ++ dhcp_server_ip ++ request_list).

(** Whether an answer is one: long enough, and with the cookie. *)
Definition dhcp_valid (res : Z) (packet : list Z) : bool :=
  (240 <=? res) && bool_decide (zslice 236 4 packet = be_bytes 4 DHCP_MAGIC_COOKIE).
Definition yiaddr (packet : list Z) : list Z := zslice 16 4 packet.
(** The loops over the options, from [opt] on; [None]: they leave the packet. *)
Fixpoint server_option (fuel : nat) (opt : list Z) : option (option (list Z)) :=
  match fuel, opt with
  | S fuel, c :: rest =>
    if c =? DHCP_OPTION_END then Some None
    else
      match rest with
      | [] => None
      | len :: data =>
        if (c =? DHCP_OPTION_SERVER_IDENTIFIER) && (len =? 4) then Some <$> field 0 4 data
        else server_option fuel (zdrop len data)
      end
  | _, _ => None
  end.
Fixpoint network_options (fuel : nat) (opt : list Z) (mask router : option (list Z))
    : option (option (list Z) * option (list Z)) :=
  match fuel, opt with
  | S fuel, c :: rest =>
    if c =? DHCP_OPTION_END then Some (mask, router)
    else
      match rest with
      | [] => None
      | len :: data =>
        if (c =? DHCP_OPTION_SUBNET_MASK) && (len =? 4) then
          v ← field 0 4 data; network_options fuel (zdrop len data) (Some v) router
        else if (c =? DHCP_OPTION_ROUTER) && (4 <=? len) then
          v ← field 0 4 data; network_options fuel (zdrop len data) mask (Some v)
        else network_options fuel (zdrop len data) mask router
      end
  | _, _ => None
  end.

(** Options as a server writes them. *)
Definition option_bytes (o : Z * list Z) : list Z := o.1 :: zlen o.2 :: o.2.
Definition well_written (o : Z * list Z) : Prop := o.1 ≠ DHCP_OPTION_END ∧ zlen o.2 < 256.
Definition is_server (o : Z * list Z) : bool := (o.1 =? DHCP_OPTION_SERVER_IDENTIFIER) && (zlen o.2 =? 4).
Definition is_mask (o : Z * list Z) : bool := (o.1 =? DHCP_OPTION_SUBNET_MASK) && (zlen o.2 =? 4).
Definition is_router (o : Z * list Z) : bool := (o.1 =? DHCP_OPTION_ROUTER) && (4 <=? zlen o.2).
Definition last_of (p : Z * list Z → bool) (old : option (list Z)) (l : list (Z * list Z)) : option (list Z) :=
  foldl (λ acc o, if p o then Some (ztake 4 o.2) else acc) old l.

Lemma data_read (data rest : list Z) : 4 ≤ zlen data → field 0 4 (data ++ rest) = Some (ztake 4 data).
Proof.
  intros H. rewrite field_zslice; [|lia|rewrite zlen_app; pose proof (zlen_nonneg rest); lia]. f_equal.
  unfold zslice. rewrite zdrop_0. by apply ztake_app_le.
Qed.
Lemma data_skipped (data rest : list Z) : zdrop (zlen data) (data ++ rest) = rest.
Proof. unfold zdrop, zlen. rewrite Nat2Z.id. apply drop_app_length. Qed.
Lemma server_option_found l rest : ∀ fuel, (length l < fuel)%nat → Forall well_written l →
  server_option fuel (flat_map option_bytes l ++ DHCP_OPTION_END :: rest) = Some (snd <$> find is_server l).
Proof.
  induction l as [|[c data] l IH]; intros [|fuel] Hf Hl; cbn in Hf; try lia; [done|].
  apply Forall_cons in Hl as [[Hc Hlen] Hl]. cbn [fst snd] in *.
  cbn [flat_map option_bytes fst snd app server_option find]. rewrite (proj2 (Z.eqb_neq c DHCP_OPTION_END) Hc).
  rewrite <-app_assoc. unfold is_server at 1. cbn [fst snd].
  destruct ((c =? DHCP_OPTION_SERVER_IDENTIFIER) && (zlen data =? 4)) eqn:E.
  - apply andb_true_iff in E as [_ E]. apply Z.eqb_eq in E. rewrite data_read by lia. cbn. by rewrite ztake_all by lia.
  - rewrite data_skipped. apply IH; [lia|done].
Qed.
Lemma network_options_found l rest : ∀ fuel mask router, (length l < fuel)%nat → Forall well_written l →
  network_options fuel (flat_map option_bytes l ++ DHCP_OPTION_END :: rest) mask router =
    Some (last_of is_mask mask l, last_of is_router router l).
Proof.
  induction l as [|[c data] l IH]; intros [|fuel] mask router Hf Hl; cbn in Hf; try lia; [done|].
  apply Forall_cons in Hl as [[Hc Hlen] Hl]. cbn [fst snd] in *.
  cbn [flat_map option_bytes fst snd app network_options]. rewrite (proj2 (Z.eqb_neq c DHCP_OPTION_END) Hc).
  rewrite <-app_assoc. unfold last_of. cbn [foldl]. fold (last_of is_mask) (last_of is_router).
  unfold is_mask at 2, is_router at 2. cbn [fst snd].
  destruct ((c =? DHCP_OPTION_SUBNET_MASK) && (zlen data =? 4)) eqn:E1.
  - apply andb_true_iff in E1 as [Ec E1]. apply Z.eqb_eq in E1, Ec. subst c. cbn [andb Z.eqb].
    rewrite data_read, data_skipped by lia. cbn. apply IH; [lia|done].
  - destruct ((c =? DHCP_OPTION_ROUTER) && (4 <=? zlen data)) eqn:E2.
    + apply andb_true_iff in E2 as [_ E2]. apply Z.leb_le in E2. rewrite data_read, data_skipped by lia. cbn. apply IH; [lia|done].
    + rewrite data_skipped. apply IH; [lia|done].
Qed.
(** The client reads the options of a server: the first server identifier, the last mask and
    the last router. *)
Theorem dhcp_options_read l rest fuel : (length l < fuel)%nat → Forall well_written l →
  let bytes := flat_map option_bytes l ++ DHCP_OPTION_END :: rest in
  server_option fuel bytes = Some (snd <$> find is_server l) ∧
  network_options fuel bytes None None = Some (last_of is_mask None l, last_of is_router None l).
Proof. intros Hf Hl. split; [by apply server_option_found|by apply network_options_found]. Qed.
(** A padding byte is taken for an option with a length. *)
Lemma padding_misread : server_option 10 (0 :: option_bytes (DHCP_OPTION_SERVER_IDENTIFIER, [10; 0; 0; 1]) ++ [DHCP_OPTION_END]) = None.
Proof. reflexivity. Qed.
Lemma dhcp_packet_size mac options : zlen mac = 6 → zlen options ≤ OPTIONS_SIZE → zlen (dhcp_packet mac options) = 552.
Proof.
  intros Hm Ho. unfold dhcp_packet. rewrite !zlen_app, !zlen_zrepeat, Hm. unfold OPTIONS_SIZE in *.
  change (zlen [1; 1; 6; 0]) with 4. change (zlen (be_bytes 4 _)) with 4. change (zlen (be_bytes 2 _)) with 2.
  change (zlen [0; 0]) with 2. lia.
Qed.

(** ** functions/glob.c: expanding patterns *)

Definition GLOB_ERR : Z := 1.
Definition GLOB_MARK : Z := 2.
Definition GLOB_NOSORT : Z := 4.
Definition GLOB_NOCHECK : Z := 16.
Definition GLOB_APPEND : Z := 32.
Definition GLOB_NOESCAPE : Z := 64.
Definition GLOB_PERIOD : Z := 128.
Definition GLOB_ABORTED : Z := 2.
Definition GLOB_NOMATCH : Z := 3.

Fixpoint has_magic (s : list Z) : bool :=
  match s with
  | [] => false
  | c :: s' =>
    match s' with
    | _ :: s'' => if c =? BACKSLASH then has_magic s'' else (c =? STAR) || (c =? QUESTION) || (c =? LBRACKET) || has_magic s'
    | [] => (c =? STAR) || (c =? QUESTION) || (c =? LBRACKET)
    end
  end.
Definition join_path (prefix name : list Z) : list Z :=
  match last prefix with
  | None => name
  | Some c => prefix ++ (if c =? SLASH then [] else [SLASH]) ++ name
  end.
(** The component up to a slash, and what is behind the slashes. *)
Fixpoint component (p : list Z) : list Z * option (list Z) :=
  match p with
  | [] => ([], None)
  | c :: p => if c =? SLASH then ([], Some (skip_slashes p)) else let r := component p in (c :: r.1, r.2)
  end.

Section glob.
(** The files as they are during the call: whether a path is a directory, if it is there,
    and the names in a directory, if it can be opened.  [errfunc] is the function of the caller. *)
Context (stat : list Z → option bool) (names : list Z → option (list (list Z))) (errfunc : list Z → bool) (flags : Z).

(** The results so far, and the error. *)
#[local] Notation context := (list (list Z) * Z)%type.
Definition marked (path : list Z) (is_dir : bool) : list Z :=
  if has flags GLOB_MARK && is_dir && negb (bool_decide (last path = Some SLASH)) then path ++ [SLASH] else path.
Definition add_result (path : list Z) (ctx : context) : context :=
  match stat path with Some is_dir => (ctx.1 ++ [marked path is_dir], ctx.2) | None => ctx end.
Definition is_directory (path : list Z) : bool := default false (stat path).
Definition fnflags : Z := Z.lor (if has flags GLOB_PERIOD then 0 else FNM_PERIOD) (if has flags GLOB_NOESCAPE then FNM_NOESCAPE else 0).
Definition dots (name : list Z) : bool := bool_decide (name = [DOT]) || bool_decide (name = [DOT; DOT]).
Definition report_error (path : list Z) : bool := errfunc path || has flags GLOB_ERR.
Definition or_dot (prefix : list Z) : list Z := match prefix with [] => [DOT] | _ => prefix end.
(** Each call takes a component of the pattern. *)
Fixpoint walk (fuel : nat) (pattern prefix : list Z) (ctx : context) : context :=
  match fuel with
  | O => ctx
  | S fuel =>
    if negb (ctx.2 =? 0) then ctx
    else
      match pattern with
      | [] => add_result (or_dot prefix) ctx
      | _ =>
        let '(comp, rest) := component pattern in
        let visit candidate ctx :=
          match rest with
          | Some rest => if is_directory candidate then walk fuel rest candidate ctx else ctx
          | None => add_result candidate ctx
          end in
        if negb (has_magic comp) then visit (join_path prefix comp) ctx
        else
          match names (or_dot prefix) with
          | None => if report_error (or_dot prefix) then (ctx.1, GLOB_ABORTED) else ctx
          | Some l =>
            foldl (λ ctx name,
              if negb (ctx.2 =? 0) then ctx
              else if bool_decide (fnmatch fnflags comp name ≠ Some 0) then ctx
              else if bool_decide (is_Some rest) && dots name then ctx
              else visit (join_path prefix name) ctx) ctx l
          end
      end
  end.
(** [old] is what gl_pathv holds with GLOB_APPEND; [sort] is qsort with strcmp. *)
Definition glob (sort : list (list Z) → list (list Z)) (old : list (list Z)) (pattern : list Z) : Z * list (list Z) :=
  let old := if has flags GLOB_APPEND then old else [] in
  let start := match pattern with c :: q => if c =? SLASH then (q, [SLASH]) else (pattern, []) | [] => ([], []) end in
  let ctx := walk (S (length pattern)) start.1 start.2 (old, 0) in
  if negb (ctx.2 =? 0) then (ctx.2, [])
  else if bool_decide (length ctx.1 = length old) && negb (has flags GLOB_NOCHECK) then
    (GLOB_NOMATCH, if has flags GLOB_APPEND then ctx.1 else [])
  else
    let l := if bool_decide (length ctx.1 = length old) then ctx.1 ++ [pattern] else ctx.1 in
    (0, if negb (has flags GLOB_NOSORT) && (1 <? zlen l) then sort l else l).

(** Everything that is found is there, also if it is marked. *)
Definition found (path : list Z) : Prop := ∃ p d, stat p = Some d ∧ path = marked p d.
Definition grows (a b : context) : Prop := ∃ l, b.1 = a.1 ++ l ∧ Forall found l.
Lemma glob_refl a : grows a a.
Proof. exists []. by rewrite app_nil_r. Qed.
Lemma glob_trans a b c : grows a b → grows b c → grows a c.
Proof. intros (l & E & H) (k & E2 & H2). exists (l ++ k). rewrite E2, E, app_assoc. split; [done|by apply Forall_app]. Qed.
Lemma glob_result path ctx : grows ctx (add_result path ctx).
Proof.
  unfold add_result. destruct (stat path) as [d|] eqn:E; [|apply glob_refl]. exists [marked path d]. split; [done|].
  constructor; [by exists path, d|constructor].
Qed.
Lemma walk_finds fuel : ∀ pattern prefix ctx, grows ctx (walk fuel pattern prefix ctx).
Proof.
  induction fuel as [|fuel IH]; intros pattern prefix ctx; cbn [walk]; [apply glob_refl|].
  destruct (negb _); [apply glob_refl|]. destruct pattern as [|c pattern]; [apply glob_result|].
  destruct (component (c :: pattern)) as [comp rest].
  assert (∀ path ctx, grows ctx (match rest with Some rest => if is_directory path then walk fuel rest path ctx else ctx
    | None => add_result path ctx end)) as Hv.
  { intros path ctx'. destruct rest; [|apply glob_result]. destruct (is_directory path); [apply IH|apply glob_refl]. }
  destruct (negb _); [apply Hv|]. destruct (names (or_dot prefix)) as [l|].
  - revert ctx. induction l as [|name l IHl]; intros ctx; cbn [foldl]; [apply glob_refl|].
    eapply glob_trans; [|apply IHl]. destruct (negb (ctx.2 =? 0)); [apply glob_refl|].
    destruct (bool_decide (fnmatch fnflags comp name ≠ Some 0)); [apply glob_refl|].
    destruct (bool_decide (is_Some rest) && dots name); [apply glob_refl|apply Hv].
  - destruct (report_error _); [exists []; cbn; by rewrite app_nil_r|apply glob_refl].
Qed.
(** What the search finds is there. *)
Theorem glob_finds_files pattern prefix old : ∃ l, (walk (S (length pattern)) pattern prefix (old, 0)).1 = old ++ l ∧ Forall found l.
Proof. apply walk_finds. Qed.
End glob.
(** An escaped character is not magic, but the name that is looked up keeps the escape. *)
Lemma escape_stays : has_magic [97; BACKSLASH; STAR] = false ∧ join_path [] [97; BACKSLASH; STAR] = [97; BACKSLASH; STAR].
Proof. done. Qed.
